(* ===== verification/_CoqProject ===== *)
-Q . S2P
Prelude.v
Integer.v
CircList.v
Buffer.v
PacketId.v
Reliable.v
ReliableProto.v
HashList.v
Mroute.v
MultiRoute.v
MultiLookup.v
Otime.v
Schedule.v
Mtu.v
CString.v
Base64.v
Proto.v
Mss.v
ClientNat.v
Dhcp.v
Vlan.v
InnerPacket.v
Mbuf.v
Pool.v
Fragment.v
Crypto.v
CryptoToy.v
DataChannel.v
KeyExchange.v
KeyDerive.v
KeyMessage.v
TlsCrypt.v
ControlCrypt.v
ControlWrap.v
ControlSession.v
TlsState.v
TlsProcess.v
TlsToy.v
TlsLoop.v
TlsHandshake.v
TlsMulti.v
TlsTurnover.v
TlsPackets.v
DataSession.v
AuthToken.v
Ncp.v
ParseLine.v
