(* ===== verification/Prelude.v ===== *)
(** * A verification development for the OpenVPN core of openaws-vpn-client

    The repository is a client for the AWS VPN: a graphical wrapper (Rust, under
    [src/src/]) around a copy of OpenVPN 2.5.11 (C, under
    [src/build-mobile/openvpn-2.5.11/src/openvpn/]; below, file names are relative
    to that directory).  The wrapper starts the [openvpn] program and feeds it a
    configuration; everything that touches packets is OpenVPN's, and that is what is
    modelled here.

    ** The program and its parts

    A datagram takes this way through the program.  A packet from the network
    arrives in a packet buffer whose head room was computed from the sizes of
    [mtu.h]; a server maps its source to a client through the hash tables and the
    virtual addresses; the opcode separates control packets, which go through the
    reliability layer to the TLS engine, from data packets, which are checked
    against replay, put together from fragments, and routed by their inner
    destination.  The way out is the mirror image.  Timers (intervals, the retry
    times of the reliability layer, the housekeeping of fragments) are turned into
    one wake-up time per client, and a server keeps these in its scheduler.  The
    files of the development follow these parts; each requires those it builds on.

    - [Prelude]: record update, C integers, big-endian fields, memory slices.
    - [Integer] ([integer.h]) and [CircList] ([circ_list.h]): small helpers.
    - [Buffer] ([buffer.h], [buffer.c]): the record [buffer] is [struct buffer]
      together with the block it points into; an operation that in C returns a
      pointer returns an index, one that returns [bool] returns the flag and the
      new buffer.  The abstract counterpart is a byte deque with head and tail room.
    - [PacketId] ([packet_id.h], [packet_id.c], [crypto_check_replay] of
      [crypto.c]): the sender's counter and the receive window over [CircList].
      The abstract counterpart is a sliding window over the set of accepted ids.
    - [Reliable] ([reliable.h], [reliable.c], [session_id.h]): acknowledgments,
      send and receive windows, retransmission.
    - [ReliableProto] ([ssl.c]): the parts of [tls_process], [tls_pre_decrypt] and
      [write_control_auth] that use the reliability layer, as the steps of two
      peers over a network that loses, duplicates and reorders packets.
    - [HashList] ([list.h], [list.c]): the hash table.  The function pointers of
      [struct hash] are the class [HashKey]; the clients' theorems are proved
      against its laws and [Mroute] gives the instance for virtual addresses.  The
      abstract counterpart is an association list.
    - [Mroute] ([mroute.h], [mroute.c]): virtual addresses and [net_len].
    - [MultiRoute] and [MultiLookup] ([multi.h], [multi.c]): the server's table of
      virtual addresses over a heap of client instances with reference counts
      (definitions in the first, invariant and theorems in the second).
    - [Otime] ([otime.h], [otime.c], [interval.h], [interval.c]): the clock, event
      frequency limits and timers.
    - [Schedule] ([schedule.h], [schedule.c], with the callers in [multi.c] and
      [multi.h]): the treap of wake-up times, as linked cells of a heap.  The
      abstract counterpart is a finite map from entries to times.
    - [Mtu] ([mtu.h], [mtu.c]): [struct frame] and the sizes derived from it.
    - [Fragment] ([fragment.h], [fragment.c]): fragmentation and reassembly.
    - [Crypto] ([crypto.c], [crypto.h], [crypto_openssl.c]): encryption and
      decryption of data packets, in every mode.  OpenSSL is the class [EvpLib] of
      the functions the code calls, and [EvpLaws] is their documented behaviour; the
      specification ([seal_packet], [open_packet]) is on byte strings.  [CryptoToy]
      is a toy instance of both classes for the examples.
    - [DataChannel] ([ssl.c], [forward.c]): the choice of keys, the two headers of
      data packets, [encrypt_sign] and the data path of
      [process_incoming_link_part1].
    - [DataSession]: runs of the two ends of the data channel over a network.
    - [KeyExchange] ([ssl.c], [crypto.c], [crypto_openssl.c]): the random material,
      the pseudo-random function, key types and key contexts, and the key exchange
      message.  What OpenSSL does with key material is the class [EvpKeyLib].
    - [KeyDerive] and [KeyMessage]: the laws of that class, the specification of the
      pseudo-random function by RFC 2246, the agreement of the two ends on their
      keys, and the fate of the message.
    - [TlsCrypt] ([tls_crypt.c]) and [ControlWrap] ([ssl.c]): the wrapping of control
      packets, client keys wrapped by a server, [write_control_auth] and
      [read_control_auth] in every way of wrapping, and the stateless check of a first
      packet.  [ControlCrypt] has the laws of counter mode and of codes fed in pieces,
      and the specification on byte strings; [ControlSession] puts two ends together.
    - [TlsState] ([ssl.c], [ssl_common.h], [socket.h]): key states, sessions and
      [tls_multi], their creation, soft reset and replacement; the TLS object of
      OpenSSL is the class [TlsLib], of which the code uses how reads and writes end.
    - [TlsProcess] ([ssl.c]): [tls_process], its loop cut at the comments of the code
      into parts that go on, jump to [error] or leave with a packet ([outcome]).
    - [TlsMulti] ([ssl.c], [ssl_verify.c]): [tls_multi_process], the sorting of packets
      by [tls_pre_decrypt], deferred authentication, payload on the control channel.
      What users, scripts, the management interface and random generators answer is
      the record [outside].
    - [TlsLoop], [TlsHandshake], [TlsTurnover] and [TlsPackets]: their theorems;
      [TlsToy] a toy TLS library for the examples.
    - [Proto] ([proto.h], [proto.c]): words of a block as a little-endian host reads
      them, the IP version of a packet, the internet checksum and its incremental
      update; one's complement equality, and packets rewritten in place
      ([rewritten]).
    - [Mss] ([mss.c]), [ClientNat] ([clinat.c]), [Dhcp] ([dhcp.c]): the changes of
      packets inside the tunnel: segment size of TCP, addresses, DHCP routers.
      [InnerPacket] ([forward.c]) is [process_ip_header], which composes them, and
      the ICMPv6 answer to blocked packets; [inet_pton] is a parameter.
    - [Vlan] ([vlan.c]): VLAN tags on frames of a bridging server.
    - [Mbuf] ([mbuf.h], [mbuf.c], with [multi.c]): the server's queue of packets for
      clients, a ring of counted references to packets of a heap.  The abstract
      counterparts are a bounded list of packets in which clients that left leave
      holes, and, while nobody leaves, a plain bounded queue.
    - [Pool] ([pool.h], [pool.c], [multi_select_virtual_addr] of [multi.c], [status_printf]
      and [status_read] of [status.c]): the pool of virtual addresses, the text of its
      database, and the addresses the clients of a server get; printing and parsing an
      IPv6 address and resolving the text of an IPv4 address are parameters.
    - [CString] ([buffer.c], [socket.c], [string.h]): strings of C as the bytes before
      the terminator, the few functions of the C library on them, cutting a buffer
      into fields, and the text of an IPv4 address.
    - [Base64] ([base64.c]): encoding and decoding, with the decoder's acceptance of
      what is not base64.
    - [AuthToken] ([auth_token.c], [verify_user_pass] of [ssl_verify.c], [push.c],
      [init.c]): the tokens a server gives users in place of their password, their
      verification and renewal, and the strings pushed with them; the message
      authentication code is that of [EvpLib].
    - [Ncp] ([ssl_ncp.c], with the callers in [multi.c], [push.c], [ssl.c], [init.c] and
      [options.c]): cipher negotiation between a server and a client.  The names and
      kinds of ciphers OpenSSL knows are parameters.
    - [ParseLine] ([options.c]): how a line of a configuration file or a pushed option is
      cut into parameters.

    ** Conventions

    A definition has the name of the C function it translates; the mutable state a
    function reaches through a pointer is an argument and part of the result.  A
    failed [ASSERT], a fatal message ([M_FATAL]), an access through a null or freed
    pointer, and fuel that runs out are all [None]; that they do not happen is part
    of the theorems, never a hypothesis, and where they do happen the theorem says when.  C integers are [Z] reduced by [u8], [u16],
    [u32], [u64] or [i32] where the code can wrap; sizes that stay far from the
    limits of [int] are plain [Z].  Global variables of the C code ([now], the
    random generator) are arguments.  Memory blocks are [list Z] of bytes, written
    and read by [mem_write] and [mem_read].

    ** The theorems

    - Control channel: every reachable state of the two peers delivers a prefix of
      what was queued ([ReliableProto.control_channel_in_order]), loses nothing
      ([control_channel_no_loss]) and can always finish
      ([control_channel_progress]); [Reliable] has the retransmission schedule, the
      round trip of acknowledgment records and the wrap-around comparisons.
    - Replay protection: no packet id is accepted twice
      ([PacketId.replay_never_accepted_twice]), the window refines the abstract one
      ([replay_window_refines_spec]), the sender never repeats an id
      ([send_ids_fresh]), expiry, stream mode, wire format, and what a reload of
      the persisted id does ([persist_reload_reopens_window]).
    - Server routing: lookups follow the longest prefix in spite of the cache
      ([MultiLookup.lookup_longest_prefix], for runs without a stale-route check), reference counts and quotas are exact
      ([instances_exact]), the reaper frees what is closed ([reap_frees_closed]);
      a network in use is dropped by the stale-route check
      ([stale_check_drops_used_network]).  They rest on the hash table
      ([HashList.hash_refines_map], [hash_sweep_exact]) and on [Mroute].
    - Time: the clock is monotone whatever the system clock does
      ([Otime.clock_never_goes_back]), timers do not drift ([timer_no_drift]), the
      frequency limit is a bound ([frequency_limit_bounds]), [tv_add] is exact only
      below 2^20 microseconds ([tv_add_drops]).
    - Scheduler: refinement of the map ([Schedule.schedule_refines_map]), the treap
      invariant ([schedule_keeps_treap]), termination of its loops
      ([schedule_loops_end]), and the callers ([sleep_until_earliest],
      [wakeup_within_sigma]).
    - Buffers and fragments: [Buffer.buf_ops_refine_deque],
      [Buffer.write_read_fields_roundtrip], [Mtu.work_buffer_fits],
      [Fragment.fragment_roundtrip], [Fragment.fragment_incoming_safe], and the
      bytes of an earlier datagram a bad fragment exposes
      ([Fragment.stale_bytes_delivered]).
    - Data channel: whatever a network does, a receiver delivers each packet of the
      sender at most once and nothing else
      ([DataSession.data_channel_at_most_once]); a packet that arrives is decrypted
      to what was sent ([DataSession.data_packet_roundtrip]).  Forgery is the
      hypothesis that what was not sent does not pass the cryptography: the laws of
      the library say nothing about secrecy.
    - Keys: the pseudo-random function is that of RFC 2246
      ([KeyDerive.openvpn_PRF_is_rfc2246]) and two ends with the same material hold
      crossed keys, ready for the data channel ([KeyDerive.key_exchange_agrees], whose
      conclusion is what [DataSession] asks for); but the message that carries the
      material is refused by a peer built from the same source
      ([KeyMessage.key_method_2_refused]).
    - Control packets: what one end wraps the other unwraps
      ([ControlSession.control_wrap_roundtrip]), an unknown peer must show a packet
      that opens under the shared keys or those in its wrapped client key
      ([ControlSession.first_packet_check], with the one packet that stops a server for
      tls-crypt-v2), and a
      client key comes back as the server wrapped it
      ([ControlCrypt.client_key_handed_over]).
    - TLS sessions: [tls_process] ends whatever the TLS library answers
      ([TlsHandshake.tls_process_ends]), follows the order of the handshake
      ([handshake_order]), gives up at the deadline and asks to be called again in time for
      everything that is due ([handshake_deadline]); only a session
      that completed the key exchange replaces the active one
      ([TlsTurnover.active_session_replaced]), and a control packet reaches only the
      session of its peer ([TlsPackets.control_packet_reaches]).
    - Packets inside the tunnel: [process_ip_header], when an option makes it look at
      packets, changes them in place as the specifications of its parts say, in their
      order, and answers blocked packets ([InnerPacket.ip_header_processed]); the parts are
      [Mss.mss_option_clamped], [ClientNat.client_nat_translates] and
      [Dhcp.dhcp_router_taken_out], all of which keep checksums correct (with the
      exceptions shown beside them).  Frames keep their network across the tap device
      of a server ([Vlan.vlan_frames_keep_network]).
    - A server and its clients: its queue of packets is a bounded queue, with holes left
      by clients that are gone, that uses no packet after its release and keeps none
      ([Mbuf.mbuf_refines_queue]); clients never share an address of the pool
      ([Pool.pool_no_shared_address]) and get theirs back from the text of the database
      after a restart ([Pool.pool_restart_keeps_addresses]).  The exceptions are shown
      beside the theorems.
    - Authentication tokens: a token is judged by its code, its age and its session
      ([AuthToken.auth_token_judged]) and keeps a session alive between
      reconnections ([AuthToken.auth_token_session]); its encoding decodes to the
      bytes encoded ([Base64.base64_roundtrip]).
    - Negotiation and options: a server and a client end with the same cipher, or the
      server turns the client away ([Ncp.ncp_agreement]); parameters written with
      quotes and escapes are read back ([ParseLine.parse_line_reads_back]).

    ** Fuel and bounds

    Loops that are not structural take fuel, and the callers give enough of it:
    [adjust_power_of_2_loop] 65 doublings for a 64-bit size; [hash_blocks] the
    length of the key; [next_bucket] the buckets left; [hash_sweep_loop] and
    [route_sweep_loop] one more than the number of elements (every turn visits a
    new element, proved in [HashList.hash_sweep_exact]); [mask_loop] 17 for an
    address of 16 bytes; [packet_id_fill] the gap between the ids;
    [packet_id_reap_loop] the size of the window; [tv_delta_loop] the seconds to
    borrow.  [Schedule] keeps its fuel as a parameter: [schedule_loops_end] gives
    the amounts, the draw of a random priority that no other entry has being the
    only unbounded loop of the code.  [fragment_drain] takes the largest number of
    fragments, and [Fragment.fragment_roundtrip] proves it is enough.
    [P_hash_loop] takes one more than the bytes asked for: every turn but the last
    delivers a digest of at least one byte ([KeyDerive.P_hash_loop_spec]).
    [tls_process] takes [TLS_TURNS], 30 turns of its loop: a turn that changes something
    moves the key state forward, uses up one of the 4 + 8 entries of the queues or one
    of the plaintext buffers ([TlsHandshake.tls_process_ends]).  [session_id_random] draws
    until an identifier is not zero, [out_sid_tries] times at most; its theorems are
    about calls that find one.
    [mss_options] takes the length of the TCP header and [get_dhcp_message_type] one more
    than the length of the options, every turn moving on by a byte at least;
    [do_extract] twice that length, a turn either moving on or taking an option away
    (its bytes that are not padding); [fold_carries] 4 turns, a sum of 32 bits having
    at most two carries.
    [mbuf_extract_loop] takes one more than the items in the queue, each turn taking one
    out; the other loops over the queue and the pool are structural.
    The loops of [Base64] take one more than the length of their input, each turn using
    at least one byte or character.
    [Pool.read_loop] takes one more than the bytes of the file, each turn reading one at
    least ([Pool.read_shape]).

    ** Not modelled

    - Input and output: sockets, the tunnel device, the event loop, routing tables,
      name resolution, processes, signals, files, Windows services and drivers.
      These are calls into the operating system with little logic of their own.
    - Cryptography and TLS: OpenSSL and mbed TLS are not part of the repository (the
      former is the classes [EvpLib], [EvpKeyLib] and [TlsLib]); the verification of
      certificates, of passwords outside tokens (scripts, plugins and management, whose
      answers are inputs), and key files.
    - Configuration: the options themselves (only how a line is cut into parameters
      and the options of cipher negotiation are), the management interface, pushed
      options, plugins and scripts.
    - Compression: the algorithms are third-party libraries.
    - The Rust wrapper: process handling and user interface.
    - Within modelled components: printing and debugging code, self tests, and
      functions that only release memory. *)
From stdpp Require Export base list numbers option.
From stdpp Require Export gmap.
From Stdlib Require Export ZArith Lia.
#[global] Open Scope Z_scope.
#[export] Set Default Goal Selector "!".

(** Shared ground of the development: functional record update, C integer
    conversions, memory slices (the [memcpy]/array idiom on [list Z]) and the
    tactics and hint databases every component uses. *)

(** ** Functional record update *)

(** [eta_of R] is the eta-expansion of a record type; a field setter is derived
    from it by abstracting the projection. *)
Class EtaOf (R : Type) := eta_of : R -> R.
Class Setter {R T : Type} (proj : R -> T) := upd : (T -> T) -> R -> R.
#[global] Hint Mode Setter - - ! : typeclass_instances.

Ltac derive_setter :=
  match goal with
  | |- @Setter ?R ?T ?proj =>
      let inst := constr:(ltac:(typeclasses eauto) : EtaOf R) in
      exact (fun (g : T -> T) (r : R) =>
        ltac:(let inst' := eval hnf in inst in
              let body := eval cbv beta in (inst' r) in
              let pat := eval pattern (proj r) in body in
              match pat with
              | (fun _ => ?b) _ => fail 1
              | ?f _ => let out := eval cbv beta in (f (g (proj r))) in exact out
              end))
  end.
#[global] Hint Extern 1 (Setter _) => derive_setter : typeclass_instances.

Create HintDb ovpn discriminated.

Declare Scope ovpn_scope.
Delimit Scope ovpn_scope with ovpn.
Notation "x <| f := v |>" := (upd (proj := f) (fun _ => v) x)
  (at level 1, f at next level, left associativity, format "x <| f  :=  v |>") : ovpn_scope.
#[global] Open Scope ovpn_scope.

(** ** C integers *)

(** Reduction of a mathematical integer to the unsigned w-bit C type. *)
Definition wrap (w z : Z) : Z := z mod 2 ^ w.
Abbreviation u8 := (wrap 8).
Abbreviation u16 := (wrap 16).
Abbreviation u32 := (wrap 32).
Abbreviation u64 := (wrap 64).

(** Conversion to the signed 32-bit type [int]. *)
Definition i32 (z : Z) : Z := (z + 2 ^ 31) mod 2 ^ 32 - 2 ^ 31.

Definition is_u (w z : Z) : Prop := 0 <= z < 2 ^ w.
Definition is_byte (z : Z) : Prop := 0 <= z < 256.
#[global] Instance is_byte_dec z : Decision (is_byte z).
Proof. unfold is_byte. apply _. Defined.

Lemma wrap_small w z : is_u w z -> wrap w z = z.
Proof. intros H. apply Z.mod_small, H. Qed.

Lemma wrap_range w z : 0 <= w -> is_u w (wrap w z).
Proof. intros. apply Z.mod_pos_bound. apply Z.pow_pos_nonneg; lia. Qed.

Lemma wrap_byte z : is_byte (wrap 8 z).
Proof. apply (wrap_range 8 z). lia. Qed.

Lemma i32_small z : - 2 ^ 31 <= z < 2 ^ 31 -> i32 z = z.
Proof. intros. unfold i32. rewrite Z.mod_small; lia. Qed.

(** ** Big-endian (network order) encodings *)

Definition be16 (z : Z) : list Z := [wrap 8 (z / 2 ^ 8); wrap 8 z].
Definition be32 (z : Z) : list Z :=
  [wrap 8 (z / 2 ^ 24); wrap 8 (z / 2 ^ 16); wrap 8 (z / 2 ^ 8); wrap 8 z].
Definition be_val (bs : list Z) : Z := fold_left (fun acc b => acc * 256 + b) bs 0.

(** Evaluate the powers of two in the goal and hypotheses, then decide linear
    arithmetic with division and remainder. *)
Ltac pow2_eval :=
  repeat match goal with
  | |- context [2 ^ ?n] =>
      let v := eval vm_compute in (2 ^ n) in change (2 ^ n) with v
  | H : context [2 ^ ?n] |- _ =>
      let v := eval vm_compute in (2 ^ n) in change (2 ^ n) with v in H
  end.
Ltac zdiv := pow2_eval; Z.to_euclidean_division_equations; lia.

Lemma be16_val z : be_val (be16 z) = wrap 16 z.
Proof. unfold be_val, be16, wrap. cbn -[Z.modulo Z.div Z.pow]. zdiv. Qed.

Lemma be32_val z : be_val (be32 z) = wrap 32 z.
Proof. unfold be_val, be32, wrap. cbn -[Z.modulo Z.div Z.pow]. zdiv. Qed.

Lemma be32_val_id z : is_u 32 z -> be_val (be32 z) = z.
Proof. intros. rewrite be32_val. by apply wrap_small. Qed.

Lemma be16_bytes z : Forall is_byte (be16 z).
Proof. repeat constructor; apply wrap_byte. Qed.

Lemma be32_bytes z : Forall is_byte (be32 z).
Proof. repeat constructor; apply wrap_byte. Qed.

Lemma be_val_range4 bs :
  Forall is_byte bs -> length bs = 4%nat -> is_u 32 (be_val bs).
Proof.
  intros Hb Hl. destruct bs as [|a [|b [|c [|d [|]]]]]; try discriminate.
  repeat match goal with H : Forall _ _ |- _ => inversion H; clear H; subst end.
  unfold be_val, is_u, is_byte in *. cbn -[Z.pow]. zdiv.
Qed.

Lemma be32_of_val bs :
  Forall is_byte bs -> length bs = 4%nat -> be32 (be_val bs) = bs.
Proof.
  intros Hb Hl. destruct bs as [|a [|b [|c [|d [|]]]]]; try discriminate.
  repeat match goal with H : Forall _ _ |- _ => inversion H; clear H; subst end.
  unfold be_val, be32, wrap, is_byte in *; cbn -[Z.modulo Z.div Z.pow].
  repeat f_equal; zdiv.
Qed.



(** ** Arrays and memory blocks *)

Definition zlen {A} (l : list A) : Z := Z.of_nat (length l).

(** [a[i]] where the code guarantees the index; [d] stands for the value an
    out-of-range read would give. *)
Definition zget {A} (d : A) (l : list A) (i : Z) : A :=
  if i <? 0 then d else default d (l !! Z.to_nat i).
(** [a[i] = x]; out of range the array is left alone. *)
Definition zput {A} (l : list A) (i : Z) (x : A) : list A :=
  if i <? 0 then l else <[Z.to_nat i := x]> l.

(** [memcpy] out of and into a block. *)
Definition mem_read {A} (d : list A) (off n : Z) : list A :=
  take (Z.to_nat n) (drop (Z.to_nat off) d).
Definition mem_write {A} (d : list A) (off : Z) (bs : list A) : list A :=
  take (Z.to_nat off) d ++ bs ++ drop (Z.to_nat off + length bs) d.

Lemma zlen_nonneg {A} (l : list A) : 0 <= zlen l.
Proof. unfold zlen. lia. Qed.
#[export] Hint Resolve zlen_nonneg : core.

Lemma zlen_app {A} (l k : list A) : zlen (l ++ k) = zlen l + zlen k.
Proof. unfold zlen. rewrite length_app. lia. Qed.

Lemma zlen_cons {A} (x : A) l : zlen (x :: l) = zlen l + 1.
Proof. unfold zlen. simpl length. lia. Qed.

Lemma zlen_nil {A} : zlen (@nil A) = 0.
Proof. reflexivity. Qed.

Lemma zput_length {A} (l : list A) i x : length (zput l i x) = length l.
Proof. unfold zput. case_match; [done|]. apply length_insert. Qed.

Lemma zlen_zput {A} (l : list A) i x : zlen (zput l i x) = zlen l.
Proof. unfold zlen. by rewrite zput_length. Qed.

Lemma zget_zput_eq {A} (d : A) l i x :
  0 <= i < zlen l -> zget d (zput l i x) i = x.
Proof.
  unfold zget, zput, zlen. intros H. destruct (Z.ltb_spec i 0); [lia|].
  rewrite list_lookup_insert_eq by lia. done.
Qed.

Lemma zget_zput_ne {A} (d : A) l i j x :
  0 <= i -> i <> j -> zget d (zput l i x) j = zget d l j.
Proof.
  unfold zget, zput. intros H Hij.
  destruct (Z.ltb_spec i 0), (Z.ltb_spec j 0); try done.
  rewrite list_lookup_insert_ne; [done | lia].
Qed.

Lemma zget_lookup {A} (d : A) l i :
  0 <= i < zlen l -> l !! Z.to_nat i = Some (zget d l i).
Proof.
  unfold zget, zlen. intros H. destruct (Z.ltb_spec i 0); [lia|].
  destruct (l !! Z.to_nat i) eqn:E; [done|].
  apply lookup_ge_None in E. lia.
Qed.

Lemma zget_of_lookup {A} (d : A) l (i : nat) x :
  l !! i = Some x -> zget d l (Z.of_nat i) = x.
Proof.
  intros H. unfold zget. destruct (Z.ltb_spec (Z.of_nat i) 0); [lia|].
  rewrite Nat2Z.id, H. done.
Qed.

(** *** Slices *)

Lemma mem_read_length {A} (d : list A) off n :
  0 <= off -> 0 <= n -> off + n <= zlen d -> zlen (mem_read d off n) = n.
Proof.
  unfold mem_read, zlen. intros. rewrite length_take, length_drop. lia.
Qed.

Lemma mem_write_length {A} (d : list A) off bs :
  0 <= off -> off + zlen bs <= zlen d -> length (mem_write d off bs) = length d.
Proof.
  unfold mem_write, zlen. intros.
  rewrite !length_app, length_take, length_drop. lia.
Qed.

Lemma zlen_mem_write {A} (d : list A) off bs :
  0 <= off -> off + zlen bs <= zlen d -> zlen (mem_write d off bs) = zlen d.
Proof. intros. unfold zlen. by rewrite mem_write_length. Qed.

(** Reading back what was written. *)
Lemma mem_read_write_eq {A} (d : list A) off bs :
  0 <= off -> off + zlen bs <= zlen d ->
  mem_read (mem_write d off bs) off (zlen bs) = bs.
Proof.
  unfold mem_read, mem_write, zlen. intros.
  rewrite drop_app_length' by (rewrite length_take; lia).
  apply take_app_length'. lia.
Qed.

(** A write does not disturb a slice that ends before it ... *)
Lemma mem_read_write_before {A} (d : list A) off n o bs :
  0 <= o -> 0 <= n -> o + n <= off -> off <= zlen d ->
  mem_read (mem_write d off bs) o n = mem_read d o n.
Proof.
  unfold mem_read, mem_write, zlen. intros.
  rewrite drop_app_le by (rewrite length_take; lia).
  rewrite take_app_le by (rewrite length_drop, length_take; lia).
  rewrite !take_drop_commute, take_take. do 2 f_equal. lia.
Qed.

(** ... or starts after it. *)
Lemma mem_read_write_after {A} (d : list A) off n o bs :
  0 <= off -> off + zlen bs <= o -> off + zlen bs <= zlen d ->
  mem_read (mem_write d off bs) o n = mem_read d o n.
Proof.
  unfold mem_read, mem_write, zlen. intros. f_equal.
  rewrite app_assoc.
  rewrite drop_app_ge by (rewrite length_app, length_take; lia).
  rewrite drop_drop. f_equal. rewrite length_app, length_take. lia.
Qed.

(** Adjacent slices concatenate. *)
Lemma mem_read_app {A} (d : list A) off n m :
  0 <= off -> 0 <= n -> 0 <= m ->
  mem_read d off (n + m) = mem_read d off n ++ mem_read d (off + n) m.
Proof.
  unfold mem_read. intros.
  rewrite !Z2Nat.inj_add by lia. rewrite <- drop_drop.
  by rewrite take_take_drop.
Qed.

Lemma mem_read_all {A} (d : list A) : mem_read d 0 (zlen d) = d.
Proof. unfold mem_read, zlen. rewrite drop_0. apply firstn_all2. lia. Qed.

Lemma mem_read_0 {A} (d : list A) off : mem_read d off 0 = [].
Proof. reflexivity. Qed.

Lemma mem_write_nil {A} (d : list A) off : mem_write d off [] = d.
Proof. unfold mem_write. cbn. rewrite Nat.add_0_r. apply take_drop. Qed.

Lemma mem_read_Forall {A} (P : A -> Prop) d off n :
  Forall P d -> Forall P (mem_read d off n).
Proof. intros. unfold mem_read. by apply Forall_take, Forall_drop. Qed.

Lemma mem_write_Forall {A} (P : A -> Prop) d off bs :
  Forall P d -> Forall P bs -> Forall P (mem_write d off bs).
Proof.
  intros. unfold mem_write. apply Forall_app; split; [by apply Forall_take|].
  apply Forall_app; split; [done | by apply Forall_drop].
Qed.
#[export] Hint Resolve mem_read_Forall mem_write_Forall be16_bytes be32_bytes
  wrap_byte : ovpn.

(** ** Searching an array *)

(** [for (i = 0; i < n; ++i) if (test (a[i])) return i;] *)
Fixpoint findi {A} (test : A -> bool) (l : list A) : option nat :=
  match l with
  | [] => None
  | x :: l' => if test x then Some O else S <$> findi test l'
  end.

Lemma findi_Some {A} (test : A -> bool) l i :
  findi test l = Some i -> exists x, l !! i = Some x /\ test x = true.
Proof.
  revert i. induction l as [|x l IH]; intros i H; cbn in *; [done|].
  destruct (test x) eqn:E; [injection H as <-; eauto|].
  destruct (findi test l) as [j|]; [|done]. injection H as <-. cbn. auto.
Qed.

Lemma findi_None {A} (test : A -> bool) l :
  findi test l = None <-> (forall i x, l !! i = Some x -> test x = false).
Proof.
  induction l as [|x l IH]; cbn; [done|]. split.
  - destruct (test x) eqn:E; [done|]. intros H [|i] y Hy; cbn in Hy; [by injection Hy as <-|].
    destruct (findi test l); [done|]. eapply IH; done.
  - intros H. rewrite (H 0%nat x) by done. destruct IH as [_ IH]. rewrite IH; [done|].
    intros i y Hy. apply (H (S i)). done.
Qed.

(** The index found is the first one. *)
Lemma findi_first {A} (test : A -> bool) l i j x :
  findi test l = Some i -> (j < i)%nat -> l !! j = Some x -> test x = false.
Proof.
  revert i j. induction l as [|y l IH]; intros i j H Hj Hx; cbn in *; [done|].
  destruct (test y) eqn:E; [injection H as <-; lia|].
  destruct (findi test l) as [k|] eqn:F; [|done]. injection H as <-.
  destruct j; cbn in Hx; [by injection Hx as <-|]. eapply (IH k j); try done. lia.
Qed.

Lemma existsb_lookup {A} (test : A -> bool) l :
  existsb test l = true <-> exists i x, l !! i = Some x /\ test x = true.
Proof.
  rewrite existsb_exists. split.
  - intros (x & Hin%list_elem_of_In & Hx). apply list_elem_of_lookup in Hin as [i Hi]. eauto.
  - intros (i & x & Hi & Hx). exists x. split; [|done]. apply list_elem_of_In.
    by eapply list_elem_of_lookup_2.
Qed.

(** ** Bit operations keep the width *)

Lemma testbit_high w x n : is_u w x -> w <= n -> Z.testbit x n = false.
Proof.
  intros [Hx Hlt] Hn. assert (0 <= w) by (destruct (Z.neg_nonneg_cases w); [rewrite Z.pow_neg_r in Hlt; lia|done]).
  rewrite <- (Z.mod_small x (2 ^ w)) by lia. by apply Z.mod_pow2_bits_high.
Qed.

Lemma is_u_bits w z : 0 <= w -> (forall n, w <= n -> Z.testbit z n = false) -> is_u w z.
Proof.
  intros Hw H. assert (Hz : z = z mod 2 ^ w).
  { apply Z.bits_inj'. intros n Hn. destruct (Z.lt_ge_cases n w).
    - by rewrite Z.mod_pow2_bits_low.
    - rewrite Z.mod_pow2_bits_high by lia. by apply H. }
  rewrite Hz. by apply (wrap_range w z).
Qed.

Lemma lxor_range w x y : 0 <= w -> is_u w x -> is_u w y -> is_u w (Z.lxor x y).
Proof.
  intros Hw Hx Hy. apply is_u_bits; [done|]. intros n Hn.
  by rewrite Z.lxor_spec, !(testbit_high w) by done.
Qed.

Lemma lor_range w x y : 0 <= w -> is_u w x -> is_u w y -> is_u w (Z.lor x y).
Proof.
  intros Hw Hx Hy. apply is_u_bits; [done|]. intros n Hn.
  by rewrite Z.lor_spec, !(testbit_high w) by done.
Qed.

Lemma land_range w x y : 0 <= w -> is_u w x -> is_u w (Z.land x y).
Proof.
  intros Hw Hx. apply is_u_bits; [done|]. intros n Hn.
  by rewrite Z.land_spec, (testbit_high w x) by done.
Qed.

Lemma shiftr_range w x s : 0 <= s -> is_u w x -> is_u w (Z.shiftr x s).
Proof.
  intros Hs [H1 H2]. unfold is_u. rewrite Z.shiftr_div_pow2 by done.
  pose proof (Z.pow_pos_nonneg 2 s). split; [apply Z.div_pos; lia|].
  apply Z.le_lt_trans with x; [|done]. apply Z.div_le_upper_bound; nia.
Qed.

(** The value of bytes in network order. *)
Lemma be_val_app l k : be_val (l ++ k) = be_val l * 256 ^ zlen k + be_val k.
Proof.
  unfold be_val. rewrite fold_left_app.
  assert (G : forall k a, fold_left (fun acc b => acc * 256 + b) k a
                = a * 256 ^ zlen k + fold_left (fun acc b => acc * 256 + b) k 0).
  { clear. induction k as [|x k IH]; intros a; cbn [fold_left].
    - rewrite zlen_nil. lia.
    - rewrite IH, (IH (0 * 256 + x)). rewrite zlen_cons, Z.pow_add_r by (pose proof (zlen_nonneg k); lia). lia. }
  apply G.
Qed.

Lemma be_val_snoc l x : be_val (l ++ [x]) = be_val l * 256 + x.
Proof. rewrite be_val_app. change (zlen [x]) with 1. change (be_val [x]) with x. lia. Qed.

Lemma be_val_nonneg l : Forall is_byte l -> 0 <= be_val l.
Proof.
  induction l as [|x l IH] using rev_ind; [done|]. intros [Hl Hx]%Forall_app. rewrite be_val_snoc.
  apply Forall_cons in Hx as [[Hx _] _]. specialize (IH Hl). lia.
Qed.

Lemma be_val_lt l : Forall is_byte l -> be_val l < 256 ^ zlen l.
Proof.
  induction l as [|x l IH] using rev_ind; intros Hf; [done|]. apply Forall_app in Hf as [Hl [Hx _]%Forall_cons].
  rewrite be_val_snoc. specialize (IH Hl). unfold zlen in *. rewrite length_app. cbn [length]. unfold is_byte in Hx.
  rewrite Nat2Z.inj_add, Z.pow_add_r by lia. change (256 ^ Z.of_nat 1) with 256. lia.
Qed.

Lemma be_val_inj l : forall k, length l = length k -> Forall is_byte l -> Forall is_byte k -> be_val l = be_val k -> l = k.
Proof.
  induction l as [|x l IH] using rev_ind; intros k Hl Hb Hk He.
  - by destruct k.
  - destruct k as [|y k _] using rev_ind; [rewrite length_app in Hl; cbn in Hl; lia|].
    rewrite !length_app in Hl. cbn in Hl. rewrite !be_val_snoc in He.
    apply Forall_app in Hb as [Hb [Hx _]%Forall_cons]. apply Forall_app in Hk as [Hk [Hy _]%Forall_cons].
    unfold is_byte in Hx, Hy. assert (be_val l = be_val k /\ x = y) as [Hv ->] by lia.
    f_equal. apply IH; try done. lia.
Qed.
