(* ===== verification/Integer.v ===== *)
(** The helpers of [src/openvpn/integer.h]: clamping, arithmetic on a circle and
    checked indices.  A failed [ASSERT] or a fatal [msg] is [None]. *)
From S2P Require Import Prelude.

Definition max_int (x y : Z) : Z := if y <? x then x else y.
Definition min_int (x y : Z) : Z := if x <? y then x else y.

Definition constrain_int (x min max : Z) : Z :=
  if max <? min then min
  else if x <? min then min
  else if max <? x then max
  else x.

Definition modulo_subtract (x y mod_ : Z) : option Z :=
  let d1 := x - y in
  let d2 := (if y <? x then - mod_ else mod_) + d1 in
  if (0 <=? x) && (x <? mod_) && (0 <=? y) && (y <? mod_)
  then Some (if Z.abs d2 <? Z.abs d1 then d2 else d1)
  else None.

Definition modulo_add (x y mod_ : Z) : option Z :=
  let sum := x + y in
  if (0 <=? x) && (x <? mod_) && (- mod_ <=? y) && (y <=? mod_)
  then
    let sum := if mod_ <=? sum then sum - mod_ else sum in
    let sum := if sum <? 0 then sum + mod_ else sum in
    Some sum
  else None.

Definition index_verify (index size : Z) : option Z :=
  if (index <? 0) || (size <=? index) then None else Some index.

(** [while (ret < u) ret <<= 1] on a [size_t]; the assertion fires when the
    shift drops the only bit.  65 rounds see the shift out of the word. *)
Fixpoint adjust_power_of_2_loop (fuel : nat) (ret u : Z) : option Z :=
  match fuel with
  | O => None
  | S fuel' =>
      if ret <? u
      then let ret' := u64 (Z.shiftl ret 1) in
           if 0 <? ret' then adjust_power_of_2_loop fuel' ret' u else None
      else Some ret
  end.
Definition adjust_power_of_2 (u : Z) : option Z := adjust_power_of_2_loop 65 1 u.

(** ** Facts *)

Lemma min_int_min x y : min_int x y = Z.min x y.
Proof. unfold min_int. destruct (Z.ltb_spec x y); lia. Qed.
Lemma max_int_max x y : max_int x y = Z.max x y.
Proof. unfold max_int. destruct (Z.ltb_spec y x); lia. Qed.

Lemma modulo_add_mod x y m :
  0 <= x < m -> - m <= y <= m -> modulo_add x y m = Some ((x + y) mod m).
Proof.
  intros Hx Hy. unfold modulo_add.
  destruct (Z.leb_spec 0 x), (Z.ltb_spec x m), (Z.leb_spec (- m) y), (Z.leb_spec y m); try lia.
  cbn [andb]. f_equal.
  destruct (Z.leb_spec m (x + y)).
  - destruct (Z.ltb_spec (x + y - m) 0); [lia|].
    apply (Z.mod_unique _ _ 1); lia.
  - destruct (Z.ltb_spec (x + y) 0).
    + apply (Z.mod_unique _ _ (-1)); lia.
    + symmetry. apply Z.mod_small. lia.
Qed.

Lemma index_verify_in i n : 0 <= i < n -> index_verify i n = Some i.
Proof.
  intros. unfold index_verify.
  destruct (Z.ltb_spec i 0), (Z.leb_spec n i); try lia; done.
Qed.

Lemma constrain_int_range x lo hi :
  lo <= hi -> lo <= constrain_int x lo hi <= hi /\
  (lo <= x <= hi -> constrain_int x lo hi = x).
Proof.
  intros. unfold constrain_int.
  destruct (Z.ltb_spec hi lo); [lia|].
  destruct (Z.ltb_spec x lo); [lia|]. destruct (Z.ltb_spec hi x); lia.
Qed.

Lemma adjust_power_of_2_loop_spec k : forall j u,
  0 <= j -> j + Z.of_nat k = 64 -> u <= 2 ^ 63 ->
  (j = 0 \/ 2 ^ (j - 1) < u) ->
  exists e, adjust_power_of_2_loop (S k) (2 ^ j) u = Some (2 ^ e) /\
    0 <= e /\ u <= 2 ^ e /\ (e = 0 \/ 2 ^ (e - 1) < u).
Proof.
  induction k as [|k IH]; intros j u Hj Hk Hu Hlow.
  - replace j with 64 in * by lia. destruct Hlow as [?|Hlow]; [lia|].
    change (2 ^ (64 - 1)) with (2 ^ 63) in Hlow. lia.
  - assert (Hp : 0 < 2 ^ j) by (apply Z.pow_pos_nonneg; lia).
    cbn [adjust_power_of_2_loop]. destruct (Z.ltb_spec (2 ^ j) u) as [Hlt|Hge].
    + assert (j < 63). { apply (Z.pow_lt_mono_r_iff 2); lia. }
      assert (E : u64 (Z.shiftl (2 ^ j) 1) = 2 ^ (j + 1)).
      { rewrite Z.shiftl_mul_pow2, <- Z.pow_add_r by lia. apply wrap_small.
        split; [lia|]. apply Z.pow_lt_mono_r; lia. }
      rewrite E. assert (0 < 2 ^ (j + 1)) by (apply Z.pow_pos_nonneg; lia).
      destruct (Z.ltb_spec 0 (2 ^ (j + 1))); [|lia].
      apply IH; try lia. right. by replace (j + 1 - 1) with j by lia.
    + exists j. split; [done|]. lia.
Qed.

(** The next power of two, for every size up to 2^63. *)
Lemma adjust_power_of_2_spec u :
  u <= 2 ^ 63 ->
  exists e, adjust_power_of_2 u = Some (2 ^ e) /\ 0 <= e /\ u <= 2 ^ e /\
    (e = 0 \/ 2 ^ (e - 1) < u).
Proof.
  intros. unfold adjust_power_of_2. change 1 with (2 ^ 0).
  apply (adjust_power_of_2_loop_spec 64); lia.
Qed.
