(* ===== verification/CircList.v ===== *)
(** The circular list macros of [src/openvpn/circ_list.h], over a concrete array
  with a moving head, and their refinement by a bounded history list whose
  element 0 is the latest push. *)
From S2P Require Import Prelude Integer.

Section CircList.
Context {A : Type} (d0 : A).

Record circ_list := mkcirc {
  x_head : Z;
  x_size : Z;
  x_cap : Z;
  x_list : list A
}.
#[local] Instance eta_circ : EtaOf circ_list :=
  fun r => mkcirc (x_head r) (x_size r) (x_cap r) (x_list r).

Definition CIRC_LIST_ALLOC (size : Z) : circ_list :=
  mkcirc 0 0 size (replicate (Z.to_nat size) d0).

Definition CIRC_LIST_PUSH (obj : circ_list) (item : A) : option circ_list :=
  head ← modulo_add (x_head obj) (-1) (x_cap obj);
  let obj := obj <| x_head := head |> in
  let obj := obj <| x_list := zput (x_list obj) (x_head obj) item |> in
  Some (obj <| x_size := min_int (x_size obj + 1) (x_cap obj) |>).

Definition CIRC_LIST_SIZE (obj : circ_list) : Z := x_size obj.

Definition CIRC_LIST_INDEX (obj : circ_list) (index : Z) : option Z :=
  i ← index_verify index (x_size obj);
  modulo_add (x_head obj) i (x_cap obj).

Definition CIRC_LIST_ITEM (obj : circ_list) (index : Z) : option A :=
  i ← CIRC_LIST_INDEX obj index; Some (zget d0 (x_list obj) i).

(** [CIRC_LIST_ITEM (obj, index) = v] *)
Definition CIRC_LIST_SET (obj : circ_list) (index : Z) (v : A) : option circ_list :=
  i ← CIRC_LIST_INDEX obj index; Some (obj <| x_list := zput (x_list obj) i v |>).

Definition CIRC_LIST_RESET (obj : circ_list) : circ_list :=
  obj <| x_head := 0 |> <| x_size := 0 |>.

(** ** Invariant and abstraction *)

Record circ_wf (c : circ_list) : Prop := {
  cw_cap : 0 < x_cap c;
  cw_head : 0 <= x_head c < x_cap c;
  cw_size : 0 <= x_size c <= x_cap c;
  cw_len : zlen (x_list c) = x_cap c
}.

Definition circ_at (c : circ_list) (i : Z) : A :=
  zget d0 (x_list c) ((x_head c + i) mod x_cap c).

(** The stored items, latest first. *)
Definition circ_items (c : circ_list) : list A :=
  map (fun i => circ_at c (Z.of_nat i)) (seq 0 (Z.to_nat (x_size c))).

Lemma circ_items_length c : circ_wf c -> zlen (circ_items c) = x_size c.
Proof. intros []. unfold circ_items, zlen. rewrite length_map, length_seq. lia. Qed.

Lemma circ_items_lookup c i :
  0 <= i < x_size c -> circ_items c !! Z.to_nat i = Some (circ_at c i).
Proof.
  intros Hi. unfold circ_items. rewrite list_lookup_fmap, lookup_seq_lt by lia. cbn.
  do 2 f_equal. lia.
Qed.

Lemma circ_alloc_wf n : 0 < n -> circ_wf (CIRC_LIST_ALLOC n).
Proof.
  intros. constructor; cbn; try lia. unfold zlen. rewrite length_replicate. lia.
Qed.

Lemma circ_alloc_items n : circ_items (CIRC_LIST_ALLOC n) = [].
Proof. done. Qed.

Lemma circ_reset_wf c : circ_wf c -> circ_wf (CIRC_LIST_RESET c).
Proof. intros []. constructor; cbn; try lia; done. Qed.

Lemma circ_reset_items c : circ_items (CIRC_LIST_RESET c) = [].
Proof. done. Qed.

Lemma circ_index c i :
  circ_wf c -> 0 <= i < x_size c ->
  CIRC_LIST_INDEX c i = Some ((x_head c + i) mod x_cap c).
Proof.
  intros [] Hi. unfold CIRC_LIST_INDEX. rewrite index_verify_in by done. cbn.
  apply modulo_add_mod; lia.
Qed.

Lemma circ_index_oob c i : i < 0 \/ x_size c <= i -> CIRC_LIST_INDEX c i = None.
Proof.
  intros Hi. unfold CIRC_LIST_INDEX, index_verify.
  destruct (Z.ltb_spec i 0), (Z.leb_spec (x_size c) i); try lia; done.
Qed.

Lemma circ_item c i :
  circ_wf c -> 0 <= i < x_size c -> CIRC_LIST_ITEM c i = Some (circ_at c i).
Proof. intros. unfold CIRC_LIST_ITEM. by rewrite circ_index. Qed.

(** Distinct offsets below the capacity address distinct cells. *)
Lemma circ_mod_inj h i j cap :
  0 < cap -> 0 <= i < cap -> 0 <= j < cap ->
  (h + i) mod cap = (h + j) mod cap -> i = j.
Proof.
  intros Hc Hi Hj E.
  assert ((i - j) mod cap = 0) as D.
  { replace (i - j) with ((h + i) - (h + j)) by lia.
    rewrite Zminus_mod, E, Z.sub_diag. apply Z.mod_0_l. lia. }
  apply Z.mod_divide in D; [|lia]. destruct D as [k D].
  destruct (Z.eq_dec k 0) as [->|]; [lia|]. nia.
Qed.

Lemma circ_set c i v :
  circ_wf c -> 0 <= i < x_size c ->
  exists c', CIRC_LIST_SET c i v = Some c' /\ circ_wf c' /\
    x_size c' = x_size c /\ x_cap c' = x_cap c /\
    (forall j, 0 <= j < x_size c -> circ_at c' j = if j =? i then v else circ_at c j).
Proof.
  intros W Hi. unfold CIRC_LIST_SET. rewrite circ_index by done. cbn.
  eexists. split; [reflexivity|].
  destruct W. assert (0 <= (x_head c + i) mod x_cap c < x_cap c) by (apply Z.mod_pos_bound; lia).
  split; [constructor; cbn; rewrite ?zlen_zput; done|]. split; [done|]. split; [done|].
  intros j Hj. unfold circ_at. cbn. destruct (Z.eqb_spec j i) as [->|Hne].
  - apply zget_zput_eq. lia.
  - apply zget_zput_ne; [lia|]. intros E. apply circ_mod_inj in E; lia.
Qed.

Lemma circ_push c v :
  circ_wf c ->
  exists c', CIRC_LIST_PUSH c v = Some c' /\ circ_wf c' /\
    x_size c' = Z.min (x_size c + 1) (x_cap c) /\ x_cap c' = x_cap c /\
    circ_at c' 0 = v /\
    (forall i, 0 <= i < x_cap c - 1 -> circ_at c' (i + 1) = circ_at c i).
Proof.
  intros []. unfold CIRC_LIST_PUSH. rewrite modulo_add_mod by lia. cbn.
  assert (0 <= (x_head c + -1) mod x_cap c < x_cap c) by (apply Z.mod_pos_bound; lia).
  eexists. split; [reflexivity|]. split.
  { constructor; cbn; rewrite ?zlen_zput, ?min_int_min; try lia. }
  cbn. split; [apply min_int_min|]. split; [done|]. unfold circ_at. cbn. split.
  - rewrite Z.add_0_r, Z.mod_mod by lia. apply zget_zput_eq. lia.
  - intros i Hi. rewrite Zplus_mod_idemp_l.
    replace (x_head c + -1 + (i + 1)) with (x_head c + i) by lia.
    apply zget_zput_ne; [lia|]. intros E.
    assert (E' : (x_head c + -1 + 0) mod x_cap c = (x_head c + -1 + (i + 1)) mod x_cap c).
    { rewrite Z.add_0_r, E. f_equal. lia. }
    apply circ_mod_inj in E'; lia.
Qed.
End CircList.
Arguments circ_list : clear implicits.
#[export] Instance eta_circ_list {A} : EtaOf (circ_list A) :=
fun r => mkcirc (x_head r) (x_size r) (x_cap r) (x_list r).
