(* ===== verification/Buffer.v ===== *)
(** The packet buffer of [src/openvpn/buffer.h] and [buffer.c]: [struct buffer]
    as a record that owns its memory block, every accessor and mutator, the
    well-formedness invariant, and the refinement of the buffer by a byte deque
    with bounded head room and tail room.  A pointer into the block is its index
    ([None] is [NULL]); a fatal [msg]/[ASSERT] is [None] of the result. *)
From S2P Require Import Prelude.

(** ** Data *)

Definition BUF_SIZE_MAX : Z := Z.shiftl 1 21.

Record buffer := mkbuffer {
  b_capacity : Z;
  b_offset : Z;
  b_len : Z;
  b_data : option (list Z)
}.
#[export] Instance eta_buffer : EtaOf buffer :=
  fun r => mkbuffer (b_capacity r) (b_offset r) (b_len r) (b_data r).

(** ** Accessors *)

Definition clear_buf : buffer := mkbuffer 0 0 0 None.

Definition buf_defined (buf : buffer) : bool :=
  match b_data buf with Some _ => true | None => false end.

Definition buf_valid (buf : buffer) : bool :=
  buf_defined buf && (0 <=? b_len buf).

Definition buf_bptr (buf : buffer) : option Z :=
  if buf_valid buf then Some (b_offset buf) else None.

Definition buf_len (buf : buffer) : Z :=
  if buf_valid buf then b_len buf else 0.

Definition buf_bend (buf : buffer) : option Z :=
  p ← buf_bptr buf; Some (p + buf_len buf).

Definition buf_blast (buf : buffer) : option Z :=
  if 0 <? buf_len buf
  then p ← buf_bptr buf; Some (p + buf_len buf - 1)
  else None.

(** [size] is a [size_t]: a negative [int] argument arrives as a huge value. *)
Definition buf_size_valid (size : Z) : bool := u64 size <? BUF_SIZE_MAX.

Definition buf_size_valid_signed (size : Z) : bool :=
  (Z.shiftl (-1) 21 <=? size) && (size <? BUF_SIZE_MAX).

(** [*p] and [*p = v] for a pointer into the block. *)
Definition buf_peek (buf : buffer) (p : Z) : Z :=
  match b_data buf with Some d => zget 0 d p | None => 0 end.
Definition buf_poke (buf : buffer) (p v : Z) : buffer :=
  buf <| b_data := (fun d => zput d p v) <$> b_data buf |>.
(** [memcpy] into and out of the block. *)
Definition buf_store (buf : buffer) (p : Z) (src : list Z) : buffer :=
  buf <| b_data := (fun d => mem_write d p src) <$> b_data buf |>.
Definition buf_load (buf : buffer) (p n : Z) : list Z :=
  match b_data buf with Some d => mem_read d p n | None => [] end.

(** The bytes [BPTR(buf)], [BLEN(buf)] designate. *)
Definition buf_contents (buf : buffer) : list Z :=
  match buf_bptr buf with
  | Some p => buf_load buf p (buf_len buf)
  | None => []
  end.

(** ** Initialisation *)

Definition buf_reset (_ : buffer) : buffer := mkbuffer 0 0 0 None.

Definition buf_reset_len (buf : buffer) : buffer :=
  buf <| b_len := 0 |> <| b_offset := 0 |>.

Definition buf_init_dowork (buf : buffer) (offset : Z) : bool * buffer :=
  if (offset <? 0) || (b_capacity buf <? offset) || negb (buf_defined buf)
  then (false, buf)
  else (true, buf <| b_len := 0 |> <| b_offset := offset |>).

Definition buf_set_read (data : list Z) (size : Z) : option buffer :=
  if buf_size_valid size then Some (mkbuffer size 0 size (Some data)) else None.

Definition buf_set_write (data : list Z) (size : Z) : option buffer :=
  if buf_size_valid size
  then Some (mkbuffer size 0 0 (Some (if 0 <? size then zput data 0 0 else data)))
  else None.

Definition alloc_buf (size : Z) : option buffer :=
  if buf_size_valid size
  then Some (mkbuffer size 0 0 (Some (replicate (Z.to_nat size) 0)))
  else None.

Definition buf_clear (buf : buffer) : buffer :=
  let buf' := if 0 <? b_capacity buf
              then buf_store buf 0 (replicate (Z.to_nat (b_capacity buf)) 0)
              else buf in
  buf' <| b_len := 0 |> <| b_offset := 0 |>.

Definition free_buf (_ : buffer) : buffer := clear_buf.

(** ** Room *)

Definition buf_safe (buf : buffer) (len : Z) : bool :=
  buf_valid buf && buf_size_valid len
  && (b_offset buf + b_len buf + len <=? b_capacity buf).

Definition buf_safe_bidir (buf : buffer) (len : Z) : bool :=
  if buf_valid buf && buf_size_valid_signed len
  then let newlen := b_len buf + len in
       (0 <=? newlen) && (b_offset buf + newlen <=? b_capacity buf)
  else false.

Definition buf_forward_capacity (buf : buffer) : Z :=
  if buf_valid buf
  then let ret := b_capacity buf - (b_offset buf + b_len buf) in
       if ret <? 0 then 0 else ret
  else 0.

Definition buf_forward_capacity_total (buf : buffer) : Z :=
  if buf_valid buf
  then let ret := b_capacity buf - b_offset buf in
       if ret <? 0 then 0 else ret
  else 0.

Definition buf_reverse_capacity (buf : buffer) : Z :=
  if buf_valid buf then b_offset buf else 0.

Definition buf_inc_len (buf : buffer) (inc : Z) : bool * buffer :=
  if negb (buf_safe_bidir buf inc) then (false, buf)
  else (true, buf <| b_len := b_len buf + inc |>).

(** ** Moving the window *)

Definition buf_prepend (buf : buffer) (size : Z) : option Z * buffer :=
  if negb (buf_valid buf) || (size <? 0) || (b_offset buf <? size)
  then (None, buf)
  else
    let buf' := buf <| b_offset := b_offset buf - size |>
                    <| b_len := b_len buf + size |> in
    (buf_bptr buf', buf').

Definition buf_advance (buf : buffer) (size : Z) : bool * buffer :=
  if negb (buf_valid buf) || (size <? 0) || (b_len buf <? size)
  then (false, buf)
  else (true, buf <| b_offset := b_offset buf + size |>
                  <| b_len := b_len buf - size |>).

Definition buf_write_alloc (buf : buffer) (size : Z) : option Z * buffer :=
  if negb (buf_safe buf size) then (None, buf)
  else
    let ret := p ← buf_bptr buf; Some (p + b_len buf) in
    (ret, buf <| b_len := b_len buf + size |>).

Definition buf_write_alloc_prepend (buf : buffer) (size : Z) (prepend : bool)
  : option Z * buffer :=
  if prepend then buf_prepend buf size else buf_write_alloc buf size.

(** No [buf_valid] test here: a cleared buffer of length 0 still answers a read
    of size 0, with the null pointer. *)
Definition buf_read_alloc (buf : buffer) (size : Z) : option Z * buffer :=
  if (size <? 0) || (b_len buf <? size) then (None, buf)
  else
    let ret := buf_bptr buf in
    (ret, buf <| b_offset := b_offset buf + size |>
              <| b_len := b_len buf - size |>).

(** ** Writing *)

Definition buf_write (dest : buffer) (src : list Z) : bool * buffer :=
  let '(cp, dest) := buf_write_alloc dest (zlen src) in
  match cp with
  | None => (false, dest)
  | Some p => (true, buf_store dest p src)
  end.

Definition buf_write_prepend (dest : buffer) (src : list Z) : bool * buffer :=
  let '(cp, dest) := buf_prepend dest (zlen src) in
  match cp with
  | None => (false, dest)
  | Some p => (true, buf_store dest p src)
  end.

Definition buf_write_u8 (dest : buffer) (data : Z) : bool * buffer :=
  buf_write dest [u8 data].

Definition buf_write_u16 (dest : buffer) (data : Z) : bool * buffer :=
  buf_write dest (be16 (u16 data)).

Definition buf_write_u32 (dest : buffer) (data : Z) : bool * buffer :=
  buf_write dest (be32 (u32 data)).

Definition buf_copy (dest src : buffer) : bool * buffer :=
  buf_write dest (buf_contents src).

(** Answers the result, the destination and the (consumed) source. *)
Definition buf_copy_n (dest src : buffer) (n : Z) : bool * buffer * buffer :=
  let '(cp, src') := buf_read_alloc src n in
  match cp with
  | None => (false, dest, src')
  | Some p => let '(ok, dest') := buf_write dest (buf_load src' p n) in
              (ok, dest', src')
  end.

Definition buf_copy_range (dest : buffer) (dest_index : Z) (src : buffer)
    (src_index src_len : Z) : bool * buffer :=
  if (src_index <? 0) || (src_len <? 0) || (b_len src <? src_index + src_len)
     || (dest_index <? 0)
     || (b_capacity dest <? b_offset dest + dest_index + src_len)
  then (false, dest)
  else
    let dest1 := buf_store dest (b_offset dest + dest_index)
                   (buf_load src (b_offset src + src_index) src_len) in
    (true, if b_len dest <? dest_index + src_len
           then dest1 <| b_len := dest_index + src_len |> else dest1).

(** Truncate [src] to [len], the excess goes to [dest]. *)
Definition buf_copy_excess (dest src : buffer) (len : Z) : bool * buffer * buffer :=
  if len <? 0 then (false, dest, src)
  else if len <? b_len src then
    let b := src in
    let src' := src <| b_len := len |> in
    let '(ok, b') := buf_advance b len in
    if negb ok then (false, dest, src')
    else let '(ok', dest') := buf_copy dest b' in (ok', dest', src')
  else (true, dest, src).

Definition buf_assign (dest src : buffer) : bool * buffer :=
  let '(ok, dest1) := buf_init_dowork dest (b_offset src) in
  if negb ok then (false, dest1) else buf_write dest1 (buf_contents src).

Definition clone_buf (buf : buffer) : buffer :=
  let fresh := mkbuffer (b_capacity buf) (b_offset buf) (b_len buf)
                 (Some (replicate (Z.to_nat (b_capacity buf)) 0)) in
  match buf_bptr fresh with
  | Some p => buf_store fresh p (buf_contents buf)
  | None => fresh
  end.

(** ** Reading *)

Definition buf_read (src : buffer) (size : Z) : option (list Z) * buffer :=
  let '(cp, src') := buf_read_alloc src size in
  match cp with
  | None => (None, src')
  | Some p => (Some (buf_load src' p size), src')
  end.

Definition buf_read_u8 (buf : buffer) : Z * buffer :=
  if buf_len buf <? 1 then (-1, buf)
  else match buf_bptr buf with
       | None => (-1, buf)
       | Some p => (buf_peek buf p, snd (buf_advance buf 1))
       end.

Definition buf_read_u16 (buf : buffer) : Z * buffer :=
  match buf_read buf 2 with
  | (None, buf') => (-1, buf')
  | (Some bs, buf') => (be_val bs, buf')
  end.

(** [(good, value, buffer)] *)
Definition buf_read_u32 (buf : buffer) : bool * Z * buffer :=
  match buf_read buf 4 with
  | (None, buf') => (false, 0, buf')
  | (Some bs, buf') => (true, be_val bs, buf')
  end.

(** ** Comparison *)

Definition bytes_eqb (a b : list Z) : bool := bool_decide (a = b).

Definition buf_equal (a b : buffer) : bool :=
  (buf_len a =? buf_len b) && bytes_eqb (buf_contents a) (buf_contents b).

Definition buf_string_match (src : buffer) (mtch : list Z) : bool :=
  if negb (zlen mtch =? b_len src) then false
  else bytes_eqb (buf_contents src) mtch.

Definition buf_string_match_head (src : buffer) (mtch : list Z) : bool :=
  if b_len src <? zlen mtch then false
  else bytes_eqb (take (length mtch) (buf_contents src)) mtch.

Definition buf_string_compare_advance (src : buffer) (mtch : list Z) : bool * buffer :=
  if buf_string_match_head src mtch
  then (true, snd (buf_advance src (zlen mtch)))
  else (false, src).

(** ** Well-formedness *)

Record buf_wf (b : buffer) : Prop := {
  wf_cap : 0 <= b_capacity b < BUF_SIZE_MAX;
  wf_off : 0 <= b_offset b;
  wf_len : 0 <= b_len b;
  wf_fit : b_offset b + b_len b <= b_capacity b;
  wf_mem : forall d, b_data b = Some d -> zlen d = b_capacity b /\ Forall is_byte d;
  wf_null : b_data b = None -> b_capacity b = 0
}.

(** A buffer that owns a block. *)
Definition buf_live (b : buffer) : Prop := buf_wf b /\ buf_defined b = true.

(** Take a hypothesis about a buffer apart: its block, its bounds. *)
Ltac buf_open b :=
  let Hd := fresh "Hdata" in
  repeat match goal with
  | H : buf_live b |- _ => destruct H
  | H : buf_wf b |- _ => destruct H
  end;
  destruct b as [? ? ? [?|]]; cbn in *;
  repeat match goal with
  | H : forall d, Some ?x = Some d -> _ |- _ => specialize (H x eq_refl) as [??]
  | H : None = None -> _ |- _ => specialize (H eq_refl)
  | H : Some _ = None -> _ |- _ => clear H
  | H : forall d, None = Some d -> _ |- _ => clear H
  end; try discriminate.

Lemma buf_size_valid_spec n : - 2 ^ 31 <= n < 2 ^ 31 ->
  buf_size_valid n = (0 <=? n) && (n <? 2 ^ 21).
Proof.
  intros H. unfold buf_size_valid, wrap, BUF_SIZE_MAX. rewrite Z.shiftl_mul_pow2 by lia.
  destruct (Z.leb_spec 0 n); cbn [andb].
  - rewrite Z.mod_small by lia. f_equal.
  - apply Z.ltb_ge. zdiv.
Qed.

Lemma buf_live_intro b d :
  b_data b = Some d -> zlen d = b_capacity b -> Forall is_byte d ->
  b_capacity b < BUF_SIZE_MAX -> 0 <= b_offset b -> 0 <= b_len b ->
  b_offset b + b_len b <= b_capacity b -> buf_live b.
Proof.
  intros Hd Hl Hf ? ? ? ?. pose proof (zlen_nonneg d). split.
  - constructor; try lia; intros; simplify_eq; auto.
  - unfold buf_defined. by rewrite Hd.
Qed.

Lemma BUF_SIZE_MAX_eq : BUF_SIZE_MAX = 2097152.
Proof. reflexivity. Qed.
Lemma buf_size_min_eq : Z.shiftl (-1) 21 = -2097152.
Proof. reflexivity. Qed.

Lemma buf_live_valid b : buf_live b -> buf_valid b = true.
Proof.
  intros [W D]. unfold buf_valid. rewrite D. cbn. apply Z.leb_le, (wf_len b W).
Qed.

Lemma buf_live_bptr b : buf_live b -> buf_bptr b = Some (b_offset b).
Proof. intros H. unfold buf_bptr. by rewrite buf_live_valid. Qed.

Lemma buf_live_len b : buf_live b -> buf_len b = b_len b.
Proof. intros H. unfold buf_len. by rewrite buf_live_valid. Qed.

Lemma buf_live_data b : buf_live b -> exists d, b_data b = Some d /\
  zlen d = b_capacity b /\ Forall is_byte d.
Proof. intros H. buf_open b. eauto. Qed.

Lemma buf_contents_live b d : buf_live b -> b_data b = Some d ->
  buf_contents b = mem_read d (b_offset b) (b_len b).
Proof.
  intros H Hd. unfold buf_contents, buf_load.
  by rewrite buf_live_bptr, buf_live_len, Hd.
Qed.

Lemma buf_contents_length b : buf_live b -> zlen (buf_contents b) = b_len b.
Proof.
  intros H. destruct (buf_live_data b H) as (d & Hd & Hl & _).
  rewrite (buf_contents_live b d) by done. destruct H as [[] _].
  apply mem_read_length; lia.
Qed.

Lemma buf_contents_bytes b : buf_wf b -> Forall is_byte (buf_contents b).
Proof.
  intros []. unfold buf_contents, buf_load. case_match; [|constructor].
  case_match; [|constructor]. apply mem_read_Forall. eapply wf_mem0. done.
Qed.
#[export] Hint Resolve buf_contents_bytes : ovpn.

(** *** Fresh buffers *)

Lemma alloc_buf_live n b : 0 <= n < 2 ^ 31 -> alloc_buf n = Some b ->
  buf_live b /\ b_offset b = 0 /\ b_len b = 0 /\ b_capacity b = n.
Proof.
  unfold alloc_buf. intros Hn H. rewrite buf_size_valid_spec in H by lia.
  case_match eqn:E; [|done]. injection H as <-. apply andb_true_iff in E as [? ?%Z.ltb_lt].
  split; [|done]. eapply buf_live_intro; cbn; try done; rewrite ?BUF_SIZE_MAX_eq; try lia.
  - unfold zlen. rewrite length_replicate. lia.
  - apply Forall_replicate. unfold is_byte. lia.
Qed.

Lemma alloc_buf_total n : 0 <= n < 2 ^ 21 -> is_Some (alloc_buf n).
Proof.
  intros. unfold alloc_buf. rewrite buf_size_valid_spec by lia.
  destruct (Z.leb_spec 0 n), (Z.ltb_spec n (2^21)); cbn; eauto; lia.
Qed.

(** *** Appending *)

Lemma buf_write_room b src :
  buf_live b -> zlen src <= b_capacity b - b_offset b - b_len b ->
  Forall is_byte src ->
  exists b', buf_write b src = (true, b') /\ buf_live b' /\
    b_capacity b' = b_capacity b /\ b_offset b' = b_offset b /\
    b_len b' = b_len b + zlen src /\
    buf_contents b' = buf_contents b ++ src.
Proof.
  intros Hb Hroom Hsrc. pose proof (zlen_nonneg src).
  destruct (buf_live_data b Hb) as (d & Hd & Hl & Hf).
  assert (Hs : buf_safe b (zlen src) = true).
  { unfold buf_safe. rewrite buf_live_valid by done.
    destruct Hb as [[] _]. rewrite BUF_SIZE_MAX_eq in *.
    rewrite buf_size_valid_spec by lia. cbn.
    rewrite !andb_true_iff, !Z.leb_le, Z.ltb_lt. lia. }
  unfold buf_write, buf_write_alloc. rewrite Hs, buf_live_bptr by done. cbn.
  eexists. split; [reflexivity|].
  assert (Hw := Hb). destruct Hw as [[] Hdef].
  assert (buf_live (buf_store (b <| b_len := b_len b + zlen src |>) (b_offset b + b_len b) src)).
  { eapply buf_live_intro; cbn; [by rewrite Hd|..]; try lia; auto with ovpn.
    rewrite zlen_mem_write; lia. }
  split_and!; try done.
  erewrite buf_contents_live; [|done|cbn; rewrite Hd; done]. cbn.
  rewrite mem_read_app by lia. rewrite mem_read_write_eq by lia.
  rewrite mem_read_write_before by lia. by rewrite <- buf_contents_live.
Qed.

Lemma buf_write_full b src :
  buf_live b -> zlen src < 2 ^ 31 -> b_capacity b - b_offset b - b_len b < zlen src ->
  buf_write b src = (false, b).
Proof.
  intros Hb Hi Hroom. unfold buf_write, buf_write_alloc, buf_safe.
  replace (b_offset b + b_len b + zlen src <=? b_capacity b) with false
    by (symmetry; apply Z.leb_gt; lia).
  by rewrite andb_false_r.
Qed.

(** What a successful write did, whatever the room was. *)
Lemma buf_write_inv b src b' :
  buf_live b -> Forall is_byte src -> zlen src < 2 ^ 31 ->
  buf_write b src = (true, b') ->
  buf_live b' /\ buf_contents b' = buf_contents b ++ src /\
  b_capacity b' = b_capacity b /\ b_offset b' = b_offset b /\ b_len b' = b_len b + zlen src.
Proof.
  intros Hb Hs Hz Hw.
  destruct (Z.le_gt_cases (zlen src) (b_capacity b - b_offset b - b_len b)).
  - destruct (buf_write_room b src) as (b1 & E & ? & ? & ? & ? & ?); try done.
    rewrite E in Hw. by injection Hw as <-.
  - rewrite buf_write_full in Hw by (done || lia). done.
Qed.

(** *** Prepending *)

Lemma buf_prepend_room b src :
  buf_live b -> zlen src <= b_offset b -> Forall is_byte src ->
  exists b', buf_write_prepend b src = (true, b') /\ buf_live b' /\
    b_capacity b' = b_capacity b /\ b_offset b' = b_offset b - zlen src /\
    b_len b' = b_len b + zlen src /\
    buf_contents b' = src ++ buf_contents b.
Proof.
  intros Hb Hroom Hsrc. pose proof (zlen_nonneg src).
  destruct (buf_live_data b Hb) as (d & Hd & Hl & Hf).
  assert (Hw := Hb). destruct Hw as [[] Hdef].
  unfold buf_write_prepend, buf_prepend. rewrite buf_live_valid by done. cbn [negb orb].
  destruct (Z.ltb_spec (zlen src) 0); [lia|].
  destruct (Z.ltb_spec (b_offset b) (zlen src)); [lia|]. cbn [orb].
  set (b1 := b <| b_offset := _ |> <| b_len := _ |>).
  assert (L1 : buf_live b1).
  { eapply buf_live_intro; cbn; eauto; lia. }
  rewrite (buf_live_bptr b1 L1). eexists. split; [reflexivity|].
  assert (L2 : buf_live (buf_store b1 (b_offset b1) src)).
  { eapply buf_live_intro; cbn; [by rewrite Hd|..]; try lia; auto with ovpn.
    rewrite zlen_mem_write; lia. }
  split_and!; try done.
  erewrite buf_contents_live; [|done|cbn; rewrite Hd; done]. cbn.
  replace (b_len b + zlen src) with (zlen src + b_len b) by lia.
  rewrite mem_read_app by lia. rewrite mem_read_write_eq by lia.
  rewrite mem_read_write_after by lia. f_equal.
  rewrite (buf_contents_live b d) by done. f_equal. lia.
Qed.

Lemma buf_prepend_full b src :
  buf_live b -> b_offset b < zlen src -> buf_write_prepend b src = (false, b).
Proof.
  intros Hb Hroom. unfold buf_write_prepend, buf_prepend.
  destruct (Z.ltb_spec (b_offset b) (zlen src)); [|lia].
  by rewrite orb_true_r.
Qed.

Lemma buf_write_prepend_inv b src b' :
  buf_live b -> Forall is_byte src -> buf_write_prepend b src = (true, b') ->
  buf_live b' /\ buf_contents b' = src ++ buf_contents b /\
  b_capacity b' = b_capacity b /\ b_offset b' = b_offset b - zlen src /\
  b_len b' = b_len b + zlen src.
Proof.
  intros Hb Hs Hw. destruct (Z.le_gt_cases (zlen src) (b_offset b)).
  - destruct (buf_prepend_room b src) as (b1 & E & ? & ? & ? & ? & ?); try done.
    rewrite E in Hw. by injection Hw as <-.
  - rewrite buf_prepend_full in Hw by (done || lia). done.
Qed.

(** *** Consuming *)

Lemma buf_take_front b n :
  buf_live b -> 0 <= n <= b_len b ->
  let b' := b <| b_offset := b_offset b + n |> <| b_len := b_len b - n |> in
  buf_live b' /\
  buf_contents b = buf_load b (b_offset b) n ++ buf_contents b' /\
  zlen (buf_load b (b_offset b) n) = n /\ Forall is_byte (buf_load b (b_offset b) n).
Proof.
  intros Hb Hn b'. destruct (buf_live_data b Hb) as (d & Hd & Hl & Hf).
  assert (Hw := Hb). destruct Hw as [[] Hdef].
  assert (L : buf_live b').
  { eapply buf_live_intro; cbn; eauto; lia. }
  split; [done|]. rewrite (buf_contents_live b d) by done.
  rewrite (buf_contents_live b' d) by done. unfold buf_load. rewrite Hd. cbn.
  split; [|split; [apply mem_read_length; lia | auto with ovpn]].
  rewrite <- mem_read_app by lia. f_equal. lia.
Qed.

Lemma buf_read_ok b n :
  buf_live b -> 0 <= n <= b_len b ->
  exists bs b', buf_read b n = (Some bs, b') /\ buf_live b' /\
    buf_contents b = bs ++ buf_contents b' /\ zlen bs = n /\ Forall is_byte bs /\
    b_capacity b' = b_capacity b /\ b_offset b' = b_offset b + n /\ b_len b' = b_len b - n.
Proof.
  intros Hb Hn. destruct (buf_take_front b n Hb Hn) as (L & C & Hl & Hf).
  unfold buf_read, buf_read_alloc.
  destruct (Z.ltb_spec n 0); [lia|]. destruct (Z.ltb_spec (b_len b) n); [lia|]. cbn [orb].
  rewrite buf_live_bptr by done.
  eexists _, _. split; [reflexivity|]. by split_and!.
Qed.

Lemma buf_read_short b n :
  n < 0 \/ b_len b < n -> buf_read b n = (None, b).
Proof.
  intros H. unfold buf_read, buf_read_alloc.
  destruct (Z.ltb_spec n 0); [done|]. destruct (Z.ltb_spec (b_len b) n); [done|lia].
Qed.

(** The form the decoders use: the content starts with [bs]. *)
Lemma buf_read_app b bs rest :
  buf_live b -> buf_contents b = bs ++ rest ->
  exists b', buf_read b (zlen bs) = (Some bs, b') /\ buf_live b' /\
    buf_contents b' = rest /\ b_capacity b' = b_capacity b /\
    b_offset b' = b_offset b + zlen bs /\ b_len b' = b_len b - zlen bs.
Proof.
  intros Hb Hc. pose proof (buf_contents_length b Hb) as Hl.
  rewrite Hc, zlen_app in Hl. pose proof (zlen_nonneg bs). pose proof (zlen_nonneg rest).
  destruct (buf_read_ok b (zlen bs) Hb) as (bs' & b' & Hr & L & C & Hz & _ & ? & ? & ?); [lia|].
  rewrite Hc in C. apply app_inj_1 in C as [-> ->]; [|unfold zlen in Hz; lia].
  eauto 10.
Qed.

(** ** Specification: a byte deque with bounded room on both sides *)

Record deque := mkdeque { dq_head : Z; dq_body : list Z; dq_tail : Z }.

Definition buf_abs (b : buffer) : deque :=
  mkdeque (b_offset b) (buf_contents b) (b_capacity b - b_offset b - b_len b).

(** The mutators a packet goes through, with their arguments. *)
Inductive buf_op :=
  | OpWrite (src : list Z)
  | OpPrepend (src : list Z)
  | OpAdvance (n : Z)
  | OpRead (n : Z)
  | OpTruncate (n : Z)
  | OpInit (offset : Z)
  | OpResetLen.

(** What the buffer does: success flag and the bytes handed out. *)
Definition exec_op (op : buf_op) (b : buffer) : (bool * list Z) * buffer :=
  match op with
  | OpWrite src => let '(ok, b') := buf_write b src in ((ok, []), b')
  | OpPrepend src => let '(ok, b') := buf_write_prepend b src in ((ok, []), b')
  | OpAdvance n => let '(ok, b') := buf_advance b n in ((ok, []), b')
  | OpRead n => match buf_read b n with
                | (Some bs, b') => ((true, bs), b')
                | (None, b') => ((false, []), b')
                end
  | OpTruncate n => let '(ok, b') := buf_inc_len b (- n) in ((ok, []), b')
  | OpInit off => let '(ok, b') := buf_init_dowork b off in ((ok, []), b')
  | OpResetLen => ((true, []), buf_reset_len b)
  end.

(** What it promises. *)
Definition dq_op (op : buf_op) (q : deque) : (bool * list Z) * deque :=
  let '(mkdeque h l t) := q in
  match op with
  | OpWrite src =>
      if zlen src <=? t then ((true, []), mkdeque h (l ++ src) (t - zlen src))
      else ((false, []), q)
  | OpPrepend src =>
      if zlen src <=? h then ((true, []), mkdeque (h - zlen src) (src ++ l) t)
      else ((false, []), q)
  | OpAdvance n =>
      if (0 <=? n) && (n <=? zlen l)
      then ((true, []), mkdeque (h + n) (drop (Z.to_nat n) l) t)
      else ((false, []), q)
  | OpRead n =>
      if (0 <=? n) && (n <=? zlen l)
      then ((true, take (Z.to_nat n) l), mkdeque (h + n) (drop (Z.to_nat n) l) t)
      else ((false, []), q)
  | OpTruncate n =>
      if n <=? zlen l
      then ((true, []), mkdeque h (take (Z.to_nat (zlen l - n)) l) (t + n))
      else ((false, []), q)
  | OpInit off =>
      if (0 <=? off) && (off <=? h + zlen l + t)
      then ((true, []), mkdeque off [] (h + zlen l + t - off))
      else ((false, []), q)
  | OpResetLen => ((true, []), mkdeque 0 [] (h + zlen l + t))
  end.

(** Arguments the callers pass: bytes, C [int] sizes, and truncations (never an
    extension over bytes that were not written). *)
Definition op_ok (op : buf_op) : Prop :=
  match op with
  | OpWrite src | OpPrepend src => Forall is_byte src /\ zlen src < 2 ^ 31
  | OpTruncate n => 0 <= n < BUF_SIZE_MAX
  | _ => True
  end.

Fixpoint run_ops {S} (step : buf_op -> S -> (bool * list Z) * S)
    (ops : list buf_op) (s : S) : list (bool * list Z) * S :=
  match ops with
  | [] => ([], s)
  | op :: ops' =>
      let '(out, s1) := step op s in
      let '(outs, s2) := run_ops step ops' s1 in
      (out :: outs, s2)
  end.

Lemma buf_window_live b off len :
  buf_live b -> 0 <= off -> 0 <= len -> off + len <= b_capacity b ->
  buf_live (b <| b_len := len |> <| b_offset := off |>).
Proof.
  intros Hb ???. destruct (buf_live_data b Hb) as (d & Hd & Hl & Hf).
  destruct Hb as [[] _]. eapply buf_live_intro; cbn; eauto; lia.
Qed.

Lemma buf_truncate b n :
  buf_live b -> 0 <= n <= b_len b ->
  buf_contents (b <| b_len := b_len b - n |>)
  = take (Z.to_nat (b_len b - n)) (buf_contents b).
Proof.
  intros Hb Hn. destruct (buf_live_data b Hb) as (d & Hd & Hl & Hf).
  assert (Hw := Hb). destruct Hw as [[] _].
  assert (buf_live (b <| b_len := b_len b - n |>)) by (eapply buf_live_intro; cbn; eauto; lia).
  rewrite (buf_contents_live _ d) by done. rewrite (buf_contents_live b d) by done.
  unfold mem_read. cbn. rewrite take_take. f_equal. lia.
Qed.

(** One operation simulates its specification. *)
Definition refines_at (op : buf_op) (b : buffer) : Prop :=
  buf_live (snd (exec_op op b)) /\
  dq_op op (buf_abs b) = (fst (exec_op op b), buf_abs (snd (exec_op op b))).

Ltac deque_eq :=
  unfold buf_abs; cbn [b_capacity b_offset b_len b_data upd fst snd];
  repeat match goal with
  | |- (_, _) = (_, _) => f_equal
  | |- mkdeque _ _ _ = mkdeque _ _ _ => f_equal
  end; try done; lia.

Lemma write_refines b src :
  buf_live b -> Forall is_byte src -> zlen src < 2 ^ 31 -> refines_at (OpWrite src) b.
Proof.
  intros Hb Hby Hint. unfold refines_at. cbn.
  destruct (Z.leb_spec (zlen src) (b_capacity b - b_offset b - b_len b)).
  - destruct (buf_write_room b src) as (b' & -> & L & E1 & E2 & E3 & E4); try done.
    cbn. split; [done|]. unfold buf_abs. rewrite E1, E2, E3, E4. deque_eq.
  - by rewrite buf_write_full by done.
Qed.

Lemma prepend_refines b src :
  buf_live b -> Forall is_byte src -> refines_at (OpPrepend src) b.
Proof.
  intros Hb Hby. unfold refines_at. cbn.
  destruct (Z.leb_spec (zlen src) (b_offset b)).
  - destruct (buf_prepend_room b src) as (b' & -> & L & E1 & E2 & E3 & E4); try done.
    cbn. split; [done|]. unfold buf_abs. rewrite E1, E2, E3, E4. deque_eq.
  - by rewrite buf_prepend_full by (done || lia).
Qed.

Lemma advance_refines b n : buf_live b -> refines_at (OpAdvance n) b.
Proof.
  intros Hb. unfold refines_at, buf_advance. cbn. rewrite buf_contents_length by done.
  unfold buf_advance. rewrite buf_live_valid by done.
  destruct (Z.ltb_spec n 0), (Z.leb_spec 0 n); try lia; cbn [negb orb andb]; [done|].
  destruct (Z.ltb_spec (b_len b) n), (Z.leb_spec n (b_len b)); try lia; [done|].
  destruct (buf_take_front b n Hb) as (L & C & Hz & _); [lia|]. split; [done|].
  rewrite C, drop_app_length' by (unfold zlen in Hz; lia). cbn. deque_eq.
Qed.

Lemma read_refines b n : buf_live b -> refines_at (OpRead n) b.
Proof.
  intros Hb. unfold refines_at. cbn. rewrite buf_contents_length by done.
  destruct (decide (0 <= n <= b_len b)) as [Hn|Hn].
  - destruct (buf_read_ok b n Hb Hn) as (bs & b' & -> & L & C & Hz & _ & E1 & E2 & E3).
    cbn. split; [done|]. unfold buf_abs. rewrite E1, E2, E3.
    destruct (Z.leb_spec 0 n), (Z.leb_spec n (b_len b)); try lia. cbn.
    rewrite C. unfold zlen in Hz. rewrite take_app_length', drop_app_length' by lia. deque_eq.
  - rewrite buf_read_short by lia.
    destruct (Z.leb_spec 0 n), (Z.leb_spec n (b_len b)); try lia; done.
Qed.

Lemma inc_len_truncate b n :
  buf_live b -> 0 <= n < BUF_SIZE_MAX ->
  buf_inc_len b (- n) =
    if n <=? b_len b then (true, b <| b_len := b_len b - n |>) else (false, b).
Proof.
  intros Hb Hn. assert (Hw := Hb). destruct Hw as [[] _].
  unfold buf_inc_len, buf_safe_bidir, buf_size_valid_signed.
  rewrite buf_live_valid by done. rewrite buf_size_min_eq, BUF_SIZE_MAX_eq in *.
  destruct (Z.leb_spec (-2097152) (- n)), (Z.ltb_spec (- n) 2097152); try lia. cbn [andb].
  replace (b_len b + - n) with (b_len b - n) by lia.
  destruct (Z.leb_spec n (b_len b)), (Z.leb_spec 0 (b_len b - n)); try lia; [|done].
  destruct (Z.leb_spec (b_offset b + (b_len b - n)) (b_capacity b)); [done|lia].
Qed.

Lemma truncate_refines b n :
  buf_live b -> 0 <= n < BUF_SIZE_MAX -> refines_at (OpTruncate n) b.
Proof.
  intros Hb Hn. unfold refines_at. cbn. rewrite inc_len_truncate by done.
  rewrite buf_contents_length by done. assert (Hw := Hb). destruct Hw as [[] _].
  destruct (Z.leb_spec n (b_len b)); [|done].
  rewrite <- (buf_truncate b n) by (done || lia). cbn. split; [|deque_eq].
  destruct (buf_live_data b Hb) as (d & ? & ? & ?). eapply buf_live_intro; cbn; eauto; lia.
Qed.

Lemma window_empty b off :
  buf_live b -> 0 <= off <= b_capacity b ->
  let b' := b <| b_len := 0 |> <| b_offset := off |> in
  buf_live b' /\ buf_abs b' = mkdeque off [] (b_capacity b - off).
Proof.
  intros Hb Hoff b'. assert (L : buf_live b') by (apply buf_window_live; [done|lia..]).
  split; [done|]. destruct (buf_live_data _ L) as (d & Hd & _).
  unfold buf_abs. rewrite (buf_contents_live _ d) by done. cbn. f_equal. lia.
Qed.

Lemma buf_init_live b off : buf_live b -> 0 <= off <= b_capacity b ->
  exists b', buf_init_dowork b off = (true, b') /\ buf_live b' /\
    b_capacity b' = b_capacity b /\ b_offset b' = off /\ b_len b' = 0 /\ buf_contents b' = [].
Proof.
  intros Hb Ho. unfold buf_init_dowork. destruct Hb as [Hb Hd]. rewrite Hd. cbn [negb].
  destruct (Z.ltb_spec off 0), (Z.ltb_spec (b_capacity b) off); try lia. cbn [orb].
  destruct (window_empty b off) as [L E]; [by split|lia|]. eexists. split_and!; try done.
  by apply (f_equal dq_body) in E.
Qed.

Lemma buf_copy_n_ok dest src n : buf_live dest -> buf_live src -> 0 <= n <= b_len src ->
  n <= b_capacity dest - b_offset dest - b_len dest ->
  exists dest' src', buf_copy_n dest src n = (true, dest', src') /\ buf_live dest' /\ buf_live src' /\
    b_capacity dest' = b_capacity dest /\ b_offset dest' = b_offset dest /\ b_len dest' = b_len dest + n /\
    buf_contents dest' = buf_contents dest ++ take (Z.to_nat n) (buf_contents src) /\
    buf_contents src' = drop (Z.to_nat n) (buf_contents src) /\ b_len src' = b_len src - n /\ b_capacity src' = b_capacity src.
Proof.
  intros Hd Hs Hn Hroom. destruct (buf_take_front src n Hs Hn) as (L & C & Hl & Hf).
  unfold buf_copy_n, buf_read_alloc. destruct (Z.ltb_spec n 0); [lia|]. destruct (Z.ltb_spec (b_len src) n); [lia|]. cbn [orb].
  rewrite (buf_live_bptr src Hs). change (buf_load (src <| b_offset := _ |> <| b_len := _ |>) (b_offset src) n) with (buf_load src (b_offset src) n).
  destruct (buf_write_room dest (buf_load src (b_offset src) n)) as (d' & -> & Ld & Hc & Ho & Hlen & Hcont); [done|lia|done|].
  eexists d', _. split; [reflexivity|]. rewrite C, take_app_length', drop_app_length' by (unfold zlen in Hl; lia).
  split_and!; try done. by rewrite Hlen, Hl.
Qed.

Lemma abs_capacity b :
  buf_live b -> dq_head (buf_abs b) + zlen (dq_body (buf_abs b)) + dq_tail (buf_abs b) = b_capacity b.
Proof. intros. cbn. rewrite buf_contents_length by done. lia. Qed.

Lemma init_refines b off : buf_live b -> refines_at (OpInit off) b.
Proof.
  intros Hb. pose proof (abs_capacity b Hb) as Hcap. cbn in Hcap.
  unfold refines_at, buf_init_dowork. cbn. rewrite Hcap. assert (Hw := Hb). destruct Hw as [_ Hdef].
  unfold buf_init_dowork. rewrite Hdef. cbn [negb]. rewrite orb_false_r.
  destruct (decide (0 <= off <= b_capacity b)) as [Ho|Ho].
  - destruct (window_empty b off Hb Ho) as [L E].
    destruct (Z.ltb_spec off 0), (Z.ltb_spec (b_capacity b) off),
      (Z.leb_spec 0 off), (Z.leb_spec off (b_capacity b)); try lia.
    cbn [orb andb fst snd]. by rewrite E.
  - destruct (Z.ltb_spec off 0), (Z.ltb_spec (b_capacity b) off),
      (Z.leb_spec 0 off), (Z.leb_spec off (b_capacity b)); try lia; done.
Qed.

Lemma reset_len_refines b : buf_live b -> refines_at OpResetLen b.
Proof.
  intros Hb. pose proof (abs_capacity b Hb) as Hcap. cbn in Hcap.
  unfold refines_at. cbn. rewrite Hcap. assert (Hw := Hb). destruct Hw as [[] _].
  destruct (window_empty b 0 Hb) as [L E]; [lia|]. unfold buf_reset_len. rewrite E.
  split; [done|]. deque_eq.
Qed.

Lemma exec_op_refines op b : buf_live b -> op_ok op -> refines_at op b.
Proof.
  intros Hb Hop. destruct op; cbn in Hop;
    [apply write_refines; tauto | apply prepend_refines; tauto | by apply advance_refines
    | by apply read_refines | by apply truncate_refines | by apply init_refines
    | by apply reset_len_refines].
Qed.

(** ** Typed fields *)

(** A packet is written and parsed as a sequence of fixed-width fields. *)
Inductive field := F8 (v : Z) | F16 (v : Z) | F32 (v : Z).

Definition field_bytes (f : field) : list Z :=
  match f with F8 v => [u8 v] | F16 v => be16 (u16 v) | F32 v => be32 (u32 v) end.

(** What the C types keep of the value. *)
Definition field_norm (f : field) : field :=
  match f with F8 v => F8 (u8 v) | F16 v => F16 (u16 v) | F32 v => F32 (u32 v) end.

Definition write_field (b : buffer) (f : field) : bool * buffer :=
  match f with
  | F8 v => buf_write_u8 b v
  | F16 v => buf_write_u16 b v
  | F32 v => buf_write_u32 b v
  end.

Fixpoint write_fields (b : buffer) (fs : list field) : bool * buffer :=
  match fs with
  | [] => (true, b)
  | f :: fs' => let '(ok, b1) := write_field b f in
                if ok then write_fields b1 fs' else (false, b1)
  end.

(** Parse the same layout back; [None] when a read reports an error. *)
Definition read_field (b : buffer) (f : field) : option (field * buffer) :=
  match f with
  | F8 _ => let '(v, b') := buf_read_u8 b in if v <? 0 then None else Some (F8 v, b')
  | F16 _ => let '(v, b') := buf_read_u16 b in if v <? 0 then None else Some (F16 v, b')
  | F32 _ => let '(good, v, b') := buf_read_u32 b in
             if good : bool then Some (F32 v, b') else None
  end.

Fixpoint read_fields (b : buffer) (fs : list field) : option (list field * buffer) :=
  match fs with
  | [] => Some ([], b)
  | f :: fs' =>
      '(v, b1) ← read_field b f;
      '(vs, b2) ← read_fields b1 fs';
      Some (v :: vs, b2)
  end.

Definition fields_size (fs : list field) : Z := zlen (concat (map field_bytes fs)).

Lemma field_bytes_ok f : Forall is_byte (field_bytes f).
Proof. destruct f; cbn; auto with ovpn. Qed.

Lemma write_field_bytes b f : write_field b f = buf_write b (field_bytes f).
Proof. by destruct f. Qed.

Lemma write_fields_ok fs : forall b,
  buf_live b -> fields_size fs <= b_capacity b - b_offset b - b_len b ->
  exists b', write_fields b fs = (true, b') /\ buf_live b' /\
    buf_contents b' = buf_contents b ++ concat (map field_bytes fs).
Proof.
  unfold fields_size. induction fs as [|f fs IH]; intros b Hb Hroom; cbn in *.
  - exists b. rewrite app_nil_r. done.
  - rewrite zlen_app in Hroom. pose proof (zlen_nonneg (concat (map field_bytes fs))).
    rewrite write_field_bytes.
    destruct (buf_write_room b (field_bytes f) Hb) as (b1 & -> & L & E1 & E2 & E3 & E4);
      [lia | apply field_bytes_ok|].
    destruct (IH b1 L) as (b' & -> & L' & EC); [lia|].
    exists b'. rewrite EC, E4, <- app_assoc. done.
Qed.

Lemma buf_read_u8_cons b x rest :
  buf_live b -> is_byte x -> buf_contents b = x :: rest ->
  exists b', buf_read_u8 b = (x, b') /\ buf_live b' /\ buf_contents b' = rest
    /\ b_capacity b' = b_capacity b.
Proof.
  intros Hb Hx Hc. pose proof (buf_contents_length b Hb) as Hl. rewrite Hc, zlen_cons in Hl.
  pose proof (zlen_nonneg rest).
  destruct (buf_take_front b 1 Hb) as (L & C & Hz & _); [lia|].
  unfold buf_read_u8. rewrite buf_live_len, buf_live_bptr by done.
  destruct (Z.ltb_spec (b_len b) 1); [lia|].
  unfold buf_advance. rewrite buf_live_valid by done. cbn [negb orb].
  destruct (Z.ltb_spec (b_len b) 1); [lia|]. cbn [snd].
  destruct (buf_live_data b Hb) as (d & Hd & Hdl & _).
  assert (E : buf_load b (b_offset b) 1 = [buf_peek b (b_offset b)]).
  { unfold buf_load, buf_peek in *. rewrite Hd in *. unfold zget, mem_read in *.
    destruct Hb as [[] _]. destruct (Z.ltb_spec (b_offset b) 0); [lia|].
    destruct (drop (Z.to_nat (b_offset b)) d) as [|y r] eqn:E; [done|].
    assert (d !! Z.to_nat (b_offset b) = Some y) as ->; [|done].
    rewrite <- (Nat.add_0_r (Z.to_nat _)), <- lookup_drop, E. done. }
  rewrite Hc, E in C. injection C as -> ->. eauto 10.
Qed.

Lemma read_field_bytes b f rest :
  buf_live b -> buf_contents b = field_bytes f ++ rest ->
  exists b', read_field b f = Some (field_norm f, b') /\ buf_live b' /\ buf_contents b' = rest.
Proof.
  intros Hb Hc. destruct f; cbn [field_bytes read_field field_norm] in *.
  - destruct (buf_read_u8_cons b (u8 v) rest) as (b' & -> & L & E & _); auto using wrap_byte.
    pose proof (wrap_byte v) as W. unfold is_byte in W.
    destruct (Z.ltb_spec (u8 v) 0); [lia|]. eauto.
  - destruct (buf_read_app b _ rest Hb Hc) as (b' & E & L & ? & _).
    unfold buf_read_u16. change 2 with (zlen (be16 (u16 v))). rewrite E, be16_val.
    rewrite wrap_small by (by apply wrap_range).
    pose proof (wrap_range 16 v). unfold is_u in *.
    destruct (Z.ltb_spec (u16 v) 0); [lia|]. eauto.
  - destruct (buf_read_app b _ rest Hb Hc) as (b' & E & L & ? & _).
    unfold buf_read_u32. change 4 with (zlen (be32 (u32 v))). rewrite E, be32_val_id; eauto.
    by apply wrap_range.
Qed.

Lemma read_fields_bytes fs : forall b rest,
  buf_live b -> buf_contents b = concat (map field_bytes fs) ++ rest ->
  exists b', read_fields b fs = Some (map field_norm fs, b') /\ buf_live b' /\
    buf_contents b' = rest.
Proof.
  induction fs as [|f fs IH]; intros b rest Hb Hc; cbn in *; [eauto|].
  rewrite <- app_assoc in Hc.
  destruct (read_field_bytes b f _ Hb Hc) as (b1 & -> & L1 & E1). cbn.
  destruct (IH b1 rest L1 E1) as (b2 & -> & L2 & E2). cbn. eauto.
Qed.

(** ** Properties *)

(** C36. Every sequence of packet-buffer operations, run on a live buffer, gives
    exactly the results (success flags and bytes) of a byte deque whose head
    room, content and tail room are those of the buffer, and the buffer stays
    well formed: its window never leaves its block. *)
Theorem buf_ops_refine_deque ops : forall b outs b',
  buf_live b -> Forall op_ok ops ->
  run_ops exec_op ops b = (outs, b') ->
  buf_live b' /\ run_ops dq_op ops (buf_abs b) = (outs, buf_abs b').
Proof.
  induction ops as [|op ops IH]; intros b outs b' Hb Hok Hrun; cbn [run_ops] in *.
  - by injection Hrun as <- <-.
  - inversion Hok as [|? ? Ho Hos]; subst.
    destruct (exec_op_refines op b Hb Ho) as [L E]. rewrite E.
    destruct (exec_op op b) as [o b1]. cbn [fst snd] in *.
    destruct (run_ops exec_op ops b1) as [outs1 b2] eqn:R. injection Hrun as <- <-.
    destruct (IH b1 outs1 b2 L Hos R) as [L2 ->]. done.
Qed.

Lemma buf_ops_refine_deque_witness :
  exists b outs b', alloc_buf 16 = Some b /\
  run_ops exec_op [OpInit 4; OpWrite [1;2;3]; OpPrepend [9;8]; OpPrepend [1;1;1];
                   OpRead 1; OpAdvance 7; OpTruncate 1; OpWrite (replicate 20 0)] b = (outs, b') /\
  buf_live b' /\ outs = [(true,[]); (true,[]); (true,[]); (false,[]); (true,[9]);
                         (false,[]); (true,[]); (false,[])] /\
  run_ops dq_op [OpInit 4; OpWrite [1;2;3]; OpPrepend [9;8]; OpPrepend [1;1;1];
                   OpRead 1; OpAdvance 7; OpTruncate 1; OpWrite (replicate 20 0)] (buf_abs b)
    = (outs, buf_abs b').
Proof.
  assert (exists b, alloc_buf 16 = Some b) as [b Hb] by (eexists; reflexivity).
  assert (L : buf_live b) by (apply (alloc_buf_live 16 b); [lia|done]).
  eexists b, _, _. split; [done|]. split; [apply surjective_pairing|].
  match goal with |- buf_live (snd (run_ops exec_op ?ops b)) /\ _ =>
    destruct (buf_ops_refine_deque ops b (fst (run_ops exec_op ops b))
                (snd (run_ops exec_op ops b)) L) as [L' E] end.
  - repeat constructor; vm_compute; intuition congruence.
  - apply surjective_pairing.
  - split; [done|]. split; [|done]. injection Hb as <-. reflexivity.
Defined.

(** Round trip of the wire fields: writing any sequence of 8/16/32-bit
    big-endian fields into a buffer with room for them succeeds, and parsing the
    same layout returns the values reduced to their C types and leaves exactly
    what followed. *)
Theorem write_read_fields_roundtrip fs b :
  buf_live b -> b_len b = 0 ->
  fields_size fs <= b_capacity b - b_offset b ->
  exists b' b'', write_fields b fs = (true, b') /\
    read_fields b' fs = Some (map field_norm fs, b'') /\
    buf_live b'' /\ buf_contents b'' = [].
Proof.
  intros Hb Hl Hroom. destruct (write_fields_ok fs b Hb) as (b' & -> & L & C); [lia|].
  pose proof (buf_contents_length b Hb) as Hz.
  destruct (buf_contents b); [|rewrite zlen_cons in Hz; pose proof (zlen_nonneg l); lia].
  destruct (read_fields_bytes fs b' [] L) as (b'' & ? & ? & ?); [by rewrite app_nil_r|].
  eauto 10.
Qed.

Lemma write_read_fields_roundtrip_witness :
  exists b, alloc_buf 8 = Some b /\
  exists b' b'', write_fields b [F8 300; F32 (-1); F16 70000] = (true, b') /\
    read_fields b' [F8 300; F32 (-1); F16 70000]
      = Some ([F8 44; F32 4294967295; F16 4464], b'') /\
    buf_live b'' /\ buf_contents b'' = [].
Proof.
  assert (exists b, alloc_buf 8 = Some b) as [b Hb] by (eexists; reflexivity).
  exists b. split; [done|].
  destruct (alloc_buf_live 8 b) as (L & Ho & Hl & Hc); [lia|done|].
  apply (write_read_fields_roundtrip [F8 300; F32 (-1); F16 70000] b L Hl).
  rewrite Ho, Hc. vm_compute. discriminate.
Defined.
