(* ===== verification/PacketId.v ===== *)
(** Packet ids and replay protection: [src/openvpn/packet_id.h], [packet_id.c]
    and the caller [crypto_check_replay] of [crypto.c].  The receive window is
    modelled over the concrete circular list; the global clock [now] is an
    argument. *)
From S2P Require Import Prelude Integer CircList Buffer.
From Stdlib Require Import Sorting.Sorted.

(** ** Constants and data *)

Definition PACKET_ID_MAX : Z := 2 ^ 32 - 1.
Definition PACKET_ID_WRAP_TRIGGER : Z := 0xFF000000.
Definition MIN_SEQ_BACKTRACK : Z := 0.
Definition MAX_SEQ_BACKTRACK : Z := 65536.
Definition DEFAULT_SEQ_BACKTRACK : Z := 64.
Definition MIN_TIME_BACKTRACK : Z := 0.
Definition MAX_TIME_BACKTRACK : Z := 600.
Definition SEQ_REAP_INTERVAL : Z := 5.
Definition SEQ_UNSEEN : Z := 0.
Definition SEQ_EXPIRED : Z := 1.

Abbreviation seq_list := (circ_list Z).

Record packet_id_rec := mkrec {
  r_last_reap : Z;
  r_time : Z;
  r_id : Z;
  r_seq_backtrack : Z;
  r_time_backtrack : Z;
  r_max_backtrack_stat : Z;
  r_initialized : bool;
  r_seq_list : option seq_list;
  r_name : list Z;
  r_unit : Z
}.
#[export] Instance eta_rec : EtaOf packet_id_rec := fun r =>
  mkrec (r_last_reap r) (r_time r) (r_id r) (r_seq_backtrack r) (r_time_backtrack r)
    (r_max_backtrack_stat r) (r_initialized r) (r_seq_list r) (r_name r) (r_unit r).

Record packet_id_send := mksend { s_id : Z; s_time : Z }.
#[export] Instance eta_send : EtaOf packet_id_send := fun r => mksend (s_id r) (s_time r).

Record packet_id_net := mknet { n_id : Z; n_time : Z }.
#[export] Instance eta_net : EtaOf packet_id_net := fun r => mknet (n_id r) (n_time r).
#[export] Instance packet_id_net_eq_dec : EqDecision packet_id_net.
Proof. solve_decision. Defined.

Record packet_id := mkpid { pid_send : packet_id_send; pid_rec : packet_id_rec }.
#[export] Instance eta_pid : EtaOf packet_id := fun r => mkpid (pid_send r) (pid_rec r).

Record packet_id_persist := mkpersist {
  pp_filename : option (list Z);
  pp_fd : Z;
  pp_time : Z;
  pp_id : Z;
  pp_time_last_written : Z;
  pp_id_last_written : Z
}.
#[export] Instance eta_persist : EtaOf packet_id_persist := fun r =>
  mkpersist (pp_filename r) (pp_fd r) (pp_time r) (pp_id r)
    (pp_time_last_written r) (pp_id_last_written r).

(** ** Life cycle *)

Definition packet_id_rec_zero : packet_id_rec := mkrec 0 0 0 0 0 0 false None [] 0.
Definition packet_id_zero : packet_id := mkpid (mksend 0 0) packet_id_rec_zero.

Definition packet_id_init (seq_backtrack time_backtrack : Z) (name : list Z) (unit_ : Z)
  : option packet_id :=
  let r := packet_id_rec_zero <| r_name := name |> <| r_unit := unit_ |> in
  if seq_backtrack =? 0
  then Some (packet_id_zero <| pid_rec := r <| r_initialized := true |> |>)
  else if (MIN_SEQ_BACKTRACK <=? seq_backtrack) && (seq_backtrack <=? MAX_SEQ_BACKTRACK)
       && (MIN_TIME_BACKTRACK <=? time_backtrack) && (time_backtrack <=? MAX_TIME_BACKTRACK)
  then Some (packet_id_zero <| pid_rec :=
         r <| r_seq_list := Some (CIRC_LIST_ALLOC SEQ_UNSEEN seq_backtrack) |>
           <| r_seq_backtrack := seq_backtrack |>
           <| r_time_backtrack := time_backtrack |>
           <| r_initialized := true |> |>)
  else None.

Definition packet_id_free (_ : packet_id) : packet_id := packet_id_zero.

Definition packet_id_initialized (pid : packet_id) : bool := r_initialized (pid_rec pid).

(** ** Receiving *)

(** [while (p->id < pin->id) { push; ++p->id; }]: the loop runs exactly
    [pin->id - p->id] times, which is the fuel it is given. *)
Fixpoint packet_id_fill (fuel : nat) (sl : seq_list) (id target : Z) : option (seq_list * Z) :=
  match fuel with
  | O => Some (sl, id)
  | S fuel' =>
      if id <? target
      then sl' ← CIRC_LIST_PUSH sl SEQ_UNSEEN; packet_id_fill fuel' sl' (u32 (id + 1)) target
      else Some (sl, id)
  end.

(** Whether [packet_id_add] starts a new sequence. *)
Definition packet_id_starts_new (p : packet_id_rec) (sl : seq_list) (pin : packet_id_net) : bool :=
  (CIRC_LIST_SIZE sl =? 0) || (r_time p <? n_time pin)
  || ((u32 (r_seq_backtrack p) <=? n_id pin)
      && (r_id p <? u32 (n_id pin - u32 (r_seq_backtrack p)))).

Definition packet_id_add (now : Z) (p : packet_id_rec) (pin : packet_id_net)
  : option packet_id_rec :=
  let local_now := now in
  match r_seq_list p with
  | Some sl =>
      let '(time, id, sl) :=
        if packet_id_starts_new p sl pin
        then (n_time pin,
              if u32 (r_seq_backtrack p) <? n_id pin
              then u32 (n_id pin - u32 (r_seq_backtrack p)) else 0,
              CIRC_LIST_RESET sl)
        else (r_time p, r_id p, sl) in
      '(sl, id) ← packet_id_fill (Z.to_nat (n_id pin - id)) sl id (n_id pin);
      let diff := u32 (id - n_id pin) in
      sl ← (if (diff <? u32 (CIRC_LIST_SIZE sl)) && (SEQ_EXPIRED <? local_now)
            then CIRC_LIST_SET sl diff local_now else Some sl);
      Some (p <| r_time := time |> <| r_id := id |> <| r_seq_list := Some sl |>)
  | None => Some (p <| r_time := n_time pin |> <| r_id := n_id pin |>)
  end.

(** The reaping loop from index [i], with its [expire] flag. *)
Fixpoint packet_id_reap_loop (fuel : nat) (now time_backtrack : Z) (sl : seq_list)
    (i : Z) (expire : bool) : option seq_list :=
  match fuel with
  | O => Some sl
  | S fuel' =>
      if i <? CIRC_LIST_SIZE sl
      then
        t ← CIRC_LIST_ITEM 0 sl i;
        if t =? SEQ_EXPIRED then Some sl
        else
          let expire := if negb expire && negb (t =? 0) && (t + time_backtrack <? now)
                        then true else expire in
          sl' ← (if expire : bool then CIRC_LIST_SET sl i SEQ_EXPIRED else Some sl);
          packet_id_reap_loop fuel' now time_backtrack sl' (i + 1) expire
      else Some sl
  end.

Definition packet_id_reap (now : Z) (p : packet_id_rec) : option packet_id_rec :=
  let local_now := now in
  p' ← (if r_time_backtrack p =? 0 then Some p
        else sl ← r_seq_list p;
             sl' ← packet_id_reap_loop (Z.to_nat (CIRC_LIST_SIZE sl)) local_now
                     (r_time_backtrack p) sl 0 false;
             Some (p <| r_seq_list := Some sl' |>));
  Some (p' <| r_last_reap := local_now |>).

Definition packet_id_reap_test (now : Z) (p : packet_id_rec) : option packet_id_rec :=
  if r_last_reap p + SEQ_REAP_INTERVAL <=? now then packet_id_reap now p else Some p.

(** Answers whether the packet id is acceptable, and the record with its
    statistics updated. *)
Definition packet_id_test (p : packet_id_rec) (pin : packet_id_net)
  : option (bool * packet_id_rec) :=
  if negb (r_initialized p) then None
  else if n_id pin =? 0 then Some (false, p)
  else if negb (r_seq_backtrack p =? 0) then
    if n_time pin =? r_time p then
      if r_id p <? n_id pin then Some (true, p)
      else
        let diff := u32 (r_id p - n_id pin) in
        let p := if r_max_backtrack_stat p <? i32 diff
                 then p <| r_max_backtrack_stat := i32 diff |> else p in
        sl ← r_seq_list p;
        if u32 (CIRC_LIST_SIZE sl) <=? diff then Some (false, p)
        else v ← CIRC_LIST_ITEM 0 sl diff; Some (v =? 0, p)
    else if n_time pin <? r_time p then Some (false, p)
    else Some (true, p)
  else
    if n_time pin =? r_time p
    then Some ((r_id p =? 0) || (n_id pin =? u32 (r_id p + 1)), p)
    else if n_time pin <? r_time p then Some (false, p)
    else Some (n_id pin =? 1, p).

(** ** Sending *)

Definition packet_id_send_update (now : Z) (p : packet_id_send) (long_form : bool)
  : bool * packet_id_send :=
  let p := if s_time p =? 0 then p <| s_time := now |> else p in
  if s_id p =? PACKET_ID_MAX then
    if negb long_form || (now <=? s_time p) then (false, p)
    else let p := p <| s_time := now |> <| s_id := 0 |> in
         (true, p <| s_id := u32 (s_id p + 1) |>)
  else (true, p <| s_id := u32 (s_id p + 1) |>).

Definition packet_id_read (buf : buffer) (long_form : bool) : bool * packet_id_net * buffer :=
  let pin := mknet 0 0 in
  match buf_read buf 4 with
  | (None, buf) => (false, pin, buf)
  | (Some net_id, buf) =>
      let pin := pin <| n_id := be_val net_id |> in
      if long_form then
        match buf_read buf 4 with
        | (None, buf) => (false, pin, buf)
        | (Some net_time, buf) => (true, pin <| n_time := be_val net_time |>, buf)
        end
      else (true, pin, buf)
  end.

Definition packet_id_write (now : Z) (p : packet_id_send) (buf : buffer)
    (long_form prepend : bool) : bool * packet_id_send * buffer :=
  let '(ok, p) := packet_id_send_update now p long_form in
  if negb ok then (false, p, buf)
  else
    let net_id := be32 (s_id p) in
    let net_time := be32 (u32 (s_time p)) in
    if prepend then
      let '(ok, buf) := if long_form then buf_write_prepend buf net_time else (true, buf) in
      if negb ok then (false, p, buf)
      else let '(ok, buf) := buf_write_prepend buf net_id in (ok, p, buf)
    else
      let '(ok, buf) := buf_write buf net_id in
      if negb ok then (false, p, buf)
      else if long_form then let '(ok, buf) := buf_write buf net_time in (ok, p, buf)
           else (true, p, buf).

Definition packet_id_size (long_form : bool) : Z := 4 + (if long_form then 4 else 0).

Definition packet_id_close_to_wrapping (p : packet_id_send) : bool :=
  PACKET_ID_WRAP_TRIGGER <=? s_id p.

(** The distance is truncated to [unsigned int] before it is compared. *)
Definition check_timestamp_delta (now remote max_delta : Z) : bool :=
  let abs := if remote <=? now then u32 (now - remote) else u32 (remote - now) in
  abs <=? max_delta.

(** ** Persistence *)

Definition packet_id_persist_init (_ : packet_id_persist) : packet_id_persist :=
  mkpersist None (-1) 0 0 0 0.

Definition packet_id_persist_enabled (p : packet_id_persist) : bool := 0 <=? pp_fd p.

Definition packet_id_persist_close (p : packet_id_persist) : packet_id_persist :=
  if packet_id_persist_enabled p then packet_id_persist_init p else p.

Definition packet_id_persist_save_obj (p : packet_id_persist) (pid : packet_id)
  : packet_id_persist :=
  if packet_id_persist_enabled p && negb (r_time (pid_rec pid) =? 0)
  then p <| pp_time := r_time (pid_rec pid) |> <| pp_id := r_id (pid_rec pid) |>
  else p.

Definition packet_id_persist_load_obj (p : option packet_id_persist) (pid : packet_id)
  : packet_id :=
  match p with
  | Some p =>
      if packet_id_persist_enabled p && negb (pp_time p =? 0)
      then pid <| pid_rec := (pid_rec pid) <| r_time := pp_time p |> <| r_id := pp_id p |> |>
      else pid
  | None => pid
  end.

(** What the operating system answers while the replay file is loaded: the
    descriptor of [open], whether the lock was granted, and the image [read]
    returned in full, if any. *)
Definition packet_id_persist_load (p : packet_id_persist) (filename : list Z)
    (open_fd : Z) (locked : bool) (image : option (Z * Z)) : option packet_id_persist :=
  if packet_id_persist_enabled p then Some p
  else
    let p := p <| pp_fd := open_fd |> in
    if pp_fd p =? -1 then Some p
    else if negb locked then None
    else
      let p := p <| pp_filename := Some filename |> in
      Some (match image with
            | Some (time, id) =>
                p <| pp_time := time |> <| pp_time_last_written := time |>
                  <| pp_id := id |> <| pp_id_last_written := id |>
            | None => p
            end).

(** The image written to the file, if one is, and the new state; [seek_ok] and
    [write_ok] are the outcomes of [lseek] and [write]. *)
Definition packet_id_persist_save (p : packet_id_persist) (seek_ok write_ok : bool)
  : option (Z * Z) * packet_id_persist :=
  if packet_id_persist_enabled p && negb (pp_time p =? 0)
     && (negb (pp_time p =? pp_time_last_written p) || negb (pp_id p =? pp_id_last_written p))
  then
    if seek_ok && write_ok
    then (Some (pp_time p, pp_id p),
          p <| pp_time_last_written := pp_time p |> <| pp_id_last_written := pp_id p |>)
    else (None, p)
  else (None, p).

(** ** The caller: [crypto_check_replay] *)

(** The part of [struct crypto_options] replay checking uses. *)
Record replay_state := mkreplay {
  co_packet_id : packet_id;
  co_pid_persist : option packet_id_persist;
  co_long_form : bool     (* flags & CO_PACKET_ID_LONG_FORM *)
}.
#[export] Instance eta_replay : EtaOf replay_state := fun r =>
  mkreplay (co_packet_id r) (co_pid_persist r) (co_long_form r).

Definition set_rec (opt : replay_state) (r : packet_id_rec) : replay_state :=
  opt <| co_packet_id := (co_packet_id opt) <| pid_rec := r |> |>.

Definition crypto_check_replay (now : Z) (opt : replay_state) (pin : packet_id_net)
  : option (bool * replay_state) :=
  r ← packet_id_reap_test now (pid_rec (co_packet_id opt));
  let opt := set_rec opt r in
  '(ok, r) ← packet_id_test (pid_rec (co_packet_id opt)) pin;
  let opt := set_rec opt r in
  if ok : bool then
    r ← packet_id_add now (pid_rec (co_packet_id opt)) pin;
    let opt := set_rec opt r in
    let opt :=
      match co_pid_persist opt with
      | Some pp => if co_long_form opt
                   then opt <| co_pid_persist :=
                          Some (packet_id_persist_save_obj pp (co_packet_id opt)) |>
                   else opt
      | None => opt
      end in
    Some (true, opt)
  else Some (false, opt).

(** ** The window loop *)

Lemma packet_id_fill_spec fuel : forall sl id target,
  circ_wf sl -> 0 <= id -> target < 2 ^ 32 -> fuel = Z.to_nat (target - id) ->
  exists sl', packet_id_fill fuel sl id target = Some (sl', Z.max id target) /\
    circ_wf sl' /\ x_cap sl' = x_cap sl /\
    x_size sl' = Z.min (x_cap sl) (x_size sl + Z.max 0 (target - id)) /\
    (forall i, 0 <= i < x_size sl' ->
       circ_at 0 sl' i = if i <? Z.max 0 (target - id) then 0
                         else circ_at 0 sl (i - Z.max 0 (target - id))).
Proof.
  induction fuel as [|fuel IH]; intros sl id target W Hid Ht Hf; cbn [packet_id_fill].
  - exists sl. pose proof W as []. split_and!; try done; try lia.
    + do 2 f_equal. lia.
    + intros i Hi. destruct (Z.ltb_spec i (Z.max 0 (target - id))); [lia|]. f_equal. lia.
  - destruct (Z.ltb_spec id target); [|lia].
    destruct (circ_push 0 sl SEQ_UNSEEN W) as (sl1 & -> & W1 & Hs1 & Hc1 & H0 & Hsh).
    cbn. replace (u32 (id + 1)) with (id + 1) by (symmetry; apply wrap_small; unfold is_u; lia).
    destruct (IH sl1 (id + 1) target) as (sl' & -> & W' & Hc' & Hs' & Hat); try done; try lia.
    exists sl'. pose proof W as []. split_and!; try done; try lia.
    + do 2 f_equal. lia.
    + intros i Hi. rewrite Hat by done.
      destruct (Z.ltb_spec i (Z.max 0 (target - (id + 1)))), (Z.ltb_spec i (Z.max 0 (target - id)));
        try lia; try done.
      * replace (i - _) with 0 by lia. done.
      * replace (i - Z.max 0 (target - (id + 1))) with ((i - Z.max 0 (target - id)) + 1) by lia.
        apply Hsh. lia.
Qed.

Lemma reap_loop_spec fuel : forall now tb sl i expire,
  circ_wf sl -> 0 <= i -> Z.of_nat fuel = x_size sl - i ->
  exists sl', packet_id_reap_loop fuel now tb sl i expire = Some sl' /\
    circ_wf sl' /\ x_cap sl' = x_cap sl /\ x_size sl' = x_size sl /\
    (forall j, 0 <= j < i -> circ_at 0 sl' j = circ_at 0 sl j) /\
    (forall j, i <= j < x_size sl -> circ_at 0 sl' j = circ_at 0 sl j \/ circ_at 0 sl' j = 1).
Proof.
  induction fuel as [|fuel IH]; intros now tb sl i expire W Hi Hf; cbn [packet_id_reap_loop].
  - exists sl. split_and!; try done; auto with lia.
  - unfold CIRC_LIST_SIZE. destruct (Z.ltb_spec i (x_size sl)); [|lia].
    rewrite circ_item by (done || lia). cbn.
    destruct (circ_at 0 sl i =? SEQ_EXPIRED).
    { exists sl. split_and!; try done; auto with lia. }
    set (e := if negb expire && _ && _ then true else expire).
    assert (exists sl1, (if e then CIRC_LIST_SET sl i SEQ_EXPIRED else Some sl) = Some sl1 /\
      circ_wf sl1 /\ x_cap sl1 = x_cap sl /\ x_size sl1 = x_size sl /\
      (forall j, 0 <= j < x_size sl -> j <> i -> circ_at 0 sl1 j = circ_at 0 sl j) /\
      (circ_at 0 sl1 i = circ_at 0 sl i \/ circ_at 0 sl1 i = 1))
      as (sl1 & -> & W1 & Hc1 & Hs1 & Hne & Heq).
    { destruct e.
      - destruct (circ_set 0 sl i SEQ_EXPIRED W) as (sl1 & -> & W1 & ? & ? & Hat); [lia|].
        exists sl1. split_and!; try done.
        + intros j Hj Hne. rewrite Hat by done. destruct (Z.eqb_spec j i); [lia|done].
        + right. rewrite Hat by lia. by rewrite Z.eqb_refl.
      - exists sl. auto 10. }
    cbn. destruct (IH now tb sl1 (i + 1) e W1) as (sl' & -> & W' & Hc' & Hs' & Hlo & Hhi);
      [lia|lia|].
    exists sl'. split_and!; try done; try lia.
    + intros j Hj. rewrite Hlo by lia. apply Hne; lia.
    + intros j Hj. destruct (Z.eq_dec j i) as [->|].
      * rewrite Hlo by lia. done.
      * destruct (Hhi j) as [->| ->]; [lia| |by right]. left. apply Hne; lia.
Qed.

(** What reaping does to each slot, in the order of the list: the first slot
    seen longer than [tb] seconds ago and everything older expires. *)
Lemma reap_loop_expires fuel : forall now tb sl i expire sl',
  circ_wf sl -> 0 <= i -> Z.of_nat fuel = x_size sl - i ->
  (forall a b, i <= a <= b -> b < x_size sl -> circ_at 0 sl a = 1 -> circ_at 0 sl b = 1) ->
  packet_id_reap_loop fuel now tb sl i expire = Some sl' ->
  forall j, i <= j < x_size sl ->
    ((expire = true \/ exists k, i <= k <= j /\ circ_at 0 sl k <> 0 /\ circ_at 0 sl k <> 1 /\
        circ_at 0 sl k + tb < now) -> circ_at 0 sl' j = 1) /\
    (expire = false ->
     ~ (exists k, i <= k <= j /\ circ_at 0 sl k <> 0 /\ circ_at 0 sl k <> 1 /\
        circ_at 0 sl k + tb < now) -> circ_at 0 sl' j = circ_at 0 sl j).
Proof.
  induction fuel as [|fuel IH]; intros now tb sl i expire sl' W Hi Hf Hsuf Hrun j Hj;
    cbn [packet_id_reap_loop] in Hrun; [lia|].
  unfold CIRC_LIST_SIZE in Hrun. destruct (Z.ltb_spec i (x_size sl)); [|lia].
  rewrite circ_item in Hrun by (done || lia). cbn in Hrun. unfold SEQ_EXPIRED in Hrun.
  destruct (Z.eqb_spec (circ_at 0 sl i) 1) as [E1|E1].
  { injection Hrun as <-. split; [|done]. intros _. apply (Hsuf i); [lia|lia|done]. }
  set (st := negb (circ_at 0 sl i =? 0) && (circ_at 0 sl i + tb <? now)) in *.
  assert (Hst : st = true <-> circ_at 0 sl i <> 0 /\ circ_at 0 sl i + tb < now).
  { unfold st. rewrite andb_true_iff, negb_true_iff, Z.eqb_neq, Z.ltb_lt. done. }
  replace (if negb expire && negb (circ_at 0 sl i =? 0) && (circ_at 0 sl i + tb <? now)
           then true else expire) with (expire || st) in Hrun
    by (unfold st; destruct expire, (circ_at 0 sl i =? 0), (circ_at 0 sl i + tb <? now); done).
  destruct (expire || st) eqn:He; cbn in Hrun.
  - destruct (circ_set 0 sl i 1 W) as (sl1 & E & W1 & Hs1 & Hc1 & Hat); [lia|].
    rewrite E in Hrun. cbn in Hrun.
    destruct (reap_loop_spec fuel now tb sl1 (i + 1) true W1) as (sl2 & R & _ & _ & _ & Hlo & _);
      [lia|lia|]. rewrite R in Hrun. injection Hrun as <-.
    assert (Hone : circ_at 0 sl2 j = 1).
    { destruct (Z.eq_dec j i) as [->|].
      - rewrite Hlo, Hat, Z.eqb_refl by lia. done.
      - eapply (IH now tb sl1 (i + 1) true sl2); auto; try lia.
        intros a b Hab Hb. rewrite !Hat by lia.
        destruct (Z.eqb_spec a i), (Z.eqb_spec b i); try lia. apply Hsuf; lia. }
    split; [done|]. intros -> Hno. exfalso. apply Hno. exists i. cbn in He.
    apply Hst in He. intuition lia.
  - apply orb_false_iff in He as [-> Hst0].
    destruct (reap_loop_spec fuel now tb sl (i + 1) false W) as (sl2 & R & _ & _ & _ & Hlo & _);
      [lia|lia|]. rewrite R in Hrun. injection Hrun as <-.
    assert (Hni : ~ (circ_at 0 sl i <> 0 /\ circ_at 0 sl i + tb < now)).
    { rewrite <- Hst, Hst0. done. }
    destruct (Z.eq_dec j i) as [->|].
    { split; [|intros; apply Hlo; lia]. intros [?|(k & Hk & H0 & H1' & H2)]; [done|].
      replace k with i in * by lia. tauto. }
    destruct (IH now tb sl (i + 1) false sl2 W) with (j := j) as [IH1 IH2]; auto; try lia.
    { intros a b Hab. apply Hsuf. lia. }
    split.
    + intros [?|(k & Hk & H0 & H1' & H2)]; [done|]. apply IH1. right. exists k.
      destruct (Z.eq_dec k i) as [->|]; [tauto|]. split; [lia|done].
    + intros _ Hno. apply IH2; [done|]. intros (k & Hk & ?). apply Hno. exists k. split; [lia|done].
Qed.

(** ** Specification: a sliding window over the ids accepted so far *)

(** Highest time stamp, highest id of that time stamp, and the ids accepted
    under it. *)
Record win := mkwin { w_time : Z; w_id : Z; w_seen : gset Z }.

Definition win_accepts (sb : Z) (w : win) (pin : packet_id_net) : bool :=
  negb (n_id pin =? 0) &&
  ((w_time w <? n_time pin)
   || ((n_time pin =? w_time w)
       && ((w_id w <? n_id pin)
           || ((w_id w - sb <? n_id pin) && bool_decide (n_id pin ∉ w_seen w))))).

Definition win_add (w : win) (pin : packet_id_net) : win :=
  if w_time w <? n_time pin then mkwin (n_time pin) (n_id pin) {[n_id pin]}
  else mkwin (w_time w) (Z.max (w_id w) (n_id pin)) ({[n_id pin]} ∪ w_seen w).

Definition win_empty : win := mkwin 0 0 ∅.

Definition pin_ok (pin : packet_id_net) : Prop := is_u 32 (n_id pin) /\ 0 <= n_time pin.

(** The slots of the window tell which ids were accepted; with no time limit
    they tell it exactly.  Expired slots are the oldest ones. *)
Record slots_rel (tb id : Z) (seen : gset Z) (sl : seq_list) : Prop := {
  sr_seen : forall i, 0 <= i < x_size sl -> id - i ∈ seen -> circ_at 0 sl i <> 0;
  sr_exact : tb = 0 -> forall i, 0 <= i < x_size sl -> circ_at 0 sl i <> 0 -> id - i ∈ seen;
  sr_suffix : forall a b, 0 <= a <= b -> b < x_size sl -> circ_at 0 sl a = 1 -> circ_at 0 sl b = 1
}.

Record rec_rel (sb tb : Z) (p : packet_id_rec) (w : win) : Prop := {
  rr_init : r_initialized p = true;
  rr_sb : r_seq_backtrack p = sb;
  rr_tb : r_time_backtrack p = tb;
  rr_sb_range : 0 < sb <= MAX_SEQ_BACKTRACK;
  rr_time : r_time p = w_time w;
  rr_id : r_id p = w_id w;
  rr_id_range : is_u 32 (r_id p);
  rr_seen_range : forall x, x ∈ w_seen w -> 1 <= x <= w_id w;
  rr_slots : exists sl, r_seq_list p = Some sl /\ circ_wf sl /\ x_cap sl = sb /\
    x_size sl = Z.min sb (r_id p) /\ slots_rel tb (r_id p) (w_seen w) sl
}.

Lemma reap_rel sb tb p w now :
  rec_rel sb tb p w -> exists p', packet_id_reap now p = Some p' /\ rec_rel sb tb p' w.
Proof.
  intros []. unfold packet_id_reap. destruct rr_slots0 as (sl & Hsl & W & Hcap & Hsize & []).
  destruct (Z.eqb_spec (r_time_backtrack p) 0) as [E|E]; cbn.
  - eexists. split; [reflexivity|]. constructor; cbn; eauto 10 using slots_rel.
  - rewrite Hsl. cbn. unfold CIRC_LIST_SIZE. pose proof W as [].
    destruct (reap_loop_spec (Z.to_nat (x_size sl)) now (r_time_backtrack p) sl 0 false W)
      as (sl' & R & W' & Hc & Hs & _ & Hat); [lia|lia|].
    rewrite R. cbn. eexists. split; [reflexivity|]. constructor; cbn; try done.
    exists sl'. split_and!; try done; try congruence. constructor.
    + intros i Hi Hin. destruct (Hat i) as [->| ->]; [lia| |done]. apply sr_seen0; [lia|done].
    + congruence.
    + rewrite Hs. intros a b Hab Hb Ha.
      pose proof (reap_loop_expires (Z.to_nat (x_size sl)) now (r_time_backtrack p) sl 0 false
        sl' W ltac:(lia) ltac:(lia)
        ltac:(intros; eapply sr_suffix0; [|done|done]; lia) R) as HR.
      destruct (HR b) as [Hb1 Hb2]; [lia|]. destruct (HR a) as [Ha1 Ha2]; [lia|].
      destruct (Z.eq_dec (circ_at 0 sl a) 1) as [E1|E1].
      { assert (circ_at 0 sl b = 1) by (eapply (sr_suffix0 a); [lia|lia|done]).
        destruct (Hat b); [lia|congruence|done]. }
      destruct (Z.eq_dec (circ_at 0 sl' b) 1) as [?|Hb']; [done|]. exfalso.
      rewrite Ha2 in Ha; [done|done|]. intros (k & Hk & ?). apply Hb', Hb1. right. exists k.
      split; [lia|done].
Qed.

Lemma reap_test_rel sb tb p w now :
  rec_rel sb tb p w -> exists p', packet_id_reap_test now p = Some p' /\ rec_rel sb tb p' w.
Proof.
  intros R. unfold packet_id_reap_test. case_match; [by apply reap_rel | eauto].
Qed.

(** An id inside the window has its slot free. *)
Definition slot_free (p : packet_id_rec) (pin : packet_id_net) : Prop :=
  n_id pin <> 0 /\ r_time p <= n_time pin /\
  (n_time pin = r_time p -> n_id pin <= r_id p ->
   exists sl, r_seq_list p = Some sl /\ r_id p - n_id pin < x_size sl /\
     circ_at 0 sl (r_id p - n_id pin) = 0).

(** The test accepts only what the specification accepts, and everything it
    accepts when no time limit is set. *)
Lemma test_rel sb tb p w pin :
  rec_rel sb tb p w -> pin_ok pin ->
  exists ok p', packet_id_test p pin = Some (ok, p') /\ rec_rel sb tb p' w /\
    (ok = true -> win_accepts sb w pin = true /\ slot_free p' pin) /\
    (tb = 0 -> ok = win_accepts sb w pin).
Proof.
  intros R [Hid Ht]. pose proof R as [].
  unfold packet_id_test, win_accepts, slot_free. rewrite rr_init0. cbn [negb]. unfold is_u in *.
  destruct (Z.eqb_spec (n_id pin) 0); cbn [negb andb]; [by eexists false, p|].
  destruct (Z.eqb_spec (r_seq_backtrack p) 0); [lia|]. cbn [negb].
  rewrite rr_time0, rr_id0.
  destruct (Z.eqb_spec (n_time pin) (w_time w)) as [Et|Et]; cbn [orb andb].
  2:{ destruct (Z.ltb_spec (n_time pin) (w_time w)), (Z.ltb_spec (w_time w) (n_time pin)); try lia;
        cbn; eexists _, p; (split; [reflexivity|]); split_and!; try done; intros; split_and!; done || lia. }
  destruct (Z.ltb_spec (w_time w) (n_time pin)); [lia|].
  destruct (Z.ltb_spec (w_id w) (n_id pin)) as [Hlt|Hge]; cbn [orb].
  { eexists _, p. split; [reflexivity|]. split_and!; try done; intros; split_and!; done || lia. }
  destruct rr_slots0 as (sl & Hsl & W & Hcap & Hsize & []).
  rewrite (wrap_small 32 (w_id w - n_id pin)) by (unfold is_u; lia).
  set (p2 := if _ : bool then _ else p).
  assert (R2 : rec_rel sb tb p2 w).
  { unfold p2. case_match; [|done]. constructor; cbn; try done. eexists; eauto 10 using slots_rel. }
  assert (Hsl2 : r_seq_list p2 = Some sl) by (unfold p2; case_match; done).
  rewrite Hsl2. cbn. unfold CIRC_LIST_SIZE.
  assert (MAX_SEQ_BACKTRACK = 65536) by done. pose proof W as [].
  rewrite wrap_small by (unfold is_u; lia). rewrite Hsize, rr_id0.
  destruct (Z.leb_spec (Z.min sb (w_id w)) (w_id w - n_id pin)) as [Hfar|Hnear].
  - destruct (Z.ltb_spec (w_id w - sb) (n_id pin)); [lia|]. by eexists false, p2.
  - destruct (Z.ltb_spec (w_id w - sb) (n_id pin)); [|lia]. cbn [andb].
    rewrite circ_item by (done || lia). cbn. eexists _, _. split; [done|]. split; [done|].
    specialize (sr_seen0 (w_id w - n_id pin) ltac:(lia)).
    rewrite rr_id0 in *. replace (w_id w - (w_id w - n_id pin)) with (n_id pin) in * by lia.
    split.
    + intros E%Z.eqb_eq. split; [apply bool_decide_eq_true; tauto|].
      split_and!; [done | rewrite (rr_time _ _ _ _ R2); lia|]. intros _ _.
      exists sl. rewrite (rr_id _ _ _ _ R2). split_and!; done || lia.
    + intros Htb. specialize (sr_exact0 Htb (w_id w - n_id pin) ltac:(lia)).
      replace (w_id w - (w_id w - n_id pin)) with (n_id pin) in * by lia.
      destruct (Z.eqb_spec (circ_at 0 sl (w_id w - n_id pin)) 0) as [E|E];
        case_bool_decide; tauto.
Qed.

(** Filling up to [target] and stamping its slot. *)
Lemma window_advance now sl id target :
  circ_wf sl -> 0 <= id -> is_u 32 target -> SEQ_EXPIRED < now -> x_cap sl <= MAX_SEQ_BACKTRACK ->
  Z.max id target - target < Z.min (x_cap sl) (x_size sl + Z.max 0 (target - id)) ->
  is_u 32 (Z.max id target) ->
  exists sl1 sl', packet_id_fill (Z.to_nat (target - id)) sl id target = Some (sl1, Z.max id target)
    /\ (if (u32 (Z.max id target - target) <? u32 (CIRC_LIST_SIZE sl1)) && (SEQ_EXPIRED <? now)
        then CIRC_LIST_SET sl1 (u32 (Z.max id target - target)) now else Some sl1) = Some sl'
    /\ circ_wf sl' /\ x_cap sl' = x_cap sl
    /\ x_size sl' = Z.min (x_cap sl) (x_size sl + Z.max 0 (target - id))
    /\ (forall i, 0 <= i < x_size sl' -> circ_at 0 sl' i =
          if i =? Z.max id target - target then now
          else if i <? Z.max 0 (target - id) then 0
          else circ_at 0 sl (i - Z.max 0 (target - id))).
Proof.
  unfold is_u. intros W Hid Ht Hnow Hmax Hroom Hu.
  assert (MAX_SEQ_BACKTRACK = 65536) by done.
  destruct (packet_id_fill_spec _ sl id target W Hid ltac:(lia) eq_refl)
    as (sl1 & -> & W1 & Hc1 & Hs1 & Hat1).
  pose proof W1 as []. exists sl1. unfold CIRC_LIST_SIZE.
  rewrite !wrap_small by (unfold is_u; lia).
  destruct (Z.ltb_spec (Z.max id target - target) (x_size sl1)); [|lia].
  destruct (Z.ltb_spec SEQ_EXPIRED now); [|lia]. cbn [andb].
  destruct (circ_set 0 sl1 (Z.max id target - target) now W1) as (sl' & E & W' & Hs' & Hc' & Hat');
    [lia|].
  exists sl'. split_and!; try done; try lia.
  intros i Hi. rewrite Hat' by lia. destruct (i =? _); [done|]. apply Hat1. lia.
Qed.

(** Starting a new sequence (first packet, newer time stamp, or a jump past the
    window) forgets the old slots. *)
Lemma add_new_rel sb tb p w now pin :
  rec_rel sb tb p w -> pin_ok pin -> n_id pin <> 0 -> SEQ_EXPIRED < now ->
  (forall sl, r_seq_list p = Some sl -> packet_id_starts_new p sl pin = true) ->
  w_time w <= n_time pin ->
  (n_time pin = w_time w -> w_id w = 0 \/ w_id w < n_id pin - sb) ->
  exists p', packet_id_add now p pin = Some p' /\ rec_rel sb tb p' (win_add w pin).
Proof.
  intros R [Hid Ht] Hnz Hnow Hstart Hle Hsame. pose proof R as [].
  destruct rr_slots0 as (sl & Hsl & W & Hcap & Hsize & Hrel).
  unfold packet_id_add. rewrite Hsl, (Hstart sl Hsl). cbn. unfold is_u in *.
  assert (MAX_SEQ_BACKTRACK = 65536) by done. rewrite rr_sb0.
  rewrite (wrap_small 32 sb) by (unfold is_u; lia).
  set (id0 := if sb <? n_id pin then u32 (n_id pin - sb) else 0).
  assert (Hid0 : id0 = Z.max 0 (n_id pin - sb)).
  { unfold id0. destruct (Z.ltb_spec sb (n_id pin)); [rewrite wrap_small by (unfold is_u; lia)|]; lia. }
  pose proof (circ_reset_wf sl W) as Wr.
  destruct (window_advance now (CIRC_LIST_RESET sl) id0 (n_id pin) Wr)
    as (sl1 & sl' & Hfill & Hset & W' & Hc' & Hs' & Hat); unfold is_u; cbn; try lia.
  rewrite Hfill. cbn. rewrite Hset. cbn in *. eexists. split; [reflexivity|].
  assert (Hw : win_add w pin = mkwin (n_time pin) (n_id pin)
    (if w_time w <? n_time pin then {[n_id pin]} else {[n_id pin]} ∪ w_seen w)).
  { unfold win_add. destruct (Z.ltb_spec (w_time w) (n_time pin)); [done|]. f_equal; lia. }
  rewrite Hw. replace (Z.max id0 (n_id pin)) with (n_id pin) in * by lia.
  constructor; cbn; try done.
  - intros x. destruct (Z.ltb_spec (w_time w) (n_time pin)); [set_unfold; lia|].
    intros [->%elem_of_singleton|Hx%rr_seen_range0]%elem_of_union; lia.
  - exists sl'. split_and!; try done; try lia. constructor.
    + intros i Hi Hin. rewrite Hat by done.
      destruct (Z.eqb_spec i (n_id pin - n_id pin)); [unfold SEQ_EXPIRED in *; lia|].
      exfalso. assert (n_id pin - i = n_id pin \/ n_id pin - i ∈ w_seen w /\ n_time pin = w_time w)
        as [?|[Hx%rr_seen_range0 ?]]; [|lia|lia].
      revert Hin. destruct (Z.ltb_spec (w_time w) (n_time pin)); set_unfold; intuition lia.
    + intros _ i Hi. rewrite Hat by done.
      destruct (Z.eqb_spec i (n_id pin - n_id pin)) as [->|].
      * intros _. replace (n_id pin - _) with (n_id pin) by lia.
        destruct (w_time w <? n_time pin); set_unfold; tauto.
      * destruct (Z.ltb_spec i (Z.max 0 (n_id pin - id0))); [done|lia].
    + intros a b Hab Hb. rewrite !Hat by lia. unfold SEQ_EXPIRED in *.
      destruct (Z.eqb_spec a (n_id pin - n_id pin)), (Z.eqb_spec b (n_id pin - n_id pin)); try lia.
      all: destruct (Z.ltb_spec a (Z.max 0 (n_id pin - id0))); lia.
Qed.

(** Otherwise the window slides by the distance and keeps its slots. *)
Lemma add_slide_rel sb tb p w now pin sl :
  rec_rel sb tb p w -> pin_ok pin -> n_id pin <> 0 -> SEQ_EXPIRED < now ->
  r_seq_list p = Some sl -> packet_id_starts_new p sl pin = false ->
  n_time pin = w_time w -> w_id w - n_id pin < x_size sl ->
  (n_id pin <= w_id w -> circ_at 0 sl (w_id w - n_id pin) = 0) ->
  exists p', packet_id_add now p pin = Some p' /\ rec_rel sb tb p' (win_add w pin).
Proof.
  intros R [Hid Ht] Hnz Hnow Hsl Hns Heq Hin Hfree. pose proof R as [].
  destruct rr_slots0 as (sl0 & Hsl0 & W & Hcap & Hsize & []). rewrite Hsl in Hsl0. injection Hsl0 as <-.
  unfold packet_id_add. rewrite Hsl, Hns. cbn. unfold is_u in *.
  assert (MAX_SEQ_BACKTRACK = 65536) by done.
  assert (Hpos : 0 < x_size sl /\ n_id pin <= r_id p + sb).
  { unfold packet_id_starts_new, CIRC_LIST_SIZE in Hns. rewrite rr_sb0 in Hns.
    rewrite (wrap_small 32 sb) in Hns by (unfold is_u; lia).
    apply orb_false_iff in Hns as [[E1%Z.eqb_neq _]%orb_false_iff E2].
    pose proof W as []. split; [lia|].
    destruct (Z.leb_spec sb (n_id pin)); [|lia]. cbn in E2. apply Z.ltb_ge in E2.
    rewrite wrap_small in E2 by (unfold is_u; lia). lia. }
  destruct (window_advance now sl (r_id p) (n_id pin) W)
    as (sl1 & sl' & Hfill & Hset & W' & Hc' & Hs' & Hat); unfold is_u; try lia.
  rewrite Hfill. cbn. rewrite Hset. cbn. eexists. split; [reflexivity|].
  assert (Hw : win_add w pin = mkwin (w_time w) (Z.max (w_id w) (n_id pin)) ({[n_id pin]} ∪ w_seen w)).
  { unfold win_add. destruct (Z.ltb_spec (w_time w) (n_time pin)); [lia|done]. }
  rewrite Hw. rewrite rr_id0 in *.
  constructor; cbn; try done; try (unfold is_u; lia).
  - intros x [->%elem_of_singleton|Hx%rr_seen_range0]%elem_of_union; lia.
  - exists sl'. split_and!; try done; try lia.
    set (k := Z.max 0 (n_id pin - w_id w)) in *. set (M := Z.max (w_id w) (n_id pin)) in *.
    assert (HM : M - k = w_id w) by lia.
    constructor.
    + intros i Hi. rewrite Hat by done. destruct (Z.eqb_spec i (M - n_id pin)); [unfold SEQ_EXPIRED in *; lia|].
      intros [?%elem_of_singleton|Hx]%elem_of_union; [lia|].
      pose proof (rr_seen_range0 _ Hx). destruct (Z.ltb_spec i k); [lia|].
      apply sr_seen0; [lia|]. by replace (w_id w - (i - k)) with (M - i) by lia.
    + intros Htb i Hi. rewrite Hat by done. destruct (Z.eqb_spec i (M - n_id pin)) as [->|].
      { intros _. replace (M - _) with (n_id pin) by lia.
        rewrite elem_of_union, elem_of_singleton. auto. }
      destruct (Z.ltb_spec i k); [done|]. intros Hnz'%(sr_exact0 Htb); [|lia].
      replace (w_id w - (i - k)) with (M - i) in Hnz' by lia. rewrite elem_of_union. auto.
    + intros a b Hab Hb. rewrite !Hat by lia. unfold SEQ_EXPIRED in *.
      destruct (Z.eqb_spec a (M - n_id pin)), (Z.eqb_spec b (M - n_id pin)); try lia.
      * destruct (Z.ltb_spec a k); [lia|]. intros E.
        assert (circ_at 0 sl (w_id w - n_id pin) = 1) as E'; [|rewrite Hfree in E'; lia].
        apply (sr_suffix0 (a - k)); [lia|lia|done].
      * destruct (Z.ltb_spec a k), (Z.ltb_spec b k); try lia. apply sr_suffix0; lia.
Qed.

Lemma add_rel sb tb p w now pin :
  rec_rel sb tb p w -> pin_ok pin -> SEQ_EXPIRED < now -> slot_free p pin ->
  win_accepts sb w pin = true ->
  exists p', packet_id_add now p pin = Some p' /\ rec_rel sb tb p' (win_add w pin).
Proof.
  intros R Hpin Hnow (Hnz & Hle & Hslot) Hacc. pose proof R as [].
  destruct rr_slots0 as (sl & Hsl & W & Hcap & Hsize & Hrel).
  assert (MAX_SEQ_BACKTRACK = 65536) by done. destruct Hpin as [Hu Ht]. unfold is_u in *.
  destruct (packet_id_starts_new p sl pin) eqn:Hs.
  - apply add_new_rel; try done.
    + intros sl'. rewrite Hsl. by intros [= <-].
    + lia.
    + unfold packet_id_starts_new, CIRC_LIST_SIZE in Hs. intros Et.
      rewrite Hsize, rr_sb0, (wrap_small 32 sb) in Hs by (unfold is_u; lia).
      apply orb_true_iff in Hs as [[E%Z.eqb_eq|E%Z.ltb_lt]%orb_true_iff|[E1%Z.leb_le E2%Z.ltb_lt]%andb_true_iff];
        [lia|lia|]. rewrite wrap_small in E2 by (unfold is_u; lia). lia.
  - assert (Et : n_time pin = w_time w).
    { unfold packet_id_starts_new in Hs. apply orb_false_iff in Hs as [[_ E%Z.ltb_ge]%orb_false_iff _]. lia. }
    assert (0 < x_size sl).
    { unfold packet_id_starts_new, CIRC_LIST_SIZE in Hs.
      apply orb_false_iff in Hs as [[E%Z.eqb_neq _]%orb_false_iff _]. lia. }
    destruct (Z.le_gt_cases (n_id pin) (w_id w)).
    + destruct Hslot as (sl' & E & ? & ?); [lia|lia|]. rewrite Hsl in E. injection E as <-.
      eapply add_slide_rel; try done; try lia. intros _. by rewrite <- rr_id0.
    + eapply add_slide_rel; try done; lia.
Qed.

(** ** Runs of the replay check *)

Definition replay_event : Type := Z * packet_id_net.    (* clock, packet id *)

Definition event_ok (e : replay_event) : Prop := SEQ_EXPIRED < fst e /\ pin_ok (snd e).

Fixpoint replay_run (opt : replay_state) (evs : list replay_event)
  : option (list bool * replay_state) :=
  match evs with
  | [] => Some ([], opt)
  | (now, pin) :: evs' =>
      '(ok, opt1) ← crypto_check_replay now opt pin;
      '(oks, opt2) ← replay_run opt1 evs';
      Some (ok :: oks, opt2)
  end.

(** The packet ids a run accepted. *)
Definition accepted (evs : list replay_event) (oks : list bool) : list packet_id_net :=
  map (fun x => snd (fst x)) (filter (fun x => snd x = true) (zip evs oks)).

Lemma accepted_cons now pin evs ok oks :
  accepted ((now, pin) :: evs) (ok :: oks)
  = if ok : bool then pin :: accepted evs oks else accepted evs oks.
Proof. unfold accepted. cbn. by destruct ok. Qed.

#[local] Arguments accepted : simpl never.

(** The specification's run. *)
Fixpoint win_run (sb : Z) (w : win) (pins : list packet_id_net) : list bool :=
  match pins with
  | [] => []
  | pin :: pins' =>
      if win_accepts sb w pin then true :: win_run sb (win_add w pin) pins'
      else false :: win_run sb w pins'
  end.

Lemma check_replay_rel sb tb opt w now pin :
  rec_rel sb tb (pid_rec (co_packet_id opt)) w -> SEQ_EXPIRED < now -> pin_ok pin ->
  exists ok opt', crypto_check_replay now opt pin = Some (ok, opt') /\
    rec_rel sb tb (pid_rec (co_packet_id opt')) (if ok : bool then win_add w pin else w) /\
    (ok = true -> win_accepts sb w pin = true) /\ (tb = 0 -> ok = win_accepts sb w pin).
Proof.
  intros R Hnow Hpin. unfold crypto_check_replay.
  destruct (reap_test_rel _ _ _ _ now R) as (r1 & -> & R1). cbn.
  destruct (test_rel _ _ _ _ pin R1 Hpin) as (ok & r2 & -> & R2 & Hs & He). cbn.
  destruct ok; [|eexists false, _; split; [reflexivity|]; split_and!; done].
  destruct (Hs eq_refl) as [Ha Hf].
  destruct (add_rel _ _ _ _ now pin R2 Hpin Hnow Hf Ha) as (r3 & -> & R3). cbn.
  eexists true, _. split; [reflexivity|]. split; [|done].
  destruct (co_pid_persist opt); [destruct (co_long_form opt)|]; done.
Qed.

(** After an acceptance the specification never accepts that pin again. *)
Definition barred (sb : Z) (w : win) (q : packet_id_net) : Prop :=
  n_time q < w_time w \/ (n_time q = w_time w /\ n_id q <= w_id w /\ n_id q ∈ w_seen w).

Lemma barred_rejected sb w q : barred sb w q -> win_accepts sb w q = false.
Proof.
  intros [H|(H1 & H2 & H3)]; unfold win_accepts; destruct (n_id q =? 0); cbn; try done.
  - destruct (Z.ltb_spec (w_time w) (n_time q)), (Z.eqb_spec (n_time q) (w_time w)); lia || done.
  - destruct (Z.ltb_spec (w_time w) (n_time q)), (Z.ltb_spec (w_id w) (n_id q)); try lia. cbn.
    rewrite bool_decide_eq_false_2 by tauto. by rewrite !andb_false_r.
Qed.

Lemma barred_add_self sb w q : win_accepts sb w q = true -> barred sb (win_add w q) q.
Proof.
  unfold win_accepts, win_add, barred. intros [_ H]%andb_true_iff. right.
  destruct (Z.ltb_spec (w_time w) (n_time q)); cbn in *; [set_unfold; lia|].
  apply andb_true_iff in H as [H%Z.eqb_eq _]. set_unfold. lia.
Qed.

Lemma barred_add sb w q pin : barred sb w q -> barred sb (win_add w pin) q.
Proof.
  unfold win_add, barred. intros [H|(H1 & H2 & H3)];
    destruct (Z.ltb_spec (w_time w) (n_time pin)); cbn; try (left; lia).
  right. set_unfold. split_and!; [lia|lia|tauto].
Qed.

Lemma replay_run_rel sb tb evs : forall opt w,
  rec_rel sb tb (pid_rec (co_packet_id opt)) w -> Forall event_ok evs ->
  exists oks opt', replay_run opt evs = Some (oks, opt') /\
    (tb = 0 -> oks = win_run sb w (map snd evs)) /\
    NoDup (accepted evs oks) /\
    (forall q, barred sb w q -> q ∉ accepted evs oks) /\
    (exists w', rec_rel sb tb (pid_rec (co_packet_id opt')) w').
Proof.
  induction evs as [|[now pin] evs IH]; intros opt w R Hev; cbn.
  - eexists _, _. split; [reflexivity|]. split; [done|]. split; [constructor|].
    split; [|eauto]. intros q _. cbn. apply not_elem_of_nil.
  - inversion Hev as [|? ? [Hnow Hpin] Hev']; subst. cbn in *.
    destruct (check_replay_rel _ _ _ _ now pin R Hnow Hpin) as (ok & opt1 & -> & R1 & Hs & He). cbn.
    destruct (IH opt1 _ R1 Hev') as (oks & opt2 & -> & Hexact & Hnd & Hbar & Hfin). cbn.
    eexists _, _. split; [reflexivity|]. rewrite accepted_cons. split_and!.
    + intros Htb. rewrite <- He by done. rewrite Hexact by done. by destruct ok.
    + destruct ok; [|done]. constructor; [|done]. by apply Hbar, barred_add_self, Hs.
    + intros q Hq. destruct ok; [|by apply Hbar].
      rewrite elem_of_cons. intros [->|Hin].
      * apply barred_rejected in Hq. rewrite Hs in Hq; done.
      * by apply (Hbar q); [apply barred_add|].
    + done.
Qed.

Lemma init_rel sb tb name unit_ pid :
  packet_id_init sb tb name unit_ = Some pid -> sb <> 0 ->
  rec_rel sb tb (pid_rec pid) win_empty.
Proof.
  unfold packet_id_init. destruct (Z.eqb_spec sb 0); [done|]. case_match eqn:E; [|done].
  intros [= <-] _. rewrite !andb_true_iff, !Z.leb_le in E. unfold MIN_SEQ_BACKTRACK in E.
  constructor; cbn; try done; try lia.
  eexists. split; [reflexivity|]. split; [apply circ_alloc_wf; lia|].
  split_and!; cbn; try done; try lia. constructor; cbn; lia.
Qed.

(** The verdict on an id inside the window is read off its slot. *)
Lemma test_slot sb p sl pin :
  r_initialized p = true -> r_seq_backtrack p = sb -> sb <> 0 -> r_time p = n_time pin ->
  1 <= n_id pin -> r_seq_list p = Some sl -> circ_wf sl -> x_size sl <= MAX_SEQ_BACKTRACK ->
  is_u 32 (r_id p) -> 0 <= r_id p - n_id pin < x_size sl ->
  fst <$> packet_id_test p pin = Some (circ_at 0 sl (r_id p - n_id pin) =? 0).
Proof.
  unfold is_u. intros Hi Hsb Hnz Ht Hid Hsl W Hmax Hu Hd. unfold packet_id_test. rewrite Hi. cbn [negb].
  assert (MAX_SEQ_BACKTRACK = 65536) by done.
  destruct (Z.eqb_spec (n_id pin) 0); [lia|]. destruct (Z.eqb_spec (r_seq_backtrack p) 0); [lia|].
  cbn [negb]. rewrite Ht, Z.eqb_refl. destruct (Z.ltb_spec (r_id p) (n_id pin)); [lia|].
  rewrite wrap_small by (unfold is_u; lia).
  set (p2 := if _ : bool then _ else p).
  assert (E : r_seq_list p2 = Some sl) by (unfold p2; case_match; done). rewrite E. cbn.
  unfold CIRC_LIST_SIZE. rewrite wrap_small by (unfold is_u; lia).
  destruct (Z.leb_spec (x_size sl) (r_id p - n_id pin)); [lia|].
  by rewrite circ_item by (done || lia).
Qed.

(** *** Stream transports: no window, ids must follow each other *)

(** [b] may follow [a] on a reliable transport. *)
Definition follows (a b : packet_id_net) : Prop :=
  (n_time b = n_time a /\ n_id b = n_id a + 1) \/ (n_time a < n_time b /\ n_id b = 1).

(** The record of stream mode holds the last accepted pin ([id] is 0 before). *)
Record stream_rec (p : packet_id_rec) : Prop := {
  st_init : r_initialized p = true;
  st_sb : r_seq_backtrack p = 0;
  st_tb : r_time_backtrack p = 0;
  st_list : r_seq_list p = None;
  st_id : is_u 32 (r_id p);
  st_time : 0 <= r_time p
}.

Lemma stream_check opt now pin :
  stream_rec (pid_rec (co_packet_id opt)) -> pin_ok pin ->
  let p := pid_rec (co_packet_id opt) in
  exists ok opt', crypto_check_replay now opt pin = Some (ok, opt') /\
    let p' := pid_rec (co_packet_id opt') in
    stream_rec p' /\
    (ok = true -> n_id pin <> 0 /\ r_id p' = n_id pin /\ r_time p' = n_time pin /\
       (r_id p <> 0 -> follows (mknet (r_id p) (r_time p)) pin)) /\
    (ok = false -> r_id p' = r_id p /\ r_time p' = r_time p).
Proof.
  intros R [Hid Ht] p. assert (Hp : pid_rec (co_packet_id opt) = p) by done.
  clearbody p. unfold crypto_check_replay. rewrite Hp in *. destruct R.
  assert (exists r, packet_id_reap_test now p = Some r /\ stream_rec r /\
    r_id r = r_id p /\ r_time r = r_time p) as (r & E & Rr & Hri & Hrt).
  { unfold packet_id_reap_test, packet_id_reap. rewrite st_tb0. cbn.
    case_match; eexists; (split; [reflexivity|]); split_and!; try done; by constructor. }
  rewrite E. cbn. pose proof Rr as []. unfold packet_id_test. rewrite st_init1. cbn.
  unfold is_u in *.
  destruct (Z.eqb_spec (n_id pin) 0).
  { eexists false, _. split; [reflexivity|]. done. }
  rewrite st_sb1. cbn. rewrite Hri, Hrt in *.
  set (acc := if n_time pin =? r_time p then _ else _).
  assert (exists ok, acc = Some (ok, r) /\ (ok = true -> r_id p <> 0 -> follows (mknet (r_id p) (r_time p)) pin))
    as (ok & -> & Hok).
  { unfold acc, follows. cbn. destruct (Z.eqb_spec (n_time pin) (r_time p)).
    - eexists. split; [done|]. intros [?%Z.eqb_eq|E1%Z.eqb_eq]%orb_true_iff ?; [done|].
      left. split; [done|]. destruct (Z.eq_dec (r_id p) (2^32 - 1)) as [E2|].
      + rewrite E2 in E1. change (u32 (2 ^ 32 - 1 + 1)) with 0 in E1. lia.
      + rewrite wrap_small in E1; unfold is_u; lia.
    - destruct (Z.ltb_spec (n_time pin) (r_time p)); (eexists; split; [done|]); [done|].
      intros ?%Z.eqb_eq _. right. lia. }
  cbn. destruct ok.
  - unfold packet_id_add. cbn. rewrite st_list1. cbn. eexists true, _. split; [reflexivity|].
    destruct (co_pid_persist opt); [destruct (co_long_form opt)|]; cbn;
      (split; [by constructor|]); split; try done; intros _; split_and!; auto.
  - eexists false, _. split; [reflexivity|]. cbn. split; [done|]. done.
Qed.

Inductive chain : list packet_id_net -> Prop :=
  | chain_nil : chain []
  | chain_one a : chain [a]
  | chain_cons a b l : follows a b -> chain (b :: l) -> chain (a :: b :: l).

Lemma stream_run evs : forall opt,
  stream_rec (pid_rec (co_packet_id opt)) -> Forall (fun e => pin_ok (snd e)) evs ->
  exists oks opt', replay_run opt evs = Some (oks, opt') /\
    let p := pid_rec (co_packet_id opt) in
    chain (if r_id p =? 0 then accepted evs oks
           else mknet (r_id p) (r_time p) :: accepted evs oks).
Proof.
  induction evs as [|[now pin] evs IH]; intros opt R Hev; cbn.
  - eexists _, _. split; [reflexivity|]. cbn. unfold accepted. cbn. case_match; constructor.
  - inversion Hev as [|? ? Hpin Hev']; subst. cbn in *.
    destruct (stream_check opt now pin R Hpin) as (ok & opt1 & -> & R1 & Ht & Hf). cbn in *.
    destruct (IH opt1 R1 Hev') as (oks & opt2 & -> & Hc). cbn.
    eexists _, _. split; [reflexivity|]. rewrite accepted_cons. destruct ok.
    + destruct (Ht eq_refl) as (Hnz & E1 & E2 & Hfol). rewrite E1, E2 in Hc.
      destruct (Z.eqb_spec (n_id pin) 0); [done|].
      replace (mknet (n_id pin) (n_time pin)) with pin in Hc by (by destruct pin).
      destruct (Z.eqb_spec (r_id (pid_rec (co_packet_id opt))) 0); [done|].
      constructor; [auto|done].
    + destruct (Hf eq_refl) as [E1 E2]. rewrite E1, E2 in Hc. done.
Qed.

Lemma follows_lt a b : follows a b ->
  n_time a < n_time b \/ n_time a = n_time b /\ n_id a < n_id b.
Proof. unfold follows. lia. Qed.

Lemma chain_increasing a l : chain (a :: l) -> forall b, b ∈ l ->
  n_time a < n_time b \/ n_time a = n_time b /\ n_id a < n_id b.
Proof.
  revert a. induction l as [|c l IH]; intros a Hc b Hb; [by apply not_elem_of_nil in Hb|].
  inversion Hc as [| |? ? ? Hf Hc']; subst. apply follows_lt in Hf.
  apply elem_of_cons in Hb as [->|Hb]; [done|].
  specialize (IH c Hc' b Hb). lia.
Qed.

Lemma chain_NoDup l : chain l -> NoDup l.
Proof.
  induction l as [|a l IH]; intros Hc; constructor.
  - intros Hin. pose proof (chain_increasing a l Hc a Hin). lia.
  - apply IH. inversion Hc; [constructor | done].
Qed.

Lemma stream_init tb name unit_ pid :
  packet_id_init 0 tb name unit_ = Some pid -> stream_rec (pid_rec pid).
Proof. intros [= <-]. by constructor. Qed.

(** *** Sending: fresh packet ids *)

(** A sender emits packet ids at the times [nows]; it stops at the first refusal. *)
Fixpoint send_run (p : packet_id_send) (long_form : bool) (nows : list Z) : list (Z * Z) :=
  match nows with
  | [] => []
  | now :: nows' =>
      match packet_id_send_update now p long_form with
      | (true, p') => (s_time p', s_id p') :: send_run p' long_form nows'
      | (false, _) => []
      end
  end.

(** Lexicographic order on (time, id). *)
Definition stamp_lt (a b : Z * Z) : Prop := fst a < fst b \/ fst a = fst b /\ snd a < snd b.

Lemma send_update_spec now p long_form p' :
  is_u 32 (s_id p) -> 0 <= s_time p <= now ->
  packet_id_send_update now p long_form = (true, p') ->
  is_u 32 (s_id p') /\ 1 <= s_id p' /\ s_time p <= s_time p' <= now /\
  stamp_lt (s_time p, s_id p) (s_time p', s_id p') /\ (s_time p = 0 -> s_time p' = now) /\
  (long_form = false -> s_id p' = s_id p + 1).
Proof.
  unfold is_u, packet_id_send_update, stamp_lt. intros Hid Ht.
  set (p1 := if s_time p =? 0 then _ else p).
  assert (H1 : s_id p1 = s_id p /\ s_time p <= s_time p1 <= now /\ (s_time p = 0 -> s_time p1 = now)).
  { unfold p1. destruct (Z.eqb_spec (s_time p) 0); cbn; lia. }
  destruct H1 as (E1 & E2 & E3). rewrite E1. unfold PACKET_ID_MAX.
  destruct (Z.eqb_spec (s_id p) (2 ^ 32 - 1)).
  - destruct long_form; cbn [negb orb]; [|done].
    destruct (Z.leb_spec now (s_time p1)); [done|]. intros [= <-]. cbn -[Z.pow].
    replace (u32 (0 + 1)) with 1 by done. lia.
  - intros [= <-]. cbn -[Z.pow]. rewrite wrap_small by (unfold is_u; lia). lia.
Qed.

Fixpoint monotone (lo : Z) (nows : list Z) : Prop :=
  match nows with [] => True | now :: r => lo <= now /\ monotone now r end.

Lemma send_run_above long_form nows : forall p now,
  is_u 32 (s_id p) -> 0 <= s_time p <= now -> monotone now nows ->
  Forall (stamp_lt (s_time p, s_id p)) (send_run p long_form nows) /\
  StronglySorted stamp_lt (send_run p long_form nows) /\
  Forall (fun x => is_u 32 (snd x) /\ 1 <= snd x) (send_run p long_form nows).
Proof.
  induction nows as [|n nows IH]; intros p now Hid Ht Hm; cbn [send_run]; [split_and!; constructor|].
  destruct Hm as [Hn Hm].
  destruct (packet_id_send_update n p long_form) as [[] p'] eqn:E; [|split_and!; constructor].
  destruct (send_update_spec n p long_form p' Hid ltac:(lia) E) as (Hu & H1 & Hb & Hlt & _ & _).
  destruct (IH p' n Hu ltac:(lia) Hm) as (Ha & Hs & Hr).
  split_and!; constructor; auto.
  eapply Forall_impl; [exact Ha|]. intros x Hx. unfold stamp_lt in *. cbn in *. lia.
Qed.

(** *** Every configuration *)

Lemma replay_run_length evs : forall opt oks opt', replay_run opt evs = Some (oks, opt') -> length oks = length evs.
Proof.
  induction evs as [|[now pin] evs IH]; intros opt oks opt' Hr; cbn in Hr; [by injection Hr as <- <-|].
  destruct (crypto_check_replay now opt pin) as [[ok opt1]|]; [|done]. cbn in Hr.
  destruct (replay_run opt1 evs) as [[oks1 opt2]|] eqn:E; [|done]. injection Hr as <- <-. cbn. f_equal. eapply IH, E.
Qed.

Lemma replay_run_safe sb tb name unit_ pid pp lf evs :
  packet_id_init sb tb name unit_ = Some pid -> Forall event_ok evs ->
  exists oks opt', replay_run (mkreplay pid pp lf) evs = Some (oks, opt') /\ NoDup (accepted evs oks).
Proof.
  intros Hi Hev. destruct (Z.eq_dec sb 0) as [->|Hsb].
  - assert (R : stream_rec (pid_rec (co_packet_id (mkreplay pid pp lf)))) by (by eapply stream_init).
    destruct (stream_run evs _ R) as (oks & opt' & Hr & Hc).
    { eapply Forall_impl; [done|]. by intros ? []. }
    exists oks, opt'. split; [done|]. cbn in Hc. injection Hi as <-. cbn in Hc. by apply chain_NoDup.
  - pose proof (init_rel _ _ _ _ _ Hi Hsb) as R.
    destruct (replay_run_rel sb tb evs (mkreplay pid pp lf) win_empty R Hev) as (oks & opt' & Hr & _ & Hnd & _). eauto.
Qed.

(** What the check leaves alone. *)
Definition replay_frame (a b : replay_state) : Prop :=
  co_long_form b = co_long_form a /\ pid_send (co_packet_id b) = pid_send (co_packet_id a) /\
  packet_id_initialized (co_packet_id b) = packet_id_initialized (co_packet_id a).

Lemma check_replay_frame now opt pin ok opt' : crypto_check_replay now opt pin = Some (ok, opt') -> replay_frame opt opt'.
Proof.
  assert (Hreap : forall p p', packet_id_reap_test now p = Some p' -> r_initialized p' = r_initialized p).
  { intros p p'. unfold packet_id_reap_test, packet_id_reap. repeat case_match; cbn; intros Hp; simplify_option_eq; done. }
  assert (Htest : forall p q p', packet_id_test p q = Some (ok, p') -> r_initialized p' = r_initialized p).
  { intros p q p'. unfold packet_id_test. intros Hp. repeat case_match; simplify_option_eq; repeat case_match; simplify_option_eq; done. }
  assert (Hadd : forall p q p', packet_id_add now p q = Some p' -> r_initialized p' = r_initialized p).
  { intros p q p'. unfold packet_id_add. intros Hp. repeat case_match; simplify_option_eq; repeat case_match; simplify_option_eq; done. }
  unfold crypto_check_replay, replay_frame, packet_id_initialized.
  destruct (packet_id_reap_test now _) as [r1|] eqn:E1; [|done]. cbn. apply Hreap in E1.
  destruct (packet_id_test r1 pin) as [[ok' r2]|] eqn:E2; [|done]. cbn. destruct ok'.
  - destruct (packet_id_add now r2 pin) as [r3|] eqn:E3; [|done]. cbn. intros [= <- <-].
    apply Htest in E2. apply Hadd in E3. destruct (co_pid_persist opt); [destruct (co_long_form opt) eqn:?|]; cbn; split_and!; congruence.
  - intros [= <- <-]. apply Htest in E2. cbn. split_and!; congruence.
Qed.

(** ** Properties *)

(** C17. Replay protection, safety: whatever the window configuration (datagram
    mode with any window and time limit, or stream mode), whatever packets
    arrive in whatever order and duplicated at will, [crypto_check_replay] never
    faults and never accepts the same packet id and time stamp twice. *)
Theorem replay_never_accepted_twice sb tb name unit_ pid pp lf evs :
  packet_id_init sb tb name unit_ = Some pid ->
  Forall event_ok evs ->
  exists oks opt', replay_run (mkreplay pid pp lf) evs = Some (oks, opt') /\
    length oks = length evs /\ NoDup (accepted evs oks).
Proof.
  intros Hi Hev. destruct (replay_run_safe sb tb name unit_ pid pp lf evs Hi Hev) as (oks & opt' & Hr & Hnd).
  exists oks, opt'. split_and!; try done. by eapply replay_run_length.
Qed.

Lemma replay_never_accepted_twice_witness :
  exists pid oks opt',
  packet_id_init 4 15 [] 0 = Some pid /\
  replay_run (mkreplay pid None false)
    [(100, mknet 1 0); (100, mknet 3 0); (101, mknet 2 0); (101, mknet 3 0);
     (102, mknet 9 0); (102, mknet 4 0); (103, mknet 1 7); (103, mknet 2 0)] = Some (oks, opt') /\
  oks = [true; true; true; false; true; false; true; false] /\
  NoDup (accepted [(100, mknet 1 0); (100, mknet 3 0); (101, mknet 2 0); (101, mknet 3 0);
     (102, mknet 9 0); (102, mknet 4 0); (103, mknet 1 7); (103, mknet 2 0)] oks).
Proof.
  assert (exists pid, packet_id_init 4 15 [] 0 = Some pid) as [pid Hp] by (eexists; reflexivity).
  destruct (replay_never_accepted_twice 4 15 [] 0 pid None false
    [(100, mknet 1 0); (100, mknet 3 0); (101, mknet 2 0); (101, mknet 3 0);
     (102, mknet 9 0); (102, mknet 4 0); (103, mknet 1 7); (103, mknet 2 0)] Hp)
    as (oks & opt' & Hr & _ & Hnd).
  { repeat constructor; vm_compute; intuition congruence. }
  exists pid, oks, opt'. split_and!; try done.
  injection Hp as <-. vm_compute in Hr. by injection Hr as <- _.
Defined.

(** C34. Replay protection, exactness: with no time limit the decisions of
    [crypto_check_replay] are those of the abstract sliding window (accept a
    non-zero id when its time stamp is newer than any seen, or equal with the id
    above every accepted one, or within [seq_backtrack] of it and not accepted
    before), for every sequence of packets; so late packets inside the window
    are not lost. *)
Theorem replay_window_refines_spec sb name unit_ pid pp lf evs :
  packet_id_init sb 0 name unit_ = Some pid -> sb <> 0 ->
  Forall event_ok evs ->
  exists opt', replay_run (mkreplay pid pp lf) evs
    = Some (win_run sb win_empty (map snd evs), opt').
Proof.
  intros Hi Hsb Hev. pose proof (init_rel _ _ _ _ _ Hi Hsb) as R.
  destruct (replay_run_rel sb 0 evs (mkreplay pid pp lf) win_empty R Hev)
    as (oks & opt' & Hr & He & _). rewrite <- He by done. eauto.
Qed.

Lemma replay_window_refines_spec_witness :
  exists pid opt', packet_id_init 64 0 [] 0 = Some pid /\
  replay_run (mkreplay pid None true) [(9, mknet 70 5); (9, mknet 7 5); (9, mknet 6 5); (9, mknet 7 5)]
    = Some ([true; true; false; false], opt').
Proof.
  assert (exists pid, packet_id_init 64 0 [] 0 = Some pid) as [pid Hp] by (eexists; reflexivity).
  destruct (replay_window_refines_spec 64 [] 0 pid None true
    [(9, mknet 70 5); (9, mknet 7 5); (9, mknet 6 5); (9, mknet 7 5)] Hp) as [opt' H].
  - lia.
  - repeat constructor; vm_compute; intuition congruence.
  - exists pid, opt'. split; [done|]. rewrite H. vm_compute. done.
Defined.

(** Stream mode: the accepted packet ids follow each other without a gap
    (the next id under the same time stamp, or id 1 under a newer one). *)
Theorem stream_mode_gapless tb name unit_ pid pp lf evs :
  packet_id_init 0 tb name unit_ = Some pid ->
  Forall (fun e => pin_ok (snd e)) evs ->
  exists oks opt', replay_run (mkreplay pid pp lf) evs = Some (oks, opt') /\
    chain (accepted evs oks).
Proof.
  intros Hi Hev.
  assert (R : stream_rec (pid_rec (co_packet_id (mkreplay pid pp lf)))) by (by eapply stream_init).
  destruct (stream_run evs _ R Hev) as (oks & opt' & Hr & Hc).
  injection Hi as <-. cbn in Hc. eauto.
Qed.

Lemma stream_mode_gapless_witness :
  exists pid oks opt', packet_id_init 0 0 [] 0 = Some pid /\
  replay_run (mkreplay pid None false)
    [(0, mknet 5 0); (0, mknet 6 0); (0, mknet 8 0); (0, mknet 1 3)] = Some (oks, opt') /\
  oks = [true; true; false; true] /\ chain [mknet 5 0; mknet 6 0; mknet 1 3].
Proof.
  assert (exists pid, packet_id_init 0 0 [] 0 = Some pid) as [pid Hp] by (eexists; reflexivity).
  destruct (stream_mode_gapless 0 [] 0 pid None false
    [(0, mknet 5 0); (0, mknet 6 0); (0, mknet 8 0); (0, mknet 1 3)] Hp) as (oks & opt' & Hr & Hc).
  - repeat constructor; vm_compute; intuition congruence.
  - exists pid, oks, opt'. assert (oks = [true; true; false; true]) as ->.
    { injection Hp as <-. vm_compute in Hr. by injection Hr as <- _. }
    split_and!; done.
Defined.

(** C35. Fresh identifiers: with a clock that does not run backwards, the (time,
    id) pairs one sender emits increase strictly, ids stay within 1 and 2^32-1,
    so no pair is used twice even across the 32-bit roll-over. *)
Theorem send_ids_fresh long_form nows t0 :
  0 < t0 -> monotone t0 nows ->
  let sent := send_run (mksend 0 0) long_form nows in
  StronglySorted stamp_lt sent /\ NoDup sent /\ Forall (fun x => 1 <= snd x <= PACKET_ID_MAX) sent.
Proof.
  intros Ht Hm sent.
  destruct (send_run_above long_form nows (mksend 0 0) t0) as (_ & Hs & Hr);
    [unfold is_u; cbn; lia | cbn; lia | done|]. fold sent in Hs, Hr.
  split_and!; [done| |eapply Forall_impl; [done|]; unfold is_u, PACKET_ID_MAX; intros; lia].
  clear Hr. induction Hs as [|x l Hs IH Hx]; constructor; [|done].
  intros Hin. rewrite Forall_forall in Hx. specialize (Hx x Hin). unfold stamp_lt in Hx. lia.
Qed.

Lemma send_ids_fresh_witness :
  send_run (mksend 0 0) true [7; 7; 9] = [(7, 1); (7, 2); (7, 3)] /\
  NoDup (send_run (mksend 0 0) true [7; 7; 9]).
Proof.
  split; [done|]. apply (send_ids_fresh true [7; 7; 9] 7); [lia|]. cbn. lia.
Defined.

(** The bytes a successful write leaves in the buffer. *)
Lemma packet_id_layout (b : buffer) (q p' : packet_id_send) (b' : buffer) (long_form prepend : bool) :
  buf_live b -> prepend = true \/ buf_contents b = [] ->
  (if prepend : bool then
     let '(ok, buf) := if long_form then buf_write_prepend b (be32 (u32 (s_time q))) else (true, b) in
     if negb ok then (false, q, buf)
     else let '(ok, buf) := buf_write_prepend buf (be32 (s_id q)) in (ok, q, buf)
   else
     let '(ok, buf) := buf_write b (be32 (s_id q)) in
     if negb ok then (false, q, buf)
     else if long_form : bool
          then let '(ok, buf) := buf_write buf (be32 (u32 (s_time q))) in (ok, q, buf)
          else (true, q, buf)) = (true, p', b') ->
  q = p' /\ buf_live b' /\ buf_contents b' =
    be32 (s_id q) ++ (if long_form then be32 (u32 (s_time q)) else []) ++ buf_contents b.
Proof.
  intros Hb Hmode Hw. destruct prepend.
  - destruct (if long_form then _ else _) as [ok1 b1] eqn:E1. destruct ok1; cbn [negb] in Hw; [|done].
    assert (buf_live b1 /\ buf_contents b1
      = (if long_form then be32 (u32 (s_time q)) else []) ++ buf_contents b) as [L1 C1].
    { destruct long_form; [|by injection E1 as <-].
      apply buf_write_prepend_inv in E1 as (? & ? & _); auto with ovpn. }
    destruct (buf_write_prepend b1 (be32 (s_id q))) as [ok2 b2] eqn:E2. injection Hw as -> <- <-.
    apply buf_write_prepend_inv in E2 as (? & C2 & _); auto with ovpn. by rewrite C2, C1.
  - destruct Hmode as [?|Hnil]; [done|]. rewrite Hnil.
    destruct (buf_write b (be32 (s_id q))) as [ok1 b1] eqn:E1. destruct ok1; cbn [negb] in Hw; [|done].
    apply buf_write_inv in E1 as (L1 & C1 & _); auto with ovpn; [|done].
    rewrite Hnil in C1. destruct long_form; cbn.
    + destruct (buf_write b1 (be32 (u32 (s_time q)))) as [ok2 b2] eqn:E2. injection Hw as -> <- <-.
      apply buf_write_inv in E2 as (L2 & C2 & _); auto with ovpn; [|done]. by rewrite C2, C1.
    + by injection Hw as <- <-.
Qed.

(** Wire round trip: the packet id [packet_id_write] puts at the front
    (prepending) or at the end (appending to an empty buffer) of a packet is what
    [packet_id_read] gets back, with the time stamp in the long form only, and
    the payload behind it is untouched. *)
Theorem packet_id_write_read now p b long_form prepend p' b' :
  buf_live b -> is_u 32 (s_id p) -> 0 <= s_time p <= now ->
  prepend = true \/ buf_contents b = [] ->
  packet_id_write now p b long_form prepend = (true, p', b') ->
  exists b'', packet_id_read b' long_form
    = (true, mknet (s_id p') (if long_form then u32 (s_time p') else 0), b'') /\
    buf_live b'' /\ buf_contents b'' = buf_contents b.
Proof.
  intros Hb Hid Ht Hmode Hw. unfold packet_id_write in Hw.
  destruct (packet_id_send_update now p long_form) as [ok q] eqn:E.
  destruct ok; cbn [negb] in Hw; [|done].
  destruct (send_update_spec now p long_form q Hid Ht E) as (Hu & _).
  destruct (packet_id_layout b q p' b' long_form prepend Hb Hmode Hw) as (<- & L & C).
  unfold packet_id_read.
  destruct (buf_read_app b' _ _ L C) as (b1 & R1 & L1 & C1 & _).
  change 4 with (zlen (be32 (s_id q))) at 1. rewrite R1, be32_val_id by done. cbn.
  destruct long_form; [|eauto].
  destruct (buf_read_app b1 _ _ L1 C1) as (b2 & R2 & L2 & C2 & _).
  change 4 with (zlen (be32 (u32 (s_time q)))). rewrite R2, be32_val_id by (by apply wrap_range). eauto.
Qed.

Lemma packet_id_write_read_witness :
  exists b b1 p' b' b'', alloc_buf 64 = Some b /\ buf_init_dowork b 32 = (true, b1) /\
  packet_id_write 1000 (mksend 41 0) b1 true true = (true, p', b') /\
  packet_id_read b' true = (true, mknet 42 1000, b'') /\ buf_contents b'' = [].
Proof.
  assert (exists b, alloc_buf 64 = Some b) as [b Hb] by (eexists; reflexivity).
  destruct (alloc_buf_live 64 b) as (L & Ho & Hl & Hc); [lia|done|].
  destruct (window_empty b 32 L) as [L1 _]; [lia|].
  set (b1 := b <| b_len := 0 |> <| b_offset := 32 |>) in *.
  destruct (packet_id_write 1000 (mksend 41 0) b1 true true) as [[ok p'] b'] eqn:E.
  exists b, b1, p', b'.
  assert (ok = true /\ p' = mksend 42 1000) as [-> ->].
  { clear L1 L. injection Hb as <-. vm_compute in E. by injection E as <- <- _. }
  destruct (packet_id_write_read 1000 (mksend 41 0) b1 true true (mksend 42 1000) b' L1) as (b'' & R & L' & C).
  - vm_compute. intuition congruence.
  - cbn. lia.
  - auto.
  - done.
  - exists b''. split; [done|]. split; [injection Hb as <-; reflexivity|]. split; [done|].
    split; [done|]. rewrite C. clear. by destruct b as [? ? ? []].
Defined.

(** Time limit: after any run in datagram mode, a reaping pass at clock [now]
    rejects exactly the pending ids it should: an id of the current time stamp
    inside the window is refused if it, or any newer id, was seen more than
    [tb] seconds ago, and otherwise the pass does not change its verdict. *)
Theorem reap_expires_old_ids sb tb name unit_ pid pp lf evs oks opt now p' sl pin :
  packet_id_init sb tb name unit_ = Some pid -> sb <> 0 -> tb <> 0 ->
  Forall event_ok evs ->
  replay_run (mkreplay pid pp lf) evs = Some (oks, opt) ->
  let p := pid_rec (co_packet_id opt) in
  r_seq_list p = Some sl ->
  packet_id_reap now p = Some p' ->
  n_time pin = r_time p -> 1 <= n_id pin -> 0 <= r_id p - n_id pin < x_size sl ->
  let stale k := 1 < circ_at 0 sl k /\ circ_at 0 sl k + tb < now in
  ((exists k, 0 <= k <= r_id p - n_id pin /\ stale k) ->
     fst <$> packet_id_test p' pin = Some false) /\
  ((forall k, 0 <= k <= r_id p - n_id pin -> ~ stale k) ->
     (forall k, 0 <= k < x_size sl -> 0 <= circ_at 0 sl k) ->
     fst <$> packet_id_test p' pin = fst <$> packet_id_test p pin).
Proof.
  intros Hi Hsb Htb Hev Hrun p Hsl Hreap Ht Hid Hdiff stale.
  destruct (replay_run_rel sb tb evs (mkreplay pid pp lf) win_empty (init_rel _ _ _ _ _ Hi Hsb) Hev)
    as (oks' & opt' & Hr & _ & _ & _ & w & R). rewrite Hrun in Hr. injection Hr as <- <-.
  fold p in R. clearbody p. pose proof R as [].
  destruct rr_slots0 as (sl0 & Hsl0 & W & Hcap & Hsize & []).
  rewrite Hsl in Hsl0. injection Hsl0 as <-.
  unfold packet_id_reap in Hreap. rewrite rr_tb0, Hsl in Hreap.
  destruct (Z.eqb_spec tb 0); [done|]. cbn in Hreap. pose proof W as [].
  destruct (packet_id_reap_loop _ _ _ _ _ _) as [sl'|] eqn:L; [|done]. injection Hreap as <-.
  unfold CIRC_LIST_SIZE in L.
  destruct (reap_loop_spec (Z.to_nat (x_size sl)) now tb sl 0 false W) as (sl2 & L2 & W2 & _ & Hs2 & _);
    [lia|lia|]. rewrite L2 in L. injection L as ->.
  destruct (reap_loop_expires (Z.to_nat (x_size sl)) now tb sl 0 false sl' W ltac:(lia) ltac:(lia)
    ltac:(intros; eapply sr_suffix0; [|done|done]; lia) L2 (r_id p - n_id pin)) as [He Hk]; [lia|].
  assert (HT : forall q s, r_initialized q = true -> r_seq_backtrack q = sb -> r_time q = r_time p ->
    r_id q = r_id p -> r_seq_list q = Some s -> circ_wf s -> x_size s = x_size sl ->
    fst <$> packet_id_test q pin = Some (circ_at 0 s (r_id p - n_id pin) =? 0)).
  { intros q s E1 E2 E3 E4 E5 Ws E6. rewrite <- E4. rewrite <- E4 in rr_id_range0, Hdiff.
    apply (test_slot sb q s pin); try congruence; lia || done. }
  rewrite (HT _ sl') by (cbn; congruence || done). rewrite (HT p sl) by done. split.
  - intros (k & Hk1 & Hk2 & Hk3). rewrite He; [done|]. right. exists k. lia.
  - intros Hno Hpos. rewrite Hk; [done|done|]. intros (k & Hk1 & Hk2 & Hk3 & Hk4).
    apply (Hno k Hk1). specialize (Hpos k). unfold stale. lia.
Qed.

Lemma reap_expires_old_ids_witness :
  exists pid opt sl p', packet_id_init 8 15 [] 0 = Some pid /\
  replay_run (mkreplay pid None false) [(100, mknet 1 0); (101, mknet 3 0)]
    = Some ([true; true], opt) /\
  fst <$> packet_id_test (pid_rec (co_packet_id opt)) (mknet 2 0) = Some true /\
  r_seq_list (pid_rec (co_packet_id opt)) = Some sl /\
  packet_id_reap 120 (pid_rec (co_packet_id opt)) = Some p' /\
  fst <$> packet_id_test p' (mknet 2 0) = Some false.
Proof.
  assert (exists pid, packet_id_init 8 15 [] 0 = Some pid) as [pid Hp] by (eexists; reflexivity).
  assert (exists opt, replay_run (mkreplay pid None false) [(100, mknet 1 0); (101, mknet 3 0)]
    = Some ([true; true], opt)) as [opt Ho] by (injection Hp as <-; eexists; vm_compute; reflexivity).
  assert (exists sl p', r_seq_list (pid_rec (co_packet_id opt)) = Some sl /\
    packet_id_reap 120 (pid_rec (co_packet_id opt)) = Some p' /\
    fst <$> packet_id_test (pid_rec (co_packet_id opt)) (mknet 2 0) = Some true /\
    r_time (pid_rec (co_packet_id opt)) = 0 /\ r_id (pid_rec (co_packet_id opt)) = 3 /\
    x_size sl = 3 /\ circ_at 0 sl 0 = 101) as (sl & p' & H1 & H2 & H3 & H4 & H5 & H6 & H7).
  { injection Hp as <-. vm_compute in Ho. injection Ho as <-. eexists _, _.
    split; [vm_compute; reflexivity|]. split; [vm_compute; reflexivity|]. done. }
  exists pid, opt, sl, p'. split_and!; try done.
  destruct (reap_expires_old_ids 8 15 [] 0 pid None false [(100, mknet 1 0); (101, mknet 3 0)]
    [true; true] opt 120 p' sl (mknet 2 0) Hp) as [He _]; try done.
  - repeat constructor; vm_compute; intuition congruence.
  - rewrite H5, H6. cbn. lia.
  - apply He. exists 0. rewrite H5, H7. cbn. lia.
Defined.

(** Replay persistence protects less than the window does: after a restart
    that reloads the saved (time, id) pair, the first new packet opens an empty
    window below itself, and an id the previous session had accepted is accepted
    again. *)
Theorem persist_reload_reopens_window :
  exists pid pp opt1 opt2,
    packet_id_init DEFAULT_SEQ_BACKTRACK 0 [] 0 = Some pid /\
    packet_id_persist_load (packet_id_persist_init (mkpersist None 0 0 0 0 0)) [] 3 true None = Some pp /\
    (* first session: ids 1 and 2 of sender time 77 are accepted *)
    replay_run (mkreplay pid (Some pp) true) [(100, mknet 1 77); (100, mknet 2 77)]
      = Some ([true; true], opt1) /\
    (* the second session starts from the persisted pair: the old ids are still
       refused, until a newer one arrives *)
    replay_run (mkreplay (packet_id_persist_load_obj (co_pid_persist opt1) pid) (co_pid_persist opt1) true)
      [(200, mknet 2 77); (200, mknet 3 77); (200, mknet 2 77)] = Some ([false; true; true], opt2).
Proof.
  eexists _, _, _, _. split; [reflexivity|]. split; [reflexivity|].
  split; [vm_compute; reflexivity|]. vm_compute. reflexivity.
Qed.
