(* ===== verification/Reliable.v ===== *)
(** The reliability layer of the control channel: [src/openvpn/reliable.h] and
    [reliable.c].  Packet ids are 32-bit with wrap-around comparisons; a pointer
    to the buffer of an entry is the index of the entry; a failed [ASSERT] is
    [None]. *)
From S2P Require Import Prelude Integer Buffer PacketId.

(** ** Data *)

Definition RELIABLE_ACK_SIZE : Z := 8.
Definition RELIABLE_CAPACITY : Z := 8.
Definition BIG_TIMEOUT : Z := 60 * 60 * 24 * 7.
Definition SID_SIZE : Z := 8.

(** The first [len] ids of the array of [struct reliable_ack]. *)
Record reliable_ack := mkack { ack_packet_id : list Z }.
Definition ack_len (ack : reliable_ack) : Z := zlen (ack_packet_id ack).

Record reliable_entry := mkentry {
  e_active : bool;
  e_timeout : Z;
  e_next_try : Z;
  e_packet_id : Z;
  e_opcode : Z;
  e_buf : buffer
}.
#[export] Instance eta_entry : EtaOf reliable_entry := fun r =>
  mkentry (e_active r) (e_timeout r) (e_next_try r) (e_packet_id r) (e_opcode r) (e_buf r).

Record reliable := mkreliable {
  rel_size : Z;
  rel_initial_timeout : Z;
  rel_packet_id : Z;
  rel_offset : Z;
  rel_hold : bool;
  rel_array : list reliable_entry
}.
#[export] Instance eta_reliable : EtaOf reliable := fun r =>
  mkreliable (rel_size r) (rel_initial_timeout r) (rel_packet_id r) (rel_offset r)
    (rel_hold r) (rel_array r).

Definition entry_zero : reliable_entry := mkentry false 0 0 0 0 clear_buf.

(** The entries the loops [for (i = 0; i < rel->size; ++i)] visit. *)
Definition entries (rel : reliable) : list reliable_entry :=
  take (Z.to_nat (rel_size rel)) (rel_array rel).

Definition set_entry (rel : reliable) (i : nat) (f : reliable_entry -> reliable_entry) : reliable :=
  rel <| rel_array := alter f i (rel_array rel) |>.

(** ** Comparing packet ids *)

Definition reliable_pid_in_range1 (test base extent : Z) : bool :=
  if base <=? test
  then u32 (test - base) <? extent
  else u32 (u32 (test + 0x80000000) - u32 (base + 0x80000000)) <? extent.

Definition reliable_pid_in_range2 (test base extent : Z) : bool :=
  if base <=? u32 (base + extent)
  then test <? u32 (base + extent)
  else u32 (test + 0x80000000) <? u32 (u32 (base + 0x80000000) + extent).

Definition reliable_pid_min (p1 p2 : Z) : bool :=
  negb (reliable_pid_in_range1 p1 p2 0x80000000).

(** ** Acknowledgments *)

Definition reliable_ack_empty (ack : reliable_ack) : bool := ack_len ack =? 0.

Definition reliable_ack_packet_id_present (ack : reliable_ack) (pid : Z) : bool :=
  existsb (fun x => x =? pid) (ack_packet_id ack).

Definition reliable_ack_acknowledge_packet_id (ack : reliable_ack) (pid : Z)
  : bool * reliable_ack :=
  if negb (reliable_ack_packet_id_present ack pid) && (ack_len ack <? RELIABLE_ACK_SIZE)
  then (true, mkack (ack_packet_id ack ++ [pid]))
  else (false, ack).

Definition reliable_ack_read_packet_id (buf : buffer) : option Z * buffer :=
  match buf_read buf 4 with
  | (Some net_pid, buf') => (Some (be_val net_pid), buf')
  | (None, buf') => (None, buf')
  end.

(** Session ids are 8 bytes, all zero when undefined. *)
Definition session_id_defined (sid : list Z) : bool :=
  negb (bytes_eqb sid (replicate (Z.to_nat SID_SIZE) 0)).
Definition session_id_equal (s1 s2 : list Z) : bool := bytes_eqb s1 s2.
Definition session_id_read (buf : buffer) : option (list Z) * buffer := buf_read buf SID_SIZE.
Definition session_id_write (sid : list Z) (buf : buffer) : bool * buffer := buf_write buf sid.
Definition session_id_write_prepend (sid : list Z) (buf : buffer) : bool * buffer :=
  buf_write_prepend buf sid.

(** The loop [for (i = 0; i < count; ++i)] of [reliable_ack_read]. *)
Fixpoint ack_read_ids (n : nat) (ack : reliable_ack) (buf : buffer)
  : bool * reliable_ack * buffer :=
  match n with
  | O => (true, ack, buf)
  | S n' =>
      match buf_read buf 4 with
      | (None, buf) => (false, ack, buf)
      | (Some net_pid, buf) =>
          if RELIABLE_ACK_SIZE <=? ack_len ack then (false, ack, buf)
          else ack_read_ids n' (mkack (ack_packet_id ack ++ [be_val net_pid])) buf
      end
  end.

Definition reliable_ack_read (ack : reliable_ack) (buf : buffer) (sid : list Z)
  : bool * reliable_ack * buffer :=
  match buf_read buf 1 with
  | (None, buf) => (false, ack, buf)
  | (Some count, buf) =>
      let count := be_val count in
      let '(ok, ack, buf) := ack_read_ids (Z.to_nat count) ack buf in
      if negb ok then (false, ack, buf)
      else if count =? 0 then (true, ack, buf)
      else match session_id_read buf with
           | (None, buf) => (false, ack, buf)
           | (Some remote, buf) =>
               if negb (session_id_defined remote) || negb (session_id_equal remote sid)
               then (false, ack, buf) else (true, ack, buf)
           end
  end.

Definition ACK_SIZE (n : Z) : Z := 1 + (if n =? 0 then 0 else SID_SIZE) + 4 * n.

(** The record is assembled in a sub-buffer of [buf]; the assertions check that
    it fits exactly.  Answers [None] for a failed assertion. *)
Definition reliable_ack_write (ack : reliable_ack) (buf : buffer) (sid : list Z)
    (max : Z) (prepend : bool) : option (bool * reliable_ack * buffer) :=
  let n := u8 (ack_len ack) in
  let n := if max <? n then u8 max else n in
  let '(data, buf) := if prepend then buf_prepend buf (ACK_SIZE n)
                      else buf_write_alloc buf (ACK_SIZE n) in
  match data with
  | None => Some (false, ack, buf)
  | Some p =>
      let ids := take (Z.to_nat n) (ack_packet_id ack) in
      let bytes := [n] ++ concat (map be32 ids) ++ (if n =? 0 then [] else sid) in
      if negb (zlen ids =? n) then None                      (* i < n reads the array *)
      else if ACK_SIZE n <? zlen bytes then None             (* ASSERT (buf_write (&sub, ..)) *)
      else if negb (n =? 0) && negb (session_id_defined sid) then None
      else
        let ack := if n =? 0 then ack else mkack (drop (Z.to_nat n) (ack_packet_id ack)) in
        Some (true, ack, buf_store buf p bytes)
  end.

(** ** Life cycle *)

Fixpoint init_entries (n : nat) (buf_size offset : Z) : option (list reliable_entry) :=
  match n with
  | O => Some []
  | S n' =>
      b ← alloc_buf buf_size;
      let '(ok, b) := buf_init_dowork b offset in
      if negb ok then None
      else es ← init_entries n' buf_size offset;
           Some (entry_zero <| e_buf := b |> :: es)
  end.

Definition reliable_init (buf_size offset array_size : Z) (hold : bool) : option reliable :=
  if (0 <? array_size) && (array_size <=? RELIABLE_CAPACITY)
  then es ← init_entries (Z.to_nat array_size) buf_size offset;
       Some (mkreliable array_size 0 0 offset hold
               (es ++ replicate (Z.to_nat (RELIABLE_CAPACITY - array_size)) entry_zero))
  else None.

Definition reliable_free (rel : reliable) : reliable :=
  rel <| rel_array :=
    map (fun e => e <| e_buf := free_buf (e_buf e) |>) (entries rel)
    ++ drop (Z.to_nat (rel_size rel)) (rel_array rel) |>.

Definition reliable_set_timeout (rel : reliable) (timeout : Z) : reliable :=
  rel <| rel_initial_timeout := timeout |>.

(** ** Queries *)

Definition reliable_empty (rel : reliable) : bool :=
  negb (existsb e_active (entries rel)).

Definition reliable_can_get (rel : reliable) : bool :=
  existsb (fun e => negb (e_active e)) (entries rel).

Definition reliable_not_replay (rel : reliable) (id : Z) : bool :=
  if reliable_pid_min id (rel_packet_id rel) then false
  else negb (existsb (fun e => e_active e && (e_packet_id e =? id)) (entries rel)).

Definition reliable_wont_break_sequentiality (rel : reliable) (id : Z) : bool :=
  reliable_pid_in_range2 id (rel_packet_id rel) (rel_size rel).

Definition reliable_can_send (now : Z) (rel : reliable) : bool :=
  let n_current := length (filter (fun e => e_active e && (e_next_try e <=? now) = true) (entries rel)) in
  (0 <? Z.of_nat n_current) && negb (rel_hold rel).

(** The interval is clamped to [int] entry by entry; a due entry stops the scan. *)
Fixpoint send_timeout_loop (now ret : Z) (es : list reliable_entry) : Z :=
  match es with
  | [] => ret
  | e :: es' =>
      if e_active e
      then if e_next_try e <=? now then 0
           else send_timeout_loop now (min_int ret (i32 (e_next_try e - now))) es'
      else send_timeout_loop now ret es'
  end.
Definition reliable_send_timeout (now : Z) (rel : reliable) : Z :=
  send_timeout_loop now BIG_TIMEOUT (entries rel).

(** ** Taking buffers *)

Definition reliable_get_buf (rel : reliable) : option (option nat * reliable) :=
  match findi (fun e => negb (e_active e)) (entries rel) with
  | None => Some (None, rel)
  | Some i =>
      e ← rel_array rel !! i;
      let '(ok, b) := buf_init_dowork (e_buf e) (rel_offset rel) in
      if negb ok then None
      else Some (Some i, set_entry rel i (fun e => e <| e_buf := b |>))
  end.

(** [min_id], [min_id_defined] of the scan. *)
Definition min_active_id (es : list reliable_entry) : option Z :=
  fold_left (fun acc e =>
    if e_active e
    then match acc with
         | None => Some (e_packet_id e)
         | Some m => if reliable_pid_min (e_packet_id e) m then Some (e_packet_id e) else Some m
         end
    else acc) es None.

Definition reliable_get_buf_output_sequenced (rel : reliable) : option (option nat * reliable) :=
  match min_active_id (entries rel) with
  | None => reliable_get_buf rel
  | Some min_id =>
      if reliable_pid_in_range1 (rel_packet_id rel) min_id (rel_size rel)
      then reliable_get_buf rel else Some (None, rel)
  end.

Definition reliable_get_buf_sequenced (rel : reliable) : option nat :=
  findi (fun e => e_active e && (e_packet_id e =? rel_packet_id rel)) (entries rel).

(** ** Changing entries *)

(** The body of the loop of [reliable_send_purge] for one acknowledged id. *)
Definition purge_one (rel : reliable) (pid : Z) : reliable :=
  match findi (fun e => e_active e && (e_packet_id e =? pid)) (entries rel) with
  | Some j => set_entry rel j (fun e => e <| e_active := false |>)
  | None => rel
  end.
Definition reliable_send_purge (rel : reliable) (ack : reliable_ack) : reliable :=
  fold_left purge_one (ack_packet_id ack) rel.

(** The scan for the due entry with the lowest id ([best]), from index [i]. *)
Fixpoint send_scan (now : Z) (es : list reliable_entry) (i : nat)
    (best : option (nat * reliable_entry)) : option (nat * reliable_entry) :=
  match es with
  | [] => best
  | e :: es' =>
      let best :=
        if e_active e && (e_next_try e <=? now)
        then match best with
             | None => Some (i, e)
             | Some (_, b) => if reliable_pid_min (e_packet_id e) (e_packet_id b)
                              then Some (i, e) else best
             end
        else best in
      send_scan now es' (S i) best
  end.

(** Answers the entry to transmit (buffer index and opcode); it is scheduled for
    retransmission with exponential backoff. *)
Definition reliable_send (now : Z) (rel : reliable) : option (nat * Z) * reliable :=
  match send_scan now (entries rel) 0 None with
  | None => (None, rel)
  | Some (i, best) =>
      (Some (i, e_opcode best),
       set_entry rel i (fun e => e <| e_next_try := now + e_timeout e |>
                                   <| e_timeout := i32 (e_timeout e * 2) |>))
  end.

Definition reliable_schedule_now (now : Z) (rel : reliable) : reliable :=
  let rel := rel <| rel_hold := false |> in
  rel <| rel_array :=
    map (fun e => if e_active e
                  then e <| e_next_try := now |> <| e_timeout := rel_initial_timeout rel |>
                  else e) (entries rel)
    ++ drop (Z.to_nat (rel_size rel)) (rel_array rel) |>.

Definition reliable_mark_active_incoming (rel : reliable) (buf : nat) (pid opcode : Z)
  : option reliable :=
  if Z.of_nat buf <? rel_size rel then
    if reliable_pid_min pid (rel_packet_id rel) then None
    else Some (set_entry rel buf (fun e =>
           e <| e_active := true |> <| e_packet_id := pid |> <| e_opcode := opcode |>
             <| e_next_try := 0 |> <| e_timeout := 0 |>))
  else None.

Definition reliable_mark_active_outgoing (rel : reliable) (buf : nat) (opcode : Z)
  : option reliable :=
  if Z.of_nat buf <? rel_size rel then
    e ← rel_array rel !! buf;
    let pid := rel_packet_id rel in
    let rel := rel <| rel_packet_id := u32 (pid + 1) |> in
    let '(ok, b) := buf_write_prepend (e_buf e) (be32 pid) in
    if negb ok then None
    else Some (set_entry rel buf (fun e =>
           e <| e_packet_id := pid |> <| e_buf := b |> <| e_active := true |>
             <| e_opcode := opcode |> <| e_next_try := 0 |>
             <| e_timeout := rel_initial_timeout rel |>))
  else None.

Definition reliable_mark_deleted (rel : reliable) (buf : nat) (inc_pid : bool)
  : option reliable :=
  if Z.of_nat buf <? rel_size rel then
    e ← rel_array rel !! buf;
    let rel := set_entry rel buf (fun e => e <| e_active := false |>) in
    Some (if inc_pid then rel <| rel_packet_id := u32 (e_packet_id e + 1) |> else rel)
  else None.

(** ** Wrap-around comparisons *)

Lemma pid_in_range1_spec t b e : is_u 32 t -> is_u 32 b ->
  reliable_pid_in_range1 t b e = ((t - b) mod 2 ^ 32 <? e).
Proof.
  unfold is_u, reliable_pid_in_range1, wrap. intros Ht Hb.
  destruct (Z.leb_spec b t); [done|]. f_equal.
  rewrite <- Zminus_mod. f_equal. lia.
Qed.

Lemma pid_min_small p q : 0 <= p < 2 ^ 31 -> 0 <= q < 2 ^ 31 ->
  reliable_pid_min p q = (p <? q).
Proof.
  intros Hp Hq. unfold reliable_pid_min. rewrite pid_in_range1_spec by (unfold is_u; lia).
  pow2_eval. destruct (Z.ltb_spec p q).
  - rewrite <- (Z_mod_plus_full _ 1), Z.mod_small by lia.
    apply negb_true_iff, Z.ltb_ge. lia.
  - rewrite Z.mod_small by lia. apply negb_false_iff, Z.ltb_lt. lia.
Qed.

Lemma pid_in_range1_small t b e : 0 <= b <= t -> t < 2 ^ 31 ->
  reliable_pid_in_range1 t b e = (t - b <? e).
Proof. intros. rewrite pid_in_range1_spec by (unfold is_u; lia). by rewrite Z.mod_small by lia. Qed.

Lemma pid_in_range2_small t b e : 0 <= b < 2 ^ 31 -> 0 <= e < 2 ^ 31 ->
  reliable_pid_in_range2 t b e = (t <? b + e).
Proof.
  intros. unfold reliable_pid_in_range2. rewrite wrap_small by (unfold is_u; lia).
  destruct (Z.leb_spec b (b + e)); [done | lia].
Qed.

(** ** Entries *)

Record rel_wf (rel : reliable) : Prop := {
  rw_len : length (rel_array rel) = Z.to_nat RELIABLE_CAPACITY;
  rw_size : 0 < rel_size rel <= RELIABLE_CAPACITY;
  rw_pid : is_u 32 (rel_packet_id rel)
}.

Lemma take_alter_any {A} (f : A -> A) n i (l : list A) :
  take n (alter f i l) = alter f i (take n l).
Proof.
  apply list_eq. intros j. destruct (decide (j < n)%nat).
  - rewrite lookup_take_lt by done. destruct (decide (i = j)) as [->|].
    + rewrite !list_lookup_alter, !decide_True by done. by rewrite lookup_take_lt by done.
    + rewrite !list_lookup_alter_ne by done. by rewrite lookup_take_lt by done.
  - rewrite lookup_take_ge by lia. symmetry. apply lookup_ge_None. rewrite length_alter, length_take. lia.
Qed.

Lemma entries_set rel i f : entries (set_entry rel i f) = alter f i (entries rel).
Proof. apply take_alter_any. Qed.

Lemma entries_length rel : rel_wf rel -> length (entries rel) = Z.to_nat (rel_size rel).
Proof. intros []. unfold entries. rewrite length_take, rw_len0. unfold RELIABLE_CAPACITY in *. lia. Qed.

Lemma entries_array rel i e : entries rel !! i = Some e ->
  rel_array rel !! i = Some e /\ (i < Z.to_nat (rel_size rel))%nat.
Proof. intros H. by apply lookup_take_Some in H. Qed.

Lemma array_entries rel i e : rel_array rel !! i = Some e ->
  Z.of_nat i < rel_size rel -> entries rel !! i = Some e.
Proof. intros H ?. apply lookup_take_Some. split; [done|lia]. Qed.

Lemma set_entry_wf rel i f : rel_wf rel -> rel_wf (set_entry rel i f).
Proof. intros []. split; cbn; [by rewrite length_alter|done|done]. Qed.
#[export] Hint Resolve set_entry_wf : ovpn.

Lemma set_entry_lookup rel i f j e :
  entries (set_entry rel i f) !! j = Some e ->
  (j = i /\ exists e0, entries rel !! i = Some e0 /\ e = f e0) \/ (j <> i /\ entries rel !! j = Some e).
Proof.
  rewrite entries_set. destruct (decide (i = j)) as [<-|].
  - rewrite list_lookup_alter, decide_True by done.
    destruct (entries rel !! i) as [e0|]; [|done]. intros [= <-]. eauto.
  - rewrite list_lookup_alter_ne by done. eauto.
Qed.

Lemma set_entry_eq rel i f e :
  entries rel !! i = Some e -> entries (set_entry rel i f) !! i = Some (f e).
Proof. rewrite entries_set, list_lookup_alter, decide_True by done. by intros ->. Qed.

Lemma set_entry_ne rel i f j : i <> j ->
  entries (set_entry rel i f) !! j = entries rel !! j.
Proof. intros. by rewrite entries_set, list_lookup_alter_ne by done. Qed.

(** The entry an index denotes is active with id [pid]. *)
Definition holds (rel : reliable) (pid : Z) (e : reliable_entry) : Prop :=
  exists i, entries rel !! i = Some e /\ e_active e = true /\ e_packet_id e = pid.

Definition active_ids_distinct (rel : reliable) : Prop :=
  forall i j ei ej, entries rel !! i = Some ei -> entries rel !! j = Some ej ->
    e_active ei = true -> e_active ej = true -> e_packet_id ei = e_packet_id ej -> i = j.

(** ** Scanning for the packet to send *)

Definition due (now : Z) (e : reliable_entry) : bool := e_active e && (e_next_try e <=? now).

Definition small_ids (es : list reliable_entry) : Prop :=
  forall i e, es !! i = Some e -> e_active e = true -> 0 <= e_packet_id e < 2 ^ 31.

(** [best] is the candidate of the scan over [pre]. *)
Definition best_of (now : Z) (pre : list reliable_entry) (best : option (nat * reliable_entry)) : Prop :=
  match best with
  | None => forall i e, pre !! i = Some e -> due now e = false
  | Some (i, b) => pre !! i = Some b /\ due now b = true /\
      forall j e, pre !! j = Some e -> due now e = true -> e_packet_id b <= e_packet_id e
  end.

Lemma send_scan_spec now es : forall pre best,
  small_ids (pre ++ es) -> best_of now pre best ->
  best_of now (pre ++ es) (send_scan now es (length pre) best).
Proof.
  induction es as [|e es IH]; intros pre best Hs Hb; cbn; [by rewrite app_nil_r|].
  replace (pre ++ e :: es) with ((pre ++ [e]) ++ es) in * by (by rewrite <- app_assoc).
  replace (S (length pre)) with (length (pre ++ [e])) by (rewrite length_app; cbn; lia).
  apply IH; [done|]. fold (due now e).
  assert (Hid : forall i x, (pre ++ [e]) !! i = Some x -> due now x = true -> 0 <= e_packet_id x < 2 ^ 31).
  { intros i x Hi [Hx _]%andb_true_iff. eapply (Hs i); [by apply lookup_app_l_Some|done]. }
  assert (Hlast : forall j x, (pre ++ [e]) !! j = Some x -> pre !! j = Some x \/ (j = length pre /\ x = e)).
  { intros j x [H|[H1 H2]]%lookup_app_Some; [by left|]. right.
    apply list_lookup_singleton_Some in H2 as [? <-]. split; [lia|done]. }
  assert (He : (pre ++ [e]) !! length pre = Some e) by (apply list_lookup_middle; done).
  destruct (due now e) eqn:D, best as [[i b]|]; cbn in *.
  - destruct Hb as (Hi & Hd & Hmin). pose proof (lookup_app_l_Some _ [e] _ _ Hi) as Hi'.
    rewrite pid_min_small by eauto. destruct (Z.ltb_spec (e_packet_id e) (e_packet_id b)); split_and!; try done.
    + intros j x [Hj|[-> ->]]%Hlast Hx; [|lia]. specialize (Hmin j x Hj Hx). lia.
    + intros j x [Hj|[-> ->]]%Hlast Hx; [eauto|lia].
  - split_and!; try done. intros j x [Hj|[-> ->]]%Hlast Hx; [|lia]. by rewrite (Hb _ _ Hj) in Hx.
  - destruct Hb as (Hi & Hd & Hmin). split_and!; [by apply lookup_app_l_Some|done|].
    intros j x [Hj|[-> ->]]%Hlast Hx; [eauto|congruence].
  - intros j x [Hj|[-> ->]]%Hlast; eauto.
Qed.

Lemma reliable_send_scan now rel : small_ids (entries rel) ->
  best_of now (entries rel) (send_scan now (entries rel) 0 None).
Proof. intros. apply (send_scan_spec now _ []); done. Qed.

Lemma can_send_due now rel :
  reliable_can_send now rel = true <->
  rel_hold rel = false /\ exists i e, entries rel !! i = Some e /\ due now e = true.
Proof.
  unfold reliable_can_send. rewrite andb_true_iff, negb_true_iff, Z.ltb_lt.
  set (fl := filter _ _).
  enough (0 < Z.of_nat (length fl) <->
          exists i e, entries rel !! i = Some e /\ due now e = true) by tauto. split.
  - intros H. destruct fl as [|e fl'] eqn:E; [cbn in H; lia|].
    assert (Hin : e ∈ fl) by (rewrite E; left). apply list_elem_of_filter in Hin as [He Hin].
    apply list_elem_of_lookup in Hin as [i Hi]. exists i, e. done.
  - intros (i & e & Hi & He). assert (Hin : e ∈ fl).
    { apply list_elem_of_filter. split; [done|]. by eapply list_elem_of_lookup_2. }
    destruct fl; [by apply not_elem_of_nil in Hin|]. cbn. lia.
Qed.

Lemma send_timeout_range now es : forall ret, 0 <= ret <= BIG_TIMEOUT ->
  (forall i e, es !! i = Some e -> - 2 ^ 31 <= e_next_try e - now < 2 ^ 31) ->
  0 <= send_timeout_loop now ret es <= ret /\
  (forall i e, es !! i = Some e -> e_active e = true ->
     send_timeout_loop now ret es <= Z.max 0 (e_next_try e - now)) /\
  (send_timeout_loop now ret es = ret \/
   exists i e, es !! i = Some e /\ e_active e = true /\
     send_timeout_loop now ret es = Z.max 0 (e_next_try e - now)).
Proof.
  induction es as [|e es IH]; intros ret Hr Hb; cbn [send_timeout_loop].
  - split_and!; [lia|lia| |by left]. intros [] ?; done.
  - assert (Hb' : forall i e, es !! i = Some e -> - 2 ^ 31 <= e_next_try e - now < 2 ^ 31)
      by (intros i; apply (Hb (S i))).
    pose proof (Hb 0%nat e eq_refl) as He.
    destruct (e_active e) eqn:A; [destruct (Z.leb_spec (e_next_try e) now)|].
    + split_and!; [lia|lia| |].
      * intros; lia.
      * right. exists 0%nat, e. split_and!; [done|done|lia].
    + rewrite i32_small by done.
      assert (Hm : min_int ret (e_next_try e - now) = Z.min ret (e_next_try e - now))
        by apply min_int_min.
      rewrite Hm. destruct (IH (Z.min ret (e_next_try e - now)) ltac:(lia) Hb') as (H1 & H2 & H3).
      split_and!; [lia|lia| |].
      * intros [|i] x Hx; cbn in Hx; [injection Hx as <-; lia|eauto].
      * destruct H3 as [->|(i & x & Hx)]; [|right; by exists (S i), x].
        destruct (Z.min_spec ret (e_next_try e - now)) as [[? ->]|[? ->]]; [by left|].
        right. exists 0%nat, e. split_and!; [done|done|lia].
    + destruct (IH ret Hr Hb') as (H1 & H2 & H3). split_and!; [lia|lia| |].
      * intros [|i] x Hx Hx'; cbn in Hx; [injection Hx as <-; congruence|eauto].
      * destruct H3 as [->|(i & x & Hx)]; [by left|right; by exists (S i), x].
Qed.

(** ** Acknowledgment records *)

(** The record on the wire. *)
Definition ack_bytes (ids : list Z) (sid : list Z) : list Z :=
  [zlen ids] ++ concat (map be32 ids) ++ (if zlen ids =? 0 then [] else sid).

Definition sid_ok (sid : list Z) : Prop :=
  zlen sid = SID_SIZE /\ Forall is_byte sid /\ session_id_defined sid = true.

Lemma concat_be32_length ids : zlen (concat (map be32 ids)) = 4 * zlen ids.
Proof.
  induction ids as [|x ids IH]; [done|]. cbn [map concat].
  rewrite zlen_app, IH, zlen_cons. change (zlen (be32 x)) with 4. lia.
Qed.

Lemma ack_bytes_length ids sid : sid_ok sid -> zlen (ack_bytes ids sid) = ACK_SIZE (zlen ids).
Proof.
  intros [Hs _]. unfold ack_bytes, ACK_SIZE. rewrite !zlen_app, concat_be32_length.
  change (zlen [_]) with 1. destruct (Z.eqb_spec (zlen ids) 0); rewrite ?zlen_nil; lia.
Qed.

Lemma ack_bytes_ok ids sid : sid_ok sid -> zlen ids < 256 -> Forall is_byte (ack_bytes ids sid).
Proof.
  intros (_ & Hs & _) Hl. unfold ack_bytes. pose proof (zlen_nonneg ids).
  apply Forall_app; split; [by repeat constructor|]. apply Forall_app; split; [|by case_match].
  clear. induction ids as [|x ids IH]; cbn [map concat]; [done|].
  apply Forall_app; split; auto with ovpn.
Qed.

Definition ack_wf (ack : reliable_ack) : Prop :=
  ack_len ack <= RELIABLE_ACK_SIZE /\ Forall (is_u 32) (ack_packet_id ack).

(** Writing emits the first [min len max] ids and keeps the others. *)
Lemma reliable_ack_write_spec ack buf sid max prepend :
  ack_wf ack -> sid_ok sid -> 0 <= max < 256 -> buf_live buf ->
  let n := Z.min (ack_len ack) max in
  let bs := ack_bytes (take (Z.to_nat n) (ack_packet_id ack)) sid in
  ACK_SIZE n <= (if prepend : bool then b_offset buf else b_capacity buf - b_offset buf - b_len buf) ->
  exists buf', reliable_ack_write ack buf sid max prepend
      = Some (true, mkack (drop (Z.to_nat n) (ack_packet_id ack)), buf') /\
    buf_live buf' /\ b_capacity buf' = b_capacity buf /\
    b_offset buf' = (if prepend then b_offset buf - ACK_SIZE n else b_offset buf) /\
    buf_contents buf' = (if prepend then bs ++ buf_contents buf else buf_contents buf ++ bs).
Proof.
  intros [Ha Hu] Hs Hmax Hb n bs Hroom.
  assert (Hn : 0 <= n <= 8) by (unfold n, ack_len, RELIABLE_ACK_SIZE in *;
    pose proof (zlen_nonneg (ack_packet_id ack)); lia).
  assert (Hids : zlen (take (Z.to_nat n) (ack_packet_id ack)) = n).
  { unfold zlen, n, ack_len, zlen in *. rewrite length_take. lia. }
  assert (Hbs : zlen bs = ACK_SIZE n) by (unfold bs; rewrite ack_bytes_length by done; by rewrite Hids).
  assert (Hbb : Forall is_byte bs) by (apply ack_bytes_ok; [done|lia]).
  unfold reliable_ack_write.
  assert (Hn8 : (if max <? u8 (ack_len ack) then u8 max else u8 (ack_len ack)) = n).
  { rewrite !wrap_small; [|unfold is_u, ack_len, RELIABLE_ACK_SIZE in *;
      pose proof (zlen_nonneg (ack_packet_id ack)); cbn; lia..].
    unfold n. destruct (Z.ltb_spec max (ack_len ack)); lia. }
  rewrite Hn8. clear Hn8.
  assert (Hbytes : [n] ++ concat (map be32 (take (Z.to_nat n) (ack_packet_id ack)))
                   ++ (if n =? 0 then [] else sid) = bs) by (unfold bs, ack_bytes; by rewrite Hids).
  rewrite Hbytes, Hids, Z.eqb_refl, Hbs, Z.ltb_irrefl. cbn [negb].
  destruct Hs as (_ & _ & Hdef). rewrite Hdef, andb_false_r.
  assert (Hack : (if n =? 0 then ack else mkack (drop (Z.to_nat n) (ack_packet_id ack)))
                 = mkack (drop (Z.to_nat n) (ack_packet_id ack))).
  { destruct (Z.eqb_spec n 0) as [->|]; [|done]. cbn. rewrite drop_0. by destruct ack. }
  rewrite Hack. rewrite <- Hbs in Hroom |- *. destruct prepend.
  - destruct (buf_prepend_room buf bs) as (b' & Hw & L & C1 & C2 & C3 & C4); try done.
    unfold buf_write_prepend in Hw. destruct (buf_prepend buf (zlen bs)) as [[p|] b1]; [|done].
    injection Hw as <-. eauto 10.
  - destruct (buf_write_room buf bs) as (b' & Hw & L & C1 & C2 & C3 & C4); try done.
    unfold buf_write in Hw. destruct (buf_write_alloc buf (zlen bs)) as [[p|] b1]; [|done].
    injection Hw as <-. eauto 10.
Qed.

Lemma ack_read_ids_spec ids : forall acc buf rest, buf_live buf ->
  buf_contents buf = concat (map be32 ids) ++ rest -> Forall (is_u 32) ids ->
  zlen acc + zlen ids <= RELIABLE_ACK_SIZE ->
  exists buf', ack_read_ids (length ids) (mkack acc) buf = (true, mkack (acc ++ ids), buf') /\
    buf_live buf' /\ buf_contents buf' = rest /\ b_capacity buf' = b_capacity buf.
Proof.
  induction ids as [|x ids IH]; intros acc buf rest L C Hu Hl; cbn [ack_read_ids length].
  - exists buf. rewrite app_nil_r. done.
  - cbn [map concat] in C. rewrite <- app_assoc in C.
    destruct (buf_read_app buf (be32 x) _ L C) as (b1 & Hr & L1 & C1 & H1 & _).
    change (zlen (be32 x)) with 4 in Hr. rewrite Hr. apply Forall_cons in Hu as [Hx Hu].
    rewrite zlen_cons in Hl. pose proof (zlen_nonneg ids).
    cbn [ack_packet_id]. unfold ack_len. cbn [ack_packet_id].
    destruct (Z.leb_spec RELIABLE_ACK_SIZE (zlen acc)); [lia|].
    rewrite be32_val_id by done.
    destruct (IH (acc ++ [x]) b1 rest L1 C1) as (b2 & -> & L2 & C2 & H2); [done| |].
    + rewrite zlen_app. change (zlen [x]) with 1. lia.
    + rewrite <- app_assoc. eexists. split_and!; try done. by rewrite H2.
Qed.

Lemma reliable_ack_read_spec ids sid buf rest :
  buf_live buf -> sid_ok sid -> Forall (is_u 32) ids -> zlen ids <= RELIABLE_ACK_SIZE ->
  buf_contents buf = ack_bytes ids sid ++ rest ->
  exists buf', reliable_ack_read (mkack []) buf sid = (true, mkack ids, buf') /\
    buf_live buf' /\ buf_contents buf' = rest /\ b_capacity buf' = b_capacity buf.
Proof.
  intros L Hs Hu Hl C. unfold ack_bytes in C. rewrite <- !app_assoc in C.
  pose proof (zlen_nonneg ids). unfold RELIABLE_ACK_SIZE in Hl.
  unfold reliable_ack_read.
  destruct (buf_read_app buf [zlen ids] _ L C) as (b1 & Hr & L1 & C1 & H1 & _).
  change (zlen [zlen ids]) with 1 in Hr. rewrite Hr.
  change (be_val [zlen ids]) with (zlen ids). 
  replace (Z.to_nat (zlen ids)) with (length ids) by (unfold zlen; lia).
  destruct (ack_read_ids_spec ids [] b1 _ L1 C1 Hu) as (b2 & -> & L2 & C2 & H2);
    [unfold RELIABLE_ACK_SIZE, zlen at 1; cbn; lia|]. cbn [negb app].
  destruct (Z.eqb_spec (zlen ids) 0).
  - eexists. split_and!; try done. congruence.
  - destruct Hs as (Hz & _ & Hd). unfold session_id_read.
    destruct (buf_read_app b2 sid rest L2 C2) as (b3 & Hr3 & L3 & C3 & H3 & _).
    rewrite Hz in Hr3. rewrite Hr3, Hd. unfold session_id_equal, bytes_eqb.
    rewrite bool_decide_true by done. cbn. eexists. split_and!; try done. congruence.
Qed.

(** A record longer than the array, or for another session, is refused. *)
Lemma reliable_ack_read_refused ids sid sid' buf rest :
  buf_live buf -> sid_ok sid -> sid_ok sid' -> sid <> sid' -> ids <> [] ->
  Forall (is_u 32) ids -> zlen ids <= RELIABLE_ACK_SIZE ->
  buf_contents buf = ack_bytes ids sid ++ rest ->
  (reliable_ack_read (mkack []) buf sid').1.1 = false.
Proof.
  intros L Hs Hs' Hne Hids Hu Hl C. unfold ack_bytes in C. rewrite <- !app_assoc in C.
  pose proof (zlen_nonneg ids). unfold RELIABLE_ACK_SIZE in Hl. unfold reliable_ack_read.
  destruct (buf_read_app buf [zlen ids] _ L C) as (b1 & Hr & L1 & C1 & H1 & _).
  change (zlen [zlen ids]) with 1 in Hr. rewrite Hr.
  change (be_val [zlen ids]) with (zlen ids). 
  replace (Z.to_nat (zlen ids)) with (length ids) by (unfold zlen; lia).
  destruct (ack_read_ids_spec ids [] b1 _ L1 C1 Hu) as (b2 & -> & L2 & C2 & H2);
    [unfold RELIABLE_ACK_SIZE, zlen at 1; cbn; lia|]. cbn [negb].
  destruct (Z.eqb_spec (zlen ids) 0); [destruct ids; [done|unfold zlen in *; cbn in *; lia]|].
  destruct Hs as (Hz & _ & Hd). unfold session_id_read.
  destruct (buf_read_app b2 sid rest L2 C2) as (b3 & Hr3 & _).
  rewrite Hz in Hr3. rewrite Hr3, Hd. unfold session_id_equal, bytes_eqb.
  by rewrite bool_decide_false by done.
Qed.

(** ** The active entries as a map from ids to contents *)

(** Every entry owns a buffer of capacity [bs]; the active ones start at [off]
    and have distinct ids. *)
Record rel_ok (bs off : Z) (rel : reliable) : Prop := {
  rk_wf : rel_wf rel;
  rk_buf : forall i e, entries rel !! i = Some e ->
    buf_live (e_buf e) /\ b_capacity (e_buf e) = bs;
  rk_off : forall i e, entries rel !! i = Some e -> e_active e = true -> b_offset (e_buf e) = off;
  rk_distinct : active_ids_distinct rel
}.

(** What the protocol sees of an entry. *)
Definition entry_view (e : reliable_entry) : Z * list Z := (e_opcode e, buf_contents (e_buf e)).

(** An active entry has id [id] and holds opcode and content [d]. *)
Definition rel_has (rel : reliable) (id : Z) (d : Z * list Z) : Prop :=
  exists i e, entries rel !! i = Some e /\ e_active e = true /\ e_packet_id e = id /\
    entry_view e = d.

Definition same_meta (r r' : reliable) : Prop :=
  rel_size r' = rel_size r /\ rel_packet_id r' = rel_packet_id r /\
  rel_offset r' = rel_offset r /\ rel_initial_timeout r' = rel_initial_timeout r.

Lemma rel_has_fun bs off rel id d1 d2 : rel_ok bs off rel ->
  rel_has rel id d1 -> rel_has rel id d2 -> d1 = d2.
Proof.
  intros [] (i & e & Hi & Ha & Hp & Hc) (j & f & Hj & Hf & Hq & Hd).
  assert (i = j) by (eapply rk_distinct0; eauto; congruence). congruence.
Qed.

Definition same_entry (e e' : reliable_entry) : Prop :=
  e_packet_id e' = e_packet_id e /\ b_offset (e_buf e') = b_offset (e_buf e) /\
  entry_view e' = entry_view e.

(** Entries may change pointwise as long as the active ones keep their id and
    buffer: the map stays the same. *)
Lemma rel_ok_pointwise bs off r r' :
  rel_ok bs off r -> rel_wf r' ->
  (forall i, match entries r !! i, entries r' !! i with
             | Some e, Some e' => e_active e' = e_active e /\
                 (e_active e = true -> same_entry e e') /\
                 buf_live (e_buf e') /\ b_capacity (e_buf e') = bs
             | None, None => True
             | _, _ => False
             end) ->
  rel_ok bs off r' /\ (forall id d, rel_has r' id d <-> rel_has r id d).
Proof.
  intros [] W H.
  assert (Hback : forall i e', entries r' !! i = Some e' -> exists e, entries r !! i = Some e /\
    e_active e' = e_active e /\ (e_active e = true -> same_entry e e') /\
    buf_live (e_buf e') /\ b_capacity (e_buf e') = bs).
  { intros i e' Hi. specialize (H i). rewrite Hi in H. destruct (entries r !! i); [eauto|done]. }
  assert (Hfwd : forall i e, entries r !! i = Some e -> exists e', entries r' !! i = Some e' /\
    e_active e' = e_active e /\ (e_active e = true -> same_entry e e')).
  { intros i e Hi. specialize (H i). rewrite Hi in H. destruct (entries r' !! i) as [e'|]; [|done].
    destruct H as (? & ? & _). eauto. }
  split; [split|].
  - done.
  - intros i e' (e & _ & _ & _ & ?)%Hback. done.
  - intros i e' (e & Hi & Ha & Hk & _)%Hback Ht. rewrite Ha in Ht. destruct (Hk Ht) as (_ & -> & _). eauto.
  - intros i j ei ej Hi' Hj' Ht1 Ht2 Heq.
    destruct (Hback i ei Hi') as (e & Hi & Ha & Hk & _), (Hback j ej Hj') as (f & Hj & Hb & Hl & _).
    rewrite Ha in Ht1. rewrite Hb in Ht2. destruct (Hk Ht1) as (? & _), (Hl Ht2) as (? & _).
    eapply (rk_distinct0 i j e f); try done. congruence.
  - intros id d. split.
    + intros (i & e' & (e & Hi & Ha & Hk & _)%Hback & Ht & <- & <-). rewrite Ha in Ht.
      destruct (Hk Ht) as (-> & _ & ->). by exists i, e.
    + intros (i & e & Hi & Ht & <- & <-). destruct (Hfwd i e Hi) as (e' & Hi' & Ha & Hk).
      destruct (Hk Ht) as (<- & _ & <-). exists i, e'. split_and!; congruence || done.
Qed.

(** One entry changes. *)
Lemma rel_ok_update bs off r i f e :
  rel_ok bs off r -> entries r !! i = Some e -> e_active (f e) = e_active e ->
  (e_active e = true -> same_entry e (f e)) ->
  buf_live (e_buf (f e)) -> b_capacity (e_buf (f e)) = bs ->
  rel_ok bs off (set_entry r i f) /\ (forall id d, rel_has (set_entry r i f) id d <-> rel_has r id d).
Proof.
  intros Hr Hi Ha Hk Hl Hc. apply rel_ok_pointwise; [done|apply set_entry_wf, Hr|]. intros j.
  rewrite entries_set. destruct (decide (i = j)) as [<-|].
  - rewrite list_lookup_alter, decide_True by done. rewrite Hi. cbn. done.
  - rewrite list_lookup_alter_ne by done. destruct (entries r !! j) eqn:E; [|done].
    split_and!; try done; by eapply rk_buf.
Qed.

(** An entry is activated with a fresh id ... *)
Lemma rel_ok_activate bs off r i f e :
  rel_ok bs off r -> entries r !! i = Some e -> e_active e = false ->
  e_active (f e) = true -> (forall d, ~ rel_has r (e_packet_id (f e)) d) ->
  buf_live (e_buf (f e)) -> b_capacity (e_buf (f e)) = bs -> b_offset (e_buf (f e)) = off ->
  rel_ok bs off (set_entry r i f) /\
  (forall id d, rel_has (set_entry r i f) id d <->
     rel_has r id d \/ (id = e_packet_id (f e) /\ d = entry_view (f e))).
Proof.
  intros Hr Hi Ha Hf Hfresh Hl Hc Ho. pose proof Hr as [].
  assert (Hnew := set_entry_eq r i f e Hi).
  assert (Hfresh' : forall j x, entries r !! j = Some x -> e_active x = true ->
    e_packet_id x <> e_packet_id (f e)) by (intros j x ? ? Heq; eapply Hfresh; by exists j, x).
  split; [split|].
  - by apply set_entry_wf.
  - intros j x [[-> (e0 & Hi' & ->)]|[_ Hx]]%set_entry_lookup; [by simplify_eq|eauto].
  - intros j x [[-> (e0 & Hi' & ->)]|[_ Hx]]%set_entry_lookup ?; [by simplify_eq|eauto].
  - intros j k x y [[-> (e0 & Hi' & ->)]|[? Hx]]%set_entry_lookup
      [[-> (e1 & Hi'' & ->)]|[? Hy]]%set_entry_lookup; simplify_eq; try done; eauto.
    + intros _ Hya Heq. exfalso. by eapply (Hfresh' k y).
    + intros Hxa _ Heq. exfalso. by eapply (Hfresh' j x).
  - intros id d. split.
    + intros (j & x & [[-> (e0 & Hi' & ->)]|[_ Hx]]%set_entry_lookup & Hxa & <- & <-); simplify_eq.
      * by right.
      * left. by exists j, x.
    + intros [(j & x & Hj & Hxa & <- & <-)|[-> ->]]; [|by exists i, (f e)].
      exists j, x. split_and!; try done. rewrite set_entry_ne; [done|]. intros ->. congruence.
Qed.

(** ... or released. *)
Lemma rel_ok_release bs off r i e :
  rel_ok bs off r -> entries r !! i = Some e -> e_active e = true ->
  let r' := set_entry r i (fun e => e <| e_active := false |>) in
  rel_ok bs off r' /\
  (forall id d, rel_has r' id d <-> rel_has r id d /\ id <> e_packet_id e).
Proof.
  intros Hr Hi Ha r'. pose proof Hr as [].
  assert (Hlk : forall j x, entries r' !! j = Some x -> e_active x = true -> j <> i /\ entries r !! j = Some x).
  { intros j x [[-> (e0 & _ & ->)]|[? Hx]]%set_entry_lookup; [done|]. done. }
  split; [split|].
  - by apply set_entry_wf.
  - intros j x [[-> (e0 & Hi' & ->)]|[_ Hx]]%set_entry_lookup; cbn; eauto.
  - intros j x Hx Hxa. destruct (Hlk j x Hx Hxa). eauto.
  - intros j k x y Hx Hy Hxa Hya. destruct (Hlk j x Hx Hxa), (Hlk k y Hy Hya). eauto.
  - intros id d. split.
    + intros (j & x & Hx & Hxa & <- & <-). destruct (Hlk j x Hx Hxa) as [Hne Hx'].
      split; [by exists j, x|]. intros Heq. apply Hne. by eapply rk_distinct0.
    + intros [(j & x & Hj & Hxa & <- & <-) Hne]. exists j, x. split_and!; try done.
      unfold r'. rewrite set_entry_ne; [done|]. intros ->. congruence.
Qed.

(** *** Effect of the operations on the map *)

(** What the functions that hand out a free entry guarantee. *)
Definition fresh_entry (bs : Z) (rel rel' : reliable) (i : nat) : Prop :=
  same_meta rel rel' /\ rel_hold rel' = rel_hold rel /\
  exists e, entries rel' !! i = Some e /\ e_active e = false /\ buf_live (e_buf e) /\
    b_capacity (e_buf e) = bs /\ b_offset (e_buf e) = rel_offset rel /\
    b_len (e_buf e) = 0 /\ buf_contents (e_buf e) = [].

Lemma same_meta_refl r : same_meta r r.
Proof. done. Qed.
Lemma same_meta_trans r1 r2 r3 : same_meta r1 r2 -> same_meta r2 r3 -> same_meta r1 r3.
Proof. unfold same_meta. intuition congruence. Qed.
#[local] Hint Resolve same_meta_refl : core.

Lemma reliable_get_buf_spec bs off rel :
  rel_ok bs off rel -> 0 <= rel_offset rel <= bs ->
  if reliable_can_get rel
  then exists i rel', reliable_get_buf rel = Some (Some i, rel') /\ fresh_entry bs rel rel' i /\
         rel_ok bs off rel' /\ (forall id d, rel_has rel' id d <-> rel_has rel id d)
  else reliable_get_buf rel = Some (None, rel).
Proof.
  intros Hr Ho. unfold reliable_get_buf. destruct (reliable_can_get rel) eqn:G.
  - destruct (findi _ _) as [i|] eqn:F.
    + apply findi_Some in F as (e & Hi & Hx%negb_true_iff). destruct (entries_array _ _ _ Hi) as [-> _].
      cbn. destruct (rk_buf _ _ _ Hr i e Hi) as [L C].
      destruct (buf_init_live (e_buf e) (rel_offset rel) L) as (b' & -> & L' & C' & ? & ? & ?); [lia|].
      cbn [negb]. eexists _, _. split; [reflexivity|].
      destruct (rel_ok_update bs off rel i (fun e => e <| e_buf := b' |>) e) as [Hr' Hh];
        try done; [by rewrite Hx|by cbn; rewrite C'|]. split; [|done]. split; [done|]. split; [done|].
      eexists. split; [by apply set_entry_eq|]. cbn. split_and!; congruence || done.
    + apply existsb_lookup in G as (i & e & Hi & He). rewrite findi_None in F.
      by rewrite (F i e Hi) in He.
  - assert (findi (fun e => negb (e_active e)) (entries rel) = None) as ->; [|done].
    apply findi_None. intros i e Hi. apply not_true_iff_false. intros He.
    apply not_true_iff_false in G. apply G, existsb_lookup. eauto.
Qed.

Lemma min_active_id_spec es : small_ids es ->
  match min_active_id es with
  | None => forall i e, es !! i = Some e -> e_active e = false
  | Some m => (exists i e, es !! i = Some e /\ e_active e = true /\ e_packet_id e = m) /\
      forall i e, es !! i = Some e -> e_active e = true -> m <= e_packet_id e
  end.
Proof.
  unfold min_active_id. induction es as [|e es IH] using rev_ind; [done|]. intros Hs.
  rewrite fold_left_app. cbn [fold_left].
  assert (Hlast : forall j x, (es ++ [e]) !! j = Some x -> es !! j = Some x \/ x = e).
  { intros j x [H|[_ H]]%lookup_app_Some; [by left|].
    apply list_lookup_singleton_Some in H as [_ <-]. by right. }
  assert (He : (es ++ [e]) !! length es = Some e) by (by apply list_lookup_middle).
  specialize (IH (fun i x Hi => Hs i x (lookup_app_l_Some _ _ _ _ Hi))).
  destruct (e_active e) eqn:A, (fold_left _ _ _) as [m|].
  - destruct IH as [(i & x & Hi & Hx & Hm) Hmin]. apply (lookup_app_l_Some _ [e]) in Hi.
    rewrite pid_min_small by (subst; eauto).
    destruct (Z.ltb_spec (e_packet_id e) m);
      (split; [first [by exists i, x | by exists (length es), e]|]); intros j y [Hj| ->]%Hlast Hy; try (specialize (Hmin j y Hj Hy)); lia.
  - split; [by exists (length es), e|]. intros j y [Hj| ->]%Hlast Hy; [|lia]. by rewrite (IH _ _ Hj) in Hy.
  - destruct IH as [(i & x & Hi & Hx & Hm) Hmin]. apply (lookup_app_l_Some _ [e]) in Hi.
    split; [by exists i, x|]. intros j y [Hj| ->]%Hlast Hy; [eauto|congruence].
  - intros j y [Hj| ->]%Hlast; eauto.
Qed.

Lemma rel_has_small rel : (forall id d, rel_has rel id d -> 0 <= id < 2 ^ 31) -> small_ids (entries rel).
Proof. intros H i e Hi Ha. eapply H. by exists i, e. Qed.

(** The sender takes a free entry only while the new id stays in the window
    above every unacknowledged one. *)
Lemma reliable_get_buf_output_sequenced_spec bs off rel :
  rel_ok bs off rel -> 0 <= rel_offset rel <= bs ->
  (forall id d, rel_has rel id d -> 0 <= id < rel_packet_id rel) -> rel_packet_id rel < 2 ^ 31 ->
  if reliable_can_get rel &&
     bool_decide (Forall (fun e => e_active e = true -> rel_packet_id rel - e_packet_id e < rel_size rel)
                    (entries rel))
  then exists i rel', reliable_get_buf_output_sequenced rel = Some (Some i, rel') /\
         fresh_entry bs rel rel' i /\
         rel_ok bs off rel' /\ (forall id d, rel_has rel' id d <-> rel_has rel id d)
  else reliable_get_buf_output_sequenced rel = Some (None, rel).
Proof.
  intros Hr Ho Hids Hpid. assert (Hs : small_ids (entries rel)).
  { apply rel_has_small. intros id d H%Hids. lia. }
  assert (Hw : forall i e, entries rel !! i = Some e -> e_active e = true -> 0 <= e_packet_id e < rel_packet_id rel).
  { intros i e Hi Ha. eapply Hids. by exists i, e. }
  pose proof (reliable_get_buf_spec bs off rel Hr Ho) as Hget.
  unfold reliable_get_buf_output_sequenced. pose proof (min_active_id_spec _ Hs) as Hm.
  destruct (min_active_id (entries rel)) as [m|].
  - destruct Hm as [(i & e & Hi & Ha & <-) Hmin].
    rewrite pid_in_range1_small by (specialize (Hw i e Hi Ha); lia).
    destruct (Z.ltb_spec (rel_packet_id rel - e_packet_id e) (rel_size rel)).
    + rewrite bool_decide_true, andb_true_r; [done|]. apply Forall_lookup. intros j x Hj Hx.
      specialize (Hmin j x Hj Hx). lia.
    + rewrite bool_decide_false, andb_false_r; [done|]. intros HF.
      rewrite Forall_lookup in HF. specialize (HF i e Hi Ha). lia.
  - rewrite bool_decide_true, andb_true_r; [done|]. apply Forall_lookup. intros j x Hj Hx.
    by rewrite (Hm _ _ Hj) in Hx.
Qed.

Lemma purge_one_spec bs off rel pid : rel_ok bs off rel ->
  let r' := purge_one rel pid in
  rel_ok bs off r' /\ same_meta rel r' /\ rel_hold r' = rel_hold rel /\
  (forall id d, rel_has r' id d <-> rel_has rel id d /\ id <> pid).
Proof.
  intros Hr. unfold purge_one. destruct (findi _ _) as [i|] eqn:F.
  - apply findi_Some in F as (e & Hi & [Ha Hp%Z.eqb_eq]%andb_true_iff). subst pid.
    destruct (rel_ok_release bs off rel i e Hr Hi Ha) as [Hr' Hh]. done.
  - split_and!; try done. intros id d. split; [|by intros [? _]]. intros Hh. split; [done|].
    intros ->. destruct Hh as (i & e & Hi & Ha & Hp & _). rewrite findi_None in F.
    specialize (F i e Hi). rewrite Ha, Hp, Z.eqb_refl in F. done.
Qed.

Lemma reliable_send_purge_spec bs off ack : forall rel, rel_ok bs off rel ->
  let r' := reliable_send_purge rel ack in
  rel_ok bs off r' /\ same_meta rel r' /\ rel_hold r' = rel_hold rel /\
  (forall id d, rel_has r' id d <-> rel_has rel id d /\ id ∉ ack_packet_id ack).
Proof.
  destruct ack as [ids]. unfold reliable_send_purge. cbn. induction ids as [|x ids IH]; intros rel Hr; cbn.
  - split_and!; try done. intros id d. rewrite elem_of_nil. tauto.
  - destruct (purge_one_spec bs off rel x Hr) as (Hr1 & M1 & Hh1 & H1).
    destruct (IH _ Hr1) as (Hr2 & M2 & Hh2 & H2). split_and!; [done| |congruence|].
    + by eapply same_meta_trans.
    + intros id d. rewrite H2, H1, elem_of_cons. tauto.
Qed.

Lemma reliable_send_spec bs off now rel : rel_ok bs off rel -> small_ids (entries rel) ->
  reliable_can_send now rel = true ->
  exists i e rel', reliable_send now rel = (Some (i, e_opcode e), rel') /\
    entries rel !! i = Some e /\ e_active e = true /\ e_next_try e <= now /\
    rel_array rel' !! i = Some (e <| e_next_try := now + e_timeout e |> <| e_timeout := i32 (e_timeout e * 2) |>) /\
    rel_ok bs off rel' /\ same_meta rel rel' /\ rel_hold rel' = rel_hold rel /\
    (forall id d, rel_has rel' id d <-> rel_has rel id d).
Proof.
  intros Hr Hs (_ & j & x & Hj & Hx)%can_send_due. unfold reliable_send.
  pose proof (reliable_send_scan now rel Hs) as Hb. destruct (send_scan _ _ _ _) as [[i e]|]; cbn in Hb.
  - destruct Hb as (Hi & [Ha Hn%Z.leb_le]%andb_true_iff & _). eexists i, e, _.
    split; [reflexivity|]. pose proof (rk_buf _ _ _ Hr i e Hi) as [? ?].
    set (f := fun e : reliable_entry =>
      e <| e_next_try := now + e_timeout e |> <| e_timeout := i32 (e_timeout e * 2) |>).
    destruct (rel_ok_update bs off rel i f e) as [Hr' Hh]; try done.
    split_and!; try done. by apply (set_entry_eq _ _ f), entries_array in Hi as [-> _].
  - rewrite (Hb j x Hj) in Hx. done.
Qed.

Lemma reliable_schedule_now_spec bs off now rel : rel_ok bs off rel ->
  let r' := reliable_schedule_now now rel in
  rel_ok bs off r' /\ same_meta rel r' /\ rel_hold r' = false /\
  (forall id d, rel_has r' id d <-> rel_has rel id d) /\
  (forall i e, entries rel !! i = Some e -> e_active e = true ->
     exists e', entries r' !! i = Some e' /\ e_active e' = true /\ e_next_try e' = now).
Proof.
  intros Hr r'. pose proof Hr as [].
  set (g := fun e : reliable_entry => if e_active e
     then e <| e_next_try := now |> <| e_timeout := rel_initial_timeout rel |> else e).
  assert (He : entries r' = map g (entries rel)).
  { unfold entries at 1. unfold r', reliable_schedule_now. cbn.
    rewrite take_app_length'; [done|]. rewrite length_map. symmetry. by apply (entries_length rel). }
  assert (W : rel_wf r').
  { pose proof rk_wf0 as []. split; try done. cbn. rewrite length_app, length_map, length_drop.
    change (entries _) with (entries rel). rewrite (entries_length rel), rw_len0 by done.
    unfold RELIABLE_CAPACITY in *. lia. }
  assert (Hl : forall i, entries r' !! i = g <$> entries rel !! i) by (intros; rewrite He; apply list_lookup_fmap).
  destruct (rel_ok_pointwise bs off rel r') as [Hr' Hh]; [done|done| |split_and!; try done].
  - intros i. rewrite Hl. destruct (entries rel !! i) as [e|] eqn:E; cbn; [|done].
    unfold g. destruct (rk_buf0 i e E). destruct (e_active e) eqn:A; cbn; rewrite ?A; split_and!; done.
  - intros i e Hi Ha. rewrite Hl, Hi. cbn. eexists. split; [done|]. unfold g. by rewrite Ha.
Qed.

(** A window with a hole has a free entry: the ids are distinct. *)
Lemma can_get_pigeonhole bs off rel lo : rel_ok bs off rel ->
  (forall id d, rel_has rel id d -> lo < id < lo + rel_size rel) ->
  reliable_can_get rel = true.
Proof.
  intros Hr Hids. apply not_false_iff_true. intros Hno.
  assert (Hall : forall i e, entries rel !! i = Some e -> e_active e = true).
  { intros i e Hi. apply not_false_iff_true. intros He. apply not_true_iff_false in Hno.
    apply Hno, existsb_lookup. exists i, e. by rewrite He. }
  pose proof (rk_wf _ _ _ Hr) as W. pose proof W as [].
  assert (Hnd : NoDup (map e_packet_id (entries rel))).
  { apply NoDup_alt. intros i j x Hi Hj. apply list_lookup_fmap_Some in Hi as (ei & -> & Hi).
    apply list_lookup_fmap_Some in Hj as (ej & Heq & Hj). eapply rk_distinct; eauto. }
  assert (Hsub : map e_packet_id (entries rel) ⊆+ seqZ (lo + 1) (rel_size rel - 1)).
  { apply NoDup_submseteq; [done|]. intros x Hx. apply list_elem_of_lookup in Hx as [i Hi].
    apply list_lookup_fmap_Some in Hi as (e & -> & Hi). apply elem_of_seqZ.
    pose proof (Hall i e Hi). assert (rel_has rel (e_packet_id e) (entry_view e)) as Hh
      by (by exists i, e). apply Hids in Hh. lia. }
  apply submseteq_length in Hsub. rewrite length_map, entries_length, length_seqZ in Hsub by done. lia.
Qed.

Lemma init_entries_spec n bs off : 0 <= off <= bs -> bs < 2 ^ 21 ->
  exists es, init_entries n bs off = Some es /\ length es = n /\
    Forall (fun e => e_active e = false /\ buf_live (e_buf e) /\ b_capacity (e_buf e) = bs) es.
Proof.
  intros Ho Hbs. induction n as [|n (es & IH & Hl & HF)]; [by exists []|]. cbn [init_entries].
  destruct (alloc_buf_total bs ltac:(lia)) as [b Hb]. rewrite Hb. cbn.
  destruct (alloc_buf_live bs b ltac:(lia) Hb) as (L & _ & _ & C).
  destruct (buf_init_live b off L ltac:(lia)) as (b' & -> & L' & C' & _). cbn. rewrite IH. cbn.
  eexists. split; [done|]. split; [by cbn; rewrite Hl|]. constructor; [|done]. split_and!; cbn; congruence || done.
Qed.

Lemma reliable_init_spec bs off n hold act : 0 <= off <= bs -> bs < 2 ^ 21 -> 0 < n <= RELIABLE_CAPACITY ->
  exists rel, reliable_init bs off n hold = Some rel /\ rel_ok bs act rel /\
    rel_size rel = n /\ rel_packet_id rel = 0 /\ rel_offset rel = off /\ rel_hold rel = hold /\
    (forall id d, ~ rel_has rel id d).
Proof.
  intros Ho Hbs Hn. unfold reliable_init. destruct (init_entries_spec (Z.to_nat n) bs off Ho Hbs) as (es & -> & Hl & HF).
  destruct (Z.ltb_spec 0 n), (Z.leb_spec n RELIABLE_CAPACITY); try lia. cbn [andb mbind option_bind].
  set (rel := mkreliable _ _ _ _ _ _). exists rel. split; [done|].
  assert (He : entries rel = es).
  { unfold entries, rel. cbn. rewrite take_app_length'; [done|lia]. }
  rewrite Forall_lookup in HF.
  split; [|split_and!; try done].
  - split.
    + split; [|cbn; lia|cbn; unfold is_u; lia]. cbn. rewrite length_app, length_replicate, Hl. unfold RELIABLE_CAPACITY in *. lia.
    + intros i e. rewrite He. intros Hi. by destruct (HF i e Hi) as (_ & ? & ?).
    + intros i e. rewrite He. intros Hi Ha. destruct (HF i e Hi) as (? & _). congruence.
    + intros i j ei ej. rewrite He. intros Hi _ Ha. destruct (HF i ei Hi) as (? & _). congruence.
  - intros id d (i & e & Hi & Ha & _). rewrite He in Hi. destruct (HF i e Hi) as (? & _). congruence.
Qed.

(** ** Properties *)

(** Acknowledgment records round trip: writing takes the first [min len max] ids
    off the list in order, and the peer that reads the record under the same
    session id gets exactly these ids and is left at the payload; under another
    session id a non-empty record is refused. *)
Theorem ack_record_roundtrip ack buf sid max prepend :
  ack_wf ack -> sid_ok sid -> 0 <= max < 256 -> buf_live buf ->
  let n := Z.min (ack_len ack) max in
  ACK_SIZE n <= (if prepend : bool then b_offset buf else b_capacity buf - b_offset buf - b_len buf) ->
  exists ids ack' buf' record,
    reliable_ack_write ack buf sid max prepend = Some (true, ack', buf') /\
    ack_packet_id ack = ids ++ ack_packet_id ack' /\ zlen ids = n /\
    buf_contents buf' = (if prepend then record ++ buf_contents buf else buf_contents buf ++ record) /\
    forall rbuf rest, buf_live rbuf -> buf_contents rbuf = record ++ rest ->
      (exists rbuf', reliable_ack_read (mkack []) rbuf sid = (true, mkack ids, rbuf') /\
         buf_contents rbuf' = rest) /\
      (forall sid', sid_ok sid' -> sid <> sid' -> ids <> [] ->
         (reliable_ack_read (mkack []) rbuf sid').1.1 = false).
Proof.
  intros Ha Hs Hm Hb n Hroom. pose proof Ha as [Hal Hau].
  destruct (reliable_ack_write_spec ack buf sid max prepend Ha Hs Hm Hb Hroom)
    as (buf' & Hw & L & _ & _ & C). fold n in Hw, C.
  assert (Hn : 0 <= n) by (pose proof (zlen_nonneg (ack_packet_id ack)); unfold n, ack_len; lia).
  set (ids := take (Z.to_nat n) (ack_packet_id ack)) in *.
  assert (Hz : zlen ids = n) by (unfold ids, zlen; rewrite length_take; unfold n, ack_len, zlen in *; lia).
  assert (Hu : Forall (is_u 32) ids) by (by apply Forall_take).
  assert (Hl : zlen ids <= RELIABLE_ACK_SIZE) by lia.
  eexists ids, _, buf', (ack_bytes ids sid). split_and!; [done| |done|done|].
  - cbn. symmetry. apply take_drop.
  - intros rbuf rest Lr Cr. split.
    + destruct (reliable_ack_read_spec ids sid rbuf rest) as (r' & ? & _ & ? & _); try done. eauto.
    + intros sid' Hs' Hne Hnil. by apply (reliable_ack_read_refused ids sid sid' rbuf rest).
Qed.

Lemma ack_record_roundtrip_witness :
  exists b, alloc_buf 64 = Some b /\
  let sid := [1; 2; 3; 4; 5; 6; 7; 8] in
  exists ids ack' buf' record,
    reliable_ack_write (mkack [7; 2 ^ 32 - 1; 9; 10; 11]) b sid 4 false = Some (true, ack', buf') /\
    [7; 2 ^ 32 - 1; 9; 10; 11] = ids ++ ack_packet_id ack' /\ zlen ids = 4 /\
    buf_contents buf' = buf_contents b ++ record /\
    forall rbuf rest, buf_live rbuf -> buf_contents rbuf = record ++ rest ->
      (exists rbuf', reliable_ack_read (mkack []) rbuf sid = (true, mkack ids, rbuf') /\
         buf_contents rbuf' = rest) /\
      (forall sid', sid_ok sid' -> sid <> sid' -> ids <> [] ->
         (reliable_ack_read (mkack []) rbuf sid').1.1 = false).
Proof.
  destruct (alloc_buf 64) as [b|] eqn:E; [|done]. exists b. split; [done|].
  destruct (alloc_buf_live 64 b ltac:(lia) E) as (L & _).
  injection E as <-.
  apply (ack_record_roundtrip (mkack [7; 2 ^ 32 - 1; 9; 10; 11])); [| | |done|].
  - split; [done|]. cbn. unfold is_u. repeat constructor; lia.
  - split_and!; [done| |done]. repeat constructor; lia.
  - lia.
  - vm_compute. done.
Defined.

(** Retransmission scheduling: with the entries' ids within half the id space and
    the timers within an [int], [reliable_can_send] announces a packet exactly
    when [reliable_send] yields one; the packet is the due active entry with the
    lowest id, it is rescheduled after its timeout, which doubles, and no other
    entry changes; and [reliable_send_timeout] is the exact time to the next such
    packet, or [BIG_TIMEOUT]. *)
Theorem reliable_send_schedules now rel :
  rel_wf rel -> small_ids (entries rel) -> rel_hold rel = false ->
  (forall i e, entries rel !! i = Some e -> - 2 ^ 30 <= e_next_try e - now < 2 ^ 30) ->
  match reliable_send now rel with
  | (Some (i, opcode), rel') =>
      reliable_can_send now rel = true /\ reliable_send_timeout now rel = 0 /\
      exists e, entries rel !! i = Some e /\ e_active e = true /\ e_next_try e <= now /\
        opcode = e_opcode e /\
        (forall j x, entries rel !! j = Some x -> e_active x = true -> e_next_try x <= now ->
           e_packet_id e <= e_packet_id x) /\
        entries rel' !! i = Some (e <| e_next_try := now + e_timeout e |>
                                    <| e_timeout := i32 (2 * e_timeout e) |>) /\
        (forall j, j <> i -> entries rel' !! j = entries rel !! j)
  | (None, rel') =>
      rel' = rel /\
      (forall t, now <= t < now + reliable_send_timeout now rel -> reliable_can_send t rel = false) /\
      (reliable_send_timeout now rel < BIG_TIMEOUT ->
         reliable_can_send (now + reliable_send_timeout now rel) rel = true)
  end.
Proof.
  intros W Hs Hh Ht. unfold reliable_send, reliable_send_timeout.
  pose proof (reliable_send_scan now rel Hs) as Hb.
  destruct (send_timeout_range now (entries rel) BIG_TIMEOUT) as (H0 & Hmin & Hex);
    [unfold BIG_TIMEOUT; lia|intros i e Hi; specialize (Ht i e Hi); lia|].
  destruct (send_scan _ _ _ _) as [[i e]|]; cbn in Hb.
  - destruct Hb as (Hi & Hd & Hlow). pose proof Hd as [Ha Hn%Z.leb_le]%andb_true_iff.
    split_and!.
    + apply can_send_due. eauto.
    + specialize (Hmin i e Hi Ha). lia.
    + exists e. split_and!; try done.
      * intros j x Hj Hx Hx'. apply (Hlow j); [done|]. unfold due. rewrite Hx.
        apply Z.leb_le in Hx'. by rewrite Hx'.
      * erewrite set_entry_eq by done. by rewrite Z.mul_comm.
      * intros j Hj. by rewrite set_entry_ne.
  - split_and!; [done| |].
    + intros t Htt. apply not_true_iff_false. rewrite can_send_due. intros (_ & i & e & Hi & Hd).
      apply andb_true_iff in Hd as [Ha Hd%Z.leb_le]. specialize (Hmin i e Hi Ha). lia.
    + intros Hbig. destruct Hex as [|(i & e & Hi & Ha & ->)]; [lia|]. apply can_send_due.
      split; [done|]. exists i, e. split; [done|]. unfold due. rewrite Ha. apply Z.leb_le. lia.
Qed.

Lemma reliable_send_schedules_witness :
  let rel := mkreliable 4 2 3 0 false
    [mkentry true 2 105 2 4 clear_buf; mkentry true 2 100 1 4 clear_buf; mkentry false 0 0 0 0 clear_buf;
     mkentry true 2 99 0 5 clear_buf; entry_zero; entry_zero; entry_zero; entry_zero] in
  match reliable_send 100 rel with
  | (Some (i, opcode), rel') =>
      reliable_can_send 100 rel = true /\ reliable_send_timeout 100 rel = 0 /\
      exists e, entries rel !! i = Some e /\ e_active e = true /\ e_next_try e <= 100 /\
        opcode = e_opcode e /\
        (forall j x, entries rel !! j = Some x -> e_active x = true -> e_next_try x <= 100 ->
           e_packet_id e <= e_packet_id x) /\
        entries rel' !! i = Some (e <| e_next_try := 100 + e_timeout e |>
                                    <| e_timeout := i32 (2 * e_timeout e) |>) /\
        (forall j, j <> i -> entries rel' !! j = entries rel !! j)
  | (None, rel') =>
      rel' = rel /\
      (forall t, 100 <= t < 100 + reliable_send_timeout 100 rel -> reliable_can_send t rel = false) /\
      (reliable_send_timeout 100 rel < BIG_TIMEOUT ->
         reliable_can_send (100 + reliable_send_timeout 100 rel) rel = true)
  end.
Proof.
  apply (reliable_send_schedules 100 (mkreliable 4 2 3 0 false
    [mkentry true 2 105 2 4 clear_buf; mkentry true 2 100 1 4 clear_buf; mkentry false 0 0 0 0 clear_buf;
     mkentry true 2 99 0 5 clear_buf; entry_zero; entry_zero; entry_zero; entry_zero])); [| |done|].
  - split; [done|vm_compute; done|vm_compute; done].
  - intros [|[|[|[|]]]] e [= <-]; cbn; lia.
  - intros [|[|[|[|]]]] e [= <-]; cbn; lia.
Defined.

(** Packet ids are compared modulo the wrap-around: for true sequence numbers less
    than half the id space apart, [reliable_pid_min] is the order of the true
    numbers and [reliable_pid_in_range1] the membership in the window. *)
Theorem pid_compare_wraps a b extent :
  - 2 ^ 31 <= a - b < 2 ^ 31 -> 0 <= extent <= 2 ^ 31 ->
  reliable_pid_min (u32 a) (u32 b) = (a <? b) /\
  reliable_pid_in_range1 (u32 a) (u32 b) extent = (b <=? a) && (a <? b + extent).
Proof.
  intros Hab He.
  assert (H : (u32 a - u32 b) mod 2 ^ 32 = if b <=? a then a - b else a - b + 2 ^ 32).
  { unfold wrap. rewrite <- Zminus_mod. destruct (Z.leb_spec b a); [apply Z.mod_small; lia|].
    rewrite <- (Z_mod_plus_full _ 1). rewrite Z.mod_small; lia. }
  unfold reliable_pid_min. rewrite !pid_in_range1_spec by (apply wrap_range; lia). rewrite H.
  destruct (Z.leb_spec b a), (Z.ltb_spec a b); lia.
Qed.

Lemma pid_compare_wraps_witness :
  reliable_pid_min (u32 (2 ^ 32 + 1)) (u32 (2 ^ 32 - 3)) = (2 ^ 32 + 1 <? 2 ^ 32 - 3) /\
  reliable_pid_in_range1 (u32 (2 ^ 32 + 1)) (u32 (2 ^ 32 - 3)) 8
    = (2 ^ 32 - 3 <=? 2 ^ 32 + 1) && (2 ^ 32 + 1 <? 2 ^ 32 - 3 + 8).
Proof. apply pid_compare_wraps; lia. Defined.

(** The test [reliable_pid_in_range2] behind [reliable_wont_break_sequentiality]
    has a hole just below the wrap-around: an id far past the window is let in
    because it already wrapped while the end of the window has not. *)
Theorem pid_in_range2_wrap_hole :
  exists base seq, base = 2 ^ 32 - 1000 /\ seq = base + 1500 /\
    ~ (seq < base + RELIABLE_CAPACITY) /\
    reliable_pid_in_range2 (u32 seq) base RELIABLE_CAPACITY = true /\
    reliable_pid_min (u32 seq) base = false.
Proof. exists (2 ^ 32 - 1000), (2 ^ 32 + 500). split_and!; [lia|lia|unfold RELIABLE_CAPACITY; lia|done|done]. Qed.
