(* ===== verification/ReliableProto.v ===== *)
(** The control channel protocol between two peers: the parts of [tls_process],
    [tls_pre_decrypt] and [write_control_auth] ([src/openvpn/ssl.c]) that drive
    the reliability layer of an established key state without a TLS wrapping
    ([TLS_WRAP_NONE]), composed over a network that loses, duplicates, delays and
    reorders packets.  The TLS library appears through what [BIO_read] hands out
    and through whether it takes an incoming packet. *)
From S2P Require Import Prelude Integer Buffer PacketId Reliable.

(** ** Constants and state *)

Definition P_KEY_ID_MASK : Z := 0x07.
Definition P_OPCODE_SHIFT : Z := 3.
Definition P_CONTROL_SOFT_RESET_V1 : Z := 3.
Definition P_CONTROL_V1 : Z := 4.
Definition P_ACK_V1 : Z := 5.
Definition P_DATA_V1 : Z := 6.
Definition P_DATA_V2 : Z := 9.
Definition P_CONTROL_HARD_RESET_CLIENT_V2 : Z := 7.
Definition P_CONTROL_HARD_RESET_SERVER_V2 : Z := 8.
Definition P_CONTROL_HARD_RESET_CLIENT_V3 : Z := 10.
Definition P_FIRST_OPCODE : Z := 3.
Definition P_LAST_OPCODE : Z := 10.
Definition CONTROL_SEND_ACK_MAX : Z := 4.
Definition TLS_RELIABLE_N_SEND_BUFFERS : Z := 4.
Definition TLS_RELIABLE_N_REC_BUFFERS : Z := 8.

(** The fields of [struct key_state] and of its session the control channel
    uses. *)
Record key_state := mkks {
  send_reliable : reliable;
  rec_reliable : reliable;
  rec_ack : reliable_ack;
  ack_write_buf : buffer;
  ks_key_id : Z;
  session_id : list Z;
  session_id_remote : list Z;
  ks_burst : bool;
  ks_server : bool;
  frame_headroom : Z
}.
#[export] Instance eta_ks : EtaOf key_state := fun r =>
  mkks (send_reliable r) (rec_reliable r) (rec_ack r) (ack_write_buf r) (ks_key_id r)
    (session_id r) (session_id_remote r) (ks_burst r) (ks_server r) (frame_headroom r).

Definition is_hard_reset_method2 (op : Z) : bool :=
  (op =? P_CONTROL_HARD_RESET_CLIENT_V2) || (op =? P_CONTROL_HARD_RESET_SERVER_V2)
  || (op =? P_CONTROL_HARD_RESET_CLIENT_V3).

(** The reliability part of [key_state_init]. *)
Definition key_state_init (frame_size headroom key_id packet_timeout : Z) (xmit_hold server : bool)
    (sid remote : list Z) : option key_state :=
  ackb ← alloc_buf frame_size;
  send ← reliable_init frame_size headroom TLS_RELIABLE_N_SEND_BUFFERS
           (if negb (key_id =? 0) then false else xmit_hold);
  rec ← reliable_init frame_size headroom TLS_RELIABLE_N_REC_BUFFERS false;
  Some (mkks (reliable_set_timeout send packet_timeout) rec (mkack []) ackb key_id sid remote
          false server headroom).

(** ** Sending *)

(** Prepends acknowledgments, session id and opcode; the key state loses the
    acknowledgments it sent. *)
Definition write_control_auth (ks : key_state) (buf : buffer) (opcode max_ack : Z)
    (prepend_ack : bool) : option (key_state * buffer) :=
  let header := Z.lor (ks_key_id ks) (u8 (Z.shiftl opcode P_OPCODE_SHIFT)) in
  '(ok, ack, buf) ← reliable_ack_write (rec_ack ks) buf (session_id_remote ks) max_ack prepend_ack;
  let ks := ks <| rec_ack := ack |> in
  if negb ok then None else
  let '(ok, buf) := session_id_write_prepend (session_id ks) buf in
  if negb ok then None else
  let '(ok, buf) := buf_write_prepend buf [header] in
  if negb ok then None else Some (ks, buf).

(** The buffer sent is a copy of the header of the entry's buffer: both share
    the block the prefix is written into. *)
Definition share_block (b src : buffer) : buffer := b <| b_data := b_data src |>.

(** "Reliable buffer to outgoing TCP/UDP": the packet, if one was due. *)
Definition control_transmit (now : Z) (ks : key_state) : option (option (list Z) * key_state) :=
  if reliable_can_send now (send_reliable ks) then
    let '(best, send) := reliable_send now (send_reliable ks) in
    '(i, opcode) ← best;
    e ← rel_array send !! i;
    '(ks, b) ← write_control_auth (ks <| send_reliable := send |>) (e_buf e) opcode
                 CONTROL_SEND_ACK_MAX true;
    Some (Some (buf_contents b),
          ks <| send_reliable :=
            set_entry send i (fun e => e <| e_buf := share_block (e_buf e) b |>) |>)
  else Some (None, ks).

(** "Send 1 or more ACKs". *)
Definition control_ack (ks : key_state) : option (option (list Z) * key_state) :=
  if negb (reliable_ack_empty (rec_ack ks)) then
    let '(ok, buf) := buf_init_dowork (ack_write_buf ks) (frame_headroom ks) in
    if negb ok then None else
    '(ks, buf) ← write_control_auth ks buf P_ACK_V1 RELIABLE_ACK_SIZE false;
    Some (Some (buf_contents buf), ks <| ack_write_buf := share_block (ack_write_buf ks) buf |>)
  else Some (None, ks).

(** "Initial handshake": the null packet that opens the exchange. *)
Definition control_start (initial_opcode : Z) (ks : key_state) : option (bool * key_state) :=
  '(got, send) ← reliable_get_buf_output_sequenced (send_reliable ks);
  match got with
  | Some i =>
      send ← reliable_mark_active_outgoing send i initial_opcode;
      Some (true, ks <| send_reliable := send |>)
  | None => Some (false, ks <| send_reliable := send |>)
  end.

(** What [BIO_read] answers when asked for at most [len] bytes. *)
Inductive bio_answer := BioFatal | BioRetry | BioBytes (bs : list Z).

Definition bio_read (BIO_read : Z -> bio_answer) (buf : buffer) (maxlen : Z) : option (Z * buffer) :=
  if negb (b_len buf =? 0) then Some (0, buf)
  else
    let len := buf_forward_capacity buf in
    let len := if maxlen <? len then maxlen else len in
    match BIO_read len with
    | BioFatal => Some (-1, buf <| b_len := 0 |>)
    | BioRetry => Some (0, buf)
    | BioBytes bs =>
        if zlen bs =? 0 then Some (0, buf <| b_len := 0 |>)
        else p ← buf_bptr buf;
             Some (1, (buf_store buf p bs) <| b_len := zlen bs |>)
    end.

(** "Outgoing Ciphertext to reliable buffer": whether a packet was queued. *)
Definition control_submit (BIO_read : Z -> bio_answer) (maxlen : Z) (ks : key_state)
  : option (bool * key_state) :=
  '(got, send) ← reliable_get_buf_output_sequenced (send_reliable ks);
  match got with
  | Some i =>
      e ← rel_array send !! i;
      '(status, b) ← bio_read BIO_read (e_buf e) maxlen;
      let send := set_entry send i (fun e => e <| e_buf := b |>) in
      if status =? 1 then
        send ← reliable_mark_active_outgoing send i P_CONTROL_V1;
        Some (true, ks <| send_reliable := send |>)
      else Some (false, ks <| send_reliable := send |>)
  | None => Some (false, ks <| send_reliable := send |>)
  end.

(** ** Receiving *)

(** "Write incoming ciphertext to TLS object": the packet handed over, if the
    next one is there and the TLS object took it ([accepts]). *)
Definition control_deliver (accepts : bool) (ks : key_state) : option (option (list Z) * key_state) :=
  match reliable_get_buf_sequenced (rec_reliable ks) with
  | Some i =>
      e ← rel_array (rec_reliable ks) !! i;
      let status := if negb (b_len (e_buf e) =? 0) then (if accepts then 1 else 0) else 1 in
      if status =? 1 then
        rec ← reliable_mark_deleted (rec_reliable ks) i true;
        Some (Some (buf_contents (e_buf e)), ks <| rec_reliable := rec |>)
      else Some (None, ks)
  | None => Some (None, ks)
  end.

(** The receive part behind the acknowledgment record. *)
Definition control_recv_data (op : Z) (buf : buffer) (ks : key_state) : option key_state :=
  if negb (op =? P_ACK_V1) && reliable_can_get (rec_reliable ks) then
    match reliable_ack_read_packet_id buf with
    | (Some id, buf) =>
        if reliable_wont_break_sequentiality (rec_reliable ks) id then
          '(ok, ks) ←
            (if reliable_not_replay (rec_reliable ks) id then
               '(got, rec) ← reliable_get_buf (rec_reliable ks);
               i ← got;
               e ← rel_array rec !! i;
               let '(ok, b) := buf_copy (e_buf e) buf in
               let rec := set_entry rec i (fun e => e <| e_buf := b |>) in
               if negb ok then Some (false, ks <| rec_reliable := rec |>)   (* too big: goto error *)
               else rec ← reliable_mark_active_incoming rec i id op;
                    Some (true, ks <| rec_reliable := rec |>)
             else Some (true, ks));
          if ok : bool
          then Some (ks <| rec_ack := (reliable_ack_acknowledge_packet_id (rec_ack ks) id).2 |>)
          else Some ks
        else Some ks
    | (None, _) => Some ks
    end
  else Some ks.

(** [tls_pre_decrypt] on a control packet for this key state, from the peer's
    address, while its data keys are not enabled; a packet it rejects leaves the
    state as it is. *)
Definition control_recv (now : Z) (pkt : list Z) (ks : key_state) : option key_state :=
  buf ← buf_set_read pkt (zlen pkt);
  if b_len buf <=? 0 then Some ks else
  p ← buf_bptr buf;
  let pkt_firstbyte := buf_peek buf p in
  let op := Z.shiftr pkt_firstbyte P_OPCODE_SHIFT in
  let key_id := Z.land pkt_firstbyte P_KEY_ID_MASK in
  if (op =? P_DATA_V1) || (op =? P_DATA_V2) then Some ks     (* the data channel's *)
  else if (op <? P_FIRST_OPCODE) || (P_LAST_OPCODE <? op) then Some ks
  else if is_hard_reset_method2 op &&
          ((((op =? P_CONTROL_HARD_RESET_CLIENT_V2) || (op =? P_CONTROL_HARD_RESET_CLIENT_V3))
            && negb (ks_server ks))
           || ((op =? P_CONTROL_HARD_RESET_SERVER_V2) && ks_server ks)) then Some ks
  else
    match session_id_read (buf_advance buf 1).2 with
    | (None, _) => Some ks
    | (Some sid, _) =>
        if negb (session_id_defined sid) then Some ks
        else if negb (session_id_equal (session_id_remote ks) sid) then Some ks
        else
          let do_burst := op =? P_CONTROL_SOFT_RESET_V1 in
          let buf := (buf_advance buf (SID_SIZE + 1)).2 in
          let ks := if do_burst && negb (ks_burst ks)
                    then ks <| send_reliable := reliable_schedule_now now (send_reliable ks) |>
                            <| ks_burst := true |>
                    else ks in
          if negb (ks_key_id ks =? key_id) then Some ks
          else
            let '(ok, send_ack, buf) := reliable_ack_read (mkack []) buf (session_id ks) in
            if negb ok then Some ks
            else control_recv_data op buf
                   (ks <| send_reliable := reliable_send_purge (send_reliable ks) send_ack |>)
    end.

(** The burst that releases a held sender when its peer shows up. *)
Definition control_burst (now : Z) (ks : key_state) : key_state :=
  if negb (ks_burst ks)
  then ks <| send_reliable := reliable_schedule_now now (send_reliable ks) |> <| ks_burst := true |>
  else ks.

(** ** Two peers and a network *)

(** Peers are named by booleans.  The network keeps every packet ever sent, with
    its destination: a packet is lost when it is never received, and may be
    received any number of times and in any order.  [s_sub p] and [s_dlv p] are
    the packets peer [p] queued and the ones it passed up, in order. *)
Record sys := mksys {
  s_ep : bool -> key_state;
  s_net : list (bool * list Z);
  s_now : Z;
  s_sub : bool -> list (list Z);
  s_dlv : bool -> list (list Z)
}.

Definition upd_peer {A} (f : bool -> A) (p : bool) (v : A) : bool -> A :=
  fun q => if Bool.eqb p q then v else f q.

Inductive action :=
| ATick (dt : Z)
| AStart (p : bool)
| ASubmit (p : bool) (chunk : list Z) (maxlen : Z)   (* the TLS object has [chunk] ready *)
| ATransmit (p : bool)
| AAck (p : bool)
| AReceive (n : nat)                                 (* the [n]-th packet of the network *)
| ADeliver (p : bool) (accepts : bool)
| ABurst (p : bool).

(** The memory BIO hands out the bytes it has, at most [len] of them. *)
Definition bio_of (chunk : list Z) (len : Z) : bio_answer := BioBytes (take (Z.to_nat len) chunk).

Definition initial_opcode (server : bool) : Z :=
  if server then P_CONTROL_HARD_RESET_SERVER_V2 else P_CONTROL_HARD_RESET_CLIENT_V2.

Definition set_ep (s : sys) (p : bool) (ks : key_state) : sys :=
  mksys (upd_peer (s_ep s) p ks) (s_net s) (s_now s) (s_sub s) (s_dlv s).
Definition send_out (s : sys) (p : bool) (out : option (list Z)) (ks : key_state) : sys :=
  let s := set_ep s p ks in
  match out with
  | Some pkt => mksys (s_ep s) (s_net s ++ [(negb p, pkt)]) (s_now s) (s_sub s) (s_dlv s)
  | None => s
  end.
Definition queued (s : sys) (p : bool) (chunk : list Z) (r : bool * key_state) : sys :=
  let s := set_ep s p r.2 in
  if r.1 then mksys (s_ep s) (s_net s) (s_now s) (upd_peer (s_sub s) p (s_sub s p ++ [chunk])) (s_dlv s)
  else s.

(** The bytes [bio_read] moves into the free entry. *)
Definition chunk_taken (ks : key_state) (chunk : list Z) (maxlen : Z) : list Z :=
  take (Z.to_nat (Z.min maxlen (b_capacity (ack_write_buf ks) - frame_headroom ks))) chunk.

Definition exec (s : sys) (a : action) : option sys :=
  match a with
  | ATick dt => Some (mksys (s_ep s) (s_net s) (s_now s + Z.max 0 dt) (s_sub s) (s_dlv s))
  | AStart p => queued s p [] <$> control_start (initial_opcode (ks_server (s_ep s p))) (s_ep s p)
  | ASubmit p chunk maxlen =>
      queued s p (chunk_taken (s_ep s p) chunk maxlen)
        <$> control_submit (bio_of chunk) maxlen (s_ep s p)
  | ATransmit p => '(out, ks) ← control_transmit (s_now s) (s_ep s p); Some (send_out s p out ks)
  | AAck p => '(out, ks) ← control_ack (s_ep s p); Some (send_out s p out ks)
  | AReceive n =>
      match s_net s !! n with
      | Some (p, pkt) => set_ep s p <$> control_recv (s_now s) pkt (s_ep s p)
      | None => Some s
      end
  | ADeliver p accepts =>
      '(got, ks) ← control_deliver accepts (s_ep s p);
      let s := set_ep s p ks in
      Some (match got with
            | Some chunk => mksys (s_ep s) (s_net s) (s_now s) (s_sub s)
                              (upd_peer (s_dlv s) p (s_dlv s p ++ [chunk]))
            | None => s
            end)
  | ABurst p => Some (set_ep s p (control_burst (s_now s) (s_ep s p)))
  end.

Fixpoint run (s : sys) (acts : list action) : option sys :=
  match acts with
  | [] => Some s
  | a :: acts' => s' ← exec s a; run s' acts'
  end.

(** A client and a server with their key states initialised for each other. *)
Definition sys_init (frame_size headroom key_id timeout now : Z) (hold : bool) (sid : bool -> list Z)
  : option sys :=
  let start p := key_state_init frame_size headroom key_id timeout (hold && p) p (sid p) (sid (negb p)) in
  ks0 ← start false;
  ks1 ← start true;
  Some (mksys (fun p : bool => if p then ks1 else ks0) [] now (fun _ => []) (fun _ => [])).

(** ** The operations of one peer *)

(** Close a field of the invariant below. *)
Ltac ks_done :=
  first [ congruence | done
        | let H := fresh in intros H;
          match goal with K : ks_burst _ = true -> _ |- _ => specialize (K H) end; congruence ].

Section Peer.
Context (frame_size headroom key_id : Z) (sid : bool -> list Z).
Hypothesis Hroom : 38 <= headroom.
Hypothesis Hfit : headroom + 41 <= frame_size.
Hypothesis Hsize : frame_size < 2 ^ 21.
Hypothesis Hkey : 0 <= key_id < 8.
Hypothesis Hsid : forall p, sid_ok (sid p).

Definition data_opcode (p : bool) (op : Z) : Prop := op = P_CONTROL_V1 \/ op = initial_opcode p.

Record ks_wf (p : bool) (ks : key_state) : Prop := {
  kw_send : rel_ok frame_size (headroom - 4) (send_reliable ks);
  kw_send_size : rel_size (send_reliable ks) = TLS_RELIABLE_N_SEND_BUFFERS;
  kw_send_off : rel_offset (send_reliable ks) = headroom;
  kw_rec : rel_ok frame_size headroom (rec_reliable ks);
  kw_rec_size : rel_size (rec_reliable ks) = TLS_RELIABLE_N_REC_BUFFERS;
  kw_rec_off : rel_offset (rec_reliable ks) = headroom;
  kw_ack : ack_wf (rec_ack ks);
  kw_ackbuf : buf_live (ack_write_buf ks);
  kw_ackbuf_cap : b_capacity (ack_write_buf ks) = frame_size;
  kw_key : ks_key_id ks = key_id;
  kw_sid : session_id ks = sid p;
  kw_remote : session_id_remote ks = sid (negb p);
  kw_server : ks_server ks = p;
  kw_headroom : frame_headroom ks = headroom;
  kw_hold : ks_burst ks = true -> rel_hold (send_reliable ks) = false
}.

(** The header byte, and a whole packet of peer [p]. *)
Definition header (op : Z) : Z := Z.lor key_id (u8 (Z.shiftl op P_OPCODE_SHIFT)).
Definition pkt_bytes (p : bool) (op : Z) (ids data : list Z) : list Z :=
  [header op] ++ sid p ++ ack_bytes ids (sid (negb p)) ++ data.

Lemma header_decode op : 0 <= op < 32 ->
  is_byte (header op) /\ Z.shiftr (header op) P_OPCODE_SHIFT = op /\
  Z.land (header op) P_KEY_ID_MASK = key_id.
Proof.
  intros Ho.
  assert (H : forallb (fun k => forallb (fun o =>
      let h := Z.lor k (u8 (Z.shiftl o P_OPCODE_SHIFT)) in
      (0 <=? h) && (h <? 256) && (Z.shiftr h P_OPCODE_SHIFT =? o) && (Z.land h P_KEY_ID_MASK =? k))
    (seqZ 0 32)) (seqZ 0 8) = true) by (vm_compute; reflexivity).
  rewrite forallb_forall in H. specialize (H key_id). rewrite <- list_elem_of_In, elem_of_seqZ in H.
  specialize (H ltac:(lia)). rewrite forallb_forall in H. specialize (H op).
  rewrite <- list_elem_of_In, elem_of_seqZ in H. specialize (H ltac:(lia)). cbn zeta in H.
  rewrite !andb_true_iff, Z.leb_le, Z.ltb_lt, !Z.eqb_eq in H. unfold is_byte, header. tauto.
Qed.

Lemma data_opcode_range p op : data_opcode p op -> 0 <= op < 32 /\ op <> P_ACK_V1.
Proof. intros [-> | ->]; [|destruct p]; vm_compute; done. Qed.

(** *** Sending *)

Lemma write_control_auth_spec p ks buf op max prepend :
  ks_wf p ks -> 0 <= op < 32 -> 0 <= max < 256 -> buf_live buf ->
  let n := Z.min (ack_len (rec_ack ks)) max in
  let ids := take (Z.to_nat n) (ack_packet_id (rec_ack ks)) in
  (if prepend : bool then ACK_SIZE n + 9 <= b_offset buf
   else 9 <= b_offset buf /\ ACK_SIZE n <= b_capacity buf - b_offset buf - b_len buf) ->
  exists buf', write_control_auth ks buf op max prepend
      = Some (ks <| rec_ack := mkack (drop (Z.to_nat n) (ack_packet_id (rec_ack ks))) |>, buf') /\
    buf_live buf' /\ b_capacity buf' = b_capacity buf /\
    b_offset buf' = b_offset buf - 9 - (if prepend then ACK_SIZE n else 0) /\
    buf_contents buf' = (if prepend then pkt_bytes p op ids (buf_contents buf)
                         else [header op] ++ sid p ++ buf_contents buf ++ ack_bytes ids (sid (negb p))).
Proof.
  intros W Hop Hmax Hb n ids Hspace. pose proof W as [].
  unfold write_control_auth. rewrite kw_remote0, kw_key0. fold (header op).
  destruct (Hsid p) as (Hsl & Hsb & _).
  destruct (reliable_ack_write_spec (rec_ack ks) buf (sid (negb p)) max prepend kw_ack0 (Hsid _) Hmax Hb)
    as (b1 & -> & L1 & C1 & O1 & D1); [unfold n in Hspace; destruct prepend; lia|]. fold n ids in O1, D1 |- *.
  cbn [mbind option_bind negb]. unfold session_id_write_prepend. cbn [session_id upd].
  rewrite kw_sid0.
  destruct (buf_prepend_room b1 (sid p) L1) as (b2 & -> & L2 & C2 & O2 & _ & D2);
    [unfold SID_SIZE in Hsl; destruct prepend; lia|done|]. cbn [negb].
  destruct (buf_prepend_room b2 [header op] L2) as (b3 & -> & L3 & C3 & O3 & _ & D3).
  { change (zlen [_]) with 1. unfold SID_SIZE in Hsl. destruct prepend; lia. }
  { constructor; [by apply header_decode|done]. }
  cbn [negb]. eexists. split_and!; [done|done|lia| |].
  - rewrite O3, O2, O1. change (zlen [_]) with 1. unfold SID_SIZE in Hsl. destruct prepend; lia.
  - rewrite D3, D2, D1. destruct prepend; unfold pkt_bytes; by rewrite ?app_assoc.
Qed.

(** The part of the shared block the entry sees is not disturbed. *)
Lemma share_block_contents b b' extra :
  buf_live b -> buf_live b' -> b_capacity b' = b_capacity b ->
  b_offset b' + zlen extra = b_offset b -> buf_contents b' = extra ++ buf_contents b ->
  buf_live (share_block b b') /\ buf_contents (share_block b b') = buf_contents b.
Proof.
  intros L L' C O D. destruct (buf_live_data b' L') as (d' & Hd' & Hl' & Hf').
  pose proof (zlen_nonneg extra).
  assert (Ls : buf_live (share_block b b')).
  { pose proof L as [[] _]. eapply buf_live_intro; cbn; eauto; lia. }
  split; [done|]. rewrite (buf_contents_live _ d') by done. cbn.
  rewrite (buf_contents_live b' d') in D by done.
  pose proof (buf_contents_length b L) as Hlen. pose proof (f_equal zlen D) as Hz.
  pose proof L' as [[] _]. pose proof L as [[] _].
  rewrite mem_read_length, zlen_app, Hlen in Hz by lia. rewrite Hz in D.
  rewrite mem_read_app in D by lia. rewrite O in D.
  apply app_inj_1 in D as [_ D]; [done|].
  assert (zlen (mem_read d' (b_offset b') (zlen extra)) = zlen extra) as He by (apply mem_read_length; lia).
  by apply Nat2Z.inj.
Qed.

Lemma ACK_SIZE_bound n : 0 <= n <= 8 -> 1 <= ACK_SIZE n <= 9 + 4 * n.
Proof. intros. unfold ACK_SIZE, SID_SIZE. destruct (Z.eqb_spec n 0); lia. Qed.

Lemma ack_min p ks max : ks_wf p ks -> 0 <= max ->
  0 <= Z.min (ack_len (rec_ack ks)) max <= 8.
Proof.
  intros [] ?. destruct kw_ack0 as [Hl _]. unfold RELIABLE_ACK_SIZE in Hl.
  pose proof (zlen_nonneg (ack_packet_id (rec_ack ks))). unfold ack_len in *. lia.
Qed.

(** What a transmission leaves behind: timers and the acknowledgments sent. *)
Definition sent_acks (ks ks' : key_state) (ids : list Z) : Prop :=
  ack_packet_id (rec_ack ks) = ids ++ ack_packet_id (rec_ack ks') /\
  rec_reliable ks' = rec_reliable ks /\
  rel_packet_id (send_reliable ks') = rel_packet_id (send_reliable ks) /\
  rel_hold (send_reliable ks') = rel_hold (send_reliable ks) /\
  (forall id d, rel_has (send_reliable ks') id d <-> rel_has (send_reliable ks) id d).

Lemma sent_acks_refl ks : sent_acks ks ks [].
Proof. by unfold sent_acks. Qed.

Lemma ack_drop_wf ack n : ack_wf ack -> ack_wf (mkack (drop n (ack_packet_id ack))).
Proof.
  intros [Hl Hu]. unfold ack_len, zlen in Hl. split.
  - unfold ack_len, zlen. cbn. rewrite length_drop. lia.
  - by apply Forall_drop.
Qed.

Lemma control_transmit_spec p now ks :
  ks_wf p ks -> small_ids (entries (send_reliable ks)) ->
  (forall id op d, rel_has (send_reliable ks) id (op, d) -> 0 <= op < 32) ->
  if reliable_can_send now (send_reliable ks)
  then exists ks' ids id op data,
    control_transmit now ks = Some (Some (pkt_bytes p op ids data), ks') /\
    ks_wf p ks' /\ sent_acks ks ks' ids /\ rel_has (send_reliable ks) id (op, data) /\
    (exists i e, entries (send_reliable ks) !! i = Some e /\ e_active e = true /\
       e_packet_id e = id /\ e_next_try e <= now) /\
    zlen ids <= 4 /\ zlen (pkt_bytes p op ids data) <= frame_size
  else control_transmit now ks = Some (None, ks).
Proof.
  intros W Hs Hops. pose proof W as []. unfold control_transmit.
  destruct (reliable_can_send now (send_reliable ks)) eqn:Hcan; [|done].
  destruct (reliable_send_spec _ _ now _ kw_send0 Hs Hcan)
    as (i & e & rel' & -> & Hi & Ha & Hn & Harr & Hr' & (M1 & M2 & M3 & M4) & Hh & Hhas).
  cbn [mbind option_bind]. rewrite Harr. cbn [mbind option_bind].
  set (e' := e <| e_next_try := now + e_timeout e |> <| e_timeout := i32 (e_timeout e * 2) |>) in *.
  assert (Hop : 0 <= e_opcode e < 32) by (eapply Hops; by exists i, e).
  pose proof (rk_wf _ _ _ Hr') as Wr. pose proof (rk_wf _ _ _ kw_send0) as Ws.
  assert (Hi' : entries rel' !! i = Some e').
  { apply array_entries; [done|]. apply entries_array in Hi as [_ Hi]. lia. }
  destruct (rk_buf _ _ _ Hr' i e' Hi') as [L C]. pose proof (rk_off _ _ _ Hr' i e' Hi' Ha) as O.
  set (ks1 := ks <| send_reliable := rel' |>).
  assert (W1 : ks_wf p ks1) by (split; cbn; ks_done).
  pose proof (ack_min p ks1 CONTROL_SEND_ACK_MAX W1 ltac:(done)) as Hm. pose proof (ACK_SIZE_bound _ Hm) as Hab.
  destruct (write_control_auth_spec p ks1 (e_buf e') (e_opcode e) CONTROL_SEND_ACK_MAX true W1 Hop)
    as (b & Hwca & Lb & Cb & Ob & Db); [done|done| |].
  { unfold CONTROL_SEND_ACK_MAX in *. lia. }
  rewrite Hwca. cbn [mbind option_bind]. change (rec_ack ks1) with (rec_ack ks) in *.
  set (n := Z.min (ack_len (rec_ack ks)) CONTROL_SEND_ACK_MAX) in *.
  set (ids := take (Z.to_nat n) (ack_packet_id (rec_ack ks))) in *.
  set (pre := [header (e_opcode e)] ++ sid p ++ ack_bytes ids (sid (negb p))).
  assert (Hidl : zlen ids = n) by (unfold ids, n, zlen in *; rewrite length_take; unfold ack_len, zlen in *; lia).
  assert (Hpre : zlen pre = 9 + ACK_SIZE n).
  { unfold pre. rewrite !zlen_app, (proj1 (Hsid p)), ack_bytes_length, Hidl by done. unfold SID_SIZE. change (zlen [_]) with 1. lia. }
  destruct (share_block_contents (e_buf e') b pre L Lb Cb) as [Lsh Csh]; [lia|by rewrite Db; unfold pre, pkt_bytes; rewrite <- !app_assoc|].
  destruct (rel_ok_update _ _ rel' i (fun x => x <| e_buf := share_block (e_buf x) b |>) e' Hr' Hi')
    as [Hr2 Hhas2]; [done| |done|done|].
  { intros _. unfold same_entry, entry_view. cbn [e_packet_id e_buf e_opcode upd].
    rewrite Csh. done. }
  pose proof (buf_contents_length b Lb) as Hlb. pose proof Lb as [[] _].
  eexists _, ids, (e_packet_id e), (e_opcode e), (buf_contents (e_buf e)). split_and!.
  - by rewrite Db.
  - split; cbn; try ks_done. by apply ack_drop_wf.
  - unfold sent_acks; split_and!; cbn; try done.
    + symmetry. apply take_drop.
    + intros id d. by rewrite Hhas2, Hhas.
  - by exists i, e.
  - by exists i, e.
  - unfold CONTROL_SEND_ACK_MAX in *. lia.
  - change (e_buf e) with (e_buf e'). rewrite <- Db. lia.
Qed.

Lemma control_ack_spec p ks : ks_wf p ks ->
  if reliable_ack_empty (rec_ack ks) then control_ack ks = Some (None, ks)
  else exists ks' ids, control_ack ks = Some (Some (pkt_bytes p P_ACK_V1 ids []), ks') /\
    ks_wf p ks' /\ sent_acks ks ks' ids /\ rec_ack ks' = mkack [] /\ zlen ids <= 8 /\
    zlen (pkt_bytes p P_ACK_V1 ids []) <= frame_size.
Proof.
  intros W. pose proof W as []. unfold control_ack.
  destruct (reliable_ack_empty (rec_ack ks)); [done|]. cbn [negb].
  destruct (buf_init_live (ack_write_buf ks) (frame_headroom ks) kw_ackbuf0)
    as (b & -> & L & C & O & Z0 & D); [lia|]. cbn [negb].
  pose proof (ack_min p ks RELIABLE_ACK_SIZE W ltac:(done)) as Hm. pose proof (ACK_SIZE_bound _ Hm) as Hab.
  destruct (write_control_auth_spec p ks b P_ACK_V1 RELIABLE_ACK_SIZE false W)
    as (b' & -> & L' & C' & O' & D'); [done|done|done|lia|]. cbn [mbind option_bind].
  assert (Hn : Z.to_nat (Z.min (ack_len (rec_ack ks)) RELIABLE_ACK_SIZE) = length (ack_packet_id (rec_ack ks))).
  { destruct kw_ack0 as [Hl _]. unfold ack_len, zlen in *. lia. }
  rewrite Hn, take_ge, drop_ge in * by lia. rewrite D in D'.
  pose proof (buf_contents_length b' L') as Hlb. pose proof L' as [[] _].
  eexists _, (ack_packet_id (rec_ack ks)). split_and!.
  - rewrite D'. unfold pkt_bytes. rewrite !app_nil_r. done.
  - split; cbn; try ks_done.
    destruct (buf_live_data b' L') as (d' & Hd' & ? & ?). pose proof kw_ackbuf0 as [[] _].
    eapply buf_live_intro; cbn; eauto; lia.
  - unfold sent_acks; split_and!; cbn; try done. by rewrite app_nil_r.
  - done.
  - by destruct kw_ack0.
  - unfold pkt_bytes. rewrite app_nil_r. cbn [app] in D' |- *. rewrite <- D'. lia.
Qed.
(** *** Queueing *)

Lemma mark_active_outgoing_spec rel i op e :
  rel_ok frame_size (headroom - 4) rel -> entries rel !! i = Some e -> e_active e = false ->
  buf_live (e_buf e) -> b_capacity (e_buf e) = frame_size -> b_offset (e_buf e) = headroom ->
  (forall d, ~ rel_has rel (rel_packet_id rel) d) ->
  exists rel', reliable_mark_active_outgoing rel i op = Some rel' /\
    rel_ok frame_size (headroom - 4) rel' /\ rel_size rel' = rel_size rel /\
    rel_offset rel' = rel_offset rel /\ rel_hold rel' = rel_hold rel /\
    rel_packet_id rel' = u32 (rel_packet_id rel + 1) /\
    (forall id d, rel_has rel' id d <-> rel_has rel id d \/
       (id = rel_packet_id rel /\ d = (op, be32 (rel_packet_id rel) ++ buf_contents (e_buf e)))).
Proof.
  intros Hr Hi Ha L C O Hfresh. unfold reliable_mark_active_outgoing.
  pose proof (entries_array _ _ _ Hi) as [Harr Hlt]. pose proof (rk_wf _ _ _ Hr) as [].
  destruct (Z.ltb_spec (Z.of_nat i) (rel_size rel)); [|lia]. rewrite Harr. cbn [mbind option_bind].
  destruct (buf_prepend_room (e_buf e) (be32 (rel_packet_id rel)) L)
    as (b & -> & Lb & Cb & Ob & _ & Db); [change (zlen (be32 _)) with 4; lia|auto with ovpn|].
  cbn [negb]. eexists. split; [reflexivity|].
  set (rel1 := rel <| rel_packet_id := u32 (rel_packet_id rel + 1) |>).
  assert (Hr1 : rel_ok frame_size (headroom - 4) rel1).
  { destruct Hr. split; try done. split; try done. apply wrap_range. lia. }
  edestruct (rel_ok_activate frame_size (headroom - 4) rel1 i) as [Hr2 Hhas]; [done|exact Hi|done|..].
  6: { split_and!; try done. intros id d. rewrite Hhas. unfold entry_view. cbn.
       by rewrite Db. }
  all: cbn; try done; try congruence. rewrite Ob. change (zlen (be32 _)) with 4. lia.
Qed.

Lemma bio_read_spec (chunk : list Z) b maxlen :
  buf_live b -> b_len b = 0 -> Forall is_byte chunk ->
  let taken := take (Z.to_nat (Z.min maxlen (b_capacity b - b_offset b))) chunk in
  exists b', bio_read (bio_of chunk) b maxlen = Some (if zlen taken =? 0 then 0 else 1, b') /\
    buf_live b' /\ b_capacity b' = b_capacity b /\ b_offset b' = b_offset b /\
    (zlen taken <> 0 -> buf_contents b' = taken).
Proof.
  intros L Hz Hc taken. unfold bio_read. rewrite Hz. cbn [Z.eqb negb].
  pose proof L as [[] Hd]. assert (Hcap : buf_forward_capacity b = b_capacity b - b_offset b).
  { unfold buf_forward_capacity. rewrite buf_live_valid by done. rewrite Hz.
    destruct (Z.ltb_spec (b_capacity b - (b_offset b + 0)) 0); lia. }
  rewrite Hcap.
  replace (if maxlen <? b_capacity b - b_offset b then maxlen else b_capacity b - b_offset b)
    with (Z.min maxlen (b_capacity b - b_offset b)) by (destruct (Z.ltb_spec maxlen (b_capacity b - b_offset b)); lia).
  unfold bio_of. fold taken.
  assert (Hlen : zlen taken <= b_capacity b - b_offset b).
  { unfold taken, zlen. rewrite length_take. lia. }
  pose proof (zlen_nonneg taken). assert (Forall is_byte taken) by (by apply Forall_take).
  destruct (Z.eqb_spec (zlen taken) 0).
  - eexists. split_and!; [done| | | |]; try done. destruct (buf_live_data b L) as (d & ? & ? & ?).
    eapply buf_live_intro; cbn; eauto; lia.
  - rewrite buf_live_bptr by done. cbn [mbind option_bind].
    destruct (buf_live_data b L) as (d & Hdt & Hdl & Hdf).
    assert (L' : buf_live ((buf_store b (b_offset b) taken) <| b_len := zlen taken |>)).
    { eapply buf_live_intro; cbn; [by rewrite Hdt|..]; try lia; auto with ovpn.
      rewrite zlen_mem_write; lia. }
    eexists. split_and!; [done|done|done|done|]. intros _.
    erewrite buf_contents_live; [|done|cbn; by rewrite Hdt]. cbn.
    apply mem_read_write_eq; lia.
Qed.

(** What queueing a packet with opcode [op] and payload [chunk] does. *)
Definition queues (ks ks' : key_state) (op : Z) (chunk : list Z) : Prop :=
  let N := rel_packet_id (send_reliable ks) in
  rec_ack ks' = rec_ack ks /\ rec_reliable ks' = rec_reliable ks /\
  rel_packet_id (send_reliable ks') = u32 (N + 1) /\
  rel_hold (send_reliable ks') = rel_hold (send_reliable ks) /\
  (forall id d, rel_has (send_reliable ks) id d -> N - id < TLS_RELIABLE_N_SEND_BUFFERS) /\
  (forall id d, rel_has (send_reliable ks') id d <->
     rel_has (send_reliable ks) id d \/ (id = N /\ d = (op, be32 N ++ chunk))).

(** A state that differs in nothing the protocol sees. *)
Definition ks_same (ks ks' : key_state) : Prop := sent_acks ks ks' [].

Definition send_small (ks : key_state) : Prop :=
  (forall id d, rel_has (send_reliable ks) id d -> 0 <= id < rel_packet_id (send_reliable ks)) /\
  rel_packet_id (send_reliable ks) < 2 ^ 31.

Lemma get_out_spec p ks : ks_wf p ks -> send_small ks ->
  (reliable_get_buf_output_sequenced (send_reliable ks) = Some (None, send_reliable ks)) \/
  exists i rel', reliable_get_buf_output_sequenced (send_reliable ks) = Some (Some i, rel') /\
    fresh_entry frame_size (send_reliable ks) rel' i /\ rel_ok frame_size (headroom - 4) rel' /\
    (forall id d, rel_has rel' id d <-> rel_has (send_reliable ks) id d) /\
    (forall id d, rel_has (send_reliable ks) id d ->
       rel_packet_id (send_reliable ks) - id < TLS_RELIABLE_N_SEND_BUFFERS).
Proof.
  intros [] [Hids Hpid].
  pose proof (reliable_get_buf_output_sequenced_spec _ _ _ kw_send0 ltac:(lia) Hids Hpid) as H.
  destruct (_ && _) eqn:E; [|by left]. right. destruct H as (i & rel' & ? & ? & ? & ?).
  exists i, rel'. split_and!; try done. intros id d (j & e & Hj & Hja & <- & _).
  apply andb_true_iff in E as [_ E%bool_decide_eq_true]. rewrite Forall_lookup in E.
  specialize (E j e Hj Hja). lia.
Qed.

Lemma no_new_id ks : send_small ks -> forall d, ~ rel_has (send_reliable ks) (rel_packet_id (send_reliable ks)) d.
Proof. intros [H _] d Hd%H. lia. Qed.

Lemma control_start_spec p op ks : ks_wf p ks -> send_small ks ->
  exists b ks', control_start op ks = Some (b, ks') /\ ks_wf p ks' /\
    if b : bool then queues ks ks' op [] else ks' = ks.
Proof.
  intros W Hs. pose proof W as []. unfold control_start.
  destruct (get_out_spec p ks W Hs) as [->|(i & rel' & -> & (M & Hh & e & Hi & Ha & L & C & O & _ & D) & Hr & Hhas & Hwin)];
    cbn [mbind option_bind].
  - exists false, ks. split_and!; try done. by destruct ks.
  - destruct M as (M1 & M2 & M3 & M4).
    destruct (mark_active_outgoing_spec rel' i op e Hr Hi Ha L C) as (rel2 & -> & Hr2 & S2 & O2 & H2 & P2 & Hhas2);
      [congruence|intros d; rewrite M2, Hhas; by apply no_new_id|].
    cbn [mbind option_bind]. eexists true, _. split; [done|]. split.
    + split; cbn; ks_done.
    + unfold queues. cbn. split_and!; try congruence; try done.
      intros id d. rewrite Hhas2, Hhas, M2, D. done.
Qed.

Lemma control_submit_spec p chunk maxlen ks : ks_wf p ks -> send_small ks -> Forall is_byte chunk ->
  exists b ks', control_submit (bio_of chunk) maxlen ks = Some (b, ks') /\ ks_wf p ks' /\
    if b : bool then queues ks ks' P_CONTROL_V1 (chunk_taken ks chunk maxlen) else ks_same ks ks'.
Proof.
  intros W Hs Hc. pose proof W as []. unfold control_submit.
  destruct (get_out_spec p ks W Hs) as [->|(i & rel' & -> & (M & Hh & e & Hi & Ha & L & C & O & Z0 & D) & Hr & Hhas & Hwin)];
    cbn [mbind option_bind].
  - exists false, ks. destruct ks. split_and!; try done.
  - destruct M as (M1 & M2 & M3 & M4).
    pose proof (entries_array _ _ _ Hi) as [-> _]. cbn [mbind option_bind].
    destruct (bio_read_spec chunk (e_buf e) maxlen L Z0 Hc) as (b & -> & Lb & Cb & Ob & Db).
    cbn [mbind option_bind].
    assert (Ht : chunk_taken ks chunk maxlen
      = take (Z.to_nat (Z.min maxlen (b_capacity (e_buf e) - b_offset (e_buf e)))) chunk).
    { unfold chunk_taken. do 3 f_equal. lia. }
    rewrite <- Ht in Db |- *.
    destruct (rel_ok_update _ _ rel' i (fun e => e <| e_buf := b |>) e Hr Hi) as [Hr1 Hhas1];
      [done|by rewrite Ha|done|by cbn; rewrite Cb|].
    destruct (Z.eqb_spec (zlen (chunk_taken ks chunk maxlen)) 0) as [|Hne]; cbn [Z.eqb].
    + eexists false, _. split; [done|]. split; [split; cbn; ks_done|].
      unfold ks_same, sent_acks. cbn. split_and!; try done. intros id d. by rewrite Hhas1, Hhas.
    + apply (set_entry_eq _ _ (fun e => e <| e_buf := b |>)) in Hi.
      edestruct (mark_active_outgoing_spec _ i P_CONTROL_V1 _ Hr1 Hi)
        as (rel2 & -> & Hr2 & S2 & O2 & H2 & P2 & Hhas2); cbn; try done; try congruence.
      { intros d. rewrite Hhas1, M2, Hhas. by apply no_new_id. }
      cbn [mbind option_bind]. eexists true, _. split; [done|]. split; [split; cbn in *; ks_done|].
      cbn in P2, Hhas2, S2, O2, H2. unfold queues. cbn. split_and!; try congruence; try done.
      intros id d. rewrite Hhas2, Hhas1, Hhas, M2, (Db Hne). done.
Qed.

(** *** Receiving *)

Definition rec_small (ks : key_state) : Prop :=
  (forall id d, rel_has (rec_reliable ks) id d -> rel_packet_id (rec_reliable ks) <= id < 2 ^ 31) /\
  0 <= rel_packet_id (rec_reliable ks) < 2 ^ 31 - 8.

Lemma control_deliver_spec p accepts ks : ks_wf p ks -> rec_small ks ->
  let D := rel_packet_id (rec_reliable ks) in
  exists out ks', control_deliver accepts ks = Some (out, ks') /\ ks_wf p ks' /\
    rec_ack ks' = rec_ack ks /\ send_reliable ks' = send_reliable ks /\
    match out with
    | None => ks' = ks /\ (accepts = true -> forall d, ~ rel_has (rec_reliable ks) D d)
    | Some chunk =>
        (exists op, rel_has (rec_reliable ks) D (op, chunk)) /\
        rel_packet_id (rec_reliable ks') = D + 1 /\
        (forall id d, rel_has (rec_reliable ks') id d <-> rel_has (rec_reliable ks) id d /\ id <> D)
    end.
Proof.
  intros W [Hids HD] D. pose proof W as []. unfold control_deliver, reliable_get_buf_sequenced.
  destruct (findi _ _) as [i|] eqn:F.
  - apply findi_Some in F as (e & Hi & [Ha Hp%Z.eqb_eq]%andb_true_iff).
    pose proof (entries_array _ _ _ Hi) as [Harr Hlt]. rewrite Harr. cbn [mbind option_bind].
    set (status := if negb _ then _ else _). destruct (Z.eqb_spec status 1) as [|Hst].
    + unfold reliable_mark_deleted. pose proof (rk_wf _ _ _ kw_rec0) as [].
      destruct (Z.ltb_spec (Z.of_nat i) (rel_size (rec_reliable ks))); [|lia]. rewrite Harr.
      cbn [mbind option_bind]. destruct (rel_ok_release _ _ _ i e kw_rec0 Hi Ha) as [Hr Hhas].
      eexists _, _. split; [reflexivity|]. split; [|split_and!; try done].
      * split; cbn; try done. destruct Hr. split; try done. split; cbn.
        -- by rewrite length_alter.
        -- done.
        -- apply wrap_range. lia.
      * exists (e_opcode e). by exists i, e.
      * cbn. rewrite wrap_small; [by rewrite Hp|]. unfold is_u. lia.
      * intros id d. unfold D. rewrite <- Hp. apply Hhas.
    + exists None, ks. split_and!; try done. intros ->. exfalso. apply Hst. unfold status. by case_match.
  - exists None, ks. split_and!; try done. intros _ d (i & e & Hi & Ha & Hp & _).
    rewrite findi_None in F. specialize (F i e Hi). rewrite Ha, Hp, Z.eqb_refl in F. done.
Qed.

Definition rec_same (ks ks' : key_state) : Prop :=
  rel_packet_id (rec_reliable ks') = rel_packet_id (rec_reliable ks) /\
  (forall id d, rel_has (rec_reliable ks') id d <-> rel_has (rec_reliable ks) id d).

(** The three things that happen to a data packet. *)
Inductive data_outcome (ks ks' : key_state) (op id : Z) (chunk : list Z) : Prop :=
| data_ignored :
    reliable_can_get (rec_reliable ks) = false \/ rel_packet_id (rec_reliable ks) + 8 <= id \/
      frame_size - headroom < zlen chunk ->
    rec_same ks ks' -> rec_ack ks' = rec_ack ks -> data_outcome ks ks' op id chunk
| data_replay :
    id < rel_packet_id (rec_reliable ks) \/ (exists d, rel_has (rec_reliable ks) id d) ->
    rec_same ks ks' -> rec_ack ks' = (reliable_ack_acknowledge_packet_id (rec_ack ks) id).2 ->
    data_outcome ks ks' op id chunk
| data_stored :
    rel_packet_id (rec_reliable ks) <= id < rel_packet_id (rec_reliable ks) + 8 ->
    (forall d, ~ rel_has (rec_reliable ks) id d) ->
    rel_packet_id (rec_reliable ks') = rel_packet_id (rec_reliable ks) ->
    (forall i d, rel_has (rec_reliable ks') i d <->
       rel_has (rec_reliable ks) i d \/ (i = id /\ d = (op, chunk))) ->
    rec_ack ks' = (reliable_ack_acknowledge_packet_id (rec_ack ks) id).2 ->
    data_outcome ks ks' op id chunk.

Lemma ack_add_wf ack id : ack_wf ack -> is_u 32 id ->
  ack_wf (reliable_ack_acknowledge_packet_id ack id).2 /\
  (forall x, x ∈ ack_packet_id (reliable_ack_acknowledge_packet_id ack id).2 ->
     x ∈ ack_packet_id ack \/ x = id).
Proof.
  intros [Hl Hu] Hid. unfold reliable_ack_acknowledge_packet_id.
  destruct (negb _ && _) eqn:E; cbn; [|split; [done|by left]].
  apply andb_true_iff in E as [_ E%Z.ltb_lt]. unfold ack_len in *. split.
  - split; [unfold ack_len; cbn; rewrite zlen_app; change (zlen [id]) with 1; lia|].
    cbn. apply Forall_app; split; [done|by constructor].
  - intros x. rewrite elem_of_app, list_elem_of_singleton. tauto.
Qed.

Lemma not_replay_spec bs off rel id : rel_ok bs off rel -> 0 <= rel_packet_id rel < 2 ^ 31 -> 0 <= id < 2 ^ 31 ->
  if reliable_not_replay rel id
  then rel_packet_id rel <= id /\ forall d, ~ rel_has rel id d
  else id < rel_packet_id rel \/ exists d, rel_has rel id d.
Proof.
  intros Hr HD Hid. unfold reliable_not_replay. rewrite pid_min_small by done.
  destruct (Z.ltb_spec id (rel_packet_id rel)); [by left|].
  destruct (existsb _ _) eqn:E; cbn.
  - right. apply existsb_lookup in E as (i & e & Hi & [Ha Hp%Z.eqb_eq]%andb_true_iff).
    exists (entry_view e). by exists i, e.
  - split; [done|]. intros d (i & e & Hi & Ha & Hp & _). apply not_true_iff_false in E.
    apply E, existsb_lookup. exists i, e. split; [done|]. by rewrite Ha, Hp, Z.eqb_refl.
Qed.

Lemma mark_active_incoming_spec rel i id op e :
  rel_ok frame_size headroom rel -> entries rel !! i = Some e -> e_active e = false ->
  buf_live (e_buf e) -> b_capacity (e_buf e) = frame_size -> b_offset (e_buf e) = headroom ->
  0 <= rel_packet_id rel <= id -> id < 2 ^ 31 -> (forall d, ~ rel_has rel id d) ->
  exists rel', reliable_mark_active_incoming rel i id op = Some rel' /\
    rel_ok frame_size headroom rel' /\ same_meta rel rel' /\
    (forall x d, rel_has rel' x d <-> rel_has rel x d \/ (x = id /\ d = (op, buf_contents (e_buf e)))).
Proof.
  intros Hr Hi Ha L C O Hid Hlt Hfresh. unfold reliable_mark_active_incoming.
  pose proof (entries_array _ _ _ Hi) as [_ Hl]. pose proof (rk_wf _ _ _ Hr) as [].
  destruct (Z.ltb_spec (Z.of_nat i) (rel_size rel)); [|lia].
  rewrite pid_min_small by lia. destruct (Z.ltb_spec id (rel_packet_id rel)); [lia|].
  eexists. split; [reflexivity|].
  edestruct (rel_ok_activate frame_size headroom rel i) as [Hr2 Hhas]; [done|exact Hi|done|..].
  6: { by split_and!. }
  all: done.
Qed.

Lemma control_recv_data_spec p op id chunk buf ks :
  ks_wf p ks -> rec_small ks -> op <> P_ACK_V1 -> 0 <= id < 2 ^ 31 -> buf_live buf ->
  buf_contents buf = be32 id ++ chunk ->
  exists ks', control_recv_data op buf ks = Some ks' /\ ks_wf p ks' /\
    send_reliable ks' = send_reliable ks /\ data_outcome ks ks' op id chunk.
Proof.
  intros W [Hids HD] Hop Hid L D. pose proof W as []. unfold control_recv_data.
  destruct (Z.eqb_spec op P_ACK_V1) as [|_]; [done|]. cbn [negb andb].
  pose proof (reliable_get_buf_spec _ _ _ kw_rec0 ltac:(lia)) as Hget.
  destruct (reliable_can_get (rec_reliable ks)) eqn:Hcan;
    [|exists ks; split_and!; try done; by apply data_ignored; [left|..]].
  unfold reliable_ack_read_packet_id.
  destruct (buf_read_app buf (be32 id) chunk L D) as (buf' & Hrd & L' & D' & _).
  change (zlen (be32 id)) with 4 in Hrd. rewrite Hrd. rewrite be32_val_id by (unfold is_u; lia).
  unfold reliable_wont_break_sequentiality. rewrite kw_rec_size0.
  unfold TLS_RELIABLE_N_REC_BUFFERS. rewrite pid_in_range2_small by lia.
  destruct (Z.ltb_spec id (rel_packet_id (rec_reliable ks) + 8));
    [|exists ks; split_and!; try done; by apply data_ignored; [right; left|..]].
  pose proof (not_replay_spec _ _ _ id kw_rec0 ltac:(lia) Hid) as Hnr.
  destruct (ack_add_wf (rec_ack ks) id kw_ack0 ltac:(unfold is_u; lia)) as [Hack _].
  destruct (reliable_not_replay (rec_reliable ks) id).
  - destruct Hget as (i & rel' & -> & ((M1 & M2 & M3 & M4) & Hh & e & Hi & Ha & Le & C & O & Z0 & De) & Hr & Hhas).
    pose proof (entries_array _ _ _ Hi) as [Harr _]. cbn [mbind option_bind]. rewrite Harr. cbn [mbind option_bind].
    assert (Forall is_byte chunk) by (rewrite <- D'; apply buf_contents_bytes, L').
    unfold buf_copy. rewrite D'.
    destruct (Z.le_gt_cases (zlen chunk) (b_capacity (e_buf e) - b_offset (e_buf e) - b_len (e_buf e))).
    + destruct (buf_write_room (e_buf e) chunk Le) as (b & -> & Lb & Cb & Ob & _ & Db); [done|done|].
      cbn [negb]. destruct (rel_ok_update _ _ rel' i (fun e => e <| e_buf := b |>) e Hr Hi) as [Hr1 Hhas1];
        [done|by rewrite Ha|done|by cbn; rewrite Cb|].
      apply (set_entry_eq _ _ (fun e => e <| e_buf := b |>)) in Hi.
      edestruct (mark_active_incoming_spec _ i id op _ Hr1 Hi) as (rel2 & -> & Hr2 & (S1 & S2 & S3 & S4) & Hhas2);
        cbn; try done; try congruence; try (cbn; lia).
      { intros d. rewrite Hhas1, Hhas. by apply Hnr. }
      cbn [mbind option_bind]. cbn in S1, S2, S3, Hhas2.
      eexists. split; [done|]. split; [split; cbn -[reliable_ack_acknowledge_packet_id]; ks_done|]. split; [done|].
      apply data_stored; cbn -[reliable_ack_acknowledge_packet_id]; try done; try lia; try congruence; [by apply Hnr|].
      intros x d. by rewrite Hhas2, Hhas1, Hhas, Db, De.
    + pose proof (zlen_nonneg chunk).
      pose proof (buf_contents_length _ L') as Hlc. rewrite D' in Hlc. pose proof L' as [[] _]. rewrite BUF_SIZE_MAX_eq in *.
      rewrite buf_write_full by (done || lia). cbn [negb mbind option_bind].
      destruct (rel_ok_update _ _ rel' i (fun x => x <| e_buf := e_buf e |>) e Hr Hi) as [Hr1 Hhas1];
        [done|by rewrite Ha|done|done|].
      eexists. split; [done|]. split; [split; cbn -[reliable_ack_acknowledge_packet_id]; ks_done|]. split; [done|].
      apply data_ignored; [right; right; lia| |done].
      split; cbn; [congruence|]. intros x d. by rewrite Hhas1, Hhas.
  - cbn [mbind option_bind]. eexists. split; [done|]. split; [split; cbn -[reliable_ack_acknowledge_packet_id]; done|]. split; [done|].
    by apply data_replay.
Qed.

Lemma buf_advance_app b bs rest : buf_live b -> buf_contents b = bs ++ rest ->
  exists b', buf_advance b (zlen bs) = (true, b') /\ buf_live b' /\ buf_contents b' = rest.
Proof.
  intros L D. pose proof (buf_contents_length b L) as Hl. rewrite D, zlen_app in Hl.
  pose proof (zlen_nonneg bs). pose proof (zlen_nonneg rest).
  destruct (buf_take_front b (zlen bs) L) as (L' & C & Hz & _); [lia|]. rewrite D in C.
  apply app_inj_1 in C as [_ ->]; [|by apply Nat2Z.inj].
  unfold buf_advance. rewrite buf_live_valid by done.
  destruct (Z.ltb_spec (zlen bs) 0), (Z.ltb_spec (b_len b) (zlen bs)); try lia. cbn [negb orb].
  eauto.
Qed.

(** A packet of the peer, as the network carries it. *)
Record good_packet (src : bool) (op : Z) (ids data pkt : list Z) : Prop := {
  gp_bytes : pkt = pkt_bytes src op ids data;
  gp_ok : Forall is_byte pkt;
  gp_size : zlen pkt <= frame_size;
  gp_ids : Forall (is_u 32) ids;
  gp_count : zlen ids <= 8
}.

Lemma control_recv_head p now op ids data pkt ks :
  ks_wf p ks -> good_packet (negb p) op ids data pkt ->
  op = P_ACK_V1 \/ data_opcode (negb p) op ->
  exists buf, control_recv now pkt ks
      = control_recv_data op buf
          (ks <| send_reliable := reliable_send_purge (send_reliable ks) (mkack ids) |>) /\
    buf_live buf /\ buf_contents buf = data.
Proof.
  intros W [-> Hb Hz Hu Hc] Hop. pose proof W as [].
  assert (Hr : 0 <= op < 32) by (destruct Hop as [->|H]; [done|by eapply data_opcode_range]).
  destruct (header_decode op Hr) as (Hhb & Hsh & Hland).
  set (pkt := pkt_bytes (negb p) op ids data) in *. unfold control_recv.
  pose proof (zlen_nonneg pkt).
  assert (Hset : buf_set_read pkt (zlen pkt) = Some (mkbuffer (zlen pkt) 0 (zlen pkt) (Some pkt))).
  { unfold buf_set_read. rewrite buf_size_valid_spec by lia.
    destruct (Z.leb_spec 0 (zlen pkt)), (Z.ltb_spec (zlen pkt) (2 ^ 21)); try lia. done. }
  rewrite Hset. cbn [mbind option_bind]. set (b0 := mkbuffer _ _ _ _).
  assert (L0 : buf_live b0) by (eapply buf_live_intro; unfold b0; cbn [b_data b_capacity b_offset b_len];
    try done; rewrite ?BUF_SIZE_MAX_eq; lia).
  assert (D0 : buf_contents b0 = pkt).
  { rewrite (buf_contents_live b0 pkt) by done. apply mem_read_all. }
  assert (Hpos : 0 < zlen pkt).
  { unfold pkt, pkt_bytes. rewrite zlen_app. change (zlen [_]) with 1.
    match goal with |- context [1 + zlen ?l] => pose proof (zlen_nonneg l) end. lia. }
  destruct (Z.leb_spec (b_len b0) 0) as [Hle|_]; [change (b_len b0) with (zlen pkt) in Hle; lia|].
  rewrite buf_live_bptr by done. cbn [mbind option_bind b_offset b0].
  change (buf_peek b0 0) with (header op). rewrite Hsh, Hland.
  assert (Hkind : (op =? P_DATA_V1) = false /\ (op =? P_DATA_V2) = false /\ (op <? P_FIRST_OPCODE) = false /\
    (P_LAST_OPCODE <? op) = false /\ (op =? P_CONTROL_SOFT_RESET_V1) = false /\
    is_hard_reset_method2 op &&
      ((((op =? P_CONTROL_HARD_RESET_CLIENT_V2) || (op =? P_CONTROL_HARD_RESET_CLIENT_V3)) && negb (ks_server ks))
       || ((op =? P_CONTROL_HARD_RESET_SERVER_V2) && ks_server ks)) = false).
  { rewrite kw_server0. destruct Hop as [->|[-> | ->]]; destruct p; by vm_compute. }
  destruct Hkind as (-> & -> & -> & -> & -> & ->). cbn [orb andb].
  destruct (Hsid (negb p)) as (Hsl & Hsb & Hsd).
  destruct (buf_advance_app b0 [header op] (sid (negb p) ++ ack_bytes ids (sid p) ++ data) L0)
    as (b1 & Ha1 & L1 & D1); [by rewrite D0; unfold pkt, pkt_bytes; rewrite negb_involutive|].
  change (zlen [header op]) with 1 in Ha1. rewrite Ha1. cbn [snd].
  destruct (buf_read_app b1 _ _ L1 D1) as (b2 & Hrd & _). unfold session_id_read.
  rewrite Hsl in Hrd. rewrite Hrd, Hsd. cbn [negb].
  unfold session_id_equal, bytes_eqb. rewrite kw_remote0, bool_decide_true by done. cbn [negb].
  destruct (buf_advance_app b0 ([header op] ++ sid (negb p)) (ack_bytes ids (sid p) ++ data) L0)
    as (b3 & Ha3 & L3 & D3); [by rewrite D0; unfold pkt, pkt_bytes; rewrite negb_involutive, <- app_assoc|].
  rewrite zlen_app, Hsl in Ha3. change (zlen [header op] + SID_SIZE) with (SID_SIZE + 1) in Ha3.
  rewrite Ha3, kw_key0, Z.eqb_refl. cbn [snd negb]. rewrite kw_sid0.
  destruct (reliable_ack_read_spec ids (sid p) b3 data L3 (Hsid p) Hu Hc D3) as (b4 & Hack & L4 & D4 & _).
  rewrite Hack. cbn [negb]. eauto.
Qed.

Lemma purge_wf p ks ids : ks_wf p ks ->
  let ks1 := ks <| send_reliable := reliable_send_purge (send_reliable ks) (mkack ids) |> in
  ks_wf p ks1 /\ rel_packet_id (send_reliable ks1) = rel_packet_id (send_reliable ks) /\
  rel_hold (send_reliable ks1) = rel_hold (send_reliable ks) /\
  (forall id d, rel_has (send_reliable ks1) id d <-> rel_has (send_reliable ks) id d /\ id ∉ ids).
Proof.
  intros W ks1. pose proof W as [].
  destruct (reliable_send_purge_spec _ _ (mkack ids) _ kw_send0) as (Hr & (M1 & M2 & M3 & M4) & Hh & Hhas).
  split_and!; try done. split; cbn -[reliable_send_purge]; ks_done.
Qed.

(** Receiving the acknowledgments purges the sender; then the data part has one of
    the three outcomes. *)
Definition purged (ks ks' : key_state) (ids : list Z) : Prop :=
  rel_packet_id (send_reliable ks') = rel_packet_id (send_reliable ks) /\
  rel_hold (send_reliable ks') = rel_hold (send_reliable ks) /\
  (forall id d, rel_has (send_reliable ks') id d <-> rel_has (send_reliable ks) id d /\ id ∉ ids).

Lemma control_recv_data_packet p now op ids id chunk pkt ks :
  ks_wf p ks -> rec_small ks -> data_opcode (negb p) op -> 0 <= id < 2 ^ 31 ->
  good_packet (negb p) op ids (be32 id ++ chunk) pkt ->
  exists ks', control_recv now pkt ks = Some ks' /\ ks_wf p ks' /\ purged ks ks' ids /\
    data_outcome ks ks' op id chunk.
Proof.
  intros W Hrs Hop Hid Hg.
  destruct (control_recv_head p now op ids _ pkt ks W Hg) as (buf & -> & L & D); [by right|].
  destruct (purge_wf p ks ids W) as (W1 & P1 & H1 & Hhas). set (ks1 := ks <| send_reliable := _ |>) in *.
  destruct (control_recv_data_spec p op id chunk buf ks1 W1) as (ks' & Hrec & W' & Hsend & Hout); try done.
  { by eapply data_opcode_range. }
  exists ks'. split_and!; try done.
  - unfold purged. rewrite Hsend. done.
  - destruct Hout as [C S A|C S A|C N P S A]; [apply data_ignored|apply data_replay|apply data_stored]; done.
Qed.

Lemma control_recv_ack_packet p now ids pkt ks :
  ks_wf p ks -> good_packet (negb p) P_ACK_V1 ids [] pkt ->
  exists ks', control_recv now pkt ks = Some ks' /\ ks_wf p ks' /\ purged ks ks' ids /\
    rec_reliable ks' = rec_reliable ks /\ rec_ack ks' = rec_ack ks.
Proof.
  intros W Hg. destruct (control_recv_head p now P_ACK_V1 ids _ pkt ks W Hg) as (buf & -> & L & D); [by left|].
  destruct (purge_wf p ks ids W) as (W1 & P1 & H1 & Hhas). eexists. split_and!; done.
Qed.

Lemma control_burst_spec p now ks : ks_wf p ks ->
  let ks' := control_burst now ks in
  ks_wf p ks' /\ rec_ack ks' = rec_ack ks /\ rec_reliable ks' = rec_reliable ks /\
  rel_packet_id (send_reliable ks') = rel_packet_id (send_reliable ks) /\
  (forall id d, rel_has (send_reliable ks') id d <-> rel_has (send_reliable ks) id d).
Proof.
  intros W. pose proof W as []. unfold control_burst. destruct (ks_burst ks); cbn [negb]; [by split_and!|].
  destruct (reliable_schedule_now_spec _ _ now _ kw_send0) as (Hr & (M1 & M2 & M3 & M4) & Hh & Hhas & _).
  split_and!; try done; split; cbn; ks_done.
Qed.

(** ** The invariant of one direction *)

Definition got (rec : reliable) (dlv : list (list Z)) (id : Z) : Prop :=
  0 <= id < zlen dlv \/ exists d, rel_has rec id d.

(** Packets from [src]: its send window, its peer's receive window and pending
    acknowledgments, what was queued and what was passed up. *)
Record chan (src : bool) (send rec : reliable) (ack : list Z) (sub dlv : list (list Z)) : Prop := {
  ch_send_pid : rel_packet_id send = zlen sub;
  ch_rec_pid : rel_packet_id rec = zlen dlv;
  ch_prefix : dlv `prefix_of` sub;
  ch_send : forall id d, rel_has send id d ->
    0 <= id < zlen sub /\ zlen sub - id <= TLS_RELIABLE_N_SEND_BUFFERS /\
    exists op chunk, sub !! Z.to_nat id = Some chunk /\ d = (op, be32 id ++ chunk) /\ data_opcode src op;
  ch_rec : forall id d, rel_has rec id d ->
    zlen dlv <= id < zlen dlv + 8 /\
    exists op chunk, sub !! Z.to_nat id = Some chunk /\ d = (op, chunk);
  ch_ack : forall id, id ∈ ack -> got rec dlv id;
  ch_noloss : forall id, 0 <= id < zlen sub -> got rec dlv id \/ exists d, rel_has send id d;
  ch_chunks : Forall (fun c => zlen c <= frame_size - headroom /\ Forall is_byte c) sub
}.

Lemma prefix_zlen {A} (l k : list A) : l `prefix_of` k -> zlen l <= zlen k.
Proof. intros H%prefix_length. unfold zlen. lia. Qed.

Lemma lookup_zlen {A} (l : list A) id x : l !! Z.to_nat id = Some x -> 0 <= id -> id < zlen l.
Proof. intros H%lookup_lt_Some ?. unfold zlen. lia. Qed.

Lemma chan_send_small src send rec ack sub dlv ks : chan src send rec ack sub dlv ->
  send_reliable ks = send -> zlen sub < 2 ^ 31 -> send_small ks.
Proof.
  intros C <- Hn. destruct C. split; [|lia]. intros id d H%ch_send0. lia.
Qed.

Lemma chan_rec_small src send rec ack sub dlv ks : chan src send rec ack sub dlv ->
  rec_reliable ks = rec -> zlen sub < 2 ^ 31 - 8 -> rec_small ks.
Proof.
  intros C <- Hn. destruct C. pose proof (prefix_zlen _ _ ch_prefix0). pose proof (zlen_nonneg dlv). split; [|lia].
  intros id d H'%ch_rec0. lia.
Qed.

Lemma got_mono rec rec' dlv id : (forall i d, rel_has rec i d -> rel_has rec' i d) ->
  got rec dlv id -> got rec' dlv id.
Proof. intros H [?|[d Hd]]; [by left|right; eauto]. Qed.

(** The sender changes timers only, the receiver sends some acknowledgments. *)
Lemma chan_same src send rec ack sub dlv send' rec' ack' :
  chan src send rec ack sub dlv ->
  rel_packet_id send' = rel_packet_id send -> (forall id d, rel_has send' id d <-> rel_has send id d) ->
  rel_packet_id rec' = rel_packet_id rec -> (forall id d, rel_has rec' id d <-> rel_has rec id d) ->
  (forall id, id ∈ ack' -> id ∈ ack \/ got rec dlv id) ->
  chan src send' rec' ack' sub dlv.
Proof.
  intros [] Ps Hs Pr Hr Ha.
  assert (Hg : forall id, got rec' dlv id <-> got rec dlv id).
  { intros id. split; apply got_mono; intros; by apply Hr. }
  split; try congruence; try done.
  - intros id d H%Hs. eauto.
  - intros id d H%Hr. eauto.
  - intros id [H|H]%Ha; apply Hg; auto.
  - intros id [H|[d H]]%ch_noloss0; [left; by apply Hg|right; exists d; by apply Hs].
Qed.

(** The sender drops acknowledged packets. *)
Lemma chan_purge src send rec ack sub dlv send' (ids : list Z) :
  chan src send rec ack sub dlv ->
  rel_packet_id send' = rel_packet_id send ->
  (forall id d, rel_has send' id d <-> rel_has send id d /\ id ∉ ids) ->
  (forall id, id ∈ ids -> got rec dlv id) ->
  chan src send' rec ack sub dlv.
Proof.
  intros [] Ps Hs Hids. split; try congruence; try done.
  - intros id d [H _]%Hs. eauto.
  - intros id [H|[d H]]%ch_noloss0; [by left|].
    destruct (decide (id ∈ ids)); [left; by apply Hids|right]. exists d. by apply Hs.
Qed.

(** The sender queues a packet. *)
Lemma chan_queue src send rec ack sub dlv send' op chunk :
  chan src send rec ack sub dlv -> zlen sub < 2 ^ 31 -> data_opcode src op ->
  zlen chunk <= frame_size - headroom -> Forall is_byte chunk ->
  rel_packet_id send' = u32 (rel_packet_id send + 1) ->
  (forall id d, rel_has send id d -> rel_packet_id send - id < TLS_RELIABLE_N_SEND_BUFFERS) ->
  (forall id d, rel_has send' id d <-> rel_has send id d \/
     (id = rel_packet_id send /\ d = (op, be32 (rel_packet_id send) ++ chunk))) ->
  chan src send' rec ack (sub ++ [chunk]) dlv.
Proof.
  intros [] Hn Hop Hc Hb Pid Hwin Hs. rewrite ch_send_pid0 in *.
  pose proof (zlen_nonneg sub). assert (Hz : zlen (sub ++ [chunk]) = zlen sub + 1) by (by rewrite zlen_app).
  assert (Hl : forall id x, sub !! Z.to_nat id = Some x -> (sub ++ [chunk]) !! Z.to_nat id = Some x)
    by (intros; by apply lookup_app_l_Some).
  split; try done.
  - rewrite Pid, Hz. apply wrap_small. unfold is_u. lia.
  - by apply prefix_app_r.
  - rewrite Hz. intros id d [H'|[-> ->]]%Hs.
    + destruct (ch_send0 id d H') as (? & ? & o & c & ? & ? & ?). specialize (Hwin id d H').
      unfold TLS_RELIABLE_N_SEND_BUFFERS in *. split_and!; try lia. eauto 10.
    + unfold TLS_RELIABLE_N_SEND_BUFFERS. split_and!; try lia. exists op, chunk. split_and!; try done.
      apply list_lookup_middle. unfold zlen. lia.
  - intros id d (? & o & c & ? & ?)%ch_rec0. split; [done|]. eauto 10.
  - rewrite Hz. intros id Hid. destruct (Z.eq_dec id (zlen sub)) as [->|].
    + right. eexists. apply Hs. by right.
    + destruct (ch_noloss0 id ltac:(lia)) as [|[d Hd]]; [by left|]. right. exists d. apply Hs. by left.
  - apply Forall_app. split; [done|]. by constructor.
Qed.

(** The receiver handles a data packet that carries [sub !! id]. *)
Lemma chan_data src send ks ks' ack op id chunk sub dlv :
  chan src send (rec_reliable ks) ack sub dlv -> ack = ack_packet_id (rec_ack ks) -> ack_wf (rec_ack ks) ->
  is_u 32 id -> sub !! Z.to_nat id = Some chunk -> data_outcome ks ks' op id chunk ->
  chan src send (rec_reliable ks') (ack_packet_id (rec_ack ks')) sub dlv /\
  (forall i, got (rec_reliable ks) dlv i -> got (rec_reliable ks') dlv i).
Proof.
  intros C -> Ha Hid Hsub Hout. pose proof C as [].
  destruct (ack_add_wf (rec_ack ks) id Ha Hid) as [_ Hadd].
  destruct Hout as [_ [P S] A|Hold [P S] A|Hwin Hnew P S A].
  - split; [|intros i; apply got_mono; intros; by apply S]. rewrite A.
    eapply chan_same; try done. auto.
  - split; [|intros i; apply got_mono; intros; by apply S]. rewrite A.
    eapply chan_same; try done. intros i [H| ->]%Hadd; [by left|right].
    destruct Hold as [?|H]; [left; unfold is_u in *; lia|by right].
  - assert (Hg : forall i, got (rec_reliable ks) dlv i -> got (rec_reliable ks') dlv i)
      by (intros i; apply got_mono; intros; apply S; by left).
    split; [|done]. rewrite A. rewrite ch_rec_pid0 in *. split; try congruence; try done.
    + intros i d [H|[-> ->]]%S; [eauto|]. split; [lia|eauto].
    + intros i [H| ->]%Hadd; [auto|]. right. eexists. apply S. by right.
    + intros i [H|H]%ch_noloss0; auto.
Qed.

(** The receiver passes its next packet up. *)
Lemma chan_deliver src send rec rec' ack op chunk sub dlv :
  chan src send rec ack sub dlv -> rel_has rec (rel_packet_id rec) (op, chunk) ->
  rel_packet_id rec' = rel_packet_id rec + 1 ->
  (forall id d, rel_has rec' id d <-> rel_has rec id d /\ id <> rel_packet_id rec) ->
  chan src send rec' ack sub (dlv ++ [chunk]) /\
  (forall i, got rec dlv i -> got rec' (dlv ++ [chunk]) i).
Proof.
  intros [] Hh P S. rewrite ch_rec_pid0 in *.
  assert (Hz : zlen (dlv ++ [chunk]) = zlen dlv + 1) by (by rewrite zlen_app).
  pose proof (zlen_nonneg dlv).
  assert (Hg : forall i, got rec dlv i -> got rec' (dlv ++ [chunk]) i).
  { intros i Hi. unfold got. rewrite Hz. destruct (Z.eq_dec i (zlen dlv)); [left; lia|].
    destruct Hi as [?|[d Hd]]; [left; lia|right]. exists d. by apply S. }
  split; [|done]. split; try congruence; try done.
  - destruct (ch_rec0 _ _ Hh) as (_ & o & c & Hc & [= <- <-]). destruct ch_prefix0 as [rest ->].
    rewrite lookup_app_r in Hc by (unfold zlen; lia). unfold zlen in Hc.
    rewrite Nat2Z.id, Nat.sub_diag in Hc. destruct rest as [|r rest]; [done|]. injection Hc as ->.
    exists rest. by rewrite <- app_assoc.
  - intros id d [H' Hne]%S. destruct (ch_rec0 id d H') as (? & ?). rewrite Hz. split; [lia|done].
  - auto.
  - intros i [H'|H']%ch_noloss0; auto.
Qed.

(** ** The invariant of the system *)

Definition sgot (s : sys) (p : bool) (id : Z) : Prop := got (rec_reliable (s_ep s p)) (s_dlv s p) id.

Definition packet_inv (s : sys) (dst : bool) (pkt : list Z) : Prop :=
  exists op ids data, good_packet (negb dst) op ids data pkt /\
    (forall id, id ∈ ids -> sgot s (negb dst) id) /\
    ((op = P_ACK_V1 /\ data = []) \/
     (data_opcode (negb dst) op /\ exists id chunk, data = be32 id ++ chunk /\ 0 <= id /\
        s_sub s (negb dst) !! Z.to_nat id = Some chunk)).

Record sys_inv (n : Z) (s : sys) : Prop := {
  si_wf : forall p, ks_wf p (s_ep s p);
  si_chan : forall p, chan p (send_reliable (s_ep s p)) (rec_reliable (s_ep s (negb p)))
    (ack_packet_id (rec_ack (s_ep s (negb p)))) (s_sub s p) (s_dlv s (negb p));
  si_net : forall i dst pkt, s_net s !! i = Some (dst, pkt) -> packet_inv s dst pkt;
  si_count : forall p, zlen (s_sub s p) <= n
}.

Lemma upd_peer_eq {A} (f : bool -> A) p v : upd_peer f p v p = v.
Proof. unfold upd_peer. by rewrite eqb_reflx. Qed.
Lemma upd_peer_other {A} (f : bool -> A) p v : upd_peer f p v (negb p) = f (negb p).
Proof. by destruct p. Qed.
Lemma upd_peer_same {A} (f : bool -> A) p : forall q, upd_peer f p (f p) q = f q.
Proof. by destruct p, q. Qed.
Lemma peer_cases (p q : bool) : q = p \/ q = negb p.
Proof. destruct p, q; auto. Qed.

(** Only one peer moves in a step. *)
Record moves (n : Z) (s s' : sys) (p : bool) : Prop := {
  mv_ep : s_ep s' (negb p) = s_ep s (negb p);
  mv_sub : s_sub s' (negb p) = s_sub s (negb p);
  mv_dlv : s_dlv s' (negb p) = s_dlv s (negb p);
  mv_wf : ks_wf p (s_ep s' p);
  mv_out : chan p (send_reliable (s_ep s' p)) (rec_reliable (s_ep s (negb p)))
    (ack_packet_id (rec_ack (s_ep s (negb p)))) (s_sub s' p) (s_dlv s (negb p));
  mv_in : chan (negb p) (send_reliable (s_ep s (negb p))) (rec_reliable (s_ep s' p))
    (ack_packet_id (rec_ack (s_ep s' p))) (s_sub s (negb p)) (s_dlv s' p);
  mv_got : forall id, sgot s p id -> sgot s' p id;
  mv_prefix : s_sub s p `prefix_of` s_sub s' p;
  mv_count : zlen (s_sub s' p) <= n + 1;
  mv_net : s_net s' = s_net s \/
    exists pkt, s_net s' = s_net s ++ [(negb p, pkt)] /\ packet_inv s' (negb p) pkt
}.

Lemma moves_inv n s s' p : sys_inv n s -> moves n s s' p -> sys_inv (n + 1) s'.
Proof.
  intros [] [].
  assert (Hgot : forall q id, sgot s q id -> sgot s' q id).
  { intros q id. destruct (peer_cases p q) as [->| ->]; [apply mv_got0|].
    unfold sgot. by rewrite mv_ep0, mv_dlv0. }
  assert (Hsub : forall q, s_sub s q `prefix_of` s_sub s' q).
  { intros q. destruct (peer_cases p q) as [->| ->]; [done|by rewrite mv_sub0]. }
  assert (Hnet : forall dst pkt, packet_inv s dst pkt -> packet_inv s' dst pkt).
  { intros dst pkt (op & ids & data & Hg & Hi & Hd). exists op, ids, data. split_and!; [done|auto|].
    destruct Hd as [?|(? & id & chunk & ? & ? & Hl)]; [by left|right]. split; [done|].
    exists id, chunk. split_and!; try done. by eapply prefix_lookup_Some. }
  split.
  - intros q. destruct (peer_cases p q) as [->| ->]; [done|by rewrite mv_ep0].
  - intros q. destruct (peer_cases p q) as [->| ->]; [by rewrite mv_ep0, mv_dlv0|].
    by rewrite negb_involutive, mv_ep0, mv_sub0.
  - intros i dst pkt. destruct mv_net0 as [->|(new & -> & Hnew)]; [eauto|].
    intros [H|[_ H]]%lookup_app_Some; [eauto|].
    apply list_lookup_singleton_Some in H as [_ [= <- <-]]. done.
  - intros q. destruct (peer_cases p q) as [->| ->]; [done|]. rewrite mv_sub0. specialize (si_count0 (negb p)). lia.
Qed.

(** *** Each action preserves it *)

Definition action_ok (a : action) : Prop :=
  match a with ASubmit _ chunk _ => Forall is_byte chunk | _ => True end.

Definition bounded (n : Z) : Prop := 0 <= n < 2 ^ 31 - 9.

(** Nothing the protocol sees changes, except acknowledgments that left. *)
Lemma sent_acks_chans n s p ks' ids : sys_inv n s -> sent_acks (s_ep s p) ks' ids -> ks_wf p ks' ->
  chan p (send_reliable ks') (rec_reliable (s_ep s (negb p)))
    (ack_packet_id (rec_ack (s_ep s (negb p)))) (s_sub s p) (s_dlv s (negb p)) /\
  chan (negb p) (send_reliable (s_ep s (negb p))) (rec_reliable ks')
    (ack_packet_id (rec_ack ks')) (s_sub s (negb p)) (s_dlv s p) /\
  (forall id, id ∈ ids -> sgot s p id).
Proof.
  intros [] (Ha & Hr & Hp & _ & Hh) W.
  pose proof (si_chan0 p) as C1. pose proof (si_chan0 (negb p)) as C2. rewrite negb_involutive in C2.
  split_and!.
  - eapply chan_same; [exact C1|done|done|done|done|]. by left.
  - rewrite Hr. eapply chan_same; [exact C2|done|done|done|done|].
    intros id Hid. left. rewrite Ha. apply elem_of_app. by right.
  - intros id Hid. eapply ch_ack; [exact C2|]. rewrite Ha. apply elem_of_app. by left.
Qed.

(** A step of [p] that changes nothing of the other peer, nor of what was queued
    and delivered. *)
Lemma send_out_moves n s p ks' ids out : sys_inv n s -> sent_acks (s_ep s p) ks' ids -> ks_wf p ks' ->
  (forall pkt, out = Some pkt -> packet_inv s (negb p) pkt) ->
  moves n s (send_out s p out ks') p.
Proof.
  intros I Hs W Hpk. destruct (sent_acks_chans n s p ks' ids I Hs W) as (C1 & C2 & _).
  pose proof (si_count _ _ I p) as Hn. pose proof Hs as (_ & Hr & _).
  assert (Hep : s_ep (send_out s p out ks') = upd_peer (s_ep s) p ks') by (by destruct out).
  assert (Hsub : s_sub (send_out s p out ks') = s_sub s) by (by destruct out).
  assert (Hdlv : s_dlv (send_out s p out ks') = s_dlv s) by (by destruct out).
  assert (Hg : forall q id, sgot s q id -> sgot (send_out s p out ks') q id).
  { intros q id. unfold sgot. rewrite Hep, Hdlv. destruct (peer_cases p q) as [->| ->].
    - rewrite upd_peer_eq. by rewrite Hr.
    - by rewrite upd_peer_other. }
  split; rewrite ?Hep, ?Hsub, ?Hdlv, ?upd_peer_eq, ?upd_peer_other; try done; [apply Hg|lia|].
  destruct out as [pkt|]; [right|by left]. exists pkt. split; [done|].
  destruct (Hpk pkt eq_refl) as (op & l & data & Hgp & Hi & Hd). exists op, l, data.
  split_and!; [done|intros; apply Hg; auto|]. by rewrite Hsub.
Qed.

(** Send windows only shrink. *)
Definition shrinks (s s' : sys) : Prop := forall r id d,
  rel_has (send_reliable (s_ep s' r)) id d -> rel_has (send_reliable (s_ep s r)) id d.

Lemma shrinks_ep s s' p ks' : s_ep s' = upd_peer (s_ep s) p ks' ->
  (forall id d, rel_has (send_reliable ks') id d -> rel_has (send_reliable (s_ep s p)) id d) ->
  shrinks s s'.
Proof.
  intros He H r id d. rewrite He. destruct (peer_cases p r) as [->| ->].
  - rewrite upd_peer_eq. apply H.
  - by rewrite upd_peer_other.
Qed.

Lemma shrinks_send_out s p out ks' ids : sent_acks (s_ep s p) ks' ids -> shrinks s (send_out s p out ks').
Proof.
  intros (_ & _ & _ & _ & Hh). apply (shrinks_ep _ _ p ks'); [by destruct out|]. intros id d. by rewrite Hh.
Qed.

Lemma pkt_bytes_ok p op ids data : 0 <= op < 32 -> zlen ids < 256 -> Forall is_byte data ->
  Forall is_byte (pkt_bytes p op ids data).
Proof.
  intros Hop Hl Hd. unfold pkt_bytes. destruct (Hsid p) as (_ & Hb & _).
  apply Forall_app; split; [constructor; [by apply header_decode|done]|].
  apply Forall_app; split; [done|]. apply Forall_app; split; [by apply ack_bytes_ok|done].
Qed.

Lemma sent_ids_ok p ks ks' ids : ks_wf p ks -> sent_acks ks ks' ids -> Forall (is_u 32) ids.
Proof. intros [] (Ha & _). destruct kw_ack0 as [_ H]. rewrite Ha in H. by apply Forall_app in H as [? _]. Qed.

Lemma step_transmit n s p : sys_inv n s -> bounded n ->
  exists s', exec s (ATransmit p) = Some s' /\ moves n s s' p /\
    s_sub s' = s_sub s /\ s_dlv s' = s_dlv s /\ shrinks s s' /\
    (reliable_can_send (s_now s) (send_reliable (s_ep s p)) = true ->
     exists pkt op ids id chunk, s_net s' = s_net s ++ [(negb p, pkt)] /\
       good_packet p op ids (be32 id ++ chunk) pkt /\ data_opcode p op /\
       (exists d, rel_has (send_reliable (s_ep s p)) id d) /\ s_sub s p !! Z.to_nat id = Some chunk /\
       (forall i, i ∈ ids -> sgot s p i)).
Proof.
  intros I Hn. pose proof I as [].
  pose proof (si_chan0 p) as C. pose proof (si_count0 p) as Hc. unfold bounded in Hn.
  assert (Hsm : small_ids (entries (send_reliable (s_ep s p)))).
  { apply rel_has_small. intros id d H%(ch_send _ _ _ _ _ _ C). lia. }
  pose proof (control_transmit_spec p (s_now s) (s_ep s p) (si_wf0 p) Hsm) as Ht. cbn [exec].
  destruct (reliable_can_send (s_now s) (send_reliable (s_ep s p))).
  - destruct Ht as (ks' & ids & id & op & data & -> & W' & Hs & Hhas & _ & Hl & Hsz).
    { intros id op d (_ & _ & o & c & _ & [= <- _] & Ho)%(ch_send _ _ _ _ _ _ C).
      by eapply data_opcode_range. }
    cbn [mbind option_bind].
    destruct (sent_acks_chans n s p ks' ids I Hs W') as (_ & _ & Hids).
    destruct (ch_send _ _ _ _ _ _ C _ _ Hhas) as (Hr & _ & o & c & Hc' & [= <- ->] & Ho).
    assert (Hg : good_packet p op ids (be32 id ++ c) (pkt_bytes p op ids (be32 id ++ c))).
    { split; try done; [|by eapply (sent_ids_ok p); [apply si_wf0|]|lia].
      apply pkt_bytes_ok; [by eapply data_opcode_range|lia|].
      apply (Forall_app_2 _ (be32 id)); [auto with ovpn|]. pose proof (ch_chunks _ _ _ _ _ _ C) as HF.
      rewrite Forall_lookup in HF. by eapply HF. }
    eexists. split; [reflexivity|].
    split; [|split_and!; [done|done|by eapply shrinks_send_out|]].
    2: { intros _. exists (pkt_bytes p op ids (be32 id ++ c)), op, ids, id, c. split_and!; try done. by eexists. }
    apply (send_out_moves n s p ks' ids); try done. intros pkt [= <-].
    exists op, ids, (be32 id ++ c). rewrite negb_involutive. split_and!; [done|done|].
    right. split; [done|]. exists id, c. split_and!; done || lia.
  - rewrite Ht; [|intros id op d (_ & _ & o & c & _ & [= <- _] & Ho)%(ch_send _ _ _ _ _ _ C);
      by eapply data_opcode_range].
    cbn [mbind option_bind]. eexists. split; [reflexivity|].
    split; [|split_and!; [done|done|by eapply shrinks_send_out, sent_acks_refl|done]].
    by apply (send_out_moves _ _ _ _ []); [|apply sent_acks_refl|..].
Qed.

Lemma step_ack n s p : sys_inv n s ->
  exists s', exec s (AAck p) = Some s' /\ moves n s s' p /\ s_sub s' = s_sub s /\ s_dlv s' = s_dlv s /\
    shrinks s s' /\ rec_reliable (s_ep s' p) = rec_reliable (s_ep s p) /\ rec_ack (s_ep s' p) = mkack [] /\
    (rec_ack (s_ep s p) <> mkack [] -> exists pkt, s_net s' = s_net s ++ [(negb p, pkt)] /\
       good_packet p P_ACK_V1 (ack_packet_id (rec_ack (s_ep s p))) [] pkt /\
       (forall i, i ∈ ack_packet_id (rec_ack (s_ep s p)) -> sgot s p i)).
Proof.
  intros I. pose proof I as []. pose proof (control_ack_spec p (s_ep s p) (si_wf0 p)) as Ht. cbn [exec].
  destruct (reliable_ack_empty _) eqn:E.
  - rewrite Ht. cbn [mbind option_bind]. eexists. split; [reflexivity|].
    assert (He : rec_ack (s_ep s p) = mkack []).
    { apply Z.eqb_eq in E. destruct (rec_ack (s_ep s p)) as [[|]]; [done|]. unfold ack_len, zlen in E. cbn in E. lia. }
    split; [by apply (send_out_moves _ _ _ _ []); [|apply sent_acks_refl|..]|].
    cbn. rewrite upd_peer_eq. split_and!; try done. by eapply (shrinks_send_out _ _ None), sent_acks_refl.
  - destruct Ht as (ks' & ids & -> & W' & Hs & Hack & Hl & Hsz). cbn [mbind option_bind].
    eexists. split; [reflexivity|].
    destruct (sent_acks_chans n s p ks' ids I Hs W') as (_ & _ & Hids).
    assert (Hg : good_packet p P_ACK_V1 ids [] (pkt_bytes p P_ACK_V1 ids [])).
    { split; try done; [|by eapply (sent_ids_ok p); [apply si_wf0|]]. apply pkt_bytes_ok; [done|lia|done]. }
    split.
    + apply (send_out_moves n s p ks' ids); try done. intros pkt [= <-].
      exists P_ACK_V1, ids, []. rewrite negb_involutive. split_and!; [done|done|by left].
    + split_and!; [done|done|by eapply shrinks_send_out| | |]; cbn; rewrite ?upd_peer_eq; [by apply Hs|done|].
      intros _. eexists. split; [reflexivity|]. destruct Hs as (Ha & _). rewrite Hack, app_nil_r in Ha. by rewrite Ha.
Qed.

Lemma queue_moves n s p ks' op chunk : sys_inv n s -> bounded n -> ks_wf p ks' ->
  queues (s_ep s p) ks' op chunk -> data_opcode p op ->
  zlen chunk <= frame_size - headroom -> Forall is_byte chunk ->
  moves n s (queued s p chunk (true, ks')) p.
Proof.
  intros I Hn W (Ha & Hr & Hp & _ & Hwin & Hs) Hop Hc Hb. pose proof I as [].
  pose proof (si_count0 p). unfold bounded in Hn.
  pose proof (si_chan0 p) as C1. pose proof (si_chan0 (negb p)) as C2. rewrite negb_involutive in C2.
  split; cbn; rewrite ?upd_peer_eq, ?upd_peer_other; try done.
  - eapply chan_queue; try done. lia.
  - rewrite Hr, Ha. done.
  - intros id. unfold sgot. cbn. by rewrite upd_peer_eq, Hr.
  - by apply prefix_app_r.
  - rewrite zlen_app. change (zlen [chunk]) with 1. lia.
  - by left.
Qed.

Lemma same_moves n s p ks' : sys_inv n s -> ks_wf p ks' -> ks_same (s_ep s p) ks' ->
  moves n s (set_ep s p ks') p.
Proof. intros I W H. by apply (send_out_moves n s p ks' [] None). Qed.

Lemma stay_moves n s s' p : sys_inv n s -> s_ep s' = s_ep s -> s_net s' = s_net s ->
  s_sub s' = s_sub s -> s_dlv s' = s_dlv s -> moves n s s' p.
Proof.
  intros [] He Hn Hs Hd. specialize (si_count0 p).
  pose proof (si_chan0 p) as C1. pose proof (si_chan0 (negb p)) as C2. rewrite negb_involutive in C2.
  split; rewrite ?He, ?Hs, ?Hd; try done; [|lia|by left].
  intros id. unfold sgot. by rewrite He, Hd.
Qed.

Lemma step_start n s p : sys_inv n s -> bounded n ->
  exists s', exec s (AStart p) = Some s' /\ moves n s s' p /\ s_dlv s' = s_dlv s.
Proof.
  intros I Hn. pose proof I as []. pose proof (si_count0 p) as Hc. pose proof Hn as Hn'. unfold bounded in Hn'.
  destruct (control_start_spec p (initial_opcode (ks_server (s_ep s p))) (s_ep s p) (si_wf0 p))
    as (b & ks' & He & W & Hq); [eapply chan_send_small; [apply si_chan0|done|lia]|].
  cbn [exec]. rewrite He. cbn. eexists. split; [reflexivity|]. split; [|by destruct b].
  destruct b.
  - eapply queue_moves; try done; [|change (zlen (@nil Z)) with 0; lia].
    right. by rewrite (kw_server _ _ (si_wf0 p)).
  - subst ks'. by apply same_moves, sent_acks_refl.
Qed.

Lemma step_submit n s p chunk maxlen : sys_inv n s -> bounded n -> Forall is_byte chunk ->
  exists s', exec s (ASubmit p chunk maxlen) = Some s' /\ moves n s s' p /\ s_dlv s' = s_dlv s.
Proof.
  intros I Hn Hb. pose proof I as []. pose proof (si_count0 p) as Hc. pose proof Hn as Hn'. unfold bounded in Hn'.
  destruct (control_submit_spec p chunk maxlen (s_ep s p) (si_wf0 p)) as (b & ks' & He & W & Hq);
    [eapply chan_send_small; [apply si_chan0|done|lia]|done|].
  cbn [exec]. rewrite He. cbn. eexists. split; [reflexivity|]. split; [|by destruct b].
  destruct b; [|by apply same_moves].
  eapply queue_moves; try done; [by left| |by apply Forall_take].
  pose proof (si_wf0 p) as []. unfold chunk_taken, zlen. rewrite length_take. lia.
Qed.

Lemma step_deliver n s p accepts : sys_inv n s -> bounded n ->
  exists s', exec s (ADeliver p accepts) = Some s' /\ moves n s s' p /\ s_sub s' = s_sub s /\ shrinks s s' /\
    (accepts = true -> (exists d, rel_has (rec_reliable (s_ep s p)) (zlen (s_dlv s p)) d) ->
       zlen (s_dlv s' p) = zlen (s_dlv s p) + 1).
Proof.
  intros I Hn. pose proof I as []. pose proof (si_count0 (negb p)) as Hc. pose proof Hn as Hn'. unfold bounded in Hn'.
  pose proof (si_chan0 p) as C1. pose proof (si_chan0 (negb p)) as C2. rewrite negb_involutive in C2.
  destruct (control_deliver_spec p accepts (s_ep s p) (si_wf0 p)) as (out & ks' & He & W & Ha & Hs & Hout);
    [eapply chan_rec_small; [exact C2|done|lia]|].
  cbn [exec]. rewrite He. cbn [mbind option_bind]. eexists. split; [reflexivity|].
  destruct out as [chunk|].
  - destruct Hout as ((op & Hhas) & Hp & Hh).
    destruct (chan_deliver _ _ _ (rec_reliable ks') _ op chunk _ _ C2 Hhas Hp Hh) as [C2' Hg].
    split; [|split; [done|split; [apply (shrinks_ep _ _ p ks'); [done|by rewrite Hs]|]]].
    + split; cbn; rewrite ?upd_peer_eq, ?upd_peer_other; try done; try lia.
      * by rewrite Hs.
      * by rewrite Ha.
      * intros id. unfold sgot. cbn. rewrite !upd_peer_eq. apply Hg.
      * specialize (si_count0 p). lia.
      * by left.
    + intros _ _. cbn. rewrite upd_peer_eq, zlen_app. done.
  - destruct Hout as [-> Hno]. split; [by apply same_moves, sent_acks_refl|split; [done|split; [by apply (shrinks_ep _ _ p (s_ep s p))|]]].
    intros Hacc [d Hd]. exfalso. apply (Hno Hacc d). by rewrite (ch_rec_pid _ _ _ _ _ _ C2).
Qed.

(** A received packet: the sender is purged, the data handled. *)
Lemma receive_moves n s p ks' op ids id chunk : sys_inv n s -> bounded n -> ks_wf p ks' ->
  purged (s_ep s p) ks' ids -> (forall i, i ∈ ids -> sgot s (negb p) i) ->
  (data_outcome (s_ep s p) ks' op id chunk /\ 0 <= id /\ s_sub s (negb p) !! Z.to_nat id = Some chunk \/
   rec_reliable ks' = rec_reliable (s_ep s p) /\ rec_ack ks' = rec_ack (s_ep s p)) ->
  moves n s (set_ep s p ks') p.
Proof.
  intros I Hn W (Hp & _ & Hh) Hids Hdata. pose proof I as []. pose proof (si_count0 p). pose proof (si_count0 (negb p)).
  unfold bounded in Hn.
  pose proof (si_chan0 p) as C1. pose proof (si_chan0 (negb p)) as C2. rewrite negb_involutive in C2.
  assert (H' : chan (negb p) (send_reliable (s_ep s (negb p))) (rec_reliable ks')
     (ack_packet_id (rec_ack ks')) (s_sub s (negb p)) (s_dlv s p) /\
     (forall i, got (rec_reliable (s_ep s p)) (s_dlv s p) i -> got (rec_reliable ks') (s_dlv s p) i)).
  { destruct Hdata as [(Hout & Hid & Hl)|[-> ->]]; [|done]. pose proof (lookup_zlen _ _ _ Hl Hid).
    eapply chan_data; try done; [by destruct (si_wf0 p)|unfold is_u; lia]. }
  destruct H' as [C2' Hg].
  split; cbn; rewrite ?upd_peer_eq, ?upd_peer_other; try done; [| |lia|by left].
  - by eapply chan_purge.
  - intros i. unfold sgot. cbn. rewrite upd_peer_eq. apply Hg.
Qed.

(** A data packet or an acknowledgment that is still in the network. *)
Lemma step_receive_data n s i p pkt op ids id chunk : sys_inv n s -> bounded n ->
  s_net s !! i = Some (p, pkt) -> good_packet (negb p) op ids (be32 id ++ chunk) pkt ->
  data_opcode (negb p) op -> (forall id, id ∈ ids -> sgot s (negb p) id) ->
  0 <= id -> s_sub s (negb p) !! Z.to_nat id = Some chunk ->
  exists ks', exec s (AReceive i) = Some (set_ep s p ks') /\ moves n s (set_ep s p ks') p /\
    purged (s_ep s p) ks' ids /\ data_outcome (s_ep s p) ks' op id chunk.
Proof.
  intros I Hn E Hgp Hop Hids Hid Hl. cbn [exec]. rewrite E. pose proof I as []. pose proof Hn as Hn'. unfold bounded in Hn'.
  pose proof (lookup_zlen _ _ _ Hl Hid). pose proof (si_count0 (negb p)) as Hc.
  pose proof (si_chan0 (negb p)) as C2. rewrite negb_involutive in C2.
  destruct (control_recv_data_packet p (s_now s) op ids id chunk pkt _ (si_wf0 p)) as (ks' & -> & W & Hpu & Hout);
    [eapply chan_rec_small; [exact C2|done|lia]|done|lia|done|].
  exists ks'. split_and!; try done. eapply receive_moves; try done. by left.
Qed.

Lemma step_receive_ack n s i p pkt ids : sys_inv n s -> bounded n ->
  s_net s !! i = Some (p, pkt) -> good_packet (negb p) P_ACK_V1 ids [] pkt ->
  (forall id, id ∈ ids -> sgot s (negb p) id) ->
  exists ks', exec s (AReceive i) = Some (set_ep s p ks') /\ moves n s (set_ep s p ks') p /\
    purged (s_ep s p) ks' ids.
Proof.
  intros I Hn E Hgp Hids. cbn [exec]. rewrite E. pose proof I as [].
  destruct (control_recv_ack_packet p (s_now s) ids pkt _ (si_wf0 p) Hgp) as (ks' & -> & W & Hpu & Hr & Ha).
  exists ks'. split_and!; try done. eapply (receive_moves _ _ _ _ P_ACK_V1 ids 0 []); try done. by right.
Qed.

Lemma step_receive n s i : sys_inv n s -> bounded n ->
  exists s' p, exec s (AReceive i) = Some s' /\ moves n s s' p.
Proof.
  intros I Hn. destruct (s_net s !! i) as [[p pkt]|] eqn:E.
  - destruct (si_net _ _ I _ _ _ E) as (op & ids & data & Hgp & Hids & [[-> ->]|(Hop & id & chunk & -> & Hid & Hl)]).
    + destruct (step_receive_ack n s i p pkt ids) as (ks' & ? & ? & _); try done. eauto.
    + destruct (step_receive_data n s i p pkt op ids id chunk) as (ks' & ? & ? & _); try done. eauto.
  - exists s, true. cbn [exec]. rewrite E. split; [done|]. by apply stay_moves.
Qed.

Lemma step_burst n s p : sys_inv n s -> moves n s (set_ep s p (control_burst (s_now s) (s_ep s p))) p.
Proof.
  intros I. destruct (control_burst_spec p (s_now s) (s_ep s p) (si_wf _ _ I p)) as (W & Ha & Hr & Hp & Hh).
  pose proof I as []. pose proof (si_count0 p).
  pose proof (si_chan0 p) as C1. pose proof (si_chan0 (negb p)) as C2. rewrite negb_involutive in C2.
  split; cbn -[control_burst]; rewrite ?upd_peer_eq, ?upd_peer_other; try done; [| | |lia|by left].
  - eapply chan_same; [exact C1|done|done|done|done|]. by left.
  - by rewrite Hr, Ha.
  - intros i. unfold sgot. cbn -[control_burst]. by rewrite upd_peer_eq, Hr.
Qed.

(** Every action of every peer succeeds and preserves the invariant. *)
Lemma exec_inv n s a : sys_inv n s -> bounded n -> action_ok a ->
  exists s' p, exec s a = Some s' /\ moves n s s' p /\ sys_inv (n + 1) s'.
Proof.
  intros I Hn Ha.
  enough (exists s' p, exec s a = Some s' /\ moves n s s' p) as (s' & p & ? & Hm)
    by (exists s', p; split_and!; try done; by eapply moves_inv).
  destruct a as [dt|p|p chunk maxlen|p|p|i|p acc|p]; cbn [action_ok] in Ha.
  - eexists _, true. split; [reflexivity|]. by apply stay_moves.
  - destruct (step_start n s p I Hn) as (s' & ? & ? & _). eauto.
  - destruct (step_submit n s p chunk maxlen I Hn Ha) as (s' & ? & ? & _). eauto.
  - destruct (step_transmit n s p I Hn) as (s' & ? & ? & _). eauto.
  - destruct (step_ack n s p I) as (s' & ? & ? & _). eauto.
  - apply (step_receive n s i I Hn).
  - destruct (step_deliver n s p acc I Hn) as (s' & ? & ? & _). eauto.
  - eexists _, p. split; [reflexivity|]. by apply step_burst.
Qed.

Lemma run_inv acts : forall n s, sys_inv n s -> 0 <= n -> n + zlen acts < 2 ^ 31 - 9 ->
  Forall action_ok acts -> exists s', run s acts = Some s' /\ sys_inv (n + zlen acts) s'.
Proof.
  induction acts as [|a acts IH]; intros n s I Hn Hb Ha.
  - exists s. rewrite zlen_nil, Z.add_0_r. done.
  - apply Forall_cons in Ha as [Ha Has]. rewrite zlen_cons in Hb |- *. pose proof (zlen_nonneg acts).
    destruct (exec_inv n s a I) as (s1 & p & Hs1 & _ & I1); [unfold bounded; lia|done|].
    cbn [run]. rewrite Hs1. cbn [mbind option_bind].
    destruct (IH (n + 1) s1 I1) as (s' & Hr & I'); [lia|lia|done|]. exists s'. split; [done|].
    by replace (n + (zlen acts + 1)) with (n + 1 + zlen acts) by lia.
Qed.

Lemma key_state_init_spec p timeout hold :
  exists ks, key_state_init frame_size headroom key_id timeout hold p (sid p) (sid (negb p)) = Some ks /\
    ks_wf p ks /\ rel_packet_id (send_reliable ks) = 0 /\ rel_packet_id (rec_reliable ks) = 0 /\
    ack_packet_id (rec_ack ks) = [] /\
    (forall id d, ~ rel_has (send_reliable ks) id d) /\ (forall id d, ~ rel_has (rec_reliable ks) id d).
Proof.
  unfold key_state_init. destruct (alloc_buf_total frame_size ltac:(lia)) as [b Hb]. rewrite Hb. cbn [mbind option_bind].
  destruct (alloc_buf_live frame_size b ltac:(lia) Hb) as (L & _ & _ & C).
  destruct (reliable_init_spec frame_size headroom TLS_RELIABLE_N_SEND_BUFFERS
      (if negb (key_id =? 0) then false else hold) (headroom - 4)) as (r1 & -> & R1 & S1 & P1 & O1 & _ & N1); [lia|done|done|].
  destruct (reliable_init_spec frame_size headroom TLS_RELIABLE_N_REC_BUFFERS false headroom)
    as (r2 & -> & R2 & S2 & P2 & O2 & _ & N2); [lia|done|done|].
  cbn [mbind option_bind]. eexists. split; [reflexivity|]. split; [|done].
  split; cbn; try done. destruct R1 as [[] ? ? ?]. split; try done.
Qed.

Lemma sys_init_inv timeout now hold :
  exists s, sys_init frame_size headroom key_id timeout now hold sid = Some s /\ sys_inv 0 s /\
    (forall p, s_sub s p = [] /\ s_dlv s p = []).
Proof.
  unfold sys_init.
  destruct (key_state_init_spec false timeout (hold && false)) as (k0 & -> & W0 & PS0 & PR0 & A0 & N0 & M0).
  cbn [mbind option_bind negb].
  destruct (key_state_init_spec true timeout (hold && true)) as (k1 & E1 & W1 & PS1 & PR1 & A1 & N1 & M1).
  cbn [negb] in E1. rewrite E1. cbn [mbind option_bind]. eexists. split; [reflexivity|]. split; [|done].
  split; cbn; try done.
  - by intros [].
  - assert (HC : forall p send rec, rel_packet_id send = 0 -> rel_packet_id rec = 0 ->
      (forall id d, ~ rel_has send id d) -> (forall id d, ~ rel_has rec id d) -> chan p send rec [] [] []).
    { intros p send rec P1 P2 H1 H2. split; try done.
      - intros id d Hd. by destruct (H1 id d).
      - intros id d Hd. by destruct (H2 id d).
      - intros id H. by apply not_elem_of_nil in H.
      - intros id H. unfold zlen in H. cbn in H. lia. }
    intros []; cbn; rewrite ?A0, ?A1; by apply HC.
Qed.

(** ** Progress *)

(** A stretch of the run that queues nothing. *)
Definition quiet (n : Z) (s s' : sys) : Prop :=
  sys_inv n s' /\ s_sub s' = s_sub s /\ shrinks s s' /\
  (forall p, s_dlv s p `prefix_of` s_dlv s' p).
Definition reaches (n : Z) (s s' : sys) : Prop :=
  exists acts, run s acts = Some s' /\ Forall action_ok acts /\ quiet n s s'.

Lemma run_app s l1 l2 : run s (l1 ++ l2) = (s' ← run s l1; run s' l2).
Proof.
  revert s. induction l1 as [|a l1 IH]; intros s; cbn; [done|].
  destruct (exec s a); cbn; [apply IH|done].
Qed.

Lemma quiet_refl n s : sys_inv n s -> quiet n s s.
Proof. intros. split_and!; try done. by intros ???. Qed.

Lemma quiet_trans n s1 s2 s3 : quiet n s1 s2 -> quiet n s2 s3 -> quiet n s1 s3.
Proof.
  intros (I1 & Q1 & H1 & D1) (I2 & Q2 & H2 & D2). split_and!; [done|congruence| |].
  - intros r id d H. by apply H1, H2.
  - intros p. etrans; [apply D1|apply D2].
Qed.

Lemma reaches_refl n s : sys_inv n s -> reaches n s s.
Proof. intros. exists []. split_and!; try done. by apply quiet_refl. Qed.

Lemma reaches_trans n s1 s2 s3 : reaches n s1 s2 -> reaches n s2 s3 -> reaches n s1 s3.
Proof.
  intros (l1 & R1 & A1 & Q1) (l2 & R2 & A2 & Q2). exists (l1 ++ l2). split_and!.
  - by rewrite run_app, R1.
  - by apply Forall_app_2.
  - by eapply quiet_trans.
Qed.

Lemma reaches_inv n s s' : reaches n s s' -> sys_inv n s'.
Proof. by intros (? & ? & ? & ? & ?). Qed.

Lemma reaches_shrinks n s s' : reaches n s s' -> shrinks s s'.
Proof. by intros (? & ? & ? & ? & ? & ? & ?). Qed.

Lemma reaches_step n s s' a p : sys_inv n s -> exec s a = Some s' -> action_ok a -> moves n s s' p ->
  s_sub s' = s_sub s -> s_dlv s' = s_dlv s \/ zlen (s_dlv s' p) = zlen (s_dlv s p) + 1 /\ s_dlv s p `prefix_of` s_dlv s' p ->
  shrinks s s' -> reaches n s s'.
Proof.
  intros I He Ha Hm Hs Hd Hsh. exists [a]. split_and!; [by cbn; rewrite He|by constructor|].
  pose proof (moves_inv _ _ _ _ I Hm) as []. split_and!; try done.
  - split; try done. intros r. rewrite Hs. apply I.
  - intros r. destruct Hd as [-> |[_ Hd]]; [done|].
    destruct (peer_cases p r) as [->| ->]; [done|]. by rewrite (mv_dlv _ _ _ _ Hm).
Qed.

Lemma deliver_all n p k : forall s, sys_inv n s -> bounded n ->
  (Z.to_nat (zlen (s_sub s (negb p)) - zlen (s_dlv s p)) <= k)%nat ->
  exists s', reaches n s s' /\ forall d, ~ rel_has (rec_reliable (s_ep s' p)) (zlen (s_dlv s' p)) d.
Proof.
  induction k as [|k IH]; intros s I Hn Hk.
  - exists s. split; [by apply reaches_refl|]. intros d Hd. pose proof (si_chan _ _ I (negb p)) as C.
    rewrite negb_involutive in C. destruct (ch_rec _ _ _ _ _ _ C _ _ Hd) as (_ & _ & c & Hl & _).
    pose proof (zlen_nonneg (s_dlv s p)). apply lookup_zlen in Hl; lia.
  - destruct (step_deliver n s p true I Hn) as (s1 & He & Hm & Hs & Hsh & Hd).
    destruct (decide (zlen (s_dlv s1 p) = zlen (s_dlv s p) + 1)) as [Heq|Hne].
    + assert (Hr : reaches n s s1).
      { eapply reaches_step; try done. right. split; [done|].
        cbn [exec] in He. destruct (control_deliver true (s_ep s p)) as [[[chunk|] ks]|]; [| |done];
          cbn in He; injection He as <-; cbn; rewrite ?upd_peer_eq; [by apply prefix_app_r|done]. }
      pose proof Hr as (_ & _ & _ & I1 & _). destruct (IH s1 I1 Hn) as (s2 & Hr2 & Hno).
      { rewrite Hs. lia. }
      exists s2. split; [by eapply reaches_trans|done].
    + exists s. split; [by apply reaches_refl|]. intros d Hh. apply Hne, Hd; eauto.
Qed.

(** The receiver that has passed up all it can has room for what its peer has
    outstanding. *)
Lemma window_open n s p m d : sys_inv n s -> let q := negb p in
  (forall d, ~ rel_has (rec_reliable (s_ep s q)) (zlen (s_dlv s q)) d) ->
  rel_has (send_reliable (s_ep s p)) m d ->
  reliable_can_get (rec_reliable (s_ep s q)) = true /\ m < zlen (s_dlv s q) + 8.
Proof.
  intros I q Hno Hm. pose proof (si_chan _ _ I p) as C. pose proof (si_wf _ _ I q) as W. split.
  - eapply (can_get_pigeonhole frame_size headroom _ (zlen (s_dlv s q))); [by apply W|].
    intros id d' Hd. destruct (ch_rec _ _ _ _ _ _ C _ _ Hd) as (Hr & _). rewrite (kw_rec_size _ _ W).
    unfold TLS_RELIABLE_N_REC_BUFFERS. fold q in Hr.
    assert (id <> zlen (s_dlv s q)) by (intros ->; by eapply Hno). lia.
  - destruct (ch_send _ _ _ _ _ _ C _ _ Hm) as (Hr & _). pose proof (zlen_nonneg (s_dlv s q)).
    destruct (Z.lt_ge_cases (zlen (s_dlv s q)) (zlen (s_sub s p))) as [Hlt|]; [|lia].
    destruct (ch_noloss _ _ _ _ _ _ C (zlen (s_dlv s q))) as [[?|[d' Hd]]|[d' Hd]];
      [lia|unfold q in *; lia|by apply Hno in Hd|].
    destruct (ch_send _ _ _ _ _ _ C _ _ Hd) as (_ & Hw & _). unfold TLS_RELIABLE_N_SEND_BUFFERS in Hw. lia.
Qed.

(** Prepare [p] to send and [q] to acknowledge. *)
Lemma prepare n s p : sys_inv n s -> bounded n -> let q := negb p in
  (exists id d, rel_has (send_reliable (s_ep s p)) id d) ->
  exists s', reaches n s s' /\ s_dlv s' = s_dlv s /\
    rec_reliable (s_ep s' q) = rec_reliable (s_ep s q) /\ rec_ack (s_ep s' q) = mkack [] /\
    reliable_can_send (s_now s') (send_reliable (s_ep s' p)) = true.
Proof.
  intros I Hn q (id & d & Hhas).
  destruct (step_ack n s q I) as (s1 & E1 & M1 & S1 & D1 & Sh1 & R1 & A1 & _).
  assert (Hr1 : reaches n s s1) by (eapply reaches_step; eauto; done).
  assert (I1 : sys_inv n s1) by exact (reaches_inv _ _ _ Hr1).
  pose proof (mv_ep _ _ _ _ M1) as P1. unfold q in P1. rewrite negb_involutive in P1.
  set (s2 := set_ep s1 p (control_burst (s_now s1) (s_ep s1 p))).
  destruct (control_burst_spec p (s_now s1) (s_ep s1 p) (si_wf _ _ I1 p)) as (W2 & _ & _ & _ & Hh2).
  assert (Hr2 : reaches n s1 s2).
  { eapply (reaches_step n s1 s2 (ABurst p) p); try done; [by apply step_burst|by left|].
    eapply shrinks_ep; [reflexivity|]. intros. by apply Hh2. }
  assert (I2 : sys_inv n s2) by exact (reaches_inv _ _ _ Hr2).
  assert (Hep2 : s_ep s2 p = control_burst (s_now s1) (s_ep s1 p)) by apply upd_peer_eq.
  assert (Hb2 : ks_burst (s_ep s2 p) = true).
  { rewrite Hep2. unfold control_burst. by destruct (ks_burst (s_ep s1 p)) eqn:B. }
  assert (Hhas2 : rel_has (send_reliable (s_ep s2 p)) id d) by (rewrite Hep2; apply Hh2; by rewrite P1).
  destruct Hhas2 as (i & e & Hi & Ha & _).
  set (s3 := mksys (s_ep s2) (s_net s2) (s_now s2 + Z.max 0 (e_next_try e - s_now s2)) (s_sub s2) (s_dlv s2)).
  assert (Hr3 : reaches n s2 s3).
  { eapply (reaches_step n s2 s3 (ATick (e_next_try e - s_now s2)) p); try done; [by apply stay_moves|by left|].
    by intros ???. }
  exists s3. split; [by eapply reaches_trans; [|eapply reaches_trans]|]. split; [done|].
  change (s_ep s3) with (s_ep s2). unfold q, s2 at 1 2. cbn [s_ep set_ep]. rewrite !upd_peer_other.
  split; [done|]. split; [done|]. apply can_send_due. split; [by apply (kw_hold _ _ (si_wf _ _ I2 p))|].
  exists i, e. split; [done|]. unfold due. rewrite Ha. apply Z.leb_le. cbn [s_now s3]. lia.
Qed.

(** One exchange takes a packet off the send window for good. *)
Lemma exchange n s p : sys_inv n s -> bounded n -> let q := negb p in
  (forall d, ~ rel_has (rec_reliable (s_ep s q)) (zlen (s_dlv s q)) d) ->
  (exists id d, rel_has (send_reliable (s_ep s p)) id d) ->
  exists s' m, reaches n s s' /\ (exists d, rel_has (send_reliable (s_ep s p)) m d) /\
    forall d, ~ rel_has (send_reliable (s_ep s' p)) m d.
Proof.
  intros I Hn q Hno Hsome.
  destruct (prepare n s p I Hn Hsome) as (s3 & Hr3 & D3 & R3 & A3 & Hcan). fold q in R3, A3.
  assert (I3 : sys_inv n s3) by exact (reaches_inv _ _ _ Hr3).
  destruct (step_transmit n s3 p I3 Hn) as (s4 & E4 & M4 & S4 & D4 & Sh4 & Hpkt).
  destruct (Hpkt Hcan) as (pkt & op & ids & m & chunk & N4 & G4 & Hop & (dm & Hm) & Hl & Hids). clear Hpkt.
  assert (Hr4 : reaches n s3 s4) by (eapply reaches_step; eauto; done).
  assert (I4 : sys_inv n s4) by exact (reaches_inv _ _ _ Hr4).
  assert (Hm0 : exists d, rel_has (send_reliable (s_ep s p)) m d) by (exists dm; by apply (reaches_shrinks _ _ _ Hr3)).
  pose proof (mv_ep _ _ _ _ M4) as Q4. fold q in Q4, N4.
  pose proof (si_chan _ _ I3 p) as C3. destruct (ch_send _ _ _ _ _ _ C3 _ _ Hm) as (Hmr & _).
  destruct (window_open n s3 p m dm I3) as [Hget Hwin]; [|done|].
  { intros d. fold q. rewrite R3, D3. apply Hno. }
  fold q in Hget, Hwin.
  destruct (step_receive_data n s4 (length (s_net s3)) q pkt op ids m chunk I4 Hn) as (k5 & E5 & M5 & Pu5 & Hout);
    unfold q; rewrite ?negb_involutive; try done; try lia.
  { rewrite N4. by apply list_lookup_middle. }
  { intros i Hi. by apply (mv_got _ _ _ _ M4), Hids. }
  { by rewrite S4. }
  fold q in E5, M5, Pu5, Hout. set (s5 := set_ep s4 q k5) in *. rewrite Q4 in Hout, Pu5.
  assert (Hr5 : reaches n s4 s5).
  { eapply reaches_step; try done; [by left|]. apply (shrinks_ep _ _ q k5); [done|].
    rewrite Q4. intros x d Hx. by apply Pu5 in Hx as [? _]. }
  assert (I5 : sys_inv n s5) by exact (reaches_inv _ _ _ Hr5).
  assert (A5 : rec_ack (s_ep s5 q) = mkack [m]).
  { unfold s5. cbn. rewrite upd_peer_eq. pose proof (ch_chunks _ _ _ _ _ _ C3) as HF. rewrite Forall_lookup in HF.
    destruct (HF _ _ Hl) as [Hfit' _]. pose proof (ch_rec_pid _ _ _ _ _ _ C3) as Hpid. fold q in Hpid.
    destruct Hout as [[Hx|[Hx|Hx]] _ _|_ _ ->|_ _ _ _ ->]; [congruence|lia|lia|by rewrite A3..]. }
  destruct (step_ack n s5 q I5) as (s6 & E6 & M6 & S6 & D6 & Sh6 & _ & _ & Hpk).
  destruct Hpk as (pkt2 & N6 & G6 & Hids6); [by rewrite A5|]. rewrite A5 in G6, Hids6. cbn in G6.
  assert (Hr6 : reaches n s5 s6) by (eapply reaches_step; eauto; done).
  assert (I6 : sys_inv n s6) by exact (reaches_inv _ _ _ Hr6).
  unfold q in N6. rewrite negb_involutive in N6.
  destruct (step_receive_ack n s6 (length (s_net s5)) p pkt2 [m] I6 Hn) as (k7 & E7 & M7 & Pu7).
  { rewrite N6. by apply list_lookup_middle. }
  { done. }
  { intros i Hi. by apply (mv_got _ _ _ _ M6), Hids6. }
  exists (set_ep s6 p k7), m. split; [|split; [done|]].
  - assert (Hr7 : reaches n s6 (set_ep s6 p k7)).
    { eapply reaches_step; try done; [by left|]. apply (shrinks_ep _ _ p k7); [done|].
      intros x d Hx. by apply Pu7 in Hx as [? _]. }
    do 4 (eapply reaches_trans; [eassumption|]). done.
  - intros d. cbn. rewrite upd_peer_eq. intros [_ Hx]%Pu7. apply Hx. by left.
Qed.

Lemma all_arrived n s p : sys_inv n s ->
  (forall d, ~ rel_has (rec_reliable (s_ep s (negb p))) (zlen (s_dlv s (negb p))) d) ->
  (forall id d, ~ rel_has (send_reliable (s_ep s p)) id d) -> s_dlv s (negb p) = s_sub s p.
Proof.
  intros I Hno Hempty. pose proof (si_chan _ _ I p) as C. pose proof (ch_prefix _ _ _ _ _ _ C) as Hpre.
  apply prefix_length_eq; [done|].
  destruct (Nat.le_gt_cases (length (s_sub s p)) (length (s_dlv s (negb p)))) as [|Hlt]; [done|].
  exfalso. destruct (ch_noloss _ _ _ _ _ _ C (zlen (s_dlv s (negb p)))) as [[?|[d Hd]]|[d Hd]];
    [unfold zlen in *; lia|lia|by apply Hno in Hd|by apply Hempty in Hd].
Qed.

Lemma has_dec rel : (exists id d, rel_has rel id d) \/ (forall id d, ~ rel_has rel id d).
Proof.
  destruct (reliable_empty rel) eqn:E; unfold reliable_empty in E.
  - right. intros id d (i & e & Hi & Ha & _). apply negb_true_iff, not_true_iff_false in E.
    apply E, existsb_lookup. eauto.
  - left. apply negb_false_iff, existsb_lookup in E as (i & e & Hi & Ha).
    exists (e_packet_id e), (entry_view e), i, e. done.
Qed.

(** Repeating it empties the send window, after which everything queued has
    arrived. *)
Lemma drain n p k : forall s (l : list Z), sys_inv n s -> bounded n -> (length l <= k)%nat ->
  (forall id d, rel_has (send_reliable (s_ep s p)) id d -> id ∈ l) ->
  exists s', reaches n s s' /\ (forall id d, ~ rel_has (send_reliable (s_ep s' p)) id d) /\
    s_dlv s' (negb p) = s_sub s' p.
Proof.
  induction k as [|k IH]; intros s l I Hn Hk Hl;
    destruct (deliver_all n (negb p) _ s I Hn (le_n _)) as (s1 & Hr1 & Hno);
    pose proof Hr1 as (_ & _ & _ & I1 & _ & Sh1 & _);
    destruct (has_dec (send_reliable (s_ep s1 p))) as [Hsome|Hempty];
    try (exists s1; split_and!; [done|done|by eapply all_arrived]).
  - destruct Hsome as (id & d & Hd%Sh1%Hl). destruct l; [by apply not_elem_of_nil in Hd|cbn in Hk; lia].
  - destruct (exchange n s1 p I1 Hn Hno Hsome) as (s2 & m & Hr2 & (d & Hm) & Hgone).
    pose proof Hr2 as (_ & _ & _ & I2 & _ & Sh2 & _).
    destruct (IH s2 (filter (fun x => x <> m) l) I2 Hn) as (s3 & Hr3 & He & Hd).
    + assert (length (filter (fun x => x <> m) l) < length l)%nat; [|lia].
      apply Sh1, Hl in Hm. apply list_elem_of_split in Hm as (l1 & l2 & ->).
      rewrite filter_app, filter_cons_False by (intros H; by apply H).
      rewrite !length_app. cbn [length]. pose proof (length_filter (fun x => x <> m) l1).
      pose proof (length_filter (fun x => x <> m) l2). lia.
    + intros id d' Hd'. apply list_elem_of_filter. split; [intros ->; by eapply Hgone|].
      by eapply Hl, Sh1, Sh2.
    + exists s3. split; [|done]. by do 2 (eapply reaches_trans; [eassumption|]).
Qed.

Lemma send_ids_list n s p : sys_inv n s -> exists l : list Z,
  forall id d, rel_has (send_reliable (s_ep s p)) id d -> id ∈ l.
Proof.
  intros _. exists (map e_packet_id (entries (send_reliable (s_ep s p)))). intros id d (i & e & Hi & _ & <- & _).
  apply list_elem_of_fmap_2, list_elem_of_lookup. eauto.
Qed.

Lemma empty_no_has rel : (forall id d, ~ rel_has rel id d) -> reliable_empty rel = true.
Proof.
  intros H. unfold reliable_empty. apply negb_true_iff, not_true_iff_false.
  intros (i & e & Hi & Ha)%existsb_lookup. apply (H (e_packet_id e) (entry_view e)). by exists i, e.
Qed.

(** FULL_SYNC: nothing outstanding on either side. *)
Definition full_sync (ks : key_state) : bool :=
  reliable_empty (send_reliable ks) && reliable_ack_empty (rec_ack ks).

Lemma full_sync_reachable n s : sys_inv n s -> bounded n ->
  exists s', reaches n s s' /\ (forall p, s_dlv s' (negb p) = s_sub s' p) /\
    (forall p, full_sync (s_ep s' p) = true).
Proof.
  intros I Hn.
  destruct (send_ids_list n s false I) as [l0 Hl0].
  destruct (drain n false _ s l0 I Hn (le_n _) Hl0) as (s1 & R1 & E1 & D1).
  assert (I1 : sys_inv n s1) by exact (reaches_inv _ _ _ R1). destruct (send_ids_list n s1 true I1) as [l1 Hl1].
  destruct (drain n true _ s1 l1 I1 Hn (le_n _) Hl1) as (s2 & R2 & E2 & D2).
  pose proof R2 as (_ & _ & _ & I2 & S2 & Sh2 & P2).
  destruct (step_ack n s2 false I2) as (s3 & X3 & M3 & S3 & D3 & Sh3 & _ & A3 & _).
  assert (R3 : reaches n s2 s3) by (eapply reaches_step; eauto; done).
  assert (I3 : sys_inv n s3) by exact (reaches_inv _ _ _ R3).
  destruct (step_ack n s3 true I3) as (s4 & X4 & M4 & S4 & D4 & Sh4 & _ & A4 & _).
  assert (R4 : reaches n s3 s4) by (eapply reaches_step; eauto; done).
  exists s4. split; [by do 3 (eapply reaches_trans; [eassumption|])|].
  assert (D2' : s_dlv s2 true = s_sub s2 false).
  { pose proof (ch_prefix _ _ _ _ _ _ (si_chan _ _ I2 false)) as Hp. cbn in Hp, D1.
    apply prefix_length_eq; [done|]. rewrite S2, <- D1. apply prefix_length, P2. }
  split.
  - intros []; cbn; rewrite D4, S4, D3, S3; done.
  - pose proof (mv_ep _ _ _ _ M4) as Q4. cbn in Q4. unfold full_sync.
    intros []; [rewrite A4|rewrite Q4, A3]; rewrite andb_true_r; apply empty_no_has; intros id d Hd.
    + by eapply E2, Sh3, Sh4.
    + rewrite <- Q4 in Hd. by eapply E1, Sh2, Sh3, Sh4.
Qed.
End Peer.

(** ** Properties *)

(** The frame leaves room for the prefix of a packet and for a full
    acknowledgment record; session ids and key id are well formed. *)
Definition link_ok (frame_size headroom key_id : Z) (sid : bool -> list Z) : Prop :=
  38 <= headroom /\ headroom + 41 <= frame_size /\ frame_size < 2 ^ 21 /\ 0 <= key_id < 8 /\
  forall p, sid_ok (sid p).

Lemma link_run frame_size headroom key_id sid timeout now hold s0 acts :
  link_ok frame_size headroom key_id sid ->
  sys_init frame_size headroom key_id timeout now hold sid = Some s0 ->
  Forall action_ok acts -> zlen acts < 2 ^ 31 - 9 ->
  exists s, run s0 acts = Some s /\ sys_inv frame_size headroom key_id sid (zlen acts) s.
Proof.
  intros (H1 & H2 & H3 & H4 & H5) Hi Ha Hl.
  destruct (sys_init_inv frame_size headroom key_id sid H1 H2 H3 timeout now hold) as (s & E & I & _).
  rewrite E in Hi. injection Hi as ->.
  apply (run_inv frame_size headroom key_id sid H1 H2 H3 H4 H5 acts 0 s0 I); done || lia.
Qed.

(** C2. The control channel is a reliable ordered pipe over an unreliable network:
    whatever the two peers queue, transmit, acknowledge, receive (any packet of
    the past, any number of times, in any order) and pass up, no assertion fails,
    and each peer has passed up a prefix of what the other one queued: in order,
    without gap, each packet once. *)
Theorem control_channel_in_order frame_size headroom key_id sid timeout now hold s0 acts :
  link_ok frame_size headroom key_id sid ->
  sys_init frame_size headroom key_id timeout now hold sid = Some s0 ->
  Forall action_ok acts -> zlen acts < 2 ^ 31 - 9 ->
  exists s, run s0 acts = Some s /\ forall p, s_dlv s (negb p) `prefix_of` s_sub s p.
Proof.
  intros Hl Hi Ha Hz. destruct (link_run _ _ _ _ _ _ _ _ _ Hl Hi Ha Hz) as (s & E & I).
  exists s. split; [done|]. intros p. eapply ch_prefix, si_chan, I.
Qed.

(** C32. Nothing queued is ever lost: a packet has been passed up, or waits at its
    place in the receive window of the peer, or is still in the send window with
    its id in front, to be retransmitted. *)
Theorem control_channel_no_loss frame_size headroom key_id sid timeout now hold s0 acts s p k chunk :
  link_ok frame_size headroom key_id sid ->
  sys_init frame_size headroom key_id timeout now hold sid = Some s0 ->
  Forall action_ok acts -> zlen acts < 2 ^ 31 - 9 -> run s0 acts = Some s ->
  s_sub s p !! k = Some chunk ->
  let id := Z.of_nat k in
  s_dlv s (negb p) !! k = Some chunk \/
  (exists op, rel_has (rec_reliable (s_ep s (negb p))) id (op, chunk)) \/
  (exists op, rel_has (send_reliable (s_ep s p)) id (op, be32 id ++ chunk)).
Proof.
  intros Hl Hi Ha Hz Hr Hk id. destruct (link_run _ _ _ _ _ _ _ _ _ Hl Hi Ha Hz) as (s' & E & I).
  rewrite Hr in E. injection E as <-. pose proof (si_chan _ _ _ _ _ _ I p) as C.
  pose proof (lookup_lt_Some _ _ _ Hk) as Hlt.
  assert (Hn : Z.to_nat id = k) by apply Nat2Z.id.
  destruct (ch_noloss _ _ _ _ _ _ _ _ C id) as [[[_ Hd]|[d Hd]]|[d Hd]]; [unfold zlen, id; lia| | |].
  - left. pose proof (ch_prefix _ _ _ _ _ _ _ _ C) as [rest He]. rewrite He in Hk.
    by rewrite lookup_app_l in Hk by (unfold zlen, id in Hd; lia).
  - right. left. destruct (ch_rec _ _ _ _ _ _ _ _ C _ _ Hd) as (_ & op & c & Hc & ->).
    rewrite Hn, Hk in Hc. injection Hc as <-. eauto.
  - right. right. destruct (ch_send _ _ _ _ _ _ _ _ C _ _ Hd) as (_ & _ & op & c & Hc & -> & _).
    rewrite Hn, Hk in Hc. injection Hc as <-. eauto.
Qed.

(** C33. The protocol never deadlocks: after any history, whatever was lost, the peers
    can go on (retransmitting, acknowledging and passing up, without queueing more)
    to a state where everything queued has arrived on both sides and both are in
    full sync, nothing left unacknowledged or to acknowledge. *)
Theorem control_channel_progress frame_size headroom key_id sid timeout now hold s0 acts s :
  link_ok frame_size headroom key_id sid ->
  sys_init frame_size headroom key_id timeout now hold sid = Some s0 ->
  Forall action_ok acts -> zlen acts < 2 ^ 31 - 9 -> run s0 acts = Some s ->
  exists acts' s', run s acts' = Some s' /\ s_sub s' = s_sub s /\
    (forall p, s_dlv s' (negb p) = s_sub s' p) /\ (forall p, full_sync (s_ep s' p) = true).
Proof.
  intros Hl Hi Ha Hz Hr. destruct (link_run _ _ _ _ _ _ _ _ _ Hl Hi Ha Hz) as (s1 & E & I).
  rewrite Hr in E. injection E as <-. pose proof Hl as (H1 & H2 & H3 & H4 & H5).
  destruct (full_sync_reachable frame_size headroom key_id sid H1 H2 H3 H4 H5 (zlen acts) s I)
    as (s' & (acts' & R & _ & _ & S & _) & D & F); [pose proof (zlen_nonneg acts); unfold bounded; lia|].
  exists acts', s'. done.
Qed.

(** A concrete link: the first data packet of the client is lost, the second one
    arrives twice. *)
Definition demo_sid (p : bool) : list Z := replicate 8 (if p then 2 else 1).
Definition demo_acts : list action :=
  [ASubmit false [104; 105] 100; ASubmit false [33] 100; ATransmit false; ATransmit false;
   AReceive 1; AReceive 1; AAck true; AReceive 2; ADeliver true true].

Lemma demo_link_ok : link_ok 100 48 1 demo_sid.
Proof.
  unfold link_ok. split_and!; try lia. intros []; (split; [done|split; [|done]]); repeat constructor; lia.
Qed.

Lemma demo_actions_ok : Forall action_ok demo_acts.
Proof. repeat constructor; unfold is_byte; lia. Qed.

Lemma demo_runs : exists s0 s, sys_init 100 48 1 2 1000 false demo_sid = Some s0 /\ run s0 demo_acts = Some s /\
  s_sub s false = [[104; 105]; [33]] /\ s_dlv s true = [].
Proof. eexists _, _. split; [vm_compute; reflexivity|]. split; [vm_compute; reflexivity|]. by vm_compute. Qed.

Lemma control_channel_in_order_witness : exists s0, sys_init 100 48 1 2 1000 false demo_sid = Some s0 /\
  exists s, run s0 demo_acts = Some s /\ forall p, s_dlv s (negb p) `prefix_of` s_sub s p.
Proof.
  destruct demo_runs as (s0 & s & E & _). exists s0. split; [done|].
  by apply (control_channel_in_order _ _ _ _ _ _ _ s0 demo_acts demo_link_ok E demo_actions_ok).
Defined.

Lemma control_channel_no_loss_witness : exists s0 s, sys_init 100 48 1 2 1000 false demo_sid = Some s0 /\
  run s0 demo_acts = Some s /\
  (s_dlv s true !! 0%nat = Some [104; 105] \/
   (exists op, rel_has (rec_reliable (s_ep s true)) 0 (op, [104; 105])) \/
   (exists op, rel_has (send_reliable (s_ep s false)) 0 (op, be32 0 ++ [104; 105]))).
Proof.
  destruct demo_runs as (s0 & s & E & R & S & _). exists s0, s. split; [done|]. split; [done|].
  apply (control_channel_no_loss _ _ _ _ _ _ _ s0 demo_acts s false 0 [104; 105] demo_link_ok E demo_actions_ok);
    [done|done|by rewrite S].
Defined.

Lemma control_channel_progress_witness : exists s0 s, sys_init 100 48 1 2 1000 false demo_sid = Some s0 /\
  run s0 demo_acts = Some s /\ s_dlv s true = [] /\
  exists acts' s', run s acts' = Some s' /\ s_sub s' = s_sub s /\
    (forall p, s_dlv s' (negb p) = s_sub s' p) /\ (forall p, full_sync (s_ep s' p) = true).
Proof.
  destruct demo_runs as (s0 & s & E & R & _ & D). exists s0, s. split; [done|]. split; [done|]. split; [done|].
  by apply (control_channel_progress _ _ _ _ _ _ _ s0 demo_acts s demo_link_ok E demo_actions_ok).
Defined.
