(* ===== verification/HashList.v ===== *)
(** The hash table of [src/openvpn/list.c] and [list.h]: Jenkins' hash function,
    buckets as lists with move-to-front lookup, and the iterator with its deferred
    deletion.  Keys come with the two function pointers of [struct hash] through
    the class [HashKey], whose laws are what the table relies on. *)
From S2P Require Import Prelude Integer.

(** ** Jenkins' hash *)

Definition sub32 (x y : Z) : Z := u32 (x - y).

(** The macro [mix]: each line is [x -= y; x -= z; x ^= shifted z]. *)
Definition mix_line (x y z s : Z) : Z := Z.lxor (sub32 (sub32 x y) z) s.
Definition mix (abc : Z * Z * Z) : Z * Z * Z :=
  let '(a, b, c) := abc in
  let a := mix_line a b c (Z.shiftr c 13) in
  let b := mix_line b c a (u32 (Z.shiftl a 8)) in
  let c := mix_line c a b (Z.shiftr b 13) in
  let a := mix_line a b c (Z.shiftr c 12) in
  let b := mix_line b c a (u32 (Z.shiftl a 16)) in
  let c := mix_line c a b (Z.shiftr b 5) in
  let a := mix_line a b c (Z.shiftr c 3) in
  let b := mix_line b c a (u32 (Z.shiftl a 10)) in
  let c := mix_line c a b (Z.shiftr b 15) in
  (a, b, c).

(** Four bytes, little end first; the last one to be added may be missing. *)
Definition le4 (k : list Z) (i : Z) : Z :=
  u32 (zget 0 k i + Z.shiftl (zget 0 k (i + 1)) 8 + Z.shiftl (zget 0 k (i + 2)) 16
       + Z.shiftl (zget 0 k (i + 3)) 24).

(** [while (len >= 12)]: a round consumes 12 bytes. *)
Fixpoint hash_blocks (fuel : nat) (k : list Z) (abc : Z * Z * Z) : list Z * (Z * Z * Z) :=
  match fuel with
  | O => (k, abc)
  | S fuel' =>
      if 12 <=? zlen k then
        let '(a, b, c) := abc in
        hash_blocks fuel' (drop 12 k)
          (mix (u32 (a + le4 k 0), u32 (b + le4 k 4), u32 (c + le4 k 8)))
      else (k, abc)
  end.

(** The fall-through [switch] adds the bytes that are there: [zget] answers 0
    past the end of the tail. *)
Definition hash_tail (k : list Z) (abc : Z * Z * Z) : Z * Z * Z :=
  let '(a, b, c) := abc in
  (u32 (a + le4 k 0), u32 (b + le4 k 4),
   u32 (c + Z.shiftl (zget 0 k 8) 8 + Z.shiftl (zget 0 k 9) 16 + Z.shiftl (zget 0 k 10) 24)).

Definition hash_func (k : list Z) (initval : Z) : Z :=
  let length := zlen k in
  let '(k, (a, b, c)) := hash_blocks (Z.to_nat length) k (0x9e3779b9, 0x9e3779b9, initval) in
  let '(_, _, c) := mix (hash_tail k (a, b, u32 (c + length))) in
  c.

(** ** The interface of keys *)

Class HashKey (K : Type) := {
  hash_function : K -> Z -> Z;
  compare_function : K -> K -> bool;
  compare_refl : forall k, compare_function k k = true;
  compare_sym : forall a b, compare_function a b = true -> compare_function b a = true;
  compare_trans : forall a b c, compare_function a b = true -> compare_function b c = true ->
    compare_function a c = true;
  hash_range : forall k iv, is_u 32 (hash_function k iv);
  hash_compat : forall a b iv, compare_function a b = true -> hash_function a iv = hash_function b iv
}.

Section HashTable.
Context {K V : Type} {HK : HashKey K} {EqV : EqDecision V}.

(** ** Data *)

(** [key] is NULL in an element marked for deletion. *)
Record hash_element := mkhe { he_value : V; he_key : option K; he_hash_value : Z }.

(** [struct hash_bucket] is the list of its elements. *)
Abbreviation hash_bucket := (list hash_element).

Record hash := mkhash {
  h_n_buckets : Z;
  h_n_elements : Z;
  h_mask : Z;
  h_iv : Z;
  h_buckets : list hash_bucket
}.

(** The number of buckets is a power of two; [None] is a failed assertion. *)
Definition hash_init (n_buckets iv : Z) : option hash :=
  if 0 <? n_buckets then
    nb ← adjust_power_of_2 n_buckets;
    let nb := i32 nb in
    Some (mkhash nb 0 (nb - 1) iv (replicate (Z.to_nat nb) []))
  else None.

Definition hash_value (h : hash) (key : K) : Z := hash_function key (h_iv h).
Definition hash_n_elements (h : hash) : Z := h_n_elements h.
Definition hash_n_buckets (h : hash) : Z := h_n_buckets h.
Definition bucket_index (h : hash) (hv : Z) : nat := Z.to_nat (Z.land hv (h_mask h)).
Definition get_bucket (h : hash) (i : nat) : hash_bucket := default [] (h_buckets h !! i).
Definition set_bucket (h : hash) (i : nat) (b : hash_bucket) (n : Z) : hash :=
  mkhash (h_n_buckets h) n (h_mask h) (h_iv h) (<[i := b]> (h_buckets h)).

(** The condition of the search loops. *)
Definition he_matches (key : K) (hv : Z) (he : hash_element) : bool :=
  (hv =? he_hash_value he) &&
  match he_key he with Some k => compare_function key k | None => false end.

(** An element found is moved to the head of its bucket. *)
Definition hash_lookup_fast (bucket : hash_bucket) (key : K) (hv : Z)
  : option hash_element * hash_bucket :=
  match findi (he_matches key hv) bucket with
  | Some i =>
      match bucket !! i with
      | Some he => (Some he, he :: delete i bucket)
      | None => (None, bucket)
      end
  | None => (None, bucket)
  end.

Definition hash_lookup (h : hash) (key : K) : option V * hash :=
  let hv := hash_value h key in
  let i := bucket_index h hv in
  let '(he, b) := hash_lookup_fast (get_bucket h i) key hv in
  (he_value <$> he, set_bucket h i b (h_n_elements h)).

Definition hash_add_fast (h : hash) (i : nat) (key : K) (hv : Z) (value : V) : hash :=
  set_bucket h i (mkhe value (Some key) hv :: get_bucket h i) (h_n_elements h + 1).

(** With [replace], the element that was just moved to the head gets the new
    value; its key stays the old one. *)
Definition hash_add (h : hash) (key : K) (value : V) (replace : bool) : bool * hash :=
  let hv := hash_value h key in
  let i := bucket_index h hv in
  let '(he, b) := hash_lookup_fast (get_bucket h i) key hv in
  let h := set_bucket h i b (h_n_elements h) in
  match he with
  | Some _ =>
      if replace then
        (true, set_bucket h i (match b with
                               | x :: b' => mkhe value (he_key x) (he_hash_value x) :: b'
                               | [] => []
                               end) (h_n_elements h))
      else (false, h)
  | None => (true, hash_add_fast h i key hv value)
  end.

Definition hash_remove_fast (h : hash) (i : nat) (key : K) (hv : Z) : bool * hash :=
  match findi (he_matches key hv) (get_bucket h i) with
  | Some j => (true, set_bucket h i (delete j (get_bucket h i)) (h_n_elements h - 1))
  | None => (false, h)
  end.
Definition hash_remove (h : hash) (key : K) : bool * hash :=
  let hv := hash_value h key in
  hash_remove_fast h (bucket_index h hv) key hv.

(** ** The iterator *)

(** Pointers to elements are their positions in the bucket [hi_bucket]. *)
Record hash_iterator := mkhi {
  hi_bucket_index : Z;
  hi_bucket : option nat;
  hi_elem : option nat;
  hi_last : option nat;
  hi_bucket_marked : bool;
  hi_index_start : Z;
  hi_index_end : Z
}.

Definition he_marked (he : hash_element) : bool := match he_key he with Some _ => false | None => true end.

Definition hash_remove_marked (h : hash) (i : nat) : hash :=
  let b := get_bucket h i in
  let b' := filter (fun he => he_marked he = false) b in
  set_bucket h i b' (h_n_elements h - (zlen b - zlen b')).

Definition hash_iterator_init_range (h : hash) (start_bucket end_bucket : Z) : option hash_iterator :=
  let end_bucket := if h_n_buckets h <? end_bucket then h_n_buckets h else end_bucket in
  if (0 <=? start_bucket) && (start_bucket <=? end_bucket)
  then Some (mkhi (start_bucket - 1) None None None false start_bucket end_bucket)
  else None.
Definition hash_iterator_init (h : hash) : option hash_iterator :=
  hash_iterator_init_range h 0 (h_n_buckets h).

Definition hash_iterator_lock (hi : hash_iterator) (b : nat) : hash_iterator :=
  mkhi (hi_bucket_index hi) (Some b) (hi_elem hi) None false (hi_index_start hi) (hi_index_end hi).

Definition hash_iterator_unlock (h : hash) (hi : hash_iterator) : hash * hash_iterator :=
  match hi_bucket hi with
  | Some b =>
      (if hi_bucket_marked hi then hash_remove_marked h b else h,
       mkhi (hi_bucket_index hi) None (hi_elem hi) None false (hi_index_start hi) (hi_index_end hi))
  | None => (h, hi)
  end.

(** [last = elem; elem = elem->next] *)
Definition hash_iterator_advance (h : hash) (hi : hash_iterator) : hash_iterator :=
  let next := match hi_elem hi, hi_bucket hi with
              | Some j, Some b => if (S j <? length (get_bucket h b))%nat then Some (S j) else None
              | _, _ => None
              end in
  mkhi (hi_bucket_index hi) (hi_bucket hi) next (hi_elem hi) (hi_bucket_marked hi)
    (hi_index_start hi) (hi_index_end hi).

Definition elem_at (h : hash) (hi : hash_iterator) : option hash_element :=
  b ← hi_bucket hi; j ← hi_elem hi; get_bucket h b !! j.

(** [while (++bucket_index < bucket_index_end)] *)
Fixpoint next_bucket (fuel : nat) (h : hash) (hi : hash_iterator)
  : option hash_element * hash * hash_iterator :=
  match fuel with
  | O => (None, h, hi)
  | S fuel' =>
      let idx := hi_bucket_index hi + 1 in
      let hi := mkhi idx (hi_bucket hi) (hi_elem hi) (hi_last hi) (hi_bucket_marked hi)
                  (hi_index_start hi) (hi_index_end hi) in
      if idx <? hi_index_end hi then
        let '(h, hi) := hash_iterator_unlock h hi in
        match get_bucket h (Z.to_nat idx) with
        | [] => next_bucket fuel' h hi
        | _ =>
            let hi := hash_iterator_lock hi (Z.to_nat idx) in
            let hi := mkhi (hi_bucket_index hi) (hi_bucket hi) (Some O) (hi_last hi)
                        (hi_bucket_marked hi) (hi_index_start hi) (hi_index_end hi) in
            (elem_at h hi, h, hash_iterator_advance h hi)
        end
      else (None, h, hi)
  end.

Definition hash_iterator_next (h : hash) (hi : hash_iterator)
  : option hash_element * hash * hash_iterator :=
  match hi_elem hi with
  | Some _ => (elem_at h hi, h, hash_iterator_advance h hi)
  | None => next_bucket (S (Z.to_nat (hi_index_end hi - hi_bucket_index hi))) h hi
  end.

Definition hash_iterator_delete_element (h : hash) (hi : hash_iterator) : option (hash * hash_iterator) :=
  j ← hi_last hi;
  b ← hi_bucket hi;
  Some (set_bucket h b (alter (fun he => mkhe (he_value he) None (he_hash_value he)) j (get_bucket h b))
          (h_n_elements h),
        mkhi (hi_bucket_index hi) (hi_bucket hi) (hi_elem hi) (hi_last hi) true
          (hi_index_start hi) (hi_index_end hi)).

Definition hash_iterator_free (h : hash) (hi : hash_iterator) : hash :=
  (hash_iterator_unlock h hi).1.

(** The loop every user of the iterator runs: delete the elements [del] selects.
    Also answers the elements seen. *)
Fixpoint hash_sweep_loop (fuel : nat) (del : hash_element -> bool) (h : hash) (hi : hash_iterator)
    (seen : list hash_element) : option (hash * hash_iterator * list hash_element) :=
  match fuel with
  | O => None
  | S fuel' =>
      match hash_iterator_next h hi with
      | (Some he, h, hi) =>
          '(h, hi) ← (if del he then hash_iterator_delete_element h hi else Some (h, hi));
          hash_sweep_loop fuel' del h hi (seen ++ [he])
      | (None, h, hi) => Some (h, hi, seen)
      end
  end.

Definition hash_sweep (del : hash_element -> bool) (h : hash) (start_bucket end_bucket : Z)
  : option (hash * list hash_element) :=
  hi ← hash_iterator_init_range h start_bucket end_bucket;
  '(h, hi, seen) ← hash_sweep_loop (S (length (concat (h_buckets h)))) del h hi [];
  Some (hash_iterator_free h hi, seen).

Definition hash_remove_by_value (h : hash) (value : V) : option hash :=
  fst <$> hash_sweep (fun he => bool_decide (he_value he = value)) h 0 (h_n_buckets h).

End HashTable.
Arguments hash_element : clear implicits.
Arguments hash : clear implicits.

(** ** Invariant *)

Section HashProofs.
Context {K V : Type} {HK : HashKey K} {EqV : EqDecision V}.
Implicit Types (h : hash K V) (he : hash_element K V) (key : K).

Definition elems h : list (hash_element K V) := concat (h_buckets h).

Definition same_key (e1 e2 : hash_element K V) : Prop :=
  match he_key e1, he_key e2 with
  | Some k1, Some k2 => compare_function k1 k2 = true
  | _, _ => False
  end.

(** No two elements have equal keys, however the list is arranged. *)
Definition uniq (l : list (hash_element K V)) : Prop :=
  forall e l', l ≡ₚ e :: l' -> Forall (fun e' => ~ same_key e e') l'.

#[export] Instance uniq_proper : Proper ((≡ₚ) ==> iff) uniq.
Proof. intros l1 l2 H. split; intros U e l' Hl; apply (U e); by rewrite <- Hl. Qed.

Lemma same_key_sym e1 e2 : same_key e1 e2 -> same_key e2 e1.
Proof. unfold same_key. destruct (he_key e1), (he_key e2); try done. apply compare_sym. Qed.

Lemma uniq_cons e l : uniq (e :: l) <-> Forall (fun e' => ~ same_key e e') l /\ uniq l.
Proof.
  split.
  - intros U. split; [by apply (U e)|]. intros x l' Hl.
    assert (H : e :: l ≡ₚ x :: e :: l') by (rewrite Hl; constructor).
    apply U in H. by apply Forall_cons in H as [_ H].
  - intros [F U] x l' Hl.
    assert (Hx : x ∈ e :: l) by (rewrite Hl; left). apply elem_of_cons in Hx as [->|Hx].
    + apply Permutation_cons_inv in Hl. by rewrite <- Hl.
    + apply elem_of_Permutation in Hx as [l1 Hl1]. pose proof (U x l1 Hl1) as F1.
      assert (H : e :: l1 ≡ₚ l').
      { apply (Permutation_cons_inv (a := x)). rewrite <- Hl, Hl1. constructor. }
      rewrite <- H. constructor; [|done]. intros Hs%same_key_sym.
      rewrite Forall_forall in F. apply (F x); [|done]. rewrite Hl1. left.
Qed.

Lemma uniq_nil : uniq [].
Proof. intros e l H. by apply Permutation_nil_cons in H. Qed.

(** An element sits in its bucket with its hash value. *)
Definition placed h (i : nat) he : Prop :=
  exists k, he_key he = Some k /\ he_hash_value he = hash_function k (h_iv h) /\
    bucket_index h (he_hash_value he) = i.

Record hash_wf h : Prop := {
  hw_pow : exists e, 0 <= e < 31 /\ h_n_buckets h = 2 ^ e;
  hw_mask : h_mask h = h_n_buckets h - 1;
  hw_len : zlen (h_buckets h) = h_n_buckets h;
  hw_placed : forall i b, h_buckets h !! i = Some b -> Forall (placed h i) b;
  hw_uniq : uniq (elems h);
  hw_count : h_n_elements h = zlen (elems h)
}.

Lemma bucket_index_lt h hv : hash_wf h -> (bucket_index h hv < length (h_buckets h))%nat.
Proof.
  intros []. destruct hw_pow0 as (e & He & Hn). unfold bucket_index. rewrite hw_mask0, Hn.
  replace (2 ^ e - 1) with (Z.ones e) by (rewrite Z.ones_equiv; lia). rewrite Z.land_ones by lia.
  pose proof (Z.mod_pos_bound hv (2 ^ e) ltac:(lia)). unfold zlen in hw_len0. lia.
Qed.

Lemma get_bucket_lookup h hv : hash_wf h ->
  h_buckets h !! bucket_index h hv = Some (get_bucket h (bucket_index h hv)).
Proof.
  intros W. unfold get_bucket. destruct (lookup_lt_is_Some_2 _ _ (bucket_index_lt h hv W)) as [b ->]. done.
Qed.

Lemma concat_perm {A} (l1 l2 : list (list A)) : l1 ≡ₚ l2 -> concat l1 ≡ₚ concat l2.
Proof.
  induction 1; cbn; [done|by f_equiv| |by etrans]. by rewrite !(assoc_L (++)), (Permutation_app_comm x y).
Qed.

Lemma elems_split h i b : h_buckets h !! i = Some b -> elems h ≡ₚ b ++ concat (delete i (h_buckets h)).
Proof.
  intros H. change (b ++ concat (delete i (h_buckets h))) with (concat (b :: delete i (h_buckets h))).
  apply concat_perm, delete_Permutation, H.
Qed.

Lemma elems_set h i b b' n : h_buckets h !! i = Some b ->
  elems (set_bucket h i b' n) ≡ₚ b' ++ concat (delete i (h_buckets h)).
Proof.
  intros H. assert (Hi : h_buckets (set_bucket h i b' n) !! i = Some b').
  { cbn. apply list_lookup_insert_eq. by eapply lookup_lt_Some. }
  rewrite (elems_split _ _ _ Hi). cbn. f_equiv. f_equiv. clear Hi.
  apply lookup_lt_Some in H. rewrite !delete_take_drop, take_insert_ge, drop_insert_lt by lia. done.
Qed.

(** Replacing a bucket. *)
Lemma set_bucket_wf h i b b' l : hash_wf h -> h_buckets h !! i = Some b ->
  Forall (placed h i) b' -> elems (set_bucket h i b' (zlen l)) ≡ₚ l -> uniq l ->
  hash_wf (set_bucket h i b' (zlen l)).
Proof.
  intros [] Hi Hb' Hl Hu. split; cbn; try done.
  - unfold zlen in *. by rewrite length_insert.
  - intros j bj Hj. destruct (decide (i = j)) as [<-|].
    + rewrite list_lookup_insert_eq in Hj by (by eapply lookup_lt_Some). by injection Hj as <-.
    + rewrite list_lookup_insert_ne in Hj by done. by apply hw_placed0.
  - by rewrite Hl.
  - unfold zlen. by rewrite Hl.
Qed.

Lemma elems_bucket h he : he ∈ elems h -> exists i b, h_buckets h !! i = Some b /\ he ∈ b.
Proof.
  unfold elems. intros (b & Hin & Hb)%list_elem_of_In%in_concat.
  apply list_elem_of_In, list_elem_of_lookup in Hin as [i Hi]. exists i, b. by rewrite list_elem_of_In.
Qed.

Lemma elems_placed h he : hash_wf h -> he ∈ elems h ->
  exists k, he_key he = Some k /\ he_hash_value he = hash_function k (h_iv h).
Proof.
  intros [] (i & b & Hi & Hin)%elems_bucket. specialize (hw_placed0 i b Hi).
  rewrite Forall_forall in hw_placed0. destruct (hw_placed0 he Hin) as (k & ? & ? & _). eauto.
Qed.

(** *** Searching *)

Definition has_key key he : bool :=
  match he_key he with Some k => compare_function key k | None => false end.

(** The search in the bucket of the key decides for the whole table. *)
Lemma locate h key : hash_wf h -> let hv := hash_value h key in let i := bucket_index h hv in
  match findi (he_matches key hv) (get_bucket h i) with
  | Some j => exists he k, get_bucket h i !! j = Some he /\ he_key he = Some k /\
      compare_function key k = true /\
      elems h ≡ₚ he :: delete j (get_bucket h i) ++ concat (delete i (h_buckets h)) /\
      Forall (fun he => has_key key he = false) (delete j (get_bucket h i) ++ concat (delete i (h_buckets h)))
  | None => Forall (fun he => has_key key he = false) (elems h)
  end.
Proof.
  intros W hv i. pose proof (get_bucket_lookup h hv W) as Hb. fold i in Hb.
  set (b := get_bucket h i) in *. destruct (findi _ _) as [j|] eqn:F.
  - apply findi_Some in F as (he & Hj & [Hv%Z.eqb_eq Hk]%andb_true_iff).
    destruct (he_key he) as [k|] eqn:E; [|done]. exists he, k.
    assert (Hp : elems h ≡ₚ he :: delete j b ++ concat (delete i (h_buckets h))).
    { rewrite (elems_split _ _ _ Hb). by rewrite (delete_Permutation _ _ _ Hj) at 1. }
    split_and!; try done. pose proof (hw_uniq _ W) as U. apply U in Hp.
    eapply Forall_impl; [exact Hp|]. cbn. intros e' Hne. unfold same_key in Hne. rewrite E in Hne.
    unfold has_key. destruct (he_key e') as [k'|]; [|done]. apply not_true_iff_false. intros Hk'.
    apply Hne. eapply compare_trans; [|exact Hk']. by apply compare_sym.
  - apply Forall_forall. intros he Hin. unfold has_key.
    destruct (he_key he) as [k|] eqn:E; [|done]. apply not_true_iff_false. intros Hk.
    destruct (elems_bucket _ _ Hin) as (i' & b' & Hi' & Hin').
    pose proof (hw_placed _ W _ _ Hi') as HP. rewrite Forall_forall in HP.
    destruct (HP he Hin') as (k' & E' & Hv & Hidx). rewrite E in E'. injection E' as <-.
    assert (Hh : hv = he_hash_value he) by (rewrite Hv; by apply hash_compat).
    assert (i' = i) as -> by (unfold i; congruence). rewrite Hb in Hi'. injection Hi' as <-.
    apply list_elem_of_lookup in Hin' as [j Hj]. rewrite findi_None in F. specialize (F j he Hj).
    unfold he_matches in F. rewrite E, Hk, Hh, Z.eqb_refl in F. done.
Qed.

(** ** The abstract map: an association list *)

Definition pairs (l : list (hash_element K V)) : list (K * V) :=
  omap (fun he => (fun k => (k, he_value he)) <$> he_key he) l.

Definition alist_find key (al : list (K * V)) : list (K * V) :=
  filter (fun p => compare_function key p.1 = true) al.
Definition alist_get key (al : list (K * V)) : option V := snd <$> head (alist_find key al).
Definition alist_add key (v : V) (replace : bool) (al : list (K * V)) : bool * list (K * V) :=
  match alist_find key al with
  | [] => (true, (key, v) :: al)
  | _ => if replace
         then (true, map (fun p => if compare_function key p.1 then (p.1, v) else p) al)
         else (false, al)
  end.
Definition alist_remove key (al : list (K * V)) : bool * list (K * V) :=
  (match alist_find key al with [] => false | _ => true end,
   filter (fun p => compare_function key p.1 = false) al).

#[export] Instance pairs_proper : Proper ((≡ₚ) ==> (≡ₚ)) pairs.
Proof. intros l1 l2 H. unfold pairs. by rewrite H. Qed.

Lemma pairs_has_key key l p : Forall (fun he => has_key key he = false) l ->
  p ∈ pairs l -> compare_function key p.1 = false.
Proof.
  intros F (he & Hin & Hp)%list_elem_of_omap. rewrite Forall_forall in F. specialize (F he Hin).
  unfold has_key in F. destruct (he_key he); [|done]. by injection Hp as <-.
Qed.

Lemma filter_all {A} (P : A -> Prop) `{!forall x, Decision (P x)} (l : list A) : (forall x, x ∈ l -> P x) -> filter P l = l.
Proof.
  induction l as [|x l IH]; intros HP; [done|]. rewrite filter_cons_True by (apply HP; left).
  f_equal. apply IH. intros y Hy. apply HP. by right.
Qed.

Lemma filter_nothing {A} (P : A -> Prop) `{!forall x, Decision (P x)} (l : list A) : (forall x, x ∈ l -> ~ P x) -> filter P l = [].
Proof.
  induction l as [|x l IH]; intros HP; [done|]. rewrite filter_cons_False by (apply HP; left).
  apply IH. intros y Hy. apply HP. by right.
Qed.

(** The three specification functions where the key is, or is not, present. *)
Lemma alist_absent key l al : Forall (fun he => has_key key he = false) l -> pairs l ≡ₚ al ->
  alist_find key al = [] /\ filter (fun p => compare_function key p.1 = false) al = al.
Proof.
  intros F Hp. assert (Hno : forall p, p ∈ al -> compare_function key p.1 = false).
  { intros p. rewrite <- Hp. by apply pairs_has_key. }
  split; [apply filter_nothing|by apply filter_all]. intros p Hin%Hno. congruence.
Qed.

Lemma alist_present key l k v rest al : compare_function key k = true ->
  Forall (fun he => has_key key he = false) rest -> pairs l ≡ₚ (k, v) :: pairs rest -> pairs l ≡ₚ al ->
  alist_find key al = [(k, v)] /\
  filter (fun p => compare_function key p.1 = false) al ≡ₚ pairs rest /\
  (forall v', map (fun p => if compare_function key p.1 then (p.1, v') else p) al ≡ₚ (k, v') :: pairs rest).
Proof.
  intros Hk F Hl Hp. assert (Ha : al ≡ₚ (k, v) :: pairs rest) by (by rewrite <- Hp). clear Hp Hl.
  assert (Hno : forall p, p ∈ pairs rest -> compare_function key p.1 = false) by (intros p; by apply pairs_has_key).
  assert (Hf : alist_find key al ≡ₚ [(k, v)]).
  { unfold alist_find. rewrite Ha, filter_cons_True by done. rewrite filter_nothing; [done|].
    intros p Hin%Hno. congruence. }
  split; [by apply Permutation_singleton_r in Hf|split].
  - rewrite Ha, filter_cons_False by (cbn; congruence). by rewrite filter_all.
  - intros v'. rewrite Ha. cbn. rewrite Hk. constructor.
    assert (Hm : map (fun p => if compare_function key p.1 then (p.1, v') else p) (pairs rest) = pairs rest); [|by rewrite Hm].
    rewrite <- (map_id (pairs rest)) at 2. apply map_ext_Forall, Forall_forall. intros p Hin%Hno. by rewrite Hin.
Qed.

(** ** Each operation refines its specification *)

(** The table represents the association list, in any order. *)
Definition represents h (al : list (K * V)) : Prop := hash_wf h /\ pairs (elems h) ≡ₚ al.

Lemma represents_set h al i b' l : hash_wf h -> (i < length (h_buckets h))%nat ->
  Forall (placed h i) b' -> b' ++ concat (delete i (h_buckets h)) ≡ₚ l -> uniq l -> pairs l ≡ₚ al ->
  represents (set_bucket h i b' (zlen l)) al.
Proof.
  intros W [b Hi]%lookup_lt_is_Some_2 Hb' Hl Hu Hp.
  assert (He : elems (set_bucket h i b' (zlen l)) ≡ₚ l) by (by rewrite (elems_set _ _ _ _ _ Hi)).
  split; [by eapply set_bucket_wf|]. by rewrite He.
Qed.

Lemma bucket_placed h hv : hash_wf h -> Forall (placed h (bucket_index h hv)) (get_bucket h (bucket_index h hv)).
Proof. intros W. eapply hw_placed; [done|]. by apply get_bucket_lookup. Qed.

Lemma placed_delete h i j b : Forall (placed h i) b -> Forall (placed h i) (delete j b).
Proof. intros. rewrite delete_take_drop. by apply Forall_app_2; [apply Forall_take|apply Forall_drop]. Qed.

Lemma pairs_cons he k l : he_key he = Some k -> pairs (he :: l) = (k, he_value he) :: pairs l.
Proof. intros E. unfold pairs. cbn. by rewrite E. Qed.

Lemma set_bucket_twice h i b n b' n' : set_bucket (set_bucket h i b n) i b' n' = set_bucket h i b' n'.
Proof. unfold set_bucket. cbn. by rewrite list_insert_insert_eq. Qed.

Lemma set_bucket_same h hv : hash_wf h -> let i := bucket_index h hv in
  set_bucket h i (get_bucket h i) (h_n_elements h) = h.
Proof.
  intros W i. unfold set_bucket. rewrite list_insert_id by (by apply get_bucket_lookup). by destruct h.
Qed.

(** What lookup leaves: the element at the head, the same elements. *)
Lemma lookup_fast_cases h key : hash_wf h -> let hv := hash_value h key in let i := bucket_index h hv in
  (exists he k rest b', hash_lookup_fast (get_bucket h i) key hv = (Some he, he :: b') /\
     he_key he = Some k /\ compare_function key k = true /\
     elems h ≡ₚ he :: rest /\ b' ++ concat (delete i (h_buckets h)) = rest /\ Forall (placed h i) (he :: b') /\
     Forall (fun he => has_key key he = false) rest) \/
  (hash_lookup_fast (get_bucket h i) key hv = (None, get_bucket h i) /\
   Forall (fun he => has_key key he = false) (elems h)).
Proof.
  intros W hv i. pose proof (locate h key W) as L. cbn zeta in L. fold hv in L. fold i in L. unfold hash_lookup_fast.
  destruct (findi _ _) as [j|]; [left|by right].
  destruct L as (he & k & Hj & Hk & Hc & Hp & F). rewrite Hj. eexists he, k, _, _. split_and!; try done.
  pose proof (bucket_placed h hv W) as HP. constructor; [|by apply placed_delete].
  rewrite Forall_lookup in HP. by eapply HP.
Qed.

Lemma hash_lookup_refines h al key : represents h al ->
  (hash_lookup h key).1 = alist_get key al /\ represents (hash_lookup h key).2 al.
Proof.
  intros [W Hp]. unfold hash_lookup, alist_get. set (hv := hash_value h key). set (i := bucket_index h hv).
  pose proof (bucket_index_lt h hv W) as Hlt. pose proof (hw_uniq _ W) as U.
  destruct (lookup_fast_cases h key W) as [(he & k & rest & b' & E & Hk & Hc & Hr & Hb & HP & F)|[E F]];
    fold hv in E; fold i in E; rewrite E; cbn [fst snd fmap option_fmap option_map].
  - destruct (alist_present key (elems h) k (he_value he) rest al) as (-> & _ & _); try done.
    { by rewrite Hr, (pairs_cons _ _ _ Hk). }
    split; [done|]. rewrite (hw_count _ W). apply represents_set; try done.
    fold hv in Hb. fold i in Hb. cbn. rewrite Hb. by rewrite Hr.
  - destruct (alist_absent key _ al F Hp) as [-> _]. split; [done|].
    unfold i. rewrite set_bucket_same by done. by split.
Qed.

Lemma same_key_has key k e e' : he_key e = Some k -> compare_function key k = true ->
  has_key key e' = false -> ~ same_key e e'.
Proof.
  unfold same_key, has_key. intros ->. destruct (he_key e') as [k'|]; [|tauto]. intros Hk Hno Hs.
  pose proof (compare_trans _ _ _ Hk Hs). congruence.
Qed.

Lemma hash_add_refines h al key v replace : represents h al ->
  (hash_add h key v replace).1 = (alist_add key v replace al).1 /\
  represents (hash_add h key v replace).2 (alist_add key v replace al).2.
Proof.
  intros [W Hp]. unfold hash_add, alist_add. set (hv := hash_value h key). set (i := bucket_index h hv).
  pose proof (bucket_index_lt h hv W) as Hlt. pose proof (hw_uniq _ W) as U.
  destruct (lookup_fast_cases h key W) as [(he & k & rest & b' & E & Hk & Hc & Hr & Hb & HP & F)|[E F]];
    fold hv in E; fold i in E; rewrite E.
  - fold hv in Hb, HP. fold i in Hb, HP.
    destruct (alist_present key (elems h) k (he_value he) rest al) as (-> & _ & Hmap); try done.
    { by rewrite Hr, (pairs_cons _ _ _ Hk). }
    assert (Hlen : zlen (elems h) = zlen (mkhe v (he_key he) (he_hash_value he) :: rest)).
    { unfold zlen. by rewrite Hr. }
    destruct replace; (split; [done|]); cbn [fst snd].
    + rewrite set_bucket_twice. cbn [h_n_elements set_bucket]. rewrite (hw_count _ W), Hlen.
      apply represents_set; try done.
      * apply Forall_cons in HP as [Hpl HP]. by constructor.
      * cbn. by rewrite Hb.
      * apply uniq_cons. rewrite Hr, uniq_cons in U. split; [|apply U].
        eapply Forall_impl; [exact F|]. cbn beta. intros e'. by apply (same_key_has key k).
      * rewrite (pairs_cons _ k) by done. by rewrite Hmap.
    + rewrite (hw_count _ W). apply represents_set; try done. cbn. rewrite Hb. by rewrite Hr.
  - destruct (alist_absent key _ al F Hp) as [-> _]. split; [done|]. cbn [fst snd].
    unfold i at 1. rewrite set_bucket_same by done. unfold hash_add_fast.
    assert (Hz : h_n_elements h + 1 = zlen (mkhe v (Some key) hv :: elems h)) by (by rewrite zlen_cons, (hw_count _ W)).
    rewrite Hz. apply represents_set; try done.
    + constructor; [|by apply bucket_placed]. exists key. done.
    + cbn. constructor. symmetry. apply elems_split. by apply get_bucket_lookup.
    + apply uniq_cons. split; [|done]. eapply Forall_impl; [exact F|]. cbn beta. intros e' He.
      apply (same_key_has key key); [done|apply compare_refl|done].
    + rewrite (pairs_cons _ key) by done. by constructor.
Qed.

(** The list without the entry of [key]. *)
Definition without key (al : list (K * V)) : list (K * V) :=
  filter (fun p => compare_function key p.1 = false) al.

(** A client of [hash_lookup_fast] goes on through the element it got, which stands
    at the head of the bucket, or adds one. *)
Lemma lookup_fast_represents h al key : represents h al ->
  let hv := hash_value h key in let i := bucket_index h hv in
  let '(he, b) := hash_lookup_fast (get_bucket h i) key hv in
  let h1 := set_bucket h i b (h_n_elements h) in
  represents h1 al /\ get_bucket h1 i = b /\
  match he with
  | Some he => exists k b', b = he :: b' /\ he_key he = Some k /\ compare_function key k = true /\
      al ≡ₚ (k, he_value he) :: without key al /\
      forall k' v', compare_function key k' = true ->
        represents (set_bucket h1 i (mkhe v' (Some k') (he_hash_value he) :: b') (h_n_elements h1))
          ((k', v') :: without key al)
  | None => without key al = al /\ forall v, represents (hash_add_fast h1 i key hv v) ((key, v) :: al)
  end.
Proof.
  intros [W Hp] hv i. pose proof (bucket_index_lt h hv W) as Hlt. fold i in Hlt. pose proof (hw_uniq _ W) as U.
  assert (Hget : forall b n, get_bucket (set_bucket h i b n) i = b).
  { intros. unfold get_bucket. cbn. by rewrite list_lookup_insert_eq. }
  destruct (lookup_fast_cases h key W) as [(he & k & rest & b' & E & Hk & Hc & Hr & Hb & HP & F)|[E F]];
    fold hv in E; fold i in E; rewrite E; (split; [|split; [apply Hget|]]).
  - rewrite (hw_count _ W). apply represents_set; try done. fold hv in Hb. fold i in Hb. cbn. rewrite Hb. by rewrite Hr.
  - exists k, b'. fold hv in Hb, HP. fold i in Hb, HP.
    destruct (alist_present key (elems h) k (he_value he) rest al) as (_ & Hw & _); try done.
    { by rewrite Hr, (pairs_cons _ _ _ Hk). }
    split_and!; try done.
    + unfold without. rewrite Hw, <- Hp, Hr. by rewrite (pairs_cons _ _ _ Hk).
    + intros k' v' Hk'. rewrite set_bucket_twice. cbn [h_n_elements set_bucket]. set (he' := mkhe v' (Some k') _).
      assert (Hlen : h_n_elements h = zlen (he' :: rest)) by (rewrite (hw_count _ W); unfold zlen; by rewrite Hr).
      rewrite Hlen. apply represents_set; try done.
      * apply Forall_cons in HP as [(k0 & Hk0 & Hh & Hbi) HP]. constructor; [|done]. exists k'. split_and!; try done.
        cbn. rewrite Hh. apply hash_compat. rewrite Hk in Hk0. injection Hk0 as <-.
        eapply compare_trans; [|exact Hk']. by apply compare_sym.
      * cbn. by rewrite Hb.
      * rewrite Hr, uniq_cons in U. apply uniq_cons. split; [|apply U].
        eapply Forall_impl; [exact F|]. cbn beta. intros e'. by apply (same_key_has key k').
      * rewrite (pairs_cons _ k') by done. cbn [he_value he']. unfold without. by rewrite Hw.
  - unfold i. rewrite set_bucket_same by done. by split.
  - destruct (alist_absent key _ al F Hp) as [_ Hw]. split; [done|]. intros v. unfold i. rewrite set_bucket_same by done.
    unfold hash_add_fast.
    assert (Hz : h_n_elements h + 1 = zlen (mkhe v (Some key) hv :: elems h)) by (by rewrite zlen_cons, (hw_count _ W)).
    rewrite Hz. apply represents_set; try done.
    + constructor; [|by apply bucket_placed]. exists key. done.
    + cbn. constructor. symmetry. apply elems_split. by apply get_bucket_lookup.
    + apply uniq_cons. split; [|done]. eapply Forall_impl; [exact F|]. cbn beta. intros e' He.
      apply (same_key_has key key); [done|apply compare_refl|done].
    + rewrite (pairs_cons _ key) by done. by constructor.
Qed.

Lemma hash_remove_refines h al key : represents h al ->
  (hash_remove h key).1 = (alist_remove key al).1 /\
  represents (hash_remove h key).2 (alist_remove key al).2.
Proof.
  intros [W Hp]. unfold hash_remove, hash_remove_fast, alist_remove.
  pose proof (locate h key W) as L. set (hv := hash_value h key) in *. set (i := bucket_index h hv) in *.
  pose proof (bucket_index_lt h hv W) as Hlt. pose proof (hw_uniq _ W) as U. cbn zeta in L. fold i in L.
  destruct (findi _ _) as [j|].
  - destruct L as (he & k & Hj & Hk & Hc & Hr & F).
    set (rest := delete j (get_bucket h i) ++ concat (delete i (h_buckets h))) in *.
    destruct (alist_present key (elems h) k (he_value he) rest al) as (-> & Hf & _); try done.
    { by rewrite Hr, (pairs_cons _ _ _ Hk). }
    split; [done|]. cbn [snd].
    assert (Hz : h_n_elements h - 1 = zlen rest).
    { rewrite (hw_count _ W). assert (zlen (elems h) = zlen (he :: rest)) as -> by (unfold zlen; by rewrite Hr).
      rewrite zlen_cons. lia. }
    rewrite Hz. apply represents_set; try done.
    + apply placed_delete. by apply bucket_placed.
    + rewrite Hr, uniq_cons in U. apply U.
  - destruct (alist_absent key _ al L Hp) as [-> ->]. done.
Qed.

Lemma hash_init_represents n iv : 0 < n <= 2 ^ 30 ->
  exists h, hash_init n iv = Some h /\ represents h [] /\ n <= h_n_buckets h.
Proof.
  intros Hn. unfold hash_init. destruct (Z.ltb_spec 0 n); [|lia].
  destruct (adjust_power_of_2_spec n ltac:(lia)) as (e & -> & He & Hle & Hmin). cbn [mbind option_bind].
  assert (He30 : e <= 30).
  { destruct Hmin as [?|Hmin]; [lia|]. assert (2 ^ (e - 1) < 2 ^ 30) as Hp by lia.
    apply Z.pow_lt_mono_r_iff in Hp; lia. }
  assert (Hpow : 2 ^ e <= 2 ^ 30) by (apply Z.pow_le_mono_r; lia).
  pose proof (Z.pow_pos_nonneg 2 e). rewrite i32_small by lia. eexists. split; [reflexivity|].
  assert (Hel : elems (mkhash (2 ^ e) 0 (2 ^ e - 1) iv (replicate (Z.to_nat (2 ^ e)) ([] : list (hash_element K V)))) = []).
  { unfold elems. cbn. induction (Z.to_nat (2 ^ e)); [done|]. done. }
  split; [|done]. split; [|by rewrite Hel]. split; cbn -[elems]; try done.
  - exists e. split; [lia|done].
  - unfold zlen. rewrite length_replicate. lia.
  - intros i b Hi. apply lookup_replicate in Hi as [-> _]. constructor.
  - rewrite Hel. apply uniq_nil.
  - by rewrite Hel.
Qed.

(** ** Sweeping the table with the iterator *)

Section Sweep.
Context (del : hash_element K V -> bool).

Definition kept (b : list (hash_element K V)) : list (hash_element K V) := filter (fun he => del he = false) b.
Definition mark he : hash_element K V :=
  if del he then mkhe (he_value he) None (he_hash_value he) else he.

(** A bucket of which the first [k] elements were handled. *)
Definition half (k : nat) (b : list (hash_element K V)) : list (hash_element K V) :=
  map mark (take k b) ++ drop k b.

Definition same_shape h0 h : Prop :=
  h_n_buckets h = h_n_buckets h0 /\ h_mask h = h_mask h0 /\ h_iv h = h_iv h0.
Definition counted h : Prop := h_n_elements h = zlen (concat (h_buckets h)).

Definition unmarked (b : list (hash_element K V)) : Prop := Forall (fun he => he_marked he = false) b.

(** The iterator stands in the bucket [cur], [j] elements handed out, [k] handled. *)
Record cursor (front : list (list (hash_element K V))) cur (k j : nat) todo post h hi : Prop := {
  cu_buckets : h_buckets h = front ++ half k cur :: todo ++ post;
  cu_index : hi_bucket_index hi = zlen front;
  cu_end : hi_index_end hi = zlen front + 1 + zlen todo;
  cu_j : (1 <= j <= length cur)%nat;
  cu_bucket : hi_bucket hi = Some (length front);
  cu_elem : hi_elem hi = if (j <? length cur)%nat then Some j else None;
  cu_last : hi_last hi = Some (j - 1)%nat;
  cu_marked : hi_bucket_marked hi = existsb del (take k cur);
  cu_count : counted h
}.

(** The iterator stands before the buckets [todo]. *)
Record between (front : list (list (hash_element K V))) todo post h hi : Prop := {
  bt_buckets : h_buckets h = front ++ todo ++ post;
  bt_index : hi_bucket_index hi = zlen front - 1;
  bt_end : hi_index_end hi = zlen front + zlen todo;
  bt_bucket : hi_bucket hi = None;
  bt_elem : hi_elem hi = None;
  bt_count : counted h
}.

Lemma get_middle h front c back : h_buckets h = front ++ c :: back -> get_bucket h (length front) = c.
Proof. intros E. unfold get_bucket. rewrite E. by rewrite list_lookup_middle by done. Qed.

Lemma set_middle h front c back c' n : h_buckets h = front ++ c :: back ->
  h_buckets (set_bucket h (length front) c' n) = front ++ c' :: back.
Proof. intros E. cbn. rewrite E, insert_app_r_alt by lia. by rewrite Nat.sub_diag. Qed.

Lemma half_length k b : length (half k b) = length b.
Proof. unfold half. rewrite length_app, length_map, length_take, length_drop. lia. Qed.

Lemma half_lookup k b : (k < length b)%nat -> half k b !! k = b !! k.
Proof.
  intros H. unfold half. rewrite lookup_app_r by (rewrite length_map, length_take; lia).
  rewrite length_map, length_take, lookup_drop. f_equal. lia.
Qed.

(** Handling one more element. *)
Lemma half_step k b x : b !! k = Some x -> alter mark k (half k b) = half (S k) b.
Proof.
  intros H. unfold half. rewrite (take_S_r _ _ _ H), map_app, <- app_assoc.
  pose proof (lookup_lt_Some _ _ _ H).
  rewrite alter_app_r_alt by (rewrite length_map, length_take; lia).
  rewrite length_map, length_take. replace (k - k `min` length b)%nat with 0%nat by lia.
  rewrite (drop_S _ _ _ H). done.
Qed.

Lemma half_all k b : (length b <= k)%nat -> half k b = map mark b.
Proof. intros. unfold half. by rewrite take_ge, drop_ge, app_nil_r by done. Qed.

Lemma existsb_take_S k b x : b !! k = Some x -> existsb del (take (S k) b) = existsb del (take k b) || del x.
Proof. intros H. rewrite (take_S_r _ _ _ H), existsb_app. cbn. by rewrite orb_false_r. Qed.

Lemma remove_marked_map b : unmarked b ->
  filter (fun he => he_marked he = false) (map mark b) = kept b.
Proof.
  intros H. induction H as [|x l Hx _ IH]; [done|]. unfold kept in *. cbn [map]. unfold mark at 1.
  destruct (del x) eqn:D.
  - rewrite (filter_cons_False (fun he => he_marked he = false)), IH by done.
    by rewrite (filter_cons_False (fun he => del he = false)) by congruence.
  - rewrite (filter_cons_True (fun he => he_marked he = false)), IH by done.
    by rewrite (filter_cons_True (fun he => del he = false)) by done.
Qed.

Lemma no_mark b : existsb del b = false -> map mark b = b /\ kept b = b.
Proof.
  induction b as [|x b IH]; [done|]. cbn [existsb map]. intros [Hx Hb]%orb_false_iff.
  destruct (IH Hb) as [-> IHk]. unfold mark, kept in *.
  rewrite Hx, filter_cons_True by done. by rewrite IHk.
Qed.

Lemma counted_middle h front c back c' n : counted h -> h_buckets h = front ++ c :: back ->
  n = h_n_elements h - zlen c + zlen c' -> counted (set_bucket h (length front) c' n).
Proof.
  intros H E ->. unfold counted in *. rewrite (set_middle _ _ _ _ _ _ E). cbn. rewrite H, E.
  rewrite !concat_app. cbn. rewrite !zlen_app. lia.
Qed.

(** What the user does with the element just handed out. *)
Lemma client_step front cur j x todo post h hi : cursor front cur j (S j) todo post h hi ->
  cur !! j = Some x ->
  exists h' hi', (if del x then hash_iterator_delete_element h hi else Some (h, hi)) = Some (h', hi') /\
    cursor front cur (S j) (S j) todo post h' hi' /\ same_shape h h'.
Proof.
  intros [] Hx. pose proof (half_step j cur x Hx) as Hs. unfold mark in Hs.
  assert (Hj : (S j - 1 = j)%nat) by lia. rewrite Hj in cu_last0.
  destruct (del x) eqn:D.
  - unfold hash_iterator_delete_element. rewrite cu_last0, cu_bucket0. cbn [mbind option_bind].
    eexists _, _. split; [reflexivity|]. split; [|done].
    rewrite (get_middle _ _ _ _ cu_buckets0).
    assert (Hal : alter (fun he => mkhe (he_value he) None (he_hash_value he)) j (half j cur) = half (S j) cur).
    { rewrite <- Hs. apply list_eq. intros i. destruct (decide (j = i)) as [<-|].
      - rewrite !list_lookup_alter, !decide_True by done. rewrite half_lookup by lia. rewrite Hx. cbn. by rewrite D.
      - by rewrite !list_lookup_alter_ne by done. }
    rewrite Hal. split; cbn [hi_bucket_index hi_index_end hi_bucket hi_elem hi_last hi_bucket_marked]; try done.
    + by apply set_middle with (c := half j cur).
    + by rewrite Hj.
    + by rewrite (existsb_take_S _ _ _ Hx), D, orb_true_r.
    + eapply counted_middle; [done|done|]. unfold zlen. rewrite !half_length. lia.
  - exists h, hi. split; [done|]. split; [|done].
    assert (Hal : half (S j) cur = half j cur).
    { rewrite <- Hs. apply list_eq. intros i. destruct (decide (j = i)) as [<-|].
      - rewrite list_lookup_alter, decide_True by done. rewrite half_lookup by lia. rewrite Hx. cbn. by rewrite D.
      - by rewrite list_lookup_alter_ne by done. }
    split; try done.
    + by rewrite Hal.
    + by rewrite Hj.
    + by rewrite (existsb_take_S _ _ _ Hx), D, orb_false_r.
Qed.

(** The next element of the same bucket. *)
Lemma cursor_next front cur j x todo post h hi : cursor front cur j j todo post h hi -> cur !! j = Some x ->
  exists hi', hash_iterator_next h hi = (Some x, h, hi') /\ cursor front cur j (S j) todo post h hi'.
Proof.
  intros [] Hx. pose proof (lookup_lt_Some _ _ _ Hx) as Hlt.
  destruct (Nat.ltb_spec j (length cur)); [|lia].
  unfold hash_iterator_next, elem_at, hash_iterator_advance. rewrite cu_elem0, cu_bucket0.
  cbn [mbind option_bind]. rewrite (get_middle _ _ _ _ cu_buckets0), half_lookup, half_length by lia.
  rewrite Hx. eexists. split; [reflexivity|].
  split; cbn [hi_bucket_index hi_index_end hi_bucket hi_elem hi_last hi_bucket_marked]; try done; try lia.
  f_equal. lia.
Qed.

(** Leaving a bucket: the marked elements go. *)
Lemma cursor_unlock front cur todo post h hi : unmarked cur ->
  cursor front cur (length cur) (length cur) todo post h hi ->
  exists h' hi', hash_iterator_unlock h hi = (h', hi') /\
    between (front ++ [kept cur]) todo post h' hi' /\ same_shape h h'.
Proof.
  intros Hun []. unfold hash_iterator_unlock. rewrite cu_bucket0, cu_marked0, take_ge by lia.
  rewrite half_all in cu_buckets0 by lia. rewrite Nat.ltb_irrefl in cu_elem0.
  destruct (existsb del cur) eqn:E; eexists _, _; (split; [reflexivity|split; [|done]]).
  - unfold hash_remove_marked. rewrite (get_middle _ _ _ _ cu_buckets0), remove_marked_map by done.
    split; cbn [hi_bucket_index hi_index_end hi_bucket hi_elem]; try done.
    + rewrite (set_middle _ _ _ _ _ _ cu_buckets0). by rewrite <- app_assoc.
    + rewrite zlen_app. change (zlen [_]) with 1. lia.
    + rewrite zlen_app. change (zlen [_]) with 1. lia.
    + eapply counted_middle; [done|done|]. lia.
  - destruct (no_mark _ E) as [Hm Hk]. rewrite Hm in cu_buckets0. rewrite Hk.
    split; cbn [hi_bucket_index hi_index_end hi_bucket hi_elem]; try done.
    + rewrite cu_buckets0. by rewrite <- app_assoc.
    + rewrite zlen_app. change (zlen [_]) with 1. lia.
    + rewrite zlen_app. change (zlen [_]) with 1. lia.
Qed.

Definition set_index (hi : hash_iterator) (idx : Z) : hash_iterator :=
  mkhi idx (hi_bucket hi) (hi_elem hi) (hi_last hi) (hi_bucket_marked hi) (hi_index_start hi) (hi_index_end hi).

Lemma unlock_index h hi idx : hash_iterator_unlock h (set_index hi idx)
  = let '(h', hi') := hash_iterator_unlock h hi in (h', set_index hi' idx).
Proof. unfold hash_iterator_unlock, set_index. cbn. destruct hi as [? [?|] ? ? ? ? ?]; done. Qed.

Lemma unlock_idle h hi : hi_bucket hi = None -> hash_iterator_unlock h hi = (h, hi).
Proof. unfold hash_iterator_unlock. by intros ->. Qed.

(** The loop may as well unlock before it looks for the next bucket. *)
Lemma next_bucket_unlock fuel h hi h1 hi1 : hi_bucket_index hi + 1 < hi_index_end hi ->
  hash_iterator_unlock h hi = (h1, hi1) -> hi_bucket hi1 = None ->
  hi_bucket_index hi1 = hi_bucket_index hi -> hi_index_end hi1 = hi_index_end hi ->
  next_bucket (S fuel) h hi = next_bucket (S fuel) h1 hi1.
Proof.
  intros Hlt Hu Hn Hi He. cbn [next_bucket]. fold (set_index hi (hi_bucket_index hi + 1)).
  fold (set_index hi1 (hi_bucket_index hi1 + 1)). cbn [hi_index_end set_index]. rewrite Hi, He.
  destruct (Z.ltb_spec (hi_bucket_index hi + 1) (hi_index_end hi)); [|lia].
  rewrite !unlock_index, Hu, (unlock_idle h1 hi1 Hn). done.
Qed.

(** From between two buckets to the first element of the next bucket that has
    one, or to the end of the range. *)
Lemma between_next todo : forall fuel front post h hi, between front todo post h hi ->
  (length todo < fuel)%nat ->
  (exists hi', next_bucket fuel h hi = (None, h, hi') /\ Forall (fun b => b = []) todo /\
     hash_iterator_free h hi' = h) \/
  (exists empties x cur todo' hi', todo = empties ++ (x :: cur) :: todo' /\ Forall (fun b => b = []) empties /\
     next_bucket fuel h hi = (Some x, h, hi') /\
     cursor (front ++ empties) (x :: cur) 0 1 todo' post h hi').
Proof.
  induction todo as [|b todo IH]; intros fuel front post h hi [] Hf; (destruct fuel as [|fuel]; [cbn in Hf; lia|]);
    cbn [next_bucket]; rewrite bt_index0, bt_end0; cbn [hi_index_end].
  - left. rewrite zlen_nil. destruct (Z.ltb_spec (zlen front - 1 + 1) (zlen front + 0)); [lia|].
    eexists. split; [reflexivity|]. split; [done|]. unfold hash_iterator_free. by rewrite unlock_idle.
  - rewrite zlen_cons in *. pose proof (zlen_nonneg todo).
    destruct (Z.ltb_spec (zlen front - 1 + 1) (zlen front + (zlen todo + 1))); [|lia].
    rewrite unlock_idle by done.
    assert (Hidx : Z.to_nat (zlen front - 1 + 1) = length front) by (unfold zlen; lia). rewrite Hidx.
    rewrite (get_middle h front b (todo ++ post)) by done.
    destruct b as [|x cur].
    + destruct (IH fuel (front ++ [[]]) post h (mkhi (zlen front - 1 + 1) (hi_bucket hi)
        (hi_elem hi) (hi_last hi) (hi_bucket_marked hi) (hi_index_start hi) (zlen front + (zlen todo + 1)))) as [(hi' & H1 & H2 & H3)|(em & x & cur & todo' & hi' & H1 & H2 & H3 & H4)].
      * split; [rewrite bt_buckets0; by rewrite <- app_assoc| | |exact bt_bucket0|exact bt_elem0|done];
          cbn [hi_bucket_index hi_index_end set_index]; rewrite zlen_app; change (zlen [_]) with 1; lia.
      * cbn in Hf. lia.
      * left. exists hi'. split_and!; [exact H1|by constructor|done].
      * right. exists ([] :: em), x, cur, todo', hi'. split_and!; [by rewrite H1|by constructor|exact H3|].
        by rewrite <- app_assoc in H4.
    + right. exists [], x, cur, todo. rewrite app_nil_r. unfold hash_iterator_lock, elem_at, hash_iterator_advance.
      cbn [hi_bucket_index hi_index_end hi_bucket hi_elem hi_last hi_bucket_marked hi_index_start mbind option_bind].
      rewrite (get_middle h front (x :: cur) (todo ++ post)) by done.
      eexists. split_and!; [done|done|reflexivity|].
      split; cbn [hi_bucket_index hi_index_end hi_bucket hi_elem hi_last hi_bucket_marked];
        try done; try lia. cbn. lia.
Qed.

(** The outcome of a sweep that has the buckets [todo] before it and the elements
    [more] of the bucket it is in. *)
Definition finished front cur more todo post h0 seen
    (res : option (hash K V * hash_iterator * list (hash_element K V))) : Prop :=
  exists h' hi', res = Some (h', hi', seen ++ more ++ concat todo) /\
    h_buckets (hash_iterator_free h' hi') = front ++ cur ++ map kept todo ++ post /\
    counted (hash_iterator_free h' hi') /\ same_shape h0 (hash_iterator_free h' hi').

Lemma same_shape_trans h1 h2 h3 : same_shape h1 h2 -> same_shape h2 h3 -> same_shape h1 h3.
Proof. unfold same_shape. intuition congruence. Qed.

Lemma kept_empties (bs : list (list (hash_element K V))) : Forall (fun b => b = []) bs -> map kept bs = bs /\ concat bs = [].
Proof. induction 1 as [|b bs -> _ [IH1 IH2]]; [done|]. cbn. by rewrite IH1. Qed.

Definition sweep_between (fuel : nat) : Prop := forall front todo post h hi seen,
  between front todo post h hi -> Forall unmarked todo -> (length (concat todo) < fuel)%nat ->
  finished front [] [] todo post h seen (hash_sweep_loop fuel del h hi seen).
Definition sweep_cursor (fuel : nat) : Prop := forall front cur j todo post h hi seen,
  cursor front cur j j todo post h hi -> unmarked cur -> Forall unmarked todo ->
  (length (drop j cur) + length (concat todo) < fuel)%nat ->
  finished front [kept cur] (drop j cur) todo post h seen (hash_sweep_loop fuel del h hi seen).

Lemma sweep_between_step fuel : sweep_cursor fuel -> sweep_between (S fuel).
Proof.
  intros IH front todo post h hi seen B Hun Hf. pose proof B as [].
  cbn [hash_sweep_loop]. unfold hash_iterator_next at 1. rewrite bt_elem0.
  destruct (between_next todo (S (Z.to_nat (hi_index_end hi - hi_bucket_index hi))) front post h hi B)
    as [(hi' & -> & He & Hfree)|(em & x & cur & todo' & hi' & -> & He & -> & C)].
  - rewrite bt_index0, bt_end0. unfold zlen. lia.
  - destruct (kept_empties _ He) as [Hk Hc]. exists h, hi'. rewrite Hfree, Hk, Hc, !app_nil_r.
    split_and!; try done.
  - destruct (client_step _ _ 0 x _ _ _ _ C) as (h2 & hi2 & -> & C2 & S2); [done|].
    cbn [mbind option_bind]. apply Forall_app in Hun as [_ [Hu1 Hu2]%Forall_cons].
    destruct (kept_empties _ He) as [Hk Hc]. rewrite concat_app, Hc in Hf. cbn in Hf. rewrite length_app in Hf.
    destruct (IH _ _ _ _ _ _ _ (seen ++ [x]) C2 Hu1 Hu2) as (h' & hi3 & -> & Hb & Hcn & Hs);
      [cbn [drop]; rewrite drop_0; lia|].
    exists h', hi3. split_and!; [|rewrite Hb|done|by eapply same_shape_trans].
    + rewrite concat_app, Hc. cbn. rewrite drop_0. by rewrite <- !app_assoc.
    + rewrite map_app, Hk. cbn. by rewrite <- !app_assoc.
Qed.

Lemma sweep_cursor_step fuel : sweep_cursor fuel -> sweep_between (S fuel) -> sweep_cursor (S fuel).
Proof.
  intros IH PB front cur j todo post h hi seen C Hu1 Hu2 Hf. pose proof C as [].
  destruct (Nat.ltb_spec j (length cur)) as [Hlt|Hge].
  - destruct (lookup_lt_is_Some_2 cur j Hlt) as [x Hx].
    destruct (cursor_next _ _ _ _ _ _ _ _ C Hx) as (hi1 & Hnx & C1). cbn [hash_sweep_loop]. rewrite Hnx.
    destruct (client_step _ _ _ _ _ _ _ _ C1 Hx) as (h2 & hi2 & -> & C2 & S2). cbn [mbind option_bind].
    rewrite (drop_S _ _ _ Hx) in Hf |- *. cbn in Hf.
    destruct (IH _ _ _ _ _ _ _ (seen ++ [x]) C2 Hu1 Hu2) as (h' & hi3 & -> & Hb & Hcn & Hs); [lia|].
    exists h', hi3. split_and!; [|done|done|by eapply same_shape_trans]. cbn. by rewrite <- !app_assoc.
  - assert (j = length cur) as -> by lia. rewrite drop_ge in Hf |- * by lia.
    destruct (cursor_unlock _ _ _ _ _ _ Hu1 C) as (h1 & hi1 & Hun & B1 & S1).
    destruct todo as [|b todo].
    + cbn [hash_sweep_loop]. unfold hash_iterator_next. rewrite cu_elem0. cbn [next_bucket].
      rewrite cu_index0, cu_end0. change (zlen (@nil (list (hash_element K V)))) with 0. cbn [hi_index_end].
      destruct (Z.ltb_spec (zlen front + 1) (zlen front + 1 + 0)); [lia|].
      eexists h, _. split; [by rewrite !app_nil_r|]. unfold hash_iterator_free.
      assert (Hfr : forall i e, (hash_iterator_unlock h (mkhi i (hi_bucket hi) (hi_elem hi) (hi_last hi)
        (hi_bucket_marked hi) (hi_index_start hi) e)).1 = h1).
      { intros i e. transitivity (hash_iterator_unlock h hi).1; [|by rewrite Hun].
        unfold hash_iterator_unlock. cbn. by destruct (hi_bucket hi). }
      rewrite Hfr. destruct B1. split_and!; try done. rewrite bt_buckets0. by rewrite <- app_assoc.
    + assert (Heq : hash_sweep_loop (S fuel) del h hi seen = hash_sweep_loop (S fuel) del h1 hi1 seen).
      { pose proof B1 as []. cbn [hash_sweep_loop]. unfold hash_iterator_next.
        rewrite cu_elem0, bt_elem0. rewrite zlen_app in bt_index0, bt_end0.
        change (zlen [_]) with 1 in bt_index0, bt_end0. rewrite zlen_cons in cu_end0, bt_end0. pose proof (zlen_nonneg todo).
        rewrite (next_bucket_unlock _ h hi h1 hi1) by (done || lia).
        replace (hi_index_end hi1) with (hi_index_end hi) by lia.
        by replace (hi_bucket_index hi1) with (hi_bucket_index hi) by lia. }
      rewrite Heq. destruct (PB _ _ _ _ _ seen B1 Hu2) as (h' & hi3 & -> & Hb & Hcn & Hs); [cbn in *; lia|].
      exists h', hi3. split_and!; [done| |done|by eapply same_shape_trans].
      rewrite Hb. by rewrite <- !app_assoc.
Qed.

Lemma sweep_all fuel : sweep_between fuel /\ sweep_cursor fuel.
Proof.
  induction fuel as [|fuel [_ IH]].
  - split; repeat intro; lia.
  - pose proof (sweep_between_step fuel IH) as PB. split; [done|by apply sweep_cursor_step].
Qed.


(** A sweep over a range of buckets. *)
Lemma hash_sweep_buckets h s e : hash_wf h -> 0 <= s <= e ->
  s <= h_n_buckets h ->
  exists h' mid, hash_sweep del h s e = Some (h', concat mid) /\
    h_buckets h = take (Z.to_nat s) (h_buckets h) ++ mid ++ drop (Z.to_nat (Z.min e (h_n_buckets h))) (h_buckets h) /\
    h_buckets h' = take (Z.to_nat s) (h_buckets h) ++ map kept mid
      ++ drop (Z.to_nat (Z.min e (h_n_buckets h))) (h_buckets h) /\
    counted h' /\ same_shape h h'.
Proof.
  intros W Hse Hs. pose proof W as []. unfold hash_sweep, hash_iterator_init_range.
  assert (Hmin : (if h_n_buckets h <? e then h_n_buckets h else e) = Z.min e (h_n_buckets h)).
  { destruct (Z.ltb_spec (h_n_buckets h) e); lia. }
  rewrite Hmin. set (e' := Z.min e (h_n_buckets h)).
  destruct (Z.leb_spec 0 s), (Z.leb_spec s e'); try lia. cbn [andb mbind option_bind].
  set (front := take (Z.to_nat s) (h_buckets h)). set (post := drop (Z.to_nat e') (h_buckets h)).
  set (mid := take (Z.to_nat (e' - s)) (drop (Z.to_nat s) (h_buckets h))).
  assert (Hsplit : h_buckets h = front ++ mid ++ post).
  { unfold front, mid, post. rewrite <- (take_drop (Z.to_nat s) (h_buckets h)) at 1. f_equal.
    rewrite <- (take_drop (Z.to_nat (e' - s)) (drop (Z.to_nat s) (h_buckets h))) at 1. f_equal.
    rewrite drop_drop. f_equal. lia. }
  assert (Hfl : zlen front = s) by (unfold front, zlen in *; rewrite length_take; lia).
  assert (Hml : zlen mid = e' - s) by (unfold mid, zlen in *; rewrite length_take, length_drop; lia).
  destruct (sweep_all (S (length (concat (h_buckets h))))) as [PB _].
  destruct (PB front mid post h (mkhi (s - 1) None None None false s e') []) as (h' & hi' & -> & Hb & Hc & Hsh).
  - split; cbn; try done; try lia.
  - apply Forall_forall. intros b Hb. apply Forall_forall. intros he Hhe.
    destruct (elems_placed h he W) as (k & Hk & _).
    { unfold elems. rewrite Hsplit, concat_app, concat_app. apply elem_of_app. right. apply elem_of_app. left.
      apply list_elem_of_In, in_concat. exists b. by rewrite <- !list_elem_of_In. }
    unfold he_marked. by rewrite Hk.
  - rewrite Hsplit, !concat_app, !length_app. lia.
  - cbn [mbind option_bind app]. exists (hash_iterator_free h' hi'), mid. by split_and!.
Qed.

Lemma concat_kept (bs : list (list (hash_element K V))) : concat (map kept bs) = kept (concat bs).
Proof. induction bs as [|b bs IH]; [done|]. cbn. rewrite IH. unfold kept. by rewrite filter_app. Qed.

Lemma uniq_sublist l1 l2 : l1 ⊆+ l2 -> uniq l2 -> uniq l1.
Proof.
  intros [k Hk]%submseteq_Permutation U e l' Hl.
  assert (F : Forall (fun e' => ~ same_key e e') (l' ++ k)) by (apply U; by rewrite Hk, Hl).
  by apply Forall_app in F as [? _].
Qed.

Lemma kept_sublist l : kept l ⊆+ l.
Proof. apply sublist_submseteq, sublist_filter. Qed.

(** The swept table is well formed and holds the rest. *)
Lemma sweep_wf h h' front mid post : hash_wf h -> h_buckets h = front ++ mid ++ post ->
  h_buckets h' = front ++ map kept mid ++ post -> counted h' -> same_shape h h' -> hash_wf h'.
Proof.
  intros W Hb Hb' Hc (S1 & S2 & S3). pose proof W as [].
  assert (Hlook : forall i b', h_buckets h' !! i = Some b' -> exists b, h_buckets h !! i = Some b /\ (b' = b \/ b' = kept b)).
  { intros i b'. rewrite Hb, Hb'. intros [Hi|[Hi1 Hi2]]%lookup_app_Some; [exists b'; split; [by apply lookup_app_l_Some|by left]|].
    apply lookup_app_Some in Hi2 as [Hi2|[Hi3 Hi4]].
    - apply list_lookup_fmap_Some in Hi2 as (b & -> & Hi2). exists b. split; [|by right].
      rewrite lookup_app_r by done. by apply lookup_app_l_Some.
    - rewrite length_map in Hi3, Hi4. exists b'. split; [|by left]. rewrite lookup_app_r, lookup_app_r by done. done. }
  split.
  - by rewrite S1.
  - by rewrite S1, S2.
  - rewrite S1, <- hw_len0, Hb, Hb'. unfold zlen. by rewrite !length_app, length_map.
  - intros i b' (b & Hi & Hbb)%Hlook. pose proof (hw_placed0 i b Hi) as HP.
    assert (HP' : Forall (placed h i) b') by (destruct Hbb as [->| ->]; [done|]; rewrite Forall_forall in HP;
      apply Forall_forall; intros he [_ Hin]%list_elem_of_filter; auto).
    eapply Forall_impl; [exact HP'|]. intros he (k & ? & ? & ?). exists k. unfold bucket_index. rewrite S2, S3. done.
  - eapply uniq_sublist; [|exact hw_uniq0]. unfold elems. rewrite Hb, Hb', !concat_app, concat_kept.
    apply submseteq_app; [done|]. apply submseteq_app; [apply kept_sublist|done].
  - done.
Qed.
End Sweep.
End HashProofs.

(** ** Properties *)

Section Properties.
Context {K V : Type} {HK : HashKey K} {EqV : EqDecision V}.

Inductive hash_op :=
| HLookup (key : K)
| HAdd (key : K) (value : V) (replace : bool)
| HRemove (key : K)
| HRemoveByValue (value : V)
| HCount.
Inductive hash_out := OVal (v : option V) | OBool (b : bool) | OUnit | ONum (n : Z).

Definition hash_exec (h : hash K V) (op : hash_op) : option (hash_out * hash K V) :=
  match op with
  | HLookup key => let '(v, h) := hash_lookup h key in Some (OVal v, h)
  | HAdd key v replace => let '(b, h) := hash_add h key v replace in Some (OBool b, h)
  | HRemove key => let '(b, h) := hash_remove h key in Some (OBool b, h)
  | HRemoveByValue v => h ← hash_remove_by_value h v; Some (OUnit, h)
  | HCount => Some (ONum (hash_n_elements h), h)
  end.

(** The specification: an association list without order. *)
Definition alist_exec (al : list (K * V)) (op : hash_op) : hash_out * list (K * V) :=
  match op with
  | HLookup key => (OVal (alist_get key al), al)
  | HAdd key v replace => let '(b, al) := alist_add key v replace al in (OBool b, al)
  | HRemove key => let '(b, al) := alist_remove key al in (OBool b, al)
  | HRemoveByValue v => (OUnit, filter (fun p => p.2 <> v) al)
  | HCount => (ONum (zlen al), al)
  end.

Fixpoint hash_run (h : hash K V) (ops : list hash_op) : option (list hash_out * hash K V) :=
  match ops with
  | [] => Some ([], h)
  | op :: ops' =>
      '(o, h) ← hash_exec h op; '(os, h) ← hash_run h ops'; Some (o :: os, h)
  end.
Fixpoint alist_run (al : list (K * V)) (ops : list hash_op) : list hash_out * list (K * V) :=
  match ops with
  | [] => ([], al)
  | op :: ops' => let '(o, al) := alist_exec al op in let '(os, al) := alist_run al ops' in (o :: os, al)
  end.

Lemma all_placed (l : list (hash_element K V)) h : hash_wf h -> (forall he, he ∈ l -> he ∈ elems h) ->
  Forall (fun he => is_Some (he_key he)) l.
Proof. intros W H. apply Forall_forall. intros he Hin%H. destruct (elems_placed h he W Hin) as (k & -> & _). eauto. Qed.

Lemma pairs_length (l : list (hash_element K V)) : Forall (fun he => is_Some (he_key he)) l -> length (pairs l) = length l.
Proof. induction 1 as [|he l [k Hk] _ IH]; [done|]. rewrite (pairs_cons _ _ _ Hk). cbn. by rewrite IH. Qed.

Lemma pairs_filter (P : K * V -> Prop) `{!forall p, Decision (P p)} (del : hash_element K V -> bool) l :
  Forall (fun he => is_Some (he_key he)) l ->
  (forall he k, he ∈ l -> he_key he = Some k -> del he = false <-> P (k, he_value he)) ->
  pairs (kept del l) = filter P (pairs l).
Proof.
  intros F. induction F as [|he l [k Hk] _ IH]; intros HP; [done|]. rewrite (pairs_cons _ _ _ Hk).
  assert (IH' : pairs (kept del l) = filter P (pairs l)) by (apply IH; intros; apply HP; [by right|done]).
  specialize (HP he k (list_elem_of_here _ _) Hk). unfold kept in *. destruct (del he) eqn:D.
  - rewrite filter_cons_False by congruence. rewrite filter_cons_False; [done|]. by intros Hx%HP.
  - rewrite filter_cons_True by done. rewrite (pairs_cons _ _ _ Hk).
    rewrite filter_cons_True by (by apply HP). by rewrite IH'.
Qed.

(** A sweep hands out elements that have their key. *)
Lemma hash_sweep_keys (del : hash_element K V -> bool) h s e h' seen : hash_wf h -> 0 <= s <= e -> s <= h_n_buckets h ->
  hash_sweep del h s e = Some (h', seen) -> Forall (fun he => is_Some (he_key he)) seen.
Proof.
  intros W Hse Hs Hsw. destruct (hash_sweep_buckets del h s e W Hse Hs) as (h1 & mid & Hsw' & Hb & _).
  rewrite Hsw in Hsw'. injection Hsw' as -> ->.
  apply (all_placed _ h W). intros he Hin. unfold elems. rewrite Hb, !concat_app, !elem_of_app. tauto.
Qed.

(** Sweeping represents filtering; the elements seen are those of the range. *)
Lemma hash_sweep_represents (del : hash_element K V -> bool) (P : K * V -> Prop) `{!forall p, Decision (P p)} h al s e :
  represents h al -> 0 <= s <= e -> s <= h_n_buckets h ->
  (forall he k, he_key he = Some k -> del he = false <-> P (k, he_value he)) ->
  exists h' seen outside, hash_sweep del h s e = Some (h', seen) /\
    al ≡ₚ pairs seen ++ outside /\ represents h' (filter P (pairs seen) ++ outside) /\
    (s = 0 -> h_n_buckets h <= e -> outside = []).
Proof.
  intros [W Hal] Hse Hs HP.
  destruct (hash_sweep_buckets del h s e W Hse Hs) as (h' & mid & Hsw & Hb & Hb' & Hc & Hsh).
  set (front := take _ _) in *. set (post := drop _ _) in *.
  assert (HF : Forall (fun he => is_Some (he_key he)) (concat mid)) by (by eapply hash_sweep_keys).
  exists h', (concat mid), (pairs (concat front) ++ pairs (concat post)). split_and!; [done| | |].
  - rewrite <- Hal. unfold elems. rewrite Hb, !concat_app. unfold pairs. rewrite !omap_app.
    rewrite !(assoc_L (++)). f_equiv. apply Permutation_app_comm.
  - split; [by eapply sweep_wf|]. unfold elems. rewrite Hb', !concat_app, concat_kept. unfold pairs at 1.
    rewrite !omap_app. fold (@pairs K V). fold (pairs (concat front)). fold (pairs (kept del (concat mid))). fold (pairs (concat post)).
    rewrite (pairs_filter P) by (done || (intros; by apply HP)).
    rewrite !(assoc_L (++)). f_equiv. apply Permutation_app_comm.
  - intros -> He. unfold front, post. pose proof (hw_len _ W) as Hl. unfold zlen in Hl.
    rewrite drop_ge by lia. done.
Qed.

Lemma hash_exec_refines h al op : represents h al ->
  exists h', hash_exec h op = Some ((alist_exec al op).1, h') /\ represents h' (alist_exec al op).2.
Proof.
  intros R. pose proof R as [W Hp]. destruct op as [key|key v r|key|v|]; cbn [hash_exec alist_exec].
  - destruct (hash_lookup_refines h al key R) as [H1 H2]. destruct (hash_lookup h key). cbn in *. subst. eauto.
  - destruct (hash_add_refines h al key v r R) as [H1 H2].
    destruct (hash_add h key v r), (alist_add key v r al). cbn in *. subst. eauto.
  - destruct (hash_remove_refines h al key R) as [H1 H2].
    destruct (hash_remove h key), (alist_remove key al). cbn in *. subst. eauto.
  - pose proof (hw_pow _ W) as (e & He & Hn). pose proof (Z.pow_pos_nonneg 2 e).
    destruct (hash_sweep_represents (fun he => bool_decide (he_value he = v)) (fun p => p.2 <> v) h al 0 (h_n_buckets h) R)
      as (h' & seen & out & Hs & Ha & [W' R'] & Ho); [lia|lia| |].
    { intros he k _. cbn. apply bool_decide_eq_false. }
    rewrite (Ho eq_refl (Z.le_refl _)), app_nil_r in Ha, R'. unfold hash_remove_by_value. rewrite Hs.
    cbn. exists h'. split; [done|]. split; [done|]. by rewrite R', Ha.
  - exists h. split; [|done]. cbn. do 2 f_equal. unfold hash_n_elements. rewrite (hw_count _ W).
    unfold zlen. rewrite <- (pairs_length (elems h)) by (by apply (all_placed _ h W)). by rewrite Hp.
Qed.

(** C30. The hash table is a map: over any sequence of lookups, additions (replacing or
    not), removals by key or by value and counts on a fresh table, whatever the
    hash function and the moves to the front of the buckets, the answers are those
    of an association list, and the size is its length. *)
Theorem hash_refines_map n_buckets iv ops : 0 < n_buckets <= 2 ^ 30 ->
  exists h0 h, hash_init n_buckets iv = Some h0 /\
    hash_run h0 ops = Some ((alist_run [] ops).1, h) /\
    pairs (elems h) ≡ₚ (alist_run [] ops).2 /\ hash_n_elements h = zlen (alist_run [] ops).2.
Proof.
  intros Hn. destruct (hash_init_represents (V := V) n_buckets iv Hn) as (h0 & Hi & R0 & _).
  assert (G : forall al h, represents h al -> exists h', hash_run h ops = Some ((alist_run al ops).1, h') /\
    represents h' (alist_run al ops).2).
  { clear. induction ops as [|op ops IH]; intros al h R; cbn; [eauto|].
    destruct (hash_exec_refines h al op R) as (h1 & -> & R1). destruct (alist_exec al op) as [o al1].
    cbn in *. destruct (IH al1 h1 R1) as (h2 & -> & R2). destruct (alist_run al1 ops) as [os al2]. cbn in *. eauto. }
  destruct (G [] h0 R0) as (h & Hr & R). exists h0, h. split_and!; try done; [apply R|].
  destruct (hash_exec_refines h _ HCount R) as (h' & He & _). cbn in He. injection He as He _. done.
Qed.

(** A sweep with the iterator hands out every element of the range of buckets
    exactly once, deferred deletions and all, and afterwards the table holds the
    elements outside the range and those of the range that were not deleted; a
    range that covers the table leaves nothing outside. *)
Theorem hash_sweep_exact (del : K * V -> bool) h al s e :
  represents h al -> 0 <= s <= e -> s <= h_n_buckets h ->
  exists h' seen outside,
    hash_sweep (fun he => match he_key he with Some k => del (k, he_value he) | None => false end) h s e
      = Some (h', seen) /\
    al ≡ₚ pairs seen ++ outside /\
    represents h' (filter (fun p => del p = false) (pairs seen) ++ outside) /\
    (s = 0 -> h_n_buckets h <= e -> outside = []).
Proof.
  intros R Hse Hs.
  apply (hash_sweep_represents (fun he => match he_key he with Some k => del (k, he_value he) | None => false end)
    (fun p => del p = false)); try done.
  by intros he k ->.
Qed.
End Properties.
Arguments hash_op : clear implicits.
Arguments hash_out : clear implicits.

(** ** Byte strings as keys *)

Lemma mix_line_range x y z s : is_u 32 s -> is_u 32 (mix_line x y z s).
Proof. intros. apply lxor_range; [lia|by apply wrap_range|done]. Qed.

Lemma mix_u32 abc : is_u 32 (mix abc).2.
Proof.
  destruct abc as [[a b] c]. unfold mix. cbn [snd].
  apply mix_line_range, shiftr_range; [lia|]. by apply mix_line_range, wrap_range.
Qed.

Lemma hash_func_range k iv : is_u 32 (hash_func k iv).
Proof.
  unfold hash_func. destruct (hash_blocks _ _ _) as [k' [[a b] c]].
  pose proof (mix_u32 (hash_tail k' (a, b, u32 (c + zlen k)))) as H. by destruct (mix _) as [[? ?] c'].
Qed.

Definition bytes_compare (a b : list Z) : bool := bool_decide (a = b).

#[export, refine] Instance bytes_key : HashKey (list Z) :=
  {| hash_function := hash_func; compare_function := bytes_compare |}.
Proof.
  - intros. by apply bool_decide_eq_true.
  - unfold bytes_compare. intros a b. rewrite !bool_decide_eq_true. done.
  - unfold bytes_compare. intros a b c. rewrite !bool_decide_eq_true. congruence.
  - apply hash_func_range.
  - unfold bytes_compare. intros a b iv. rewrite bool_decide_eq_true. by intros ->.
Defined.

Lemma hash_refines_map_witness :
  let ops := [HAdd [1; 2] 10 false; HAdd [3] 20 false; HAdd [1; 2] 30 true; HLookup [1; 2]; HRemove [3];
              HLookup [3]; HRemoveByValue 30; HCount] in
  0 < 3 <= 2 ^ 30 /\
  exists h0 h : hash (list Z) Z, hash_init 3 77 = Some h0 /\
    hash_run h0 ops = Some ((alist_run [] ops).1, h) /\
    pairs (elems h) ≡ₚ (alist_run [] ops).2 /\ hash_n_elements h = zlen (alist_run [] ops).2.
Proof. split; [lia|]. apply (hash_refines_map 3 77). lia. Defined.

Lemma hash_sweep_exact_witness :
  exists (h : hash (list Z) Z) al, represents h al /\ al = [([5], 20); ([1; 2], 10)] /\
  exists h' seen outside,
    hash_sweep (fun he => match he_key he with Some k => 15 <? he_value he | None => false end) h 0 4 = Some (h', seen) /\
    al ≡ₚ pairs seen ++ outside /\
    represents h' (filter (fun p : list Z * Z => (15 <? p.2) = false) (pairs seen) ++ outside) /\
    (0 = 0 -> h_n_buckets h <= 4 -> outside = []).
Proof.
  destruct (hash_init_represents (K := list Z) (V := Z) 4 77 ltac:(lia)) as (h0 & Hi & R0 & _).
  destruct (hash_exec_refines h0 [] (HAdd [1; 2] 10 false) R0) as (h1 & E1 & R1).
  destruct (hash_exec_refines h1 _ (HAdd [5] 20 false) R1) as (h2 & E2 & R2).
  exists h2, [([5], 20); ([1; 2], 10)]. split; [exact R2|]. split; [done|].
  apply (hash_sweep_exact (fun p => 15 <? p.2) h2 [([5], 20); ([1; 2], 10)] 0 4 R2); [lia|].
  destruct R2 as [[Hp _ _ _ _ _] _]. destruct Hp as (e & ? & ->). lia.
Defined.
