(* ===== verification/Mroute.v ===== *)
(** Virtual addresses: [src/openvpn/mroute.c] and [mroute.h].  Extraction of
    addresses from packets and socket addresses, masking of host bits, comparison
    and hashing, and the table of prefix lengths in use. *)
From S2P Require Import Prelude Integer Buffer HashList.
From Stdlib Require Import Sorting.Sorted.

(** ** Data *)

Definition MR_MAX_ADDR_LEN : Z := 20.
Definition MR_ADDR_NONE : Z := 0.
Definition MR_ADDR_ETHER : Z := 1.
Definition MR_ADDR_IPV4 : Z := 2.
Definition MR_ADDR_IPV6 : Z := 3.
Definition MR_ADDR_MASK : Z := 3.
Definition MR_WITH_PORT : Z := 4.
Definition MR_WITH_NETBITS : Z := 8.
Definition MR_ARP : Z := 16.
Definition MR_HELPER_NET_LEN : Z := 129.
Definition IP_MCAST_SUBNET_MASK : Z := Z.shiftl 240 24.
Definition IP_MCAST_NETWORK : Z := Z.shiftl 224 24.
Definition MROUTE_EXTRACT_SUCCEEDED : Z := Z.shiftl 1 0.
Definition MROUTE_EXTRACT_BCAST : Z := Z.shiftl 1 1.
Definition MROUTE_EXTRACT_MCAST : Z := Z.shiftl 1 2.
Definition MROUTE_EXTRACT_IGMP : Z := Z.shiftl 1 3.
Definition MROUTE_SEC_SHIFT : Z := 4.
Definition OPENVPN_ETH_ALEN : Z := 6.
Definition OPENVPN_ETH_P_IPV4 : Z := 0x0800.
Definition OPENVPN_ETH_P_ARP : Z := 0x0806.
Definition OPENVPN_ETH_P_8021Q : Z := 0x8100.
Definition OPENVPN_IPPROTO_IGMP : Z := 2.
Definition IPV4_NETMASK_HOST : Z := 0xffffffff.
Definition OPENVPN_IPH_GET_VER (v : Z) : Z := Z.land (Z.shiftr v 4) 0x0F.

(** [raw] is the union: its 20 bytes hold the MAC address and VLAN id, the IPv4
    address and port or the IPv6 address and port, at the offsets of the members. *)
Record mroute_addr := mkmr {
  ma_len : Z;
  ma_type : Z;
  ma_netbits : Z;
  ma_raw : list Z
}.
#[export] Instance eta_mr : EtaOf mroute_addr := fun r =>
  mkmr (ma_len r) (ma_type r) (ma_netbits r) (ma_raw r).
#[export] Instance mroute_addr_eq_dec : EqDecision mroute_addr.
Proof. solve_decision. Defined.

Definition mroute_addr_init : mroute_addr := mkmr 0 0 0 (replicate (Z.to_nat MR_MAX_ADDR_LEN) 0).

(** The member of the union at [off]. *)
Definition raw_put (raw : list Z) (off : Z) (bs : list Z) : list Z := mem_write raw off bs.
Definition v4_addr (a : mroute_addr) : list Z := mem_read (ma_raw a) 0 4.
Definition v6_addr (a : mroute_addr) : list Z := mem_read (ma_raw a) 0 16.

(** ** Extraction *)

Definition is_mac_mcast_addr (mac : list Z) : bool := negb (Z.land (zget 0 mac 0) 1 =? 0).
Definition is_mac_mcast_maddr (addr : mroute_addr) : bool :=
  (Z.land (ma_type addr) MR_ADDR_MASK =? MR_ADDR_ETHER) && is_mac_mcast_addr (ma_raw addr).

Definition mroute_learnable_address (addr : mroute_addr) : bool :=
  let bs := take (Z.to_nat (ma_len addr)) (ma_raw addr) in
  let all_zeros := forallb (fun b => b =? 0) bs in
  let all_ones := forallb (fun b => b =? 0xFF) bs in
  if all_zeros && negb (negb (Z.land (ma_type addr) MR_WITH_NETBITS =? 0) && (ma_netbits addr <? 8))
  then false
  else if all_ones then false
  else negb (is_mac_mcast_maddr addr).

(** A [NULL] destination is [None]. *)
Definition mroute_get_in_addr_t (ma : option mroute_addr) (src : list Z) (mask : Z) : option mroute_addr :=
  (fun m => m <| ma_type := Z.lor MR_ADDR_IPV4 mask |> <| ma_netbits := 0 |> <| ma_len := 4 |>
              <| ma_raw := raw_put (ma_raw m) 0 src |>) <$> ma.
Definition mroute_get_in6_addr (ma : option mroute_addr) (src : list Z) (mask : Z) : option mroute_addr :=
  (fun m => m <| ma_type := Z.lor MR_ADDR_IPV6 mask |> <| ma_netbits := 0 |> <| ma_len := 16 |>
              <| ma_raw := raw_put (ma_raw m) 0 src |>) <$> ma.

Definition mroute_is_mcast (addr : list Z) : bool :=
  Z.land (be_val addr) IP_MCAST_SUBNET_MASK =? IP_MCAST_NETWORK.
Definition mroute_is_mcast_ipv6 (addr : list Z) : bool := zget 0 addr 0 =? 0xff.

Definition orif (b : bool) (flag ret : Z) : Z := if b then Z.lor ret flag else ret.

(** The fields of the packed headers by their offsets in the packet. *)
Definition mroute_extract_addr_arp (src dest : option mroute_addr) (buf : buffer)
  : Z * option mroute_addr * option mroute_addr :=
  let p := buf_contents buf in
  if 28 <=? b_len buf then
    if (be_val (mem_read p 0 2) =? 0x0001) && (be_val (mem_read p 2 2) =? 0x0800)
       && (zget 0 p 4 =? 0x06) && (zget 0 p 5 =? 0x04)
    then
      let ret := orif (mroute_is_mcast (mem_read p 24 4)) MROUTE_EXTRACT_MCAST 0 in
      (Z.lor ret MROUTE_EXTRACT_SUCCEEDED,
       mroute_get_in_addr_t src (mem_read p 14 4) MR_ARP, mroute_get_in_addr_t dest (mem_read p 24 4) MR_ARP)
    else (0, src, dest)
  else (0, src, dest).

Definition mroute_extract_addr_ip (src dest : option mroute_addr) (buf : buffer)
  : Z * option mroute_addr * option mroute_addr :=
  let p := buf_contents buf in
  if 1 <=? b_len buf then
    let ver := OPENVPN_IPH_GET_VER (zget 0 p 0) in
    if ver =? 4 then
      if 20 <=? b_len buf then
        let ret := orif (mroute_is_mcast (mem_read p 16 4)) MROUTE_EXTRACT_MCAST 0 in
        let ret := orif (zget 0 p 9 =? OPENVPN_IPPROTO_IGMP) MROUTE_EXTRACT_IGMP ret in
        (Z.lor ret MROUTE_EXTRACT_SUCCEEDED,
         mroute_get_in_addr_t src (mem_read p 12 4) 0, mroute_get_in_addr_t dest (mem_read p 16 4) 0)
      else (0, src, dest)
    else if ver =? 6 then
      if 40 <=? b_len buf then
        let ret := orif (mroute_is_mcast_ipv6 (mem_read p 24 16)) MROUTE_EXTRACT_MCAST 0 in
        (Z.lor ret MROUTE_EXTRACT_SUCCEEDED,
         mroute_get_in6_addr src (mem_read p 8 16) 0, mroute_get_in6_addr dest (mem_read p 24 16) 0)
      else (0, src, dest)
    else (0, src, dest)
  else (0, src, dest).

(** The VLAN id is stored in host order, little end first. *)
Definition mroute_copy_ether_to_addr (m : mroute_addr) (ether_addr : list Z) (vid : Z) : mroute_addr :=
  m <| ma_type := MR_ADDR_ETHER |> <| ma_netbits := 0 |> <| ma_len := OPENVPN_ETH_ALEN + 2 |>
    <| ma_raw := raw_put (raw_put (ma_raw m) 0 ether_addr) OPENVPN_ETH_ALEN [u8 vid; u8 (Z.shiftr vid 8)] |>.

Record ether_out := mkeo {
  eo_ret : Z;
  eo_src : option mroute_addr; eo_dest : option mroute_addr;
  eo_esrc : option mroute_addr; eo_edest : option mroute_addr
}.

Definition mroute_extract_addr_ether (src dest esrc edest : option mroute_addr) (vid : Z) (buf : buffer)
  : ether_out :=
  let p := buf_contents buf in
  if 14 <=? b_len buf then
    let src := (fun m => mroute_copy_ether_to_addr m (mem_read p 6 6) vid) <$> src in
    let ret := match dest with
               | Some _ => orif (is_mac_mcast_addr (mem_read p 0 6)) MROUTE_EXTRACT_BCAST 0
               | None => 0
               end in
    let dest := (fun m => mroute_copy_ether_to_addr m (mem_read p 0 6) vid) <$> dest in
    let ret := Z.lor ret MROUTE_EXTRACT_SUCCEEDED in
    if bool_decide (is_Some esrc) || bool_decide (is_Some edest) then
      let '(ok, b) := buf_advance buf 14 in
      if negb ok then mkeo 0 src dest esrc edest
      else
        let proto := be_val (mem_read p 12 2) in
        let '(ok, b, proto) :=
          if proto =? OPENVPN_ETH_P_8021Q
          then let '(ok, b) := buf_advance b 4 in (ok, b, be_val (mem_read p 16 2))
          else (true, b, proto) in
        if negb ok then mkeo 0 src dest esrc edest
        else if proto =? OPENVPN_ETH_P_IPV4 then
          let '(r, esrc, edest) := mroute_extract_addr_ip esrc edest b in
          mkeo (Z.lor ret (Z.shiftl r MROUTE_SEC_SHIFT)) src dest esrc edest
        else if proto =? OPENVPN_ETH_P_ARP then
          let '(r, esrc, edest) := mroute_extract_addr_arp esrc edest b in
          mkeo (Z.lor ret (Z.shiftl r MROUTE_SEC_SHIFT)) src dest esrc edest
        else mkeo ret src dest esrc edest
    else mkeo ret src dest esrc edest
  else mkeo 0 src dest esrc edest.

Definition DEV_TYPE_TUN : Z := 2.
Definition DEV_TYPE_TAP : Z := 3.
Definition mroute_extract_addr_from_packet (src dest esrc edest : option mroute_addr) (vid : Z) (buf : buffer)
    (tunnel_type : Z) : ether_out :=
  if tunnel_type =? DEV_TYPE_TUN then
    let '(ret, src, dest) := mroute_extract_addr_ip src dest buf in mkeo ret src dest esrc edest
  else if tunnel_type =? DEV_TYPE_TAP then mroute_extract_addr_ether src dest esrc edest vid buf
  else mkeo 0 src dest esrc edest.

(** The socket addresses the switch distinguishes; ports and addresses in
    network order. *)
Inductive openvpn_sockaddr :=
| AF_INET (addr port : list Z)
| AF_INET6 (addr port : list Z)
| AF_OTHER.

Definition mroute_extract_openvpn_sockaddr (a : mroute_addr) (osaddr : openvpn_sockaddr) (use_port : bool)
  : bool * mroute_addr :=
  match osaddr with
  | AF_INET addr port =>
      (true,
       if use_port
       then a <| ma_type := Z.lor MR_ADDR_IPV4 MR_WITH_PORT |> <| ma_netbits := 0 |> <| ma_len := 6 |>
              <| ma_raw := raw_put (raw_put (ma_raw a) 0 addr) 4 port |>
       else a <| ma_type := MR_ADDR_IPV4 |> <| ma_netbits := 0 |> <| ma_len := 4 |>
              <| ma_raw := raw_put (ma_raw a) 0 addr |>)
  | AF_INET6 addr port =>
      (true,
       if use_port
       then a <| ma_type := Z.lor MR_ADDR_IPV6 MR_WITH_PORT |> <| ma_netbits := 0 |> <| ma_len := 18 |>
              <| ma_raw := raw_put (raw_put (ma_raw a) 0 addr) 16 port |>
       else a <| ma_type := MR_ADDR_IPV6 |> <| ma_netbits := 0 |> <| ma_len := 16 |>
              <| ma_raw := raw_put (ma_raw a) 0 addr |>)
  | AF_OTHER => (false, a)
  end.

(** ** Masking *)

Definition netbits_to_netmask (netbits : Z) : Z :=
  if (0 <? netbits) && (netbits <=? 32) then u32 (Z.shiftl IPV4_NETMASK_HOST (32 - netbits)) else 0.

(** [while (byte >= 0 && bits_to_clear > 0)] over the 16 bytes. *)
Fixpoint mask_loop (fuel : nat) (raw : list Z) (byte bits_to_clear : Z) : list Z * Z :=
  match fuel with
  | O => (raw, bits_to_clear)
  | S fuel' =>
      if (0 <=? byte) && (0 <? bits_to_clear) then
        if 8 <=? bits_to_clear
        then mask_loop fuel' (zput raw byte 0) (byte - 1) (bits_to_clear - 8)
        else mask_loop fuel'
               (zput raw byte (u8 (Z.land (zget 0 raw byte) (u32 (Z.shiftl IPV4_NETMASK_HOST bits_to_clear)))))
               (byte - 1) 0
      else (raw, bits_to_clear)
  end.

(** [None] is a failed assertion. *)
Definition mroute_addr_mask_host_bits (ma : mroute_addr) : option mroute_addr :=
  if Z.land (ma_type ma) MR_ADDR_MASK =? MR_ADDR_IPV4 then
    let addr := Z.land (be_val (v4_addr ma)) (netbits_to_netmask (ma_netbits ma)) in
    Some (ma <| ma_raw := raw_put (ma_raw ma) 0 (be32 addr) |>)
  else if Z.land (ma_type ma) MR_ADDR_MASK =? MR_ADDR_IPV6 then
    let '(raw, bits_to_clear) := mask_loop 17 (ma_raw ma) 15 (128 - ma_netbits ma) in
    if bits_to_clear =? 0 then Some (ma <| ma_raw := raw |>) else None
  else None.

(** ** Comparing and hashing *)

Definition mroute_addr_equal (a1 a2 : mroute_addr) : bool :=
  if negb (ma_type a1 =? ma_type a2) then false
  else if negb (ma_netbits a1 =? ma_netbits a2) then false
  else if negb (ma_len a1 =? ma_len a2) then false
  else bytes_eqb (take (Z.to_nat (ma_len a1)) (ma_raw a1)) (take (Z.to_nat (ma_len a1)) (ma_raw a2)).

(** The bytes from [type] on: type, netbits and the address itself. *)
Definition mroute_addr_hash_bytes (a : mroute_addr) : list Z :=
  ma_type a :: ma_netbits a :: take (Z.to_nat (ma_len a)) (ma_raw a).
Definition mroute_addr_hash_function (key : mroute_addr) (iv : Z) : Z :=
  hash_func (mroute_addr_hash_bytes key) iv.
Definition mroute_addr_compare_function (key1 key2 : mroute_addr) : bool := mroute_addr_equal key1 key2.

Definition in_addr_t_from_mroute_addr (addr : mroute_addr) : Z :=
  if (Z.land (ma_type addr) MR_ADDR_MASK =? MR_ADDR_IPV4) && (ma_netbits addr =? 0) && (ma_len addr =? 4)
  then be_val (v4_addr addr) else 0.
Definition mroute_extract_in_addr_t (dest : mroute_addr) (src : Z) : mroute_addr :=
  dest <| ma_type := MR_ADDR_IPV4 |> <| ma_netbits := 0 |> <| ma_len := 4 |>
       <| ma_raw := raw_put (ma_raw dest) 0 (be32 src) |>.
Definition mroute_addr_reset (ma : mroute_addr) : mroute_addr :=
  ma <| ma_len := 0 |> <| ma_type := MR_ADDR_NONE |>.

(** ** The prefix lengths in use *)

Record mroute_helper := mkmh {
  mh_cache_generation : Z;
  mh_ageable_ttl_secs : Z;
  mh_net_len : list Z;            (* the first n_net_len entries *)
  mh_net_len_refcount : list Z
}.
#[export] Instance eta_mh : EtaOf mroute_helper := fun r =>
  mkmh (mh_cache_generation r) (mh_ageable_ttl_secs r) (mh_net_len r) (mh_net_len_refcount r).

Definition mroute_helper_init (ageable_ttl_secs : Z) : mroute_helper :=
  mkmh 0 ageable_ttl_secs [] (replicate (Z.to_nat MR_HELPER_NET_LEN) 0).

(** [for (i = MR_HELPER_NET_LEN - 1; i >= 0; --i)] *)
Fixpoint regenerate_loop (refcount : list Z) (n : nat) : list Z :=
  match n with
  | O => []
  | S i => if 0 <? zget 0 refcount (Z.of_nat i)
           then Z.of_nat i :: regenerate_loop refcount i else regenerate_loop refcount i
  end.
Definition mroute_helper_regenerate (mh : mroute_helper) : mroute_helper :=
  mh <| mh_net_len := regenerate_loop (mh_net_len_refcount mh) (Z.to_nat MR_HELPER_NET_LEN) |>.

Definition mroute_helper_add_iroute46 (mh : mroute_helper) (netbits : Z) : option mroute_helper :=
  if 0 <=? netbits then
    if negb (netbits <? MR_HELPER_NET_LEN) then None
    else
      let n := zget 0 (mh_net_len_refcount mh) netbits + 1 in
      let mh := mh <| mh_cache_generation := u32 (mh_cache_generation mh + 1) |>
                   <| mh_net_len_refcount := zput (mh_net_len_refcount mh) netbits n |> in
      Some (if n =? 1 then mroute_helper_regenerate mh else mh)
  else Some mh.

Definition mroute_helper_del_iroute46 (mh : mroute_helper) (netbits : Z) : option mroute_helper :=
  if 0 <=? netbits then
    if negb (netbits <? MR_HELPER_NET_LEN) then None
    else
      let n := zget 0 (mh_net_len_refcount mh) netbits - 1 in
      let mh := mh <| mh_cache_generation := u32 (mh_cache_generation mh + 1) |>
                   <| mh_net_len_refcount := zput (mh_net_len_refcount mh) netbits n |> in
      if n <? 0 then None
      else Some (if n =? 0 then mroute_helper_regenerate mh else mh)
  else Some mh.

(** ** Addresses as hash keys *)

Lemma mroute_addr_equal_spec a b : mroute_addr_equal a b = true <->
  ma_type a = ma_type b /\ ma_netbits a = ma_netbits b /\ ma_len a = ma_len b /\
  take (Z.to_nat (ma_len a)) (ma_raw a) = take (Z.to_nat (ma_len b)) (ma_raw b).
Proof.
  unfold mroute_addr_equal, bytes_eqb.
  destruct (Z.eqb_spec (ma_type a) (ma_type b)); cbn [negb];
    [|split; [done|intros (? & ?); congruence]].
  destruct (Z.eqb_spec (ma_netbits a) (ma_netbits b)); cbn [negb]; [|split; [done|intros (? & ? & ?); congruence]].
  destruct (Z.eqb_spec (ma_len a) (ma_len b)) as [Hl|]; cbn [negb]; [|split; [done|intros (? & ? & ? & ?); congruence]].
  rewrite bool_decide_eq_true, Hl. split; [intros ?; by split_and!|intros (? & ? & ? & ?); congruence].
Qed.

(** The table of virtual addresses is keyed by [mroute_addr]. *)
#[export, refine] Instance mroute_key : HashKey mroute_addr :=
  {| hash_function := mroute_addr_hash_function; compare_function := mroute_addr_compare_function |}.
Proof.
  - intros k. by apply mroute_addr_equal_spec.
  - intros a b (? & ? & ? & ?)%mroute_addr_equal_spec. by apply mroute_addr_equal_spec.
  - intros a b c (? & ? & ? & ?)%mroute_addr_equal_spec (? & ? & ? & ?)%mroute_addr_equal_spec.
    apply mroute_addr_equal_spec. split_and!; congruence.
  - intros. apply hash_func_range.
  - intros a b iv (Ht & Hn & _ & Hb)%mroute_addr_equal_spec.
    unfold mroute_addr_hash_function, mroute_addr_hash_bytes. by rewrite Ht, Hn, Hb.
Defined.

(** ** Masking keeps the network prefix *)

(** Clearing the low [k] bits. *)
Definition low_cleared (v k : Z) : Z := v - v mod 2 ^ k.

Lemma low_cleared_div v k : 0 <= k -> low_cleared v k = v / 2 ^ k * 2 ^ k.
Proof. intros. unfold low_cleared. pose proof (Z.div_mod v (2 ^ k)). pose proof (Z.pow_pos_nonneg 2 k). lia. Qed.

Lemma byte_mask x c : is_byte x -> 0 <= c < 8 ->
  u8 (Z.land x (u32 (Z.shiftl IPV4_NETMASK_HOST c))) = low_cleared x c.
Proof.
  intros Hx Hc.
  assert (H : forallb (fun x => forallb (fun c =>
      u8 (Z.land x (u32 (Z.shiftl IPV4_NETMASK_HOST c))) =? low_cleared x c) (seqZ 0 8)) (seqZ 0 256) = true)
    by (vm_compute; reflexivity).
  rewrite forallb_forall in H. specialize (H x). rewrite <- list_elem_of_In, elem_of_seqZ in H.
  unfold is_byte in Hx. specialize (H ltac:(lia)). rewrite forallb_forall in H. specialize (H c).
  rewrite <- list_elem_of_In, elem_of_seqZ in H. specialize (H ltac:(lia)). lia.
Qed.

Lemma low_cleared_step q x c : is_byte x -> 8 <= c -> low_cleared (q * 256 + x) c = low_cleared q (c - 8) * 256.
Proof.
  intros Hx Hc. unfold is_byte in Hx. rewrite !low_cleared_div by lia.
  replace (2 ^ c) with (256 * 2 ^ (c - 8)) by (change 256 with (2 ^ 8); rewrite <- Z.pow_add_r by lia; f_equal; lia).
  rewrite <- Z.div_div by (pose proof (Z.pow_pos_nonneg 2 (c - 8)); lia).
  replace ((q * 256 + x) / 256) with q by (symmetry; zdiv). lia.
Qed.

Lemma low_cleared_byte q x c : is_byte x -> 0 <= c < 8 -> low_cleared (q * 256 + x) c = q * 256 + low_cleared x c.
Proof.
  intros Hx Hc. unfold low_cleared. assert (H : (q * 256 + x) mod 2 ^ c = x mod 2 ^ c).
  { replace (q * 256 + x) with (x + (q * 2 ^ (8 - c)) * 2 ^ c); [apply Z_mod_plus_full|].
    rewrite <- Z.mul_assoc, <- Z.pow_add_r by lia. replace (8 - c + c) with 8 by lia. lia. }
  lia.
Qed.

Lemma mask_loop_spec n : forall fuel raw c, (n < fuel)%nat -> (n <= length raw)%nat ->
  Forall is_byte raw -> 0 <= c <= 8 * Z.of_nat n ->
  exists raw', mask_loop fuel raw (Z.of_nat n - 1) c = (raw', 0) /\
    be_val (take n raw') = low_cleared (be_val (take n raw)) c /\
    drop n raw' = drop n raw /\ length raw' = length raw /\ Forall is_byte raw'.
Proof.
  induction n as [|n IH]; intros fuel raw c Hf Hn Hb Hc; (destruct fuel as [|fuel]; [lia|]); cbn [mask_loop].
  - assert (c = 0) as -> by lia. cbn [Z.of_nat Z.sub Z.leb andb]. exists raw. unfold low_cleared.
    rewrite Z.mod_1_r. split_and!; done || lia.
  - destruct (Z.leb_spec 0 (Z.of_nat (S n) - 1)); [|lia]. cbn [andb].
    destruct (lookup_lt_is_Some_2 raw n ltac:(lia)) as [x Hx].
    assert (Hxb : is_byte x) by (by eapply (Forall_lookup_1 _ _ _ _ Hb)).
    replace (Z.of_nat (S n) - 1) with (Z.of_nat n) by lia.
    assert (Hput : forall y, zput raw (Z.of_nat n) y = <[n := y]> raw).
    { intros y. unfold zput. destruct (Z.ltb_spec (Z.of_nat n) 0); [lia|]. by rewrite Nat2Z.id. }
    rewrite !Hput, (zget_of_lookup 0 _ _ _ Hx).
    assert (Htk : forall y r, r !! n = Some y -> be_val (take (S n) r) = be_val (take n r) * 256 + y).
    { intros y r Hy. rewrite (take_S_r _ _ _ Hy). apply be_val_snoc. }
    rewrite (Htk x raw Hx).
    destruct (Z.ltb_spec 0 c); [destruct (Z.leb_spec 8 c)|].
    + destruct (IH fuel (<[n := 0]> raw) (c - 8)) as (raw' & He & Hv & Hd & Hl & Hby); try lia.
      * rewrite length_insert. lia.
      * by apply Forall_insert.
      * exists raw'. split; [done|]. rewrite take_insert_ge in Hv by lia. rewrite length_insert in Hl.
        assert (Hz0 : raw' !! n = Some 0).
        { rewrite <- (Nat.add_0_r n), <- lookup_drop, Hd, lookup_drop, Nat.add_0_r. apply list_lookup_insert_eq. lia. }
        split_and!; try done.
        -- rewrite (Htk 0 raw' Hz0), Hv, low_cleared_step by done. lia.
        -- assert (Hd' : drop 1 (drop n raw') = drop 1 (drop n (<[n := 0]> raw))) by (by rewrite Hd).
           rewrite !drop_drop in Hd'. replace (n + 1)%nat with (S n) in Hd' by lia.
           by rewrite drop_insert_lt in Hd' by lia.
    + rewrite byte_mask by (done || lia).
      destruct fuel as [|fuel]; [lia|]. cbn [mask_loop]. rewrite andb_false_r.
      exists (<[n := low_cleared x c]> raw). split; [done|].
      assert (Hlc : is_byte (low_cleared x c)) by (rewrite <- (byte_mask x c) by (done || lia); apply wrap_byte).
      rewrite (Htk (low_cleared x c)) by (apply list_lookup_insert_eq; lia).
      rewrite take_insert_ge, low_cleared_byte by (done || lia). split_and!; try done.
      * by rewrite drop_insert_lt by lia.
      * by rewrite length_insert.
      * by apply Forall_insert.
    + assert (c = 0) as -> by lia. exists raw. split_and!; try done.
      rewrite (Htk x raw Hx). unfold low_cleared. rewrite Z.mod_1_r. lia.
Qed.

Lemma netmask_land v n : is_u 32 v -> 0 <= n <= 32 ->
  Z.land v (netbits_to_netmask n) = low_cleared v (32 - n).
Proof.
  intros Hv Hn. rewrite low_cleared_div by lia. unfold netbits_to_netmask.
  destruct (Z.ltb_spec 0 n), (Z.leb_spec n 32); try lia; cbn [andb].
  - rewrite <- Z.shiftr_div_pow2, <- Z.shiftl_mul_pow2 by lia. set (k := 32 - n).
    apply Z.bits_inj'. intros i Hi. rewrite Z.land_spec. unfold wrap.
    destruct (Z.lt_ge_cases i 32).
    + rewrite Z.mod_pow2_bits_low, !Z.shiftl_spec by lia. destruct (Z.lt_ge_cases i k).
      * rewrite (Z.testbit_neg_r _ (i - k)), (Z.testbit_neg_r _ (i - k)) by lia. apply andb_false_r.
      * change IPV4_NETMASK_HOST with (Z.ones 32). rewrite Z.ones_spec_low by lia.
        rewrite Z.shiftr_spec by lia. replace (i - k + k) with i by lia. apply andb_true_r.
    + rewrite (testbit_high 32 v) by done. cbn [andb]. rewrite Z.shiftl_spec by lia.
      rewrite Z.shiftr_spec by lia. replace (i - k + k) with i by lia. symmetry. by apply (testbit_high 32).
  - assert (n = 0) as -> by lia. rewrite Z.land_0_r. rewrite Z.div_small by (apply Hv). lia.
Qed.

(** The width of the address family, as [MR_ADDR_MASK] selects it. *)
Definition addr_width (a : mroute_addr) : option Z :=
  if Z.land (ma_type a) MR_ADDR_MASK =? MR_ADDR_IPV4 then Some 32
  else if Z.land (ma_type a) MR_ADDR_MASK =? MR_ADDR_IPV6 then Some 128 else None.

(** The union is fully there and holds bytes. *)
Definition mroute_addr_wf (a : mroute_addr) : Prop :=
  zlen (ma_raw a) = MR_MAX_ADDR_LEN /\ Forall is_byte (ma_raw a).

(** The address as a number, of [w] bits. *)
Definition addr_value (w : Z) (a : mroute_addr) : Z := be_val (mem_read (ma_raw a) 0 (w / 8)).

Lemma low_cleared_range w v k : 0 <= w -> is_u w v -> 0 <= k -> is_u w (low_cleared v k).
Proof.
  intros Hw [H0 H1] Hk. unfold low_cleared, is_u. pose proof (Z.pow_pos_nonneg 2 k ltac:(lia) Hk).
  pose proof (Z.mod_pos_bound v (2 ^ k)). pose proof (Z.mod_le v (2 ^ k)). lia.
Qed.

(** Two values agree above bit [k] exactly when they are equal once masked. *)
Lemma low_cleared_eq u v k : 0 <= k -> low_cleared u k = low_cleared v k <-> u / 2 ^ k = v / 2 ^ k.
Proof. intros Hk. rewrite !low_cleared_div by done. pose proof (Z.pow_pos_nonneg 2 k). nia. Qed.

(** Masking an IPv4 or IPv6 address with a prefix length of at most the
    address width never fails an assertion, clears exactly the bits after the
    prefix, leaves the rest of the union (the port) alone and changes no other
    field. *)
Lemma mask_host_bits_spec a w : mroute_addr_wf a -> addr_width a = Some w -> 0 <= ma_netbits a <= w ->
  exists a', mroute_addr_mask_host_bits a = Some a' /\ mroute_addr_wf a' /\
    ma_type a' = ma_type a /\ ma_netbits a' = ma_netbits a /\ ma_len a' = ma_len a /\
    addr_value w a' = low_cleared (addr_value w a) (w - ma_netbits a) /\
    drop (Z.to_nat (w / 8)) (ma_raw a') = drop (Z.to_nat (w / 8)) (ma_raw a).
Proof.
  intros [Hl Hb] Hw Hn. unfold addr_width in Hw. unfold mroute_addr_mask_host_bits, mroute_addr_wf, addr_value.
  change MR_MAX_ADDR_LEN with 20 in *.
  destruct (Z.eqb_spec (Z.land (ma_type a) MR_ADDR_MASK) MR_ADDR_IPV4).
  - injection Hw as <-. unfold v4_addr, raw_put. change (32 / 8) with 4.
    assert (Hr : is_u 32 (be_val (mem_read (ma_raw a) 0 4))).
    { apply be_val_range4; [auto with ovpn|]. pose proof (mem_read_length (ma_raw a) 0 4). unfold zlen in *. lia. }
    rewrite netmask_land by done. eexists. split; [reflexivity|]. cbn [ma_raw ma_type ma_netbits ma_len upd].
    set (v := low_cleared _ _).
    assert (Hv : is_u 32 v) by (apply low_cleared_range; [lia|done|lia]).
    assert (H4 : zlen (be32 v) = 4) by done.
    split_and!; try done.
    + rewrite zlen_mem_write; lia.
    + auto with ovpn.
    + rewrite <- H4, mem_read_write_eq by lia. by apply be32_val_id.
  - destruct (Z.eqb_spec (Z.land (ma_type a) MR_ADDR_MASK) MR_ADDR_IPV6); [|done]. injection Hw as <-.
    assert (Hl' : length (ma_raw a) = 20%nat) by (unfold zlen in Hl; lia).
    destruct (mask_loop_spec 16 17 (ma_raw a) (128 - ma_netbits a)) as (raw' & He & Hv & Hd & Hlr & Hbr); try (done || lia).
    change (Z.of_nat 16 - 1) with 15 in He. rewrite He. cbn [Z.eqb].
    eexists. split; [reflexivity|]. cbn [ma_raw ma_type ma_netbits ma_len upd].
    split_and!; try done. unfold zlen. lia.
Qed.

Definition v6_example : mroute_addr :=
  mkmr 16 (Z.lor MR_ADDR_IPV6 MR_WITH_NETBITS) 20
    [0x20; 0x01; 0xfd; 0xb8; 1; 2; 3; 4; 5; 6; 7; 8; 9; 10; 11; 12; 0x04; 0xaa; 0; 0].

Lemma mask_host_bits_spec_witness :
  exists a', mroute_addr_mask_host_bits v6_example = Some a' /\ addr_value 128 a' = 0x2001f * 2 ^ 108.
Proof.
  destruct (mask_host_bits_spec v6_example 128) as (a' & He & _ & _ & _ & _ & Hv & _).
  - split; [reflexivity|]. apply Forall_forall. intros x. unfold is_byte. cbn.
    rewrite !elem_of_cons, elem_of_nil. lia.
  - reflexivity.
  - cbn. lia.
  - exists a'. split; [exact He|]. rewrite Hv. vm_compute. reflexivity.
Defined.

(** ** Host addresses and the networks around them *)

Definition is_net (a : mroute_addr) : bool := negb (Z.land (ma_type a) MR_WITH_NETBITS =? 0).

(** A plain IPv4 or IPv6 address, as packets give it. *)
Definition ip_host (a : mroute_addr) : Prop :=
  mroute_addr_wf a /\ ma_netbits a = 0 /\
  ((ma_type a = MR_ADDR_IPV4 /\ ma_len a = 4) \/ (ma_type a = MR_ADDR_IPV6 /\ ma_len a = 16)).

(** The network [a] contains the host [d]: same family, and the bits of [d] up to
    the prefix length are the address of the network. *)
Definition net_covers (a d : mroute_addr) : Prop :=
  ma_type a = Z.lor (ma_type d) MR_WITH_NETBITS /\ ma_len a = ma_len d /\
  exists w, addr_width d = Some w /\ 0 <= ma_netbits a <= w /\
    addr_value w a = low_cleared (addr_value w d) (w - ma_netbits a).

(** Keys of the table: networks have a prefix length their family allows. *)
Definition net_key (a : mroute_addr) : Prop :=
  (ma_type a = Z.lor MR_ADDR_IPV4 MR_WITH_NETBITS /\ ma_len a = 4 /\ 0 <= ma_netbits a <= 32) \/
  (ma_type a = Z.lor MR_ADDR_IPV6 MR_WITH_NETBITS /\ ma_len a = 16 /\ 0 <= ma_netbits a <= 128).
Definition key_ok (a : mroute_addr) : Prop := mroute_addr_wf a /\ (is_net a = true -> net_key a).

Lemma ip_host_width d : ip_host d -> exists w, addr_width d = Some w /\ ma_len d = w / 8 /\ 0 <= w <= 128 /\
  (ma_type d = MR_ADDR_IPV4 /\ w = 32 \/ ma_type d = MR_ADDR_IPV6 /\ w = 128).
Proof.
  intros (_ & _ & [[Ht Hl]|[Ht Hl]]); unfold addr_width; rewrite Ht, Hl.
  - exists 32. cbn. split_and!; auto; lia.
  - exists 128. cbn. split_and!; auto; lia.
Qed.

Lemma ip_host_not_net d : ip_host d -> is_net d = false.
Proof. intros (_ & _ & [[Ht _]|[Ht _]]); unfold is_net; by rewrite Ht. Qed.

(** Equal bytes, equal value. *)
Lemma take_value w a b : mroute_addr_wf a -> mroute_addr_wf b -> 0 <= w / 8 <= 20 ->
  take (Z.to_nat (w / 8)) (ma_raw a) = take (Z.to_nat (w / 8)) (ma_raw b) <-> addr_value w a = addr_value w b.
Proof.
  intros [La Ba] [Lb Bb] Hw. unfold addr_value, mem_read. change (Z.to_nat 0) with 0%nat. rewrite !drop_0.
  split; [by intros ->|]. change MR_MAX_ADDR_LEN with 20 in *. unfold zlen in *.
  apply be_val_inj; [rewrite !length_take; lia|by apply Forall_take|by apply Forall_take].
Qed.

(** What the lookup tries for the prefix length [n]. *)
Definition try_addr (d : mroute_addr) (n : Z) : option mroute_addr :=
  mroute_addr_mask_host_bits (d <| ma_type := u8 (Z.lor (ma_type d) MR_WITH_NETBITS) |> <| ma_netbits := u8 n |>).

Lemma mask_v4_total a : Z.land (ma_type a) MR_ADDR_MASK = MR_ADDR_IPV4 ->
  exists a', mroute_addr_mask_host_bits a = Some a' /\ ma_type a' = ma_type a /\ ma_netbits a' = ma_netbits a.
Proof. intros H. unfold mroute_addr_mask_host_bits. rewrite H. eexists. by split_and!. Qed.

(** The address tried equals exactly the key of a network of that length around
    the host. *)
Lemma try_addr_covers d n : ip_host d -> 0 <= n < MR_HELPER_NET_LEN ->
  exists t, try_addr d n = Some t /\ is_net t = true /\
    forall k, key_ok k -> mroute_addr_equal t k = true <-> net_covers k d /\ ma_netbits k = n.
Proof.
  intros Hd Hn. destruct (ip_host_width d Hd) as (w & Hw & Hl & Hw128 & Ht).
  pose proof Hd as (Wd & _ & _). unfold MR_HELPER_NET_LEN in Hn. unfold try_addr.
  set (d' := upd _ _).
  assert (Hu : u8 n = n) by (apply wrap_small; unfold is_u; lia).
  assert (Ht8 : u8 (Z.lor (ma_type d) MR_WITH_NETBITS) = Z.lor (ma_type d) MR_WITH_NETBITS)
    by (destruct Ht as [[-> _]|[-> _]]; done).
  assert (Hw' : addr_width d' = Some w).
  { unfold d', addr_width. cbn [ma_type upd]. rewrite Ht8. destruct Ht as [[-> ->]|[-> ->]]; done. }
  assert (Hw20 : 0 <= w / 8 <= 20) by (destruct Ht as [[_ ->]|[_ ->]]; (split; by vm_compute)).
  assert (Hnet : Z.land (Z.lor (ma_type d) MR_WITH_NETBITS) MR_WITH_NETBITS <> 0) by (destruct Ht as [[-> _]|[-> _]]; done).
  destruct (Z.le_gt_cases n w) as [Hnw|Hnw].
  - destruct (mask_host_bits_spec d' w) as (t & He & Wt & Htt & Htn & Htl & Hv & _); try done.
    { unfold d'. cbn [ma_netbits upd]. lia. }
    exists t. split; [done|]. unfold is_net. rewrite Htt. unfold d' at 1. cbn [ma_netbits ma_type upd]. rewrite Ht8.
    split; [by apply negb_true_iff, Z.eqb_neq|]. intros k [Wk Hk].
    rewrite mroute_addr_equal_spec, Htt, Htn, Htl. unfold d' at 1 2 3 4. cbn [ma_netbits ma_type ma_len upd]. rewrite Hu, Ht8.
    unfold net_covers. rewrite Hw. unfold addr_value in Hv at 2. change (ma_raw d') with (ma_raw d) in Hv.
    change (ma_netbits d') with (u8 n) in Hv. rewrite Hu in Hv. fold (addr_value w d) in Hv.
    pose proof (take_value w t k Wt Wk Hw20) as Htv. split.
    + intros (E1 & E2 & E3 & E4). split; [|done]. split_and!; try done. exists w. split_and!; [done|lia|lia|].
      rewrite <- E2, <- Hv. symmetry. apply Htv. by rewrite <- Hl, E4, E3.
    + intros [(E1 & E2 & w' & [= <-] & E3 & E4) E5]. split_and!; try done. rewrite E2, Hl. apply Htv. by rewrite Hv, E4, E5.
  - assert (w = 32 /\ ma_type d = MR_ADDR_IPV4) as [-> Ht4] by (destruct Ht as [[? ->]|[? ->]]; [done|lia]).
    destruct (mask_v4_total d') as (t & He & Htt & Htn).
    { unfold d'. cbn [ma_type upd]. by rewrite Ht8, Ht4. }
    exists t. split; [done|]. unfold is_net. rewrite Htt. unfold d' at 1. cbn [ma_netbits ma_type upd]. rewrite Ht8.
    split; [by apply negb_true_iff, Z.eqb_neq|]. intros k [Wk Hk].
    split; [|intros [(_ & _ & w' & [= <-]%(eq_trans (eq_sym Hw)) & E3 & _) E5]; lia].
    rewrite mroute_addr_equal_spec, Htt, Htn. unfold d'. cbn [ma_netbits ma_type upd]. rewrite Hu, Ht8.
    intros (E1 & E2 & _). destruct Hk as [(T & _ & N)|(T & _ & N)].
    + unfold is_net. rewrite <- E1. by apply negb_true_iff, Z.eqb_neq.
    + lia.
    + rewrite <- E1, Ht4 in T. done.
Qed.

(** ** The table of prefix lengths *)

Lemma elem_of_regenerate rc n x : x ∈ regenerate_loop rc n <-> 0 <= x < Z.of_nat n /\ 0 < zget 0 rc x.
Proof.
  induction n as [|n IH]; cbn [regenerate_loop].
  - rewrite elem_of_nil. lia.
  - destruct (Z.ltb_spec 0 (zget 0 rc (Z.of_nat n))) as [Hp|Hp].
    + rewrite elem_of_cons, IH. split.
      * intros [->|]; lia.
      * intros [? ?]. destruct (Z.eq_dec x (Z.of_nat n)); [by left|right]. lia.
    + rewrite IH. split; [lia|]. intros [Hx Hz]. split; [|done].
      destruct (Z.eq_dec x (Z.of_nat n)) as [->|]; lia.
Qed.

Lemma regenerate_sorted rc n : StronglySorted Z.gt (regenerate_loop rc n).
Proof.
  induction n as [|n IH]; cbn [regenerate_loop]; [constructor|].
  destruct (Z.ltb_spec 0 (zget 0 rc (Z.of_nat n))); [|done].
  constructor; [done|]. apply Forall_forall. intros x Hx%elem_of_regenerate. lia.
Qed.

Lemma regenerate_ext rc rc' n :
  (forall i, 0 <= i < Z.of_nat n -> 0 < zget 0 rc i <-> 0 < zget 0 rc' i) -> regenerate_loop rc n = regenerate_loop rc' n.
Proof.
  induction n as [|n IH]; intros H; cbn [regenerate_loop]; [done|]. rewrite IH by (intros; apply H; lia).
  specialize (H (Z.of_nat n) ltac:(lia)).
  destruct (Z.ltb_spec 0 (zget 0 rc (Z.of_nat n))), (Z.ltb_spec 0 (zget 0 rc' (Z.of_nat n))); try done; lia.
Qed.

(** [cnt] counts, per length, the routes added and not yet deleted. *)
Record helper_ok (mh : mroute_helper) (cnt : Z -> Z) : Prop := {
  ho_len : zlen (mh_net_len_refcount mh) = MR_HELPER_NET_LEN;
  ho_cnt i : 0 <= i < MR_HELPER_NET_LEN -> zget 0 (mh_net_len_refcount mh) i = cnt i;
  ho_nonneg i : 0 <= cnt i;
  ho_net_len : mh_net_len mh = regenerate_loop (mh_net_len_refcount mh) (Z.to_nat MR_HELPER_NET_LEN)
}.

Definition cnt_upd (cnt : Z -> Z) (n d : Z) : Z -> Z := fun i => if i =? n then cnt i + d else cnt i.

Lemma helper_init_ok ttl : helper_ok (mroute_helper_init ttl) (fun _ => 0).
Proof.
  constructor; try done. intros i Hi. cbn [mh_net_len_refcount mroute_helper_init]. unfold zget.
  destruct (Z.ltb_spec i 0); [done|]. rewrite lookup_replicate_2; [done|].
  unfold MR_HELPER_NET_LEN in *. lia.
Qed.

Lemma helper_refcount_ok mh cnt n d : helper_ok mh cnt -> 0 <= n < MR_HELPER_NET_LEN ->
  forall i, 0 <= i < MR_HELPER_NET_LEN ->
  zget 0 (zput (mh_net_len_refcount mh) n (cnt n + d)) i = cnt_upd cnt n d i.
Proof.
  intros [Hl Hc _ _] Hn i Hi. unfold cnt_upd. destruct (Z.eqb_spec i n) as [->|].
  - apply zget_zput_eq. lia.
  - rewrite zget_zput_ne by lia. by apply Hc.
Qed.

(** Regenerating only when the count passes between zero and one is enough. *)
Lemma helper_update_ok mh cnt n d gen (regen : bool) :
  helper_ok mh cnt -> 0 <= n < MR_HELPER_NET_LEN -> 0 <= cnt n + d ->
  (regen = false -> 0 < cnt n <-> 0 < cnt n + d) ->
  let mh' := mh <| mh_cache_generation := gen |>
                <| mh_net_len_refcount := zput (mh_net_len_refcount mh) n (cnt n + d) |> in
  helper_ok (if regen then mroute_helper_regenerate mh' else mh') (cnt_upd cnt n d).
Proof.
  intros Hok Hn Hd Hr mh'. pose proof (helper_refcount_ok mh cnt n d Hok Hn) as Hc.
  assert (Hnn : forall i, 0 <= cnt_upd cnt n d i).
  { intros i. unfold cnt_upd. destruct (Z.eqb_spec i n) as [->|]; [done|]. apply Hok. }
  assert (Hlen : zlen (zput (mh_net_len_refcount mh) n (cnt n + d)) = MR_HELPER_NET_LEN)
    by (rewrite zlen_zput; apply Hok).
  destruct regen; constructor; try done; cbn -[regenerate_loop].
  rewrite (ho_net_len _ _ Hok). apply regenerate_ext. intros i Hi.
  change (Z.of_nat (Z.to_nat MR_HELPER_NET_LEN)) with MR_HELPER_NET_LEN in Hi.
  rewrite Hc, (ho_cnt _ _ Hok) by done. unfold cnt_upd. destruct (Z.eqb_spec i n) as [->|]; [|done].
  by apply Hr.
Qed.

Lemma helper_add_ok mh cnt n : helper_ok mh cnt -> 0 <= n < MR_HELPER_NET_LEN ->
  exists mh', mroute_helper_add_iroute46 mh n = Some mh' /\ helper_ok mh' (cnt_upd cnt n 1).
Proof.
  intros Hok Hn. unfold mroute_helper_add_iroute46. destruct (Z.leb_spec 0 n); [|lia].
  destruct (Z.ltb_spec n MR_HELPER_NET_LEN); [|lia]. cbn [negb]. rewrite (ho_cnt _ _ Hok) by done.
  eexists. split; [reflexivity|]. pose proof (ho_nonneg _ _ Hok n).
  apply helper_update_ok; [done|done|lia|intros Hz%Z.eqb_neq; lia].
Qed.

Lemma helper_del_ok mh cnt n : helper_ok mh cnt -> 0 <= n < MR_HELPER_NET_LEN -> 0 < cnt n ->
  exists mh', mroute_helper_del_iroute46 mh n = Some mh' /\ helper_ok mh' (cnt_upd cnt n (-1)).
Proof.
  intros Hok Hn Hc. unfold mroute_helper_del_iroute46. destruct (Z.leb_spec 0 n); [|lia].
  destruct (Z.ltb_spec n MR_HELPER_NET_LEN); [|lia]. cbn [negb]. rewrite (ho_cnt _ _ Hok) by done.
  replace (cnt n - 1) with (cnt n + -1) by lia. destruct (Z.ltb_spec (cnt n + -1) 0); [lia|].
  eexists. split; [reflexivity|].
  apply helper_update_ok; [done|done|lia|intros Hz%Z.eqb_neq; lia].
Qed.

(** The operations on the table, by the lengths the callers pass. *)
Inductive helper_op := AddIroute (netbits : Z) | DelIroute (netbits : Z).
Definition helper_exec (mh : option mroute_helper) (op : helper_op) : option mroute_helper :=
  mh ← mh;
  match op with
  | AddIroute n => mroute_helper_add_iroute46 mh n
  | DelIroute n => mroute_helper_del_iroute46 mh n
  end.
Definition op_count (cnt : Z -> Z) (op : helper_op) : Z -> Z :=
  match op with
  | AddIroute n => if 0 <=? n then cnt_upd cnt n 1 else cnt
  | DelIroute n => if 0 <=? n then cnt_upd cnt n (-1) else cnt
  end.
(** A length is deleted only while it is in use; a negative one is a host route. *)
Fixpoint ops_ok (cnt : Z -> Z) (ops : list helper_op) : Prop :=
  match ops with
  | [] => True
  | op :: ops' =>
      match op with
      | AddIroute n => n < MR_HELPER_NET_LEN
      | DelIroute n => n < MR_HELPER_NET_LEN /\ (0 <= n -> 0 < cnt n)
      end /\ ops_ok (op_count cnt op) ops'
  end.

Lemma helper_run_ok ops : forall mh cnt, helper_ok mh cnt -> ops_ok cnt ops ->
  exists mh', fold_left helper_exec ops (Some mh) = Some mh' /\ helper_ok mh' (fold_left op_count ops cnt).
Proof.
  induction ops as [|op ops IH]; intros mh cnt Hok; cbn [fold_left ops_ok]; [eauto|]. intros [Hop Hops].
  destruct op as [n|n]; cbn [helper_exec op_count mbind option_bind] in *; unfold mbind, option_bind.
  - destruct (Z.leb_spec 0 n) as [Hn|Hn].
    + destruct (helper_add_ok mh cnt n) as (mh' & -> & Hok'); [done|lia|]. by apply IH.
    + unfold mroute_helper_add_iroute46. destruct (Z.leb_spec 0 n); [lia|]. by apply IH.
  - destruct Hop as [Hop Hpos]. destruct (Z.leb_spec 0 n) as [Hn|Hn].
    + destruct (helper_del_ok mh cnt n) as (mh' & -> & Hok'); [done|lia|auto|]. by apply IH.
    + unfold mroute_helper_del_iroute46. destruct (Z.leb_spec 0 n); [lia|]. by apply IH.
Qed.

(** After any sequence of additions and deletions in which a length is
    deleted only while it is in use, no assertion has failed and [net_len] is
    strictly descending and lists exactly the prefix lengths that have been
    added more often than deleted. *)
Lemma net_len_exact ttl ops : ops_ok (fun _ => 0) ops ->
  exists mh, fold_left helper_exec ops (Some (mroute_helper_init ttl)) = Some mh /\
    StronglySorted Z.gt (mh_net_len mh) /\
    forall n, n ∈ mh_net_len mh <-> 0 <= n < MR_HELPER_NET_LEN /\ 0 < fold_left op_count ops (fun _ => 0) n.
Proof.
  intros H. destruct (helper_run_ok ops _ _ (helper_init_ok ttl) H) as (mh & He & Hok).
  exists mh. split; [done|]. rewrite (ho_net_len _ _ Hok). split; [apply regenerate_sorted|]. intros n.
  rewrite elem_of_regenerate. change (Z.of_nat (Z.to_nat MR_HELPER_NET_LEN)) with MR_HELPER_NET_LEN.
  split; intros [Hn Hz]; (split; [done|]); by rewrite ?(ho_cnt _ _ Hok) in * by done.
Qed.

Lemma net_len_exact_witness :
  exists mh, fold_left helper_exec [AddIroute 24; AddIroute 64; AddIroute 24; AddIroute (-1); DelIroute 64; DelIroute 24]
               (Some (mroute_helper_init 300)) = Some mh /\ mh_net_len mh = [24] /\
    (24 ∈ mh_net_len mh <-> 0 <= 24 < MR_HELPER_NET_LEN /\ 0 < 1).
Proof.
  destruct (net_len_exact 300 [AddIroute 24; AddIroute 64; AddIroute 24; AddIroute (-1); DelIroute 64; DelIroute 24])
    as (mh & He & _ & Hn).
  - cbn. unfold cnt_upd, MR_HELPER_NET_LEN. cbn. lia.
  - exists mh. split; [exact He|]. split; [|exact (Hn 24)].
    vm_compute in He. injection He as <-. reflexivity.
Defined.
