(* ===== verification/MultiRoute.v ===== *)
(** Virtual routing of the server: [src/openvpn/multi.c] and [multi.h].  Learning
    of virtual addresses and networks, the lookup that maps a destination to the
    client that owns it, the cache of host routes, reference counts and quotas of
    the client instances, and the reaper. *)
From S2P Require Import Prelude Integer Buffer HashList Mroute.
From stdpp Require Import strings.
From Stdlib Require Import Sorting.Sorted.
#[global] Open Scope Z_scope.

(** ** Data *)

Definition MULTI_ROUTE_CACHE : Z := Z.shiftl 1 0.
Definition MULTI_ROUTE_AGEABLE : Z := Z.shiftl 1 1.
Definition MULTI_CACHE_ROUTE_TTL : Z := 60.
Definition REAP_DIVISOR : Z := 256.
Definition REAP_MIN : Z := 16.
Definition REAP_MAX : Z := 1024.

(** A pointer to an instance; an instance that was freed is missing from the heap. *)
Abbreviation inst_ptr := nat.

(** The fields of [struct multi_instance] routing uses. *)
Record multi_instance := mkmi {
  mi_halt : bool;
  mi_refcount : Z;
  mi_route_count : Z;
  mi_max_routes_per_client : Z;
  mi_did_iroutes : bool;
  mi_iroutes : list (Z * Z);               (* network in host order, netbits *)
  mi_iroutes_ipv6 : list (list Z * Z)
}.
#[export] Instance eta_mi : EtaOf multi_instance := fun r =>
  mkmi (mi_halt r) (mi_refcount r) (mi_route_count r) (mi_max_routes_per_client r)
    (mi_did_iroutes r) (mi_iroutes r) (mi_iroutes_ipv6 r).

Record multi_route := mkmroute {
  ro_instance : inst_ptr;
  ro_flags : Z;
  ro_cache_generation : Z;
  ro_last_reference : Z
}.
#[export] Instance eta_ro : EtaOf multi_route := fun r =>
  mkmroute (ro_instance r) (ro_flags r) (ro_cache_generation r) (ro_last_reference r).
#[export] Instance multi_route_eq_dec : EqDecision multi_route.
Proof. solve_decision. Defined.

(** The reaper walks the table a few buckets at a time. *)
Record multi_reap := mkreap { mr_bucket_base : Z; mr_buckets_per_pass : Z; mr_last_call : Z }.

(** The route's address is the key it is stored under. *)
Record multi_context := mkmc {
  mc_vhash : hash mroute_addr multi_route;
  mc_route_helper : mroute_helper;
  mc_local : mroute_addr;
  mc_dev_tun : bool;
  mc_stale_routes_ageing_time : Z;
  mc_reaper : multi_reap;
  mc_heap : gmap inst_ptr multi_instance
}.
#[export] Instance eta_mc : EtaOf multi_context := fun r =>
  mkmc (mc_vhash r) (mc_route_helper r) (mc_local r) (mc_dev_tun r) (mc_stale_routes_ageing_time r)
    (mc_reaper r) (mc_heap r).

(** Plugins and scripts are outside of the program: whether they are configured,
    and whether a call with an operation, an instance and an address succeeds. *)
Record learn_env := mkle {
  le_plugin : option (string -> option inst_ptr -> mroute_addr -> bool);
  le_script : option (string -> option inst_ptr -> mroute_addr -> bool)
}.

(** ** Operations *)

Definition learn_address_script (env : learn_env) (mi : option inst_ptr) (op : string) (addr : mroute_addr) : bool :=
  let ret := true in
  let ret := match le_plugin env with Some call => if call op mi addr then ret else false | None => ret end in
  match le_script env with Some run => if run op mi addr then ret else false | None => ret end.

(** From here on [None] is a failed assertion or an access to a freed instance. *)
Definition get_inst (m : multi_context) (mi : inst_ptr) : option multi_instance := mc_heap m !! mi.
Definition put_inst (m : multi_context) (mi : inst_ptr) (i : multi_instance) : multi_context :=
  m <| mc_heap := <[mi := i]> (mc_heap m) |>.

Definition route_quota_inc (m : multi_context) (mi : inst_ptr) : option multi_context :=
  i ← get_inst m mi; Some (put_inst m mi (i <| mi_route_count := mi_route_count i + 1 |>)).
Definition route_quota_dec (m : multi_context) (mi : inst_ptr) : option multi_context :=
  i ← get_inst m mi; Some (put_inst m mi (i <| mi_route_count := mi_route_count i - 1 |>)).
Definition route_quota_test (i : multi_instance) : bool :=
  negb (mi_max_routes_per_client i <=? mi_route_count i).
Definition multi_instance_inc_refcount (m : multi_context) (mi : inst_ptr) : option multi_context :=
  i ← get_inst m mi; Some (put_inst m mi (i <| mi_refcount := mi_refcount i + 1 |>)).
Definition multi_instance_dec_refcount (m : multi_context) (mi : inst_ptr) : option multi_context :=
  i ← get_inst m mi;
  let i := i <| mi_refcount := mi_refcount i - 1 |> in
  Some (if mi_refcount i <=? 0 then m <| mc_heap := delete mi (mc_heap m) |> else put_inst m mi i).

Definition multi_route_del (m : multi_context) (route : multi_route) : option multi_context :=
  m ← route_quota_dec m (ro_instance route);
  multi_instance_dec_refcount m (ro_instance route).

Definition multi_route_defined (now : Z) (m : multi_context) (r : multi_route) : option bool :=
  i ← get_inst m (ro_instance r);
  Some (if mi_halt i then false
        else if negb (Z.land (ro_flags r) MULTI_ROUTE_CACHE =? 0)
                && negb (ro_cache_generation r =? mh_cache_generation (mc_route_helper m)) then false
        else if negb (Z.land (ro_flags r) MULTI_ROUTE_AGEABLE =? 0)
                && (ro_last_reference r + mh_ageable_ttl_secs (mc_route_helper m) <? now) then false
        else true).

(** [he->key = key; he->value = value] where [he] was just found, and so stands at
    the head of bucket [i]. *)
Definition he_assign (h : hash mroute_addr multi_route) (i : nat) (key : mroute_addr) (value : multi_route)
  : hash mroute_addr multi_route :=
  set_bucket h i (match get_bucket h i with
                  | x :: b => mkhe value (Some key) (he_hash_value x) :: b
                  | [] => []
                  end) (h_n_elements h).

(** Returns the owner; a [NULL] owner is [None]. *)
Definition multi_learn_addr (env : learn_env) (now : Z) (m : multi_context) (mi : inst_ptr)
    (addr : mroute_addr) (flags : Z) : option (option inst_ptr * multi_context) :=
  let hv := hash_value (mc_vhash m) addr in
  let bi := bucket_index (mc_vhash m) hv in
  let '(he, b) := hash_lookup_fast (get_bucket (mc_vhash m) bi) addr hv in
  let m := m <| mc_vhash := set_bucket (mc_vhash m) bi b (h_n_elements (mc_vhash m)) |> in
  let oldroute := he_value <$> he in
  owner ← match oldroute with
          | Some r => (fun d : bool => if d then Some (ro_instance r) else None) <$> multi_route_defined now m r
          | None => Some None
          end;
  if negb (bool_decide (owner = Some mi)) && mroute_learnable_address addr
     && negb (mroute_addr_equal addr (mc_local m))
  then
    let newroute := mkmroute mi flags
                      (if negb (Z.land flags MULTI_ROUTE_CACHE =? 0)
                       then mh_cache_generation (mc_route_helper m) else 0) now in
    i ← get_inst m mi;
    match oldroute with
    | Some old =>
        if route_quota_test i && learn_address_script env (Some mi) "update" addr then
          m ← multi_instance_inc_refcount m mi;
          m ← route_quota_inc m mi;
          m ← multi_route_del m old;
          Some (Some mi, m <| mc_vhash := he_assign (mc_vhash m) bi addr newroute |>)
        else Some (owner, m)
    | None =>
        if route_quota_test i && learn_address_script env (Some mi) "add" addr then
          m ← multi_instance_inc_refcount m mi;
          m ← route_quota_inc m mi;
          Some (Some mi, m <| mc_vhash := hash_add_fast (mc_vhash m) bi addr hv newroute |>)
        else Some (owner, m)
    end
  else Some (owner, m).

(** [route->last_reference = now] through the pointer [hash_lookup] returned: the
    element stands at the head of its bucket. *)
Definition route_touch (h : hash mroute_addr multi_route) (addr : mroute_addr) (now : Z)
  : hash mroute_addr multi_route :=
  let i := bucket_index h (hash_value h addr) in
  set_bucket h i (match get_bucket h i with
                  | x :: b => mkhe ((he_value x) <| ro_last_reference := now |>) (he_key x) (he_hash_value x) :: b
                  | [] => []
                  end) (h_n_elements h).

(** [for (i = 0; i < rh->n_net_len; ++i)] *)
Fixpoint cidr_loop (env : learn_env) (now : Z) (m : multi_context) (addr : mroute_addr) (net_len : list Z)
  : option (option inst_ptr * multi_context) :=
  match net_len with
  | [] => Some (None, m)
  | n :: net_len' =>
      let tryaddr := addr <| ma_type := u8 (Z.lor (ma_type addr) MR_WITH_NETBITS) |> <| ma_netbits := u8 n |> in
      tryaddr ← mroute_addr_mask_host_bits tryaddr;
      let '(route, h) := hash_lookup (mc_vhash m) tryaddr in
      let m := m <| mc_vhash := h |> in
      match route with
      | Some r =>
          d ← multi_route_defined now m r;
          match d with
          | true =>
              '(_, m) ← multi_learn_addr env now m (ro_instance r) addr (Z.lor MULTI_ROUTE_CACHE MULTI_ROUTE_AGEABLE);
              Some (Some (ro_instance r), m)
          | false => cidr_loop env now m addr net_len'
          end
      | None => cidr_loop env now m addr net_len'
      end
  end.

Definition multi_get_instance_by_virtual_addr (env : learn_env) (now : Z) (m : multi_context)
    (addr : mroute_addr) (cidr_routing : bool) : option (option inst_ptr * multi_context) :=
  if mroute_addr_equal addr (mc_local m) then Some (None, m)
  else
    let '(route, h) := hash_lookup (mc_vhash m) addr in
    let m := m <| mc_vhash := h |> in
    defined ← match route with Some r => multi_route_defined now m r | None => Some false end;
    '(ret, m) ← match route, defined with
                | Some r, true =>
                    Some (Some (ro_instance r), m <| mc_vhash := route_touch (mc_vhash m) addr now |>)
                | _, _ =>
                    if cidr_routing
                    then cidr_loop env now m addr (mh_net_len (mc_route_helper m))
                    else Some (None, m)
                end;
    match ret with
    | Some mi => i ← get_inst m mi; if mi_halt i then None else Some (ret, m)
    | None => Some (ret, m)
    end.

(** [addr] is uninitialised storage on the stack.  The notification of the
    management interface is left out. *)
Definition multi_learn_in_addr_t (env : learn_env) (now : Z) (m : multi_context) (mi : inst_ptr)
    (addr : mroute_addr) (a netbits : Z) : option (option inst_ptr * multi_context) :=
  let '(ok, addr) := mroute_extract_openvpn_sockaddr addr (AF_INET (be32 a) [0; 0]) false in
  if negb ok then None
  else
    let addr := if 0 <=? netbits
                then addr <| ma_type := u8 (Z.lor (ma_type addr) MR_WITH_NETBITS) |> <| ma_netbits := u8 netbits |>
                else addr in
    multi_learn_addr env now m mi addr 0.

Definition multi_learn_in6_addr (env : learn_env) (now : Z) (m : multi_context) (mi : inst_ptr)
    (addr : mroute_addr) (a6 : list Z) (netbits : Z) : option (option inst_ptr * multi_context) :=
  let addr := addr <| ma_len := 16 |> <| ma_type := MR_ADDR_IPV6 |> <| ma_netbits := 0 |>
                   <| ma_raw := raw_put (ma_raw addr) 0 a6 |> in
  addr ← (if 0 <=? netbits
          then mroute_addr_mask_host_bits
                 (addr <| ma_type := u8 (Z.lor (ma_type addr) MR_WITH_NETBITS) |> <| ma_netbits := u8 netbits |>)
          else Some addr);
  multi_learn_addr env now m mi addr 0.

Fixpoint add_iroutes_loop (env : learn_env) (now : Z) (stack : mroute_addr) (m : multi_context) (mi : inst_ptr)
    (ir : list (Z * Z)) : option multi_context :=
  match ir with
  | [] => Some m
  | (network, netbits) :: ir' =>
      mh ← mroute_helper_add_iroute46 (mc_route_helper m) netbits;
      '(_, m) ← multi_learn_in_addr_t env now (m <| mc_route_helper := mh |>) mi stack network netbits;
      add_iroutes_loop env now stack m mi ir'
  end.
Fixpoint add_iroutes6_loop (env : learn_env) (now : Z) (stack : mroute_addr) (m : multi_context) (mi : inst_ptr)
    (ir : list (list Z * Z)) : option multi_context :=
  match ir with
  | [] => Some m
  | (network, netbits) :: ir' =>
      mh ← mroute_helper_add_iroute46 (mc_route_helper m) netbits;
      '(_, m) ← multi_learn_in6_addr env now (m <| mc_route_helper := mh |>) mi stack network netbits;
      add_iroutes6_loop env now stack m mi ir'
  end.

Definition multi_add_iroutes (env : learn_env) (now : Z) (stack : mroute_addr) (m : multi_context) (mi : inst_ptr)
  : option multi_context :=
  if mc_dev_tun m then
    i ← get_inst m mi;
    let m := put_inst m mi (i <| mi_did_iroutes := true |>) in
    m ← add_iroutes_loop env now stack m mi (mi_iroutes i);
    add_iroutes6_loop env now stack m mi (mi_iroutes_ipv6 i)
  else Some m.

(** [mroute_helper_del_iroute46] for every route of one of the two lists. *)
Fixpoint del_iroutes_loop (mh : mroute_helper) (netbits : list Z) : option mroute_helper :=
  match netbits with
  | [] => Some mh
  | n :: netbits' => mh ← mroute_helper_del_iroute46 mh n; del_iroutes_loop mh netbits'
  end.
Definition multi_del_iroutes (m : multi_context) (mi : inst_ptr) : option multi_context :=
  if mc_dev_tun m then
    i ← get_inst m mi;
    mh ← del_iroutes_loop (mc_route_helper m) (map snd (mi_iroutes i));
    mh ← del_iroutes_loop mh (map snd (mi_iroutes_ipv6 i));
    Some (m <| mc_route_helper := mh |>)
  else Some m.

(** What [multi_create_instance] and [multi_close_instance] do to the routing
    state; the other tables they maintain are left out. *)
Definition create_instance_routing (m : multi_context) (mi : inst_ptr) (max_routes : Z)
    (iroutes : list (Z * Z)) (iroutes_ipv6 : list (list Z * Z)) : option multi_context :=
  multi_instance_inc_refcount (put_inst m mi (mkmi false 0 0 max_routes false iroutes iroutes_ipv6)) mi.

Definition close_instance_routing (m : multi_context) (mi : inst_ptr) (shutdown : bool) : option multi_context :=
  i ← get_inst m mi;
  if mi_halt i then None
  else
    let m := put_inst m mi (i <| mi_halt := true |>) in
    m ← (if negb shutdown && mi_did_iroutes i then
           m ← multi_del_iroutes m mi;
           i ← get_inst m mi;
           Some (put_inst m mi (i <| mi_did_iroutes := false |>))
         else Some m);
    multi_instance_dec_refcount m mi.

(** The loops of [multi_reap_range] and [check_stale_routes], which differ in the
    condition.  Scripts are told, their answer is ignored. *)
Fixpoint route_sweep_loop (fuel : nat) (dead : multi_context -> multi_route -> option bool) (m : multi_context)
    (hi : hash_iterator) : option (multi_context * hash_iterator) :=
  match fuel with
  | O => None
  | S fuel' =>
      match hash_iterator_next (mc_vhash m) hi with
      | (Some he, h, hi) =>
          let m := m <| mc_vhash := h |> in
          d ← dead m (he_value he);
          match d with
          | true =>
              m ← multi_route_del m (he_value he);
              '(h, hi) ← hash_iterator_delete_element (mc_vhash m) hi;
              route_sweep_loop fuel' dead (m <| mc_vhash := h |>) hi
          | false => route_sweep_loop fuel' dead m hi
          end
      | (None, h, hi) => Some (m <| mc_vhash := h |>, hi)
      end
  end.
Definition route_sweep (dead : multi_context -> multi_route -> option bool) (m : multi_context)
    (start_bucket end_bucket : Z) : option multi_context :=
  hi ← hash_iterator_init_range (mc_vhash m) start_bucket end_bucket;
  '(m, hi) ← route_sweep_loop (S (length (concat (h_buckets (mc_vhash m))))) dead m hi;
  Some (m <| mc_vhash := hash_iterator_free (mc_vhash m) hi |>).

Definition multi_reap_range (now : Z) (m : multi_context) (start_bucket end_bucket : Z) : option multi_context :=
  let '(s, e) := if start_bucket <? 0 then (0, hash_n_buckets (mc_vhash m)) else (start_bucket, end_bucket) in
  route_sweep (fun m r => negb <$> multi_route_defined now m r) m s e.
Definition multi_reap_all (now : Z) (m : multi_context) : option multi_context := multi_reap_range now m (-1) 0.

Definition multi_reap_new (now buckets_per_pass : Z) : multi_reap := mkreap 0 buckets_per_pass now.
Definition multi_reap_process_dowork (now : Z) (m : multi_context) : option multi_context :=
  let mr := mc_reaper m in
  let base := if hash_n_buckets (mc_vhash m) <=? mr_bucket_base mr then 0 else mr_bucket_base mr in
  m ← multi_reap_range now m base (base + mr_buckets_per_pass mr);
  Some (m <| mc_reaper := mkreap (base + mr_buckets_per_pass mr) (mr_buckets_per_pass mr) now |>).
Definition multi_reap_process (now : Z) (m : multi_context) : option multi_context :=
  if negb (mr_last_call (mc_reaper m) =? now) then multi_reap_process_dowork now m else Some m.
Definition reap_buckets_per_pass (n_buckets : Z) : Z :=
  constrain_int (Z.quot n_buckets REAP_DIVISOR) REAP_MIN REAP_MAX.

Definition check_stale_routes (now : Z) (m : multi_context) : option multi_context :=
  route_sweep (fun m r => d ← multi_route_defined now m r;
                          Some (d && (mc_stale_routes_ageing_time m <=? now - ro_last_reference r)))
    m 0 (hash_n_buckets (mc_vhash m)).

(** What [multi_init] sets up of it; [iv] is the random seed of the table. *)
Definition multi_init (now iv n_buckets local : Z) (dev_tun : bool) (stale_time : Z)
  : option multi_context :=
  h ← hash_init n_buckets iv;
  Some (mkmc h (mroute_helper_init MULTI_CACHE_ROUTE_TTL) (mroute_extract_in_addr_t mroute_addr_init local) dev_tun stale_time
          (multi_reap_new now (reap_buckets_per_pass n_buckets)) ∅).

(** ** Reference counts and quotas *)

Definition routes_of (i : inst_ptr) (rs : list multi_route) : Z :=
  zlen (filter (fun r => ro_instance r = i) rs).

(** What the counters of an instance say about the routes [rs] of the table: an
    open instance holds one reference itself; an instance nobody refers to is gone. *)
Definition acct_inst (i : inst_ptr) (rs : list multi_route) (oi : option multi_instance) : Prop :=
  match oi with
  | Some mi =>
      mi_route_count mi = routes_of i rs /\
      mi_refcount mi = routes_of i rs + (if mi_halt mi then 0 else 1) /\
      0 < mi_refcount mi /\ routes_of i rs <= Z.max 0 (mi_max_routes_per_client mi)
  | None => routes_of i rs = 0
  end.
Definition acct (hp : gmap inst_ptr multi_instance) (rs : list multi_route) : Prop :=
  forall i, acct_inst i rs (hp !! i).

#[export] Instance routes_of_proper i : Proper ((≡ₚ) ==> eq) (routes_of i).
Proof. intros l1 l2 H. unfold routes_of, zlen. by rewrite H. Qed.
#[export] Instance acct_proper hp : Proper ((≡ₚ) ==> iff) (acct hp).
Proof.
  intros l1 l2 H. unfold acct, acct_inst. split; intros A i; specialize (A i); destruct (hp !! i).
  - by rewrite <- !H.
  - by rewrite <- H.
  - by rewrite !H.
  - by rewrite H.
Qed.

Lemma routes_of_cons i r rs :
  routes_of i (r :: rs) = routes_of i rs + (if bool_decide (ro_instance r = i) then 1 else 0).
Proof.
  unfold routes_of. rewrite filter_cons. case_bool_decide as Hd.
  - rewrite decide_True by done. by rewrite zlen_cons.
  - rewrite decide_False by done. lia.
Qed.

Lemma routes_of_elem r rs : r ∈ rs -> 0 < routes_of (ro_instance r) rs.
Proof.
  intros [l ->]%elem_of_Permutation. rewrite routes_of_cons, bool_decide_eq_true_2 by done.
  unfold routes_of. pose proof (zlen_nonneg (filter (fun r' => ro_instance r' = ro_instance r) l)). lia.
Qed.

Lemma routes_of_pos i rs : 0 < routes_of i rs -> exists r, r ∈ rs /\ ro_instance r = i.
Proof.
  induction rs as [|r rs IH]; [done|]. rewrite routes_of_cons. case_bool_decide as Hd.
  - intros _. exists r. split; [left|done].
  - rewrite Z.add_0_r. intros (r' & Hr' & Hi')%IH. exists r'. split; [by right|done].
Qed.

Lemma acct_elem hp rs r : acct hp rs -> r ∈ rs -> exists i, hp !! ro_instance r = Some i.
Proof.
  intros A Hr%routes_of_elem. specialize (A (ro_instance r)). destruct (hp !! ro_instance r); [eauto|].
  cbn in A. lia.
Qed.

(** What never changes of an instance while only counters move. *)
Definition static (mi : multi_instance) :=
  (mi_halt mi, mi_max_routes_per_client mi, mi_did_iroutes mi, mi_iroutes mi, mi_iroutes_ipv6 mi).

(** Instances disappear only once they are halted. *)
Record evolves (hp hp' : gmap inst_ptr multi_instance) : Prop := {
  ev_old i mi' : hp' !! i = Some mi' -> exists mi, hp !! i = Some mi /\ static mi' = static mi;
  ev_keep i mi : hp !! i = Some mi -> mi_halt mi = false -> is_Some (hp' !! i)
}.

#[export] Instance evolves_preorder : PreOrder evolves.
Proof.
  split.
  - intros hp. split; eauto.
  - intros h1 h2 h3 E1 E2. split.
    + intros i mi' (mi2 & H2 & S2)%(ev_old _ _ E2). destruct (ev_old _ _ E1 _ _ H2) as (mi & H1 & S1).
      exists mi. split; [done|congruence].
    + intros i mi Hi Hh. destruct (ev_keep _ _ E1 _ _ Hi Hh) as [mi2 H2]. apply (ev_keep _ _ E2 _ _ H2).
      destruct (ev_old _ _ E1 _ _ H2) as (mi1 & H1 & S1). rewrite Hi in H1. injection H1 as <-.
      unfold static in S1. congruence.
Qed.

Lemma evolves_insert hp i mi mi' : hp !! i = Some mi -> static mi' = static mi -> evolves hp (<[i := mi']> hp).
Proof.
  intros Hi Hs. split.
  - intros j mj. destruct (decide (i = j)) as [<-|].
    + rewrite lookup_insert_eq. intros [= <-]. eauto.
    + rewrite lookup_insert_ne by done. eauto.
  - intros j mj Hj _. destruct (decide (i = j)) as [<-|].
    + by rewrite lookup_insert_eq.
    + by rewrite lookup_insert_ne.
Qed.

Lemma evolves_delete hp i mi : hp !! i = Some mi -> mi_halt mi = true -> evolves hp (delete i hp).
Proof.
  intros Hi Hh. split.
  - intros j mj [_ Hj]%lookup_delete_Some. eauto.
  - intros j mj Hj Hhj. assert (i <> j) by congruence. by rewrite lookup_delete_ne.
Qed.

(** A route more. *)
Lemma learn_counts m mi i r rs : acct (mc_heap m) rs -> get_inst m mi = Some i -> mi_halt i = false ->
  route_quota_test i = true -> ro_instance r = mi ->
  exists hp, (m1 ← multi_instance_inc_refcount m mi; route_quota_inc m1 mi) = Some (m <| mc_heap := hp |>) /\
    acct hp (r :: rs) /\ evolves (mc_heap m) hp.
Proof.
  intros A Hi Hh Hq Hr. unfold multi_instance_inc_refcount. rewrite Hi. cbn [mbind option_bind].
  unfold route_quota_inc, get_inst, put_inst. cbn [mc_heap upd]. rewrite lookup_insert_eq. cbn [mbind option_bind upd].
  eexists. split; [reflexivity|]. unfold get_inst in Hi. rewrite insert_insert_eq. split.
  - intros j. pose proof (A j) as Aj.
    unfold acct_inst. rewrite routes_of_cons, Hr. destruct (decide (mi = j)) as [<-|].
    + rewrite lookup_insert_eq, bool_decide_eq_true_2 by done. rewrite Hi in Aj. cbn in Aj |- *.
      unfold route_quota_test in Hq. rewrite Hh in *. lia.
    + rewrite lookup_insert_ne, bool_decide_eq_false_2 by done. by rewrite Z.add_0_r.
  - by eapply evolves_insert.
Qed.

(** A route less. *)
Lemma route_del_counts m r rs : acct (mc_heap m) (r :: rs) ->
  exists hp, multi_route_del m r = Some (m <| mc_heap := hp |>) /\ acct hp rs /\ evolves (mc_heap m) hp.
Proof.
  intros A. destruct (acct_elem _ _ r A) as [i Hi]; [left|].
  pose proof (A (ro_instance r)) as Ai. rewrite Hi in Ai. cbn [acct_inst] in Ai.
  rewrite routes_of_cons, bool_decide_eq_true_2 in Ai by done.
  unfold multi_route_del, route_quota_dec, multi_instance_dec_refcount, get_inst, put_inst. rewrite Hi.
  cbn [mbind option_bind mc_heap upd]. rewrite lookup_insert_eq. cbn [mbind option_bind mc_heap upd mi_refcount].
  assert (Ho : forall j, ro_instance r <> j -> acct_inst j rs (mc_heap m !! j)).
  { intros j Hj. specialize (A j). unfold acct_inst in *. rewrite routes_of_cons, bool_decide_eq_false_2 in A by done.
    by rewrite Z.add_0_r in A. }
  destruct (Z.leb_spec (mi_refcount i - 1) 0).
  - eexists. split; [reflexivity|]. rewrite delete_insert_eq.
    assert (mi_halt i = true /\ routes_of (ro_instance r) rs = 0) as [Hz1 Hz2].
    { unfold routes_of in *. pose proof (zlen_nonneg (filter (fun r' => ro_instance r' = ro_instance r) rs)).
      destruct (mi_halt i); lia. }
    split; [|by eapply evolves_delete]. intros j. destruct (decide (ro_instance r = j)) as [<-|].
    + by rewrite lookup_delete_eq.
    + rewrite lookup_delete_ne by done. auto.
  - eexists. split; [reflexivity|]. rewrite insert_insert_eq. split; [|by eapply evolves_insert].
    intros j. destruct (decide (ro_instance r = j)) as [<-|].
    + rewrite lookup_insert_eq. cbn. lia.
    + rewrite lookup_insert_ne by done. auto.
Qed.

(** ** Learning *)

(** [multi_route_defined] as a predicate of the helper and the heap. *)
Definition live_route (now : Z) (mh : mroute_helper) (hp : gmap inst_ptr multi_instance) (r : multi_route) : bool :=
  match hp !! ro_instance r with
  | Some i =>
      negb (mi_halt i)
      && (negb (negb (Z.land (ro_flags r) MULTI_ROUTE_CACHE =? 0)) || (ro_cache_generation r =? mh_cache_generation mh))
      && (negb (negb (Z.land (ro_flags r) MULTI_ROUTE_AGEABLE =? 0))
          || negb (ro_last_reference r + mh_ageable_ttl_secs mh <? now))
  | None => false
  end.

Lemma route_defined_some now m r : is_Some (mc_heap m !! ro_instance r) ->
  multi_route_defined now m r = Some (live_route now (mc_route_helper m) (mc_heap m) r).
Proof.
  intros [i Hi]. unfold multi_route_defined, get_inst, live_route. rewrite Hi. cbn [mbind option_bind].
  f_equal. destruct (mi_halt i), (Z.land (ro_flags r) MULTI_ROUTE_CACHE =? 0), (ro_cache_generation r =? _),
    (Z.land (ro_flags r) MULTI_ROUTE_AGEABLE =? 0), (_ <? now); done.
Qed.

Lemma route_defined_live now m r rs : acct (mc_heap m) rs -> r ∈ rs ->
  multi_route_defined now m r = Some (live_route now (mc_route_helper m) (mc_heap m) r).
Proof. intros A [i Hi]%(acct_elem _ _ _ A). apply route_defined_some. eauto. Qed.

(** The answer depends on the heap through the halt flag alone. *)
Lemma live_route_evolves now mh hp hp' r : evolves hp hp' -> is_Some (hp' !! ro_instance r) ->
  live_route now mh hp' r = live_route now mh hp r.
Proof.
  intros E [mi' Hi']. destruct (ev_old _ _ E _ _ Hi') as (mi & Hi & Hs). unfold live_route. rewrite Hi, Hi'.
  assert (mi_halt mi' = mi_halt mi) as -> by (unfold static in Hs; congruence). done.
Qed.

Definition new_route (now : Z) (mh : mroute_helper) (mi : inst_ptr) (flags : Z) : multi_route :=
  mkmroute mi flags (if negb (Z.land flags MULTI_ROUTE_CACHE =? 0) then mh_cache_generation mh else 0) now.

Definition owner_of (now : Z) (m : multi_context) (old : option multi_route) : option inst_ptr :=
  match old with
  | Some r => if live_route now (mc_route_helper m) (mc_heap m) r then Some (ro_instance r) else None
  | None => None
  end.

(** What learning does to the table: nothing, or the entry of [addr] becomes the
    new route. *)
Definition learned (env : learn_env) (now : Z) (m : multi_context) (al : list (mroute_addr * multi_route)) (mi : inst_ptr)
    (i : multi_instance) (addr : mroute_addr) (flags : Z) : option inst_ptr * list (mroute_addr * multi_route) :=
  let owner := owner_of now m (alist_get addr al) in
  if (negb (bool_decide (owner = Some mi)) && mroute_learnable_address addr && negb (mroute_addr_equal addr (mc_local m)))
     && (route_quota_test i && learn_address_script env (Some mi)
           (match alist_get addr al with Some _ => "update" | None => "add" end) addr)
  then (Some mi, (addr, new_route now (mc_route_helper m) mi flags) :: without addr al)
  else (owner, al).

Lemma alist_get_perm (al al' : list (mroute_addr * multi_route)) k r key : compare_function key k = true ->
  al ≡ₚ (k, r) :: without key al -> alist_find key al = [(k, r)].
Proof.
  intros Hk Hp. unfold alist_find. apply Permutation_singleton_r. rewrite Hp, filter_cons_True by done.
  rewrite filter_nothing; [done|]. intros p [Hn _]%list_elem_of_filter. congruence.
Qed.

Lemma alist_find_none (al : list (mroute_addr * multi_route)) key : without key al = al -> alist_find key al = [].
Proof. intros Hp. apply filter_nothing. intros p. rewrite <- Hp. intros [Hn _]%list_elem_of_filter. congruence. Qed.

Lemma learn_spec env now m al mi addr flags i :
  represents (mc_vhash m) al -> acct (mc_heap m) (map snd al) -> mc_heap m !! mi = Some i -> mi_halt i = false ->
  exists h hp, multi_learn_addr env now m mi addr flags
      = Some ((learned env now m al mi i addr flags).1, m <| mc_vhash := h |> <| mc_heap := hp |>) /\
    represents h (learned env now m al mi i addr flags).2 /\
    acct hp (map snd (learned env now m al mi i addr flags).2) /\ evolves (mc_heap m) hp.
Proof.
  intros R A Hi Hh. unfold multi_learn_addr. pose proof (lookup_fast_represents _ _ addr R) as L. cbn zeta in L.
  destruct (hash_lookup_fast _ _ _) as [he b]. destruct L as (R1 & Hget & L).
  set (h1 := set_bucket _ _ b _) in *. cbn zeta.
  assert (Hold : alist_get addr al = he_value <$> he /\
    (match he_value <$> he with
     | Some r => (fun d : bool => if d then Some (ro_instance r) else None) <$>
                   multi_route_defined now (m <| mc_vhash := h1 |>) r
     | None => Some None
     end) = Some (owner_of now m (he_value <$> he))).
  { destruct he as [he|]; cbn [fmap option_fmap option_map].
    - destruct L as (k & b' & -> & Hk & Hc & Hp & _). unfold alist_get.
      rewrite (alist_get_perm al al _ _ _ Hc Hp). split; [done|].
      rewrite (route_defined_live now _ _ (map snd al)); [done|done|].
      rewrite Hp. left.
    - destruct L as [Hw _]. unfold alist_get. by rewrite alist_find_none. }
  destruct Hold as [Hold Hown]. unfold learned. rewrite Hold, Hown. cbn [mbind option_bind].
  set (owner := owner_of _ _ _) in *.
  assert (Hno : exists h hp, Some (owner, m <| mc_vhash := h1 |>) = Some (owner, m <| mc_vhash := h |> <| mc_heap := hp |>) /\
    represents h al /\ acct hp (map snd al) /\ evolves (mc_heap m) hp).
  { exists h1, (mc_heap m). by split_and!. }
  cbn [mc_local mc_route_helper upd]. destruct (negb _ && _ && _) eqn:Hcond; cbn [andb]; [|done].
  unfold get_inst at 1. cbn [mc_heap upd]. rewrite Hi. cbn [mbind option_bind].
  fold (new_route now (mc_route_helper m) mi flags). set (nr := new_route _ _ _ _).
  destruct he as [he|]; cbn [fmap option_fmap option_map].
  - destruct (route_quota_test i && _) eqn:Hq; [|done]. apply andb_prop in Hq as [Hq _].
    destruct L as (k & b' & -> & Hk & Hc & Hp & HR).
    destruct (learn_counts (m <| mc_vhash := h1 |>) mi i nr (map snd al)) as (hp1 & Ec & A1 & E1); try done.
    destruct (multi_instance_inc_refcount _ mi) as [m1|]; [|done]. cbn [mbind option_bind] in Ec |- *. rewrite Ec.
    cbn [mbind option_bind]. destruct (route_del_counts (m <| mc_vhash := h1 |> <| mc_heap := hp1 |>) (he_value he) (nr :: map snd (without addr al)))
      as (hp2 & Ed & A2 & E2).
    { cbn [mc_heap upd]. eapply acct_proper; [|exact A1].
      etrans; [apply Permutation_swap|]. constructor. symmetry. exact (Permutation_map snd Hp). }
    rewrite Ed. cbn [mbind option_bind fst snd].
    eexists _, hp2. split; [reflexivity|]. split_and!.
    + cbn [mc_vhash upd]. unfold he_assign. rewrite Hget. by apply HR, compare_refl.
    + done.
    + by etrans.
  - destruct (route_quota_test i && _) eqn:Hq; [|done]. apply andb_prop in Hq as [Hq _].
    destruct L as [Hw HR].
    destruct (learn_counts (m <| mc_vhash := h1 |>) mi i nr (map snd al)) as (hp1 & Ec & A1 & E1); try done.
    destruct (multi_instance_inc_refcount _ mi) as [m1|]; [|done]. cbn [mbind option_bind] in Ec |- *. rewrite Ec.
    cbn [mbind option_bind fst snd]. rewrite Hw.
    eexists _, hp1. split; [reflexivity|]. split_and!; [apply HR|done|done].
Qed.

(** ** Sweeping the routes *)

Section RouteSweep.
(** The condition looks at the heap through the route's instance, and not at what
    the sweep changes of it. *)
Context (dead : multi_context -> multi_route -> option bool) (del : multi_route -> bool) (m0 : multi_context).
Context (dead_spec : forall h hp r, evolves (mc_heap m0) hp -> is_Some (hp !! ro_instance r) ->
  dead (m0 <| mc_vhash := h |> <| mc_heap := hp |>) r = Some (del r)).

Abbreviation del_elem := (fun he : hash_element mroute_addr multi_route => del (he_value he)).

Lemma sweep_loop_sim fuel : forall h hi seen h' hi' all,
  hash_sweep_loop fuel del_elem h hi seen = Some (h', hi', all) ->
  exists rest, all = seen ++ rest /\
  forall hp others, evolves (mc_heap m0) hp -> acct hp (map he_value rest ++ others) ->
  exists hp', route_sweep_loop fuel dead (m0 <| mc_vhash := h |> <| mc_heap := hp |>) hi
      = Some (m0 <| mc_vhash := h' |> <| mc_heap := hp' |>, hi') /\
    acct hp' (filter (fun r => del r = false) (map he_value rest) ++ others) /\ evolves hp hp'.
Proof.
  induction fuel as [|fuel IH]; intros h hi seen h' hi' all; cbn [hash_sweep_loop route_sweep_loop]; [done|].
  cbn [mc_vhash upd]. destruct (hash_iterator_next h hi) as [[[he|] h1] hi1] eqn:En.
  - destruct (del (he_value he)) eqn:Ed.
    + destruct (hash_iterator_delete_element h1 hi1) as [[h2 hi2]|] eqn:Edel; cbn [mbind option_bind]; [|done].
      intros (rest & -> & Hr)%IH. exists (he :: rest). split; [by rewrite <- app_assoc|].
      intros hp others E A. cbn [map app] in A.
      destruct (acct_elem _ _ (he_value he) A) as [i Hi]; [left|].
      change (m0 <| mc_vhash := h |> <| mc_heap := hp |> <| mc_vhash := h1 |>)
        with (m0 <| mc_vhash := h1 |> <| mc_heap := hp |>).
      rewrite dead_spec, Ed by (done || eauto). cbn [mbind option_bind].
      destruct (route_del_counts (m0 <| mc_vhash := h1 |> <| mc_heap := hp |>) (he_value he) (map he_value rest ++ others))
        as (hp1 & Er & A1 & E1); [exact A|]. change (evolves hp hp1) in E1.
      rewrite Er. cbn [mbind option_bind mc_vhash upd]. rewrite Edel. cbn [mbind option_bind].
      destruct (Hr hp1 others) as (hp2 & El & A2 & E2); [by etrans|done|].
      exists hp2. split; [exact El|]. cbn [map]. rewrite filter_cons_False by congruence. split; [done|by etrans].
    + cbn [mbind option_bind]. intros (rest & -> & Hr)%IH. exists (he :: rest). split; [by rewrite <- app_assoc|].
      intros hp others E A. cbn [map app] in A.
      destruct (acct_elem _ _ (he_value he) A) as [i Hi]; [left|].
      change (m0 <| mc_vhash := h |> <| mc_heap := hp |> <| mc_vhash := h1 |>)
        with (m0 <| mc_vhash := h1 |> <| mc_heap := hp |>).
      rewrite dead_spec, Ed by (done || eauto). cbn [mbind option_bind].
      destruct (Hr hp (he_value he :: others)) as (hp2 & El & A2 & E2); [done|by rewrite <- Permutation_middle|].
      exists hp2. split; [exact El|]. cbn [map]. rewrite filter_cons_True by done. split; [|done].
      by rewrite <- Permutation_middle in A2.
  - intros [= <- <- <-]. exists []. split; [by rewrite app_nil_r|].
    intros hp others E A. exists hp. by split_and!.
Qed.

Lemma route_sweep_spec al s e : represents (mc_vhash m0) al -> acct (mc_heap m0) (map snd al) ->
  0 <= s <= e -> s <= h_n_buckets (mc_vhash m0) ->
  exists h hp seen outside, route_sweep dead m0 s e = Some (m0 <| mc_vhash := h |> <| mc_heap := hp |>) /\
    al ≡ₚ seen ++ outside /\ (s = 0 -> h_n_buckets (mc_vhash m0) <= e -> outside = []) /\
    represents h (filter (fun p => del p.2 = false) seen ++ outside) /\
    acct hp (map snd (filter (fun p => del p.2 = false) seen ++ outside)) /\ evolves (mc_heap m0) hp.
Proof.
  intros R A Hse Hs.
  destruct (hash_sweep_represents del_elem (fun p => del p.2 = false) _ al s e R Hse Hs)
    as (h' & seen & outside & Hsw & Hal & R' & Hout); [done|].
  pose proof (hash_sweep_keys _ _ _ _ _ _ (proj1 R) Hse Hs Hsw) as HF.
  unfold hash_sweep in Hsw. unfold route_sweep.
  destruct (hash_iterator_init_range (mc_vhash m0) s e) as [hi|]; [|done]. cbn [mbind option_bind] in Hsw |- *.
  destruct (hash_sweep_loop _ _ _ hi []) as [[[h1 hi1] all]|] eqn:El; [|done]. cbn [mbind option_bind] in Hsw.
  injection Hsw as <- <-. apply sweep_loop_sim in El as (rest & -> & Hr). cbn [app] in *.
  assert (Hmap : map snd (pairs rest) = map he_value rest).
  { clear -HF. induction HF as [|he l [k Hk] _ IH]; [done|]. rewrite (pairs_cons _ _ _ Hk). cbn. by rewrite IH. }
  destruct (Hr (mc_heap m0) (map snd outside)) as (hp & Ew & A' & E); [done| |].
  { rewrite <- Hmap, <- map_app. eapply acct_proper; [|exact A]. by rewrite Hal. }
  assert (m0 = m0 <| mc_vhash := mc_vhash m0 |> <| mc_heap := mc_heap m0 |>) as Em by (by destruct m0).
  rewrite <- Em in Ew. rewrite Ew. cbn [mbind option_bind].
  eexists _, hp, (pairs rest), outside. split; [reflexivity|]. split_and!; try done.
  rewrite map_app. eapply acct_proper; [|exact A']. f_equiv. rewrite <- Hmap.
  clear. induction (pairs rest) as [|p l IH]; [done|]. rewrite filter_cons. cbn [map]. rewrite filter_cons.
  destruct (decide (del p.2 = false)); cbn [map]; by rewrite IH.
Qed.
End RouteSweep.
