(* ===== verification/MultiLookup.v ===== *)
(** Correctness of virtual routing ([src/openvpn/multi.c]): whatever clients come
    and go, the counters of the instances are exact and no freed instance is used,
    and a lookup answers by the longest matching prefix, cached host routes or not. *)
From S2P Require Import Prelude Integer Buffer HashList Mroute MultiRoute.
From stdpp Require Import strings.
From Stdlib Require Import Sorting.Sorted.
#[global] Open Scope Z_scope.

Abbreviation rtable := (list (mroute_addr * multi_route)).

(** ** The abstract specification: longest prefix match *)

(** A route that is not a cache entry and whose instance is open. *)
Definition primary (hp : gmap inst_ptr multi_instance) (r : multi_route) : Prop :=
  ro_flags r = 0 /\ exists i, hp !! ro_instance r = Some i /\ mi_halt i = false.

Definition covers (k d : mroute_addr) : Prop := mroute_addr_equal d k = true \/ net_covers k d.

(** A host route is more specific than any network. *)
Definition specificity (k : mroute_addr) : Z := if is_net k then ma_netbits k else MR_HELPER_NET_LEN.

(** Instance [i] is offered for [d] under the key [k]. *)
Definition offers (hp : gmap inst_ptr multi_instance) (al : rtable) (d k : mroute_addr) (i : inst_ptr) : Prop :=
  exists r, (k, r) ∈ al /\ primary hp r /\ covers k d /\ ro_instance r = i.

Definition best (hp : gmap inst_ptr multi_instance) (al : rtable) (d : mroute_addr) (ret : option inst_ptr) : Prop :=
  match ret with
  | Some i => exists k, offers hp al d k i /\ forall k' i', offers hp al d k' i' -> specificity k' <= specificity k
  | None => forall k i, ~ offers hp al d k i
  end.

(** ** The invariant *)

Definition cache_flags : Z := Z.lor MULTI_ROUTE_CACHE MULTI_ROUTE_AGEABLE.
Definition flags_ok (k : mroute_addr) (r : multi_route) : Prop :=
  ro_flags r = 0 \/ (ro_flags r = cache_flags /\ ip_host k).

(** [regs]: the prefix lengths each open instance has registered. *)
Abbreviation regs := (list (inst_ptr * Z)).
Definition reg_count (rg : regs) (n : Z) : Z := zlen (filter (fun p => p.2 = n) rg).
Definition inst_regs (rg : regs) (i : inst_ptr) : list Z := map snd (filter (fun p => p.1 = i) rg).
Definition iroute_lens (mi : multi_instance) : list Z :=
  filter (fun n => 0 <= n) (map snd (mi_iroutes mi) ++ map snd (mi_iroutes_ipv6 mi)).

Record core_inv (m : multi_context) (al : rtable) (rg : regs) : Prop := {
  ci_rep : represents (mc_vhash m) al;
  ci_acct : acct (mc_heap m) (map snd al);
  ci_keys k r : (k, r) ∈ al -> key_ok k;
  ci_flags k r : (k, r) ∈ al -> flags_ok k r;
  ci_helper : helper_ok (mc_route_helper m) (reg_count rg);
  ci_regs k r : (k, r) ∈ al -> is_net k = true -> primary (mc_heap m) r -> (ro_instance r, ma_netbits k) ∈ rg;
  ci_len i n : (i, n) ∈ rg -> 0 <= n < MR_HELPER_NET_LEN
}.

(** ** Facts on tables *)

Lemma alist_get_spec h (al : rtable) d r : represents h al ->
  alist_get d al = Some r <-> exists k, (k, r) ∈ al /\ mroute_addr_equal d k = true.
Proof.
  intros R. pose proof (lookup_fast_represents _ _ d R) as L. cbn zeta in L.
  destruct (hash_lookup_fast _ _ _) as [he b]. destruct L as (_ & _ & L). unfold alist_get. destruct he as [he|].
  - destruct L as (k & b' & _ & _ & Hc & Hp & _). rewrite (alist_get_perm al al _ _ _ Hc Hp). cbn. split.
    + intros [= <-]. exists k. split; [|done]. rewrite Hp. left.
    + intros (k' & Hin & Hk'). rewrite Hp in Hin. apply elem_of_cons in Hin as [[= _ ->]|Hin]; [done|].
      apply list_elem_of_filter in Hin as [Hn _]. cbn in Hn. unfold mroute_addr_compare_function in Hn. congruence.
  - destruct L as [Hw _]. rewrite alist_find_none by done. split; [done|]. intros (k & Hin & Hk). exfalso.
    rewrite <- Hw in Hin. apply list_elem_of_filter in Hin as [Hn _]. cbn in Hn.
    unfold mroute_addr_compare_function in Hn. congruence.
Qed.

Lemma elem_of_without d (al : rtable) k r : (k, r) ∈ without d al <-> (k, r) ∈ al /\ mroute_addr_equal d k = false.
Proof. unfold without. rewrite list_elem_of_filter. cbn. tauto. Qed.

(** Equal keys cover, and are covered by, the same addresses. *)
Lemma equal_fields a b : mroute_addr_equal a b = true -> ma_type a = ma_type b /\ ma_netbits a = ma_netbits b /\
  ma_len a = ma_len b.
Proof. by intros (? & ? & ? & _)%mroute_addr_equal_spec. Qed.

Lemma equal_is_net a b : mroute_addr_equal a b = true -> is_net a = is_net b.
Proof. intros (Ht & _)%equal_fields. unfold is_net. by rewrite Ht. Qed.

Lemma equal_ip_host_value d k w : ip_host d -> key_ok k -> mroute_addr_equal d k = true -> addr_width d = Some w ->
  addr_value w k = addr_value w d.
Proof.
  intros Hd [Wk _] (Ht & _ & Hl & He)%mroute_addr_equal_spec Hw.
  destruct (ip_host_width d Hd) as (w' & Hw' & Hl' & _ & Hcase). rewrite Hw in Hw'. injection Hw' as <-.
  pose proof Hd as [Wd _]. symmetry. apply take_value; [done|done| |].
  - destruct Hcase as [[_ ->]|[_ ->]]; (split; by vm_compute).
  - by rewrite <- Hl', He, Hl.
Qed.

Lemma covers_compat d d' k : ip_host d -> key_ok d' -> mroute_addr_equal d d' = true -> covers k d <-> covers k d'.
Proof.
  intros Hd Hd' He. unfold covers. assert (Hs : mroute_addr_equal d' d = true) by exact (compare_sym (K := mroute_addr) d d' He).
  assert (Heq : mroute_addr_equal d k = true <-> mroute_addr_equal d' k = true).
  { split; intros H; [exact (compare_trans (K := mroute_addr) d' d k Hs H)|exact (compare_trans (K := mroute_addr) d d' k He H)]. }
  rewrite Heq. unfold net_covers. destruct (equal_fields _ _ He) as (Ht & _ & Hl). rewrite <- Ht, <- Hl.
  assert (Hwd : addr_width d' = addr_width d) by (unfold addr_width; by rewrite Ht). rewrite Hwd.
  destruct (ip_host_width d Hd) as (w & Hw & _). rewrite Hw.
  assert (Hv : addr_value w d' = addr_value w d) by (by apply equal_ip_host_value).
  split; intros [|(? & ? & w' & [= <-] & ?)]; try tauto; right; (split_and!; [done|done|]); exists w.
  - by rewrite Hv.
  - by rewrite Hv in *.
Qed.

Lemma net_covers_is_net k d : net_covers k d -> ip_host d -> is_net k = true.
Proof.
  intros (Ht & _) (_ & _ & Hd). unfold is_net. rewrite Ht.
  destruct Hd as [[-> _]|[-> _]]; done.
Qed.

Lemma specificity_le k : key_ok k -> specificity k <= MR_HELPER_NET_LEN.
Proof.
  intros [_ Hk]. unfold specificity, MR_HELPER_NET_LEN. destruct (is_net k); [|lia].
  destruct (Hk eq_refl) as [(_ & _ & ?)|(_ & _ & ?)]; lia.
Qed.

Lemma primary_live now mh hp r : ro_flags r = 0 -> live_route now mh hp r = true <-> primary hp r.
Proof.
  intros Hf. unfold live_route, primary. rewrite Hf. cbn. destruct (hp !! ro_instance r) as [i|]; [destruct (mi_halt i) eqn:E|].
  - cbn. split; [done|]. intros (_ & j & [= <-] & ?). congruence.
  - cbn. split; [|done]. eauto.
  - split; [done|]. by intros (_ & j & ? & _).
Qed.

Lemma live_open now mh hp r : live_route now mh hp r = true ->
  exists i, hp !! ro_instance r = Some i /\ mi_halt i = false.
Proof. unfold live_route. destruct (hp !! ro_instance r) as [i|]; [|done]. destruct (mi_halt i) eqn:E; [done|]. eauto. Qed.

(** ** The search through the prefix lengths *)

Lemma sorted_head_ge n ns x : StronglySorted Z.gt (n :: ns) -> x ∈ n :: ns -> x <= n.
Proof.
  intros [_ F]%StronglySorted_inv [->|Hx]%elem_of_cons; [lia|]. rewrite Forall_forall in F. specialize (F x Hx). lia.
Qed.

(** The candidates the search considers. *)
Definition candidate (now : Z) (m : multi_context) (al : rtable) (d : mroute_addr) (ns : list Z)
    (k : mroute_addr) (r : multi_route) : Prop :=
  (k, r) ∈ al /\ live_route now (mc_route_helper m) (mc_heap m) r = true /\ net_covers k d /\ ma_netbits k ∈ ns.

Definition cidr_hit env now m al d ns : Prop := exists k r i h hp,
  candidate now m al d ns k r /\ mc_heap m !! ro_instance r = Some i /\
  (forall k' r', candidate now m al d ns k' r' -> ma_netbits k' <= ma_netbits k) /\
  cidr_loop env now m d ns = Some (Some (ro_instance r), m <| mc_vhash := h |> <| mc_heap := hp |>) /\
  represents h (learned env now m al (ro_instance r) i d cache_flags).2 /\
  acct hp (map snd (learned env now m al (ro_instance r) i d cache_flags).2) /\ evolves (mc_heap m) hp.
Definition cidr_miss env now m al d ns : Prop :=
  (forall k r, ~ candidate now m al d ns k r) /\
  exists h, cidr_loop env now m d ns = Some (None, m <| mc_vhash := h |>) /\ represents h al.

Lemma cidr_loop_spec env now d ns : ip_host d -> forall m al,
  represents (mc_vhash m) al -> acct (mc_heap m) (map snd al) -> (forall k r, (k, r) ∈ al -> key_ok k) ->
  StronglySorted Z.gt ns -> (forall n, n ∈ ns -> 0 <= n < MR_HELPER_NET_LEN) ->
  cidr_hit env now m al d ns \/ cidr_miss env now m al d ns.
Proof.
  intros Hd. induction ns as [|n ns IH]; intros m al R A Hkeys Hsort Hrange.
  - right. split; [intros k r (_ & _ & _ & []%elem_of_nil)|]. exists (mc_vhash m). split; [by destruct m|done].
  - destruct (try_addr_covers d n Hd) as (t & Ht & _ & Hcov); [apply Hrange; left|].
    destruct (hash_lookup_refines _ _ t R) as [Hl R1].
    (* one length further, if nothing is found at this one *)
    assert (Hnext : (forall k r, ~ candidate now m al d [n] k r) ->
      cidr_loop env now m d (n :: ns) = cidr_loop env now (m <| mc_vhash := (hash_lookup (mc_vhash m) t).2 |>) d ns ->
      cidr_hit env now m al d (n :: ns) \/ cidr_miss env now m al d (n :: ns)).
    { intros Hno Heq.
      assert (Hc : forall k r, candidate now m al d (n :: ns) k r <-> candidate now m al d ns k r).
      { intros k r. split; intros (? & ? & ? & Hin); (split_and!; try done); [|by right].
        apply elem_of_cons in Hin as [Hin|]; [|done]. exfalso. apply (Hno k r). split_and!; try done.
        rewrite Hin. left. }
      destruct (IH (m <| mc_vhash := (hash_lookup (mc_vhash m) t).2 |>) al) as [Hit|Hmiss]; try done.
      - by apply StronglySorted_inv in Hsort as [? _].
      - intros x Hx. apply Hrange. by right.
      - left. destruct Hit as (k & r & i & h & hp & Hk & Hi & Hbest & Hloop & Hrep). exists k, r, i, h, hp.
        split; [by apply Hc|]. split; [done|]. split; [intros k' r' Hk'; apply (Hbest k' r'); by apply Hc|].
        split; [by rewrite Heq|done].
      - right. destruct Hmiss as (Hno' & h & Hloop & Hrep). split; [intros k r Hk%Hc; by apply (Hno' k r)|].
        exists h. split; [by rewrite Heq|done]. }
    cbn [cidr_loop] in *. fold (try_addr d n) in *. rewrite Ht in *. cbn [mbind option_bind] in *.
    destruct (hash_lookup (mc_vhash m) t) as [route h1] eqn:El. cbn [fst snd] in *.
    (* an entry found is the candidate of this length *)
    destruct route as [r|].
    + destruct (proj1 (alist_get_spec _ al t r R) (eq_sym Hl)) as (k & Hk & Htk).
      apply Hcov in Htk as [Hnc Hnb]; [|by eapply Hkeys].
      assert (Hr : r ∈ map snd al) by (apply list_elem_of_fmap; by exists (k, r)).
      rewrite (route_defined_live now (m <| mc_vhash := h1 |>) r (map snd al)) in * by done. cbn [mbind option_bind] in *.
      change (live_route now _ _ r) with (live_route now (mc_route_helper m) (mc_heap m) r) in *.
      destruct (live_route _ _ _ r) eqn:Elive.
      * left. destruct (live_open _ _ _ _ Elive) as (i & Hi & Hh).
        destruct (learn_spec env now (m <| mc_vhash := h1 |>) al (ro_instance r) d cache_flags i)
          as (h2 & hp2 & Elearn & R2 & A2 & E2); [exact R1|exact A|exact Hi|exact Hh|].
        exists k, r, i, h2, hp2. split; [split_and!; try done; rewrite Hnb; left|]. split; [done|]. split.
        { intros k' r' (_ & _ & _ & Hin). rewrite Hnb. by eapply sorted_head_ge. }
        split; [|done]. cbn [cidr_loop]. fold (try_addr d n). rewrite Ht. cbn [mbind option_bind]. rewrite El.
        rewrite (route_defined_live now (m <| mc_vhash := h1 |>) r (map snd al)) by done. cbn [mbind option_bind].
        change (live_route now _ _ r) with (live_route now (mc_route_helper m) (mc_heap m) r). rewrite Elive.
        fold cache_flags. rewrite Elearn. done.
      * apply Hnext; [|done]. intros k' r' (Hk' & Hlive & Hnc' & Hin). apply list_elem_of_singleton in Hin.
        assert (Hsame : alist_get t al = Some r').
        { apply (alist_get_spec _ al t r' R). exists k'. split; [done|]. apply Hcov; [by eapply Hkeys|done]. }
        rewrite <- Hl in Hsame. injection Hsame as <-. congruence.
    + apply Hnext; [|done]. intros k' r' (Hk' & Hlive & Hnc' & Hin). apply list_elem_of_singleton in Hin.
      assert (Hsame : alist_get t al = Some r').
      { apply (alist_get_spec _ al t r' R). exists k'. split; [done|]. apply Hcov; [by eapply Hkeys|done]. }
      rewrite <- Hl in Hsame. done.
Qed.

(** ** Lookups answer by the specification *)

Lemma best_ext hp al d hp' al' d' ret : (forall k i, offers hp al d k i <-> offers hp' al' d' k i) ->
  best hp al d ret -> best hp' al' d' ret.
Proof.
  intros H. destruct ret as [i|]; cbn.
  - intros (k & Hk & Hb). exists k. split; [by apply H|]. intros k' i' Hk'. apply (Hb k' i'). by apply H.
  - intros Hn k i Hk. apply (Hn k i). by apply H.
Qed.

Lemma evolves_primary hp hp' r : evolves hp hp' -> primary hp r <-> primary hp' r.
Proof.
  intros E. unfold primary. split; intros [Hf (i & Hi & Hh)]; (split; [done|]).
  - destruct (ev_keep _ _ E _ _ Hi Hh) as [i' Hi']. destruct (ev_old _ _ E _ _ Hi') as (i0 & Hi0 & Hs).
    exists i'. split; [done|]. unfold static in Hs. congruence.
  - destruct (ev_old _ _ E _ _ Hi) as (i0 & Hi0 & Hs). exists i0. split; [done|]. unfold static in Hs. congruence.
Qed.

(** Every cached host route still valid repeats what the specification says. *)
Definition cache_inv (m : multi_context) (al : rtable) : Prop := forall k r, (k, r) ∈ al -> ro_flags r = cache_flags ->
  ro_cache_generation r <= mh_cache_generation (mc_route_helper m) /\
  (ro_cache_generation r = mh_cache_generation (mc_route_helper m) ->
   (exists i, mc_heap m !! ro_instance r = Some i /\ mi_halt i = false) ->
   best (mc_heap m) al k (Some (ro_instance r))).

(** Replacing the entry of a key. *)
Lemma core_replace m al rg d k' r' h hp : core_inv m al rg -> represents h ((k', r') :: without d al) ->
  acct hp (map snd ((k', r') :: without d al)) -> evolves (mc_heap m) hp -> key_ok k' -> flags_ok k' r' ->
  (is_net k' = true -> primary hp r' -> (ro_instance r', ma_netbits k') ∈ rg) ->
  core_inv (m <| mc_vhash := h |> <| mc_heap := hp |>) ((k', r') :: without d al) rg.
Proof.
  intros [] R A E Hk Hf Hn. split; try done.
  - intros k r [[= -> ->]|[Hin _]%elem_of_without]%elem_of_cons; [done|by eapply ci_keys0].
  - intros k r [[= -> ->]|[Hin _]%elem_of_without]%elem_of_cons; [done|by eapply ci_flags0].
  - intros k r [[= -> ->]|[Hin _]%elem_of_without]%elem_of_cons; [done|]. intros Hnet Hp.
    eapply ci_regs0; [done|done|]. by eapply evolves_primary.
Qed.

Lemma core_same m al rg h hp : core_inv m al rg -> represents h al -> acct hp (map snd al) -> evolves (mc_heap m) hp ->
  core_inv (m <| mc_vhash := h |> <| mc_heap := hp |>) al rg.
Proof.
  intros [] R A E. split; try done. intros k r Hin Hnet Hp. eapply ci_regs0; [done|done|]. by eapply evolves_primary.
Qed.

Lemma cache_same m al h hp : cache_inv m al -> evolves (mc_heap m) hp ->
  cache_inv (m <| mc_vhash := h |> <| mc_heap := hp |>) al.
Proof.
  intros C E k r Hin Hf. destruct (C k r Hin Hf) as [Hle Hb]. split; [done|]. intros Hg (i & Hi & Hh).
  eapply best_ext; [|apply Hb; [done|]].
  - intros k' i'. unfold offers. split; intros (r' & ? & Hp & ?); exists r'; (split; [done|]); (split; [|done]);
      by apply (evolves_primary _ _ _ E).
  - destruct (ev_old _ _ E _ _ Hi) as (i0 & Hi0 & Hs). exists i0. split; [done|]. unfold static in Hs. congruence.
Qed.

Lemma live_flags now mh hp r : live_route now mh hp r = true -> ro_flags r = cache_flags ->
  ro_cache_generation r = mh_cache_generation mh.
Proof.
  unfold live_route. intros H Hf. rewrite Hf in H. destruct (hp !! _); [|done]. cbn in H.
  by apply andb_prop in H as [[_ ?%Z.eqb_eq]%andb_prop _].
Qed.

Lemma net_flags al m rg k r : core_inv m al rg -> (k, r) ∈ al -> is_net k = true -> ro_flags r = 0.
Proof. intros I Hin Hnet. destruct (ci_flags _ _ _ I _ _ Hin) as [|[_ Hip%ip_host_not_net]]; [done|congruence]. Qed.

(** The host entry of [d], if it is live. *)
Lemma host_hit_best now m al rg d k r : core_inv m al rg -> cache_inv m al -> ip_host d -> (k, r) ∈ al ->
  mroute_addr_equal d k = true -> live_route now (mc_route_helper m) (mc_heap m) r = true ->
  best (mc_heap m) al d (Some (ro_instance r)).
Proof.
  intros I C Hd Hin He Hl. pose proof (ci_keys _ _ _ I _ _ Hin) as Hk.
  destruct (ci_flags _ _ _ I _ _ Hin) as [Hf|[Hf Hip]].
  - exists k. split.
    + exists r. split_and!; try done; [by eapply primary_live|by left].
    + intros k' i' (r' & Hin' & _). pose proof (specificity_le k' (ci_keys _ _ _ I _ _ Hin')).
      unfold specificity at 2. rewrite <- (equal_is_net _ _ He), ip_host_not_net by done. done.
  - destruct (C k r Hin Hf) as [_ Hb]. eapply best_ext; [|apply Hb; [by eapply live_flags|by eapply live_open]].
    intros k' i'. unfold offers. split; intros (r' & ? & ? & Hc & ?); exists r'; (split_and!; try done);
      by apply (covers_compat d k k').
Qed.

(** The lengths of the live networks are in the table of lengths. *)
Lemma live_net_length now m al rg k r d : core_inv m al rg -> ip_host d -> (k, r) ∈ al -> net_covers k d ->
  live_route now (mc_route_helper m) (mc_heap m) r = true <-> primary (mc_heap m) r.
Proof.
  intros I Hd Hin Hc. apply primary_live. eapply net_flags; [done|done|]. by eapply net_covers_is_net.
Qed.

Lemma reg_count_pos rg i n : (i, n) ∈ rg -> 0 < reg_count rg n.
Proof.
  intros Hin. unfold reg_count. assert (H : (i, n) ∈ filter (fun p => p.2 = n) rg) by (by apply list_elem_of_filter).
  destruct (filter _ rg) as [|x l]; [by apply elem_of_nil in H|]. rewrite zlen_cons. pose proof (zlen_nonneg l). lia.
Qed.

Lemma net_len_sorted m al rg : core_inv m al rg -> StronglySorted Z.gt (mh_net_len (mc_route_helper m)) /\
  (forall n, n ∈ mh_net_len (mc_route_helper m) -> 0 <= n < MR_HELPER_NET_LEN) /\
  (forall i n, (i, n) ∈ rg -> n ∈ mh_net_len (mc_route_helper m)).
Proof.
  intros []. rewrite (ho_net_len _ _ ci_helper0).
  assert (Hz : Z.of_nat (Z.to_nat MR_HELPER_NET_LEN) = MR_HELPER_NET_LEN) by done. split_and!.
  - apply regenerate_sorted.
  - intros n [Hn _]%elem_of_regenerate. by rewrite Hz in Hn.
  - intros i n Hin. pose proof (ci_len0 i n Hin) as Hn. apply elem_of_regenerate. rewrite Hz. split; [done|].
    rewrite (ho_cnt _ _ ci_helper0) by done. by eapply reg_count_pos.
Qed.

(** Writing the reference time through the pointer found. *)
Lemma route_touch_represents h al d k r now : represents h al -> (k, r) ∈ al -> mroute_addr_equal d k = true ->
  represents (route_touch (hash_lookup h d).2 d now) ((k, r <| ro_last_reference := now |>) :: without d al) /\
  al ≡ₚ (k, r) :: without d al.
Proof.
  intros R Hin He. pose proof (lookup_fast_represents _ _ d R) as L. cbn zeta in L. unfold hash_lookup.
  destruct (hash_lookup_fast _ _ _) as [he b]. destruct L as (_ & Hget & L). cbn [snd].
  destruct he as [he|]; cbn [fmap option_fmap option_map].
  - destruct L as (k0 & b' & -> & Hk0 & Hc & Hp & HR).
    assert (k0 = k /\ he_value he = r) as [-> <-].
    { rewrite Hp in Hin. apply elem_of_cons in Hin as [[= -> ->]|[_ Hn]%elem_of_without]; [done|congruence]. }
    split; [|done]. unfold route_touch.
    change (bucket_index _ (hash_value _ d)) with (bucket_index h (hash_value h d)). rewrite Hget, Hk0. by apply HR.
  - destruct L as [Hw _]. rewrite <- Hw in Hin. apply elem_of_without in Hin as [_ Hn]. congruence.
Qed.

Lemma host_touch m al rg d k r now i : core_inv m al rg -> (k, r) ∈ al ->
  mroute_addr_equal d k = true -> mc_heap m !! ro_instance r = Some i ->
  let m' := m <| mc_vhash := route_touch (hash_lookup (mc_vhash m) d).2 d now |> in
  let al' := (k, r <| ro_last_reference := now |>) :: without d al in
  core_inv m' al' rg /\ (cache_inv m al -> cache_inv m' al').
Proof.
  intros I Hin He Hi m' al'. pose proof I as [].
  destruct (route_touch_represents _ _ d k r now ci_rep0 Hin He) as [R Hp].
  assert (A : acct (mc_heap m) (map snd al')).
  { intros j. specialize (ci_acct0 j). unfold acct_inst in *.
    assert (Hrt : routes_of j (map snd al') = routes_of j (map snd al)); [|by rewrite Hrt].
    rewrite Hp. cbn [map al' snd]. by rewrite !routes_of_cons. }
  assert (Em : m' = m <| mc_vhash := route_touch (hash_lookup (mc_vhash m) d).2 d now |> <| mc_heap := mc_heap m |>)
    by (by destruct m).
  split; [rewrite Em; eapply core_replace; try done|].
  - by eapply ci_keys0.
  - by destruct (ci_flags0 _ _ Hin) as [|]; [left|right].
  - intros Hnet Hpr. exact (ci_regs0 k r Hin Hnet Hpr).
  - intros C.
    assert (Hoff : forall x k0 i0, offers (mc_heap m) al x k0 i0 <-> offers (mc_heap m) al' x k0 i0).
    { intros x k0 i0. unfold offers. split; intros (r0 & Hr0 & Hrest).
      - rewrite Hp in Hr0. apply elem_of_cons in Hr0 as [[= -> ->]|Hr0].
        + exists (r <| ro_last_reference := now |>). split; [left|done].
        + exists r0. split; [by right|done].
      - apply elem_of_cons in Hr0 as [[= -> ->]|[Hr0 _]%elem_of_without].
        + exists r. split; [done|done].
        + by exists r0. }
    intros k0 r0 Hin0 Hf0. assert (H0 : exists r1, (k0, r1) ∈ al /\ ro_flags r1 = ro_flags r0 /\
      ro_cache_generation r1 = ro_cache_generation r0 /\ ro_instance r1 = ro_instance r0).
    { apply elem_of_cons in Hin0 as [[= -> ->]|[Hin0 _]%elem_of_without]; [by exists r|by exists r0]. }
    destruct H0 as (r1 & Hin1 & Hf1 & Hg1 & Hi1). rewrite Hf0 in Hf1. destruct (C k0 r1 Hin1 Hf1) as [Hle Hb].
    rewrite <- Hg1, <- Hi1. split; [done|]. intros Hg Hop. eapply best_ext; [|by apply Hb]. intros. apply Hoff.
Qed.

(** What a lookup that misses the live host route finds among the networks. *)
Lemma cidr_best now m al rg d k r : core_inv m al rg -> ip_host d ->
  (forall k' r', (k', r') ∈ al -> mroute_addr_equal d k' = true -> live_route now (mc_route_helper m) (mc_heap m) r' = false) ->
  candidate now m al d (mh_net_len (mc_route_helper m)) k r ->
  (forall k' r', candidate now m al d (mh_net_len (mc_route_helper m)) k' r' -> ma_netbits k' <= ma_netbits k) ->
  best (mc_heap m) al d (Some (ro_instance r)).
Proof.
  intros I Hd Hno (Hin & Hl & Hc & Hn) Hbest. pose proof (net_covers_is_net _ _ Hc Hd) as Hnet. exists k. split.
  - exists r. split_and!; [done|by eapply live_net_length|by right|done].
  - intros k' i' (r' & Hin' & Hp' & Hc' & _). destruct Hc' as [He|Hc'].
    + pose proof (proj2 (primary_live now (mc_route_helper m) (mc_heap m) r' (proj1 Hp')) Hp'). 
      rewrite (Hno _ _ Hin' He) in *. done.
    + pose proof (net_covers_is_net _ _ Hc' Hd) as Hnet'. unfold specificity. rewrite Hnet, Hnet'.
      apply (Hbest k' r'). split_and!; [done|by eapply live_net_length|done|].
      destruct (net_len_sorted _ _ _ I) as (_ & _ & Hlen). eapply Hlen, I; done.
Qed.

Lemma cidr_none now m al rg d : core_inv m al rg -> ip_host d ->
  (forall k' r', (k', r') ∈ al -> mroute_addr_equal d k' = true -> live_route now (mc_route_helper m) (mc_heap m) r' = false) ->
  (forall k r, ~ candidate now m al d (mh_net_len (mc_route_helper m)) k r) -> best (mc_heap m) al d None.
Proof.
  intros I Hd Hno Hnone k i (r & Hin & Hp & Hc & _). destruct Hc as [He|Hc].
  - pose proof (proj2 (primary_live now (mc_route_helper m) (mc_heap m) r (proj1 Hp)) Hp).
    rewrite (Hno _ _ Hin He) in *. done.
  - apply (Hnone k r). split_and!; [done|by eapply live_net_length|done|].
    destruct (net_len_sorted _ _ _ I) as (_ & _ & Hlen). eapply Hlen, I; [done| |done]. by eapply net_covers_is_net.
Qed.

(** Caching what was found keeps the invariants. *)
Lemma cache_learned env now m al rg d mi i h hp : core_inv m al rg -> ip_host d ->
  (forall k' r', (k', r') ∈ al -> mroute_addr_equal d k' = true -> live_route now (mc_route_helper m) (mc_heap m) r' = false) ->
  let al' := (learned env now m al mi i d cache_flags).2 in
  represents h al' -> acct hp (map snd al') -> evolves (mc_heap m) hp ->
  core_inv (m <| mc_vhash := h |> <| mc_heap := hp |>) al' rg /\
  (best (mc_heap m) al d (Some mi) -> cache_inv m al -> cache_inv (m <| mc_vhash := h |> <| mc_heap := hp |>) al').
Proof.
  intros I Hd Hno al' R A E. unfold al', learned in *. clear al'. destruct (_ && _ && _ && _).
  2:{ split; [by apply core_same|]. intros _ C. by apply cache_same. }
  cbn [snd] in *. set (nr := new_route _ _ _ _) in *.
  assert (Hkd : key_ok d) by (split; [apply Hd|]; intros Hnet; by rewrite ip_host_not_net in Hnet).
  split.
  - eapply core_replace; try done; [by right|]. intros Hnet. by rewrite ip_host_not_net in Hnet.
  - intros Hbest C.
    assert (Hoff : forall x k0 i0, offers (mc_heap m) al x k0 i0 <-> offers hp ((d, nr) :: without d al) x k0 i0).
    { intros x k0 i0. unfold offers. split.
      - intros (r0 & Hr0 & Hp0 & Hrest). exists r0. split; [right|by rewrite <- (evolves_primary _ _ _ E)].
        apply elem_of_without. split; [done|]. apply not_true_iff_false. intros He.
        pose proof (proj2 (primary_live now (mc_route_helper m) (mc_heap m) r0 (proj1 Hp0)) Hp0).
        rewrite (Hno _ _ Hr0 He) in *. done.
      - intros (r0 & Hr0 & Hp0 & Hrest). apply elem_of_cons in Hr0 as [[= -> ->]|[Hr0 _]%elem_of_without].
        + by destruct Hp0 as [Hf _].
        + exists r0. by rewrite (evolves_primary _ _ _ E). }
    intros k0 r0 Hin0 Hf0. cbn [mc_heap mc_route_helper upd].
    apply elem_of_cons in Hin0 as [[= -> ->]|[Hin0 _]%elem_of_without].
    + split; [done|]. intros _ _. eapply best_ext; [|exact Hbest]. intros. apply Hoff.
    + destruct (C k0 r0 Hin0 Hf0) as [Hle Hb]. split; [done|]. intros Hg (j & Hj & Hh).
      eapply best_ext; [|apply Hb; [done|]]; [intros; apply Hoff|].
      destruct (ev_old _ _ E _ _ Hj) as (j0 & Hj0 & Hs). exists j0. split; [done|]. unfold static in Hs. congruence.
Qed.

(** What an operation of the routing layer may change of the context. *)
Definition frame (m m' : multi_context) : Prop :=
  mc_route_helper m' = mc_route_helper m /\ mc_local m' = mc_local m /\ mc_dev_tun m' = mc_dev_tun m /\
  mc_stale_routes_ageing_time m' = mc_stale_routes_ageing_time m /\ mc_reaper m' = mc_reaper m /\
  evolves (mc_heap m) (mc_heap m').

Lemma frame_refl m : frame m m.
Proof. by split_and!. Qed.
#[export] Hint Resolve frame_refl : ovpn.

(** Without a live host route, the answer of the last assertion's branch. *)
Lemma lookup_finish (m : multi_context) (mi : inst_ptr) i hp : mc_heap m !! mi = Some i -> mi_halt i = false ->
  evolves (mc_heap m) hp -> exists i', hp !! mi = Some i' /\ mi_halt i' = false.
Proof.
  intros Hi Hh E. destruct (ev_keep _ _ E _ _ Hi Hh) as [i' Hi']. destruct (ev_old _ _ E _ _ Hi') as (i0 & Hi0 & Hs).
  exists i'. split; [done|]. unfold static in Hs. congruence.
Qed.

Lemma lookup_spec env now m al rg d : core_inv m al rg -> ip_host d ->
  exists ret m' al', multi_get_instance_by_virtual_addr env now m d true = Some (ret, m') /\
    core_inv m' al' rg /\ frame m m' /\
    (cache_inv m al -> cache_inv m' al' /\
      if mroute_addr_equal d (mc_local m) then ret = None else best (mc_heap m) al d ret).
Proof.
  intros I Hd. unfold multi_get_instance_by_virtual_addr.
  destruct (mroute_addr_equal d (mc_local m)) eqn:Eloc.
  { exists None, m, al. split_and!; auto with ovpn; done. }
  pose proof (hash_lookup_refines _ _ d (ci_rep _ _ _ I)) as [Hl R1].
  assert (Hspec := fun r => alist_get_spec _ al d r (ci_rep _ _ _ I)). rewrite <- Hl in Hspec. clear Hl.
  destruct (hash_lookup (mc_vhash m) d) as [route h1] eqn:El. cbn [fst snd] in *. cbn zeta.
  (* the search among the networks *)
  assert (Hcidr : (forall k' r', (k', r') ∈ al -> mroute_addr_equal d k' = true ->
        live_route now (mc_route_helper m) (mc_heap m) r' = false) ->
      exists ret m' al', ('(ret, m1) ← cidr_loop env now (m <| mc_vhash := h1 |>) d (mh_net_len (mc_route_helper m));
          match ret with
          | Some mi => i ← get_inst m1 mi; if mi_halt i then None else Some (ret, m1)
          | None => Some (ret, m1)
          end) = Some (ret, m') /\
        core_inv m' al' rg /\ frame m m' /\ (cache_inv m al -> cache_inv m' al' /\ best (mc_heap m) al d ret)).
  { intros Hno. destruct (net_len_sorted _ _ _ I) as (Hsort & Hrange & _).
    assert (I1 : core_inv (m <| mc_vhash := h1 |>) al rg) by (destruct I; by split).
    destruct (cidr_loop_spec env now d _ Hd (m <| mc_vhash := h1 |>) al (ci_rep _ _ _ I1) (ci_acct _ _ _ I1) (ci_keys _ _ _ I) Hsort Hrange)
      as [(k & r & i & h & hp & Hcand & Hi & Hbest & Hloop & R2 & A2 & E2)|(Hnone & h & Hloop & R2)].
    - assert (Hb : best (mc_heap m) al d (Some (ro_instance r))) by (by eapply cidr_best).
      destruct (cache_learned env now _ al rg d (ro_instance r) i h hp I1 Hd Hno R2 A2 E2) as [I2 C2].
      eexists (Some (ro_instance r)), _, _. split; [|split_and!; [exact I2| |intros C; split; [exact (C2 Hb C)|exact Hb]]].
      + cbn [mc_route_helper upd] in Hloop. rewrite Hloop. cbn [mbind option_bind]. unfold get_inst.
        destruct Hcand as (_ & Hlive & _). destruct (live_open _ _ _ _ Hlive) as (i0 & Hi0 & Hh0).
        destruct (lookup_finish _ _ _ hp Hi0 Hh0 E2) as (i' & Hi' & Hh'). cbn [mc_heap upd]. rewrite Hi'. cbn [mbind option_bind].
        by rewrite Hh'.
      + by split_and!.
    - eexists None, _, al. split; [|split_and!].
      + cbn [mc_route_helper upd] in Hloop. rewrite Hloop. reflexivity.
      + destruct I; by split.
      + by split_and!.
      + intros C. split; [done|]. eapply cidr_none; [done|done|exact Hno|exact Hnone]. }
  destruct route as [r|].
  - destruct (proj1 (Hspec r) eq_refl) as (k & Hin & He).
    assert (Hr : r ∈ map snd al) by (apply list_elem_of_fmap; by exists (k, r)).
    rewrite (route_defined_live now _ r (map snd al)) by (try done; apply I). cbn [mbind option_bind].
    change (live_route now _ _ r) with (live_route now (mc_route_helper m) (mc_heap m) r).
    destruct (live_route _ _ _ r) eqn:Elive.
    + destruct (live_open _ _ _ _ Elive) as (i & Hi & Hh). cbn [mbind option_bind]. unfold get_inst. cbn [mc_heap upd].
      rewrite Hi. cbn [mbind option_bind]. rewrite Hh.
      destruct (host_touch m al rg d k r now i I Hin He Hi) as [I2 C2]. rewrite El in I2, C2. cbn [snd] in *.
      eexists _, _, _. split; [reflexivity|]. split_and!; [exact I2|by split_and!|]. intros C. split; [by apply C2|by eapply host_hit_best].
    + apply Hcidr. intros k' r' Hin' He'. assert (Some r = Some r') as [= <-]; [|done].
      apply Hspec. by exists k'.
  - cbn [mbind option_bind]. apply Hcidr. intros k' r' Hin' He'. assert (None = Some r'); [|done].
    apply Hspec. by exists k'.
Qed.


(** Lookup of a host route alone. *)
Lemma lookup_host env now m al rg d : core_inv m al rg ->
  exists ret m' al', multi_get_instance_by_virtual_addr env now m d false = Some (ret, m') /\
    core_inv m' al' rg /\ frame m m' /\ (cache_inv m al -> cache_inv m' al') /\
    (if mroute_addr_equal d (mc_local m) then ret = None
     else ret = match alist_get d al with
                | Some r => if live_route now (mc_route_helper m) (mc_heap m) r then Some (ro_instance r) else None
                | None => None
                end).
Proof.
  intros I. unfold multi_get_instance_by_virtual_addr.
  destruct (mroute_addr_equal d (mc_local m)) eqn:Eloc.
  { exists None, m, al. split_and!; auto with ovpn; done. }
  pose proof (hash_lookup_refines _ _ d (ci_rep _ _ _ I)) as [Hl R1].
  destruct (hash_lookup (mc_vhash m) d) as [route h1] eqn:El. cbn [fst snd] in *. cbn zeta. subst route.
  assert (I1 : core_inv (m <| mc_vhash := h1 |>) al rg) by (destruct I; by split).
  destruct (alist_get d al) as [r|] eqn:Er.
  - destruct (proj1 (alist_get_spec _ al d r (ci_rep _ _ _ I)) Er) as (k & Hin & He).
    assert (Hr : r ∈ map snd al) by (apply list_elem_of_fmap; by exists (k, r)).
    rewrite (route_defined_live now _ r (map snd al)) by (try done; apply I). cbn [mbind option_bind].
    change (live_route now _ _ r) with (live_route now (mc_route_helper m) (mc_heap m) r).
    destruct (live_route _ _ _ r) eqn:Elive.
    + destruct (live_open _ _ _ _ Elive) as (i & Hi & Hh). cbn [mbind option_bind]. unfold get_inst. cbn [mc_heap upd].
      rewrite Hi. cbn [mbind option_bind]. rewrite Hh.
      destruct (host_touch m al rg d k r now i I Hin He Hi) as [I2 C2]. rewrite El in I2, C2. cbn [snd] in *.
      eexists _, _, _. split; [reflexivity|]. split_and!; [exact I2|by split_and!|exact C2|done].
    + eexists _, _, al. split; [reflexivity|]. split_and!; [exact I1|by split_and!|done|done].
  - eexists _, _, al. split; [reflexivity|]. split_and!; [exact I1|by split_and!|done|done].
Qed.

(** ** Learning keeps the invariants *)

(** No cached route is valid. *)
Definition stale_inv (m : multi_context) (al : rtable) : Prop := forall k r, (k, r) ∈ al -> ro_flags r = cache_flags ->
  ro_cache_generation r < mh_cache_generation (mc_route_helper m).

Lemma stale_cache m al : stale_inv m al -> cache_inv m al.
Proof. intros S k r Hin Hf. specialize (S k r Hin Hf). split; [lia|]. intros. lia. Qed.

(** A learned host address covers nothing but itself. *)
Lemma host_covers k x d : covers k x -> ip_host x -> mroute_addr_equal d k = true -> is_net d = false ->
  mroute_addr_equal d x = true.
Proof.
  intros [He|Hc] Hx Hd Hnet.
  - exact (compare_trans (K := mroute_addr) d k x Hd (compare_sym (K := mroute_addr) x k He)).
  - apply net_covers_is_net in Hc; [|done]. rewrite <- (equal_is_net _ _ Hd) in Hc. congruence.
Qed.

Lemma learn_inv env now m al rg mi i addr : core_inv m al rg -> key_ok addr ->
  (is_net addr = true -> (mi, ma_netbits addr) ∈ rg) -> mc_heap m !! mi = Some i -> mi_halt i = false ->
  exists owner m' al', multi_learn_addr env now m mi addr 0 = Some (owner, m') /\ core_inv m' al' rg /\ frame m m' /\
    (stale_inv m al -> stale_inv m' al') /\ (is_net addr = false -> cache_inv m al -> cache_inv m' al').
Proof.
  intros I Hk Hreg Hi Hh.
  destruct (learn_spec env now m al mi addr 0 i (ci_rep _ _ _ I) (ci_acct _ _ _ I) Hi Hh) as (h & hp & El & R & A & E).
  eexists _, _, (learned env now m al mi i addr 0).2. split; [exact El|].
  unfold learned in *. destruct (_ && _ && _ && _); cbn [snd] in *.
  2:{ split_and!; try done; [by apply core_same|by intros _ C; apply cache_same]. }
  set (nr := new_route _ _ _ _) in *. split_and!; try done.
  - eapply core_replace; try done; [by left|]. intros Hnet _. by apply Hreg.
  - intros S k r [[= -> ->]|[Hin _]%elem_of_without]%elem_of_cons; [done|]. by apply (S k r).
  - intros Hnet C k r [[= -> ->]|[Hin Hne]%elem_of_without]%elem_of_cons Hf; [done|]. destruct (C k r Hin Hf) as [Hle Hb].
    split; [done|]. intros Hg (j & Hj & Hjh). destruct (ci_flags _ _ _ I _ _ Hin) as [Hz|[_ Hip]]; [by rewrite Hf in Hz|].
    eapply best_ext; [|apply Hb; [done|]].
    + intros k0 i0. unfold offers. split; intros (r0 & Hr0 & Hp0 & Hc0 & Hi0); exists r0.
      * rewrite <- (evolves_primary _ _ _ E). split_and!; try done. right. apply elem_of_without. split; [done|].
        apply not_true_iff_false. intros He. pose proof (host_covers _ _ _ Hc0 Hip He Hnet). congruence.
      * rewrite (evolves_primary _ _ _ E). split_and!; try done.
        apply elem_of_cons in Hr0 as [[= -> ->]|[Hr0 _]%elem_of_without]; [|done].
        pose proof (host_covers _ _ _ Hc0 Hip (compare_refl (K := mroute_addr) addr) Hnet). congruence.
    + destruct (ev_old _ _ E _ _ Hj) as (j0 & Hj0 & Hs). exists j0. split; [done|]. unfold static in Hs. congruence.
Qed.

(** The addresses the two helpers of [multi_learn_addr] build. *)
Lemma raw_put_wf raw bs : zlen raw = MR_MAX_ADDR_LEN -> Forall is_byte raw -> Forall is_byte bs -> zlen bs <= 20 ->
  zlen (raw_put raw 0 bs) = MR_MAX_ADDR_LEN /\ Forall is_byte (raw_put raw 0 bs).
Proof.
  intros Hl Hb Hbs Hn. unfold raw_put. change MR_MAX_ADDR_LEN with 20 in *.
  split; [rewrite zlen_mem_write; lia|auto with ovpn].
Qed.

Lemma learn_in_addr_key stack a n : mroute_addr_wf stack -> n <= 32 ->
  exists addr, (forall env now m mi, multi_learn_in_addr_t env now m mi stack a n = multi_learn_addr env now m mi addr 0) /\
    key_ok addr /\ is_net addr = (0 <=? n) /\ (0 <= n -> ma_netbits addr = n).
Proof.
  intros [Hl Hb] Hn. unfold multi_learn_in_addr_t. cbn [mroute_extract_openvpn_sockaddr negb].
  destruct (raw_put_wf (ma_raw stack) (be32 a)) as [Hl' Hb']; try done; [auto with ovpn|].
  eexists. split; [intros; reflexivity|]. destruct (Z.leb_spec 0 n).
  - assert (Hu : u8 n = n) by (apply wrap_small; unfold is_u; lia). split_and!.
    + split; [by split|]. intros _. left. cbn [ma_type ma_len ma_netbits upd]. rewrite Hu. by split_and!.
    + done.
    + by rewrite <- Hu at 2.
  - split_and!; [split; [by split|]; by intros|done|lia].
Qed.

Lemma learn_in6_addr_key stack a n : mroute_addr_wf stack -> n <= 128 -> zlen a = 16 -> Forall is_byte a ->
  exists addr, (forall env now m mi, multi_learn_in6_addr env now m mi stack a n = multi_learn_addr env now m mi addr 0) /\
    key_ok addr /\ is_net addr = (0 <=? n) /\ (0 <= n -> ma_netbits addr = n).
Proof.
  intros [Hl Hb] Hn Hal Hab. unfold multi_learn_in6_addr.
  destruct (raw_put_wf (ma_raw stack) a) as [Hl' Hb']; try done; [lia|].
  destruct (Z.leb_spec 0 n).
  - assert (Hu : u8 n = n) by (apply wrap_small; unfold is_u; lia).
    set (a0 := stack <| ma_len := 16 |> <| ma_type := u8 (Z.lor MR_ADDR_IPV6 MR_WITH_NETBITS) |>
      <| ma_netbits := u8 n |> <| ma_raw := raw_put (ma_raw stack) 0 a |>).
    assert (Hn0 : ma_netbits a0 = n) by exact Hu.
    destruct (mask_host_bits_spec a0 128) as (t & He & Wt & Htt & Htn & Htl & _); [by split|done|lia|].
    exists t. split; [intros; change (mroute_addr_mask_host_bits _) with (mroute_addr_mask_host_bits a0); by rewrite He|].
    split_and!; [split; [done|intros _; right]| |by rewrite Htn].
    + rewrite Htt, Htn, Htl, Hn0. split_and!; done || lia.
    + unfold is_net. by rewrite Htt.
  - eexists. split; [intros; reflexivity|]. split_and!; [split; [by split|]; by intros|done|lia].
Qed.

(** ** Registering the networks of a client *)

Lemma helper_ok_ext mh cnt cnt' : helper_ok mh cnt -> (forall n, cnt n = cnt' n) -> helper_ok mh cnt'.
Proof. intros [Hl Hc Hn Hr] H. split; try done; intros; rewrite <- H; auto. Qed.

Lemma reg_count_cons i n rg x : reg_count ((i, n) :: rg) x = cnt_upd (reg_count rg) n 1 x.
Proof.
  unfold reg_count, cnt_upd. rewrite filter_cons. cbn [snd]. destruct (Z.eqb_spec x n) as [->|Hne].
  - rewrite decide_True by done. by rewrite zlen_cons.
  - by rewrite decide_False by congruence.
Qed.

(** The bound on the generations of cached routes. *)
Definition gen_inv (m : multi_context) (al : rtable) : Prop := forall k r, (k, r) ∈ al -> ro_flags r = cache_flags ->
  ro_cache_generation r <= mh_cache_generation (mc_route_helper m).

Lemma cache_gen m al : cache_inv m al -> gen_inv m al.
Proof. intros C k r Hin Hf. by destruct (C k r Hin Hf). Qed.

(** Registering a length: it counts once more, and no cached route is valid now. *)
Lemma helper_add_inv m al rg mi n : core_inv m al rg -> n <= 128 ->
  exists mh, mroute_helper_add_iroute46 (mc_route_helper m) n = Some mh /\
    core_inv (m <| mc_route_helper := mh |>) al (if 0 <=? n then (mi, n) :: rg else rg) /\
    (n < 0 -> mh = mc_route_helper m) /\
    (0 <= n -> 0 <= mh_cache_generation (mc_route_helper m) < 2 ^ 32 - 1 -> gen_inv m al ->
      mh_cache_generation mh = mh_cache_generation (mc_route_helper m) + 1 /\
      stale_inv (m <| mc_route_helper := mh |>) al).
Proof.
  intros I Hn. destruct (Z.leb_spec 0 n).
  - assert (Hrange : 0 <= n < MR_HELPER_NET_LEN) by (unfold MR_HELPER_NET_LEN; lia).
    destruct (helper_add_ok _ _ n (ci_helper _ _ _ I) Hrange) as (mh & He & Hok). exists mh. split; [done|].
    split_and!; [|lia|].
    + destruct I. split; try done.
      * eapply helper_ok_ext; [exact Hok|]. intros x. by rewrite reg_count_cons.
      * intros k r Hin Hnet Hp. right. by eapply ci_regs0.
      * intros i x [[= -> ->]|Hin]%elem_of_cons; [done|]. by eapply ci_len0.
    + intros _ Hgen G. assert (Hg : mh_cache_generation mh = mh_cache_generation (mc_route_helper m) + 1).
      { unfold mroute_helper_add_iroute46 in He. destruct (Z.leb_spec 0 n); [|lia]. destruct (negb _); [done|].
        injection He as <-. destruct (_ =? 1); cbn [mh_cache_generation upd mroute_helper_regenerate];
          apply wrap_small; unfold is_u; lia. }
      split; [done|]. intros k r Hin Hf. specialize (G k r Hin Hf). cbn [mc_route_helper upd]. lia.
  - unfold mroute_helper_add_iroute46. destruct (Z.leb_spec 0 n); [lia|]. eexists. split; [reflexivity|].
    split_and!; try lia; try done. by destruct m.
Qed.

Definition iroutes_ok (mi : multi_instance) : Prop :=
  Forall (fun p => p.2 <= 32) (mi_iroutes mi) /\
  Forall (fun p => p.2 <= 128 /\ zlen p.1 = 16 /\ Forall is_byte p.1) (mi_iroutes_ipv6 mi).

(** The registration changes the helper and the heap. *)
Definition frame_reg (m m' : multi_context) : Prop :=
  mc_local m' = mc_local m /\ mc_dev_tun m' = mc_dev_tun m /\
  mc_stale_routes_ageing_time m' = mc_stale_routes_ageing_time m /\ mc_reaper m' = mc_reaper m /\
  evolves (mc_heap m) (mc_heap m').

Lemma frame_reg_trans m1 m2 m3 : frame_reg m1 m2 -> frame_reg m2 m3 -> frame_reg m1 m3.
Proof. intros (? & ? & ? & ? & ?) (? & ? & ? & ? & ?). split_and!; try congruence. by etrans. Qed.

(** The cache stays right, and the generation grows by at most [b]. *)
Definition cache_step (b : Z) (m : multi_context) (al : rtable) (m' : multi_context) (al' : rtable) : Prop :=
  cache_inv m al -> 0 <= mh_cache_generation (mc_route_helper m) ->
  mh_cache_generation (mc_route_helper m) + b < 2 ^ 32 ->
  cache_inv m' al' /\ mh_cache_generation (mc_route_helper m) <= mh_cache_generation (mc_route_helper m')
    <= mh_cache_generation (mc_route_helper m) + b.

Lemma cache_step_trans b1 b2 m1 al1 m2 al2 m3 al3 : 0 <= b1 -> 0 <= b2 ->
  cache_step b1 m1 al1 m2 al2 -> cache_step b2 m2 al2 m3 al3 -> cache_step (b1 + b2) m1 al1 m3 al3.
Proof.
  intros Hb1 Hb2 H1 H2 C Hg Hb. destruct (H1 C Hg ltac:(lia)) as [C2 G2].
  destruct (H2 C2 ltac:(lia) ltac:(lia)) as [C3 G3]. split; [done|lia].
Qed.

(** One network: its length is registered, then it is learned. *)
Lemma iroute_step env now m al rg mi i n addr : core_inv m al rg -> n <= 128 -> key_ok addr ->
  is_net addr = (0 <=? n) -> (0 <= n -> ma_netbits addr = n) -> mc_heap m !! mi = Some i -> mi_halt i = false ->
  exists mh owner m' al', mroute_helper_add_iroute46 (mc_route_helper m) n = Some mh /\
    multi_learn_addr env now (m <| mc_route_helper := mh |>) mi addr 0 = Some (owner, m') /\
    core_inv m' al' (if 0 <=? n then (mi, n) :: rg else rg) /\ frame_reg m m' /\ cache_step 1 m al m' al'.
Proof.
  intros I Hn Hk Hnet Hnb Hi Hh. destruct (helper_add_inv m al rg mi n I Hn) as (mh & Hadd & I1 & Hneg & Hgen).
  destruct (learn_inv env now _ al _ mi i addr I1 Hk) as (owner & m' & al' & El & I2 & F & Hs & Hc); [|done|done|].
  { rewrite Hnet. destruct (Z.leb_spec 0 n); [|done]. intros _. rewrite Hnb by done. left. }
  exists mh, owner, m', al'. destruct F as (F1 & F2 & F3 & F4 & F5 & F6). split_and!; try done.
  intros C Hg Hb. rewrite F1. cbn [mc_route_helper upd]. destruct (Z.leb_spec 0 n) as [Hn0|Hn0].
  - destruct (Hgen Hn0 ltac:(lia) (cache_gen _ _ C)) as [-> S]. split; [by apply stale_cache, Hs|lia].
  - rewrite (Hneg Hn0). split; [|lia]. apply Hc; [done|]. rewrite (Hneg Hn0). done.
Qed.

Definition lens (ns : list Z) : list Z := filter (fun n => 0 <= n) ns.

Lemma lens_cons mi n ns (rg : regs) :
  map (pair mi) (lens ns) ++ (if 0 <=? n then (mi, n) :: rg else rg) ≡ₚ map (pair mi) (lens (n :: ns)) ++ rg.
Proof.
  unfold lens. rewrite filter_cons. destruct (Z.leb_spec 0 n).
  - rewrite decide_True by done. cbn. by rewrite <- Permutation_middle.
  - by rewrite decide_False by lia.
Qed.

(** Both loops, through the address each network gives. *)
Lemma iroutes_cons env now m al rg mi i n addr : core_inv m al rg -> n <= 128 -> key_ok addr ->
  is_net addr = (0 <=? n) -> (0 <= n -> ma_netbits addr = n) -> mc_heap m !! mi = Some i -> mi_halt i = false ->
  exists mh owner m1 al1 rg1 i1, mroute_helper_add_iroute46 (mc_route_helper m) n = Some mh /\
    multi_learn_addr env now (m <| mc_route_helper := mh |>) mi addr 0 = Some (owner, m1) /\
    core_inv m1 al1 rg1 /\ mc_heap m1 !! mi = Some i1 /\ mi_halt i1 = false /\
    forall ns b m' al' rg', 0 <= b -> rg' ≡ₚ map (pair mi) (lens ns) ++ rg1 -> frame_reg m1 m' -> cache_step b m1 al1 m' al' ->
      rg' ≡ₚ map (pair mi) (lens (n :: ns)) ++ rg /\ frame_reg m m' /\ cache_step (b + 1) m al m' al'.
Proof.
  intros I Hn Hk Hnet Hnb Hi Hh.
  destruct (iroute_step env now m al rg mi i n addr I Hn Hk Hnet Hnb Hi Hh) as (mh & owner & m1 & al1 & Hadd & El & I1 & F1 & C1).
  destruct (lookup_finish m mi i (mc_heap m1) Hi Hh) as (i1 & Hi1 & Hh1); [apply F1|].
  exists mh, owner, m1, al1, (if 0 <=? n then (mi, n) :: rg else rg), i1. split_and!; try done.
  intros ns b m' al' rg' Hb Hrg F C. split_and!.
  - rewrite Hrg. apply lens_cons.
  - by eapply frame_reg_trans.
  - rewrite Z.add_comm. eapply cache_step_trans; [lia|done|exact C1|exact C].
Qed.

Lemma iroutes_nil m al (rg : regs) mi : rg ≡ₚ map (pair mi) (lens []) ++ rg /\ frame_reg m m /\ cache_step 0 m al m al.
Proof. split_and!; try done. intros C Hg _. split; [done|lia]. Qed.

Lemma add_iroutes_loop_inv env now stack mi ir : mroute_addr_wf stack -> Forall (fun p => p.2 <= 32) ir ->
  forall m al rg i, core_inv m al rg -> mc_heap m !! mi = Some i -> mi_halt i = false ->
  exists m' al' rg', add_iroutes_loop env now stack m mi ir = Some m' /\ core_inv m' al' rg' /\
    rg' ≡ₚ map (pair mi) (lens (map snd ir)) ++ rg /\ frame_reg m m' /\ cache_step (zlen ir) m al m' al'.
Proof.
  intros Hst. induction 1 as [|[nw n] ir Hn Hir IH]; intros m al rg i I Hi Hh; cbn [add_iroutes_loop].
  - exists m, al, rg. split; [done|]. split; [done|]. apply iroutes_nil.
  - cbn [snd] in Hn. destruct (learn_in_addr_key stack nw n Hst Hn) as (addr & Ha & Hk & Hnet & Hnb).
    destruct (iroutes_cons env now m al rg mi i n addr I ltac:(lia) Hk Hnet Hnb Hi Hh)
      as (mh & owner & m1 & al1 & rg1 & i1 & Hadd & El & I1 & Hi1 & Hh1 & Hnext).
    rewrite Hadd. cbn [mbind option_bind]. rewrite Ha, El. cbn [mbind option_bind].
    destruct (IH m1 al1 rg1 i1 I1 Hi1 Hh1) as (m' & al' & rg' & -> & I' & Hrg & F & C).
    exists m', al', rg'. split; [done|]. split; [done|]. rewrite zlen_cons. by apply Hnext.
Qed.

Lemma add_iroutes6_loop_inv env now stack mi ir : mroute_addr_wf stack ->
  Forall (fun p => p.2 <= 128 /\ zlen p.1 = 16 /\ Forall is_byte p.1) ir ->
  forall m al rg i, core_inv m al rg -> mc_heap m !! mi = Some i -> mi_halt i = false ->
  exists m' al' rg', add_iroutes6_loop env now stack m mi ir = Some m' /\ core_inv m' al' rg' /\
    rg' ≡ₚ map (pair mi) (lens (map snd ir)) ++ rg /\ frame_reg m m' /\ cache_step (zlen ir) m al m' al'.
Proof.
  intros Hst. induction 1 as [|[nw n] ir (Hn & Hnl & Hnb6) Hir IH]; intros m al rg i I Hi Hh; cbn [add_iroutes6_loop].
  - exists m, al, rg. split; [done|]. split; [done|]. apply iroutes_nil.
  - cbn [fst snd] in *. destruct (learn_in6_addr_key stack nw n Hst Hn Hnl Hnb6) as (addr & Ha & Hk & Hnet & Hnb).
    destruct (iroutes_cons env now m al rg mi i n addr I ltac:(lia) Hk Hnet Hnb Hi Hh)
      as (mh & owner & m1 & al1 & rg1 & i1 & Hadd & El & I1 & Hi1 & Hh1 & Hnext).
    rewrite Hadd. cbn [mbind option_bind]. rewrite Ha, El. cbn [mbind option_bind].
    destruct (IH m1 al1 rg1 i1 I1 Hi1 Hh1) as (m' & al' & rg' & -> & I' & Hrg & F & C).
    exists m', al', rg'. split; [done|]. split; [done|]. rewrite zlen_cons. by apply Hnext.
Qed.

(** ** Instances and what they have registered *)

Definition expected_regs (oi : option multi_instance) : list Z :=
  match oi with Some mi => if negb (mi_halt mi) && mi_did_iroutes mi then iroute_lens mi else [] | None => [] end.

Record full_inv (m : multi_context) (al : rtable) (rg : regs) : Prop := {
  fi_core : core_inv m al rg;
  fi_regs i : inst_regs rg i ≡ₚ expected_regs (mc_heap m !! i);
  fi_tun i mi : mc_heap m !! i = Some mi -> mi_did_iroutes mi = true -> mc_dev_tun m = true;
  fi_iroutes i mi : mc_heap m !! i = Some mi -> iroutes_ok mi;
  fi_reap : 0 <= mr_bucket_base (mc_reaper m) /\ 0 <= mr_buckets_per_pass (mc_reaper m)
}.

#[export] Instance inst_regs_proper : Proper ((≡ₚ) ==> (=) ==> (≡ₚ)) inst_regs.
Proof. intros r1 r2 H i j <-. unfold inst_regs. by rewrite H. Qed.

Lemma inst_regs_app mi ns (rg : regs) j :
  inst_regs (map (pair mi) ns ++ rg) j = (if decide (mi = j) then ns else []) ++ inst_regs rg j.
Proof.
  unfold inst_regs. induction ns as [|n ns IH]; [by destruct (decide _)|]. cbn [map app]. rewrite filter_cons. cbn [fst].
  destruct (decide (mi = j)); cbn [map app snd]; by rewrite IH.
Qed.

Lemma inst_regs_split (rg : regs) mi : rg ≡ₚ map (pair mi) (inst_regs rg mi) ++ filter (fun p => p.1 <> mi) rg.
Proof.
  induction rg as [|[i n] rg IH]; [done|]. unfold inst_regs. rewrite !filter_cons. cbn [fst].
  destruct (decide (i = mi)) as [->|].
  - rewrite decide_False by (intros H; by apply H). cbn. by constructor.
  - rewrite decide_True by done. fold (inst_regs rg mi). by rewrite <- Permutation_middle, <- IH.
Qed.

Lemma inst_regs_filter (rg : regs) mi j : inst_regs (filter (fun p => p.1 <> mi) rg) j =
  if decide (j = mi) then [] else inst_regs rg j.
Proof.
  unfold inst_regs. induction rg as [|[i n] rg IH]; [by destruct (decide _)|]. rewrite !filter_cons. cbn [fst].
  destruct (decide (i = mi)) as [->|].
  - rewrite decide_False by (intros H; by apply H). rewrite IH. destruct (decide (j = mi)) as [->|]; [done|].
    by rewrite decide_False by done.
  - rewrite decide_True by done. rewrite filter_cons. cbn [fst]. destruct (decide (i = j)) as [->|].
    + cbn [map]. rewrite IH. rewrite !decide_False by done. done.
    + rewrite IH. by destruct (decide (j = mi)).
Qed.

Lemma expected_evolves hp hp' j : evolves hp hp' -> expected_regs (hp' !! j) = expected_regs (hp !! j).
Proof.
  intros E. destruct (hp' !! j) as [i'|] eqn:E'.
  - destruct (ev_old _ _ E _ _ E') as (i & -> & Hs). unfold static in Hs. injection Hs as H1 H2 H3 H4 H5.
    cbn. unfold iroute_lens. by rewrite H1, H3, H4, H5.
  - destruct (hp !! j) as [i|] eqn:Ei; [|done]. cbn. destruct (mi_halt i) eqn:Hh; [done|].
    destruct (ev_keep _ _ E _ _ Ei Hh) as [? ?]. congruence.
Qed.

Lemma full_frame_reg m al rg m' al' rg' : full_inv m al rg -> core_inv m' al' rg' -> frame_reg m m' ->
  (forall i, inst_regs rg' i ≡ₚ inst_regs rg i) -> full_inv m' al' rg'.
Proof.
  intros [] I (F1 & F2 & F3 & F4 & E) Hrg. split; [done| | | |by rewrite F4].
  - intros i. by rewrite Hrg, (expected_evolves _ _ i E).
  - intros i mi (mi0 & Hi & Hs)%(ev_old _ _ E). unfold static in Hs. injection Hs as H1 H2 H3 H4 H5.
    rewrite H3, F2. by eapply fi_tun0.
  - intros i mi (mi0 & Hi & Hs)%(ev_old _ _ E). unfold static in Hs. injection Hs as H1 H2 H3 H4 H5.
    unfold iroutes_ok. rewrite H4, H5. by eapply fi_iroutes0.
Qed.

Lemma frame_frame_reg m m' : frame m m' -> frame_reg m m'.
Proof. by intros (? & ? & ? & ? & ? & ?). Qed.

(** Changing what the counters do not depend on. *)
Lemma core_heap_same m al rg mi i i' : core_inv m al rg -> mc_heap m !! mi = Some i ->
  mi_halt i' = mi_halt i -> mi_refcount i' = mi_refcount i -> mi_route_count i' = mi_route_count i ->
  mi_max_routes_per_client i' = mi_max_routes_per_client i ->
  core_inv (put_inst m mi i') al rg /\ (cache_inv m al -> cache_inv (put_inst m mi i') al).
Proof.
  intros I Hi H1 H2 H3 H4. assert (Hp : forall r, primary (<[mi := i']> (mc_heap m)) r <-> primary (mc_heap m) r).
  { intros r. unfold primary. destruct (decide (mi = ro_instance r)) as [<-|].
    - rewrite lookup_insert_eq, Hi. split; intros [Hf (j & [= <-] & Hh)]; (split; [done|]); eexists; (split; [done|]); congruence.
    - by rewrite lookup_insert_ne. }
  split.
  - destruct I. split; try done.
    + intros j. specialize (ci_acct0 j). cbn [mc_heap put_inst upd]. destruct (decide (mi = j)) as [<-|].
      * rewrite lookup_insert_eq. rewrite Hi in ci_acct0. cbn in *. by rewrite H1, H2, H3, H4.
      * by rewrite lookup_insert_ne.
    + intros k r Hin Hnet Hpr. eapply ci_regs0; [done|done|]. by apply Hp.
  - intros C k r Hin Hf. destruct (C k r Hin Hf) as [Hle Hb]. split; [done|]. intros Hg (j & Hj & Hh).
    eapply best_ext; [|apply Hb; [done|]].
    + intros k0 i0. unfold offers. by setoid_rewrite Hp.
    + cbn [mc_heap put_inst upd] in Hj. destruct (decide (mi = ro_instance r)) as [He|].
      * rewrite <- He in Hj |- *. rewrite lookup_insert_eq in Hj. injection Hj as <-. exists i. split; [done|congruence].
      * rewrite lookup_insert_ne in Hj by done. eauto.
Qed.

Lemma multi_add_iroutes_inv env now stack m al rg mi i : full_inv m al rg -> mroute_addr_wf stack ->
  mc_heap m !! mi = Some i -> mi_halt i = false -> mi_did_iroutes i = false ->
  exists m' al' rg', multi_add_iroutes env now stack m mi = Some m' /\ full_inv m' al' rg' /\
    cache_step (zlen (mi_iroutes i) + zlen (mi_iroutes_ipv6 i)) m al m' al'.
Proof.
  intros FI Hst Hi Hh Hd. unfold multi_add_iroutes. destruct (mc_dev_tun m) eqn:Et.
  2:{ exists m, al, rg. split_and!; try done. intros C Hg _. split; [done|].
      pose proof (zlen_nonneg (mi_iroutes i)). pose proof (zlen_nonneg (mi_iroutes_ipv6 i)). lia. }
  unfold get_inst. rewrite Hi. cbn [mbind option_bind]. set (i1 := i <| mi_did_iroutes := true |>).
  destruct (core_heap_same m al rg mi i i1 (fi_core _ _ _ FI) Hi) as [I1 C1]; try done.
  destruct (fi_iroutes _ _ _ FI _ _ Hi) as [Ho4 Ho6].
  destruct (add_iroutes_loop_inv env now stack mi _ Hst Ho4 (put_inst m mi i1) al rg i1 I1)
    as (m2 & al2 & rg2 & -> & I2 & Hrg2 & F2 & C2); [by apply lookup_insert_eq|done|].
  destruct (lookup_finish (put_inst m mi i1) mi i1 (mc_heap m2)) as (i2 & Hi2 & Hh2); [by apply lookup_insert_eq|done|apply F2|].
  cbn [mbind option_bind].
  destruct (add_iroutes6_loop_inv env now stack mi _ Hst Ho6 m2 al2 rg2 i2 I2 Hi2 Hh2)
    as (m3 & al3 & rg3 & -> & I3 & Hrg3 & F3 & C3).
  exists m3, al3, rg3. split; [done|]. pose proof (frame_reg_trans _ _ _ F2 F3) as (G1 & G2 & G3 & G4 & E).
  split.
  - split; [done| | | |].
    + intros j. rewrite Hrg3, Hrg2, !inst_regs_app, (fi_regs _ _ _ FI j), (expected_evolves _ _ j E).
      cbn [mc_heap put_inst upd]. destruct (decide (mi = j)) as [<-|].
      * rewrite lookup_insert_eq, Hi. cbn. rewrite Hh, Hd. cbn. rewrite app_nil_r. unfold iroute_lens, lens.
        rewrite filter_app. cbn. apply Permutation_app_comm.
      * by rewrite lookup_insert_ne.
    + intros. by rewrite G2.
    + intros j mj (m0 & Hj & Hs)%(ev_old _ _ E). unfold static in Hs. injection Hs as H1 H2 H3 H4 H5.
      unfold iroutes_ok. rewrite H4, H5. cbn [mc_heap put_inst upd] in Hj. destruct (decide (mi = j)) as [<-|].
      * rewrite lookup_insert_eq in Hj. by injection Hj as <-.
      * rewrite lookup_insert_ne in Hj by done. by eapply fi_iroutes.
    + rewrite G4. apply FI.
  - pose proof (cache_step_trans _ _ _ _ _ _ _ _ (zlen_nonneg _) (zlen_nonneg _) C2 C3) as CS.
    intros C. apply CS. by apply C1.
Qed.

(** ** Closing a client *)

Lemma helper_del_inv mh (rg : regs) mi n : helper_ok mh (reg_count ((mi, n) :: rg)) -> 0 <= n < MR_HELPER_NET_LEN ->
  exists mh', mroute_helper_del_iroute46 mh n = Some mh' /\ helper_ok mh' (reg_count rg) /\
    mh_cache_generation mh' = u32 (mh_cache_generation mh + 1).
Proof.
  intros Hok Hn. destruct (helper_del_ok mh _ n Hok Hn) as (mh' & He & Hok').
  { rewrite reg_count_cons. unfold cnt_upd. rewrite Z.eqb_refl. unfold reg_count.
    pose proof (zlen_nonneg (filter (fun p : inst_ptr * Z => p.2 = n) rg)). lia. }
  exists mh'. split_and!; [done| |].
  - eapply helper_ok_ext; [exact Hok'|]. intros x. unfold cnt_upd at 1. rewrite reg_count_cons. unfold cnt_upd.
    destruct (Z.eqb_spec x n); lia.
  - unfold mroute_helper_del_iroute46 in He. destruct (0 <=? n) eqn:E; [|lia]. destruct (negb _); [done|].
    destruct (_ <? 0); [done|]. injection He as <-. by destruct (_ =? 0).
Qed.

Lemma del_iroutes_loop_inv mi ns : Forall (fun n => n <= 128) ns -> forall mh (rg : regs),
  helper_ok mh (reg_count (map (pair mi) (lens ns) ++ rg)) ->
  exists mh', del_iroutes_loop mh ns = Some mh' /\ helper_ok mh' (reg_count rg) /\
    (0 <= mh_cache_generation mh -> mh_cache_generation mh + zlen ns < 2 ^ 32 ->
     mh_cache_generation mh <= mh_cache_generation mh' <= mh_cache_generation mh + zlen ns).
Proof.
  induction 1 as [|n ns Hn Hns IH]; intros mh rg Hok; cbn [del_iroutes_loop].
  - exists mh. split_and!; try done. change (zlen (@nil Z)) with 0. lia.
  - unfold lens in Hok. rewrite filter_cons in Hok. rewrite zlen_cons. destruct (decide (0 <= n)) as [H0|H0].
    + destruct (helper_del_inv mh _ mi n Hok) as (mh1 & -> & Hok1 & Hg1); [unfold MR_HELPER_NET_LEN; lia|].
      cbn [mbind option_bind]. destruct (IH mh1 rg Hok1) as (mh' & -> & Hok' & Hg'). exists mh'. split_and!; try done.
      intros Hg Hb. pose proof (zlen_nonneg ns).
      rewrite Hg1, wrap_small in Hg' by (unfold is_u; lia). specialize (Hg' ltac:(lia) ltac:(lia)). lia.
    + unfold mroute_helper_del_iroute46. destruct (Z.leb_spec 0 n); [lia|]. cbn [mbind option_bind].
      destruct (IH mh rg Hok) as (mh' & -> & Hok' & Hg'). exists mh'. split_and!; try done.
      intros Hg Hb. pose proof (zlen_nonneg ns). specialize (Hg' Hg ltac:(lia)). lia.
Qed.

Lemma iroute_lens_range i : iroutes_ok i -> Forall (fun n => n <= 128) (map snd (mi_iroutes i)) /\
  Forall (fun n => n <= 128) (map snd (mi_iroutes_ipv6 i)).
Proof.
  intros [H4 H6]. split; apply Forall_map; (eapply Forall_impl; [eassumption|]); cbn beta; intros p ?; lia.
Qed.

(** The heap after a close: the instance is halted, or gone. *)
Definition closed (hp hp' : gmap inst_ptr multi_instance) (mi : inst_ptr) : Prop :=
  (forall j, j <> mi -> hp' !! j = hp !! j) /\ forall i', hp' !! mi = Some i' -> mi_halt i' = true.

Lemma closed_primary hp hp' mi r : closed hp hp' mi -> primary hp' r <-> primary hp r /\ ro_instance r <> mi.
Proof.
  intros [Ho Hm]. unfold primary. split.
  - intros [Hf (i & Hi & Hh)]. assert (Hne : ro_instance r <> mi) by (intros He; rewrite He in Hi; apply Hm in Hi; congruence).
    rewrite Ho in Hi by done. eauto 6.
  - intros [[Hf (i & Hi & Hh)] Hne]. split; [done|]. rewrite Ho by done. eauto.
Qed.

Lemma close_core m al rg mi mh hp : core_inv m al rg -> helper_ok mh (reg_count (filter (fun p => p.1 <> mi) rg)) ->
  acct hp (map snd al) -> closed (mc_heap m) hp mi ->
  core_inv (m <| mc_route_helper := mh |> <| mc_heap := hp |>) al (filter (fun p => p.1 <> mi) rg).
Proof.
  intros [] Hmh A Hc. split; try done.
  - intros k r Hin Hnet [Hp Hne]%(closed_primary _ _ _ _ Hc). apply list_elem_of_filter. split; [done|by apply ci_regs0].
  - intros j n [_ Hin]%list_elem_of_filter. by eapply ci_len0.
Qed.

Lemma close_cache m al mi mh hp : cache_inv m al -> closed (mc_heap m) hp mi ->
  mh_cache_generation (mc_route_helper m) <= mh_cache_generation mh ->
  cache_inv (m <| mc_route_helper := mh |> <| mc_heap := hp |>) al.
Proof.
  intros C Hc Hg k r Hin Hf. destruct (C k r Hin Hf) as [Hle Hb]. split; [cbn; lia|]. cbn [mc_route_helper mc_heap upd].
  intros Hgen (i & Hi & Hh). assert (Hne : ro_instance r <> mi).
  { intros He. rewrite He in Hi. apply (proj2 Hc) in Hi. congruence. }
  destruct Hb as (k' & (r' & Hr' & Hp' & Hc' & Hi') & Hmax); [lia| |].
  { rewrite (proj1 Hc) in Hi by done. eauto. }
  exists k'. split.
  - exists r'. split_and!; try done. apply (closed_primary _ _ _ _ Hc). split; [done|congruence].
  - intros k2 i2 (r2 & Hr2 & [Hp2 _]%(closed_primary _ _ _ _ Hc) & Hc2 & Hi2). apply (Hmax k2 i2). by exists r2.
Qed.

Lemma closed_expected hp hp' mi j : closed hp hp' mi ->
  expected_regs (hp' !! j) = if decide (j = mi) then [] else expected_regs (hp !! j).
Proof.
  intros [Ho Hm]. destruct (decide (j = mi)) as [->|]; [|by rewrite Ho].
  destruct (hp' !! mi) as [i|] eqn:E; [|done]. cbn. by rewrite (Hm _ eq_refl).
Qed.

Lemma full_close m al rg mi mh hp : full_inv m al rg -> helper_ok mh (reg_count (filter (fun p => p.1 <> mi) rg)) ->
  acct hp (map snd al) -> closed (mc_heap m) hp mi -> (forall i', hp !! mi = Some i' ->
    (mi_did_iroutes i' = true -> mc_dev_tun m = true) /\ iroutes_ok i') ->
  full_inv (m <| mc_route_helper := mh |> <| mc_heap := hp |>) al (filter (fun p => p.1 <> mi) rg).
Proof.
  intros [] Hmh A Hc Hmi. split; [by apply close_core| | | |done].
  - intros j. rewrite inst_regs_filter. cbn [mc_heap upd]. rewrite (closed_expected _ _ _ j Hc).
    by destruct (decide (j = mi)).
  - intros j ij Hj Hd. cbn [mc_heap mc_dev_tun upd] in *. destruct (decide (j = mi)) as [->|]; [by apply (Hmi ij)|].
    rewrite (proj1 Hc) in Hj by done. by eapply fi_tun0.
  - intros j ij Hj. cbn [mc_heap upd] in *. destruct (decide (j = mi)) as [->|]; [by apply (Hmi ij)|].
    rewrite (proj1 Hc) in Hj by done. by eapply fi_iroutes0.
Qed.

(** The instance a close leaves, if it leaves one. *)
Definition closed_inst (i : multi_instance) : multi_instance :=
  i <| mi_halt := true |> <| mi_did_iroutes := false |> <| mi_refcount := mi_refcount i - 1 |>.
Definition closed_heap (hp : gmap inst_ptr multi_instance) (mi : inst_ptr) (i : multi_instance) :=
  if mi_refcount i - 1 <=? 0 then delete mi hp else <[mi := closed_inst i]> hp.

Lemma close_exec m mi i mh : mc_heap m !! mi = Some i -> mi_halt i = false ->
  (if mi_did_iroutes i
   then mc_dev_tun m = true /\ (mh1 ← del_iroutes_loop (mc_route_helper m) (map snd (mi_iroutes i));
                                del_iroutes_loop mh1 (map snd (mi_iroutes_ipv6 i))) = Some mh
   else mh = mc_route_helper m) ->
  close_instance_routing m mi false = Some (m <| mc_route_helper := mh |> <| mc_heap := closed_heap (mc_heap m) mi i |>).
Proof.
  intros Hi Hh Hmh. unfold close_instance_routing. change (get_inst m mi) with (mc_heap m !! mi). rewrite Hi.
  cbn [mbind option_bind]. rewrite Hh. cbn [negb andb]. unfold closed_heap.
  destruct (mi_did_iroutes i) eqn:Hd.
  - destruct Hmh as [Ht Hmh]. unfold multi_del_iroutes, multi_instance_dec_refcount, get_inst, put_inst.
    cbn [mc_heap mc_dev_tun mc_route_helper upd]. rewrite Ht, lookup_insert_eq.
    cbn [mbind option_bind mi_iroutes mi_iroutes_ipv6 upd].
    destruct (del_iroutes_loop _ _) as [mh1|]; cbn [mbind option_bind] in *; [|done]. rewrite Hmh.
    cbn [mbind option_bind mc_heap upd]. rewrite lookup_insert_eq. cbn [mbind option_bind mc_heap upd].
    rewrite lookup_insert_eq. cbn [mbind option_bind mi_refcount upd].
    destruct (_ <=? 0); by rewrite !insert_insert_eq, ?delete_insert_eq.
  - subst mh. cbn [mbind option_bind]. unfold multi_instance_dec_refcount, get_inst, put_inst. cbn [mc_heap upd].
    rewrite lookup_insert_eq. cbn [mbind option_bind mi_refcount upd].
    assert (Hci : closed_inst i = i <| mi_halt := true |> <| mi_refcount := mi_refcount i - 1 |>).
    { unfold closed_inst. destruct i; cbn in *. by subst. }
    rewrite Hci. destruct (_ <=? 0); by rewrite ?insert_insert_eq, ?delete_insert_eq.
Qed.

Lemma close_counts hp (al : rtable) mi i : acct hp (map snd al) -> hp !! mi = Some i -> mi_halt i = false ->
  acct (closed_heap hp mi i) (map snd al) /\ closed hp (closed_heap hp mi i) mi.
Proof.
  intros A Hi Hh. pose proof (A mi) as Am. rewrite Hi in Am. cbn in Am. rewrite Hh in Am. unfold closed_heap.
  destruct (Z.leb_spec (mi_refcount i - 1) 0); (split; [intros j; specialize (A j); destruct (decide (mi = j)) as [<-|]|split]).
  - rewrite lookup_delete_eq. cbn. unfold routes_of in *.
    pose proof (zlen_nonneg (filter (fun r => ro_instance r = mi) (map snd al))). lia.
  - by rewrite lookup_delete_ne.
  - intros j Hj. by rewrite lookup_delete_ne.
  - intros x. by rewrite lookup_delete_eq.
  - rewrite lookup_insert_eq. cbn. lia.
  - by rewrite lookup_insert_ne.
  - intros j Hj. by rewrite lookup_insert_ne.
  - intros x. rewrite lookup_insert_eq. by intros [= <-].
Qed.

(** The registrations of the instance, in the order they are undone. *)
Lemma close_helper m al rg mi i : full_inv m al rg -> mc_heap m !! mi = Some i -> mi_halt i = false ->
  exists mh, helper_ok mh (reg_count (filter (fun p => p.1 <> mi) rg)) /\
    (if mi_did_iroutes i
     then mc_dev_tun m = true /\ (mh1 ← del_iroutes_loop (mc_route_helper m) (map snd (mi_iroutes i));
                                  del_iroutes_loop mh1 (map snd (mi_iroutes_ipv6 i))) = Some mh
     else mh = mc_route_helper m) /\
    (0 <= mh_cache_generation (mc_route_helper m) ->
     mh_cache_generation (mc_route_helper m) + (zlen (mi_iroutes i) + zlen (mi_iroutes_ipv6 i)) < 2 ^ 32 ->
     mh_cache_generation (mc_route_helper m) <= mh_cache_generation mh
       <= mh_cache_generation (mc_route_helper m) + (zlen (mi_iroutes i) + zlen (mi_iroutes_ipv6 i))).
Proof.
  intros FI Hi Hh. pose proof (fi_core _ _ _ FI) as I. pose proof (fi_iroutes _ _ _ FI _ _ Hi) as Hok.
  pose proof (fi_regs _ _ _ FI mi) as Hregs. rewrite Hi in Hregs. cbn in Hregs. rewrite Hh in Hregs. cbn in Hregs.
  assert (Hhelp : helper_ok (mc_route_helper m) (reg_count (map (pair mi) (inst_regs rg mi) ++ filter (fun p => p.1 <> mi) rg))).
  { eapply helper_ok_ext; [apply (ci_helper _ _ _ I)|]. intros n. unfold reg_count, zlen. by rewrite <- (inst_regs_split rg mi). }
  pose proof (zlen_nonneg (mi_iroutes i)). pose proof (zlen_nonneg (mi_iroutes_ipv6 i)).
  destruct (mi_did_iroutes i) eqn:Hd.
  - destruct (iroute_lens_range i Hok) as [L4 L6].
    assert (Hh2 : helper_ok (mc_route_helper m) (reg_count (map (pair mi) (lens (map snd (mi_iroutes i))) ++
        (map (pair mi) (lens (map snd (mi_iroutes_ipv6 i))) ++ filter (fun p => p.1 <> mi) rg)))).
    { eapply helper_ok_ext; [exact Hhelp|]. intros n. unfold reg_count, zlen. rewrite Hregs.
      assert (iroute_lens i = lens (map snd (mi_iroutes i)) ++ lens (map snd (mi_iroutes_ipv6 i))) as ->
        by (unfold iroute_lens; by rewrite filter_app).
      by rewrite map_app, <- app_assoc. }
    destruct (del_iroutes_loop_inv mi _ L4 _ _ Hh2) as (mh1 & E1 & Ho1 & G1).
    destruct (del_iroutes_loop_inv mi _ L6 _ _ Ho1) as (mh2 & E2 & Ho2 & G2).
    exists mh2. split; [done|]. rewrite E1. split; [split; [by eapply fi_tun|done]|].
    intros Hg Hb. unfold zlen in *. rewrite length_map in G1, G2. specialize (G1 Hg ltac:(lia)). specialize (G2 ltac:(lia) ltac:(lia)). lia.
  - exists (mc_route_helper m). split_and!; try done; [|lia].
    apply Permutation_nil_r in Hregs. rewrite Hregs in Hhelp. done.
Qed.

Lemma multi_close_inv m al rg mi i : full_inv m al rg -> mc_heap m !! mi = Some i -> mi_halt i = false ->
  exists m' rg', close_instance_routing m mi false = Some m' /\ full_inv m' al rg' /\
    cache_step (zlen (mi_iroutes i) + zlen (mi_iroutes_ipv6 i)) m al m' al.
Proof.
  intros FI Hi Hh. destruct (close_helper m al rg mi i FI Hi Hh) as (mh & Hok & Hmh & Hg).
  pose proof (fi_core _ _ _ FI) as I. destruct (close_counts (mc_heap m) al mi i (ci_acct _ _ _ I) Hi Hh) as [A Hc].
  eexists _, _. split; [by apply close_exec|]. split.
  - apply full_close; try done. intros i' Hi'. unfold closed_heap in Hi'. destruct (_ <=? 0).
    + by rewrite lookup_delete_eq in Hi'.
    + rewrite lookup_insert_eq in Hi'. injection Hi' as <-. split; [done|].
      exact (fi_iroutes _ _ _ FI _ _ Hi).
  - intros C Hg0 Hb. specialize (Hg Hg0 Hb). split; [|done]. apply (close_cache m al mi); [done|done|lia].
Qed.

(** ** New clients and sweeps *)

Lemma multi_create_inv m al rg mi mx ir ir6 : full_inv m al rg -> mc_heap m !! mi = None ->
  iroutes_ok (mkmi false 0 0 mx false ir ir6) ->
  exists m', create_instance_routing m mi mx ir ir6 = Some m' /\ full_inv m' al rg /\ cache_step 0 m al m' al.
Proof.
  intros FI Hi Hok. unfold create_instance_routing, multi_instance_inc_refcount, get_inst, put_inst. cbn [mc_heap upd].
  rewrite lookup_insert_eq. cbn [mbind option_bind]. rewrite insert_insert_eq. eexists. split; [reflexivity|].
  pose proof FI as []. destruct fi_core0. pose proof (ci_acct0 mi) as Ami. rewrite Hi in Ami. cbn in Ami.
  assert (Hne : forall k r, (k, r) ∈ al -> ro_instance r <> mi).
  { intros k r Hin He. assert (Hr : r ∈ map snd al) by (apply list_elem_of_fmap; by exists (k, r)).
    apply routes_of_elem in Hr. rewrite He in Hr. lia. }
  set (hp := <[mi := _]> (mc_heap m)).
  assert (Hp : forall k r, (k, r) ∈ al -> primary hp r <-> primary (mc_heap m) r).
  { intros k r Hin. unfold primary, hp. by rewrite lookup_insert_ne by (symmetry; by eapply Hne). }
  split; [split|].
  - split; try done.
    + intros j. specialize (ci_acct0 j). cbn [mc_heap upd]. unfold hp. destruct (decide (mi = j)) as [<-|].
      * rewrite lookup_insert_eq. cbn. lia.
      * by rewrite lookup_insert_ne.
    + intros k r Hin Hnet Hpr. eapply ci_regs0; [done|done|]. by eapply Hp.
  - intros j. specialize (fi_regs0 j). cbn [mc_heap upd]. unfold hp. destruct (decide (mi = j)) as [<-|].
    + rewrite lookup_insert_eq. by rewrite Hi in fi_regs0.
    + by rewrite lookup_insert_ne.
  - intros j mj. cbn [mc_heap upd]. unfold hp. destruct (decide (mi = j)) as [<-|].
    + rewrite lookup_insert_eq. by intros [= <-].
    + rewrite lookup_insert_ne by done. by apply fi_tun0.
  - intros j mj. cbn [mc_heap upd]. unfold hp. destruct (decide (mi = j)) as [<-|].
    + rewrite lookup_insert_eq. by intros [= <-].
    + rewrite lookup_insert_ne by done. by apply fi_iroutes0.
  - done.
  - intros C Hg _. split; [|cbn; lia]. intros k r Hin Hf. destruct (C k r Hin Hf) as [Hle Hb]. split; [done|].
    cbn [mc_heap upd]. intros Hgen (j & Hj & Hh). unfold hp in Hj. rewrite lookup_insert_ne in Hj by (symmetry; by eapply Hne).
    eapply best_ext; [|apply Hb; [done|eauto]]. intros k0 i0. unfold offers.
    split; intros (r0 & Hr0 & Hp0 & Hrest); exists r0; (split; [done|]); (split; [|done]); by apply (Hp k0).
Qed.

(** Routes dropped from the table. *)
Lemma core_sub m al rg al' h hp : core_inv m al rg -> represents h al' -> acct hp (map snd al') -> evolves (mc_heap m) hp ->
  (forall x, x ∈ al' -> x ∈ al) -> core_inv (m <| mc_vhash := h |> <| mc_heap := hp |>) al' rg.
Proof.
  intros [] R A E Hs. split; try done.
  - intros k r Hin%Hs. by eapply ci_keys0.
  - intros k r Hin%Hs. by eapply ci_flags0.
  - intros k r Hin%Hs Hnet Hp. eapply ci_regs0; [done|done|]. by eapply evolves_primary.
Qed.

(** A sweep that only drops routes that are not live leaves the cache right. *)
Lemma cache_sub m al al' h hp : cache_inv m al -> evolves (mc_heap m) hp -> (forall x, x ∈ al' -> x ∈ al) ->
  (forall k r, (k, r) ∈ al -> primary (mc_heap m) r -> (k, r) ∈ al') ->
  cache_inv (m <| mc_vhash := h |> <| mc_heap := hp |>) al'.
Proof.
  intros C E Hs Hk k r Hin Hf. destruct (C k r (Hs _ Hin) Hf) as [Hle Hb]. split; [done|]. intros Hg (j & Hj & Hh).
  eapply best_ext; [|apply Hb; [done|]].
  - intros k0 i0. unfold offers. split; intros (r0 & Hr0 & Hp0 & Hrest); exists r0.
    + split; [by apply Hk|]. split; [by apply (evolves_primary _ _ _ E)|done].
    + split; [by apply Hs|]. split; [by apply (evolves_primary _ _ _ E)|done].
  - destruct (ev_old _ _ E _ _ Hj) as (j0 & Hj0 & Hs0). exists j0. split; [done|]. unfold static in Hs0. congruence.
Qed.

Lemma sweep_inv dead del m al rg s e : full_inv m al rg -> 0 <= s <= e -> s <= h_n_buckets (mc_vhash m) ->
  (forall h hp r, evolves (mc_heap m) hp -> is_Some (hp !! ro_instance r) ->
    dead (m <| mc_vhash := h |> <| mc_heap := hp |>) r = Some (del r)) ->
  exists m' al', route_sweep dead m s e = Some m' /\ full_inv m' al' rg /\ frame m m' /\
    (forall k r, (k, r) ∈ al' -> (k, r) ∈ al) /\ (forall k r, (k, r) ∈ al -> del r = false -> (k, r) ∈ al') /\
    (s = 0 -> h_n_buckets (mc_vhash m) <= e -> forall k r, (k, r) ∈ al' -> del r = false) /\
    ((forall r, primary (mc_heap m) r -> del r = false) -> cache_step 0 m al m' al').
Proof.
  intros FI Hse Hs Hdead. pose proof (fi_core _ _ _ FI) as I.
  destruct (route_sweep_spec dead del m Hdead al s e (ci_rep _ _ _ I) (ci_acct _ _ _ I) Hse Hs)
    as (h & hp & seen & out & Ew & Hal & Hout & R & A & E).
  set (al' := filter _ seen ++ out) in *.
  assert (Hsub : forall x, x ∈ al' -> x ∈ al).
  { intros x [[_ Hx]%list_elem_of_filter|Hx]%elem_of_app; rewrite Hal; apply elem_of_app; auto. }
  assert (Hkeep : forall k r, (k, r) ∈ al -> del r = false -> (k, r) ∈ al').
  { intros k r Hin Hd. rewrite Hal in Hin. apply elem_of_app in Hin as [Hin|Hin]; apply elem_of_app; [left|by right].
    by apply list_elem_of_filter. }
  eexists _, al'. split; [exact Ew|]. split_and!.
  - eapply full_frame_reg; [exact FI|by eapply core_sub|by split_and!|done].
  - by split_and!.
  - intros k r. apply Hsub.
  - exact Hkeep.
  - intros H0 He k r Hin. unfold al' in Hin. rewrite (Hout H0 He), app_nil_r in Hin. by apply list_elem_of_filter in Hin as [? _].
  - intros Hpr C Hg _. split; [|cbn; lia]. eapply cache_sub; try done. intros k r Hin Hp. apply Hkeep; auto.
Qed.

Lemma buckets_pos m al rg : core_inv m al rg -> 0 < h_n_buckets (mc_vhash m).
Proof. intros I. destruct (hw_pow _ (proj1 (ci_rep _ _ _ I))) as (e & He & ->). apply Z.pow_pos_nonneg; lia. Qed.

(** The condition of the reaper. *)
Lemma reap_dead now m h hp r : evolves (mc_heap m) hp -> is_Some (hp !! ro_instance r) ->
  negb <$> multi_route_defined now (m <| mc_vhash := h |> <| mc_heap := hp |>) r
    = Some (negb (live_route now (mc_route_helper m) (mc_heap m) r)).
Proof.
  intros E Hr. rewrite route_defined_some by done. cbn [fmap option_fmap option_map]. do 2 f_equal.
  by apply (live_route_evolves now (mc_route_helper m) (mc_heap m) hp r).
Qed.

Lemma primary_not_reaped now m r : primary (mc_heap m) r ->
  negb (live_route now (mc_route_helper m) (mc_heap m) r) = false.
Proof. intros Hp. by rewrite (proj2 (primary_live now (mc_route_helper m) (mc_heap m) r (proj1 Hp)) Hp). Qed.

Lemma multi_reap_range_inv now m al rg s e : full_inv m al rg -> s < 0 \/ 0 <= s <= e /\ s <= h_n_buckets (mc_vhash m) ->
  exists m' al', multi_reap_range now m s e = Some m' /\ full_inv m' al' rg /\ frame m m' /\ cache_step 0 m al m' al' /\
    (forall k r, (k, r) ∈ al' -> (k, r) ∈ al) /\
    (forall k r, (k, r) ∈ al -> live_route now (mc_route_helper m) (mc_heap m) r = true -> (k, r) ∈ al') /\
    (s < 0 -> forall k r, (k, r) ∈ al' -> live_route now (mc_route_helper m) (mc_heap m) r = true).
Proof.
  intros FI Hs. pose proof (buckets_pos _ _ _ (fi_core _ _ _ FI)) as Hb. unfold multi_reap_range, hash_n_buckets.
  destruct (Z.ltb_spec s 0).
  - destruct (sweep_inv (fun m r => negb <$> multi_route_defined now m r)
      (fun r => negb (live_route now (mc_route_helper m) (mc_heap m) r)) m al rg 0 (h_n_buckets (mc_vhash m)) FI)
      as (m' & al' & Ew & FI' & F & Hsub & Hkeep & Hall & Hc); [lia|lia|apply reap_dead|].
    exists m', al'. split_and!; try done.
    + apply Hc. intros r. apply primary_not_reaped.
    + intros k r Hin Hl. apply Hkeep; [done|by rewrite Hl].
    + intros _ k r Hin. apply negb_false_iff. apply (Hall eq_refl ltac:(lia) k r Hin).
  - destruct Hs as [|[Hse Hsn]]; [lia|].
    destruct (sweep_inv (fun m r => negb <$> multi_route_defined now m r)
      (fun r => negb (live_route now (mc_route_helper m) (mc_heap m) r)) m al rg s e FI Hse Hsn)
      as (m' & al' & Ew & FI' & F & Hsub & Hkeep & Hall & Hc); [apply reap_dead|].
    exists m', al'. split_and!; try done; [|intros k r Hin Hl; apply Hkeep; [done|by rewrite Hl]|lia].
    apply Hc. intros r. apply primary_not_reaped.
Qed.

Lemma multi_reap_process_inv now m al rg : full_inv m al rg ->
  exists m' al', multi_reap_process now m = Some m' /\ full_inv m' al' rg /\ cache_step 0 m al m' al'.
Proof.
  intros FI. unfold multi_reap_process. destruct (negb _).
  2:{ exists m, al. split_and!; try done. intros C Hg _. split; [done|lia]. }
  unfold multi_reap_process_dowork, hash_n_buckets. destruct (fi_reap _ _ _ FI) as [Hb Hp].
  pose proof (buckets_pos _ _ _ (fi_core _ _ _ FI)) as Hn.
  set (base := if _ <=? _ then 0 else _).
  assert (Hbase : 0 <= base <= h_n_buckets (mc_vhash m)) by (unfold base; destruct (Z.leb_spec (h_n_buckets (mc_vhash m)) (mr_bucket_base (mc_reaper m))); lia).
  destruct (multi_reap_range_inv now m al rg base (base + mr_buckets_per_pass (mc_reaper m)) FI)
    as (m' & al' & -> & FI' & F & Hc & _); [right; lia|].
  cbn [mbind option_bind]. eexists _, al'. split; [reflexivity|]. split; [|done].
  destruct FI'. split; try done; [by destruct fi_core0|]. cbn. lia.
Qed.

Lemma check_stale_inv now m al rg : full_inv m al rg ->
  exists m' al', check_stale_routes now m = Some m' /\ full_inv m' al' rg.
Proof.
  intros FI. unfold check_stale_routes, hash_n_buckets. pose proof (buckets_pos _ _ _ (fi_core _ _ _ FI)) as Hn.
  destruct (sweep_inv (fun m r => d ← multi_route_defined now m r;
      Some (d && (mc_stale_routes_ageing_time m <=? now - ro_last_reference r)))
    (fun r => live_route now (mc_route_helper m) (mc_heap m) r &&
      (mc_stale_routes_ageing_time m <=? now - ro_last_reference r)) m al rg 0 (h_n_buckets (mc_vhash m)) FI)
    as (m' & al' & Ew & FI' & _); [lia|lia| |by exists m', al'].
  intros h hp r E Hr. cbn beta. rewrite route_defined_some by done. cbn [mbind option_bind]. do 2 f_equal.
  by apply (live_route_evolves now (mc_route_helper m) (mc_heap m) hp r).
Qed.

(** ** Sequences of operations *)

Inductive multi_op :=
| MCreate (mi : inst_ptr) (max_routes : Z) (iroutes : list (Z * Z)) (iroutes_ipv6 : list (list Z * Z))
| MAddIroutes (env : learn_env) (now : Z) (stack : mroute_addr) (mi : inst_ptr)
| MLearn (env : learn_env) (now : Z) (mi : inst_ptr) (addr : mroute_addr)
| MLearnIn4 (env : learn_env) (now : Z) (stack : mroute_addr) (mi : inst_ptr) (a : Z)
| MLearnIn6 (env : learn_env) (now : Z) (stack : mroute_addr) (mi : inst_ptr) (a6 : list Z)
| MLookup (env : learn_env) (now : Z) (addr : mroute_addr) (cidr_routing : bool)
| MClose (mi : inst_ptr)
| MReapAll (now : Z)
| MReap (now : Z)
| MStale (now : Z).

Definition multi_exec (m : multi_context) (op : multi_op) : option multi_context :=
  match op with
  | MCreate mi mx ir ir6 => create_instance_routing m mi mx ir ir6
  | MAddIroutes env now stack mi => multi_add_iroutes env now stack m mi
  | MLearn env now mi addr => snd <$> multi_learn_addr env now m mi addr 0
  | MLearnIn4 env now stack mi a => snd <$> multi_learn_in_addr_t env now m mi stack a (-1)
  | MLearnIn6 env now stack mi a6 => snd <$> multi_learn_in6_addr env now m mi stack a6 (-1)
  | MLookup env now addr cidr => snd <$> multi_get_instance_by_virtual_addr env now m addr cidr
  | MClose mi => close_instance_routing m mi false
  | MReapAll now => multi_reap_all now m
  | MReap now => multi_reap_process now m
  | MStale now => check_stale_routes now m
  end.

(** The instance is open; [did] when it has not registered its networks yet. *)
Definition open_inst (m : multi_context) (mi : inst_ptr) (fresh : bool) : Prop :=
  exists i, mc_heap m !! mi = Some i /\ mi_halt i = false /\ (fresh = true -> mi_did_iroutes i = false).

(** What the callers guarantee: an allocated instance is new, networks are
    registered once, only open instances learn and are closed, and the options
    hold well-formed networks. *)
Definition op_ok (m : multi_context) (op : multi_op) : Prop :=
  match op with
  | MCreate mi mx ir ir6 => mc_heap m !! mi = None /\ iroutes_ok (mkmi false 0 0 mx false ir ir6)
  | MAddIroutes _ _ stack mi => mroute_addr_wf stack /\ open_inst m mi true
  | MLearn _ _ mi addr => open_inst m mi false /\ mroute_addr_wf addr /\ is_net addr = false
  | MLearnIn4 _ _ stack mi _ => mroute_addr_wf stack /\ open_inst m mi false
  | MLearnIn6 _ _ stack mi a6 => mroute_addr_wf stack /\ open_inst m mi false /\ zlen a6 = 16 /\ Forall is_byte a6
  | MLookup _ _ addr cidr => cidr = true -> ip_host addr
  | MClose mi => open_inst m mi false
  | MReapAll _ | MReap _ | MStale _ => True
  end.

(** How many prefix lengths the operation registers or gives back. *)
Definition op_iroutes (m : multi_context) (op : multi_op) : Z :=
  match op with
  | MAddIroutes _ _ _ mi | MClose mi =>
      match mc_heap m !! mi with Some i => zlen (mi_iroutes i) + zlen (mi_iroutes_ipv6 i) | None => 0 end
  | _ => 0
  end.
Definition is_stale_check (op : multi_op) : bool := match op with MStale _ => true | _ => false end.

Fixpoint multi_run (m : multi_context) (ops : list multi_op) : option multi_context :=
  match ops with
  | [] => Some m
  | op :: ops' => m' ← multi_exec m op; multi_run m' ops'
  end.
(** Every operation meets its contract in the state it runs in; [cached] asks
    further that routes are not aged out and that the 32-bit generation of the
    cache does not wrap. *)
Fixpoint run_ok (cached : bool) (m : multi_context) (ops : list multi_op) : Prop :=
  match ops with
  | [] => True
  | op :: ops' =>
      op_ok m op /\
      (cached = true -> is_stale_check op = false /\
         mh_cache_generation (mc_route_helper m) + op_iroutes m op < 2 ^ 32) /\
      forall m', multi_exec m op = Some m' -> run_ok cached m' ops'
  end.

Definition run_inv (cached : bool) (m : multi_context) (al : rtable) (rg : regs) : Prop :=
  full_inv m al rg /\ (cached = true -> cache_inv m al /\ 0 <= mh_cache_generation (mc_route_helper m)).

Lemma run_inv_step cached m al rg m' al' rg' b : run_inv cached m al rg -> full_inv m' al' rg' ->
  (cached = true -> mh_cache_generation (mc_route_helper m) + b < 2 ^ 32) ->
  (cached = true -> cache_step b m al m' al') -> run_inv cached m' al' rg'.
Proof.
  intros [_ C] FI Hb Hc. split; [done|]. intros Hcd. destruct (C Hcd) as [C1 G1].
  destruct (Hc Hcd C1 G1 (Hb Hcd)) as [C2 G2]. split; [done|lia].
Qed.

Lemma frame_step m al rg m' al' : full_inv m al rg -> core_inv m' al' rg -> frame m m' ->
  full_inv m' al' rg /\ ((cache_inv m al -> cache_inv m' al') -> cache_step 0 m al m' al').
Proof.
  intros FI I F. split; [eapply full_frame_reg; [done|done|by apply frame_frame_reg|done]|].
  intros Hc C Hg _. destruct F as (-> & _). split; [auto|lia].
Qed.

Lemma learn_step env now m al rg mi addr : full_inv m al rg -> open_inst m mi false -> key_ok addr -> is_net addr = false ->
  exists m' al', snd <$> multi_learn_addr env now m mi addr 0 = Some m' /\ full_inv m' al' rg /\ cache_step 0 m al m' al'.
Proof.
  intros FI (i & Hi & Hh & _) Hk Hn.
  destruct (learn_inv env now m al rg mi i addr (fi_core _ _ _ FI) Hk) as (o & m' & al' & -> & I & F & _ & Hc); [congruence|done|done|].
  exists m', al'. destruct (frame_step _ _ _ _ _ FI I F) as [FI' Hs]. split_and!; auto.
Qed.

Lemma host_key addr : mroute_addr_wf addr -> is_net addr = false -> key_ok addr.
Proof. intros W Hn. split; [done|congruence]. Qed.

Lemma multi_exec_inv cached m al rg op : run_inv cached m al rg -> op_ok m op ->
  (cached = true -> is_stale_check op = false /\ mh_cache_generation (mc_route_helper m) + op_iroutes m op < 2 ^ 32) ->
  exists m' al' rg', multi_exec m op = Some m' /\ run_inv cached m' al' rg'.
Proof.
  intros R Hok Hb. pose proof R as [FI _].
  assert (Hb' : cached = true -> mh_cache_generation (mc_route_helper m) + op_iroutes m op < 2 ^ 32) by (intros Hc; by apply Hb).
  assert (Hfin : forall m' al' rg', full_inv m' al' rg' -> (cached = true -> cache_step (op_iroutes m op) m al m' al') ->
    run_inv cached m' al' rg') by (intros; by eapply run_inv_step).
  destruct op as [mi mx ir ir6|env now stack mi|env now mi addr|env now stack mi a|env now stack mi a6|env now addr cidr|mi|now|now|now];
    cbn [multi_exec op_ok] in *.
  - destruct Hok as [Hi Hok]. destruct (multi_create_inv m al rg mi mx ir ir6 FI Hi Hok) as (m' & -> & FI' & C). eauto 6.
  - destruct Hok as (Hst & i & Hi & Hh & Hd).
    destruct (multi_add_iroutes_inv env now stack m al rg mi i FI Hst Hi Hh (Hd eq_refl)) as (m' & al' & rg' & -> & FI' & C).
    exists m', al', rg'. split; [done|]. apply Hfin; [done|]. cbn [op_iroutes]. by rewrite Hi.
  - destruct Hok as (Ho & W & Hn). destruct (learn_step env now m al rg mi addr FI Ho (host_key _ W Hn) Hn) as (m' & al' & -> & FI' & C). eauto 6.
  - destruct Hok as [Hst Ho]. destruct (learn_in_addr_key stack a (-1) Hst ltac:(lia)) as (addr & -> & Hk & Hn & _).
    destruct (learn_step env now m al rg mi addr FI Ho Hk Hn) as (m' & al' & -> & FI' & C). eauto 6.
  - destruct Hok as (Hst & Ho & Hl & Hby). destruct (learn_in6_addr_key stack a6 (-1) Hst ltac:(lia) Hl Hby) as (addr & -> & Hk & Hn & _).
    destruct (learn_step env now m al rg mi addr FI Ho Hk Hn) as (m' & al' & -> & FI' & C). eauto 6.
  - destruct cidr.
    + destruct (lookup_spec env now m al rg addr (fi_core _ _ _ FI) (Hok eq_refl)) as (ret & m' & al' & -> & I & F & Hc).
      destruct (frame_step _ _ _ _ _ FI I F) as [FI' Hs]. exists m', al', rg. split; [done|]. apply Hfin; [done|].
      intros _. apply Hs. intros C. by apply Hc.
    + destruct (lookup_host env now m al rg addr (fi_core _ _ _ FI)) as (ret & m' & al' & -> & I & F & Hc & _).
      destruct (frame_step _ _ _ _ _ FI I F) as [FI' Hs]. exists m', al', rg. split; [done|]. apply Hfin; auto.
  - destruct Hok as (i & Hi & Hh & _). destruct (multi_close_inv m al rg mi i FI Hi Hh) as (m' & rg' & -> & FI' & C).
    exists m', al, rg'. split; [done|]. apply Hfin; [done|]. cbn [op_iroutes]. by rewrite Hi.
  - unfold multi_reap_all. destruct (multi_reap_range_inv now m al rg (-1) 0 FI) as (m' & al' & -> & FI' & F & C & _); [lia|]. eauto 6.
  - destruct (multi_reap_process_inv now m al rg FI) as (m' & al' & -> & FI' & C). eauto 6.
  - destruct (check_stale_inv now m al rg FI) as (m' & al' & -> & FI'). exists m', al', rg. split; [done|]. apply Hfin; [done|].
    intros Hc. by destruct (Hb Hc) as [[=] _].
Qed.

Lemma run_invariant cached ops : forall m al rg, run_inv cached m al rg -> run_ok cached m ops ->
  exists m' al' rg', multi_run m ops = Some m' /\ run_inv cached m' al' rg'.
Proof.
  induction ops as [|op ops IH]; intros m al rg R; cbn [multi_run run_ok]; [eauto 6|]. intros (Hok & Hb & Hn).
  destruct (multi_exec_inv cached m al rg op R Hok Hb) as (m1 & al1 & rg1 & E & R1). rewrite E in *. cbn [mbind option_bind].
  apply (IH m1 al1 rg1); [done|]. by apply Hn.
Qed.

Lemma multi_init_inv cached now iv n local tun stale : 0 < n <= 2 ^ 30 ->
  exists m, multi_init now iv n local tun stale = Some m /\ run_inv cached m [] [].
Proof.
  intros Hn. unfold multi_init. destruct (hash_init_represents (K := mroute_addr) (V := multi_route) n iv Hn) as (h & -> & R & _).
  cbn [mbind option_bind]. eexists. split; [reflexivity|]. split; [split|].
  - split; cbn [mc_vhash mc_heap mc_route_helper]; try done; try (intros *; intros []%elem_of_nil).
    apply helper_init_ok.
  - done.
  - intros i mi. cbn [mc_heap]. by rewrite lookup_empty.
  - intros i mi. cbn [mc_heap]. by rewrite lookup_empty.
  - cbn [mc_reaper multi_reap_new mr_bucket_base mr_buckets_per_pass]. unfold reap_buckets_per_pass. destruct (constrain_int_range (Z.quot n REAP_DIVISOR) REAP_MIN REAP_MAX) as [Hr _]; [done|].
    unfold REAP_MIN, REAP_MAX in *. lia.
  - intros _. split; [|done]. intros k r []%elem_of_nil.
Qed.

(** ** Properties *)

(** The routes of the table. *)
Definition table (m : multi_context) : rtable := pairs (elems (mc_vhash m)).

Lemma run_from_init cached now iv n local tun stale ops m0 : 0 < n <= 2 ^ 30 ->
  multi_init now iv n local tun stale = Some m0 -> run_ok cached m0 ops ->
  exists m al rg, multi_run m0 ops = Some m /\ run_inv cached m al rg /\ table m ≡ₚ al.
Proof.
  intros Hn Hi Hok. destruct (multi_init_inv cached now iv n local tun stale Hn) as (m0' & Hi' & R).
  rewrite Hi in Hi'. injection Hi' as <-. destruct (run_invariant cached ops m0 [] [] R Hok) as (m & al & rg & Hr & R').
  exists m, al, rg. split_and!; try done. apply (ci_rep _ _ _ (fi_core _ _ _ (proj1 R'))).
Qed.

(** C29. Whatever sequence of operations the server runs, no assertion fails and no
    freed instance is used, and afterwards every route refers to an instance that
    exists, the route count of an instance is the number of its routes and within
    its quota, and its reference count is that number plus one while it is open. *)
Theorem instances_exact now iv n local tun stale m0 ops : 0 < n <= 2 ^ 30 ->
  multi_init now iv n local tun stale = Some m0 -> run_ok false m0 ops ->
  exists m, multi_run m0 ops = Some m /\
    (forall k r, (k, r) ∈ table m -> is_Some (mc_heap m !! ro_instance r)) /\
    forall mi i, mc_heap m !! mi = Some i ->
      mi_route_count i = routes_of mi (map snd (table m)) /\
      mi_route_count i <= Z.max 0 (mi_max_routes_per_client i) /\
      mi_refcount i = mi_route_count i + (if mi_halt i then 0 else 1) /\ 0 < mi_refcount i.
Proof.
  intros Hn Hi Hok. destruct (run_from_init _ _ _ _ _ _ _ _ _ Hn Hi Hok) as (m & al & rg & Hr & [FI _] & Hal).
  exists m. split; [done|]. pose proof (ci_acct _ _ _ (fi_core _ _ _ FI)) as A. rewrite <- Hal in A. split.
  - intros k r Hin. apply (acct_elem _ (map snd (table m)) r A). apply list_elem_of_fmap. by exists (k, r).
  - intros mi i Hmi. specialize (A mi). rewrite Hmi in A. cbn in A. lia.
Qed.

(** C28. With cached host routes coming and going, a lookup of a destination still
    answers what the longest-prefix rule says about the routes that were learned:
    the open instance with the most specific route for it, a host route before any
    network, and none only if no route of an open instance covers it.  The runs are those
    without a check for stale routes, which takes networks away and leaves the host routes
    cached for them ([stale_check_keeps_cached]), and in which fewer than 2^32 changes of
    networks happen, after which the generation of the cache would come round. *)
Theorem lookup_longest_prefix now iv n local tun stale m0 ops env t d : 0 < n <= 2 ^ 30 ->
  multi_init now iv n local tun stale = Some m0 -> run_ok true m0 ops -> ip_host d ->
  exists m ret m', multi_run m0 ops = Some m /\ multi_get_instance_by_virtual_addr env t m d true = Some (ret, m') /\
    if mroute_addr_equal d (mc_local m) then ret = None else best (mc_heap m) (table m) d ret.
Proof.
  intros Hn Hi Hok Hd. destruct (run_from_init _ _ _ _ _ _ _ _ _ Hn Hi Hok) as (m & al & rg & Hr & [FI HC] & Hal).
  destruct (HC eq_refl) as [C _].
  destruct (lookup_spec env t m al rg d (fi_core _ _ _ FI) Hd) as (ret & m' & al' & Hl & _ & _ & Hb).
  exists m, ret, m'. split; [done|]. split; [done|]. destruct (Hb C) as [_ Hb']. destruct (mroute_addr_equal _ _); [done|].
  eapply best_ext; [|exact Hb']. intros k i. unfold offers. by setoid_rewrite Hal.
Qed.

(** A full pass of the reaper after any run keeps exactly the routes that are
    live, and afterwards no closed instance is left in memory. *)
Theorem reap_frees_closed now iv n local tun stale m0 ops t : 0 < n <= 2 ^ 30 ->
  multi_init now iv n local tun stale = Some m0 -> run_ok false m0 ops ->
  exists m m', multi_run m0 ops = Some m /\ multi_reap_all t m = Some m' /\
    (forall k r, (k, r) ∈ table m' <-> (k, r) ∈ table m /\ live_route t (mc_route_helper m) (mc_heap m) r = true) /\
    (forall mi i, mc_heap m' !! mi = Some i -> mi_halt i = false).
Proof.
  intros Hn Hi Hok. destruct (run_from_init _ _ _ _ _ _ _ _ _ Hn Hi Hok) as (m & al & rg & Hr & [FI _] & Hal).
  destruct (multi_reap_range_inv t m al rg (-1) 0 FI) as (m' & al' & Hp & FI' & F & _ & Hsub & Hkeep & Hall); [lia|].
  exists m, m'. split; [done|]. split; [done|].
  pose proof (proj2 (ci_rep _ _ _ (fi_core _ _ _ FI'))) as Hal'. fold (table m') in Hal'. split.
  - intros k r. rewrite Hal', Hal. split; [intros Hin; split; [by apply Hsub|by eapply Hall]|]. intros [Hin Hl]. by apply Hkeep.
  - intros mi i Hmi. destruct (mi_halt i) eqn:Hh; [|done].
    pose proof (ci_acct _ _ _ (fi_core _ _ _ FI') mi) as A. rewrite Hmi in A. cbn in A. rewrite Hh in A.
    destruct (routes_of_pos mi (map snd al')) as (r & ([k r'] & -> & Hin)%list_elem_of_fmap & He); [lia|].
    pose proof (Hall ltac:(lia) k r' Hin) as Hl. destruct (live_open _ _ _ _ Hl) as (i0 & Hi0 & Hh0).
    destruct F as (_ & _ & _ & _ & _ & E). destruct (ev_old _ _ E _ _ Hmi) as (i1 & Hi1 & Hs).
    cbn in He. rewrite He, Hi1 in Hi0. injection Hi0 as ->. unfold static in Hs. congruence.
Qed.

(** *** A concrete server *)

Definition no_scripts : learn_env := mkle None None.
Definition stack0 : mroute_addr := mroute_addr_init.
Definition ip4 (a b c d : Z) : Z := be_val [a; b; c; d].
Definition host4 (a b c d : Z) : mroute_addr := mroute_extract_in_addr_t mroute_addr_init (ip4 a b c d).

(** Two clients own nested networks; the inner one goes away again. *)
Definition server_ops : list multi_op :=
  [MCreate 0%nat 10 [(ip4 10 1 0 0, 16)] []; MCreate 1%nat 10 [(ip4 10 1 2 0, 24); (ip4 10 8 0 1, -1)] [];
   MLearnIn4 no_scripts 1 stack0 0%nat (ip4 10 8 0 6); MAddIroutes no_scripts 1 stack0 0%nat;
   MAddIroutes no_scripts 1 stack0 1%nat; MLookup no_scripts 2 (host4 10 1 2 9) true;
   MLookup no_scripts 3 (host4 10 1 2 9) true; MLookup no_scripts 3 (host4 10 1 7 7) true].
Definition closing_ops : list multi_op := server_ops ++ [MClose 1%nat; MLookup no_scripts 4 (host4 10 1 2 9) true].

Ltac bytes_tac := apply (bool_decide_unpack _); vm_compute; exact I.
Ltac host_tac := split; [split; [reflexivity|bytes_tac]|split; [reflexivity|left; split; reflexivity]].
Ltac open_tac := eexists; split; [vm_compute; reflexivity|split; [reflexivity|first [intros _; reflexivity|intros [=]]]].
Ltac op_ok_tac :=
  cbn [op_ok];
  first [ exact I
        | split; [vm_compute; reflexivity|split; bytes_tac]
        | split; [split; [reflexivity|bytes_tac]|open_tac]
        | intros _; host_tac
        | open_tac ].
Ltac run_ok_tac :=
  repeat (split; [op_ok_tac|split; [first [let Hx := fresh in intros Hx; discriminate Hx | intros _; split; [reflexivity|vm_compute; reflexivity]]|
    let m := fresh in let H := fresh in intros m H; vm_compute in H; injection H as <-]]); exact I.

Lemma lookup_longest_prefix_witness : exists m0, multi_init 0 7 4 (ip4 10 8 0 1) true 0 = Some m0 /\
  exists m ret m', multi_run m0 server_ops = Some m /\
    multi_get_instance_by_virtual_addr no_scripts 5 m (host4 10 1 2 9) true = Some (ret, m') /\
    ret = Some 1%nat /\ best (mc_heap m) (table m) (host4 10 1 2 9) ret.
Proof.
  destruct (multi_init 0 7 4 (ip4 10 8 0 1) true 0) as [m0|] eqn:E0; [|vm_compute in E0; discriminate].
  exists m0. split; [reflexivity|].
  destruct (lookup_longest_prefix 0 7 4 (ip4 10 8 0 1) true 0 m0 server_ops no_scripts 5 (host4 10 1 2 9))
    as (m & ret & m' & Hr & Hl & Hb); [lia|exact E0| |host_tac|].
  - vm_compute in E0. injection E0 as <-. unfold server_ops. run_ok_tac.
  - exists m, ret, m'. split; [exact Hr|]. split; [exact Hl|].
    vm_compute in E0. injection E0 as <-. vm_compute in Hr. injection Hr as <-. vm_compute in Hl. injection Hl as <- <-.
    split; [reflexivity|exact Hb].
Defined.

Lemma instances_exact_witness : exists m0, multi_init 0 7 4 (ip4 10 8 0 1) true 0 = Some m0 /\
  exists m, multi_run m0 (closing_ops ++ [MStale 9]) = Some m /\
    (forall k r, (k, r) ∈ table m -> is_Some (mc_heap m !! ro_instance r)) /\
    exists i, mc_heap m !! 0%nat = Some i /\ mi_route_count i = routes_of 0%nat (map snd (table m)).
Proof.
  destruct (multi_init 0 7 4 (ip4 10 8 0 1) true 0) as [m0|] eqn:E0; [|vm_compute in E0; discriminate].
  exists m0. split; [reflexivity|].
  destruct (instances_exact 0 7 4 (ip4 10 8 0 1) true 0 m0 (closing_ops ++ [MStale 9])) as (m & Hr & Hall & Hc);
    [lia|exact E0| |].
  - vm_compute in E0. injection E0 as <-. unfold closing_ops, server_ops. cbn [app]. run_ok_tac.
  - exists m. split; [exact Hr|]. split; [exact Hall|].
    vm_compute in E0. injection E0 as <-. vm_compute in Hr. injection Hr as <-.
    eexists. split; [reflexivity|]. exact (proj1 (Hc 0%nat _ eq_refl)).
Defined.

Lemma reap_frees_closed_witness : exists m0, multi_init 0 7 4 (ip4 10 8 0 1) true 0 = Some m0 /\
  exists m m', multi_run m0 closing_ops = Some m /\ multi_reap_all 5 m = Some m' /\
    is_Some (mc_heap m !! 1%nat) /\ mc_heap m' !! 1%nat = None /\
    (forall mi i, mc_heap m' !! mi = Some i -> mi_halt i = false).
Proof.
  destruct (multi_init 0 7 4 (ip4 10 8 0 1) true 0) as [m0|] eqn:E0; [|vm_compute in E0; discriminate].
  exists m0. split; [reflexivity|].
  destruct (reap_frees_closed 0 7 4 (ip4 10 8 0 1) true 0 m0 closing_ops 5) as (m & m' & Hr & Hp & _ & Hh);
    [lia|exact E0| |].
  - vm_compute in E0. injection E0 as <-. unfold closing_ops, server_ops. cbn [app]. run_ok_tac.
  - exists m, m'. split; [exact Hr|]. split; [exact Hp|].
    vm_compute in E0. injection E0 as <-. vm_compute in Hr. injection Hr as <-. vm_compute in Hp. injection Hp as <-.
    split; [eexists; reflexivity|]. split; [reflexivity|exact Hh].
Defined.

(** The stale-route check ages out networks that are in use: a lookup through a
    network refreshes the cached host route only, so that a network learned at
    time 1 and used at time 100 is dropped by a check with an ageing time of 50, and
    the destination is unreachable once the cached route has expired. *)
Theorem stale_check_drops_used_network : exists m0 m1 m2 m3 m4,
  multi_init 0 7 4 (ip4 10 8 0 1) true 50 = Some m0 /\ multi_run m0 server_ops = Some m1 /\
  multi_get_instance_by_virtual_addr no_scripts 100 m1 (host4 10 1 7 7) true = Some (Some 0%nat, m2) /\
  check_stale_routes 100 m2 = Some m3 /\
  multi_get_instance_by_virtual_addr no_scripts 200 m3 (host4 10 1 7 7) true = Some (None, m4).
Proof. do 5 eexists. do 4 (split; [vm_compute; reflexivity|]). vm_compute. reflexivity. Qed.

(** And until then it is reachable though no network is left: the cached route outlives
    the network it was made for. *)
Lemma stale_check_keeps_cached : exists m0 m1 m2 m3 m4,
  multi_init 0 7 4 (ip4 10 8 0 1) true 50 = Some m0 /\ multi_run m0 server_ops = Some m1 /\
  multi_get_instance_by_virtual_addr no_scripts 100 m1 (host4 10 1 7 7) true = Some (Some 0%nat, m2) /\
  check_stale_routes 100 m2 = Some m3 /\
  multi_get_instance_by_virtual_addr no_scripts 101 m3 (host4 10 1 7 7) true = Some (Some 0%nat, m4) /\
  existsb is_net (map fst (table m3)) = false.
Proof. do 5 eexists. do 5 (split; [vm_compute; reflexivity|]). vm_compute. reflexivity. Qed.
