(* ===== verification/Otime.v ===== *)
(** Time: [src/openvpn/otime.c], [otime.h], [interval.c] and [interval.h].  The
    arithmetic of [struct timeval], the filter against jumps of the system clock,
    the limit on the frequency of events and the interval timers.  The system
    clock is an argument; [time_t] is 64 bits wide and does not overflow. *)
From S2P Require Import Prelude Integer.
From Stdlib Require Import Sorting.Sorted.

(** ** [struct timeval] *)

Record timeval := mktv { tv_sec : Z; tv_usec : Z }.
#[export] Instance eta_tv : EtaOf timeval := fun r => mktv (tv_sec r) (tv_usec r).
#[export] Instance timeval_eq_dec : EqDecision timeval.
Proof. solve_decision. Defined.

Definition tv_clear : timeval := mktv 0 0.
Definition tv_defined (tv : timeval) : bool := (0 <? tv_sec tv) && (0 <? tv_usec tv).

(** [int] arithmetic: the operands are small where the function is used. *)
Definition tv_subtract (tv1 tv2 : timeval) (max_seconds : Z) : Z :=
  let max_usec := i32 (u32 (max_seconds * 1000000)) in
  let sec_diff := i32 (tv_sec tv1 - tv_sec tv2) in
  if i32 max_seconds + 10 <? sec_diff then max_usec
  else if sec_diff <? - (i32 max_seconds + 10) then - max_usec
  else constrain_int (i32 (sec_diff * 1000000 + (tv_usec tv1 - tv_usec tv2))) (- max_usec) max_usec.

Definition tv_add (dest src : timeval) : timeval :=
  let dest := mktv (tv_sec dest + tv_sec src) (tv_usec dest + tv_usec src) in
  let dest := dest <| tv_sec := tv_sec dest + Z.shiftr (tv_usec dest) 20 |> in
  let dest := dest <| tv_usec := Z.land (tv_usec dest) 0x000FFFFF |> in
  if 1000000 <=? tv_usec dest
  then mktv (tv_sec dest + 1) (tv_usec dest - 1000000) else dest.

Definition tv_lt (t1 t2 : timeval) : bool :=
  if tv_sec t1 <? tv_sec t2 then true else if tv_sec t2 <? tv_sec t1 then false else tv_usec t1 <? tv_usec t2.
Definition tv_le (t1 t2 : timeval) : bool :=
  if tv_sec t1 <? tv_sec t2 then true else if tv_sec t2 <? tv_sec t1 then false else tv_usec t1 <=? tv_usec t2.
Definition tv_ge (t1 t2 : timeval) : bool :=
  if tv_sec t2 <? tv_sec t1 then true else if tv_sec t1 <? tv_sec t2 then false else tv_usec t2 <=? tv_usec t1.
Definition tv_gt (t1 t2 : timeval) : bool :=
  if tv_sec t2 <? tv_sec t1 then true else if tv_sec t1 <? tv_sec t2 then false else tv_usec t2 <? tv_usec t1.
Definition tv_eq (t1 t2 : timeval) : bool := (tv_sec t1 =? tv_sec t2) && (tv_usec t1 =? tv_usec t2).

(** [while (usec < 0)]; one turn suffices for normalised times. *)
Fixpoint tv_delta_loop (fuel : nat) (sec usec : Z) : option (Z * Z) :=
  if usec <? 0
  then match fuel with O => None | S fuel' => tv_delta_loop fuel' (sec - 1) (usec + 1000000) end
  else Some (sec, usec).
Definition tv_delta (t1 t2 : timeval) : option timeval :=
  let sec := i32 (tv_sec t2 - tv_sec t1) in
  let usec := i32 (tv_usec t2 - tv_usec t1) in
  '(sec, usec) ← tv_delta_loop (S (Z.to_nat (- usec / 1000000))) sec usec;
  Some (if sec <? 0 then mktv 0 0 else mktv sec usec).

Definition TV_WITHIN_SIGMA_MAX_SEC : Z := 600.
Definition TV_WITHIN_SIGMA_MAX_USEC : Z := TV_WITHIN_SIGMA_MAX_SEC * 1000000.
Definition tv_within_sigma (t1 t2 : timeval) (sigma : Z) : bool :=
  let delta := tv_subtract t1 t2 TV_WITHIN_SIGMA_MAX_SEC in
  (- i32 sigma <=? delta) && (delta <=? i32 sigma).

(** ** The clock *)

(** The globals [now], [now_adj] and [now_usec]. *)
Record clock := mkclock { now : Z; now_adj : Z; now_usec : Z }.
#[export] Instance eta_clock : EtaOf clock := fun r => mkclock (now r) (now_adj r) (now_usec r).
Definition clock_start : clock := mkclock 0 0 0.

Definition forward_threshold : Z := 86400.
Definition backward_trigger : Z := 10.
Definition update_now (c : clock) (system_time : Z) : clock :=
  let real_time := system_time + now_adj c in
  if now c <? real_time then
    let overshoot := real_time - now c - 1 in
    if (forward_threshold <? overshoot) && (overshoot <=? now_adj c)
    then c <| now_adj := now_adj c - overshoot |> <| now := real_time - overshoot |>
    else c <| now := real_time |>
  else if real_time <? now c - backward_trigger
  then c <| now_adj := now_adj c + (now c - real_time) |>
  else c.

Definition update_now_usec (c : clock) (tv : timeval) : clock :=
  let last := now c in
  let c := update_now c (tv_sec tv) in
  if (last <? now c) || ((now c =? last) && (now_usec c <? tv_usec tv))
  then c <| now_usec := tv_usec tv |> else c.

(** [None] for the time is a failure of the system call. *)
Definition openvpn_gettimeofday (c : clock) (gettimeofday : option timeval) : option timeval * clock :=
  match gettimeofday with
  | Some tv => let c := update_now_usec c tv in (Some (mktv (now c) (now_usec c)), c)
  | None => (None, c)
  end.
Definition update_time (c : clock) (time : Z) : clock := (update_now c time) <| now_usec := 0 |>.
Definition openvpn_time (c : clock) (time : Z) : Z * clock := let c := update_time c time in (now c, c).

(** ** Limiting the frequency of events *)

Record frequency_limit := mkfl { fl_max : Z; fl_per : Z; fl_n : Z; fl_reset : Z }.
#[export] Instance eta_fl : EtaOf frequency_limit := fun r => mkfl (fl_max r) (fl_per r) (fl_n r) (fl_reset r).

Definition frequency_limit_init (max per : Z) : option frequency_limit :=
  if (0 <=? max) && (0 <=? per) then Some (mkfl max per 0 0) else None.
Definition frequency_limit_event_allowed (f : frequency_limit) (now : Z) : bool * frequency_limit :=
  if negb (fl_per f =? 0) then
    let f := if fl_reset f + fl_per f <=? now then f <| fl_reset := now |> <| fl_n := 0 |> else f in
    let f := f <| fl_n := fl_n f + 1 |> in
    (fl_n f <=? fl_max f, f)
  else (true, f).

(** ** Intervals and recurring timers *)

Definition interval_earliest_wakeup (wakeup at_ current : Z) : Z :=
  if current <? at_ then
    let delta := i32 (at_ - current) in
    let wakeup := if delta <? wakeup then delta else wakeup in
    if wakeup <? 0 then 0 else wakeup
  else wakeup.

Record interval := mkint {
  in_refresh : Z; in_horizon : Z; in_future_trigger : Z; in_last_action : Z; in_last_test_true : Z }.
#[export] Instance eta_int : EtaOf interval := fun r =>
  mkint (in_refresh r) (in_horizon r) (in_future_trigger r) (in_last_action r) (in_last_test_true r).

Definition interval_init (horizon refresh : Z) : interval := mkint refresh horizon 0 0 0.
Definition interval_test (top : interval) (now : Z) : bool * interval :=
  let hit := negb (in_future_trigger top =? 0) && (in_future_trigger top <=? now) in
  let top := if hit then top <| in_future_trigger := 0 |> else top in
  if (now <? in_last_action top + in_horizon top) || (in_last_test_true top + in_refresh top <=? now) || hit
  then (true, top <| in_last_test_true := now |>)
  else (false, top).
Definition interval_schedule_wakeup (top : interval) (now wakeup : Z) : Z :=
  interval_earliest_wakeup
    (interval_earliest_wakeup wakeup (in_last_test_true top + in_refresh top) now) (in_future_trigger top) now.
Definition interval_future_trigger (top : interval) (now wakeup : Z) : interval :=
  if negb (wakeup =? 0) then top <| in_future_trigger := now + wakeup |> else top.
Definition interval_action (top : interval) (now : Z) : interval := top <| in_last_action := now |>.

Record event_timeout := mket { et_defined : bool; et_n : Z; et_last : Z }.
#[export] Instance eta_et : EtaOf event_timeout := fun r => mket (et_defined r) (et_n r) (et_last r).

Definition event_timeout_defined (et : event_timeout) : bool := et_defined et.
Definition event_timeout_clear : event_timeout := mket false 0 0.
Definition event_timeout_init (n local_now : Z) : event_timeout := mket true (if 0 <=? n then n else 0) local_now.
Definition event_timeout_reset (et : event_timeout) (now : Z) : event_timeout :=
  if et_defined et then et <| et_last := now |> else et.
Definition event_timeout_modify_wakeup (et : event_timeout) (n : Z) : event_timeout :=
  if et_defined et then et <| et_n := if 0 <=? n then n else 0 |> else et.
Definition event_timeout_remaining (et : event_timeout) (now : Z) : Z := i32 (et_last et - now + et_n et).

Definition ETT_DEFAULT : Z := -1.
(** A [NULL] time is [None]. *)
Definition event_timeout_trigger (et : event_timeout) (tv : option timeval) (et_const_retry now : Z)
  : bool * event_timeout * option timeval :=
  if et_defined et then
    let wakeup := et_last et - now + et_n et in
    let '(ret, et, wakeup) :=
      if wakeup <=? 0 then
        if et_const_retry <? 0 then (true, et <| et_last := now |>, et_n et) else (false, et, et_const_retry)
      else (false, et, wakeup) in
    (ret, et, (fun tv => if wakeup <? tv_sec tv then mktv wakeup 0 else tv) <$> tv)
  else (false, et, tv).

Definition USEC_TIMER_MAX : Z := 60.
Definition usec_timer_interval_defined (start end_ : timeval) : bool :=
  negb (tv_sec start =? 0) && negb (tv_sec end_ =? 0).
Definition usec_timer_interval (start end_ : timeval) : Z := tv_subtract end_ start USEC_TIMER_MAX.

(** ** Ordering of times *)

(** Microseconds of a normalised time. *)
Definition usecs (t : timeval) : Z := tv_sec t * 1000000 + tv_usec t.
Definition tv_norm (t : timeval) : Prop := 0 <= tv_usec t < 1000000.

Lemma tv_compare_spec t1 t2 : tv_norm t1 -> tv_norm t2 ->
  tv_lt t1 t2 = (usecs t1 <? usecs t2) /\ tv_le t1 t2 = (usecs t1 <=? usecs t2) /\
  tv_ge t1 t2 = (usecs t2 <=? usecs t1) /\ tv_gt t1 t2 = (usecs t2 <? usecs t1) /\
  tv_eq t1 t2 = (usecs t1 =? usecs t2).
Proof.
  unfold tv_norm, usecs, tv_lt, tv_le, tv_ge, tv_gt, tv_eq. intros H1 H2. split_and!.
  all: destruct (Z.ltb_spec (tv_sec t1) (tv_sec t2)), (Z.ltb_spec (tv_sec t2) (tv_sec t1)); lia.
Qed.

(** [tv_subtract] is the difference in microseconds, clamped. *)
Lemma tv_subtract_spec t1 t2 max : tv_norm t1 -> tv_norm t2 -> 0 <= max <= 2000 ->
  - 2 ^ 31 <= tv_sec t1 - tv_sec t2 < 2 ^ 31 ->
  tv_subtract t1 t2 max = Z.max (- (max * 1000000)) (Z.min (max * 1000000) (usecs t1 - usecs t2)).
Proof.
  unfold tv_norm, usecs. intros H1 H2 Hm Hd. unfold tv_subtract.
  assert (Hu : u32 (max * 1000000) = max * 1000000) by (apply wrap_small; unfold is_u; lia).
  rewrite Hu, !(i32_small (max * 1000000)), (i32_small max), (i32_small (tv_sec t1 - tv_sec t2)) by lia.
  destruct (Z.ltb_spec (max + 10) (tv_sec t1 - tv_sec t2)); [lia|].
  destruct (Z.ltb_spec (tv_sec t1 - tv_sec t2) (- (max + 10))); [lia|].
  rewrite i32_small by lia. unfold constrain_int.
  repeat match goal with |- context [?a <? ?b] => destruct (Z.ltb_spec a b) end; lia.
Qed.

(** ** Properties of the clock *)

(** What one reading of the system clock does. *)
Lemma update_now_spec c t : now c <= now (update_now c t) /\
  0 <= now (update_now c t) - (t + now_adj (update_now c t)) <= backward_trigger /\
  (0 <= now_adj c -> 0 <= now_adj (update_now c t)).
Proof.
  unfold update_now, forward_threshold, backward_trigger. cbn zeta.
  destruct (Z.ltb_spec (now c) (t + now_adj c)).
  - destruct (Z.ltb_spec 86400 (t + now_adj c - now c - 1)), (Z.leb_spec (t + now_adj c - now c - 1) (now_adj c));
      cbn; lia.
  - destruct (Z.ltb_spec (t + now_adj c) (now c - 10)); cbn; lia.
Qed.

(** The lexicographic order of times. *)
Definition tv_before (t1 t2 : timeval) : Prop := tv_sec t1 < tv_sec t2 \/ tv_sec t1 = tv_sec t2 /\ tv_usec t1 <= tv_usec t2.

Lemma update_now_usec_spec c tv :
  tv_before (mktv (now c) (now_usec c)) (mktv (now (update_now_usec c tv)) (now_usec (update_now_usec c tv))).
Proof.
  unfold update_now_usec, tv_before. cbn zeta. pose proof (update_now_spec c (tv_sec tv)) as (Hle & _ & _).
  assert (Hu : now_usec (update_now c (tv_sec tv)) = now_usec c).
  { unfold update_now. cbn zeta. by repeat case_match. }
  destruct (Z.ltb_spec (now c) (now (update_now c (tv_sec tv)))); cbn [orb]; [cbn; lia|].
  destruct (Z.eqb_spec (now (update_now c (tv_sec tv))) (now c)) as [He|]; cbn [andb]; [|lia].
  destruct (Z.ltb_spec (now_usec (update_now c (tv_sec tv))) (tv_usec tv)); cbn; lia.
Qed.

(** The readings of the clock a run of the program makes. *)
Inductive clock_op := CTime (time : Z) | CDay (tv : option timeval).
Definition clock_exec (c : clock) (op : clock_op) : clock :=
  match op with CTime t => update_time c t | CDay tv => (openvpn_gettimeofday c tv).2 end.
Fixpoint clock_states (c : clock) (ops : list clock_op) : list clock :=
  match ops with [] => [c] | op :: ops' => c :: clock_states (clock_exec c op) ops' end.
(** The times a sequence of calls of [openvpn_gettimeofday] answers. *)
Fixpoint day_times (c : clock) (readings : list timeval) : list timeval :=
  match readings with
  | [] => []
  | tv :: rs => let '(t, c) := openvpn_gettimeofday c (Some tv) in default (mktv 0 0) t :: day_times c rs
  end.

Lemma tv_before_trans t1 t2 t3 : tv_before t1 t2 -> tv_before t2 t3 -> tv_before t1 t3.
Proof. unfold tv_before. lia. Qed.

Lemma clock_exec_now c op : now c <= now (clock_exec c op).
Proof.
  destruct op as [t|[tv|]]; cbn [clock_exec openvpn_gettimeofday snd]; [apply update_now_spec| |lia].
  destruct (update_now_usec_spec c tv) as [H|[H _]]; cbn in H; lia.
Qed.

Lemma day_times_above rs : forall c t0, tv_before t0 (mktv (now c) (now_usec c)) -> Forall (tv_before t0) (day_times c rs).
Proof.
  induction rs as [|tv rs IH]; intros c t0 H0; cbn [day_times openvpn_gettimeofday]; [constructor|].
  pose proof (tv_before_trans _ _ _ H0 (update_now_usec_spec c tv)) as H1. constructor; [done|by apply IH].
Qed.

(** However the system clock jumps, the program's clock never goes back: [now]
    never decreases, successive answers of [openvpn_gettimeofday] never decrease,
    and after each reading the clock lags the adjusted system time by at most ten
    seconds and never leads it. *)
Theorem clock_never_goes_back c ops readings t :
  StronglySorted Z.le (map now (clock_states c ops)) /\
  StronglySorted tv_before (day_times c readings) /\
  (let c' := update_now c t in 0 <= now c' - (t + now_adj c') <= backward_trigger).
Proof.
  split; [|split; [|apply update_now_spec]].
  - assert (G : forall ops c n, n <= now c -> Forall (Z.le n) (map now (clock_states c ops))).
    { clear. induction ops as [|op ops IH]; intros c n Hn; cbn; (constructor; [done|]); [done|].
      apply IH. pose proof (clock_exec_now c op). lia. }
    revert c. induction ops as [|op ops IH]; intros c; cbn [clock_states map]; [repeat constructor|].
    constructor; [apply IH|]. apply G, clock_exec_now.
  - revert c. induction readings as [|tv rs IH]; intros c; cbn [day_times openvpn_gettimeofday]; constructor; [apply IH|].
    apply day_times_above. cbn. unfold tv_before. cbn. lia.
Qed.

(** [tv_add] adds normalised times exactly as long as the microseconds stay
    below 2^20; beyond, it counts 2^20 microseconds as one second and loses
    48576 microseconds. *)
Theorem tv_add_drops a b : tv_norm a -> tv_norm b ->
  tv_norm (tv_add a b) /\
  usecs (tv_add a b) = usecs a + usecs b - (if tv_usec a + tv_usec b <? 2 ^ 20 then 0 else 48576).
Proof.
  unfold tv_norm, usecs, tv_add. intros Ha Hb. cbn [tv_sec tv_usec upd].
  set (u := tv_usec a + tv_usec b). assert (Hu : 0 <= u < 2 * 2 ^ 20) by (unfold u; lia).
  change 0x000FFFFF with (Z.ones 20). rewrite Z.land_ones, Z.shiftr_div_pow2 by lia.
  destruct (Z.ltb_spec u (2 ^ 20)).
  - rewrite Z.mod_small, Z.div_small by lia. destruct (Z.leb_spec 1000000 u); cbn; lia.
  - assert (Hq : u / 2 ^ 20 = 1) by zdiv. assert (Hr : u mod 2 ^ 20 = u - 2 ^ 20) by zdiv. rewrite Hq, Hr.
    destruct (Z.leb_spec 1000000 (u - 2 ^ 20)); cbn; unfold u in *; lia.
Qed.

Lemma tv_add_drops_witness : tv_norm (mktv 1 600000) /\
  usecs (tv_add (mktv 1 600000) (mktv 2 500000)) = usecs (mktv 1 600000) + usecs (mktv 2 500000) - 48576.
Proof.
  split; [unfold tv_norm; cbn; lia|].
  destruct (tv_add_drops (mktv 1 600000) (mktv 2 500000)) as [_ H]; [unfold tv_norm; cbn; lia|unfold tv_norm; cbn; lia|].
  rewrite H. reflexivity.
Defined.

(** ** Recurring timers keep their schedule *)

(** A loop that polls the timer: at each poll time [t] it would sleep [h] seconds
    and asks the timer to shorten that. *)
Definition poll (et : event_timeout) (p : Z * Z) : bool * event_timeout * Z :=
  let '(fired, et, tv) := event_timeout_trigger et (Some (mktv p.2 0)) ETT_DEFAULT p.1 in
  (fired, et, match tv with Some tv => tv_sec tv | None => p.2 end).
(** The loop never sleeps longer than it was told. *)
Fixpoint punctual (et : event_timeout) (prev bound : Z) (polls : list (Z * Z)) : Prop :=
  match polls with
  | [] => True
  | p :: ps => prev <= p.1 <= prev + bound /\ 0 <= p.2 /\
      let '(_, et, bound) := poll et p in punctual et p.1 bound ps
  end.
Fixpoint firings (et : event_timeout) (polls : list (Z * Z)) : list Z :=
  match polls with
  | [] => []
  | p :: ps => let '(fired, et, _) := poll et p in if fired then p.1 :: firings et ps else firings et ps
  end.
Definition end_time (t0 : Z) (polls : list (Z * Z)) : Z := default t0 (last (map fst polls)).

Lemma end_time_cons t0 p ps : end_time t0 (p :: ps) = end_time p.1 ps.
Proof. unfold end_time. cbn [map]. rewrite last_cons. by destruct (last (map fst ps)). Qed.

Lemma poll_spec n l p : 0 < n -> p.1 <= l + n ->
  poll (mket true n l) p = (l + n =? p.1, mket true n (if l + n =? p.1 then p.1 else l),
    Z.min p.2 (if l + n =? p.1 then n else l + n - p.1)).
Proof.
  intros Hn Hp. unfold poll, event_timeout_trigger. cbn [et_defined et_n et_last].
  destruct (Z.leb_spec (l - p.1 + n) 0), (Z.eqb_spec (l + n) p.1); try lia; cbn [ETT_DEFAULT Z.ltb fmap option_fmap option_map tv_sec upd].
  - change (-1 <? 0) with true. cbn. destruct (Z.ltb_spec n p.2); cbn; do 2 f_equal; lia.
  - destruct (Z.ltb_spec (l - p.1 + n) p.2); cbn; do 2 f_equal; lia.
Qed.

Lemma firings_spec n polls : 0 < n -> forall l prev bound, l <= prev < l + n -> prev + bound <= l + n ->
  punctual (mket true n l) prev bound polls ->
  prev <= end_time prev polls /\
  firings (mket true n l) polls
    = map (fun i => l + Z.of_nat (S i) * n) (seq 0 (Z.to_nat ((end_time prev polls - l) / n))).
Proof.
  intros Hn. induction polls as [|p polls IH]; intros l prev bound Hl Hb Hp; cbn [punctual firings] in *.
  - unfold end_time. cbn. rewrite Z.div_small by lia. split; [lia|done].
  - rewrite end_time_cons. destruct Hp as (Ht & Hh & Hp). rewrite poll_spec in * by lia.
    destruct (Z.eqb_spec (l + n) p.1) as [He|He].
    + destruct (IH p.1 p.1 (Z.min p.2 n)) as [Hend ->]; [lia|lia|done|]. split; [lia|].
      replace (end_time p.1 polls - l) with (end_time p.1 polls - p.1 + 1 * n) by lia.
      rewrite Z.div_add by lia. pose proof (Z.div_pos (end_time p.1 polls - p.1) n).
      rewrite Z2Nat.inj_add, Nat.add_1_r by lia.
      rewrite <- cons_seq, <- seq_shift. cbn [map]. rewrite map_map. f_equal; [lia|].
      apply map_ext. intros i. lia.
    + destruct (IH l p.1 (Z.min p.2 (l + n - p.1))) as [Hend ->]; [lia|lia|done|]. split; [lia|done].
Qed.

(** A recurring timer polled by a loop that never sleeps longer than the timer
    asks fires exactly at the multiples of its period after its start: no firing
    is early, late, lost or doubled, and the period does not drift. *)
Theorem timer_no_drift n t0 polls : 0 < n -> punctual (event_timeout_init n t0) t0 n polls ->
  firings (event_timeout_init n t0) polls
    = map (fun i => t0 + Z.of_nat (S i) * n) (seq 0 (Z.to_nat ((end_time t0 polls - t0) / n))).
Proof.
  intros Hn Hp. unfold event_timeout_init in *. destruct (Z.leb_spec 0 n); [|lia].
  apply (firings_spec n polls Hn t0 t0 n); [lia|lia|done].
Qed.

Lemma timer_no_drift_witness :
  let polls := [(103, 60); (110, 60); (110, 3); (113, 60); (120, 60); (125, 4)] in
  0 < 10 /\ punctual (event_timeout_init 10 100) 100 10 polls /\ firings (event_timeout_init 10 100) polls = [110; 120].
Proof.
  intros polls. assert (Hp : punctual (event_timeout_init 10 100) 100 10 polls) by (vm_compute; intuition discriminate).
  split; [lia|]. split; [exact Hp|]. rewrite (timer_no_drift 10 100 polls ltac:(lia) Hp). reflexivity.
Defined.

(** ** The limit on events *)

(** Events at the given times, and whether each was allowed. *)
Fixpoint limit_run (f : frequency_limit) (times : list Z) : list (Z * bool) * frequency_limit :=
  match times with
  | [] => ([], f)
  | t :: ts =>
      let '(ok, f) := frequency_limit_event_allowed f t in
      let '(tr, f) := limit_run f ts in ((t, ok) :: tr, f)
  end.
Definition allowed_in (t1 t2 : Z) (tr : list (Z * bool)) : Z :=
  zlen (filter (fun e => t1 <= e.1 < t2 /\ e.2 = true) tr).
(** Events in order of time. *)
Fixpoint times_ok (t0 : Z) (times : list Z) : Prop :=
  match times with [] => True | t :: ts => t0 <= t /\ times_ok t ts end.

Lemma allowed_in_cons t1 t2 t ok tr : allowed_in t1 t2 ((t, ok) :: tr)
  = (if (t1 <=? t) && (t <? t2) && ok then 1 else 0) + allowed_in t1 t2 tr.
Proof.
  unfold allowed_in, zlen. rewrite filter_cons. cbn [fst snd].
  destruct (Z.leb_spec t1 t), (Z.ltb_spec t t2), ok; cbn [andb]; case_decide; cbn [length]; try lia;
    exfalso; intuition (lia || discriminate).
Qed.

Lemma allowed_in_app t1 t2 tr1 tr2 : allowed_in t1 t2 (tr1 ++ tr2) = allowed_in t1 t2 tr1 + allowed_in t1 t2 tr2.
Proof. unfold allowed_in, zlen. rewrite filter_app, length_app. lia. Qed.

Lemma allowed_in_nonneg t1 t2 tr : 0 <= allowed_in t1 t2 tr.
Proof. unfold allowed_in, zlen. lia. Qed.

Lemma limit_step_spec f t : 0 < fl_per f ->
  frequency_limit_event_allowed f t =
    (let n := if fl_reset f + fl_per f <=? t then 0 else fl_n f in
     (n + 1 <=? fl_max f, mkfl (fl_max f) (fl_per f) (n + 1) (if fl_reset f + fl_per f <=? t then t else fl_reset f))).
Proof.
  intros Hp. unfold frequency_limit_event_allowed. destruct (Z.eqb_spec (fl_per f) 0); [lia|]. cbn [negb].
  destruct f as [m p k r]. cbn. by destruct (r + p <=? t).
Qed.

Lemma limit_run_after t1 t2 times : forall f t0, t2 <= t0 -> times_ok t0 times ->
  allowed_in t1 t2 (limit_run f times).1 = 0.
Proof.
  induction times as [|t ts IH]; intros f t0 Ht0 Hok; [reflexivity|]. cbn [times_ok] in Hok. cbn [limit_run].
  destruct (frequency_limit_event_allowed f t) as [ok f'].
  pose proof (IH f' t ltac:(lia) ltac:(tauto)) as H. destruct (limit_run f' ts) as [tr f'']. cbn [fst] in *.
  rewrite allowed_in_cons, H. destruct (Z.ltb_spec t t2); [lia|]. by rewrite andb_false_r.
Qed.

(** Inside the window, what is left of the current period and one more period. *)
Lemma limit_run_inside w times : forall f t0, 0 < fl_per f -> 0 <= fl_max f -> w <= t0 -> times_ok t0 times ->
  allowed_in w (w + fl_per f) (limit_run f times).1
    <= Z.max 0 (fl_max f - fl_n f) + (if fl_reset f <? w then fl_max f else 0).
Proof.
  induction times as [|t ts IH]; intros f t0 Hp Hm Ht0 Hok.
  { change (allowed_in _ _ _) with 0. destruct (fl_reset f <? w); lia. }
  destruct (Z.leb_spec (w + fl_per f) t).
  { rewrite (limit_run_after w (w + fl_per f) (t :: ts) f t); [|done|cbn in *; intuition lia].
    destruct (fl_reset f <? w); lia. }
  cbn [limit_run times_ok] in *. rewrite limit_step_spec by done. cbn beta iota zeta.
  set (f' := mkfl _ _ _ _). pose proof (IH f' t Hp Hm ltac:(lia) ltac:(tauto)) as H1.
  destruct (limit_run f' ts) as [tr f'']. cbn [fst] in *. rewrite allowed_in_cons.
  revert H1. unfold f'. cbn [fl_per fl_max fl_n fl_reset]. clear IH f'.
  destruct (Z.leb_spec w t); [|lia]. destruct (Z.ltb_spec t (w + fl_per f)); [|lia]. cbn [andb].
  destruct (Z.leb_spec (fl_reset f + fl_per f) t).
  - destruct (Z.ltb_spec t w), (Z.ltb_spec (fl_reset f) w), (Z.leb_spec (0 + 1) (fl_max f)); lia.
  - destruct (Z.ltb_spec (fl_reset f) w), (Z.leb_spec (fl_n f + 1) (fl_max f)); lia.
Qed.

Lemma limit_run_window w times : forall f t0, 0 < fl_per f -> 0 <= fl_max f -> 0 <= fl_n f -> times_ok t0 times ->
  allowed_in w (w + fl_per f) (limit_run f times).1 <= 2 * fl_max f.
Proof.
  induction times as [|t ts IH]; intros f t0 Hp Hm Hn Hok; [change (allowed_in _ _ _) with 0; lia|].
  cbn [times_ok] in Hok. destruct (Z.leb_spec w t).
  { pose proof (limit_run_inside w (t :: ts) f t Hp Hm) as Hi. cbn [times_ok] in Hi.
    specialize (Hi ltac:(lia) ltac:(intuition lia)). destruct (fl_reset f <? w); lia. }
  cbn [limit_run]. rewrite limit_step_spec by done. cbn beta iota zeta. set (f' := mkfl _ _ _ _).
  assert (H1 : allowed_in w (w + fl_per f') (limit_run f' ts).1 <= 2 * fl_max f').
  { apply (IH f' t); [done|done| |tauto]. cbn. destruct (_ <=? _); lia. }
  destruct (limit_run f' ts) as [tr f'']. cbn [fst] in *. rewrite allowed_in_cons.
  destruct (Z.leb_spec w t); [lia|]. exact H1.
Qed.

Lemma limit_run_app f ts1 ts2 : limit_run f (ts1 ++ ts2)
  = (let '(tr1, f1) := limit_run f ts1 in let '(tr2, f2) := limit_run f1 ts2 in (tr1 ++ tr2, f2)).
Proof.
  revert f. induction ts1 as [|t ts1 IH]; intros f; cbn [app limit_run]; [by destruct (limit_run f ts2)|].
  destruct (frequency_limit_event_allowed f t) as [ok f']. rewrite IH.
  destruct (limit_run f' ts1) as [tr1 f1], (limit_run f1 ts2); reflexivity.
Qed.

Lemma times_ok_snoc ts : forall t0 t, times_ok t0 (ts ++ [t]) -> times_ok t0 ts /\ end_time t0 (map (fun t => (t, 0)) ts) <= t.
Proof.
  induction ts as [|t' ts IH]; intros t0 t; cbn [app times_ok map].
  - unfold end_time. cbn. intuition lia.
  - intros [H1 H2]. apply IH in H2. rewrite end_time_cons. cbn [fst]. tauto.
Qed.

(** The counter of the period counts the events allowed since its start. *)
Lemma limit_run_counts max per ts : 0 <= max -> 0 < per -> times_ok 0 ts ->
  let '(tr, f) := limit_run (mkfl max per 0 0) ts in
  fl_max f = max /\ fl_per f = per /\ 0 <= fl_n f /\
  fl_reset f <= end_time 0 (map (fun t => (t, 0)) ts) /\
  forall t, end_time 0 (map (fun t => (t, 0)) ts) < t -> Z.min (fl_n f) max <= allowed_in (fl_reset f) t tr.
Proof.
  intros Hm Hp. induction ts as [|x ts IH] using rev_ind; intros Hok.
  { cbn. split_and!; try lia. intros t _. change (allowed_in _ _ _) with 0. lia. }
  apply times_ok_snoc in Hok as [Hok Hx]. specialize (IH Hok).
  rewrite limit_run_app. destruct (limit_run _ ts) as [tr f]. destruct IH as (Hmax & Hper & Hn & Hr & Hc).
  cbn [limit_run]. rewrite limit_step_spec by lia. cbn beta iota zeta. cbn [fl_max fl_per fl_n fl_reset].
  assert (He : end_time 0 (map (fun t => (t, 0)) (ts ++ [x])) = x).
  { unfold end_time. rewrite map_map, map_app. cbn [map]. by rewrite last_snoc. }
  rewrite He. split_and!; [done|done| | |].
  - destruct (_ <=? _); lia.
  - destruct (Z.leb_spec (fl_reset f + fl_per f) x); lia.
  - intros t Ht. rewrite allowed_in_app, allowed_in_cons. change (allowed_in _ _ []) with 0.
    destruct (Z.leb_spec (fl_reset f + fl_per f) x).
    + rewrite Z.leb_refl. destruct (Z.ltb_spec x t); [|lia]. cbn [andb].
      pose proof (allowed_in_nonneg x t tr). destruct (Z.leb_spec (0 + 1) (fl_max f)); lia.
    + specialize (Hc t ltac:(lia)). destruct (Z.leb_spec (fl_reset f) x); [|lia].
      destruct (Z.ltb_spec x t); [|lia]. cbn [andb]. destruct (Z.leb_spec (fl_n f + 1) (fl_max f)); lia.
Qed.

(** The limit on new connections: whatever the events, no window of [per]
    seconds allows more than [2 * max] of them, and an event is refused only when
    [max] events were allowed within the [per] seconds up to it. *)
Theorem frequency_limit_bounds max per f times : frequency_limit_init max per = Some f -> 0 < per -> times_ok 0 times ->
  (forall t, allowed_in t (t + per) (limit_run f times).1 <= 2 * max) /\
  (forall ts x, times = ts ++ [x] -> last (limit_run f times).1 = Some (x, false) ->
    max <= allowed_in (x - per + 1) (x + 1) (limit_run f ts).1).
Proof.
  unfold frequency_limit_init. destruct (Z.leb_spec 0 max), (Z.leb_spec 0 per); cbn [andb]; try discriminate.
  intros [= <-] Hp Hok. split.
  - intros t. apply (limit_run_window t times (mkfl max per 0 0) 0); cbn; [lia|lia|lia|done].
  - intros ts x -> Hlast. apply times_ok_snoc in Hok as [Hok Hx]. pose proof (limit_run_counts max per ts ltac:(lia) Hp Hok) as Hc.
    rewrite limit_run_app in Hlast. destruct (limit_run _ ts) as [tr f]. destruct Hc as (Hmax & Hper & Hn & Hr & Hc).
    cbn [limit_run fst] in Hlast |- *. rewrite limit_step_spec in Hlast by lia. cbn [fst] in Hlast.
    rewrite last_snoc in Hlast. injection Hlast as Hlast. apply Z.leb_gt in Hlast.
    pose proof (allowed_in_nonneg (x - per + 1) (x + 1) tr).
    destruct (Z.leb_spec (fl_reset f + fl_per f) x); [lia|]. specialize (Hc (x + 1) ltac:(lia)).
    enough (allowed_in (fl_reset f) (x + 1) tr <= allowed_in (x - per + 1) (x + 1) tr) by lia.
    clear -H2 Hper. induction tr as [|[t ok] tr IH]; [done|]. rewrite !allowed_in_cons.
    destruct (Z.leb_spec (fl_reset f) t), (Z.leb_spec (x - per + 1) t), (t <? x + 1), ok; cbn [andb]; lia.
Qed.

Lemma frequency_limit_bounds_witness :
  let times := [100; 100; 103; 104; 110; 111; 111] in
  frequency_limit_init 2 10 = Some (mkfl 2 10 0 0) /\ 0 < 10 /\ times_ok 0 times /\
  (limit_run (mkfl 2 10 0 0) times).1 =
    [(100, true); (100, true); (103, false); (104, false); (110, true); (111, true); (111, false)] /\
  2 <= allowed_in 102 112 (limit_run (mkfl 2 10 0 0) [100; 100; 103; 104; 110; 111]).1.
Proof.
  intros times. assert (Hi : frequency_limit_init 2 10 = Some (mkfl 2 10 0 0)) by reflexivity.
  assert (Hok : times_ok 0 times) by (cbn; lia).
  split; [exact Hi|]. split; [lia|]. split; [exact Hok|]. split; [reflexivity|].
  apply (proj2 (frequency_limit_bounds 2 10 _ times Hi ltac:(lia) Hok) [100; 100; 103; 104; 110; 111] 111); reflexivity.
Defined.
