(* ===== verification/Schedule.v ===== *)
(** The scheduler: [src/openvpn/schedule.c] and [schedule.h], with its callers in
    [multi.c] and [multi.h].  The entries, embedded in the client instances, are
    cells of a heap and the treap is made of their links.  [random()] is a
    parameter: the [n]-th call answers [random n].  A failed assertion, a null
    pointer access and a loop that exceeds its fuel answer [None]. *)
From stdpp Require Import sorting.
From S2P Require Import Prelude Integer Otime.
#[local] Set Warnings "-clear-no-such-hyp".

(** ** Entries and links *)

Abbreviation ptr := positive.

Record schedule_entry := mkse {
  se_tv : timeval; se_pri : Z; se_parent : option ptr; se_lt : option ptr; se_gt : option ptr }.
#[export] Instance eta_se : EtaOf schedule_entry := fun r => mkse (se_tv r) (se_pri r) (se_parent r) (se_lt r) (se_gt r).

(** An entry of a cleared client instance. *)
Definition cleared_entry : schedule_entry := mkse (mktv 0 0) 0 None None None.

Abbreviation heap := (gmap positive schedule_entry).

(** The heap, [struct schedule] and the number of calls of [random] so far. *)
Record schedule := mksch {
  sc_heap : heap; earliest_wakeup : option ptr; sc_root : option ptr; sc_random : nat }.
#[export] Instance eta_sch : EtaOf schedule :=
  fun r => mksch (sc_heap r) (earliest_wakeup r) (sc_root r) (sc_random r).

Definition schedule_init (h : heap) (n : nat) : schedule := mksch h None None n.

Definition IN_TREE (e : schedule_entry) : bool := negb (se_pri e =? 0).

(** An assignment to a field of the entry at [p]. *)
Definition store (s : schedule) (p : ptr) (f : schedule_entry -> schedule_entry) : option schedule :=
  e ← sc_heap s !! p; Some (s <| sc_heap := <[p := f e]> (sc_heap s) |>).

Section Treap.
Context (random : nat -> Z).

Definition new_pri (n : nat) : Z := let pri := u32 (random n) in if pri <? 1 then 1 else pri.

Definition schedule_set_pri (s : schedule) (e : ptr) : option schedule :=
  s ← store s e (fun x => x <| se_pri := new_pri (sc_random s) |>);
  Some (s <| sc_random := S (sc_random s) |>).

Definition schedule_entry_compare (e1 e2 : schedule_entry) : Z :=
  if tv_sec (se_tv e1) <? tv_sec (se_tv e2) then -1
  else if tv_sec (se_tv e2) <? tv_sec (se_tv e1) then 1
  else if tv_usec (se_tv e1) <? tv_usec (se_tv e2) then -1
  else if tv_usec (se_tv e2) <? tv_usec (se_tv e1) then 1
  else if se_pri e1 <? se_pri e2 then -1
  else if se_pri e2 <? se_pri e1 then 1
  else 0.

Definition schedule_detach_parent (s : schedule) (e : ptr) : option schedule :=
  x ← sc_heap s !! e;
  match se_parent x with
  | Some p =>
      y ← sc_heap s !! p;
      s ← (if bool_decide (se_lt y = Some e) then store s p (fun y => y <| se_lt := None |>)
           else if bool_decide (se_gt y = Some e) then store s p (fun y => y <| se_gt := None |>)
           else None);
      store s e (fun x => x <| se_parent := None |>)
  | None => Some (if bool_decide (sc_root s = Some e) then s <| sc_root := None |> else s)
  end.

(** The grandparent's link, or the root, is moved from [p] to [e]. *)
Definition relink (s : schedule) (gp : option ptr) (p e : ptr) : option schedule :=
  match gp with
  | Some g =>
      z ← sc_heap s !! g;
      if bool_decide (se_gt z = Some p) then store s g (fun z => z <| se_gt := Some e |>)
      else if bool_decide (se_lt z = Some p) then store s g (fun z => z <| se_lt := Some e |>)
      else None
  | None => Some (s <| sc_root := Some e |>)
  end.

(** [if (c) { c->parent = p; }] *)
Definition adopt (s : schedule) (c : option ptr) (p : ptr) : option schedule :=
  match c with Some c => store s c (fun x => x <| se_parent := Some p |>) | None => Some s end.

Definition schedule_rotate_up (s : schedule) (e : option ptr) : option schedule :=
  match e with
  | None => Some s
  | Some e =>
      x ← sc_heap s !! e;
      match se_parent x with
      | None => Some s
      | Some p =>
          let lt := se_lt x in let gt := se_gt x in
          y ← sc_heap s !! p;
          let gp := se_parent y in
          s ← relink s gp p e;
          s ← store s e (fun x => x <| se_parent := gp |>);
          s ← store s p (fun y => y <| se_parent := Some e |>);
          y ← sc_heap s !! p;
          if bool_decide (se_gt y = Some e) then
            s ← store s e (fun x => x <| se_lt := Some p |>);
            s ← store s p (fun y => y <| se_gt := lt |>);
            adopt s lt p
          else if bool_decide (se_lt y = Some e) then
            s ← store s e (fun x => x <| se_gt := Some p |>);
            s ← store s p (fun y => y <| se_lt := gt |>);
            adopt s gt p
          else None
      end
  end.

(** The child [schedule_remove_node] rotates up. *)
Definition child_up (s : schedule) (x : schedule_entry) : option (option ptr) :=
  match se_lt x, se_gt x with
  | Some l, Some g =>
      yl ← sc_heap s !! l; yg ← sc_heap s !! g; Some (if se_pri yl <? se_pri yg then Some l else Some g)
  | Some l, None => Some (Some l)
  | None, Some g => Some (Some g)
  | None, None => Some None
  end.
Fixpoint remove_loop (fuel : nat) (s : schedule) (e : ptr) : option schedule :=
  x ← sc_heap s !! e;
  c ← child_up s x;
  match c, fuel with
  | None, _ => Some s
  | Some _, O => None
  | Some _, S fuel => s ← schedule_rotate_up s c; remove_loop fuel s e
  end.
Definition schedule_remove_node (fuel : nat) (s : schedule) (e : ptr) : option schedule :=
  s ← remove_loop fuel s e;
  s ← schedule_detach_parent s e;
  store s e (fun x => x <| se_pri := 0 |>).

(** The search for the place of [e], [c] being the entry under the cursor. *)
Fixpoint schedule_insert (fuel : nat) (s : schedule) (e : ptr) (c : option ptr) : option schedule :=
  match fuel with
  | O => None
  | S fuel =>
      c ← c; x ← sc_heap s !! e; y ← sc_heap s !! c;
      let comp := schedule_entry_compare x y in
      if comp =? -1 then
        match se_lt y with
        | Some l => schedule_insert fuel s e (Some l)
        | None => s ← store s c (fun y => y <| se_lt := Some e |>); store s e (fun x => x <| se_parent := Some c |>)
        end
      else if comp =? 1 then
        match se_gt y with
        | Some g => schedule_insert fuel s e (Some g)
        | None => s ← store s c (fun y => y <| se_gt := Some e |>); store s e (fun x => x <| se_parent := Some c |>)
        end
      else s ← schedule_set_pri s e; schedule_insert fuel s e (sc_root s)
  end.

(** [while (e->parent && e->parent->pri > e->pri)] *)
Fixpoint lift_loop (fuel : nat) (s : schedule) (e : ptr) : option schedule :=
  x ← sc_heap s !! e;
  match se_parent x with
  | None => Some s
  | Some p =>
      y ← sc_heap s !! p;
      if se_pri x <? se_pri y then
        match fuel with O => None | S fuel => s ← schedule_rotate_up s (Some e); lift_loop fuel s e end
      else Some s
  end.

Definition schedule_add_modify (fuel : nat) (s : schedule) (e : ptr) : option schedule :=
  x ← sc_heap s !! e;
  s ← (if IN_TREE x then schedule_remove_node fuel s e else Some s);
  s ← schedule_set_pri s e;
  s ← match sc_root s with
      | Some _ => schedule_insert fuel s e (sc_root s)
      | None => Some (s <| sc_root := Some e |>)
      end;
  lift_loop fuel s e.

(** [None] outside is a failure, inside an empty tree. *)
Fixpoint schedule_find_least (fuel : nat) (s : schedule) (e : option ptr) : option (option ptr) :=
  match e with
  | None => Some None
  | Some p =>
      x ← sc_heap s !! p;
      match se_lt x, fuel with
      | None, _ => Some (Some p)
      | Some _, O => None
      | Some l, S fuel => schedule_find_least fuel s (Some l)
      end
  end.

(** ** The public functions *)

Definition schedule_remove_entry (fuel : nat) (s : schedule) (e : ptr) : option schedule :=
  schedule_remove_node fuel (s <| earliest_wakeup := None |>) e.

Definition schedule_add_entry (fuel : nat) (s : schedule) (e : ptr) (tv : timeval) (sigma : Z) : option schedule :=
  x ← sc_heap s !! e;
  if negb (IN_TREE x) || (sigma =? 0) || negb (tv_within_sigma tv (se_tv x) sigma) then
    s ← store s e (fun x => x <| se_tv := tv |>);
    s ← schedule_add_modify fuel s e;
    Some (s <| earliest_wakeup := None |>)
  else Some s.

Definition schedule_get_earliest_wakeup (fuel : nat) (s : schedule) : option (option (ptr * timeval) * schedule) :=
  s ← match earliest_wakeup s with
      | None => c ← schedule_find_least fuel s (sc_root s); Some (s <| earliest_wakeup := c |>)
      | Some _ => Some s
      end;
  match earliest_wakeup s with
  | None => Some (None, s)
  | Some p => x ← sc_heap s !! p; Some (Some (p, se_tv x), s)
  end.

(** ** The callers *)

Definition compute_wakeup_sigma (delta : timeval) : Z :=
  if tv_sec delta <? 1 then Z.shiftr (tv_usec delta) 3
  else if tv_sec delta <? 600 then Z.shiftl (tv_sec delta) 17
  else 120000000.

(** [timeval] is the instance's own timeout, [mi->context.c2.timeval]; the result
    starts with [mi->wakeup]. *)
Definition multi_schedule_context_wakeup (fuel : nat) (c : clock) (s : schedule) (mi : ptr)
    (gettimeofday : option timeval) (timeval : timeval) : option (Otime.timeval * clock * schedule) :=
  let '(wakeup, c) := openvpn_gettimeofday c gettimeofday in
  wakeup ← wakeup;
  let wakeup := tv_add wakeup timeval in
  s ← schedule_add_entry fuel s mi wakeup (compute_wakeup_sigma timeval);
  Some (wakeup, c, s).

Definition REAP_MAX_WAKEUP : Z := 10.
(** The result is [*dest] and [m->earliest_wakeup]. *)
Definition multi_get_timeout (fuel : nat) (c : clock) (s : schedule) (gettimeofday : option timeval)
  : option (timeval * option ptr * clock * schedule) :=
  '(o, s) ← schedule_get_earliest_wakeup fuel s;
  match o with
  | Some (p, tv) =>
      let '(current, c) := openvpn_gettimeofday c gettimeofday in
      current ← current;
      dest ← tv_delta current tv;
      Some (if REAP_MAX_WAKEUP <=? tv_sec dest then (mktv REAP_MAX_WAKEUP 0, None, c, s) else (dest, Some p, c, s))
  | None => Some (mktv REAP_MAX_WAKEUP 0, None, c, s)
  end.

End Treap.

(** ** Trees and contexts *)

Inductive tree := Leaf | Node (l : tree) (p : ptr) (r : tree).
Fixpoint nodes (t : tree) : list ptr :=
  match t with Leaf => [] | Node l p r => nodes l ++ p :: nodes r end.
Fixpoint size (t : tree) : nat := match t with Leaf => O | Node l _ r => S (size l + size r) end.
Definition root_of (t : tree) : option ptr := match t with Leaf => None | Node _ p _ => Some p end.

(** The way from an entry up to the root. *)
Inductive frame := FL (p : ptr) (r : tree) | FR (l : tree) (p : ptr).
Fixpoint plug (c : list frame) (t : tree) : tree :=
  match c with [] => t | FL p r :: c => plug c (Node t p r) | FR l p :: c => plug c (Node l p t) end.
Fixpoint before (c : list frame) : list ptr :=
  match c with [] => [] | FL _ _ :: c => before c | FR l p :: c => before c ++ nodes l ++ [p] end.
Fixpoint after (c : list frame) : list ptr :=
  match c with [] => [] | FL p r :: c => p :: nodes r ++ after c | FR _ _ :: c => after c end.

Lemma nodes_plug c : forall t, nodes (plug c t) = before c ++ nodes t ++ after c.
Proof.
  induction c as [|[p r|l p] c IH]; intros t; cbn [plug before after]; [by rewrite app_nil_r| |];
    rewrite IH; cbn [nodes]; by rewrite <- ?app_assoc, <- ?app_comm_cons.
Qed.

(** The links of the heap form the tree. *)
Fixpoint repr (h : heap) (par : option ptr) (t : tree) (o : option ptr) : Prop :=
  match t with
  | Leaf => o = None
  | Node l p r => o = Some p /\ exists x, h !! p = Some x /\ se_parent x = par /\
      repr h (Some p) l (se_lt x) /\ repr h (Some p) r (se_gt x)
  end.
Fixpoint repr_ctx (h : heap) (c : list frame) (par hole root : option ptr) : Prop :=
  match c with
  | [] => par = None /\ root = hole
  | FL p r :: c => par = Some p /\ exists x, h !! p = Some x /\ se_lt x = hole /\
      repr h (Some p) r (se_gt x) /\ repr_ctx h c (se_parent x) (Some p) root
  | FR l p :: c => par = Some p /\ exists x, h !! p = Some x /\ se_gt x = hole /\
      repr h (Some p) l (se_lt x) /\ repr_ctx h c (se_parent x) (Some p) root
  end.

(** The subtree [t] in its context [c]. *)
Definition At (s : schedule) (c : list frame) (t : tree) : Prop :=
  exists par, repr_ctx (sc_heap s) c par (root_of t) (sc_root s) /\ repr (sc_heap s) par t (root_of t) /\
    NoDup (before c ++ nodes t ++ after c).

Ltac nodup_facts :=
  repeat match goal with
    | H : NoDup (_ ++ _) |- _ => apply NoDup_app in H as (? & ? & ?)
    | H : NoDup (_ :: _) |- _ => apply NoDup_cons in H as [? ?]
    end.
Ltac mem :=
  first [ assumption | apply elem_of_cons; left; reflexivity | apply elem_of_cons; right; mem
        | apply elem_of_app; left; mem | apply elem_of_app; right; mem ].
Ltac mem_cases :=
  repeat match goal with
    | H : _ ∈ _ ++ _ |- _ => apply elem_of_app in H as [H|H]
    | H : _ ∈ _ :: _ |- _ => apply elem_of_cons in H as [H|H]
    | H : _ ∈ [] |- _ => by apply elem_of_nil in H
    | H : _ \/ _ |- _ => destruct H as [H|H]
    | H : @eq positive _ _ |- _ => progress subst
    end.
(** Solves inclusions of lists built from the same parts. *)
Ltac incl := let q := fresh "q" in let Hq := fresh "Hq" in intros q Hq; cbn [nodes before after app] in *; mem_cases; mem.
(** Solves [p ∉ l], [p <> q] and contradictory memberships from the absence of
    duplicates in the lists of the context. *)
Ltac distinct :=
  cbn [nodes before after app root_of] in *; nodup_facts;
  repeat match goal with
    | |- _ ∉ _ => intro
    | |- _ <> _ => intros ->
    end; mem_cases; exfalso;
  match goal with
  | H : _ ∉ _ |- _ => apply H; mem
  | H : forall x, x ∈ ?X -> x ∉ ?L, H1 : ?q ∈ _ |- _ => apply (H q); mem
  | H : forall x, x ∈ ?X -> x ∉ ?L, q : positive |- _ => apply (H q); mem
  end.

Lemma repr_root h par t o : repr h par t o -> o = root_of t.
Proof. destruct t; cbn; [done|]. by intros [? _]. Qed.

Lemma repr_frame h h' t : (forall q, q ∈ nodes t -> h' !! q = h !! q) ->
  forall par o, repr h par t o -> repr h' par t o.
Proof.
  induction t as [|l IHl p r IHr]; intros Hf par o; cbn [repr nodes] in *; [done|].
  intros (-> & x & Hx & Hpar & Hl & Hr). split; [done|]. exists x. rewrite Hf by set_solver.
  split_and!; [done|done|apply IHl; [set_solver|done]|apply IHr; [set_solver|done]].
Qed.

Lemma repr_ctx_frame h h' c : (forall q, q ∈ before c \/ q ∈ after c -> h' !! q = h !! q) ->
  forall par hole root, repr_ctx h c par hole root -> repr_ctx h' c par hole root.
Proof.
  induction c as [|[p r|l p] c IH]; intros Hf par hole root; cbn [repr_ctx before after] in *; [done| |].
  all: intros (-> & x & Hx & Hh & Hr & Hc); split; [done|]; exists x; rewrite Hf by set_solver; split_and!;
    [done|done|eapply repr_frame; [|exact Hr]; set_solver|apply IH; [set_solver|done]].
Qed.

Lemma frame_left c p r t : before (FL p r :: c) ++ nodes t ++ after (FL p r :: c) = before c ++ nodes (Node t p r) ++ after c.
Proof. cbn. by rewrite <- !app_assoc. Qed.
Lemma frame_right c p l t : before (FR l p :: c) ++ nodes t ++ after (FR l p :: c) = before c ++ nodes (Node l p t) ++ after c.
Proof. cbn. by rewrite <- !app_assoc. Qed.

Lemma At_left s c l p r : At s (FL p r :: c) l <-> At s c (Node l p r).
Proof.
  unfold At. setoid_rewrite frame_left. cbn [repr_ctx repr root_of]. split.
  - intros (par & (-> & x & Hx & Hl & Hr & Hc) & Ht & Hn). exists (se_parent x). split; [done|]. split; [|done].
    split; [done|]. exists x. rewrite Hl. done.
  - intros (par & Hc & (_ & x & Hx & Hp & Hl & Hr) & Hn). exists (Some p). pose proof (repr_root _ _ _ _ Hl) as He.
    split; [split; [done|]; exists x; rewrite Hp; done|]. split; [by rewrite <- He|done].
Qed.

Lemma At_right s c l p r : At s (FR l p :: c) r <-> At s c (Node l p r).
Proof.
  unfold At. setoid_rewrite frame_right. cbn [repr_ctx repr root_of]. split.
  - intros (par & (-> & x & Hx & Hl & Hr & Hc) & Ht & Hn). exists (se_parent x). split; [done|]. split; [|done].
    split; [done|]. exists x. rewrite Hl. done.
  - intros (par & Hc & (_ & x & Hx & Hp & Hl & Hr) & Hn). exists (Some p). pose proof (repr_root _ _ _ _ Hr) as He.
    split; [split; [done|]; exists x; rewrite Hp; done|]. split; [by rewrite <- He|done].
Qed.

Lemma At_plug s c : forall t, At s c t <-> At s [] (plug c t).
Proof.
  induction c as [|[p r|l p] c IH]; intros t; cbn [plug]; [done| |]; rewrite <- IH; [apply At_left|apply At_right].
Qed.

(** ** What a step leaves alone *)

Definition entry_key (x : schedule_entry) : timeval * Z := (se_tv x, se_pri x).
(** Only links inside [L] change. *)
Record relinked (L : list ptr) (s s' : schedule) : Prop := mkrl {
  rl_key : forall q, entry_key <$> sc_heap s' !! q = entry_key <$> sc_heap s !! q;
  rl_out : forall q, q ∉ L -> sc_heap s' !! q = sc_heap s !! q;
  rl_random : sc_random s' = sc_random s;
  rl_cache : earliest_wakeup s' = earliest_wakeup s }.

Lemma relinked_refl L s : relinked L s s.
Proof. by split. Qed.
Lemma relinked_trans L s1 s2 s3 : relinked L s1 s2 -> relinked L s2 s3 -> relinked L s1 s3.
Proof. intros [H1 H2 H3 H4] [H5 H6 H7 H8]. split; [intros q; by rewrite H5|intros q Hq; by rewrite H6, H2|congruence|congruence]. Qed.
Lemma relinked_weaken L L' s s' : L ⊆ L' -> relinked L s s' -> relinked L' s s'.
Proof. intros HL [H1 H2 H3 H4]. split; [done|intros q Hq; apply H2; set_solver|done|done]. Qed.

Lemma store_eq s p f x : sc_heap s !! p = Some x -> store s p f = Some (s <| sc_heap := <[p := f x]> (sc_heap s) |>).
Proof. unfold store. by intros ->. Qed.

Lemma store_spec s p f x : sc_heap s !! p = Some x -> entry_key (f x) = entry_key x ->
  exists s', store s p f = Some s' /\ sc_heap s' !! p = Some (f x) /\ sc_root s' = sc_root s /\ relinked [p] s s'.
Proof.
  intros Hx Hk. eexists. split; [by apply store_eq|]. cbn. split; [apply lookup_insert_eq|]. split; [done|]. split; cbn.
  - intros q. destruct (decide (q = p)) as [->|]; [by rewrite lookup_insert_eq, Hx; cbn; rewrite Hk|by rewrite lookup_insert_ne].
  - intros q Hq. rewrite lookup_insert_ne; [done|]. set_solver.
  - done.
  - done.
Qed.

Lemma adopt_spec s c t p par : repr (sc_heap s) par t c -> NoDup (nodes t) ->
  exists s', adopt s c p = Some s' /\ repr (sc_heap s') (Some p) t c /\ sc_root s' = sc_root s /\ relinked (nodes t) s s'.
Proof.
  destruct t as [|l q r]; cbn [repr].
  { intros -> _. exists s. split_and!; [done|done|done|apply relinked_refl]. }
  intros (-> & x & Hx & Hp & Hl & Hr) Hn. cbn [adopt].
  edestruct (store_spec s q (fun x => x <| se_parent := Some p |>) x Hx) as (s' & He & Hs' & Hroot & Hre); [done|].
  exists s'. split; [done|]. split; [|split; [done|by eapply relinked_weaken; [|done]; set_solver]].
  split; [done|]. eexists. split; [exact Hs'|]. cbn. split; [done|].
  split; (eapply repr_frame; [|eassumption]); intros y Hy; apply (rl_out _ _ _ Hre); distinct.
Qed.

Lemma relink_spec s c gp p e : repr_ctx (sc_heap s) c gp (Some p) (sc_root s) -> NoDup (before c ++ after c) ->
  p ∉ before c -> p ∉ after c ->
  exists s', relink s gp p e = Some s' /\ repr_ctx (sc_heap s') c gp (Some e) (sc_root s') /\
    relinked (before c ++ after c) s s'.
Proof.
  destruct c as [|[g r|l g] c]; cbn [repr_ctx before after].
  { intros [-> _] _ _ _. eexists. split; [reflexivity|]. split; [done|]. by split. }
  - intros (-> & x & Hx & Hlt & Hr & Hc) Hn _ Hp. cbn [relink]. rewrite Hx. cbn.
    pose proof (repr_root _ _ _ _ Hr) as Hgt.
    rewrite bool_decide_false by (rewrite Hgt; destruct r; cbn in *; set_solver). rewrite bool_decide_true by done.
    edestruct (store_spec s g (fun z => z <| se_lt := Some e |>) x Hx) as (s' & -> & Hs' & Hroot & Hre); [done|].
    exists s'. split; [done|]. split; [|eapply relinked_weaken; [|done]; set_solver]. split; [done|]. eexists. split; [exact Hs'|].
    cbn. rewrite Hroot. split; [done|]. split.
    + eapply repr_frame; [|done]. intros y Hy. apply (rl_out _ _ _ Hre). distinct.
    + eapply repr_ctx_frame; [|done]. intros y Hy. apply (rl_out _ _ _ Hre). distinct.
  - intros (-> & x & Hx & Hgt & Hl & Hc) Hn Hp _. cbn [relink]. rewrite Hx. cbn. rewrite bool_decide_true by done.
    edestruct (store_spec s g (fun z => z <| se_gt := Some e |>) x Hx) as (s' & -> & Hs' & Hroot & Hre); [done|].
    exists s'. split; [done|]. split; [|eapply relinked_weaken; [|done]; set_solver]. split; [done|]. eexists. split; [exact Hs'|].
    cbn. rewrite Hroot. split; [done|]. split.
    + eapply repr_frame; [|done]. intros y Hy. apply (rl_out _ _ _ Hre). distinct.
    + eapply repr_ctx_frame; [|done]. intros y Hy. apply (rl_out _ _ _ Hre). distinct.
Qed.

(** ** Rotation *)

Lemma NoDup_hole (l m r : list ptr) : NoDup (l ++ m ++ r) -> NoDup (l ++ r).
Proof. rewrite !NoDup_app. set_solver. Qed.

(** Chains the specification of a store. *)
Ltac store_step Hp :=
  match goal with
  | |- context [store ?s ?p ?f] =>
      let s' := fresh "s" in let He := fresh "He" in let Hs := fresh "Hs" in let Hr := fresh "Hr" in let Hl := fresh "Hl" in
      edestruct (store_spec s p f) as (s' & He & Hs & Hr & Hl); [exact Hp|reflexivity|]; rewrite He; clear He;
      cbn [mbind option_bind]
  end.

Lemma rl_get L s s' q x : relinked L s s' -> q ∉ L -> sc_heap s !! q = Some x -> sc_heap s' !! q = Some x.
Proof. intros H Hq Hx. by rewrite (rl_out _ _ _ H). Qed.

Lemma nodes_rotate l e r p rr : nodes (Node l e (Node r p rr)) = nodes (Node (Node l e r) p rr).
Proof. cbn. by rewrite <- app_assoc. Qed.

(** A rotation moves [e] above its parent and keeps the order of the entries. *)
Lemma rotate_left s c p rr l e r : At s c (Node (Node l e r) p rr) ->
  exists s', schedule_rotate_up s (Some e) = Some s' /\ At s' c (Node l e (Node r p rr)) /\
    relinked (before c ++ nodes (Node (Node l e r) p rr) ++ after c) s s'.
Proof.
  intros (par & Hc & (_ & y & Hy & Hyp & (He & x & Hx & Hxp & Hl & Hr) & Hrr) & Hn).
  unfold schedule_rotate_up. rewrite Hx. cbn [mbind option_bind]. rewrite Hxp, Hy. cbn [mbind option_bind]. rewrite Hyp.
  cbn [root_of] in Hc.
  destruct (relink_spec s c par p e Hc) as (s1 & -> & Hc1 & Hr1); [by eapply NoDup_hole|distinct|distinct|]. cbn [mbind option_bind].
  assert (Hx1 : sc_heap s1 !! e = Some x) by (eapply rl_get; [done|distinct|done]).
  store_step Hx1.
  assert (Hy1 : sc_heap s0 !! p = Some y) by (eapply rl_get; [done|distinct|eapply rl_get; [done|distinct|done]]).
  store_step Hy1. rewrite Hs0. cbn [mbind option_bind se_gt se_lt upd].
  pose proof (repr_root _ _ _ _ Hrr) as Hgt.
  rewrite bool_decide_false by (rewrite Hgt; destruct rr; cbn [root_of]; [done|intros [= ->]; distinct]).
  rewrite bool_decide_true by done.
  assert (Hx2 : sc_heap s2 !! e = Some (x <| se_parent := par |>)) by (eapply rl_get; [done|distinct|done]).
  store_step Hx2.
  assert (Hy2 : sc_heap s3 !! p = Some (y <| se_parent := Some e |>)) by (eapply rl_get; [done|distinct|done]).
  store_step Hy2.
  assert (Hin : relinked [e; p] s1 s4).
  { do 3 (eapply relinked_trans; [|eapply relinked_weaken; [|eassumption]; incl]).
    eapply relinked_weaken; [|eassumption]. incl. }
  assert (HR : relinked (before c ++ [e; p] ++ after c) s s4).
  { eapply relinked_trans; eapply relinked_weaken; [|exact Hr1| |exact Hin]; incl. }
  assert (Hroot : sc_root s4 = sc_root s1) by congruence.
  assert (Hr' : repr (sc_heap s4) (Some e) r (se_gt x)).
  { eapply repr_frame; [|exact Hr]. intros q Hq. apply (rl_out _ _ _ HR). distinct. }
  destruct (adopt_spec s4 _ _ p _ Hr') as (s5 & -> & Hr5 & Hroot5 & Hl5); [cbn [nodes] in Hn; by nodup_facts|].
  exists s5. split; [done|]. split; [|].
  - exists par. split; [|split].
    + cbn [root_of]. rewrite Hroot5, Hroot. eapply repr_ctx_frame; [|exact Hc1]. intros q Hq.
      rewrite (rl_out _ _ _ Hl5), (rl_out _ _ _ Hin); [done|distinct|distinct].
    + cbn [repr root_of]. split; [done|]. eexists. split; [eapply rl_get; [exact Hl5|distinct|]; eapply rl_get; [exact Hl3|distinct|exact Hs1]|].
      cbn. split; [done|]. split.
      { eapply repr_frame; [|exact Hl]. intros q Hq. rewrite (rl_out _ _ _ Hl5), (rl_out _ _ _ HR); [done|distinct|distinct]. }
      split; [done|]. eexists. split; [eapply rl_get; [exact Hl5|distinct|exact Hs2]|]. cbn. split; [done|]. split; [done|].
      eapply repr_frame; [|exact Hrr]. intros q Hq. rewrite (rl_out _ _ _ Hl5), (rl_out _ _ _ HR); [done|distinct|distinct].
    + by rewrite nodes_rotate.
  - eapply relinked_trans; [eapply relinked_weaken; [|exact HR]|eapply relinked_weaken; [|exact Hl5]]; incl.
Qed.

Lemma rotate_right s c p ll l e r : At s c (Node ll p (Node l e r)) ->
  exists s', schedule_rotate_up s (Some e) = Some s' /\ At s' c (Node (Node ll p l) e r) /\
    relinked (before c ++ nodes (Node ll p (Node l e r)) ++ after c) s s'.
Proof.
  intros (par & Hc & (_ & y & Hy & Hyp & Hll & (He & x & Hx & Hxp & Hl & Hr)) & Hn).
  unfold schedule_rotate_up. rewrite Hx. cbn [mbind option_bind]. rewrite Hxp, Hy. cbn [mbind option_bind]. rewrite Hyp.
  cbn [root_of] in Hc.
  destruct (relink_spec s c par p e Hc) as (s1 & -> & Hc1 & Hr1); [by eapply NoDup_hole|distinct|distinct|]. cbn [mbind option_bind].
  assert (Hx1 : sc_heap s1 !! e = Some x) by (eapply rl_get; [done|distinct|done]).
  store_step Hx1.
  assert (Hy1 : sc_heap s0 !! p = Some y) by (eapply rl_get; [done|distinct|eapply rl_get; [done|distinct|done]]).
  store_step Hy1. rewrite Hs0. cbn [mbind option_bind se_gt se_lt upd].
  rewrite bool_decide_true by done.
  assert (Hx2 : sc_heap s2 !! e = Some (x <| se_parent := par |>)) by (eapply rl_get; [done|distinct|done]).
  store_step Hx2.
  assert (Hy2 : sc_heap s3 !! p = Some (y <| se_parent := Some e |>)) by (eapply rl_get; [done|distinct|done]).
  store_step Hy2.
  assert (Hin : relinked [e; p] s1 s4).
  { do 3 (eapply relinked_trans; [|eapply relinked_weaken; [|eassumption]; incl]).
    eapply relinked_weaken; [|eassumption]. incl. }
  assert (HR : relinked (before c ++ [e; p] ++ after c) s s4).
  { eapply relinked_trans; eapply relinked_weaken; [|exact Hr1| |exact Hin]; incl. }
  assert (Hroot : sc_root s4 = sc_root s1) by congruence.
  assert (Hl' : repr (sc_heap s4) (Some e) l (se_lt x)).
  { eapply repr_frame; [|exact Hl]. intros q Hq. apply (rl_out _ _ _ HR). distinct. }
  destruct (adopt_spec s4 _ _ p _ Hl') as (s5 & -> & Hl5 & Hroot5 & Ho5); [cbn [nodes] in Hn; by nodup_facts|].
  exists s5. split; [done|]. split; [|].
  - exists par. split; [|split].
    + cbn [root_of]. rewrite Hroot5, Hroot. eapply repr_ctx_frame; [|exact Hc1]. intros q Hq.
      rewrite (rl_out _ _ _ Ho5), (rl_out _ _ _ Hin); [done|distinct|distinct].
    + cbn [repr root_of]. split; [done|]. eexists. split; [eapply rl_get; [exact Ho5|distinct|]; eapply rl_get; [exact Hl3|distinct|exact Hs1]|].
      cbn. split; [done|]. split.
      { split; [done|]. eexists. split; [eapply rl_get; [exact Ho5|distinct|exact Hs2]|]. cbn. split; [done|]. split; [|done].
        eapply repr_frame; [|exact Hll]. intros q Hq. rewrite (rl_out _ _ _ Ho5), (rl_out _ _ _ HR); [done|distinct|distinct]. }
      eapply repr_frame; [|exact Hr]. intros q Hq. rewrite (rl_out _ _ _ Ho5), (rl_out _ _ _ HR); [done|distinct|distinct].
    + by rewrite <- nodes_rotate.
  - eapply relinked_trans; [eapply relinked_weaken; [|exact HR]|eapply relinked_weaken; [|exact Ho5]]; incl.
Qed.

(** ** Removal *)

(** Priorities grow away from the root. *)
Definition pri_of (s : schedule) (p : ptr) : Z := default 0 (se_pri <$> sc_heap s !! p).
Fixpoint ordered (f : ptr -> Z) (b : Z) (t : tree) : Prop :=
  match t with Leaf => True | Node l p r => b <= f p /\ ordered f (f p) l /\ ordered f (f p) r end.
Definition bound (f : ptr -> Z) (c : list frame) : Z :=
  match c with [] => 0 | FL p _ :: _ | FR _ p :: _ => f p end.
Fixpoint ordered_ctx (f : ptr -> Z) (c : list frame) : Prop :=
  match c with
  | [] => True
  | FL p t :: c | FR t p :: c => bound f c <= f p /\ ordered f (f p) t /\ ordered_ctx f c
  end.

Lemma ordered_plug f c : forall t, ordered f 0 (plug c t) <-> ordered_ctx f c /\ ordered f (bound f c) t.
Proof.
  induction c as [|[p r|l p] c IH]; intros t; cbn [plug ordered_ctx bound]; [tauto| |]; rewrite IH; cbn [ordered]; tauto.
Qed.

Lemma ordered_ext f g t : (forall q, q ∈ nodes t -> f q = g q) -> forall b, ordered f b t -> ordered g b t.
Proof.
  induction t as [|l IHl p r IHr]; intros He b; cbn [ordered nodes] in *; [done|].
  rewrite He by set_solver. intros (Hb & Hl & Hr). split_and!; [done|apply IHl; [set_solver|done]|apply IHr; [set_solver|done]].
Qed.

Lemma ordered_weaken f b b' t : b' <= b -> ordered f b t -> ordered f b' t.
Proof. destruct t; cbn; [done|]. intros H (? & ? & ?). split_and!; [lia|done|done]. Qed.

Lemma ordered_ctx_ext f g c : (forall q, q ∈ before c \/ q ∈ after c -> f q = g q) -> ordered_ctx f c -> ordered_ctx g c.
Proof.
  assert (Hb : forall c, (forall q, q ∈ before c \/ q ∈ after c -> f q = g q) -> bound f c = bound g c).
  { intros [|[p r|l p] c0] H; cbn in *; [done|apply H; set_solver|apply H; set_solver]. }
  induction c as [|[p r|l p] c IH]; cbn [before after ordered_ctx]; intros He; [done| |].
  all: rewrite (Hb c), (He p) by set_solver; intros (H1 & H2 & H3); split_and!;
    [done|eapply ordered_ext; [|done]; set_solver|apply IH; [set_solver|done]].
Qed.

Lemma relinked_pri L s s' q : relinked L s s' -> pri_of s' q = pri_of s q.
Proof.
  intros H. pose proof (rl_key _ _ _ H q) as Hk. unfold pri_of.
  destruct (sc_heap s' !! q), (sc_heap s !! q); cbn in *; [|done|done|done]. by injection Hk.
Qed.

Lemma relinked_ordered L s s' b t : relinked L s s' -> ordered (pri_of s) b t -> ordered (pri_of s') b t.
Proof. intros H. apply ordered_ext. intros q _. symmetry. by apply (relinked_pri L). Qed.
Lemma relinked_ordered_ctx L s s' c : relinked L s s' -> ordered_ctx (pri_of s) c -> ordered_ctx (pri_of s') c.
Proof. intros H. apply ordered_ctx_ext. intros q _. symmetry. by apply (relinked_pri L). Qed.
Lemma relinked_bound L s s' c : relinked L s s' -> bound (pri_of s') c = bound (pri_of s) c.
Proof. intros H. destruct c as [|[p r|l p] c]; cbn; [done|by apply (relinked_pri L)|by apply (relinked_pri L)]. Qed.

Lemma At_lookup s c l e r : At s c (Node l e r) ->
  exists x, sc_heap s !! e = Some x /\ se_lt x = root_of l /\ se_gt x = root_of r.
Proof.
  intros (par & _ & (_ & x & Hx & _ & Hl & Hr) & _). exists x.
  split; [done|]. split; [by apply repr_root in Hl|by apply repr_root in Hr].
Qed.

Lemma pri_of_lookup s p x : sc_heap s !! p = Some x -> se_pri x = pri_of s p.
Proof. unfold pri_of. by intros ->. Qed.

(** [e] has become a leaf and nothing else has moved in the order. *)
Definition sunk (s : schedule) (c : list frame) (l : tree) (e : ptr) (r : tree) (res : option schedule) : Prop :=
  exists s' c', res = Some s' /\ At s' c' (Node Leaf e Leaf) /\ ordered_ctx (pri_of s') c' /\
    before c' = before c ++ nodes l /\ after c' = nodes r ++ after c /\
    relinked (before c ++ nodes (Node l e r) ++ after c) s s'.
Definition sinks (n : nat) : Prop := forall l r c s e, (size l + size r <= n)%nat -> At s c (Node l e r) ->
  ordered_ctx (pri_of s) c -> ordered (pri_of s) (bound (pri_of s) c) l -> ordered (pri_of s) (bound (pri_of s) c) r ->
  sunk s c l e r (remove_loop n s e).

Lemma sink_left n s c ll y lr e r : sinks n -> (size ll + size lr + size r <= n)%nat -> At s c (Node (Node ll y lr) e r) ->
  ordered_ctx (pri_of s) c -> ordered (pri_of s) (bound (pri_of s) c) (Node ll y lr) -> ordered (pri_of s) (pri_of s y) r ->
  sunk s c (Node ll y lr) e r (s ← schedule_rotate_up s (Some y); remove_loop n s e).
Proof.
  intros IH Hn HA Hc (Hb & Hll & Hlr) Hr. destruct (rotate_left _ _ _ _ _ _ _ HA) as (s1 & -> & HA1 & Hl1).
  cbn [mbind option_bind]. apply At_right in HA1.
  destruct (IH lr r (FR ll y :: c) s1 e) as (s2 & c' & -> & HA2 & Hc2 & Hbe & Haf & Hl2); [lia|done| | | |].
  - cbn [ordered_ctx]. rewrite (relinked_bound _ _ _ _ Hl1), (relinked_pri _ _ _ _ Hl1). split; [done|].
    split; [by eapply relinked_ordered|by eapply relinked_ordered_ctx].
  - cbn [bound]. rewrite (relinked_pri _ _ _ _ Hl1). by eapply relinked_ordered.
  - cbn [bound]. rewrite (relinked_pri _ _ _ _ Hl1). by eapply relinked_ordered.
  - exists s2, c'. split_and!; [done|done|done| |done|].
    + rewrite Hbe. cbn. by rewrite <- !app_assoc.
    + eapply relinked_trans; [eapply relinked_weaken; [|exact Hl1]|eapply relinked_weaken; [|exact Hl2]]; incl.
Qed.

Lemma sink_right n s c l e rl y rr : sinks n -> (size l + size rl + size rr <= n)%nat -> At s c (Node l e (Node rl y rr)) ->
  ordered_ctx (pri_of s) c -> ordered (pri_of s) (bound (pri_of s) c) (Node rl y rr) -> ordered (pri_of s) (pri_of s y) l ->
  sunk s c l e (Node rl y rr) (s ← schedule_rotate_up s (Some y); remove_loop n s e).
Proof.
  intros IH Hn HA Hc (Hb & Hrl & Hrr) Hl. destruct (rotate_right _ _ _ _ _ _ _ HA) as (s1 & -> & HA1 & Hl1).
  cbn [mbind option_bind]. apply At_left in HA1.
  destruct (IH l rl (FL y rr :: c) s1 e) as (s2 & c' & -> & HA2 & Hc2 & Hbe & Haf & Hl2); [lia|done| | | |].
  - cbn [ordered_ctx]. rewrite (relinked_bound _ _ _ _ Hl1), (relinked_pri _ _ _ _ Hl1). split; [done|].
    split; [by eapply relinked_ordered|by eapply relinked_ordered_ctx].
  - cbn [bound]. rewrite (relinked_pri _ _ _ _ Hl1). by eapply relinked_ordered.
  - cbn [bound]. rewrite (relinked_pri _ _ _ _ Hl1). by eapply relinked_ordered.
  - exists s2, c'. split_and!; [done|done|done|done| |].
    + rewrite Haf. cbn. by rewrite <- !app_assoc.
    + eapply relinked_trans; [eapply relinked_weaken; [|exact Hl1]|eapply relinked_weaken; [|exact Hl2]]; incl.
Qed.

(** Rotating children up moves [e] to a leaf, in as many turns as it has descendants at most. *)
Lemma remove_loop_spec n : sinks n.
Proof.
  induction n as [|n IH]; intros l r c s e Hn HA Hc Hol Hor; destruct (At_lookup _ _ _ _ _ HA) as (x & Hx & Hl & Hr);
    cbn [remove_loop]; unfold child_up; rewrite Hx; cbn [mbind option_bind]; rewrite Hl, Hr.
  { destruct l, r; cbn in Hn; try lia. exists s, c. unfold sunk. rewrite app_nil_r. do 5 (split; [done|]). apply relinked_refl. }
  destruct l as [|ll y lr], r as [|rl z rr]; cbn [root_of mbind option_bind].
  - exists s, c. unfold sunk. rewrite app_nil_r. do 5 (split; [done|]). apply relinked_refl.
  - apply sink_right; [done|cbn in *; lia|done|done|done|done].
  - apply sink_left; [done|cbn in *; lia|done|done|done|done].
  - destruct (At_lookup s (FL e (Node rl z rr) :: c) ll y lr) as (xl & Hxl & _); [by apply At_left|].
    destruct (At_lookup s (FR (Node ll y lr) e :: c) rl z rr) as (xr & Hxr & _); [by apply At_right|].
    rewrite Hxl, Hxr. cbn [mbind option_bind]. rewrite (pri_of_lookup _ _ _ Hxl), (pri_of_lookup _ _ _ Hxr).
    pose proof Hol as (_ & Hol'). pose proof Hor as (_ & Hor'). cbn [size] in Hn.
    destruct (Z.ltb_spec (pri_of s y) (pri_of s z)).
    + apply sink_left; [done|cbn; lia|done|done|done|split; [lia|done]].
    + apply sink_right; [done|cbn; lia|done|done|done|split; [lia|done]].
Qed.

(** A leaf is cut off. *)
Lemma detach_spec s c e : At s c (Node Leaf e Leaf) ->
  exists s', schedule_detach_parent s e = Some s' /\ At s' c Leaf /\
    (exists x, sc_heap s' !! e = Some x /\ se_parent x = None /\ se_lt x = None /\ se_gt x = None) /\
    relinked (before c ++ [e] ++ after c) s s'.
Proof.
  intros (par & Hc & (_ & x & Hx & Hp & Hl & Hg) & Hn). cbn [repr root_of] in *. unfold schedule_detach_parent.
  rewrite Hx. cbn [mbind option_bind]. rewrite Hp. destruct c as [|[p r|l p] c]; cbn [repr_ctx] in Hc.
  - destruct Hc as [-> Hr]. rewrite bool_decide_true by done. eexists. split; [done|]. split.
    { exists None. cbn. split_and!; [done|done|done|constructor]. }
    split; [exists x; cbn; done|]. by split.
  - destruct Hc as (-> & y & Hy & Hlt & Hr & Hc). rewrite Hy. cbn [mbind option_bind]. rewrite bool_decide_true by done.
    store_step Hy. assert (Hx0 : sc_heap s0 !! e = Some x) by (eapply rl_get; [done|distinct|done]). store_step Hx0.
    eexists. split; [done|].
    assert (HR : relinked [p; e] s s1).
    { eapply relinked_trans; [eapply relinked_weaken; [|exact Hl0]|eapply relinked_weaken; [|exact Hl1]]; incl. }
    split; [|split; [eexists; split; [exact Hs0|]; cbn; done|eapply relinked_weaken; [|exact HR]; incl]].
    exists (Some p). cbn [repr_ctx root_of repr]. split.
    { split; [done|]. eexists. split; [eapply rl_get; [exact Hl1|distinct|exact Hs]|]. cbn. split; [done|]. split.
      - eapply repr_frame; [|exact Hr]. intros q Hq. apply (rl_out _ _ _ HR). distinct.
      - replace (sc_root s1) with (sc_root s) by congruence. eapply repr_ctx_frame; [|exact Hc]. intros q Hq. apply (rl_out _ _ _ HR). distinct. }
    split; [done|]. cbn [nodes] in *. by eapply NoDup_hole.
  - destruct Hc as (-> & y & Hy & Hgt & Hll & Hc). rewrite Hy. cbn [mbind option_bind].
    rewrite bool_decide_false by (rewrite (repr_root _ _ _ _ Hll); destruct l; cbn [root_of]; [done|intros [= ->]; distinct]).
    rewrite bool_decide_true by done.
    store_step Hy. assert (Hx0 : sc_heap s0 !! e = Some x) by (eapply rl_get; [done|distinct|done]). store_step Hx0.
    eexists. split; [done|].
    assert (HR : relinked [p; e] s s1).
    { eapply relinked_trans; [eapply relinked_weaken; [|exact Hl0]|eapply relinked_weaken; [|exact Hl1]]; incl. }
    split; [|split; [eexists; split; [exact Hs0|]; cbn; done|eapply relinked_weaken; [|exact HR]; incl]].
    exists (Some p). cbn [repr_ctx root_of repr]. split.
    { split; [done|]. eexists. split; [eapply rl_get; [exact Hl1|distinct|exact Hs]|]. cbn. split; [done|]. split.
      - eapply repr_frame; [|exact Hll]. intros q Hq. apply (rl_out _ _ _ HR). distinct.
      - replace (sc_root s1) with (sc_root s) by congruence. eapply repr_ctx_frame; [|exact Hc]. intros q Hq. apply (rl_out _ _ _ HR). distinct. }
    split; [done|]. cbn [nodes] in *. by eapply NoDup_hole.
Qed.

(** ** The order of the entries *)

Definition key_lt (k1 k2 : timeval * Z) : Prop :=
  tv_sec k1.1 < tv_sec k2.1 \/ tv_sec k1.1 = tv_sec k2.1 /\
    (tv_usec k1.1 < tv_usec k2.1 \/ tv_usec k1.1 = tv_usec k2.1 /\ k1.2 < k2.2).
Definition key_of (s : schedule) (p : ptr) : timeval * Z := default (mktv 0 0, 0) (entry_key <$> sc_heap s !! p).
Definition precedes (s : schedule) (p q : ptr) : Prop := key_lt (key_of s p) (key_of s q).

Lemma key_lt_trans k1 k2 k3 : key_lt k1 k2 -> key_lt k2 k3 -> key_lt k1 k3.
Proof. unfold key_lt. lia. Qed.

Lemma compare_spec x y :
  (schedule_entry_compare x y = -1 /\ key_lt (entry_key x) (entry_key y)) \/
  (schedule_entry_compare x y = 1 /\ key_lt (entry_key y) (entry_key x)) \/
  (schedule_entry_compare x y = 0 /\ se_pri x = se_pri y).
Proof.
  unfold schedule_entry_compare, key_lt, entry_key. cbn [fst snd].
  repeat match goal with |- context [?a <? ?b] => destruct (Z.ltb_spec a b) end; lia.
Qed.

Lemma key_of_lookup s p x : sc_heap s !! p = Some x -> key_of s p = entry_key x.
Proof. unfold key_of. by intros ->. Qed.

Lemma relinked_key L s s' q : relinked L s s' -> key_of s' q = key_of s q.
Proof. intros H. unfold key_of. by rewrite (rl_key _ _ _ H). Qed.

Definition sorted (s : schedule) (l : list ptr) : Prop := StronglySorted (precedes s) l.

Lemma sorted_ext s s' l : (forall q, q ∈ l -> key_of s' q = key_of s q) -> sorted s l -> sorted s' l.
Proof.
  unfold sorted. intros He. induction 1 as [|p l Hs IH Hf]; constructor; [apply IH; set_solver|].
  rewrite Forall_forall in Hf |- *. intros q Hq. unfold precedes. rewrite !He by set_solver. by apply Hf.
Qed.

Lemma sorted_app s l1 l2 : sorted s (l1 ++ l2) <->
  sorted s l1 /\ sorted s l2 /\ Forall (fun p => Forall (precedes s p) l2) l1.
Proof.
  unfold sorted. induction l1 as [|p l1 IH]; cbn [app].
  - split; [intros H; split_and!; [constructor|done|constructor]|tauto].
  - split.
    + intros H. inversion_clear H as [|? ? Hs Hf]. apply IH in Hs as (H1 & H2 & H3). apply Forall_app in Hf as [Hf1 Hf2].
      split_and!; [by constructor|done|by constructor].
    + intros (H1 & H2 & H3). inversion_clear H1 as [|? ? Hs Hf]. inversion_clear H3 as [|? ? Hp Hr].
      constructor; [by apply IH|by apply Forall_app].
Qed.

Lemma sorted_cons s p l : sorted s (p :: l) <-> sorted s l /\ Forall (precedes s p) l.
Proof. split; [by inversion 1|intros []; by constructor]. Qed.

Lemma precedes_all s p q l : precedes s p q -> Forall (precedes s q) l -> Forall (precedes s p) l.
Proof. intros H Hf. eapply Forall_impl; [exact Hf|]. intros r Hr. by eapply key_lt_trans. Qed.
Lemma all_precede s p q l : precedes s p q -> Forall (fun r => precedes s r p) l -> Forall (fun r => precedes s r q) l.
Proof. intros H Hf. eapply Forall_impl; [exact Hf|]. intros r Hr. exact (key_lt_trans _ _ _ Hr H). Qed.

(** ** Lifting a new entry to its place *)

Definition parent_of (c : list frame) : option ptr :=
  match c with [] => None | FL p _ :: _ | FR _ p :: _ => Some p end.

Lemma At_parent s c l e r : At s c (Node l e r) -> exists x, sc_heap s !! e = Some x /\ se_parent x = parent_of c.
Proof.
  intros (par & Hc & (_ & x & Hx & Hp & _ & _) & _). exists x. split; [done|]. rewrite Hp.
  destruct c as [|[p t|t p] c]; cbn [repr_ctx parent_of] in *; [apply Hc|apply Hc|apply Hc].
Qed.

Lemma lift_loop_spec c : forall s l e r fuel, At s c (Node l e r) -> (length c <= fuel)%nat -> 0 <= pri_of s e ->
  ordered_ctx (pri_of s) c ->
  ordered (pri_of s) (bound (pri_of s) c) l -> ordered (pri_of s) (bound (pri_of s) c) r ->
  ordered (pri_of s) (pri_of s e) l -> ordered (pri_of s) (pri_of s e) r ->
  exists s' t', lift_loop fuel s e = Some s' /\ At s' [] t' /\ ordered (pri_of s') 0 t' /\
    nodes t' = before c ++ nodes (Node l e r) ++ after c /\
    relinked (before c ++ nodes (Node l e r) ++ after c) s s'.
Proof.
  induction c as [|f c IH]; intros s l e r fuel HA Hfuel He Hc Hl Hr Hel Her;
    destruct (At_parent _ _ _ _ _ HA) as (x & Hx & Hp).
  { exists s, (Node l e r). destruct fuel; cbn [lift_loop]; rewrite Hx; cbn [mbind option_bind]; rewrite Hp; cbn [parent_of].
    all: split; [done|]; split; [done|]; split; [done|]; split; [cbn; by rewrite app_nil_r|apply relinked_refl]. }
  assert (Hpar : exists p y, parent_of (f :: c) = Some p /\ sc_heap s !! p = Some y).
  { destruct f as [p t|t p]; [apply (proj1 (At_left _ _ _ _ _)) in HA|apply (proj1 (At_right _ _ _ _ _)) in HA];
      destruct (At_lookup _ _ _ _ _ HA) as (y & Hy & _); by exists p, y. }
  destruct Hpar as (p & y & Hpp & Hy).
  destruct fuel as [|fuel]; cbn [length] in Hfuel; [lia|]. cbn [lift_loop]. rewrite Hx. cbn [mbind option_bind].
  rewrite Hp, Hpp, Hy. cbn [mbind option_bind]. rewrite (pri_of_lookup _ _ _ Hx), (pri_of_lookup _ _ _ Hy).
  destruct (Z.ltb_spec (pri_of s e) (pri_of s p)) as [Hlt|Hge].
  - destruct f as [p' rr|ll p']; injection Hpp as ->; cbn [ordered_ctx bound] in *; destruct Hc as (Hb & Ht & Hc).
    + apply (proj1 (At_left _ _ _ _ _)) in HA. destruct (rotate_left _ _ _ _ _ _ _ HA) as (s1 & -> & HA1 & Hl1). cbn [mbind option_bind].
      destruct (IH s1 l e (Node r p rr) fuel HA1) as (s2 & t2 & -> & HA2 & Ho & Hn2 & Hl2).
      all: rewrite ?(relinked_bound _ _ _ _ Hl1), ?(relinked_pri _ _ _ _ Hl1);
        try (eapply relinked_ordered; [exact Hl1|]); try (eapply relinked_ordered_ctx; [exact Hl1|]).
      * lia.
      * done.
      * done.
      * by eapply ordered_weaken; [|exact Hl].
      * cbn. split; [lia|done].
      * done.
      * cbn. split; [lia|done].
      * exists s2, t2. split; [done|]. split; [done|]. split; [done|].
        rewrite frame_left, Hn2, nodes_rotate. split; [done|].
        rewrite nodes_rotate in Hl2. exact (relinked_trans _ _ _ _ Hl1 Hl2).
    + apply (proj1 (At_right _ _ _ _ _)) in HA. destruct (rotate_right _ _ _ _ _ _ _ HA) as (s1 & -> & HA1 & Hl1). cbn [mbind option_bind].
      destruct (IH s1 (Node ll p l) e r fuel HA1) as (s2 & t2 & -> & HA2 & Ho & Hn2 & Hl2).
      all: rewrite ?(relinked_bound _ _ _ _ Hl1), ?(relinked_pri _ _ _ _ Hl1);
        try (eapply relinked_ordered; [exact Hl1|]); try (eapply relinked_ordered_ctx; [exact Hl1|]).
      * lia.
      * done.
      * done.
      * cbn. split; [lia|done].
      * by eapply ordered_weaken; [|exact Hr].
      * cbn. split; [lia|done].
      * done.
      * exists s2, t2. split; [done|]. split; [done|]. split; [done|].
        rewrite frame_right, Hn2, nodes_rotate. split; [done|].
        rewrite nodes_rotate in Hl1. exact (relinked_trans _ _ _ _ Hl1 Hl2).
  - exists s, (plug (f :: c) (Node l e r)). split; [done|]. split; [exact (proj1 (At_plug _ _ _) HA)|]. split.
    { apply ordered_plug. split; [done|]. split; [|done].
      destruct f as [p' rr|ll p']; injection Hpp as ->; cbn [bound]; lia. }
    split; [by rewrite nodes_plug|apply relinked_refl].
Qed.

(** ** Insertion *)

Definition unlinked (x : schedule_entry) : Prop := se_parent x = None /\ se_lt x = None /\ se_gt x = None.

Lemma attach_left s p r c e x : At s (FL p r :: c) Leaf -> sc_heap s !! e = Some x -> unlinked x ->
  e ∉ before (FL p r :: c) ++ after (FL p r :: c) ->
  exists s', (s ← store s p (fun y => y <| se_lt := Some e |>); store s e (fun x => x <| se_parent := Some p |>)) = Some s' /\
    At s' (FL p r :: c) (Node Leaf e Leaf) /\ relinked [e; p] s s'.
Proof.
  intros (par & Hc & _ & Hn) Hx (Hxp & Hxl & Hxg) Hne. cbn [repr_ctx root_of repr] in *.
  destruct Hc as (-> & y & Hy & Hlt & Hr & Hc). store_step Hy.
  assert (Hx0 : sc_heap s0 !! e = Some x) by (eapply rl_get; [done|distinct|done]). store_step Hx0.
  exists s1. split; [done|].
  assert (HR : relinked [e; p] s s1).
  { eapply relinked_trans; [eapply relinked_weaken; [|exact Hl]|eapply relinked_weaken; [|exact Hl0]]; incl. }
  split; [|done]. exists (Some p). cbn [repr_ctx root_of repr]. split; [|split].
  - split; [done|]. eexists. split; [eapply rl_get; [exact Hl0|distinct|exact Hs]|]. cbn. split; [done|]. split.
    + eapply repr_frame; [|exact Hr]. intros q Hq. apply (rl_out _ _ _ HR). distinct.
    + replace (sc_root s1) with (sc_root s) by congruence.
      eapply repr_ctx_frame; [|exact Hc]. intros q Hq. apply (rl_out _ _ _ HR). distinct.
  - split; [done|]. eexists. split; [exact Hs0|]. cbn. by rewrite Hxl, Hxg.
  - cbn [nodes app] in Hn |- *. apply NoDup_app in Hn as (H1 & H2 & H3). apply NoDup_app. split; [done|]. split.
    + intros q Hq Hq2. apply elem_of_cons in Hq2 as [->|Hq2]; [|by apply (H2 q)]. apply Hne. mem.
    + constructor; [|done]. intros Hq. apply Hne. mem.
Qed.

Lemma attach_right s l p c e x : At s (FR l p :: c) Leaf -> sc_heap s !! e = Some x -> unlinked x ->
  e ∉ before (FR l p :: c) ++ after (FR l p :: c) ->
  exists s', (s ← store s p (fun y => y <| se_gt := Some e |>); store s e (fun x => x <| se_parent := Some p |>)) = Some s' /\
    At s' (FR l p :: c) (Node Leaf e Leaf) /\ relinked [e; p] s s'.
Proof.
  intros (par & Hc & _ & Hn) Hx (Hxp & Hxl & Hxg) Hne. cbn [repr_ctx root_of repr] in *.
  destruct Hc as (-> & y & Hy & Hgt & Hll & Hc). store_step Hy.
  assert (Hx0 : sc_heap s0 !! e = Some x) by (eapply rl_get; [done|distinct|done]). store_step Hx0.
  exists s1. split; [done|].
  assert (HR : relinked [e; p] s s1).
  { eapply relinked_trans; [eapply relinked_weaken; [|exact Hl]|eapply relinked_weaken; [|exact Hl0]]; incl. }
  split; [|done]. exists (Some p). cbn [repr_ctx root_of repr]. split; [|split].
  - split; [done|]. eexists. split; [eapply rl_get; [exact Hl0|distinct|exact Hs]|]. cbn. split; [done|]. split.
    + eapply repr_frame; [|exact Hll]. intros q Hq. apply (rl_out _ _ _ HR). distinct.
    + replace (sc_root s1) with (sc_root s) by congruence.
      eapply repr_ctx_frame; [|exact Hc]. intros q Hq. apply (rl_out _ _ _ HR). distinct.
  - split; [done|]. eexists. split; [exact Hs0|]. cbn. by rewrite Hxl, Hxg.
  - change (nodes Leaf ++ ?l) with l in Hn. change (nodes (Node Leaf e Leaf) ++ ?l) with (e :: l).
    apply NoDup_app in Hn as (H1 & H2 & H3). apply NoDup_app. split; [done|]. split.
    + intros q Hq Hq2. apply elem_of_cons in Hq2 as [->|Hq2]; [|by apply (H2 q)]. apply Hne. mem.
    + constructor; [|done]. intros Hq. apply Hne. mem.
Qed.

(** [e] has become a leaf of [T], in its place in the order. *)
Definition inserted (s : schedule) (e : ptr) (T : tree) (res : option schedule) : Prop :=
  exists s' c', res = Some s' /\ At s' c' (Node Leaf e Leaf) /\ plug c' Leaf = T /\ relinked (e :: nodes T) s s' /\
    Forall (fun q => precedes s q e) (before c') /\ Forall (precedes s e) (after c').

Section Correctness.
Context (random : nat -> Z).

(** One descent finds the place or a collision of priorities. *)
Lemma insert_descend s e x t : forall c fuel, At s c t -> t <> Leaf -> (size t <= fuel)%nat ->
  sc_heap s !! e = Some x -> unlinked x -> e ∉ before c ++ nodes t ++ after c -> sorted s (before c ++ nodes t ++ after c) ->
  Forall (fun q => precedes s q e) (before c) -> Forall (precedes s e) (after c) ->
  inserted s e (plug c t) (schedule_insert random fuel s e (root_of t)) \/
  exists q fuel', q ∈ nodes t /\ pri_of s q = pri_of s e /\ (fuel <= fuel' + size t)%nat /\
    schedule_insert random fuel s e (root_of t) = (s ← schedule_set_pri random s e; schedule_insert random fuel' s e (sc_root s)).
Proof.
  induction t as [|l IHl p r IHr]; intros c fuel HA Ht Hfuel Hx Hux Hne Hs Hb Ha; [done|].
  destruct fuel as [|fuel]; cbn [size] in Hfuel; [lia|]. destruct (At_lookup _ _ _ _ _ HA) as (y & Hy & Hyl & Hyr).
  cbn [root_of schedule_insert mbind option_bind]. rewrite Hx. cbn [mbind option_bind]. rewrite Hy. cbn [mbind option_bind].
  assert (Hs' := Hs). cbn [nodes] in Hs'. rewrite <- app_assoc in Hs'. apply sorted_app in Hs' as (_ & Hs' & _).
  apply sorted_app in Hs' as (_ & Hs2 & Hlt). cbn [app] in *. apply sorted_cons in Hs2 as [_ Hgt].
  destruct (compare_spec x y) as [[-> Hk]|[[-> Hk]|[-> Hk]]].
  - change (-1 =? -1) with true. cbn [andb]. rewrite Hyl.
    assert (Hep : precedes s e p) by (unfold precedes; by rewrite (key_of_lookup _ _ _ Hx), (key_of_lookup _ _ _ Hy)).
    pose proof (precedes_all _ _ _ _ Hep Hgt) as Hgt'. apply (proj2 (At_left _ _ _ _ _)) in HA. destruct l as [|ll q lr].
    + left. cbn [root_of]. destruct (attach_left _ _ _ _ _ _ HA Hx Hux) as (s1 & -> & HA1 & Hl1).
      { cbn [before after nodes app] in *. set_solver. }
      exists s1, (FL p r :: c). split; [done|]. split; [done|]. split; [done|]. split.
      { eapply relinked_weaken; [|exact Hl1]. rewrite nodes_plug. incl. }
      cbn [before after]. split; [done|]. by constructor.
    + change (root_of (Node ll q lr)) with (Some q) in *. cbn iota.
      destruct (IHl (FL p r :: c) fuel HA) as [Hi|(z & f' & Hz & Hp & Hf & Hi)]; try done.
      * lia.
      * by rewrite frame_left.
      * by rewrite frame_left.
      * cbn [after]. by constructor.
      * left. exact Hi.
      * right. exists z, f'. split; [cbn [nodes]; mem|]. split; [done|]. split; [cbn [size] in *; lia|exact Hi].
  - change (1 =? -1) with false. change (1 =? 1) with true. cbn iota. rewrite Hyr.
    assert (Hpe : precedes s p e) by (unfold precedes; by rewrite (key_of_lookup _ _ _ Hx), (key_of_lookup _ _ _ Hy)).
    assert (Hlt' : Forall (fun q => precedes s q e) (nodes l)).
    { apply (all_precede s p e); [done|]. eapply Forall_impl; [exact Hlt|]. intros q Hq. by inversion Hq. }
    apply (proj2 (At_right _ _ _ _ _)) in HA. destruct r as [|rl q rr].
    + left. cbn [root_of]. destruct (attach_right _ _ _ _ _ _ HA Hx Hux) as (s1 & -> & HA1 & Hl1).
      { cbn [before after nodes app] in *. set_solver. }
      exists s1, (FR l p :: c). split; [done|]. split; [done|]. split; [done|]. split.
      { eapply relinked_weaken; [|exact Hl1]. rewrite nodes_plug. incl. }
      cbn [before after]. split; [|done]. apply Forall_app. split; [done|]. apply Forall_app. split; [done|]. by apply Forall_singleton.
    + change (root_of (Node rl q rr)) with (Some q) in *. cbn iota.
      destruct (IHr (FR l p :: c) fuel HA) as [Hi|(z & f' & Hz & Hp & Hf & Hi)]; try done.
      * lia.
      * by rewrite frame_right.
      * by rewrite frame_right.
      * cbn [before]. apply Forall_app. split; [done|]. apply Forall_app. split; [done|]. by apply Forall_singleton.
      * left. exact Hi.
      * right. exists z, f'. split; [cbn [nodes]; mem|]. split; [done|]. split; [cbn [size] in *; lia|exact Hi].
  - change (0 =? -1) with false. change (0 =? 1) with false. cbn iota. right. exists p, fuel.
    split; [cbn [nodes]; mem|]. split; [|split; [cbn [size]; lia|done]].
    rewrite <- (pri_of_lookup _ _ _ Hx), <- (pri_of_lookup _ _ _ Hy). done.
Qed.

Lemma At_frame s s' c t : (forall q, q ∈ before c ++ nodes t ++ after c -> sc_heap s' !! q = sc_heap s !! q) ->
  sc_root s' = sc_root s -> At s c t -> At s' c t.
Proof.
  intros Hf Hr (par & Hc & Ht & Hn). exists par. rewrite Hr. split; [|split; [|done]].
  - eapply repr_ctx_frame; [|exact Hc]. intros q Hq. apply Hf. set_solver.
  - eapply repr_frame; [|exact Ht]. intros q Hq. apply Hf. set_solver.
Qed.

(** Only the priority of [e] and the count of the draws have changed. *)
Definition redrawn (s : schedule) (e : ptr) (x : schedule_entry) (s' : schedule) : Prop :=
  exists pri n, 1 <= pri /\ s' = s <| sc_heap := <[e := x <| se_pri := pri |>]> (sc_heap s) |> <| sc_random := n |>.

Lemma new_pri_pos n : 1 <= new_pri random n.
Proof. unfold new_pri. destruct (Z.ltb_spec (u32 (random n)) 1); lia. Qed.

Lemma set_pri_spec s e x : sc_heap s !! e = Some x ->
  schedule_set_pri random s e = Some (s <| sc_heap := <[e := x <| se_pri := new_pri random (sc_random s) |>]> (sc_heap s) |>
    <| sc_random := S (sc_random s) |>).
Proof. intros Hx. unfold schedule_set_pri. by rewrite (store_eq _ _ _ _ Hx). Qed.

Lemma redrawn_cell s e x s' : redrawn s e x s' ->
  exists x', sc_heap s' !! e = Some x' /\ 1 <= se_pri x' /\ se_tv x' = se_tv x /\ (unlinked x -> unlinked x').
Proof. intros (pri & n & Hp & ->). exists (x <| se_pri := pri |>). split; [apply lookup_insert_eq|]. by split_and!. Qed.

Lemma redrawn_other s e x s' q : redrawn s e x s' -> q <> e -> sc_heap s' !! q = sc_heap s !! q.
Proof. intros (pri & n & _ & ->) Hq. by apply lookup_insert_ne. Qed.

Lemma redrawn_key s e x s' q : redrawn s e x s' -> q <> e -> key_of s' q = key_of s q.
Proof. intros H Hq. unfold key_of. by rewrite (redrawn_other _ _ _ _ _ H Hq). Qed.

Lemma redrawn_pri s e x s' q : redrawn s e x s' -> q <> e -> pri_of s' q = pri_of s q.
Proof. intros H Hq. unfold pri_of. by rewrite (redrawn_other _ _ _ _ _ H Hq). Qed.

Lemma redrawn_At s e x s' t : redrawn s e x s' -> e ∉ nodes t -> At s [] t -> At s' [] t.
Proof.
  intros H He. apply At_frame; [|by destruct H as (? & ? & _ & ->)].
  intros q Hq. apply (redrawn_other _ _ _ _ _ H). cbn [before after app] in Hq. rewrite app_nil_r in Hq. by intros ->.
Qed.

(** With [m] more draws that are not all taken the insertion succeeds. *)
Lemma insert_retries m : forall s e x T fuel, At s [] T -> T <> Leaf -> sc_heap s !! e = Some x -> unlinked x ->
  1 <= se_pri x -> e ∉ nodes T -> sorted s (nodes T) ->
  (pri_of s e ∉ map (pri_of s) (nodes T) \/
    exists k, (k < m)%nat /\ new_pri random (sc_random s + k) ∉ map (pri_of s) (nodes T)) ->
  (S m * size T <= fuel)%nat ->
  exists s1, redrawn s e x s1 /\ inserted s1 e T (schedule_insert random fuel s e (sc_root s)).
Proof.
  induction m as [|m IH]; intros s e x T fuel HA HT Hx Hux Hpos He Hs Hfresh Hfuel;
    (assert (Hroot : sc_root s = root_of T) by (destruct HA as (? & [_ ?] & _); done));
    (assert (Hs' : sorted s (before [] ++ nodes T ++ after [])) by (cbn; by rewrite app_nil_r));
    (assert (He' : e ∉ before [] ++ nodes T ++ after []) by (cbn; by rewrite app_nil_r));
    destruct (insert_descend s e x T [] fuel HA HT ltac:(lia) Hx Hux He' Hs' ltac:(constructor) ltac:(constructor))
      as [Hi|(q & f' & Hq & Hp & Hf & Hi)]; rewrite Hroot.
  1, 3: exists s; split; [exists (se_pri x), (sc_random s); split; [done|]; destruct s, x; cbn in *; by rewrite insert_id|exact Hi].
  - exfalso. destruct Hfresh as [Hf0|(k & Hk & _)]; [|lia]. apply Hf0. rewrite <- Hp. by apply list_elem_of_fmap_2.
  - rewrite Hi, (set_pri_spec _ _ _ Hx). cbn [mbind option_bind]. set (s1 := _ <| sc_random := _ |>).
    assert (HR : redrawn s e x s1) by (eexists _, _; split; [apply new_pri_pos|reflexivity]).
    destruct (redrawn_cell _ _ _ _ HR) as (x1 & Hx1 & Hp1 & Htv1 & Hu1).
    assert (Hpris : map (pri_of s1) (nodes T) = map (pri_of s) (nodes T)).
    { apply map_ext_in. intros z Hz. apply (redrawn_pri _ _ _ _ _ HR). intros ->. apply He. by apply list_elem_of_In. }
    destruct (IH s1 e x1 T f') as (s2 & HR2 & Hins).
    + by eapply redrawn_At.
    + done.
    + done.
    + by apply Hu1.
    + done.
    + done.
    + eapply sorted_ext; [|exact Hs]. intros z Hz. apply (redrawn_key _ _ _ _ _ HR). by intros ->.
    + rewrite Hpris. destruct Hfresh as [Hf0|([|k] & Hk & Hfr)].
      * exfalso. apply Hf0. rewrite <- Hp. by apply list_elem_of_fmap_2.
      * left. rewrite Nat.add_0_r in Hfr. unfold pri_of at 1. unfold s1 at 1. cbn. rewrite lookup_insert_eq. cbn. exact Hfr.
      * right. exists k. split; [lia|]. unfold s1. cbn. by rewrite <- Nat.add_succ_r.
    + lia.
    + exists s2. split; [|exact Hins]. destruct HR2 as (pri & n & Hpri & ->). exists pri, n. split; [done|].
      unfold s1 in *. cbn in *. rewrite lookup_insert_eq in Hx1. injection Hx1 as <-. unfold upd. cbn. f_equal.
      by rewrite insert_insert_eq.
Qed.

(** ** The operations on whole treaps *)

(** Besides [e], only links inside [L] change. *)
Record moved (e : ptr) (L : list ptr) (s s' : schedule) : Prop := mkmoved {
  mv_key : forall q, q <> e -> entry_key <$> sc_heap s' !! q = entry_key <$> sc_heap s !! q;
  mv_out : forall q, q ∉ e :: L -> sc_heap s' !! q = sc_heap s !! q;
  mv_cache : earliest_wakeup s' = earliest_wakeup s }.

Lemma moved_trans e L s1 s2 s3 : moved e L s1 s2 -> moved e L s2 s3 -> moved e L s1 s3.
Proof. intros [H1 H2 H3] [H4 H5 H6]. split; [intros q Hq; by rewrite H4, H1|intros q Hq; by rewrite H5, H2|congruence]. Qed.
Lemma relinked_moved e L L' s s' : L' ⊆ e :: L -> relinked L' s s' -> moved e L s s'.
Proof. intros HL [H1 H2 H3 H4]. split; [intros q _; apply H1|intros q Hq; apply H2; set_solver|done]. Qed.
Lemma store_moved s e f s' L : store s e f = Some s' -> moved e L s s'.
Proof.
  unfold store. destruct (sc_heap s !! e) as [x|]; [|discriminate]. intros [= <-].
  split; [|intros q Hq; apply lookup_insert_ne; set_solver|done].
  intros q Hq. cbn. by rewrite lookup_insert_ne.
Qed.
Lemma redrawn_moved s e x s' L : sc_heap s !! e = Some x -> redrawn s e x s' -> moved e L s s'.
Proof.
  intros Hx H. split; [|intros q Hq; apply (redrawn_other _ _ _ _ _ H); set_solver|by destruct H as (? & ? & _ & ->)].
  intros q Hq. by rewrite (redrawn_other _ _ _ _ _ H Hq).
Qed.
Lemma moved_key e L s s' q : moved e L s s' -> q <> e -> key_of s' q = key_of s q.
Proof. intros H Hq. unfold key_of. by rewrite (mv_key _ _ _ _ H). Qed.
Lemma moved_pri e L s s' q : moved e L s s' -> q <> e -> pri_of s' q = pri_of s q.
Proof.
  intros H Hq. pose proof (mv_key _ _ _ _ H q Hq) as Hk. unfold pri_of.
  destruct (sc_heap s' !! q), (sc_heap s !! q); cbn in *; [|done|done|done]. by injection Hk.
Qed.

Lemma zipper e t : e ∈ nodes t -> exists c l r, t = plug c (Node l e r).
Proof.
  assert (G : forall t c, e ∈ nodes t -> exists c' l r, plug c t = plug c' (Node l e r)).
  { clear. induction t as [|l IHl p r IHr]; intros c He; cbn [nodes] in He; [by apply elem_of_nil in He|].
    apply elem_of_app in He as [He|He]; [by apply (IHl (FL p r :: c))|].
    apply elem_of_cons in He as [->|He]; [by exists c, l, r|by apply (IHr (FR l p :: c))]. }
  exact (G t []).
Qed.

Lemma size_nodes t : size t = length (nodes t).
Proof. induction t as [|l IHl p r IHr]; cbn; [done|]. rewrite length_app. cbn. lia. Qed.

Lemma remove_node_spec s t e fuel : At s [] t -> ordered (pri_of s) 0 t -> e ∈ nodes t -> (size t <= fuel)%nat ->
  exists s' t' l1 l2, schedule_remove_node fuel s e = Some s' /\ At s' [] t' /\ ordered (pri_of s') 0 t' /\
    nodes t = l1 ++ e :: l2 /\ nodes t' = l1 ++ l2 /\ moved e (nodes t) s s' /\
    exists x, sc_heap s' !! e = Some x /\ se_pri x = 0 /\ unlinked x /\ se_tv x = (key_of s e).1.
Proof.
  intros HA Ho He Hfuel. destruct (zipper e t He) as (c & l & r & ->). apply ordered_plug in Ho as [Hc (Hb & Hl & Hr)].
  apply At_plug in HA. pose proof (nodes_plug c (Node l e r)) as Hnodes. rewrite size_nodes, Hnodes, !length_app in Hfuel.
  cbn [nodes] in Hfuel. rewrite length_app, <- !size_nodes in Hfuel. cbn [length] in Hfuel. rewrite <- size_nodes in Hfuel.
  destruct (remove_loop_spec fuel l r c s e) as (s1 & c1 & He1 & HA1 & Hc1 & Hb1 & Ha1 & Hl1); [lia|done|done| | |].
  { by eapply ordered_weaken. }
  { by eapply ordered_weaken. }
  destruct (detach_spec _ _ _ HA1) as (s2 & He2 & HA2 & (x & Hx & Hu) & Hl2).
  exists (s2 <| sc_heap := <[e := x <| se_pri := 0 |>]> (sc_heap s2) |>), (plug c1 Leaf), (before c ++ nodes l), (nodes r ++ after c).
  assert (Hn1 : nodes (plug c1 Leaf) = (before c ++ nodes l) ++ nodes r ++ after c) by (rewrite nodes_plug; cbn; by rewrite Hb1, Ha1).
  assert (Hout : e ∉ nodes (plug c1 Leaf)).
  { destruct HA1 as (? & _ & _ & Hnd). rewrite nodes_plug. intros Hin. cbn [nodes app] in *. apply NoDup_app in Hnd as (_ & Hd & Hnd).
    apply NoDup_cons in Hnd as [Hd2 _]. apply elem_of_app in Hin as [Hin|Hin]; [apply (Hd e Hin); mem|done]. }
  unfold schedule_remove_node. rewrite He1. cbn [mbind option_bind]. rewrite He2. cbn [mbind option_bind].
  split; [by apply store_eq|]. apply (proj1 (At_plug _ _ _)) in HA2. split; [|split; [|split; [|split; [|split]]]].
  - apply (At_frame s2); [|done|exact HA2]. intros q Hq. cbn. apply lookup_insert_ne. intros <-. cbn in Hq. by rewrite app_nil_r in Hq.
  - assert (Ho1 : ordered (pri_of s2) 0 (plug c1 Leaf)) by (apply ordered_plug; split; [by eapply relinked_ordered_ctx|done]).
    eapply ordered_ext; [|exact Ho1]. intros q Hq. unfold pri_of. cbn. rewrite lookup_insert_ne; [done|]. by intros <-.
  - rewrite Hnodes. cbn [nodes]. by rewrite <- !app_assoc.
  - exact Hn1.
  - eapply moved_trans; [eapply (relinked_moved e); [|exact Hl1]|eapply moved_trans; [eapply (relinked_moved e); [|exact Hl2]|]].
    + rewrite Hnodes. set_solver.
    + rewrite Hnodes, Hb1, Ha1. cbn [nodes]. incl.
    + eapply store_moved. by apply store_eq.
  - eexists. split; [apply lookup_insert_eq|]. split; [done|]. split; [done|]. cbn.
    rewrite <- (relinked_key _ _ _ e Hl1), <- (relinked_key _ _ _ e Hl2), (key_of_lookup _ _ _ Hx). done.
Qed.

(** Of any [R] successive draws one avoids any [cap] given priorities. *)
Definition draws_fresh (R cap : nat) : Prop :=
  forall n l, (length l <= cap)%nat -> exists k, (k < R)%nat /\ new_pri random (n + k) ∉ l.

(** An entry is in the tree exactly when its priority is set. *)
Definition cells (s : schedule) (t : tree) : Prop :=
  forall p x, sc_heap s !! p = Some x -> if decide (p ∈ nodes t) then 1 <= se_pri x else se_pri x = 0 /\ unlinked x.
Record treap (s : schedule) (t : tree) : Prop := mktreap {
  tr_at : At s [] t; tr_ordered : ordered (pri_of s) 0 t; tr_sorted : sorted s (nodes t); tr_cells : cells s t }.

Lemma length_ctx c t : (length c <= size (plug c t))%nat.
Proof.
  rewrite size_nodes, nodes_plug, !length_app.
  induction c as [|[p r|l p] c IH]; cbn [length before after]; rewrite ?length_app; cbn [length]; rewrite ?length_app; lia.
Qed.

(** The second half of [schedule_add_modify]: draw a priority, insert, lift. *)
Lemma place_spec R cap s T e x fuel : draws_fresh R cap -> At s [] T -> ordered (pri_of s) 0 T -> sorted s (nodes T) ->
  e ∉ nodes T -> sc_heap s !! e = Some x -> unlinked x -> (size T <= cap)%nat -> (R * cap <= fuel)%nat ->
  exists s' t' l1 l2,
    (s ← schedule_set_pri random s e;
     s ← match sc_root s with
         | Some _ => schedule_insert random fuel s e (sc_root s)
         | None => Some (s <| sc_root := Some e |>)
         end;
     lift_loop fuel s e) = Some s' /\
    At s' [] t' /\ ordered (pri_of s') 0 t' /\ sorted s' (nodes t') /\ nodes T = l1 ++ l2 /\ nodes t' = l1 ++ e :: l2 /\
    moved e (nodes T) s s' /\ exists x', sc_heap s' !! e = Some x' /\ 1 <= se_pri x' /\ se_tv x' = se_tv x.
Proof.
  intros Hdraw HA Ho Hs He Hx Hux Hcap Hfuel. rewrite (set_pri_spec _ _ _ Hx). cbn [mbind option_bind].
  set (s0 := _ <| sc_random := _ |>).
  assert (HR : redrawn s e x s0) by (eexists _, _; split; [apply new_pri_pos|reflexivity]).
  destruct (redrawn_cell _ _ _ _ HR) as (x0 & Hx0 & Hp0 & Htv0 & Hu0). pose proof (redrawn_moved _ _ _ _ (nodes T) Hx HR) as Hm0.
  destruct (Hdraw (sc_random s) (map (pri_of s) (nodes T))) as (k & Hk & Hfr); [by rewrite length_map, <- size_nodes|].
  assert (HA0 : At s0 [] T) by by eapply redrawn_At.
  assert (Hroot : sc_root s0 = root_of T) by (destruct HA0 as (? & [_ ?] & _); done).
  assert (Hs0 : sorted s0 (nodes T)).
  { eapply sorted_ext; [|exact Hs]. intros q Hq. apply (redrawn_key _ _ _ _ _ HR). by intros ->. }
  assert (Ho0 : ordered (pri_of s0) 0 T).
  { eapply ordered_ext; [|exact Ho]. intros q Hq. symmetry. apply (redrawn_pri _ _ _ _ _ HR). by intros ->. }
  assert (Hins : exists s1, redrawn s0 e x0 s1 /\ inserted s1 e T (match sc_root s0 with
      | Some _ => schedule_insert random fuel s0 e (sc_root s0) | None => Some (s0 <| sc_root := Some e |>) end)).
  { destruct T as [|l p r]; rewrite Hroot; cbn [root_of].
    - exists s0. split; [exists (se_pri x0), (sc_random s0); split; [done|]; destruct s0, x0; cbn in *; by rewrite insert_id|].
      eexists _, []. split; [reflexivity|]. split; [|split; [done|split; [by split|split; constructor]]].
      exists None. cbn. split; [done|]. split; [|apply NoDup_singleton]. split; [done|]. exists x0. by destruct (Hu0 Hux) as (? & ? & ?).
    - change (Some p) with (root_of (Node l p r)). rewrite <- Hroot.
      apply (insert_retries (R - 1)); try done.
      + by apply Hu0.
      + assert (Hpris : map (pri_of s0) (nodes (Node l p r)) = map (pri_of s) (nodes (Node l p r))).
        { apply map_ext_in. intros z Hz. apply (redrawn_pri _ _ _ _ _ HR). intros ->. apply He. by apply list_elem_of_In. }
        rewrite Hpris. destruct k as [|k]; [left|right; exists k].
        * rewrite Nat.add_0_r in Hfr. unfold pri_of at 1. unfold s0 at 1. cbn. by rewrite lookup_insert_eq.
        * split; [lia|]. unfold s0. cbn. by rewrite <- Nat.add_succ_r.
      + enough (R * size (Node l p r) <= R * cap)%nat by (replace (S (R - 1)) with R by lia; lia). by apply Nat.mul_le_mono_l. }
  destruct Hins as (s1 & HR1 & s2 & c & -> & HA2 & Hplug & Hl2 & Hb & Ha). cbn [mbind option_bind].
  destruct (redrawn_cell _ _ _ _ HR1) as (x1 & Hx1 & Hp1 & Htv1 & _). pose proof (redrawn_moved _ _ _ _ (nodes T) Hx0 HR1) as Hm1.
  assert (Hm2 : moved e (nodes T) s s2).
  { eapply moved_trans; [exact Hm0|]. eapply moved_trans; [exact Hm1|]. by eapply relinked_moved; [|exact Hl2]. }
  assert (HT : nodes T = before c ++ after c) by (rewrite <- Hplug; apply nodes_plug).
  assert (Ho2 : ordered_ctx (pri_of s2) c).
  { apply (ordered_plug _ c Leaf). rewrite Hplug. eapply ordered_ext; [|exact Ho]. intros q Hq. symmetry.
    apply (moved_pri _ _ _ _ _ Hm2). by intros ->. }
  destruct (lift_loop_spec c s2 Leaf e Leaf fuel HA2) as (s3 & t3 & -> & HA3 & Ho3 & Hn3 & Hl3); [| |done|done|done|done|done|].
  { pose proof (length_ctx c Leaf) as Hlen. rewrite Hplug in Hlen.
    assert (cap <= R * cap)%nat by (destruct R; [lia|nia]). lia. }
  { rewrite (relinked_pri _ _ _ _ Hl2), <- (pri_of_lookup _ _ _ Hx1). lia. }
  exists s3, t3, (before c), (after c). split; [done|]. split; [done|]. split; [done|].
  assert (Hkey : forall q, key_of s3 q = key_of s1 q) by (intros q; by rewrite (relinked_key _ _ _ _ Hl3), (relinked_key _ _ _ _ Hl2)).
  split; [|split; [done|split; [done|split]]].
  - apply (sorted_ext s1); [by intros|]. rewrite Hn3. cbn [nodes app].
    assert (Hs1 : sorted s1 (nodes T)).
    { eapply sorted_ext; [|exact Hs0]. intros q Hq. apply (redrawn_key _ _ _ _ _ HR1). by intros ->. }
    rewrite HT in Hs1. apply sorted_app in Hs1 as (Hs1 & Hs2 & Hs3). apply sorted_app. split; [done|]. split; [by apply sorted_cons|].
    rewrite Forall_forall in Hs3, Hb |- *. intros q Hq. constructor; [by apply Hb|by apply Hs3].
  - eapply moved_trans; [exact Hm2|]. eapply relinked_moved; [|exact Hl3]. rewrite HT. incl.
  - pose proof (Hkey e) as Hke. pose proof (rl_key _ _ _ Hl3 e) as He3. pose proof (rl_key _ _ _ Hl2 e) as He2.
    rewrite Hx1 in He2. destruct (sc_heap s2 !! e) as [x2|]; [|done]. destruct (sc_heap s3 !! e) as [x3|]; [|done].
    exists x3. split; [done|]. cbn in *. injection He2 as Ht2 Hpr2. injection He3 as Ht3 Hpr3. split; [lia|congruence].
Qed.

(** ** The scheduler as a finite map *)

Definition pending (s : schedule) : gmap ptr timeval :=
  omap (fun x => if IN_TREE x then Some (se_tv x) else None) (sc_heap s).

(** The treap and the cached answer. *)
Definition sched_inv (s : schedule) (t : tree) : Prop :=
  treap s t /\ (earliest_wakeup s = None \/ earliest_wakeup s = head (nodes t)).

Lemma node_cell s t q : At s [] t -> q ∈ nodes t -> exists x, sc_heap s !! q = Some x.
Proof.
  intros HA Hq. destruct (zipper q t Hq) as (c & l & r & ->). apply At_plug in HA.
  destruct (At_lookup _ _ _ _ _ HA) as (x & Hx & _). by exists x.
Qed.

Lemma size_heap s t : At s [] t -> (size t <= base.size (sc_heap s))%nat.
Proof.
  intros HA. rewrite size_nodes, <- size_dom.
  assert (Hn : NoDup (nodes t)) by (destruct HA as (? & _ & _ & Hn); cbn in Hn; by rewrite app_nil_r in Hn).
  rewrite <- (size_list_to_set (C := gset ptr) (nodes t) Hn). apply subseteq_size. intros q Hq.
  apply elem_of_list_to_set in Hq. apply elem_of_dom. by apply (node_cell s t q HA).
Qed.

Lemma pending_lookup s t q : treap s t ->
  pending s !! q = if decide (q ∈ nodes t) then Some (key_of s q).1 else None.
Proof.
  intros [HA _ _ Hc]. unfold pending. rewrite lookup_omap. destruct (sc_heap s !! q) as [x|] eqn:Hx; cbn.
  - specialize (Hc q x Hx). rewrite (key_of_lookup _ _ _ Hx). unfold IN_TREE. destruct (decide (q ∈ nodes t)).
    + destruct (Z.eqb_spec (se_pri x) 0); [lia|done].
    + destruct Hc as [-> _]. done.
  - destruct (decide (q ∈ nodes t)) as [Hq|]; [|done]. destruct (node_cell s t q HA Hq) as [x Hx']. congruence.
Qed.

Lemma in_tree s t e x : treap s t -> sc_heap s !! e = Some x -> IN_TREE x = bool_decide (e ∈ nodes t).
Proof.
  intros Ht Hx. pose proof (tr_cells _ _ Ht e x Hx) as Hc. unfold IN_TREE.
  destruct (decide (e ∈ nodes t)); [rewrite bool_decide_true by done|rewrite bool_decide_false by done].
  - destruct (Z.eqb_spec (se_pri x) 0); [lia|done].
  - destruct Hc as [-> _]. done.
Qed.

Lemma moved_cells e L s s' t t' : moved e L s s' -> cells s t -> L ⊆ nodes t -> (forall q, q <> e -> q ∈ nodes t' <-> q ∈ nodes t) ->
  (forall x, sc_heap s' !! e = Some x -> if decide (e ∈ nodes t') then 1 <= se_pri x else se_pri x = 0 /\ unlinked x) -> cells s' t'.
Proof.
  intros Hm Hc HL Hiff He q x' Hx'. destruct (decide (q = e)) as [->|Hqe]; [by apply He|].
  destruct (decide (q ∈ nodes t)) as [Hq|Hq].
  - rewrite decide_True by by apply Hiff. pose proof (mv_key _ _ _ _ Hm q Hqe) as Hk. rewrite Hx' in Hk.
    destruct (sc_heap s !! q) as [x|] eqn:Hx; [|done]. cbn in Hk. injection Hk as Ht Hp.
    specialize (Hc q x Hx). rewrite decide_True in Hc by done. lia.
  - rewrite decide_False by by rewrite Hiff. rewrite (mv_out _ _ _ _ Hm) in Hx' by set_solver.
    specialize (Hc q x' Hx'). by rewrite decide_False in Hc.
Qed.

Lemma moved_dom e L s s' x x' : moved e L s s' -> sc_heap s !! e = Some x -> sc_heap s' !! e = Some x' ->
  dom (sc_heap s') = dom (sc_heap s).
Proof.
  intros Hm Hx Hx'. apply set_eq. intros q. rewrite !elem_of_dom. destruct (decide (q = e)) as [->|Hq].
  - rewrite Hx, Hx'. split; by eexists.
  - pose proof (mv_key _ _ _ _ Hm q Hq) as Hk. destruct (sc_heap s' !! q), (sc_heap s !! q); try done; split; by intros [].
Qed.

Lemma pending_delete s s' t t' e : treap s t -> treap s' t' -> (forall q, q <> e -> key_of s' q = key_of s q) ->
  e ∉ nodes t' -> (forall q, q <> e -> q ∈ nodes t' <-> q ∈ nodes t) -> pending s' = delete e (pending s).
Proof.
  intros Ht Ht' Hkey He Hiff. apply map_eq. intros q. rewrite (pending_lookup _ _ _ Ht').
  destruct (decide (q = e)) as [->|Hq]; [by rewrite lookup_delete_eq, decide_False|].
  rewrite lookup_delete_ne, (pending_lookup _ _ _ Ht), (Hkey q Hq) by done. specialize (Hiff q Hq).
  destruct (decide (q ∈ nodes t)) as [H|H]; [by rewrite decide_True by by apply Hiff|by rewrite decide_False by by rewrite Hiff].
Qed.

Lemma pending_insert s s' t t' e x : treap s t -> treap s' t' -> (forall q, q <> e -> key_of s' q = key_of s q) ->
  e ∈ nodes t' -> sc_heap s' !! e = Some x -> (forall q, q <> e -> q ∈ nodes t' <-> q ∈ nodes t) ->
  pending s' = <[e := se_tv x]> (pending s).
Proof.
  intros Ht Ht' Hkey He Hx Hiff. apply map_eq. intros q. rewrite (pending_lookup _ _ _ Ht').
  destruct (decide (q = e)) as [->|Hq]; [by rewrite lookup_insert_eq, decide_True, (key_of_lookup _ _ _ Hx)|].
  rewrite lookup_insert_ne, (pending_lookup _ _ _ Ht), (Hkey q Hq) by done. specialize (Hiff q Hq).
  destruct (decide (q ∈ nodes t)) as [H|H]; [by rewrite decide_True by by apply Hiff|by rewrite decide_False by by rewrite Hiff].
Qed.

(** What removing a node of the tree leaves. *)
Lemma removed_treap s t e s' t' l1 l2 y : At s [] t -> sorted s (l1 ++ l2) -> cells s t -> At s' [] t' ->
  ordered (pri_of s') 0 t' -> nodes t = l1 ++ e :: l2 -> nodes t' = l1 ++ l2 -> moved e (nodes t) s s' ->
  sc_heap s' !! e = Some y -> se_pri y = 0 -> unlinked y ->
  treap s' t' /\ (e ∉ nodes t') /\ (forall q, q <> e -> q ∈ nodes t' <-> q ∈ nodes t).
Proof.
  intros HA Hs Hc HA' Ho' Hn Hn' Hm Hy Hy0 Hyu.
  assert (Hnd : NoDup (l1 ++ e :: l2)) by (destruct HA as (? & _ & _ & Hnd); cbn in Hnd; by rewrite app_nil_r, Hn in Hnd).
  assert (Hout : e ∉ nodes t') by (rewrite Hn'; distinct).
  assert (Hiff : forall q, q <> e -> q ∈ nodes t' <-> q ∈ nodes t) by (intros q Hq; rewrite Hn, Hn'; set_solver).
  split; [|done]. split; [done|done| |].
  - rewrite Hn' in Hout |- *. apply (sorted_ext s); [intros q Hq; apply (moved_key _ _ _ _ _ Hm); by intros ->|done].
  - apply (moved_cells e (nodes t) s s' t t'); [done|done|done|done|]. intros z Hz. rewrite decide_False by done.
    rewrite Hy in Hz. by injection Hz as <-.
Qed.

Lemma remove_absent s t e x fuel : treap s t -> sc_heap s !! e = Some x -> e ∉ nodes t -> schedule_remove_node fuel s e = Some s.
Proof.
  intros Ht Hx He. pose proof (tr_cells _ _ Ht e x Hx) as Hce. rewrite decide_False in Hce by done.
  destruct Hce as (Hx0 & Hxp & Hxl & Hxg). unfold schedule_remove_node.
  assert (Hloop : remove_loop fuel s e = Some s) by (destruct fuel; cbn [remove_loop]; rewrite Hx; cbn; unfold child_up; by rewrite Hxl, Hxg).
  rewrite Hloop. cbn [mbind option_bind]. unfold schedule_detach_parent. rewrite Hx. cbn [mbind option_bind]. rewrite Hxp.
  rewrite bool_decide_false.
  - cbn [mbind option_bind]. rewrite (store_eq _ _ _ _ Hx). f_equal. destruct s, x. cbn in *. subst. by rewrite insert_id.
  - intros Hroot. destruct (tr_at _ _ Ht) as (? & [_ Hrt] & _). rewrite Hrt in Hroot. destruct t; [done|].
    injection Hroot as ->. apply He. cbn [nodes]. mem.
Qed.

Lemma sorted_without s l1 e l2 : sorted s (l1 ++ e :: l2) -> sorted s (l1 ++ l2).
Proof.
  rewrite !sorted_app, sorted_cons. intros (H1 & [H2 _] & H3). split; [done|]. split; [done|].
  eapply Forall_impl; [exact H3|]. intros q Hq. by inversion Hq.
Qed.

Lemma remove_spec s t e x fuel : sched_inv s t -> sc_heap s !! e = Some x -> (size t <= fuel)%nat ->
  exists s' t', schedule_remove_entry fuel s e = Some s' /\ sched_inv s' t' /\ dom (sc_heap s') = dom (sc_heap s) /\
    pending s' = delete e (pending s).
Proof.
  intros [Ht _] Hx Hfuel. unfold schedule_remove_entry. set (s0 := s <| earliest_wakeup := None |>).
  assert (Ht0 : treap s0 t) by (destruct Ht; by split). destruct (decide (e ∈ nodes t)) as [He|He].
  - destruct (remove_node_spec s0 t e fuel) as (s' & t' & l1 & l2 & Hr & HA' & Ho' & Hn & Hn' & Hm & y & Hy & Hy0 & Hyu & _);
      [apply Ht0|apply Ht0|done|done|].
    destruct (removed_treap s0 t e s' t' l1 l2 y) as (Ht' & Hout & Hiff); try done; [apply Ht0| |apply Ht0|].
    { apply (sorted_without _ _ e). rewrite <- Hn. apply Ht0. }
    exists s', t'. split; [done|]. split; [split; [done|left; by rewrite (mv_cache _ _ _ _ Hm)]|].
    split; [by apply (moved_dom e (nodes t) s0 s' x y)|]. eapply (pending_delete s0); [done|done| |done|done]. intros q Hq. exact (moved_key _ _ _ _ _ Hm Hq).
  - exists s0, t. split; [by apply (remove_absent s0 t e x)|]. split; [split; [done|by left]|]. split; [done|].
    by eapply (pending_delete s0).
Qed.

(** [schedule_add_modify] on an entry whose time may already have been changed. *)
Lemma add_modify_spec R cap s t e x fuel : draws_fresh R cap -> At s [] t -> ordered (pri_of s) 0 t -> cells s t ->
  (forall l1 l2, nodes t = l1 ++ e :: l2 -> sorted s (l1 ++ l2)) -> (e ∉ nodes t -> sorted s (nodes t)) ->
  sc_heap s !! e = Some x -> (size t <= cap)%nat -> (R * cap <= fuel)%nat ->
  exists s' t', schedule_add_modify random fuel s e = Some s' /\ treap s' t' /\ moved e (nodes t) s s' /\
    e ∈ nodes t' /\ (forall q, q <> e -> q ∈ nodes t' <-> q ∈ nodes t) /\
    exists x', sc_heap s' !! e = Some x' /\ se_tv x' = se_tv x.
Proof.
  intros Hdraw HA Ho Hc Hs1 Hs2 Hx Hcap Hfuel. unfold schedule_add_modify. rewrite Hx. cbn [mbind option_bind].
  assert (HR : (1 <= R)%nat) by (destruct (Hdraw O []) as (k & Hk & _); cbn; lia).
  assert (Hfuel' : (size t <= fuel)%nat) by (assert (cap <= R * cap)%nat by (destruct R; [lia|nia]); lia).
  assert (H : exists s1 T y, (if IN_TREE x then schedule_remove_node fuel s e else Some s) = Some s1 /\ treap s1 T /\
    moved e (nodes t) s s1 /\ (e ∉ nodes T) /\ (forall q, q <> e -> q ∈ nodes T <-> q ∈ nodes t) /\ (size T <= size t)%nat /\
    sc_heap s1 !! e = Some y /\ unlinked y /\ se_tv y = se_tv x).
  { pose proof (Hc e x Hx) as Hcx. unfold IN_TREE. destruct (decide (e ∈ nodes t)) as [He|He].
    - destruct (Z.eqb_spec (se_pri x) 0); [lia|]. cbn [negb].
      destruct (remove_node_spec s t e fuel HA Ho He Hfuel') as (s' & t' & l1 & l2 & Hr & HA' & Ho' & Hn & Hn' & Hm & y & Hy & Hy0 & Hyu & Hyt).
      destruct (removed_treap s t e s' t' l1 l2 y) as (Ht' & Hout & Hiff); try done; [by apply Hs1|].
      exists s', t', y. split; [done|]. do 4 (split; [done|]). split.
      { rewrite !size_nodes, Hn, Hn', !length_app. cbn. lia. }
      by rewrite Hyt, (key_of_lookup _ _ _ Hx).
    - destruct Hcx as [Hx0 Hxu]. rewrite Hx0. cbn [Z.eqb negb]. exists s, t, x. split; [done|]. split; [by split; auto|].
      split; [by split|]. by split_and!. }
  destruct H as (s1 & T & y & -> & Ht1 & Hm1 & HeT & HiffT & Hsize & Hy & Hyu & Hyt). cbn [mbind option_bind].
  destruct (place_spec R cap s1 T e y fuel) as (s2 & t2 & l1 & l2 & -> & HA2 & Ho2 & Hso2 & HT & Ht2 & Hm2 & x2 & Hx2 & Hp2 & Htv2);
    [done|apply Ht1|apply Ht1|apply Ht1|done|done|done|lia|done|].
  assert (Hin : e ∈ nodes t2) by (rewrite Ht2; mem).
  assert (Hiff2 : forall q, q <> e -> q ∈ nodes t2 <-> q ∈ nodes T) by (intros q Hq; rewrite Ht2, HT; set_solver).
  assert (Hsub : moved e (nodes t) s1 s2).
  { destruct Hm2 as [H1 H2 H3]. split; [done| |done]. intros q Hq. apply H2. intros Hq'. apply Hq.
    apply elem_of_cons in Hq' as [->|Hq']; [mem|]. apply elem_of_cons. right. apply HiffT; [|done]. intros ->. by apply HeT. }
  exists s2, t2. split; [done|]. split; [|split; [by eapply moved_trans|split; [done|split]]].
  - split; [done|done|done|]. apply (moved_cells e (nodes T) s1 s2 T t2); [done|apply Ht1|done|done|].
    intros z Hz. rewrite decide_True by done. rewrite Hx2 in Hz. injection Hz as <-. lia.
  - intros q Hq. by rewrite Hiff2, HiffT.
  - exists x2. split; [done|congruence].
Qed.

(** Links alone make the tree. *)
Definition link_of (x : schedule_entry) : option ptr * option ptr * option ptr := (se_parent x, se_lt x, se_gt x).

Lemma repr_links h h' t : (forall q, link_of <$> h' !! q = link_of <$> h !! q) ->
  forall par o, repr h par t o -> repr h' par t o.
Proof.
  intros Hf. induction t as [|l IHl p r IHr]; intros par o; cbn [repr]; [done|].
  intros (-> & x & Hx & Hp & Hl & Hr). split; [done|]. pose proof (Hf p) as Hq. rewrite Hx in Hq.
  destruct (h' !! p) as [x'|]; [|done]. exists x'. cbn in Hq. injection Hq as Hq1 Hq2 Hq3. rewrite Hq1, Hq2, Hq3.
  split_and!; [done|done|by apply IHl|by apply IHr].
Qed.

(** A change of the time of [e] keeps everything but the place of [e] in the order. *)
Lemma retimed s t e x tv : treap s t -> sc_heap s !! e = Some x ->
  let s0 := s <| sc_heap := <[e := x <| se_tv := tv |>]> (sc_heap s) |> in
  At s0 [] t /\ ordered (pri_of s0) 0 t /\ cells s0 t /\
  (forall l1 l2, nodes t = l1 ++ e :: l2 -> sorted s0 (l1 ++ l2)) /\ (e ∉ nodes t -> sorted s0 (nodes t)).
Proof.
  intros [(par & Hpc & HA & Hn) Ho Hs Hc] Hx s0.
  assert (Hother : forall q, q <> e -> sc_heap s0 !! q = sc_heap s !! q) by (intros q Hq; by apply lookup_insert_ne).
  assert (Hlink : forall q, link_of <$> sc_heap s0 !! q = link_of <$> sc_heap s !! q).
  { intros q. destruct (decide (q = e)) as [->|Hq]; [|by rewrite Hother]. unfold s0. cbn. by rewrite lookup_insert_eq, Hx. }
  assert (Hkey : forall q, q <> e -> key_of s0 q = key_of s q) by (intros q Hq; unfold key_of; by rewrite Hother).
  split; [exists par; split; [exact Hpc|split; [by eapply repr_links|done]]|]. split; [|split; [|split]].
  - eapply ordered_ext; [|exact Ho]. intros q _. destruct (decide (q = e)) as [->|Hq]; unfold pri_of; [|by rewrite Hother].
    unfold s0. cbn. by rewrite lookup_insert_eq, Hx.
  - intros q z Hz. destruct (decide (q = e)) as [->|Hq]; [|apply Hc; by rewrite <- Hother].
    unfold s0 in Hz. cbn in Hz. rewrite lookup_insert_eq in Hz. injection Hz as <-. exact (Hc e x Hx).
  - intros l1 l2 He. apply (sorted_ext s); [|apply (sorted_without _ _ e); by rewrite <- He].
    intros q Hq. apply Hkey. intros ->. cbn in Hn. rewrite app_nil_r, He in Hn. apply elem_of_app in Hq. distinct.
  - intros He. apply (sorted_ext s); [|done]. intros q Hq. apply Hkey. by intros ->.
Qed.

Lemma reschedule_spec R cap s t e x tv fuel : draws_fresh R cap -> treap s t -> sc_heap s !! e = Some x ->
  (size t <= cap)%nat -> (R * cap <= fuel)%nat ->
  exists s' t', (s ← store s e (fun x => x <| se_tv := tv |>); s ← schedule_add_modify random fuel s e;
                 Some (s <| earliest_wakeup := None |>)) = Some s' /\
    sched_inv s' t' /\ dom (sc_heap s') = dom (sc_heap s) /\ pending s' = <[e := tv]> (pending s).
Proof.
  intros Hdraw Ht Hx Hcap Hfuel. pose proof (store_eq _ _ (fun x => x <| se_tv := tv |>) _ Hx) as Hst.
  pose proof (store_moved _ _ _ _ (nodes t) Hst) as Hm0. rewrite Hst. cbn [mbind option_bind].
  destruct (retimed s t e x tv Ht Hx) as (HA0 & Ho0 & Hc0 & Hs1 & Hs2).
  destruct (add_modify_spec R cap _ t e (x <| se_tv := tv |>) fuel Hdraw HA0 Ho0 Hc0 Hs1 Hs2)
    as (s1 & t1 & -> & Ht1 & Hm1 & He1 & Hiff1 & x1 & Hx1 & Htv1); [apply lookup_insert_eq|done|done|].
  cbn [mbind option_bind]. pose proof (moved_trans _ _ _ _ _ Hm0 Hm1) as Hm. eexists _, t1. split; [done|]. split; [|split].
  - split; [|by left]. by destruct Ht1.
  - exact (moved_dom _ _ _ _ _ _ Hm Hx Hx1).
  - change (pending (s1 <| earliest_wakeup := None |>)) with (pending s1).
    replace tv with (se_tv x1) by (by rewrite Htv1). apply (pending_insert s s1 t t1); try done.
    intros q Hq. exact (moved_key _ _ _ _ _ Hm Hq).
Qed.

Lemma find_least_spec s t : forall c fuel, At s c t -> (size t <= fuel)%nat ->
  schedule_find_least fuel s (root_of t) = Some (head (nodes t)).
Proof.
  induction t as [|l IHl p r _]; intros c fuel HA Hf; [by destruct fuel|].
  destruct (At_lookup _ _ _ _ _ HA) as (x & Hx & Hl & _). apply (proj2 (At_left _ _ _ _ _)) in HA. cbn [size] in Hf.
  destruct fuel as [|fuel]; [lia|]. cbn [root_of schedule_find_least]. rewrite Hx. cbn [mbind option_bind]. rewrite Hl.
  destruct l as [|ll q lr]; [done|]. change (root_of (Node ll q lr)) with (Some q) in *. cbn iota.
  rewrite (IHl _ fuel HA) by lia. cbn [nodes]. by destruct (nodes ll).
Qed.

(** ** Runs *)

Inductive sched_op :=
  | OAdd (e : ptr) (tv : timeval) (sigma : Z)
  | ORemove (e : ptr)
  | OEarliest.
Definition op_ok (h : heap) (op : sched_op) : Prop :=
  match op with OAdd e _ _ | ORemove e => e ∈ dom h | OEarliest => True end.

(** The state after each operation and, for [OEarliest], the answer. *)
Fixpoint sched_run (fuel : nat) (s : schedule) (ops : list sched_op) : option (list (option (ptr * timeval)) * schedule) :=
  match ops with
  | [] => Some ([], s)
  | OAdd e tv sigma :: ops => s ← schedule_add_entry random fuel s e tv sigma; sched_run fuel s ops
  | ORemove e :: ops => s ← schedule_remove_entry fuel s e; sched_run fuel s ops
  | OEarliest :: ops =>
      '(o, s) ← schedule_get_earliest_wakeup fuel s; '(outs, s) ← sched_run fuel s ops; Some (o :: outs, s)
  end.

(** The specification: a finite map from entries to times.  An entry that is asked
    for again within [sigma] of its time keeps its time; the answer is an entry
    with the least time. *)
Definition spec_add (M : gmap ptr timeval) (e : ptr) (tv : timeval) (sigma : Z) : gmap ptr timeval :=
  if match M !! e with Some old => negb (sigma =? 0) && tv_within_sigma tv old sigma | None => false end
  then M else <[e := tv]> M.
Definition is_earliest (M : gmap ptr timeval) (o : option (ptr * timeval)) : Prop :=
  match o with
  | None => M = ∅
  | Some (e, tv) => M !! e = Some tv /\ forall q tv', M !! q = Some tv' -> tv_le tv tv' = true
  end.
Fixpoint meets (M : gmap ptr timeval) (ops : list sched_op) (outs : list (option (ptr * timeval))) (M' : gmap ptr timeval) : Prop :=
  match ops with
  | [] => outs = [] /\ M' = M
  | OAdd e tv sigma :: ops => meets (spec_add M e tv sigma) ops outs M'
  | ORemove e :: ops => meets (delete e M) ops outs M'
  | OEarliest :: ops => exists o outs', outs = o :: outs' /\ is_earliest M o /\ meets M ops outs' M'
  end.

Lemma add_entry_spec R cap s t e x tv sigma fuel : draws_fresh R cap -> sched_inv s t -> sc_heap s !! e = Some x ->
  (size t <= cap)%nat -> (R * cap <= fuel)%nat ->
  exists s' t', schedule_add_entry random fuel s e tv sigma = Some s' /\ sched_inv s' t' /\
    dom (sc_heap s') = dom (sc_heap s) /\ pending s' = spec_add (pending s) e tv sigma.
Proof.
  intros Hdraw [Ht Hcache] Hx Hcap Hfuel. unfold schedule_add_entry, spec_add. rewrite Hx. cbn [mbind option_bind].
  rewrite (pending_lookup _ _ _ Ht), (key_of_lookup _ _ _ Hx), (in_tree _ _ _ _ Ht Hx). cbn [fst entry_key].
  destruct (reschedule_spec R cap s t e x tv fuel Hdraw Ht Hx Hcap Hfuel) as (s' & t' & Hre & Hrest).
  destruct (decide (e ∈ nodes t)) as [He|He]; [rewrite bool_decide_true by done|rewrite bool_decide_false by done]; cbn [negb orb].
  - destruct (sigma =? 0), (tv_within_sigma tv (se_tv x) sigma); cbn [negb orb andb];
      [by exists s', t'|by exists s', t'|by exists s, t|by exists s', t'].
  - by exists s', t'.
Qed.

Lemma earliest_spec s t fuel : sched_inv s t -> (size t <= fuel)%nat ->
  exists o s', schedule_get_earliest_wakeup fuel s = Some (o, s') /\ sched_inv s' t /\
    dom (sc_heap s') = dom (sc_heap s) /\ pending s' = pending s /\ is_earliest (pending s) o.
Proof.
  intros [Ht Hcache] Hf. unfold schedule_get_earliest_wakeup.
  assert (Hroot : sc_root s = root_of t) by (destruct (tr_at _ _ Ht) as (? & [_ ?] & _); done).
  set (s' := s <| earliest_wakeup := head (nodes t) |>).
  assert (Hs' : (s ← match earliest_wakeup s with
    | None => c ← schedule_find_least fuel s (sc_root s); Some (s <| earliest_wakeup := c |>) | Some _ => Some s end; Some s) = Some s').
  { rewrite Hroot, (find_least_spec _ _ [] _ (tr_at _ _ Ht) Hf). unfold s'. destruct Hcache as [->|Hh]; [done|].
    rewrite <- Hh. destruct s as [h ew rt n]. cbn in *. by destruct ew. }
  destruct (match earliest_wakeup s with None => _ | Some _ => _ end) as [s1|]; cbn in Hs'; [|discriminate]. injection Hs' as ->.
  cbn [mbind option_bind]. assert (Hinv : sched_inv s' t) by (split; [by destruct Ht|by right]).
  change (earliest_wakeup s') with (head (nodes t)). change (sc_heap s') with (sc_heap s). destruct (nodes t) as [|p l] eqn:Hn; cbn [head].
  - exists None, s'. split_and!; [done|done|done|done|]. apply map_eq. intros q. rewrite (pending_lookup _ _ _ Ht), Hn, lookup_empty.
    apply decide_False. by intros H%elem_of_nil.
  - assert (Hp : p ∈ nodes t) by (rewrite Hn; mem). destruct (node_cell s t p (tr_at _ _ Ht) Hp) as [x Hx].
    rewrite Hx. cbn [mbind option_bind]. eexists _, s'. split_and!; [done|done|done|done|]. split.
    { by rewrite (pending_lookup _ _ _ Ht), decide_True, (key_of_lookup _ _ _ Hx). }
    intros q tv'. rewrite (pending_lookup _ _ _ Ht). destruct (decide (q ∈ nodes t)) as [Hq|]; [|discriminate]. intros [= <-].
    rewrite Hn in Hq. assert (Hkx : se_tv x = (key_of s p).1) by (by rewrite (key_of_lookup _ _ _ Hx)).
    rewrite Hkx. apply elem_of_cons in Hq as [->|Hq].
    + unfold tv_le. destruct (Z.ltb_spec (tv_sec (key_of s p).1) (tv_sec (key_of s p).1)); [lia|]. by rewrite Z.leb_refl.
    + pose proof (tr_sorted _ _ Ht) as Hs. rewrite Hn in Hs. apply sorted_cons in Hs as [_ Hs]. rewrite Forall_forall in Hs.
      specialize (Hs q Hq). unfold precedes, key_lt in Hs. unfold tv_le.
      repeat match goal with |- context [?a <? ?b] => destruct (Z.ltb_spec a b) end; lia.
Qed.

Lemma run_spec R cap fuel ops : draws_fresh R cap -> (cap <= fuel)%nat -> (R * cap <= fuel)%nat ->
  forall s t, sched_inv s t -> (base.size (sc_heap s) <= cap)%nat -> Forall (op_ok (sc_heap s)) ops ->
  exists outs s' t', sched_run fuel s ops = Some (outs, s') /\ sched_inv s' t' /\ meets (pending s) ops outs (pending s').
Proof.
  intros Hdraw Hc1 Hc2. induction ops as [|op ops IH]; intros s t Hinv Hsize Hok.
  { exists [], s, t. by split_and!. }
  apply Forall_cons in Hok as [Hop Hok]. pose proof (size_heap s t (tr_at _ _ (proj1 Hinv))) as Hst.
  assert (Hnext : forall s1 t1, sched_inv s1 t1 -> dom (sc_heap s1) = dom (sc_heap s) ->
    exists outs s' t', sched_run fuel s1 ops = Some (outs, s') /\ sched_inv s' t' /\ meets (pending s1) ops outs (pending s')).
  { intros s1 t1 Hinv1 Hd. apply (IH s1 t1 Hinv1); [by rewrite <- size_dom, Hd, size_dom|].
    eapply Forall_impl; [exact Hok|]. intros [e tv sigma|e|]; cbn; by rewrite ?Hd. }
  destruct op as [e tv sigma|e|]; cbn [sched_run meets].
  - cbn [op_ok] in Hop. apply elem_of_dom in Hop as [x Hx].
    destruct (add_entry_spec R cap s t e x tv sigma fuel) as (s1 & t1 & -> & Hinv1 & Hd1 & Hp1); [done|done|done|lia|done|].
    rewrite <- Hp1. by apply (Hnext s1 t1).
  - cbn [op_ok] in Hop. apply elem_of_dom in Hop as [x Hx].
    destruct (remove_spec s t e x fuel) as (s1 & t1 & -> & Hinv1 & Hd1 & Hp1); [done|done|lia|].
    rewrite <- Hp1. by apply (Hnext s1 t1).
  - destruct (earliest_spec s t fuel) as (o & s1 & -> & Hinv1 & Hd1 & Hp1 & He); [done|lia|]. cbn [mbind option_bind].
    destruct (Hnext s1 t Hinv1 Hd1) as (outs & s' & t' & -> & Hinv' & Hmeets). cbn [mbind option_bind].
    exists (o :: outs), s', t'. split; [done|]. split; [done|]. exists o, outs. by rewrite Hp1 in Hmeets.
Qed.

End Correctness.

(** ** Properties *)

(** The state of a server that has just started: nothing is scheduled. *)
Definition all_cleared (h : heap) : Prop := map_Forall (fun _ x => x = cleared_entry) h.

Lemma init_inv h n : all_cleared h -> sched_inv (schedule_init h n) Leaf /\ pending (schedule_init h n) = ∅.
Proof.
  intros Hh. assert (Hi : sched_inv (schedule_init h n) Leaf).
  { split; [|by left]. split; [|done|constructor|].
    - exists None. cbn. split_and!; [done|done|done|constructor].
    - intros p x Hx. cbn. by rewrite (Hh p x Hx). }
  split; [done|]. apply map_eq. intros q. by rewrite (pending_lookup _ _ _ (proj1 Hi)), lookup_empty.
Qed.

(** C19. Over any sequence of additions, removals and queries the scheduler answers
    like a finite map from entries to wake-up times: a query gives an entry with
    the least time, or none exactly when nothing is scheduled, whatever [random]
    answers as long as no [cap] priorities exhaust [R] draws in a row. *)
Theorem schedule_refines_map random R cap fuel h ops :
  draws_fresh random R cap -> all_cleared h -> (base.size h <= cap)%nat -> (cap <= fuel)%nat -> (R * cap <= fuel)%nat ->
  Forall (op_ok h) ops ->
  exists outs s, sched_run random fuel (schedule_init h 0) ops = Some (outs, s) /\ meets ∅ ops outs (pending s).
Proof.
  intros Hdraw Hh Hsize Hf1 Hf2 Hok. destruct (init_inv h 0 Hh) as [Hi Hp].
  destruct (run_spec random R cap fuel ops Hdraw Hf1 Hf2 _ _ Hi Hsize Hok) as (outs & s & t & Hrun & _ & Hm).
  exists outs, s. by rewrite Hp in Hm.
Qed.

(** C37. After any such run the links of the entries form a treap: every entry's
    parent and child links agree, the entries are in order of time (then
    priority), priorities grow away from the root, an entry outside the tree has
    no links and priority zero, and a cached answer is the first entry. *)
Theorem schedule_keeps_treap random R cap fuel h ops outs s :
  draws_fresh random R cap -> all_cleared h -> (base.size h <= cap)%nat -> (cap <= fuel)%nat -> (R * cap <= fuel)%nat ->
  Forall (op_ok h) ops -> sched_run random fuel (schedule_init h 0) ops = Some (outs, s) -> exists t, sched_inv s t.
Proof.
  intros Hdraw Hh Hsize Hf1 Hf2 Hok Hrun. destruct (init_inv h 0 Hh) as [Hi _].
  destruct (run_spec random R cap fuel ops Hdraw Hf1 Hf2 _ _ Hi Hsize Hok) as (outs' & s' & t & Hrun' & Hinv & _).
  rewrite Hrun in Hrun'. injection Hrun' as _ <-. by exists t.
Qed.

(** C38. On a treap of [n] entries every loop of the scheduler ends: removal and the
    search for the first entry within [n] turns, an insertion within [R * n] turns
    when one of any [R] draws avoids the priorities in use. *)
Theorem schedule_loops_end random R s t e tv sigma :
  draws_fresh random R (size t) -> sched_inv s t -> is_Some (sc_heap s !! e) ->
  is_Some (schedule_remove_entry (size t) s e) /\
  is_Some (schedule_get_earliest_wakeup (size t) s) /\
  is_Some (schedule_add_entry random (R * size t) s e tv sigma).
Proof.
  intros Hdraw Hinv [x Hx]. split; [|split].
  - destruct (remove_spec random s t e x (size t) Hinv Hx (Nat.le_refl _)) as (s' & t' & -> & _). by eexists.
  - destruct (earliest_spec s t (size t) Hinv (Nat.le_refl _)) as (o & s' & -> & _). by eexists.
  - destruct (add_entry_spec random R (size t) s t e x tv sigma (R * size t) Hdraw Hinv Hx) as (s' & t' & -> & _); [lia|lia|]. by eexists.
Qed.

(** A source of priorities that repeats every four draws. *)
Definition random_ex (n : nat) : Z := Z.of_nat (n mod 4) + 10.

Lemma random_ex_fresh : draws_fresh random_ex 4 3.
Proof.
  intros n l Hl. destruct (decide (Exists (fun k => new_pri random_ex (n + k) ∉ l) (seq 0 4))) as [H|H].
  { apply Exists_exists in H as (k & Hk & Hn). exists k. apply elem_of_seq in Hk. split; [lia|done]. }
  exfalso. assert (Hall : forall v, v ∈ [10; 11; 12; 13] -> v ∈ l).
  { assert (Hk : forall k, (k < 4)%nat -> new_pri random_ex (n + k) ∈ l).
    { intros k Hk. destruct (decide (new_pri random_ex (n + k) ∈ l)) as [|Hn]; [done|]. exfalso. apply H.
      apply Exists_exists. exists k. split; [apply elem_of_seq; lia|done]. }
    assert (Hv : forall j, (j < 4)%nat -> Z.of_nat j + 10 ∈ l).
    { intros j Hj. specialize (Hk ((j + 3 * n) mod 4)%nat (Nat.mod_upper_bound _ 4 ltac:(lia))).
      replace (new_pri random_ex (n + (j + 3 * n) mod 4)) with (Z.of_nat j + 10) in Hk; [done|].
      unfold new_pri, random_ex. rewrite Nat.Div0.add_mod_idemp_r.
      replace (n + (j + 3 * n))%nat with (j + n * 4)%nat by lia. rewrite Nat.Div0.mod_add, Nat.mod_small by lia.
      rewrite wrap_small by (unfold is_u; lia). destruct (Z.ltb_spec (Z.of_nat j + 10) 1); lia. }
    intros v Hv'. repeat (apply elem_of_cons in Hv' as [->|Hv']; [first [apply (Hv 0%nat)|apply (Hv 1%nat)|apply (Hv 2%nat)|apply (Hv 3%nat)]; lia|]).
    by apply elem_of_nil in Hv'. }
  assert (Hnd : NoDup [10; 11; 12; 13]) by (repeat constructor; set_solver).
  pose proof (NoDup_submseteq _ _ Hnd Hall) as Hsub. apply submseteq_length in Hsub. cbn in Hsub. lia.
Qed.

Definition heap_ex : heap := list_to_map [(1%positive, cleared_entry); (2%positive, cleared_entry); (3%positive, cleared_entry)].
Definition ops_ex : list sched_op :=
  [OEarliest; OAdd 1 (mktv 10 0) 0; OAdd 2 (mktv 7 5) 100; OAdd 3 (mktv 7 5) 0; OEarliest; OAdd 2 (mktv 7 60) 100;
   ORemove 3; OEarliest; OAdd 2 (mktv 12 0) 100; OEarliest; ORemove 1; ORemove 1; OEarliest].
Definition outs_ex : list (option (ptr * timeval)) :=
  [None; Some (2%positive, mktv 7 5); Some (2%positive, mktv 7 5); Some (1%positive, mktv 10 0); Some (2%positive, mktv 12 0)].

Lemma heap_ex_cleared : all_cleared heap_ex.
Proof. unfold all_cleared, heap_ex. cbn. repeat apply map_Forall_insert_2; done. Qed.
Lemma ops_ex_ok : Forall (op_ok heap_ex) ops_ex.
Proof. repeat constructor; cbn; apply elem_of_dom; eexists; reflexivity. Qed.

Lemma schedule_refines_map_witness :
  draws_fresh random_ex 4 3 /\ all_cleared heap_ex /\ Forall (op_ok heap_ex) ops_ex /\
  exists s, sched_run random_ex 12 (schedule_init heap_ex 0) ops_ex = Some (outs_ex, s) /\ meets ∅ ops_ex outs_ex (pending s).
Proof.
  split; [exact random_ex_fresh|]. split; [exact heap_ex_cleared|]. split; [exact ops_ex_ok|].
  destruct (schedule_refines_map random_ex 4 3 12 heap_ex ops_ex random_ex_fresh heap_ex_cleared) as (outs & s & Hrun & Hm);
    [vm_compute; lia|lia|lia|exact ops_ex_ok|].
  exists s. replace outs_ex with outs; [by split|].
  assert (Ho : fst <$> sched_run random_ex 12 (schedule_init heap_ex 0) ops_ex = Some outs_ex) by (vm_compute; reflexivity).
  rewrite Hrun in Ho. by injection Ho.
Defined.

Lemma schedule_keeps_treap_witness :
  draws_fresh random_ex 4 3 /\ all_cleared heap_ex /\ Forall (op_ok heap_ex) ops_ex /\
  exists outs s t, sched_run random_ex 12 (schedule_init heap_ex 0) ops_ex = Some (outs, s) /\ sched_inv s t.
Proof.
  split; [exact random_ex_fresh|]. split; [exact heap_ex_cleared|]. split; [exact ops_ex_ok|].
  destruct (sched_run random_ex 12 (schedule_init heap_ex 0) ops_ex) as [[outs s]|] eqn:Hrun; [|vm_compute in Hrun; discriminate].
  destruct (schedule_keeps_treap random_ex 4 3 12 heap_ex ops_ex outs s random_ex_fresh heap_ex_cleared) as [t Ht];
    [vm_compute; lia|lia|lia|exact ops_ex_ok|exact Hrun|].
  exists outs, s, t. split; [reflexivity|exact Ht].
Defined.

(** Two entries, the first above the second. *)
Definition pair_ex : schedule := mksch
  (list_to_map [(1%positive, mkse (mktv 5 0) 10 None None (Some 2%positive));
                (2%positive, mkse (mktv 9 0) 11 (Some 1%positive) None None)]) None (Some 1%positive) 2.
Definition pair_tree : tree := Node Leaf 1 (Node Leaf 2 Leaf).

Lemma pair_ex_inv : sched_inv pair_ex pair_tree.
Proof.
  split; [|by left]. split.
  - exists None. split; [done|]. split; [cbn; split; [done|]; eexists; split; [reflexivity|]; cbn; do 3 (split; [done|]);
      eexists; split; [reflexivity|]; done|]. cbn. apply NoDup_cons. split; [set_solver|apply NoDup_singleton].
  - vm_compute. intuition discriminate.
  - cbn. constructor; [constructor; constructor|]. apply Forall_singleton. left. reflexivity.
  - intros p x Hx. unfold pair_ex in Hx. cbn in Hx. apply lookup_insert_Some in Hx as [[<- <-]|[_ Hx]]; [by cbn|].
    apply lookup_insert_Some in Hx as [[<- <-]|[_ Hx]]; [by cbn|]. by rewrite lookup_empty in Hx.
Qed.

Lemma schedule_loops_end_witness : draws_fresh random_ex 4 (size pair_tree) /\ sched_inv pair_ex pair_tree /\
  is_Some (sc_heap pair_ex !! 1%positive) /\ is_Some (schedule_remove_entry 2 pair_ex 1%positive) /\
  is_Some (schedule_add_entry random_ex 8 pair_ex 1 (mktv 20 0) 0).
Proof.
  assert (Hd : draws_fresh random_ex 4 (size pair_tree)) by (intros n l Hl; apply random_ex_fresh; cbn in Hl; lia).
  split; [exact Hd|]. split; [exact pair_ex_inv|]. assert (H1 : is_Some (sc_heap pair_ex !! 1%positive)) by by eexists.
  split; [exact H1|].
  destruct (schedule_loops_end random_ex 4 pair_ex pair_tree 1%positive (mktv 20 0) 0 Hd pair_ex_inv H1) as (Hr & _ & Ha).
  change (size pair_tree) with 2%nat in Hr, Ha. change (4 * 2)%nat with 8%nat in Ha. split; [exact Hr|exact Ha].
Defined.

(** ** Waking clients up *)

Lemma sigma_fifth d : tv_norm d -> 0 <= tv_sec d -> 0 <= compute_wakeup_sigma d /\ 5 * compute_wakeup_sigma d <= usecs d /\
  compute_wakeup_sigma d <= 120000000.
Proof.
  unfold tv_norm, usecs, compute_wakeup_sigma. intros H1 H2.
  rewrite Z.shiftr_div_pow2, Z.shiftl_mul_pow2 by lia.
  destruct (Z.ltb_spec (tv_sec d) 1), (Z.ltb_spec (tv_sec d) 600); try lia; change (2 ^ 3) with 8; change (2 ^ 17) with 131072; zdiv.
Qed.

(** Scheduling a client's timeout [d] leaves it with a wake-up time that differs
    from the requested time by at most the sigma the caller allows, a fifth of
    [d] at most, and touches nobody else. *)
Theorem wakeup_within_sigma random R cap fuel c s t mi x tv d :
  draws_fresh random R cap -> sched_inv s t -> sc_heap s !! mi = Some x -> (size t <= cap)%nat -> (R * cap <= fuel)%nat ->
  let wakeup := tv_add (mktv (now (update_now_usec c tv)) (now_usec (update_now_usec c tv))) d in
  tv_norm wakeup -> tv_norm d -> 0 <= tv_sec d ->
  (forall old, pending s !! mi = Some old -> tv_norm old /\ - 2 ^ 31 <= tv_sec wakeup - tv_sec old < 2 ^ 31) ->
  exists s' t' w, multi_schedule_context_wakeup random fuel c s mi (Some tv) d = Some (wakeup, update_now_usec c tv, s') /\
    sched_inv s' t' /\ pending s' = <[mi := w]> (pending s) /\
    Z.abs (usecs wakeup - usecs w) <= compute_wakeup_sigma d /\ 5 * compute_wakeup_sigma d <= usecs d.
Proof.
  intros Hdraw Hinv Hx Hcap Hfuel wakeup Hw Hd Hs Hold. destruct (sigma_fifth d Hd Hs) as (Hs0 & Hs5 & Hs6).
  unfold multi_schedule_context_wakeup. cbn [openvpn_gettimeofday mbind option_bind]. fold wakeup.
  destruct (add_entry_spec random R cap s t mi x wakeup (compute_wakeup_sigma d) fuel Hdraw Hinv Hx Hcap Hfuel)
    as (s' & t' & -> & Hinv' & _ & Hp). cbn [mbind option_bind]. unfold spec_add in Hp.
  destruct (pending s !! mi) as [old|] eqn:Ho; [|exists s', t', wakeup; rewrite Z.sub_diag; by split_and!].
  destruct (negb (compute_wakeup_sigma d =? 0)) eqn:Hz; cbn [andb] in Hp; [|exists s', t', wakeup; rewrite Z.sub_diag; by split_and!].
  destruct (tv_within_sigma wakeup old (compute_wakeup_sigma d)) eqn:Hin; [|exists s', t', wakeup; rewrite Z.sub_diag; by split_and!].
  exists s', t', old. split; [done|]. split; [done|]. split; [by rewrite Hp, insert_id|]. split; [|done].
  destruct (Hold old eq_refl) as [Hno Hdiff]. unfold tv_within_sigma in Hin.
  rewrite tv_subtract_spec in Hin by (done || (cbv; split; discriminate)).
  unfold TV_WITHIN_SIGMA_MAX_SEC in Hin. rewrite i32_small in Hin by lia. lia.
Qed.

Lemma wakeup_within_sigma_witness :
  let c := mkclock 2 0 0 in let d := mktv 6 0 in
  sched_inv pair_ex pair_tree /\
  exists s' t' w, multi_schedule_context_wakeup random_ex 8 c pair_ex 2%positive (Some (mktv 3 500)) d
      = Some (mktv 9 500, mkclock 3 0 500, s') /\ sched_inv s' t' /\ pending s' = <[2%positive := w]> (pending pair_ex) /\
    Z.abs (usecs (mktv 9 500) - usecs w) <= 786432.
Proof.
  intros c d. split; [exact pair_ex_inv|].
  assert (Hd : draws_fresh random_ex 4 2) by (intros n l Hl; apply random_ex_fresh; lia).
  destruct (wakeup_within_sigma random_ex 4 2 8 c pair_ex pair_tree 2%positive (mkse (mktv 9 0) 11 (Some 1%positive) None None)
    (mktv 3 500) d Hd pair_ex_inv) as (s' & t' & w & Hrun & Hinv & Hp & Habs & _).
  - reflexivity.
  - cbn. lia.
  - lia.
  - vm_compute. split; [discriminate|reflexivity].
  - vm_compute. split; [discriminate|reflexivity].
  - vm_compute. discriminate.
  - intros old Ho. vm_compute in Ho. injection Ho as <-. split; vm_compute; split; [discriminate|reflexivity|discriminate|reflexivity].
  - exists s', t', w. split; [exact Hrun|]. split; [exact Hinv|]. split; [exact Hp|exact Habs].
Defined.

Lemma tv_delta_spec t1 t2 : tv_norm t1 -> tv_norm t2 -> - 2 ^ 31 < tv_sec t2 - tv_sec t1 < 2 ^ 31 ->
  exists d, tv_delta t1 t2 = Some d /\ tv_norm d /\ usecs d = Z.max 0 (usecs t2 - usecs t1).
Proof.
  unfold tv_norm, usecs. intros H1 H2 Hd. unfold tv_delta. rewrite !i32_small by lia.
  assert (Hloop : tv_delta_loop (S (Z.to_nat (- (tv_usec t2 - tv_usec t1) / 1000000))) (tv_sec t2 - tv_sec t1) (tv_usec t2 - tv_usec t1)
    = Some (if tv_usec t2 - tv_usec t1 <? 0 then (tv_sec t2 - tv_sec t1 - 1, tv_usec t2 - tv_usec t1 + 1000000)
            else (tv_sec t2 - tv_sec t1, tv_usec t2 - tv_usec t1))).
  { cbn [tv_delta_loop]. destruct (Z.ltb_spec (tv_usec t2 - tv_usec t1) 0) as [Hn|]; [|done].
    destruct (Z.to_nat _); cbn [tv_delta_loop]; destruct (Z.ltb_spec (tv_usec t2 - tv_usec t1 + 1000000) 0); try lia; done. }
  rewrite Hloop. cbn [mbind option_bind].
  destruct (Z.ltb_spec (tv_usec t2 - tv_usec t1) 0);
    [destruct (Z.ltb_spec (tv_sec t2 - tv_sec t1 - 1) 0)|destruct (Z.ltb_spec (tv_sec t2 - tv_sec t1) 0)];
    (eexists; split; [reflexivity|]; cbn; lia).
Qed.

(** The server sleeps exactly until the earliest wake-up, not at all when it
    has passed, and never longer than the ten seconds between two reaper passes;
    only in the first case an instance is due after the sleep. *)
Theorem sleep_until_earliest s t fuel c tv :
  sched_inv s t -> (size t <= fuel)%nat ->
  let current := mktv (now (update_now_usec c tv)) (now_usec (update_now_usec c tv)) in
  tv_norm current ->
  (forall q w, pending s !! q = Some w -> tv_norm w /\ - 2 ^ 31 < tv_sec w - tv_sec current < 2 ^ 31) ->
  exists dest m c' s', multi_get_timeout fuel c s (Some tv) = Some (dest, m, c', s') /\ sched_inv s' t /\
    tv_norm dest /\ usecs dest <= REAP_MAX_WAKEUP * 1000000 /\
    (forall q w, pending s !! q = Some w -> usecs dest <= Z.max 0 (usecs w - usecs current)) /\
    match m with
    | Some p => exists w, pending s !! p = Some w /\ usecs dest = Z.max 0 (usecs w - usecs current)
    | None => usecs dest = REAP_MAX_WAKEUP * 1000000
    end.
Proof.
  intros Hinv Hf current Hc Hp. unfold multi_get_timeout.
  destruct (earliest_spec s t fuel Hinv Hf) as (o & s' & -> & Hinv' & _ & _ & Ho). cbn [mbind option_bind].
  destruct o as [[p w]|].
  2: { exists (mktv REAP_MAX_WAKEUP 0), None, c, s'. cbn in Ho. split; [done|]. split; [done|].
       split; [unfold tv_norm; cbn; lia|]. split; [done|]. split; [|done]. intros q w Hq. by rewrite Ho, lookup_empty in Hq. }
  destruct Ho as [Hpw Hmin]. destruct (Hp p w Hpw) as [Hw Hdiff]. cbn [openvpn_gettimeofday mbind option_bind]. fold current. clearbody current.
  destruct (tv_delta_spec current w Hc Hw Hdiff) as (d & -> & Hnd & Hd). cbn [mbind option_bind].
  assert (Hle : forall q w', pending s !! q = Some w' -> Z.max 0 (usecs w - usecs current) <= Z.max 0 (usecs w' - usecs current)).
  { intros q w' Hq. destruct (Hp q w' Hq) as [Hw' _]. specialize (Hmin q w' Hq).
    destruct (tv_compare_spec w w' Hw Hw') as (_ & Hle & _). rewrite Hle in Hmin. lia. }
  destruct (Z.leb_spec REAP_MAX_WAKEUP (tv_sec d)) as [Hbig|Hsmall]; unfold REAP_MAX_WAKEUP, usecs, tv_norm in *.
  - eexists _, None, _, s'. split; [done|]. split; [done|]. cbn. split; [lia|]. split; [lia|]. split; [|done].
    intros q w' Hq. specialize (Hle q w' Hq). lia.
  - exists d, (Some p), (update_now_usec c tv), s'. split; [done|]. split; [done|]. split; [lia|]. split; [lia|]. split.
    + intros q w' Hq. specialize (Hle q w' Hq). lia.
    + exists w. split; [done|]. lia.
Qed.

Lemma sleep_until_earliest_witness : sched_inv pair_ex pair_tree /\
  exists s', multi_get_timeout 2 (mkclock 2 0 0) pair_ex (Some (mktv 3 500)) = Some (mktv 1 999500, Some 1%positive, mkclock 3 0 500, s') /\
    sched_inv s' pair_tree.
Proof.
  split; [exact pair_ex_inv|].
  destruct (sleep_until_earliest pair_ex pair_tree 2 (mkclock 2 0 0) (mktv 3 500) pair_ex_inv) as (dest & m & c' & s' & Hrun & Hinv & _).
  - cbn. lia.
  - vm_compute. split; [discriminate|reflexivity].
  - intros q w Hq. assert (Hw : w = mktv 5 0 \/ w = mktv 9 0).
    { assert (Hpe : pending pair_ex = <[1%positive := mktv 5 0]> (<[2%positive := mktv 9 0]> ∅)) by (vm_compute; reflexivity).
      rewrite Hpe in Hq. apply lookup_insert_Some in Hq as [[_ <-]|[_ Hq]]; [by left|].
      apply lookup_insert_Some in Hq as [[_ <-]|[_ Hq]]; [by right|]. by rewrite lookup_empty in Hq. }
    destruct Hw as [-> | ->]; vm_compute; intuition discriminate.
  - exists s'. split; [|exact Hinv].
    assert (Ho : (fun r => r.1) <$> multi_get_timeout 2 (mkclock 2 0 0) pair_ex (Some (mktv 3 500)) = Some (mktv 1 999500, Some 1%positive, mkclock 3 0 500))
      by (vm_compute; reflexivity).
    rewrite Hrun in Ho |- *. injection Ho as -> -> ->. reflexivity.
Defined.
