(* ===== verification/Mtu.v ===== *)
(** Packet sizes: [src/openvpn/mtu.h] and [mtu.c].  [struct frame], the sizes
    derived from it, the head room of a work buffer and its allocation.  Sizes are
    C [int]s far from their limits; a fatal message and a failed assertion are
    [None]. *)
From S2P Require Import Prelude Integer Buffer.

Definition TUN_MTU_MIN : Z := 100.
Definition PAYLOAD_ALIGN : Z := 4.

Record frame := mkframe {
  link_mtu : Z; link_mtu_dynamic : Z; extra_frame : Z; extra_buffer : Z; extra_tun : Z; extra_link : Z;
  align_flags : Z; align_adjust : Z }.
#[export] Instance eta_frame : EtaOf frame := fun r =>
  mkframe (link_mtu r) (link_mtu_dynamic r) (extra_frame r) (extra_buffer r) (extra_tun r) (extra_link r)
    (align_flags r) (align_adjust r).

Definition FRAME_HEADROOM_MARKER_DECRYPT : Z := Z.shiftl 1 0.
Definition FRAME_HEADROOM_MARKER_FRAGMENT : Z := Z.shiftl 1 1.
Definition FRAME_HEADROOM_MARKER_READ_LINK : Z := Z.shiftl 1 2.
Definition FRAME_HEADROOM_MARKER_READ_STREAM : Z := Z.shiftl 1 3.

Definition EXTRA_FRAME (f : frame) : Z := extra_frame f.
Definition TUN_LINK_DELTA (f : frame) : Z := extra_frame f + extra_tun f.
Definition TUN_MTU_SIZE (f : frame) : Z := link_mtu f - TUN_LINK_DELTA f.
Definition TUN_MTU_SIZE_DYNAMIC (f : frame) : Z := link_mtu_dynamic f - TUN_LINK_DELTA f.
Definition PAYLOAD_SIZE (f : frame) : Z := link_mtu f - extra_frame f.
Definition PAYLOAD_SIZE_DYNAMIC (f : frame) : Z := link_mtu_dynamic f - extra_frame f.
Definition EXPANDED_SIZE (f : frame) : Z := link_mtu f.
Definition EXPANDED_SIZE_DYNAMIC (f : frame) : Z := link_mtu_dynamic f.
Definition EXPANDED_SIZE_MIN (f : frame) : Z := TUN_MTU_MIN + TUN_LINK_DELTA f.
Definition MAX_RW_SIZE_TUN (f : frame) : Z := PAYLOAD_SIZE f.
Definition MAX_RW_SIZE_LINK (f : frame) : Z := EXPANDED_SIZE f + extra_link f.
Definition FRAME_HEADROOM_BASE (f : frame) : Z := TUN_LINK_DELTA f + extra_buffer f + extra_link f.

Definition frame_headroom (f : frame) (flag_mask : Z) : Z :=
  let offset := FRAME_HEADROOM_BASE f in
  let adjust := if negb (Z.land flag_mask (align_flags f) =? 0) then align_adjust f else 0 in
  let delta := Z.land (Z.shiftl PAYLOAD_ALIGN 24 - (offset + adjust)) (PAYLOAD_ALIGN - 1) in
  offset + delta.
Definition FRAME_HEADROOM (f : frame) : Z := frame_headroom f 0.
Definition FRAME_HEADROOM_ADJ (f : frame) (fm : Z) : Z := frame_headroom f fm.
Definition BUF_SIZE (f : frame) : Z := TUN_MTU_SIZE f + FRAME_HEADROOM_BASE f * 2.

Definition frame_add_to_link_mtu (f : frame) (increment : Z) : frame := f <| link_mtu := link_mtu f + increment |>.
(** The increment is [unsigned]: the sum is computed modulo 2^32. *)
Definition frame_add_to_extra_frame (f : frame) (increment : Z) : frame :=
  f <| extra_frame := i32 (extra_frame f + u32 increment) |>.
Definition frame_remove_from_extra_frame (f : frame) (decrement : Z) : frame :=
  f <| extra_frame := i32 (extra_frame f - u32 decrement) |>.
Definition frame_add_to_extra_tun (f : frame) (increment : Z) : frame := f <| extra_tun := extra_tun f + increment |>.
Definition frame_add_to_extra_link (f : frame) (increment : Z) : frame := f <| extra_link := extra_link f + increment |>.
Definition frame_add_to_extra_buffer (f : frame) (increment : Z) : frame := f <| extra_buffer := extra_buffer f + increment |>.
Definition frame_add_to_align_adjust (f : frame) (increment : Z) : frame := f <| align_adjust := align_adjust f + increment |>.
Definition frame_align_to_extra_frame (f : frame) : frame := f <| align_adjust := extra_frame f + extra_link f |>.
Definition frame_or_align_flags (f : frame) (flag_mask : Z) : frame := f <| align_flags := Z.lor (align_flags f) flag_mask |>.
Definition frame_defined (f : frame) : bool := 0 <? link_mtu f.

Definition frame_finalize (f : frame) (link_mtu_defined : bool) (link_mtu_ : Z) (tun_mtu_defined : bool) (tun_mtu : Z)
  : option frame :=
  f ← (if tun_mtu_defined
       then if link_mtu_defined then None else Some (f <| link_mtu := tun_mtu + TUN_LINK_DELTA f |>)
       else if link_mtu_defined then Some (f <| link_mtu := link_mtu_ |>) else None);
  if TUN_MTU_SIZE f <? TUN_MTU_MIN then None else Some (f <| link_mtu_dynamic := link_mtu f |>).

Definition SET_MTU_TUN : Z := Z.shiftl 1 0.
Definition SET_MTU_UPPER_BOUND : Z := Z.shiftl 1 1.
Definition frame_set_mtu_dynamic (f : frame) (mtu flags : Z) : option frame :=
  if mtu <? 0 then None
  else
    let mtu := if negb (Z.land flags SET_MTU_TUN =? 0) then mtu + TUN_LINK_DELTA f else mtu in
    Some (if (Z.land flags SET_MTU_UPPER_BOUND =? 0) || (mtu <? link_mtu_dynamic f)
          then f <| link_mtu_dynamic := constrain_int mtu (EXPANDED_SIZE_MIN f) (EXPANDED_SIZE f) |> else f).

Definition frame_subtract_extra (f src : frame) : frame :=
  let f := f <| extra_frame := extra_frame f - extra_frame src |> in
  f <| extra_tun := extra_tun f + extra_frame src |>.

(** [options->ce.mssfix] is an argument. *)
Definition frame_init_mssfix (f : frame) (mssfix : Z) : option frame :=
  if negb (mssfix =? 0) then frame_set_mtu_dynamic f mssfix SET_MTU_UPPER_BOUND else Some f.

Definition alloc_buf_sock_tun (f : frame) (tuntap_buffer : bool) (align_mask : Z) : option buffer :=
  buf ← alloc_buf (BUF_SIZE f);
  let '(ok, buf) := buf_init_dowork buf (FRAME_HEADROOM_ADJ f align_mask) in
  if negb ok then None
  else
    let buf := buf <| b_len := if tuntap_buffer then MAX_RW_SIZE_TUN f else MAX_RW_SIZE_LINK f |> in
    if buf_safe buf 0 then Some buf else None.

(** ** Properties *)

(** Sizes the configuration of a tunnel leads to. *)
Record frame_ok (f : frame) : Prop := mkfok {
  fo_frame : 0 <= extra_frame f; fo_tun : 0 <= extra_tun f; fo_buffer : 0 <= extra_buffer f; fo_link : 0 <= extra_link f;
  fo_adjust : 0 <= align_adjust f < 2 ^ 20; fo_mtu : TUN_MTU_MIN <= TUN_MTU_SIZE f;
  fo_dynamic : EXPANDED_SIZE_MIN f <= link_mtu_dynamic f <= link_mtu f; fo_size : BUF_SIZE f < 2 ^ 20 }.

Lemma headroom_spec f m : frame_ok f ->
  FRAME_HEADROOM_BASE f <= frame_headroom f m < FRAME_HEADROOM_BASE f + PAYLOAD_ALIGN /\
  (frame_headroom f m + (if negb (Z.land m (align_flags f) =? 0) then align_adjust f else 0)) mod PAYLOAD_ALIGN = 0.
Proof.
  intros [H1 H2 H3 H4 H5 H6 H7 H8]. unfold frame_headroom. cbn zeta. set (adj := if negb _ then _ else _).
  change (PAYLOAD_ALIGN - 1) with (Z.ones 2). rewrite Z.land_ones by lia. change (Z.shiftl PAYLOAD_ALIGN 24) with (4 * 2 ^ 24).
  unfold PAYLOAD_ALIGN. split; zdiv.
Qed.

Lemma headroom_plain f : frame_ok f -> FRAME_HEADROOM f mod PAYLOAD_ALIGN = 0.
Proof. intros H. destruct (headroom_spec f 0 H) as [_ Hm]. rewrite Z.land_0_l in Hm. by rewrite Z.add_0_r in Hm. Qed.

(** C40. A work buffer is allocated without failing an assertion exactly when the
    alignment padding fits what is reserved behind the packet: [extra_buffer] for a
    buffer of link packets, [extra_frame] and [extra_link] on top of it for one of the
    tunnel device.  Then the payload is aligned, everything the processing steps may
    prepend fits before it, and behind it fits a packet of the largest size. *)
Theorem work_buffer_fits f align_mask : frame_ok f ->
  let pad := FRAME_HEADROOM_ADJ f align_mask - FRAME_HEADROOM_BASE f in
  let adjust := if negb (Z.land align_mask (align_flags f) =? 0) then align_adjust f else 0 in
  (forall tuntap, is_Some (alloc_buf_sock_tun f tuntap align_mask) <-> pad <= extra_buffer f + if tuntap then extra_frame f + extra_link f else 0) /\
  forall tuntap buf, alloc_buf_sock_tun f tuntap align_mask = Some buf ->
    buf_live buf /\ (b_offset buf + adjust) mod PAYLOAD_ALIGN = 0 /\
    FRAME_HEADROOM_BASE f <= b_offset buf < FRAME_HEADROOM_BASE f + PAYLOAD_ALIGN /\
    b_len buf = (if tuntap then PAYLOAD_SIZE f else EXPANDED_SIZE f + extra_link f) /\
    b_offset buf + b_len buf <= b_capacity buf.
Proof.
  intros Hf pad adjust. destruct (headroom_spec f align_mask Hf) as [Hh Halign]. fold adjust in Halign.
  unfold PAYLOAD_ALIGN, FRAME_HEADROOM_ADJ in *. assert (Hf' := Hf). destruct Hf' as [H1 H2 H3 H4 H5 H6 H7 H8].
  unfold TUN_MTU_MIN, BUF_SIZE, TUN_MTU_SIZE, EXPANDED_SIZE_MIN in *. unfold alloc_buf_sock_tun, alloc_buf.
  unfold BUF_SIZE, TUN_MTU_SIZE. set (size := link_mtu f - TUN_LINK_DELTA f + FRAME_HEADROOM_BASE f * 2) in *.
  assert (Hbase : 0 <= FRAME_HEADROOM_BASE f) by (unfold FRAME_HEADROOM_BASE, TUN_LINK_DELTA; lia).
  assert (Hsize : frame_headroom f align_mask <= size) by (unfold size, FRAME_HEADROOM_BASE in *; lia).
  rewrite buf_size_valid_spec by lia. destruct (Z.leb_spec 0 size), (Z.ltb_spec size (2 ^ 21)); try lia. cbn [andb mbind option_bind].
  unfold buf_init_dowork. cbn [b_capacity b_data buf_defined]. unfold FRAME_HEADROOM_ADJ.
  destruct (Z.ltb_spec (frame_headroom f align_mask) 0), (Z.ltb_spec size (frame_headroom f align_mask)); try lia.
  cbn [orb negb]. unfold buf_safe, buf_valid. cbn [b_offset b_len b_capacity b_data buf_defined upd andb].
  rewrite buf_size_valid_spec by lia. cbn [Z.leb Z.ltb Z.compare andb].
  split.
  - intros tuntap. unfold MAX_RW_SIZE_LINK, MAX_RW_SIZE_TUN, PAYLOAD_SIZE, EXPANDED_SIZE, pad. set (rw := if tuntap then _ else _).
    assert (0 <= rw) by (subst rw; unfold TUN_LINK_DELTA in *; destruct tuntap; lia).
    destruct (Z.leb_spec 0 rw); [|lia]. change (0 <? 2 ^ 21) with true. cbn [andb]. subst rw.
    unfold size, FRAME_HEADROOM_BASE, FRAME_HEADROOM_ADJ, TUN_LINK_DELTA in *. destruct tuntap.
    all: match goal with |- context [?a <=? ?b] => destruct (Z.leb_spec a b) end; split; try (intros []; congruence); try lia; by eexists.
  - intros tuntap buf Hrun.
    destruct (_ && _) eqn:Hsafe in Hrun; [|discriminate]. injection Hrun as <-.
    apply andb_prop in Hsafe as [Hsafe Hfit]. apply andb_prop in Hsafe as [Hlen _]. apply Z.leb_le in Hlen, Hfit.
    unfold MAX_RW_SIZE_TUN, MAX_RW_SIZE_LINK in *. cbn. split; [|split_and!; [done|lia|lia|by destruct tuntap|lia]].
    apply (buf_live_intro _ (replicate (Z.to_nat size) 0)); cbn.
    + done.
    + unfold zlen. rewrite length_replicate. lia.
    + apply Forall_replicate. unfold is_byte. lia.
    + unfold BUF_SIZE_MAX. rewrite Z.shiftl_mul_pow2 by lia. lia.
    + lia.
    + by destruct tuntap.
    + lia.
Qed.

Definition frame_ex : frame := mkframe 1541 1541 41 4 0 3 6 44.
Lemma work_buffer_fits_witness : frame_ok frame_ex /\ is_Some (alloc_buf_sock_tun frame_ex false FRAME_HEADROOM_MARKER_READ_LINK).
Proof.
  assert (Hf : frame_ok frame_ex) by (split; vm_compute; intuition discriminate).
  split; [exact Hf|]. apply (proj1 (work_buffer_fits frame_ex FRAME_HEADROOM_MARKER_READ_LINK Hf)). vm_compute. discriminate.
Defined.

(** Configuring and adapting the sizes keeps them consistent: [frame_finalize]
    accepts exactly one of the two options and a tunnel MTU of at least 100, and
    [frame_set_mtu_dynamic] keeps the dynamic MTU between the smallest and the
    configured one, lowering it to the request when that lies between. *)
Theorem dynamic_mtu_bounded f lm tm mtu flags : 0 <= TUN_LINK_DELTA f -> 0 <= mtu ->
  (forall g, frame_finalize f (negb tm) lm tm lm = Some g ->
    TUN_MTU_SIZE g = (if tm then lm else lm - TUN_LINK_DELTA f) /\ link_mtu_dynamic g = link_mtu g /\ TUN_MTU_MIN <= TUN_MTU_SIZE g /\
    exists h, frame_set_mtu_dynamic g mtu flags = Some h /\ link_mtu h = link_mtu g /\
      EXPANDED_SIZE_MIN g <= link_mtu_dynamic h <= EXPANDED_SIZE g /\
      (let want := if Z.land flags SET_MTU_TUN =? 0 then mtu else mtu + TUN_LINK_DELTA g in
       EXPANDED_SIZE_MIN g <= want <= EXPANDED_SIZE g -> link_mtu_dynamic h = want)) /\
  frame_finalize f true lm true lm = None /\ frame_finalize f false lm false lm = None.
Proof.
  intros Hd Hm. split; [|by split]. intros g Hg. unfold frame_finalize in Hg. destruct f as [a b ef eb et el af aa].
  assert (E : exists v, v = (if tm then lm + (ef + et) else lm) /\ TUN_MTU_MIN <= v - (ef + et) /\ g = mkframe v v ef eb et el af aa).
  { exists (if tm then lm + (ef + et) else lm). split; [done|]. unfold TUN_MTU_SIZE, TUN_LINK_DELTA in Hg.
    destruct tm; cbn in Hg; match type of Hg with context [?x <? ?y] => destruct (Z.ltb_spec x y) end;
      try discriminate; injection Hg as <-; by split. }
  destruct E as (v & Hv & Hmin & ->). unfold TUN_MTU_SIZE, EXPANDED_SIZE_MIN, EXPANDED_SIZE, frame_set_mtu_dynamic, TUN_LINK_DELTA in *.
  unfold EXPANDED_SIZE_MIN, EXPANDED_SIZE, TUN_LINK_DELTA. cbn [link_mtu link_mtu_dynamic extra_frame extra_tun] in *.
  destruct (Z.ltb_spec mtu 0); [lia|]. split; [destruct tm; lia|]. split; [done|]. split; [lia|].
  eexists. split; [reflexivity|].
  assert (Hw : (if negb (Z.land flags SET_MTU_TUN =? 0) then mtu + (ef + et) else mtu)
    = (if Z.land flags SET_MTU_TUN =? 0 then mtu else mtu + (ef + et))) by (by destruct (Z.land flags SET_MTU_TUN =? 0)).
  rewrite Hw. set (want := if Z.land flags SET_MTU_TUN =? 0 then _ else _).
  destruct (constrain_int_range want (TUN_MTU_MIN + (ef + et)) v) as [Hr Hid]; [lia|].
  destruct (Z.land flags SET_MTU_UPPER_BOUND =? 0); cbn [orb]; [by cbn|].
  destruct (Z.ltb_spec want v); cbn; [done|]. split; [done|]. split; [lia|]. intros Hb. lia.
Qed.

Lemma dynamic_mtu_bounded_witness : 0 <= TUN_LINK_DELTA (mkframe 0 0 41 4 0 3 6 44) /\ 0 <= 1400 /\
  exists g h, frame_finalize (mkframe 0 0 41 4 0 3 6 44) false 1500 true 1500 = Some g /\
    frame_set_mtu_dynamic g 1400 SET_MTU_UPPER_BOUND = Some h /\ link_mtu_dynamic h = 1400.
Proof.
  assert (Hd : 0 <= TUN_LINK_DELTA (mkframe 0 0 41 4 0 3 6 44)) by (vm_compute; discriminate). split; [exact Hd|]. split; [lia|].
  destruct (dynamic_mtu_bounded (mkframe 0 0 41 4 0 3 6 44) 1500 true 1400 SET_MTU_UPPER_BOUND Hd ltac:(lia)) as [H _].
  destruct (H _ eq_refl) as (_ & _ & _ & h & Hh & _ & _ & Hw). eexists _, h. split; [reflexivity|]. split; [exact Hh|].
  apply Hw. vm_compute. split; discriminate.
Defined.
