(* ===== verification/CString.v ===== *)
(** C strings ([src/openvpn/buffer.c]): character classes and the functions that filter
    strings.  A string is the list of its bytes without the terminating zero. *)
From stdpp Require Import list.
From S2P Require Import Prelude.

(** ** The code *)

(** The bytes of a string never contain the terminator. *)
Definition is_str (s : list Z) : Prop := Forall (fun c => 0 < c < 256) s.

(** Reading at [i], with the terminator behind the last byte. *)
Definition char_at (s : list Z) (i : Z) : Z := zget 0 s i.

(** The characters of a literal. *)
Definition lit (s : String.string) : list Z := map (fun a => Z.of_nat (Ascii.nat_of_ascii a)) (String.list_ascii_of_string s).

(** The string of a list of characters. *)
Definition str (l : list Z) : String.string := String.string_of_list_ascii (map (fun c => Ascii.ascii_of_nat (Z.to_nat c)) l).

Definition CC_ANY : Z := Z.shiftl 1 0.
Definition CC_NULL : Z := Z.shiftl 1 1.
Definition CC_ALNUM : Z := Z.shiftl 1 2.
Definition CC_ALPHA : Z := Z.shiftl 1 3.
Definition CC_ASCII : Z := Z.shiftl 1 4.
Definition CC_CNTRL : Z := Z.shiftl 1 5.
Definition CC_DIGIT : Z := Z.shiftl 1 6.
Definition CC_PRINT : Z := Z.shiftl 1 7.
Definition CC_PUNCT : Z := Z.shiftl 1 8.
Definition CC_SPACE : Z := Z.shiftl 1 9.
Definition CC_XDIGIT : Z := Z.shiftl 1 10.
Definition CC_BLANK : Z := Z.shiftl 1 11.
Definition CC_NEWLINE : Z := Z.shiftl 1 12.
Definition CC_CR : Z := Z.shiftl 1 13.
Definition CC_BACKSLASH : Z := Z.shiftl 1 14.
Definition CC_UNDERBAR : Z := Z.shiftl 1 15.
Definition CC_DASH : Z := Z.shiftl 1 16.
Definition CC_DOT : Z := Z.shiftl 1 17.
Definition CC_COMMA : Z := Z.shiftl 1 18.
Definition CC_COLON : Z := Z.shiftl 1 19.
Definition CC_SLASH : Z := Z.shiftl 1 20.
Definition CC_SINGLE_QUOTE : Z := Z.shiftl 1 21.
Definition CC_DOUBLE_QUOTE : Z := Z.shiftl 1 22.
Definition CC_REVERSE_QUOTE : Z := Z.shiftl 1 23.
Definition CC_AT : Z := Z.shiftl 1 24.
Definition CC_EQUAL : Z := Z.shiftl 1 25.
Definition CC_LESS_THAN : Z := Z.shiftl 1 26.
Definition CC_GREATER_THAN : Z := Z.shiftl 1 27.
Definition CC_PIPE : Z := Z.shiftl 1 28.
Definition CC_QUESTION_MARK : Z := Z.shiftl 1 29.
Definition CC_ASTERISK : Z := Z.shiftl 1 30.
Definition CC_NAME : Z := Z.lor CC_ALNUM CC_UNDERBAR.
Definition CC_CRLF : Z := Z.lor CC_CR CC_NEWLINE.

(** The functions of [ctype.h] in the C locale. *)
Definition between (a b c : Z) : bool := (a <=? c) && (c <=? b).
Definition isdigit (c : Z) : bool := between 48 57 c.
Definition isalpha (c : Z) : bool := between 65 90 c || between 97 122 c.
Definition isalnum (c : Z) : bool := isdigit c || isalpha c.
Definition isascii (c : Z) : bool := between 0 127 c.
Definition iscntrl (c : Z) : bool := between 0 31 c || (c =? 127).
Definition ispunct (c : Z) : bool := between 33 126 c && negb (isalnum c).
Definition isspace (c : Z) : bool := between 9 13 c || (c =? 32).
Definition isxdigit (c : Z) : bool := isdigit c || between 65 70 c || between 97 102 c.

Definition flag (flags f : Z) : bool := negb (Z.land flags f =? 0).

(** The flags that stand for the characters of the last tests. *)
Definition char_flags : list (Z * Z) :=
  [(CC_NEWLINE, 10); (CC_CR, 13); (CC_BACKSLASH, 92); (CC_UNDERBAR, 95); (CC_DASH, 45); (CC_DOT, 46); (CC_COMMA, 44); (CC_COLON, 58); (CC_SLASH, 47);
   (CC_SINGLE_QUOTE, 39); (CC_DOUBLE_QUOTE, 34); (CC_REVERSE_QUOTE, 96); (CC_AT, 64); (CC_EQUAL, 61); (CC_LESS_THAN, 60); (CC_GREATER_THAN, 62);
   (CC_PIPE, 124); (CC_QUESTION_MARK, 63); (CC_ASTERISK, 42)].

Definition char_class (c flags : Z) : bool :=
  if flags =? 0 then false
  else if flag flags CC_ANY then true
  else if flag flags CC_NULL && (c =? 0) then true
  else if flag flags CC_ALNUM && isalnum c then true
  else if flag flags CC_ALPHA && isalpha c then true
  else if flag flags CC_ASCII && isascii c then true
  else if flag flags CC_CNTRL && iscntrl c then true
  else if flag flags CC_DIGIT && isdigit c then true
  else if flag flags CC_PRINT && ((32 <=? c) && negb (c =? 127)) then true
  else if flag flags CC_PUNCT && ispunct c then true
  else if flag flags CC_SPACE && isspace c then true
  else if flag flags CC_XDIGIT && isxdigit c then true
  else if flag flags CC_BLANK && ((c =? 32) || (c =? 9)) then true
  else existsb (fun '(f, x) => flag flags f && (c =? x)) char_flags.

Definition char_inc_exc (c inclusive exclusive : Z) : bool := char_class c inclusive && negb (char_class c exclusive).

Fixpoint string_class (str : list Z) (inclusive exclusive : Z) : bool :=
  match str with [] => true | c :: str => if negb (char_inc_exc c inclusive exclusive) then false else string_class str inclusive exclusive end.

(** The result and the string as it is left. *)
Fixpoint string_mod (str : list Z) (inclusive exclusive replace : Z) : bool * list Z :=
  match str with
  | [] => (true, [])
  | c :: str =>
      let '(ret, rest) := string_mod str inclusive exclusive replace in
      let '(ret, c) := if negb (char_inc_exc c inclusive exclusive) then (false, replace) else (ret, c) in
      (ret, if negb (c =? 0) then c :: rest else rest)
  end.

Fixpoint string_replace_leading (str : list Z) (mtch replace : Z) : list Z :=
  match str with [] => [] | c :: rest => if c =? mtch then replace :: string_replace_leading rest mtch replace else str end.

(** [buf_parse] on the contents of a buffer: the string up to the delimiter and what is left;
    [None] at its end. *)
Fixpoint buf_parse_loop (delim size : Z) (buf line : list Z) : bool * list Z * list Z :=
  match buf with
  | [] => (true, line, [])
  | c :: buf =>
      if size <=? zlen line then (false, line, buf)
      else if (c =? 0) || (c =? delim) then (false, line, buf) else buf_parse_loop delim size buf (line ++ [c])
  end.
Definition buf_parse (delim size : Z) (buf : list Z) : option (list Z * list Z) :=
  let '(eol, line, buf) := buf_parse_loop delim size buf [] in
  let line := take (Z.to_nat (size - 1)) line in
  if eol && (zlen line =? 0) then None else Some (line, buf).

(** [printf] of a number with ["%d"]. *)
Fixpoint print_digits (fuel : nat) (z : Z) (acc : list Z) : list Z :=
  match fuel with
  | O => acc
  | S fuel => let acc := (48 + z mod 10) :: acc in if z / 10 =? 0 then acc else print_digits fuel (z / 10) acc
  end.
Definition print_int (z : Z) : list Z := if z <? 0 then 45 :: print_digits 20 (- z) [] else print_digits 20 z [].
(** [print_in_addr_t] of an address in host order, which is [inet_ntoa]. *)
Definition print_in_addr_t (addr : Z) : list Z :=
  print_int (u8 (addr / 2 ^ 24)) ++ [46] ++ print_int (u8 (addr / 2 ^ 16)) ++ [46] ++ print_int (u8 (addr / 2 ^ 8)) ++ [46] ++ print_int (u8 addr).

(** ** Literals *)

Lemma str_lit s : str (lit s) = s.
Proof.
  unfold str, lit. rewrite map_map. rewrite <- (String.string_of_list_ascii_of_string s) at 2. f_equal. rewrite <- (map_id (String.list_ascii_of_string s)) at 2.
  apply map_ext. intros a. by rewrite Nat2Z.id, Ascii.ascii_nat_embedding.
Qed.

(** ** Parsing *)

Lemma buf_parse_run delim size l : forall acc x, Forall (fun c => c <> 0 /\ c <> delim) l -> zlen acc + zlen l < size ->
  buf_parse_loop delim size (l ++ x) acc = buf_parse_loop delim size x (acc ++ l).
Proof.
  induction l as [|c l IH]; intros acc x Hl Hs; [by rewrite app_nil_r|]. apply Forall_cons in Hl as [[H1 H2] Hl]. rewrite zlen_cons in Hs. pose proof (zlen_nonneg l).
  cbn [app buf_parse_loop]. destruct (Z.leb_spec size (zlen acc)); [lia|]. destruct (Z.eqb_spec c 0), (Z.eqb_spec c delim); try done. cbn [orb].
  rewrite IH by (done || rewrite zlen_app, zlen_cons, zlen_nil; lia). by rewrite <- app_assoc.
Qed.

(** A string before a delimiter or a terminator. *)
Lemma buf_parse_line delim size l d x : Forall (fun c => c <> 0 /\ c <> delim) l -> zlen l < size -> d = 0 \/ d = delim ->
  buf_parse delim size (l ++ d :: x) = Some (l, x).
Proof.
  intros Hl Hs Hd. unfold buf_parse. rewrite buf_parse_run by done. cbn [app buf_parse_loop].
  destruct (Z.leb_spec size (zlen l)); [lia|]. assert ((d =? 0) || (d =? delim) = true) as -> by (destruct Hd as [-> | ->]; [done|by rewrite Z.eqb_refl, orb_true_r]). cbn [andb].
  rewrite take_ge by (unfold zlen in *; lia). done.
Qed.

(** ** Printing *)

(** The numbers of a byte. *)
Lemma print_byte z : is_byte z -> Forall (fun c => 48 <= c < 58) (print_int z) /\ 1 <= zlen (print_int z) <= 3 /\
  fold_left (fun v c => v * 10 + (c - 48)) (print_int z) 0 = z.
Proof.
  intros Hz. assert (forallb (fun z => forallb (between 48 57) (print_int z) && between 1 3 (zlen (print_int z)) &&
    (fold_left (fun v c => v * 10 + (c - 48)) (print_int z) 0 =? z)) (seqZ 0 256) = true) as H by (vm_compute; reflexivity).
  rewrite forallb_forall in H. specialize (H z). rewrite <- list_elem_of_In, elem_of_seqZ in H. specialize (H Hz).
  apply andb_true_iff in H as [[H1 H2]%andb_true_iff H3%Z.eqb_eq]. split; [|split; [|done]].
  - apply Forall_forall. intros c Hc. rewrite forallb_forall in H1. specialize (H1 c (proj1 (list_elem_of_In _ _) Hc)). unfold between in H1. lia.
  - unfold between in H2. lia.
Qed.

(** Digits and points. *)
Lemma print_in_addr_t_chars addr : Forall (fun c => 46 <= c < 58) (print_in_addr_t addr) /\ 7 <= zlen (print_in_addr_t addr) <= 15.
Proof.
  assert (forall z, Forall (fun c => 46 <= c < 58) (print_int (u8 z)) /\ 1 <= zlen (print_int (u8 z)) <= 3) as H.
  { intros z. destruct (print_byte (u8 z) (wrap_byte z)) as (H1 & H2 & _). split; [|done]. eapply Forall_impl; [exact H1|]. cbn. lia. }
  assert (forall a b, Forall (fun c => 46 <= c < 58) a -> Forall (fun c => 46 <= c < 58) b -> Forall (fun c => 46 <= c < 58) (a ++ [46] ++ b)) as Hdot.
  { intros a b Ha Hb. apply Forall_app. split; [done|]. constructor; [lia|done]. }
  unfold print_in_addr_t. generalize (addr / 2 ^ 24), (addr / 2 ^ 16), (addr / 2 ^ 8). intros a b c. destruct (H a) as [A1 A2], (H b) as [B1 B2], (H c) as [C1 C2], (H addr) as [D1 D2].
  split; [auto|]. rewrite !zlen_app. change (zlen [46]) with 1. lia.
Qed.

(** ** Filtering *)

Lemma string_class_forall str inc exc : string_class str inc exc = true <-> Forall (fun c => char_inc_exc c inc exc = true) str.
Proof.
  induction str as [|c str IH]; cbn [string_class]; [by split|]. rewrite Forall_cons, <- IH. destruct (char_inc_exc c inc exc); cbn; naive_solver.
Qed.

(** What is of the class stays, everything else becomes the replacement, or is left out
    when that is zero; the result says whether there was something to replace. *)
Lemma string_mod_spec str inc exc replace : is_str str ->
  string_mod str inc exc replace = (string_class str inc exc,
    omap (fun c => if char_inc_exc c inc exc then Some c else if replace =? 0 then None else Some replace) str).
Proof.
  induction 1 as [|c str Hc Hs IH]; [done|]. cbn [string_mod string_class]. rewrite IH. cbn [omap list_omap].
  destruct (char_inc_exc c inc exc); cbn [negb].
  - destruct (Z.eqb_spec c 0); [lia|]. cbn [negb]. done.
  - by destruct (replace =? 0).
Qed.

Lemma string_mod_id str inc exc replace : is_str str -> string_class str inc exc = true -> string_mod str inc exc replace = (true, str).
Proof.
  intros Hs Hc. rewrite string_mod_spec, Hc by done. f_equal. apply string_class_forall in Hc. clear Hs. induction Hc as [|c str Hc _ IH]; [done|].
  cbn [omap list_omap]. by rewrite Hc, IH.
Qed.

Lemma string_mod_class str inc exc replace : is_str str -> replace = 0 \/ char_inc_exc replace inc exc = true ->
  string_class (string_mod str inc exc replace).2 inc exc = true.
Proof.
  intros Hs Hr. rewrite string_mod_spec by done. apply string_class_forall. cbn. clear Hs. induction str as [|c str IH]; [constructor|]. cbn [omap list_omap].
  destruct (char_inc_exc c inc exc) eqn:E; [by constructor|]. destruct (Z.eqb_spec replace 0) as [|Hn]; [done|]. constructor; [by destruct Hr|done].
Qed.
