(* ===== verification/Base64.v ===== *)
(** Base64 ([src/openvpn/base64.c]): the encoder, the decoder with its limit, and the round trip. *)
From Stdlib Require Import String.
From stdpp Require Import list.
From S2P Require Import Prelude CString.

(** ** The code *)

Definition base64_chars : list Z := lit "ABCDEFGHIJKLMNOPQRSTUVWXYZabcdefghijklmnopqrstuvwxyz0123456789+/".
Definition b64_char (i : Z) : Z := char_at base64_chars i.

(** One turn of the loop of the encoder: [q] are the bytes left, at least one. *)
Definition encode_group (q : list Z) : list Z :=
  let size := zlen q in
  let c := zget 0 q 0 * 256 in
  let c := (if 1 <? size then c + zget 0 q 1 else c) * 256 in
  let c := if 2 <? size then c + zget 0 q 2 else c in
  [b64_char (Z.shiftr (Z.land c 0xfc0000) 18); b64_char (Z.shiftr (Z.land c 0x3f000) 12);
   if size + 1 <? 3 then 61 else b64_char (Z.shiftr (Z.land c 0xfc0) 6);
   if size <? 3 then 61 else b64_char (Z.land c 0x3f)].
Fixpoint encode_loop (fuel : nat) (q : list Z) : option (list Z) :=
  match fuel with
  | O => None
  | S fuel => match q with [] => Some [] | _ => rest ← encode_loop fuel (drop 3 q); Some (encode_group q ++ rest) end
  end.
Definition encode_text (data : list Z) : option (list Z) := encode_loop (S (length data)) data.
(** The bytes allocated for the string: [int] arithmetic, which goes round from 2^29 bytes on. *)
Definition encode_room (size : Z) : Z := Z.quot (i32 (size * 4)) 3 + 4.
(** The string; its length is the result.  [None] when the string with its terminator does not
    fit into the memory allocated. *)
Definition openvpn_base64_encode (data : list Z) : option (list Z) :=
  s ← encode_text data; if zlen s + 1 <=? encode_room (zlen data) then Some s else None.

(** [pos]: -1 when there is no such character. *)
Fixpoint pos_loop (p : list Z) (i : Z) (c : Z) : Z :=
  match p with [] => -1 | x :: p => if x =? c then i else pos_loop p (i + 1) c end.
Definition pos (c : Z) : Z := pos_loop base64_chars 0 c.

Definition DECODE_ERROR : Z := 0xffffffff.

Fixpoint token_loop (token : list Z) (val marker : Z) : option (Z * Z) :=
  match token with
  | [] => Some (val, marker)
  | c :: token =>
      let val := u32 (val * 64) in
      if c =? 61 then token_loop token val (marker + 1)
      else if 0 <? marker then None
      else token_loop token (u32 (val + pos c)) marker
  end.
Definition token_decode (token : list Z) : Z :=
  if (char_at token 0 =? 0) || (char_at token 1 =? 0) || (char_at token 2 =? 0) || (char_at token 3 =? 0) then DECODE_ERROR
  else
    match token_loop (take 4 token) 0 0 with
    | None => DECODE_ERROR
    | Some (val, marker) => if 2 <? marker then DECODE_ERROR else Z.lor (Z.shiftl marker 24) val
    end.

Definition b64_starts (c : Z) : bool := negb (c =? 0) && ((c =? 61) || existsb (Z.eqb c) base64_chars).

(** [if (e && q >= e) return -1; *q++ = x;]. *)
Definition decode_put (size : Z) (out : list Z) (x : Z) : option (list Z) :=
  if (0 <=? size) && (size <=? zlen out) then None else Some (out ++ [x]).

(** The result and what was written to [data]; [out] is what was written before. *)
Fixpoint decode_loop (fuel : nat) (p : list Z) (size : Z) (out : list Z) : option (Z * list Z) :=
  match fuel with
  | O => None
  | S fuel =>
      if negb (b64_starts (char_at p 0)) then Some (zlen out, out)
      else
        let val := token_decode p in
        let marker := Z.land (Z.shiftr val 24) 255 in
        if val =? DECODE_ERROR then Some (-1, out)
        else
          match decode_put size out (Z.land (Z.shiftr val 16) 255) with
          | None => Some (-1, out)
          | Some out =>
              match (if marker <? 2 then decode_put size out (Z.land (Z.shiftr val 8) 255) else Some out) with
              | None => Some (-1, out)
              | Some out =>
                  match (if marker <? 1 then decode_put size out (Z.land val 255) else Some out) with
                  | None => Some (-1, out)
                  | Some out => decode_loop fuel (drop 4 p) size out
                  end
              end
          end
  end.
Definition openvpn_base64_decode (str : list Z) (size : Z) : option (Z * list Z) := decode_loop (S (length str)) str size [].

(** ** Groups *)

Lemma b64_char_pos i : 0 <= i < 64 -> pos (b64_char i) = i /\ 43 <= b64_char i < 123 /\ b64_char i <> 61 /\ b64_starts (b64_char i) = true.
Proof.
  intros Hi. assert (forallb (fun j => (pos (b64_char (Z.of_nat j)) =? Z.of_nat j) && (43 <=? b64_char (Z.of_nat j)) && (b64_char (Z.of_nat j) <? 123)
    && negb (b64_char (Z.of_nat j) =? 61) && b64_starts (b64_char (Z.of_nat j))) (seq 0 64) = true) as H by (vm_compute; reflexivity).
  rewrite forallb_forall in H. specialize (H (Z.to_nat i)). rewrite Z2Nat.id in H by lia. rewrite !andb_true_iff, negb_true_iff in H.
  destruct H as [[[[H1%Z.eqb_eq H2%Z.leb_le] H3%Z.ltb_lt] H4%Z.eqb_neq] H5]; [apply in_seq; lia|]. done.
Qed.

(** The four digits of a group. *)
Definition digit (c k : Z) : Z := c / 64 ^ k mod 64.
Lemma digit_range c k : 0 <= digit c k < 64.
Proof. apply Z.mod_pos_bound. lia. Qed.

Lemma group_digits c : 0 <= c < 2 ^ 24 ->
  Z.shiftr (Z.land c 0xfc0000) 18 = digit c 3 /\ Z.shiftr (Z.land c 0x3f000) 12 = digit c 2 /\
  Z.shiftr (Z.land c 0xfc0) 6 = digit c 1 /\ Z.land c 0x3f = digit c 0.
Proof.
  intros Hc. assert (forall k, 0 <= k -> Z.shiftr (Z.land c (Z.shiftl (Z.ones 6) (6 * k))) (6 * k) = digit c k) as H.
  { intros k Hk. rewrite Z.shiftr_land, Z.shiftr_shiftl_l by lia. replace (6 * k - 6 * k) with 0 by lia. rewrite Z.shiftl_0_r, Z.land_ones, Z.shiftr_div_pow2 by lia.
    unfold digit. rewrite Z.pow_mul_r by lia. done. }
  split; [exact (H 3 ltac:(lia))|]. split; [exact (H 2 ltac:(lia))|]. split; [exact (H 1 ltac:(lia))|]. rewrite <- (H 0 ltac:(lia)). by rewrite Z.shiftr_0_r.
Qed.

(** The characters of a group of bytes with the value [c], of which [n] count. *)
Definition group_chars (n c : Z) : list Z :=
  [b64_char (digit c 3); b64_char (digit c 2); if n <? 2 then 61 else b64_char (digit c 1); if n <? 3 then 61 else b64_char (digit c 0)].

Lemma token_group n c rest : 1 <= n <= 3 -> 0 <= c < 2 ^ 24 -> (n = 1 -> c mod 2 ^ 16 = 0) -> (n = 2 -> c mod 2 ^ 8 = 0) ->
  token_decode (group_chars n c ++ rest) = (3 - n) * 2 ^ 24 + c.
Proof.
  intros Hn Hc H1 H2. pose proof (b64_char_pos _ (digit_range c 3)) as (P3 & R3 & N3 & _). pose proof (b64_char_pos _ (digit_range c 2)) as (P2 & R2 & N2 & _).
  pose proof (b64_char_pos _ (digit_range c 1)) as (P1 & R1 & N1 & _). pose proof (b64_char_pos _ (digit_range c 0)) as (P0 & R0 & N0 & _).
  assert (c = digit c 3 * 64 ^ 3 + digit c 2 * 64 ^ 2 + digit c 1 * 64 + digit c 0) as Ec.
  { unfold digit. change (64 ^ 0) with 1. change (64 ^ 1) with 64. change (64 ^ 2) with 4096. change (64 ^ 3) with 262144. change (2 ^ 24) with 16777216 in *. zdiv. }
  pose proof (digit_range c 3). pose proof (digit_range c 2). pose proof (digit_range c 1). pose proof (digit_range c 0).
  assert (n = 1 -> digit c 1 = 0 /\ digit c 0 = 0) as D1 by (intros ->; specialize (H1 eq_refl); change (2 ^ 16) with 65536 in *; change (64 ^ 3) with 262144 in *; change (64 ^ 2) with 4096 in *; zdiv).
  assert (n = 2 -> digit c 0 = 0) as D2 by (intros ->; specialize (H2 eq_refl); change (2 ^ 8) with 256 in *; change (64 ^ 3) with 262144 in *; change (64 ^ 2) with 4096 in *; zdiv).
  unfold token_decode, group_chars.
  set (d3 := digit c 3) in *. set (d2 := digit c 2) in *. set (d1 := digit c 1) in *. set (d0 := digit c 0) in *. clearbody d3 d2 d1 d0.
  set (x3 := b64_char d3) in *. set (x2 := b64_char d2) in *. set (x1 := b64_char d1) in *. set (x0 := b64_char d0) in *. clearbody x3 x2 x1 x0.
  assert (forall a b d e, char_at (a :: b :: d :: e :: rest) 0 = a /\ char_at (a :: b :: d :: e :: rest) 1 = b /\
    char_at (a :: b :: d :: e :: rest) 2 = d /\ char_at (a :: b :: d :: e :: rest) 3 = e) as Hat by done.
  cbn [app]. rewrite !(proj1 (Hat _ _ _ _)), !(proj1 (proj2 (Hat _ _ _ _))), !(proj1 (proj2 (proj2 (Hat _ _ _ _)))), !(proj2 (proj2 (proj2 (Hat _ _ _ _)))).
  assert (forall a b d, 0 <= a < 2 ^ 24 -> 0 <= b < 4 -> d = b * 2 ^ 24 + a -> Z.lor (Z.shiftl b 24) a = d) as Hlor.
  { intros a b d Ha Hb ->. rewrite Z.shiftl_mul_pow2 by lia. pose proof (Z.add_lor_land (b * 2 ^ 24) a) as E. assert (Z.land (b * 2 ^ 24) a = 0) as E0; [|lia].
    rewrite <- Z.shiftl_mul_pow2 by lia. apply Z.bits_inj'. intros i Hi. rewrite Z.land_spec, Z.bits_0. destruct (Z.ltb_spec i 24).
    - by rewrite Z.shiftl_spec_low.
    - by rewrite (testbit_high 24 a), andb_false_r. }
  assert (forall a, 0 <= a < 2 ^ 32 -> u32 a = a) as Hu by (intros; by apply wrap_small).
  rewrite !(proj2 (Z.eqb_neq x3 0)), !(proj2 (Z.eqb_neq x2 0)) by lia.
  assert (n = 1 \/ n = 2 \/ n = 3) as [-> | [-> | ->]] by lia; cbn [Z.ltb Z.compare Pos.compare Pos.compare_cont]; rewrite ?(proj2 (Z.eqb_neq x1 0)), ?(proj2 (Z.eqb_neq x0 0)) by lia; cbn [Z.eqb Pos.eqb orb firstn token_loop];
    rewrite !(proj2 (Z.eqb_neq x3 61)), !(proj2 (Z.eqb_neq x2 61)), ?(proj2 (Z.eqb_neq x1 61)), ?(proj2 (Z.eqb_neq x0 61)) by lia.
  all: change (0 <? 0) with false; cbn [token_loop firstn]; cbn [Z.add Z.ltb Z.compare Pos.compare Pos.compare_cont Pos.add]; rewrite ?P3, ?P2, ?P1, ?P0.
  all: change (2 ^ 32) with 4294967296 in Hu; repeat match goal with |- context [u32 ?a] => lazymatch a with context [u32 _] => fail | _ => rewrite (Hu a) by lia end end.
  - destruct (D1 eq_refl). apply Hlor; lia.
  - specialize (D2 eq_refl). apply Hlor; lia.
  - apply Hlor; lia.
Qed.

(** The value of a group of bytes, and the bytes of a value. *)
Definition group_val (q : list Z) : Z := (zget 0 q 0 * 256 + zget 0 q 1) * 256 + zget 0 q 2.
Definition group_len (q : list Z) : Z := Z.min 3 (zlen q).

Lemma zget_is_byte q i : Forall is_byte q -> is_byte (zget 0 q i).
Proof.
  intros H. unfold zget. destruct (i <? 0); [done|]. destruct (q !! Z.to_nat i) as [x|] eqn:E; [|done]. cbn. exact (Forall_lookup_1 _ _ _ _ H E).
Qed.
Lemma zget_past {A} (d : A) q i : zlen q <= i -> zget d q i = d.
Proof. intros H. unfold zget, zlen in *. destruct (i <? 0); [done|]. by rewrite lookup_ge_None_2 by lia. Qed.

Lemma encode_group_chars q : q <> [] -> Forall is_byte q ->
  encode_group q = group_chars (group_len q) (group_val q) /\ 1 <= group_len q <= 3 /\ 0 <= group_val q < 2 ^ 24 /\
  (group_len q = 1 -> group_val q mod 2 ^ 16 = 0) /\ (group_len q = 2 -> group_val q mod 2 ^ 8 = 0).
Proof.
  intros Hne Hb. assert (1 <= zlen q) as Hlen by (destruct q; [done|]; rewrite zlen_cons; pose proof (zlen_nonneg q); lia).
  pose proof (zget_is_byte q 0 Hb) as B0. pose proof (zget_is_byte q 1 Hb) as B1. pose proof (zget_is_byte q 2 Hb) as B2. unfold is_byte in *.
  assert (0 <= group_val q < 2 ^ 24) as Hv by (unfold group_val; change (2 ^ 24) with 16777216; lia).
  unfold group_len. change (2 ^ 16) with 65536. change (2 ^ 8) with 256. split; [|split; [lia|split; [done|split]]].
  - unfold encode_group. assert (((if 2 <? zlen q then (if 1 <? zlen q then zget 0 q 0 * 256 + zget 0 q 1 else zget 0 q 0 * 256) * 256 + zget 0 q 2
      else (if 1 <? zlen q then zget 0 q 0 * 256 + zget 0 q 1 else zget 0 q 0 * 256) * 256)) = group_val q) as ->.
    { unfold group_val. destruct (Z.ltb_spec 1 (zlen q)), (Z.ltb_spec 2 (zlen q)); rewrite ?(zget_past _ q 1), ?(zget_past _ q 2) by lia; lia. }
    destruct (group_digits _ Hv) as (-> & -> & -> & ->). unfold group_chars. destruct (Z.ltb_spec (zlen q + 1) 3), (Z.ltb_spec (zlen q) 3), (Z.ltb_spec (Z.min 3 (zlen q)) 2), (Z.ltb_spec (Z.min 3 (zlen q)) 3); try lia; done.
  - intros E. unfold group_val. rewrite (zget_past _ q 1), (zget_past _ q 2) by lia. zdiv.
  - intros E. unfold group_val. rewrite (zget_past _ q 2) by lia. zdiv.
Qed.

Lemma group_bytes q : Forall is_byte q -> let c := group_val q in
  Z.land (Z.shiftr c 16) 255 = zget 0 q 0 /\ Z.land (Z.shiftr c 8) 255 = zget 0 q 1 /\ Z.land c 255 = zget 0 q 2.
Proof.
  intros Hb. pose proof (zget_is_byte q 0 Hb) as B0. pose proof (zget_is_byte q 1 Hb) as B1. pose proof (zget_is_byte q 2 Hb) as B2. cbv zeta. unfold is_byte in *.
  change 255 with (Z.ones 8). rewrite !Z.land_ones, !Z.shiftr_div_pow2 by lia. unfold group_val. change (2 ^ 8) with 256. change (2 ^ 16) with 65536. zdiv.
Qed.

Lemma take_group q : 1 <= zlen q -> take 3 q = take (Z.to_nat (group_len q)) [zget 0 q 0; zget 0 q 1; zget 0 q 2].
Proof.
  intros H. unfold group_len. destruct q as [|a [|b [|c q]]]; [by rewrite zlen_nil in H|done|done|].
  rewrite !zlen_cons, Z.min_l; [done|]. pose proof (zlen_nonneg q). lia.
Qed.

(** The marks of padding are in the top byte. *)
Lemma marked_val n c : 1 <= n <= 3 -> 0 <= c < 2 ^ 24 -> let v := (3 - n) * 2 ^ 24 + c in
  Z.land (Z.shiftr v 24) 255 = 3 - n /\ Z.land (Z.shiftr v 16) 255 = Z.land (Z.shiftr c 16) 255 /\
  Z.land (Z.shiftr v 8) 255 = Z.land (Z.shiftr c 8) 255 /\ Z.land v 255 = Z.land c 255 /\ v <> DECODE_ERROR.
Proof.
  intros Hn Hc. cbv zeta. unfold DECODE_ERROR. change 255 with (Z.ones 8). rewrite !Z.land_ones, !Z.shiftr_div_pow2 by lia.
  change (2 ^ 8) with 256. change (2 ^ 16) with 65536. change (2 ^ 24) with 16777216 in *. zdiv.
Qed.

Definition fits (size : Z) (n : Z) : Prop := size < 0 \/ n <= size.

Lemma decode_put_fits size out x : fits size (zlen out + 1) -> decode_put size out x = Some (out ++ [x]).
Proof. unfold fits, decode_put. intros H. destruct (Z.leb_spec 0 size), (Z.leb_spec size (zlen out)); cbn; try done; lia. Qed.

Lemma decode_group fuel size out q rest : q <> [] -> Forall is_byte q -> fits size (zlen out + group_len q) ->
  decode_loop (S fuel) (encode_group q ++ rest) size out = decode_loop fuel rest size (out ++ take 3 q).
Proof.
  intros Hne Hb Hfit. destruct (encode_group_chars q Hne Hb) as (-> & Hn & Hc & H1 & H2).
  assert (1 <= zlen q) as Hlen by (unfold group_len in Hn; lia).
  pose proof (token_group _ _ rest Hn Hc H1 H2) as Ht. destruct (marked_val _ _ Hn Hc) as (M0 & M1 & M2 & M3 & Me). destruct (group_bytes q Hb) as (B0 & B1 & B2).
  destruct (b64_char_pos _ (digit_range (group_val q) 3)) as (_ & _ & _ & Hst). rewrite (take_group q Hlen).
  cbn [decode_loop]. change (char_at (group_chars (group_len q) (group_val q) ++ rest) 0) with (b64_char (digit (group_val q) 3)). rewrite Hst. cbn [negb].
  rewrite Ht, M0, M1, M2, M3, B0, B1, B2. change (drop 4 (group_chars (group_len q) (group_val q) ++ rest)) with rest.
  destruct (Z.eqb_spec ((3 - group_len q) * 2 ^ 24 + group_val q) DECODE_ERROR); [done|].
  set (b0 := zget 0 q 0) in *. set (b1 := zget 0 q 1) in *. set (b2 := zget 0 q 2) in *. clearbody b0 b1 b2. unfold fits in Hfit.
  assert (forall (l : list Z) x, zlen (l ++ [x]) = zlen l + 1) as Hsnoc by (intros; rewrite zlen_app; done).
  rewrite decode_put_fits by (unfold fits; lia). assert (group_len q = 1 \/ group_len q = 2 \/ group_len q = 3) as [En | [En | En]] by lia; rewrite En in *.
  - done.
  - change (3 - 2 <? 2) with true. change (3 - 2 <? 1) with false. cbv iota. rewrite decode_put_fits by (unfold fits; rewrite Hsnoc; lia). cbv iota. by rewrite <- app_assoc.
  - change (3 - 3 <? 2) with true. change (3 - 3 <? 1) with true. cbv iota. rewrite decode_put_fits by (unfold fits; rewrite Hsnoc; lia). cbv iota.
    rewrite decode_put_fits by (unfold fits; rewrite !Hsnoc; lia). cbv iota. by rewrite <- !app_assoc.
Qed.

(** ** The round trip *)

Lemma encode_step fuel q : q <> [] -> encode_loop (S fuel) q = (rest ← encode_loop fuel (drop 3 q); Some (encode_group q ++ rest)).
Proof. by destruct q. Qed.

Lemma group_rest q : q <> [] -> (length (drop 3 q) < length q)%nat /\ zlen q = group_len q + zlen (drop 3 q) /\ take 3 q ++ drop 3 q = q.
Proof.
  intros Hne. unfold group_len, zlen. rewrite length_drop. assert (0 < length q)%nat by (destruct q; [done|cbn; lia]). split; [lia|]. split; [lia|]. apply take_drop.
Qed.

(** The bytes of an encoding: three bytes give four characters. *)
Definition encoded_len (n : Z) : Z := 4 * ((n + 2) / 3).

Lemma encode_spec fuel : forall q, (length q < fuel)%nat -> Forall is_byte q -> exists s, encode_loop fuel q = Some s /\
  zlen s = encoded_len (zlen q) /\ Forall (fun c => 43 <= c < 123) s /\
  forall fuel' size out rest, (length q < fuel')%nat -> fits size (zlen out + zlen q) -> b64_starts (char_at rest 0) = false ->
    decode_loop fuel' (s ++ rest) size out = Some (zlen out + zlen q, out ++ q).
Proof.
  induction fuel as [|fuel IH]; intros q Hf Hb; [lia|]. destruct (decide (q = [])) as [->|Hne].
  { exists []. split; [done|]. split; [done|]. split; [constructor|]. intros [|fuel'] size out rest Hf' Hfit Hst; [cbn in Hf'; lia|]. cbn [app decode_loop]. rewrite Hst. cbn. by rewrite zlen_nil, Z.add_0_r, app_nil_r. }
  destruct (group_rest q Hne) as (Hlt & Hz & Htd). assert (Forall is_byte (drop 3 q)) as Hbd by by apply Forall_drop.
  destruct (IH (drop 3 q)) as (s & Es & Hs & Hcs & Hdec); [lia|done|]. rewrite encode_step, Es by done. cbn [mbind option_bind]. eexists. split; [done|].
  destruct (encode_group_chars q Hne Hb) as (Eg & Hn & _). pose proof (zlen_nonneg (drop 3 q)).
  split; [|split].
  - rewrite zlen_app, Hs, Eg. change (zlen (group_chars _ _)) with 4. unfold encoded_len. unfold group_len in *. assert (zlen (drop 3 q) = 0 \/ group_len q = 3) as Hor by (unfold group_len; lia). unfold group_len in Hor. zdiv.
  - apply Forall_app. split; [|done]. rewrite Eg. unfold group_chars. repeat apply Forall_cons_2; try apply Forall_nil_2; try (apply b64_char_pos, digit_range); case_match; try lia; apply b64_char_pos, digit_range.
  - intros [|fuel'] size out rest Hf' Hfit Hst; [lia|]. rewrite <- app_assoc, decode_group; [|done|done|unfold fits in *; lia].
    assert (zlen (take 3 q) = group_len q) as Ht by (unfold group_len, zlen; rewrite length_take; lia).
    rewrite Hdec; [|lia|unfold fits in *; rewrite zlen_app; lia|done]. rewrite zlen_app, Ht, <- app_assoc, Htd. f_equal. f_equal. lia.
Qed.

(** Without room for all bytes the decoder says so and writes no more than there is room for. *)
Lemma decode_written fuel : forall p size out r w, decode_loop fuel p size out = Some (r, w) -> fits size (zlen out) ->
  (r = -1 \/ r = zlen w) /\ fits size (zlen w).
Proof.
  assert (forall size out x out', fits size (zlen out) -> decode_put size out x = Some out' -> fits size (zlen out')) as Hput.
  { intros size out x out' Hf. unfold decode_put. destruct (_ && _) eqn:E; [done|]. intros [= <-]. rewrite zlen_app, zlen_cons, zlen_nil. unfold fits in *.
    apply andb_false_iff in E as [E%Z.leb_gt|E%Z.leb_gt]; lia. }
  induction fuel as [|fuel IH]; intros p size out r w; cbn [decode_loop]; [done|]. intros H Hf.
  destruct (negb _); [injection H as <- <-; auto|]. destruct (_ =? DECODE_ERROR); [injection H as <- <-; auto|].
  destruct (decode_put size out _) as [o1|] eqn:E1; [|injection H as <- <-; auto]. pose proof (Hput _ _ _ _ Hf E1) as H1.
  destruct (if _ <? 2 then _ else _) as [o2|] eqn:E2; [|injection H as <- <-; auto]. assert (fits size (zlen o2)) as H2 by (destruct (_ <? 2); [by eapply Hput|by injection E2 as <-]).
  destruct (if _ <? 1 then _ else _) as [o3|] eqn:E3; [|injection H as <- <-; auto]. assert (fits size (zlen o3)) as H3 by (destruct (_ <? 1); [by eapply Hput|by injection E3 as <-]).
  by eapply IH.
Qed.

(** What is written are bytes. *)
Lemma decode_bytes fuel : forall p size out r w, decode_loop fuel p size out = Some (r, w) -> Forall is_byte out -> Forall is_byte w.
Proof.
  assert (forall size out x out', Forall is_byte out -> decode_put size out (Z.land x 255) = Some out' -> Forall is_byte out') as Hput.
  { intros size out x out' Hf. unfold decode_put. destruct (_ && _); [done|]. intros [= <-]. apply Forall_app. split; [done|]. constructor; [|constructor].
    change 255 with (Z.ones 8). rewrite Z.land_ones by lia. apply Z.mod_pos_bound. lia. }
  induction fuel as [|fuel IH]; intros p size out r w; cbn [decode_loop]; [done|]. intros H Hf.
  destruct (negb _); [by injection H as <- <-|]. destruct (_ =? DECODE_ERROR); [by injection H as <- <-|].
  destruct (decode_put size out _) as [o1|] eqn:E1; [|by injection H as <- <-]. pose proof (Hput _ _ _ _ Hf E1) as H1.
  destruct (if _ <? 2 then _ else _) as [o2|] eqn:E2; [|by injection H as <- <-]. assert (Forall is_byte o2) as H2 by (destruct (_ <? 2); [by eapply Hput|by injection E2 as <-]).
  destruct (if _ <? 1 then _ else _) as [o3|] eqn:E3; [|by injection H as <- <-]. assert (Forall is_byte o3) as H3 by (destruct (_ <? 1); [by eapply Hput|by injection E3 as <-]).
  by eapply IH.
Qed.

(** Every turn consumes four characters that are there. *)
Lemma decode_loop_ends fuel : forall p size out, (length p < fuel)%nat -> is_Some (decode_loop fuel p size out).
Proof.
  induction fuel as [|fuel IH]; intros p size out Hf; [lia|]. cbn [decode_loop]. destruct (b64_starts (char_at p 0)) eqn:Hst; cbn [negb]; [|by eexists].
  assert (p <> []) as Hne by (intros ->; by vm_compute in Hst). assert (length (drop 4 p) < length p)%nat by (rewrite length_drop; destruct p; [done|cbn; lia]).
  repeat case_match; try by eexists. all: apply IH; lia.
Qed.

(** The encoding of a string of bytes. *)
Definition b64 (data : list Z) : list Z := default [] (encode_text data).

Lemma b64_text data : Forall is_byte data ->
  encode_text data = Some (b64 data) /\ zlen (b64 data) = encoded_len (zlen data) /\ Forall (fun c => 43 <= c < 123) (b64 data).
Proof.
  intros Hb. destruct (encode_spec (S (length data)) data ltac:(lia) Hb) as (s & Es & Hlen & Hchars & _). unfold b64, encode_text. by rewrite Es.
Qed.

Lemma encode_room_enough n : 0 <= n < 2 ^ 29 -> encoded_len n + 1 <= encode_room n.
Proof.
  intros Hn. unfold encode_room, encoded_len. rewrite i32_small by lia. rewrite Z.quot_div_nonneg by lia. zdiv.
Qed.

Lemma b64_encode data : Forall is_byte data -> zlen data < 2 ^ 29 -> openvpn_base64_encode data = Some (b64 data).
Proof.
  intros Hb Hl. destruct (b64_text data Hb) as (E & Hlen & _). unfold openvpn_base64_encode. rewrite E. cbn [mbind option_bind]. rewrite Hlen.
  pose proof (zlen_nonneg data). by rewrite (proj2 (Z.leb_le _ _) (encode_room_enough (zlen data) ltac:(lia))).
Qed.

Lemma b64_decode data size rest : Forall is_byte data -> fits size (zlen data) -> b64_starts (char_at rest 0) = false ->
  openvpn_base64_decode (b64 data ++ rest) size = Some (zlen data, data).
Proof.
  intros Hb Hfit Hst. destruct (encode_spec (S (length data)) data ltac:(lia) Hb) as (s & Es & Hlen & _ & Hdec). unfold b64, encode_text. rewrite Es. cbn [default from_option].
  unfold openvpn_base64_decode. rewrite (Hdec _ size [] rest); [done| |by rewrite zlen_nil|done].
  assert (zlen data <= zlen s) as Hle by (rewrite Hlen; unfold encoded_len; pose proof (zlen_nonneg data); zdiv). unfold zlen in Hle. rewrite length_app. unfold id. lia.
Qed.

Lemma decode_total size p : exists r w, openvpn_base64_decode p size = Some (r, w) /\ (r = -1 \/ r = zlen w) /\ (0 <= size -> zlen w <= size).
Proof.
  destruct (decode_loop_ends (S (length p)) p size [] ltac:(lia)) as [[r w] E]. exists r, w. split; [exact E|].
  destruct (Z.ltb_spec size 0) as [Hneg|Hpos].
  - destruct (decode_written _ _ _ _ _ _ E ltac:(by left)) as [Hr _]. split; [done|lia].
  - destruct (decode_written _ _ _ _ _ _ E ltac:(right; by rewrite zlen_nil)) as [Hr [?|?]]; [lia|]. by split.
Qed.

Lemma encode_fuel f : forall g q, (length q < f)%nat -> (length q < g)%nat -> encode_loop f q = encode_loop g q.
Proof.
  induction f as [|f IH]; intros [|g] q Hf Hg; try lia. destruct (decide (q = [])) as [->|Hne]; [done|]. rewrite !encode_step by done.
  destruct (group_rest q Hne) as (Hlt & _). rewrite (IH g); [done|lia|lia].
Qed.

(** Groups of three bytes are encoded for themselves. *)
Lemma b64_app n a b : (length a = 3 * n)%nat -> Forall is_byte a -> Forall is_byte b -> b64 (a ++ b) = b64 a ++ b64 b.
Proof.
  revert a. induction n as [|n IH]; intros a Hn Ha Hb; [by destruct a|]. destruct a as [|x [|y [|z a]]]; cbn [length] in Hn; try lia.
  assert (Forall is_byte a) as Ha' by (by do 3 apply Forall_inv_tail in Ha). assert (length a = 3 * n)%nat as Hn' by lia.
  assert (forall c, Forall is_byte c -> b64 (x :: y :: z :: c) = encode_group [x; y; z] ++ b64 c) as Hcons; [|by rewrite <- !app_comm_cons, !Hcons, IH, app_assoc by (try apply Forall_app; done)].
  intros c Hc. unfold b64, encode_text. rewrite encode_step by done. change (drop 3 (x :: y :: z :: c)) with c.
  rewrite (encode_fuel (length (x :: y :: z :: c)) (S (length c)) c) by (cbn; lia). destruct (b64_text c Hc) as (Ec & _). unfold encode_text in Ec. rewrite Ec. cbn [mbind option_bind default from_option].
  f_equal. assert (Forall is_byte [x; y; z]) as H3 by (by rewrite !Forall_cons in *; naive_solver).
  assert (Forall is_byte (x :: y :: z :: c)) as H4 by (by rewrite !Forall_cons in *; naive_solver).
  rewrite (proj1 (encode_group_chars (x :: y :: z :: c) ltac:(done) H4)), (proj1 (encode_group_chars [x; y; z] ltac:(done) H3)). unfold id. f_equal. change (group_val (x :: y :: z :: c)) with (group_val [x; y; z]). f_equal.
  unfold group_len. rewrite !zlen_cons, zlen_nil. pose proof (zlen_nonneg c). lia.
Qed.

(** From 2^29 bytes on the size of the allocation is wrong. *)
Example encode_room_overflows : encode_room (2 ^ 29) < 0 /\ encode_room (2 ^ 30) = 4.
Proof. by vm_compute. Qed.

(** C25. Base64.  The encoder turns fewer than 2^29 bytes into a string of four characters for
    every three bytes, which fits into the memory it allocates; the decoder gives the bytes
    back from it, when there is room for them and what follows does not start with a
    character of base64.  On any string at all the decoder ends, returns -1 or the number of
    bytes it wrote, and writes no more than there is room for. *)
Theorem base64_roundtrip data : Forall is_byte data -> zlen data < 2 ^ 29 -> exists s, openvpn_base64_encode data = Some s /\
  zlen s = encoded_len (zlen data) /\ zlen s + 1 <= encode_room (zlen data) /\ is_str s /\
  (forall size rest, fits size (zlen data) -> b64_starts (char_at rest 0) = false ->
    openvpn_base64_decode (s ++ rest) size = Some (zlen data, data)) /\
  (forall size p, exists r w, openvpn_base64_decode p size = Some (r, w) /\ (r = -1 \/ r = zlen w) /\ (0 <= size -> zlen w <= size)).
Proof.
  intros Hb Hl. destruct (b64_text data Hb) as (_ & Hlen & Hchars). exists (b64 data). split; [by apply b64_encode|]. split; [done|].
  split; [|split; [|split]].
  - rewrite Hlen. pose proof (zlen_nonneg data). by apply encode_room_enough.
  - eapply Forall_impl; [exact Hchars|]. cbn. lia.
  - intros size rest Hfit Hst. by apply b64_decode.
  - intros size p. apply decode_total.
Qed.

Lemma base64_roundtrip_witness : exists s, openvpn_base64_encode (lit "any carnal pleasure.") = Some s /\ s = lit "YW55IGNhcm5hbCBwbGVhc3VyZS4=" /\
  openvpn_base64_decode (s ++ lit "# the rest") 64 = Some (20, lit "any carnal pleasure.").
Proof.
  assert (Forall is_byte (lit "any carnal pleasure.")) as Hb by (repeat (apply Forall_cons_2; [by vm_compute|]); apply Forall_nil_2).
  destruct (base64_roundtrip (lit "any carnal pleasure.") Hb eq_refl) as (s & Es & _ & _ & _ & Hdec & _).
  exists s. split; [exact Es|]. split; [vm_compute in Es; injection Es as <-; reflexivity|]. apply Hdec; [right; by vm_compute|reflexivity].
Defined.

(** ** What the decoder accepts *)

(** Only the first character of a group is looked up; another one that is no character of
    base64 counts as -1 instead of being an error. *)
Example invalid_character_decoded : openvpn_base64_decode (lit "QUI!") 3 = Some (3, [65; 65; 255]).
Proof. vm_compute. reflexivity. Qed.

(** Padding may stand anywhere: many strings decode to the same bytes. *)
Example padding_inside : openvpn_base64_decode (lit "QQ==Qg==") 3 = openvpn_base64_decode (lit "QUI=") 3.
Proof. vm_compute. reflexivity. Qed.
