(* ===== verification/Proto.v ===== *)
(** Packets inside the tunnel ([src/openvpn/proto.h], [proto.c]): the IP version of a
    packet, the internet checksum and its incremental update.  A pointer into a packet
    is an index into its block; words are read as a little-endian host reads them, and
    [ntohs] swaps them. *)
From stdpp Require Import list.
From S2P Require Import Prelude Integer Buffer.

(** ** Access to a block *)

Definition ld16 (d : list Z) (p : Z) : Z := zget 0 d p + 256 * zget 0 d (p + 1).
Definition st16 (d : list Z) (p v : Z) : list Z := zput (zput d p (v mod 256)) (p + 1) ((v / 256) mod 256).
Definition ld32 (d : list Z) (p : Z) : Z := ld16 d p + 65536 * ld16 d (p + 2).
Definition st32 (d : list Z) (p v : Z) : list Z := st16 (st16 d p (v mod 65536)) (p + 2) ((v / 65536) mod 65536).
Definition ntohs (v : Z) : Z := 256 * (v mod 256) + (v / 256) mod 256.
Definition htons (v : Z) : Z := ntohs v.

(** ** Constants *)

Definition DEV_TYPE_TUN : Z := 2.
Definition DEV_TYPE_TAP : Z := 3.
Definition OPENVPN_ETH_ALEN : Z := 6.
Definition OPENVPN_ETH_P_IPV4 : Z := 2048.
Definition OPENVPN_ETH_P_IPV6 : Z := 34525.
Definition OPENVPN_ETH_P_8021Q : Z := 33024.
Definition sizeof_ethhdr : Z := 14.
Definition sizeof_8021qhdr : Z := 18.
Definition SIZE_ETH_TO_8021Q_HDR : Z := 4.
Definition sizeof_iphdr : Z := 20.
Definition sizeof_ipv6hdr : Z := 40.
Definition sizeof_icmp6hdr : Z := 8.
Definition sizeof_tcphdr : Z := 20.
Definition sizeof_udphdr : Z := 8.
Definition OPENVPN_IPH_GET_VER (v : Z) : Z := Z.land (Z.shiftr v 4) 15.
Definition OPENVPN_IPH_GET_LEN (v : Z) : Z := Z.shiftl (Z.land v 15) 2.
Definition OPENVPN_IP_OFFMASK : Z := 8191.
Definition OPENVPN_IPPROTO_TCP : Z := 6.
Definition OPENVPN_IPPROTO_UDP : Z := 17.
Definition OPENVPN_IPPROTO_ICMPV6 : Z := 58.
Definition OPENVPN_TCPH_GET_DOFF (d : Z) : Z := Z.shiftr (Z.land d 240) 2.
Definition OPENVPN_TCPH_SYN_MASK : Z := 2.
Definition OPENVPN_TCPOPT_EOL : Z := 0.
Definition OPENVPN_TCPOPT_NOP : Z := 1.
Definition OPENVPN_TCPOPT_MAXSEG : Z := 2.
Definition OPENVPN_TCPOLEN_MAXSEG : Z := 4.

(** ** Checksums *)

(** [ADJUST_CHECKSUM]: the new value of [cksum]. *)
Definition ADJUST_CHECKSUM (acc cksum : Z) : Z :=
  let a := acc + cksum in
  if a <? 0 then
    let a := - a in
    let a := Z.shiftr a 16 + Z.land a 65535 in
    let a := a + Z.shiftr a 16 in
    u16 (Z.lnot a)
  else
    let a := Z.shiftr a 16 + Z.land a 65535 in
    let a := a + Z.shiftr a 16 in
    u16 a.
Definition ADD_CHECKSUM_32 (acc v : Z) : Z := acc + Z.land v 65535 + Z.shiftr v 16.
Definition SUB_CHECKSUM_32 (acc v : Z) : Z := acc - Z.land v 65535 - Z.shiftr v 16.

Definition MTU_TO_MSS (mtu : Z) : Z := mtu - sizeof_iphdr - sizeof_tcphdr.

(** The sum of the 16-bit words of a packet, the first byte of a word being the high
    one; an odd last byte is followed by a zero. *)
Fixpoint sum_words (l : list Z) : Z :=
  match l with
  | a :: b :: l => u16 (Z.land (Z.shiftl a 8) 65280 + Z.land b 255) + sum_words l
  | [a] => u16 (Z.land (Z.shiftl a 8) 65280)
  | [] => 0
  end.

(** [while (sum >> 16)] *)
Fixpoint fold_carries (fuel : nat) (sum : Z) : option Z :=
  match fuel with
  | O => None
  | S fuel => if Z.shiftr sum 16 =? 0 then Some sum else fold_carries fuel (Z.land sum 65535 + Z.shiftr sum 16)
  end.

Definition ip_checksum (payload src_addr dest_addr : list Z) (proto : Z) : option Z :=
  let sum := u32 (sum_words payload + sum_words src_addr + sum_words dest_addr + u16 (zlen payload) + u16 proto) in
  sum ← fold_carries 4 sum;
  Some (u16 (Z.lnot sum)).

(** ** The version of a packet *)

Definition is_ipv_X (tunnel_type : Z) (buf : buffer) (ip_ver : Z) : option (bool * buffer) :=
  let checked (offset : Z) :=
    p ← buf_bptr buf;
    if OPENVPN_IPH_GET_VER (buf_peek buf (p + offset)) =? ip_ver then Some (buf_advance buf offset) else Some (false, buf) in
  if tunnel_type =? DEV_TYPE_TUN then
    if buf_len buf <? sizeof_iphdr then Some (false, buf) else checked 0
  else if tunnel_type =? DEV_TYPE_TAP then
    if buf_len buf <? sizeof_ethhdr + sizeof_iphdr then Some (false, buf)
    else
      p ← buf_bptr buf;
      d ← b_data buf;
      let tagged := ld16 d (p + 12) =? htons OPENVPN_ETH_P_8021Q in
      let proto := if tagged then ld16 d (p + 16) else ld16 d (p + 12) in
      let offset := if tagged then sizeof_8021qhdr else sizeof_ethhdr in
      if negb (ntohs proto =? (if ip_ver =? 6 then OPENVPN_ETH_P_IPV6 else OPENVPN_ETH_P_IPV4)) then Some (false, buf)
      else checked offset
  else Some (false, buf).

Definition is_ipv4 (tunnel_type : Z) (buf : buffer) : option (bool * buffer) := is_ipv_X tunnel_type buf 4.
Definition is_ipv6 (tunnel_type : Z) (buf : buffer) : option (bool * buffer) := is_ipv_X tunnel_type buf 6.

(** The offset is [None] where the function leaves it unset. *)
Definition get_tun_ip_ver (tunnel_type : Z) (buf : buffer) : option (Z * option Z) :=
  if tunnel_type =? DEV_TYPE_TUN then
    if sizeof_iphdr <=? buf_len buf then p ← buf_bptr buf; Some (OPENVPN_IPH_GET_VER (buf_peek buf p), Some 0)
    else Some (-1, Some 0)
  else if tunnel_type =? DEV_TYPE_TAP then
    if sizeof_ethhdr <=? buf_len buf then
      p ← buf_bptr buf;
      d ← b_data buf;
      let proto := ntohs (ld16 d (p + 12)) in
      Some (if proto =? OPENVPN_ETH_P_IPV6 then 6 else if proto =? OPENVPN_ETH_P_IPV4 then 4 else -1, Some sizeof_ethhdr)
    else Some (-1, Some sizeof_ethhdr)
  else Some (-1, None).

(** ** Slices of a block *)

Lemma zget_mem_read d p n i : 0 <= p -> 0 <= i < n -> zget 0 (mem_read d p n) i = zget 0 d (p + i).
Proof.
  intros. unfold zget, mem_read. destruct (Z.ltb_spec i 0), (Z.ltb_spec (p + i) 0); try lia.
  rewrite lookup_take_lt, lookup_drop by lia. do 2 f_equal. lia.
Qed.

Lemma zput_mem_read (d : list Z) p n i v : 0 <= p -> 0 <= i < n -> mem_read (zput d (p + i) v) p n = zput (mem_read d p n) i v.
Proof.
  intros. unfold zput, mem_read. destruct (Z.ltb_spec i 0), (Z.ltb_spec (p + i) 0); try lia.
  replace (Z.to_nat (p + i)) with (Z.to_nat p + Z.to_nat i)%nat by lia. rewrite drop_insert_ge by lia.
  rewrite take_insert_lt by lia. repeat f_equal. lia.
Qed.

Section Slice.
Context (d : list Z) (p n : Z).
Context (Hp : 0 <= p).

Lemma ld16_mem_read i : 0 <= i -> i + 1 < n -> ld16 (mem_read d p n) i = ld16 d (p + i).
Proof. intros. unfold ld16. rewrite !zget_mem_read by lia. do 3 f_equal. lia. Qed.
Lemma ld32_mem_read i : 0 <= i -> i + 3 < n -> ld32 (mem_read d p n) i = ld32 d (p + i).
Proof. intros. unfold ld32. rewrite !ld16_mem_read by lia. do 3 f_equal. lia. Qed.
End Slice.

Lemma st16_mem_read (d : list Z) p n i v : 0 <= p -> 0 <= i -> i + 1 < n -> mem_read (st16 d (p + i) v) p n = st16 (mem_read d p n) i v.
Proof.
  intros. unfold st16. replace (p + i + 1) with (p + (i + 1)) by lia. rewrite zput_mem_read by lia. by rewrite zput_mem_read by lia.
Qed.
Lemma st32_mem_read (d : list Z) p n i v : 0 <= p -> 0 <= i -> i + 3 < n -> mem_read (st32 d (p + i) v) p n = st32 (mem_read d p n) i v.
Proof. intros. unfold st32. replace (p + i + 2) with (p + (i + 2)) by lia. rewrite st16_mem_read by lia. by rewrite st16_mem_read by lia. Qed.

Lemma zlen_st16 d i v : zlen (st16 d i v) = zlen d.
Proof. unfold st16. by rewrite !zlen_zput. Qed.
Lemma zlen_st32 d i v : zlen (st32 d i v) = zlen d.
Proof. unfold st32. by rewrite !zlen_st16. Qed.
Lemma zget_st16_ne d i j v : 0 <= i -> j <> i -> j <> i + 1 -> zget 0 (st16 d i v) j = zget 0 d j.
Proof. intros. unfold st16. by rewrite !zget_zput_ne by lia. Qed.
Lemma zget_st32_ne d i j v : 0 <= i -> (j < i \/ i + 4 <= j) -> zget 0 (st32 d i v) j = zget 0 d j.
Proof. intros. unfold st32. by rewrite !zget_st16_ne by lia. Qed.

(** Bytes and words. *)
Lemma zget_byte d i : Forall is_byte d -> is_byte (zget 0 d i).
Proof.
  intros Hd. unfold zget. case_match; [done|]. destruct (d !! Z.to_nat i) eqn:E; [|done]. cbn.
  by eapply Forall_lookup_1 in E.
Qed.
Lemma zput_bytes d i v : Forall is_byte d -> is_byte v -> Forall is_byte (zput d i v).
Proof. intros. unfold zput. case_match; [done|]. by apply Forall_insert. Qed.
Lemma st16_bytes d i v : Forall is_byte d -> Forall is_byte (st16 d i v).
Proof. intros. apply zput_bytes; [apply zput_bytes; [done|]|]; apply Z.mod_pos_bound; lia. Qed.
Lemma st32_bytes d i v : Forall is_byte d -> Forall is_byte (st32 d i v).
Proof. intros. by apply st16_bytes, st16_bytes. Qed.
Lemma ld16_range d i : Forall is_byte d -> 0 <= ld16 d i < 65536.
Proof. intros Hd. pose proof (zget_byte d i Hd). pose proof (zget_byte d (i + 1) Hd). unfold ld16, is_byte in *. lia. Qed.
Lemma ld32_range d i : Forall is_byte d -> 0 <= ld32 d i < 2 ^ 32.
Proof. intros Hd. pose proof (ld16_range d i Hd). pose proof (ld16_range d (i + 2) Hd). unfold ld32 in *. lia. Qed.
#[export] Hint Resolve zget_byte zput_bytes st16_bytes st32_bytes : ovpn.

Lemma ld16_st16 d i v : 0 <= i -> i + 1 < zlen d -> 0 <= v < 65536 -> ld16 (st16 d i v) i = v.
Proof.
  intros. unfold ld16, st16. rewrite zget_zput_ne, zget_zput_eq by lia. rewrite zget_zput_eq by (rewrite zlen_zput; lia). zdiv.
Qed.
Lemma ld32_st32 d i v : 0 <= i -> i + 3 < zlen d -> 0 <= v < 2 ^ 32 -> ld32 (st32 d i v) i = v.
Proof.
  intros. unfold ld32. unfold st32 at 2. rewrite ld16_st16 by (rewrite ?zlen_st16; zdiv).
  unfold st32, ld16 at 1. rewrite !(zget_st16_ne _ (i + 2)) by lia. change (zget 0 ?e i + 256 * zget 0 ?e (i + 1)) with (ld16 e i).
  rewrite ld16_st16 by zdiv. zdiv.
Qed.

(** ** Arithmetic of checksums *)

(** Equality of one's complement numbers of 16 bits (with both zeros). *)
Definition ones_eq (x y : Z) : Prop := exists k, x = y + k * 65535.
Infix "≡₁" := ones_eq (at level 70).

#[export] Instance ones_eq_equiv : Equivalence ones_eq.
Proof.
  split.
  - intros x. exists 0. lia.
  - intros x y [k ->]. exists (- k). lia.
  - intros x y z [k ->] [l ->]. exists (k + l). lia.
Qed.
#[export] Instance ones_add_proper : Proper (ones_eq ==> ones_eq ==> ones_eq) Z.add.
Proof. intros x y [k ->] x' y' [l ->]. exists (k + l). lia. Qed.
#[export] Instance ones_sub_proper : Proper (ones_eq ==> ones_eq ==> ones_eq) Z.sub.
Proof. intros x y [k ->] x' y' [l ->]. exists (k - l). lia. Qed.
#[export] Instance ones_mul_proper : Proper (ones_eq ==> ones_eq ==> ones_eq) Z.mul.
Proof. intros x y [k ->] x' y' [l ->]. exists (k * y' + y * l + k * l * 65535). ring. Qed.

(** A packet as one number: 2^16 is 1, so the number is the sum of its words, up to
    the order of bytes in a word. *)
Fixpoint le_val (l : list Z) : Z := match l with a :: l => a + 256 * le_val l | [] => 0 end.

Definition weight (i : Z) : Z := if Z.even i then 1 else 256.

Lemma pow_weight (n : nat) : 256 ^ Z.of_nat n ≡₁ weight (Z.of_nat n).
Proof.
  induction n as [|n IH]; [reflexivity|]. rewrite Nat2Z.inj_succ, Z.pow_succ_r, IH by lia. unfold weight. rewrite Z.even_succ, <- Z.negb_even.
  destruct (Z.even _); cbn [negb]; [reflexivity|exists 1; lia].
Qed.

Lemma le_val_put l i v : 0 <= i < zlen l -> le_val (zput l i v) ≡₁ le_val l + weight i * (v - zget 0 l i).
Proof.
  intros Hi. unfold zput, zget. destruct (Z.ltb_spec i 0); [lia|].
  assert (forall (l : list Z) (n : nat) v, (n < length l)%nat -> le_val (<[n := v]> l) = le_val l + 256 ^ Z.of_nat n * (v - default 0 (l !! n))) as Hput.
  { clear. induction l as [|a l IH]; intros n v Hn; [cbn in Hn; lia|]. destruct n as [|n]; [cbn; lia|]. change (<[S n := v]> (a :: l)) with (a :: <[n := v]> l).
    change ((a :: l) !! S n) with (l !! n). cbn [le_val].
    rewrite IH by (cbn in Hn; lia). rewrite Nat2Z.inj_succ, Z.pow_succ_r by lia. ring. }
  rewrite Hput by (unfold zlen in Hi; lia). rewrite pow_weight. replace (Z.of_nat (Z.to_nat i)) with i by lia. reflexivity.
Qed.

Lemma weight_succ i : 256 * weight i ≡₁ weight (i + 1).
Proof.
  unfold weight. replace (i + 1) with (Z.succ i) by lia. rewrite Z.even_succ, <- Z.negb_even. destruct (Z.even i); cbn [negb]; [reflexivity|exists 1; lia].
Qed.

Lemma le_val_st16 l i v : 0 <= i -> i + 1 < zlen l -> 0 <= v < 65536 -> le_val (st16 l i v) ≡₁ le_val l + weight i * (v - ld16 l i).
Proof.
  intros. unfold st16, ld16. rewrite !le_val_put by (rewrite ?zlen_zput; lia). rewrite zget_zput_ne, <- weight_succ by lia.
  assert (v = v mod 256 + 256 * ((v / 256) mod 256)) as Hv by zdiv. set (a := v mod 256) in *. set (b := (v / 256) mod 256) in *. rewrite Hv.
  exists 0. ring.
Qed.

Lemma le_val_st32 l i v : 0 <= i -> i + 3 < zlen l -> 0 <= v < 2 ^ 32 -> le_val (st32 l i v) ≡₁ le_val l + weight i * (v - ld32 l i).
Proof.
  intros. unfold st32, ld32. rewrite !le_val_st16 by (rewrite ?zlen_st16; zdiv).
  assert (ld16 (st16 l i (v mod 65536)) (i + 2) = ld16 l (i + 2)) as -> by (unfold ld16 at 1 2; by rewrite !zget_st16_ne by lia).
  assert (weight (i + 2) = weight i) as -> by (unfold weight; rewrite Z.even_add; by destruct (Z.even i)).
  assert (v = v mod 65536 + 65536 * ((v / 65536) mod 65536)) as Hv by zdiv. set (a := v mod 65536) in *. set (b := (v / 65536) mod 65536) in *. rewrite Hv.
  exists (- weight i * b + weight i * ld16 l (i + 2)). ring.
Qed.

(** The sum the code computes. *)
Lemma sum_words_val l : Forall is_byte l -> sum_words l ≡₁ 256 * le_val l.
Proof.
  intros Hl. assert (forall a, is_byte a -> Z.land (Z.shiftl a 8) 65280 = 256 * a) as Hsh.
  { intros a Ha. unfold is_byte in Ha. rewrite Z.shiftl_mul_pow2 by lia. change 65280 with (Z.ldiff 65535 255).
    assert (forall n, 0 <= n < 256 -> Z.land (n * 2 ^ 8) 65280 = 256 * n) as Hn; [|by apply Hn].
    intros n Hn. assert (forallb (fun n => Z.land (n * 2 ^ 8) 65280 =? 256 * n) (seqZ 0 256) = true) as Hall by (vm_compute; reflexivity).
    rewrite forallb_forall in Hall. apply Z.eqb_eq, Hall. apply list_elem_of_In, elem_of_seqZ. lia. }
  assert (forall n (l : list Z), (length l <= n)%nat -> Forall is_byte l -> sum_words l ≡₁ 256 * le_val l) as Hn; [|by apply (Hn (length l))].
  clear l Hl. induction n as [|n IH]; intros l Hlen Hl; [destruct l; [reflexivity|cbn in Hlen; lia]|].
  destruct l as [|a [|b l]]; [reflexivity| |].
  - apply Forall_cons in Hl as [Ha _]. cbn [sum_words le_val]. rewrite Hsh by done. unfold is_byte in Ha. unfold wrap. rewrite Z.mod_small by (cbn; lia).
    exists 0. ring.
  - apply Forall_cons in Hl as [Ha Hl]. apply Forall_cons in Hl as [Hb Hl]. cbn [sum_words le_val]. rewrite Hsh, IH by (done || (cbn in Hlen; lia)).
    change 255 with (Z.ones 8). rewrite Z.land_ones by lia. unfold is_byte in *. unfold wrap. rewrite (Z.mod_small b), Z.mod_small by (cbn; lia).
    exists (- b - 256 * le_val l). ring.
Qed.

(** ** The update of a checksum *)

Lemma adjust_fold a : 0 <= a < 2 ^ 31 -> let b := Z.shiftr a 16 + Z.land a 65535 in u16 (b + Z.shiftr b 16) ≡₁ a.
Proof.
  intros Ha. cbn zeta. change (Z.land a 65535) with (Z.land a (Z.ones 16)). rewrite Z.land_ones, !Z.shiftr_div_pow2 by lia. unfold wrap. set (b := a / 2 ^ 16 + a mod 2 ^ 16).
  assert (b = a - 65535 * (a / 2 ^ 16)) as Hb by (unfold b; zdiv). assert (0 <= b < 131072) as Hr by (unfold b; zdiv).
  destruct (Z_lt_le_dec b 65536).
  - rewrite (Z.div_small b), Z.add_0_r, Z.mod_small by (cbn; lia). exists (- (a / 2 ^ 16)). lia.
  - replace (b / 2 ^ 16) with 1 by zdiv. exists (- (a / 2 ^ 16) - 1). replace ((b + 1) mod 2 ^ 16) with (b + 1 - 65536) by zdiv. lia.
Qed.

Lemma adjust_checksum_range acc ck : 0 <= ADJUST_CHECKSUM acc ck < 65536.
Proof. unfold ADJUST_CHECKSUM. destruct (_ <? 0); apply (wrap_range 16); lia. Qed.

Lemma adjust_checksum_eq acc ck : - 2 ^ 31 < acc + ck < 2 ^ 31 -> ADJUST_CHECKSUM acc ck ≡₁ acc + ck.
Proof.
  intros Hr. unfold ADJUST_CHECKSUM. destruct (Z.ltb_spec (acc + ck) 0).
  - pose proof (adjust_fold (- (acc + ck)) ltac:(lia)) as Hf. cbn zeta in Hf. set (b := Z.shiftr (- (acc + ck)) 16 + _) in *.
    set (c := b + Z.shiftr b 16) in *. assert (u16 (Z.lnot c) = 65535 - u16 c) as -> by (unfold Z.lnot, wrap; zdiv).
    rewrite Hf. exists 1. lia.
  - by apply adjust_fold; lia.
Qed.

Lemma add_checksum_eq acc v : ADD_CHECKSUM_32 acc v ≡₁ acc + v.
Proof.
  unfold ADD_CHECKSUM_32. change 65535 with (Z.ones 16) at 1. rewrite Z.land_ones, Z.shiftr_div_pow2 by lia. exists (- (v / 2 ^ 16)). zdiv.
Qed.
Lemma sub_checksum_eq acc v : SUB_CHECKSUM_32 acc v ≡₁ acc - v.
Proof.
  unfold SUB_CHECKSUM_32. change 65535 with (Z.ones 16) at 1. rewrite Z.land_ones, Z.shiftr_div_pow2 by lia. exists (v / 2 ^ 16). zdiv.
Qed.
Lemma checksum_32_range acc v : 0 <= v < 2 ^ 32 -> acc <= ADD_CHECKSUM_32 acc v <= acc + 131070 /\ acc - 131070 <= SUB_CHECKSUM_32 acc v <= acc.
Proof.
  intros. unfold ADD_CHECKSUM_32, SUB_CHECKSUM_32. change 65535 with (Z.ones 16). rewrite Z.land_ones, Z.shiftr_div_pow2 by lia. zdiv.
Qed.

Lemma fold_carries_spec sum : 0 <= sum < 2 ^ 32 -> exists s, fold_carries 4 sum = Some s /\ 0 <= s < 65536 /\ s ≡₁ sum.
Proof.
  intros Hs. assert (forall a, 0 <= a -> Z.land a 65535 + a / 2 ^ 16 = a - 65535 * (a / 2 ^ 16)) as Hf.
  { intros a Ha. change 65535 with (Z.ones 16) at 1. rewrite Z.land_ones by lia. zdiv. }
  assert (forall a, Z.shiftr a 16 = a / 2 ^ 16) as Hd by (intros; by rewrite Z.shiftr_div_pow2 by lia).
  cbn [fold_carries]. rewrite Hd. destruct (Z.eqb_spec (sum / 2 ^ 16) 0).
  { exists sum. split; [done|]. split; [zdiv|reflexivity]. }
  rewrite (Hf sum) by lia. set (s1 := sum - _). assert (0 <= s1 <= 131070) as H1 by (unfold s1; zdiv). rewrite Hd.
  assert (s1 ≡₁ sum) as E1 by (exists (- (sum / 2 ^ 16)); unfold s1; lia). clearbody s1. destruct (Z.eqb_spec (s1 / 2 ^ 16) 0).
  { exists s1. split; [done|]. split; [zdiv|done]. }
  rewrite (Hf s1) by lia. set (s2 := s1 - _). assert (0 <= s2 < 65536) as H2 by (unfold s2; zdiv). rewrite Hd.
  rewrite (Z.div_small s2) by (cbn; lia). exists s2. split; [done|]. split; [done|]. rewrite <- E1. exists (- (s1 / 2 ^ 16)). unfold s2. lia.
Qed.

Lemma sum_words_range l : Forall is_byte l -> 0 <= sum_words l <= 65535 * zlen l.
Proof.
  assert (forall n (l : list Z), (length l <= n)%nat -> 0 <= sum_words l <= 65535 * zlen l) as Hn; [|intros _; by apply (Hn (length l))].
  clear l. induction n as [|n IH]; intros l Hl; [destruct l; [done|cbn in Hl; lia]|].
  destruct l as [|a [|b l]]; [done| |]; cbn [sum_words].
  - set (x := Z.land _ _). unfold zlen. cbn. pose proof (wrap_range 16 x). unfold is_u in *. lia.
  - set (x := Z.land _ _ + _). pose proof (wrap_range 16 x ltac:(lia)). rewrite !zlen_cons. specialize (IH l ltac:(cbn in Hl; lia)). unfold is_u in *. lia.
Qed.

(** The checksum of a packet makes the sum zero. *)
Lemma ip_checksum_spec payload src dst proto :
  Forall is_byte payload -> Forall is_byte src -> Forall is_byte dst -> zlen payload + zlen src + zlen dst <= 65530 ->
  exists c, ip_checksum payload src dst proto = Some c /\ 0 <= c < 65536 /\
    c + sum_words payload + sum_words src + sum_words dst + zlen payload + u16 proto ≡₁ 0.
Proof.
  intros Hp Hs Hd Hl. unfold ip_checksum. pose proof (sum_words_range _ Hp). pose proof (sum_words_range _ Hs). pose proof (sum_words_range _ Hd).
  pose proof (zlen_nonneg payload). pose proof (zlen_nonneg src). pose proof (zlen_nonneg dst).
  assert (0 <= u16 proto < 65536) as Hpr by (apply (wrap_range 16); lia). assert (u16 (zlen payload) = zlen payload) as -> by (apply (wrap_small 16); unfold is_u; lia).
  rewrite (wrap_small 32) by (unfold is_u; lia). set (sum := sum_words payload + _ + _ + _ + _).
  destruct (fold_carries_spec sum) as (s & -> & Hr & He); [unfold sum; lia|]. cbn [mbind option_bind]. eexists. split; [done|].
  assert (u16 (Z.lnot s) = 65535 - s) as -> by (unfold Z.lnot, wrap; zdiv). split; [lia|].
  transitivity (65535 - s + sum); [exists 0; unfold sum; lia|]. rewrite <- He. exists 1. lia.
Qed.

(** ** Blocks in parts *)

Lemma zput_app_l {A} (a b : list A) i v : 0 <= i < zlen a -> zput (a ++ b) i v = zput a i v ++ b.
Proof. unfold zlen, zput. intros. case_match; [done|]. by rewrite insert_app_l by lia. Qed.
Lemma zput_app_r {A} (a b : list A) i v : 0 <= i -> zput (a ++ b) (zlen a + i) v = a ++ zput b i v.
Proof.
  unfold zlen, zput. intros. destruct (Z.ltb_spec (Z.of_nat (length a) + i) 0), (Z.ltb_spec i 0); try lia.
  replace (Z.to_nat (Z.of_nat (length a) + i)) with (length a + Z.to_nat i)%nat by lia. by rewrite insert_app_r.
Qed.
Lemma zget_app_l {A} (x : A) (a b : list A) i : 0 <= i < zlen a -> zget x (a ++ b) i = zget x a i.
Proof. unfold zlen, zget. intros. case_match; [done|]. by rewrite lookup_app_l by lia. Qed.
Lemma zget_app_r {A} (x : A) (a b : list A) i : 0 <= i -> zget x (a ++ b) (zlen a + i) = zget x b i.
Proof.
  unfold zlen, zget. intros. destruct (Z.ltb_spec (Z.of_nat (length a) + i) 0), (Z.ltb_spec i 0); try lia.
  rewrite lookup_app_r by lia. do 2 f_equal. lia.
Qed.
Lemma zput_at {A} (pre : list A) x y rest i : i = zlen pre -> zput (pre ++ x :: rest) i y = pre ++ y :: rest.
Proof. intros ->. replace (zlen pre) with (zlen pre + 0) by lia. by rewrite zput_app_r by lia. Qed.
Lemma zget_at {A} (d : A) pre x rest i : i = zlen pre -> zget d (pre ++ x :: rest) i = x.
Proof. intros ->. replace (zlen pre) with (zlen pre + 0) by lia. by rewrite zget_app_r by lia. Qed.

Lemma ld16_app_l a b i : 0 <= i -> i + 1 < zlen a -> ld16 (a ++ b) i = ld16 a i.
Proof. intros. unfold ld16. by rewrite !zget_app_l by lia. Qed.
Lemma st16_app_l a b i v : 0 <= i -> i + 1 < zlen a -> st16 (a ++ b) i v = st16 a i v ++ b.
Proof. intros. unfold st16. rewrite zput_app_l by lia. by rewrite zput_app_l by (rewrite zlen_zput; lia). Qed.
Lemma st16_app_r a b i v : 0 <= i -> st16 (a ++ b) (zlen a + i) v = a ++ st16 b i v.
Proof. intros. unfold st16. rewrite zput_app_r by lia. replace (zlen a + i + 1) with (zlen a + (i + 1)) by lia. by rewrite zput_app_r by lia. Qed.
Lemma st16_st16 a i v w : 0 <= i -> i + 1 < zlen a -> st16 (st16 a i v) i w = st16 a i w.
Proof.
  intros. unfold st16, zput, zlen in *. repeat case_match; try lia. set (n := Z.to_nat i). replace (Z.to_nat (i + 1)) with (S n) by lia.
  generalize (v mod 256) ((v / 256) mod 256) (w mod 256) ((w / 256) mod 256). intros v1 v2 w1 w2.
  rewrite (list_insert_insert_ne _ (S n) n w2 w1), list_insert_insert_eq, (list_insert_insert_ne a (S n) n w2 v1), list_insert_insert_eq by lia.
  by rewrite (list_insert_insert_ne a (S n) n w2 w1) by lia.
Qed.
Lemma st16_ld16 a i : 0 <= i -> i + 1 < zlen a -> Forall is_byte a -> st16 a i (ld16 a i) = a.
Proof.
  intros Hi Hl Hb. unfold st16, ld16. pose proof (zget_byte a i Hb) as B1. pose proof (zget_byte a (i + 1) Hb) as B2. unfold is_byte in *.
  replace ((zget 0 a i + 256 * zget 0 a (i + 1)) mod 256) with (zget 0 a i) by zdiv.
  replace (((zget 0 a i + 256 * zget 0 a (i + 1)) / 256) mod 256) with (zget 0 a (i + 1)) by zdiv.
  assert (forall j, 0 <= j < zlen a -> zput a j (zget 0 a j) = a) as Hput.
  { intros j Hj. pose proof (zget_lookup 0 a j Hj) as Hg. unfold zput. case_match; [done|]. by apply list_insert_id. }
  rewrite (Hput i) by lia. apply Hput. lia.
Qed.

Lemma le_val_app a b : le_val (a ++ b) = le_val a + 256 ^ zlen a * le_val b.
Proof.
  induction a as [|x a IH]; [cbn; destruct (le_val b); reflexivity|]. rewrite zlen_cons, Z.pow_add_r by auto with lia. cbn [app le_val]. rewrite IH. ring.
Qed.
Lemma pow_cancel n x y : 256 ^ zlen (n : list Z) * x ≡₁ 256 ^ zlen n * y -> x ≡₁ y.
Proof.
  intros Hx. assert (forall z, 256 ^ zlen n * (256 ^ zlen n * z) ≡₁ z) as Hz.
  { intros z. unfold zlen. rewrite pow_weight. unfold weight. destruct (Z.even _); [exists 0; ring|exists z; ring]. }
  rewrite <- (Hz x), <- (Hz y), Hx. reflexivity.
Qed.
(** A change inside a part of a block shows in the part alone. *)
Lemma le_val_part pre s s' post : zlen s = zlen s' -> le_val (pre ++ s ++ post) ≡₁ le_val (pre ++ s' ++ post) -> le_val s ≡₁ le_val s'.
Proof.
  intros Hl. rewrite !le_val_app, Hl. intros [k Hk]. apply (pow_cancel pre). exists k. lia.
Qed.

(** ** Rewriting a packet *)

(** [b'] is [b] with the bytes [c] in the place of its packet. *)
Definition rewritten (b b' : buffer) (c : list Z) : Prop :=
  exists pre post, zlen pre = b_offset b /\ zlen c = b_len b /\ b_data b = Some (pre ++ buf_contents b ++ post) /\
    b' = b <| b_data := Some (pre ++ c ++ post) |>.

Lemma live_split b : buf_live b -> exists pre post, zlen pre = b_offset b /\ b_data b = Some (pre ++ buf_contents b ++ post).
Proof.
  intros Hb. destruct (buf_live_data b Hb) as (d & Hd & Hl & _). assert (Hw := Hb). destruct Hw as [[] _].
  exists (take (Z.to_nat (b_offset b)) d), (drop (Z.to_nat (b_offset b) + Z.to_nat (b_len b)) d). rewrite (buf_contents_live b d), Hd by done. split.
  - unfold zlen in *. rewrite length_take. lia.
  - f_equal. unfold mem_read. by rewrite <- drop_drop, take_drop, take_drop.
Qed.

Lemma rewritten_same b : buf_live b -> rewritten b b (buf_contents b).
Proof.
  intros Hb. destruct (live_split b Hb) as (pre & post & Hp & Hd). exists pre, post. rewrite buf_contents_length by done. split; [done|].
  split; [done|]. split; [done|]. rewrite <- Hd. by destruct b.
Qed.

Lemma rewritten_live b b' c : buf_live b -> rewritten b b' c -> Forall is_byte c -> buf_live b' /\ buf_contents b' = c.
Proof.
  intros Hb (pre & post & Hp & Hc & Hd & ->) Hbytes. destruct (buf_live_data b Hb) as (d & Hd' & Hl & Hf). rewrite Hd in Hd'. injection Hd' as <-.
  rewrite !Forall_app in Hf. rewrite !zlen_app, buf_contents_length in Hl by done. assert (Hw := Hb). destruct Hw as [[] _].
  assert (buf_live (b <| b_data := Some (pre ++ c ++ post) |>)) as Hlive.
  { apply (buf_live_intro _ (pre ++ c ++ post)); cbn; try done; try lia; [rewrite !zlen_app; lia|]. rewrite !Forall_app. by destruct Hf as (? & _ & ?). }
  split; [done|]. erewrite buf_contents_live by done. cbn. unfold mem_read. rewrite <- Hp, <- Hc. unfold zlen. rewrite !Nat2Z.id.
  by rewrite drop_app_length, take_app_length.
Qed.

Lemma rewritten_trans b b1 b2 c1 c2 : buf_live b -> Forall is_byte c1 -> rewritten b b1 c1 -> rewritten b1 b2 c2 -> rewritten b b2 c2.
Proof.
  intros Hb Hc1 H1 (pre2 & post2 & P1 & P2 & P3 & ->). destruct (rewritten_live b b1 c1 Hb H1 Hc1) as [_ Hcon].
  destruct H1 as (pre & post & Q1 & Q2 & Q3 & ->). cbn in *. injection P3 as P3. rewrite Hcon in P3.
  assert (pre = pre2 /\ post = post2) as [-> ->].
  { apply app_inj_1 in P3 as [-> P3]; [|unfold zlen in *; lia]. by apply app_inv_head in P3 as ->. }
  by exists pre2, post2.
Qed.

(** A view of the packet behind [h] bytes, rewritten, rewrites the packet. *)
Lemma advance_live b h : buf_live b -> 0 <= h <= b_len b -> exists nb, buf_advance b h = (true, nb) /\ buf_live nb /\
  buf_contents nb = drop (Z.to_nat h) (buf_contents b) /\ nb = b <| b_offset := b_offset b + h |> <| b_len := b_len b - h |>.
Proof.
  intros Hb Hh. destruct (live_split b Hb) as (pre & post & Hp & Hd). assert (Hw := Hb). destruct Hw as [W _]. destruct W.
  unfold buf_advance. rewrite buf_live_valid by done. destruct (Z.ltb_spec h 0), (Z.ltb_spec (b_len b) h); try lia. cbn [negb orb].
  eexists. split; [reflexivity|]. set (nb := b <| b_offset := b_offset b + h |> <| b_len := b_len b - h |>).
  destruct (buf_live_data b Hb) as (d & Hd' & Hl & Hf).
  assert (buf_live nb) as Hn by (apply (buf_live_intro nb d); cbn; try done; lia). split; [exact Hn|]. split; [|done].
  rewrite (buf_contents_live nb d Hn Hd'), (buf_contents_live b d Hb Hd'). cbn. unfold mem_read.
  rewrite skipn_firstn_comm, drop_drop. f_equal; [lia|]. f_equal. lia.
Qed.

Lemma rewritten_view b nb nb' h c : buf_live b -> 0 <= h <= b_len b -> nb = b <| b_offset := b_offset b + h |> <| b_len := b_len b - h |> ->
  buf_contents nb = drop (Z.to_nat h) (buf_contents b) -> rewritten nb nb' c ->
  rewritten b (b <| b_data := b_data nb' |>) (take (Z.to_nat h) (buf_contents b) ++ c).
Proof.
  intros Hb Hh -> Hc (pre & post & P1 & P2 & P3 & ->). cbn in *. destruct (live_split b Hb) as (pre0 & post0 & Hp & Hd). rewrite Hc, Hd in P3.
  pose proof (buf_contents_length b Hb) as Hl. injection P3 as P3.
  assert (pre = pre0 ++ take (Z.to_nat h) (buf_contents b) /\ post = post0) as [-> ->].
  { rewrite <- (take_drop (Z.to_nat h) (buf_contents b)) in P3 at 1. rewrite <- app_assoc, app_assoc in P3. apply app_inj_1 in P3 as [<- P3].
    - by apply app_inv_head in P3 as ->.
    - rewrite length_app, length_take. unfold zlen in *. lia. }
  exists pre0, post0. split; [done|]. split; [rewrite zlen_app, P2; unfold zlen in *; rewrite length_take; lia|]. split; [done|]. by rewrite <- !app_assoc.
Qed.

(** A field of a part of a block. *)
Section Part.
Context (pre c post : list Z).
Lemma zget_part i : 0 <= i < zlen c -> zget 0 (pre ++ c ++ post) (zlen pre + i) = zget 0 c i.
Proof. intros. rewrite zget_app_r by lia. by apply zget_app_l. Qed.
Lemma ld16_part i : 0 <= i -> i + 1 < zlen c -> ld16 (pre ++ c ++ post) (zlen pre + i) = ld16 c i.
Proof. intros. unfold ld16. rewrite <- Z.add_assoc. by rewrite !zget_part by lia. Qed.
Lemma ld32_part i : 0 <= i -> i + 3 < zlen c -> ld32 (pre ++ c ++ post) (zlen pre + i) = ld32 c i.
Proof. intros. unfold ld32. rewrite <- Z.add_assoc. by rewrite !ld16_part by lia. Qed.
End Part.
Lemma st16_part pre c post i v : 0 <= i -> i + 1 < zlen c -> st16 (pre ++ c ++ post) (zlen pre + i) v = pre ++ st16 c i v ++ post.
Proof. intros. rewrite st16_app_r by lia. by rewrite st16_app_l by lia. Qed.
Lemma st32_part pre c post i v : 0 <= i -> i + 3 < zlen c -> st32 (pre ++ c ++ post) (zlen pre + i) v = pre ++ st32 c i v ++ post.
Proof. intros. unfold st32. rewrite st16_part by lia. rewrite <- Z.add_assoc. by rewrite st16_part by (rewrite ?zlen_st16; lia). Qed.

Lemma ld16_st16_ne d i j v : 0 <= i -> (j + 1 < i \/ i + 1 < j) -> ld16 (st16 d i v) j = ld16 d j.
Proof. intros. unfold ld16. by rewrite !zget_st16_ne by lia. Qed.
Lemma ld32_st16_ne d i j v : 0 <= i -> (j + 3 < i \/ i + 1 < j) -> ld32 (st16 d i v) j = ld32 d j.
Proof. intros. unfold ld32. by rewrite !ld16_st16_ne by lia. Qed.
Lemma ld32_st32_ne d i j v : 0 <= i -> (j + 3 < i \/ i + 3 < j) -> ld32 (st32 d i v) j = ld32 d j.
Proof. intros. unfold st32. by rewrite !ld32_st16_ne by lia. Qed.
Lemma st16_comm d i j v w : 0 <= i -> 0 <= j -> (i + 1 < j \/ j + 1 < i) -> st16 (st16 d i v) j w = st16 (st16 d j w) i v.
Proof.
  intros. unfold st16, zput. repeat case_match; try lia. generalize (v mod 256) ((v / 256) mod 256) (w mod 256) ((w / 256) mod 256). intros v1 v2 w1 w2.
  rewrite (list_insert_insert_ne _ (Z.to_nat j) (Z.to_nat (i + 1))), (list_insert_insert_ne _ (Z.to_nat j) (Z.to_nat i)) by lia.
  rewrite (list_insert_insert_ne _ (Z.to_nat (j + 1)) (Z.to_nat (i + 1))), (list_insert_insert_ne _ (Z.to_nat (j + 1)) (Z.to_nat i)) by lia. done.
Qed.
Lemma st32_st32 d i v w : 0 <= i -> i + 3 < zlen d -> st32 (st32 d i v) i w = st32 d i w.
Proof.
  intros. unfold st32. rewrite (st16_comm _ (i + 2) i) by lia. by rewrite !st16_st16 by (rewrite ?zlen_st16; lia).
Qed.
Lemma st32_comm d i j v w : 0 <= i -> 0 <= j -> (i + 3 < j \/ j + 3 < i) -> st32 (st32 d i v) j w = st32 (st32 d j w) i v.
Proof.
  intros. unfold st32. rewrite (st16_comm _ (i + 2) j), (st16_comm _ i j), (st16_comm _ (i + 2) (j + 2)), (st16_comm _ i (j + 2)) by lia. done.
Qed.
Lemma st32_ld32 d i : 0 <= i -> i + 3 < zlen d -> Forall is_byte d -> st32 d i (ld32 d i) = d.
Proof.
  intros Hi Hl Hd. pose proof (ld16_range d i Hd). pose proof (ld16_range d (i + 2) Hd). unfold st32, ld32.
  replace ((ld16 d i + 65536 * ld16 d (i + 2)) mod 65536) with (ld16 d i) by zdiv. rewrite st16_ld16 by (done || lia).
  replace (((ld16 d i + 65536 * ld16 d (i + 2)) / 65536) mod 65536) with (ld16 d (i + 2)) by zdiv. by rewrite st16_ld16 by (done || lia).
Qed.

Lemma mem_read_st16_out d i v p n : 0 <= i -> 0 <= p -> (i + 1 < p \/ p + n <= i) -> mem_read (st16 d i v) p n = mem_read d p n.
Proof.
  intros. destruct (Z.le_gt_cases n 0) as [Hn|Hn]; [unfold mem_read; by replace (Z.to_nat n) with 0%nat by lia|].
  unfold st16, zput, mem_read. repeat case_match; try lia; destruct (decide (i + 1 < p)).
  - by rewrite !drop_insert_lt by lia.
  - rewrite !drop_insert_ge by lia. by rewrite !take_insert_ge by lia.
Qed.

(** Lowering a 16-bit field by [acc] at an even place. *)
Lemma le_val_adjust d i acc : 0 <= i -> i + 1 < zlen d -> Z.even i = true -> Forall is_byte d -> Z.abs acc < 2 ^ 30 ->
  le_val (st16 d i (ADJUST_CHECKSUM acc (ld16 d i))) ≡₁ le_val d + acc.
Proof.
  intros Hi Hl He Hd Ha. pose proof (ld16_range d i Hd). rewrite le_val_st16 by (done || lia || apply adjust_checksum_range).
  rewrite adjust_checksum_eq by lia. unfold weight. rewrite He. exists 0. ring.
Qed.

(** Copying into and out of a part. *)
Lemma mem_read_at {A} (pre c post : list A) p n : p = zlen pre -> n = zlen c -> mem_read (pre ++ c ++ post) p n = c.
Proof. intros -> ->. unfold mem_read, zlen. rewrite !Nat2Z.id, drop_app_length. apply take_app_length. Qed.
Lemma mem_write_at {A} (pre c c' post : list A) p : p = zlen pre -> zlen c' = zlen c -> mem_write (pre ++ c ++ post) p c' = pre ++ c' ++ post.
Proof.
  intros -> Hl. unfold mem_write, zlen in *. rewrite Nat2Z.id, take_app_length. do 2 f_equal. rewrite app_assoc. apply drop_app_length'. rewrite length_app. lia.
Qed.

Lemma mem_read_part (pre c post : list Z) i n : 0 <= i -> 0 <= n -> i + n <= zlen c -> mem_read (pre ++ c ++ post) (zlen pre + i) n = mem_read c i n.
Proof.
  intros. unfold mem_read, zlen in *. replace (Z.to_nat (Z.of_nat (length pre) + i)) with (length pre + Z.to_nat i)%nat by lia.
  rewrite <- drop_drop, drop_app_length, drop_app_le by lia. rewrite take_app_le; [done|]. rewrite length_drop. lia.
Qed.

Lemma htons_range v : 0 <= htons v < 65536.
Proof. unfold htons, ntohs. zdiv. Qed.
Lemma htons_sum v : 0 <= v < 65536 -> 256 * htons v ≡₁ v.
Proof. intros. exists (v mod 256). unfold htons, ntohs. zdiv. Qed.

(** Writing a checksum (in network order) into a zero field at an even place. *)
Lemma sum_words_store d i ck : 0 <= i -> i + 1 < zlen d -> Z.even i = true -> Forall is_byte d -> ld16 d i = 0 -> 0 <= ck < 65536 ->
  sum_words (st16 d i (htons ck)) ≡₁ sum_words d + ck.
Proof.
  intros Hi Hl He Hd Hz Hck. rewrite !sum_words_val by auto with ovpn. rewrite le_val_st16 by (done || apply htons_range). unfold weight. rewrite He, Hz.
  rewrite <- (htons_sum ck Hck) at 2. exists 0. ring.
Qed.
