(* ===== verification/Mss.v ===== *)
(** The size of TCP segments ([src/openvpn/mss.c]): the option of a SYN packet that
    announces it is lowered, and the checksum of the packet adjusted. *)
From stdpp Require Import list.
From S2P Require Import Prelude Integer Buffer Proto.

(** ** The code *)

(** The loop over the options: [check] is the index of the checksum, [opt] that of
    the next option, [olen] the length left. *)
Fixpoint mss_options (fuel : nat) (d : list Z) (check opt olen maxmss : Z) : option (list Z) :=
  match fuel with
  | O => None
  | S fuel =>
      if olen <=? 1 then Some d
      else if zget 0 d opt =? OPENVPN_TCPOPT_EOL then Some d
      else if zget 0 d opt =? OPENVPN_TCPOPT_NOP then mss_options fuel d check (opt + 1) (olen - 1) maxmss
      else
        let optlen := zget 0 d (opt + 1) in
        if (optlen <=? 0) || (olen <? optlen) then Some d
        else
          let d :=
            if (zget 0 d opt =? OPENVPN_TCPOPT_MAXSEG) && (optlen =? OPENVPN_TCPOLEN_MAXSEG) then
              let mssval := Z.shiftl (zget 0 d (opt + 2)) 8 + zget 0 d (opt + 3) in
              if maxmss <? mssval then
                let accumulate := htons mssval in
                let d := zput d (opt + 2) (Z.land (Z.shiftr maxmss 8) 255) in
                let d := zput d (opt + 3) (Z.land maxmss 255) in
                let accumulate := accumulate - htons maxmss in
                st16 d check (ADJUST_CHECKSUM accumulate (ld16 d check))
              else d
            else d in
          mss_options fuel d check (opt + optlen) (olen - optlen) maxmss
  end.

(** [maxmss] is a [uint16_t]. *)
Definition mss_fixup_dowork (buf : buffer) (maxmss : Z) : option buffer :=
  if buf_len buf <? sizeof_tcphdr then Some buf
  else
    p ← buf_bptr buf;
    d ← b_data buf;
    let hlen := OPENVPN_TCPH_GET_DOFF (zget 0 d (p + 12)) in
    if (hlen <=? sizeof_tcphdr) || (buf_len buf <? hlen) then Some buf
    else
      d ← mss_options (Z.to_nat hlen) d (p + 16) (p + sizeof_tcphdr) (hlen - sizeof_tcphdr) maxmss;
      Some (buf <| b_data := Some d |>).

(** The TCP segment behind [off] bytes of the packet. *)
Definition mss_fixup_tcp (buf : buffer) (off maxmss : Z) : option buffer :=
  let '(ok, newbuf) := buf_advance buf off in
  if (ok : bool) && (sizeof_tcphdr <=? buf_len newbuf) then
    p ← buf_bptr newbuf;
    if negb (Z.land (buf_peek newbuf (p + 13)) OPENVPN_TCPH_SYN_MASK =? 0) then
      newbuf ← mss_fixup_dowork newbuf maxmss;
      Some (buf <| b_data := b_data newbuf |>)
    else Some buf
  else Some buf.

Definition mss_fixup_ipv4 (buf : buffer) (maxmss : Z) : option buffer :=
  if buf_len buf <? sizeof_iphdr then Some buf
  else
    p ← buf_bptr buf;
    d ← b_data buf;
    let hlen := OPENVPN_IPH_GET_LEN (zget 0 d p) in
    if (zget 0 d (p + 9) =? OPENVPN_IPPROTO_TCP)
       && (ntohs (ld16 d (p + 2)) =? buf_len buf)
       && (Z.land (ntohs (ld16 d (p + 6))) OPENVPN_IP_OFFMASK =? 0)
       && (hlen <=? buf_len buf)
       && (sizeof_tcphdr <=? buf_len buf - hlen)
    then mss_fixup_tcp buf hlen (u16 maxmss)
    else Some buf.

Definition mss_fixup_ipv6 (buf : buffer) (maxmss : Z) : option buffer :=
  if buf_len buf <? sizeof_ipv6hdr then Some buf
  else
    p ← buf_bptr buf;
    d ← b_data buf;
    if negb (buf_len buf =? ntohs (ld16 d (p + 4)) + 40) then Some buf
    else if negb (zget 0 d (p + 6) =? OPENVPN_IPPROTO_TCP) then Some buf
    else mss_fixup_tcp buf 40 (u16 (u16 maxmss - 20)).

(** ** The options of a segment *)

Inductive tcp_opt := TNop | TMss (v : Z) | TOther (bytes : list Z).

(** The option of length [n] at the front. *)
Definition option_at (n : Z) (bs : list Z) : tcp_opt :=
  match bs with
  | k :: _ :: a :: b :: _ =>
      if (k =? OPENVPN_TCPOPT_MAXSEG) && (n =? OPENVPN_TCPOLEN_MAXSEG) then TMss (256 * a + b) else TOther (take (Z.to_nat n) bs)
  | _ => TOther (take (Z.to_nat n) bs)
  end.
Definition cons_option (o : tcp_opt) (r : list tcp_opt * list Z) : list tcp_opt * list Z := (o :: r.1, r.2).

(** The options, and what is left behind the end mark or a bad length. *)
Fixpoint parse_options (fuel : nat) (bs : list Z) : list tcp_opt * list Z :=
  match fuel, bs with
  | S fuel, k :: (n :: _) as r =>
      if k =? OPENVPN_TCPOPT_EOL then ([], bs)
      else if k =? OPENVPN_TCPOPT_NOP then cons_option TNop (parse_options fuel r)
      else if (n <=? 0) || (zlen bs <? n) then ([], bs)
      else cons_option (option_at n bs) (parse_options fuel (drop (Z.to_nat n) bs))
  | _, _ => ([], bs)
  end.
Definition tcp_options (bs : list Z) : list tcp_opt * list Z := parse_options (length bs) bs.

Definition print_option (o : tcp_opt) : list Z :=
  match o with
  | TNop => [OPENVPN_TCPOPT_NOP]
  | TMss v => [OPENVPN_TCPOPT_MAXSEG; OPENVPN_TCPOLEN_MAXSEG; v / 256; v mod 256]
  | TOther bs => bs
  end.
Definition print_options (os : list tcp_opt * list Z) : list Z := concat (map print_option os.1) ++ os.2.

Definition clamp_option (m : Z) (o : tcp_opt) : tcp_opt := match o with TMss v => TMss (Z.min v m) | _ => o end.

(** What becomes of the bytes of the options. *)
Definition clamp_options (m : Z) (bs : list Z) : list Z :=
  print_options (map (clamp_option m) (tcp_options bs).1, (tcp_options bs).2).

(** Every option that is lowered starts at an even distance from the checksum. *)
Fixpoint mss_aligned (m off : Z) (os : list tcp_opt) : Prop :=
  match os with
  | [] => True
  | o :: os => (if o is TMss v then v <= m \/ Z.even off = true else True) /\ mss_aligned m (off + zlen (print_option o)) os
  end.

Lemma parse_options_fuel f1 f2 bs : (length bs <= f1)%nat -> (length bs <= f2)%nat -> parse_options f1 bs = parse_options f2 bs.
Proof.
  revert f2 bs. induction f1 as [|f1 IH]; intros [|f2] bs H1 H2; [done|destruct bs as [|? []]; cbn in *; done || lia|destruct bs as [|? []]; cbn in *; done || lia|].
  destruct bs as [|k [|n rest]]; [done|done|]. cbn [parse_options]. destruct (k =? _); [done|]. destruct (k =? _); [by rewrite (IH f2) by (cbn in *; lia)|].
  destruct (Z.leb_spec n 0); [done|]. cbn [orb]. destruct (_ <? n); [done|]. by rewrite (IH f2) by (rewrite length_drop; cbn in *; lia).
Qed.

Lemma tcp_options_step k n rest : let bs := k :: n :: rest in
  tcp_options bs =
    if k =? OPENVPN_TCPOPT_EOL then ([], bs)
    else if k =? OPENVPN_TCPOPT_NOP then cons_option TNop (tcp_options (n :: rest))
    else if (n <=? 0) || (zlen bs <? n) then ([], bs)
    else cons_option (option_at n bs) (tcp_options (drop (Z.to_nat n) bs)).
Proof.
  unfold tcp_options. cbn [length parse_options]. destruct (k =? _); [done|]. destruct (k =? _); [done|].
  destruct (Z.leb_spec n 0); [done|]. cbn [orb]. destruct (_ <? n); [done|]. f_equal.
  apply (parse_options_fuel (S (length rest))); rewrite length_drop; cbn; lia.
Qed.

(** An option is the bytes it was read from. *)
Lemma print_option_at n k rest : Forall is_byte (k :: n :: rest) -> 0 < n <= zlen (k :: n :: rest) ->
  print_option (option_at n (k :: n :: rest)) = take (Z.to_nat n) (k :: n :: rest).
Proof.
  intros Hb Hn. unfold option_at. destruct rest as [|a [|b rest]]; [done|done|]. destruct (_ && _) eqn:E; [|done].
  apply andb_true_iff in E as [->%Z.eqb_eq ->%Z.eqb_eq]. rewrite !Forall_cons in Hb. destruct Hb as (_ & _ & Ha & Hb & _). unfold is_byte in *.
  cbn [print_option]. replace ((256 * a + b) / 256) with a by zdiv. by replace ((256 * a + b) mod 256) with b by zdiv.
Qed.

(** What the options are: the end, or an option and more of them. *)
Lemma tcp_options_cases bs : Forall is_byte bs ->
  (tcp_options bs = ([], bs)) \/
  (exists rest, bs = OPENVPN_TCPOPT_NOP :: rest /\ rest <> [] /\ tcp_options bs = cons_option TNop (tcp_options rest)) \/
  (exists k n tl o rest, bs = k :: n :: tl /\ k <> OPENVPN_TCPOPT_EOL /\ k <> OPENVPN_TCPOPT_NOP /\ 0 < n <= zlen bs /\
     o = option_at n bs /\ bs = print_option o ++ rest /\ zlen (print_option o) = n /\
     tcp_options bs = cons_option o (tcp_options rest)).
Proof.
  intros Hb. destruct bs as [|k [|n rest]]; [by left|by left|]. pose proof (tcp_options_step k n rest) as Hs. cbn zeta in Hs.
  destruct (Z.eqb_spec k OPENVPN_TCPOPT_EOL); [by left|]. destruct (Z.eqb_spec k OPENVPN_TCPOPT_NOP) as [->|]; [right; left; by eexists|].
  destruct (_ || _) eqn:E; [by left|]. apply orb_false_iff in E as [E1%Z.leb_gt E2%Z.ltb_ge]. right; right.
  exists k, n, rest, (option_at n (k :: n :: rest)), (drop (Z.to_nat n) (k :: n :: rest)). rewrite print_option_at, take_drop by (done || lia). repeat split; try done. unfold zlen in *. rewrite length_take. lia.
Qed.

(** One option that is lowered. *)
Lemma lower_option pre a b tl c m :
  0 <= c -> c + 1 < zlen pre -> Forall is_byte (pre ++ [OPENVPN_TCPOPT_MAXSEG; OPENVPN_TCPOLEN_MAXSEG; a; b] ++ tl) -> 0 <= m < 65536 ->
  let d1 := pre ++ [OPENVPN_TCPOPT_MAXSEG; OPENVPN_TCPOLEN_MAXSEG; a; b] ++ tl in
  let d2 := zput (zput d1 (zlen pre + 2) (Z.land (Z.shiftr m 8) 255)) (zlen pre + 3) (Z.land m 255) in
  let ck := ADJUST_CHECKSUM (htons (Z.shiftl a 8 + b) - htons m) (ld16 d2 c) in
  st16 d2 c ck = st16 pre c ck ++ [OPENVPN_TCPOPT_MAXSEG; OPENVPN_TCPOLEN_MAXSEG; m / 256; m mod 256] ++ tl /\
  (Z.even (zlen pre - c) = true -> le_val (st16 d2 c ck) ≡₁ le_val d1).
Proof.
  intros Hc Hcp Hb Hm. cbn zeta. set (d1 := pre ++ _). assert (Z.land (Z.shiftr m 8) 255 = m / 256) as ->.
  { change 255 with (Z.ones 8). rewrite Z.land_ones, Z.shiftr_div_pow2 by lia. zdiv. }
  assert (Z.land m 255 = m mod 256) as -> by (change 255 with (Z.ones 8); by rewrite Z.land_ones by lia). rewrite Z.shiftl_mul_pow2 by lia.
  apply Forall_app in Hb as [Hpre Hrest]. assert (is_byte a /\ is_byte b) as [Ha Hbb] by (cbn [app] in Hrest; by rewrite !Forall_cons in Hrest; destruct Hrest as (_ & _ & ? & ? & _)). unfold is_byte in Ha, Hbb.
  assert (zput (zput d1 (zlen pre + 2) (m / 256)) (zlen pre + 3) (m mod 256) = st16 d1 (zlen pre + 2) (htons m)) as ->.
  { unfold st16, htons, ntohs. replace ((256 * (m mod 256) + (m / 256) mod 256) mod 256) with (m / 256) by zdiv.
    replace (((256 * (m mod 256) + (m / 256) mod 256) / 256) mod 256) with (m mod 256) by zdiv. f_equal. lia. }
  assert (ld16 d1 (zlen pre + 2) = htons (a * 2 ^ 8 + b)) as Hold.
  { unfold ld16, d1. replace (zlen pre + 2 + 1) with (zlen pre + 3) by lia. rewrite !zget_app_r by lia. cbn [app].
    change (a + 256 * b = htons (a * 2 ^ 8 + b)). unfold htons, ntohs. zdiv. }
  assert (st16 d1 (zlen pre + 2) (htons m) = pre ++ [OPENVPN_TCPOPT_MAXSEG; OPENVPN_TCPOLEN_MAXSEG; m / 256; m mod 256] ++ tl) as Hd2.
  { unfold st16, d1. rewrite !zput_app_r by lia. replace (zlen pre + 2 + 1) with (zlen pre + 3) by lia. rewrite zput_app_r by lia. f_equal. cbn [app].
    change ([OPENVPN_TCPOPT_MAXSEG; OPENVPN_TCPOLEN_MAXSEG; htons m mod 256; (htons m / 256) mod 256] ++ tl = [OPENVPN_TCPOPT_MAXSEG; OPENVPN_TCPOLEN_MAXSEG; m / 256; m mod 256] ++ tl).
    assert (htons m mod 256 = m / 256) as -> by (unfold htons, ntohs; zdiv). by assert ((htons m / 256) mod 256 = m mod 256) as -> by (unfold htons, ntohs; zdiv). }
  set (d2 := st16 d1 _ _) in *. set (ck := ADJUST_CHECKSUM _ _). assert (ld16 d2 c = ld16 pre c) as Hck by (rewrite Hd2; by apply ld16_app_l; lia).
  split; [rewrite Hd2; by apply st16_app_l|]. intros He.
  assert (zlen d1 = zlen pre + 4 + zlen tl) as Hl1 by (unfold d1; rewrite !zlen_app; unfold zlen at 2; cbn; lia). pose proof (zlen_nonneg tl).
  pose proof (ld16_range pre c Hpre) as Hrc. assert (0 <= htons m < 65536) as Hrm by (unfold htons, ntohs; zdiv). assert (0 <= htons (a * 2 ^ 8 + b) < 65536) as Hra by (unfold htons, ntohs; zdiv).
  rewrite le_val_st16 by (apply adjust_checksum_range || (unfold d2; rewrite ?zlen_st16; lia)).
  unfold ck. rewrite adjust_checksum_eq by (rewrite Hck; lia). unfold d2 at 1. rewrite le_val_st16 by (unfold d2; rewrite ?zlen_st16; lia). rewrite Hold.
  assert (weight (zlen pre + 2) = weight c) as ->.
  { unfold weight. replace (zlen pre + 2) with ((zlen pre - c) + (c + 2)) by lia. rewrite Z.even_add, He, Z.even_add. cbn. by destruct (Z.even c). }
  exists 0. ring.
Qed.

Lemma parse_print bs : Forall is_byte bs -> print_options (tcp_options bs) = bs.
Proof.
  remember (length bs) as n eqn:Hn. revert bs Hn. induction n as [n IH] using lt_wf_ind. intros bs -> Hb.
  assert (forall o rest, bs = print_option o ++ rest -> (0 < length (print_option o))%nat -> print_options (cons_option o (tcp_options rest)) = bs) as Hmore.
  { intros o rest Hbs Hl. specialize (IH (length rest)). rewrite Hbs, length_app in IH. specialize (IH ltac:(lia) rest eq_refl).
    rewrite Hbs, Forall_app in Hb. specialize (IH (proj2 Hb)). unfold print_options in *. cbn. by rewrite <- app_assoc, IH. }
  destruct (tcp_options_cases bs Hb) as [->|[(rest & -> & _ & ->)|(k & n & tl & o & rest & _ & _ & _ & Hn & _ & Hs & Hz & ->)]]; [done|by apply Hmore; [|cbn; lia]|].
  apply Hmore; [done|]. unfold zlen in *. lia.
Qed.

Definition options_done (fuel : nat) (pre bs post : list Z) (c m : Z) : Prop :=
  exists ck, 0 <= ck < 65536 /\
    let out := st16 pre c ck ++ clamp_options m bs ++ post in
    mss_options fuel (pre ++ bs ++ post) c (zlen pre) (zlen bs) m = Some out /\
    (mss_aligned m (zlen pre - c) (tcp_options bs).1 -> le_val out ≡₁ le_val (pre ++ bs ++ post)).

(** The options end here. *)
Lemma options_end fuel pre bs post c m : 0 <= c -> c + 1 < zlen pre -> Forall is_byte (pre ++ bs ++ post) ->
  tcp_options bs = ([], bs) ->
  mss_options fuel (pre ++ bs ++ post) c (zlen pre) (zlen bs) m = Some (pre ++ bs ++ post) -> options_done fuel pre bs post c m.
Proof.
  intros Hc Hcp Hb Hp Hm. apply Forall_app in Hb as [Hpre Hb]. exists (ld16 pre c). split; [by apply ld16_range|]. cbn zeta.
  assert (clamp_options m bs = bs) as -> by (unfold clamp_options; by rewrite Hp). rewrite st16_ld16 by (done || lia). split; [exact Hm|]. intros _. reflexivity.
Qed.

(** The options go on behind [o]. *)
Lemma options_more fuel pre o rest bs post c m ck1 : 0 <= c -> c + 1 < zlen pre ->
  let pre1 := st16 pre c ck1 ++ print_option (clamp_option m o) in bs = print_option o ++ rest ->
  zlen (print_option (clamp_option m o)) = zlen (print_option o) -> tcp_options bs = cons_option o (tcp_options rest) ->
  mss_options (S fuel) (pre ++ bs ++ post) c (zlen pre) (zlen bs) m = mss_options fuel (pre1 ++ rest ++ post) c (zlen pre1) (zlen rest) m ->
  ((if o is TMss v then v <= m \/ Z.even (zlen pre - c) = true else True) -> le_val (pre1 ++ rest ++ post) ≡₁ le_val (pre ++ bs ++ post)) ->
  options_done fuel pre1 rest post c m -> options_done (S fuel) pre bs post c m.
Proof.
  intros Hc Hcp pre1 Hbs Hz Hp Hs Hv (ck & Hck & Hm & Ha). exists ck. split; [done|]. cbn zeta in *.
  assert (st16 pre1 c ck = st16 pre c ck ++ print_option (clamp_option m o)) as E1.
  { unfold pre1. rewrite st16_app_l by (rewrite ?zlen_st16; lia). by rewrite st16_st16 by lia. }
  assert (clamp_options m bs = print_option (clamp_option m o) ++ clamp_options m rest) as E2.
  { unfold clamp_options, print_options. rewrite Hp. cbn. by rewrite app_assoc. }
  rewrite E1, <- !app_assoc in Hm, Ha. rewrite E2, <- !app_assoc. split; [by rewrite Hs|]. rewrite Hp. cbn [fst cons_option mss_aligned]. intros [A1 A2].
  rewrite Ha; [by apply Hv|]. assert (zlen pre1 - c = zlen pre - c + zlen (print_option o)) as -> by (unfold pre1; rewrite zlen_app, zlen_st16, Hz; lia). exact A2.
Qed.

(** An option that stays. *)
Lemma options_skip fuel pre o rest bs post c m : 0 <= c -> c + 1 < zlen pre -> Forall is_byte pre ->
  bs = print_option o ++ rest ->
  clamp_option m o = o -> tcp_options bs = cons_option o (tcp_options rest) ->
  mss_options (S fuel) (pre ++ bs ++ post) c (zlen pre) (zlen bs) m =
    mss_options fuel (pre ++ bs ++ post) c (zlen pre + zlen (print_option o)) (zlen bs - zlen (print_option o)) m ->
  options_done fuel (pre ++ print_option o) rest post c m -> options_done (S fuel) pre bs post c m.
Proof.
  intros Hc Hcp Hb Hbs Ho Hp Hs Hd. apply (options_more fuel pre o rest bs post c m (ld16 pre c)); rewrite ?Ho, ?(st16_ld16 pre c) by (done || lia); try done.
  - rewrite Hs, Hbs, !zlen_app, <- !app_assoc. do 2 f_equal; lia.
  - intros _. rewrite Hbs, <- !app_assoc. reflexivity.
Qed.

(** One turn of the loop at an option. *)
Lemma mss_options_step fuel pre k n rest post c m : let bs := k :: n :: rest in let d := pre ++ bs ++ post in
  k <> OPENVPN_TCPOPT_EOL -> k <> OPENVPN_TCPOPT_NOP -> 0 < n <= zlen bs ->
  mss_options (S fuel) d c (zlen pre) (zlen bs) m =
    mss_options fuel
      (if (k =? OPENVPN_TCPOPT_MAXSEG) && (n =? OPENVPN_TCPOLEN_MAXSEG) then
         let mssval := Z.shiftl (zget 0 d (zlen pre + 2)) 8 + zget 0 d (zlen pre + 3) in
         if m <? mssval then
           let d := zput d (zlen pre + 2) (Z.land (Z.shiftr m 8) 255) in
           let d := zput d (zlen pre + 3) (Z.land m 255) in
           st16 d c (ADJUST_CHECKSUM (htons mssval - htons m) (ld16 d c))
         else d
       else d) c (zlen pre + n) (zlen bs - n) m.
Proof.
  intros bs d Hk0 Hk1 Hn. assert (zget 0 d (zlen pre) = k) as Hk by by apply zget_at. assert (zget 0 d (zlen pre + 1) = n) as Hn' by by unfold d; rewrite zget_app_r.
  cbn [mss_options]. rewrite Hk, Hn'. destruct (Z.leb_spec (zlen bs) 1) as [Hl|_].
  { unfold bs in Hl. rewrite !zlen_cons in Hl. pose proof (zlen_nonneg rest). lia. }
  destruct (Z.eqb_spec k OPENVPN_TCPOPT_EOL); [done|]. destruct (Z.eqb_spec k OPENVPN_TCPOPT_NOP); [done|].
  destruct (Z.leb_spec n 0), (Z.ltb_spec (zlen bs) n); try lia. reflexivity.
Qed.

(** An option that is lowered. *)
Lemma options_lower fuel pre a b tl post c m : let bs := OPENVPN_TCPOPT_MAXSEG :: OPENVPN_TCPOLEN_MAXSEG :: a :: b :: tl in
  0 <= c -> c + 1 < zlen pre -> Forall is_byte (pre ++ bs ++ post) -> 0 <= m < 65536 -> m < a * 2 ^ 8 + b ->
  (forall pre1, Forall is_byte pre1 -> zlen pre1 = zlen pre + OPENVPN_TCPOLEN_MAXSEG -> options_done fuel pre1 tl post c m) ->
  options_done (S fuel) pre bs post c m.
Proof.
  intros bs Hc Hcp Hb Hm Hlow Hnext. pose proof Hb as [Hpre [Hbs _]%Forall_app]%Forall_app.
  pose proof Hbs as Hbs2. unfold bs in Hbs2. rewrite !Forall_cons in Hbs2. destruct Hbs2 as (_ & _ & Ha & Hbb & _). unfold is_byte in Ha, Hbb.
  assert (zlen bs = 4 + zlen tl) as Hlen by (unfold bs; rewrite !zlen_cons; lia). pose proof (zlen_nonneg tl).
  pose proof (mss_options_step fuel pre OPENVPN_TCPOPT_MAXSEG OPENVPN_TCPOLEN_MAXSEG (a :: b :: tl) post c m) as Hst. cbn zeta in Hst. fold bs in Hst.
  specialize (Hst ltac:(done) ltac:(done) ltac:(unfold OPENVPN_TCPOLEN_MAXSEG; lia)).
  assert (zget 0 (pre ++ bs ++ post) (zlen pre + 2) = a /\ zget 0 (pre ++ bs ++ post) (zlen pre + 3) = b) as [Ga Gb] by (rewrite !zget_app_r by lia; done).
  rewrite Ga, Gb, Z.shiftl_mul_pow2 in Hst by lia. destruct (Z.ltb_spec m (a * 2 ^ 8 + b)); [|lia].
  assert (print_option (TMss (256 * a + b)) = [OPENVPN_TCPOPT_MAXSEG; OPENVPN_TCPOLEN_MAXSEG; a; b]) as Hpo.
  { cbn. replace ((256 * a + b) / 256) with a by zdiv. by replace ((256 * a + b) mod 256) with b by zdiv. }
  pose proof (lower_option pre a b (tl ++ post) c m Hc Hcp Hb Hm) as Hlo. cbn zeta in Hlo. rewrite Z.shiftl_mul_pow2 in Hlo by lia.
  change (pre ++ [OPENVPN_TCPOPT_MAXSEG; OPENVPN_TCPOLEN_MAXSEG; a; b] ++ tl ++ post) with (pre ++ bs ++ post) in Hlo.
  set (d2 := zput (zput _ _ _) _ _) in *. set (ck := ADJUST_CHECKSUM _ _) in *. destruct Hlo as [L1 L2].
  assert (print_option (clamp_option m (TMss (256 * a + b))) = [OPENVPN_TCPOPT_MAXSEG; OPENVPN_TCPOLEN_MAXSEG; m / 256; m mod 256]) as Hcl.
  { cbn. by rewrite Z.min_r by lia. }
  assert (forall x y z w : Z, zlen [x; y; z; w] = OPENVPN_TCPOLEN_MAXSEG) as Hz4 by done.
  apply (options_more fuel pre (TMss (256 * a + b)) tl bs post c m ck); rewrite ?Hcl, ?Hpo; try done.
  - unfold bs. rewrite tcp_options_step. cbn [orb]. destruct (Z.ltb_spec (zlen (OPENVPN_TCPOPT_MAXSEG :: OPENVPN_TCPOLEN_MAXSEG :: a :: b :: tl)) OPENVPN_TCPOLEN_MAXSEG); [|done].
    exfalso. unfold bs in Hlen. unfold OPENVPN_TCPOLEN_MAXSEG in *. lia.
  - rewrite Hst, L1, !zlen_app, zlen_st16, !Hz4, <- !app_assoc. f_equal; unfold OPENVPN_TCPOLEN_MAXSEG; lia.
  - intros [Hle|Hev]; [lia|]. rewrite <- app_assoc, <- L1. by apply L2.
  - apply Hnext; [|by rewrite zlen_app, zlen_st16, Hz4]. apply Forall_app. split; [by apply st16_bytes|].
    rewrite !Forall_cons. unfold is_byte, OPENVPN_TCPOPT_MAXSEG, OPENVPN_TCPOLEN_MAXSEG. repeat split; try done; zdiv.
Qed.

Lemma mss_options_spec fuel pre bs post c m :
  0 <= c -> c + 1 < zlen pre -> (length bs < fuel)%nat -> Forall is_byte (pre ++ bs ++ post) -> 0 <= m < 65536 -> options_done fuel pre bs post c m.
Proof.
  revert pre bs. induction fuel as [|fuel IH]; intros pre bs Hc Hcp Hf Hb Hm; [lia|]. pose proof Hb as [Hpre [Hbs _]%Forall_app]%Forall_app.
  assert (forall pre1 rest, Forall is_byte pre1 -> Forall is_byte rest -> zlen pre <= zlen pre1 -> (length rest < length bs)%nat -> options_done fuel pre1 rest post c m) as Hnext.
  { intros pre1 rest B1 Br Hl1 Hlr. apply IH; try done; [lia|lia|]. rewrite !Forall_app in *. split; [done|]. split; [done|]. apply Hb. }
  destruct (tcp_options_cases bs Hbs) as [He|[(rest & -> & Hr & Ho)|(k & n & tl & o & rest & Hbs' & Hk0 & Hk1 & Hn & Hopt & Hsplit & Hz & Ho)]].
  - apply options_end; try done. destruct bs as [|k [|n rest]]; [done|done|]. pose proof (tcp_options_step k n rest) as Hst. cbn zeta in Hst. rewrite He in Hst.
    assert (zget 0 (pre ++ (k :: n :: rest) ++ post) (zlen pre) = k) as Hk by by apply zget_at.
    assert (zget 0 (pre ++ (k :: n :: rest) ++ post) (zlen pre + 1) = n) as Hn by by rewrite zget_app_r.
    cbn [mss_options]. rewrite Hk, Hn. destruct (_ <=? 1); [done|]. destruct (k =? _); [done|]. destruct (k =? _); [done|]. by destruct (_ || _).
  - apply (options_skip fuel pre TNop rest (OPENVPN_TCPOPT_NOP :: rest)); try done.
    + assert (zget 0 (pre ++ (OPENVPN_TCPOPT_NOP :: rest) ++ post) (zlen pre) = OPENVPN_TCPOPT_NOP) as Hk by by apply zget_at.
      cbn [mss_options]. rewrite Hk. destruct (Z.leb_spec (zlen (OPENVPN_TCPOPT_NOP :: rest)) 1) as [Hl|_]; [|done].
      destruct rest; [done|]. rewrite !zlen_cons in Hl. pose proof (zlen_nonneg rest). lia.
    + apply Hnext; [by apply Forall_app; split; [done|]; apply Forall_cons in Hbs as [? _]; constructor|by apply Forall_cons in Hbs as [_ ?]|rewrite zlen_app; pose proof (zlen_nonneg (print_option TNop)); lia|cbn; lia].
  - pose proof (mss_options_step fuel pre k n tl post c m) as Hst. cbn zeta in Hst. rewrite <- Hbs' in Hst. specialize (Hst Hk0 Hk1 Hn).
    assert (Forall is_byte (print_option o) /\ Forall is_byte rest) as [Bo Br] by (rewrite Hsplit in Hbs; by apply Forall_app in Hbs).
    assert (length rest < length bs)%nat as Hlr by (unfold zlen in Hz; rewrite Hsplit, length_app; lia).
    assert (clamp_option m o = o ->
      mss_options (S fuel) (pre ++ bs ++ post) c (zlen pre) (zlen bs) m = mss_options fuel (pre ++ bs ++ post) c (zlen pre + n) (zlen bs - n) m ->
      options_done (S fuel) pre bs post c m) as Hskip.
    { intros Hcl Hs. apply (options_skip fuel pre o rest); try done; [by rewrite Hz|].
      apply Hnext; [by apply Forall_app|done|rewrite zlen_app; pose proof (zlen_nonneg (print_option o)); lia|done]. }
    destruct ((k =? OPENVPN_TCPOPT_MAXSEG) && (n =? OPENVPN_TCPOLEN_MAXSEG)) eqn:Hmss; cycle 1.
    { apply Hskip; [|exact Hst]. rewrite Hopt, Hbs'. unfold option_at. destruct tl as [|? [|? ?]]; [done|done|]. by rewrite Hmss. }
    pose proof Hmss as [->%Z.eqb_eq ->%Z.eqb_eq]%andb_true_iff. destruct tl as [|a [|b tl]]; [exfalso; pose proof (f_equal zlen Hbs') as Hl; unfold zlen, OPENVPN_TCPOLEN_MAXSEG in *; cbn [length] in Hl; lia..|].
    assert (o = TMss (256 * a + b)) as -> by (by rewrite Hopt, Hbs').
    assert (zget 0 (pre ++ bs ++ post) (zlen pre + 2) = a /\ zget 0 (pre ++ bs ++ post) (zlen pre + 3) = b) as [Ga Gb] by (rewrite Hbs', !zget_app_r by lia; done).
    cbn zeta in Hst. rewrite Ga, Gb in Hst. rewrite Z.shiftl_mul_pow2 in Hst by lia. destruct (Z.ltb_spec m (a * 2 ^ 8 + b)) as [Hlow|Hlow].
    + subst bs. apply options_lower; try done. intros pre1 B1 Hl1. apply Hnext; try done; [|rewrite Hl1; unfold OPENVPN_TCPOLEN_MAXSEG; lia|cbn; lia].
      rewrite !Forall_cons in Hbs. apply Hbs.
    + apply Hskip; [|exact Hst]. cbn. f_equal. lia.
Qed.

Lemma zlen_clamp_options m bs : Forall is_byte bs -> zlen (clamp_options m bs) = zlen bs.
Proof.
  intros Hb. rewrite <- (parse_print bs Hb) at 2. unfold clamp_options, print_options. cbn [fst snd]. rewrite !zlen_app. f_equal.
  generalize (tcp_options bs).1. intros os. induction os as [|o os IH]; [done|]. cbn [map concat]. rewrite !zlen_app, IH. f_equal. by destruct o.
Qed.

(** ** Segments *)

(** The bytes of a segment whose options announce at most [m], with [ck] in the
    place of its checksum; a segment without options stays. *)
Definition segment_options (seg : list Z) : option Z :=
  let hlen := OPENVPN_TCPH_GET_DOFF (zget 0 seg 12) in
  if (sizeof_tcphdr <=? zlen seg) && (sizeof_tcphdr <? hlen) && (hlen <=? zlen seg) then Some (hlen - sizeof_tcphdr) else None.
Definition clamp_segment (m ck : Z) (seg : list Z) : list Z :=
  match segment_options seg with
  | Some n => st16 (mem_read seg 0 20) 16 ck ++ clamp_options m (mem_read seg 20 n) ++ drop (20 + Z.to_nat n) seg
  | None => seg
  end.
(** No option to be lowered starts at an odd place of the segment. *)
Definition segment_aligned (m : Z) (seg : list Z) : Prop :=
  match segment_options seg with
  | Some n => mss_aligned m 20 (tcp_options (mem_read seg 20 n)).1
  | None => True
  end.

Lemma mss_aligned_shift m a b os : Z.even a = Z.even b -> mss_aligned m a os -> mss_aligned m b os.
Proof.
  revert a b. induction os as [|o os IH]; intros a b He; [done|]. cbn [mss_aligned]. intros [A1 A2]. split; [destruct o; try done; by rewrite <- He|].
  eapply IH; [|exact A2]. by rewrite !Z.even_add, He.
Qed.

Lemma segment_split seg n : segment_options seg = Some n -> seg = mem_read seg 0 20 ++ mem_read seg 20 n ++ drop (20 + Z.to_nat n) seg /\
  0 < n /\ zlen (mem_read seg 0 20) = 20 /\ zlen (mem_read seg 20 n) = n.
Proof.
  unfold segment_options. set (hlen := OPENVPN_TCPH_GET_DOFF _). destruct (_ && _ && _) eqn:E; [|done]. intros [= <-]. rewrite !andb_true_iff in E.
  destruct E as [[E1%Z.leb_le E2%Z.ltb_lt] E3%Z.leb_le]. change sizeof_tcphdr with 20 in *. rewrite !mem_read_length by lia.
  split; [|split; [lia|done]]. unfold mem_read. rewrite drop_0. change (Z.to_nat 20) with 20%nat. rewrite <- drop_drop, take_drop. by rewrite take_drop.
Qed.


(** The loop on a segment in its block. *)
Lemma mss_segment_spec fuel pre seg post m n : segment_options seg = Some n -> (Z.to_nat n < fuel)%nat -> Forall is_byte (pre ++ seg ++ post) -> 0 <= m < 65536 ->
  exists ck, 0 <= ck < 65536 /\ zlen (clamp_segment m ck seg) = zlen seg /\
    mss_options fuel (pre ++ seg ++ post) (zlen pre + 16) (zlen pre + 20) n m = Some (pre ++ clamp_segment m ck seg ++ post) /\
    (segment_aligned m seg -> le_val (clamp_segment m ck seg) ≡₁ le_val seg).
Proof.
  intros Hso Hf Hb Hm. destruct (segment_split seg n Hso) as (Hs & Hn & H20 & Hbs). pose proof (zlen_nonneg pre).
  unfold clamp_segment, segment_aligned. rewrite Hso. set (hd := mem_read seg 0 20) in *. set (bs := mem_read seg 20 n) in *. set (tl := drop _ seg) in *.
  assert (pre ++ seg ++ post = (pre ++ hd) ++ bs ++ (tl ++ post)) as Hblk by (rewrite Hs at 1; by rewrite <- !app_assoc).
  assert (zlen (pre ++ hd) = zlen pre + 20) as Hpl by (rewrite zlen_app; lia). pose proof Hb as Hb'. rewrite Hblk in Hb'.
  assert (Forall is_byte bs) as Bbs by (rewrite !Forall_app in Hb'; by destruct Hb' as (_ & ? & _)).
  destruct (mss_options_spec fuel (pre ++ hd) bs (tl ++ post) (zlen pre + 16) m) as (ck & Hck & Hmo & Hval); try done; try lia; [unfold zlen in Hbs; lia|].
  rewrite Hpl, Hbs in Hmo. exists ck. split; [done|].
  assert (zlen (st16 hd 16 ck ++ clamp_options m bs ++ tl) = zlen seg) as Hz by (rewrite Hs at 1; rewrite !zlen_app, zlen_st16, zlen_clamp_options by done; lia).
  split; [exact Hz|].
  assert (st16 (pre ++ hd) (zlen pre + 16) ck ++ clamp_options m bs ++ tl ++ post = pre ++ (st16 hd 16 ck ++ clamp_options m bs ++ tl) ++ post) as Hout
    by (rewrite st16_app_r by lia; by rewrite <- !app_assoc).
  rewrite Hout in Hmo, Hval. split; [by rewrite Hblk|]. intros Ha. apply (le_val_part pre _ _ post Hz). rewrite Hblk. apply Hval.
  eapply mss_aligned_shift; [|exact Ha]. rewrite Hpl. by replace (zlen pre + 20 - (zlen pre + 16)) with 4 by lia.
Qed.

Lemma clamp_segment_bytes m ck seg : Forall is_byte seg -> 0 <= m < 65536 -> Forall is_byte (clamp_segment m ck seg).
Proof.
  intros Hb Hm. unfold clamp_segment. destruct (segment_options seg) as [n|]; [|done]. rewrite !Forall_app. split; [by apply st16_bytes, mem_read_Forall|].
  split; [|by apply Forall_drop]. assert (Forall is_byte (mem_read seg 20 n)) as Hbs by by apply mem_read_Forall. revert Hbs. generalize (mem_read seg 20 n). intros bs Hbs.
  pose proof (parse_print bs Hbs) as Hp. unfold clamp_options, print_options in *. cbn [fst snd]. rewrite <- Hp in Hbs. rewrite Forall_app in *. destruct Hbs as [B1 B2]. split; [|done].
  revert B1. generalize (tcp_options bs).1. clear -Hm. intros os. induction os as [|o os IH]; [done|]. cbn [map concat]. rewrite !Forall_app. intros [B1 B2]. split; [|by apply IH].
  destruct o as [|v|]; try done. cbn [clamp_option print_option] in *. rewrite !Forall_cons in *. destruct B1 as (? & ? & B3 & B4 & _). unfold is_byte in *.
  repeat split; try done; zdiv.
Qed.

Lemma mss_fixup_dowork_spec b m : buf_live b -> 0 <= m < 65536 -> exists b' ck,
  mss_fixup_dowork b m = Some b' /\ 0 <= ck < 65536 /\ rewritten b b' (clamp_segment m ck (buf_contents b)) /\
  (segment_aligned m (buf_contents b) -> le_val (clamp_segment m ck (buf_contents b)) ≡₁ le_val (buf_contents b)).
Proof.
  intros Hb Hm. unfold mss_fixup_dowork. rewrite buf_live_len, buf_live_bptr by done. cbn [mbind option_bind].
  destruct (live_split b Hb) as (pre & post & Hp & Hd). rewrite Hd. cbn [mbind option_bind]. pose proof (rewritten_same b Hb) as Hsame.
  pose proof (buf_contents_length b Hb) as Hlen. set (seg := buf_contents b) in *.
  destruct (segment_options seg) as [n|] eqn:Hso; pose proof Hso as Hcond; unfold segment_options in Hcond; rewrite Hlen in Hcond; change sizeof_tcphdr with 20 in *.
  - destruct (_ && _ && _) eqn:E; [|done]. injection Hcond as Hcond. rewrite !andb_true_iff in E. destruct E as [[E1%Z.leb_le E2%Z.ltb_lt] E3%Z.leb_le].
    destruct (Z.ltb_spec (b_len b) 20); [lia|]. rewrite <- Hp, zget_app_r, zget_app_l by lia. set (hlen := OPENVPN_TCPH_GET_DOFF _) in *.
    destruct (Z.leb_spec hlen 20), (Z.ltb_spec (b_len b) hlen); try lia. cbn [orb]. rewrite Hcond.
    destruct (buf_live_data b Hb) as (d & Hd' & _ & Hf). rewrite Hd in Hd'. injection Hd' as <-.
    destruct (mss_segment_spec (Z.to_nat hlen) pre seg post m n Hso) as (ck & Hck & Hz & Hmo & Hval); try done; [lia|].
    rewrite Hmo. cbn [mbind option_bind]. eexists _, ck. split; [reflexivity|]. split; [done|]. split; [|exact Hval].
    exists pre, post. rewrite Hz. by repeat split.
  - exists b, 0. unfold clamp_segment. rewrite Hso. split; [|split; [lia|]; split; [exact Hsame|intros _; reflexivity]].
    destruct (Z.ltb_spec (b_len b) 20), (Z.leb_spec 20 (b_len b)); try lia; try done. cbn [andb] in Hcond.
    rewrite <- Hp, zget_app_r, zget_app_l by lia. set (hlen := OPENVPN_TCPH_GET_DOFF _) in *.
    destruct (Z.leb_spec hlen 20), (Z.ltb_spec 20 hlen), (Z.ltb_spec (b_len b) hlen), (Z.leb_spec hlen (b_len b)); try lia; done.
Qed.

(** ** Properties *)

(** Where the TCP segment of a whole, unfragmented packet starts, if it is a SYN. *)
Definition syn_segment (v6 : bool) (c : list Z) : option Z :=
  let h := if v6 then 40 else OPENVPN_IPH_GET_LEN (zget 0 c 0) in
  let whole :=
    if v6 then (sizeof_ipv6hdr <=? zlen c) && (zlen c =? ntohs (ld16 c 4) + 40) && (zget 0 c 6 =? OPENVPN_IPPROTO_TCP)
    else (sizeof_iphdr <=? zlen c) && (ntohs (ld16 c 2) =? zlen c) && (zget 0 c 9 =? OPENVPN_IPPROTO_TCP)
         && (Z.land (ntohs (ld16 c 6)) OPENVPN_IP_OFFMASK =? 0) in
  if whole && (h + sizeof_tcphdr <=? zlen c) && negb (Z.land (zget 0 c (h + 13)) OPENVPN_TCPH_SYN_MASK =? 0) then Some h else None.

(** What becomes of a packet whose segment starts at [h]. *)
Definition mss_fixed (m : Z) (h : option Z) (c c' : list Z) : Prop :=
  match h with
  | None => c' = c
  | Some h => exists ck, c' = take (Z.to_nat h) c ++ clamp_segment m ck (drop (Z.to_nat h) c) /\
      (segment_aligned m (drop (Z.to_nat h) c) -> sum_words (clamp_segment m ck (drop (Z.to_nat h) c)) ≡₁ sum_words (drop (Z.to_nat h) c))
  end.

Lemma mss_fixed_bytes m h c c' : Forall is_byte c -> 0 <= m < 65536 -> mss_fixed m h c c' -> Forall is_byte c'.
Proof.
  intros Hc Hm. destruct h as [h|]; [|by intros ->]. intros (ck & -> & _). apply Forall_app. split; [by apply Forall_take|].
  by apply clamp_segment_bytes; [apply Forall_drop|].
Qed.

Section Fixup.
Context (b : buffer) (m : Z).
Context (Hb : buf_live b) (Hm : 0 <= m < 65536).

Definition fixed_up (r : option buffer) (h : option Z) : Prop :=
  exists b' c', r = Some b' /\ rewritten b b' c' /\ mss_fixed m h (buf_contents b) c'.

Lemma fixed_up_same : fixed_up (Some b) None.
Proof. exists b, (buf_contents b). split; [done|]. split; [by apply rewritten_same|done]. Qed.

Lemma mss_fixup_tcp_spec h : 0 <= h <= b_len b ->
  fixed_up (mss_fixup_tcp b h m)
    (if (h + sizeof_tcphdr <=? b_len b) && negb (Z.land (zget 0 (buf_contents b) (h + 13)) OPENVPN_TCPH_SYN_MASK =? 0) then Some h else None).
Proof.
  intros Hh. destruct (advance_live b h Hb Hh) as (nb & Hadv & Hn & Hc & Hnb). unfold mss_fixup_tcp. rewrite Hadv, buf_live_len by done.
  assert (b_len nb = b_len b - h) as -> by by rewrite Hnb. cbn [andb]. destruct (Z.leb_spec sizeof_tcphdr (b_len b - h)), (Z.leb_spec (h + sizeof_tcphdr) (b_len b)); try lia; cycle 1.
  { apply fixed_up_same. }
  rewrite buf_live_bptr by done. cbn [mbind option_bind andb].
  assert (buf_peek nb (b_offset nb + 13) = zget 0 (buf_contents b) (h + 13)) as ->.
  { destruct (live_split b Hb) as (pre & post & Hp & Hd). unfold buf_peek. rewrite Hnb. cbn. rewrite Hd, <- Hp. unfold sizeof_tcphdr in *.
    replace (zlen pre + h + 13) with (zlen pre + (h + 13)) by lia. rewrite zget_app_r by lia. apply zget_app_l. rewrite buf_contents_length by done. lia. }
  destruct (negb _); [|apply fixed_up_same]. destruct (mss_fixup_dowork_spec nb m Hn Hm) as (nb' & ck & -> & Hck & Hrw & Hval). cbn [mbind option_bind].
  rewrite Hc in Hrw, Hval. eexists _, _. split; [done|]. split; [exact (rewritten_view b nb nb' h _ Hb Hh Hnb Hc Hrw)|]. exists ck. split; [done|]. intros Ha.
  assert (Forall is_byte (drop (Z.to_nat h) (buf_contents b))) as Hbytes by (apply Forall_drop, buf_contents_bytes, Hb).
  rewrite !sum_words_val by (done || by apply clamp_segment_bytes). by rewrite Hval.
Qed.
End Fixup.

Lemma mss_fixup_spec (v6 : bool) b maxmss : buf_live b ->
  fixed_up b (if v6 then u16 (u16 maxmss - 20) else u16 maxmss) (if v6 then mss_fixup_ipv6 b maxmss else mss_fixup_ipv4 b maxmss)
    (syn_segment v6 (buf_contents b)).
Proof.
  intros Hb. set (m := if v6 then _ else _). assert (0 <= m < 65536) as Hm by (unfold m; destruct v6; apply (wrap_range 16); lia).
  pose proof (buf_contents_length b Hb) as Hlen. unfold syn_segment. rewrite Hlen. pose proof (fixed_up_same b m Hb) as Hsame.
  destruct (live_split b Hb) as (pre & post & Hp & Hd). pose proof (zlen_nonneg pre).
  assert (forall i, 0 <= i < b_len b -> zget 0 (pre ++ buf_contents b ++ post) (b_offset b + i) = zget 0 (buf_contents b) i) as Hget.
  { intros i Hi. rewrite <- Hp, zget_app_r by lia. apply zget_app_l. lia. }
  assert (forall i, 0 <= i -> i + 1 < b_len b -> ld16 (pre ++ buf_contents b ++ post) (b_offset b + i) = ld16 (buf_contents b) i) as Hld.
  { intros i Hi1 Hi2. unfold ld16. rewrite <- Z.add_assoc. by rewrite !Hget by lia. }
  destruct v6.
  - unfold mss_fixup_ipv6. rewrite buf_live_len by done. change sizeof_ipv6hdr with 40.
    destruct (Z.ltb_spec (b_len b) 40), (Z.leb_spec 40 (b_len b)); try lia; [exact Hsame|]. rewrite buf_live_bptr, Hd by done. cbn [mbind option_bind andb].
    rewrite Hld, Hget by lia. destruct (b_len b =? _); [|exact Hsame]. destruct (zget 0 _ 6 =? _); [|exact Hsame]. cbn [negb andb]. by apply mss_fixup_tcp_spec.
  - unfold mss_fixup_ipv4. rewrite buf_live_len by done. change sizeof_iphdr with 20.
    destruct (Z.ltb_spec (b_len b) 20), (Z.leb_spec 20 (b_len b)); try lia; [exact Hsame|]. rewrite buf_live_bptr, Hd by done. cbn [mbind option_bind andb].
    replace (zget 0 (pre ++ buf_contents b ++ post) (b_offset b)) with (zget 0 (buf_contents b) 0) by (rewrite <- Hget by lia; f_equal; lia).
    rewrite !Hld, Hget by lia. set (h := OPENVPN_IPH_GET_LEN _).
    assert (0 <= h) as Hh by (unfold h, OPENVPN_IPH_GET_LEN; apply Z.shiftl_nonneg, Z.land_nonneg; lia).
    pose proof (fun Hle => mss_fixup_tcp_spec b m Hb Hm h (conj Hh Hle)) as Htcp.
    rewrite (andb_comm (zget _ _ _ =? _)). destruct (ntohs _ =? b_len b); [|exact Hsame]. destruct (zget 0 _ 9 =? _); [|exact Hsame].
    destruct (Z.land (ntohs (ld16 (buf_contents b) 6)) _ =? 0); [|exact Hsame]. cbn [andb]. change sizeof_tcphdr with 20 in *.
    destruct (Z.leb_spec h (b_len b)), (Z.leb_spec 20 (b_len b - h)), (Z.leb_spec (h + 20) (b_len b)); try lia; try exact Hsame. by apply Htcp.
Qed.

(** C21. The announced segment size.  For every packet and limit, [mss_fixup_ipv4] and
    [mss_fixup_ipv6] end without touching memory outside the packet; a whole packet with
    a TCP SYN segment gets the options of the reference definition [clamp_segment]: the
    same options in the same order, each announced size lowered to the limit, and a
    changed checksum field; every other packet stays.  When the lowered options start
    at even places the sum of the segment's words is the same modulo 65535, so that a
    correct checksum stays correct. *)
Theorem mss_option_clamped (v6 : bool) b maxmss : buf_live b ->
  fixed_up b (if v6 then u16 (u16 maxmss - 20) else u16 maxmss) (if v6 then mss_fixup_ipv6 b maxmss else mss_fixup_ipv4 b maxmss)
    (syn_segment v6 (buf_contents b)).
Proof. apply mss_fixup_spec. Qed.

(** ** Examples *)

(** A SYN with the options [opts] (a multiple of four bytes), with correct checksums. *)
Definition toy_syn (opts : list Z) : list Z :=
  let n := 20 + zlen opts in
  let tcp := [0; 80; 4; 0; 0; 0; 0; 1; 0; 0; 0; 0; 16 * (n / 4); 2; 255; 255; 0; 0; 0; 0] ++ opts in
  let ip := [69; 0] ++ be16 (20 + n) ++ [0; 1; 0; 0; 64; 6; 0; 0; 10; 0; 0; 1; 10; 0; 0; 2] in
  match ip_checksum tcp [10; 0; 0; 1] [10; 0; 0; 2] 6 with
  | Some ck => ip ++ take 16 tcp ++ be16 ck ++ drop 18 tcp
  | None => ip
  end.
Definition toy_packet (c : list Z) : buffer := mkbuffer (zlen c) 0 (zlen c) (Some c).
Definition toy_tcp_sum (c : list Z) : Z :=
  (sum_words (drop 20 c) + sum_words (mem_read c 12 8) + (zlen c - 20) + 6) mod 65535.

Lemma toy_syn_live : buf_live (toy_packet (toy_syn [2; 4; 5; 180])).
Proof. apply (buf_live_intro _ (toy_syn [2; 4; 5; 180])); try reflexivity; try (vm_compute; done). repeat constructor; vm_compute; intuition discriminate. Qed.

Lemma mss_option_clamped_witness : exists b', mss_fixup_ipv4 (toy_packet (toy_syn [2; 4; 5; 180])) 1000 = Some b' /\
  drop 40 (buf_contents b') = [2; 4; 3; 232] /\ toy_tcp_sum (buf_contents b') = 0.
Proof.
  destruct (mss_option_clamped false _ 1000 toy_syn_live) as (b' & c' & Hr & _). exists b'. split; [exact Hr|].
  assert (option_map (fun b => (drop 40 (buf_contents b), toy_tcp_sum (buf_contents b))) (mss_fixup_ipv4 (toy_packet (toy_syn [2; 4; 5; 180])) 1000) =
    Some ([2; 4; 3; 232], 0)) as Hv by (vm_compute; reflexivity).
  rewrite Hr in Hv. injection Hv as H1 H2. split; [exact H1|exact H2].
Defined.

(** An option behind a single NOP starts at an odd place; lowering it leaves a wrong
    checksum in a packet that had a correct one. *)
Lemma mss_odd_option_breaks_checksum : let c := toy_syn [1; 2; 4; 5; 180; 1; 1; 1] in
  toy_tcp_sum c = 0 /\ option_map (fun b => toy_tcp_sum (buf_contents b)) (mss_fixup_ipv4 (toy_packet c) 1000) <> Some 0.
Proof. split; [reflexivity|]. vm_compute. discriminate. Qed.
