(* ===== verification/ClientNat.v ===== *)
(** One-to-one address translation on the client ([src/openvpn/clinat.c]): rules that
    map a network onto a foreign one, applied to both addresses of a packet, with the
    checksums adjusted. *)
From Stdlib Require Import String.
From stdpp Require Import list.
From S2P Require Import Prelude Integer Buffer Proto.

(** ** The code *)

Definition MAX_CLIENT_NAT : Z := 64.
Definition CN_OUTGOING : Z := 0.
Definition CN_INCOMING : Z := 1.
Definition CN_SNAT : Z := 0.
Definition CN_DNAT : Z := 1.

Record client_nat_entry := mkcne { cn_type : Z; cn_network : Z; cn_netmask : Z; cn_foreign_network : Z }.

(** The first [n] entries of the array. *)
Definition client_nat_option_list := list client_nat_entry.

Definition add_entry (dest : client_nat_option_list) (e : client_nat_entry) : bool * client_nat_option_list :=
  if MAX_CLIENT_NAT <=? zlen dest then (false, dest) else (true, dest ++ [e]).

Fixpoint copy_client_nat_option_list (dest src : client_nat_option_list) : client_nat_option_list :=
  match src with
  | [] => dest
  | e :: src => let '(ok, dest) := add_entry dest e in if ok : bool then copy_client_nat_option_list dest src else dest
  end.

(** [getaddr] is the resolver, which answers an address in network order or fails. *)
Definition add_client_nat_to_option_list (getaddr : string -> option Z) (dest : client_nat_option_list)
    (type network netmask foreign_network : string) : client_nat_option_list :=
  match (if bool_decide (type = "snat"%string) then Some CN_SNAT else if bool_decide (type = "dnat"%string) then Some CN_DNAT else None),
        getaddr network, getaddr netmask, getaddr foreign_network with
  | Some t, Some n, Some m, Some f => (add_entry dest (mkcne t n m f)).2
  | _, _, _, _ => dest
  end.

(** Offsets of the fields of [struct ip_tcp_udp_hdr]. *)
Definition off_check : Z := 10.
Definition off_saddr : Z := 12.
Definition off_daddr : Z := 16.
Definition off_tcp_check : Z := 36.
Definition off_udp_check : Z := 26.

(** One rule of the loop on the packet at [p]: the block, [accumulate] and [alog]. *)
Definition nat_rule (p direction : Z) (st : list Z * Z * Z) (e : client_nat_entry) : list Z * Z * Z :=
  let '(d, accumulate, alog) := st in
  let other := negb (Z.lxor (cn_type e) direction =? 0) in
  let addr_ptr := p + (if other then off_daddr else off_saddr) in
  let amask := if other then 2 else 1 in
  let addr := ld32 d addr_ptr in
  let from := if negb (direction =? 0) then cn_foreign_network e else cn_network e in
  let to := if negb (direction =? 0) then cn_network e else cn_foreign_network e in
  if (Z.land addr (cn_netmask e) =? from) && (Z.land amask alog =? 0) then
    let accumulate := ADD_CHECKSUM_32 accumulate addr in
    let addr := Z.lor (Z.land addr (u32 (Z.lnot (cn_netmask e)))) to in
    let accumulate := SUB_CHECKSUM_32 accumulate addr in
    (st32 d addr_ptr addr, accumulate, Z.lor alog amask)
  else st.

Definition adjust_at (d : list Z) (p accumulate : Z) : list Z := st16 d p (ADJUST_CHECKSUM accumulate (ld16 d p)).

Definition client_nat_transform (l : client_nat_option_list) (ipbuf : buffer) (direction : Z) : option buffer :=
  p ← buf_bptr ipbuf;
  d ← b_data ipbuf;
  let '(d, accumulate, alog) := fold_left (nat_rule p direction) l (d, 0, 0) in
  if alog =? 0 then Some (ipbuf <| b_data := Some d |>)
  else
    let d := adjust_at d (p + off_check) accumulate in
    let protocol := zget 0 d (p + 9) in
    let d :=
      if protocol =? OPENVPN_IPPROTO_TCP then
        if sizeof_iphdr + sizeof_tcphdr <=? buf_len ipbuf then adjust_at d (p + off_tcp_check) accumulate else d
      else if protocol =? OPENVPN_IPPROTO_UDP then
        if sizeof_iphdr + sizeof_udphdr <=? buf_len ipbuf then adjust_at d (p + off_udp_check) accumulate else d
      else d in
    Some (ipbuf <| b_data := Some d |>).

(** ** Reference *)

(** The address a rule gives, if it applies. *)
Definition nat_address (direction : Z) (e : client_nat_entry) (addr : Z) : option Z :=
  let from := if negb (direction =? 0) then cn_foreign_network e else cn_network e in
  let to := if negb (direction =? 0) then cn_network e else cn_foreign_network e in
  if Z.land addr (cn_netmask e) =? from then Some (Z.lor (Z.land addr (u32 (Z.lnot (cn_netmask e)))) to) else None.

Definition rule_for (direction : Z) (other : bool) (e : client_nat_entry) : bool :=
  Bool.eqb other (negb (Z.lxor (cn_type e) direction =? 0)).

(** The first rule for this address of the packet (the destination when [other]) that
    applies. *)
Fixpoint translate (l : client_nat_option_list) (direction : Z) (other : bool) (addr : Z) : Z :=
  match l with
  | [] => addr
  | e :: l =>
      match (if rule_for direction other e then nat_address direction e addr else None) with
      | Some a => a
      | None => translate l direction other addr
      end
  end.

Definition entry_ok (e : client_nat_entry) : Prop := is_u 32 (cn_network e) /\ is_u 32 (cn_netmask e) /\ is_u 32 (cn_foreign_network e).

Lemma nat_address_range direction e addr a : entry_ok e -> is_u 32 addr -> nat_address direction e addr = Some a -> is_u 32 a.
Proof.
  intros (Hn & Hm & Hf) Ha. unfold nat_address. case_match; [|done]. intros [= <-].
  apply lor_range; [lia|by apply land_range|]. by destruct (negb _).
Qed.

(** ** The loop on the two addresses *)

Section Loop.
Context (direction : Z).

(** [accumulate] and whether each address was changed. *)
Definition nat_state : Type := Z * Z * Z * bool * bool.
Definition nat_step (st : nat_state) (e : client_nat_entry) : nat_state :=
  let '(s, t, acc, bs, bt) := st in
  if negb (Z.lxor (cn_type e) direction =? 0) then
    match nat_address direction e t, bt with
    | Some a, false => (s, a, SUB_CHECKSUM_32 (ADD_CHECKSUM_32 acc t) a, bs, true)
    | _, _ => st
    end
  else
    match nat_address direction e s, bs with
    | Some a, false => (a, t, SUB_CHECKSUM_32 (ADD_CHECKSUM_32 acc s) a, true, bt)
    | _, _ => st
    end.

(** The loop on a packet. *)
Definition nat_packet (c : list Z) (st : nat_state) : list Z * Z * Z :=
  let '(s, t, acc, bs, bt) := st in (st32 (st32 c off_saddr s) off_daddr t, acc, Z.b2z bs + 2 * Z.b2z bt).

Lemma nat_rule_step pre c post st e : 20 <= zlen c -> is_u 32 st.1.1.1.1 -> is_u 32 st.1.1.1.2 ->
  (let '(d, acc, alog) := nat_packet c st in nat_rule (zlen pre) direction (pre ++ d ++ post, acc, alog) e) =
  (let '(d, acc, alog) := nat_packet c (nat_step st e) in (pre ++ d ++ post, acc, alog)).
Proof.
  destruct st as [[[[s t] acc] bs] bt]. cbn [fst snd]. intros Hc Hs Ht. unfold nat_packet, nat_rule, nat_step, nat_address, off_saddr, off_daddr.
  set (d := st32 (st32 c 12 s) 16 t). assert (zlen d = zlen c) as Hd by (unfold d; by rewrite !zlen_st32).
  assert (ld32 d 16 = t) as Ht' by (unfold d; apply ld32_st32; rewrite ?zlen_st32; lia || exact Ht).
  assert (ld32 d 12 = s) as Hs' by (unfold d; rewrite ld32_st32_ne by lia; apply ld32_st32; lia || exact Hs).
  destruct (negb (Z.lxor _ _ =? 0)); cbn match; rewrite ld32_part, ?Ht', ?Hs' by lia.
  - destruct (_ =? _); cbn [andb]; [|done]. destruct bt, bs; cbn; try done; rewrite st32_part by lia; unfold d; by rewrite st32_st32 by (rewrite ?zlen_st32; lia).
  - destruct (_ =? _); cbn [andb]; [|done]. destruct bt, bs; cbn; try done; rewrite st32_part by lia; unfold d;
      (rewrite (st32_comm _ 16 12) by lia; rewrite st32_st32 by lia; done).
Qed.

Lemma nat_step_range st e : entry_ok e -> is_u 32 st.1.1.1.1 -> is_u 32 st.1.1.1.2 -> is_u 32 (nat_step st e).1.1.1.1 /\ is_u 32 (nat_step st e).1.1.1.2.
Proof.
  destruct st as [[[[s t] acc] bs] bt]. cbn. intros He Hs Ht. destruct (negb _).
  - destruct (nat_address direction e t) as [a|] eqn:E; [|done]. destruct bt; [done|]. cbn. split; [done|exact (nat_address_range _ _ _ _ He Ht E)].
  - destruct (nat_address direction e s) as [a|] eqn:E; [|done]. destruct bs; [done|]. cbn. split; [exact (nat_address_range _ _ _ _ He Hs E)|done].
Qed.

Lemma nat_loop pre c post l st : Forall entry_ok l -> 20 <= zlen c -> is_u 32 st.1.1.1.1 -> is_u 32 st.1.1.1.2 ->
  fold_left (nat_rule (zlen pre) direction) l (let '(d, acc, alog) := nat_packet c st in (pre ++ d ++ post, acc, alog)) =
  (let '(d, acc, alog) := nat_packet c (fold_left nat_step l st) in (pre ++ d ++ post, acc, alog)) /\
  is_u 32 (fold_left nat_step l st).1.1.1.1 /\ is_u 32 (fold_left nat_step l st).1.1.1.2.
Proof.
  revert st. induction l as [|e l IH]; intros st Hl Hc Hs Ht; [done|]. apply Forall_cons in Hl as [He Hl]. cbn [fold_left].
  pose proof (nat_rule_step pre c post st e Hc Hs Ht) as Hst. destruct (nat_packet c st) as [[d acc] alog]. rewrite Hst.
  destruct (nat_step_range st e He Hs Ht). by apply IH.
Qed.

(** What the loop computes. *)
Lemma nat_steps l s t acc bs bt : Forall entry_ok l -> is_u 32 s -> is_u 32 t ->
  let '(s', t', acc', bs', bt') := fold_left nat_step l (s, t, acc, bs, bt) in
  s' = (if bs then s else translate l direction false s) /\ t' = (if bt then t else translate l direction true t) /\
  acc' ≡₁ acc + (s - s') + (t - t') /\ (bs = true -> bs' = true) /\ (bt = true -> bt' = true) /\ (bs' = false -> bt' = false -> s' = s /\ t' = t) /\
  Z.abs acc' <= Z.abs acc + 131070 * (Z.b2z bs' - Z.b2z bs + (Z.b2z bt' - Z.b2z bt)).
Proof.
  assert (forall x y r a b, x ≡₁ SUB_CHECKSUM_32 (ADD_CHECKSUM_32 y a) b + r -> x ≡₁ y + a - b + r) as Hacc.
  { intros x y r a b ->. rewrite sub_checksum_eq, add_checksum_eq. reflexivity. }
  assert (forall y a b, is_u 32 a -> is_u 32 b -> Z.abs (SUB_CHECKSUM_32 (ADD_CHECKSUM_32 y a) b) <= Z.abs y + 131070) as Habs.
  { intros y a b Ha Hb. pose proof (checksum_32_range y a Ha). pose proof (checksum_32_range (ADD_CHECKSUM_32 y a) b Hb). lia. }
  revert s t acc bs bt. induction l as [|e l IH]; intros s t acc bs bt Hl Hs Ht.
  { cbn. split; [by destruct bs|]. split; [by destruct bt|]. split; [exists 0; lia|]. repeat split; try done. lia. }
  apply Forall_cons in Hl as [He Hl]. cbn [fold_left translate]. unfold nat_step at 2, rule_for. destruct (negb (Z.lxor _ _ =? 0)) eqn:Eo; cbn [Bool.eqb].
  - destruct (nat_address direction e t) as [a|] eqn:E; [destruct bt|].
    + specialize (IH s t acc bs true Hl Hs Ht). by destruct (fold_left _ _ _) as [[[[? ?] ?] ?] ?].
    + pose proof (nat_address_range _ _ _ _ He Ht E) as Ha. specialize (IH s a (SUB_CHECKSUM_32 (ADD_CHECKSUM_32 acc t) a) bs true Hl Hs Ha).
      destruct (fold_left _ _ _) as [[[[s' t'] acc'] bs'] bt']. destruct IH as (-> & -> & I3 & I4 & I5 & I6 & I7). specialize (I5 eq_refl). subst bt'.
      specialize (Habs acc t a Ht Ha). rewrite <- Z.add_assoc in I3. apply Hacc in I3. split; [done|]. split; [done|].
      split; [rewrite I3; exists 0; lia|]. repeat split; try done. cbn [Z.b2z] in *. lia.
    + specialize (IH s t acc bs bt Hl Hs Ht). by destruct (fold_left _ _ _) as [[[[? ?] ?] ?] ?].
  - destruct (nat_address direction e s) as [a|] eqn:E; [destruct bs|].
    + specialize (IH s t acc true bt Hl Hs Ht). by destruct (fold_left _ _ _) as [[[[? ?] ?] ?] ?].
    + pose proof (nat_address_range _ _ _ _ He Hs E) as Ha. specialize (IH a t (SUB_CHECKSUM_32 (ADD_CHECKSUM_32 acc s) a) true bt Hl Ha Ht).
      destruct (fold_left _ _ _) as [[[[s' t'] acc'] bs'] bt']. destruct IH as (-> & -> & I3 & I4 & I5 & I6 & I7). specialize (I4 eq_refl). subst bs'.
      specialize (Habs acc s a Hs Ha). rewrite <- Z.add_assoc in I3. apply Hacc in I3. split; [done|]. split; [done|].
      split; [rewrite I3; exists 0; lia|]. repeat split; try done. cbn [Z.b2z] in *. lia.
    + specialize (IH s t acc bs bt Hl Hs Ht). by destruct (fold_left _ _ _) as [[[[? ?] ?] ?] ?].
Qed.
End Loop.

(** ** Packets *)

Lemma adjust_at_part pre c post i acc : 0 <= i -> i + 1 < zlen c -> adjust_at (pre ++ c ++ post) (zlen pre + i) acc = pre ++ adjust_at c i acc ++ post.
Proof. intros. unfold adjust_at. rewrite ld16_part by lia. by apply st16_part. Qed.

(** Where the checksum of the payload is. *)
Definition transport_check (c : list Z) : option Z :=
  if (zget 0 c 9 =? OPENVPN_IPPROTO_TCP) && (sizeof_iphdr + sizeof_tcphdr <=? zlen c) then Some off_tcp_check
  else if (zget 0 c 9 =? OPENVPN_IPPROTO_UDP) && (sizeof_iphdr + sizeof_udphdr <=? zlen c) then Some off_udp_check
  else None.

(** The packet with the addresses [s] and [t] and both checksums adjusted. *)
Definition readdressed (c : list Z) (s t acc : Z) : list Z :=
  let d := adjust_at (st32 (st32 c off_saddr s) off_daddr t) off_check acc in
  match transport_check c with Some k => adjust_at d k acc | None => d end.

Lemma transport_check_range c k : transport_check c = Some k -> (k = off_tcp_check \/ k = off_udp_check) /\ k + 1 < zlen c.
Proof.
  unfold transport_check. destruct (_ && _) eqn:E.
  - apply andb_true_iff in E as [_ E%Z.leb_le]. intros [= <-]. unfold off_tcp_check, sizeof_iphdr, sizeof_tcphdr in *. lia.
  - clear E. destruct (_ && _) eqn:E; [|done]. apply andb_true_iff in E as [_ E%Z.leb_le]. intros [= <-]. unfold off_udp_check, sizeof_iphdr, sizeof_udphdr in *. lia.
Qed.

Lemma client_nat_shape l b direction : buf_live b -> 20 <= b_len b -> Forall entry_ok l ->
  let c := buf_contents b in let s := ld32 c off_saddr in let t := ld32 c off_daddr in
  let s' := translate l direction false s in let t' := translate l direction true t in
  exists b' c', client_nat_transform l b direction = Some b' /\ rewritten b b' c' /\ is_u 32 s' /\ is_u 32 t' /\
    ((c' = c /\ s' = s /\ t' = t) \/ exists acc, Z.abs acc < 2 ^ 30 /\ acc ≡₁ (s - s') + (t - t') /\ c' = readdressed c s' t' acc).
Proof.
  intros Hb Hl Hok c s t s' t'. destruct (live_split b Hb) as (pre & post & Hp & Hd). fold c in Hd.
  assert (zlen c = b_len b) as Hlen by by apply buf_contents_length. assert (Forall is_byte c) as Hc by (apply buf_contents_bytes, Hb).
  assert (is_u 32 s /\ is_u 32 t) as [Hs Ht] by (split; by apply ld32_range).
  unfold client_nat_transform. rewrite buf_live_bptr, Hd by done. cbn [mbind option_bind]. rewrite <- Hp.
  pose proof (nat_loop direction pre c post l (s, t, 0, false, false) Hok ltac:(lia) Hs Ht) as (Hloop & Rs & Rt).
  assert (nat_packet c (s, t, 0, false, false) = (c, 0, 0)) as E0.
  { unfold nat_packet, s, t, off_saddr, off_daddr. rewrite (st32_comm _ 12 16), st32_ld32, st32_ld32 by (done || lia). done. }
  rewrite E0 in Hloop. rewrite Hloop. pose proof (nat_steps direction l s t 0 false false Hok Hs Ht) as Hst.
  destruct (fold_left (nat_step direction) l _) as [[[[s1 t1] acc] bs] bt]. cbn [fst snd] in Rs, Rt. destruct Hst as (-> & -> & Hacc & _ & _ & Hsame & Habs).
  fold s' in Rs, Hacc, Hsame |- *. fold t' in Rt, Hacc, Hsame |- *. unfold nat_packet. set (d := st32 (st32 c off_saddr s') off_daddr t'). assert (zlen d = zlen c) as Hzd by (unfold d; by rewrite !zlen_st32).
  destruct (Z.eqb_spec (Z.b2z bs + 2 * Z.b2z bt) 0) as [Hz|_].
  - destruct bs, bt; try (cbn in Hz; lia). destruct (Hsame eq_refl eq_refl) as [E1 E2].
    assert (d = c) as ->. { unfold d. rewrite E1, E2. by injection E0. }
    exists (b <| b_data := Some (pre ++ c ++ post) |>), c. split; [done|]. split; [exists pre, post; by repeat split|]. split; [done|]. split; [done|]. by left.
  - rewrite adjust_at_part by (unfold off_check; lia). set (d1 := adjust_at d off_check acc). assert (zlen d1 = zlen c) as Hz1 by (unfold d1, adjust_at; by rewrite zlen_st16).
    assert (zget 0 (pre ++ d1 ++ post) (zlen pre + 9) = zget 0 c 9) as ->.
    { rewrite zget_part by lia. unfold d1, d, adjust_at, off_check, off_saddr, off_daddr. rewrite zget_st16_ne, !zget_st32_ne by lia. done. }
    assert (buf_len b = zlen c) as -> by by rewrite buf_live_len.
    assert (readdressed c s' t' acc = match transport_check c with Some k => adjust_at d1 k acc | None => d1 end) as Hread by done.
    eexists _, (readdressed c s' t' acc). split; [reflexivity|]. rewrite Hread. unfold transport_check. split; [|split; [done|split; [done|right; exists acc; split; [destruct bs, bt; cbn in Habs; lia|]; by split; [rewrite Hacc; exists 0; lia|]]]].
    exists pre, post. split; [done|]. split; [repeat case_match; unfold adjust_at; rewrite ?zlen_st16; lia|]. split; [done|].
    assert (forall x y, x = y -> b <| b_data := Some x |> = b <| b_data := Some y |>) as Hupd by (by intros ? ? ->). apply Hupd.
    destruct (_ =? OPENVPN_IPPROTO_TCP) eqn:Et; cbn [andb]; [destruct (Z.leb_spec (sizeof_iphdr + sizeof_tcphdr) (zlen c))|].
    + apply adjust_at_part; unfold off_tcp_check, sizeof_iphdr, sizeof_tcphdr in *; lia.
    + apply Z.eqb_eq in Et. by rewrite Et.
    + destruct (_ =? OPENVPN_IPPROTO_UDP); cbn [andb]; [|done]. destruct (Z.leb_spec (sizeof_iphdr + sizeof_udphdr) (zlen c)); [|done].
      apply adjust_at_part; unfold off_udp_check, sizeof_iphdr, sizeof_udphdr in *; lia.
Qed.

(** What the translation does to the bytes of a packet. *)
Record translated (l : client_nat_option_list) (direction : Z) (c c' : list Z) : Prop := mktranslated {
  tr_source : ld32 c' off_saddr = translate l direction false (ld32 c off_saddr);
  tr_dest : ld32 c' off_daddr = translate l direction true (ld32 c off_daddr);
  tr_rest : forall i, 0 <= i < off_check \/ sizeof_iphdr <= i -> (forall k, transport_check c = Some k -> i <> k /\ i <> k + 1) -> zget 0 c' i = zget 0 c i;
  tr_header : sum_words (mem_read c' 0 20) ≡₁ sum_words (mem_read c 0 20);
  tr_segment : transport_check c <> None -> sum_words (mem_read c' 12 (zlen c - 12)) ≡₁ sum_words (mem_read c 12 (zlen c - 12)) }.

Section Readdress.
Context (c : list Z) (s' t' acc : Z).
Context (Hc : Forall is_byte c) (Hl : 20 <= zlen c) (Hs : is_u 32 s') (Ht : is_u 32 t').
Context (Hacc : acc ≡₁ (ld32 c off_saddr - s') + (ld32 c off_daddr - t')) (Habs : Z.abs acc < 2 ^ 30).

(** A view from [p] on that shows both addresses and the checksum at [k]: its sum
    stays. *)
Lemma view_sum p n k : (p = 0 \/ p = 12) -> 0 <= k -> Z.even k = true -> p <= k -> k + 1 < p + n -> 20 <= p + n <= zlen c -> (k + 1 < 12 \/ 20 <= k) ->
  sum_words (mem_read (adjust_at (st32 (st32 c off_saddr s') off_daddr t') k acc) p n) ≡₁ sum_words (mem_read c p n).
Proof.
  intros Hp Hk He Hpk Hkn Hpn Hout. unfold adjust_at. set (d := st32 (st32 c off_saddr s') off_daddr t').
  assert (Forall is_byte d) as Hd by (by apply st32_bytes, st32_bytes). assert (zlen d = zlen c) as Hzd by (unfold d; by rewrite !zlen_st32).
  rewrite !sum_words_val by (apply mem_read_Forall; auto with ovpn). replace k with (p + (k - p)) by lia.
  rewrite st16_mem_read by lia. rewrite <- (ld16_mem_read d p n) by lia.
  rewrite le_val_adjust; [|lia|rewrite mem_read_length; lia|rewrite Z.even_sub, He; by destruct Hp as [->| ->]|by apply mem_read_Forall|done].
  unfold d, off_saddr, off_daddr. replace 16 with (p + (16 - p)) by lia. replace 12 with (p + (12 - p)) by lia. rewrite !st32_mem_read by lia.
  rewrite !le_val_st32 by (rewrite ?zlen_st32, ?mem_read_length; unfold is_u in *; lia). rewrite ld32_st32_ne by lia. rewrite !ld32_mem_read by lia.
  replace (p + (16 - p)) with 16 by lia. replace (p + (12 - p)) with 12 by lia.
  assert (weight (16 - p) = 1 /\ weight (12 - p) = 1) as [-> ->] by (destruct Hp as [->| ->]; done). rewrite Hacc. unfold off_saddr, off_daddr. exists 0. ring.
Qed.

Lemma readdressed_spec l direction : s' = translate l direction false (ld32 c off_saddr) -> t' = translate l direction true (ld32 c off_daddr) ->
  translated l direction c (readdressed c s' t' acc).
Proof.
  intros Es Et. pose proof (transport_check_range c) as Hk. unfold readdressed. set (d := st32 (st32 c off_saddr s') off_daddr t').
  assert (zlen d = zlen c) as Hzd by (unfold d; by rewrite !zlen_st32). set (d1 := adjust_at d off_check acc).
  assert (zlen d1 = zlen c) as Hz1 by (unfold d1, adjust_at; by rewrite zlen_st16).
  assert (ld32 d 12 = s' /\ ld32 d 16 = t') as [F1 F2].
  { unfold d, off_saddr, off_daddr. split; [rewrite ld32_st32_ne by lia|]; apply ld32_st32; rewrite ?zlen_st32; unfold is_u in *; lia. }
  assert (ld32 d1 12 = s' /\ ld32 d1 16 = t') as [G1 G2] by (unfold d1, adjust_at, off_check; by rewrite !ld32_st16_ne by lia).
  assert (forall i, 0 <= i < 10 \/ 20 <= i -> zget 0 d1 i = zget 0 c i) as Hrest.
  { intros i Hi. unfold d1, d, adjust_at, off_check, off_saddr, off_daddr. rewrite zget_st16_ne, !zget_st32_ne by lia. done. }
  assert (sum_words (mem_read d1 0 20) ≡₁ sum_words (mem_read c 0 20)) as Hhead by (apply view_sum; unfold off_check; lia || done).
  unfold off_check, sizeof_iphdr in *. destruct (transport_check c) as [k|] eqn:Ek; cycle 1.
  { constructor; rewrite ?Ek; unfold off_saddr, off_daddr, off_check, sizeof_iphdr in *; try congruence; auto. }
  destruct (Hk k eq_refl) as [Hk' Hkl]. assert (26 <= k /\ Z.even k = true) as [Hk26 Hke] by (destruct Hk' as [->| ->]; done).
  constructor; unfold off_saddr, off_daddr, off_check, sizeof_iphdr, adjust_at in *.
  - rewrite ld32_st16_ne by lia. congruence.
  - rewrite ld32_st16_ne by lia. congruence.
  - intros i Hi Hn. destruct (Hn k Ek). rewrite zget_st16_ne by lia. by apply Hrest.
  - rewrite mem_read_st16_out by lia. exact Hhead.
  - intros _. assert (ld16 d1 k = ld16 d k) as -> by (unfold d1; apply ld16_st16_ne; lia).
    unfold d1. rewrite st16_comm, mem_read_st16_out by lia. apply view_sum; lia || done.
Qed.
End Readdress.

(** ** Properties *)

Lemma client_nat_spec l b direction : buf_live b -> sizeof_iphdr <= b_len b -> Forall entry_ok l ->
  exists b' c', client_nat_transform l b direction = Some b' /\ rewritten b b' c' /\ translated l direction (buf_contents b) c' /\ Forall is_byte c'.
Proof.
  intros Hb Hl Hok. destruct (client_nat_shape l b direction Hb Hl Hok) as (b' & c' & Hr & Hrw & Rs & Rt & Hc'). exists b', c'. split; [done|]. split; [done|].
  pose proof (buf_contents_length b Hb) as Hlen. assert (Forall is_byte (buf_contents b)) as Hbytes by (apply buf_contents_bytes, Hb).
  destruct Hc' as [(-> & E1 & E2)|(acc & Ha & He & ->)].
  - split; [|done]. constructor; try done; reflexivity.
  - split; [apply readdressed_spec; try done; unfold sizeof_iphdr in Hl; lia|].
    unfold readdressed, adjust_at. case_match; by repeat apply st16_bytes.
Qed.

(** Where the checksum of the payload is by the format of the packet: behind the header with its
    options, in the first fragment. *)
Definition header_len (c : list Z) : Z := 4 * Z.land (zget 0 c 0) 15.
Definition fragment_offset (c : list Z) : Z := Z.land (ntohs (ld16 c 6)) OPENVPN_IP_OFFMASK.
Definition real_check (c : list Z) : option Z :=
  if negb (fragment_offset c =? 0) then None
  else if (zget 0 c 9 =? OPENVPN_IPPROTO_TCP) && (header_len c + sizeof_tcphdr <=? zlen c) then Some (header_len c + 16)
  else if (zget 0 c 9 =? OPENVPN_IPPROTO_UDP) && (header_len c + sizeof_udphdr <=? zlen c) then Some (header_len c + 6)
  else None.

Lemma transport_check_real c : header_len c = sizeof_iphdr -> fragment_offset c = 0 -> transport_check c = real_check c.
Proof. intros Hh Hf. unfold real_check, transport_check. by rewrite Hh, Hf. Qed.

(** C22. Address translation.  For every list of rules and packet that holds an IPv4
    header, [client_nat_transform] ends without touching memory outside the packet; the
    source and the destination become what the first rule for each of them that applies
    gives, or stay; no other byte changes but the checksum of the header and the two bytes
    at [transport_check], where the code takes the checksum of TCP or UDP to be; and the
    sums of the words of the first twenty bytes and, if there is such a place, of what
    follows with the addresses stay the same modulo 65535.  For a packet without IP options
    that is not a later fragment that place is the one of the checksum, so that nothing but
    addresses and checksums changes and correct checksums stay correct; in any other packet
    of TCP or UDP it lies in the options or the payload ([nat_changes_fragments],
    [nat_changes_options]). *)
Theorem client_nat_translates l b direction : buf_live b -> sizeof_iphdr <= b_len b -> Forall entry_ok l ->
  exists b' c', client_nat_transform l b direction = Some b' /\ rewritten b b' c' /\ translated l direction (buf_contents b) c' /\
    (header_len (buf_contents b) = sizeof_iphdr -> fragment_offset (buf_contents b) = 0 -> transport_check (buf_contents b) = real_check (buf_contents b)).
Proof.
  intros Hb Hl Hok. destruct (client_nat_spec l b direction Hb Hl Hok) as (b' & c' & ? & ? & ? & _). exists b', c'. split; [done|]. split; [done|]. split; [done|]. apply transport_check_real.
Qed.

(** A client whose network 10.1.0.0/16 appears as 172.16.0.0/16 (addresses as a
    little-endian host holds them). *)
Definition toy_rule : client_nat_entry := mkcne CN_SNAT (10 + 256) 65535 (172 + 16 * 256).
Definition toy_udp : buffer :=
  let c := [69; 0; 0; 28; 0; 1; 0; 0; 64; 17; 100; 204; 10; 1; 2; 3; 10; 0; 0; 2; 0; 53; 0; 53; 0; 8; 0; 0] in mkbuffer 28 0 28 (Some c).

Lemma toy_udp_live : buf_live toy_udp.
Proof. apply (buf_live_intro _ (default [] (b_data toy_udp))); try reflexivity; try (vm_compute; done). repeat constructor; vm_compute; intuition discriminate. Qed.

Lemma client_nat_translates_witness : exists b', client_nat_transform [toy_rule] toy_udp CN_OUTGOING = Some b' /\
  mem_read (buf_contents b') 12 8 = [172; 16; 2; 3; 10; 0; 0; 2] /\
  sum_words (mem_read (buf_contents b') 0 20) mod 65535 = sum_words (mem_read (buf_contents toy_udp) 0 20) mod 65535.
Proof.
  destruct (client_nat_translates [toy_rule] toy_udp CN_OUTGOING toy_udp_live) as (b' & c' & Hr & _).
  - apply Z.leb_le. reflexivity.
  - constructor; [|constructor]. split; [|split]; split; cbn; lia.
  - exists b'. split; [exact Hr|].
    assert (option_map (fun b => (mem_read (buf_contents b) 12 8, sum_words (mem_read (buf_contents b) 0 20) mod 65535)) (client_nat_transform [toy_rule] toy_udp CN_OUTGOING) =
      Some ([172; 16; 2; 3; 10; 0; 0; 2], sum_words (mem_read (buf_contents toy_udp) 0 20) mod 65535)) as Hv by (vm_compute; reflexivity).
    rewrite Hr in Hv. injection Hv as H1 H2. split; [exact H1|exact H2].
Defined.

(** A datagram without a checksum (zero) gets one, and not the right one. *)
Lemma nat_makes_up_checksum : mem_read (buf_contents toy_udp) 26 2 = [0; 0] /\
  match client_nat_transform [toy_rule] toy_udp CN_OUTGOING with
  | Some b' => mem_read (buf_contents b') 26 2 <> [0; 0] /\
      (sum_words (mem_read (buf_contents b') 12 16) + 17 + 8) mod 65535 <> 0
  | None => False
  end.
Proof. split; [reflexivity|]. vm_compute. split; discriminate. Qed.

(** A later fragment of a datagram has no header behind its addresses: its payload is
    changed. *)
Definition toy_fragment : buffer :=
  let c := [69; 0; 0; 28; 0; 1; 0; 3; 64; 17; 100; 201; 10; 1; 2; 3; 10; 0; 0; 2; 1; 2; 3; 4; 5; 6; 7; 8] in mkbuffer 28 0 28 (Some c).
Lemma nat_changes_fragments : Z.land (ntohs (ld16 (buf_contents toy_fragment) 6)) OPENVPN_IP_OFFMASK = 3 /\
  option_map (fun b => drop 20 (buf_contents b)) (client_nat_transform [toy_rule] toy_fragment CN_OUTGOING) <> Some (drop 20 (buf_contents toy_fragment)).
Proof. split; [reflexivity|]. vm_compute. discriminate. Qed.

(** In a header with options the bytes are of the options, so that its checksum is lost. *)
Definition toy_options : buffer :=
  let c := [71; 0; 0; 36; 0; 1; 0; 0; 64; 17; 94; 192; 10; 1; 2; 3; 10; 0; 0; 2; 1; 1; 1; 1; 1; 1; 1; 0; 0; 53; 0; 53; 0; 8; 0; 0] in mkbuffer 36 0 36 (Some c).
Lemma nat_changes_options : header_len (buf_contents toy_options) = 28 /\ sum_words (mem_read (buf_contents toy_options) 0 28) mod 65535 = 0 /\
  match client_nat_transform [toy_rule] toy_options CN_OUTGOING with
  | Some b' => mem_read (buf_contents b') 20 8 <> mem_read (buf_contents toy_options) 20 8 /\ sum_words (mem_read (buf_contents b') 0 28) mod 65535 <> 0
  | None => False
  end.
Proof. split; [reflexivity|]. split; [vm_compute; reflexivity|]. vm_compute. split; discriminate. Qed.
