(* ===== verification/Dhcp.v ===== *)
(** The router option of DHCP answers ([src/openvpn/dhcp.c]): with
    [--route-gateway dhcp] the client reads the gateway from the answers that pass
    through the tunnel and takes the option out of them. *)
From stdpp Require Import list.
From S2P Require Import Prelude Integer Buffer Proto.

(** ** The code *)

Definition DHCP_PAD : Z := 0.
Definition DHCP_ROUTER : Z := 3.
Definition DHCP_MSG_TYPE : Z := 53.
Definition DHCP_END : Z := 255.
Definition DHCPOFFER : Z := 2.
Definition DHCPACK : Z := 5.
Definition BOOTPS_PORT : Z := 67.
Definition BOOTPC_PORT : Z := 68.
Definition BOOTREPLY : Z := 2.
Definition sizeof_dhcp : Z := 240.

(** The options are the [optlen] bytes at [p]. *)
Fixpoint get_dhcp_message_type (fuel : nat) (d : list Z) (p optlen i : Z) : option Z :=
  match fuel with
  | O => None
  | S fuel =>
      if i <? optlen then
        let type := zget 0 d (p + i) in
        let room := optlen - i in
        if type =? DHCP_END then Some (-1)
        else if type =? DHCP_PAD then get_dhcp_message_type fuel d p optlen (i + 1)
        else if type =? DHCP_MSG_TYPE then
          if (3 <=? room) && (zget 0 d (p + i + 1) =? 1) then Some (zget 0 d (p + i + 2)) else Some (-1)
        else if 2 <=? room then get_dhcp_message_type fuel d p optlen (i + (zget 0 d (p + i + 1) + 1) + 1)
        else get_dhcp_message_type fuel d p optlen (i + 1)
      else Some (-1)
  end.

(** [memmove] of what follows the option at [i] of [owlen] bytes over it, and padding. *)
Definition delete_option (d : list Z) (p optlen i owlen : Z) : list Z :=
  let movlen := optlen - (i + owlen) in
  let d := if 0 <? movlen then mem_write d (p + i) (mem_read d (p + i + owlen) movlen) else d in
  mem_write d (p + optlen - owlen) (replicate (Z.to_nat owlen) DHCP_PAD).

(** The address found, in host order, and the block. *)
Fixpoint do_extract (fuel : nat) (d : list Z) (p optlen i ret : Z) : option (Z * list Z) :=
  match fuel with
  | O => None
  | S fuel =>
      if i <? optlen then
        let type := zget 0 d (p + i) in
        let room := optlen - i in
        let len := zget 0 d (p + i + 1) in
        if type =? DHCP_END then Some (ret, d)
        else if type =? DHCP_PAD then do_extract fuel d p optlen (i + 1) ret
        else if type =? DHCP_ROUTER then
          if 2 <=? room then
            if len <=? room - 2 then
              let ret := if (ret =? 0) && (4 <=? len) && (Z.land len 3 =? 0) then be_val (mem_read d (p + i + 2) 4) else ret in
              do_extract fuel (delete_option d p optlen i (len + 2)) p optlen i ret
            else Some (ret, d)
          else Some (ret, d)
        else if 2 <=? room then do_extract fuel d p optlen (i + (len + 2)) ret
        else Some (ret, d)
      else Some (ret, d)
  end.

Definition dhcp_extract_router_msg (ipbuf : buffer) : option (Z * buffer) :=
  p ← buf_bptr ipbuf;
  d ← b_data ipbuf;
  let optlen := buf_len ipbuf - (sizeof_iphdr + sizeof_udphdr + sizeof_dhcp) in
  let o := p + (sizeof_iphdr + sizeof_udphdr + sizeof_dhcp) in
  if (0 <=? optlen)
     && (zget 0 d (p + 9) =? OPENVPN_IPPROTO_UDP)
     && (ld16 d (p + 20) =? htons BOOTPS_PORT)
     && (ld16 d (p + 22) =? htons BOOTPC_PORT)
     && (zget 0 d (p + 28) =? BOOTREPLY)
  then
    message_type ← get_dhcp_message_type (S (Z.to_nat optlen)) d o optlen 0;
    if (message_type =? DHCPACK) || (message_type =? DHCPOFFER) then
      '(ret, d) ← do_extract (S (2 * Z.to_nat optlen)) d o optlen 0 0;
      let d := st16 d (p + 26) 0 in
      check ← ip_checksum (mem_read d (p + 20) (sizeof_udphdr + sizeof_dhcp + optlen)) (mem_read d (p + 12) 4) (mem_read d (p + 16) 4) OPENVPN_IPPROTO_UDP;
      let d := st16 d (p + 26) (htons check) in
      Some (if message_type =? DHCPACK then ret else 0, ipbuf <| b_data := Some d |>)
    else Some (0, ipbuf)
  else Some (0, ipbuf).

(** ** The options *)

(** An option: padding, or a type with its data. *)
Inductive dhcp_opt := DPad | DOpt (k : Z) (data : list Z).
Definition enc_option (o : dhcp_opt) : list Z := match o with DPad => [DHCP_PAD] | DOpt k data => k :: zlen data :: data end.
Definition enc_options (os : list dhcp_opt) : list Z := concat (map enc_option os).
Definition option_ok (o : dhcp_opt) : Prop :=
  match o with DPad => True | DOpt k data => k <> DHCP_PAD /\ k <> DHCP_END /\ is_byte k /\ zlen data < 256 /\ Forall is_byte data end.
(** What follows the options: nothing, or the end mark and anything. *)
Definition tail_ok (t : list Z) : Prop := Forall is_byte t /\ (t = [] \/ exists t', t = DHCP_END :: t').

Definition is_router (o : dhcp_opt) : bool := match o with DOpt k _ => k =? DHCP_ROUTER | DPad => false end.

(** The type of the message, and the first usable address of a router. *)
Fixpoint message_type (os : list dhcp_opt) : Z :=
  match os with
  | [] => -1
  | DOpt k data :: os => if k =? DHCP_MSG_TYPE then (match data with [t] => t | _ => -1 end) else message_type os
  | DPad :: os => message_type os
  end.
Fixpoint router_address (os : list dhcp_opt) (ret : Z) : Z :=
  match os with
  | [] => ret
  | o :: os =>
      router_address os
        (if is_router o && (ret =? 0) then
           match o with
           | DOpt _ data => if (4 <=? zlen data) && (zlen data mod 4 =? 0) then be_val (take 4 data) else ret
           | DPad => ret
           end
         else ret)
  end.

Definition keep (os : list dhcp_opt) : list dhcp_opt := filter (fun o => is_router o = false) os.
(** The number of bytes the options of routers take. *)
Definition removed (os : list dhcp_opt) : nat := length (enc_options (filter (fun o => is_router o = true) os)).
(** The options without those of routers, as long as before. *)
Definition without_routers (os : list dhcp_opt) (t : list Z) : list Z :=
  enc_options (keep os) ++ t ++ replicate (removed os) DHCP_PAD.

Lemma keep_cons o os : keep (o :: os) = if is_router o then keep os else o :: keep os.
Proof. unfold keep. rewrite filter_cons. destruct (is_router o); by case_decide. Qed.

Lemma removed_cons o os : removed (o :: os) = ((if is_router o then length (enc_option o) else 0) + removed os)%nat.
Proof.
  unfold removed. rewrite filter_cons. destruct (is_router o) eqn:E; case_decide; try congruence; try done. unfold enc_options. cbn [map concat]. by rewrite length_app.
Qed.

Lemma enc_cons o os : enc_options (o :: os) = enc_option o ++ enc_options os.
Proof. done. Qed.

Lemma message_type_walk fuel A os t post p i optlen : Forall option_ok os -> tail_ok t -> p + i = zlen A -> optlen - i = zlen (enc_options os ++ t) ->
  (length (enc_options os ++ t) < fuel)%nat -> get_dhcp_message_type fuel (A ++ enc_options os ++ t ++ post) p optlen i = Some (message_type os).
Proof.
  intros Hos Ht. revert A os i Hos. induction fuel as [|fuel IH]; intros A os i Hos HA Hi Hf; [lia|]. cbn [get_dhcp_message_type]. rewrite HA.
  destruct os as [|o os].
  { cbn [enc_options map concat app] in *. destruct Ht as [_ [->|[t' ->]]]; [rewrite zlen_nil in Hi; by destruct (Z.ltb_spec i optlen); [lia|]|].
    destruct (i <? optlen); [|done]. cbn [app]. by rewrite zget_at. }
  apply Forall_cons in Hos as [Ho Hos]. rewrite enc_cons in *. rewrite <- app_assoc in *.
  assert (get_dhcp_message_type fuel ((A ++ enc_option o) ++ enc_options os ++ t ++ post) p optlen (i + zlen (enc_option o)) = Some (message_type os)) as Hnext.
  { apply IH; [done|rewrite zlen_app; lia|rewrite !zlen_app in *; lia|]. rewrite !length_app in *. destruct o; cbn in *; lia. }
  rewrite <- app_assoc in Hnext. rewrite !zlen_app in Hi. pose proof (zlen_nonneg (enc_options os)). pose proof (zlen_nonneg t).
  destruct o as [|k data]; cbn [enc_option app message_type] in *.
  - rewrite zlen_cons in *. pose proof (zlen_nonneg (@nil Z)). destruct (Z.ltb_spec i optlen); [|lia]. rewrite zget_at by done. exact Hnext.
  - destruct Ho as (Hk0 & Hk1 & Hkb & Hlen & Hb). rewrite !zlen_cons in *. pose proof (zlen_nonneg data). destruct (Z.ltb_spec i optlen); [|lia].
    rewrite zget_at by done. assert (zget 0 (A ++ k :: zlen data :: data ++ enc_options os ++ t ++ post) (zlen A + 1) = zlen data) as Hn by by rewrite zget_app_r.
    rewrite Hn. destruct (Z.eqb_spec k DHCP_END); [done|]. destruct (Z.eqb_spec k DHCP_PAD); [done|]. destruct (k =? DHCP_MSG_TYPE).
    + destruct data as [|x [|y data]]; cbn [andb app].
      * by rewrite andb_false_r.
      * assert (zlen [x] = 1) as -> by done. rewrite zlen_cons, zlen_nil in Hi. destruct (Z.leb_spec 3 (optlen - i)); [|lia]. cbn [andb Z.eqb]. by rewrite zget_app_r.
      * rewrite !zlen_cons. pose proof (zlen_nonneg data). destruct (Z.eqb_spec (zlen data + 1 + 1) 1); [lia|]. by rewrite andb_false_r.
    + destruct (Z.leb_spec 2 (optlen - i)); [|lia]. replace (i + (zlen data + 1) + 1) with (i + (zlen data + 1 + 1)) by lia. exact Hnext.
Qed.

Lemma delete_option_spec A o rest post p i optlen : p + i = zlen A -> optlen - i = zlen (o ++ rest) ->
  delete_option (A ++ o ++ rest ++ post) p optlen i (zlen o) = A ++ rest ++ replicate (length o) DHCP_PAD ++ post.
Proof.
  intros HA Hi. unfold delete_option. rewrite zlen_app in Hi. replace (optlen - (i + zlen o)) with (zlen rest) by lia. rewrite HA.
  assert (replicate (Z.to_nat (zlen o)) DHCP_PAD = replicate (length o) DHCP_PAD) as -> by (unfold zlen; by rewrite Nat2Z.id).
  set (W := drop (length rest) (o ++ rest)). assert (length W = length o) as HW by (unfold W; rewrite length_drop, length_app; lia).
  assert ((if 0 <? zlen rest then mem_write (A ++ o ++ rest ++ post) (zlen A) (mem_read (A ++ o ++ rest ++ post) (zlen A + zlen o) (zlen rest))
           else A ++ o ++ rest ++ post) = A ++ rest ++ W ++ post) as ->.
  { destruct (Z.ltb_spec 0 (zlen rest)) as [Hr|Hr].
    - rewrite (app_assoc A o), mem_read_at by (rewrite ?zlen_app; lia). rewrite <- app_assoc.
      replace (o ++ rest ++ post) with (take (length rest) (o ++ rest) ++ W ++ post) by (unfold W; by rewrite (app_assoc (take _ _)), take_drop, <- app_assoc).
      apply mem_write_at; [done|]. unfold zlen. rewrite length_take, length_app. lia.
    - assert (rest = []) as -> by (destruct rest; [done|rewrite zlen_cons in Hr; pose proof (zlen_nonneg rest); lia]). unfold W. cbn. by rewrite app_nil_r. }
  rewrite (app_assoc A rest), (app_assoc A rest). apply mem_write_at; [rewrite zlen_app; lia|]. unfold zlen. by rewrite length_replicate, HW.
Qed.

Lemma do_extract_pads fuel A z post p i optlen ret : p + i = zlen A -> optlen - i = Z.of_nat z -> (z < fuel)%nat ->
  do_extract fuel (A ++ replicate z DHCP_PAD ++ post) p optlen i ret = Some (ret, A ++ replicate z DHCP_PAD ++ post).
Proof.
  revert A z i. induction fuel as [|fuel IH]; intros A z i HA Hi Hf; [lia|]. cbn [do_extract]. destruct z as [|z].
  { by destruct (Z.ltb_spec i optlen); [lia|]. }
  destruct (Z.ltb_spec i optlen); [|lia]. rewrite HA. cbn [replicate app]. rewrite zget_at by done.
  specialize (IH (A ++ [DHCP_PAD]) z (i + 1)). rewrite <- !app_assoc in IH. cbn [app] in IH. apply IH; [rewrite zlen_app, zlen_cons, zlen_nil; lia|lia|lia].
Qed.

Lemma router_len data : Forall is_byte data -> (Z.land (zlen data) 3 =? 0) = (zlen data mod 4 =? 0).
Proof. intros _. change 3 with (Z.ones 2). by rewrite Z.land_ones by lia. Qed.

Lemma router_data (A data rest : list Z) k n : 4 <= zlen data -> mem_read (A ++ k :: n :: data ++ rest) (zlen A + 2) 4 = take 4 data.
Proof.
  intros Hl. replace (A ++ k :: n :: data ++ rest) with ((A ++ [k; n]) ++ take 4 data ++ (drop 4 data ++ rest)).
  - apply mem_read_at; [by rewrite zlen_app|]. unfold zlen in *. rewrite length_take. lia.
  - rewrite <- app_assoc. cbn [app]. by rewrite (app_assoc (take 4 data)), take_drop.
Qed.

Lemma do_extract_walk fuel A os t z post p i optlen ret : Forall option_ok os -> tail_ok t ->
  p + i = zlen A -> optlen - i = zlen (enc_options os ++ t) + Z.of_nat z -> (length os + length (enc_options os) + z < fuel)%nat ->
  do_extract fuel (A ++ enc_options os ++ t ++ replicate z DHCP_PAD ++ post) p optlen i ret =
    Some (router_address os ret,
          A ++ enc_options (keep os) ++ t ++ replicate (z + removed os) DHCP_PAD ++ post).
Proof.
  intros Hos Ht. revert A os z i ret Hos. induction fuel as [|fuel IH]; intros A os z i ret Hos HA Hi Hf; [lia|].
  destruct os as [|o os].
  { cbn [enc_options map concat app keep filter list_filter router_address length] in *. replace (z + removed [])%nat with z by (cbn; lia). destruct Ht as [_ [->|[t' ->]]]; cbn [app].
    - apply do_extract_pads; [done|rewrite zlen_nil in Hi; lia|cbn in Hf; lia].
    - cbn [do_extract]. rewrite zlen_cons in Hi. pose proof (zlen_nonneg t'). destruct (Z.ltb_spec i optlen); [|lia]. rewrite HA. by rewrite zget_at. }
  apply Forall_cons in Hos as [Ho Hos]. rewrite enc_cons in *. rewrite keep_cons, removed_cons. cbn [router_address length] in *.
  rewrite <- !app_assoc in *. rewrite !zlen_app in Hi. rewrite !length_app in *.
  pose proof (zlen_nonneg (enc_options os)). pose proof (zlen_nonneg t).
  assert (forall ret', is_router o = false -> do_extract fuel ((A ++ enc_option o) ++ enc_options os ++ t ++ replicate z DHCP_PAD ++ post) p optlen (i + zlen (enc_option o)) ret' =
    Some (router_address os ret', A ++ enc_option o ++ enc_options (keep os) ++ t ++ replicate (z + removed os) DHCP_PAD ++ post)) as Hnext.
  { intros ret' Hro. rewrite (IH (A ++ enc_option o) os z); [by rewrite <- app_assoc|done|rewrite zlen_app; lia|rewrite zlen_app; lia|lia]. }
  setoid_rewrite <- app_assoc in Hnext.
  destruct o as [|k data]; cbn [is_router enc_option andb] in *.
  - specialize (Hnext ret eq_refl). cbn [app] in *. cbn [do_extract]. rewrite zlen_cons, zlen_nil in *. destruct (Z.ltb_spec i optlen); [|lia].
    rewrite HA, zget_at by done. rewrite enc_cons. cbn [enc_option app length]. exact Hnext.
  - destruct Ho as (Hk0 & Hk1 & Hkb & Hlen & Hb). rewrite !zlen_cons in *. pose proof (zlen_nonneg data). cbn [app] in *. cbn [do_extract].
    destruct (Z.ltb_spec i optlen); [|lia]. rewrite HA, zget_at by done.
    assert (zget 0 (A ++ k :: zlen data :: data ++ enc_options os ++ t ++ replicate z DHCP_PAD ++ post) (zlen A + 1) = zlen data) as Hn by by rewrite zget_app_r.
    rewrite Hn. destruct (Z.eqb_spec k DHCP_END); [done|]. destruct (Z.eqb_spec k DHCP_PAD); [done|]. destruct (Z.leb_spec 2 (optlen - i)); [|lia].
    destruct (k =? DHCP_ROUTER) eqn:Hro; cycle 1.
    { specialize (Hnext ret eq_refl). replace (i + (zlen data + 2)) with (i + (zlen data + 1 + 1)) by lia. rewrite Hnext, enc_cons, <- !app_assoc. done. }
    destruct (Z.leb_spec (zlen data) (optlen - i - 2)); [|lia]. rewrite router_len by done.
    pose proof (delete_option_spec A (k :: zlen data :: data) (enc_options os ++ t ++ replicate z DHCP_PAD) post p i optlen HA) as Hdel.
    rewrite <- !app_assoc in Hdel. cbn [app] in Hdel. rewrite !zlen_cons in Hdel. replace (zlen data + 1 + 1) with (zlen data + 2) in Hdel by lia.
    rewrite Hdel by (rewrite !zlen_app; unfold zlen in *; rewrite length_replicate; lia).
    rewrite (app_assoc (replicate z _)), <- replicate_add.
    set (ret1 := if (ret =? 0) && _ && _ then _ else ret). set (ret2 := if true && _ then _ else ret).
    assert (ret1 = ret2) as ->.
    { unfold ret1, ret2. destruct (ret =? 0); cbn [andb]; [|done]. destruct (Z.leb_spec 4 (zlen data)) as [H4'|]; cbn [andb]; [|done]. destruct (_ =? 0); [|done]. f_equal. by apply router_data. }
    rewrite IH; [do 4 f_equal; rewrite Nat.add_assoc; done|done|done| |cbn in Hf |- *; lia]. rewrite zlen_app. cbn [length]. unfold zlen in *. lia.
Qed.

(** ** Options of any kind *)

Definition nonzero (l : list Z) : nat := length (filter (fun b => b <> 0) l).
Lemma nonzero_app a b : nonzero (a ++ b) = (nonzero a + nonzero b)%nat.
Proof. unfold nonzero. by rewrite filter_app, length_app. Qed.
Lemma nonzero_pads n : nonzero (replicate n DHCP_PAD) = 0%nat.
Proof. unfold nonzero. induction n as [|n IH]; [done|]. cbn [replicate]. rewrite filter_cons. case_decide; [done|exact IH]. Qed.
Lemma nonzero_le l : (nonzero l <= length l)%nat.
Proof. unfold nonzero. induction l as [|x l IH]; [done|]. rewrite filter_cons. case_decide; cbn; lia. Qed.

Lemma message_type_ends fuel d p optlen i : 0 <= i -> Forall is_byte d -> optlen - i <= Z.of_nat fuel -> exists mt, get_dhcp_message_type (S fuel) d p optlen i = Some mt.
Proof.
  intros Hi Hd. revert i Hi. induction fuel as [|fuel IH]; intros i Hi Hf.
  - cbn [get_dhcp_message_type]. destruct (Z.ltb_spec i optlen); [lia|by eexists].
  - remember (S fuel) as f eqn:Ef. cbn [get_dhcp_message_type]. pose proof (zget_byte d (p + i + 1) Hd) as Hb. unfold is_byte in Hb.
    destruct (i <? optlen); [|by eexists]. repeat (case_match; try (by eexists)); rewrite Ef in *; apply IH; lia.
Qed.

(** The loop over any bytes [R] ends, stays inside and keeps their number. *)
Lemma do_extract_ends fuel A R post p i optlen ret : Forall is_byte R -> p + i = zlen A -> (R <> [] -> optlen - i = zlen R) -> (R = [] -> optlen <= i) ->
  (length R + nonzero R <= fuel)%nat ->
  exists ret' R', do_extract (S fuel) (A ++ R ++ post) p optlen i ret = Some (ret', A ++ R' ++ post) /\ zlen R' = zlen R /\ Forall is_byte R'.
Proof.
  revert A R i ret. induction fuel as [|fuel IH]; intros A R i ret Hb HA Hi Hend Hf.
  { destruct R; [|cbn in Hf; lia]. cbn [do_extract]. specialize (Hend eq_refl). destruct (Z.ltb_spec i optlen); [lia|]. by eexists _, []. }
  assert (forall r : Z, exists ret' R', Some (r, A ++ R ++ post) = Some (ret', A ++ R' ++ post) /\ zlen R' = zlen R /\ Forall is_byte R') as Hstop by (intros r; by exists r, R).
  assert (forall o rest j r, R = o ++ rest -> o <> [] -> (rest <> [] -> j = i + zlen o) -> (rest = [] -> optlen <= j) -> p + j = zlen A + zlen o \/ rest = [] ->
    exists ret' R', do_extract (S fuel) (A ++ R ++ post) p optlen j r = Some (ret', A ++ R' ++ post) /\ zlen R' = zlen R /\ Forall is_byte R') as Hskip.
  { intros o rest j r -> Ho Hj Hj2 Hpj. assert (0 < length o)%nat as Hlo by (destruct o; [done|cbn; lia]). destruct rest as [|x rest].
    - cbn [do_extract]. specialize (Hj2 eq_refl). destruct (Z.ltb_spec j optlen); [lia|apply Hstop].
    - apply Forall_app in Hb as [Ho' Hr]. destruct Hpj as [Hpj|]; [|done]. specialize (Hj ltac:(done)).
      destruct (IH (A ++ o) (x :: rest) j r) as (ret' & R' & Hx & Hz & Hb'); try done; [rewrite zlen_app; lia| |rewrite nonzero_app, length_app in Hf; lia|].
      + intros _. specialize (Hi ltac:(by destruct o)). rewrite zlen_app in Hi. lia.
      + exists ret', (o ++ R'). rewrite <- !app_assoc in Hx |- *. rewrite Hx, !zlen_app, Hz, Forall_app. done. }
  change (exists ret' R', do_extract (S (S fuel)) (A ++ R ++ post) p optlen i ret = Some (ret', A ++ R' ++ post) /\ zlen R' = zlen R /\ Forall is_byte R').
  remember (S fuel) as f eqn:Ef. cbn [do_extract]. destruct R as [|k R].
  { specialize (Hend eq_refl). destruct (Z.ltb_spec i optlen); [lia|apply Hstop]. }
  specialize (Hi ltac:(done)). pose proof (zlen_nonneg R). rewrite zlen_cons in Hi. destruct (Z.ltb_spec i optlen); [|lia]. rewrite HA.
  assert (zget 0 (A ++ (k :: R) ++ post) (zlen A) = k) as -> by by apply zget_at. destruct (k =? DHCP_END); [apply Hstop|]. destruct (Z.eqb_spec k DHCP_PAD).
  { apply (Hskip [k] R); try done; [intros ->; rewrite zlen_nil in Hi; lia|rewrite zlen_cons, zlen_nil; left; lia]. }
  destruct (Z.leb_spec 2 (optlen - i)); [|by destruct (k =? DHCP_ROUTER); apply Hstop].
  destruct R as [|m R]; [rewrite zlen_nil in Hi; lia|]. assert (zget 0 (A ++ (k :: m :: R) ++ post) (zlen A + 1) = m) as -> by by rewrite zget_app_r.
  assert (is_byte m) as Bn by (rewrite !Forall_cons in Hb; apply Hb). unfold is_byte in Bn. rewrite zlen_cons in Hi. pose proof (zlen_nonneg R).
  destruct (k =? DHCP_ROUTER) eqn:Hk.
  - destruct (Z.leb_spec m (optlen - i - 2)) as [Hn|]; [|apply Hstop]. set (r := if _ && _ && _ then _ else ret). clearbody r.
    set (o := k :: m :: take (Z.to_nat m) R). set (rest := drop (Z.to_nat m) R).
    assert (k :: m :: R = o ++ rest) as Ho by (unfold o, rest; cbn; by rewrite take_drop).
    assert (zlen o = m + 2) as Hzo by (unfold o; rewrite !zlen_cons; unfold zlen in *; rewrite length_take; lia).
    assert (zlen (o ++ rest) = zlen R + 2) as Hzt by (rewrite <- Ho, !zlen_cons; lia).
    rewrite Ho in *. rewrite <- app_assoc. rewrite <- Hzo. rewrite delete_option_spec by lia. apply Forall_app in Hb as [Bo Br].
    rewrite (app_assoc rest). destruct (IH A (rest ++ replicate (length o) DHCP_PAD) i r) as (ret' & R' & Hx & Hz & Hb'); try done.
    + apply Forall_app. split; [done|]. apply Forall_replicate. unfold is_byte, DHCP_PAD. lia.
    + intros _. rewrite zlen_app. unfold zlen in *. rewrite length_replicate, length_app in *. lia.
    + intros He. apply (f_equal length) in He. rewrite length_app, length_replicate in He. unfold o in He. cbn in He. lia.
    + rewrite nonzero_app, nonzero_pads, length_app, length_replicate in *. unfold o in Hf |- *.
      assert (1 <= nonzero (k :: m :: take (Z.to_nat m) R))%nat; [|lia]. apply Z.eqb_eq in Hk. subst k. unfold nonzero. rewrite filter_cons. case_decide; [cbn; lia|done].
    + exists ret', R'. rewrite Hx, Hz. split; [done|]. split; [|done]. rewrite !zlen_app. unfold zlen. rewrite length_replicate. lia.
  - destruct (Z.le_gt_cases (m + 2) (zlen R + 2)) as [Hn|Hn].
    + apply (Hskip (k :: m :: take (Z.to_nat m) R) (drop (Z.to_nat m) R)); try done; [cbn; by rewrite take_drop| | |].
      * intros _. rewrite !zlen_cons. unfold zlen in *. rewrite length_take. lia.
      * intros He. apply (f_equal length) in He. rewrite length_drop in He. cbn in He. unfold zlen in *. lia.
      * left. rewrite !zlen_cons. unfold zlen in *. rewrite length_take. lia.
    + apply (Hskip (k :: m :: R) []); try done; [by rewrite app_nil_r|intros _; lia|by right].
Qed.

(** ** Properties *)

(** An answer of a DHCP server to a client. *)
Definition dhcp_answer (c : list Z) : bool :=
  (sizeof_iphdr + sizeof_udphdr + sizeof_dhcp <=? zlen c) && (zget 0 c 9 =? OPENVPN_IPPROTO_UDP)
  && (ld16 c 20 =? htons BOOTPS_PORT) && (ld16 c 22 =? htons BOOTPC_PORT) && (zget 0 c 28 =? BOOTREPLY).

Definition udp_checksum_ok (c : list Z) : Prop :=
  sum_words (drop 20 c) + sum_words (mem_read c 12 4) + sum_words (mem_read c 16 4) + (zlen c - 20) + OPENVPN_IPPROTO_UDP ≡₁ 0.

(** The new checksum. *)
Lemma udp_checksum_set c : 28 <= zlen c <= 65535 -> Forall is_byte c ->
  exists ck, ip_checksum (mem_read (st16 c 26 0) 20 (zlen c - 20)) (mem_read (st16 c 26 0) 12 4) (mem_read (st16 c 26 0) 16 4) OPENVPN_IPPROTO_UDP = Some ck /\
    udp_checksum_ok (st16 c 26 (htons ck)).
Proof.
  intros Hl Hb. set (d := st16 c 26 0). assert (zlen d = zlen c) as Hz by (unfold d; by rewrite zlen_st16). assert (Forall is_byte d) as Hd by by apply st16_bytes.
  assert (forall e : list Z, zlen e = zlen c -> drop 20 e = mem_read e 20 (zlen c - 20)) as Hdrop.
  { intros e He. unfold mem_read. rewrite firstn_all2; [done|]. unfold zlen in *. rewrite length_drop. lia. }
  destruct (ip_checksum_spec (mem_read d 20 (zlen c - 20)) (mem_read d 12 4) (mem_read d 16 4) OPENVPN_IPPROTO_UDP) as (ck & Hck & Hr & He); try by apply mem_read_Forall.
  { rewrite !mem_read_length by lia. lia. }
  exists ck. split; [exact Hck|]. unfold udp_checksum_ok. rewrite zlen_st16, Hdrop by (by rewrite zlen_st16).
  assert (st16 c 26 (htons ck) = st16 d 26 (htons ck)) as -> by (unfold d; by rewrite st16_st16 by lia).
  rewrite (mem_read_st16_out _ _ _ 12), (mem_read_st16_out _ _ _ 16) by lia. replace 26 with (20 + 6) by lia. rewrite st16_mem_read by lia.
  rewrite sum_words_store; [|lia|rewrite mem_read_length; lia|done|by apply mem_read_Forall| |done].
  - rewrite mem_read_length in He by lia. rewrite <- He. change (u16 OPENVPN_IPPROTO_UDP) with OPENVPN_IPPROTO_UDP. exists 0. ring.
  - rewrite ld16_mem_read by lia. unfold d. replace (20 + 6) with 26 by lia. apply ld16_st16; lia.
Qed.

Lemma extract_options A R post p optlen : Forall is_byte (A ++ R ++ post) -> p = zlen A -> optlen = zlen R ->
  exists mt ret R', get_dhcp_message_type (S (Z.to_nat optlen)) (A ++ R ++ post) p optlen 0 = Some mt /\
    do_extract (S (2 * Z.to_nat optlen)) (A ++ R ++ post) p optlen 0 0 = Some (ret, A ++ R' ++ post) /\ zlen R' = zlen R /\ Forall is_byte R' /\
    forall os t, R = enc_options os ++ t -> Forall option_ok os -> tail_ok t -> mt = message_type os /\ R' = without_routers os t /\ ret = router_address os 0.
Proof.
  intros Hb -> ->. pose proof Hb as [_ [HR _]%Forall_app]%Forall_app.
  destruct (message_type_ends (Z.to_nat (zlen R)) (A ++ R ++ post) (zlen A) (zlen R) 0) as [mt Hmt]; [done|done|lia|].
  destruct (do_extract_ends (2 * Z.to_nat (zlen R)) A R post (zlen A) 0 (zlen R) 0) as (ret & R' & Hx & Hz & HR'); try done; try lia.
  { intros ->. by rewrite zlen_nil. }
  { pose proof (nonzero_le R). unfold zlen. lia. }
  exists mt, ret, R'. split; [done|]. split; [done|]. split; [done|]. split; [done|]. intros os t -> Hos Ht. 
  rewrite <- app_assoc in Hmt, Hx. rewrite message_type_walk in Hmt by (done || lia || (unfold zlen; lia)). split; [by injection Hmt|].
  pose proof (do_extract_walk (S (2 * Z.to_nat (zlen (enc_options os ++ t)))) A os t 0 post (zlen A) 0 (zlen (enc_options os ++ t)) 0 Hos Ht) as Hw.
  cbn [replicate app Nat.add] in Hw. rewrite Hw in Hx; [|lia|lia|].
  - injection Hx as <- Hx. split; [|done]. apply app_inv_head in Hx.
    assert ((without_routers os t) ++ post = R' ++ post) as He by (rewrite <- Hx; unfold without_routers; by rewrite <- !app_assoc).
    by apply app_inv_tail in He.
  - assert (length os <= length (enc_options os))%nat as Hle.
    { clear. induction os as [|o os IH]; [done|]. rewrite enc_cons, length_app. destruct o; cbn; lia. }
    unfold zlen. rewrite length_app. lia.
Qed.

(** The checksum is recomputed in the block. *)
Lemma dhcp_checksum_block pre c post : 268 <= zlen c <= 65535 -> Forall is_byte c ->
  exists ck, (let d := st16 (pre ++ c ++ post) (zlen pre + 26) 0 in
     check ← ip_checksum (mem_read d (zlen pre + 20) (sizeof_udphdr + sizeof_dhcp + (zlen c - 268))) (mem_read d (zlen pre + 12) 4)
               (mem_read d (zlen pre + 16) 4) OPENVPN_IPPROTO_UDP;
     Some (st16 d (zlen pre + 26) (htons check))) = Some (pre ++ st16 c 26 (htons ck) ++ post) /\ udp_checksum_ok (st16 c 26 (htons ck)).
Proof.
  intros Hl Hb. destruct (udp_checksum_set c ltac:(lia) Hb) as (ck & Hck & Hok). exists ck. split; [|exact Hok]. cbv zeta.
  rewrite st16_part by lia. replace (sizeof_udphdr + sizeof_dhcp + (zlen c - 268)) with (zlen c - 20) by (unfold sizeof_udphdr, sizeof_dhcp; lia).
  rewrite !mem_read_part by (rewrite ?zlen_st16; lia). rewrite Hck. cbn [mbind option_bind]. rewrite st16_part by (rewrite ?zlen_st16; lia).
  by rewrite st16_st16 by lia.
Qed.

(** What becomes of a packet, and the address found. *)
Record router_taken_out (c c' : list Z) (ret : Z) : Prop := mktaken {
  rt_len : zlen c' = zlen c;
  rt_stays : c' = c /\ ret = 0 \/ dhcp_answer c = true /\ udp_checksum_ok c' /\ forall i, 0 <= i < 268 -> i <> 26 -> i <> 27 -> zget 0 c' i = zget 0 c i;
  rt_options : dhcp_answer c = true -> forall os t, drop 268 c = enc_options os ++ t -> Forall option_ok os -> tail_ok t ->
    if (message_type os =? DHCPACK) || (message_type os =? DHCPOFFER)
    then udp_checksum_ok c' /\ drop 268 c' = without_routers os t /\ ret = (if message_type os =? DHCPACK then router_address os 0 else 0)
    else c' = c /\ ret = 0 }.

Lemma dhcp_extract_spec b : buf_live b -> b_len b <= 65535 -> let c := buf_contents b in
  exists ret b' c', dhcp_extract_router_msg b = Some (ret, b') /\ rewritten b b' c' /\ router_taken_out c c' ret /\ Forall is_byte c'.
Proof.
  intros Hb Hmax c. destruct (live_split b Hb) as (pre & post & Hp & Hd). fold c in Hd.
  assert (zlen c = b_len b) as Hlen by by apply buf_contents_length. assert (Forall is_byte c) as Hc by (apply buf_contents_bytes, Hb).
  pose proof (rewritten_same b Hb) as Hsame. fold c in Hsame. pose proof (buf_live_data b Hb) as (d & Hd' & _ & Hf). rewrite Hd in Hd'. injection Hd' as <-.
  unfold dhcp_extract_router_msg. rewrite buf_live_bptr, Hd, buf_live_len by done. cbn [mbind option_bind]. rewrite <- Hp.
  change (sizeof_iphdr + sizeof_udphdr + sizeof_dhcp) with 268. pose proof (eq_refl (dhcp_answer c)) as Hans. unfold dhcp_answer at 2 in Hans.
  change (sizeof_iphdr + sizeof_udphdr + sizeof_dhcp) with 268 in Hans. rewrite Hlen in Hans.
  assert ((forall os t, dhcp_answer c = true -> drop 268 c = enc_options os ++ t -> Forall option_ok os -> tail_ok t -> (message_type os =? DHCPACK) || (message_type os =? DHCPOFFER) = false) ->
    exists ret b' c', Some (0, b) = Some (ret, b') /\ rewritten b b' c' /\ router_taken_out c c' ret /\ Forall is_byte c') as Hstay.
  { intros Hn. exists 0, b, c. split; [done|]. split; [done|]. split; [|done]. constructor; [done|by left|]. intros Ha os t Ho Hos Ht. by rewrite (Hn os t Ha Ho Hos Ht). }
  destruct (Z.leb_spec 0 (b_len b - 268)), (Z.leb_spec 268 (b_len b)); try lia; cycle 1; [cbn [andb] in *; apply Hstay; congruence|].
  rewrite !zget_part, !ld16_part by lia. cbn [andb] in *. destruct (_ && _ && _ && _); [|apply Hstay; congruence].
  set (hdr := take 268 c). set (R := drop 268 c). assert (c = hdr ++ R) as Hcs by (unfold hdr, R; by rewrite take_drop).
  assert (zlen hdr = 268) as Hh by (unfold hdr, zlen in *; rewrite length_take; lia). assert (zlen R = b_len b - 268) as HR by (rewrite Hcs, zlen_app in Hlen; lia).
  assert (pre ++ c ++ post = (pre ++ hdr) ++ R ++ post) as Hblk by (rewrite Hcs, <- !app_assoc; done).
  rewrite Hblk in Hf |- *. destruct (extract_options (pre ++ hdr) R post (zlen pre + 268) (b_len b - 268) Hf) as (mt & ret & R' & Hmt & Hx & HzR & HbR & Hfun);
    [by rewrite zlen_app, Hh|done|]. rewrite Hmt. cbn [mbind option_bind].
  destruct ((mt =? DHCPACK) || (mt =? DHCPOFFER)) eqn:Hty; cycle 1.
  { apply Hstay. intros os t _ Ho Hos Ht. destruct (Hfun os t Ho Hos Ht) as (<- & _ & _). exact Hty. }
  rewrite Hx. cbn [mbind option_bind]. rewrite <- app_assoc. rewrite (app_assoc hdr).
  destruct (dhcp_checksum_block pre (hdr ++ R') post) as (ck & Hck & Hok); [rewrite zlen_app; lia|rewrite Hcs, Forall_app in Hc; apply Forall_app; split; [apply Hc|exact HbR]|].
  rewrite zlen_app, Hh, HzR in Hck. replace (268 + zlen R - 268) with (b_len b - 268) in Hck by lia. cbv zeta in Hck.
  apply bind_Some in Hck as (check & Hip & Hck). rewrite Hip. cbn [mbind option_bind]. injection Hck as Hck. rewrite Hck. set (c' := st16 (hdr ++ R') 26 (htons ck)) in *.
  eexists _, _, c'. split; [reflexivity|]. split; [exists pre, post; unfold c'; rewrite zlen_st16, zlen_app; split; [done|split; [lia|split; [done|done]]]|].
  split; [|by apply st16_bytes, Forall_app; split; [rewrite Hcs, Forall_app in Hc; apply Hc|]]. constructor.
  - unfold c'. rewrite zlen_st16, zlen_app. lia.
  - right. split; [done|]. split; [done|]. intros i Hi H1 H2. unfold c'. rewrite zget_st16_ne by lia. rewrite Hcs. by rewrite !zget_app_l by lia.
  - intros _ os t Ho Hos Ht. destruct (Hfun os t Ho Hos Ht) as (<- & -> & ->). rewrite Hty. split; [done|]. split; [|done].
    unfold c'. rewrite st16_app_l by lia. apply drop_app_length'. unfold zlen in *. pose proof (zlen_st16 hdr 26 (htons ck)) as Hz. unfold zlen in Hz. lia.
Qed.

(** C23. The router option.  For every packet of at most 65535 bytes
    [dhcp_extract_router_msg] ends without touching memory outside the packet, and
    changes nothing but answers of a DHCP server.  If the options of an answer are well
    formed, those of a DHCPOFFER or DHCPACK lose the router options, close up, and are
    padded to the same length; the UDP checksum is right afterwards; the rest of the
    packet stays; and the result is, for a DHCPACK, the first usable address of a router,
    and otherwise none. *)
Theorem dhcp_router_taken_out b : buf_live b -> b_len b <= 65535 ->
  exists ret b' c', dhcp_extract_router_msg b = Some (ret, b') /\ rewritten b b' c' /\ router_taken_out (buf_contents b) c' ret.
Proof. intros Hb Hl. destruct (dhcp_extract_spec b Hb Hl) as (ret & b' & c' & ? & ? & ? & _). by exists ret, b', c'. Qed.

(** An offer with a router. *)
Definition toy_offer : list Z :=
  [69; 0; 1; 30; 0; 1; 0; 0; 64; 17; 0; 0; 10; 0; 0; 1; 10; 0; 0; 2; 0; 67; 0; 68; 1; 10; 0; 0; 2] ++ replicate 239 0
  ++ enc_options [DOpt DHCP_ROUTER [10; 0; 0; 1]; DOpt DHCP_MSG_TYPE [DHCPACK]; DPad; DOpt 51 [0; 0; 1; 0]] ++ [DHCP_END].
Definition toy_answer : buffer := mkbuffer (zlen toy_offer) 0 (zlen toy_offer) (Some toy_offer).

Lemma toy_answer_live : buf_live toy_answer.
Proof. apply (buf_live_intro _ toy_offer); try reflexivity; try (vm_compute; done). repeat constructor; vm_compute; intuition discriminate. Qed.

Lemma dhcp_router_taken_out_witness : exists b', dhcp_extract_router_msg toy_answer = Some (167772161, b') /\
  drop 268 (buf_contents b') = [53; 1; 5; 0; 51; 4; 0; 0; 1; 0; 255; 0; 0; 0; 0; 0; 0].
Proof.
  destruct (dhcp_router_taken_out toy_answer toy_answer_live) as (ret & b' & c' & Hr & _); [apply Z.leb_le; vm_compute; reflexivity|].
  exists b'. assert (option_map (fun x : Z * buffer => (x.1, drop 268 (buf_contents x.2))) (dhcp_extract_router_msg toy_answer) =
    Some (167772161, [53; 1; 5; 0; 51; 4; 0; 0; 1; 0; 255; 0; 0; 0; 0; 0; 0])) as Hv by (vm_compute; reflexivity).
  rewrite Hr in Hv. injection Hv as H1 H2. rewrite Hr, H1. split; [reflexivity|exact H2].
Defined.
