(* ===== verification/Vlan.v ===== *)
(** VLAN tags of Ethernet frames ([src/openvpn/vlan.c]): a server that bridges its
    clients takes the tag off the frames from its tap device and puts the tag of the
    client on those that go there. *)
From stdpp Require Import list.
From S2P Require Import Prelude Integer Buffer Proto.

(** ** The code *)

Inductive vlan_acceptable_frames := VLAN_ONLY_TAGGED | VLAN_ONLY_UNTAGGED_OR_PRIORITY | VLAN_ALL.
#[export] Instance vlan_acceptable_frames_eq_dec : EqDecision vlan_acceptable_frames.
Proof. solve_decision. Defined.

(** The options of a context. *)
Record vlan_options := mkvlan { vlan_tagging : bool; vlan_accept : vlan_acceptable_frames; vlan_pvid : Z }.

Definition OPENVPN_8021Q_MASK_VID : Z := htons 4095.

Definition vlanhdr_get_vid (d : list Z) (hdr : Z) : Z := ntohs (Z.land (ld16 d (hdr + 14)) OPENVPN_8021Q_MASK_VID).
Definition vlanhdr_set_vid (d : list Z) (hdr vid : Z) : list Z :=
  st16 d (hdr + 14) (u16 (Z.lor (Z.land (ld16 d (hdr + 14)) (Z.lnot OPENVPN_8021Q_MASK_VID)) (Z.land (htons vid) OPENVPN_8021Q_MASK_VID))).

(** A dropped frame. *)
Definition vlan_drop (buf : buffer) : buffer := buf <| b_len := 0 |>.
Definition is_8021q (d : list Z) (p : Z) : bool := ld16 d (p + 12) =? htons OPENVPN_ETH_P_8021Q.

(** The identifier, or -1 for a dropped frame. *)
Definition vlan_decapsulate (o : vlan_options) (buf : buffer) : option (Z * buffer) :=
  if buf_len buf <? sizeof_ethhdr then Some (-1, vlan_drop buf)
  else
    p ← buf_bptr buf;
    d ← b_data buf;
    if negb (is_8021q d p) then
      if bool_decide (vlan_accept o = VLAN_ONLY_TAGGED) then Some (-1, vlan_drop buf) else Some (vlan_pvid o, buf)
    else if buf_len buf <? sizeof_8021qhdr then Some (-1, vlan_drop buf)
    else
      let vid := vlanhdr_get_vid d p in
      if bool_decide (vlan_accept o = VLAN_ONLY_UNTAGGED_OR_PRIORITY) && negb (vid =? 0) then Some (-1, vlan_drop buf)
      else if vid =? 0 then Some (vlan_pvid o, buf)
      else
        let proto := ld16 d (p + 16) in
        let '(_, nbuf) := buf_advance buf SIZE_ETH_TO_8021Q_HDR in
        np ← buf_bptr nbuf;
        let d := mem_write d np (mem_read d p sizeof_ethhdr) in
        let d := st16 d (np + 12) proto in
        Some (vid, nbuf <| b_data := Some d |>).

Definition vlan_encapsulate (o : vlan_options) (buf : buffer) : option buffer :=
  if buf_len buf <? sizeof_ethhdr then Some (vlan_drop buf)
  else
    p ← buf_bptr buf;
    d ← b_data buf;
    if is_8021q d p then
      if buf_len buf <? sizeof_8021qhdr then Some (vlan_drop buf)
      else if negb (vlanhdr_get_vid d p =? 0) then Some (vlan_drop buf)
      else Some (buf <| b_data := Some (vlanhdr_set_vid d p (vlan_pvid o)) |>)
    else if buf_reverse_capacity buf <? SIZE_ETH_TO_8021Q_HDR then Some (vlan_drop buf)
    else
      let '(np, nbuf) := buf_prepend buf SIZE_ETH_TO_8021Q_HDR in
      hdr ← np;
      let proto := ld16 d (p + 12) in
      let d := mem_write d hdr (mem_read d p sizeof_ethhdr) in
      let d := st16 d (hdr + 12) (htons OPENVPN_ETH_P_8021Q) in
      let d := st16 d (hdr + 14) 0 in
      let d := st16 d (hdr + 16) proto in
      Some (nbuf <| b_data := Some (vlanhdr_set_vid d hdr (vlan_pvid o)) |>).

Definition vlan_is_tagged (buf : buffer) : option bool :=
  if buf_len buf <? sizeof_8021qhdr then Some false
  else
    p ← buf_bptr buf;
    d ← b_data buf;
    if negb (ntohs (ld16 d (p + 12)) =? OPENVPN_ETH_P_8021Q) then Some false
    else Some (negb (vlanhdr_get_vid d p =? 0)).

(** [to_tun] is the frame of the client [mi] on its way to the tap device. *)
Definition vlan_process_outgoing_tun (top mi : vlan_options) (to_tun : buffer) : option buffer :=
  if negb (vlan_tagging top) then Some to_tun
  else
    match vlan_accept top with
    | VLAN_ONLY_UNTAGGED_OR_PRIORITY => if negb (vlan_pvid top =? vlan_pvid mi) then Some (vlan_drop to_tun) else Some to_tun
    | VLAN_ALL => if negb (vlan_pvid top =? vlan_pvid mi) then vlan_encapsulate mi to_tun else Some to_tun
    | VLAN_ONLY_TAGGED => vlan_encapsulate mi to_tun
    end.

(** ** Frames *)

(** What the tag says: the identifier of a tagged frame. *)
Definition tagged (f : list Z) : bool := (zget 0 f 12 =? 129) && (zget 0 f 13 =? 0).
Definition frame_vid (f : list Z) : Z := 256 * (zget 0 f 14 mod 16) + zget 0 f 15.

(** The bytes of a tag that keeps the priority of [a] and names [vid]. *)
Definition tag_bytes (a vid : Z) : list Z := [Z.lor (Z.land a 240) (vid / 256); vid mod 256].

(** [None] is a dropped frame. *)
Definition untag (o : vlan_options) (f : list Z) : option (Z * list Z) :=
  if zlen f <? 14 then None
  else if negb (tagged f) then if bool_decide (vlan_accept o = VLAN_ONLY_TAGGED) then None else Some (vlan_pvid o, f)
  else if zlen f <? 18 then None
  else if frame_vid f =? 0 then Some (vlan_pvid o, f)
  else if bool_decide (vlan_accept o = VLAN_ONLY_UNTAGGED_OR_PRIORITY) then None
  else Some (frame_vid f, take 12 f ++ drop 16 f).

Definition add_tag (vid room : Z) (f : list Z) : option (list Z) :=
  if zlen f <? 14 then None
  else if tagged f then
    if zlen f <? 18 then None else if negb (frame_vid f =? 0) then None
    else Some (take 14 f ++ tag_bytes (zget 0 f 14) vid ++ drop 16 f)
  else if room <? 4 then None
  else Some (take 12 f ++ [129; 0] ++ tag_bytes 0 vid ++ drop 12 f).

(** ** Bits *)

Lemma testbit_bytes x y n : 0 <= x < 256 -> 0 <= n -> Z.testbit (x + 256 * y) n = if n <? 8 then Z.testbit x n else Z.testbit y (n - 8).
Proof.
  intros Hx Hn. destruct (Z.ltb_spec n 8).
  - rewrite <- (Z.mod_pow2_bits_low (x + 256 * y) 8) by lia. f_equal. change (2 ^ 8) with 256. zdiv.
  - replace n with ((n - 8) + 8) at 1 by lia. rewrite <- Z.div_pow2_bits by lia. f_equal. change (2 ^ 8) with 256. zdiv.
Qed.
Lemma land_bytes x y u v : 0 <= x < 256 -> 0 <= u < 256 -> Z.land (x + 256 * y) (u + 256 * v) = Z.land x u + 256 * Z.land y v.
Proof.
  intros Hx Hu. apply Z.bits_inj'. intros n Hn. assert (0 <= Z.land x u < 256) as Hl by (apply (land_range 8); [lia|exact Hx]).
  rewrite Z.land_spec, !testbit_bytes by done. destruct (_ <? 8); by rewrite Z.land_spec.
Qed.
Lemma lor_bytes x y u v : 0 <= x < 256 -> 0 <= u < 256 -> Z.lor (x + 256 * y) (u + 256 * v) = Z.lor x u + 256 * Z.lor y v.
Proof.
  intros Hx Hu. apply Z.bits_inj'. intros n Hn. assert (0 <= Z.lor x u < 256) as Hl by (apply (lor_range 8); done).
  rewrite Z.lor_spec, !testbit_bytes by done. destruct (_ <? 8); by rewrite Z.lor_spec.
Qed.

Lemma get_vid d p : Forall is_byte d -> vlanhdr_get_vid d p = 256 * (zget 0 d (p + 14) mod 16) + zget 0 d (p + 15).
Proof.
  intros Hd. unfold vlanhdr_get_vid, ld16. replace (p + 14 + 1) with (p + 15) by lia. pose proof (zget_byte d (p + 14) Hd) as B1. pose proof (zget_byte d (p + 15) Hd) as B2.
  unfold is_byte in *. set (a := zget 0 d (p + 14)) in *. set (b := zget 0 d (p + 15)) in *. change OPENVPN_8021Q_MASK_VID with (15 + 256 * 255). rewrite land_bytes by lia.
  assert (Z.land a 15 = a mod 16) as -> by (change 15 with (Z.ones 4); by rewrite Z.land_ones by lia).
  assert (Z.land b 255 = b) as -> by (change 255 with (Z.ones 8); rewrite Z.land_ones by lia; change (2 ^ 8) with 256; zdiv). unfold ntohs. zdiv.
Qed.

Lemma set_vid d p vid : Forall is_byte d -> 0 <= vid < 4096 ->
  vlanhdr_set_vid d p vid = zput (zput d (p + 14) (Z.lor (Z.land (zget 0 d (p + 14)) 240) (vid / 256))) (p + 15) (vid mod 256).
Proof.
  intros Hd Hv. unfold vlanhdr_set_vid, ld16, st16. replace (p + 14 + 1) with (p + 15) by lia. pose proof (zget_byte d (p + 14) Hd) as B1. pose proof (zget_byte d (p + 15) Hd) as B2.
  unfold is_byte in *. set (a := zget 0 d (p + 14)) in *. set (b := zget 0 d (p + 15)) in *. change (Z.lnot OPENVPN_8021Q_MASK_VID) with (240 + 256 * - 256).
  assert (htons vid = vid / 256 + 256 * (vid mod 256)) as -> by (unfold htons, ntohs; zdiv). change OPENVPN_8021Q_MASK_VID with (15 + 256 * 255).
  rewrite !land_bytes by zdiv. assert (Z.land b (-256) = 0) as ->.
  { apply Z.bits_inj'. intros n Hn. rewrite Z.land_spec, Z.bits_0. destruct (Z.lt_ge_cases n 8).
    - replace (-256) with (Z.shiftl (-1) 8) by done. rewrite Z.shiftl_spec_low by lia. apply andb_false_r.
    - by rewrite (testbit_high 8 b n). }
  assert (Z.land (vid / 256) 15 = vid / 256) as -> by (change 15 with (Z.ones 4); rewrite Z.land_ones by lia; change (2 ^ 4) with 16; zdiv).
  assert (Z.land (vid mod 256) 255 = vid mod 256) as -> by (change 255 with (Z.ones 8); rewrite Z.land_ones by lia; change (2 ^ 8) with 256; zdiv).
  assert (0 <= Z.land a 240 < 256) as Hl by (apply (land_range 8); [lia|exact B1]). rewrite lor_bytes by zdiv. rewrite Z.lor_0_l.
  assert (0 <= Z.lor (Z.land a 240) (vid / 256) < 256) as Hlo by (apply (lor_range 8); [lia|exact Hl|unfold is_u; zdiv]). set (x := Z.lor _ _) in *.
  assert (0 <= vid mod 256 < 256) as Hlow by zdiv. set (y := vid mod 256) in *. rewrite wrap_small by (unfold is_u; lia).
  replace ((x + 256 * y) mod 256) with x by zdiv. by replace (((x + 256 * y) / 256) mod 256) with y by zdiv.
Qed.

Lemma set_vid_part pre c post vid : 18 <= zlen c -> vlanhdr_set_vid (pre ++ c ++ post) (zlen pre) vid = pre ++ vlanhdr_set_vid c 0 vid ++ post.
Proof. intros. unfold vlanhdr_set_vid. rewrite ld16_part by lia. by rewrite st16_part by lia. Qed.

Lemma get_vid_part pre c post : 18 <= zlen c -> vlanhdr_get_vid (pre ++ c ++ post) (zlen pre) = vlanhdr_get_vid c 0.
Proof. intros. unfold vlanhdr_get_vid. by rewrite ld16_part by lia. Qed.

Lemma is_8021q_part pre c post : 14 <= zlen c -> Forall is_byte c -> is_8021q (pre ++ c ++ post) (zlen pre) = tagged c.
Proof.
  intros Hl Hc. unfold is_8021q. rewrite ld16_part by lia. unfold ld16, tagged. change (htons OPENVPN_ETH_P_8021Q) with 129. change (12 + 1) with 13.
  pose proof (zget_byte c 12 Hc). pose proof (zget_byte c 13 Hc). unfold is_byte in *.
  destruct (Z.eqb_spec (zget 0 c 12) 129), (Z.eqb_spec (zget 0 c 13) 0), (Z.eqb_spec (zget 0 c 12 + 256 * zget 0 c 13) 129); lia || done.
Qed.

(** ** The code on frames *)

Lemma live_at b pre c post : b_data b = Some (pre ++ c ++ post) -> b_offset b = zlen pre -> b_len b = zlen c ->
  b_capacity b = zlen (pre ++ c ++ post) -> b_capacity b < BUF_SIZE_MAX -> Forall is_byte (pre ++ c ++ post) -> buf_live b /\ buf_contents b = c.
Proof.
  intros Hd Ho Hl Hc Hm Hb. rewrite !zlen_app in Hc. pose proof (zlen_nonneg pre). pose proof (zlen_nonneg c). pose proof (zlen_nonneg post).
  assert (buf_live b) as Hlive by (apply (buf_live_intro _ _ Hd); rewrite ?zlen_app; auto with lia). split; [done|].
  rewrite (buf_contents_live b _ Hlive Hd). by apply mem_read_at.
Qed.

(** The first bytes of a frame one by one. *)
Ltac frame_head c n r := match n with 0%nat => rename c into r | S ?m => let a := fresh "a" in destruct c as [|a c]; [exfalso; cbn in *; lia|]; frame_head c m r end.

Lemma is_byte_parts x y : is_byte x -> is_byte y -> (x + 256 * y) mod 256 = x /\ ((x + 256 * y) / 256) mod 256 = y.
Proof. unfold is_byte. split; zdiv. Qed.

(** What a function that may drop the frame leaves in the buffer. *)
Definition leaves (b : buffer) (f : option (list Z)) : Prop :=
  match f with Some f => buf_live b /\ buf_contents b = f | None => b_len b = 0 end.

Lemma strip_block pre c post : 18 <= zlen c -> Forall is_byte c ->
  st16 (mem_write (pre ++ c ++ post) (zlen pre + 4) (mem_read (pre ++ c ++ post) (zlen pre) 14)) (zlen pre + 4 + 12) (ld16 (pre ++ c ++ post) (zlen pre + 16))
  = (pre ++ take 4 c) ++ (take 12 c ++ drop 16 c) ++ post.
Proof.
  intros Hl Hc. rewrite ld16_part by lia. replace (mem_read _ _ 14) with (mem_read c 0 14) by (rewrite <- (mem_read_part pre c post) by lia; f_equal; lia).
  assert (18 <= length c)%nat as Hn by (unfold zlen in Hl; lia). clear Hl. frame_head c 18%nat r. rewrite !Forall_cons in Hc. destruct_and! Hc.
  set (x := ld16 _ 16). change x with (a15 + 256 * a16) in *. cbn [take drop mem_read Z.to_nat Pos.to_nat Pos.iter_op Nat.add].
  change (mem_read _ 0 14) with [a; a0; a1; a2; a3; a4; a5; a6; a7; a8; a9; a10; a11; a12].
  replace (pre ++ (a :: a0 :: a1 :: a2 :: a3 :: a4 :: a5 :: a6 :: a7 :: a8 :: a9 :: a10 :: a11 :: a12 :: a13 :: a14 :: a15 :: a16 :: r) ++ post)
    with ((pre ++ [a; a0; a1; a2]) ++ [a3; a4; a5; a6; a7; a8; a9; a10; a11; a12; a13; a14; a15; a16] ++ (r ++ post)) by by rewrite <- app_assoc.
  assert (zlen pre + 4 = zlen (pre ++ [a; a0; a1; a2])) as -> by by rewrite zlen_app.
  rewrite mem_write_at by done. rewrite st16_part by (unfold zlen; cbn; lia). unfold st16. destruct (is_byte_parts a15 a16) as [-> ->]; [done|done|]. by rewrite <- !app_assoc.
Qed.

Lemma decapsulate_untags o b : buf_live b -> exists r b', vlan_decapsulate o b = Some (r, b') /\
  r = from_option fst (-1) (untag o (buf_contents b)) /\ leaves b' (snd <$> untag o (buf_contents b)).
Proof.
  intros Hb. destruct (live_split b Hb) as (pre & post & Hp & Hd). set (c := buf_contents b) in *.
  assert (zlen c = b_len b) as Hlen by by apply buf_contents_length. assert (Forall is_byte c) as Hc by (apply buf_contents_bytes, Hb).
  unfold vlan_decapsulate, untag. rewrite buf_live_len, buf_live_bptr, Hd by done. cbn [mbind option_bind]. rewrite Hlen.
  change sizeof_ethhdr with 14. change sizeof_8021qhdr with 18. destruct (Z.ltb_spec (b_len b) 14); [by eexists _, _|].
  rewrite <- Hp, is_8021q_part by (done || lia). destruct (tagged c); cbn [negb]; [|case_bool_decide; by eexists _, _].
  destruct (Z.ltb_spec (b_len b) 18); [by eexists _, _|]. rewrite get_vid_part by lia. rewrite get_vid by done. change (0 + 14) with 14. change (0 + 15) with 15.
  fold (frame_vid c). set (v := frame_vid c). case_bool_decide; cbn [andb].
  - destruct (Z.eqb_spec v 0); cbn [negb]; by eexists _, _.
  - destruct (Z.eqb_spec v 0); [by eexists _, _|].
    destruct (advance_live b SIZE_ETH_TO_8021Q_HDR Hb) as (nb & Ha & Hnb & _ & Hnbe); [change SIZE_ETH_TO_8021Q_HDR with 4; lia|]. rewrite Ha.
    rewrite buf_live_bptr by done. cbn [mbind option_bind]. rewrite Hnbe. cbn. change SIZE_ETH_TO_8021Q_HDR with 4. rewrite <- Hp.
    rewrite strip_block by (done || lia). eexists _, _. split; [reflexivity|]. split; [done|]. cbn.
    destruct (buf_live_data b Hb) as (d & Hd' & Hl & Hf). rewrite Hd in Hd'. injection Hd' as <-. rewrite !Forall_app in Hf. destruct Hf as (F1 & _ & F2).
    assert (Hw := Hb). destruct Hw as [[] _]. pose proof (take_drop 16 c) as Htd.
    assert (zlen (take 12 c ++ drop 16 c) = zlen c - 4) as Hz by (rewrite zlen_app; unfold zlen in *; rewrite length_take, length_drop; lia).
    assert (zlen (take 4 c) = 4) as H4 by (unfold zlen in *; rewrite length_take; lia). set (f := take 12 c ++ drop 16 c) in *.
    eapply (live_at _ (pre ++ take 4 c) f post); cbn; rewrite ?zlen_app in *; try reflexivity; try lia.
    unfold f. rewrite !Forall_app. repeat split; try done; by (apply Forall_take || apply Forall_drop).
Qed.

Lemma tag_block pre j c post vid : zlen j = 4 -> 14 <= zlen c -> Forall is_byte (j ++ c) -> 0 <= vid < 4096 ->
  let d := pre ++ j ++ c ++ post in
  let d' := mem_write d (zlen pre) (mem_read d (zlen pre + 4) 14) in
  vlanhdr_set_vid (st16 (st16 (st16 d' (zlen pre + 12) (htons OPENVPN_ETH_P_8021Q)) (zlen pre + 14) 0) (zlen pre + 16) (ld16 d (zlen pre + 4 + 12))) (zlen pre) vid
  = pre ++ (take 12 c ++ [129; 0] ++ tag_bytes 0 vid ++ drop 12 c) ++ post.
Proof.
  intros Hj Hl Hb Hv. cbv zeta. rewrite (app_assoc j c), <- Z.add_assoc. change (4 + 12) with 16.
  assert (18 <= zlen (j ++ c)) as Hjc by (rewrite zlen_app; lia). rewrite ld16_part, mem_read_part by lia.
  assert (14 <= length c)%nat as Hn by (unfold zlen in Hl; lia). assert (length j = 4)%nat as Hj' by (unfold zlen in Hj; lia). clear Hl Hj Hjc.
  do 4 (destruct j as [|? j]; [done|]). destruct j; [|done]. frame_head c 14%nat r. cbn [app]. cbn [app] in Hb. rewrite !Forall_cons in Hb. destruct_and! Hb.
  set (x := ld16 _ 16). change x with (a11 + 256 * a12) in *.
  change (mem_read (_ :: _) 4 14) with [a; a0; a1; a2; a3; a4; a5; a6; a7; a8; a9; a10; a11; a12].
  replace (pre ++ (z :: z0 :: z1 :: z2 :: a :: a0 :: a1 :: a2 :: a3 :: a4 :: a5 :: a6 :: a7 :: a8 :: a9 :: a10 :: a11 :: a12 :: r ++ post))
    with (pre ++ [z; z0; z1; z2; a; a0; a1; a2; a3; a4; a5; a6; a7; a8] ++ ([a9; a10; a11; a12] ++ r ++ post)) by done.
  rewrite mem_write_at by done.
  replace (pre ++ [a; a0; a1; a2; a3; a4; a5; a6; a7; a8; a9; a10; a11; a12] ++ [a9; a10; a11; a12] ++ r ++ post)
    with (pre ++ [a; a0; a1; a2; a3; a4; a5; a6; a7; a8; a9; a10; a11; a12; a9; a10; a11; a12] ++ r ++ post) by by rewrite <- ?app_assoc.
  rewrite !st16_part by (rewrite ?zlen_st16; unfold zlen; cbn; lia). rewrite set_vid_part by (rewrite !zlen_st16; unfold zlen; cbn; lia).
  change (htons OPENVPN_ETH_P_8021Q) with 129. unfold st16. destruct (is_byte_parts a11 a12) as [-> ->]; [done|done|].
  change (129 mod 256) with 129. change ((129 / 256) mod 256) with 0. change (0 mod 256) with 0. change ((0 / 256) mod 256) with 0.
  match goal with |- context [vlanhdr_set_vid ?X 0 vid] => change X with [a; a0; a1; a2; a3; a4; a5; a6; a7; a8; a9; a10; 129; 0; 0; 0; a11; a12] end.
  rewrite set_vid by (done || (rewrite !Forall_cons; repeat split; first [by apply Forall_nil|assumption|unfold is_byte in *; lia])).
  match goal with |- context [zput (zput ?X _ ?u) _ ?v] => change (zput (zput X (0 + 14) u) (0 + 15) v) with [a; a0; a1; a2; a3; a4; a5; a6; a7; a8; a9; a10; 129; 0; u; v; a11; a12] end.
  reflexivity.
Qed.

Lemma retag_block c vid : 18 <= zlen c -> Forall is_byte c -> 0 <= vid < 4096 ->
  vlanhdr_set_vid c 0 vid = take 14 c ++ tag_bytes (zget 0 c 14) vid ++ drop 16 c.
Proof.
  intros Hl Hc Hv. rewrite set_vid by done. change (0 + 14) with 14. change (0 + 15) with 15. unfold tag_bytes.
  assert (18 <= length c)%nat as Hn by (unfold zlen in Hl; lia). clear Hl. by frame_head c 18%nat r.
Qed.

Lemma tag_bytes_ok a vid : is_byte a -> 0 <= vid < 4096 -> Forall is_byte (tag_bytes a vid).
Proof.
  intros Ha Hv. assert (0 <= Z.land a 240 < 256) as Hl by (apply (land_range 8); [lia|exact Ha]).
  repeat constructor; try (unfold is_byte; zdiv); apply (lor_range 8); (lia || exact Hl || (unfold is_u; zdiv)).
Qed.

Lemma encapsulate_tags o b : buf_live b -> 0 <= vlan_pvid o < 4096 ->
  exists b', vlan_encapsulate o b = Some b' /\ leaves b' (add_tag (vlan_pvid o) (b_offset b) (buf_contents b)).
Proof.
  intros Hb Hv. destruct (live_split b Hb) as (pre & post & Hp & Hd). set (c := buf_contents b) in *.
  assert (zlen c = b_len b) as Hlen by by apply buf_contents_length. assert (Forall is_byte c) as Hc by (apply buf_contents_bytes, Hb).
  destruct (buf_live_data b Hb) as (d & Hd' & Hl & Hf). rewrite Hd in Hd'. injection Hd' as <-. assert (Hw := Hb). destruct Hw as [[] _].
  unfold vlan_encapsulate, add_tag. set (vid := vlan_pvid o) in *. rewrite buf_live_len, buf_live_bptr, Hd by done. cbn [mbind option_bind]. rewrite Hlen.
  change sizeof_ethhdr with 14. change sizeof_8021qhdr with 18. change SIZE_ETH_TO_8021Q_HDR with 4. destruct (Z.ltb_spec (b_len b) 14); [by eexists|].
  rewrite <- Hp, is_8021q_part by (done || lia). unfold buf_reverse_capacity, buf_prepend. rewrite buf_live_valid by done. cbn [negb orb]. rewrite <- Hp.
  destruct (tagged c).
  - destruct (Z.ltb_spec (b_len b) 18); [by eexists|]. rewrite get_vid_part by lia. rewrite get_vid by done. change (0 + 14) with 14. change (0 + 15) with 15.
    fold (frame_vid c). destruct (Z.eqb_spec (frame_vid c) 0); cbn [negb]; [|by eexists]. rewrite set_vid_part, retag_block by (done || lia).
    eexists. split; [reflexivity|]. rewrite !Forall_app in Hf. destruct Hf as (F1 & _ & F2). pose proof (tag_bytes_ok (zget 0 c 14) vid (zget_byte c 14 Hc) Hv) as Htb.
    assert (zlen (take 14 c ++ tag_bytes (zget 0 c 14) vid ++ drop 16 c) = zlen c) as Hz by (rewrite !zlen_app; unfold zlen, tag_bytes in *; rewrite length_take, length_drop; cbn [length]; lia).
    set (f := take 14 c ++ _) in *. eapply (live_at _ pre f post); cbn; rewrite ?zlen_app in *; try reflexivity; try lia.
    unfold f. rewrite !Forall_app. repeat split; try done; by (apply Forall_take || apply Forall_drop).
  - destruct (Z.ltb_spec (zlen pre) 4); [by eexists|]. unfold buf_bptr. cbn.
    match goal with |- context [buf_valid ?nb] => set (nb' := nb) end.
    assert (buf_valid nb' = true) as -> by (apply buf_live_valid; apply (buf_live_intro nb' _ Hd); cbn; auto with lia). cbn [mbind option_bind].
    set (q := take (Z.to_nat (zlen pre - 4)) pre). set (j := drop (Z.to_nat (zlen pre - 4)) pre). assert (pre = q ++ j) as Hpre by (unfold q, j; by rewrite take_drop).
    assert (zlen j = 4) as Hj by (unfold j, zlen in *; rewrite length_drop; lia). assert (zlen q = zlen pre - 4) as Hq by (pose proof (f_equal zlen Hpre) as E; rewrite zlen_app in E; lia); clearbody q j; subst pre.
    pose proof (tag_block q j c post vid Hj) as Htag. cbv zeta in Htag. rewrite <- !app_assoc in *. rewrite !zlen_app, Hj in *. replace (zlen q + 4 - 4) with (zlen q) by lia.
    rewrite !Forall_app in Hf. destruct Hf as (F1 & F2 & F3 & F4). cbn in Htag |- *.
    rewrite Htag by (done || lia || by apply Forall_app). eexists. split; [reflexivity|].
    assert (zlen (take 12 c ++ [129; 0] ++ tag_bytes 0 vid ++ drop 12 c) = zlen c + 4) as Hz by (rewrite !zlen_app; unfold zlen, tag_bytes in *; rewrite length_take, length_drop; cbn [length]; lia).
    pose proof (tag_bytes_ok 0 vid ltac:(done) Hv) as Htb. set (f := take 12 c ++ [129; 0] ++ tag_bytes 0 vid ++ drop 12 c) in *.
    eapply (live_at _ q f post); cbn; rewrite ?zlen_app in *; try reflexivity; try lia; [unfold f; by rewrite <- !app_assoc|].
    unfold f. rewrite !Forall_app. repeat split; try done; try (by (apply Forall_take || apply Forall_drop)). by repeat constructor.
Qed.

(** ** Round trip *)

Lemma frame_vid_tag m a vid r : zlen m = 14 -> is_byte a -> 0 <= vid < 4096 -> frame_vid (m ++ tag_bytes a vid ++ r) = vid.
Proof.
  intros Hm Ha Hv. unfold frame_vid, tag_bytes. cbn [app]. rewrite zget_at by done. change (Z.lor (Z.land a 240) (vid / 256) :: vid mod 256 :: r) with ([Z.lor (Z.land a 240) (vid / 256)] ++ vid mod 256 :: r).
  rewrite app_assoc, zget_at by (rewrite zlen_app; unfold zlen in *; cbn; lia).
  assert (Z.lor (Z.land a 240) (vid / 256) mod 16 = vid / 256) as ->; [|zdiv].
  change 16 with (2 ^ 4). rewrite <- Z.land_ones by lia. change (Z.ones 4) with 15. rewrite Z.land_lor_distr_l, <- Z.land_assoc. change (Z.land 240 15) with 0.
  rewrite Z.land_0_r, Z.lor_0_l. change 15 with (Z.ones 4). rewrite Z.land_ones by lia. change (2 ^ 4) with 16. zdiv.
Qed.

Lemma is_tagged_frame b : buf_live b -> let f := buf_contents b in
  vlan_is_tagged b = Some ((18 <=? zlen f) && tagged f && negb (frame_vid f =? 0)).
Proof.
  intros Hb f. destruct (live_split b Hb) as (pre & post & Hp & Hd). fold f in Hd. assert (zlen f = b_len b) as Hlen by by apply buf_contents_length.
  assert (Forall is_byte f) as Hc by (apply buf_contents_bytes, Hb). unfold vlan_is_tagged. rewrite buf_live_len, buf_live_bptr, Hd, Hlen by done. cbn [mbind option_bind].
  change sizeof_8021qhdr with 18. destruct (Z.ltb_spec (b_len b) 18), (Z.leb_spec 18 (b_len b)); try lia; [done|]. cbn [andb]. rewrite <- Hp.
  pose proof (is_8021q_part pre f post ltac:(lia) Hc) as Ht. unfold is_8021q in Ht.
  assert ((ntohs (ld16 (pre ++ f ++ post) (zlen pre + 12)) =? OPENVPN_ETH_P_8021Q) = tagged f) as ->.
  { rewrite <- Ht. rewrite ld16_part in * by lia. pose proof (ld16_range f 12 Hc) as Hr. set (v := ld16 f 12) in *. unfold ntohs, OPENVPN_ETH_P_8021Q. change (htons 33024) with 129.
    destruct (Z.eqb_spec (256 * (v mod 256) + (v / 256) mod 256) 33024), (Z.eqb_spec v 129); try done; exfalso; zdiv. }
  destruct (tagged f); cbn [negb andb]; [|done]. by rewrite get_vid_part, get_vid by (done || lia).
Qed.

Lemma vlan_roundtrip b o o' : buf_live b -> let f := buf_contents b in
  14 <= zlen f -> tagged f = false -> 4 <= b_offset b -> 1 <= vlan_pvid o < 4096 -> vlan_accept o' <> VLAN_ONLY_UNTAGGED_OR_PRIORITY ->
  exists b' b'', vlan_encapsulate o b = Some b' /\ buf_live b' /\ vlan_is_tagged b' = Some true /\
    buf_contents b' = take 12 f ++ [129; 0] ++ tag_bytes 0 (vlan_pvid o) ++ drop 12 f /\
    vlan_decapsulate o' b' = Some (vlan_pvid o, b'') /\ buf_live b'' /\ buf_contents b'' = f.
Proof.
  intros Hb f Hf Ht Hroom Hv Ho'. assert (Forall is_byte f) as Hc by (apply buf_contents_bytes, Hb).
  destruct (encapsulate_tags o b Hb ltac:(lia)) as (b' & He & Hleaves). fold f in Hleaves. unfold add_tag in Hleaves. rewrite Ht in Hleaves.
  destruct (Z.ltb_spec (zlen f) 14), (Z.ltb_spec (b_offset b) 4); try lia. destruct Hleaves as [Hb' Hcon].
  set (g := take 12 f ++ [129; 0] ++ _) in *. assert (g = take 12 f ++ [129; 0] ++ tag_bytes 0 (vlan_pvid o) ++ drop 12 f) as Hg by done.
  assert (zlen (take 12 f) = 12) as Htk by (unfold zlen in *; rewrite length_take; lia).
  assert (zlen g = zlen f + 4) as Hz by (unfold g; rewrite !zlen_app; unfold zlen, tag_bytes in *; rewrite length_take, length_drop; cbn [length]; lia).
  assert (tagged g = true) as Htg by (unfold g, tagged; cbn [app]; rewrite zget_at, (cons_middle 129), app_assoc, zget_at by (rewrite ?zlen_app, ?Htk; done); done).
  assert (frame_vid g = vlan_pvid o) as Hvid by (rewrite Hg, app_assoc; apply frame_vid_tag; [rewrite zlen_app, Htk|..]; done || lia).
  destruct (decapsulate_untags o' b' Hb') as (r & b'' & Hd & Hr & Hlv). rewrite Hcon in Hr, Hlv. unfold untag in Hr, Hlv.
  rewrite Htg, Hvid in Hr, Hlv. destruct (Z.ltb_spec (zlen g) 14), (Z.ltb_spec (zlen g) 18), (Z.eqb_spec (vlan_pvid o) 0); try lia. cbn [negb] in *.
  case_bool_decide; [done|]. cbn in Hr, Hlv. destruct Hlv as [Hb'' Hcon'']. exists b', b''. split; [done|]. split; [done|]. split.
  { rewrite is_tagged_frame by done. rewrite Hcon, Htg, Hvid. destruct (Z.leb_spec 18 (zlen g)), (Z.eqb_spec (vlan_pvid o) 0); done || lia. }
  split; [done|]. split; [by rewrite Hd, Hr|]. split; [done|]. rewrite Hcon''. assert (length (take 12 f) = 12)%nat as Htk' by (unfold zlen in Htk; lia).
  rewrite Hg, take_app_le, take_ge, drop_app_ge by lia. replace (16 - length (take 12 f))%nat with 4%nat by lia.
  change (drop 4 ([129; 0] ++ tag_bytes 0 (vlan_pvid o) ++ drop 12 f)) with (drop 12 f). apply take_drop.
Qed.

(** C24. Frames keep their network.  Let a client send an untagged Ethernet frame, in a
    buffer with room for a tag, to the tap device of a server with VLAN tagging.  If the
    device carries untagged frames only, the frame passes exactly if the client is in the
    network of the device.  Otherwise it always passes: it has a tag exactly if the device
    wants tags on all frames, or on those of other networks, and the client is in one; a
    tag comes behind the addresses and names the network of the client.  In each case the
    server that reads the frame back from the device finds the network of the client and
    the frame as it was. *)
Theorem vlan_frames_keep_network top mi b : buf_live b -> let f := buf_contents b in
  14 <= zlen f -> tagged f = false -> 4 <= b_offset b -> 1 <= vlan_pvid mi < 4096 -> vlan_tagging top = true ->
  exists b', vlan_process_outgoing_tun top mi b = Some b' /\
    if bool_decide (vlan_accept top = VLAN_ONLY_UNTAGGED_OR_PRIORITY) && negb (vlan_pvid top =? vlan_pvid mi) then b_len b' = 0
    else let with_tag := bool_decide (vlan_accept top = VLAN_ONLY_TAGGED) || negb (vlan_pvid top =? vlan_pvid mi) in
      buf_live b' /\ vlan_is_tagged b' = Some with_tag /\
      buf_contents b' = (if with_tag then take 12 f ++ [129; 0] ++ tag_bytes 0 (vlan_pvid mi) ++ drop 12 f else f) /\
      exists b'', vlan_decapsulate top b' = Some (vlan_pvid mi, b'') /\ buf_live b'' /\ buf_contents b'' = f.
Proof.
  intros Hb f Hf Ht Hroom Hv Htop. unfold vlan_process_outgoing_tun. rewrite Htop. cbn [negb].
  assert (vlan_accept top <> VLAN_ONLY_TAGGED -> vlan_pvid top = vlan_pvid mi -> vlan_is_tagged b = Some false /\ exists b'', vlan_decapsulate top b = Some (vlan_pvid mi, b'') /\ buf_live b'' /\ buf_contents b'' = f) as Hsame.
  { intros Hn He. split; [rewrite is_tagged_frame by done; fold f; rewrite Ht; by rewrite andb_false_r|].
    destruct (decapsulate_untags top b Hb) as (r & b'' & Hd & Hr & Hlv). fold f in Hr, Hlv. unfold untag in Hr, Hlv. rewrite Ht in Hr, Hlv.
    destruct (Z.ltb_spec (zlen f) 14); [lia|]. cbn [negb] in *. case_bool_decide; [done|]. cbn in Hr, Hlv. exists b''. by rewrite Hd, Hr, He. }
  assert (vlan_accept top <> VLAN_ONLY_UNTAGGED_OR_PRIORITY -> exists b' b'', vlan_encapsulate mi b = Some b' /\ buf_live b' /\ vlan_is_tagged b' = Some true /\
    buf_contents b' = take 12 f ++ [129; 0] ++ tag_bytes 0 (vlan_pvid mi) ++ drop 12 f /\ vlan_decapsulate top b' = Some (vlan_pvid mi, b'') /\ buf_live b'' /\ buf_contents b'' = f) as Htagged
    by (intros; by apply vlan_roundtrip).
  destruct (vlan_accept top) eqn:Ha; (case_bool_decide as B1; try congruence); (case_bool_decide as B2; try congruence); cbn [andb orb] in *.
  - destruct Htagged as (b' & b'' & He & ? & ? & ? & ? & ? & ?); [done|]. exists b'. by eauto 10.
  - destruct (Z.eqb_spec (vlan_pvid top) (vlan_pvid mi)); cbn [negb]; [|by eexists]. destruct Hsame as [? ?]; [done|done|]. by exists b.
  - destruct (Z.eqb_spec (vlan_pvid top) (vlan_pvid mi)); cbn [negb].
    + destruct Hsame as [? ?]; [done|done|]. by exists b.
    + destruct Htagged as (b' & b'' & He & ? & ? & ? & ? & ? & ?); [done|]. exists b'. by eauto 10.
Qed.

(** A frame of a client in network 5, on a device in network 1. *)
Definition toy_frame : list Z := replicate 8 0 ++ [1; 2; 3; 4; 5; 6; 7; 8; 9; 10; 11; 12; 8; 0; 69].
Definition toy_frame_buffer : buffer := mkbuffer 23 8 15 (Some toy_frame).

Lemma vlan_frames_keep_network_witness : exists b',
  vlan_process_outgoing_tun (mkvlan true VLAN_ALL 1) (mkvlan true VLAN_ALL 5) toy_frame_buffer = Some b' /\
  buf_contents b' = [1; 2; 3; 4; 5; 6; 7; 8; 9; 10; 11; 12; 129; 0; 0; 5; 8; 0; 69].
Proof.
  destruct (vlan_frames_keep_network (mkvlan true VLAN_ALL 1) (mkvlan true VLAN_ALL 5) toy_frame_buffer) as (b' & He & H).
  - apply (buf_live_intro _ toy_frame); try reflexivity; try (vm_compute; done). repeat constructor; vm_compute; intuition discriminate.
  - vm_compute; discriminate.
  - reflexivity.
  - vm_compute; discriminate.
  - cbn; lia.
  - reflexivity.
  - exists b'. split; [exact He|]. destruct H as (_ & _ & -> & _). reflexivity.
Defined.

(** A frame with a tag that gives a priority and no network passes a device for tagged
    frames only. *)
Lemma priority_frame_accepted o f : vlan_accept o = VLAN_ONLY_TAGGED -> 18 <= zlen f -> tagged f = true -> frame_vid f = 0 -> untag o f = Some (vlan_pvid o, f).
Proof.
  intros Ho Hl Ht Hv. unfold untag. rewrite Ht, Hv. by destruct (Z.ltb_spec (zlen f) 14), (Z.ltb_spec (zlen f) 18); try lia.
Qed.
