(* ===== verification/InnerPacket.v ===== *)
(** What becomes of a packet on its way through the tunnel ([process_ip_header] in
    [src/openvpn/forward.c]): its TCP options, addresses and DHCP options are changed in
    place, and with IPv6 blocked it is answered with an ICMPv6 message. *)
From Stdlib Require Import String.
From stdpp Require Import list.
From S2P Require Import Prelude Integer Buffer Mtu Proto Mss ClientNat Dhcp.

(** ** The code *)

Definition PIPV4_PASSTOS : Z := Z.shiftl 1 0.
Definition PIP_MSSFIX : Z := Z.shiftl 1 1.
Definition PIP_OUTGOING : Z := Z.shiftl 1 2.
Definition PIPV4_EXTRACT_DHCP_ROUTER : Z := Z.shiftl 1 3.
Definition PIPV4_CLIENT_NAT : Z := Z.shiftl 1 4.
Definition PIPV6_IMCP_NOHOST_CLIENT : Z := Z.shiftl 1 5.
Definition PIPV6_IMCP_NOHOST_SERVER : Z := Z.shiftl 1 6.
Definition OPENVPN_ICMP6_DESTINATION_UNREACHABLE : Z := 1.
Definition OPENVPN_ICMP6_DU_NOROUTE : Z := 0.
Definition MAX_ICMPV6LEN : Z := 1280.

(** The options, and the state the functions change: the type of service and the
    gateway they found, and the buffers ([i_aux] is [aux_buf]).  [i_route_list] is
    [None] for a null list, and holds the gateway once there is one. *)
Record ip_context := mkipc {
  i_type : Z; i_mssfix : bool; i_passtos : bool; i_client_nat : option client_nat_option_list; i_via_dhcp : bool; i_block_ipv6 : bool;
  i_remote6 : option string; i_frame : frame;
  i_tos : option Z; i_route_list : option (option Z); i_to_tun : buffer; i_to_link : buffer; i_aux : buffer }.
#[export] Instance eta_ip_context : EtaOf ip_context := fun r =>
  mkipc (i_type r) (i_mssfix r) (i_passtos r) (i_client_nat r) (i_via_dhcp r) (i_block_ipv6 r) (i_remote6 r) (i_frame r)
    (i_tos r) (i_route_list r) (i_to_tun r) (i_to_link r) (i_aux r).

Definition link_socket_extract_tos (c : ip_context) (ipbuf : buffer) : option ip_context :=
  p ← buf_bptr ipbuf;
  Some (c <| i_tos := Some (buf_peek ipbuf (p + 1)) |>).

Definition route_list_add_vpn_gateway (c : ip_context) (addr : Z) : option ip_context :=
  _ ← i_route_list c;
  Some (c <| i_route_list := Some (Some addr) |>).

Section Code.
(** The resolver of the system: the 16 bytes of an IPv6 address. *)
Context (inet_pton6 : string -> option (list Z)).

(** [to_tun] or [to_link] with the block of [aux_buf]. *)
Definition set_outbuf (c : ip_context) (client : bool) (outbuf : buffer) : ip_context :=
  let c := c <| i_aux := (i_aux c) <| b_data := b_data outbuf |> |> in
  if client then c <| i_to_tun := outbuf |> else c <| i_to_link := outbuf |>.

(** [icmp6out]. *)
Definition icmp6_header : list Z := [OPENVPN_ICMP6_DESTINATION_UNREACHABLE; OPENVPN_ICMP6_DU_NOROUTE; 0; 0; 0; 0; 0; 0].

(** [pip6out]. *)
Definition ip6_reply_header (c : ip_context) (pip6 : list Z) (payload_len : Z) : list Z :=
  let pip6out := mem_write pip6 24 (mem_read pip6 8 16) in
  let pip6out :=
    match inet_pton6 (default "fe80::7"%string (i_remote6 c)) with
    | Some a => mem_write pip6out 8 a
    | None => pip6out
    end in
  let pip6out := zput pip6out 6 OPENVPN_IPPROTO_ICMPV6 in
  st16 pip6out 4 (htons (u16 (sizeof_icmp6hdr + payload_len))).

(** [ethhdr]. *)
Definition ether_reply_header (orig : list Z) : list Z :=
  mem_read orig 6 OPENVPN_ETH_ALEN ++ mem_read orig 0 OPENVPN_ETH_ALEN ++ [htons OPENVPN_ETH_P_IPV6 mod 256; htons OPENVPN_ETH_P_IPV6 / 256].

(** The answer up to its IPv6 header, in the block of [aux_buf]. *)
Definition icmp6_packet (aux_buf inputipbuf : buffer) (totalheader_len payload_len : Z) (pip6out : list Z) : option buffer :=
  let '(ok, outbuf) := buf_init_dowork aux_buf totalheader_len in
  _ ← guard (ok = true);
  _ ← guard (buf_safe outbuf payload_len = true);
  let '(ok, outbuf, _) := buf_copy_n outbuf inputipbuf payload_len in
  _ ← guard (ok = true);
  let '(ok, outbuf) := buf_write_prepend outbuf icmp6_header in
  _ ← guard (ok = true);
  q ← buf_bptr outbuf;
  new_csum ← ip_checksum (buf_contents outbuf) (mem_read pip6out 8 16) (mem_read pip6out 24 16) OPENVPN_IPPROTO_ICMPV6;
  d ← b_data outbuf;
  let '(ok, outbuf) := buf_write_prepend (outbuf <| b_data := Some (st16 d (q + 2) (htons new_csum)) |>) pip6out in
  _ ← guard (ok = true);
  Some outbuf.

Definition ipv6_send_icmp_unreachable (c : ip_context) (buf : buffer) (client : bool) : option ip_context :=
  '(_, inputipbuf) ← is_ipv6 (i_type c) buf;
  if buf_len inputipbuf <? sizeof_ipv6hdr then Some c
  else
    p ← buf_bptr inputipbuf;
    let icmpheader_len := sizeof_ipv6hdr + sizeof_icmp6hdr in
    let tap := i_type c =? DEV_TYPE_TAP in
    let totalheader_len := icmpheader_len + (if tap then sizeof_ethhdr else 0) in
    let max_payload_size := Z.min MAX_ICMPV6LEN (TUN_MTU_SIZE (i_frame c) - icmpheader_len) in
    let payload_len := Z.min max_payload_size (buf_len inputipbuf) in
    let pip6out := ip6_reply_header c (buf_load inputipbuf p sizeof_ipv6hdr) payload_len in
    outbuf ← icmp6_packet (i_aux c) inputipbuf totalheader_len payload_len pip6out;
    if tap then
      if buf_len buf <? sizeof_ethhdr then Some (set_outbuf c client outbuf)
      else
        o ← buf_bptr buf;
        let '(ok, outbuf) := buf_write_prepend outbuf (ether_reply_header (buf_load buf o sizeof_ethhdr)) in
        _ ← guard (ok = true);
        Some (set_outbuf c client outbuf)
    else Some (set_outbuf c client outbuf).

Definition has (flags bit : Z) : bool := negb (Z.land flags bit =? 0).
Definition clear_unless (cond : bool) (flags bits : Z) : Z := if cond then flags else Z.land flags (Z.lnot bits).

(** The flags the options leave. *)
Definition ip_flags (c : ip_context) (flags : Z) : Z :=
  let flags := clear_unless (i_mssfix c) flags PIP_MSSFIX in
  let flags := clear_unless (i_passtos c) flags PIPV4_PASSTOS in
  let flags := clear_unless (bool_decide (is_Some (i_client_nat c))) flags PIPV4_CLIENT_NAT in
  let flags := clear_unless (i_via_dhcp c) flags PIPV4_EXTRACT_DHCP_ROUTER in
  clear_unless (i_block_ipv6 c) flags (Z.lor PIPV6_IMCP_NOHOST_CLIENT PIPV6_IMCP_NOHOST_SERVER).

(** The changes of an IPv4 packet. *)
Definition process_ipv4 (c : ip_context) (flags : Z) (ipbuf : buffer) : option (ip_context * buffer) :=
  c ← (if has flags PIPV4_PASSTOS then link_socket_extract_tos c ipbuf else Some c);
  ipbuf ← (if has flags PIP_MSSFIX then mss_fixup_ipv4 ipbuf (MTU_TO_MSS (TUN_MTU_SIZE_DYNAMIC (i_frame c))) else Some ipbuf);
  ipbuf ← (match i_client_nat c with
           | Some l => if has flags PIPV4_CLIENT_NAT then client_nat_transform l ipbuf (if has flags PIP_OUTGOING then CN_INCOMING else CN_OUTGOING) else Some ipbuf
           | None => Some ipbuf
           end);
  if has flags PIPV4_EXTRACT_DHCP_ROUTER then
    '(dhcp_router, ipbuf) ← dhcp_extract_router_msg ipbuf;
    c ← (if dhcp_router =? 0 then Some c else route_list_add_vpn_gateway c dhcp_router);
    Some (c, ipbuf)
  else Some (c, ipbuf).

(** [ipbuf] shares the block of [buf]. *)
Definition process_ip_header (c : ip_context) (flags : Z) (buf : buffer) : option (ip_context * buffer) :=
  let flags := ip_flags c flags in
  if 0 <? b_len buf then
    if has flags (Z.lor (Z.lor PIP_MSSFIX PIPV4_PASSTOS) PIPV4_CLIENT_NAT) then
      '(v4, ipbuf) ← is_ipv4 (i_type c) buf;
      if v4 : bool then
        '(c, ipbuf) ← process_ipv4 c flags ipbuf;
        Some (c, buf <| b_data := b_data ipbuf |>)
      else
        '(v6, ipbuf) ← is_ipv6 (i_type c) ipbuf;
        if v6 : bool then
          ipbuf ← (if has flags PIP_MSSFIX then mss_fixup_ipv6 ipbuf (MTU_TO_MSS (TUN_MTU_SIZE_DYNAMIC (i_frame c))) else Some ipbuf);
          let buf := buf <| b_data := b_data ipbuf |> in
          if negb (has flags PIP_OUTGOING) && has flags (Z.lor PIPV6_IMCP_NOHOST_CLIENT PIPV6_IMCP_NOHOST_SERVER) then
            c ← ipv6_send_icmp_unreachable c buf (has flags PIPV6_IMCP_NOHOST_CLIENT);
            Some (c, buf <| b_len := 0 |>)
          else Some (c, buf)
        else Some (c, buf)
    else Some (c, buf)
  else Some (c, buf).
End Code.

(** ** The packet inside *)







(** ** IPv4 *)






Section Ipv4.
Context (c : ip_context).
Context (Hnat : forall l, i_client_nat c = Some l -> Forall entry_ok l).


End Ipv4.

(** ** The ICMPv6 answer *)

(** What the code relies on in the resolver: an address has 16 bytes. *)
Definition pton_ok (inet_pton6 : string -> option (list Z)) : Prop := forall s a, inet_pton6 s = Some a -> zlen a = 16 /\ Forall is_byte a.

Section Reply.
Context (inet_pton6 : string -> option (list Z)).
Context (Hpton : pton_ok inet_pton6).

(** The address the answer comes from: the configured one, or the destination's place
    in the packet keeps the source. *)
Definition reply_source (c : ip_context) (p : list Z) : list Z := default (mem_read p 8 16) (inet_pton6 (default "fe80::7"%string (i_remote6 c))).

Definition reply_payload (c : ip_context) (p : list Z) : list Z :=
  take (Z.to_nat (Z.min (Z.min MAX_ICMPV6LEN (TUN_MTU_SIZE (i_frame c) - 48)) (zlen p))) p.

(** The packet [out] answers the IPv6 packet [p] of the tunnel packet [fr]. *)
Definition unreachable_answer (c : ip_context) (fr p out : list Z) : Prop :=
  exists ck, let src := reply_source c p in let dst := mem_read p 8 16 in
    let icmp := [1; 0] ++ be16 ck ++ [0; 0; 0; 0] ++ reply_payload c p in
    out = (if i_type c =? DEV_TYPE_TAP then mem_read fr 6 6 ++ mem_read fr 0 6 ++ [134; 221] else [])
          ++ (take 4 p ++ be16 (zlen icmp) ++ [OPENVPN_IPPROTO_ICMPV6; zget 0 p 7] ++ src ++ dst) ++ icmp /\
    sum_words icmp + sum_words src + sum_words dst + zlen icmp + OPENVPN_IPPROTO_ICMPV6 ≡₁ 0.




Lemma reply_source_ok c p : 40 <= zlen p -> Forall is_byte p -> zlen (reply_source c p) = 16 /\ Forall is_byte (reply_source c p).
Proof.
  intros Hl Hp. unfold reply_source. destruct (inet_pton6 _) as [a|] eqn:Ea; [exact (Hpton _ _ Ea)|]. cbn.
  split; [by apply mem_read_length; lia|by apply mem_read_Forall].
Qed.








(** ** All packets *)







End Reply.


(** ** Examples *)

Definition toy_pton (_ : string) : option (list Z) := Some ([254; 128] ++ replicate 13 0 ++ [7]).
Definition toy_context (mssfix : bool) : ip_context :=
  mkipc DEV_TYPE_TUN mssfix false None false true None (mkframe 1500 1500 0 0 0 0 0 0) None (Some None) clear_buf clear_buf
    (mkbuffer 1600 0 0 (Some (replicate 1600 0))).
(** An IPv6 packet without a payload, from 2001::1 to 2001::2. *)
Definition toy_ip6 : list Z := [96; 0; 0; 0; 0; 0; 59; 64] ++ [32; 1] ++ replicate 13 0 ++ [1] ++ [32; 1] ++ replicate 13 0 ++ [2].
Definition toy_ip6_buffer : buffer := mkbuffer 40 0 40 (Some toy_ip6).
(** The flags of [process_incoming_tun]. *)
Definition incoming_flags : Z := Z.lor (Z.lor PIPV4_PASSTOS PIP_MSSFIX) (Z.lor PIPV4_CLIENT_NAT PIPV6_IMCP_NOHOST_CLIENT).



(** Without the limit on the segment size the block does not work: the packet passes. *)
Lemma block_ipv6_needs_mssfix :
  option_map snd (process_ip_header toy_pton (toy_context false) incoming_flags toy_ip6_buffer) = Some toy_ip6_buffer /\
  option_map (fun x => b_len x.2) (process_ip_header toy_pton (toy_context true) incoming_flags toy_ip6_buffer) = Some 0.
Proof. split; vm_compute; reflexivity. Qed.

(** The answer to a large packet is larger than the 1280 bytes meant as its limit. *)
Lemma answer_exceeds_limit inet_pton6 c fr p out : pton_ok inet_pton6 -> i_type c = DEV_TYPE_TUN -> Forall is_byte p -> 1280 <= zlen p -> 1328 <= TUN_MTU_SIZE (i_frame c) ->
  unreachable_answer inet_pton6 c fr p out -> zlen out = MAX_ICMPV6LEN + 48.
Proof.
  intros Hpton Ht Hp Hl Hm (ck & -> & _). rewrite Ht. destruct (reply_source_ok inet_pton6 Hpton c p) as [Hs _]; [lia|done|].
  assert (zlen (reply_payload c p) = 1280) as Hpl by (unfold reply_payload, MAX_ICMPV6LEN, zlen in *; rewrite length_take; lia).
  change (DEV_TYPE_TUN =? DEV_TYPE_TAP) with false. cbn [app]. assert (zlen (take 4 p) = 4) as H4 by (unfold zlen in *; rewrite length_take; lia).
  cbv zeta. rewrite !zlen_app, !zlen_cons, !zlen_app, !zlen_cons, Hs, H4, Hpl, mem_read_length by lia. reflexivity.
Qed.

(** A frame of 34 bytes with a tag is too short for the IPv4 header behind the tag: the
    translation changes two bytes behind the frame. *)
Definition toy_short : list Z :=
  replicate 12 0 ++ [129; 0; 0; 1; 8; 0] ++ [69; 0; 0; 20; 0; 0; 0; 0; 64; 0; 0; 0; 10; 1; 2; 3] ++ [10; 1; 9; 9].
Definition toy_tap : ip_context :=
  mkipc DEV_TYPE_TAP false false (Some [mkcne CN_DNAT (10 + 256) 65535 (172 + 16 * 256)]) false false None (mkframe 1500 1500 0 0 0 0 0 0) None (Some None) clear_buf clear_buf clear_buf.
Lemma nat_beyond_frame : 
  option_map (fun x => drop 34 (default [] (b_data x.2))) (process_ip_header toy_pton toy_tap PIPV4_CLIENT_NAT (mkbuffer 38 0 34 (Some toy_short))) = Some [172; 16; 9; 9].
Proof. vm_compute. reflexivity. Qed.
