(* ===== verification/Mbuf.v ===== *)
(** The queue of packets for clients ([src/openvpn/mbuf.h], [mbuf.c]) and its use by
    the server ([multi.c]): a ring of references to packets that several clients can
    share, each packet with a count of the references to it. *)
From stdpp Require Import gmap list.
From S2P Require Import Prelude Integer Buffer InnerPacket.

(** ** The code *)

Definition MBUF_INDEX (head offset size : Z) : Z := Z.land (u32 (head + offset)) (u32 (size - 1)).
Definition MF_UNICAST : Z := Z.shiftl 1 0.

Record mbuf_buffer := mkmb { mb_buf : buffer; mb_refcount : Z; mb_flags : Z }.
#[export] Instance eta_mbuf_buffer : EtaOf mbuf_buffer := fun r => mkmb (mb_buf r) (mb_refcount r) (mb_flags r).

(** Packets and client instances are known by their addresses. *)
Record mbuf_item := mkitem { it_buffer : option positive; it_instance : option positive }.

(** An entry of the array that was never written is [None]. *)
Record mbuf_set := mkms { ms_head : Z; ms_len : Z; ms_capacity : Z; ms_max_queued : Z; ms_array : list (option mbuf_item) }.
#[export] Instance eta_mbuf_set : EtaOf mbuf_set := fun r => mkms (ms_head r) (ms_len r) (ms_capacity r) (ms_max_queued r) (ms_array r).

(** The packets that are allocated. *)
Notation heap := (gmap positive mbuf_buffer).

Definition mbuf_init (size : Z) : option mbuf_set :=
  cap ← adjust_power_of_2 (u32 size);
  let cap := u32 cap in
  Some (mkms 0 0 cap 0 (replicate (Z.to_nat cap) None)).

Definition mbuf_alloc_buf (h : heap) (buf : buffer) : positive * heap :=
  let p := fresh (dom h) in (p, <[p := mkmb (clone_buf buf) 1 0]> h).

Definition mbuf_free_buf (h : heap) (mb : option positive) : option heap :=
  match mb with
  | None => Some h
  | Some p => b ← h !! p; let r := mb_refcount b - 1 in Some (if r <=? 0 then delete p h else <[p := b <| mb_refcount := r |>]> h)
  end.

(** The entry at [i] behind the head. *)
Definition ms_item (ms : mbuf_set) (i : Z) : option mbuf_item :=
  mjoin (ms_array ms !! Z.to_nat (MBUF_INDEX (ms_head ms) i (ms_capacity ms))).
Definition ms_set (ms : mbuf_set) (i : Z) (it : mbuf_item) : mbuf_set :=
  ms <| ms_array := <[Z.to_nat (MBUF_INDEX (ms_head ms) i (ms_capacity ms)) := Some it]> (ms_array ms) |>.

(** [while (ms->len)]: the extracted item, if there is one. *)
Fixpoint mbuf_extract_loop (fuel : nat) (ms : mbuf_set) : option (option mbuf_item * mbuf_set) :=
  match fuel with
  | O => None
  | S fuel =>
      if ms_len ms =? 0 then Some (None, ms)
      else
        item ← ms_item ms 0;
        let ms := ms <| ms_head := MBUF_INDEX (ms_head ms) 1 (ms_capacity ms) |> <| ms_len := ms_len ms - 1 |> in
        if bool_decide (is_Some (it_instance item)) then Some (Some item, ms) else mbuf_extract_loop fuel ms
  end.
Definition mbuf_extract_item (ms : mbuf_set) : option (option mbuf_item * mbuf_set) := mbuf_extract_loop (S (Z.to_nat (ms_len ms))) ms.

Definition mbuf_add_item (h : heap) (ms : mbuf_set) (item : mbuf_item) : option (heap * mbuf_set) :=
  '(h, ms) ← (if ms_len ms =? ms_capacity ms then
                '(rm, ms) ← mbuf_extract_item ms;
                rm ← rm;
                h ← mbuf_free_buf h (it_buffer rm);
                Some (h, ms)
              else Some (h, ms));
  _ ← guard (ms_len ms < ms_capacity ms);
  let ms := ms_set ms (ms_len ms) item in
  let ms := ms <| ms_len := ms_len ms + 1 |> in
  let ms := if ms_max_queued ms <? ms_len ms then ms <| ms_max_queued := ms_len ms |> else ms in
  p ← it_buffer item;
  b ← h !! p;
  Some (<[p := b <| mb_refcount := mb_refcount b + 1 |>]> h, ms).

(** [for (i = 0; i < ms->len; ++i)], [k] turns from [i] on. *)
Fixpoint mbuf_peek_loop (k : nat) (ms : mbuf_set) (i : Z) : option (option positive) :=
  match k with
  | O => Some None
  | S k => item ← ms_item ms i; match it_instance item with Some mi => Some (Some mi) | None => mbuf_peek_loop k ms (i + 1) end
  end.
Definition mbuf_peek_dowork (ms : mbuf_set) : option (option positive) := mbuf_peek_loop (Z.to_nat (ms_len ms)) ms 0.
Definition mbuf_defined (ms : mbuf_set) : bool := negb (ms_len ms =? 0).
Definition mbuf_len (ms : mbuf_set) : Z := ms_len ms.
Definition mbuf_maximum_queued (ms : mbuf_set) : Z := ms_max_queued ms.
Definition mbuf_peek (ms : mbuf_set) : option (option positive) := if mbuf_defined ms then mbuf_peek_dowork ms else Some None.

Fixpoint mbuf_dereference_loop (k : nat) (h : heap) (ms : mbuf_set) (mi : positive) (i : Z) : option (heap * mbuf_set) :=
  match k with
  | O => Some (h, ms)
  | S k =>
      item ← ms_item ms i;
      if bool_decide (it_instance item = Some mi) then
        h ← mbuf_free_buf h (it_buffer item);
        mbuf_dereference_loop k h (ms_set ms i (mkitem None None)) mi (i + 1)
      else mbuf_dereference_loop k h ms mi (i + 1)
  end.
Definition mbuf_dereference_instance (h : heap) (ms : mbuf_set) (mi : positive) : option (heap * mbuf_set) :=
  mbuf_dereference_loop (Z.to_nat (ms_len ms)) h ms mi 0.

Fixpoint mbuf_free_loop (k : nat) (h : heap) (ms : mbuf_set) (i : Z) : option heap :=
  match k with
  | O => Some h
  | S k => item ← ms_item ms i; h ← mbuf_free_buf h (it_buffer item); mbuf_free_loop k h ms (i + 1)
  end.
Definition mbuf_free (h : heap) (ms : mbuf_set) : option heap := mbuf_free_loop (Z.to_nat (ms_len ms)) h ms 0.

(** *** The server *)

(** What the server asks of a client before it queues a packet: whether its output is
    not saturated, whether it is closing, its VLAN and the verdicts of the packet
    filter. *)
Record bcast_client := mkbc { bc_id : positive; bc_ready : bool; bc_halt : bool; bc_pvid : Z; bc_c2c : bool; bc_addr_ok : bool }.

Definition multi_add_mbuf (h : heap) (ms : mbuf_set) (mi : positive) (ready : bool) (mb : positive) : option (heap * mbuf_set) :=
  if ready then mbuf_add_item h ms (mkitem (Some mb) (Some mi)) else Some (h, ms).

Definition multi_unicast (h : heap) (ms : mbuf_set) (buf : buffer) (mi : positive) (ready : bool) : option (heap * mbuf_set) :=
  if 0 <? buf_len buf then
    let '(mb, h) := mbuf_alloc_buf h buf in
    b ← h !! mb;
    '(h, ms) ← multi_add_mbuf (<[mb := b <| mb_flags := MF_UNICAST |>]> h) ms mi ready mb;
    h ← mbuf_free_buf h (Some mb);
    Some (h, ms)
  else Some (h, ms).

(** [sender] is the client the packet comes from, [by_addr] tells whether its source
    address is known. *)
Definition bcast_to (sender : option positive) (by_addr : bool) (vid : Z) (c : bcast_client) : bool :=
  if bool_decide (sender = Some (bc_id c)) || bc_halt c then false
  else if bool_decide (is_Some sender) && negb (bc_c2c c) then false
  else if by_addr && negb (bc_addr_ok c) then false
  else negb (negb (vid =? 0) && negb (vid =? bc_pvid c)).

Fixpoint bcast_loop (clients : list bcast_client) (sender : option positive) (by_addr : bool) (vid : Z) (h : heap) (ms : mbuf_set) (mb : positive)
    : option (heap * mbuf_set) :=
  match clients with
  | [] => Some (h, ms)
  | c :: clients =>
      '(h, ms) ← (if bcast_to sender by_addr vid c then multi_add_mbuf h ms (bc_id c) (bc_ready c) mb else Some (h, ms));
      bcast_loop clients sender by_addr vid h ms mb
  end.

Definition multi_bcast (h : heap) (ms : mbuf_set) (buf : buffer) (clients : list bcast_client) (sender : option positive) (by_addr : bool) (vid : Z)
    : option (heap * mbuf_set) :=
  if 0 <? buf_len buf then
    let '(mb, h) := mbuf_alloc_buf h buf in
    '(h, ms) ← bcast_loop clients sender by_addr vid h ms mb;
    h ← mbuf_free_buf h (Some mb);
    Some (h, ms)
  else Some (h, ms).

(** The client, the packet and the flags for [process_ip_header]; the packet is
    released after it was processed. *)
Definition multi_get_queue (h : heap) (ms : mbuf_set) : option (option (positive * buffer * Z) * heap * mbuf_set) :=
  '(item, ms) ← mbuf_extract_item ms;
  match item with
  | Some item =>
      mi ← it_instance item;
      p ← it_buffer item;
      b ← h !! p;
      let pip_flags := Z.lor PIPV4_PASSTOS PIPV6_IMCP_NOHOST_SERVER in
      let pip_flags := if negb (Z.land (mb_flags b) MF_UNICAST =? 0) then Z.lor pip_flags PIP_MSSFIX else pip_flags in
      h ← mbuf_free_buf h (Some p);
      Some (Some (mi, mb_buf b, pip_flags), h, ms)
  | None => Some (None, h, ms)
  end.

(** ** The ring *)

Definition cap_ok (cap : Z) : Prop := exists e, 0 <= e <= 31 /\ cap = 2 ^ e.

Lemma mbuf_index_mod head i cap : cap_ok cap -> 0 <= head < cap -> 0 <= i <= cap -> MBUF_INDEX head i cap = (head + i) mod cap.
Proof.
  intros (e & He & ->) Hh Hi. assert (2 ^ e <= 2 ^ 31) by (apply Z.pow_le_mono_r; lia). assert (0 < 2 ^ e) by (apply Z.pow_pos_nonneg; lia).
  unfold MBUF_INDEX. rewrite !wrap_small by (unfold is_u; lia). assert (2 ^ e - 1 = Z.ones e) as -> by (rewrite Z.ones_equiv; lia). by rewrite Z.land_ones by lia.
Qed.

(** The ring holds the items [l]. *)
Record ring (ms : mbuf_set) (l : list mbuf_item) : Prop := mkring {
  ri_cap : cap_ok (ms_capacity ms); ri_head : 0 <= ms_head ms < ms_capacity ms;
  ri_array : zlen (ms_array ms) = ms_capacity ms; ri_len : ms_len ms = zlen l; ri_fit : zlen l <= ms_capacity ms;
  ri_item : forall i it, l !! i = Some it -> ms_item ms (Z.of_nat i) = Some it }.

Section Ring.
Context (ms : mbuf_set) (l : list mbuf_item).
Context (Hr : ring ms l).

Lemma cap_pos : 0 < ms_capacity ms.
Proof. destruct (ri_head ms l Hr). lia. Qed.

Lemma ring_index i : 0 <= i <= ms_capacity ms -> MBUF_INDEX (ms_head ms) i (ms_capacity ms) = (ms_head ms + i) mod ms_capacity ms.
Proof. intros. apply mbuf_index_mod; [apply Hr|apply Hr|done]. Qed.

Lemma ring_slot i : 0 <= i <= ms_capacity ms -> 0 <= MBUF_INDEX (ms_head ms) i (ms_capacity ms) < zlen (ms_array ms).
Proof. intros. rewrite ring_index, (ri_array _ _ Hr) by done. apply Z.mod_pos_bound, cap_pos. Qed.

Lemma ring_slot_inj i j : 0 <= i < ms_capacity ms -> 0 <= j < ms_capacity ms ->
  MBUF_INDEX (ms_head ms) i (ms_capacity ms) = MBUF_INDEX (ms_head ms) j (ms_capacity ms) -> i = j.
Proof.
  intros Hi Hj. rewrite !ring_index by lia. intros E. pose proof cap_pos as Hc. set (c := ms_capacity ms) in *. set (h := ms_head ms) in *.
  pose proof (Z.div_mod (h + i) c ltac:(lia)). pose proof (Z.div_mod (h + j) c ltac:(lia)).
  set (k := (h + i) / c - (h + j) / c). assert (i - j = c * k) as Hk by (unfold k; lia). assert (k = 0) by nia. lia.
Qed.

Lemma ms_item_set i j it : 0 <= i < ms_capacity ms -> 0 <= j < ms_capacity ms -> ms_item (ms_set ms i it) j = if decide (j = i) then Some it else ms_item ms j.
Proof.
  intros Hi Hj. unfold ms_item, ms_set. cbn. pose proof (ring_slot i ltac:(lia)) as Hs. pose proof (ring_slot j ltac:(lia)) as Hs'. case_decide as E.
  - subst j. by rewrite list_lookup_insert_eq by (unfold zlen in Hs; lia).
  - rewrite list_lookup_insert_ne; [done|]. intros E'. apply E. symmetry. apply ring_slot_inj; [done|done|lia].
Qed.

Lemma ring_push it : zlen l < ms_capacity ms -> ring ((ms_set ms (ms_len ms) it) <| ms_len := ms_len ms + 1 |>) (l ++ [it]).
Proof.
  intros Hroom. pose proof Hr as [Hc Hh Ha Hl Hf Hi]. pose proof (zlen_nonneg l). constructor; cbn; try done.
  - unfold zlen in *. by rewrite length_insert.
  - rewrite zlen_app. unfold zlen in *. cbn. lia.
  - rewrite zlen_app. unfold zlen in *. cbn. lia.
  - intros i it' Hit. change (ms_item _ _) with (ms_item (ms_set ms (ms_len ms) it) (Z.of_nat i)). apply lookup_app_Some in Hit as [Hit|[Hge Hit]].
    + pose proof Hit as Hlt%lookup_lt_Some. rewrite ms_item_set by (unfold zlen in *; lia). case_decide; [unfold zlen in *; lia|]. by apply Hi.
    + apply list_lookup_singleton_Some in Hit as [E <-]. rewrite ms_item_set by (unfold zlen in *; lia). case_decide; [done|unfold zlen in *; lia].
Qed.

Lemma ring_set i it : (i < length l)%nat -> ring (ms_set ms (Z.of_nat i) it) (<[i := it]> l).
Proof.
  intros Hlt. pose proof Hr as [Hc Hh Ha Hl Hf Hi]. constructor; cbn; try done.
  - unfold zlen in *. by rewrite length_insert.
  - unfold zlen in *. by rewrite length_insert.
  - unfold zlen in *. by rewrite length_insert.
  - intros j it' Hit. pose proof Hit as Hj%lookup_lt_Some. rewrite length_insert in Hj. rewrite ms_item_set by (unfold zlen in *; lia).
    destruct (decide (j = i)) as [->|Hne].
    + rewrite list_lookup_insert_eq in Hit by done. by case_decide.
    + rewrite list_lookup_insert_ne in Hit by done. case_decide; [lia|]. by apply Hi.
Qed.
End Ring.

Lemma ring_pop ms it l : ring ms (it :: l) ->
  ring (ms <| ms_head := MBUF_INDEX (ms_head ms) 1 (ms_capacity ms) |> <| ms_len := ms_len ms - 1 |>) l.
Proof.
  intros Hr. pose proof Hr as [Hc Hh Ha Hl Hf Hi]. rewrite zlen_cons in *. pose proof (zlen_nonneg l).
  pose proof (ring_slot ms _ Hr 1 ltac:(lia)) as Hh'. rewrite Ha in Hh'.
  constructor; cbn; try done; try lia. intros i it' Hit. specialize (Hi (S i) it' Hit). unfold ms_item in *. cbn. rewrite <- Hi. do 3 f_equal.
  assert (Z.of_nat i < zlen l) by (apply lookup_lt_Some in Hit; unfold zlen; lia).
  rewrite mbuf_index_mod by (done || lia). rewrite !(ring_index ms _ Hr) by lia. rewrite Z.add_mod_idemp_l by lia. f_equal. lia.
Qed.

Lemma ring_init size : 0 <= size <= 2 ^ 31 -> exists ms, mbuf_init size = Some ms /\ ring ms [] /\ size <= ms_capacity ms /\ ms_max_queued ms = 0.
Proof.
  intros Hs. unfold mbuf_init. rewrite wrap_small by (unfold is_u; lia). destruct (adjust_power_of_2_spec size) as (e & -> & He & Hle & Hlow); [lia|].
  cbn [mbind option_bind]. assert (e <= 31) as He'.
  { destruct Hlow as [->|Hlow]; [lia|]. destruct (Z.le_gt_cases e 31) as [|Hgt]; [done|]. assert (2 ^ 31 <= 2 ^ (e - 1)) by (apply Z.pow_le_mono_r; lia). lia. }
  assert (2 ^ e <= 2 ^ 31) by (apply Z.pow_le_mono_r; lia). assert (0 < 2 ^ e) by (apply Z.pow_pos_nonneg; lia). rewrite wrap_small by (unfold is_u; lia).
  eexists. split; [reflexivity|]. split; [|done]. constructor; cbn; try done; try lia; try (by exists e); unfold zlen; rewrite ?length_replicate; cbn; lia.
Qed.


(** ** The counts *)

(** How often the packet [p] is referenced. *)
Definition cnt (p : positive) (rs : list (option positive)) : Z := zlen (filter (fun o => o = Some p) rs).

Lemma cnt_cons p o rs : cnt p (o :: rs) = (if decide (o = Some p) then 1 else 0) + cnt p rs.
Proof. unfold cnt. rewrite filter_cons. case_decide; [|done]. rewrite zlen_cons. lia. Qed.
Lemma cnt_app p rs rs' : cnt p (rs ++ rs') = cnt p rs + cnt p rs'.
Proof. unfold cnt. by rewrite filter_app, zlen_app. Qed.
Lemma cnt_nonneg p rs : 0 <= cnt p rs.
Proof. apply zlen_nonneg. Qed.
Lemma cnt_in p rs : Some p ∈ rs -> 0 < cnt p rs.
Proof.
  intros [l1 [l2 ->]]%list_elem_of_split. rewrite cnt_app, cnt_cons. case_decide; [|done]. pose proof (cnt_nonneg p l1). pose proof (cnt_nonneg p l2). lia.
Qed.
#[export] Instance cnt_perm p : Proper (Permutation ==> eq) (cnt p).
Proof. intros rs rs' H. unfold cnt, zlen. by rewrite H. Qed.

(** The packets are those referenced, with the right counts. *)
Definition heap_ok (h : heap) (rs : list (option positive)) : Prop :=
  forall p, match h !! p with Some b => 0 < mb_refcount b /\ mb_refcount b = cnt p rs | None => cnt p rs = 0 end.

#[export] Instance heap_ok_perm h : Proper (Permutation ==> iff) (heap_ok h).
Proof. intros rs rs' H. unfold heap_ok. split; intros Hh p; specialize (Hh p); destruct (h !! p); first [by rewrite <- H|by rewrite H]. Qed.

Definition packet (h : heap) (p : positive) : option (buffer * Z) := (fun b => (mb_buf b, mb_flags b)) <$> h !! p.
(** No packet that is left has changed. *)
Definition same_packets (h h' : heap) : Prop := forall p, is_Some (h' !! p) -> packet h' p = packet h p.

Lemma heap_in h rs p : heap_ok h rs -> Some p ∈ rs -> exists b, h !! p = Some b.
Proof. intros Hh Hp%cnt_in. specialize (Hh p). destruct (h !! p); [by eexists|lia]. Qed.

Lemma heap_none h rs : heap_ok h (None :: rs) <-> heap_ok h rs.
Proof. unfold heap_ok. split; intros Hh p; specialize (Hh p); rewrite cnt_cons in *; case_decide; try done. Qed.

Lemma free_spec h o rs : heap_ok h (o :: rs) -> exists h', mbuf_free_buf h o = Some h' /\ heap_ok h' rs /\ same_packets h h'.
Proof.
  intros Hh. destruct o as [p|]; [|exists h; split; [done|split; [by apply heap_none|done]]].
  destruct (heap_in h _ p Hh ltac:(left)) as [b Hb]. cbn [mbuf_free_buf]. rewrite Hb. cbn [mbind option_bind]. eexists. split; [reflexivity|].
  pose proof (Hh p) as Hp. rewrite Hb, cnt_cons in Hp. case_decide; [|done]. destruct Hp as [Hp Hc]. split.
  - intros q. specialize (Hh q). rewrite cnt_cons in Hh. destruct (decide (q = p)) as [->|Hne].
    + destruct (Z.leb_spec (mb_refcount b - 1) 0); [rewrite lookup_delete_eq|rewrite lookup_insert_eq]; cbn; lia.
    + assert ((if mb_refcount b - 1 <=? 0 then delete p h else <[p:=b <| mb_refcount := mb_refcount b - 1 |>]> h) !! q = h !! q) as ->
        by (destruct (_ <=? 0); [by rewrite lookup_delete_ne by done|by rewrite lookup_insert_ne by done]).
      case_decide; [congruence|]. exact Hh.
  - intros q Hq. unfold packet. destruct (decide (q = p)) as [->|Hne].
    + destruct (_ <=? 0); [by rewrite lookup_delete_eq in Hq; destruct Hq|]. by rewrite lookup_insert_eq, Hb.
    + destruct (_ <=? 0); [by rewrite lookup_delete_ne by done|by rewrite lookup_insert_ne by done].
Qed.

Lemma incr_spec h rs p b : heap_ok h rs -> h !! p = Some b -> let h' := <[p := b <| mb_refcount := mb_refcount b + 1 |>]> h in
  heap_ok h' (Some p :: rs) /\ same_packets h h'.
Proof.
  intros Hh Hb h'. split.
  - intros q. specialize (Hh q). rewrite cnt_cons. unfold h'. destruct (decide (q = p)) as [->|Hne].
    + rewrite lookup_insert_eq. rewrite Hb in Hh. case_decide; [|done]. cbn. lia.
    + rewrite lookup_insert_ne by done. case_decide; [congruence|]. exact Hh.
  - intros q _. unfold packet, h'. destruct (decide (q = p)) as [->|Hne]; [by rewrite lookup_insert_eq, Hb|by rewrite lookup_insert_ne by done].
Qed.

Lemma alloc_spec h rs buf flags : heap_ok h rs -> let '(p, _) := mbuf_alloc_buf h buf in let h' := <[p := mkmb (clone_buf buf) 1 flags]> h in
  heap_ok h' (Some p :: rs) /\ h !! p = None /\ forall l, map it_buffer l ⊆ rs -> Some p ∉ map it_buffer l.
Proof.
  intros Hh. cbn. set (p := fresh (dom h)). assert (h !! p = None) as Hp by (apply not_elem_of_dom; apply is_fresh).
  pose proof (Hh p) as Hc. rewrite Hp in Hc. split; [|split; [done|]].
  - intros q. specialize (Hh q). rewrite cnt_cons. destruct (decide (q = p)) as [->|Hne].
    + rewrite lookup_insert_eq. case_decide; [|done]. cbn. lia.
    + rewrite lookup_insert_ne by done. case_decide; [congruence|]. exact Hh.
  - intros l Hl Hin. apply Hl, cnt_in in Hin. lia.
Qed.

(** ** The queue without references *)

(** A packet for a client; the queue keeps a hole in the place of a packet for a client
    that is gone. *)
Record qpacket := mkqp { qp_to : positive; qp_buf : buffer; qp_flags : Z }.
Notation squeue := (list (option qpacket)).

Fixpoint s_extract (q : squeue) : option qpacket * squeue :=
  match q with
  | [] => (None, [])
  | None :: q => s_extract q
  | Some k :: q => (Some k, q)
  end.
(** A full queue loses the oldest packet for a client that is still there; it fails if
    there is none. *)
Definition s_add (cap : Z) (q : squeue) (k : qpacket) : option squeue :=
  if zlen q =? cap then match s_extract q with (Some _, q) => Some (q ++ [Some k]) | (None, _) => None end
  else Some (q ++ [Some k]).
Definition s_close (mi : positive) (q : squeue) : squeue := map (fun o => k ← o; if bool_decide (qp_to k = mi) then None else Some k) q.
Definition s_peek (q : squeue) : option positive := qp_to <$> (s_extract q).1.

(** What an item of the ring stands for. *)
Definition item_packet (h : heap) (it : mbuf_item) : option qpacket :=
  mi ← it_instance it; p ← it_buffer it; b ← h !! p; Some (mkqp mi (mb_buf b) (mb_flags b)).
Definition item_ok (it : mbuf_item) : Prop := is_Some (it_instance it) <-> is_Some (it_buffer it).

Lemma item_packet_ext h h' l : (forall p, Some p ∈ map it_buffer l -> packet h' p = packet h p) -> map (item_packet h') l = map (item_packet h) l.
Proof.
  intros Hs. apply map_ext_in. intros it Hit%list_elem_of_In. unfold item_packet. destruct (it_instance it) as [mi|]; [|done]. cbn.
  destruct (it_buffer it) as [p|] eqn:Hp; [|done]. cbn. assert (Some p ∈ map it_buffer l) as Hin by (rewrite <- Hp; by apply list_elem_of_fmap_2).
  pose proof (Hs p Hin) as E. unfold packet in E. destruct (h' !! p), (h !! p); cbn in *; try done. injection E as E1 E2. by rewrite E1, E2.
Qed.

Lemma item_packet_same h h' rs l : same_packets h h' -> heap_ok h' rs -> map it_buffer l ⊆ rs -> map (item_packet h') l = map (item_packet h) l.
Proof. intros Hs Hh Hl. apply item_packet_ext. intros p Hp. destruct (heap_in h' rs p Hh (Hl _ Hp)) as [b Hb]. apply Hs. by eexists. Qed.

(** ** The operations *)

Lemma extract_spec ms l : ring ms l -> Forall item_ok l ->
  exists r ms' l', mbuf_extract_item ms = Some (r, ms') /\ ring ms' l' /\ ms_capacity ms' = ms_capacity ms /\ ms_max_queued ms' = ms_max_queued ms /\
    (exists holes, Forall (fun it => it = mkitem None None) holes /\ match r with Some it => l = holes ++ it :: l' /\ is_Some (it_instance it) | None => l = holes /\ l' = [] end).
Proof.
  unfold mbuf_extract_item. intros Hr Hok. remember (S (Z.to_nat (ms_len ms))) as fuel eqn:Hf.
  assert (length l < fuel)%nat as Hlt by (pose proof (ri_len _ _ Hr); unfold zlen in *; lia). clear Hf.
  revert fuel ms Hr Hlt. induction l as [|it l IH]; intros [|fuel] ms Hr Hlt; [lia| |lia|]; cbn [mbuf_extract_loop].
  - pose proof (ri_len _ _ Hr) as Hl. rewrite zlen_nil in Hl. rewrite Hl. cbn. exists None, ms, []. do 4 (split; [done|]). by exists [].
  - pose proof (ri_len _ _ Hr) as Hl. rewrite zlen_cons in Hl. pose proof (zlen_nonneg l). destruct (Z.eqb_spec (ms_len ms) 0); [lia|].
    rewrite (ri_item _ _ Hr 0 it eq_refl : ms_item ms 0 = Some it). cbn [mbind option_bind]. pose proof (ring_pop _ _ _ Hr) as Hr'.
    apply Forall_cons in Hok as [Hit Hok]. case_bool_decide as Hi.
    + eexists (Some it), _, l. split; [reflexivity|]. do 3 (split; [done|]). by exists [].
    + destruct (IH Hok fuel _ Hr') as (r & ms' & l' & -> & Hr2 & Hc & Hm & holes & Hh & Hs); [cbn in Hlt; lia|]. exists r, ms', l'. do 4 (split; [done|]).
      exists (it :: holes). split; [constructor; [|done]|].
      * destruct it as [ob [mi|]]; [exfalso; apply Hi; by eexists|]. destruct ob as [p|]; [|done]. destruct Hit as [_ Hit]. destruct Hit; [by eexists|done].
      * destruct r; [destruct Hs as [-> ?]|destruct Hs as [-> ->]]; done.
Qed.

(** The holes of a ring are those of the queue. *)
Lemma holes_extract h holes q : Forall (fun it => it = mkitem None None) holes -> s_extract (map (item_packet h) holes ++ q) = s_extract q.
Proof. induction 1 as [|it holes ->]; done. Qed.

(** The state of ring and packets: [q] is the queue it stands for, [held] are the
    references from outside. *)
Definition mbuf_ok (h : heap) (ms : mbuf_set) (held : list (option positive)) (q : squeue) : Prop :=
  exists l, ring ms l /\ Forall item_ok l /\ heap_ok h (held ++ map it_buffer l) /\ q = map (item_packet h) l.

Lemma holes_buffers holes : Forall (fun it => it = mkitem None None) holes -> forall h rs, heap_ok h (map it_buffer holes ++ rs) <-> heap_ok h rs.
Proof. induction 1 as [|it holes -> _ IH]; intros h rs; [done|]. cbn. by rewrite heap_none. Qed.

Lemma item_packet_some h rs it : heap_ok h rs -> it_buffer it ∈ rs -> item_ok it -> is_Some (it_instance it) ->
  exists mi p b, it = mkitem (Some p) (Some mi) /\ h !! p = Some b /\ item_packet h it = Some (mkqp mi (mb_buf b) (mb_flags b)).
Proof.
  intros Hh Hin Hok [mi Hmi]. destruct it as [ob oi]; cbn in *. subst oi. destruct Hok as [Hok _]. destruct (Hok ltac:(done)) as [p Hp]. cbn in Hp. subst ob.
  destruct (heap_in h rs p Hh Hin) as [b Hb]. exists mi, p, b. split; [done|]. split; [done|]. unfold item_packet. cbn. by rewrite Hb.
Qed.

Lemma extract_ok h ms held q : mbuf_ok h ms held q ->
  exists r ms', mbuf_extract_item ms = Some (r, ms') /\ ms_capacity ms' = ms_capacity ms /\
    match r with
    | Some it => exists mi p b, it = mkitem (Some p) (Some mi) /\ h !! p = Some b /\ (s_extract q).1 = Some (mkqp mi (mb_buf b) (mb_flags b)) /\
        mbuf_ok h ms' (Some p :: held) (s_extract q).2 /\ zlen (s_extract q).2 < zlen q
    | None => (s_extract q).1 = None /\ mbuf_ok h ms' held (s_extract q).2
    end.
Proof.
  intros (l & Hr & Hok & Hh & ->). destruct (extract_spec ms l Hr Hok) as (r & ms' & l' & Hx & Hr' & Hc & _ & holes & Hho & Hs). exists r, ms'. split; [done|]. split; [done|].
  destruct r as [it|].
  - destruct Hs as [-> Hi]. apply Forall_app in Hok as [_ [Hit Hok]%Forall_cons]. rewrite map_app in *. cbn [map] in *.
    assert (heap_ok h (it_buffer it :: held ++ map it_buffer l')) as Hh'.
    { rewrite app_assoc, (Permutation_app_comm held), <- app_assoc, holes_buffers in Hh by done. by rewrite Permutation_middle. }
    destruct (item_packet_some h _ it Hh' ltac:(left) Hit Hi) as (mi & p & b & -> & Hb & Hp). exists mi, p, b. rewrite holes_extract by done. cbn [s_extract]. rewrite Hp.
    split; [done|]. split; [done|]. split; [done|]. split; [|rewrite zlen_app, zlen_cons; pose proof (zlen_nonneg (map (item_packet h) holes)); cbn; lia]. by exists l'.
  - destruct Hs as [-> ->]. rewrite <- (app_nil_r (map (item_packet h) holes)), holes_extract by done. split; [done|]. exists []. split; [done|]. split; [done|]. split; [|done].
    by rewrite Permutation_app_comm, holes_buffers in Hh by done; rewrite app_nil_r.
Qed.

Lemma free_ok h ms p held q : mbuf_ok h ms (Some p :: held) q -> exists h', mbuf_free_buf h (Some p) = Some h' /\ mbuf_ok h' ms held q /\ same_packets h h'.
Proof.
  intros (l & Hr & Hok & Hh & ->). destruct (free_spec h (Some p) _ Hh) as (h' & Hf & Hh' & Hs). exists h'. split; [done|]. split; [|done].
  exists l. split; [done|]. split; [done|]. split; [done|]. symmetry. eapply item_packet_same; [done|exact Hh'|set_solver].
Qed.

Lemma same_packets_trans h1 h2 h3 : same_packets h1 h2 -> same_packets h2 h3 -> same_packets h1 h3.
Proof.
  intros H12 H23 p Hp. rewrite (H23 p Hp). apply H12. pose proof (H23 p Hp) as E. unfold packet in E. destruct Hp as [b Hb]. rewrite Hb in E.
  destruct (h2 !! p); [by eexists|done].
Qed.

Lemma ring_max ms l m : ring ms l -> ring (ms <| ms_max_queued := m |>) l.
Proof. by intros []; constructor. Qed.

Lemma push_ok h ms held q p mi b : mbuf_ok h ms held q -> Some p ∈ held -> h !! p = Some b -> zlen q < ms_capacity ms ->
  let ms1 := (ms_set ms (ms_len ms) (mkitem (Some p) (Some mi))) <| ms_len := ms_len ms + 1 |> in
  let h' := <[p := b <| mb_refcount := mb_refcount b + 1 |>]> h in
  mbuf_ok h' (if ms_max_queued ms1 <? ms_len ms1 then ms1 <| ms_max_queued := ms_len ms1 |> else ms1) held (q ++ [Some (mkqp mi (mb_buf b) (mb_flags b))]) /\
  same_packets h h'.
Proof.
  intros (l & Hr & Hok & Hh & ->) Hp Hb Hroom ms1 h'. assert (zlen l < ms_capacity ms) as Hroom' by (unfold zlen in *; rewrite length_map in Hroom; exact Hroom).
  destruct (incr_spec h _ p b Hh Hb) as [Hh' Hs]. fold h' in Hh', Hs. split; [|done]. exists (l ++ [mkitem (Some p) (Some mi)]).
  pose proof (ring_push ms l Hr (mkitem (Some p) (Some mi)) Hroom') as Hr1. fold ms1 in Hr1. split; [destruct (_ <? _); [by apply ring_max|done]|].
  split; [apply Forall_app; split; [done|by repeat constructor]|]. rewrite !map_app. cbn [map it_buffer]. split.
  - by rewrite app_assoc, Permutation_app_comm.
  - f_equal; [symmetry; eapply item_packet_same; [done|exact Hh'|set_solver]|]. unfold item_packet, h'. cbn. by rewrite lookup_insert_eq.
Qed.

Lemma add_ok h ms held q p mi b : mbuf_ok h ms held q -> Some p ∈ held -> h !! p = Some b ->
  match s_add (ms_capacity ms) q (mkqp mi (mb_buf b) (mb_flags b)) with
  | Some q' => exists h' ms', mbuf_add_item h ms (mkitem (Some p) (Some mi)) = Some (h', ms') /\ mbuf_ok h' ms' held q' /\ ms_capacity ms' = ms_capacity ms /\ same_packets h h'
  | None => mbuf_add_item h ms (mkitem (Some p) (Some mi)) = None
  end.
Proof.
  intros Hok Hp Hb. unfold s_add, mbuf_add_item. pose proof Hok as (l & Hr & _ & _ & Hq). pose proof (ri_len _ _ Hr) as Hl. pose proof (ri_fit _ _ Hr) as Hfit.
  assert (zlen q = ms_len ms) as Hzq by (rewrite Hl, Hq; unfold zlen; by rewrite length_map). rewrite Hzq.
  assert (forall h1 ms1 q1, mbuf_ok h1 ms1 held q1 -> same_packets h h1 -> ms_capacity ms1 = ms_capacity ms -> zlen q1 < ms_capacity ms ->
    exists h' ms', ( _ ← guard (ms_len ms1 < ms_capacity ms1);
      let ms := ms_set ms1 (ms_len ms1) (mkitem (Some p) (Some mi)) in let ms := ms <| ms_len := ms_len ms + 1 |> in
      let ms := if ms_max_queued ms <? ms_len ms then ms <| ms_max_queued := ms_len ms |> else ms in
      p ← it_buffer (mkitem (Some p) (Some mi)); b ← h1 !! p; Some (<[p := b <| mb_refcount := mb_refcount b + 1 |>]> h1, ms)) = Some (h', ms') /\
    mbuf_ok h' ms' held (q1 ++ [Some (mkqp mi (mb_buf b) (mb_flags b))]) /\ ms_capacity ms' = ms_capacity ms /\ same_packets h h') as Hpush.
  { intros h1 ms1 q1 Hok1 Hs1 Hc1 Hroom. pose proof Hok1 as (l1 & Hr1 & _ & Hh1 & Hq1).
    assert (ms_len ms1 < ms_capacity ms1) as Hlt by (rewrite Hc1, (ri_len _ _ Hr1); subst q1; unfold zlen in *; by rewrite length_map in Hroom).
    rewrite option_guard_True by done. cbn [mbind option_bind it_buffer]. destruct (heap_in h1 _ p Hh1 ltac:(set_solver)) as [b1 Hb1]. rewrite Hb1. cbn [mbind option_bind].
    destruct (push_ok h1 ms1 held q1 p mi b1 Hok1 Hp Hb1) as [Hok2 Hs2]; [by rewrite Hc1|].
    pose proof (Hs1 p (mk_is_Some _ _ Hb1)) as E. unfold packet in E. rewrite Hb, Hb1 in E. cbn in E. injection E as E1 E2. rewrite E1, E2 in Hok2.
    eexists _, _. split; [reflexivity|]. split; [exact Hok2|]. split; [by destruct (_ <? _)|]. by eapply same_packets_trans. }
  destruct (Z.eqb_spec (ms_len ms) (ms_capacity ms)) as [Hfull|Hfull]; cycle 1.
  { cbn [mbind option_bind]. apply Hpush; [done|by intros q' _|done|lia]. }
  destruct (extract_ok h ms held q Hok) as (r & ms1 & -> & Hc1 & Hx). cbn [mbind option_bind]. destruct (s_extract q) as [r' q1] eqn:Eq. cbn [fst snd] in Hx. destruct r as [it|]; cycle 1.
  { destruct Hx as [-> _]. done. }
  destruct Hx as (mi' & p' & b' & -> & Hb' & -> & Hok1 & Hlt). cbn [mbind option_bind it_buffer]. destruct (free_ok h ms1 p' held q1 Hok1) as (h1 & -> & Hok2 & Hs1). cbn [mbind option_bind].
  apply Hpush; [done|done|done|lia].
Qed.

Lemma close_item h rs it mi : heap_ok h rs -> it_buffer it ∈ rs -> item_ok it ->
  (k ← item_packet h it; if bool_decide (qp_to k = mi) then None else Some k) = if bool_decide (it_instance it = Some mi) then None else item_packet h it.
Proof.
  intros Hh Hin Hok. destruct (it_instance it) as [mi'|] eqn:Hi; cycle 1.
  { unfold item_packet. rewrite Hi. cbn. by case_bool_decide. }
  destruct (item_packet_some h rs it Hh Hin Hok) as (mi2 & p & b & -> & Hb & ->); [by eexists|]. cbn in Hi |- *. injection Hi as ->.
  repeat case_bool_decide; congruence.
Qed.

Lemma dereference_loop_ok mi r : forall h ms held d, ring ms (d ++ r) -> Forall item_ok (d ++ r) -> heap_ok h (held ++ map it_buffer (d ++ r)) ->
  exists h' ms', mbuf_dereference_loop (length r) h ms mi (zlen d) = Some (h', ms') /\ ms_capacity ms' = ms_capacity ms /\
    mbuf_ok h' ms' held (map (item_packet h) d ++ s_close mi (map (item_packet h) r)).
Proof.
  induction r as [|it r IH]; intros h ms held d Hr Hok Hh; cbn [length mbuf_dereference_loop].
  { exists h, ms. split; [done|]. split; [done|]. rewrite app_nil_r in *. by exists d. }
  assert (ms_item ms (zlen d) = Some it) as -> by (apply (ri_item _ _ Hr); by apply list_lookup_middle). cbn [mbind option_bind].
  assert (zlen d + 1 = zlen (d ++ [it])) as Hd by (rewrite zlen_app; done). pose proof Hok as [Hokd [Hit Hokr]%Forall_cons]%Forall_app.
  assert (it_buffer it ∈ held ++ map it_buffer (d ++ it :: r)) as Hin by (rewrite map_app; set_solver).
  cbn [map s_close]. rewrite (close_item h _ it mi Hh Hin Hit). case_bool_decide as Hi.
  - destruct (item_packet_some h _ it Hh Hin Hit) as (mi' & p & b & -> & Hb & _); [by eexists|]. cbn in Hi. injection Hi as ->. cbn [it_buffer].
    assert (heap_ok h (Some p :: held ++ map it_buffer (d ++ mkitem None None :: r))) as Hh2.
    { rewrite map_app in *. cbn [map it_buffer] in *. rewrite app_assoc in *. rewrite <- (Permutation_middle _ (map it_buffer r) None), <- (Permutation_middle _ (map it_buffer r) (Some p)) in *.
      rewrite perm_swap, heap_none. exact Hh. }
    destruct (free_spec h (Some p) _ Hh2) as (h' & -> & Hh' & Hs). cbn [mbind option_bind].
    pose proof (ring_set ms _ Hr (length d) (mkitem None None)) as Hr2. rewrite length_app in Hr2. specialize (Hr2 ltac:(cbn; lia)).
    rewrite insert_app_r_alt, Nat.sub_diag in Hr2 by lia. cbn in Hr2. rewrite Hd. change (Z.of_nat (length d)) with (zlen d) in Hr2.
    destruct (IH h' (ms_set ms (zlen d) (mkitem None None)) held (d ++ [mkitem None None])) as (h2 & ms2 & Hl & Hc & Hm); [by rewrite <- app_assoc|..].
    + rewrite <- app_assoc. apply Forall_app. split; [done|]. by constructor.
    + by rewrite <- app_assoc.
    + assert (zlen (d ++ [mkitem None None]) = zlen (d ++ [mkitem (Some p) (Some mi)])) as Hz by (by rewrite !zlen_app). rewrite Hz in Hl.
      exists h2, ms2. split; [exact Hl|]. split; [done|].
      rewrite map_app, <- app_assoc in Hm. cbn [map app] in Hm.
      rewrite !(item_packet_same h h' (held ++ map it_buffer (d ++ mkitem None None :: r))) in Hm by (done || (rewrite map_app; set_solver)). exact Hm.
  - rewrite Hd. destruct (IH h ms held (d ++ [it])) as (h2 & ms2 & -> & Hc & Hm); [by rewrite <- app_assoc..|]. exists h2, ms2. split; [done|]. split; [done|].
    rewrite map_app, <- app_assoc in Hm. exact Hm.
Qed.

Lemma dereference_ok h ms held q mi : mbuf_ok h ms held q ->
  exists h' ms', mbuf_dereference_instance h ms mi = Some (h', ms') /\ ms_capacity ms' = ms_capacity ms /\ mbuf_ok h' ms' held (s_close mi q).
Proof.
  intros (l & Hr & Hok & Hh & ->). unfold mbuf_dereference_instance. replace (Z.to_nat (ms_len ms)) with (length l) by (rewrite (ri_len _ _ Hr); unfold zlen; lia).
  exact (dereference_loop_ok mi l h ms held [] Hr Hok Hh).
Qed.

Lemma peek_ok h ms held q : mbuf_ok h ms held q -> mbuf_peek ms = Some (s_peek q).
Proof.
  intros (l & Hr & Hok & Hh & ->). unfold mbuf_peek, mbuf_defined, mbuf_peek_dowork. rewrite (ri_len _ _ Hr).
  assert (forall d r, l = d ++ r -> Forall (fun it => it = mkitem None None) d -> mbuf_peek_loop (length r) ms (zlen d) = Some (s_peek (map (item_packet h) l))) as Hloop.
  { intros d r. revert d. induction r as [|it r IH]; intros d Hl Hd; cbn [length mbuf_peek_loop].
    { unfold s_peek. rewrite Hl, app_nil_r. rewrite <- (app_nil_r (map _ d)), holes_extract by done. done. }
    assert (ms_item ms (zlen d) = Some it) as -> by (apply (ri_item _ _ Hr); rewrite Hl; by apply list_lookup_middle). cbn [mbind option_bind].
    rewrite Hl in Hok. apply Forall_app in Hok as [_ [Hit _]%Forall_cons].
    destruct (it_instance it) as [mi|] eqn:Hi.
    - destruct (item_packet_some h _ it Hh) as (mi' & p & b & -> & _ & Hp); [rewrite Hl, map_app; set_solver|done|by eexists|]. cbn in Hi. injection Hi as ->.
      unfold s_peek. rewrite Hl, map_app. cbn [map]. rewrite holes_extract by done. cbn [s_extract]. by rewrite Hp.
    - assert (it = mkitem None None) as -> by (destruct it as [[p|] oi]; cbn in *; subst oi; [destruct Hit as [_ Hit]; destruct Hit; [by eexists|done]|done]).
      specialize (IH (d ++ [mkitem None None])). rewrite <- app_assoc, zlen_app in IH. apply IH; [done|]. apply Forall_app. split; [done|by constructor]. }
  destruct (Z.eqb_spec (zlen l) 0) as [H0|H0]; cbn [negb].
  { destruct l as [|it l]; [done|]. rewrite zlen_cons in H0. pose proof (zlen_nonneg l). lia. }
  replace (Z.to_nat (zlen l)) with (length l) by (unfold zlen; lia). by apply (Hloop [] l).
Qed.

Lemma free_all_ok h ms q : mbuf_ok h ms [] q -> mbuf_free h ms = Some ∅.
Proof.
  intros (l & Hr & _ & Hh & _). unfold mbuf_free. rewrite (ri_len _ _ Hr). cbn [app] in Hh.
  assert (forall r d h, l = d ++ r -> heap_ok h (map it_buffer r) -> mbuf_free_loop (length r) h ms (zlen d) = Some ∅) as Hloop.
  { clear h Hh. induction r as [|it r IH]; intros d h Hl Hh; cbn [length mbuf_free_loop].
    { f_equal. apply map_eq. intros p. rewrite lookup_empty. specialize (Hh p). destruct (h !! p); [|done]. cbn [map] in Hh. change (cnt p []) with 0 in Hh. lia. }
    assert (ms_item ms (zlen d) = Some it) as -> by (apply (ri_item _ _ Hr); rewrite Hl; by apply list_lookup_middle). cbn [mbind option_bind map] in *.
    destruct (free_spec h (it_buffer it) _ Hh) as (h' & -> & Hh' & _). cbn [mbind option_bind].
    replace (zlen d + 1) with (zlen (d ++ [it])) by (by rewrite zlen_app). apply IH; [by rewrite <- app_assoc|done]. }
  replace (Z.to_nat (zlen l)) with (length l) by (unfold zlen; lia). by apply (Hloop l []).
Qed.

(** ** The server *)

(** What the server does with its queue. *)
Inductive queue_op :=
| QUnicast (buf : buffer) (mi : positive) (ready : bool)
| QBcast (buf : buffer) (clients : list bcast_client) (sender : option positive) (by_addr : bool) (vid : Z)
| QGet
| QPeek
| QClose (mi : positive).
Inductive queue_answer := ANone | AGot (r : option (positive * buffer * Z)) | APeek (mi : option positive).

Definition queue_exec (op : queue_op) (h : heap) (ms : mbuf_set) : option (queue_answer * heap * mbuf_set) :=
  match op with
  | QUnicast buf mi ready => '(h, ms) ← multi_unicast h ms buf mi ready; Some (ANone, h, ms)
  | QBcast buf clients sender by_addr vid => '(h, ms) ← multi_bcast h ms buf clients sender by_addr vid; Some (ANone, h, ms)
  | QGet => '(r, h, ms) ← multi_get_queue h ms; Some (AGot r, h, ms)
  | QPeek => mi ← mbuf_peek ms; Some (APeek mi, h, ms)
  | QClose mi => '(h, ms) ← mbuf_dereference_instance h ms mi; Some (ANone, h, ms)
  end.
Fixpoint queue_run (ops : list queue_op) (h : heap) (ms : mbuf_set) : option (list queue_answer * heap * mbuf_set) :=
  match ops with
  | [] => Some ([], h, ms)
  | op :: ops => '(a, h, ms) ← queue_exec op h ms; '(l, h, ms) ← queue_run ops h ms; Some (a :: l, h, ms)
  end.

(** The flags for [process_ip_header]. *)
Definition pip_flags (flags : Z) : Z :=
  Z.lor (Z.lor PIPV4_PASSTOS PIPV6_IMCP_NOHOST_SERVER) (if Z.land flags MF_UNICAST =? 0 then 0 else PIP_MSSFIX).

(** The same on the queue of packets: a packet to several clients is queued once for
    each. *)
Definition s_bcast (cap : Z) (buf : buffer) (cs : list bcast_client) (q : squeue) : option squeue :=
  fold_left (fun q c => q ← q; if bc_ready c then s_add cap q (mkqp (bc_id c) (clone_buf buf) 0) else Some q) cs (Some q).
Definition s_exec (cap : Z) (op : queue_op) (q : squeue) : option (queue_answer * squeue) :=
  match op with
  | QUnicast buf mi ready => q ← (if (0 <? buf_len buf) && ready then s_add cap q (mkqp mi (clone_buf buf) MF_UNICAST) else Some q); Some (ANone, q)
  | QBcast buf clients sender by_addr vid =>
      q ← (if 0 <? buf_len buf then s_bcast cap buf (filter (fun c => bcast_to sender by_addr vid c = true) clients) q else Some q); Some (ANone, q)
  | QGet => Some (AGot ((fun k => (qp_to k, qp_buf k, pip_flags (qp_flags k))) <$> (s_extract q).1), (s_extract q).2)
  | QPeek => Some (APeek (s_peek q), q)
  | QClose mi => Some (ANone, s_close mi q)
  end.
Fixpoint s_run (cap : Z) (ops : list queue_op) (q : squeue) : option (list queue_answer * squeue) :=
  match ops with
  | [] => Some ([], q)
  | op :: ops => '(a, q) ← s_exec cap op q; '(l, q) ← s_run cap ops q; Some (a :: l, q)
  end.

(** A new packet is held once and is in no queue yet. *)
Lemma alloc_ok h ms q buf flags : mbuf_ok h ms [] q -> let p := (mbuf_alloc_buf h buf).1 in
  mbuf_ok (<[p := mkmb (clone_buf buf) 1 flags]> h) ms [Some p] q.
Proof.
  intros (l & Hr & Hok & Hh & ->). destruct (alloc_spec h _ buf flags Hh) as (Hh' & Hp & Hfresh). cbn in *. set (p := fresh (dom h)) in *.
  exists l. do 3 (split; [done|]). symmetry. apply item_packet_ext. intros p' Hp'. unfold packet. rewrite lookup_insert_ne; [done|].
  intros ->. by apply (Hfresh l).
Qed.

Lemma unicast_ok h ms q buf mi (ready : bool) : mbuf_ok h ms [] q ->
  match (if (0 <? buf_len buf) && ready then s_add (ms_capacity ms) q (mkqp mi (clone_buf buf) MF_UNICAST) else Some q) with
  | Some q' => exists h' ms', multi_unicast h ms buf mi ready = Some (h', ms') /\ mbuf_ok h' ms' [] q' /\ ms_capacity ms' = ms_capacity ms
  | None => multi_unicast h ms buf mi ready = None
  end.
Proof.
  intros Hok. unfold multi_unicast. destruct (0 <? buf_len buf); cbn [andb]; [|by exists h, ms].
  pose proof (alloc_ok h ms q buf MF_UNICAST Hok) as Hok1. cbn -[mbuf_free_buf] in Hok1 |- *. set (p := fresh (dom h)) in *. rewrite lookup_insert_eq. cbn [mbind option_bind].
  rewrite insert_insert_eq. change ((mkmb (clone_buf buf) 1 0) <| mb_flags := MF_UNICAST |>) with (mkmb (clone_buf buf) 1 MF_UNICAST).
  set (h1 := <[p := _]> h) in *. unfold multi_add_mbuf. destruct ready.
  - pose proof (add_ok h1 ms [Some p] q p mi (mkmb (clone_buf buf) 1 MF_UNICAST) Hok1 ltac:(left) (lookup_insert_eq _ _ _)) as Ha. cbn [mb_buf mb_flags] in Ha.
    destruct (s_add _ q _) as [q'|]; [|by rewrite Ha]. destruct Ha as (h2 & ms2 & -> & Hok2 & Hc & _). cbn [mbind option_bind].
    destruct (free_ok h2 ms2 p [] q' Hok2) as (h3 & -> & Hok3 & _). cbn [mbind option_bind]. by exists h3, ms2.
  - cbn [mbind option_bind]. destruct (free_ok h1 ms p [] q Hok1) as (h3 & -> & Hok3 & _). cbn [mbind option_bind]. by exists h3, ms.
Qed.

Lemma bcast_none cap buf cs : fold_left (fun q c => q ← q; if bc_ready c then s_add cap q (mkqp (bc_id c) (clone_buf buf) 0) else Some q) cs None = None.
Proof. by induction cs. Qed.

Lemma bcast_loop_ok sender by_addr vid buf p cs : forall h ms q, mbuf_ok h ms [Some p] q -> packet h p = Some (clone_buf buf, 0) ->
  match s_bcast (ms_capacity ms) buf (filter (fun c => bcast_to sender by_addr vid c = true) cs) q with
  | Some q' => exists h' ms', bcast_loop cs sender by_addr vid h ms p = Some (h', ms') /\ mbuf_ok h' ms' [Some p] q' /\ ms_capacity ms' = ms_capacity ms
  | None => bcast_loop cs sender by_addr vid h ms p = None
  end.
Proof.
  unfold s_bcast. induction cs as [|c cs IH]; intros h ms q Hok Hp; cbn [bcast_loop]; [cbn; by exists h, ms|].
  rewrite filter_cons. destruct (bcast_to sender by_addr vid c) eqn:Hto; cycle 1.
  { case_decide; [done|]. cbn [mbind option_bind]. by apply IH. }
  case_decide; [|done]. cbn [fold_left mbind option_bind]. unfold multi_add_mbuf. destruct (bc_ready c); cycle 1.
  { cbn [mbind option_bind]. by apply IH. }
  assert (exists b, h !! p = Some b /\ mb_buf b = clone_buf buf /\ mb_flags b = 0) as (b & Hb & E1 & E2).
  { unfold packet in Hp. destruct (h !! p) as [b|]; [|done]. cbn in Hp. injection Hp as E1 E2. by exists b. }
  pose proof (add_ok h ms [Some p] q p (bc_id c) b Hok ltac:(left) Hb) as Ha. rewrite E1, E2 in Ha.
  destruct (s_add _ q _) as [q'|]; [|by rewrite bcast_none, Ha]. destruct Ha as (h2 & ms2 & -> & Hok2 & Hc & Hs). cbn [mbind option_bind]. rewrite <- Hc. apply IH; [done|].
  rewrite <- Hp. apply Hs. destruct Hok2 as (l2 & _ & _ & Hh2 & _). destruct (heap_in h2 _ p Hh2 ltac:(set_solver)) as [b2 Hb2]. by eexists.
Qed.

Lemma multi_bcast_ok h ms q buf cs sender by_addr vid : mbuf_ok h ms [] q ->
  match (if 0 <? buf_len buf then s_bcast (ms_capacity ms) buf (filter (fun c => bcast_to sender by_addr vid c = true) cs) q else Some q) with
  | Some q' => exists h' ms', multi_bcast h ms buf cs sender by_addr vid = Some (h', ms') /\ mbuf_ok h' ms' [] q' /\ ms_capacity ms' = ms_capacity ms
  | None => multi_bcast h ms buf cs sender by_addr vid = None
  end.
Proof.
  intros Hok. unfold multi_bcast. destruct (0 <? buf_len buf); [|by exists h, ms].
  pose proof (alloc_ok h ms q buf 0 Hok) as Hok1. cbn -[mbuf_free_buf] in Hok1 |- *. set (p := fresh (dom h)) in *. set (h1 := <[p := _]> h) in *.
  pose proof (bcast_loop_ok sender by_addr vid buf p cs h1 ms q Hok1) as Hl. assert (packet h1 p = Some (clone_buf buf, 0)) as Hp by (unfold packet, h1; by rewrite lookup_insert_eq).
  specialize (Hl Hp). destruct (s_bcast _ _ _ q) as [q'|]; [|by rewrite Hl]. destruct Hl as (h2 & ms2 & -> & Hok2 & Hc). cbn [mbind option_bind].
  destruct (free_ok h2 ms2 p [] q' Hok2) as (h3 & -> & Hok3 & _). cbn [mbind option_bind]. by exists h3, ms2.
Qed.

Lemma get_queue_ok h ms q : mbuf_ok h ms [] q ->
  exists h' ms', multi_get_queue h ms = Some ((fun k => (qp_to k, qp_buf k, pip_flags (qp_flags k))) <$> (s_extract q).1, h', ms') /\
    mbuf_ok h' ms' [] (s_extract q).2 /\ ms_capacity ms' = ms_capacity ms.
Proof.
  intros Hok. unfold multi_get_queue. destruct (extract_ok h ms [] q Hok) as (r & ms' & -> & Hc & Hx). cbn [mbind option_bind]. destruct r as [it|]; cycle 1.
  { destruct Hx as [-> Hok']. by exists h, ms'. }
  destruct Hx as (mi & p & b & -> & Hb & -> & Hok' & _). cbn [it_instance it_buffer mbind option_bind]. rewrite Hb. cbn [mbind option_bind].
  destruct (free_ok h ms' p [] _ Hok') as (h' & Hf & Hok2 & _). unfold mbuf_free_buf in Hf. rewrite Hb in Hf. cbn [mbind option_bind] in Hf. unfold mbuf_free_buf. rewrite Hb. cbn [mbind option_bind].
  injection Hf as <-. eexists _, ms'. split; [|done]. cbn. unfold pip_flags, MF_UNICAST. change (Z.shiftl 1 0) with 1. destruct (Z.land (mb_flags b) 1 =? 0); [by rewrite Z.lor_0_r|done].
Qed.

Lemma queue_exec_ok op h ms q : mbuf_ok h ms [] q ->
  match s_exec (ms_capacity ms) op q with
  | Some (a, q') => exists h' ms', queue_exec op h ms = Some (a, h', ms') /\ mbuf_ok h' ms' [] q' /\ ms_capacity ms' = ms_capacity ms
  | None => queue_exec op h ms = None
  end.
Proof.
  intros Hok. destruct op as [buf mi ready|buf cs sender by_addr vid| | |mi]; cbn [s_exec queue_exec].
  - pose proof (unicast_ok h ms q buf mi ready Hok) as Hu. destruct (if (0 <? buf_len buf) && ready then s_add (ms_capacity ms) q (mkqp mi (clone_buf buf) MF_UNICAST) else Some q) as [q'|]; cbn [mbind option_bind]; [|by rewrite Hu].
    destruct Hu as (h' & ms' & -> & ? & ?). by exists h', ms'.
  - pose proof (multi_bcast_ok h ms q buf cs sender by_addr vid Hok) as Hu. destruct (if 0 <? buf_len buf then s_bcast (ms_capacity ms) buf (filter (fun c => bcast_to sender by_addr vid c = true) cs) q else Some q) as [q'|]; cbn [mbind option_bind]; [|by rewrite Hu].
    destruct Hu as (h' & ms' & -> & ? & ?). by exists h', ms'.
  - destruct (get_queue_ok h ms q Hok) as (h' & ms' & -> & ? & ?). by exists h', ms'.
  - rewrite (peek_ok h ms [] q Hok). by exists h, ms.
  - destruct (dereference_ok h ms [] q mi Hok) as (h' & ms' & -> & ? & ?). by exists h', ms'.
Qed.

Lemma queue_run_ok ops : forall h ms q, mbuf_ok h ms [] q ->
  match s_run (ms_capacity ms) ops q with
  | Some (l, q') => exists h' ms', queue_run ops h ms = Some (l, h', ms') /\ mbuf_ok h' ms' [] q'
  | None => queue_run ops h ms = None
  end.
Proof.
  induction ops as [|op ops IH]; intros h ms q Hok; cbn [s_run queue_run]; [by exists h, ms|].
  pose proof (queue_exec_ok op h ms q Hok) as Ho. destruct (s_exec _ op q) as [[a q1]|]; cbn [mbind option_bind]; [|by rewrite Ho].
  destruct Ho as (h1 & ms1 & -> & Hok1 & Hc). cbn [mbind option_bind]. rewrite <- Hc. specialize (IH h1 ms1 q1 Hok1).
  destruct (s_run _ ops q1) as [[l q2]|]; cbn [mbind option_bind]; [|by rewrite IH]. destruct IH as (h2 & ms2 & -> & Hok2). by exists h2, ms2.
Qed.

(** ** Properties *)

(** The same without departures: a bounded queue of packets. *)
Definition p_add (cap : Z) (q : list qpacket) (k : qpacket) : list qpacket := (if zlen q =? cap then drop 1 q else q) ++ [k].
Definition p_exec (cap : Z) (op : queue_op) (q : list qpacket) : queue_answer * list qpacket :=
  match op with
  | QUnicast buf mi ready => (ANone, if (0 <? buf_len buf) && ready then p_add cap q (mkqp mi (clone_buf buf) MF_UNICAST) else q)
  | QBcast buf clients sender by_addr vid =>
      (ANone, if 0 <? buf_len buf
              then fold_left (fun q c => if bc_ready c then p_add cap q (mkqp (bc_id c) (clone_buf buf) 0) else q)
                     (filter (fun c => bcast_to sender by_addr vid c = true) clients) q
              else q)
  | QGet => (AGot ((fun k => (qp_to k, qp_buf k, pip_flags (qp_flags k))) <$> head q), tail q)
  | QPeek => (APeek (qp_to <$> head q), q)
  | QClose _ => (ANone, q)
  end.
Fixpoint p_run (cap : Z) (ops : list queue_op) (q : list qpacket) : list queue_answer * list qpacket :=
  match ops with
  | [] => ([], q)
  | op :: ops => let '(a, q) := p_exec cap op q in let '(l, q) := p_run cap ops q in (a :: l, q)
  end.
Definition departs (op : queue_op) : bool := match op with QClose _ => true | _ => false end.

Section Plain.
Context (cap : Z) (Hcap : 0 < cap).

Lemma p_add_spec q k : zlen q <= cap -> s_add cap (map Some q) k = Some (map Some (p_add cap q k)) /\ zlen (p_add cap q k) <= cap.
Proof.
  intros Hq. unfold s_add, p_add. assert (zlen (map Some q) = zlen q) as -> by (unfold zlen; by rewrite length_map). rewrite zlen_app, zlen_cons, zlen_nil, map_app.
  destruct (Z.eqb_spec (zlen q) cap) as [He|Hne]; [|split; [done|lia]]. destruct q as [|x q]; [unfold zlen in He; cbn in He; lia|]. cbn [map s_extract skipn].
  split; [done|]. rewrite zlen_cons in He. change (drop 0 q) with q. lia.
Qed.

Lemma p_bcast_spec buf cs : forall q, zlen q <= cap ->
  let q' := fold_left (fun q c => if bc_ready c then p_add cap q (mkqp (bc_id c) (clone_buf buf) 0) else q) cs q in
  s_bcast cap buf cs (map Some q) = Some (map Some q') /\ zlen q' <= cap.
Proof.
  unfold s_bcast. induction cs as [|c cs IH]; intros q Hq; cbn [fold_left]; [done|]. cbn [mbind option_bind]. destruct (bc_ready c); [|by apply IH].
  destruct (p_add_spec q (mkqp (bc_id c) (clone_buf buf) 0) Hq) as [-> Hq']. by apply IH.
Qed.

Lemma p_run_spec ops : forall q, zlen q <= cap -> Forall (fun op => departs op = false) ops ->
  s_run cap ops (map Some q) = Some ((p_run cap ops q).1, map Some (p_run cap ops q).2).
Proof.
  induction ops as [|op ops IH]; intros q Hq Hd; [done|]. apply Forall_cons in Hd as [Hop Hd]. cbn [s_run p_run].
  assert (s_exec cap op (map Some q) = Some ((p_exec cap op q).1, map Some (p_exec cap op q).2) /\ zlen (p_exec cap op q).2 <= cap) as [-> Hq'].
  { destruct op as [buf mi ready|buf clients sender by_addr vid| | |mi]; cbn [s_exec p_exec fst snd].
    - destruct (_ && ready); [|done]. destruct (p_add_spec q (mkqp mi (clone_buf buf) MF_UNICAST) Hq) as [-> ?]. done.
    - destruct (0 <? buf_len buf); [|done]. destruct (p_bcast_spec buf (filter (fun c => bcast_to sender by_addr vid c = true) clients) q Hq) as [-> ?]. done.
    - destruct q as [|x q]; [done|]. split; [done|]. cbn [tail]. rewrite zlen_cons in Hq. lia.
    - destruct q as [|x q]; done.
    - done. }
  cbn [mbind option_bind]. destruct (p_exec cap op q) as [a q1]. cbn [fst snd] in *. rewrite IH by done. cbn [mbind option_bind]. by destruct (p_run cap ops q1).
Qed.
End Plain.

(** C27. The queue of packets.  Whatever sequence of unicasts, broadcasts, extractions,
    looks and disconnections a server goes through with a fresh queue for [size]
    packets, the ring of counted references answers as a queue of packets does, of at
    least the size asked for: packets come out in the order they went in, each for its
    client and as it was, a full queue loses its oldest packet, and those for clients
    that left become holes, which take up room until they are skipped.  No packet is used
    after it was released, and the packets allocated at the end are exactly those in the
    queue: freeing the queue leaves none.  If no client leaves, the server never stops and
    the queue is a plain bounded one ([p_run]).  With departures there is one case in which
    the server stops: a packet is added to a queue that is full of holes
    ([queue_of_holes_stops]). *)
Theorem mbuf_refines_queue size ops : 0 <= size <= 2 ^ 31 ->
  exists ms cap, mbuf_init size = Some ms /\ size <= cap /\
    match s_run cap ops [] with
    | Some (l, q) => exists h' ms', queue_run ops ∅ ms = Some (l, h', ms') /\ mbuf_free h' ms' = Some ∅ /\
        exists items, q = map (item_packet h') items /\ heap_ok h' (map it_buffer items)
    | None => queue_run ops ∅ ms = None
    end /\
    (Forall (fun op => departs op = false) ops -> s_run cap ops [] = Some ((p_run cap ops []).1, map Some (p_run cap ops []).2)).
Proof.
  intros Hs. destruct (ring_init size Hs) as (ms & Hi & Hr & Hc & _). exists ms, (ms_capacity ms). split; [done|]. split; [done|].
  pose proof (cap_pos ms [] Hr) as Hpos. split; [|intros Hd; by apply (p_run_spec _ Hpos ops [] ltac:(unfold zlen; cbn; lia))].
  assert (mbuf_ok ∅ ms [] []) as Hok. { exists []. split; [done|]. split; [constructor|]. split; [|done]. intros p. by rewrite lookup_empty. }
  pose proof (queue_run_ok ops ∅ ms [] Hok) as Hrun. destruct (s_run _ ops []) as [[l q]|]; [|done]. destruct Hrun as (h' & ms' & Hrun & Hok'). exists h', ms'.
  split; [done|]. split; [by apply (free_all_ok h' ms' q)|]. destruct Hok' as (items & _ & _ & Hh & Hq). by exists items.
Qed.

(** Two packets for one client, one of them for all; the client 2 leaves. *)
Definition toy_queue_packet (x : Z) : buffer := mkbuffer 4 0 2 (Some [x; x; 0; 0]).
Definition toy_queue_ops : list queue_op :=
  [QUnicast (toy_queue_packet 7) 1%positive true;
   QBcast (toy_queue_packet 9) [mkbc 1%positive true false 0 true true; mkbc 2%positive true false 0 true true; mkbc 3%positive true false 0 true true] (Some 3%positive) false 0;
   QClose 2%positive; QPeek; QGet; QGet; QGet].

Lemma mbuf_refines_queue_witness : exists ms h' ms', mbuf_init 4 = Some ms /\
  queue_run toy_queue_ops ∅ ms = Some ([ANone; ANone; ANone; APeek (Some 1%positive); AGot (Some (1%positive, toy_queue_packet 7, pip_flags MF_UNICAST));
    AGot (Some (1%positive, toy_queue_packet 9, pip_flags 0)); AGot None], h', ms') /\ h' = ∅.
Proof.
  destruct (mbuf_refines_queue 4 toy_queue_ops) as (ms & cap & Hi & _); [lia|].
  exists ms. vm_compute in Hi. injection Hi as <-. eexists _, _. split; [reflexivity|]. split; [vm_compute; reflexivity|vm_compute; reflexivity].
Defined.

(** A queue full of places of clients that left stops the server. *)
Lemma queue_of_holes_stops : match mbuf_init 2 with
  | Some ms => queue_run [QUnicast (toy_queue_packet 7) 1%positive true; QUnicast (toy_queue_packet 8) 1%positive true; QClose 1%positive; QUnicast (toy_queue_packet 9) 2%positive true] ∅ ms = None
  | None => False
  end.
Proof. vm_compute. reflexivity. Qed.
