(* ===== verification/Pool.v ===== *)
(** The pool of virtual addresses ([src/openvpn/pool.h], [pool.c]) and the choice of an
    address for a client ([multi_select_virtual_addr] in [multi.c]). *)
From Stdlib Require Import String.
From stdpp Require Import gmap list strings.
From S2P Require Import Prelude CString Integer Buffer Proto.

(** ** The code *)

Definition IFCONFIG_POOL_MAX : Z := 65536.
Inductive pool_type := IFCONFIG_POOL_30NET | IFCONFIG_POOL_INDIV.
Record ifconfig_pool_entry := mkipe { in_use : bool; common_name : option string; last_release : Z; fixed : bool }.
#[export] Instance eta_ipe : EtaOf ifconfig_pool_entry := fun r => mkipe (in_use r) (common_name r) (last_release r) (fixed r).

(** An IPv6 address is the list of its 16 bytes.  [size] is the length of [pl_list]. *)
Record ifconfig_pool := mkpool {
  duplicate_cn : bool; ipv4_enabled : bool; ipv4_type : pool_type; ipv4_base : Z; ipv6_enabled : bool; ipv6_base : list Z; pl_list : list ifconfig_pool_entry }.
#[export] Instance eta_pool : EtaOf ifconfig_pool := fun r =>
  mkpool (duplicate_cn r) (ipv4_enabled r) (ipv4_type r) (ipv4_base r) (ipv6_enabled r) (ipv6_base r) (pl_list r).
Definition pl_size (pool : ifconfig_pool) : Z := zlen (pl_list pool).

(** [add_in6_addr] of [socket.c]: [k] bytes are left, [i = k - 1]. *)
Fixpoint add_in6_loop (k : nat) (base : list Z) (add : Z) : list Z :=
  match k with
  | O => base
  | S i =>
      if 0 <? add then
        let h := zget 0 base (Z.of_nat i) in
        let base := zput base (Z.of_nat i) (Z.land (u32 (h + add)) 255) in
        let carry := Z.shiftr (Z.land h 255 + Z.land add 255) 8 in
        add_in6_loop i base (u32 (Z.shiftr add 8 + carry))
      else base
  end.
Definition add_in6_addr (base : list Z) (add : Z) : list Z := add_in6_loop 16 base add.

Definition ifconfig_pool_entry_free (now : Z) (hard : bool) (ipe : ifconfig_pool_entry) : ifconfig_pool_entry :=
  let ipe := ipe <| in_use := false |> in
  let ipe := if hard then ipe <| common_name := None |> else ipe in
  ipe <| last_release := if hard then 0 else now |>.

(** The loop of [ifconfig_pool_find]: [earliest], [previous] and [new] are
    [earliest_release], [previous_usage] and [new_usage]. *)
Fixpoint find_loop (dup : bool) (cn : option string) (l : list ifconfig_pool_entry) (i earliest previous new : Z) : Z * Z :=
  match l with
  | [] => (previous, new)
  | ipe :: l =>
      if in_use ipe then find_loop dup cn l (i + 1) earliest previous new
      else if dup then (previous, i)
      else
        let '(earliest, new) :=
          if ((new =? -1) || (last_release ipe <? earliest)) && negb (fixed ipe) then (last_release ipe, i) else (earliest, new) in
        let previous :=
          if previous <? 0 then
            match cn, common_name ipe with
            | Some c, Some n => if bool_decide (c = n) then i else previous
            | _, _ => previous
            end
          else previous in
        find_loop dup cn l (i + 1) earliest previous new
  end.
Definition ifconfig_pool_find (pool : ifconfig_pool) (cn : option string) : Z :=
  let '(previous, new) := find_loop (duplicate_cn pool) cn (pl_list pool) 0 0 (-1) (-1) in
  if 0 <=? previous then previous else if 0 <=? new then new else -1.

Definition ifconfig_pool_verify_range (start end_ : Z) : bool :=
  let ret := if end_ <? start then false else true in
  if IFCONFIG_POOL_MAX <=? u32 (end_ - start) then false else ret.

(** The last four bytes of an address. *)
Definition in6_low (a : list Z) : Z := be_val (mem_read a 12 4).

Definition ifconfig_pool_init (ipv4_pool : bool) (type : pool_type) (start end_ : Z) (dup : bool) (ipv6_pool : bool) (base6 : list Z) (netbits : Z)
    : option ifconfig_pool :=
  _ ← guard (start <= end_ /\ end_ - start < IFCONFIG_POOL_MAX);
  let base4 := match type with IFCONFIG_POOL_30NET => Z.land start (u32 (Z.lnot 3)) | IFCONFIG_POOL_INDIV => start end in
  let size4 := match type with
    | IFCONFIG_POOL_30NET => Z.shiftr (u32 (u32 (Z.lor end_ 3 + 1) - base4)) 2
    | IFCONFIG_POOL_INDIV => end_ - start + 1 end in
  _ ← guard (ipv4_pool = true -> 2 <= size4);
  let size := if ipv4_pool then size4 else 0 in
  let base := in6_low base6 in
  let base := if 128 - netbits <? 32 then Z.land base (Z.shiftl 1 (128 - netbits) - 1) else base in
  let '(base, base6) := if base =? 0 then (base + 1, zput base6 15 (u8 (zget 0 base6 15 + 1))) else (base, base6) in
  let size6 := if 112 <=? netbits then Z.shiftl 1 (128 - netbits) - base else IFCONFIG_POOL_MAX in
  _ ← guard (ipv6_pool = true -> 2 <= size6);
  let size := if ipv6_pool && ((size <=? 0) || (size6 <? size)) then size6 else size in
  _ ← guard (0 < size);
  Some (mkpool dup ipv4_pool (if ipv4_pool then type else IFCONFIG_POOL_30NET) (if ipv4_pool then base4 else 0) ipv6_pool (if ipv6_pool then base6 else replicate 16 0)
         (replicate (Z.to_nat size) (mkipe false None 0 false))).

(** The handle, the addresses (the local and remote one, and the IPv6 one; unset where
    the pool has none) and the pool. *)
Definition ifconfig_pool_acquire (pool : ifconfig_pool) (cn : option string) : option (Z * option (Z * Z) * option (list Z) * ifconfig_pool) :=
  let i := ifconfig_pool_find pool cn in
  if 0 <=? i then
    ipe ← pl_list pool !! Z.to_nat i;
    _ ← guard (in_use ipe = false);
    let ipe := (ifconfig_pool_entry_free 0 true ipe) <| in_use := true |> in
    let ipe := match cn with Some c => ipe <| common_name := Some c |> | None => ipe end in
    let v4 :=
      if ipv4_enabled pool then
        match ipv4_type pool with
        | IFCONFIG_POOL_30NET => let b := u32 (ipv4_base pool + Z.shiftl i 2) in Some (u32 (b + 1), u32 (b + 2))
        | IFCONFIG_POOL_INDIV => Some (0, u32 (ipv4_base pool + i))
        end
      else None in
    let v6 := if ipv6_enabled pool then Some (add_in6_addr (ipv6_base pool) i) else None in
    Some (i, v4, v6, pool <| pl_list := <[Z.to_nat i := ipe]> (pl_list pool) |>)
  else Some (i, None, None, pool).

Definition ifconfig_pool_release (now : Z) (pool : ifconfig_pool) (hand : Z) (hard : bool) : bool * ifconfig_pool :=
  if (0 <=? hand) && (hand <? pl_size pool)
  then (true, pool <| pl_list := alter (ifconfig_pool_entry_free now hard) (Z.to_nat hand) (pl_list pool) |>)
  else (false, pool).

Definition ifconfig_pool_ip_base_to_handle (pool : ifconfig_pool) (addr : Z) : Z :=
  let ret := match ipv4_type pool with
    | IFCONFIG_POOL_30NET => i32 (Z.shiftr (u32 (addr - ipv4_base pool)) 2)
    | IFCONFIG_POOL_INDIV => i32 (u32 (addr - ipv4_base pool)) end in
  if (ret <? 0) || (pl_size pool <=? ret) then -1 else ret.

Definition ifconfig_pool_ipv6_base_to_handle (pool : ifconfig_pool) (in_addr : list Z) : Z :=
  if negb (bytes_eqb (mem_read (ipv6_base pool) 0 12) (mem_read in_addr 0 12)) then -1
  else
    let ret := i32 (u32 (in6_low in_addr - in6_low (ipv6_base pool))) in
    if (ret <? 0) || (pl_size pool <=? ret) then -1 else ret.

Definition ifconfig_pool_handle_to_ip_base (pool : ifconfig_pool) (hand : Z) : Z :=
  if ipv4_enabled pool && (0 <=? hand) && (hand <? pl_size pool) then
    match ipv4_type pool with
    | IFCONFIG_POOL_30NET => u32 (ipv4_base pool + Z.shiftl hand 2)
    | IFCONFIG_POOL_INDIV => u32 (ipv4_base pool + hand)
    end
  else 0.

Definition ifconfig_pool_handle_to_ipv6_base (pool : ifconfig_pool) (hand : Z) : list Z :=
  if ipv6_enabled pool && (0 <=? hand) && (hand <? pl_size pool) then add_in6_addr (ipv6_base pool) hand else replicate 16 0.

Definition ifconfig_pool_set (now : Z) (pool : ifconfig_pool) (cn : string) (h : Z) (fix_ : bool) : ifconfig_pool :=
  pool <| pl_list := <[Z.to_nat h := mkipe false (Some cn) now fix_]> (pl_list pool) |>.

(** *** The database *)

(** The file: a write with [status_printf], which stops at the first line that is too long
    ([st] is [errors] and the text), and the lines that [status_read] gives: carriage
    returns are left out, a line is cut at the end of the buffer [in] of 256 bytes and
    terminated. *)
Definition STATUS_PRINTF_MAXLEN : Z := 512.
Definition status_printf (st : bool * list Z) (s : list Z) : bool * list Z :=
  let '(errors, text) := st in
  let errors := errors || (STATUS_PRINTF_MAXLEN <=? zlen s) in
  if (errors : bool) then (errors, text) else (errors, text ++ s ++ [10]).

Definition buf_null_terminate (cap : Z) (buf : list Z) : list Z :=
  if bool_decide (last buf = Some 0) then buf else take (Z.to_nat (cap - 1)) buf ++ [0].
Fixpoint status_read_loop (file buf : list Z) : list Z * list Z :=
  match file with
  | [] => (buf, [])
  | c :: file =>
      if c =? 13 then status_read_loop file buf
      else if c =? 10 then (buf, file)
      else status_read_loop file (if zlen buf <? 256 then buf ++ [c] else buf)
  end.
Definition status_read (file : list Z) : option (list Z * list Z) :=
  match file with [] => None | _ => let '(buf, rest) := status_read_loop file [] in Some (buf_null_terminate 256 buf, rest) end.

(** A line as the parser of addresses leaves it: an address is absent, or its text is no
    address, or is one. *)
Record pool_line := mkline { ln_cn : string; ln_ip : option (option Z); ln_ip6 : option (option (list Z)) }.

Section Database.
(** [inet_ntop] and the resolver for both versions. *)
Context (print_in6_addr : list Z -> list Z) (getaddr : list Z -> option Z) (get_ipv6_addr : list Z -> option (list Z)).

Definition pool_text (pool : ifconfig_pool) (i : nat) (cn : string) : list Z :=
  let ip_str := if ipv4_enabled pool then print_in_addr_t (ifconfig_pool_handle_to_ip_base pool (Z.of_nat i)) else [] in
  let ip6_str := if ipv6_enabled pool then print_in6_addr (ifconfig_pool_handle_to_ipv6_base pool (Z.of_nat i)) else [] in
  lit cn ++ [44] ++ ip_str ++ [44] ++ ip6_str.
Definition ifconfig_pool_list (pool : ifconfig_pool) : list Z :=
  (fold_left status_printf (omap (fun '(i, e) => cn ← common_name e; Some (pool_text pool i cn)) (imap pair (pl_list pool))) (false, [])).2.

(** The fields of a line; [None] when it is skipped. *)
Definition parse_pool_line (line : list Z) : option pool_line :=
  if (zget 0 line 0 =? 35) || (zget 0 line 0 =? 59) then None
  else
    '(cn_buf, line) ← buf_parse 44 128 line;
    '(ip_buf, line) ← buf_parse 44 128 line;
    let ip := if 0 <? zlen ip_buf then Some (getaddr ip_buf) else None in
    let ip6 := match buf_parse 44 128 line with Some (ip6_buf, _) => if 0 <? zlen ip6_buf then Some (get_ipv6_addr ip6_buf) else None | None => None end in
    Some (mkline (str cn_buf) ip ip6).

(** What is done with a line. *)
Definition ifconfig_pool_read_line (now : Z) (fix_ : bool) (pool : ifconfig_pool) (ln : pool_line) : ifconfig_pool :=
  let h := match ln_ip ln with Some (Some addr) => ifconfig_pool_ip_base_to_handle pool addr | _ => -1 end in
  let h :=
    match ln_ip6 ln with
    | Some (Some addr6) => let h6 := ifconfig_pool_ipv6_base_to_handle pool addr6 in if h <? 0 then h6 else h
    | _ => h
    end in
  if 0 <=? h then ifconfig_pool_set now pool (ln_cn ln) h fix_ else pool.

(** [fuel]: one more than the bytes of the file, of which every turn takes one at least. *)
Fixpoint read_loop (fuel : nat) (now : Z) (fix_ : bool) (file : list Z) (pool : ifconfig_pool) : option ifconfig_pool :=
  match fuel with
  | O => None
  | S fuel =>
      match status_read file with
      | None => Some pool
      | Some (line, file) =>
          read_loop fuel now fix_ file (match parse_pool_line line with Some ln => ifconfig_pool_read_line now fix_ pool ln | None => pool end)
      end
  end.
Definition ifconfig_pool_read (now : Z) (fix_ : bool) (pool : ifconfig_pool) (file : list Z) : option ifconfig_pool :=
  read_loop (S (length file)) now fix_ file pool.
End Database.

(** *** The choice for a client *)

Definition TOP_NET30 : Z := 1.
Definition TOP_P2P : Z := 2.
Definition TOP_SUBNET : Z := 3.

Record ipv6_push := mk6 { p6_local : list Z; p6_remote : list Z; p6_netbits : Z }.
(** The options of a client and the tunnel device: [o_push] are the local address, the
    netmask and the alias of [--ifconfig-push]. *)
Record select_options := mkso {
  o_push : option (Z * Z * Z); o_push6 : option ipv6_push; o_duplicate_cn : bool;
  o_pool_defined : bool; o_pool_netmask : Z; o_ipv6_pool_defined : bool; o_ipv6_netbits : Z;
  t_type : Z; t_topology : Z; t_local : Z; t_remote_netmask : Z; t_local_ipv6 : list Z }.
(** The handle, and what will be pushed to the client. *)
Record select_state := mkss {
  vaddr_handle : Z; push_defined : bool; push_local : Z; push_netmask : Z; push_alias : Z; push6 : option ipv6_push }.
#[export] Instance eta_select_state : EtaOf select_state := fun r =>
  mkss (vaddr_handle r) (push_defined r) (push_local r) (push_netmask r) (push_alias r) (push6 r).

(** The netmask that goes with an address of the pool; no case matches a device that is
    neither tun nor tap. *)
Definition pool_netmask (o : select_options) (old local : Z) : Z :=
  if (t_type o =? DEV_TYPE_TAP) || ((t_type o =? DEV_TYPE_TUN) && (t_topology o =? TOP_SUBNET)) then
    if o_pool_netmask o =? 0 then t_remote_netmask o else o_pool_netmask o
  else if t_type o =? DEV_TYPE_TUN then
    if t_topology o =? TOP_P2P then t_local o else if t_topology o =? TOP_NET30 then local else old
  else old.

Definition multi_select_virtual_addr (now : Z) (pool : option ifconfig_pool) (o : select_options) (cn : option string) (st : select_state)
    : option (option ifconfig_pool * select_state) :=
  '(pool, st) ← (
    match o_push o, pool with
    | Some (l, nm, al), _ =>
        let '(pool, st) :=
          if 0 <=? vaddr_handle st then
            ((fun p => (ifconfig_pool_release now p (vaddr_handle st) true).2) <$> pool, st <| vaddr_handle := -1 |>)
          else (pool, st) in
        Some (pool, st <| push_defined := true |> <| push_local := l |> <| push_netmask := nm |> <| push_alias := al |>)
    | None, Some p =>
        if vaddr_handle st <? 0 then
          '(h, v4, v6, p) ← ifconfig_pool_acquire p (if o_duplicate_cn o then None else cn);
          let st := st <| vaddr_handle := h |> in
          if 0 <=? h then
            let '(local, remote) := default (0, 0) v4 in
            let st :=
              if o_pool_defined o then
                let nm := pool_netmask o (push_netmask st) local in
                let st := st <| push_local := remote |> <| push_netmask := nm |> in
                if nm =? 0 then st else st <| push_defined := true |>
              else st in
            let st :=
              if o_ipv6_pool_defined o then st <| push6 := Some (mk6 (default (replicate 16 0) v6) (t_local_ipv6 o) (o_ipv6_netbits o)) |> else st in
            Some (Some p, st)
          else Some (Some p, st)
        else Some (pool, st)
    | None, None => Some (pool, st)
    end);
  Some (pool, match o_push6 o with Some p6 => st <| push6 := Some p6 |> | None => st end).

(** ** The search *)

Definition mine (cn : option string) (e : ifconfig_pool_entry) : Prop := in_use e = false /\ exists c, cn = Some c /\ common_name e = Some c.
Definition candidate (e : ifconfig_pool_entry) : Prop := in_use e = false /\ fixed e = false.

(** The entry at [k] is the first with [P]. *)
Definition first_at (P : ifconfig_pool_entry -> Prop) (l : list ifconfig_pool_entry) (k : nat) : Prop :=
  (exists e, l !! k = Some e /\ P e) /\ forall j e, (j < k)%nat -> l !! j = Some e -> ~ P e.
(** It is the candidate released longest ago, the first of those. *)
Definition oldest_at (l : list ifconfig_pool_entry) (k : nat) : Prop :=
  exists e, l !! k = Some e /\ candidate e /\
    forall j e', l !! j = Some e' -> candidate e' -> last_release e <= last_release e' /\ ((j < k)%nat -> last_release e < last_release e').

(** The three searches of the loop one by one. *)
Fixpoint find_previous (cn : option string) (l : list ifconfig_pool_entry) (i previous : Z) : Z :=
  match l with
  | [] => previous
  | e :: l =>
      find_previous cn l (i + 1)
        (if in_use e then previous
         else if previous <? 0 then match cn, common_name e with Some c, Some n => if bool_decide (c = n) then i else previous | _, _ => previous end
         else previous)
  end.
Fixpoint find_new (l : list ifconfig_pool_entry) (i earliest new : Z) : Z :=
  match l with
  | [] => new
  | e :: l =>
      if in_use e then find_new l (i + 1) earliest new
      else if ((new =? -1) || (last_release e <? earliest)) && negb (fixed e) then find_new l (i + 1) (last_release e) i
      else find_new l (i + 1) earliest new
  end.
Fixpoint find_free (l : list ifconfig_pool_entry) (i new : Z) : Z :=
  match l with [] => new | e :: l => if in_use e then find_free l (i + 1) new else i end.

Lemma find_loop_split dup cn l : forall i earliest previous new,
  find_loop dup cn l i earliest previous new = if dup then (previous, find_free l i new) else (find_previous cn l i previous, find_new l i earliest new).
Proof.
  induction l as [|e l IH]; intros i earliest previous new; cbn; [by destruct dup|]. destruct (in_use e); [apply IH|]. destruct dup; [done|].
  destruct (_ && negb (fixed e)); apply IH.
Qed.

Lemma first_cons P e l k : ~ P e -> first_at P l k -> first_at P (e :: l) (S k).
Proof. intros He [Hk Hf]. split; [exact Hk|]. intros [|j] e' Hj; [by intros [= <-]|]. apply Hf. lia. Qed.

Lemma find_free_spec l : forall i, find_free l i (-1) = -1 /\ (forall k e, l !! k = Some e -> in_use e = true) \/
  exists k, find_free l i (-1) = i + Z.of_nat k /\ first_at (fun e => in_use e = false) l k.
Proof.
  induction l as [|e l IH]; intros i; cbn [find_free]; [by left|]. destruct (in_use e) eqn:Hu.
  - destruct (IH (i + 1)) as [[-> Hn]|(k & -> & Hk)].
    + left. split; [done|]. intros [|k] e'; [by intros [= <-]|apply Hn].
    + right. exists (S k). split; [lia|]. by apply first_cons; [rewrite Hu|].
  - right. exists 0%nat. split; [lia|]. split; [by exists e|]. lia.
Qed.

Lemma find_previous_found cn l : forall i previous, 0 <= previous -> find_previous cn l i previous = previous.
Proof.
  induction l as [|e l IH]; intros i previous Hp; cbn [find_previous]; [done|]. destruct (in_use e); [by apply IH|]. destruct (Z.ltb_spec previous 0); [lia|by apply IH].
Qed.

Lemma find_previous_spec cn l : forall i, 0 <= i -> find_previous cn l i (-1) = -1 /\ (forall k e, l !! k = Some e -> ~ mine cn e) \/
  exists k, find_previous cn l i (-1) = i + Z.of_nat k /\ first_at (mine cn) l k.
Proof.
  induction l as [|e l IH]; intros i Hi; cbn [find_previous]; [by left|].
  assert (~ mine cn e -> find_previous cn l (i + 1) (-1) = -1 /\ (forall k e', (e :: l) !! k = Some e' -> ~ mine cn e') \/
    exists k, find_previous cn l (i + 1) (-1) = i + Z.of_nat k /\ first_at (mine cn) (e :: l) k) as Hskip.
  { intros He. destruct (IH (i + 1) ltac:(lia)) as [[-> Hn]|(k & -> & Hk)].
    - left. split; [done|]. intros [|k] e'; [by intros [= <-]|apply Hn].
    - right. exists (S k). split; [lia|]. by apply first_cons. }
  destruct (in_use e) eqn:Hu; [apply Hskip; intros [? _]; congruence|]. cbn [Z.ltb Z.compare].
  destruct cn as [c|]; [|apply Hskip; intros (_ & c & ? & _); congruence].
  destruct (common_name e) as [n|] eqn:Hn; [|apply Hskip; intros (_ & c' & _ & ?); congruence].
  case_bool_decide as Hc; [|apply Hskip; intros (_ & c' & ? & ?); congruence]. subst n.
  right. exists 0%nat. rewrite find_previous_found by done. split; [lia|]. split; [|lia]. exists e. split; [done|]. split; [done|]. by exists c.
Qed.

Lemma find_new_spec l : forall i earliest new, 0 <= i -> -1 <= new ->
  let r := find_new l i earliest new in
  r = new /\ (forall k e, l !! k = Some e -> candidate e -> new <> -1 /\ earliest <= last_release e) \/
  exists k e, r = i + Z.of_nat k /\ l !! k = Some e /\ candidate e /\ (new = -1 \/ last_release e < earliest) /\
    forall j e', l !! j = Some e' -> candidate e' -> last_release e <= last_release e' /\ ((j < k)%nat -> last_release e < last_release e').
Proof.
  induction l as [|e l IH]; intros i earliest new Hi Hnew; cbn [find_new]; [by left|].
  assert ((candidate e -> new <> -1 /\ earliest <= last_release e) ->
    find_new l (i + 1) earliest new = new /\ (forall k e0, (e :: l) !! k = Some e0 -> candidate e0 -> new <> -1 /\ earliest <= last_release e0) \/
    exists k e0, find_new l (i + 1) earliest new = i + Z.of_nat k /\ (e :: l) !! k = Some e0 /\ candidate e0 /\ (new = -1 \/ last_release e0 < earliest) /\
      forall j e', (e :: l) !! j = Some e' -> candidate e' -> last_release e0 <= last_release e' /\ ((j < k)%nat -> last_release e0 < last_release e')) as Hskip.
  { intros He. destruct (IH (i + 1) earliest new ltac:(lia) Hnew) as [[-> Hn]|(k & e0 & -> & H0 & Hc & Hlt & Hmin)].
    - left. split; [done|]. intros [|k] e0; [by intros [= <-]|apply Hn].
    - right. exists (S k), e0. split; [lia|]. split; [done|]. split; [done|]. split; [done|]. intros [|j] e' He' Hc'.
      + cbn in He'. injection He' as <-. destruct (He Hc') as [Hne Hle]. destruct Hlt as [?|Hlt]; [done|]. lia.
      + destruct (Hmin j e' He' Hc') as [H1 H2]. split; [done|]. intros Hj. apply H2. lia. }
  destruct (in_use e) eqn:Hu; [apply Hskip; intros [? _]; congruence|].
  destruct (_ && negb (fixed e)) eqn:E; cycle 1.
  { apply Hskip. intros [_ Hf]. rewrite Hf, andb_true_r in E. apply orb_false_iff in E as [E1%Z.eqb_neq E2%Z.ltb_ge]. done. }
  apply andb_true_iff in E as [E Hf%negb_true_iff]. apply orb_true_iff in E. assert (candidate e) as He by done.
  assert (new = -1 \/ last_release e < earliest) as Hlt by (destruct E as [E%Z.eqb_eq|E%Z.ltb_lt]; auto). right.
  destruct (IH (i + 1) (last_release e) i) as [[-> Hn]|(k & e0 & -> & H0 & Hc & Hlt0 & Hmin)]; [lia|lia| |].
  - exists 0%nat, e. split; [lia|]. split; [done|]. split; [done|]. split; [done|]. intros [|j] e' He' Hc'; [cbn in He'; injection He' as <-; lia|].
    destruct (Hn j e' He' Hc') as [_ ?]. split; [done|lia].
  - destruct Hlt0 as [?|Hlt0]; [lia|]. exists (S k), e0. split; [lia|]. split; [done|]. split; [done|]. split; [destruct Hlt; [by left|right; lia]|].
    intros [|j] e' He' Hc'; [cbn in He'; injection He' as <-; lia|]. destruct (Hmin j e' He' Hc') as [H1 H2]. split; [done|]. intros Hj. apply H2. lia.
Qed.

(** Which handle a client gets. *)
Definition pool_choice (pool : ifconfig_pool) (cn : option string) (k : nat) : Prop :=
  if duplicate_cn pool then first_at (fun e => in_use e = false) (pl_list pool) k
  else first_at (mine cn) (pl_list pool) k \/ (forall j e, pl_list pool !! j = Some e -> ~ mine cn e) /\ oldest_at (pl_list pool) k.
Definition pool_exhausted (pool : ifconfig_pool) (cn : option string) : Prop :=
  forall j e, pl_list pool !! j = Some e -> in_use e = true \/ duplicate_cn pool = false /\ fixed e = true /\ ~ mine cn e.

Lemma find_spec pool cn : ifconfig_pool_find pool cn = -1 /\ pool_exhausted pool cn \/ exists k, ifconfig_pool_find pool cn = Z.of_nat k /\ pool_choice pool cn k.
Proof.
  unfold ifconfig_pool_find, pool_choice, pool_exhausted. rewrite find_loop_split. destruct (duplicate_cn pool).
  - cbn. destruct (find_free_spec (pl_list pool) 0) as [[-> Hn]|(k & -> & Hk)]; [left; split; [done|]; intros j e He; left; by eapply Hn|]. right. exists k.
    destruct (Z.leb_spec 0 (0 + Z.of_nat k)); [|lia]. by split; [lia|].
  - destruct (find_previous_spec cn (pl_list pool) 0 ltac:(done)) as [[-> Hno]|(k & -> & Hk)]; cycle 1.
    { right. exists k. destruct (Z.leb_spec 0 (0 + Z.of_nat k)); [|lia]. split; [lia|by left]. }
    cbn. destruct (find_new_spec (pl_list pool) 0 0 (-1) ltac:(done) ltac:(done)) as [[-> Hn]|(k & e & -> & He & Hc & _ & Hmin)].
    + left. split; [done|]. intros j e He. destruct (in_use e) eqn:Hu; [by left|right]. split; [done|]. split; [|by eapply Hno].
      destruct (fixed e) eqn:Hf; [done|]. destruct (Hn j e He) as [? _]; done.
    + right. exists k. destruct (Z.leb_spec 0 (0 + Z.of_nat k)); [|lia]. split; [lia|]. right. split; [done|]. by exists e.
Qed.

Lemma choice_free pool cn k : pool_choice pool cn k -> exists e, pl_list pool !! k = Some e /\ in_use e = false.
Proof.
  unfold pool_choice. destruct (duplicate_cn pool); [by intros [? _]|]. intros [[(e & He & [Hu _]) _]|[_ (e & He & [Hu _] & _)]]; by exists e.
Qed.

(** ** Addresses *)

Lemma land255 z : 0 <= z -> Z.land z 255 = z mod 256.
Proof. intros. change 255 with (Z.ones 8). by rewrite Z.land_ones by lia. Qed.

Lemma take_zput_low {A} (l : list A) (i : nat) v : (i < length l)%nat -> take (S i) (zput l (Z.of_nat i) v) = take i l ++ [v].
Proof.
  intros H. unfold zput. destruct (Z.ltb_spec (Z.of_nat i) 0); [lia|]. rewrite Nat2Z.id.
  rewrite (take_S_r _ _ v) by (by apply list_lookup_insert_eq). by rewrite take_insert_ge by lia.
Qed.

Lemma add_in6_loop_spec k : forall base add, (k <= length base)%nat -> Forall is_byte base -> is_u 32 add ->
  let r := add_in6_loop k base add in
  length r = length base /\ Forall is_byte r /\ drop k r = drop k base /\ be_val (take k r) = (be_val (take k base) + add) mod 256 ^ Z.of_nat k.
Proof.
  induction k as [|i IH]; intros base add Hk Hb Ha; cbn [add_in6_loop]; cbv zeta.
  { split; [done|]. split; [done|]. split; [done|]. cbn. by rewrite Z.mod_1_r. }
  assert (is_byte (zget 0 base (Z.of_nat i))) as Hh.
  { pose proof (zget_lookup 0 base (Z.of_nat i) ltac:(unfold zlen; lia)) as Hl. exact (Forall_lookup_1 _ _ _ _ Hb Hl). }
  set (h := zget 0 base (Z.of_nat i)) in *.
  assert (take (S i) base = take i base ++ [h]) as Htake.
  { apply take_S_r. rewrite <- (Nat2Z.id i) at 1. apply zget_lookup. unfold zlen. lia. }
  assert (0 <= be_val (take i base)) as Hpos by (apply be_val_nonneg, Forall_take, Hb).
  unfold is_u in Ha. unfold is_byte in Hh. destruct (Z.ltb_spec 0 add) as [Hadd|Hadd]; cycle 1.
  { split; [done|]. split; [done|]. split; [done|]. replace add with 0 by lia. rewrite Z.add_0_r, Z.mod_small; [done|]. split; [by apply be_val_nonneg, Forall_take|].
    pose proof (be_val_lt _ (Forall_take _ (S i) _ Hb)) as H. unfold zlen in H. rewrite length_take, Nat.min_l in H by lia. exact H. }
  assert (u32 (Z.shiftr add 8 + Z.shiftr (Z.land h 255 + Z.land add 255) 8) = (h + add) / 256 /\ is_u 32 ((h + add) / 256)) as [-> Hnext].
  { rewrite !land255, !Z.shiftr_div_pow2 by lia. change (2 ^ 8) with 256. unfold u32, wrap, is_u. change (2 ^ 32) with 4294967296 in *. zdiv. }
  assert (Z.land (u32 (h + add)) 255 = (h + add) mod 256) as ->.
  { rewrite land255; unfold u32, wrap; change (2 ^ 32) with 4294967296 in *; zdiv. }
  assert (is_byte ((h + add) mod 256)) as Hlow by (unfold is_byte; zdiv).
  set (base' := zput base (Z.of_nat i) ((h + add) mod 256)) in *.
  assert (length base' = length base) as Hlen by apply zput_length.
  pose proof (take_zput_low base i ((h + add) mod 256) ltac:(lia)) as Hput. fold base' in Hput.
  destruct (IH base' ((h + add) / 256)) as (Hl & Hbr & Hd & Hv); [lia|by apply zput_bytes|done|].
  set (r := add_in6_loop i base' ((h + add) / 256)) in *.
  split; [congruence|]. split; [done|]. split.
  - transitivity (drop 1 (drop i r)); [by rewrite drop_drop, Nat.add_1_r|]. rewrite Hd, drop_drop, Nat.add_1_r. unfold base', zput.
    destruct (Z.ltb_spec (Z.of_nat i) 0); [lia|]. rewrite Nat2Z.id. by rewrite drop_insert_lt by lia.
  - assert (take (S i) r = take i r ++ [(h + add) mod 256]) as ->.
    { apply take_S_r. rewrite <- (Nat.add_0_r i), <- lookup_drop, Hd, lookup_drop, Nat.add_0_r.
      rewrite <- (lookup_take_lt base' (S i)) by lia. rewrite Hput, lookup_app_r by (rewrite length_take; lia). by rewrite length_take, Nat.min_l, Nat.sub_diag by lia. }
    rewrite Htake, !be_val_snoc, Hv.
    assert (take i base' = take i base) as ->.
    { transitivity (take i (take (S i) base')); [by rewrite take_take, Nat.min_l by lia|]. rewrite Hput, take_app_le by (rewrite length_take; lia). by rewrite take_take, Nat.min_id. }
    set (b := be_val (take i base)) in *. rewrite Nat2Z.inj_succ, Z.pow_succ_r by lia.
    assert (0 < 256 ^ Z.of_nat i) as HP by (apply Z.pow_pos_nonneg; lia). set (P := 256 ^ Z.of_nat i) in *. clearbody P b.
    clear - Hh Hadd HP Hpos. replace (b * 256 + h + add) with ((h + add) mod 256 + 256 * (b + (h + add) / 256)) by zdiv.
    rewrite Z.rem_mul_r by lia. assert (((h + add) mod 256 + 256 * (b + (h + add) / 256)) mod 256 = (h + add) mod 256) as -> by zdiv.
    assert (((h + add) mod 256 + 256 * (b + (h + add) / 256)) / 256 = b + (h + add) / 256) as -> by zdiv. lia.
Qed.

Definition is_addr6 (a : list Z) : Prop := length a = 16%nat /\ Forall is_byte a.

Lemma add_in6_addr_spec base add : is_addr6 base -> is_u 32 add ->
  is_addr6 (add_in6_addr base add) /\ be_val (add_in6_addr base add) = (be_val base + add) mod 2 ^ 128.
Proof.
  intros [Hl Hb] Ha. destruct (add_in6_loop_spec 16 base add ltac:(lia) Hb Ha) as (Hl' & Hb' & _ & Hv). unfold add_in6_addr.
  rewrite !take_ge in Hv by lia. split; [by split; [congruence|]|]. exact Hv.
Qed.

Lemma add_in6_addr_inj base a b : is_addr6 base -> is_u 32 a -> is_u 32 b -> add_in6_addr base a = add_in6_addr base b -> a = b.
Proof.
  intros Hb Ha Hb' E. destruct (add_in6_addr_spec base a Hb Ha) as [_ Va]. destruct (add_in6_addr_spec base b Hb Hb') as [_ Vb]. rewrite E, Vb in Va.
  unfold is_u in *. clear - Ha Hb' Va. set (v := be_val base) in *. clearbody v. change (2 ^ 32) with 4294967296 in *.
  change (2 ^ 128) with 340282366920938463463374607431768211456 in *. zdiv.
Qed.

(** ** The pool a configuration gives *)

Record pool_wf (pool : ifconfig_pool) : Prop := {
  wf_size : 0 < pl_size pool <= 65536;
  wf_base6 : is_addr6 (ipv6_base pool);
  wf_base4 : 0 <= ipv4_base pool;
  wf_top4 : ipv4_enabled pool = true ->
    match ipv4_type pool with
    | IFCONFIG_POOL_30NET => ipv4_base pool mod 4 = 0 /\ ipv4_base pool + 4 * pl_size pool <= 2 ^ 32
    | IFCONFIG_POOL_INDIV => ipv4_base pool + pl_size pool <= 2 ^ 32
    end }.

(** The IPv4 addresses of the server and of the client with a handle. *)
Definition pool_v4 (pool : ifconfig_pool) (h : Z) : Z * Z :=
  match ipv4_type pool with
  | IFCONFIG_POOL_30NET => (ipv4_base pool + 4 * h + 1, ipv4_base pool + 4 * h + 2)
  | IFCONFIG_POOL_INDIV => (0, ipv4_base pool + h)
  end.
Definition pool_v6 (pool : ifconfig_pool) (h : Z) : list Z := add_in6_addr (ipv6_base pool) h.

(** Both ends of every link lie in the range from [start] to [end_]; with links of four
    addresses the range extends to whole links. *)
Definition pool_in_range (start end_ : Z) (pool : ifconfig_pool) : Prop :=
  forall h, 0 <= h < pl_size pool ->
    match ipv4_type pool with
    | IFCONFIG_POOL_30NET => start / 4 <= (ipv4_base pool + 4 * h) / 4 <= end_ / 4
    | IFCONFIG_POOL_INDIV => start <= ipv4_base pool + h <= end_
    end.

Definition same_shape (p q : ifconfig_pool) : Prop :=
  duplicate_cn p = duplicate_cn q /\ ipv4_enabled p = ipv4_enabled q /\ ipv4_type p = ipv4_type q /\ ipv4_base p = ipv4_base q /\
  ipv6_enabled p = ipv6_enabled q /\ ipv6_base p = ipv6_base q /\ pl_size p = pl_size q.

Lemma same_shape_wf p q : same_shape p q -> pool_wf p -> pool_wf q.
Proof. intros (_ & E4 & Et & Eb & _ & E6 & Es) [H1 H2 H3 H4]. split; rewrite <- ?E4, <- ?Et, <- ?Eb, <- ?E6, <- ?Es; done. Qed.

Lemma down4 x : is_u 32 x -> Z.land x (u32 (Z.lnot 3)) = 4 * (x / 4).
Proof.
  intros Hx. change (u32 (Z.lnot 3)) with (Z.shiftl (Z.ones 30) 2). replace (4 * (x / 4)) with (Z.shiftl (x / 4) 2) by (rewrite Z.shiftl_mul_pow2 by lia; lia).
  apply Z.bits_inj'. intros n Hn. rewrite Z.land_spec, !Z.shiftl_spec by lia.
  destruct (Z.ltb_spec n 2).
  - rewrite !(Z.testbit_neg_r _ (n - 2)) by lia. by rewrite andb_false_r.
  - change 4 with (2 ^ 2). rewrite Z.div_pow2_bits by lia. replace (n - 2 + 2) with n by lia. destruct (Z.ltb_spec n 32).
    + by rewrite Z.ones_spec_low, andb_true_r by lia.
    + by rewrite (testbit_high 32 x) by done.
Qed.

Lemma up4 x : Z.lor x 3 = 4 * (x / 4) + 3.
Proof.
  pose proof (Z.add_lor_land x 3) as H. change 3 with (Z.ones 2) in H at 2. rewrite Z.land_ones in H by lia. change (2 ^ 2) with 4 in H. zdiv.
Qed.

Lemma size_30net start end_ : is_u 32 start -> is_u 32 end_ -> start <= end_ -> end_ - start < 65536 ->
  Z.shiftr (u32 (u32 (Z.lor end_ 3 + 1) - Z.land start (u32 (Z.lnot 3)))) 2 = end_ / 4 - start / 4 + 1.
Proof.
  intros Hs He Hle Hmax. rewrite up4, down4, Z.shiftr_div_pow2 by done. unfold u32, wrap, is_u in *. change (2 ^ 32) with 4294967296 in *. change (2 ^ 2) with 4. zdiv.
Qed.

Lemma init_wf b4 type start end_ dup b6 base6 netbits pool :
  is_u 32 start -> is_u 32 end_ -> is_addr6 base6 -> netbits <= 128 ->
  ifconfig_pool_init b4 type start end_ dup b6 base6 netbits = Some pool ->
  pool_wf pool /\ (b4 = true -> pool_in_range start end_ pool) /\
  duplicate_cn pool = dup /\ ipv4_enabled pool = b4 /\ ipv6_enabled pool = b6 /\ (b4 = true -> ipv4_type pool = type) /\
  pl_list pool = replicate (Z.to_nat (pl_size pool)) (mkipe false None 0 false).
Proof.
  intros Hs He H6 Hn. unfold ifconfig_pool_init, IFCONFIG_POOL_MAX. rewrite option_guard_decide. destruct (decide _) as [[Hle Hmax]|]; [|by intros [=]]. cbv zeta.
  set (base4 := match type with IFCONFIG_POOL_30NET => Z.land start _ | IFCONFIG_POOL_INDIV => start end).
  set (size4 := match type with IFCONFIG_POOL_30NET => Z.shiftr _ 2 | IFCONFIG_POOL_INDIV => _ end).
  rewrite option_guard_decide. destruct (decide _) as [H4|]; [|by intros [=]].
  set (low := if 128 - netbits <? 32 then _ else _).
  destruct (if low =? 0 then _ else _) as [base a6] eqn:Eb.
  set (size6 := if 112 <=? netbits then _ else _).
  rewrite option_guard_decide. destruct (decide _) as [H6s|]; [|by intros [=]].
  set (size := if b6 && _ then _ else _).
  rewrite option_guard_decide. destruct (decide _) as [Hp|]; [|by intros [=]]. intros [= <-].
  assert (match type with
    | IFCONFIG_POOL_30NET => base4 = 4 * (start / 4) /\ size4 = end_ / 4 - start / 4 + 1
    | IFCONFIG_POOL_INDIV => base4 = start /\ size4 = end_ - start + 1 end) as F4.
  { subst base4 size4. destruct type; [|done]. split; [by apply down4|by apply size_30net]. }
  assert (0 <= low) as Hlow.
  { assert (0 <= in6_low base6) by (apply be_val_nonneg, mem_read_Forall, H6). subst low. destruct (_ <? 32); [|done]. apply Z.land_nonneg. by left. }
  assert (0 <= base /\ is_addr6 a6) as [Hbase Ha6].
  { destruct (low =? 0); injection Eb as <- <-; [|done]. split; [lia|]. split; [rewrite zput_length; apply H6|]. apply zput_bytes; [apply H6|apply wrap_byte]. }
  assert (size6 <= 65536) as Hsize6.
  { subst size6. destruct (Z.leb_spec 112 netbits); [|done]. rewrite Z.shiftl_mul_pow2 by lia. pose proof (Z.pow_le_mono_r 2 (128 - netbits) 16 ltac:(lia) ltac:(lia)). lia. }
  assert ((b4 = true -> size <= size4) /\ (b4 = false -> size <= 65536)) as [S4 S6].
  { subst size. destruct b4; (split; intros ?; [|]); try done; destruct b6; cbn; try lia; destruct (size4 <=? 0) eqn:?, (size6 <? size4) eqn:?; cbn; lia. }
  clearbody base4 size4 low size6 size. unfold is_u in *. change (2 ^ 32) with 4294967296 in *.
  split; [|split; [|unfold pl_size, zlen; cbn; rewrite length_replicate, Nat2Z.id; repeat split; by intros ->]].
  - split; unfold pl_size, zlen; cbn; rewrite ?length_replicate, ?Z2Nat.id by lia.
    + destruct b4; [specialize (S4 eq_refl)|specialize (S6 eq_refl); lia]. destruct type; zdiv.
    + destruct b6; [done|]. split; [done|]. change (Forall is_byte (replicate 16 0)). by apply Forall_replicate.
    + destruct b4, type; zdiv.
    + intros ->. specialize (S4 eq_refl). destruct type; zdiv.
  - intros -> h. unfold pl_size, zlen; cbn; rewrite length_replicate, Z2Nat.id by lia. specialize (S4 eq_refl). destruct type; zdiv.
Qed.

(** ** The clients of a server

    An instance starts without a handle; [multi_select_virtual_addr] is called for it when
    its control channel is up and again after every source of options for the client, and
    [multi_close_instance] releases what it holds. *)

Definition fresh_select : select_state := mkss (-1) false 0 0 0 None.
Record pool_server := mksrv { sv_pool : ifconfig_pool; sv_clients : gmap Z select_state }.
Inductive pool_event :=
  | PSelect (now id : Z) (o : select_options) (cn : option string)
  | PClose (now id : Z).

Definition server_step (s : pool_server) (e : pool_event) : option pool_server :=
  match e with
  | PSelect now id o cn =>
      '(p, st) ← multi_select_virtual_addr now (Some (sv_pool s)) o cn (default fresh_select (sv_clients s !! id));
      p ← p;
      Some (mksrv p (<[id := st]> (sv_clients s)))
  | PClose now id =>
      Some match sv_clients s !! id with
        | Some st => mksrv (ifconfig_pool_release now (sv_pool s) (vaddr_handle st) false).2 (delete id (sv_clients s))
        | None => s
        end
  end.
Fixpoint server_run (s : pool_server) (evs : list pool_event) : option pool_server :=
  match evs with [] => Some s | e :: evs => s ← server_step s e; server_run s evs end.

(** What the options of an instance say about the pool is what the pool was made from. *)
Definition event_ok (pool : ifconfig_pool) (e : pool_event) : Prop :=
  match e with
  | PSelect _ _ o _ => o_pool_defined o = ipv4_enabled pool /\ o_ipv6_pool_defined o = ipv6_enabled pool
  | PClose _ _ => True
  end.
Definition never_static6 (evs : list pool_event) (id : Z) : Prop :=
  Forall (fun e => match e with PSelect _ i o _ => i = id -> o_push6 o = None | PClose _ _ => True end) evs.

Lemma pool_shape_trans p q r : same_shape p q -> same_shape q r -> same_shape p r.
Proof. unfold same_shape. intros (?&?&?&?&?&?&?) (?&?&?&?&?&?&?). repeat split; congruence. Qed.
Lemma same_shape_sym p q : same_shape p q -> same_shape q p.
Proof. intros (? & ? & ? & ? & ? & ? & ?). by repeat split. Qed.
Lemma same_shape_list p f : length f = length (pl_list p) -> same_shape p (p <| pl_list := f |>).
Proof. intros H. unfold same_shape, pl_size, zlen. cbn. by rewrite H. Qed.

Lemma release_shape now p h hard : same_shape p (ifconfig_pool_release now p h hard).2.
Proof. unfold ifconfig_pool_release. destruct (_ && _); [|done]. apply same_shape_list, length_alter. Qed.

(** A release changes the entry of its handle only. *)
Lemma release_other now p h hard k e : 0 <= h -> Z.to_nat h <> k -> pl_list p !! k = Some e -> pl_list (ifconfig_pool_release now p h hard).2 !! k = Some e.
Proof. intros Hh Hk He. unfold ifconfig_pool_release. destruct (_ && _); [|done]. cbn. by rewrite list_lookup_alter_ne. Qed.
Lemma release_none now p h hard : h < 0 -> (ifconfig_pool_release now p h hard).2 = p.
Proof. intros. unfold ifconfig_pool_release. destruct (Z.leb_spec 0 h); [lia|done]. Qed.

#[local] Opaque add_in6_addr ifconfig_pool_release.

Lemma acquire_spec pool cn : pool_wf pool ->
  ifconfig_pool_acquire pool cn = Some (-1, None, None, pool) /\ pool_exhausted pool cn \/
  exists k e, pl_list pool !! k = Some e /\ in_use e = false /\ pool_choice pool cn k /\ Z.of_nat k < pl_size pool /\
    ifconfig_pool_acquire pool cn = Some (Z.of_nat k, if ipv4_enabled pool then Some (pool_v4 pool (Z.of_nat k)) else None,
      if ipv6_enabled pool then Some (pool_v6 pool (Z.of_nat k)) else None,
      pool <| pl_list := <[k := mkipe true cn 0 (fixed e)]> (pl_list pool) |>).
Proof.
  intros Hwf. unfold ifconfig_pool_acquire. destruct (find_spec pool cn) as [[-> Hx]|(k & -> & Hk)]; [by left|right].
  destruct (choice_free pool cn k Hk) as (e & He & Hu). exists k, e.
  assert (Z.of_nat k < pl_size pool) as Hlt by (unfold pl_size, zlen; apply lookup_lt_Some in He; lia).
  split; [done|]. split; [done|]. split; [done|]. split; [done|].
  destruct (Z.leb_spec 0 (Z.of_nat k)); [|lia]. rewrite Nat2Z.id, He. cbn [mbind option_bind]. rewrite option_guard_True by done. cbv zeta.
  destruct (wf_size _ Hwf) as [_ Hs].
  match goal with |- Some (_, ?v4, _, _) = _ => assert (v4 = if ipv4_enabled pool then Some (pool_v4 pool (Z.of_nat k)) else None) as -> end.
  - destruct (ipv4_enabled pool) eqn:E4; [|done]. pose proof (wf_top4 _ Hwf E4) as Ht. pose proof (wf_base4 _ Hwf). unfold pool_v4.
    destruct (ipv4_type pool); rewrite ?Z.shiftl_mul_pow2 by lia; unfold u32, wrap; change (2 ^ 2) with 4; change (2 ^ 32) with 4294967296 in *.
    + destruct Ht as [Hm Ht]. rewrite (Z.mod_small (ipv4_base pool + Z.of_nat k * 4)), !Z.mod_small by lia. f_equal. f_equal; lia.
    + rewrite !Z.mod_small by lia. done.
  - unfold pool_v6, ifconfig_pool_entry_free. destruct cn; reflexivity.
Qed.

(** The three ways a selection can go for the handle. *)
Lemma select_spec now p o cn st : pool_wf p -> o_pool_defined o = ipv4_enabled p -> o_ipv6_pool_defined o = ipv6_enabled p ->
  let cn' := if o_duplicate_cn o then None else cn in
  exists p' st', multi_select_virtual_addr now (Some p) o cn st = Some (Some p', st') /\
  ( vaddr_handle st' < 0 /\ p' = (ifconfig_pool_release now p (vaddr_handle st) true).2 /\ (o_push o = None -> vaddr_handle st < 0 /\ pool_exhausted p cn')
  \/ 0 <= vaddr_handle st /\ p' = p /\ vaddr_handle st' = vaddr_handle st /\ push_local st' = push_local st /\ (o_push6 o = None -> push6 st' = push6 st)
  \/ vaddr_handle st < 0 /\ exists k e, pl_list p !! k = Some e /\ in_use e = false /\ pool_choice p cn' k /\ Z.of_nat k < pl_size p /\
      p' = p <| pl_list := <[k := mkipe true cn' 0 (fixed e)]> (pl_list p) |> /\ vaddr_handle st' = Z.of_nat k /\
      (ipv4_enabled p = true -> push_local st' = (pool_v4 p (Z.of_nat k)).2) /\
      (ipv6_enabled p = true -> o_push6 o = None -> exists p6, push6 st' = Some p6 /\ p6_local p6 = pool_v6 p (Z.of_nat k)) ).
Proof.
  intros Hwf H4 H6. cbv zeta. unfold multi_select_virtual_addr. destruct (o_push o) as [[[l nm] al]|].
  - destruct (Z.leb_spec 0 (vaddr_handle st)); cbn; eexists _, _; (split; [done|]); left; destruct (o_push6 o); cbn; rewrite ?release_none by lia; repeat split; try lia; done.
  - destruct (Z.ltb_spec (vaddr_handle st) 0) as [Hneg|Hpos]; cycle 1.
    { cbn. eexists _, _. split; [done|]. right; left. destruct (o_push6 o); cbn; by repeat split. }
    destruct (acquire_spec p (if o_duplicate_cn o then None else cn) Hwf) as [[-> Hx]|(k & e & Hk & Hu & Hc & Hlt & ->)]; cbn.
    + eexists _, _. split; [done|]. left. rewrite release_none by done. destruct (o_push6 o); cbn; by repeat split.
    + destruct (Z.leb_spec 0 (Z.of_nat k)); [|lia]. rewrite H4, H6. destruct (ipv4_enabled p), (ipv6_enabled p), (pool_v4 p (Z.of_nat k)) as [loc rem] eqn:E4, (o_push6 o); cbn;
        repeat match goal with |- context [if ?b =? 0 then _ else _] => destruct (b =? 0) end; cbn;
        (eexists _, _; split; [done|]; right; right; split; [done|]; exists k, e; cbn; rewrite E4; repeat split; try done; intros; try done; by eexists).
Qed.

(** What the server knows about a client with a handle; [free6] says whether no source of
    options gave the client an IPv6 address. *)
Definition holds (pool : ifconfig_pool) (free6 : Prop) (st : select_state) : Prop :=
  vaddr_handle st < pl_size pool /\ (exists e, pl_list pool !! Z.to_nat (vaddr_handle st) = Some e /\ in_use e = true) /\
  (ipv4_enabled pool = true -> push_local st = (pool_v4 pool (vaddr_handle st)).2) /\
  (ipv6_enabled pool = true -> free6 -> exists p6, push6 st = Some p6 /\ p6_local p6 = pool_v6 pool (vaddr_handle st)).

Record server_inv (pool0 : ifconfig_pool) (free6 : Z -> Prop) (s : pool_server) : Prop := {
  inv_shape : same_shape pool0 (sv_pool s);
  inv_holds : forall id st, sv_clients s !! id = Some st -> 0 <= vaddr_handle st -> holds (sv_pool s) (free6 id) st;
  inv_apart : forall id id' st st', sv_clients s !! id = Some st -> sv_clients s !! id' = Some st' ->
    0 <= vaddr_handle st -> vaddr_handle st = vaddr_handle st' -> id = id' }.

(** Who keeps an entry keeps what it has. *)
Lemma holds_other p q free6 st : same_shape p q ->
  (forall e, pl_list p !! Z.to_nat (vaddr_handle st) = Some e -> in_use e = true -> pl_list q !! Z.to_nat (vaddr_handle st) = Some e) ->
  holds p free6 st -> holds q free6 st.
Proof.
  intros (_ & E4 & Et & Eb & E6 & Eb6 & Es) Hq (Hlt & (e & He & Hu) & H4 & H6). unfold holds, pool_v4, pool_v6 in *.
  rewrite <- E4, <- Et, <- Eb, <- E6, <- Eb6, <- Es. split; [done|]. split; [by exists e; auto|]. by split.
Qed.

Section Server.
Context (pool0 : ifconfig_pool) (free6 : Z -> Prop) (Hwf0 : pool_wf pool0).

Lemma inv_wf s : server_inv pool0 free6 s -> pool_wf (sv_pool s).
Proof. intros [Hs _ _]. by eapply same_shape_wf. Qed.

(** The pool and the state of one client change, no other client loses its entry. *)
Lemma inv_update s p' id st : server_inv pool0 free6 s -> same_shape (sv_pool s) p' ->
  (forall id' st', id' <> id -> sv_clients s !! id' = Some st' -> 0 <= vaddr_handle st' -> vaddr_handle st' <> vaddr_handle st /\
    forall e, pl_list (sv_pool s) !! Z.to_nat (vaddr_handle st') = Some e -> in_use e = true -> pl_list p' !! Z.to_nat (vaddr_handle st') = Some e) ->
  (0 <= vaddr_handle st -> holds p' (free6 id) st) -> server_inv pool0 free6 (mksrv p' (<[id := st]> (sv_clients s))).
Proof.
  intros [Hs Hh Ha] Hshape Hother Hst. split; cbn.
  - by eapply pool_shape_trans.
  - intros id1 st1 H1 Hpos. destruct (decide (id1 = id)) as [->|Hne]; [rewrite lookup_insert_eq in H1; injection H1 as <-; by apply Hst|].
    rewrite lookup_insert_ne in H1 by done. destruct (Hother id1 st1 Hne H1 Hpos) as [_ Hk]. by eapply holds_other; [..|eapply Hh].
  - intros id1 id2 st1 st2 H1 H2 Hpos Heq. destruct (decide (id1 = id)) as [->|Hn1], (decide (id2 = id)) as [->|Hn2]; [done| | |].
    + rewrite lookup_insert_eq in H1; injection H1 as <-. rewrite lookup_insert_ne in H2 by done. destruct (Hother id2 st2 Hn2 H2 ltac:(lia)) as [? _]. lia.
    + rewrite lookup_insert_eq in H2; injection H2 as <-. rewrite lookup_insert_ne in H1 by done. destruct (Hother id1 st1 Hn1 H1 Hpos) as [? _]. lia.
    + rewrite lookup_insert_ne in H1, H2 by done. by eapply Ha.
Qed.

(** The state a client has before an event. *)
Lemma inv_client s id : server_inv pool0 free6 s -> let st := default fresh_select (sv_clients s !! id) in
  0 <= vaddr_handle st -> holds (sv_pool s) (free6 id) st /\
  forall id' st', id' <> id -> sv_clients s !! id' = Some st' -> 0 <= vaddr_handle st' -> vaddr_handle st' <> vaddr_handle st.
Proof.
  intros [_ Hh Ha]. destruct (sv_clients s !! id) as [st|] eqn:E; cbn; [|lia]. intros Hpos. split; [by apply Hh|].
  intros id' st' Hne H' _ Heq. apply Hne. by eapply eq_sym, Ha.
Qed.

Lemma server_step_inv s e : server_inv pool0 free6 s -> event_ok pool0 e ->
  (match e with PSelect _ i o _ => free6 i -> o_push6 o = None | PClose _ _ => True end) ->
  exists s', server_step s e = Some s' /\ server_inv pool0 free6 s'.
Proof.
  intros Hinv Hok Hfree. pose proof (inv_wf s Hinv) as Hwf. pose proof (inv_shape _ _ _ Hinv) as Hsh. destruct e as [now id o cn|now id]; cbn [server_step].
  - destruct Hok as [H4 H6]. pose proof Hsh as (_ & E4 & _ & _ & E6 & _ & _).
    pose proof (inv_client s id Hinv) as Hcl. set (st := default fresh_select (sv_clients s !! id)) in *. cbv zeta in Hcl.
    destruct (select_spec now (sv_pool s) o cn st Hwf) as (p' & st' & -> & Hcase); [congruence|congruence|]. cbn.
    eexists. split; [done|]. destruct Hcase as [(Hneg & -> & _)|[(Hpos & -> & Hv & Hl & Hp6)|(Hneg & k & e & Hk & Hu & _ & Hlt & -> & Hv & Hl & Hp6)]].
    + apply inv_update; [done|apply release_shape| |lia]. intros id' st1 Hne H1 Hpos. split; [lia|]. intros e He _.
      destruct (Z.leb_spec 0 (vaddr_handle st)); [|by rewrite release_none by lia].
      destruct (Hcl ltac:(done)) as [_ Hap]. specialize (Hap _ _ Hne H1 Hpos). apply release_other; [done|lia|done].
    + destruct (Hcl Hpos) as [(Hlt & He & Hh4 & Hh6) Hap]. apply inv_update; [done|done| |].
      * intros id' st1 Hne H1 Hpos1. rewrite Hv. split; [by eapply Hap|done].
      * intros _. unfold holds. rewrite Hv, Hl. split; [done|]. split; [done|]. split; [done|]. intros H6' Hf. rewrite Hp6 by auto. auto.
    + apply inv_update; [done|apply same_shape_list, length_insert| |].
      * intros id' st1 Hne H1 Hpos1. destruct (inv_holds _ _ _ Hinv _ _ H1 Hpos1) as (_ & (e1 & He1 & Hu1) & _). rewrite Hv.
        assert (k <> Z.to_nat (vaddr_handle st1)) by congruence. split; [lia|]. intros e2 He2 _. cbn. by rewrite list_lookup_insert_ne.
      * intros _. unfold holds. rewrite Hv. cbn. rewrite Nat2Z.id. unfold pl_size, zlen in *. cbn. rewrite length_insert. split; [done|]. split.
        { eexists. split; [apply list_lookup_insert_eq; lia|done]. }
        split; [done|]. intros H6' Hf. auto.
  - destruct (sv_clients s !! id) as [st|] eqn:E; [|by eexists]. eexists. split; [done|]. destruct Hinv as [_ Hh Ha]. split; cbn.
    + eapply pool_shape_trans; [done|apply release_shape].
    + intros id1 st1 [Hne H1]%lookup_delete_Some Hpos. eapply holds_other; [apply release_shape| |by apply Hh]. intros e He _.
      destruct (Z.leb_spec 0 (vaddr_handle st)); [|by rewrite release_none by lia]. apply release_other; [done| |done].
      intros Heq. apply Hne. eapply (Ha id id1 st st1); [done|done|done|lia].
    + intros id1 id2 st1 st2 [_ H1]%lookup_delete_Some [_ H2]%lookup_delete_Some. by apply Ha.
Qed.

Lemma server_run_inv evs : forall s, server_inv pool0 free6 s -> Forall (event_ok pool0) evs ->
  (forall id, free6 id -> never_static6 evs id) -> exists s', server_run s evs = Some s' /\ server_inv pool0 free6 s'.
Proof.
  induction evs as [|e evs IH]; intros s Hs Hok Hf; cbn [server_run]; [by exists s|].
  apply Forall_cons in Hok as [He Hok]. destruct (server_step_inv s e Hs He) as (s1 & -> & H1).
  { destruct e; [|done]. intros Hfree. pose proof (Hf _ Hfree) as [H _]%Forall_cons. by apply H. }
  cbn. apply IH; [done|done|]. intros id Hid. by pose proof (Hf _ Hid) as [_ ?]%Forall_cons.
Qed.
End Server.

Lemma read_line_shape now fix_ pool ln : same_shape pool (ifconfig_pool_read_line now fix_ pool ln).
Proof. unfold ifconfig_pool_read_line. destruct (0 <=? _); [|done]. apply same_shape_list, length_insert. Qed.

Lemma status_read_shorter file line rest : status_read file = Some (line, rest) -> (length rest < length file)%nat.
Proof.
  assert (forall f buf, (length (status_read_loop f buf).2 <= length f)%nat) as H.
  { induction f as [|c f IH]; intros buf; cbn [status_read_loop]; [done|]. destruct (c =? 13); [etrans; [apply IH|cbn; lia]|]. destruct (c =? 10); [cbn; lia|]. etrans; [apply IH|cbn; lia]. }
  unfold status_read. destruct file as [|c file]; [done|]. cbn [status_read_loop]. intros E. assert (length rest <= length file)%nat; [|cbn; lia].
  destruct (c =? 13); [|destruct (c =? 10); [by injection E as _ ->|]].
  - specialize (H file []). destruct (status_read_loop file []). by injection E as _ ->.
  - specialize (H file (if zlen (@nil Z) <? 256 then [] ++ [c] else [])). destruct (status_read_loop _ _). by injection E as _ ->.
Qed.

(** Reading ends, whatever is in the file, and changes entries only. *)
Lemma read_shape getaddr get6 now fix_ file p : exists p', ifconfig_pool_read getaddr get6 now fix_ p file = Some p' /\ same_shape p p'.
Proof.
  unfold ifconfig_pool_read. assert (forall fuel f p, (length f < fuel)%nat -> exists p', read_loop getaddr get6 fuel now fix_ f p = Some p' /\ same_shape p p') as H; [|apply H; lia].
  induction fuel as [|fuel IH]; intros f q Hf; [lia|]. cbn [read_loop]. destruct (status_read f) as [[line rest]|] eqn:E; [|by exists q].
  pose proof (status_read_shorter _ _ _ E). destruct (parse_pool_line getaddr get6 line) as [ln|]; [|apply IH; lia].
  destruct (IH rest (ifconfig_pool_read_line now fix_ q ln) ltac:(lia)) as (p' & -> & Hs). exists p'. split; [done|]. eapply pool_shape_trans; [apply read_line_shape|done].
Qed.

(** An address of the configured range. *)
Definition addr_in_range (type : pool_type) (start end_ a : Z) : Prop :=
  match type with IFCONFIG_POOL_30NET => start / 4 <= a / 4 <= end_ / 4 /\ a mod 4 = 2 | IFCONFIG_POOL_INDIV => start <= a <= end_ end.

Lemma pool_v4_range pool start end_ h : pool_wf pool -> ipv4_enabled pool = true -> pool_in_range start end_ pool -> 0 <= h < pl_size pool ->
  addr_in_range (ipv4_type pool) start end_ (pool_v4 pool h).2.
Proof.
  intros Hwf E4 Hr Hh. specialize (Hr h Hh). pose proof (wf_top4 _ Hwf E4) as Ht. unfold addr_in_range, pool_v4. destruct (ipv4_type pool); cbn; [|done].
  destruct Ht as [Hm _]. clear Hwf. zdiv.
Qed.
Lemma pool_v4_inj pool a b : (pool_v4 pool a).2 = (pool_v4 pool b).2 -> a = b.
Proof. unfold pool_v4. destruct (ipv4_type pool); cbn; lia. Qed.

Lemma same_shape_range start end_ p q : same_shape p q -> pool_in_range start end_ p -> pool_in_range start end_ q.
Proof. intros (_ & _ & Et & Eb & _ & _ & Es) H h. rewrite <- Et, <- Eb, <- Es. apply H. Qed.

(** Two clients with handles have different addresses. *)
Lemma inv_clients_apart start end_ pool0 free6 s id id' st st' : pool_wf pool0 -> server_inv pool0 free6 s ->
  (ipv4_enabled pool0 = true -> pool_in_range start end_ pool0) ->
  id <> id' -> sv_clients s !! id = Some st -> sv_clients s !! id' = Some st' -> 0 <= vaddr_handle st -> 0 <= vaddr_handle st' ->
  vaddr_handle st <> vaddr_handle st' /\
  (ipv4_enabled pool0 = true -> push_local st <> push_local st' /\ addr_in_range (ipv4_type pool0) start end_ (push_local st)) /\
  (ipv6_enabled pool0 = true -> free6 id -> free6 id' -> exists p6 p6', push6 st = Some p6 /\ push6 st' = Some p6' /\ p6_local p6 <> p6_local p6').
Proof.
  intros Hwf0 [Hsh Hh Ha] Hr Hne H1 H2 Hp1 Hp2. pose proof (same_shape_wf _ _ Hsh Hwf0) as Hwf. destruct (Hh _ _ H1 Hp1) as (Hl1 & _ & H41 & H61), (Hh _ _ H2 Hp2) as (Hl2 & _ & H42 & H62).
  assert (vaddr_handle st <> vaddr_handle st') as Hd by (intros Heq; by apply Hne, (Ha id id' st st')).
  split; [done|]. pose proof Hsh as (_ & E4 & Et & _ & E6 & _). rewrite E4, Et, E6. split.
  - intros E. rewrite H41, H42 by done. split; [by intros ?%pool_v4_inj|]. apply pool_v4_range; [done|done| |lia]. eapply same_shape_range, Hr; [done|congruence].
  - intros E F1 F2. destruct (H61 E F1) as (p1 & -> & P1), (H62 E F2) as (p2 & -> & P2). exists p1, p2. split; [done|]. split; [done|].
    rewrite P1, P2. destruct (wf_size _ Hwf) as [_ Hs]. unfold pool_v6. intros Heq. apply Hd. apply (add_in6_addr_inj (ipv6_base (sv_pool s))); [apply (wf_base6 _ Hwf)|unfold is_u; lia|unfold is_u; lia|done].
Qed.

(** C26. A server never runs into an error when its clients come, get their addresses and
    leave, in any order, with any options, and with any database file read before: two
    clients that have handles of the pool have different ones and different IPv4 addresses,
    which lie in the configured range (in a pool of /30 networks: in the networks of the ends
    of the range and those between them, so that an end that is not aligned can be passed,
    [net30_range_widened]); and two clients that were never given an IPv6 address by the
    options have different IPv6 addresses ([static_ipv4_shares_ipv6] for the others).
    A client without a static address that asks next gets none exactly when the pool is
    exhausted, and otherwise the entry that [pool_choice] says: with duplicate names the first
    one free, else the one it had before, else the one that was released longest ago. *)
Theorem pool_no_shared_address b4 type start end_ dup b6 base6 netbits pool getaddr get_ipv6_addr now fix_ file evs :
  is_u 32 start -> is_u 32 end_ -> is_addr6 base6 -> netbits <= 128 ->
  ifconfig_pool_init b4 type start end_ dup b6 base6 netbits = Some pool -> Forall (event_ok pool) evs ->
  exists pool1 s, ifconfig_pool_read getaddr get_ipv6_addr now fix_ pool file = Some pool1 /\ server_run (mksrv pool1 empty) evs = Some s /\
  (forall id id' st st', id <> id' -> sv_clients s !! id = Some st -> sv_clients s !! id' = Some st' -> 0 <= vaddr_handle st -> 0 <= vaddr_handle st' ->
    vaddr_handle st <> vaddr_handle st' /\
    (b4 = true -> push_local st <> push_local st' /\ addr_in_range type start end_ (push_local st)) /\
    (b6 = true -> never_static6 evs id -> never_static6 evs id' -> exists p6 p6', push6 st = Some p6 /\ push6 st' = Some p6' /\ p6_local p6 <> p6_local p6')) /\
  (forall now' id o cn, sv_clients s !! id = None -> event_ok pool (PSelect now' id o cn) -> o_push o = None ->
    let cn' := if o_duplicate_cn o then None else cn in
    exists s' st', server_step s (PSelect now' id o cn) = Some s' /\ sv_clients s' !! id = Some st' /\
      (vaddr_handle st' < 0 /\ pool_exhausted (sv_pool s) cn' \/ exists k, vaddr_handle st' = Z.of_nat k /\ pool_choice (sv_pool s) cn' k)).
Proof.
  intros Hs He H6 Hn Hinit Hok. destruct (init_wf _ _ _ _ _ _ _ _ _ Hs He H6 Hn Hinit) as (Hwf & Hr & _ & E4 & E6 & Ht & _).
  destruct (read_shape getaddr get_ipv6_addr now fix_ file pool) as (pool1 & Hread & Hshape).
  destruct (server_run_inv pool (never_static6 evs) Hwf evs (mksrv pool1 empty)) as (s & Hrun & Hinv); [|done|done|].
  { split; cbn; [done|by intros ? ? H%lookup_empty_Some|by intros ? ? ? ? H%lookup_empty_Some]. }
  exists pool1, s. split; [done|]. split; [done|]. split.
  - intros id id' st st' Hne H1 H2 Hp1 Hp2. rewrite <- E4, <- E6 in *. destruct (inv_clients_apart start end_ _ _ _ _ _ _ _ Hwf Hinv Hr Hne H1 H2 Hp1 Hp2) as (? & Hv4 & ?).
    split; [done|]. split; [|done]. intros E. rewrite <- (Ht E). by apply Hv4.
  - intros now' id o cn Hnone [O4 O6] Hpush. cbv zeta. pose proof (inv_shape _ _ _ Hinv) as (_ & S4 & _ & _ & S6 & _). cbn [server_step]. rewrite Hnone. cbn [default from_option].
    destruct (select_spec now' (sv_pool s) o cn fresh_select (inv_wf _ _ Hwf s Hinv)) as (p' & st' & -> & Hcase); [congruence|congruence|].
    cbn [mbind option_bind]. eexists _, st'. split; [done|]. split; [apply lookup_insert_eq|].
    destruct Hcase as [(Hneg & _ & Hx)|[(Hpos & _)|(_ & k & e & _ & _ & Hk & _ & _ & Hv & _)]]; [left; split; [done|by apply Hx]|by cbn in Hpos|right; by exists k].
Qed.

Definition toy_base6 : list Z := [32; 1; 13; 184; 0; 0; 0; 0; 0; 0; 0; 0; 0; 0; 0; 0].
Definition toy_pool : ifconfig_pool := mkpool false true IFCONFIG_POOL_INDIV 168296450 true (zput toy_base6 15 1) (replicate 11 (mkipe false None 0 false)).
Definition toy_select (push : option (Z * Z * Z)) : select_options :=
  mkso push None false true (2 ^ 32 - 256) true 64 DEV_TYPE_TUN TOP_SUBNET 168296449 (2 ^ 32 - 256) toy_base6.
Definition toy_run : list pool_event :=
  [PSelect 100 1 (toy_select None) (Some "alice"%string); PSelect 101 2 (toy_select None) (Some "bob"%string); PClose 102 1;
   PSelect 103 3 (toy_select None) (Some "carol"%string); PSelect 104 4 (toy_select None) (Some "alice"%string)].

(** The entry released last goes to its former owner. *)
Example toy_run_handles :
  (pool ← ifconfig_pool_init true IFCONFIG_POOL_INDIV 168296450 168296460 false true toy_base6 64;
   s ← server_run (mksrv pool empty) toy_run;
   Some (map (fun i => vaddr_handle <$> sv_clients s !! i) [1; 2; 3; 4])) = Some [None; Some 1; Some 2; Some 0].
Proof. vm_compute. reflexivity. Qed.

(** A resolver for texts of addresses; its IPv6 texts have two letters for every byte. *)
Definition toy_field (v : Z * Z) (c : Z) : Z * Z := if c =? 46 then (v.1 * 256 + v.2, 0) else (v.1, v.2 * 10 + (c - 48)).
Definition toy_getaddr (s : list Z) : option Z := let v := fold_left toy_field s (0, 0) in Some (v.1 * 256 + v.2).
Definition toy_ntop6 (a : list Z) : list Z := concat (map (fun b => [97 + b / 16; 97 + b mod 16]) a).
Fixpoint toy_pairs (s : list Z) : list Z := match s with x :: y :: s => (x - 97) * 16 + (y - 97) :: toy_pairs s | _ => [] end.
Definition toy_pton6 (s : list Z) : option (list Z) := Some (toy_pairs s).

Lemma pool_no_shared_address_witness :
  ifconfig_pool_init true IFCONFIG_POOL_INDIV 168296450 168296460 false true toy_base6 64 = Some toy_pool /\ exists pool1 s,
  ifconfig_pool_read toy_getaddr toy_pton6 50 false toy_pool (lit "dave,10.8.0.7" ++ [10]) = Some pool1 /\
  server_run (mksrv pool1 empty) toy_run = Some s /\
  forall id id' st st', id <> id' -> sv_clients s !! id = Some st -> sv_clients s !! id' = Some st' -> 0 <= vaddr_handle st -> 0 <= vaddr_handle st' ->
    push_local st <> push_local st' /\ 168296450 <= push_local st <= 168296460.
Proof.
  split; [vm_compute; reflexivity|].
  destruct (pool_no_shared_address true IFCONFIG_POOL_INDIV 168296450 168296460 false true toy_base6 64 toy_pool toy_getaddr toy_pton6 50 false (lit "dave,10.8.0.7" ++ [10]) toy_run) as (pool1 & s & Hread & Hrun & H & _);
    [split; vm_compute; done|split; vm_compute; done|split; [done|by apply (bool_decide_eq_true_1 (Forall is_byte toy_base6))]|vm_compute; done|vm_compute; reflexivity|by repeat constructor|].
  exists pool1, s. split; [exact Hread|]. split; [exact Hrun|]. intros id id' st st' Hne H1 H2 P1 P2. by destruct (H id id' st st' Hne H1 H2 P1 P2) as (_ & Hv4 & _); apply Hv4.
Defined.

(** The range 10.8.0.7 to 10.8.0.12 in /30 networks: the clients get 10.8.0.6, 10.8.0.10 and
    10.8.0.14, of which the first and the last are not in it. *)
Example net30_range_widened :
  (pool ← ifconfig_pool_init true IFCONFIG_POOL_30NET 168296455 168296460 false false (replicate 16 0) 0;
   Some (map (fun h => (pool_v4 pool h).2 - 168296448) (seqZ 0 (pl_size pool)))) = Some [6; 10; 14].
Proof. vm_compute. reflexivity. Qed.

(** ** A static IPv4 address leaves the address of the released handle *)

Definition toy_static : list pool_event :=
  [PSelect 100 1 (toy_select None) (Some "alice"%string); PSelect 100 1 (toy_select (Some (168300000, 2 ^ 32 - 256, 0))) (Some "alice"%string);
   PSelect 101 2 (toy_select None) (Some "bob"%string)].

(** When the options of a client (a file of [--client-config-dir], a script) bring an IPv4
    address after the first choice, the handle is released, but the IPv6 address that came
    with it will still be pushed; the next client gets the same. *)
Example static_ipv4_shares_ipv6 :
  (pool ← ifconfig_pool_init true IFCONFIG_POOL_INDIV 168296450 168296460 false true toy_base6 64;
   s ← server_run (mksrv pool empty) toy_static;
   a ← sv_clients s !! 1; b ← sv_clients s !! 2;
   Some (vaddr_handle a, vaddr_handle b, bool_decide ((p6_local <$> push6 a) = (p6_local <$> push6 b)), bool_decide (push6 a = None))) = Some (-1, 0, true, false).
Proof. vm_compute. reflexivity. Qed.

(** ** The database brings every client back to its addresses *)

Definition clean_entry : ifconfig_pool_entry := mkipe false None 0 false.
(** What is left of an entry after a restart. *)
Definition restored (now : Z) (fix_ : bool) (e : ifconfig_pool_entry) : ifconfig_pool_entry :=
  match common_name e with Some c => mkipe false (Some c) now fix_ | None => clean_entry end.

(** The handle can be computed back from the address that is written. *)
Definition handle_readable (pool : ifconfig_pool) : Prop :=
  ipv4_enabled pool = true \/ ipv6_enabled pool = true /\ in6_low (ipv6_base pool) + pl_size pool <= 2 ^ 32.

Lemma u32_small z : 0 <= z < 65536 -> u32 z = z.
Proof. intros H. apply wrap_small. unfold is_u. lia. Qed.

Lemma ip_handle_roundtrip pool h : pool_wf pool -> ipv4_enabled pool = true -> 0 <= h < pl_size pool ->
  ifconfig_pool_ip_base_to_handle pool (ifconfig_pool_handle_to_ip_base pool h) = h.
Proof.
  intros Hwf E4 Hh. unfold ifconfig_pool_ip_base_to_handle, ifconfig_pool_handle_to_ip_base. rewrite E4.
  destruct (Z.leb_spec 0 h); [|lia]. destruct (Z.ltb_spec h (pl_size pool)); [|lia]. cbn [andb]. destruct (wf_size _ Hwf) as [_ Hs].
  pose proof (wf_top4 _ Hwf E4) as Ht. pose proof (wf_base4 _ Hwf) as Hb.
  assert (match ipv4_type pool with
    | IFCONFIG_POOL_30NET => i32 (Z.shiftr (u32 (u32 (ipv4_base pool + Z.shiftl h 2) - ipv4_base pool)) 2)
    | IFCONFIG_POOL_INDIV => i32 (u32 (u32 (ipv4_base pool + h) - ipv4_base pool)) end = h) as E.
  { destruct (ipv4_type pool).
    - destruct Ht as [_ Ht]. rewrite Z.shiftl_mul_pow2, Z.shiftr_div_pow2 by lia. change (2 ^ 2) with 4. unfold u32, wrap. change (2 ^ 32) with 4294967296 in *.
      rewrite (Z.mod_small (ipv4_base pool + h * 4)), Z.mod_small by lia. replace (ipv4_base pool + h * 4 - ipv4_base pool) with (h * 4) by lia. rewrite Z.div_mul by lia. by apply i32_small; lia.
    - unfold u32, wrap. change (2 ^ 32) with 4294967296 in *. rewrite (Z.mod_small (ipv4_base pool + h)), Z.mod_small by lia. rewrite i32_small; lia. }
  destruct (ipv4_type pool); rewrite E; destruct (Z.ltb_spec h 0), (Z.leb_spec (pl_size pool) h); cbn; lia.
Qed.

(** Without a carry into the first twelve bytes only the last four change. *)
Lemma add_in6_low base h : is_addr6 base -> 0 <= h -> in6_low base + h < 2 ^ 32 ->
  mem_read (add_in6_addr base h) 0 12 = mem_read base 0 12 /\ in6_low (add_in6_addr base h) = in6_low base + h.
Proof.
  intros Hb Hh Hlow. assert (forall a, is_addr6 a -> be_val a = be_val (mem_read a 0 12) * 2 ^ 32 + in6_low a /\ is_u 32 (in6_low a) /\ length (mem_read a 0 12) = 12%nat /\ Forall is_byte (mem_read a 0 12)) as Hsplit.
  { intros a [Hl Ha]. assert (length (mem_read a 12 4) = 4%nat) as H4 by (unfold mem_read; rewrite length_take, length_drop; cbn; lia). split.
    - rewrite <- (mem_read_all a) at 1. unfold zlen. rewrite Hl. change (Z.of_nat 16) with (12 + 4). rewrite mem_read_app by (unfold zlen; lia). rewrite be_val_app. change (0 + 12) with 12. unfold zlen. by rewrite H4.
    - split; [by apply be_val_range4; [apply mem_read_Forall|]|]. split; [unfold mem_read; rewrite length_take, length_drop; cbn; lia|by apply mem_read_Forall]. }
  assert (0 <= in6_low base) as Hnn by (destruct (Hsplit base Hb) as (_ & [? _] & _); done).
  destruct (add_in6_addr_spec base h Hb) as [Hr Hv]; [unfold is_u; lia|]. destruct (Hsplit _ Hb) as (Vb & Lb & Nb & Bb), (Hsplit _ Hr) as (Vr & Lr & Nr & Br).
  assert (be_val base + h < 2 ^ 128) as Hover.
  { pose proof (be_val_lt _ Bb) as Hhi. unfold zlen in Hhi. rewrite Nb in Hhi. change (256 ^ Z.of_nat 12) with (2 ^ 96) in Hhi.
    change (2 ^ 128) with (2 ^ 96 * 2 ^ 32). nia. }
  assert (0 <= be_val base) by (apply be_val_nonneg, Hb). rewrite Z.mod_small in Hv by lia. rewrite Vb, Vr in Hv. unfold is_u in *.
  change (2 ^ 32) with 4294967296 in *. split; [|lia]. apply be_val_inj; [congruence|done|done|lia].
Qed.

Lemma ipv6_handle_roundtrip pool h : pool_wf pool -> ipv6_enabled pool = true -> in6_low (ipv6_base pool) + pl_size pool <= 2 ^ 32 -> 0 <= h < pl_size pool ->
  ifconfig_pool_ipv6_base_to_handle pool (ifconfig_pool_handle_to_ipv6_base pool h) = h.
Proof.
  intros Hwf E6 Hlow Hh. unfold ifconfig_pool_ipv6_base_to_handle, ifconfig_pool_handle_to_ipv6_base. rewrite E6.
  destruct (Z.leb_spec 0 h); [|lia]. destruct (Z.ltb_spec h (pl_size pool)); [|lia]. cbn [andb].
  destruct (add_in6_low (ipv6_base pool) h (wf_base6 _ Hwf)) as [-> ->]; [lia|lia|]. unfold bytes_eqb. rewrite bool_decide_true by done. cbn [negb].
  destruct (wf_size _ Hwf) as [_ Hs]. replace (in6_low (ipv6_base pool) + h - in6_low (ipv6_base pool)) with h by lia. rewrite u32_small, i32_small by lia.
  destruct (Z.ltb_spec h 0), (Z.leb_spec (pl_size pool) h); cbn; lia.
Qed.

(** The line for the entry [i] with the name [c], as it is read. *)
Definition written (pool : ifconfig_pool) (i : nat) (c : string) : pool_line :=
  mkline c (if ipv4_enabled pool then Some (Some (ifconfig_pool_handle_to_ip_base pool (Z.of_nat i))) else None)
           (if ipv6_enabled pool then Some (Some (ifconfig_pool_handle_to_ipv6_base pool (Z.of_nat i))) else None).
(** The names of a list of entries, with their places. *)
Fixpoint names_from (i : nat) (l : list ifconfig_pool_entry) : list (nat * string) :=
  match l with
  | [] => []
  | e :: l => match common_name e with Some c => (i, c) :: names_from (S i) l | None => names_from (S i) l end
  end.

(** A name that survives the file. *)
Definition name_readable (c : string) : Prop :=
  Forall (fun x => x <> 0 /\ x <> 44 /\ x <> 10 /\ x <> 13) (lit c) /\ zlen (lit c) < 128 /\ zget 0 (lit c) 0 <> 35 /\ zget 0 (lit c) 0 <> 59.
#[export] Instance name_readable_dec c : Decision (name_readable c).
Proof. unfold name_readable. apply _. Defined.

(** The functions that print and parse addresses are inverse to each other. *)
Record addr_text_ok (print6 : list Z -> list Z) (getaddr : list Z -> option Z) (get6 : list Z -> option (list Z)) : Prop := {
  at_v4 : forall a, is_u 32 a -> getaddr (print_in_addr_t a) = Some a;
  at_v6 : forall a, is_addr6 a -> get6 (print6 a) = Some a;
  at_chars : forall a, is_addr6 a -> Forall (fun c => 46 <= c < 128) (print6 a);
  at_len : forall a, is_addr6 a -> 0 < zlen (print6 a) < 46 }.

Section Text.
Context (print6 : list Z -> list Z) (getaddr : list Z -> option Z) (get6 : list Z -> option (list Z)) (Ht : addr_text_ok print6 getaddr get6).
Context (pool : ifconfig_pool) (Hwf : pool_wf pool).

Lemma ip_base_u32 h : is_u 32 (ifconfig_pool_handle_to_ip_base pool h).
Proof. unfold ifconfig_pool_handle_to_ip_base. destruct (_ && _); [destruct (ipv4_type pool); apply wrap_range; lia|unfold is_u; lia]. Qed.
Lemma ipv6_base_addr h : is_addr6 (ifconfig_pool_handle_to_ipv6_base pool h).
Proof.
  unfold ifconfig_pool_handle_to_ipv6_base. destruct (ipv6_enabled pool && (0 <=? h) && (h <? pl_size pool)) eqn:E; [|split; [done|by apply Forall_replicate]].
  apply andb_true_iff in E as [[_ E1%Z.leb_le]%andb_true_iff E2%Z.ltb_lt]. apply add_in6_addr_spec; [apply (wf_base6 _ Hwf)|]. pose proof (wf_size _ Hwf). unfold is_u. lia.
Qed.

Definition ip_text (i : nat) : list Z := if ipv4_enabled pool then print_in_addr_t (ifconfig_pool_handle_to_ip_base pool (Z.of_nat i)) else [].
Definition ip6_text (i : nat) : list Z := if ipv6_enabled pool then print6 (ifconfig_pool_handle_to_ipv6_base pool (Z.of_nat i)) else [].

Lemma ip_text_ok i : Forall (fun c => 46 <= c < 128) (ip_text i) /\ zlen (ip_text i) <= 15 /\
  (if 0 <? zlen (ip_text i) then Some (getaddr (ip_text i)) else None) = ln_ip (written pool i EmptyString).
Proof.
  unfold ip_text, written. cbn [ln_ip]. destruct (ipv4_enabled pool); [|done]. destruct (print_in_addr_t_chars (ifconfig_pool_handle_to_ip_base pool (Z.of_nat i))) as [H1 H2].
  split; [eapply Forall_impl; [exact H1|cbn; lia]|]. split; [lia|]. destruct (Z.ltb_spec 0 (zlen (print_in_addr_t (ifconfig_pool_handle_to_ip_base pool (Z.of_nat i))))); [|lia]. by rewrite (at_v4 _ _ _ Ht) by apply ip_base_u32.
Qed.
Lemma ip6_text_ok i : Forall (fun c => 46 <= c < 128) (ip6_text i) /\ zlen (ip6_text i) < 46 /\
  (if 0 <? zlen (ip6_text i) then Some (get6 (ip6_text i)) else None) = ln_ip6 (written pool i EmptyString).
Proof.
  unfold ip6_text, written. cbn [ln_ip6]. destruct (ipv6_enabled pool); [|done]. pose proof (ipv6_base_addr (Z.of_nat i)) as Ha. pose proof (at_len _ _ _ Ht _ Ha).
  split; [by apply (at_chars _ _ _ Ht)|]. split; [lia|]. destruct (Z.ltb_spec 0 (zlen (print6 (ifconfig_pool_handle_to_ipv6_base pool (Z.of_nat i))))); [|lia]. by rewrite (at_v6 _ _ _ Ht).
Qed.

Lemma pool_text_ok i c : name_readable c ->
  Forall (fun x => x <> 0 /\ x <> 10 /\ x <> 13) (pool_text print6 pool i c) /\ zlen (pool_text print6 pool i c) < 256 /\
  parse_pool_line getaddr get6 (pool_text print6 pool i c ++ [0]) = Some (written pool i c).
Proof.
  intros (Hn & Hl & H35 & H59). destruct (ip_text_ok i) as (A1 & A2 & A3), (ip6_text_ok i) as (B1 & B2 & B3).
  assert (pool_text print6 pool i c = lit c ++ 44 :: ip_text i ++ 44 :: ip6_text i) as -> by done.
  assert (forall l, Forall (fun c => 46 <= c < 128) l -> Forall (fun c => c <> 0 /\ c <> 44) l /\ Forall (fun c => c <> 0 /\ c <> 10 /\ c <> 13) l) as Hch.
  { intros l H. split; (eapply Forall_impl; [exact H|cbn; lia]). }
  split; [|split].
  - apply Forall_app. split; [eapply Forall_impl; [exact Hn|cbn; tauto]|]. constructor; [lia|]. apply Forall_app. split; [by apply Hch|]. constructor; [lia|by apply Hch].
  - rewrite zlen_app, zlen_cons, zlen_app, zlen_cons. lia.
  - unfold parse_pool_line. set (line := (_ ++ [0])). assert (line = lit c ++ 44 :: ip_text i ++ 44 :: ip6_text i ++ 0 :: []) as E by (unfold line; by rewrite <- !app_assoc, <- !app_comm_cons, <- app_assoc).
    assert ((zget 0 line 0 =? 35) || (zget 0 line 0 =? 59) = false) as ->.
    { rewrite E. destruct (lit c) as [|x r]; [done|]. change (zget 0 ((x :: r) ++ 44 :: ip_text i ++ 44 :: ip6_text i ++ [0]) 0) with x. change (zget 0 (x :: r) 0) with x in *. lia. }
    rewrite E, buf_parse_line; [|eapply Forall_impl; [exact Hn|cbn; tauto]|lia|by right]. cbn [mbind option_bind].
    rewrite buf_parse_line; [|by apply Hch|lia|by right]. cbn [mbind option_bind]. rewrite buf_parse_line; [|by apply Hch|lia|by left].
    cbn [mbind option_bind]. rewrite A3, B3, str_lit. done.
Qed.

(** A clean line is read as it was written. *)
Lemma read_back t : forall buf rest, Forall (fun x => x <> 0 /\ x <> 10 /\ x <> 13) t -> zlen buf + zlen t <= 256 ->
  status_read_loop (t ++ 10 :: rest) buf = (buf ++ t, rest).
Proof.
  induction t as [|c t IH]; intros buf rest H Hl; [by rewrite app_nil_r|]. apply Forall_cons in H as [(H0 & H10 & H13) H]. rewrite zlen_cons in Hl. pose proof (zlen_nonneg t).
  cbn [app status_read_loop]. destruct (Z.eqb_spec c 13), (Z.eqb_spec c 10); try done. destruct (Z.ltb_spec (zlen buf) 256); [|lia].
  rewrite IH by (done || rewrite zlen_app, zlen_cons, zlen_nil; lia). by rewrite <- app_assoc.
Qed.
Lemma status_read_back t rest : Forall (fun x => x <> 0 /\ x <> 10 /\ x <> 13) t -> zlen t < 256 -> status_read (t ++ 10 :: rest) = Some (t ++ [0], rest).
Proof.
  intros H Hl. unfold status_read. destruct (t ++ 10 :: rest) eqn:E; [by destruct t|]. rewrite <- E, read_back by (done || (rewrite zlen_nil; lia)). cbn [app].
  unfold buf_null_terminate. rewrite bool_decide_eq_false_2; [by rewrite take_ge by (unfold zlen in Hl; lia)|].
  intros Hlast. apply last_Some in Hlast as [t' ->]. apply Forall_app in H as [_ H]. apply Forall_cons in H as [(? & _) _]. done.
Qed.

Lemma read_texts now fix_ l : forall fuel p, Forall (fun x => name_readable x.2) l ->
  let file := concat (map (fun x => pool_text print6 pool x.1 x.2 ++ [10]) l) in (length file < fuel)%nat ->
  read_loop getaddr get6 fuel now fix_ file p = Some (fold_left (ifconfig_pool_read_line now fix_) (map (fun x => written pool x.1 x.2) l) p).
Proof.
  induction l as [|[i c] l IH]; intros fuel p Hl file Hf; subst file; (destruct fuel as [|fuel]; [lia|]); [done|]. apply Forall_cons in Hl as [Hc Hl].
  cbn [map concat fst snd] in *. destruct (pool_text_ok i c Hc) as (H1 & H2 & H3). rewrite <- app_assoc. cbn [app read_loop]. rewrite status_read_back by done. rewrite H3. cbn [fold_left].
  apply IH; [done|]. rewrite !length_app in Hf. cbn in Hf. lia.
Qed.

Lemma status_printf_all l : forall text, Forall (fun t => zlen t < STATUS_PRINTF_MAXLEN) l ->
  fold_left status_printf l (false, text) = (false, text ++ concat (map (fun t => t ++ [10]) l)).
Proof.
  induction l as [|t l IH]; intros text H; [by rewrite app_nil_r|]. apply Forall_cons in H as [Ht' H]. cbn [fold_left status_printf map concat orb].
  destruct (Z.leb_spec STATUS_PRINTF_MAXLEN (zlen t)); [lia|]. rewrite IH by done. by rewrite <- !app_assoc.
Qed.

Lemma list_text : Forall (fun x => name_readable x.2) (names_from 0 (pl_list pool)) ->
  ifconfig_pool_list print6 pool = concat (map (fun x => pool_text print6 pool x.1 x.2 ++ [10]) (names_from 0 (pl_list pool))).
Proof.
  intros Hn. unfold ifconfig_pool_list. set (g := fun '(i, e) => _).
  assert (forall l i, omap g (imap (fun j => pair (i + j)%nat) l) = map (fun x => pool_text print6 pool x.1 x.2) (names_from i l)) as H.
  { induction l as [|e l IH]; intros i; [done|]. cbn [imap names_from]. cbn [omap list_omap]. unfold g at 1. rewrite Nat.add_0_r.
    assert (imap ((fun j => pair (i + j)%nat) ∘ S) l = imap (fun j => pair (S i + j)%nat) l) as -> by (apply imap_ext; intros j x _; cbn; by rewrite Nat.add_succ_r).
    destruct (common_name e) as [c|]; cbn [mbind option_bind map]; by rewrite IH. }
  change (imap pair (pl_list pool)) with (imap (fun j => pair (0 + j)%nat) (pl_list pool)). rewrite H, status_printf_all; [by rewrite map_map|].
  apply Forall_map. eapply Forall_impl; [exact Hn|]. intros [i c] Hc. destruct (pool_text_ok i c Hc) as (_ & Hl & _). cbn [fst snd]. unfold STATUS_PRINTF_MAXLEN. lia.
Qed.
End Text.

Lemma same_shape_handles p q : same_shape p q ->
  (forall h, ifconfig_pool_handle_to_ip_base p h = ifconfig_pool_handle_to_ip_base q h) /\
  (forall h, ifconfig_pool_handle_to_ipv6_base p h = ifconfig_pool_handle_to_ipv6_base q h).
Proof.
  intros (_ & E4 & Et & Eb & E6 & Eb6 & Es). unfold ifconfig_pool_handle_to_ip_base, ifconfig_pool_handle_to_ipv6_base.
  rewrite E4, Et, Eb, E6, Eb6, Es. done.
Qed.

Lemma read_written now fix_ pool p i c : same_shape pool p -> pool_wf p -> handle_readable p -> Z.of_nat i < pl_size p ->
  ifconfig_pool_read_line now fix_ p (written pool i c) = p <| pl_list := <[i := mkipe false (Some c) now fix_]> (pl_list p) |>.
Proof.
  intros Hsh Hwf Hr Hi. destruct (same_shape_handles _ _ Hsh) as [E4 E6]. pose proof Hsh as (_ & B4 & _ & _ & B6 & _).
  unfold ifconfig_pool_read_line, written. cbn [ln_ip ln_ip6 ln_cn]. rewrite E4, E6, B4, B6.
  assert (forall h, h = Z.of_nat i -> (if 0 <=? h then ifconfig_pool_set now p c h fix_ else p) = p <| pl_list := <[i := mkipe false (Some c) now fix_]> (pl_list p) |>) as Hset.
  { intros h ->. destruct (Z.leb_spec 0 (Z.of_nat i)); [|lia]. unfold ifconfig_pool_set. by rewrite Nat2Z.id. }
  apply Hset. destruct (ipv4_enabled p) eqn:D4.
  - rewrite ip_handle_roundtrip by (done || lia). destruct (ipv6_enabled p); [|done]. destruct (Z.ltb_spec (Z.of_nat i) 0); [lia|done].
  - destruct Hr as [?|[D6 Hlow]]; [congruence|]. rewrite D6. cbn [Z.ltb Z.compare]. apply ipv6_handle_roundtrip; [done|done|done|lia].
Qed.

Lemma read_lines now fix_ pool l : forall pre p, same_shape pool p -> pool_wf p -> handle_readable p ->
  pl_list p = pre ++ replicate (length l) clean_entry ->
  fold_left (ifconfig_pool_read_line now fix_) (map (fun x => written pool x.1 x.2) (names_from (length pre) l)) p = p <| pl_list := pre ++ map (restored now fix_) l |>.
Proof.
  induction l as [|e l IH]; intros pre p Hsh Hwf Hr Hl; cbn [names_from map].
  { cbn. cbn in Hl. rewrite app_nil_r in *. rewrite <- Hl. by destruct p. }
  cbn [length replicate] in Hl. unfold restored at 1. destruct (common_name e) as [c|] eqn:Hc.
  - cbn [map fold_left fst snd].
    assert (Z.of_nat (length pre) < pl_size p) as Hlt by (unfold pl_size, zlen; rewrite Hl, length_app; cbn; lia).
    rewrite read_written by done. set (p1 := p <| pl_list := _ |>). assert (same_shape p p1) as H1 by apply same_shape_list, length_insert.
    replace (S (length pre)) with (length (pre ++ [mkipe false (Some c) now fix_])) by (rewrite length_app; cbn; lia).
    rewrite (IH _ p1); [subst p1; cbn; by rewrite <- app_assoc|by eapply pool_shape_trans|by eapply same_shape_wf| |].
    + unfold handle_readable in *. destruct H1 as (_ & <- & _ & _ & <- & <- & <-). done.
    + subst p1. cbn. rewrite Hl, insert_app_r_alt by lia. rewrite Nat.sub_diag. cbn. by rewrite <- app_assoc.
  - replace (S (length pre)) with (length (pre ++ [clean_entry])) by (rewrite length_app; cbn; lia).
    rewrite (IH _ p); [by rewrite <- app_assoc|done|done|done|by rewrite <- app_assoc].
Qed.

Lemma find_restored now fix_ cn l : forall i k e c, 0 <= i -> cn = Some c -> l !! k = Some e -> common_name e = Some c ->
  (forall j e', (j < k)%nat -> l !! j = Some e' -> common_name e' <> Some c) ->
  find_previous cn (map (restored now fix_) l) i (-1) = i + Z.of_nat k.
Proof.
  induction l as [|a l IH]; intros i k e c Hi -> He Hc Hfirst; [done|]. cbn [map find_previous]. destruct k as [|k].
  - injection He as ->. unfold restored. rewrite Hc. cbn. rewrite bool_decide_true by done. rewrite find_previous_found by done. lia.
  - assert (common_name a <> Some c) as Ha by (apply (Hfirst 0%nat); [lia|done]).
    replace (if in_use (restored now fix_ a) then _ else _) with (-1).
    + rewrite (IH (i + 1) k e c); [lia|lia|done|done|done|]. intros j e' Hj. apply (Hfirst (S j)). lia.
    + unfold restored. destruct (common_name a) as [n|]; cbn; [|done]. rewrite bool_decide_false by congruence. done.
Qed.

Lemma find_previous_choice pool cn k : duplicate_cn pool = false -> find_previous cn (pl_list pool) 0 (-1) = Z.of_nat k -> ifconfig_pool_find pool cn = Z.of_nat k.
Proof. intros Hd H. unfold ifconfig_pool_find. rewrite find_loop_split, Hd, H. destruct (Z.leb_spec 0 (Z.of_nat k)); [done|lia]. Qed.

(** C31. A restart of the server: the text of the database written from a pool in any state,
    read into the pool that the same configuration gives, restores every entry with a name,
    free and with the time of the restart, and leaves the others clean. This is for names
    that survive the file ([name_readable]: shorter than 128 bytes, without a comma or an end
    of line, not starting with [#] or [;]; [comma_name_lost] and [comment_name_lost] for the
    others), for pools whose handles can be computed from the addresses ([handle_readable]:
    those with IPv4, or with IPv6 where no handle carries into the first twelve bytes,
    [ipv6_not_read_back] otherwise) and for a resolver that reads what is printed.
    Without [--duplicate-cn], a client whose name was written then gets the handle, and with
    it the addresses, of the first entry with its name; and when the database is fixed (a
    refresh of 0 seconds) a client that is not in it never gets the entry of another name. *)
Theorem pool_restart_keeps_addresses print6 getaddr get6 b4 type start end_ dup b6 base6 netbits pool0 pool now fix_ :
  is_u 32 start -> is_u 32 end_ -> is_addr6 base6 -> netbits <= 128 ->
  ifconfig_pool_init b4 type start end_ dup b6 base6 netbits = Some pool0 -> same_shape pool pool0 -> handle_readable pool0 ->
  addr_text_ok print6 getaddr get6 -> Forall (fun x => name_readable x.2) (names_from 0 (pl_list pool)) ->
  exists p, ifconfig_pool_read getaddr get6 now fix_ pool0 (ifconfig_pool_list print6 pool) = Some p /\ same_shape pool p /\ pl_list p = map (restored now fix_) (pl_list pool) /\
  (dup = false -> forall k e c, pl_list pool !! k = Some e -> common_name e = Some c ->
    (forall j e', (j < k)%nat -> pl_list pool !! j = Some e' -> common_name e' <> Some c) ->
    ifconfig_pool_find p (Some c) = Z.of_nat k /\
    ifconfig_pool_handle_to_ip_base p (Z.of_nat k) = ifconfig_pool_handle_to_ip_base pool (Z.of_nat k) /\
    ifconfig_pool_handle_to_ipv6_base p (Z.of_nat k) = ifconfig_pool_handle_to_ipv6_base pool (Z.of_nat k)) /\
  (dup = false -> fix_ = true -> forall c k e, (forall j e', pl_list pool !! j = Some e' -> common_name e' <> Some c) ->
    ifconfig_pool_find p (Some c) = Z.of_nat k -> pl_list pool !! k = Some e -> common_name e = None).
Proof.
  intros Hs He H6 Hn Hinit Hsh Hr Ht Hnames. destruct (init_wf _ _ _ _ _ _ _ _ _ Hs He H6 Hn Hinit) as (Hwf & _ & Hdup & _ & _ & _ & Hl).
  pose proof (same_shape_wf _ _ (same_shape_sym _ _ Hsh) Hwf) as Hwfp.
  pose proof (read_lines now fix_ pool (pl_list pool) [] pool0 Hsh Hwf Hr) as Hread. cbn [length app] in Hread.
  unfold ifconfig_pool_read. rewrite (list_text _ _ _ Ht _ Hwfp Hnames), (read_texts _ _ _ Ht _ Hwfp) by (done || lia). eexists. split; [done|]. rewrite Hread; cycle 1.
  { rewrite Hl. f_equal. destruct Hsh as (_ & _ & _ & _ & _ & _ & <-). unfold pl_size, zlen. by rewrite Nat2Z.id. }
  set (p := pool0 <| pl_list := _ |>).
  assert (same_shape pool p) as Hp.
  { eapply pool_shape_trans; [exact Hsh|]. apply same_shape_list. rewrite length_map. destruct Hsh as (_ & _ & _ & _ & _ & _ & E). unfold pl_size, zlen in E. lia. }
  split; [done|]. split; [done|]. split.
  - intros -> k e c Hk Hc Hfirst. destruct (same_shape_handles _ _ Hp) as [E4 E6]. rewrite E4, E6. split; [|done].
    apply find_previous_choice; [done|]. subst p. cbn. by rewrite (find_restored now fix_ (Some c) _ 0 k e c).
  - intros -> -> c k e Hno Hfind Hk. destruct (find_spec p (Some c)) as [[Hx _]|(k' & Hk' & Hc)]; [lia|]. assert (k' = k) as -> by lia.
    assert (forall j e', pl_list p !! j = Some e' -> exists e0, pl_list pool !! j = Some e0 /\ e' = restored now true e0) as Hback.
    { intros j e' Hj. subst p. cbn in Hj. apply list_lookup_fmap_Some in Hj as (e0 & ? & ?). by exists e0. }
    unfold pool_choice in Hc. replace (duplicate_cn p) with false in Hc by (symmetry; exact Hdup).
    destruct Hc as [[(e' & He' & Hm) _]|[_ (e' & He' & Hm & _)]]; destruct (Hback _ _ He') as (e0 & H0 & ->); simplify_eq.
    + destruct Hm as (_ & c0 & [= <-] & Hname). unfold restored in Hname. destruct (common_name e) eqn:?; [|done]. injection Hname as ->. by destruct (Hno _ _ Hk).
    + destruct Hm as [_ Hf]. unfold restored in Hf. by destruct (common_name e).
Qed.

Lemma toy_field_digits s v : Forall (fun c => 48 <= c < 58) s -> forall w,
  fold_left toy_field s (v, w) = (v, fold_left (fun v c => v * 10 + (c - 48)) s w).
Proof.
  induction s as [|c s IH]; intros H w; cbn [fold_left]; [done|]. apply Forall_cons in H as [Hc H]. unfold toy_field at 2.
  destruct (Z.eqb_spec c 46); [lia|]. cbn [fst snd]. by apply IH.
Qed.
Lemma toy_text_ok : addr_text_ok toy_ntop6 toy_getaddr toy_pton6.
Proof.
  split.
  - intros a Ha. assert (forall z v, fold_left toy_field (print_int (u8 z)) (v, 0) = (v, u8 z)) as H.
    { intros z v. destruct (print_byte (u8 z) (wrap_byte z)) as (H1 & _ & H3). by rewrite toy_field_digits, H3. }
    assert (forall v, fold_left toy_field [46] v = (v.1 * 256 + v.2, 0)) as Hdot by done.
    unfold toy_getaddr, print_in_addr_t. rewrite !fold_left_app. rewrite H, Hdot, H, Hdot, H, Hdot, H. cbn [fst snd]. f_equal.
    unfold u8, wrap, is_u in *. change (2 ^ 8) with 256. change (2 ^ 16) with 65536. change (2 ^ 24) with 16777216. change (2 ^ 32) with 4294967296 in *. zdiv.
  - intros a [_ Ha]. unfold toy_pton6. f_equal. induction Ha as [|b a Hb Ha IH]; [done|]. change (toy_ntop6 (b :: a)) with ([97 + b / 16; 97 + b mod 16] ++ toy_ntop6 a).
    cbn [app toy_pairs]. rewrite IH. f_equal. zdiv.
  - intros a [_ Ha]. induction Ha as [|b a Hb Ha IH]; [by constructor|]. change (toy_ntop6 (b :: a)) with ([97 + b / 16; 97 + b mod 16] ++ toy_ntop6 a).
    unfold is_byte in Hb. apply Forall_app. split; [|done]. repeat constructor; zdiv.
  - intros a [Hl Ha]. assert (zlen (toy_ntop6 a) = 2 * zlen a) as ->; [|unfold zlen; lia]. clear Hl. induction Ha as [|b a Hb Ha IH]; [done|].
    change (toy_ntop6 (b :: a)) with ([97 + b / 16; 97 + b mod 16] ++ toy_ntop6 a). rewrite zlen_app, IH, (zlen_cons b). change (zlen [97 + b / 16; 97 + b mod 16]) with 2. lia.
Qed.

Lemma pool_restart_keeps_addresses_witness : exists s p,
  server_run (mksrv toy_pool empty) toy_run = Some s /\
  ifconfig_pool_read toy_getaddr toy_pton6 500 true toy_pool (ifconfig_pool_list toy_ntop6 (sv_pool s)) = Some p /\
  ifconfig_pool_find p (Some "bob"%string) = 1 /\ ifconfig_pool_find p (Some "alice"%string) = 0 /\ pl_list p = map (restored 500 true) (pl_list (sv_pool s)).
Proof.
  eexists. match goal with |- exists p, ?A = _ /\ _ => let v := eval vm_compute in A in assert (A = v) as -> by (vm_compute; reflexivity) end.
  match goal with |- exists p, Some ?s = _ /\ _ =>
    destruct (pool_restart_keeps_addresses toy_ntop6 toy_getaddr toy_pton6 true IFCONFIG_POOL_INDIV 168296450 168296460 false true toy_base6 64 toy_pool (sv_pool s) 500 true) as (p & Hp & _ & Hl & Hfind & _) end;
    [split; vm_compute; done|split; vm_compute; done|split; [done|by apply (bool_decide_eq_true_1 (Forall is_byte toy_base6))]|vm_compute; done|vm_compute; reflexivity|by repeat split|by left|exact toy_text_ok| |].
  { refine (bool_decide_eq_true_1 (Forall (fun x => name_readable x.2) _) _). vm_compute. reflexivity. }
  exists p. split; [reflexivity|]. split; [exact Hp|]. split; [|split; [|exact Hl]].
  - refine (proj1 (Hfind eq_refl 1%nat _ _ eq_refl eq_refl _)). intros [|j] e' Hj; [by intros [= <-]|lia].
  - refine (proj1 (Hfind eq_refl 0%nat _ _ eq_refl eq_refl _)). lia.
Defined.

(** With [--username-as-common-name] a name can have a comma, at which its line is cut, or
    start like a comment; the client of the first comes back as another one, and the second
    is forgotten. *)
Definition toy_named (c : string) : ifconfig_pool := toy_pool <| pl_list := <[1%nat := mkipe false (Some c) 7 false]> (pl_list toy_pool) |>.
Definition toy_again (c : string) : option (list (option string)) :=
  (fun p => map common_name (take 2 (pl_list p))) <$> ifconfig_pool_read toy_getaddr toy_pton6 500 false toy_pool (ifconfig_pool_list toy_ntop6 (toy_named c)).
Example comma_name_lost : toy_again "doe" = Some [None; Some "doe"%string] /\ toy_again "doe,john" = Some [None; None].
Proof. split; vm_compute; reflexivity. Qed.
Example comment_name_lost : toy_again "#1" = Some [None; None].
Proof. vm_compute. reflexivity. Qed.
(** The text after the comma is read as the address: the name can take the entry of another
    address of the pool. *)
Example comma_name_moves : toy_again "doe,10.8.0.2" = Some [Some "doe"%string; None].
Proof. vm_compute. reflexivity. Qed.

(** With a network of 65 to 111 bits the pool has 65536 addresses wherever it starts; here
    the base is [...:1:ff00/111], and the last handle gives [...:2:feff], outside of it. *)
Example ipv6_pool_leaves_network :
  (pool ← ifconfig_pool_init false IFCONFIG_POOL_INDIV 0 0 false true (zput (zput toy_base6 13 1) 14 255) 111;
   Some (pl_size pool, mem_read (ifconfig_pool_handle_to_ipv6_base pool 65535) 12 4)) = Some (65536, [0; 2; 254; 255]).
Proof. vm_compute. reflexivity. Qed.

(** Without an IPv4 pool an address whose last four bytes overflow is written, but not read
    back: the client does not get its address again. *)
Example ipv6_not_read_back :
  (pool ← ifconfig_pool_init false IFCONFIG_POOL_INDIV 0 0 false true [32; 1; 13; 184; 0; 0; 0; 0; 0; 0; 0; 0; 255; 255; 255; 255] 64;
   Some (map (fun h => ifconfig_pool_ipv6_base_to_handle pool (ifconfig_pool_handle_to_ipv6_base pool h)) [0; 1; 2])) = Some [0; -1; -1].
Proof. vm_compute. reflexivity. Qed.
