(* ===== verification/Fragment.v ===== *)
(** Fragmentation: [src/openvpn/fragment.c] and [fragment.h].  Splitting a datagram
    into fragments, the window of reassembly buffers, reassembly and its expiry.
    The clock's [now] and the initial random sequence number are arguments; a
    failed assertion is [None].  A buffer handed to the caller shares its block
    with the one it was copied from; [outgoing_return] therefore keeps the block
    the caller's packet was built in. *)
From S2P Require Import Prelude Integer Buffer Otime Mtu.

Definition N_FRAG_BUF : Z := 25.
Definition FRAG_TTL_SEC : Z := 10.
Definition FRAG_WAKEUP_INTERVAL : Z := 5.
Definition FRAG_MAP_MASK : Z := 0xFFFFFFFF.
Definition MAX_FRAGS : Z := 32.
Definition N_SEQ_ID : Z := 256.

Definition FRAG_TYPE_MASK : Z := 0x00000003.
Definition FRAG_TYPE_SHIFT : Z := 0.
Definition FRAG_WHOLE : Z := 0.
Definition FRAG_YES_NOTLAST : Z := 1.
Definition FRAG_YES_LAST : Z := 2.
Definition FRAG_TEST : Z := 3.
Definition FRAG_SEQ_ID_MASK : Z := 0x000000ff.
Definition FRAG_SEQ_ID_SHIFT : Z := 2.
Definition FRAG_ID_MASK : Z := 0x0000001f.
Definition FRAG_ID_SHIFT : Z := 10.
Definition FRAG_SIZE_MASK : Z := 0x00003fff.
Definition FRAG_SIZE_SHIFT : Z := 15.
Definition FRAG_SIZE_ROUND_SHIFT : Z := 2.
Definition FRAG_SIZE_ROUND_MASK : Z := Z.shiftl 1 FRAG_SIZE_ROUND_SHIFT - 1.

Record fragment := mkfrag { fr_defined : bool; fr_max_frag_size : Z; fr_map : Z; fr_timestamp : Z; fr_buf : buffer }.
#[export] Instance eta_frag : EtaOf fragment := fun r =>
  mkfrag (fr_defined r) (fr_max_frag_size r) (fr_map r) (fr_timestamp r) (fr_buf r).
Definition frag_dummy : fragment := mkfrag false 0 0 0 clear_buf.

Record fragment_list := mkfl { fl_seq_id : Z; fl_index : Z; fl_fragments : list fragment }.
#[export] Instance eta_fl : EtaOf fragment_list := fun r => mkfl (fl_seq_id r) (fl_index r) (fl_fragments r).

Record fragment_master := mkfm {
  fm_wakeup : event_timeout; fm_received_os_mtu_hint : bool;
  fm_outgoing_seq_id : Z; fm_outgoing_frag_size : Z; fm_outgoing_frag_id : Z;
  fm_outgoing : buffer; fm_outgoing_return : buffer; fm_incoming : fragment_list }.
#[export] Instance eta_fm : EtaOf fragment_master := fun r =>
  mkfm (fm_wakeup r) (fm_received_os_mtu_hint r) (fm_outgoing_seq_id r) (fm_outgoing_frag_size r) (fm_outgoing_frag_id r)
    (fm_outgoing r) (fm_outgoing_return r) (fm_incoming r).

(** ** Initialisation *)

Definition fragment_list_buf_init (list : fragment_list) (f : frame) : option fragment_list :=
  bufs ← mapM (fun frag => buf ← alloc_buf (BUF_SIZE f); Some (frag <| fr_buf := buf |>)) (fl_fragments list);
  Some (list <| fl_fragments := bufs |>).

(** [random] is the answer of [get_random]. *)
Definition fragment_init (f : frame) (random now : Z) : fragment_master * frame :=
  (mkfm (event_timeout_init FRAG_WAKEUP_INTERVAL now) false (Z.land random (N_SEQ_ID - 1)) 0 0 clear_buf clear_buf
     (mkfl 0 0 (replicate (Z.to_nat N_FRAG_BUF) frag_dummy)), frame_add_to_extra_frame f 4).
Definition fragment_frame_init (fm : fragment_master) (f : frame) : option fragment_master :=
  incoming ← fragment_list_buf_init (fm_incoming fm) f;
  outgoing ← alloc_buf (BUF_SIZE f);
  outgoing_return ← alloc_buf (BUF_SIZE f);
  Some (fm <| fm_incoming := incoming |> <| fm_outgoing := outgoing |> <| fm_outgoing_return := outgoing_return |>).

(** ** Receiving *)

(** [list->fragments[i].field = v] *)
Definition set_fragment (list : fragment_list) (i : Z) (g : fragment -> fragment) : fragment_list :=
  list <| fl_fragments := zput (fl_fragments list) i (g (zget frag_dummy (fl_fragments list) i)) |>.

(** [while (diff > 0)], [n] being [diff]. *)
Fixpoint advance_window (n : nat) (list : fragment_list) : option fragment_list :=
  match n with
  | O => Some list
  | S n =>
      i ← modulo_add (fl_index list) 1 N_FRAG_BUF;
      let list := set_fragment (list <| fl_index := i |>) i (fun frag => frag <| fr_defined := false |>) in
      seq ← modulo_add (fl_seq_id list) 1 N_SEQ_ID;
      advance_window n (list <| fl_seq_id := seq |>)
  end.
(** The index of the buffer for [seq_id]. *)
Definition fragment_list_get_buf (list : fragment_list) (seq_id : Z) : option (Z * fragment_list) :=
  diff ← modulo_subtract seq_id (fl_seq_id list) N_SEQ_ID;
  let '(diff, list) :=
    if N_FRAG_BUF <=? Z.abs diff
    then (0, mkfl seq_id 0 ((fun frag => frag <| fr_defined := false |>) <$> fl_fragments list))
    else (diff, list) in
  list ← advance_window (Z.to_nat diff) list;
  i ← modulo_add (fl_index list) (if 0 <? diff then 0 else diff) N_FRAG_BUF;
  Some (i, list).

(** The work on the fragment found; [None] inside is [goto error]. *)
Definition frag_accept (frag : fragment) (buf : buffer) (frag_type n size : Z) (f : frame) (now : Z)
  : option (fragment * option buffer) :=
  if negb (Z.land size FRAG_SIZE_ROUND_MASK =? 0) then Some (frag, None)
  else
    frag ← (if negb (fr_defined frag) || negb (fr_max_frag_size frag =? size) then
              let '(ok, b) := buf_init_dowork (fr_buf frag) (FRAME_HEADROOM_ADJ f FRAME_HEADROOM_MARKER_FRAGMENT) in
              if ok then Some (frag <| fr_defined := true |> <| fr_max_frag_size := size |> <| fr_map := 0 |> <| fr_buf := b |>)
              else None
            else Some frag);
    let '(ok, b) := buf_copy_range (fr_buf frag) (n * size) buf 0 (b_len buf) in
    let frag := frag <| fr_buf := b |> in
    if negb ok then Some (frag, None)
    else
      let frag := frag <| fr_map := Z.lor (fr_map frag) (u32 (Z.shiftl (if frag_type =? FRAG_YES_LAST then FRAG_MAP_MASK else 1) n)) |> in
      let frag := frag <| fr_timestamp := now |> in
      if Z.land (fr_map frag) FRAG_MAP_MASK =? FRAG_MAP_MASK
      then Some (frag <| fr_defined := false |>, Some (fr_buf frag))
      else Some (frag, Some (buf <| b_len := 0 |>)).

Definition fragment_incoming (fm : fragment_master) (buf : buffer) (f : frame) (now : Z)
  : option (fragment_master * buffer) :=
  if 0 <? b_len buf then
    match buf_read buf 4 with
    | (None, buf) => Some (fm, buf <| b_len := 0 |>)
    | (Some bs, buf) =>
        let flags := be_val bs in
        let frag_type := Z.land (Z.shiftr flags FRAG_TYPE_SHIFT) FRAG_TYPE_MASK in
        if frag_type =? FRAG_WHOLE then
          if negb (Z.land flags (Z.lor FRAG_SEQ_ID_MASK FRAG_ID_MASK) =? 0) then Some (fm, buf <| b_len := 0 |>) else Some (fm, buf)
        else if (frag_type =? FRAG_YES_NOTLAST) || (frag_type =? FRAG_YES_LAST) then
          let seq_id := Z.land (Z.shiftr flags FRAG_SEQ_ID_SHIFT) FRAG_SEQ_ID_MASK in
          let n := Z.land (Z.shiftr flags FRAG_ID_SHIFT) FRAG_ID_MASK in
          let size := if frag_type =? FRAG_YES_LAST
                      then Z.shiftl (Z.land (Z.shiftr flags FRAG_SIZE_SHIFT) FRAG_SIZE_MASK) FRAG_SIZE_ROUND_SHIFT
                      else b_len buf in
          '(i, list) ← fragment_list_get_buf (fm_incoming fm) seq_id;
          '(frag, res) ← frag_accept (zget frag_dummy (fl_fragments list) i) buf frag_type n size f now;
          Some (fm <| fm_incoming := set_fragment list i (fun _ => frag) |>,
                match res with Some buf => buf | None => buf <| b_len := 0 |> end)
        else Some (fm, buf <| b_len := 0 |>)
    end
  else Some (fm, buf).

(** ** Sending *)

Definition fragment_prepend_flags (buf : buffer) (type seq_id frag_id frag_size : Z) : option buffer :=
  let flags := Z.lor (Z.lor (Z.shiftl (Z.land type FRAG_TYPE_MASK) FRAG_TYPE_SHIFT)
                            (Z.shiftl (Z.land seq_id FRAG_SEQ_ID_MASK) FRAG_SEQ_ID_SHIFT))
                     (Z.shiftl (Z.land frag_id FRAG_ID_MASK) FRAG_ID_SHIFT) in
  let flags := if (type =? FRAG_WHOLE) || (type =? FRAG_YES_NOTLAST) then flags
               else Z.lor flags (Z.shiftl (Z.land (Z.shiftr frag_size FRAG_SIZE_ROUND_SHIFT) FRAG_SIZE_MASK) FRAG_SIZE_SHIFT) in
  match buf_write_prepend buf (be32 flags) with (true, buf) => Some buf | (false, _) => None end.

(** [None] is the division by zero for a payload below 4 bytes. *)
Definition optimal_fragment_size (len max_frag_size : Z) : option Z :=
  let mfs_aligned := Z.land max_frag_size (Z.lnot FRAG_SIZE_ROUND_MASK) in
  if mfs_aligned =? 0 then None
  else
    let div := Z.quot len mfs_aligned in
    let mod_ := Z.rem len mfs_aligned in
    Some (if (0 <? div) && (0 <? mod_) && (mod_ <? Z.quot (mfs_aligned * 3) 4)
          then min_int mfs_aligned
                 (Z.land (max_frag_size - Z.quot (max_frag_size - mod_) (div + 1) + FRAG_SIZE_ROUND_MASK) (Z.lnot FRAG_SIZE_ROUND_MASK))
          else mfs_aligned).

Definition fragment_outgoing_defined (fm : fragment_master) : bool := 0 <? b_len (fm_outgoing fm).

(** The packet to send, if there is one. *)
Definition fragment_ready_to_send (fm : fragment_master) (f : frame) : option (option buffer * fragment_master) :=
  if fragment_outgoing_defined fm then
    let '(size, last) := if b_len (fm_outgoing fm) <=? fm_outgoing_frag_size fm then (b_len (fm_outgoing fm), true)
                         else (fm_outgoing_frag_size fm, false) in
    let '(ok, buf) := buf_init_dowork (fm_outgoing_return fm) (FRAME_HEADROOM f) in
    if negb ok then None
    else
      let '(ok, buf, outgoing) := buf_copy_n buf (fm_outgoing fm) size in
      if negb ok then None
      else
        buf ← fragment_prepend_flags buf (if last then FRAG_YES_LAST else FRAG_YES_NOTLAST)
                (fm_outgoing_seq_id fm) (fm_outgoing_frag_id fm) (fm_outgoing_frag_size fm);
        let fm := fm <| fm_outgoing := outgoing |> <| fm_outgoing_frag_id := fm_outgoing_frag_id fm + 1 |>
                     <| fm_outgoing_return := (fm_outgoing_return fm) <| b_data := b_data buf |> |> in
        if negb last || (b_len outgoing =? 0) then Some (Some buf, fm) else None
  else Some (None, fm).

Definition fragment_outgoing (fm : fragment_master) (buf : buffer) (f : frame) : option (fragment_master * buffer) :=
  if 0 <? b_len buf then
    if PAYLOAD_SIZE_DYNAMIC f <? b_len buf then
      size ← optimal_fragment_size (b_len buf) (PAYLOAD_SIZE_DYNAMIC f);
      let fm := fm <| fm_outgoing_frag_size := size |> in
      if size * MAX_FRAGS <? b_len buf then Some (fm, buf <| b_len := 0 |>)
      else
        let '(ok, outgoing) := buf_init_dowork (fm_outgoing fm) (FRAME_HEADROOM f) in
        if negb ok then None
        else
          let '(ok, outgoing) := buf_copy outgoing buf in
          if negb ok then None
          else
            seq ← modulo_add (fm_outgoing_seq_id fm) 1 N_SEQ_ID;
            let fm := fm <| fm_outgoing := outgoing |> <| fm_outgoing_seq_id := seq |> <| fm_outgoing_frag_id := 0 |> in
            '(ready, fm) ← fragment_ready_to_send fm f;
            buf ← ready; Some (fm, buf)
    else
      buf ← fragment_prepend_flags buf FRAG_WHOLE 0 0 0; Some (fm, buf)
  else Some (fm, buf).

(** ** Housekeeping *)

Definition fragment_ttl_reap (fm : fragment_master) (now : Z) : fragment_master :=
  fm <| fm_incoming := (fm_incoming fm) <| fl_fragments :=
    (fun frag => if fr_defined frag && (fr_timestamp frag + FRAG_TTL_SEC <=? now) then frag <| fr_defined := false |> else frag)
      <$> fl_fragments (fm_incoming fm) |> |>.
Definition fragment_wakeup (fm : fragment_master) (now : Z) : fragment_master := fragment_ttl_reap fm now.
Definition fragment_housekeeping (fm : fragment_master) (tv : option timeval) (now : Z) : fragment_master * option timeval :=
  let '(fired, wakeup, tv) := event_timeout_trigger (fm_wakeup fm) tv ETT_DEFAULT now in
  let fm := fm <| fm_wakeup := wakeup |> in
  (if fired then fragment_wakeup fm now else fm, tv).

(** ** The fragment header *)

Lemma lor_shift a b n : 0 <= n -> 0 <= a < 2 ^ n -> Z.lor a (Z.shiftl b n) = a + b * 2 ^ n.
Proof.
  intros Hn Ha. rewrite <- Z.shiftl_mul_pow2 by lia. assert (Hl : Z.land a (Z.shiftl b n) = 0).
  { apply Z.bits_inj'. intros i Hi. rewrite Z.land_spec, Z.bits_0. destruct (Z.lt_ge_cases i n).
    - rewrite Z.shiftl_spec_low by lia. apply andb_false_r.
    - by rewrite (testbit_high n a i). }
  pose proof (Z.add_lor_land a (Z.shiftl b n)). lia.
Qed.

Definition frag_flags (type seq_id frag_id size : Z) : Z :=
  type + seq_id * 4 + frag_id * 1024 + (if (type =? 0) || (type =? 1) then 0 else size / 4 * 32768).

Definition header_ok (type seq_id frag_id size : Z) : Prop :=
  0 <= type < 4 /\ 0 <= seq_id < 256 /\ 0 <= frag_id < 32 /\ 0 <= size < 65536.

Lemma prepend_flags_spec buf type seq_id frag_id size : header_ok type seq_id frag_id size -> buf_live buf -> 4 <= b_offset buf ->
  exists buf', fragment_prepend_flags buf type seq_id frag_id size = Some buf' /\ buf_live buf' /\
    b_capacity buf' = b_capacity buf /\ b_offset buf' = b_offset buf - 4 /\ b_len buf' = b_len buf + 4 /\
    buf_contents buf' = be32 (frag_flags type seq_id frag_id size) ++ buf_contents buf.
Proof.
  intros (Ht & Hs & Hi & Hz) Hb Ho. unfold fragment_prepend_flags. cbn zeta. set (flags := if (type =? FRAG_WHOLE) || _ then _ else _).
  assert (Hflags : flags = frag_flags type seq_id frag_id size).
  { unfold flags, frag_flags, FRAG_TYPE_MASK, FRAG_SEQ_ID_MASK, FRAG_ID_MASK, FRAG_SIZE_MASK, FRAG_TYPE_SHIFT, FRAG_SEQ_ID_SHIFT,
      FRAG_ID_SHIFT, FRAG_SIZE_SHIFT, FRAG_SIZE_ROUND_SHIFT, FRAG_WHOLE, FRAG_YES_NOTLAST.
    change 0x3 with (Z.ones 2). change 0xff with (Z.ones 8). change 0x1f with (Z.ones 5). change 0x3fff with (Z.ones 14).
    rewrite !Z.land_ones, Z.shiftl_0_r, Z.shiftr_div_pow2, !Z.mod_small by (try zdiv; lia).
    rewrite (lor_shift type) by lia. change (2 ^ 2) with 4. rewrite (lor_shift (type + seq_id * 4)) by lia.
    change (2 ^ 10) with 1024. destruct ((type =? 0) || (type =? 1)); [lia|].
    rewrite lor_shift by lia. change (2 ^ 15) with 32768. lia. }
  destruct (buf_prepend_room buf (be32 flags)) as (b' & -> & Hl & Hc & Hof & Hlen & Hcont); [done|exact Ho|auto with ovpn|].
  exists b'. split; [done|]. split; [done|]. split; [done|]. split; [exact Hof|]. split; [exact Hlen|]. by rewrite Hcont, Hflags.
Qed.

(** What the receiver reads out of it. *)
Lemma flags_fields type seq_id frag_id size : header_ok type seq_id frag_id size -> size mod 4 = 0 ->
  let flags := frag_flags type seq_id frag_id size in
  is_u 32 flags /\
  Z.land (Z.shiftr flags FRAG_TYPE_SHIFT) FRAG_TYPE_MASK = type /\
  Z.land (Z.shiftr flags FRAG_SEQ_ID_SHIFT) FRAG_SEQ_ID_MASK = seq_id /\
  Z.land (Z.shiftr flags FRAG_ID_SHIFT) FRAG_ID_MASK = frag_id /\
  (type = 2 -> Z.shiftl (Z.land (Z.shiftr flags FRAG_SIZE_SHIFT) FRAG_SIZE_MASK) FRAG_SIZE_ROUND_SHIFT = size).
Proof.
  intros (Ht & Hs & Hi & Hz) Hm. unfold frag_flags, FRAG_TYPE_MASK, FRAG_SEQ_ID_MASK, FRAG_ID_MASK, FRAG_SIZE_MASK, FRAG_TYPE_SHIFT,
    FRAG_SEQ_ID_SHIFT, FRAG_ID_SHIFT, FRAG_SIZE_SHIFT, FRAG_SIZE_ROUND_SHIFT.
  change 0x3 with (Z.ones 2). change 0xff with (Z.ones 8). change 0x1f with (Z.ones 5). change 0x3fff with (Z.ones 14).
  rewrite !Z.land_ones, !Z.shiftr_div_pow2, Z.shiftl_mul_pow2 by lia.
  set (hi := if (type =? 0) || (type =? 1) then 0 else _). assert (Hhi : exists q, hi = q * 32768 /\ 0 <= q < 16384 /\ (type = 2 -> q * 4 = size)).
  { unfold hi. destruct (Z.eqb_spec type 0), (Z.eqb_spec type 1); cbn [orb];
      [exists 0|exists 0|exists 0|exists (size / 4)]; split; lia || zdiv. }
  destruct Hhi as (q & -> & Hq & Hq2). split; [unfold is_u; lia|]. change (2 ^ 0) with 1.
  change (2 ^ 2) with 4. change (2 ^ 8) with 256. change (2 ^ 10) with 1024. change (2 ^ 5) with 32. change (2 ^ 15) with 32768. change (2 ^ 14) with 16384.
  split; [zdiv|]. split; [zdiv|]. split; [zdiv|]. intros H2. rewrite <- (Hq2 H2). f_equal. zdiv.
Qed.

(** ** Splitting *)

Definition n_frags (len size : Z) : Z := (len + size - 1) / size.
(** The [i]-th fragment of a datagram on the wire. *)
Definition frag_packet (data : list Z) (size seq_id i : Z) : list Z :=
  be32 (frag_flags (if i =? n_frags (zlen data) size - 1 then FRAG_YES_LAST else FRAG_YES_NOTLAST) seq_id i size)
    ++ mem_read data (i * size) size.

Lemma align_down x : Z.land x (Z.lnot FRAG_SIZE_ROUND_MASK) = x / 4 * 4.
Proof.
  change FRAG_SIZE_ROUND_MASK with (Z.ones 2). rewrite <- Z.ldiff_land, Z.ldiff_ones_r by lia.
  by rewrite Z.shiftr_div_pow2, Z.shiftl_mul_pow2 by lia.
Qed.

Lemma n_frags_eq len size n : 0 < size -> (n - 1) * size < len <= n * size -> n_frags len size = n.
Proof. intros Hs Hn. unfold n_frags. symmetry. apply (Z.div_unique _ _ _ (len + size - 1 - n * size)); nia. Qed.

Lemma n_frags_bounds len size : 0 < size -> (n_frags len size - 1) * size < len <= n_frags len size * size.
Proof. intros Hs. unfold n_frags. pose proof (Z.div_mod (len + size - 1) size). pose proof (Z.mod_pos_bound (len + size - 1) size). nia. Qed.

Lemma optimal_spec len P : 4 <= P < 65536 -> P < len ->
  exists size, optimal_fragment_size len P = Some size /\ size mod 4 = 0 /\ 4 <= size <= P /\
    n_frags len size = n_frags len (P / 4 * 4).
Proof.
  intros HP Hl. unfold optimal_fragment_size. rewrite !align_down. set (A := P / 4 * 4). assert (HA : A <= P < A + 4 /\ 4 <= A /\ A mod 4 = 0) by (unfold A; zdiv).
  destruct (Z.eqb_spec A 0); [lia|]. rewrite Z.quot_div_nonneg, Z.rem_mod_nonneg by lia. cbn zeta.
  set (div := len / A). set (mod_ := len mod A). assert (Hdm : len = A * div + mod_) by (apply Z.div_mod; lia).
  assert (Hmod : 0 <= mod_ < A) by (apply Z.mod_pos_bound; lia). assert (Hdiv : 0 < div) by (apply Z.div_str_pos; lia).
  destruct (Z.ltb_spec 0 div); [|lia]. destruct (Z.ltb_spec 0 mod_); cbn [andb]; [|exists A; split_and!; done || lia].
  destruct (mod_ <? Z.quot (A * 3) 4); [|exists A; split_and!; done || lia].
  rewrite min_int_min, Z.quot_div_nonneg by lia. change FRAG_SIZE_ROUND_MASK with 3.
  set (q := (P - mod_) / (div + 1)). assert (Hq : (div + 1) * q <= P - mod_) by (apply Z.mul_div_le; lia).
  assert (Hq0 : 0 <= q) by (apply Z.div_pos; lia). set (v := (P - q + 3) / 4 * 4). assert (Hv : P - q <= v /\ v mod 4 = 0) by (unfold v; zdiv).
  exists (Z.min A v). split; [done|]. split; [destruct (Z.min_spec A v) as [[_ ->]|[_ ->]]; tauto|].
  assert (Hq2 : 2 * q <= P) by nia. split.
  { assert (P - q + 3 >= 5) by lia. assert (4 <= v) by (unfold v; zdiv). lia. }
  assert (HnA : n_frags len A = div + 1) by (apply n_frags_eq; nia). rewrite HnA. apply n_frags_eq; [lia|].
  split; [nia|]. destruct (Z.min_spec A v) as [[_ ->]|[_ ->]]; [nia|].
  assert ((div + 1) * v >= (div + 1) * (P - q)) by nia. nia.
Qed.

(** The state while a datagram is being sent, before fragment [i]. *)
Record sending (f : frame) (data : list Z) (size seq_id i : Z) (fm : fragment_master) : Prop := mksending {
  sd_out : buf_live (fm_outgoing fm); sd_ocap : b_capacity (fm_outgoing fm) = BUF_SIZE f;
  sd_rest : buf_contents (fm_outgoing fm) = drop (Z.to_nat (i * size)) data;
  sd_ret : buf_live (fm_outgoing_return fm); sd_cap : b_capacity (fm_outgoing_return fm) = BUF_SIZE f;
  sd_size : fm_outgoing_frag_size fm = size; sd_seq : fm_outgoing_seq_id fm = seq_id; sd_id : fm_outgoing_frag_id fm = i }.

Definition frame_fits (f : frame) (size : Z) : Prop := frame_ok f /\ 4 <= FRAME_HEADROOM f /\ FRAME_HEADROOM f + size <= BUF_SIZE f.

Lemma ready_step f data size seq_id i fm : frame_fits f size -> 4 <= size < 65536 -> size mod 4 = 0 -> 0 <= seq_id < 256 ->
  zlen data <= 32 * size -> sending f data size seq_id i fm -> 0 <= i < n_frags (zlen data) size ->
  exists p fm', fragment_ready_to_send fm f = Some (Some p, fm') /\ buf_live p /\
    buf_contents p = frag_packet data size seq_id i /\ b_offset p = FRAME_HEADROOM f - 4 /\ sending f data size seq_id (i + 1) fm' /\
    fm_incoming fm' = fm_incoming fm.
Proof.
  intros (Hfr & Hh4 & Hfit) Hsz Hm Hseq Hlen [Ho Hocap Hrest Hr Hcap Hs Hq Hi] Hin. pose proof (n_frags_bounds (zlen data) size ltac:(lia)) as Hn.
  set (k := n_frags (zlen data) size) in *. assert (Hk : k <= 32) by nia.
  assert (Hbl : b_len (fm_outgoing fm) = zlen data - i * size).
  { rewrite <- (buf_contents_length _ Ho), Hrest. unfold zlen. rewrite length_drop. unfold zlen in Hn. nia. }
  unfold fragment_ready_to_send, fragment_outgoing_defined. rewrite Hs, Hq, Hi, Hbl.
  destruct (Z.ltb_spec 0 (zlen data - i * size)); [|nia].
  set (n := Z.min size (zlen data - i * size)). set (last := i =? k - 1).
  assert (Hsl : (if zlen data - i * size <=? size then (zlen data - i * size, true) else (size, false)) = (n, last)).
  { unfold n, last. destruct (Z.leb_spec (zlen data - i * size) size), (Z.eqb_spec i (k - 1)); try (f_equal; lia); exfalso; nia. }
  rewrite Hsl. destruct (headroom_spec f 0 Hfr) as [Hh _]. fold (FRAME_HEADROOM f) in Hh.
  destruct (buf_init_live (fm_outgoing_return fm) (FRAME_HEADROOM f) Hr) as (b0 & -> & L0 & C0 & O0 & N0 & E0); [lia|]. cbn [negb].
  destruct (buf_copy_n_ok b0 (fm_outgoing fm) n) as (b1 & o1 & -> & L1 & Lo1 & C1 & O1 & N1 & E1 & R1 & M1 & K1); [done|done|lia|lia|]. cbn [negb].
  destruct (prepend_flags_spec b1 (if last then FRAG_YES_LAST else FRAG_YES_NOTLAST) seq_id i size) as (b2 & -> & L2 & C2 & O2 & N2 & E2);
    [split_and!; try lia; destruct last; unfold FRAG_YES_LAST, FRAG_YES_NOTLAST; lia|done|lia|].
  cbn [mbind option_bind]. assert (Hfin : negb last || (b_len o1 =? 0) = true).
  { unfold last. destruct (Z.eqb_spec i (k - 1)); [|done]. cbn [negb orb]. apply Z.eqb_eq. rewrite M1, Hbl. unfold n. nia. }
  rewrite Hfin. destruct (buf_live_data b2 L2) as (d2 & Hd2 & Hz2 & Hf2).
  eexists b2, _. split; [done|]. split; [done|]. split; [|split; [lia|split; [|done]]].
  - rewrite E2, E1, E0, Hrest. cbn [app]. unfold frag_packet. fold k. fold last. f_equal. unfold mem_read, n.
    rewrite <- (take_take (drop _ data) _ (Z.to_nat (zlen data - i * size)))|| idtac.
    destruct (Z.le_gt_cases size (zlen data - i * size)); [by rewrite Z.min_l by lia|]. rewrite Z.min_r by lia.
    rewrite !take_ge; [done| |]; rewrite length_drop; unfold zlen in *; lia.
  - split; cbn; try done.
    + by rewrite K1.
    + rewrite R1, Hrest, drop_drop. unfold n. destruct (Z.le_gt_cases size (zlen data - i * size)).
      * rewrite Z.min_l by lia. f_equal. nia.
      * rewrite !drop_ge; [done| |]; unfold zlen in *; nia.
    + destruct (buf_live_data _ Hr) as (dr & Hdr & Hzr & _). destruct Hr as [[] _].
      apply (buf_live_intro _ d2); cbn; try done; lia.
Qed.

(** The packets [fragment_ready_to_send] gives until it has none left. *)
Fixpoint fragment_drain (fuel : nat) (fm : fragment_master) (f : frame) : option (list buffer * fragment_master) :=
  '(r, fm) ← fragment_ready_to_send fm f;
  match r, fuel with
  | None, _ => Some ([], fm)
  | Some _, O => None
  | Some p, S fuel => '(ps, fm) ← fragment_drain fuel fm f; Some (p :: ps, fm)
  end.

Lemma drain_spec f data size seq_id n : forall i fm fuel, frame_fits f size -> 4 <= size < 65536 -> size mod 4 = 0 ->
  0 <= seq_id < 256 -> zlen data <= 32 * size -> sending f data size seq_id i fm -> 0 <= i ->
  n_frags (zlen data) size - i = Z.of_nat n -> (n <= fuel)%nat ->
  exists ps fm', fragment_drain fuel fm f = Some (ps, fm') /\ Forall buf_live ps /\
    map buf_contents ps = map (frag_packet data size seq_id) (seqZ i (Z.of_nat n)) /\
    sending f data size seq_id (i + Z.of_nat n) fm' /\ fm_incoming fm' = fm_incoming fm.
Proof.
  induction n as [|n IH]; intros i fm fuel Hfit Hsz Hm Hseq Hlen Hsd Hi Hn Hfuel.
  - assert (Hready : fragment_ready_to_send fm f = Some (None, fm)).
    { unfold fragment_ready_to_send, fragment_outgoing_defined. destruct Hsd as [Ho _ Hrest _ _ _ _ _].
      rewrite <- (buf_contents_length _ Ho), Hrest, drop_ge; [done|].
      pose proof (n_frags_bounds (zlen data) size ltac:(lia)). unfold zlen in *. nia. }
    exists [], fm. rewrite Z.add_0_r. split; [by destruct fuel; cbn [fragment_drain]; rewrite Hready|]. by split_and!.
  - destruct (ready_step f data size seq_id i fm) as (p & fm1 & Hready & Hp & Hc & _ & Hsd1 & Hinc1); try done; [lia|].
    destruct fuel as [|fuel]; [lia|]. cbn [fragment_drain]. rewrite Hready. cbn [mbind option_bind].
    destruct (IH (i + 1) fm1 fuel) as (ps & fm2 & -> & Hps & Hcs & Hsd2 & Hinc2); try done; [lia|lia|lia|].
    cbn [mbind option_bind]. exists (p :: ps), fm2. split; [done|]. split; [by constructor|]. split; [|split].
    + rewrite seqZ_cons by lia. cbn [map]. rewrite Hc, Hcs. do 2 f_equal. f_equal; lia.
    + by replace (i + Z.of_nat (S n)) with (i + 1 + Z.of_nat n) by lia.
    + by rewrite Hinc2.
Qed.

Record sender_ok (f : frame) (fm : fragment_master) : Prop := mksender {
  so_frame : frame_ok f; so_head : 4 <= FRAME_HEADROOM f; so_payload : 4 <= PAYLOAD_SIZE_DYNAMIC f < 65536;
  so_out : buf_live (fm_outgoing fm) /\ b_capacity (fm_outgoing fm) = BUF_SIZE f;
  so_ret : buf_live (fm_outgoing_return fm) /\ b_capacity (fm_outgoing_return fm) = BUF_SIZE f;
  so_seq : 0 <= fm_outgoing_seq_id fm < 256 }.

(** The fragment size the sender uses for a datagram of the given length. *)
Definition frag_size_for (len P : Z) : Z := default 0 (optimal_fragment_size len P).

Lemma outgoing_splits f fm buf fuel : sender_ok f fm -> buf_live buf ->
  PAYLOAD_SIZE_DYNAMIC f < b_len buf -> FRAME_HEADROOM f + b_len buf <= BUF_SIZE f ->
  let size := frag_size_for (b_len buf) (PAYLOAD_SIZE_DYNAMIC f) in
  let k := n_frags (b_len buf) size in
  let seq_id := (fm_outgoing_seq_id fm + 1) mod 256 in
  b_len buf <= 32 * size -> 31 <= Z.of_nat fuel ->
  exists p fm1 ps fm2, fragment_outgoing fm buf f = Some (fm1, p) /\ fragment_drain fuel fm1 f = Some (ps, fm2) /\
    Forall buf_live (p :: ps) /\
    map buf_contents (p :: ps) = map (frag_packet (buf_contents buf) size seq_id) (seqZ 0 k) /\
    sender_ok f fm2 /\ b_len (fm_outgoing fm2) = 0 /\
    size mod 4 = 0 /\ 4 <= size <= PAYLOAD_SIZE_DYNAMIC f /\ 2 <= k <= 32 /\ k = n_frags (b_len buf) (PAYLOAD_SIZE_DYNAMIC f / 4 * 4).
Proof.
  intros [Hfr Hh HP [Ho Hoc] [Hr Hrc] Hsq] Hb Hlen Hroom size k seq_id Hmax Hfuel.
  destruct (optimal_spec (b_len buf) (PAYLOAD_SIZE_DYNAMIC f) HP Hlen) as (sz & Hopt & Hm & Hsz & Hkn).
  assert (Hsize : size = sz) by (unfold size, frag_size_for; by rewrite Hopt).
  pose proof (n_frags_bounds (b_len buf) size ltac:(lia)) as Hk. fold k in Hk. assert (Hk2 : 2 <= k <= 32) by nia.
  assert (Hseq : 0 <= seq_id < 256) by (apply Z.mod_pos_bound; lia).
  unfold fragment_outgoing. destruct (Z.ltb_spec 0 (b_len buf)); [|lia]. destruct (Z.ltb_spec (PAYLOAD_SIZE_DYNAMIC f) (b_len buf)); [|lia].
  rewrite Hopt. cbn [mbind option_bind]. unfold MAX_FRAGS. rewrite <- Hsize. destruct (Z.ltb_spec (size * 32) (b_len buf)); [lia|].
  destruct (headroom_spec f 0 Hfr) as [Hh2 _]. fold (FRAME_HEADROOM f) in Hh2. cbn [fm_outgoing fm_outgoing_seq_id upd].
  destruct (buf_init_live (fm_outgoing fm) (FRAME_HEADROOM f) Ho) as (o1 & -> & L1 & C1 & O1 & N1 & E1); [lia|]. cbn [negb].
  unfold buf_copy. destruct (buf_write_room o1 (buf_contents buf)) as (o2 & -> & L2 & C2 & O2 & N2 & E2);
    [done|rewrite buf_contents_length by done; lia|apply buf_contents_bytes, Hb|]. cbn [negb].
  unfold N_SEQ_ID. rewrite modulo_add_mod by lia. cbn [mbind option_bind]. fold seq_id. set (fm0 := _ <| fm_outgoing_frag_id := 0 |>).
  assert (Hlend : zlen (buf_contents buf) = b_len buf) by (by apply buf_contents_length).
  assert (Hs1 : 4 <= size < 65536) by lia. assert (Hs2 : size mod 4 = 0) by (by rewrite Hsize).
  assert (Hs3 : zlen (buf_contents buf) <= 32 * size) by lia.
  assert (Hsd0 : sending f (buf_contents buf) size seq_id 0 fm0) by (split; cbn; try done; [by rewrite C2, C1|by rewrite E2, E1]).
  assert (Hfit : frame_fits f size) by (split_and!; [done|done|lia]).
  destruct (ready_step f (buf_contents buf) size seq_id 0 fm0) as (p & fm1 & -> & Lp & Cp & _ & Hsd1 & _); try done; [rewrite Hlend; fold k; lia|].
  cbn [mbind option_bind].
  destruct (drain_spec f (buf_contents buf) size seq_id (Z.to_nat (k - 1)) (0 + 1) fm1 fuel) as (ps & fm2 & Hdrain & Lps & Cps & Hsd2 & _);
    try done; try lia; [rewrite Hlend; fold k; lia|].
  exists p, fm1, ps, fm2. split; [done|]. split; [done|]. split; [by constructor|]. split.
  { rewrite (seqZ_cons 0 k) by lia. cbn [map]. rewrite Cp, Cps. do 2 f_equal. f_equal; lia. }
  split; [|split; [|(split_and!; try lia); (done || by rewrite <- Hkn, <- Hsize)]].
  - destruct Hsd2. split; try done. by rewrite sd_seq0.
  - destruct Hsd2 as [Lo _ Hrest _ _ _ _ _]. rewrite <- (buf_contents_length _ Lo), Hrest, drop_ge; [done|]. unfold zlen in Hlend. nia.
Qed.

(** ** The window of reassembly buffers *)

(** The head room of reassembled packets. *)
Definition frag_room (f : frame) : Z := FRAME_HEADROOM_ADJ f FRAME_HEADROOM_MARKER_FRAGMENT.

Record frag_ok (f : frame) (frag : fragment) : Prop := mkfragok {
  fo_live : buf_live (fr_buf frag); fo_cap : b_capacity (fr_buf frag) = BUF_SIZE f; fo_map : is_u 32 (fr_map frag) }.
Record list_ok (f : frame) (l : fragment_list) : Prop := mklistok {
  lo_seq : 0 <= fl_seq_id l < 256; lo_index : 0 <= fl_index l < 25; lo_len : zlen (fl_fragments l) = 25;
  lo_frags : Forall (frag_ok f) (fl_fragments l) }.

Definition slot (l : fragment_list) (i : Z) : fragment := zget frag_dummy (fl_fragments l) i.

Lemma slot_ok f l i : list_ok f l -> 0 <= i < 25 -> frag_ok f (slot l i).
Proof.
  intros [_ _ Hl Hf] Hi. rewrite Forall_lookup in Hf. apply (Hf (Z.to_nat i)). unfold slot. by rewrite (zget_lookup frag_dummy) by lia.
Qed.

Lemma set_fragment_ok f l i g : list_ok f l -> 0 <= i < 25 -> frag_ok f (g (slot l i)) -> list_ok f (set_fragment l i g).
Proof.
  intros [Hs Hi Hl Hf] Hi2 Hg. split; cbn; [done|done|by rewrite zlen_zput|]. unfold zput. destruct (Z.ltb_spec i 0); [done|].
  by apply Forall_insert.
Qed.

Lemma slot_set l i j g : zlen (fl_fragments l) = 25 -> 0 <= i < 25 ->
  slot (set_fragment l i g) j = if decide (j = i) then g (slot l i) else slot l j.
Proof.
  intros Hl Hi. unfold slot, set_fragment. cbn. destruct (decide (j = i)) as [->|Hne].
  - by rewrite zget_zput_eq by lia.
  - by rewrite zget_zput_ne by lia.
Qed.

Definition undefine (frag : fragment) : fragment := frag <| fr_defined := false |>.

Lemma window_step idx j : 0 <= idx < 25 -> 0 <= j < 25 ->
  (j = (idx + 1) mod 25 <-> (j - idx) mod 25 = 1) /\
  (j <> (idx + 1) mod 25 -> (j - idx) mod 25 = 0 /\ (j - (idx + 1) mod 25) mod 25 = 24 \/
     1 < (j - idx) mod 25 /\ (j - (idx + 1) mod 25) mod 25 = (j - idx) mod 25 - 1).
Proof. intros Hi Hj. split; [split; intros H; zdiv|]. intros H. zdiv. Qed.

(** Advancing by [n < 25] frees exactly the next [n] buffers. *)
Lemma advance_spec f n : forall l, list_ok f l -> (n < 25)%nat ->
  exists l', advance_window n l = Some l' /\ list_ok f l' /\
    fl_index l' = (fl_index l + Z.of_nat n) mod 25 /\ fl_seq_id l' = (fl_seq_id l + Z.of_nat n) mod 256 /\
    forall j, 0 <= j < 25 -> slot l' j = if decide (1 <= (j - fl_index l) mod 25 <= Z.of_nat n) then undefine (slot l j) else slot l j.
Proof.
  induction n as [|n IH]; intros l Hl Hn.
  - exists l. assert (Hl' := Hl). destruct Hl' as [Hs Hi _ _]. rewrite !Z.add_0_r, !Z.mod_small by lia.
    split_and!; [done|done|done|done|]. intros j Hj. by rewrite decide_False by lia.
  - assert (Hl' := Hl). destruct Hl' as [Hs Hi Hlen Hf]. cbn [advance_window]. unfold N_FRAG_BUF, N_SEQ_ID.
    rewrite modulo_add_mod by lia. cbn [mbind option_bind]. cbn [fl_seq_id set_fragment upd]. rewrite modulo_add_mod by lia. cbn [mbind option_bind].
    set (i1 := (fl_index l + 1) mod 25). set (l1 := _ <| fl_seq_id := _ |>). assert (Hi1 : 0 <= i1 < 25) by (apply Z.mod_pos_bound; lia).
    assert (Hslot1 : forall j, slot l1 j = if decide (j = i1) then undefine (slot l i1) else slot l j).
    { intros j. pose proof (slot_set (l <| fl_index := i1 |>) i1 j undefine) as H. exact (H Hlen Hi1). }
    assert (Hok1 : list_ok f l1).
    { assert (Hset : list_ok f (set_fragment (l <| fl_index := i1 |>) i1 undefine)).
      { apply set_fragment_ok; [by split|done|]. destruct (slot_ok f l i1 Hl Hi1). by split. }
      destruct Hset as [_ Hx Hy Hz]. split; [apply Z.mod_pos_bound; lia|exact Hx|exact Hy|exact Hz]. }
    destruct (IH l1 Hok1 ltac:(lia)) as (l' & Hrun & Hok & Hidx & Hseq & Hslot). exists l'. split; [done|]. split; [done|].
    split; [|split].
    + rewrite Hidx. change (fl_index l1) with i1. unfold i1. rewrite Z.add_mod_idemp_l by lia. f_equal. lia.
    + rewrite Hseq. change (fl_seq_id l1) with ((fl_seq_id l + 1) mod 256). rewrite Z.add_mod_idemp_l by lia. f_equal. lia.
    + intros j Hj. rewrite (Hslot j Hj), (Hslot1 j). change (fl_index l1) with i1.
      destruct (window_step (fl_index l) j Hi Hj) as [Hj1 Hmod]. fold i1 in Hj1, Hmod.
      destruct (decide (j = i1)) as [->|Hne].
      * rewrite Z.sub_diag, (proj1 Hj1 eq_refl). change (0 mod 25) with 0. rewrite decide_False by lia. by rewrite decide_True by lia.
      * destruct (Hmod Hne) as [[Hm0 Hm1]|[Hm0 Hm1]].
        -- by rewrite !decide_False by lia.
        -- rewrite Hm1. destruct (decide (1 <= (j - fl_index l) mod 25 - 1 <= Z.of_nat n));
             [rewrite decide_True by lia|rewrite decide_False by lia]; done.
Qed.

Lemma modulo_subtract_spec x y : 0 <= x < 256 -> 0 <= y < 256 ->
  exists d, modulo_subtract x y 256 = Some d /\ -128 <= d <= 128 /\ (d - (x - y)) mod 256 = 0.
Proof.
  intros Hx Hy. unfold modulo_subtract. destruct (Z.leb_spec 0 x), (Z.ltb_spec x 256), (Z.leb_spec 0 y), (Z.ltb_spec y 256); try lia.
  cbn [andb]. eexists. split; [reflexivity|]. destruct (Z.ltb_spec y x);
    match goal with |- context [?a <? ?b] => destruct (Z.ltb_spec a b) end; split; try lia; zdiv.
Qed.

(** How far [seq_id] is ahead of the window. *)
Definition ahead (l : fragment_list) (seq_id : Z) : Z := default 0 (modulo_subtract seq_id (fl_seq_id l) 256).

Lemma get_buf_spec f l seq_id : list_ok f l -> 0 <= seq_id < 256 ->
  let d := ahead l seq_id in
  exists i l', fragment_list_get_buf l seq_id = Some (i, l') /\ list_ok f l' /\ 0 <= i < 25 /\
    (Z.abs d < 25 -> i = (fl_index l + d) mod 25 /\
      (d <= 0 -> l' = l) /\
      (0 < d -> fl_index l' = i /\ fl_seq_id l' = seq_id /\
        forall j, 0 <= j < 25 -> slot l' j = if decide (1 <= (j - fl_index l) mod 25 <= d) then undefine (slot l j) else slot l j)) /\
    (25 <= Z.abs d -> i = 0 /\ fl_index l' = 0 /\ fl_seq_id l' = seq_id /\ forall j, 0 <= j < 25 -> slot l' j = undefine (slot l j)).
Proof.
  intros Hl Hs d. assert (Hl' := Hl). destruct Hl' as [Hsq Hi Hlen Hf].
  destruct (modulo_subtract_spec seq_id (fl_seq_id l) Hs Hsq) as (d' & Hd & Hr & Hm).
  assert (Hdd : d = d') by (unfold d, ahead; by rewrite Hd). subst d'. unfold fragment_list_get_buf. unfold N_SEQ_ID, N_FRAG_BUF.
  rewrite Hd. cbn [mbind option_bind]. destruct (Z.leb_spec 25 (Z.abs d)).
  - cbn. eexists 0, _. split; [reflexivity|]. split; [|split; [lia|split; [lia|]]].
    + split; cbn; [done|lia|unfold zlen in *; by rewrite length_fmap|].
      apply Forall_fmap. eapply Forall_impl; [exact Hf|]. intros x []. by split.
    + intros _. do 3 (split; [done|]). intros j Hj. unfold slot, zget. cbn. destruct (Z.ltb_spec j 0); [lia|].
      rewrite list_lookup_fmap. pose proof (zget_lookup frag_dummy (fl_fragments l) j) as Hz. rewrite Hz by lia. done.
  - destruct (advance_spec f (Z.to_nat d) l Hl) as (l' & -> & Hok & Hidx & Hseq & Hslot); [lia|]. cbn [mbind option_bind].
    destruct (Z.ltb_spec 0 d) as [Hpos|Hneg].
    + rewrite modulo_add_mod by (destruct Hok; lia). cbn [mbind option_bind]. rewrite Z2Nat.id in * by lia.
      rewrite Z.add_0_r, Hidx. rewrite Z.mod_mod by lia. eexists _, l'. split; [reflexivity|]. split; [done|].
      split; [apply Z.mod_pos_bound; lia|]. split; [|lia]. intros _. split; [done|]. split; [lia|]. intros _. split; [done|]. split; [|done].
      rewrite Hseq. zdiv.
    + replace (Z.to_nat d) with 0%nat in * by lia. cbn in Hidx, Hseq.
      assert (Hll : l' = l).
      { rewrite Z.add_0_r, Z.mod_small in Hidx, Hseq by lia. destruct l' as [a b c], l as [a' b' c']. cbn in *. subst. f_equal.
        apply list_eq. intros j. destruct Hok as [_ _ Hlen' _]. cbn in *. unfold zlen in *.
        destruct (decide (Z.of_nat j < 25)) as [Hj|Hj]; [|rewrite !lookup_ge_None_2; [done|lia|lia]].
        specialize (Hslot (Z.of_nat j) ltac:(lia)). rewrite decide_False in Hslot by lia. unfold slot in Hslot. cbn in Hslot.
        pose proof (zget_lookup frag_dummy c (Z.of_nat j)) as H1. pose proof (zget_lookup frag_dummy c' (Z.of_nat j)) as H2.
        rewrite Nat2Z.id in H1, H2. rewrite H1, H2 by (unfold zlen; lia). by rewrite Hslot. }
      subst l'. rewrite modulo_add_mod by lia. cbn [mbind option_bind]. eexists _, l. split; [reflexivity|]. split; [done|].
      split; [apply Z.mod_pos_bound; lia|]. split; [|lia]. intros _. split; [done|]. split; [done|lia].
Qed.

(** ** Accepting a fragment *)

Lemma copy_range_ok dest di src : buf_live dest -> buf_live src -> 0 <= di ->
  b_offset dest + di + b_len src <= b_capacity dest ->
  exists d', buf_copy_range dest di src 0 (b_len src) = (true, d') /\ buf_live d' /\ b_capacity d' = b_capacity dest /\
    b_offset d' = b_offset dest /\ b_len d' = Z.max (b_len dest) (di + b_len src) /\
    b_data d' = (fun blk => mem_write blk (b_offset dest + di) (buf_contents src)) <$> b_data dest.
Proof.
  intros Hd Hs Hdi Hroom. unfold buf_copy_range. assert (Hs' := Hs). destruct Hs' as [[_ Hso Hsl Hsf _ _] _].
  destruct (Z.ltb_spec (b_len src) 0), (Z.ltb_spec (b_len src) (0 + b_len src)), (Z.ltb_spec di 0),
    (Z.ltb_spec (b_capacity dest) (b_offset dest + di + b_len src)); try lia. cbn [orb Z.ltb Z.compare].
  destruct (buf_live_data dest Hd) as (blk & Hblk & Hz & Hbytes). destruct (buf_live_data src Hs) as (sd & Hsd & _ & _).
  assert (Hload : buf_load src (b_offset src + 0) (b_len src) = buf_contents src)
    by (unfold buf_load; rewrite Hsd, Z.add_0_r; symmetry; by apply buf_contents_live).
  rewrite Hload. assert (Hzc : zlen (buf_contents src) = b_len src) by (by apply buf_contents_length).
  assert (Hd' := Hd). destruct Hd' as [[Hc Ho Hl Hf _ _] _]. set (d' := if b_len dest <? di + b_len src then _ else _).
  assert (Hdata : b_data d' = Some (mem_write blk (b_offset dest + di) (buf_contents src)))
    by (unfold d', buf_store; destruct (b_len dest <? di + b_len src); cbn; by rewrite Hblk).
  assert (Hfields : b_capacity d' = b_capacity dest /\ b_offset d' = b_offset dest /\ b_len d' = Z.max (b_len dest) (di + b_len src)).
  { unfold d'. destruct (Z.ltb_spec (b_len dest) (di + b_len src)); cbn; lia. }
  destruct Hfields as (F1 & F2 & F3). exists d'. rewrite Hblk. split; [done|]. split; [|by split_and!].
  apply (buf_live_intro d' _ Hdata); rewrite ?F1, ?F2, ?F3; try lia.
  - rewrite zlen_mem_write; lia.
  - apply mem_write_Forall; [done|apply buf_contents_bytes, Hs].
Qed.

Lemma copy_range_full dest di src : b_capacity dest < b_offset dest + di + b_len src ->
  buf_copy_range dest di src 0 (b_len src) = (false, dest).
Proof. intros H. unfold buf_copy_range. destruct (Z.ltb_spec (b_capacity dest) (b_offset dest + di + b_len src)); [|lia]. by rewrite orb_true_r. Qed.

Lemma frag_room_ok f : frame_ok f -> 0 <= frag_room f <= BUF_SIZE f.
Proof.
  intros H. destruct (headroom_spec f FRAME_HEADROOM_MARKER_FRAGMENT H) as [Hh _]. destruct H as [H1 H2 H3 H4 _ H6 _ _].
  unfold frag_room, FRAME_HEADROOM_ADJ. unfold PAYLOAD_ALIGN, FRAME_HEADROOM_BASE, BUF_SIZE, FRAME_HEADROOM_BASE, TUN_MTU_SIZE, TUN_LINK_DELTA, TUN_MTU_MIN in *. lia.
Qed.

Lemma clear_len_live b : buf_live b -> buf_live (b <| b_len := 0 |>).
Proof. intros H. destruct (buf_live_data b H) as (d & Hd & Hl & Hf). destruct H as [[] _]. eapply buf_live_intro; cbn; eauto; lia. Qed.

Definition frag_start (f : frame) (frag : fragment) (size : Z) : option fragment :=
  if negb (fr_defined frag) || negb (fr_max_frag_size frag =? size) then
    let '(ok, b) := buf_init_dowork (fr_buf frag) (frag_room f) in
    if ok then Some (frag <| fr_defined := true |> <| fr_max_frag_size := size |> <| fr_map := 0 |> <| fr_buf := b |>) else None
  else Some frag.

Lemma start_ok f frag size : frame_ok f -> frag_ok f frag ->
  exists frag', frag_start f frag size = Some frag' /\ frag_ok f frag' /\ fr_defined frag' = true /\
    (fr_defined frag = false -> fr_max_frag_size frag' = size /\ fr_map frag' = 0 /\ b_offset (fr_buf frag') = frag_room f /\ b_len (fr_buf frag') = 0) /\
    (fr_defined frag = true -> fr_max_frag_size frag = size -> frag' = frag).
Proof.
  intros Hf [Hl Hc Hm]. unfold frag_start. destruct (fr_defined frag) eqn:Hd; cbn [negb orb].
  - destruct (Z.eqb_spec (fr_max_frag_size frag) size); cbn [negb]; [exists frag; split_and!; try done|].
    destruct (buf_init_live (fr_buf frag) (frag_room f) Hl) as (b & -> & L & C & O & N & _); [pose proof (frag_room_ok f Hf); lia|].
    eexists. split; [done|]. split; [split; cbn; [done|by rewrite C|unfold is_u; lia]|]. by split_and!.
  - destruct (buf_init_live (fr_buf frag) (frag_room f) Hl) as (b & -> & L & C & O & N & _); [pose proof (frag_room_ok f Hf); lia|].
    eexists. split; [done|]. split; [split; cbn; [done|by rewrite C|unfold is_u; lia]|]. by split_and!.
Qed.

(** No fragment, however made, fails an assertion or breaks a buffer. *)
Lemma accept_total f frag buf frag_type n size now : frame_ok f -> frag_ok f frag -> buf_live buf -> 0 <= n -> 0 <= size ->
  exists frag' res, frag_accept frag buf frag_type n size f now = Some (frag', res) /\ frag_ok f frag' /\
    forall b, res = Some b -> buf_live b.
Proof.
  intros Hf Hfr Hb Hn Hs. unfold frag_accept. destruct (negb (Z.land size FRAG_SIZE_ROUND_MASK =? 0)); [by exists frag, None|].
  fold (frag_room f). fold (frag_start f frag size). destruct (start_ok f frag size Hf Hfr) as (fr1 & -> & [L1 C1 M1] & _). cbn [mbind option_bind].
  destruct (Z.le_gt_cases (b_offset (fr_buf fr1) + n * size + b_len buf) (b_capacity (fr_buf fr1))) as [Hroom|Hfull].
  2: { rewrite copy_range_full by lia. cbn [negb]. eexists _, None. split; [done|]. by split. }
  destruct (copy_range_ok (fr_buf fr1) (n * size) buf L1 Hb ltac:(nia) Hroom) as (b' & -> & L & C & _). cbn [negb]. cbn zeta.
  cbn [fr_map fr_buf fr_timestamp upd]. set (map' := Z.lor _ _).
  assert (Hmap : is_u 32 map') by (apply lor_range; [lia|done|apply wrap_range; lia]).
  destruct (Z.land map' FRAG_MAP_MASK =? FRAG_MAP_MASK); eexists _, _; (split; [done|]); (split; [split; cbn; [done|by rewrite C|done]|]).
  - by intros b [= <-].
  - intros b [= <-]. by apply clear_len_live.
Qed.

(** C39. Whatever a peer sends, a packet never fails an assertion of the reassembly
    code nor writes outside a reassembly buffer: the packet handed on is well
    formed and the window of buffers stays so. *)
Theorem fragment_incoming_safe f fm buf now : frame_ok f -> list_ok f (fm_incoming fm) -> buf_live buf ->
  exists fm' buf', fragment_incoming fm buf f now = Some (fm', buf') /\ list_ok f (fm_incoming fm') /\ buf_live buf' /\
    fm' <| fm_incoming := fm_incoming fm |> = fm.
Proof.
  intros Hf Hl Hb. assert (Hsame : fm <| fm_incoming := fm_incoming fm |> = fm) by by destruct fm.
  unfold fragment_incoming. destruct (0 <? b_len buf); [|by exists fm, buf].
  destruct (Z.le_gt_cases 4 (b_len buf)) as [H4|H4].
  2: { rewrite buf_read_short by lia. eexists fm, _. split; [done|]. split; [done|]. split; [by apply clear_len_live|done]. }
  destruct (buf_read_ok buf 4 Hb) as (bs & b1 & -> & L1 & _ & Hz & Hby & _ & _ & _); [lia|]. cbn zeta.
  set (flags := be_val bs). assert (Hmask : forall k s, 0 <= k -> 0 <= s -> 0 <= Z.land (Z.shiftr flags s) (Z.ones k) < 2 ^ k)
    by (intros k s Hk Hs; rewrite Z.land_ones by lia; apply Z.mod_pos_bound; lia).
  destruct (_ =? FRAG_WHOLE).
  { destruct (negb _); eexists fm, _; (split; [done|]); (split; [done|]); (split; [|done]); [by apply clear_len_live|done]. }
  destruct ((_ =? FRAG_YES_NOTLAST) || _).
  2: { eexists fm, _. split; [done|]. split; [done|]. split; [by apply clear_len_live|done]. }
  pose proof (Hmask 8 2) as Hseq. pose proof (Hmask 5 10) as Hn. pose proof (Hmask 14 15) as Hsz.
  change (Z.ones 8) with FRAG_SEQ_ID_MASK in Hseq. change (Z.ones 5) with FRAG_ID_MASK in Hn. change (Z.ones 14) with FRAG_SIZE_MASK in Hsz.
  destruct (get_buf_spec f (fm_incoming fm) (Z.land (Z.shiftr flags FRAG_SEQ_ID_SHIFT) FRAG_SEQ_ID_MASK) Hl) as (i & l' & -> & Hl' & Hi & _);
    [unfold FRAG_SEQ_ID_SHIFT; lia|]. cbn [mbind option_bind].
  match goal with |- context [frag_accept ?fr ?b ?t ?n ?s _ _] =>
    destruct (accept_total f fr b t n s now Hf) as (frag' & res & -> & Hfr' & Hres) end.
  - exact (slot_ok f l' i Hl' Hi).
  - done.
  - unfold FRAG_ID_SHIFT. lia.
  - destruct (_ =? FRAG_YES_LAST); [rewrite Z.shiftl_mul_pow2 by (unfold FRAG_SIZE_ROUND_SHIFT; lia); unfold FRAG_SIZE_SHIFT, FRAG_SIZE_ROUND_SHIFT; lia|].
    destruct L1 as [[] _]. lia.
  - cbn [mbind option_bind]. eexists _, _. split; [done|]. split; [by apply set_fragment_ok|]. split; [|done].
    destruct res as [b|]; [by apply Hres|by apply clear_len_live].
Qed.

(** ** Reassembly *)

Section Reassembly.
Context (f : frame) (data : list Z) (size : Z).
Let k : Z := n_frags (zlen data) size.
Context (Hframe : frame_ok f) (Hsize : 4 <= size < 65536) (Hmod : size mod 4 = 0)
  (Hk : 1 <= k <= 32) (Hfit : frag_room f + zlen data <= BUF_SIZE f).

Definition piece (i : Z) : list Z := mem_read data (i * size) size.

Lemma piece_length i : 0 <= i < k -> zlen (piece i) = Z.min size (zlen data - i * size) /\ i * size < zlen data.
Proof.
  intros Hi. pose proof (n_frags_bounds (zlen data) size ltac:(lia)) as Hb. fold k in Hb. split; [|nia].
  unfold piece, mem_read, zlen in *. rewrite length_take, length_drop. nia.
Qed.

Lemma piece_full i : 0 <= i < k - 1 -> zlen (piece i) = size.
Proof. intros Hi. destruct (piece_length i ltac:(lia)) as [-> _]. pose proof (n_frags_bounds (zlen data) size ltac:(lia)) as Hb. fold k in Hb. nia. Qed.

Lemma piece_last : (k - 1) * size + zlen (piece (k - 1)) = zlen data.
Proof. destruct (piece_length (k - 1) ltac:(lia)) as [-> _]. pose proof (n_frags_bounds (zlen data) size ltac:(lia)) as Hb. fold k in Hb. nia. Qed.

Lemma pieces_all blk : 
  (forall i, 0 <= i < k -> mem_read blk (frag_room f + i * size) (zlen (piece i)) = piece i) ->
  mem_read blk (frag_room f) (zlen data) = data.
Proof.
  intros Hp. pose proof (frag_room_ok f Hframe) as Hr.
  assert (G : forall n : nat, Z.of_nat n <= k ->
    mem_read blk (frag_room f) (Z.min (Z.of_nat n * size) (zlen data)) = mem_read data 0 (Z.min (Z.of_nat n * size) (zlen data))).
  { induction n as [|n IH]; intros Hn; [rewrite Z.mul_0_l, Z.min_l by apply zlen_nonneg; done|].
    destruct (piece_length (Z.of_nat n) ltac:(lia)) as [Hw Hlt]. specialize (Hp (Z.of_nat n) ltac:(lia)). specialize (IH ltac:(lia)).
    rewrite Z.min_l in IH by lia.
    replace (Z.min (Z.of_nat (S n) * size) (zlen data)) with (Z.of_nat n * size + zlen (piece (Z.of_nat n))) by lia.
    pose proof (zlen_nonneg (piece (Z.of_nat n))) as Hnn.
    rewrite !mem_read_app by lia. rewrite IH, Hp. f_equal. unfold piece at 1. rewrite Z.add_0_l. unfold mem_read at 1 2.
    rewrite Hw. destruct (Z.le_gt_cases size (zlen data - Z.of_nat n * size)); [by rewrite Z.min_l by lia|].
    rewrite Z.min_r by lia. rewrite !take_ge; [done| |]; rewrite length_drop; unfold zlen in *; lia. }
  specialize (G (Z.to_nat k) ltac:(lia)). rewrite Z2Nat.id in G by lia.
  pose proof (n_frags_bounds (zlen data) size ltac:(lia)) as Hb. fold k in Hb. rewrite Z.min_r in G by lia.
  by rewrite G, mem_read_all.
Qed.

(** The fragments with ids in [S] have been received. *)
Record asm (S : list Z) (frag : fragment) : Prop := mkasm {
  as_ok : frag_ok f frag; as_def : fr_defined frag = true; as_size : fr_max_frag_size frag = size;
  as_off : b_offset (fr_buf frag) = frag_room f;
  as_map : forall b, 0 <= b < 32 -> Z.testbit (fr_map frag) b = true <-> b ∈ S \/ k - 1 ∈ S /\ k - 1 <= b;
  as_in : forall i, i ∈ S -> 0 <= i < k;
  as_bytes : forall blk i, b_data (fr_buf frag) = Some blk -> i ∈ S -> mem_read blk (frag_room f + i * size) (zlen (piece i)) = piece i;
  as_len : (forall i, i ∈ S -> i * size + zlen (piece i) <= b_len (fr_buf frag)) /\ b_len (fr_buf frag) <= zlen data }.

Definition all_in (S : list Z) : Prop := Forall (fun i => i ∈ S) (seqZ 0 k).

Lemma map_complete S m : is_u 32 m -> (forall b, 0 <= b < 32 -> Z.testbit m b = true <-> b ∈ S \/ k - 1 ∈ S /\ k - 1 <= b) ->
  (Z.land m FRAG_MAP_MASK =? FRAG_MAP_MASK) = bool_decide (all_in S).
Proof.
  intros Hm Hbits. change FRAG_MAP_MASK with (Z.ones 32). rewrite Z.land_ones, Z.mod_small by (exact Hm || lia).
  assert (Hall : m = Z.ones 32 <-> all_in S).
  { unfold all_in. rewrite Forall_forall. split.
    - intros He i Hi. apply elem_of_seqZ in Hi. assert (Hb : Z.testbit m i = true) by (rewrite He; apply Z.ones_spec_low; lia).
      apply Hbits in Hb as [Hb|[Hb Hle]]; [done| |lia]. by replace i with (k - 1) by lia.
    - intros Hin. apply Z.bits_inj'. intros b Hb. destruct (Z.lt_ge_cases b 32).
      + rewrite Z.ones_spec_low by lia. apply Hbits; [lia|]. destruct (Z.lt_ge_cases b (k - 1)).
        * left. apply Hin. apply elem_of_seqZ. lia.
        * right. split; [|done]. apply Hin. apply elem_of_seqZ. lia.
      + rewrite Z.ones_spec_high by lia. by apply (testbit_high 32). }
  destruct (Z.eqb_spec m (Z.ones 32)); symmetry; [apply bool_decide_eq_true|apply bool_decide_eq_false]; tauto.
Qed.

Lemma frag_bits (last : bool) i b : 0 <= i -> 0 <= b < 32 ->
  Z.testbit (u32 (Z.shiftl (if last then FRAG_MAP_MASK else 1) i)) b = true <-> if last then i <= b else b = i.
Proof.
  intros Hi Hb. unfold wrap. rewrite Z.mod_pow2_bits_low, Z.shiftl_spec by lia. destruct last.
  - change FRAG_MAP_MASK with (Z.ones 32). destruct (Z.lt_ge_cases b i).
    + rewrite Z.testbit_neg_r by lia. split; [discriminate|lia].
    + rewrite Z.ones_spec_low by lia. tauto.
  - change 1 with (2 ^ 0). rewrite Z.pow2_bits_eqb by lia. rewrite Z.eqb_eq. lia.
Qed.

(** One more fragment of the datagram. *)
Lemma accept_ours S frag buf i now : 0 <= i < k -> buf_live buf -> buf_contents buf = piece i ->
  (S = [] /\ fr_defined frag = false /\ frag_ok f frag) \/ asm S frag ->
  exists frag' b, frag_accept frag buf (if i =? k - 1 then FRAG_YES_LAST else FRAG_YES_NOTLAST) i size f now = Some (frag', Some b) /\
    frag_ok f frag' /\ buf_live b /\
    if decide (all_in (i :: S)) then fr_defined frag' = false /\ buf_contents b = data
    else asm (i :: S) frag' /\ b_len b = 0.
Proof.
  intros Hi Hb Hcont Hst. pose proof (frag_room_ok f Hframe) as Hr. destruct (piece_length i Hi) as [Hpl Hlt].
  assert (Hbl : b_len buf = zlen (piece i)) by (rewrite <- Hcont; symmetry; by apply buf_contents_length).
  unfold frag_accept. change FRAG_SIZE_ROUND_MASK with (Z.ones 2). rewrite Z.land_ones by lia. change (2 ^ 2) with 4. rewrite Hmod.
  cbn [Z.eqb negb]. fold (frag_room f). fold (frag_start f frag size).
  assert (Hstart : exists fr1, frag_start f frag size = Some fr1 /\ frag_ok f fr1 /\ fr_defined fr1 = true /\ fr_max_frag_size fr1 = size /\
    b_offset (fr_buf fr1) = frag_room f /\
    (forall b, 0 <= b < 32 -> Z.testbit (fr_map fr1) b = true <-> b ∈ S \/ k - 1 ∈ S /\ k - 1 <= b) /\
    (forall blk j, b_data (fr_buf fr1) = Some blk -> j ∈ S -> mem_read blk (frag_room f + j * size) (zlen (piece j)) = piece j) /\
    ((forall j, j ∈ S -> j * size + zlen (piece j) <= b_len (fr_buf fr1)) /\ b_len (fr_buf fr1) <= zlen data) /\
    (forall j, j ∈ S -> 0 <= j < k)).
  { destruct Hst as [(-> & Hdef & Hok)|[Hok Hdef Hms Hoff Hmap Hin Hbytes Hlen]].
    - destruct (start_ok f frag size Hframe Hok) as (fr1 & Hs1 & Hok1 & Hd1 & Hnew & _). destruct (Hnew Hdef) as (Hm1 & Hmp1 & Ho1 & Hl1).
      exists fr1. rewrite Hmp1, Hl1. split_and!; try done.
      + intros b Hbb. rewrite Z.bits_0. split; [discriminate|]. intros [H|[H _]]; by apply elem_of_nil in H.
      + intros blk j _ H. by apply elem_of_nil in H.
      + intros j H. by apply elem_of_nil in H.
      + intros j H. by apply elem_of_nil in H.
    - destruct (start_ok f frag size Hframe Hok) as (fr1 & Hs1 & Hok1 & Hd1 & _ & Hold). specialize (Hold Hdef Hms). subst fr1.
      destruct Hlen. exists frag. by split_and!. }
  destruct Hstart as (fr1 & -> & [L1 C1 M1] & D1 & Z1 & O1 & Hmap1 & Hbytes1 & [Hlen1 Hmax1] & Hin1). cbn [mbind option_bind].
  destruct (copy_range_ok (fr_buf fr1) (i * size) buf L1 Hb) as (b' & -> & L' & C' & O' & N' & D'); [nia|lia|]. cbn [negb]. cbn zeta.
  cbn [fr_map fr_buf fr_timestamp upd].
  assert (Hlastb : ((if i =? k - 1 then FRAG_YES_LAST else FRAG_YES_NOTLAST) =? FRAG_YES_LAST) = (i =? k - 1)) by (by destruct (i =? k - 1)).
  rewrite Hlastb. set (map' := Z.lor _ _).
  assert (Hum : is_u 32 map') by (apply lor_range; [lia|done|apply wrap_range; lia]).
  assert (Hmap' : forall b, 0 <= b < 32 -> Z.testbit map' b = true <-> b ∈ i :: S \/ k - 1 ∈ i :: S /\ k - 1 <= b).
  { intros b Hbb. unfold map'. rewrite Z.lor_spec, orb_true_iff, Hmap1, frag_bits by lia. rewrite !elem_of_cons.
    destruct (Z.eqb_spec i (k - 1)); intuition lia. }
  rewrite (map_complete (i :: S) map' Hum Hmap').
  destruct (buf_live_data _ L1) as (blk & Hblk & Hzb & _). rewrite Hblk in D'. cbn in D'.
  assert (Hbytes' : forall j, j ∈ i :: S -> mem_read (mem_write blk (b_offset (fr_buf fr1) + i * size) (buf_contents buf)) (frag_room f + j * size) (zlen (piece j)) = piece j).
  { intros j Hj. rewrite O1, Hcont. destruct (decide (j = i)) as [->|Hne].
    - apply mem_read_write_eq; [nia|]. rewrite Hzb, C1. lia.
    - apply elem_of_cons in Hj as [->|Hj]; [done|]. rewrite <- (Hbytes1 blk j Hblk Hj) at 2.
      pose proof (Hin1 j Hj) as Hjk. destruct (piece_length j Hjk) as [Hplj Hltj]. destruct (Z.lt_ge_cases j i).
      + apply mem_read_write_before; [nia|apply zlen_nonneg|nia|]. rewrite Hzb, C1. nia.
      + apply mem_read_write_after; [nia|nia|]. rewrite Hzb, C1. lia. }
  destruct (decide (all_in (i :: S))) as [Hall|Hnall].
  - rewrite bool_decide_true by done. eexists _, b'. split; [done|]. split; [split; cbn; [done|by rewrite C'|done]|]. split; [done|]. split; [done|].
    unfold all_in in Hall. rewrite Forall_forall in Hall.
    rewrite (buf_contents_live b' _ L' D'), O', O1. replace (b_len b') with (zlen data).
    + apply pieces_all. intros j Hj. rewrite <- O1 at 1. apply Hbytes'. apply Hall. apply elem_of_seqZ. lia.
    + rewrite N', Hbl. assert (Hkin : k - 1 ∈ i :: S) by (apply Hall, elem_of_seqZ; lia). pose proof piece_last as Hpl1.
      apply elem_of_cons in Hkin as [<-|Hkin]; [lia|]. specialize (Hlen1 _ Hkin). nia.
  - rewrite bool_decide_false by done. eexists _, _. split; [done|]. split; [split; cbn; [done|by rewrite C'|done]|].
    split; [by apply clear_len_live|]. split; [|done]. split; cbn; try done.
    + split; cbn; [done|by rewrite C'|done].
    + by rewrite O'.
    + intros j Hj. apply elem_of_cons in Hj as [->|Hj]; [done|by apply Hin1].
    + intros blk' j Hblk' Hj. rewrite D' in Hblk'. injection Hblk' as <-. by apply Hbytes'.
    + rewrite N', Hbl. split; [|nia]. intros j Hj. apply elem_of_cons in Hj as [->|Hj]; [lia|]. specialize (Hlen1 j Hj). lia.
Qed.

End Reassembly.

(** ** Arrival in any order *)

(** The sequence number of a packet that reaches the reassembly buffers. *)
Definition frag_touch (c : list Z) : option Z :=
  if zlen c <? 4 then None
  else
    let flags := be_val (take 4 c) in
    let t := Z.land (Z.shiftr flags FRAG_TYPE_SHIFT) FRAG_TYPE_MASK in
    if (t =? FRAG_YES_NOTLAST) || (t =? FRAG_YES_LAST)
    then Some (Z.land (Z.shiftr flags FRAG_SEQ_ID_SHIFT) FRAG_SEQ_ID_MASK) else None.

(** Position in the span of sequence numbers that starts at [base]. *)
Definition pos (base s : Z) : Z := (s - base) mod 256.

Lemma pos_inj base s1 s2 : 0 <= s1 < 256 -> 0 <= s2 < 256 -> pos base s1 = pos base s2 -> s1 = s2.
Proof. unfold pos. intros. zdiv. Qed.

Lemma ahead_pos base l s : 0 <= s < 256 -> 0 <= fl_seq_id l < 256 -> pos base s < 25 -> pos base (fl_seq_id l) < 25 ->
  ahead l s = pos base s - pos base (fl_seq_id l).
Proof.
  intros Hs Hl H1 H2. unfold ahead. destruct (modulo_subtract_spec s (fl_seq_id l) Hs Hl) as (d & -> & Hd & Hm). cbn.
  unfold pos in *. zdiv.
Qed.

Lemma touch_range c s : frag_touch c = Some s -> 0 <= s < 256.
Proof.
  unfold frag_touch. destruct (zlen c <? 4); [discriminate|]. cbn zeta. destruct (_ || _); [|discriminate]. intros [= <-].
  change FRAG_SEQ_ID_MASK with (Z.ones 8). rewrite Z.land_ones by lia. apply Z.mod_pos_bound. lia.
Qed.

(** How [fragment_incoming] treats a packet with a header. *)
Lemma incoming_header fm buf f now bs rest : buf_live buf -> buf_contents buf = bs ++ rest -> zlen bs = 4 ->
  let flags := be_val bs in
  let t := Z.land (Z.shiftr flags FRAG_TYPE_SHIFT) FRAG_TYPE_MASK in
  let seq_id := Z.land (Z.shiftr flags FRAG_SEQ_ID_SHIFT) FRAG_SEQ_ID_MASK in
  let n := Z.land (Z.shiftr flags FRAG_ID_SHIFT) FRAG_ID_MASK in
  exists b1, buf_live b1 /\ buf_contents b1 = rest /\
  let size := if t =? FRAG_YES_LAST
              then Z.shiftl (Z.land (Z.shiftr flags FRAG_SIZE_SHIFT) FRAG_SIZE_MASK) FRAG_SIZE_ROUND_SHIFT else b_len b1 in
  if (t =? FRAG_YES_NOTLAST) || (t =? FRAG_YES_LAST) then
    fragment_incoming fm buf f now =
      ('(i, list) ← fragment_list_get_buf (fm_incoming fm) seq_id;
       '(frag, res) ← frag_accept (slot list i) b1 t n size f now;
       Some (fm <| fm_incoming := set_fragment list i (fun _ => frag) |>,
             match res with Some buf => buf | None => b1 <| b_len := 0 |> end))
  else exists b', fragment_incoming fm buf f now = Some (fm, b').
Proof.
  intros Hb Hc Hz flags t seq_id n. destruct (buf_read_app buf bs rest Hb Hc) as (b1 & Hrd & L1 & C1 & _ & _ & _). rewrite Hz in Hrd.
  exists b1. split; [done|]. split; [done|]. cbn zeta. unfold fragment_incoming. rewrite Hrd.
  assert (Hl : 4 <= b_len buf) by (rewrite <- (buf_contents_length buf Hb), Hc, zlen_app, Hz; pose proof (zlen_nonneg rest); lia).
  destruct (Z.ltb_spec 0 (b_len buf)); [|lia]. cbn zeta. fold flags. fold t. fold seq_id. fold n.
  destruct (Z.eqb_spec t FRAG_WHOLE) as [Hw|Hw].
  - rewrite Hw. cbn [orb Z.eqb FRAG_WHOLE FRAG_YES_NOTLAST FRAG_YES_LAST]. destruct (negb _); by eexists.
  - destruct ((t =? FRAG_YES_NOTLAST) || (t =? FRAG_YES_LAST)); [done|]. by eexists.
Qed.

Lemma incoming_other fm buf f now : buf_live buf -> frag_touch (buf_contents buf) = None ->
  exists b', fragment_incoming fm buf f now = Some (fm, b').
Proof.
  intros Hb Ht. pose proof (buf_contents_length buf Hb) as Hlen. unfold frag_touch in Ht. destruct (Z.ltb_spec (zlen (buf_contents buf)) 4).
  - unfold fragment_incoming. destruct (0 <? b_len buf); [|by eexists]. rewrite buf_read_short by lia. by eexists.
  - destruct (incoming_header fm buf f now (take 4 (buf_contents buf)) (drop 4 (buf_contents buf)) Hb) as (b1 & _ & _ & Hin).
    { by rewrite take_drop. } { unfold zlen in *. rewrite length_take. lia. }
    cbn zeta in Ht, Hin. destruct (_ || _); [discriminate|]. exact Hin.
Qed.

Lemma incoming_touch fm buf f now s : frame_ok f -> list_ok f (fm_incoming fm) -> buf_live buf ->
  frag_touch (buf_contents buf) = Some s ->
  exists i l' frag' b', fragment_list_get_buf (fm_incoming fm) s = Some (i, l') /\ frag_ok f frag' /\
    fragment_incoming fm buf f now = Some (fm <| fm_incoming := set_fragment l' i (fun _ => frag') |>, b').
Proof.
  intros Hf Hl Hb Ht. pose proof (touch_range _ _ Ht) as Hs. unfold frag_touch in Ht.
  destruct (Z.ltb_spec (zlen (buf_contents buf)) 4); [discriminate|].
  destruct (incoming_header fm buf f now (take 4 (buf_contents buf)) (drop 4 (buf_contents buf)) Hb) as (b1 & L1 & _ & Hin).
  { by rewrite take_drop. } { unfold zlen in *. rewrite length_take. lia. }
  cbn zeta in Ht, Hin. set (flags := be_val _) in *. destruct (_ || _) in Ht, Hin; [|discriminate]. injection Ht as Ht. rewrite Ht in Hin.
  destruct (get_buf_spec f (fm_incoming fm) s Hl Hs) as (i & l' & Hget & Hl' & Hi & _). rewrite Hget in Hin. cbn [mbind option_bind] in Hin.
  match type of Hin with context [frag_accept ?fr ?b ?t ?n ?sz _ _] =>
    destruct (accept_total f fr b t n sz now Hf (slot_ok f l' i Hl' Hi) L1) as (frag' & res & Hacc & Hfr' & _) end.
  - change FRAG_ID_MASK with (Z.ones 5). rewrite Z.land_ones by lia. apply Z.mod_pos_bound. lia.
  - change FRAG_SIZE_MASK with (Z.ones 14). rewrite Z.land_ones, Z.shiftl_mul_pow2 by (unfold FRAG_SIZE_ROUND_SHIFT; lia).
    pose proof (Z.mod_pos_bound (Z.shiftr flags FRAG_SIZE_SHIFT) (2 ^ 14) ltac:(lia)). destruct L1 as [[] _]. destruct (_ =? FRAG_YES_LAST); unfold FRAG_SIZE_ROUND_SHIFT; lia.
  - rewrite Hacc in Hin. cbn [mbind option_bind] in Hin. by exists i, l', frag', (match res with Some b => b | None => b1 <| b_len := 0 |> end).
Qed.

(** What arrives: the [i]-th fragment of the datagram, or anything else. *)
Inductive arrival := Ours (i : Z) | Other.

Fixpoint fragment_receive (fm : fragment_master) (f : frame) (tr : list (buffer * Z)) : option (list buffer * fragment_master) :=
  match tr with
  | [] => Some ([], fm)
  | (buf, now) :: tr =>
      '(fm, out) ← fragment_incoming fm buf f now; '(outs, fm) ← fragment_receive fm f tr; Some (out :: outs, fm)
  end.
(** What the fragments of the datagram have to give: the datagram when the last
    missing one has arrived, nothing before. *)
Fixpoint delivered (k : Z) (data : list Z) (S : list Z) (ls : list arrival) : list (option (list Z)) :=
  match ls with
  | [] => []
  | Ours i :: ls =>
      if decide (Forall (fun j => j ∈ i :: S) (seqZ 0 k)) then Some data :: delivered k data [] ls
      else Some [] :: delivered k data (i :: S) ls
  | Other :: ls => None :: delivered k data S ls
  end.

Section Arrival.
Context (f : frame) (data : list Z) (size seq0 base : Z).
Let k : Z := n_frags (zlen data) size.
Context (Hframe : frame_ok f) (Hsize : 4 <= size < 65536) (Hmod : size mod 4 = 0) (Hseq : 0 <= seq0 < 256)
  (Hk : 1 <= k <= 32) (Hfit : frag_room f + zlen data <= BUF_SIZE f) (Hpos0 : pos base seq0 < 25).

Definition slot_state (S : list Z) (frag : fragment) : Prop :=
  (S = [] /\ fr_defined frag = false /\ frag_ok f frag) \/ asm f data size S frag.

(** The state of the window while fragments of the datagram arrive. *)
Record arriving (S : list Z) (l : fragment_list) : Prop := mkarr {
  ar_ok : list_ok f l; ar_pos : pos base (fl_seq_id l) < 25;
  ar_new : pos base (fl_seq_id l) < pos base seq0 -> S = [];
  ar_slot : pos base seq0 <= pos base (fl_seq_id l) ->
    slot_state S (slot l ((fl_index l - (pos base (fl_seq_id l) - pos base seq0)) mod 25)) }.

Lemma undefine_state l i : list_ok f l -> 0 <= i < 25 -> slot_state [] (undefine (slot l i)).
Proof. intros Hl Hi. left. destruct (slot_ok f l i Hl Hi). split; [done|]. split; [done|]. by split. Qed.

(** The buffer found for the datagram, and what storing it back gives. *)
Lemma arriving_ours S l : arriving S l ->
  exists i l', fragment_list_get_buf l seq0 = Some (i, l') /\ list_ok f l' /\ 0 <= i < 25 /\ slot_state S (slot l' i) /\
    forall S' frag', frag_ok f frag' -> slot_state S' frag' -> arriving S' (set_fragment l' i (fun _ => frag')).
Proof.
  intros [Hok Hp Hnew Hslot]. assert (Hok' := Hok). destruct Hok' as [Hsq Hidx Hlen _].
  pose proof (ahead_pos base l seq0 Hseq Hsq Hpos0 Hp) as Hah. assert (H0 : 0 <= pos base seq0) by (unfold pos; zdiv).
  assert (Hm0 : 0 <= pos base (fl_seq_id l)) by (unfold pos; zdiv).
  destruct (get_buf_spec f l seq0 Hok Hseq) as (i & l' & Hget & Hl' & Hi & Hd & _). rewrite Hah in Hd.
  destruct (Hd ltac:(lia)) as (Hii & Hle & Hgt). exists i, l'. split; [done|]. split; [done|]. split; [done|].
  assert (Hback : forall frag', frag_ok f frag' -> list_ok f (set_fragment l' i (fun _ => frag'))) by (intros; by apply set_fragment_ok).
  destruct (Z.le_gt_cases (pos base seq0) (pos base (fl_seq_id l))) as [Hcase|Hcase].
  - specialize (Hle ltac:(lia)). subst l'. assert (Hi' : i = (fl_index l - (pos base (fl_seq_id l) - pos base seq0)) mod 25) by (rewrite Hii; f_equal; lia).
    split; [rewrite Hi'; by apply Hslot|]. intros S' frag' Hok' Hst. split; [by apply Hback|done|cbn; lia|].
    intros _. cbn [fl_index fl_seq_id set_fragment upd]. rewrite slot_set by (done || lia). rewrite decide_True by (symmetry; exact Hi'). done.
  - destruct (Hgt ltac:(lia)) as (Hix & Hsx & Hsl). rewrite (Hnew Hcase). split.
    { rewrite Hsl by done. rewrite decide_True by (rewrite Hii; zdiv). by apply undefine_state. }
    intros S' frag' Hok' Hst. split; [by apply Hback|cbn; by rewrite Hsx|cbn; rewrite Hsx; lia|].
    intros _. cbn [fl_index fl_seq_id set_fragment upd]. rewrite slot_set by (done || by destruct Hl'). rewrite decide_True; [done|].
    rewrite Hix, Hsx, Z.sub_diag, Z.sub_0_r. apply Z.mod_small. lia.
Qed.

(** A packet of another datagram of the span leaves the datagram alone. *)
Lemma arriving_other S l s : arriving S l -> 0 <= s < 256 -> s <> seq0 -> pos base s < 25 ->
  exists i l', fragment_list_get_buf l s = Some (i, l') /\
    forall frag', frag_ok f frag' -> arriving S (set_fragment l' i (fun _ => frag')).
Proof.
  intros [Hok Hp Hnew Hslot] Hs Hne Hps. assert (Hok' := Hok). destruct Hok' as [Hsq Hidx Hlen _].
  pose proof (ahead_pos base l s Hs Hsq Hps Hp) as Hah. assert (H0 : 0 <= pos base seq0) by (unfold pos; zdiv).
  assert (Hm0 : 0 <= pos base (fl_seq_id l)) by (unfold pos; zdiv). assert (Hs0 : 0 <= pos base s) by (unfold pos; zdiv).
  assert (Hpne : pos base s <> pos base seq0) by (intros He; by apply Hne, (pos_inj base)).
  destruct (get_buf_spec f l s Hok Hs) as (i & l' & Hget & Hl' & Hi & Hd & _). rewrite Hah in Hd.
  destruct (Hd ltac:(lia)) as (Hii & Hle & Hgt). exists i, l'. split; [done|]. intros frag' Hfr'.
  set (p0 := pos base seq0) in *. set (m := pos base (fl_seq_id l)) in *. set (p := pos base s) in *.
  destruct (Z.le_gt_cases p m) as [Hcase|Hcase].
  - specialize (Hle ltac:(lia)). subst l'. split; [by apply set_fragment_ok|done|exact Hnew|].
    intros Hpm. cbn [fl_index fl_seq_id set_fragment upd] in *. fold m p0 in Hpm |- *. rewrite slot_set by (done || lia).
    rewrite decide_False by (rewrite Hii; zdiv). by apply Hslot.
  - destruct (Hgt ltac:(lia)) as (Hix & Hsx & Hsl). split; [by apply set_fragment_ok|cbn; by rewrite Hsx| |].
    + cbn. rewrite Hsx. fold p p0. intros Hlt. apply Hnew. lia.
    + cbn [fl_index fl_seq_id set_fragment upd]. rewrite Hsx. fold p p0. intros Hpm.
      rewrite slot_set by (done || by destruct Hl'). rewrite Hix. rewrite decide_False by (rewrite Hii; zdiv).
      rewrite Hsl by (apply Z.mod_pos_bound; lia). destruct (Z.le_gt_cases p0 m) as [Hp0m|Hp0m].
      * rewrite decide_False by (rewrite Hii; zdiv).
        replace ((i - (p - p0)) mod 25) with ((fl_index l - (m - p0)) mod 25) by (rewrite Hii; zdiv). by apply Hslot.
      * rewrite (Hnew Hp0m). rewrite decide_True by (rewrite Hii; zdiv). apply undefine_state; [done|apply Z.mod_pos_bound; lia].
Qed.

(** Before the first packet of the span the window may also be far away. *)
Definition waiting (S : list Z) (l : fragment_list) : Prop :=
  arriving S l \/ S = [] /\ list_ok f l /\ 49 <= pos base (fl_seq_id l) <= 231.

Lemma far_reset l s : list_ok f l -> 0 <= s < 256 -> pos base s < 25 -> 49 <= pos base (fl_seq_id l) <= 231 ->
  exists l', fragment_list_get_buf l s = Some (0, l') /\ list_ok f l' /\ fl_index l' = 0 /\ fl_seq_id l' = s /\
    forall j, 0 <= j < 25 -> slot l' j = undefine (slot l j).
Proof.
  intros Hok Hs Hps Hfar. assert (Hok' := Hok). destruct Hok' as [Hsq _ _ _].
  destruct (get_buf_spec f l s Hok Hs) as (i & l' & Hget & Hl' & Hi & _ & Hd).
  assert (Hah : 25 <= Z.abs (ahead l s)).
  { unfold ahead. destruct (modulo_subtract_spec s (fl_seq_id l) Hs Hsq) as (d & -> & Hr & Hm). cbn. unfold pos in *. zdiv. }
  destruct (Hd Hah) as (-> & Hi0 & Hs0 & Hsl). by exists l'.
Qed.

Lemma waiting_ours S l : waiting S l ->
  exists i l', fragment_list_get_buf l seq0 = Some (i, l') /\ list_ok f l' /\ 0 <= i < 25 /\ slot_state S (slot l' i) /\
    forall S' frag', frag_ok f frag' -> slot_state S' frag' -> waiting S' (set_fragment l' i (fun _ => frag')).
Proof.
  intros [Harr|(-> & Hok & Hfar)].
  { destruct (arriving_ours S l Harr) as (i & l' & H1 & H2 & H3 & H4 & H5). exists i, l'. do 4 (split; [done|]). intros. left. by apply H5. }
  destruct (far_reset l seq0 Hok Hseq Hpos0 Hfar) as (l' & Hget & Hl' & Hi & Hs & Hsl). exists 0, l'. split; [done|]. split; [done|]. split; [lia|].
  split; [rewrite Hsl by lia; by apply undefine_state|]. intros S' frag' Hfr' Hst. left.
  split; [by apply set_fragment_ok|cbn; by rewrite Hs|cbn; rewrite Hs; lia|]. intros _. cbn [fl_index fl_seq_id set_fragment upd].
  rewrite slot_set by (by destruct Hl'). by rewrite Hi, Hs, Z.sub_diag.
Qed.

Lemma waiting_other S l s : waiting S l -> 0 <= s < 256 -> s <> seq0 -> pos base s < 25 ->
  exists i l', fragment_list_get_buf l s = Some (i, l') /\
    forall frag', frag_ok f frag' -> waiting S (set_fragment l' i (fun _ => frag')).
Proof.
  intros [Harr|(-> & Hok & Hfar)] Hs Hne Hps.
  { destruct (arriving_other S l s Harr Hs Hne Hps) as (i & l' & H1 & H2). exists i, l'. split; [done|]. intros. left. by apply H2. }
  destruct (far_reset l s Hok Hs Hps Hfar) as (l' & Hget & Hl' & Hi & Hsq & Hsl). exists 0, l'. split; [done|]. intros frag' Hfr'. left.
  assert (Hpne : pos base s <> pos base seq0) by (intros He; by apply Hne, (pos_inj base)).
  split; [by apply set_fragment_ok|cbn; by rewrite Hsq|done|]. cbn [fl_index fl_seq_id set_fragment upd]. rewrite Hi, Hsq. intros Hle.
  assert (H0 : 0 <= pos base seq0) by (unfold pos; zdiv).
  rewrite slot_set by (by destruct Hl'). rewrite decide_False by zdiv.
  rewrite Hsl by (apply Z.mod_pos_bound; lia). apply undefine_state; [done|apply Z.mod_pos_bound; lia].
Qed.

Definition arrives (a : arrival) (x : buffer * Z) : Prop :=
  buf_live x.1 /\
  match a with
  | Ours i => 0 <= i < k /\ buf_contents x.1 = frag_packet data size seq0 i
  | Other => match frag_touch (buf_contents x.1) with Some s => s <> seq0 /\ pos base s < 25 | None => True end
  end.

Lemma waiting_ok S l : waiting S l -> list_ok f l.
Proof. intros [[]|(_ & ? & _)]; done. Qed.

Lemma incoming_ours fm S buf i now : waiting S (fm_incoming fm) -> arrives (Ours i) (buf, now) ->
  exists fm' b, fragment_incoming fm buf f now = Some (fm', b) /\ buf_live b /\
    if decide (Forall (fun j => j ∈ i :: S) (seqZ 0 k)) then waiting [] (fm_incoming fm') /\ buf_contents b = data
    else waiting (i :: S) (fm_incoming fm') /\ buf_contents b = [].
Proof.
  intros Harr [Hb [Hi Hc]]. cbn [fst] in *. set (t := if i =? k - 1 then FRAG_YES_LAST else FRAG_YES_NOTLAST).
  assert (Ht : t = 1 \/ t = 2) by (unfold t; destruct (i =? k - 1); [by right|by left]).
  assert (Hh : header_ok t seq0 i size) by (split_and!; lia).
  destruct (flags_fields t seq0 i size Hh Hmod) as (Hu & Ft & Fs & Fi & Fz).
  destruct (incoming_header fm buf f now (be32 (frag_flags t seq0 i size)) (piece data size i) Hb Hc eq_refl) as (b1 & L1 & C1 & Hin).
  cbn zeta in Hin. rewrite be32_val_id in Hin by done. rewrite Ft, Fs, Fi in Hin.
  assert (Hcond : (t =? FRAG_YES_NOTLAST) || (t =? FRAG_YES_LAST) = true) by (unfold FRAG_YES_NOTLAST, FRAG_YES_LAST; destruct Ht as [-> | ->]; done).
  rewrite Hcond in Hin. destruct (waiting_ours S _ Harr) as (j & l' & Hget & Hl' & Hj & Hst & Hback). rewrite Hget in Hin. cbn [mbind option_bind] in Hin.
  assert (Hsz : (if t =? FRAG_YES_LAST then Z.shiftl (Z.land (Z.shiftr (frag_flags t seq0 i size) FRAG_SIZE_SHIFT) FRAG_SIZE_MASK) FRAG_SIZE_ROUND_SHIFT
                 else b_len b1) = size).
  { unfold FRAG_YES_LAST. destruct (Z.eqb_spec t 2) as [H2|H2]; [by apply Fz|].
    rewrite <- (buf_contents_length b1 L1), C1. unfold t in H2. destruct (Z.eqb_spec i (k - 1)); [done|].
    apply (piece_full data size Hsize); fold k; lia. }
  rewrite Hsz in Hin. destruct (accept_ours f data size Hframe Hsize Hmod Hk Hfit S (slot l' j) b1 i now Hi L1 C1 Hst)
    as (frag' & b & Hacc & Hfr' & Lb & Hres). fold k in Hacc, Hres. fold t in Hacc. rewrite Hacc in Hin. cbn [mbind option_bind] in Hin.
  eexists _, b. split; [exact Hin|]. split; [done|]. unfold all_in in Hres. fold k in Hres. destruct (decide _) as [Hall|Hall].
  - destruct Hres as [Hdef Hcb]. split; [|done]. apply Hback; [done|]. by left.
  - destruct Hres as [Hasm Hb0]. split; [apply Hback; [done|by right]|]. pose proof (buf_contents_length b Lb) as Hz. rewrite Hb0 in Hz.
    by destruct (buf_contents b).
Qed.

Lemma receive_spec ls : forall tr S fm, Forall2 arrives ls tr -> waiting S (fm_incoming fm) ->
  exists outs fm', fragment_receive fm f tr = Some (outs, fm') /\
    Forall2 (fun e o => match e with Some c => buf_contents o = c | None => True end) (delivered k data S ls) outs.
Proof.
  induction ls as [|a ls IH]; intros tr S fm Hall Harr; inversion Hall as [|? [buf now] ? tr' Ha Hrest]; subst.
  { exists [], fm. by split. }
  destruct a as [i|]; cbn [fragment_receive delivered].
  - destruct (incoming_ours fm S buf i now Harr Ha) as (fm1 & b & -> & _ & Hb). cbn [mbind option_bind].
    destruct (decide _) as [Hfull|Hpart]; destruct Hb as [Harr1 Hc1].
    + destruct (IH tr' [] fm1 Hrest Harr1) as (outs & fm' & -> & Hf2). cbn [mbind option_bind]. eexists _, fm'. split; [done|]. by constructor.
    + destruct (IH tr' (i :: S) fm1 Hrest Harr1) as (outs & fm' & -> & Hf2). cbn [mbind option_bind]. eexists _, fm'. split; [done|]. by constructor.
  - destruct Ha as [Hb Ht]. cbn [fst] in *. assert (Hstep : exists fm1 b, fragment_incoming fm buf f now = Some (fm1, b) /\ waiting S (fm_incoming fm1)).
    { destruct (frag_touch (buf_contents buf)) as [s|] eqn:Htouch.
      - destruct (incoming_touch fm buf f now s Hframe (waiting_ok _ _ Harr) Hb Htouch) as (i & l' & frag' & b' & Hget & Hfr' & Hin).
        destruct (waiting_other S (fm_incoming fm) s Harr (touch_range _ _ Htouch)) as (i2 & l2 & Hget2 & Hback); [apply Ht|apply Ht|].
        rewrite Hget in Hget2. injection Hget2 as <- <-. eexists _, b'. split; [exact Hin|]. by apply Hback.
      - destruct (incoming_other fm buf f now Hb Htouch) as [b' Hin]. by exists fm, b'. }
    destruct Hstep as (fm1 & b & -> & Harr1). cbn [mbind option_bind].
    destruct (IH tr' S fm1 Hrest Harr1) as (outs & fm' & -> & Hf2). cbn [mbind option_bind]. eexists _, fm'. split; [done|]. by constructor.
Qed.

End Arrival.

(** ** From sender to receiver *)

Lemma frame_init_ok f frame0 random now : frame_ok f ->
  exists fm, fragment_frame_init (fragment_init frame0 random now).1 f = Some fm /\ list_ok f (fm_incoming fm) /\
    fl_seq_id (fm_incoming fm) = 0 /\ (forall i, 0 <= i < 25 -> fr_defined (slot (fm_incoming fm) i) = false) /\
    (4 <= FRAME_HEADROOM f -> 4 <= PAYLOAD_SIZE_DYNAMIC f < 65536 -> sender_ok f fm) /\
    fm_outgoing_seq_id fm = random mod 256 /\ b_len (fm_outgoing fm) = 0.
Proof.
  intros Hf. destruct (frag_room_ok f Hf) as [Hr1 Hr2]. assert (Hsize : 0 <= BUF_SIZE f < 2 ^ 20) by (destruct Hf; lia).
  destruct (alloc_buf_total (BUF_SIZE f)) as [b Hb]; [lia|]. destruct (alloc_buf_live (BUF_SIZE f) b) as (L & O & N & C); [lia|done|].
  unfold fragment_frame_init, fragment_list_buf_init. cbn [fst fragment_init fm_incoming fl_fragments].
  assert (Hm : forall n, mapM (fun frag => buf ← alloc_buf (BUF_SIZE f); Some (frag <| fr_buf := buf |>)) (replicate n frag_dummy)
    = Some (replicate n (frag_dummy <| fr_buf := b |>))).
  { intros n. apply mapM_Some_2. apply Forall2_replicate. by rewrite Hb. }
  rewrite Hm, Hb. cbn [mbind option_bind]. eexists. split; [reflexivity|]. cbn [fm_incoming fl_seq_id upd].
  split.
  { split; cbn; [lia|lia|done|]. apply Forall_replicate. split; cbn; [done|done|unfold is_u; lia]. }
  split; [done|]. split.
  { intros i Hi. unfold slot. cbn. unfold zget. destruct (Z.ltb_spec i 0); [done|]. rewrite lookup_replicate_2 by (unfold N_FRAG_BUF; lia). done. }
  assert (Hland : Z.land random (N_SEQ_ID - 1) = random mod 256) by (change (N_SEQ_ID - 1) with (Z.ones 8); by rewrite Z.land_ones by lia).
  split; [|split; [exact Hland|done]]. intros Hh Hp. split; cbn; try done. rewrite Hland. apply Z.mod_pos_bound. lia.
Qed.

(** The [i]-th packet sent, or a packet of another datagram: its sequence number,
    if it is a fragment, differs and lies in the span of 25 from [base]. *)
Definition arrives_from (sent : list (list Z)) (seq0 base : Z) (a : arrival) (x : buffer * Z) : Prop :=
  buf_live x.1 /\
  match a with
  | Ours i => 0 <= i /\ sent !! Z.to_nat i = Some (buf_contents x.1)
  | Other => match frag_touch (buf_contents x.1) with Some s => s <> seq0 /\ pos base s < 25 | None => True end
  end.

(** The window is inside the span, with no datagram in progress, or far from it. *)
Definition window_free (base : Z) (l : fragment_list) : Prop :=
  pos base (fl_seq_id l) < 25 /\ (forall i, 0 <= i < 25 -> fr_defined (slot l i) = false) \/ 49 <= pos base (fl_seq_id l) <= 231.

(** C18. A datagram above the payload size is split into the least number of
    fragments, at most 32, and a receiver that gets them, in any order, any number
    of times and between fragments of up to 24 neighbouring datagrams and other
    packets, answers with exactly the datagram when the last missing fragment
    arrives and with nothing before. *)
Theorem fragment_roundtrip f fm buf fuel fr rx base :
  sender_ok f fm -> buf_live buf -> PAYLOAD_SIZE_DYNAMIC f < b_len buf -> FRAME_HEADROOM f + b_len buf <= BUF_SIZE f ->
  b_len buf <= 32 * frag_size_for (b_len buf) (PAYLOAD_SIZE_DYNAMIC f) -> 31 <= Z.of_nat fuel ->
  frame_ok fr -> list_ok fr (fm_incoming rx) -> frag_room fr + b_len buf <= BUF_SIZE fr ->
  let seq0 := (fm_outgoing_seq_id fm + 1) mod 256 in
  pos base seq0 < 25 -> window_free base (fm_incoming rx) ->
  exists p fm1 ps fm2, fragment_outgoing fm buf f = Some (fm1, p) /\ fragment_drain fuel fm1 f = Some (ps, fm2) /\
    sender_ok f fm2 /\ b_len (fm_outgoing fm2) = 0 /\
    zlen (p :: ps) = n_frags (b_len buf) (PAYLOAD_SIZE_DYNAMIC f / 4 * 4) /\ 2 <= zlen (p :: ps) <= 32 /\
    Forall (fun q => buf_live q /\ b_len q <= PAYLOAD_SIZE_DYNAMIC f + 4) (p :: ps) /\
    forall ls tr, Forall2 (arrives_from (map buf_contents (p :: ps)) seq0 base) ls tr ->
      exists outs rx', fragment_receive rx fr tr = Some (outs, rx') /\
        Forall2 (fun e o => match e with Some c => buf_contents o = c | None => True end)
          (delivered (zlen (p :: ps)) (buf_contents buf) [] ls) outs.
Proof.
  intros Hs Hb HP Hroom Hmax Hfuel Hfr Hl Hfit seq0 Hp0 Hfree.
  destruct (outgoing_splits f fm buf fuel Hs Hb HP Hroom Hmax Hfuel) as (p & fm1 & ps & fm2 & Ho & Hd & Hlive & Hc & Hs2 & He & Hm & Hsz & Hk & Hkn).
  fold seq0 in Hc. set (size := frag_size_for _ _) in *. assert (Hlen : zlen (buf_contents buf) = b_len buf) by (by apply buf_contents_length).
  assert (Hz : zlen (p :: ps) = n_frags (b_len buf) size).
  { apply (f_equal length) in Hc. rewrite !length_map, length_seqZ in Hc. unfold zlen. lia. }
  exists p, fm1, ps, fm2. rewrite Hz. do 4 (split; [done|]). split; [done|]. split; [done|].
  assert (Hpk : forall i q, (p :: ps) !! i = Some q -> buf_contents q = frag_packet (buf_contents buf) size seq0 (Z.of_nat i) /\ Z.of_nat i < n_frags (b_len buf) size).
  { intros i q Hq. assert (Hi : (i < length (p :: ps))%nat) by (by eapply lookup_lt_Some). assert (Hi' : Z.of_nat i < n_frags (b_len buf) size) by (unfold zlen in Hz; lia).
    split; [|done]. apply (f_equal (fun l => l !! i)) in Hc. rewrite !list_lookup_fmap, Hq, lookup_seqZ_lt in Hc by lia. cbn in Hc. by injection Hc. }
  split.
  { rewrite Forall_lookup in Hlive |- *. intros i q Hq. split; [by apply (Hlive i)|]. destruct (Hpk i q Hq) as [Hcq Hi].
    rewrite <- (buf_contents_length q (Hlive i q Hq)), Hcq. unfold frag_packet. rewrite zlen_app. change (zlen (be32 _)) with 4.
    enough (zlen (mem_read (buf_contents buf) (Z.of_nat i * size) size) <= size) by lia.
    unfold mem_read, zlen. rewrite length_take. lia. }
  intros ls tr Hall. assert (Hk' : 1 <= n_frags (zlen (buf_contents buf)) size <= 32) by (rewrite Hlen; lia).
  rewrite <- Hlen. destruct Hs. eapply (receive_spec fr (buf_contents buf) size seq0 base); try done.
  - lia.
  - apply Z.mod_pos_bound. lia.
  - lia.
  - eapply Forall2_impl; [exact Hall|]. intros a [q now] [Hq Ha]. split; [done|]. destruct a as [i|]; [|done]. destruct Ha as [Hi Ha]. cbn [fst] in *.
    rewrite list_lookup_fmap in Ha. destruct ((p :: ps) !! Z.to_nat i) as [q'|] eqn:Hq'; [|discriminate]. cbn in Ha. injection Ha as Ha.
    destruct (Hpk _ _ Hq') as [Hcq Hik]. rewrite Z2Nat.id in Hcq, Hik by lia. rewrite Hlen. split; [lia|]. by rewrite <- Ha.
  - destruct Hfree as [[Hpl Hfree]|Hfar]; [left|by right]. split; [done|done|done|]. intros _. left.
    split; [done|]. split; [apply Hfree, Z.mod_pos_bound; lia|apply slot_ok; [done|apply Z.mod_pos_bound; lia]].
Qed.

Definition frag_frame_ex : frame := mkframe 300 120 10 4 0 0 0 0.
Definition datagram_ex : list Z := map (fun i => i mod 251) (seqZ 3 250).
Definition buf_ex : buffer := mkbuffer 318 16 250 (Some (replicate 16 0 ++ datagram_ex ++ replicate 52 0)).

Lemma frag_frame_ex_ok : frame_ok frag_frame_ex.
Proof. split; vm_compute; intuition discriminate. Qed.
Lemma buf_ex_live : buf_live buf_ex.
Proof.
  apply (buf_live_intro buf_ex (replicate 16 0 ++ datagram_ex ++ replicate 52 0)); try (vm_compute; (reflexivity || discriminate)).
  apply (bool_decide_unpack _). vm_compute. exact I.
Qed.

Lemma fragment_roundtrip_witness : exists fm rx p q r fm1 fm2,
  sender_ok frag_frame_ex fm /\ list_ok frag_frame_ex (fm_incoming rx) /\
  fragment_outgoing fm buf_ex frag_frame_ex = Some (fm1, p) /\ fragment_drain 31 fm1 frag_frame_ex = Some ([q; r], fm2) /\
  exists outs rx', fragment_receive rx frag_frame_ex [(r, 7); (p, 8); (r, 8); (q, 9)] = Some (outs, rx') /\
    map buf_contents outs = [[]; []; []; datagram_ex].
Proof.
  destruct (frame_init_ok frag_frame_ex frag_frame_ex 41 0 frag_frame_ex_ok) as (fm & _ & Hl & Hseq & _ & Hs & Hout & _).
  specialize (Hs ltac:(vm_compute; discriminate) ltac:(vm_compute; split; [discriminate|reflexivity])).
  assert (H42 : (fm_outgoing_seq_id fm + 1) mod 256 = 42) by (by rewrite Hout).
  assert (Hcont : buf_contents buf_ex = datagram_ex) by (vm_compute; reflexivity).
  destruct (fragment_roundtrip frag_frame_ex fm buf_ex 31 frag_frame_ex fm 42 Hs buf_ex_live)
    as (p & fm1 & ps & fm2 & Ho & Hd & _ & _ & Hz & _ & Hlive & Hrecv).
  - vm_compute. reflexivity.
  - vm_compute. discriminate.
  - vm_compute. discriminate.
  - lia.
  - exact frag_frame_ex_ok.
  - exact Hl.
  - vm_compute. discriminate.
  - rewrite H42. vm_compute. reflexivity.
  - right. rewrite Hseq. vm_compute. split; discriminate.
  - assert (H3 : n_frags (b_len buf_ex) (PAYLOAD_SIZE_DYNAMIC frag_frame_ex / 4 * 4) = 3) by (vm_compute; reflexivity). rewrite H3 in Hz.
    destruct ps as [|q [|r [|]]]; unfold zlen in Hz; cbn [length] in Hz; try lia.
    exists fm, fm, p, q, r, fm1, fm2. split; [exact Hs|]. split; [exact Hl|]. split; [exact Ho|]. split; [exact Hd|].
    apply Forall_cons in Hlive as [[Lp _] Hlive]. apply Forall_cons in Hlive as [[Lq _] Hlive]. apply Forall_cons in Hlive as [[Lr _] _].
    destruct (Hrecv [Ours 2; Ours 0; Ours 2; Ours 1] [(r, 7); (p, 8); (r, 8); (q, 9)]) as (outs & rx' & Hrun & Hdel).
    { constructor; [split; [exact Lr|split; [lia|reflexivity]]|]. constructor; [split; [exact Lp|split; [lia|reflexivity]]|].
      constructor; [split; [exact Lr|split; [lia|reflexivity]]|]. constructor; [split; [exact Lq|split; [lia|reflexivity]]|constructor]. }
    exists outs, rx'. split; [exact Hrun|]. rewrite Hcont in Hdel.
    assert (Hdv : delivered (zlen [p; q; r]) datagram_ex [] [Ours 2; Ours 0; Ours 2; Ours 1] = [Some []; Some []; Some []; Some datagram_ex])
      by (vm_compute; reflexivity).
    rewrite Hdv in Hdel. clear - Hdel.
    inversion Hdel as [|? o1 ? l1 E1 R1]; subst. inversion R1 as [|? o2 ? l2 E2 R2]; subst. inversion R2 as [|? o3 ? l3 E3 R3]; subst.
    inversion R3 as [|? o4 ? l4 E4 R4]; subst. inversion R4; subst. cbn [map]. by rewrite E1, E2, E3, E4.
Defined.

Lemma fragment_incoming_safe_witness : exists fm, list_ok frag_frame_ex (fm_incoming fm) /\
  exists fm' buf', fragment_incoming fm buf_ex frag_frame_ex 5 = Some (fm', buf') /\ buf_live buf'.
Proof.
  destruct (frame_init_ok frag_frame_ex frag_frame_ex 41 0 frag_frame_ex_ok) as (fm & _ & Hl & _). exists fm. split; [exact Hl|].
  destruct (fragment_incoming_safe frag_frame_ex fm buf_ex 5 frag_frame_ex_ok Hl buf_ex_live) as (fm' & b & Hrun & _ & Lb & _).
  exists fm', b. split; [exact Hrun|exact Lb].
Defined.

(** ** Fragments above the last one *)

Definition hostile_packet (type seq_id n size : Z) (payload : list Z) : buffer * Z :=
  let bytes := be32 (frag_flags type seq_id n size) ++ payload in
  (mkbuffer (zlen bytes) 0 (zlen bytes) (Some bytes), 0).

(** A fragment whose id is above that of the last fragment is accepted: it
    stretches the datagram over bytes nobody sent, and the datagram delivered
    repeats bytes an earlier datagram left in the reassembly buffer. *)
Theorem stale_bytes_delivered :
  let old := replicate 60 170 in let one := replicate 8 1 in let two := replicate 8 2 in let three := replicate 8 3 in
  (fm ← fragment_frame_init (fragment_init frag_frame_ex 0 0).1 frag_frame_ex;
   '(outs, _) ← fragment_receive fm frag_frame_ex
     [hostile_packet 2 0 0 60 old; hostile_packet 2 25 1 8 two; hostile_packet 1 25 5 8 three; hostile_packet 1 25 0 8 one];
   Some (map buf_contents outs)) = Some [old; []; []; one ++ two ++ replicate 24 170 ++ three].
Proof. vm_compute. reflexivity. Qed.
