(* ===== verification/Crypto.v ===== *)
(** Data channel encryption: [openvpn_encrypt] and [openvpn_decrypt] of
    [src/openvpn/crypto.c] for AEAD ciphers, for CBC, OFB and CFB ciphers with an
    HMAC, and without a cipher, with the wrappers of [crypto_openssl.c] they use.
    OpenSSL is a parameter, the class [EvpLib]; what the code relies on is the
    class [EvpLaws].  A failed assertion, a fatal message and a write past the end
    of a block are [None]. *)
From S2P Require Import Prelude Integer CircList Buffer PacketId Mtu.

(** ** The library *)

(** The functions of OpenSSL the code calls.  A context is threaded through the
    calls that change it; output goes to the caller, who stores it. *)
Class EvpLib := {
  EVP_CIPHER : Type;
  EVP_MD : Type;
  EVP_CIPHER_CTX : Type;
  HMAC_CTX : Type;
  EVP_CIPHER_nid : EVP_CIPHER -> Z;
  EVP_CIPHER_mode : EVP_CIPHER -> Z;
  EVP_CIPHER_flags : EVP_CIPHER -> Z;
  EVP_CIPHER_iv_length : EVP_CIPHER -> Z;
  EVP_CIPHER_block_size : EVP_CIPHER -> Z;
  EVP_cbc_variant : EVP_CIPHER -> option EVP_CIPHER;  (* EVP_get_cipherbyname of the name with its mode replaced by CBC *)
  EVP_CIPHER_CTX_cipher : EVP_CIPHER_CTX -> EVP_CIPHER;
  EVP_CIPHER_CTX_iv_length : EVP_CIPHER_CTX -> Z;
  EVP_CIPHER_CTX_block_size : EVP_CIPHER_CTX -> Z;
  EVP_CipherInit_ex : EVP_CIPHER_CTX -> list Z -> EVP_CIPHER_CTX * bool;
  EVP_CipherUpdate_ad : EVP_CIPHER_CTX -> list Z -> option EVP_CIPHER_CTX;
  EVP_CipherUpdate : EVP_CIPHER_CTX -> list Z -> option (EVP_CIPHER_CTX * list Z);
  EVP_CipherFinal : EVP_CIPHER_CTX -> EVP_CIPHER_CTX * option (list Z);
  EVP_CTRL_GCM_GET_TAG : EVP_CIPHER_CTX -> Z -> option (list Z);
  EVP_CTRL_GCM_SET_TAG : EVP_CIPHER_CTX -> list Z -> option EVP_CIPHER_CTX;
  HMAC_size : HMAC_CTX -> Z;
  HMAC_Init : HMAC_CTX -> HMAC_CTX;
  HMAC_Update : HMAC_CTX -> list Z -> HMAC_CTX;
  HMAC_Final : HMAC_CTX -> HMAC_CTX * list Z
}.

(** Constants of the library's headers. *)
Definition NID_aes_128_gcm : Z := 895.
Definition NID_aes_192_gcm : Z := 898.
Definition NID_aes_256_gcm : Z := 901.
Definition NID_chacha20_poly1305 : Z := 1018.
Definition EVP_CIPH_FLAG_AEAD_CIPHER : Z := 0x200000.
Definition OPENVPN_MODE_CBC : Z := 2.
Definition OPENVPN_MODE_CFB : Z := 3.
Definition OPENVPN_MODE_OFB : Z := 4.

Definition OPENVPN_MAX_IV_LENGTH : Z := 16.
Definition OPENVPN_AEAD_TAG_LENGTH : Z := 16.
Definition OPENVPN_MAX_CIPHER_BLOCK_SIZE : Z := 32.
Definition OPENVPN_MAX_HMAC_SIZE : Z := 64.
Definition OPENVPN_AEAD_MIN_IV_LEN : Z := 4 + 8.
Definition CO_PACKET_ID_LONG_FORM : Z := Z.shiftl 1 0.
Definition CO_IGNORE_PACKET_ID : Z := Z.shiftl 1 1.

Notation "'ASSERT' b ;; e" := (if b then e else None)
  (at level 100, b at next level, e at level 200, right associativity) : ovpn_scope.

Section Model.
Context `{EvpLib}.

(** ** [crypto_openssl.c] *)

Definition cipher_kt_iv_size (kt : EVP_CIPHER) : Z := EVP_CIPHER_iv_length kt.

Definition cipher_kt_mode_aead (cipher : option EVP_CIPHER) : bool :=
  match cipher with
  | Some c => existsb (Z.eqb (EVP_CIPHER_nid c))
                [NID_aes_128_gcm; NID_aes_192_gcm; NID_aes_256_gcm; NID_chacha20_poly1305]
  | None => false
  end.

Definition cipher_kt_tag_size (kt : option EVP_CIPHER) : Z :=
  if cipher_kt_mode_aead kt then OPENVPN_AEAD_TAG_LENGTH else 0.

Definition aead_flag (c : EVP_CIPHER) : bool :=
  negb (Z.land (EVP_CIPHER_flags c) EVP_CIPH_FLAG_AEAD_CIPHER =? 0).

Definition cipher_kt_mode_cbc (cipher : option EVP_CIPHER) : bool :=
  match cipher with
  | Some c => (EVP_CIPHER_mode c =? OPENVPN_MODE_CBC) && negb (aead_flag c)
  | None => false
  end.

Definition cipher_kt_mode_ofb_cfb (cipher : option EVP_CIPHER) : bool :=
  match cipher with
  | Some c => ((EVP_CIPHER_mode c =? OPENVPN_MODE_OFB) || (EVP_CIPHER_mode c =? OPENVPN_MODE_CFB))
              && negb (aead_flag c)
  | None => false
  end.

Definition cipher_ctx_get_cipher_kt (ctx : option EVP_CIPHER_CTX) : option EVP_CIPHER :=
  EVP_CIPHER_CTX_cipher <$> ctx.
Definition cipher_ctx_iv_length (ctx : EVP_CIPHER_CTX) : Z := EVP_CIPHER_CTX_iv_length ctx.
Definition cipher_ctx_block_size (ctx : EVP_CIPHER_CTX) : Z := EVP_CIPHER_CTX_block_size ctx.
Definition cipher_ctx_reset (ctx : EVP_CIPHER_CTX) (iv : list Z) : EVP_CIPHER_CTX * bool :=
  EVP_CipherInit_ex ctx iv.
(** With OpenSSL a failing [EVP_CipherUpdate] is a fatal message of the wrapper itself
    ([None]), so that the callers' own branches for a failed update are never taken. *)
Definition cipher_ctx_update_ad (ctx : EVP_CIPHER_CTX) (src : list Z) : option EVP_CIPHER_CTX :=
  EVP_CipherUpdate_ad ctx src.
Definition cipher_ctx_update (ctx : EVP_CIPHER_CTX) (src : list Z)
  : option (EVP_CIPHER_CTX * list Z) := EVP_CipherUpdate ctx src.
Definition cipher_ctx_final (ctx : EVP_CIPHER_CTX) : EVP_CIPHER_CTX * option (list Z) :=
  EVP_CipherFinal ctx.
Definition cipher_ctx_get_tag (ctx : EVP_CIPHER_CTX) (tag_size : Z) : option (list Z) :=
  EVP_CTRL_GCM_GET_TAG ctx tag_size.
Definition cipher_ctx_final_check_tag (ctx : EVP_CIPHER_CTX) (tag : list Z)
  : EVP_CIPHER_CTX * option (list Z) :=
  match EVP_CTRL_GCM_SET_TAG ctx tag with
  | None => (ctx, None)
  | Some ctx => cipher_ctx_final ctx
  end.
Definition hmac_ctx_size (ctx : HMAC_CTX) : Z := HMAC_size ctx.
Definition hmac_ctx_reset (ctx : HMAC_CTX) : HMAC_CTX := HMAC_Init ctx.
Definition hmac_ctx_update (ctx : HMAC_CTX) (src : list Z) : HMAC_CTX := HMAC_Update ctx src.
Definition hmac_ctx_final (ctx : HMAC_CTX) : HMAC_CTX * list Z := HMAC_Final ctx.

Definition cipher_kt_block_size (cipher : EVP_CIPHER) : Z :=
  match EVP_cbc_variant cipher with
  | Some cbc_cipher => EVP_CIPHER_block_size cbc_cipher
  | None => EVP_CIPHER_block_size cipher
  end.

(** ** Data *)

Record key_type := mkkt {
  kt_cipher_length : Z; kt_hmac_length : Z;
  kt_cipher : option EVP_CIPHER; kt_digest : option EVP_MD }.

Record key_ctx := mkkctx {
  kc_cipher : option EVP_CIPHER_CTX;
  kc_hmac : option HMAC_CTX;
  kc_implicit_iv : list Z;
  kc_implicit_iv_len : Z
}.
#[export] Instance eta_key_ctx : EtaOf key_ctx :=
  fun r => mkkctx (kc_cipher r) (kc_hmac r) (kc_implicit_iv r) (kc_implicit_iv_len r).

Record key_ctx_bi := mkbi { kb_encrypt : key_ctx; kb_decrypt : key_ctx; kb_initialized : bool }.
#[export] Instance eta_key_ctx_bi : EtaOf key_ctx_bi :=
  fun r => mkbi (kb_encrypt r) (kb_decrypt r) (kb_initialized r).

Record crypto_options := mkopt {
  o_key_ctx_bi : key_ctx_bi;
  o_packet_id : packet_id;
  o_pid_persist : option packet_id_persist;
  o_flags : Z
}.
#[export] Instance eta_crypto_options : EtaOf crypto_options :=
  fun r => mkopt (o_key_ctx_bi r) (o_packet_id r) (o_pid_persist r) (o_flags r).

Definition o_encrypt (opt : crypto_options) : key_ctx := kb_encrypt (o_key_ctx_bi opt).
Definition o_decrypt (opt : crypto_options) : key_ctx := kb_decrypt (o_key_ctx_bi opt).
Definition set_encrypt (opt : crypto_options) (k : key_ctx) : crypto_options :=
  opt <| o_key_ctx_bi := (o_key_ctx_bi opt) <| kb_encrypt := k |> |>.
Definition set_decrypt (opt : crypto_options) (k : key_ctx) : crypto_options :=
  opt <| o_key_ctx_bi := (o_key_ctx_bi opt) <| kb_decrypt := k |> |>.
Definition set_send (opt : crypto_options) (s : packet_id_send) : crypto_options :=
  opt <| o_packet_id := (o_packet_id opt) <| pid_send := s |> |>.
Definition o_send (opt : crypto_options) : packet_id_send := pid_send (o_packet_id opt).

Definition long_form (opt : crypto_options) : bool :=
  negb (Z.land (o_flags opt) CO_PACKET_ID_LONG_FORM =? 0).
Definition ignore_packet_id (opt : crypto_options) : bool :=
  negb (Z.land (o_flags opt) CO_IGNORE_PACKET_ID =? 0).

(** [key_ctx_update_implicit_iv]: [key] is the HMAC key of [key_len] bytes. *)
Definition key_ctx_update_implicit_iv (ctx : key_ctx) (key : list Z) (key_len : Z) : option key_ctx :=
  match cipher_ctx_get_cipher_kt (kc_cipher ctx) with
  | Some kt =>
      if cipher_kt_mode_aead (Some kt) then
        ASSERT OPENVPN_AEAD_MIN_IV_LEN <=? cipher_kt_iv_size kt ;;
        let impl_iv_len := cipher_kt_iv_size kt - 4 in
        ASSERT (impl_iv_len <=? OPENVPN_MAX_IV_LENGTH) && (impl_iv_len <=? key_len) ;;
        Some (ctx <| kc_implicit_iv := mem_write (kc_implicit_iv ctx) 0 (mem_read key 0 impl_iv_len) |>
                  <| kc_implicit_iv_len := impl_iv_len |>)
      else Some ctx
  | None => Some ctx
  end.

(** What encryption adds to a packet, counted into the frame. *)
Definition crypto_overhead (kt : key_type) (packet_id packet_id_long_form : bool) : Z :=
  (if packet_id then packet_id_size packet_id_long_form else 0)
  + match kt_cipher kt with
    | Some c => cipher_kt_iv_size c
                + (if cipher_kt_mode_aead (Some c) then cipher_kt_tag_size (Some c) else 0)
                + cipher_kt_block_size c
    | None => 0
    end
  + kt_hmac_length kt.

Definition crypto_adjust_frame_parameters (f : frame) (kt : key_type) (packet_id packet_id_long_form : bool) : frame :=
  frame_add_to_extra_frame f (crypto_overhead kt packet_id packet_id_long_form).

Definition crypto_max_overhead : Z :=
  packet_id_size true + OPENVPN_MAX_IV_LENGTH + OPENVPN_MAX_CIPHER_BLOCK_SIZE
  + max_int OPENVPN_MAX_HMAC_SIZE OPENVPN_AEAD_TAG_LENGTH.

(** [--no-replay] is refused for the modes whose vector is the packet id. *)
Definition check_replay_consistency (kt : key_type) (packet_id : bool) : option unit :=
  ASSERT negb (negb packet_id && (cipher_kt_mode_ofb_cfb (kt_cipher kt) || cipher_kt_mode_aead (kt_cipher kt))) ;;
  Some tt.

(** Output of the library stored at [p]. *)
Definition out_write (b : buffer) (p : option Z) (bs : list Z) : option buffer :=
  p ← p;
  ASSERT p + zlen bs <=? b_capacity b ;;
  Some (buf_store b p bs).

Definition buf_drop (buf : buffer) : buffer := buf <| b_len := 0 |>.

(** ** Encryption *)

(** [work] holds what was put in front of the packet already; the answer is the
    packet, of length 0 if it must be dropped. *)
Definition openvpn_encrypt_aead (now : Z) (buf work : buffer) (opt : crypto_options)
  : option (buffer * crypto_options) :=
  let ctx := o_encrypt opt in
  let cipher_kt := cipher_ctx_get_cipher_kt (kc_cipher ctx) in
  let mac_len := cipher_kt_tag_size cipher_kt in
  cipher ← kc_cipher ctx;
  ASSERT cipher_kt_mode_aead cipher_kt ;;
  ASSERT packet_id_initialized (o_packet_id opt) ;;
  let iv := replicate (Z.to_nat OPENVPN_MAX_IV_LENGTH) 0 in
  let iv_len := cipher_ctx_iv_length cipher in
  ASSERT (OPENVPN_AEAD_MIN_IV_LEN <=? iv_len) && (iv_len <=? OPENVPN_MAX_IV_LENGTH) ;;
  iv_buffer ← buf_set_write iv iv_len;
  let '(ok, send, iv_buffer) := packet_id_write now (o_send opt) iv_buffer false false in
  let opt := set_send opt send in
  if negb ok then Some (buf_drop buf, opt)
  else
    let '(ok, iv_buffer) := buf_write iv_buffer (mem_read (kc_implicit_iv ctx) 0 (kc_implicit_iv_len ctx)) in
    ASSERT ok && (b_len iv_buffer =? iv_len) ;;
    iv ← b_data iv_buffer;
    let '(ok, work) := buf_write work (mem_read iv 0 (iv_len - kc_implicit_iv_len ctx)) in
    ASSERT ok ;;
    let '(cipher, ok) := cipher_ctx_reset cipher (mem_read iv 0 iv_len) in
    let opt := set_encrypt opt (ctx <| kc_cipher := Some cipher |>) in
    ASSERT ok ;;
    let '(mac_out, work) := buf_write_alloc work mac_len in
    mac_out ← mac_out;
    if negb (buf_safe work (b_len buf + cipher_ctx_block_size cipher)) then Some (buf_drop buf, opt)
    else
      bptr ← buf_bptr work;
      cipher ← cipher_ctx_update_ad cipher (buf_load work bptr (buf_len work - mac_len));
      '(cipher, out) ← cipher_ctx_update cipher (buf_contents buf);
      work ← out_write work (buf_bend work) out;
      let '(ok, work) := buf_inc_len work (zlen out) in
      ASSERT ok ;;
      let '(cipher, out) := cipher_ctx_final cipher in
      out ← out;
      work ← out_write work (buf_bend work) out;
      let '(ok, work) := buf_inc_len work (zlen out) in
      ASSERT ok ;;
      tag ← cipher_ctx_get_tag cipher mac_len;
      work ← out_write work (Some mac_out) tag;
      Some (work, set_encrypt opt (ctx <| kc_cipher := Some cipher |>)).

(** The initialisation vector of [openvpn_encrypt_v1] and where the packet id
    goes: in front of the plaintext in CBC mode, into the vector otherwise.
    [false] is a roll-over of the packet id; [prng_bytes] is the random source. *)
Definition encrypt_v1_iv (now : Z) (prng_bytes : Z -> list Z) (buf : buffer) (opt : crypto_options)
    (cipher : EVP_CIPHER_CTX) : option (bool * list Z * buffer * crypto_options) :=
  let iv_buf := replicate (Z.to_nat OPENVPN_MAX_IV_LENGTH) 0 in
  let iv_size := cipher_ctx_iv_length cipher in
  let cipher_kt := cipher_ctx_get_cipher_kt (Some cipher) in
  if cipher_kt_mode_cbc cipher_kt then
    let iv_buf := mem_write iv_buf 0 (prng_bytes iv_size) in
    if packet_id_initialized (o_packet_id opt) then
      let '(ok, send, buf) := packet_id_write now (o_send opt) buf (long_form opt) true in
      Some (ok, iv_buf, buf, set_send opt send)
    else Some (true, iv_buf, buf, opt)
  else if cipher_kt_mode_ofb_cfb cipher_kt then
    ASSERT packet_id_initialized (o_packet_id opt) ;;
    b ← buf_set_write iv_buf iv_size;
    let '(ok, send, b) := packet_id_write now (o_send opt) b true false in
    ASSERT ok ;;
    iv_buf ← b_data b;
    Some (true, iv_buf, buf, set_send opt send)
  else None.

(** The HMAC over the bytes from [hmac_start] to the end of [work]. *)
Definition encrypt_v1_hmac (opt : crypto_options) (work : buffer) (hmac_start mac_out : option Z)
  : option (buffer * crypto_options) :=
  let ctx := o_encrypt opt in
  match kc_hmac ctx with
  | None => Some (work, opt)
  | Some hmac =>
      start ← hmac_start;
      bend ← buf_bend work;
      let hmac := hmac_ctx_reset hmac in
      let hmac := hmac_ctx_update hmac (buf_load work start (bend - start)) in
      let '(hmac, mac) := hmac_ctx_final hmac in
      work ← out_write work mac_out mac;
      Some (work, set_encrypt opt (ctx <| kc_hmac := Some hmac |>))
  end.

(** The branch with a cipher up to the HMAC; [None] in the second component is a
    dropped packet, otherwise [hmac_start] and [mac_out]. *)
Definition encrypt_v1_cipher (now : Z) (prng_bytes : Z -> list Z) (buf work : buffer) (opt : crypto_options)
    (cipher : EVP_CIPHER_CTX)
  : option (buffer * option (option Z * option Z) * crypto_options) :=
  let ctx := o_encrypt opt in
  let iv_size := cipher_ctx_iv_length cipher in
  '(mac_out, hmac_start, work) ←
    match kc_hmac ctx with
    | Some hmac =>
        let '(mac_out, work) := buf_write_alloc work (hmac_ctx_size hmac) in
        mac_out ← mac_out; Some (Some mac_out, buf_bend work, work)
    | None => Some (None, None, work)
    end;
  '(ok, iv_buf, buf, opt) ← encrypt_v1_iv now prng_bytes buf opt cipher;
  if negb ok then Some (buf_drop buf, None, opt)
  else
    let '(ok, work) := buf_write work (mem_read iv_buf 0 iv_size) in
    ASSERT ok ;;
    let '(cipher, ok) := cipher_ctx_reset cipher (mem_read iv_buf 0 iv_size) in
    ASSERT ok ;;
    let opt := set_encrypt opt (ctx <| kc_cipher := Some cipher |>) in
    if negb (buf_safe work (b_len buf + cipher_ctx_block_size cipher)) then Some (buf_drop buf, None, opt)
    else
      '(cipher, out) ← cipher_ctx_update cipher (buf_contents buf);
      work ← out_write work (buf_bend work) out;
      let '(ok, work) := buf_inc_len work (zlen out) in
      ASSERT ok ;;
      let '(cipher, out) := cipher_ctx_final cipher in
      out ← out;
      work ← out_write work (buf_bend work) out;
      let '(ok, work) := buf_inc_len work (zlen out) in
      ASSERT ok ;;
      ASSERT negb (EVP_CIPHER_mode (EVP_CIPHER_CTX_cipher cipher) =? OPENVPN_MODE_CBC)
             || (zlen out =? iv_size) ;;
      Some (work, Some (hmac_start, mac_out), set_encrypt opt (ctx <| kc_cipher := Some cipher |>)).

(** The branch without a cipher. *)
Definition encrypt_v1_plain (now : Z) (buf work : buffer) (opt : crypto_options)
  : option (buffer * option (option Z * option Z) * crypto_options) :=
  let '(ok, buf, opt) :=
    if packet_id_initialized (o_packet_id opt) then
      let '(ok, send, buf) := packet_id_write now (o_send opt) buf (long_form opt) true in
      (ok, buf, set_send opt send)
    else (true, buf, opt) in
  if negb ok then Some (buf_drop buf, None, opt)
  else
    '(hmac_start, mac_out, buf) ←
      match kc_hmac (o_encrypt opt) with
      | Some hmac =>
          let hmac_start := buf_bptr buf in
          let '(mac_out, buf) := buf_prepend buf (hmac_ctx_size hmac) in
          mac_out ← mac_out; Some (hmac_start, Some mac_out, buf)
      | None => Some (None, None, buf)
      end;
    let buf := if negb (buf_len work =? 0)
               then snd (buf_write_prepend buf (buf_contents work)) else buf in
    Some (buf, Some (hmac_start, mac_out), opt).

Definition openvpn_encrypt_v1 (now : Z) (prng_bytes : Z -> list Z) (buf work : buffer) (opt : crypto_options)
  : option (buffer * crypto_options) :=
  if 0 <? b_len buf then
    '(work, marks, opt) ←
      match kc_cipher (o_encrypt opt) with
      | Some cipher => encrypt_v1_cipher now prng_bytes buf work opt cipher
      | None => encrypt_v1_plain now buf work opt
      end;
    match marks with
    | None => Some (work, opt)
    | Some (hmac_start, mac_out) => encrypt_v1_hmac opt work hmac_start mac_out
    end
  else Some (buf, opt).

Definition openvpn_encrypt (now : Z) (prng_bytes : Z -> list Z) (buf work : buffer) (opt : option crypto_options)
  : option (buffer * option crypto_options) :=
  match opt with
  | Some opt =>
      if 0 <? b_len buf then
        '(buf, opt) ←
          (if cipher_kt_mode_aead (cipher_ctx_get_cipher_kt (kc_cipher (o_encrypt opt)))
           then openvpn_encrypt_aead now buf work opt
           else openvpn_encrypt_v1 now prng_bytes buf work opt);
        Some (buf, Some opt)
      else Some (buf, Some opt)
  | None => Some (buf, None)
  end.

(** ** Decryption *)

Definition check_replay (now : Z) (opt : crypto_options) (pin : packet_id_net)
  : option (bool * crypto_options) :=
  '(ok, rs) ← crypto_check_replay now (mkreplay (o_packet_id opt) (o_pid_persist opt) (long_form opt)) pin;
  Some (ok, opt <| o_packet_id := co_packet_id rs |> <| o_pid_persist := co_pid_persist rs |>).

(** [ad_start] is where the authenticated bytes in front of the packet begin.
    The flag is the function's result; [buf] is the plaintext, or dropped. *)
Definition openvpn_decrypt_aead (now : Z) (buf work : buffer) (opt : crypto_options) (f : frame)
    (ad_start : option Z) : option (bool * buffer * crypto_options) :=
  let ctx := o_decrypt opt in
  let cipher_kt := cipher_ctx_get_cipher_kt (kc_cipher ctx) in
  ASSERT 0 <? b_len buf ;;
  cipher ← kc_cipher ctx;
  ASSERT cipher_kt_mode_aead cipher_kt ;;
  ad_start ← ad_start;
  bptr ← buf_bptr buf;
  ASSERT (0 <=? ad_start) && (ad_start <=? bptr) ;;
  let '(ok, work) := buf_init_dowork work (FRAME_HEADROOM_ADJ f FRAME_HEADROOM_MARKER_DECRYPT) in
  ASSERT ok ;;
  ASSERT packet_id_initialized (o_packet_id opt) ;;
  let iv_len := cipher_ctx_iv_length cipher in
  let packet_iv_len := iv_len - kc_implicit_iv_len ctx in
  ASSERT kc_implicit_iv_len ctx <=? iv_len ;;
  if b_len buf + kc_implicit_iv_len ctx <? iv_len then Some (false, buf_drop buf, opt)
  else
    let iv := buf_load buf bptr packet_iv_len ++ mem_read (kc_implicit_iv ctx) 0 (kc_implicit_iv_len ctx) in
    let '(cipher, ok) := cipher_ctx_reset cipher iv in
    let opt := set_decrypt opt (ctx <| kc_cipher := Some cipher |>) in
    if negb ok then Some (false, buf_drop buf, opt)
    else
      let '(ok, pin, buf) := packet_id_read buf false in
      if negb ok then Some (false, buf_drop buf, opt)
      else
        let tag_size := cipher_kt_tag_size cipher_kt in
        if b_len buf <? tag_size then Some (false, buf_drop buf, opt)
        else
          tag_ptr ← buf_bptr buf;
          let '(ok, buf) := buf_advance buf tag_size in
          ASSERT ok ;;
          if b_len buf <? 1 then Some (false, buf_drop buf, opt)
          else if negb (buf_safe work (b_len buf + cipher_ctx_block_size cipher)) then Some (false, buf_drop buf, opt)
          else
            bptr ← buf_bptr buf;
            let ad_size := bptr - ad_start - tag_size in
            cipher ← cipher_ctx_update_ad cipher (buf_load buf ad_start ad_size);
            '(cipher, out) ← cipher_ctx_update cipher (buf_contents buf);
            wptr ← buf_bptr work;
            work ← out_write work (Some wptr) out;
            let '(ok, work) := buf_inc_len work (zlen out) in
            ASSERT ok ;;
            let '(cipher, out2) := cipher_ctx_final_check_tag cipher (buf_load buf tag_ptr tag_size) in
            let opt := set_decrypt opt (ctx <| kc_cipher := Some cipher |>) in
            match out2 with
            | None => Some (false, buf_drop buf, opt)
            | Some out2 =>
                work ← out_write work (Some (wptr + zlen out)) out2;
                let '(ok, work) := buf_inc_len work (zlen out2) in
                ASSERT ok ;;
                '(ok, opt) ← check_replay now opt pin;
                if negb (ok : bool) then Some (false, buf_drop buf, opt) else Some (true, work, opt)
            end.

(** The packet id of a packet that was decrypted by [openvpn_decrypt_v1]: in
    front of the plaintext, or in the initialisation vector.  [None] in the first
    component: no packet id is read; the flag is false if it is missing. *)
Definition decrypt_v1_pin (work : buffer) (opt : crypto_options) (cipher : EVP_CIPHER_CTX) (iv_buf : list Z)
  : option (bool * option packet_id_net * buffer) :=
  let iv_size := cipher_ctx_iv_length cipher in
  let cipher_kt := cipher_ctx_get_cipher_kt (Some cipher) in
  if cipher_kt_mode_cbc cipher_kt then
    if packet_id_initialized (o_packet_id opt) then
      let '(ok, pin, work) := packet_id_read work (long_form opt) in Some (ok, Some pin, work)
    else Some (true, None, work)
  else if cipher_kt_mode_ofb_cfb cipher_kt then
    ASSERT packet_id_initialized (o_packet_id opt) ;;
    b ← buf_set_read iv_buf iv_size;
    let '(ok, pin, _) := packet_id_read b true in Some (ok, Some pin, work)
  else None.

(** The HMAC check: [false] if the packet must be dropped. *)
Definition decrypt_v1_hmac (buf : buffer) (opt : crypto_options) : option (bool * buffer * crypto_options) :=
  let ctx := o_decrypt opt in
  match kc_hmac ctx with
  | None => Some (true, buf, opt)
  | Some hmac =>
      let hmac := hmac_ctx_reset hmac in
      let hmac_len := hmac_ctx_size hmac in
      let opt1 := set_decrypt opt (ctx <| kc_hmac := Some hmac |>) in
      if b_len buf <? hmac_len then Some (false, buf, opt1)
      else
        bptr ← buf_bptr buf;
        let hmac := hmac_ctx_update hmac (buf_load buf (bptr + hmac_len) (buf_len buf - hmac_len)) in
        let '(hmac, local_hmac) := hmac_ctx_final hmac in
        let opt := set_decrypt opt (ctx <| kc_hmac := Some hmac |>) in
        if negb (bytes_eqb (take (Z.to_nat hmac_len) local_hmac) (buf_load buf bptr hmac_len))
        then Some (false, buf, opt)
        else
          let '(ok, buf) := buf_advance buf hmac_len in
          ASSERT ok ;;
          Some (true, buf, opt)
  end.

(** The branch with a cipher: the flag, the packet to go on with (the plaintext
    if the flag is set), and the packet id. *)
Definition decrypt_v1_cipher (buf work : buffer) (opt : crypto_options) (f : frame) (cipher : EVP_CIPHER_CTX)
  : option (bool * buffer * option packet_id_net * crypto_options) :=
  let ctx := o_decrypt opt in
  let iv_size := cipher_ctx_iv_length cipher in
  let '(ok, work) := buf_init_dowork work (FRAME_HEADROOM_ADJ f FRAME_HEADROOM_MARKER_DECRYPT) in
  ASSERT ok ;;
  if b_len buf <? iv_size then Some (false, buf, None, opt)
  else
    bptr ← buf_bptr buf;
    let iv_buf := buf_load buf bptr iv_size in
    let '(ok, buf) := buf_advance buf iv_size in
    ASSERT ok ;;
    if b_len buf <? 1 then Some (false, buf, None, opt)
    else
      let '(cipher, ok) := cipher_ctx_reset cipher iv_buf in
      let opt := set_decrypt opt (ctx <| kc_cipher := Some cipher |>) in
      if negb ok then Some (false, buf, None, opt)
      else if negb (buf_safe work (b_len buf + cipher_ctx_block_size cipher)) then Some (false, buf, None, opt)
      else
        '(cipher, out) ← cipher_ctx_update cipher (buf_contents buf);
        wptr ← buf_bptr work;
        work ← out_write work (Some wptr) out;
        let '(ok, work) := buf_inc_len work (zlen out) in
        ASSERT ok ;;
        let '(cipher, out2) := cipher_ctx_final cipher in
        let opt := set_decrypt opt (ctx <| kc_cipher := Some cipher |>) in
        match out2 with
        | None => Some (false, buf, None, opt)
        | Some out2 =>
            work ← out_write work (Some (wptr + zlen out)) out2;
            let '(ok, work) := buf_inc_len work (zlen out2) in
            ASSERT ok ;;
            '(ok, pin, work) ← decrypt_v1_pin work opt cipher iv_buf;
            Some (ok : bool, if ok then work else buf, pin, opt)
        end.

(** The branch without a cipher. *)
Definition decrypt_v1_plain (buf : buffer) (opt : crypto_options)
  : bool * buffer * option packet_id_net :=
  if packet_id_initialized (o_packet_id opt) then
    let '(ok, pin, work) := packet_id_read buf (long_form opt) in
    if negb ok then (false, buf, None)
    else (true, work, if ignore_packet_id opt then None else Some pin)
  else (true, buf, None).

Definition openvpn_decrypt_v1 (now : Z) (buf work : buffer) (opt : crypto_options) (f : frame)
  : option (bool * buffer * crypto_options) :=
  if 0 <? b_len buf then
    '(ok, buf, opt) ← decrypt_v1_hmac buf opt;
    if negb ok then Some (false, buf_drop buf, opt)
    else
      '(ok, work, pin, opt) ←
        match kc_cipher (o_decrypt opt) with
        | Some cipher => decrypt_v1_cipher buf work opt f cipher
        | None => let '(ok, work, pin) := decrypt_v1_plain buf opt in Some (ok, work, pin, opt)
        end;
      if negb (ok : bool) then Some (false, buf_drop work, opt)
      else
        match pin with
        | Some pin =>
            '(ok, opt) ← check_replay now opt pin;
            if negb (ok : bool) then Some (false, buf_drop buf, opt) else Some (true, work, opt)
        | None => Some (true, work, opt)
        end
  else Some (true, buf, opt).

Definition openvpn_decrypt (now : Z) (buf work : buffer) (opt : option crypto_options) (f : frame)
    (ad_start : option Z) : option (bool * buffer * option crypto_options) :=
  match opt with
  | Some opt =>
      if 0 <? b_len buf then
        '(ret, buf, opt) ←
          (if cipher_kt_mode_aead (cipher_ctx_get_cipher_kt (kc_cipher (o_decrypt opt)))
           then openvpn_decrypt_aead now buf work opt f ad_start
           else openvpn_decrypt_v1 now buf work opt f);
        Some (ret, buf, Some opt)
      else Some (true, buf, Some opt)
  | None => Some (true, buf, None)
  end.

End Model.

(** ** What the code relies on *)

(** The documented behaviour of the library, packet by packet: [seal] and [unseal]
    are the AEAD transformation under a key, [encipher] and [decipher] that of the
    other modes, [hmac] the message authentication code.  Nothing is said about
    their secrecy or about what cannot be forged. *)
Class EvpLaws `{EvpLib} := {
  ckey : Type;
  hkey : Type;
  ck_cipher : ckey -> EVP_CIPHER;
  ck_block : ckey -> Z;
  encrypts : ckey -> EVP_CIPHER_CTX -> Prop;
  decrypts : ckey -> EVP_CIPHER_CTX -> Prop;
  hmacs : hkey -> HMAC_CTX -> Prop;
  hmac_len : hkey -> Z;
  seal : ckey -> list Z -> list Z -> list Z -> list Z * list Z;
  unseal : ckey -> list Z -> list Z -> list Z -> list Z -> option (list Z);
  encipher : ckey -> list Z -> list Z -> list Z;
  decipher : ckey -> list Z -> list Z -> option (list Z);
  hmac : hkey -> list Z -> list Z;
  law_ctx k c : encrypts k c \/ decrypts k c ->
    EVP_CIPHER_CTX_cipher c = ck_cipher k /\
    EVP_CIPHER_CTX_iv_length c = EVP_CIPHER_iv_length (ck_cipher k) /\
    EVP_CIPHER_CTX_block_size c = ck_block k;
  law_block k : 1 <= ck_block k <= cipher_kt_block_size (ck_cipher k);
  law_seal k c iv ad p : encrypts k c -> cipher_kt_mode_aead (Some (ck_cipher k)) = true ->
    zlen iv = EVP_CIPHER_iv_length (ck_cipher k) -> Forall is_byte p ->
    exists c1 c2 c3 c4 u f,
      EVP_CipherInit_ex c iv = (c1, true) /\ EVP_CipherUpdate_ad c1 ad = Some c2 /\
      EVP_CipherUpdate c2 p = Some (c3, u) /\ EVP_CipherFinal c3 = (c4, Some f) /\
      EVP_CTRL_GCM_GET_TAG c4 OPENVPN_AEAD_TAG_LENGTH = Some (snd (seal k iv ad p)) /\
      u ++ f = fst (seal k iv ad p) /\ encrypts k c1 /\ encrypts k c4;
  law_seal_size k iv ad p : Forall is_byte p ->
    zlen p <= zlen (fst (seal k iv ad p)) <= zlen p + ck_block k /\
    zlen (snd (seal k iv ad p)) = OPENVPN_AEAD_TAG_LENGTH /\
    Forall is_byte (fst (seal k iv ad p)) /\ Forall is_byte (snd (seal k iv ad p));
  law_unseal k c iv ad ct : decrypts k c -> cipher_kt_mode_aead (Some (ck_cipher k)) = true ->
    zlen iv = EVP_CIPHER_iv_length (ck_cipher k) -> Forall is_byte ct ->
    exists c1 c2 c3 u,
      EVP_CipherInit_ex c iv = (c1, true) /\ EVP_CipherUpdate_ad c1 ad = Some c2 /\
      EVP_CipherUpdate c2 ct = Some (c3, u) /\ decrypts k c1 /\
      zlen u <= zlen ct + ck_block k /\ Forall is_byte u /\
      forall tag, zlen tag = OPENVPN_AEAD_TAG_LENGTH ->
        exists c4 c5, EVP_CTRL_GCM_SET_TAG c3 tag = Some c4 /\ decrypts k c5 /\
          match unseal k iv ad ct tag with
          | Some p => exists f, EVP_CipherFinal c4 = (c5, Some f) /\ u ++ f = p
          | None => EVP_CipherFinal c4 = (c5, None)
          end;
  law_unseal_size k iv ad ct tag p : Forall is_byte ct -> unseal k iv ad ct tag = Some p ->
    zlen p <= zlen ct + ck_block k /\ Forall is_byte p;
  law_unseal_seal k iv ad p : Forall is_byte p ->
    unseal k iv ad (fst (seal k iv ad p)) (snd (seal k iv ad p)) = Some p;
  law_encipher k c iv p : encrypts k c -> cipher_kt_mode_aead (Some (ck_cipher k)) = false ->
    zlen iv = EVP_CIPHER_iv_length (ck_cipher k) -> Forall is_byte p ->
    exists c1 c3 c4 u f,
      EVP_CipherInit_ex c iv = (c1, true) /\ EVP_CipherUpdate c1 p = Some (c3, u) /\
      EVP_CipherFinal c3 = (c4, Some f) /\ u ++ f = encipher k iv p /\
      encrypts k c1 /\ encrypts k c4 /\
      (EVP_CIPHER_mode (ck_cipher k) = OPENVPN_MODE_CBC -> zlen f = zlen iv);
  law_encipher_size k iv p : Forall is_byte p ->
    zlen p <= zlen (encipher k iv p) <= zlen p + ck_block k /\ Forall is_byte (encipher k iv p);
  law_decipher k c iv ct : decrypts k c -> cipher_kt_mode_aead (Some (ck_cipher k)) = false ->
    zlen iv = EVP_CIPHER_iv_length (ck_cipher k) -> Forall is_byte ct ->
    exists c1 c3 c4 u,
      EVP_CipherInit_ex c iv = (c1, true) /\ EVP_CipherUpdate c1 ct = Some (c3, u) /\
      decrypts k c1 /\ decrypts k c4 /\
      zlen u <= zlen ct + ck_block k /\ Forall is_byte u /\
      match decipher k iv ct with
      | Some p => exists f, EVP_CipherFinal c3 = (c4, Some f) /\ u ++ f = p
      | None => EVP_CipherFinal c3 = (c4, None)
      end;
  law_decipher_size k iv ct p : Forall is_byte ct -> decipher k iv ct = Some p ->
    zlen p <= zlen ct + ck_block k /\ Forall is_byte p;
  law_decipher_encipher k iv p : Forall is_byte p -> decipher k iv (encipher k iv p) = Some p;
  law_hmac h c d : hmacs h c ->
    HMAC_size c = hmac_len h /\ hmacs h (HMAC_Init c) /\ HMAC_size (HMAC_Init c) = hmac_len h /\
    exists c', HMAC_Final (HMAC_Update (HMAC_Init c) d) = (c', hmac h d) /\ hmacs h c';
  law_hmac_size h d : 0 <= hmac_len h <= OPENVPN_MAX_HMAC_SIZE /\ zlen (hmac h d) = hmac_len h /\
    Forall is_byte (hmac h d)
}.

(** ** Specification: packets as byte strings *)

Section Spec.
Context `{EvpLaws}.

(** The keys of one direction. *)
Record keys := mkkeys { sk_cipher : option ckey; sk_hmac : option hkey; sk_implicit : list Z }.

(** The options both ends agree on: packet ids in use, their long form, and
    whether the receiver ignores them. *)
Record pid_conf := mkconf { pc_on : bool; pc_long : bool; pc_ignore : bool }.

Definition iv_len (k : ckey) : Z := EVP_CIPHER_iv_length (ck_cipher k).
Definition is_aead (k : ckey) : bool := cipher_kt_mode_aead (Some (ck_cipher k)).
Definition is_cbc (k : ckey) : bool := cipher_kt_mode_cbc (Some (ck_cipher k)).
Definition is_stream (k : ckey) : bool := cipher_kt_mode_ofb_cfb (Some (ck_cipher k)).

Definition pid_bytes (long : bool) (s : packet_id_send) : list Z :=
  be32 (s_id s) ++ (if long then be32 (u32 (s_time s)) else []).

Definition pid_parse (long : bool) (bs : list Z) : option (packet_id_net * list Z) :=
  let n := if long then 8 else 4 in
  if zlen bs <? n then None
  else Some (mknet (be_val (take 4 bs)) (if long then be_val (take 4 (drop 4 bs)) else 0),
             drop (Z.to_nat n) bs).

Definition mac (K : keys) (data : list Z) : list Z :=
  match sk_hmac K with Some h => hmac h data | None => [] end.
Definition mac_len (K : keys) : Z :=
  match sk_hmac K with Some h => hmac_len h | None => 0 end.

(** Initialisation vector and packet id in the plaintext of the other modes. *)
Definition cipher_iv (k : ckey) (rnd : list Z) (s : packet_id_send) : list Z :=
  if is_cbc k then rnd else pid_bytes true s ++ replicate (Z.to_nat (iv_len k - 8)) 0.
Definition cipher_id (k : ckey) (cf : pid_conf) (s : packet_id_send) : list Z :=
  if is_cbc k && pc_on cf then pid_bytes (pc_long cf) s else [].

(** What the sender appends to [hdr]: [s] is the packet id, [rnd] the random vector. *)
Definition seal_tail (K : keys) (cf : pid_conf) (hdr rnd : list Z) (s : packet_id_send) (p : list Z) : list Z :=
  match sk_cipher K with
  | Some k =>
      if is_aead k then
        let id := pid_bytes false s in
        let c := seal k (id ++ sk_implicit K) (hdr ++ id) p in
        id ++ snd c ++ fst c
      else
        let iv := cipher_iv k rnd s in
        let body := iv ++ encipher k iv (cipher_id k cf s ++ p) in
        mac K body ++ body
  | None =>
      let body := (if pc_on cf then pid_bytes (pc_long cf) s else []) ++ p in
      mac K body ++ body
  end.

Definition seal_packet (K : keys) (cf : pid_conf) (hdr rnd : list Z) (s : packet_id_send) (p : list Z) : list Z :=
  hdr ++ seal_tail K cf hdr rnd s p.

(** The form of the packet id of the sender. *)
Definition id_long (K : keys) (cf : pid_conf) : bool :=
  match sk_cipher K with
  | Some k => if is_aead k then false else if is_cbc k then pc_long cf else true
  | None => pc_long cf
  end.

Definition seal_step (now : Z) (K : keys) (cf : pid_conf) (hdr rnd : list Z) (s : packet_id_send) (p : list Z)
  : packet_id_send * option (list Z) :=
  if pc_on cf then
    let '(ok, s) := packet_id_send_update now s (id_long K cf) in
    (s, if ok : bool then Some (seal_packet K cf hdr rnd s p) else None)
  else (s, Some (seal_packet K cf hdr rnd s p)).

(** The receiver's side: the HMAC in front of a body, ... *)
Definition mac_fails (K : keys) (w : list Z) : bool :=
  (zlen w <? mac_len K)
  || negb (bytes_eqb (mac K (drop (Z.to_nat (mac_len K)) w)) (take (Z.to_nat (mac_len K)) w)).

(** ... the body with a cipher: vector, then ciphertext, ... *)
Definition open_pin (k : ckey) (cf : pid_conf) (iv pt : list Z) : option (option packet_id_net * list Z) :=
  if is_cbc k then
    if pc_on cf then '(pin, p) ← pid_parse (pc_long cf) pt; Some (Some pin, p)
    else Some (None, pt)
  else '(pin, _) ← pid_parse true iv; Some (Some pin, pt).

Definition open_body (k : ckey) (cf : pid_conf) (body : list Z) : option (option packet_id_net * list Z) :=
  if zlen body <? iv_len k + 1 then None
  else
    let iv := take (Z.to_nat (iv_len k)) body in
    pt ← decipher k iv (drop (Z.to_nat (iv_len k)) body);
    open_pin k cf iv pt.

(** ... and without one. *)
Definition open_plain (cf : pid_conf) (body : list Z) : option (option packet_id_net * list Z) :=
  if pc_on cf then
    '(pin, p) ← pid_parse (pc_long cf) body;
    Some (if pc_ignore cf then None else Some pin, p)
  else Some (None, body).

(** An AEAD packet: packet id, tag, ciphertext. *)
Definition open_aead (K : keys) (k : ckey) (hdr w : list Z) : option (option packet_id_net * list Z) :=
  if zlen w <? 4 + OPENVPN_AEAD_TAG_LENGTH + 1 then None
  else
    let id := take 4 w in
    let tag := take (Z.to_nat OPENVPN_AEAD_TAG_LENGTH) (drop 4 w) in
    let ct := drop (Z.to_nat OPENVPN_AEAD_TAG_LENGTH) (drop 4 w) in
    p ← unseal k (id ++ sk_implicit K) (hdr ++ id) ct tag;
    Some (Some (mknet (be_val id) 0), p).

(** What the receiver makes of the bytes behind [hdr]: the packet id to check, if
    any, and the payload. *)
Definition open_packet (K : keys) (cf : pid_conf) (hdr w : list Z) : option (option packet_id_net * list Z) :=
  let body := drop (Z.to_nat (mac_len K)) w in
  match sk_cipher K with
  | Some k =>
      if is_aead k then open_aead K k hdr w
      else if mac_fails K w then None else open_body k cf body
  | None => if mac_fails K w then None else open_plain cf body
  end.

Definition id_size (cf : pid_conf) : Z := if pc_on cf then packet_id_size (pc_long cf) else 0.

(** The type of the keys. *)
Definition keys_type (K : keys) (kt : key_type) : Prop :=
  kt_cipher kt = ck_cipher <$> sk_cipher K /\ kt_hmac_length kt = mac_len K.

(** What set-up guarantees: the mode is one the code supports, and replay
    protection is on where the mode needs it. *)
Definition keys_ok (K : keys) (cf : pid_conf) : Prop :=
  match sk_cipher K with
  | Some k =>
      if is_aead k then
        pc_on cf = true /\ OPENVPN_AEAD_MIN_IV_LEN <= iv_len k <= OPENVPN_MAX_IV_LENGTH /\
        zlen (sk_implicit K) = iv_len k - 4 /\ Forall is_byte (sk_implicit K)
      else if is_cbc k then 0 <= iv_len k <= OPENVPN_MAX_IV_LENGTH
      else is_stream k = true /\ pc_on cf = true /\ 8 <= iv_len k <= OPENVPN_MAX_IV_LENGTH
  | None => True
  end.

End Spec.

(** ** Buffers *)

Lemma be32_len z : zlen (be32 z) = 4.
Proof. reflexivity. Qed.

(** The library's output appended to a buffer. *)
Lemma append_out b bs : buf_live b -> zlen bs <= b_capacity b - b_offset b - b_len b -> Forall is_byte bs ->
  exists b1 b2, out_write b (buf_bend b) bs = Some b1 /\ buf_inc_len b1 (zlen bs) = (true, b2) /\
    buf_live b2 /\ buf_contents b2 = buf_contents b ++ bs /\
    b_capacity b2 = b_capacity b /\ b_offset b2 = b_offset b /\ b_len b2 = b_len b + zlen bs.
Proof.
  intros Hb Hr Hbs. destruct (buf_write_room b bs Hb Hr Hbs) as (b' & Hw & L & C & Ec & Eo & El).
  assert (Hb' := Hb). destruct Hb' as [[? ? ? ? ? ?] _]. pose proof (zlen_nonneg bs). rewrite BUF_SIZE_MAX_eq in *.
  unfold buf_bend, out_write. rewrite buf_live_bptr, buf_live_len by done. cbn.
  destruct (Z.leb_spec (b_offset b + b_len b + zlen bs) (b_capacity b)); [|lia].
  eexists _, b'. split; [reflexivity|]. split; [|done].
  revert Hw. unfold buf_write, buf_write_alloc. destruct (buf_safe b (zlen bs)); cbn [negb]; [|done].
  rewrite buf_live_bptr by done. cbn. intros [= <-].
  unfold buf_inc_len, buf_safe_bidir, buf_valid, buf_defined, buf_size_valid_signed. cbn.
  destruct (buf_live_data b Hb) as (d & Hd & _). rewrite Hd. cbn. rewrite buf_size_min_eq, BUF_SIZE_MAX_eq.
  destruct (Z.leb_spec 0 (b_len b)), (Z.leb_spec (-2097152) (zlen bs)), (Z.ltb_spec (zlen bs) 2097152),
    (Z.leb_spec 0 (b_len b + zlen bs)), (Z.leb_spec (b_offset b + (b_len b + zlen bs)) (b_capacity b)); try lia.
  reflexivity.
Qed.

(** The two outputs of a transformation, one behind the other. *)
Lemma append_outs b p u v : buf_live b -> buf_bend b = Some p -> Forall is_byte (u ++ v) ->
  zlen (u ++ v) <= b_capacity b - b_offset b - b_len b ->
  exists b1 b2 b3 b4, out_write b (Some p) u = Some b1 /\ buf_inc_len b1 (zlen u) = (true, b2) /\
    buf_bend b2 = Some (p + zlen u) /\ out_write b2 (Some (p + zlen u)) v = Some b3 /\
    buf_inc_len b3 (zlen v) = (true, b4) /\
    buf_live b4 /\ buf_contents b4 = buf_contents b ++ u ++ v /\
    b_capacity b4 = b_capacity b /\ b_offset b4 = b_offset b /\ b_len b4 = b_len b + zlen (u ++ v).
Proof.
  intros Hb Hp [Hu Hv]%Forall_app Hr. rewrite zlen_app in *. pose proof (zlen_nonneg u). pose proof (zlen_nonneg v).
  destruct (append_out b u Hb) as (b1 & b2 & E1 & E2 & L2 & C2 & Ec & Eo & El); [lia|done|].
  destruct (append_out b2 v L2) as (b3 & b4 & E3 & E4 & L4 & C4 & ? & ? & ?); [lia|done|]. rewrite Hp in E1.
  assert (Hp2 : buf_bend b2 = Some (p + zlen u)).
  { revert Hp. unfold buf_bend. rewrite !buf_live_bptr, !buf_live_len by done. cbn. intros [= <-]. f_equal. lia. }
  rewrite Hp2 in E3. exists b1, b2, b3, b4. split_and!; try done; try lia. by rewrite C4, C2, <- app_assoc.
Qed.

Lemma app_inj_zlen {A} (l1 l2 k1 k2 : list A) : zlen l1 = zlen k1 -> l1 ++ l2 = k1 ++ k2 -> l1 = k1 /\ l2 = k2.
Proof. unfold zlen. intros H E. apply app_inj_1 in E; [done|lia]. Qed.

(** A part of the contents, read from the block. *)
Lemma load_middle b pre mid post : buf_live b -> buf_contents b = pre ++ mid ++ post ->
  buf_load b (b_offset b + zlen pre) (zlen mid) = mid.
Proof.
  intros Hb Hc. pose proof (buf_contents_length b Hb) as Hl. destruct (buf_live_data b Hb) as (d & Hd & Hz & _).
  assert (Hw := Hb). destruct Hw as [[_ ? _ ? _ _] _]. rewrite Hc, !zlen_app in Hl.
  pose proof (zlen_nonneg pre). pose proof (zlen_nonneg mid). pose proof (zlen_nonneg post).
  rewrite (buf_contents_live b d Hb Hd), <- Hl, !mem_read_app in Hc by lia. unfold buf_load. rewrite Hd.
  apply app_inj_zlen in Hc as [_ Hc]; [|apply mem_read_length; lia].
  apply app_inj_zlen in Hc as [Hc _]; [done|]. apply mem_read_length; lia.
Qed.

Lemma load_front b pre rest : buf_live b -> buf_contents b = pre ++ rest -> buf_load b (b_offset b) (zlen pre) = pre.
Proof.
  intros Hb Hc. pose proof (load_middle b [] pre rest Hb Hc) as Hm. rewrite zlen_nil, Z.add_0_r in Hm. done.
Qed.

Lemma load_back b pre rest : buf_live b -> buf_contents b = pre ++ rest ->
  buf_load b (b_offset b + zlen pre) (zlen rest) = rest.
Proof. intros Hb Hc. apply (load_middle b pre rest []); [done|]. by rewrite app_nil_r. Qed.

(** Room left for a result the library delivers later ... *)
Lemma write_alloc_room b n : buf_live b -> 0 <= n <= b_capacity b - b_offset b - b_len b ->
  exists b' hole, buf_write_alloc b n = (Some (b_offset b + b_len b), b') /\ buf_live b' /\
    buf_contents b' = buf_contents b ++ hole /\ zlen hole = n /\
    b_capacity b' = b_capacity b /\ b_offset b' = b_offset b /\ b_len b' = b_len b + n.
Proof.
  intros Hb Hn. destruct (buf_live_data b Hb) as (d & Hd & Hl & Hf).
  assert (Hw := Hb). destruct Hw as [[] Hdef]. rewrite BUF_SIZE_MAX_eq in *.
  assert (Hs : buf_safe b n = true).
  { unfold buf_safe. rewrite buf_live_valid by done.
    rewrite buf_size_valid_spec by lia. cbn. rewrite !andb_true_iff, !Z.leb_le, Z.ltb_lt. lia. }
  unfold buf_write_alloc. rewrite Hs, buf_live_bptr by done. cbn.
  set (b1 := b <| b_len := b_len b + n |>).
  assert (L : buf_live b1) by (eapply buf_live_intro; cbn; rewrite ?BUF_SIZE_MAX_eq; eauto; lia).
  exists b1, (mem_read d (b_offset b + b_len b) n). split_and!; try done.
  - rewrite (buf_contents_live b1 d L Hd), (buf_contents_live b d Hb Hd). cbn.
    rewrite mem_read_app by lia. done.
  - apply mem_read_length; lia.
Qed.

(** ... and filled in then. *)
Lemma out_write_patch b pre hole post bs : buf_live b -> buf_contents b = pre ++ hole ++ post ->
  zlen bs = zlen hole -> Forall is_byte bs ->
  exists b', out_write b (Some (b_offset b + zlen pre)) bs = Some b' /\ buf_live b' /\
    buf_contents b' = pre ++ bs ++ post /\
    b_capacity b' = b_capacity b /\ b_offset b' = b_offset b /\ b_len b' = b_len b.
Proof.
  intros Hb Hc Hz Hbs. pose proof (buf_contents_length b Hb) as Hlen. rewrite Hc, !zlen_app in Hlen.
  destruct (buf_live_data b Hb) as (d & Hd & Hl & Hf). assert (Hw := Hb). destruct Hw as [[] Hdef].
  pose proof (zlen_nonneg pre). pose proof (zlen_nonneg hole). pose proof (zlen_nonneg post).
  unfold out_write. cbn. destruct (Z.leb_spec (b_offset b + zlen pre + zlen bs) (b_capacity b)); [|lia].
  set (b1 := buf_store _ _ _). assert (Hd1 : b_data b1 = Some (mem_write d (b_offset b + zlen pre) bs)).
  { unfold b1, buf_store. cbn. by rewrite Hd. }
  assert (L : buf_live b1).
  { eapply buf_live_intro; [exact Hd1|..]; cbn; try lia; auto with ovpn. rewrite zlen_mem_write; lia. }
  exists b1. split_and!; try done.
  rewrite (buf_contents_live b1 _ L Hd1). rewrite (buf_contents_live b d Hb Hd) in Hc. cbn.
  replace (b_len b) with (zlen pre + (zlen bs + zlen post)) in * by lia.
  rewrite !mem_read_app in * by lia.
  apply app_inj_zlen in Hc as [Hp Hc]; [|apply mem_read_length; lia].
  apply app_inj_zlen in Hc as [_ Hq]; [|rewrite mem_read_length; lia].
  rewrite mem_read_write_before by lia. rewrite mem_read_write_eq by lia. rewrite mem_read_write_after by lia.
  by rewrite Hp, Hq.
Qed.

(** The first bytes of the contents replaced. *)
Lemma buf_store_front b src pre rest : buf_live b -> Forall is_byte src -> buf_contents b = pre ++ rest -> zlen src = zlen pre ->
  buf_live (buf_store b (b_offset b) src) /\ buf_contents (buf_store b (b_offset b) src) = src ++ rest.
Proof.
  intros Hb Hs Hc Hz. destruct (buf_live_data b Hb) as (d & Hd & Hl & Hf). assert (Hw := Hb). destruct Hw as [[] _].
  pose proof (buf_contents_length b Hb) as Hlen. rewrite Hc, zlen_app in Hlen. pose proof (zlen_nonneg pre). pose proof (zlen_nonneg rest).
  assert (Hd' : b_data (buf_store b (b_offset b) src) = Some (mem_write d (b_offset b) src)) by (unfold buf_store; cbn; by rewrite Hd).
  assert (L : buf_live (buf_store b (b_offset b) src)).
  { eapply buf_live_intro; [exact Hd'|..]; cbn; try lia; [rewrite zlen_mem_write; lia|auto with ovpn]. }
  split; [done|]. rewrite (buf_contents_live _ _ L Hd'). rewrite (buf_contents_live b d Hb Hd) in Hc. cbn.
  replace (b_len b) with (zlen src + zlen rest) in * by lia. rewrite mem_read_app, mem_read_write_eq by lia. f_equal.
  rewrite Hz in Hc |- *. rewrite mem_read_app in Hc by lia. apply app_inj_zlen in Hc as [_ Hr]; [|apply mem_read_length; lia].
  etransitivity; [|exact Hr]. apply mem_read_write_after; lia.
Qed.

Lemma safe_room b n : buf_live b -> 0 <= n -> b_offset b + b_len b + n <= b_capacity b -> buf_safe b n = true.
Proof.
  intros Hb Hn Hr. assert (Hw := Hb). destruct Hw as [[? ? ? ? _ _] _]. rewrite BUF_SIZE_MAX_eq in *.
  unfold buf_safe. rewrite buf_live_valid, buf_size_valid_spec by (done || lia). cbn.
  rewrite !andb_true_iff, !Z.leb_le, Z.ltb_lt. lia.
Qed.

(** Writing to a buffer over a longer array, as [buf_set_write] makes it. *)
Lemma raw_write cap off len d bs : 0 <= off -> 0 <= len -> cap < BUF_SIZE_MAX -> off + len + zlen bs <= cap ->
  buf_write (mkbuffer cap off len (Some d)) bs
  = (true, mkbuffer cap off (len + zlen bs) (Some (mem_write d (off + len) bs))).
Proof.
  intros Ho Hl Hc Hr. pose proof (zlen_nonneg bs). rewrite BUF_SIZE_MAX_eq in *.
  unfold buf_write, buf_write_alloc, buf_safe, buf_valid, buf_bptr, buf_valid, buf_defined. cbn.
  rewrite buf_size_valid_spec by lia.
  destruct (Z.leb_spec 0 len), (Z.leb_spec 0 (zlen bs)), (Z.ltb_spec (zlen bs) (2 ^ 21)),
    (Z.leb_spec (off + len + zlen bs) cap), (Z.leb_spec 0 (len + zlen bs)); try lia. reflexivity.
Qed.

Lemma pid_bytes_len lf s : zlen (pid_bytes lf s) = packet_id_size lf.
Proof. by destruct lf. Qed.
Lemma pid_bytes_byte lf s : Forall is_byte (pid_bytes lf s).
Proof. unfold pid_bytes. apply Forall_app; split; [auto with ovpn|]. destruct lf; auto with ovpn. Qed.
#[export] Hint Resolve pid_bytes_byte : ovpn.

Lemma pid_write_prepend now p b lf : buf_live b -> packet_id_size lf <= b_offset b ->
  exists ok q b', packet_id_send_update now p lf = (ok, q) /\
    packet_id_write now p b lf true = (ok, q, b') /\
    if ok : bool then
      buf_live b' /\ buf_contents b' = pid_bytes lf q ++ buf_contents b /\
      b_capacity b' = b_capacity b /\ b_offset b' = b_offset b - packet_id_size lf /\
      b_len b' = b_len b + packet_id_size lf
    else b' = b.
Proof.
  intros Hb Hr. unfold packet_id_write. destruct (packet_id_send_update now p lf) as [[] q]; cbn [negb].
  - assert (exists b1, (if lf then buf_write_prepend b (be32 (u32 (s_time q))) else (true, b)) = (true, b1) /\
      buf_live b1 /\ buf_contents b1 = (if lf then be32 (u32 (s_time q)) else []) ++ buf_contents b /\
      b_capacity b1 = b_capacity b /\ b_offset b1 = b_offset b - (if lf then 4 else 0) /\
      b_len b1 = b_len b + (if lf then 4 else 0)) as (b1 & -> & L1 & C1 & Ec & Eo & El).
    { destruct lf; [|exists b; split_and!; try done; lia].
      unfold packet_id_size in Hr. destruct (buf_prepend_room b (be32 (u32 (s_time q)))) as (b1 & E & ? & ? & ? & ? & ?); auto with ovpn.
      { rewrite be32_len. lia. }
      eauto 10. }
    cbn [negb]. destruct (buf_prepend_room b1 (be32 (s_id q))) as (b2 & E & L2 & ? & ? & C2); auto with ovpn.
    { rewrite be32_len. unfold packet_id_size in Hr. destruct lf; lia. }
    rewrite E. eexists true, q, b2. split_and!; try done; unfold packet_id_size; destruct lf; rewrite ?be32_len in *; try lia;
      destruct C2 as [? C2]; rewrite C2, C1; unfold pid_bytes; by rewrite <- ?app_assoc.
  - eexists false, q, b. done.
Qed.

(** The initialisation vector of an AEAD packet: packet id, then implicit part. *)
Lemma aead_iv_buffer n impl now s : OPENVPN_AEAD_MIN_IV_LEN <= n <= OPENVPN_MAX_IV_LENGTH -> zlen impl = n - 4 ->
  exists iv_buffer, buf_set_write (replicate (Z.to_nat OPENVPN_MAX_IV_LENGTH) 0) n = Some iv_buffer /\
  exists ok q, packet_id_send_update now s false = (ok, q) /\
    exists b1, packet_id_write now s iv_buffer false false = (ok, q, b1) /\
    if ok : bool then exists b2 iv, buf_write b1 impl = (true, b2) /\ b_len b2 = n /\ b_data b2 = Some iv /\
      mem_read iv 0 n = pid_bytes false q ++ impl /\ mem_read iv 0 4 = pid_bytes false q
    else True.
Proof.
  unfold OPENVPN_AEAD_MIN_IV_LEN, OPENVPN_MAX_IV_LENGTH. intros Hn Hi. unfold buf_set_write.
  rewrite buf_size_valid_spec by lia.
  destruct (Z.leb_spec 0 n), (Z.ltb_spec n (2 ^ 21)), (Z.ltb_spec 0 n); try lia. cbn [andb].
  eexists. split; [reflexivity|]. unfold packet_id_write.
  destruct (packet_id_send_update now s false) as [[] q]; [|by repeat econstructor].
  eexists true, q. split; [reflexivity|]. cbn [negb]. change 16 with (Z.of_nat 16). rewrite Nat2Z.id.
  rewrite raw_write; rewrite ?BUF_SIZE_MAX_eq, ?be32_len; try lia.
  eexists. split; [reflexivity|]. rewrite raw_write; rewrite ?BUF_SIZE_MAX_eq; try lia.
  set (d1 := mem_write _ _ (be32 _)). assert (Hd1 : zlen d1 = 16) by reflexivity.
  assert (Hid : mem_read d1 0 4 = be32 (s_id q)) by reflexivity. clearbody d1.
  eexists _, _. split; [reflexivity|]. cbn [b_len b_data]. split; [lia|]. split; [reflexivity|].
  change (0 + (0 + 4)) with 4. unfold pid_bytes. rewrite app_nil_r.
  assert (H4 : mem_read (mem_write d1 4 impl) 0 4 = be32 (s_id q)).
  { rewrite mem_read_write_before by lia. done. }
  split; [|done]. replace n with (4 + zlen impl) by lia.
  rewrite mem_read_app by (pose proof (zlen_nonneg impl); lia). rewrite H4. f_equal.
  apply (mem_read_write_eq d1 4 impl); lia.
Qed.

(** ** The functions against the specification *)

Section Refinement.
Context `{EvpLaws}.
#[local] Arguments cipher_kt_mode_aead : simpl never.
#[local] Arguments cipher_kt_mode_cbc : simpl never.
#[local] Arguments cipher_kt_mode_ofb_cfb : simpl never.
#[local] Arguments seal_packet : simpl never.
#[local] Arguments replicate : simpl never.
#[local] Arguments buf_write : simpl never.
#[local] Arguments pid_bytes : simpl never.
#[local] Arguments out_write : simpl never.

Definition same {K C} (R : K -> C -> Prop) (k : option K) (c : option C) : Prop :=
  match k, c with Some k, Some c => R k c | None, None => True | _, _ => False end.

(** A key context holds the keys [K], for encryption or for decryption. *)
Record keyed (R : ckey -> EVP_CIPHER_CTX -> Prop) (K : keys) (c : key_ctx) : Prop := mkkeyed {
  kd_cipher : same R (sk_cipher K) (kc_cipher c);
  kd_hmac : same hmacs (sk_hmac K) (kc_hmac c);
  kd_iv : mem_read (kc_implicit_iv c) 0 (kc_implicit_iv_len c) = sk_implicit K;
  kd_iv_len : kc_implicit_iv_len c = zlen (sk_implicit K) }.

(** The options of an end that sends with [Ke] and receives with [Kd]. *)
Record options_ok (Ke Kd : keys) (cf : pid_conf) (opt : crypto_options) : Prop := mkook {
  oo_enc : keyed encrypts Ke (o_encrypt opt);
  oo_dec : keyed decrypts Kd (o_decrypt opt);
  oo_on : packet_id_initialized (o_packet_id opt) = pc_on cf;
  oo_long : long_form opt = pc_long cf;
  oo_ignore : ignore_packet_id opt = pc_ignore cf }.

Lemma keyed_encrypts K c k : keyed encrypts K c -> sk_cipher K = Some k ->
  exists x, kc_cipher c = Some x /\ encrypts k x /\ EVP_CIPHER_CTX_cipher x = ck_cipher k /\
    EVP_CIPHER_CTX_iv_length x = iv_len k /\ EVP_CIPHER_CTX_block_size x = ck_block k.
Proof.
  intros [Hc _ _ _] Hk. rewrite Hk in Hc. unfold same in Hc. destruct (kc_cipher c) as [x|]; [|done].
  exists x. split_and!; try done; by apply law_ctx; left.
Qed.

Lemma keyed_decrypts K c k : keyed decrypts K c -> sk_cipher K = Some k ->
  exists x, kc_cipher c = Some x /\ decrypts k x /\ EVP_CIPHER_CTX_cipher x = ck_cipher k /\
    EVP_CIPHER_CTX_iv_length x = iv_len k /\ EVP_CIPHER_CTX_block_size x = ck_block k.
Proof.
  intros [Hc _ _ _] Hk. rewrite Hk in Hc. unfold same in Hc. destruct (kc_cipher c) as [x|]; [|done].
  exists x. split_and!; try done; by apply law_ctx; right.
Qed.

Lemma keyed_set_cipher R K c k x : keyed R K c -> sk_cipher K = Some k -> R k x -> keyed R K (c <| kc_cipher := Some x |>).
Proof. intros [] Hk Hx. constructor; cbn; try done. by rewrite Hk. Qed.

Lemma keyed_set_hmac R K c h x : keyed R K c -> sk_hmac K = Some h -> hmacs h x -> keyed R K (c <| kc_hmac := Some x |>).
Proof. intros [] Hk Hx. constructor; cbn; try done. by rewrite Hk. Qed.

(** What an operation of the sender changes: the packet id and the state of its
    own contexts. *)
Definition sent (Ke : keys) (s : packet_id_send) (opt opt' : crypto_options) : Prop :=
  exists c, keyed encrypts Ke c /\ opt' = set_encrypt (set_send opt s) c.

Lemma sent_ok Ke Kd cf s opt opt' : options_ok Ke Kd cf opt -> sent Ke s opt opt' -> options_ok Ke Kd cf opt'.
Proof. intros [? ? ? ? ?] (c & Hc & ->). by constructor. Qed.

Lemma encrypt_aead_spec now buf work opt K cf k rnd : sk_cipher K = Some k -> is_aead k = true -> keys_ok K cf ->
  keyed encrypts K (o_encrypt opt) -> packet_id_initialized (o_packet_id opt) = true ->
  buf_live buf -> buf_live work ->
  b_offset work + b_len work + (4 + OPENVPN_AEAD_TAG_LENGTH + b_len buf + ck_block k) <= b_capacity work ->
  exists buf' opt' ok s, openvpn_encrypt_aead now buf work opt = Some (buf', opt') /\
    packet_id_send_update now (o_send opt) false = (ok, s) /\ sent K s opt opt' /\
    if ok : bool then buf_live buf' /\ buf_contents buf' = seal_packet K cf (buf_contents work) rnd s (buf_contents buf) /\
      b_offset buf' = b_offset work
    else b_len buf' = 0.
Proof.
  intros Hk Ha Hok HK Hon Hb Hw Hroom. unfold keys_ok in Hok. rewrite Hk, Ha in Hok. destruct Hok as (_ & Hn & Hi & Hib).
  destruct (keyed_encrypts _ _ _ HK Hk) as (x & Hx & He & Hkt & Hl & Hbs). assert (HK' := HK). destruct HK' as [_ _ Hiv Hivl].
  pose proof (law_block k) as Hblk. unfold OPENVPN_AEAD_TAG_LENGTH in *.
  unfold openvpn_encrypt_aead, cipher_ctx_get_cipher_kt, cipher_kt_tag_size, cipher_ctx_iv_length, cipher_ctx_block_size.
  rewrite Hx. cbn. rewrite Hkt. unfold is_aead in Ha. rewrite Ha, Hon, Hl, Hiv, Hivl. cbn [andb]. unfold OPENVPN_AEAD_TAG_LENGTH.
  destruct (Z.leb_spec OPENVPN_AEAD_MIN_IV_LEN (iv_len k)), (Z.leb_spec (iv_len k) OPENVPN_MAX_IV_LENGTH); try lia. cbn [andb].
  destruct (aead_iv_buffer (iv_len k) (sk_implicit K) now (o_send opt) Hn Hi) as (b0 & Hsw & ok & s & Hs & b1 & Hpw & Hrest).
  rewrite Hsw. cbn. rewrite Hpw.
  destruct ok; cbn [negb]; [|do 4 eexists; split; [reflexivity|]; split; [exact Hs|]; split; [|reflexivity]].
  2:{ exists (o_encrypt opt). split; [done|]. by destruct opt as [[]]. }
  destruct Hrest as (b2 & iv & Hb2 & Hbl & Hbd & Hiv1 & Hiv2). rewrite Hb2, Hbl, Hbd, Z.eqb_refl. cbn [andb].
  replace (iv_len k - zlen (sk_implicit K)) with 4 by lia. cbn. rewrite Hiv1, Hiv2.
  assert (Hpl : zlen (pid_bytes false s) = 4) by done. pose proof (zlen_nonneg (buf_contents buf)).
  assert (Hbuf := Hb). destruct Hbuf as [[_ _ ? _ _ _] _].
  destruct (buf_write_room work (pid_bytes false s) Hw) as (w1 & -> & L1 & Ec1 & Eo1 & El1 & C1); [lia|auto with ovpn|]. cbn.
  assert (Hbytes : Forall is_byte (buf_contents buf)) by (by apply buf_contents_bytes, Hb).
  destruct (law_seal k x (pid_bytes false s ++ sk_implicit K) (buf_contents work ++ pid_bytes false s) (buf_contents buf) He Ha)
    as (c1 & c2 & c3 & c4 & u & f & Hr & Had & Hup & Hfi & Htag & Hct & Hc1 & Hc4); [rewrite zlen_app; unfold iv_len in *; lia|done|].
  destruct (law_seal_size k (pid_bytes false s ++ sk_implicit K) (buf_contents work ++ pid_bytes false s) (buf_contents buf) Hbytes)
    as (Hsz & Htl & Hctb & Htb). rewrite <- Hct in Hsz, Hctb. rewrite zlen_app in Hsz. apply Forall_app in Hctb as [Hub Hfb].
  rewrite buf_contents_length in Hsz by done. unfold OPENVPN_AEAD_TAG_LENGTH in *.
  unfold cipher_ctx_reset. rewrite Hr.
  destruct (write_alloc_room w1 16 L1) as (w2 & hole & -> & L2 & C2 & Hhole & Ec2 & Eo2 & El2); [lia|]. cbn.
  assert (Hbs1 : EVP_CIPHER_CTX_block_size c1 = ck_block k) by (apply (law_ctx k c1); auto). rewrite Hbs1.
  rewrite (safe_room w2) by (done || lia). cbn [negb]. rewrite buf_live_bptr, buf_live_len by done. cbn.
  assert (Hload : buf_load w2 (b_offset w2) (b_len w2 - 16) = buf_contents work ++ pid_bytes false s).
  { replace (b_len w2 - 16) with (zlen (buf_contents work ++ pid_bytes false s))
      by (rewrite zlen_app, buf_contents_length by done; lia). apply (load_front w2 _ hole); [done|]. by rewrite C2, C1. }
  unfold cipher_ctx_update_ad, cipher_ctx_update, cipher_ctx_final, cipher_ctx_get_tag, OPENVPN_AEAD_TAG_LENGTH.
  rewrite Hload, Had. cbn. rewrite Hup. cbn.
  assert (Hbend : buf_bend w2 = Some (b_offset w2 + b_len w2)).
  { unfold buf_bend. by rewrite buf_live_bptr, buf_live_len. }
  destruct (append_outs w2 (b_offset w2 + b_len w2) u f L2 Hbend)
    as (w3 & w4 & w5 & w6 & Hw3 & Hi4 & Hb4 & Hw5 & Hi6 & L6 & C6 & Ec6 & Eo6 & El6); [by apply Forall_app|rewrite zlen_app; lia|].
  rewrite Hbend, Hw3. cbn. rewrite Hi4, Hfi. cbn. rewrite Hb4, Hw5. cbn. rewrite Hi6.
  unfold OPENVPN_AEAD_TAG_LENGTH in Htag. rewrite Htag. cbn.
  destruct (out_write_patch w6 (buf_contents work ++ pid_bytes false s) hole (u ++ f)
    (snd (seal k (pid_bytes false s ++ sk_implicit K) (buf_contents work ++ pid_bytes false s) (buf_contents buf))) L6)
    as (w7 & Hpatch & L7 & C7 & _ & Eo7 & _); [by rewrite C6, C2, C1, <- !app_assoc|lia|done|].
  replace (b_offset w1 + b_len w1) with (b_offset w6 + zlen (buf_contents work ++ pid_bytes false s))
    by (rewrite zlen_app, buf_contents_length by done; lia).
  rewrite Hpatch. cbn. do 4 eexists. split; [reflexivity|]. split; [exact Hs|]. split.
  - exists ((o_encrypt opt) <| kc_cipher := Some c4 |>). split; [by eapply keyed_set_cipher|]. by destruct opt as [[]].
  - split; [done|]. split; [|congruence]. rewrite C7. unfold seal_packet, seal_tail. rewrite Hk. unfold is_aead. rewrite Ha.
    by rewrite <- Hct, <- !app_assoc.
Qed.

Lemma is_cbc_spec k : cipher_kt_mode_cbc (Some (ck_cipher k)) = is_cbc k.
Proof. done. Qed.

(** The stamp the sender uses: advanced if packet ids are on. *)
Definition stamped (now : Z) (K : keys) (cf : pid_conf) (opt : crypto_options) (ok : bool) (s : packet_id_send) : Prop :=
  if pc_on cf then packet_id_send_update now (o_send opt) (id_long K cf) = (ok, s)
  else ok = true /\ s = o_send opt.

Lemma set_send_same opt : set_send opt (o_send opt) = opt.
Proof. by destruct opt as [? [] ? ?]. Qed.

(** The vector of the modes that keep the packet id in it. *)
Lemma stream_iv_buffer n now s q : 8 <= n <= OPENVPN_MAX_IV_LENGTH -> packet_id_send_update now s true = (true, q) ->
  exists b b1 iv, buf_set_write (replicate (Z.to_nat OPENVPN_MAX_IV_LENGTH) 0) n = Some b /\
    packet_id_write now s b true false = (true, q, b1) /\ b_data b1 = Some iv /\
    mem_read iv 0 n = pid_bytes true q ++ replicate (Z.to_nat (n - 8)) 0.
Proof.
  unfold OPENVPN_MAX_IV_LENGTH. intros Hn Hq. unfold buf_set_write. rewrite buf_size_valid_spec by lia.
  destruct (Z.leb_spec 0 n), (Z.ltb_spec n (2 ^ 21)), (Z.ltb_spec 0 n); try lia. cbn [andb].
  do 3 eexists. split; [reflexivity|]. unfold packet_id_write. rewrite Hq. cbn [negb].
  rewrite raw_write; rewrite ?BUF_SIZE_MAX_eq, ?be32_len; try lia. cbn [negb].
  rewrite raw_write; rewrite ?BUF_SIZE_MAX_eq, ?be32_len; try lia.
  split; [reflexivity|]. split; [reflexivity|].
  change (mem_read (pid_bytes true q ++ replicate 8 0) 0 n = pid_bytes true q ++ replicate (Z.to_nat (n - 8)) 0).
  unfold mem_read. change (Z.to_nat 0) with 0%nat. rewrite drop_0.
  rewrite take_app_ge by (change (length (pid_bytes true q)) with 8%nat; lia).
  change (length (pid_bytes true q)) with 8%nat. rewrite take_replicate. do 2 f_equal. lia.
Qed.

Lemma encrypt_v1_iv_spec now prng buf opt K cf k x : sk_cipher K = Some k -> is_aead k = false -> keys_ok K cf ->
  packet_id_initialized (o_packet_id opt) = pc_on cf -> long_form opt = pc_long cf ->
  EVP_CIPHER_CTX_cipher x = ck_cipher k -> EVP_CIPHER_CTX_iv_length x = iv_len k ->
  (is_cbc k = false -> fst (packet_id_send_update now (o_send opt) true) = true) ->
  buf_live buf -> id_size cf <= b_offset buf -> zlen (prng (iv_len k)) = iv_len k ->
  exists ok iv_buf buf' s, encrypt_v1_iv now prng buf opt x = Some (ok, iv_buf, buf', set_send opt s) /\
    stamped now K cf opt ok s /\
    (ok = true -> buf_live buf' /\ buf_contents buf' = cipher_id k cf s ++ buf_contents buf /\
      mem_read iv_buf 0 (iv_len k) = cipher_iv k (prng (iv_len k)) s).
Proof.
  intros Hk Ha Hok Hon Hlf Hx Hxl Hup Hb Hroom Hprng. unfold keys_ok in Hok. rewrite Hk, Ha in Hok.
  unfold encrypt_v1_iv, cipher_ctx_get_cipher_kt, cipher_ctx_iv_length, stamped, id_long, cipher_id, cipher_iv.
  cbn. rewrite Hx, Hxl, is_cbc_spec, Hk, Ha, Hon, Hlf. destruct (is_cbc k) eqn:Hcbc; cbn [andb].
  - unfold OPENVPN_MAX_IV_LENGTH in *.
    assert (Hr : mem_read (mem_write (replicate 16 0) 0 (prng (iv_len k))) 0 (iv_len k) = prng (iv_len k)).
    { rewrite <- Hprng at 2. apply mem_read_write_eq; [lia|]. change (zlen (replicate 16 0)) with 16. lia. }
    unfold id_size in Hroom. destruct (pc_on cf).
    + destruct (pid_write_prepend now (o_send opt) buf (pc_long cf) Hb Hroom) as (ok & q & b' & Hs & -> & Hc).
      exists ok, (mem_write (replicate 16 0) 0 (prng (iv_len k))), b', q. split; [reflexivity|]. split; [done|].
      intros ->. destruct Hc as (? & ? & _). done.
    + exists true, (mem_write (replicate 16 0) 0 (prng (iv_len k))), buf, (o_send opt). rewrite set_send_same. done.
  - destruct Hok as (Hst & -> & Hn). unfold is_stream in Hst. rewrite Hst.
    destruct (packet_id_send_update now (o_send opt) true) as [ok q] eqn:Hq. specialize (Hup eq_refl). cbn in Hup. subst ok.
    destruct (stream_iv_buffer (iv_len k) now (o_send opt) q Hn Hq) as (b & b1 & iv & Hb0 & Hpw & Hd & Hr).
    rewrite Hb0. cbn. rewrite Hpw, Hd. exists true, iv, buf, q. done.
Qed.

Lemma mac_size K d : zlen (mac K d) = mac_len K /\ Forall is_byte (mac K d) /\ 0 <= mac_len K <= OPENVPN_MAX_HMAC_SIZE.
Proof.
  unfold mac, mac_len, OPENVPN_MAX_HMAC_SIZE. destruct (sk_hmac K); [|split_and!; [done|constructor|lia|lia]].
  pose proof (law_hmac_size h d) as (? & ? & ?). done.
Qed.

Lemma id_size_range cf : 0 <= id_size cf <= 8.
Proof. unfold id_size, packet_id_size. destruct (pc_on cf), (pc_long cf); lia. Qed.

(** The HMAC over [body], stored in the [hole] left for it. *)
Lemma encrypt_v1_hmac_spec opt K work hdr hole body : keyed encrypts K (o_encrypt opt) -> buf_live work ->
  buf_contents work = hdr ++ hole ++ body -> zlen hole = mac_len K ->
  forall start out, (kc_hmac (o_encrypt opt) <> None ->
    start = Some (b_offset work + zlen hdr + mac_len K) /\ out = Some (b_offset work + zlen hdr)) ->
  exists buf' opt', encrypt_v1_hmac opt work start out = Some (buf', opt') /\
    buf_live buf' /\ buf_contents buf' = hdr ++ mac K body ++ body /\ b_offset buf' = b_offset work /\
    exists c, keyed encrypts K c /\ opt' = set_encrypt opt c.
Proof.
  intros HK Hw Hc Hh start out Hmarks. assert (HK' := HK). destruct HK' as [_ Hm _ _]. unfold same in Hm.
  unfold encrypt_v1_hmac, mac_len, mac in *. destruct (sk_hmac K) as [h|] eqn:Eh, (kc_hmac (o_encrypt opt)) as [x|]; try done.
  - destruct (Hmarks ltac:(done)) as [-> ->]. cbn. unfold buf_bend. rewrite buf_live_bptr, buf_live_len by done. cbn.
    destruct (law_hmac h x body Hm) as (_ & _ & _ & x' & Hf & Hx'). destruct (law_hmac_size h body) as (_ & Hz & Hby).
    assert (Hlen := buf_contents_length work Hw). rewrite Hc, !zlen_app in Hlen.
    replace (b_offset work + b_len work - _) with (zlen body) by lia.
    assert (Hl : buf_load work (b_offset work + zlen hdr + hmac_len h) (zlen body) = body).
    { replace (b_offset work + zlen hdr + hmac_len h) with (b_offset work + zlen (hdr ++ hole)) by (rewrite zlen_app; lia).
      apply load_back; [done|]. by rewrite <- app_assoc. }
    unfold hmac_ctx_update, hmac_ctx_reset, hmac_ctx_final. rewrite Hl, Hf.
    destruct (out_write_patch work hdr hole body (hmac h body) Hw Hc) as (b' & -> & L & C & _ & Eo & _); [lia|done|]. cbn.
    eexists _, _. split; [reflexivity|]. split; [done|]. split; [done|]. split; [done|].
    eexists. split; [by eapply keyed_set_hmac|]. done.
  - destruct hole; [|cbn in Hh; unfold zlen in Hh; cbn in Hh; lia].
    eexists _, _. split; [reflexivity|]. split; [done|]. split; [done|]. split; [done|].
    exists (o_encrypt opt). split; [done|]. by destruct opt as [[]].
Qed.

(** What is left to do for the HMAC: the marks point to the [hole] in front of
    [body] and to [body]. *)
Definition marked (K : keys) (work : buffer) (off : Z) (hdr body : list Z) (opt : crypto_options)
    (marks : option (option Z * option Z)) : Prop :=
  exists start out hole, marks = Some (start, out) /\ buf_live work /\ b_offset work = off /\
    buf_contents work = hdr ++ hole ++ body /\ zlen hole = mac_len K /\
    (kc_hmac (o_encrypt opt) <> None ->
      start = Some (b_offset work + zlen hdr + mac_len K) /\ out = Some (b_offset work + zlen hdr)).

(** The room reserved for the HMAC in front of everything else. *)
Lemma reserve_mac K work c : keyed encrypts K c -> buf_live work ->
  b_offset work + b_len work + mac_len K <= b_capacity work ->
  exists out start w hole, match kc_hmac c with
    | Some hmac => let '(mac_out, work) := buf_write_alloc work (hmac_ctx_size hmac) in
        mac_out ← mac_out; Some (Some mac_out, buf_bend work, work)
    | None => Some (None, None, work) end = Some (out, start, w) /\
    buf_live w /\ buf_contents w = buf_contents work ++ hole /\ zlen hole = mac_len K /\
    b_capacity w = b_capacity work /\ b_offset w = b_offset work /\ b_len w = b_len work + mac_len K /\
    (kc_hmac c <> None -> start = Some (b_offset work + b_len work + mac_len K) /\ out = Some (b_offset work + b_len work)).
Proof.
  intros [_ Hm _ _] Hw Hr. unfold same in Hm. unfold mac_len in *. destruct (sk_hmac K) as [h|], (kc_hmac c) as [x|]; try done.
  - destruct (law_hmac h x [] Hm) as (Hs & _). destruct (law_hmac_size h []) as (Hl & _). unfold hmac_ctx_size. rewrite Hs.
    destruct (write_alloc_room work (hmac_len h) Hw) as (w & hole & -> & L & C & Hh & Ec & Eo & El); [lia|]. cbn.
    exists (Some (b_offset work + b_len work)), (buf_bend w), w, hole. split_and!; try done. intros _. split; [|done].
    unfold buf_bend. rewrite buf_live_bptr, buf_live_len by done. cbn. f_equal. lia.
  - exists None, None, work, []. rewrite app_nil_r. split_and!; try done. lia.
Qed.

Lemma encrypt_v1_cipher_spec now prng buf work opt K cf k x : sk_cipher K = Some k -> is_aead k = false -> keys_ok K cf ->
  keyed encrypts K (o_encrypt opt) -> packet_id_initialized (o_packet_id opt) = pc_on cf -> long_form opt = pc_long cf ->
  kc_cipher (o_encrypt opt) = Some x ->
  (is_cbc k = false -> fst (packet_id_send_update now (o_send opt) true) = true) ->
  buf_live buf -> buf_live work -> id_size cf <= b_offset buf -> zlen (prng (iv_len k)) = iv_len k ->
  Forall is_byte (prng (iv_len k)) ->
  b_offset work + b_len work + (mac_len K + iv_len k + id_size cf + b_len buf + ck_block k) <= b_capacity work ->
  exists work' marks opt' ok s, encrypt_v1_cipher now prng buf work opt x = Some (work', marks, opt') /\
    stamped now K cf opt ok s /\ sent K s opt opt' /\
    if ok : bool then
      let iv := cipher_iv k (prng (iv_len k)) s in
      marked K work' (b_offset work) (buf_contents work) (iv ++ encipher k iv (cipher_id k cf s ++ buf_contents buf)) opt' marks
    else marks = None /\ b_len work' = 0.
Proof.
  intros Hk Ha Hok HK Hon Hlf Hx Hup Hb Hw Hid Hprng Hrnd Hroom.
  destruct (keyed_encrypts _ _ _ HK Hk) as (x' & Hx' & He & Hkt & Hl & Hbs). rewrite Hx in Hx'. injection Hx' as <-.
  pose proof (law_block k) as Hblk. destruct (mac_size K []) as (_ & _ & Hml). assert (Hbuf := Hb). destruct Hbuf as [[_ ? ? _ _ _] _].
  assert (Hivn : 0 <= iv_len k) by (pose proof (zlen_nonneg (prng (iv_len k))); lia).
  pose proof (id_size_range cf) as Hids. unfold encrypt_v1_cipher.
  destruct (reserve_mac K work _ HK Hw) as (out & start & w1 & hole & -> & L1 & C1 & Hh & Ec1 & Eo1 & El1 & Hmk); [lia|]. cbn.
  destruct (encrypt_v1_iv_spec now prng buf opt K cf k x Hk Ha Hok Hon Hlf Hkt Hl Hup Hb Hid Hprng)
    as (ok & iv_buf & b' & s & -> & Hst & Hc). cbn.
  destruct ok; cbn [negb]; [|do 5 eexists; split; [reflexivity|]; split; [exact Hst|]; split; [|done]].
  2:{ exists (o_encrypt opt). split; [done|]. by destruct opt as [[]]. }
  destruct (Hc eq_refl) as (Lb & Cb & Hiv). unfold cipher_ctx_iv_length. rewrite Hl, Hiv.
  assert (Hivz : zlen (cipher_iv k (prng (iv_len k)) s) = iv_len k /\ Forall is_byte (cipher_iv k (prng (iv_len k)) s)).
  { unfold cipher_iv. destruct (is_cbc k) eqn:Ecbc; [done|]. unfold keys_ok in Hok. rewrite Hk, Ha, Ecbc in Hok.
    rewrite zlen_app, pid_bytes_len. unfold packet_id_size, zlen. rewrite length_replicate. split; [lia|].
    apply Forall_app. split; [auto with ovpn|]. apply Forall_replicate. done. }
  set (iv := cipher_iv _ _ _) in *. destruct Hivz as [Hivz Hivb].
  assert (Hidb : Forall is_byte (cipher_id k cf s)) by (unfold cipher_id; destruct (is_cbc k && pc_on cf); auto with ovpn).
  assert (Hidl : zlen (cipher_id k cf s) <= id_size cf).
  { unfold cipher_id, id_size. destruct (is_cbc k), (pc_on cf); cbn [andb]; rewrite ?pid_bytes_len, ?zlen_nil; try lia.
    unfold packet_id_size. destruct (pc_long cf); lia. }
  destruct (buf_write_room w1 iv L1) as (w2 & -> & L2 & Ec2 & Eo2 & El2 & C2); [lia|done|]. cbn.
  assert (Hpt : Forall is_byte (buf_contents b')) by (by apply buf_contents_bytes, Lb).
  assert (Hblen : b_len b' = zlen (cipher_id k cf s) + b_len buf).
  { rewrite <- (buf_contents_length b' Lb), Cb, zlen_app, (buf_contents_length buf Hb). done. }
  destruct (law_encipher k x iv (buf_contents b') He Ha Hivz Hpt) as (c1 & c3 & c4 & u & f & Hr & Hu & Hf & Hct & Hc1 & Hc4 & Hcbc).
  destruct (law_encipher_size k iv (buf_contents b') Hpt) as [Hsz Hby].
  unfold cipher_ctx_reset, cipher_ctx_block_size, cipher_ctx_update, cipher_ctx_final. rewrite Hr.
  assert (Hbs1 : EVP_CIPHER_CTX_block_size c1 = ck_block k) by (apply (law_ctx k c1); auto). rewrite Hbs1.
  rewrite (buf_contents_length b' Lb) in Hsz. rewrite <- Hct in Hsz, Hby.
  pose proof (zlen_nonneg (u ++ f)). rewrite (safe_room w2) by (done || lia). cbn [negb]. rewrite Hu. cbn.
  assert (Hbend : buf_bend w2 = Some (b_offset w2 + b_len w2)) by (unfold buf_bend; by rewrite buf_live_bptr, buf_live_len).
  destruct (append_outs w2 (b_offset w2 + b_len w2) u f L2 Hbend Hby)
    as (w3 & w4 & w5 & w6 & Hw3 & Hi4 & Hb4 & Hw5 & Hi6 & L6 & C6 & Ec6 & Eo6 & El6); [lia|].
  rewrite Hbend, Hw3. cbn. rewrite Hi4, Hf. cbn. rewrite Hb4, Hw5. cbn. rewrite Hi6.
  assert (Hm4 : EVP_CIPHER_CTX_cipher c4 = ck_cipher k) by (apply (law_ctx k c4); auto). rewrite Hm4.
  assert (Hlast : negb (EVP_CIPHER_mode (ck_cipher k) =? OPENVPN_MODE_CBC) || (zlen f =? iv_len k) = true).
  { destruct (Z.eqb_spec (EVP_CIPHER_mode (ck_cipher k)) OPENVPN_MODE_CBC) as [E|E]; [|done].
    cbn. apply Z.eqb_eq. by rewrite Hcbc. }
  rewrite Hlast. do 5 eexists. split; [reflexivity|]. split; [exact Hst|]. split.
  - exists ((o_encrypt opt) <| kc_cipher := Some c4 |>). split; [by eapply keyed_set_cipher|]. by destruct opt as [[]].
  - exists start, out, hole. split; [done|]. split; [done|]. split; [congruence|]. split; [by rewrite C6, C2, C1, Hct, Cb, <- !app_assoc|].
    split; [done|]. cbn. intros Hh'. destruct (Hmk Hh') as [-> ->]. rewrite buf_contents_length by done.
    rewrite Eo6, Eo2, Eo1. split; f_equal; lia.
Qed.

Lemma prepend_alloc b n : buf_live b -> 0 <= n <= b_offset b ->
  exists b' hole, buf_prepend b n = (Some (b_offset b - n), b') /\ buf_live b' /\
    buf_contents b' = hole ++ buf_contents b /\ zlen hole = n /\ b_offset b' = b_offset b - n.
Proof.
  intros Hb Hn. destruct (buf_live_data b Hb) as (d & Hd & Hl & Hf). assert (Hw := Hb). destruct Hw as [[] _].
  unfold buf_prepend. rewrite buf_live_valid by done. cbn [negb orb].
  destruct (Z.ltb_spec n 0), (Z.ltb_spec (b_offset b) n); try lia. cbn [orb].
  set (b1 := b <| b_offset := b_offset b - n |> <| b_len := b_len b + n |>).
  assert (L1 : buf_live b1) by (eapply buf_live_intro; cbn; eauto; lia).
  rewrite (buf_live_bptr b1 L1). exists b1, (mem_read d (b_offset b - n) n). split_and!; try done.
  - rewrite (buf_contents_live b1 d L1 Hd), (buf_contents_live b d Hb Hd). cbn.
    replace (b_len b + n) with (n + b_len b) by lia. rewrite mem_read_app by lia. do 2 f_equal. lia.
  - apply mem_read_length; lia.
Qed.

(** The room for the HMAC in front of a packet without a cipher. *)
Lemma prepend_mac K b c : keyed encrypts K c -> buf_live b -> mac_len K <= b_offset b ->
  exists start out b' hole, match kc_hmac c with
    | Some hmac => let '(mac_out, buf) := buf_prepend b (hmac_ctx_size hmac) in
        mac_out ← mac_out; Some (buf_bptr b, Some mac_out, buf)
    | None => Some (None, None, b) end = Some (start, out, b') /\
    buf_live b' /\ buf_contents b' = hole ++ buf_contents b /\ zlen hole = mac_len K /\
    b_offset b' = b_offset b - mac_len K /\
    (kc_hmac c <> None -> start = Some (b_offset b' + mac_len K) /\ out = Some (b_offset b')).
Proof.
  intros [_ Hm _ _] Hb Hr. unfold same in Hm. unfold mac_len in *. destruct (sk_hmac K) as [h|], (kc_hmac c) as [x|]; try done.
  - destruct (law_hmac h x [] Hm) as (Hs & _). destruct (law_hmac_size h []) as (Hl & _). unfold hmac_ctx_size. rewrite Hs.
    destruct (prepend_alloc b (hmac_len h) Hb) as (b2 & hole & -> & L2 & C2 & Hh & Eo); [lia|]. cbn.
    rewrite buf_live_bptr by done. do 4 eexists. split; [reflexivity|]. split_and!; try done.
    intros _. split; f_equal; lia.
  - exists None, None, b, []. by split_and!; try lia.
Qed.

(** The packet id in front of a packet without a cipher. *)
Lemma prepend_id now buf opt K cf : sk_cipher K = None -> long_form opt = pc_long cf -> buf_live buf -> id_size cf <= b_offset buf ->
  exists ok s b1, (if pc_on cf then let '(ok, send, buf) := packet_id_write now (o_send opt) buf (pc_long cf) true in
        (ok, buf, set_send opt send) else (true, buf, opt)) = (ok, b1, set_send opt s) /\
      stamped now K cf opt ok s /\
      (ok = true -> buf_live b1 /\ buf_contents b1 = (if pc_on cf then pid_bytes (pc_long cf) s else []) ++ buf_contents buf /\
        b_offset b1 = b_offset buf - id_size cf).
Proof.
  intros Hk Hlf Hb Hr. unfold stamped, id_long, id_size in *. rewrite Hk. destruct (pc_on cf).
  - destruct (pid_write_prepend now (o_send opt) buf (pc_long cf) Hb Hr) as (ok & q & b' & Hs & -> & Hc).
    exists ok, q, b'. split_and!; try done. intros ->. by destruct Hc as (? & ? & _ & ? & _).
  - exists true, (o_send opt), buf. rewrite set_send_same. split_and!; try done. intros _. split_and!; (done || lia).
Qed.

(** A work buffer that is only copied from; the null buffer is one. *)
Definition readable (work : buffer) : Prop :=
  0 <= b_len work /\ buf_len work = b_len work /\ zlen (buf_contents work) = b_len work /\ Forall is_byte (buf_contents work).

Lemma live_readable b : buf_live b -> readable b.
Proof.
  intros Hb. assert (Hw := Hb). destruct Hw as [[_ ? ? _ _ _] _].
  split; [done|]. split; [by apply buf_live_len|]. split; [by apply buf_contents_length|]. apply buf_contents_bytes, Hb.
Qed.

Lemma clear_readable : readable clear_buf.
Proof. done. Qed.

Lemma encrypt_v1_plain_spec now buf work opt K cf : sk_cipher K = None ->
  keyed encrypts K (o_encrypt opt) -> packet_id_initialized (o_packet_id opt) = pc_on cf -> long_form opt = pc_long cf ->
  buf_live buf -> readable work -> id_size cf + mac_len K + b_len work <= b_offset buf ->
  exists work' marks opt' ok s, encrypt_v1_plain now buf work opt = Some (work', marks, opt') /\
    stamped now K cf opt ok s /\ sent K s opt opt' /\
    if ok : bool then
      marked K work' (b_offset buf - (id_size cf + mac_len K + b_len work)) (buf_contents work)
        ((if pc_on cf then pid_bytes (pc_long cf) s else []) ++ buf_contents buf) opt' marks
    else marks = None /\ b_len work' = 0.
Proof.
  intros Hk HK Hon Hlf Hb (Hw0 & Hwlen & Hwl & Hwb) Hroom. unfold encrypt_v1_plain. rewrite Hon, Hlf.
  pose proof (id_size_range cf) as Hids. destruct (mac_size K []) as (_ & _ & Hml).
  destruct (prepend_id now buf opt K cf Hk Hlf Hb) as (ok & s & b1 & -> & Hst & Hc); [lia|].
  assert (Hsent : sent K s opt (set_send opt s)) by (exists (o_encrypt opt); split; [done|]; by destruct opt as [[]]).
  destruct ok; cbn [negb]; [|by do 5 eexists].
  destruct (Hc eq_refl) as (L1 & C1 & Hr1). change (o_encrypt (set_send opt s)) with (o_encrypt opt).
  destruct (prepend_mac K b1 _ HK L1) as (start & out & b2 & hole & -> & L2 & C2 & Hh & Hr2 & Hmk); [lia|].
  cbn. rewrite Hwlen.
  do 5 eexists. split; [reflexivity|]. split; [exact Hst|]. split; [done|].
  exists start, out, hole. split; [done|].
  destruct (Z.eqb_spec (b_len work) 0) as [E|E]; cbn [negb].
  - assert (buf_contents work = []) as ->.
    { destruct (buf_contents work); [done|]. rewrite zlen_cons in Hwl. pose proof (zlen_nonneg l). lia. }
    cbn [app]. split; [done|]. split; [lia|]. split; [by rewrite C2, C1|]. split; [done|]. rewrite zlen_nil, Z.add_0_r. done.
  - destruct (buf_prepend_room b2 (buf_contents work) L2) as (b3 & -> & L3 & _ & Eo3 & _ & C3);
      [lia|done|]. cbn [snd].
    split; [done|]. split; [lia|]. split; [by rewrite C3, C2, C1|]. split; [done|].
    intros Hx. destruct (Hmk Hx) as [-> ->]. split; f_equal; lia.
Qed.

(** *** Decryption *)

(** What an operation of the receiver changes besides the replay window. *)
Definition received (Kd : keys) (opt opt' : crypto_options) : Prop :=
  exists c, keyed decrypts Kd c /\ opt' = set_decrypt opt c.

(** The result [r] is the one the specification asks for. *)
Definition decrypt_result (now : Z) (K : keys) (opt : crypto_options) (spec : option (option packet_id_net * list Z))
    (r : option (bool * buffer * crypto_options)) : Prop :=
  exists opt1, received K opt opt1 /\
  match spec with
  | None => exists b, r = Some (false, b, opt1) /\ b_len b = 0
  | Some (None, p) => exists b, r = Some (true, b, opt1) /\ buf_live b /\ buf_contents b = p
  | Some (Some pin, p) => exists b d, buf_live b /\ buf_contents b = p /\ b_len d = 0 /\
      r = ('(ok, opt2) ← check_replay now opt1 pin; if ok : bool then Some (true, b, opt2) else Some (false, d, opt2))
  end.

Lemma received_refl K opt : keyed decrypts K (o_decrypt opt) -> received K opt opt.
Proof. intros HK. exists (o_decrypt opt). split; [done|]. by destruct opt as [[]]. Qed.

Lemma drop_result now K opt opt1 b : received K opt opt1 ->
  decrypt_result now K opt None (Some (false, buf_drop b, opt1)).
Proof. intros Hr. exists opt1. split; [done|]. by exists (buf_drop b). Qed.

Lemma buf_load_app b p n m : buf_live b -> 0 <= p -> 0 <= n -> 0 <= m -> p + n + m <= b_capacity b ->
  buf_load b p (n + m) = buf_load b p n ++ buf_load b (p + n) m.
Proof.
  intros Hb Hp Hn Hm Hr. destruct (buf_live_data b Hb) as (d & Hd & Hz & _). unfold buf_load. rewrite Hd.
  apply mem_read_app; lia.
Qed.

Lemma advance_room b n : buf_live b -> 0 <= n <= b_len b ->
  exists b', buf_advance b n = (true, b') /\ buf_live b' /\
    buf_contents b = buf_load b (b_offset b) n ++ buf_contents b' /\
    zlen (buf_load b (b_offset b) n) = n /\
    b_data b' = b_data b /\ b_capacity b' = b_capacity b /\ b_offset b' = b_offset b + n /\ b_len b' = b_len b - n.
Proof.
  intros Hb Hn. destruct (buf_take_front b n Hb Hn) as (L & C & Hz & _). unfold buf_advance. rewrite buf_live_valid by done.
  destruct (Z.ltb_spec n 0), (Z.ltb_spec (b_len b) n); try lia. cbn [negb orb]. eexists. split; [reflexivity|]. done.
Qed.

Lemma pid_read_spec b lf : buf_live b ->
  match pid_parse lf (buf_contents b) with
  | None => exists pin b', packet_id_read b lf = (false, pin, b')
  | Some (pin, rest) => exists b', packet_id_read b lf = (true, pin, b') /\ buf_live b' /\ buf_contents b' = rest /\
      b_data b' = b_data b /\ b_offset b' = b_offset b + packet_id_size lf /\ b_len b' = b_len b - packet_id_size lf
  end.
Proof.
  intros Hb. unfold pid_parse, packet_id_read. rewrite (buf_contents_length b Hb).
  destruct (Z.ltb_spec (b_len b) (if lf then 8 else 4)) as [Hs|Hs].
  - destruct (Z.lt_ge_cases (b_len b) 4).
    { rewrite buf_read_short by lia. eauto. }
    destruct lf; [|lia]. destruct (buf_read_ok b 4 Hb) as (bs & b' & -> & L & _ & _ & _ & _ & _ & El); [lia|].
    rewrite buf_read_short by lia. eauto.
  - destruct (buf_read_ok b 4 Hb) as (bs & b' & Hr & L & C & Hz & _ & Ec & Eo & El); [destruct lf; lia|]. rewrite Hr, C.
    assert (Hl : length bs = 4%nat) by (unfold zlen in Hz; lia).
    assert (Hd : b_data b' = b_data b).
    { revert Hr. unfold buf_read, buf_read_alloc. destruct ((4 <? 0) || (b_len b <? 4)); [done|].
      rewrite buf_live_bptr by done. by intros [= _ <-]. }
    rewrite <- Hl, take_app_length, drop_app_length. destruct lf.
    + destruct (buf_read_ok b' 4 L) as (bs2 & b2 & Hr2 & L2 & C2 & Hz2 & _ & _ & Eo2 & El2); [lia|]. rewrite Hr2, C2.
      assert (Hl2 : length bs2 = 4%nat) by (unfold zlen in Hz2; lia).
      assert (Hd2 : b_data b2 = b_data b').
      { revert Hr2. unfold buf_read, buf_read_alloc. destruct ((4 <? 0) || (b_len b' <? 4)); [done|].
        rewrite buf_live_bptr by done. by intros [= _ <-]. }
      rewrite Hl, <- Hl2, take_app_length. exists b2. unfold packet_id_size.
      split; [reflexivity|]. split; [done|]. split_and!; try lia; [|congruence].
      rewrite app_assoc. replace (Z.to_nat 8) with (length (bs ++ bs2)) by (rewrite length_app; lia). by rewrite drop_app_length.
    + exists b'. unfold packet_id_size. split; [reflexivity|]. split; [done|]. split_and!; try lia; [|done].
      replace (Z.to_nat 4) with (length bs) by lia. by rewrite drop_app_length.
Qed.

(** What the transformation of a packet needs: a work buffer that is large enough
    for the frame's head room and the output. *)
Definition work_room (f : frame) (work : buffer) (n : Z) : Prop :=
  buf_live work /\ 0 <= FRAME_HEADROOM_ADJ f FRAME_HEADROOM_MARKER_DECRYPT /\
  FRAME_HEADROOM_ADJ f FRAME_HEADROOM_MARKER_DECRYPT + n <= b_capacity work.

(** An aead packet: its packet id, its tag and its ciphertext. *)
Lemma aead_parts (w : list Z) : 4 + OPENVPN_AEAD_TAG_LENGTH + 1 <= zlen w ->
  exists id tag ct, w = id ++ tag ++ ct /\ zlen id = 4 /\ zlen tag = OPENVPN_AEAD_TAG_LENGTH /\ 1 <= zlen ct /\
    take 4 w = id /\ take (Z.to_nat OPENVPN_AEAD_TAG_LENGTH) (drop 4 w) = tag /\
    drop (Z.to_nat OPENVPN_AEAD_TAG_LENGTH) (drop 4 w) = ct.
Proof.
  unfold OPENVPN_AEAD_TAG_LENGTH, zlen. intros Hl. exists (take 4 w), (take 16 (drop 4 w)), (drop 16 (drop 4 w)).
  rewrite !take_drop. split; [done|]. rewrite !length_take, !length_drop. split_and!; try done; lia.
Qed.

Lemma decrypt_aead_spec now buf work opt f K cf k hdr : sk_cipher K = Some k -> is_aead k = true -> keys_ok K cf ->
  keyed decrypts K (o_decrypt opt) -> packet_id_initialized (o_packet_id opt) = true ->
  buf_live buf -> 0 < b_len buf -> zlen hdr <= b_offset buf ->
  buf_load buf (b_offset buf - zlen hdr) (zlen hdr) = hdr -> work_room f work (b_len buf + ck_block k) ->
  decrypt_result now K opt (open_aead K k hdr (buf_contents buf))
    (openvpn_decrypt_aead now buf work opt f (Some (b_offset buf - zlen hdr))).
Proof.
  intros Hk Ha Hok HK Hon Hb Hpos Hho Hhdr (Hw & Hh0 & Hroom). unfold keys_ok in Hok. rewrite Hk, Ha in Hok. destruct Hok as (_ & Hn & Hi & Hib).
  destruct (keyed_decrypts _ _ _ HK Hk) as (x & Hx & He & Hkt & Hl & Hbs). assert (HK' := HK). destruct HK' as [_ _ Hiv Hivl].
  pose proof (law_block k) as Hblk. pose proof (zlen_nonneg hdr). pose proof (buf_contents_length buf Hb) as Hlen.
  unfold openvpn_decrypt_aead, cipher_ctx_get_cipher_kt, cipher_kt_tag_size, cipher_ctx_iv_length, cipher_ctx_block_size.
  rewrite (proj2 (Z.ltb_lt 0 (b_len buf)) Hpos), Hx. cbn. rewrite Hkt. unfold is_aead in Ha. rewrite Ha, (buf_live_bptr buf Hb). cbn.
  rewrite (proj2 (Z.leb_le 0 (b_offset buf - zlen hdr))), (proj2 (Z.leb_le (b_offset buf - zlen hdr) (b_offset buf))) by lia. cbn [andb].
  destruct (buf_init_live work (FRAME_HEADROOM_ADJ f FRAME_HEADROOM_MARKER_DECRYPT) Hw) as (w0 & -> & L0 & Ec0 & Eo0 & El0 & C0); [lia|].
  rewrite Hon, Hl, Hiv, Hivl. rewrite (proj2 (Z.leb_le (zlen (sk_implicit K)) (iv_len k))) by lia.
  unfold open_aead. rewrite Hlen. replace (iv_len k - zlen (sk_implicit K)) with 4 by lia.
  destruct (Z.ltb_spec (b_len buf + zlen (sk_implicit K)) (iv_len k)) as [Hs|Hs].
  { rewrite (proj2 (Z.ltb_lt _ _)) by (unfold OPENVPN_AEAD_TAG_LENGTH; lia). by apply drop_result, received_refl. }
  destruct (advance_room buf 4 Hb) as (_ & _ & _ & _ & Hz4 & _); [lia|].
  assert (Hivz : zlen (buf_load buf (b_offset buf) 4 ++ sk_implicit K) = EVP_CIPHER_iv_length (ck_cipher k)).
  { rewrite zlen_app. unfold iv_len in *. lia. }
  assert (Hrecv : forall c, decrypts k c -> received K opt (set_decrypt opt ((o_decrypt opt) <| kc_cipher := Some c |>))).
  { intros c Hc. eexists. split; [by eapply keyed_set_cipher|done]. }
  unfold cipher_ctx_reset, cipher_ctx_update_ad, cipher_ctx_update, cipher_ctx_final_check_tag, cipher_ctx_final.
  assert (Hbyte : Forall is_byte (buf_contents buf)) by (by apply buf_contents_bytes, Hb).
  destruct (Z.ltb_spec (b_len buf) (4 + OPENVPN_AEAD_TAG_LENGTH + 1)) as [Hshort|Hlong].
  - destruct (law_unseal k x (buf_load buf (b_offset buf) 4 ++ sk_implicit K) [] [] He Ha Hivz) as (c1 & _ & _ & _ & -> & _ & _ & Hc1 & _); [done|].
    cbn [negb]. pose proof (pid_read_spec buf false Hb) as Hpid.
    destruct (pid_parse false (buf_contents buf)) as [[pin rest]|]; [|destruct Hpid as (pin & b' & ->); by apply drop_result, Hrecv].
    destruct Hpid as (b1 & -> & L1 & C1 & _ & _ & El1). cbn [negb]. unfold packet_id_size, OPENVPN_AEAD_TAG_LENGTH in *.
    destruct (Z.ltb_spec (b_len b1) 16); [by apply drop_result, Hrecv|]. rewrite (buf_live_bptr b1 L1). cbn.
    destruct (advance_room b1 16 L1) as (b2 & -> & _ & _ & _ & _ & _ & _ & El2); [lia|].
    rewrite (proj2 (Z.ltb_lt (b_len b2) 1)) by lia. by apply drop_result, Hrecv.
  - destruct (aead_parts (buf_contents buf)) as (id & tag & ct & Hw' & Hidz & Htagz & Hctz & -> & -> & ->); [lia|].
    rewrite Hw' in Hbyte. apply Forall_app in Hbyte as [_ [_ Hctb]%Forall_app].
    assert (Hid : buf_load buf (b_offset buf) 4 = id) by (rewrite <- Hidz; by eapply load_front).
    rewrite Hid in *.
    destruct (law_unseal k x (id ++ sk_implicit K) (hdr ++ id) ct He Ha Hivz Hctb)
      as (c1 & c2 & c3 & u & -> & Had & Hup & Hc1 & Hul & Hub & Htags). cbn [negb].
    destruct (Htags tag Htagz) as (c4 & c5 & Hset & Hc5 & Hfin). unfold OPENVPN_AEAD_TAG_LENGTH in *.
    pose proof (pid_read_spec buf false Hb) as Hpid. unfold pid_parse in Hpid. rewrite Hlen in Hpid.
    destruct (Z.ltb_spec (b_len buf) 4); [lia|]. rewrite Hw' in Hpid. replace 4%nat with (length id) in Hpid by (unfold zlen in Hidz; lia).
    change (Z.to_nat 4) with 4%nat in Hpid. replace 4%nat with (length id) in Hpid by (unfold zlen in Hidz; lia).
    rewrite take_app_length, drop_app_length in Hpid.
    destruct Hpid as (b1 & -> & L1 & C1 & Ed1 & Eo1 & El1). cbn [negb]. unfold packet_id_size in *.
    destruct (Z.ltb_spec (b_len b1) 16); [rewrite <- (buf_contents_length b1 L1), C1, zlen_app in *; lia|].
    rewrite (buf_live_bptr b1 L1). cbn.
    destruct (advance_room b1 16 L1) as (b2 & -> & L2 & C2 & Hz2 & Ed2 & Ec2 & Eo2 & El2); [lia|].
    rewrite C1 in C2. apply app_inj_zlen in C2 as [Ht C2]; [|lia]. pose proof (buf_contents_length b2 L2) as Hb2l. rewrite <- C2 in Hb2l.
    rewrite (proj2 (Z.ltb_ge (b_len b2) 1)) by lia.
    assert (Hbs1 : EVP_CIPHER_CTX_block_size c1 = ck_block k) by (apply (law_ctx k c1); auto). rewrite Hbs1.
    rewrite (safe_room w0) by (done || lia). cbn [negb]. rewrite (buf_live_bptr b2 L2). cbn.
    assert (Hadl : buf_load b2 (b_offset buf - zlen hdr) (b_offset b2 - (b_offset buf - zlen hdr) - 16) = hdr ++ id).
    { unfold buf_load. rewrite Ed2, Ed1. fold (buf_load buf (b_offset buf - zlen hdr) (b_offset b2 - (b_offset buf - zlen hdr) - 16)).
      replace (b_offset b2 - (b_offset buf - zlen hdr) - 16) with (zlen hdr + 4) by lia.
      assert (Hwf := Hb). destruct Hwf as [[_ _ _ ? _ _] _]. rewrite buf_load_app by (done || lia).
      rewrite Hhdr. replace (b_offset buf - zlen hdr + zlen hdr) with (b_offset buf) by lia. by rewrite Hid. }
    rewrite Hadl, Had. cbn. rewrite <- C2, Hup. cbn. rewrite (buf_live_bptr w0 L0). cbn.
    assert (Htag : buf_load b2 (b_offset b1) 16 = tag) by (rewrite Ht; unfold buf_load; by rewrite Ed2). rewrite Htag.
    assert (Hbend : buf_bend w0 = Some (b_offset w0)) by (unfold buf_bend; rewrite buf_live_bptr, buf_live_len by done; cbn; f_equal; lia).
    destruct (unseal k (id ++ sk_implicit K) (hdr ++ id) ct tag) as [p|] eqn:Hun; cbn.
    + destruct Hfin as (v & Hfin & Hp). destruct (law_unseal_size _ _ _ _ _ _ Hctb Hun) as [Hpl Hpb]. rewrite <- Hp in Hpl, Hpb.
      destruct (append_outs w0 (b_offset w0) u v L0 Hbend Hpb) as (w1 & w2 & w3 & w4 & -> & E2 & _ & E3 & E4 & L4 & C4 & _); [lia|].
      cbn. rewrite E2, Hset, Hfin, E3. cbn. rewrite E4. exists (set_decrypt opt ((o_decrypt opt) <| kc_cipher := Some c5 |>)).
      split; [by apply Hrecv|]. exists w4, (buf_drop b2). split; [done|]. split; [by rewrite C4, C0, Hp|]. split; [done|].
      destruct (check_replay _ _ _) as [[[] ?]|]; done.
    + destruct (append_out w0 u L0) as (w1 & w2 & E1 & E2 & _); [lia|done|]. rewrite Hbend in E1. rewrite E1. cbn.
      rewrite E2, Hset, Hfin. by apply drop_result, Hrecv.
Qed.

Lemma received_trans K a b c : received K a b -> received K b c -> received K a c.
Proof. intros (x & _ & ->) (y & Hy & ->). exists y. split; [done|]. by destruct a as [[]]. Qed.

Lemma received_keyed K a b : received K a b -> keyed decrypts K (o_decrypt b).
Proof. by intros (x & Hx & ->). Qed.

Lemma received_frame K a b : received K a b ->
  o_packet_id b = o_packet_id a /\ long_form b = long_form a /\ ignore_packet_id b = ignore_packet_id a /\
  o_pid_persist b = o_pid_persist a /\ o_encrypt b = o_encrypt a.
Proof. by intros (x & _ & ->). Qed.

Lemma decrypt_v1_hmac_spec buf opt K : keyed decrypts K (o_decrypt opt) -> buf_live buf ->
  exists ok b opt', decrypt_v1_hmac buf opt = Some (ok, b, opt') /\ received K opt opt' /\
    kc_cipher (o_decrypt opt') = kc_cipher (o_decrypt opt) /\
    ok = negb (mac_fails K (buf_contents buf)) /\
    (ok = true -> buf_live b /\ buf_contents b = drop (Z.to_nat (mac_len K)) (buf_contents buf) /\ b_len b <= b_len buf).
Proof.
  intros HK Hb. assert (HK' := HK). destruct HK' as [_ Hm _ _]. unfold same in Hm.
  unfold decrypt_v1_hmac, mac_fails, mac_len, mac. rewrite (buf_contents_length buf Hb).
  assert (Hwf := Hb). destruct Hwf as [[_ _ Hl0 _ _ _] _].
  destruct (sk_hmac K) as [h|] eqn:Eh, (kc_hmac (o_decrypt opt)) as [x|] eqn:Ex; try done.
  2:{ exists true, buf, opt. split; [reflexivity|]. split; [by apply received_refl|]. split; [done|].
      cbn [drop Z.to_nat take]. rewrite (proj2 (Z.ltb_ge (b_len buf) 0)) by lia. done. }
  destruct (law_hmac h x (drop (Z.to_nat (hmac_len h)) (buf_contents buf)) Hm) as (_ & Hx0 & Hs & x' & Hf & Hx').
  destruct (law_hmac_size h (drop (Z.to_nat (hmac_len h)) (buf_contents buf))) as (Hl & Hz & _).
  unfold hmac_ctx_size, hmac_ctx_reset, hmac_ctx_update, hmac_ctx_final. rewrite Hs.
  assert (Hrecv : forall y, hmacs h y -> received K opt (set_decrypt opt ((o_decrypt opt) <| kc_hmac := Some y |>))).
  { intros y Hy. eexists. split; [by eapply keyed_set_hmac|done]. }
  destruct (Z.ltb_spec (b_len buf) (hmac_len h)) as [Hs1|Hs1].
  { do 3 eexists. split; [reflexivity|]. split; [by apply Hrecv|]. done. }
  rewrite buf_live_bptr, buf_live_len by done. cbn.
  destruct (advance_room buf (hmac_len h) Hb) as (b & Ha & L & C & Hz1 & _ & _ & _ & El); [lia|].
  assert (Hn : Z.to_nat (hmac_len h) = length (buf_load buf (b_offset buf) (hmac_len h))) by (unfold zlen in Hz1; lia).
  assert (Hdrop : drop (Z.to_nat (hmac_len h)) (buf_contents buf) = buf_contents b).
  { rewrite C, Hn. apply drop_app_length. }
  assert (Htake : take (Z.to_nat (hmac_len h)) (buf_contents buf) = buf_load buf (b_offset buf) (hmac_len h)).
  { rewrite C, Hn at 1. apply take_app_length. }
  assert (Hload : buf_load buf (b_offset buf + hmac_len h) (b_len buf - hmac_len h) = buf_contents b).
  { rewrite <- Hz1 at 1. replace (b_len buf - hmac_len h) with (zlen (buf_contents b)) by (rewrite buf_contents_length; [lia|done]).
    by apply load_back. }
  rewrite Hdrop, Htake, Hload in *. rewrite Hf. rewrite take_ge by (unfold zlen in Hz; lia).
  destruct (bytes_eqb _ _); cbn [negb].
  - rewrite Ha. do 3 eexists. split; [reflexivity|]. split; [by apply Hrecv|]. split_and!; try done. intros _. split_and!; try done. lia.
  - do 3 eexists. split; [reflexivity|]. split; [by apply Hrecv|]. done.
Qed.

(** The packet id of a deciphered packet. *)
Lemma decrypt_v1_pin_spec work opt k x cf iv : is_aead k = false -> buf_live work ->
  (if is_cbc k then 0 <= iv_len k <= OPENVPN_MAX_IV_LENGTH
   else is_stream k = true /\ pc_on cf = true /\ 8 <= iv_len k <= OPENVPN_MAX_IV_LENGTH) ->
  packet_id_initialized (o_packet_id opt) = pc_on cf -> long_form opt = pc_long cf ->
  EVP_CIPHER_CTX_cipher x = ck_cipher k -> EVP_CIPHER_CTX_iv_length x = iv_len k -> zlen iv = iv_len k -> Forall is_byte iv ->
  match open_pin k cf iv (buf_contents work) with
  | None => exists pin b, decrypt_v1_pin work opt x iv = Some (false, pin, b)
  | Some (pin, p) => exists b, decrypt_v1_pin work opt x iv = Some (true, pin, b) /\ buf_live b /\ buf_contents b = p
  end.
Proof.
  intros Ha Hw Hok Hon Hlf Hx Hxl Hz Hby. unfold open_pin, decrypt_v1_pin, cipher_ctx_get_cipher_kt, cipher_ctx_iv_length. cbn.
  rewrite Hx, Hxl, is_cbc_spec, Hon, Hlf. unfold is_stream in Hok. destruct (is_cbc k).
  - destruct (pc_on cf); [|by exists work]. pose proof (pid_read_spec work (pc_long cf) Hw) as Hp.
    destruct (pid_parse (pc_long cf) (buf_contents work)) as [[pin rest]|]; cbn.
    + destruct Hp as (b & -> & L & C & _). by exists b.
    + destruct Hp as (pin & b & ->). by exists (Some pin), b.
  - destruct Hok as (-> & -> & Hn). unfold OPENVPN_MAX_IV_LENGTH in *. unfold buf_set_read.
    rewrite buf_size_valid_spec, (proj2 (Z.leb_le 0 (iv_len k))), (proj2 (Z.ltb_lt (iv_len k) (2 ^ 21))) by lia. cbn [andb mbind option_bind].
    set (b := mkbuffer (iv_len k) 0 (iv_len k) (Some iv)).
    assert (L : buf_live b) by (eapply buf_live_intro; cbn; rewrite ?BUF_SIZE_MAX_eq; try done; lia).
    assert (C : buf_contents b = iv).
    { rewrite (buf_contents_live b iv L eq_refl). cbn. rewrite <- Hz. apply mem_read_all. }
    pose proof (pid_read_spec b true L) as Hp. rewrite C in Hp.
    destruct (pid_parse true iv) as [[pin rest]|]; cbn.
    + destruct Hp as (b' & -> & _). by exists work.
    + destruct Hp as (pin & b' & ->). by exists (Some pin), work.
Qed.

Lemma decrypt_v1_plain_spec buf opt cf : buf_live buf ->
  packet_id_initialized (o_packet_id opt) = pc_on cf -> long_form opt = pc_long cf -> ignore_packet_id opt = pc_ignore cf ->
  match open_plain cf (buf_contents buf) with
  | None => exists b, decrypt_v1_plain buf opt = (false, b, None)
  | Some (pin, p) => exists b, decrypt_v1_plain buf opt = (true, b, pin) /\ buf_live b /\ buf_contents b = p
  end.
Proof.
  intros Hb Hon Hlf Hig. unfold open_plain, decrypt_v1_plain. rewrite Hon, Hlf, Hig. destruct (pc_on cf); [|by exists buf].
  pose proof (pid_read_spec buf (pc_long cf) Hb) as Hp.
  destruct (pid_parse (pc_long cf) (buf_contents buf)) as [[pin rest]|]; cbn.
  - destruct Hp as (b & -> & L & C & _). by exists b.
  - destruct Hp as (pin & b & ->). by exists buf.
Qed.

Lemma decrypt_v1_cipher_spec buf work opt f K cf k x : sk_cipher K = Some k -> is_aead k = false -> keys_ok K cf ->
  keyed decrypts K (o_decrypt opt) -> kc_cipher (o_decrypt opt) = Some x ->
  packet_id_initialized (o_packet_id opt) = pc_on cf -> long_form opt = pc_long cf ->
  buf_live buf -> work_room f work (b_len buf + ck_block k) ->
  exists ok b pin opt', decrypt_v1_cipher buf work opt f x = Some (ok, b, pin, opt') /\ received K opt opt' /\
    match open_body k cf (buf_contents buf) with
    | None => ok = false
    | Some (pin', p) => ok = true /\ pin = pin' /\ buf_live b /\ buf_contents b = p
    end.
Proof.
  intros Hk Ha Hok HK Hx Hon Hlf Hb (Hw & Hh0 & Hroom). unfold keys_ok in Hok. rewrite Hk, Ha in Hok.
  destruct (keyed_decrypts _ _ _ HK Hk) as (x' & Hx' & He & Hkt & Hl & Hbs). rewrite Hx in Hx'. injection Hx' as <-.
  pose proof (law_block k) as Hblk. unfold open_body. rewrite (buf_contents_length buf Hb).
  assert (Hn : 0 <= iv_len k <= OPENVPN_MAX_IV_LENGTH) by (destruct (is_cbc k); lia).
  unfold decrypt_v1_cipher, cipher_ctx_iv_length, cipher_ctx_block_size, cipher_ctx_reset, cipher_ctx_update, cipher_ctx_final.
  assert (Hwf := Hb). destruct Hwf as [[_ _ Hl0 _ _ _] _]. rewrite Hl.
  destruct (buf_init_live work (FRAME_HEADROOM_ADJ f FRAME_HEADROOM_MARKER_DECRYPT) Hw) as (w0 & -> & L0 & Ec0 & Eo0 & El0 & C0); [lia|].
  assert (Hfail : forall b : buffer, exists ok (b0 : buffer) (pin : option packet_id_net) opt',
    Some (false, b, None, opt) = Some (ok, b0, pin, opt') /\ received K opt opt' /\ ok = false).
  { intros b. do 4 eexists. split; [reflexivity|]. by split; [apply received_refl|]. }
  destruct (Z.ltb_spec (b_len buf) (iv_len k)) as [Hs|Hs]; [rewrite (proj2 (Z.ltb_lt _ _)) by lia; apply Hfail|].
  rewrite (buf_live_bptr buf Hb). cbn.
  destruct (advance_room buf (iv_len k) Hb) as (b1 & -> & L1 & C1 & Hz1 & _ & _ & _ & El1); [lia|].
  destruct (Z.ltb_spec (b_len b1) 1) as [Hs1|Hs1]; [rewrite (proj2 (Z.ltb_lt _ _)) by lia; apply Hfail|].
  rewrite (proj2 (Z.ltb_ge _ _)) by lia. set (iv := buf_load buf (b_offset buf) (iv_len k)) in *.
  assert (Hn1 : Z.to_nat (iv_len k) = length iv) by (unfold zlen in Hz1; lia).
  rewrite C1, Hn1, take_app_length, drop_app_length.
  assert (Hbytes := buf_contents_bytes buf (proj1 Hb)). rewrite C1 in Hbytes. apply Forall_app in Hbytes as [Hivb Hctb].
  destruct (law_decipher k x iv (buf_contents b1) He Ha Hz1 Hctb) as (c1 & c3 & c4 & u & -> & Hup & Hc1 & Hc4 & Hul & Hub & Hfin). cbn [negb].
  rewrite (buf_contents_length b1 L1) in Hul.
  assert (Hbs1 : EVP_CIPHER_CTX_block_size c1 = ck_block k) by (apply (law_ctx k c1); auto). rewrite Hbs1.
  rewrite (safe_room w0) by (done || lia). cbn [negb]. rewrite Hup. cbn. rewrite (buf_live_bptr w0 L0). cbn.
  assert (Hrecv : received K opt (set_decrypt opt ((o_decrypt opt) <| kc_cipher := Some c4 |>))).
  { eexists. split; [by eapply keyed_set_cipher|done]. }
  assert (Hbend : buf_bend w0 = Some (b_offset w0)) by (unfold buf_bend; rewrite buf_live_bptr, buf_live_len by done; cbn; f_equal; lia).
  destruct (decipher k iv (buf_contents b1)) as [p|] eqn:Hd; cbn.
  - destruct Hfin as (v & Hfin & Hp). destruct (law_decipher_size _ _ _ _ Hctb Hd) as [Hpl Hpb]. rewrite <- Hp in Hpl, Hpb.
    rewrite (buf_contents_length b1 L1) in Hpl.
    destruct (append_outs w0 (b_offset w0) u v L0 Hbend Hpb) as (w1 & w2 & w3 & w4 & -> & E2 & _ & E3 & E4 & L4 & C4 & _); [lia|].
    cbn. rewrite E2, Hfin, E3. cbn. rewrite E4. rewrite C0, Hp in C4. cbn in C4.
    assert (Hkt4 : EVP_CIPHER_CTX_cipher c4 = ck_cipher k /\ EVP_CIPHER_CTX_iv_length c4 = iv_len k).
    { destruct (law_ctx k c4) as (? & ? & _); auto. }
    set (opt4 := set_decrypt opt ((o_decrypt opt) <| kc_cipher := Some c4 |>)) in *.
    change (set_decrypt (set_decrypt opt _) _) with opt4.
    pose proof (decrypt_v1_pin_spec w4 opt4 k c4 cf iv Ha L4 Hok Hon Hlf (proj1 Hkt4) (proj2 Hkt4) Hz1 Hivb) as Hpin.
    rewrite C4 in Hpin. destruct (open_pin k cf iv p) as [[pin' q]|].
    + destruct Hpin as (b & -> & L & C). cbn. exists true, b, pin', opt4. done.
    + destruct Hpin as (pin & b & ->). cbn. exists false, b1, pin, opt4. done.
  - destruct (append_out w0 u L0) as (w1 & w2 & E1 & E2 & _); [lia|done|]. rewrite Hbend in E1. rewrite E1. cbn.
    rewrite E2, Hfin. do 4 eexists. split; [reflexivity|]. done.
Qed.

Lemma decrypt_v1_spec now buf work opt f K cf hdr : keys_ok K cf -> (forall k, sk_cipher K = Some k -> is_aead k = false) ->
  keyed decrypts K (o_decrypt opt) -> packet_id_initialized (o_packet_id opt) = pc_on cf -> long_form opt = pc_long cf ->
  ignore_packet_id opt = pc_ignore cf -> buf_live buf -> 0 < b_len buf ->
  (forall k, sk_cipher K = Some k -> work_room f work (b_len buf + ck_block k)) ->
  decrypt_result now K opt (open_packet K cf hdr (buf_contents buf)) (openvpn_decrypt_v1 now buf work opt f).
Proof.
  intros Hok Ha HK Hon Hlf Hig Hb Hpos Hroom. unfold openvpn_decrypt_v1. rewrite (proj2 (Z.ltb_lt 0 (b_len buf)) Hpos).
  destruct (decrypt_v1_hmac_spec buf opt K HK Hb) as (ok & b & opt1 & -> & Hrc & Hc1 & -> & Hb1). cbn.
  assert (HK1 := received_keyed _ _ _ Hrc). destruct (received_frame _ _ _ Hrc) as (Ep & El & Ei & _). unfold open_packet.
  destruct (mac_fails K (buf_contents buf)) eqn:Hf; cbn [negb] in *.
  { assert (match sk_cipher K with Some k => if is_aead k then open_aead K k hdr (buf_contents buf) else None | None => None end = None) as ->
      by (destruct (sk_cipher K) as [k|]; [by rewrite (Ha k)|done]).
    by apply drop_result. }
  destruct (Hb1 eq_refl) as (L1 & C1 & Hle). rewrite <- C1. clear Hb1.
  assert (Hgen : forall spec ok w pin opt2, received K opt1 opt2 ->
    match spec with None => ok = false | Some (pin', p) => ok = true /\ pin = pin' /\ buf_live w /\ buf_contents w = p end ->
    decrypt_result now K opt spec
      (if negb ok then Some (false, buf_drop w, opt2)
       else match pin with
            | Some pin => '(ok, opt) ← check_replay now opt2 pin;
                if negb (ok : bool) then Some (false, buf_drop b, opt) else Some (true, w, opt)
            | None => Some (true, w, opt2) end)).
  { intros spec ok w pin opt2 Hr2 Hspec. pose proof (received_trans _ _ _ _ Hrc Hr2) as Hr.
    destruct spec as [[pin' p]|]; [|subst ok; by apply drop_result]. destruct Hspec as (-> & -> & Lw & Cw). exists opt2. split; [done|].
    destruct pin' as [pin'|]; [|by exists w]. exists w, (buf_drop b). split; [done|]. split; [done|]. split; [done|].
    cbn. destruct (check_replay now opt2 pin') as [[[] ?]|]; done. }
  destruct HK1 as [Hsc _ _ _]. assert (HK1 := received_keyed _ _ _ Hrc). unfold same in Hsc.
  destruct (sk_cipher K) as [k|] eqn:Hk, (kc_cipher (o_decrypt opt1)) as [x|] eqn:Hx; try done.
  - rewrite (Ha k eq_refl). destruct (Hroom k eq_refl) as (? & ? & ?).
    destruct (decrypt_v1_cipher_spec b work opt1 f K cf k x Hk (Ha k eq_refl) Hok HK1 Hx) as (ok & w & pin & opt2 & -> & Hr2 & Hspec);
      [congruence|congruence|done|split; [done|lia]|]. by apply Hgen.
  - pose proof (decrypt_v1_plain_spec b opt1 cf L1) as Hp. rewrite Ep, El, Ei in Hp. specialize (Hp Hon Hlf Hig).
    destruct (open_plain cf (buf_contents b)) as [[pin p]|].
    + destruct Hp as (w & -> & Lw & Cw). apply (Hgen (Some (pin, p))); [by apply received_refl|done].
    + destruct Hp as (w & ->). apply (Hgen None); [by apply received_refl|done].
Qed.

(** *** The two ends *)

Definition keys_iv_len (K : keys) : Z := match sk_cipher K with Some k => iv_len k | None => 0 end.

(** Head room for what is put in front, and tail room in the work buffer for what
    [crypto_adjust_frame_parameters] counts. *)
Definition encrypt_room (K : keys) (cf : pid_conf) (kt : key_type) (buf work : buffer) : Prop :=
  buf_live buf /\ 0 < b_len buf /\ buf_live work /\
  id_size cf + (if sk_cipher K is Some _ then 0 else mac_len K + b_len work) <= b_offset buf /\
  b_offset work + b_len work + b_len buf + crypto_overhead kt (pc_on cf) (pc_long cf) <= b_capacity work.

(** The random source delivers as many bytes as asked for. *)
Definition prng_ok (prng : Z -> list Z) : Prop := forall n, 0 <= n -> zlen (prng n) = n /\ Forall is_byte (prng n).

(** In OFB and CFB mode the code insists on a packet id. *)
Definition no_rollover (now : Z) (K : keys) (opt : crypto_options) : Prop :=
  forall k, sk_cipher K = Some k -> is_aead k = false -> is_cbc k = false ->
    fst (packet_id_send_update now (o_send opt) true) = true.

Lemma keys_iv_nonneg K cf : keys_ok K cf -> 0 <= keys_iv_len K.
Proof.
  unfold keys_ok, keys_iv_len, OPENVPN_AEAD_MIN_IV_LEN. destruct (sk_cipher K) as [k|]; [|lia].
  destruct (is_aead k), (is_cbc k); lia.
Qed.

Lemma overhead_bounds K cf kt k : keys_type K kt -> keys_ok K cf -> sk_cipher K = Some k ->
  (if is_aead k then 4 + OPENVPN_AEAD_TAG_LENGTH else mac_len K + iv_len k + id_size cf) + ck_block k
  <= crypto_overhead kt (pc_on cf) (pc_long cf).
Proof.
  intros [Hc Hh] Hok Hk. rewrite Hk in Hc. cbn in Hc. unfold crypto_overhead, keys_ok, id_size, cipher_kt_tag_size, cipher_kt_iv_size in *. rewrite Hc, Hh, Hk in *.
  pose proof (law_block k). destruct (mac_size K []) as (_ & _ & Hm). fold (iv_len k). fold (is_aead k). unfold OPENVPN_AEAD_MIN_IV_LEN, OPENVPN_AEAD_TAG_LENGTH in *.
  destruct (is_aead k) eqn:Ha; [|lia].
  destruct Hok as (-> & ? & _). unfold packet_id_size. destruct (pc_long cf); lia.
Qed.

(** The head room of an encrypted packet. *)
Definition encrypt_spare (K : keys) (cf : pid_conf) (buf work : buffer) : Z :=
  match sk_cipher K with
  | Some _ => b_offset work
  | None => b_offset buf - (id_size cf + mac_len K + b_len work)
  end.

Lemma encrypt_core now prng buf work opt Ke Kd cf kt : options_ok Ke Kd cf opt -> keys_ok Ke cf -> keys_type Ke kt ->
  encrypt_room Ke cf kt buf work -> prng_ok prng -> no_rollover now Ke opt ->
  exists buf' opt', openvpn_encrypt now prng buf work (Some opt) = Some (buf', Some opt') /\
    let '(s, r) := seal_step now Ke cf (buf_contents work) (prng (keys_iv_len Ke)) (o_send opt) (buf_contents buf) in
    sent Ke s opt opt' /\
    match r with
    | Some w => buf_live buf' /\ buf_contents buf' = w /\ encrypt_spare Ke cf buf work = b_offset buf'
    | None => b_len buf' = 0
    end.
Proof.
  intros [HK _ Hon Hlf _] Hok Hkt (Hb & Hpos & Hw & Hid & Hroom) Hprng Hroll.
  destruct (Hprng (keys_iv_len Ke)) as [Hrl Hrb]; [by eapply keys_iv_nonneg|].
  unfold openvpn_encrypt. rewrite (proj2 (Z.ltb_lt 0 (b_len buf)) Hpos). unfold keys_iv_len in *.
  assert (Hgen : forall ok s (buf' : buffer) opt', stamped now Ke cf opt ok s -> sent Ke s opt opt' ->
    (if ok : bool then buf_live buf' /\ buf_contents buf' =
       seal_packet Ke cf (buf_contents work) (prng (keys_iv_len Ke)) s (buf_contents buf) /\ encrypt_spare Ke cf buf work = b_offset buf'
     else b_len buf' = 0) ->
    let '(s, r) := seal_step now Ke cf (buf_contents work) (prng (keys_iv_len Ke)) (o_send opt) (buf_contents buf) in
    sent Ke s opt opt' /\ match r with Some w => buf_live buf' /\ buf_contents buf' = w /\ encrypt_spare Ke cf buf work = b_offset buf'
      | None => b_len buf' = 0 end).
  { intros ok s buf' opt' Hst Hs Hr. unfold stamped in Hst. unfold seal_step. destruct (pc_on cf).
    - rewrite Hst. split; [done|]. by destruct ok.
    - destruct Hst as [-> ->]. done. }
  unfold keys_iv_len, encrypt_spare in *. assert (Hsc := kd_cipher _ _ _ HK). unfold same in Hsc.
  destruct (sk_cipher Ke) as [k|] eqn:Hk, (kc_cipher (o_encrypt opt)) as [x|] eqn:Hx; try done.
  - destruct (keyed_encrypts _ _ _ HK Hk) as (x' & Hx' & He & Hck & Hl & _). rewrite Hx in Hx'. injection Hx' as <-.
    pose proof (overhead_bounds Ke cf kt k Hkt Hok Hk) as Hov. cbn. rewrite Hck. fold (is_aead k). destruct (is_aead k) eqn:Ha.
    + assert (Hon' : pc_on cf = true) by (unfold keys_ok in Hok; rewrite Hk, Ha in Hok; apply Hok). rewrite Hon' in Hon.
      destruct (encrypt_aead_spec now buf work opt Ke cf k (prng (iv_len k)) Hk Ha Hok HK Hon Hb Hw)
        as (buf' & opt' & ok & s & -> & Hs & Hsent & Hr); [lia|].
      cbn. eexists _, _. split; [reflexivity|]. apply (Hgen ok s); [|done|by destruct ok; [destruct Hr as (? & ? & ?)|]].
      unfold stamped, id_long. by rewrite Hon', Hk, Ha.
    + destruct (encrypt_v1_cipher_spec now prng buf work opt Ke cf k x Hk Ha Hok HK Hon Hlf Hx)
        as (work' & marks & opt1 & ok & s & Hrun & Hst & Hsent & Hr); [by apply (Hroll k)|done|done|lia|done|done|lia|].
      unfold openvpn_encrypt_v1. rewrite (proj2 (Z.ltb_lt 0 (b_len buf)) Hpos), Hx, Hrun. cbn. destruct ok.
      * destruct Hr as (start & out & hole & -> & L & Eo & C & Hh & Hmk). destruct Hsent as (c & Hc & ->).
        destruct (encrypt_v1_hmac_spec (set_encrypt (set_send opt s) c) Ke work' (buf_contents work) hole _ Hc L C Hh start out Hmk)
          as (buf' & opt' & -> & L' & C' & Eo' & c' & Hc' & ->). cbn.
        eexists _, _. split; [reflexivity|]. apply (Hgen true s); [done|by exists c'|]. split; [done|].
        split; [|congruence]. rewrite C'. unfold seal_packet, seal_tail. by rewrite Hk, Ha.
      * destruct Hr as [-> Hr]. cbn. eexists _, _. split; [reflexivity|]. by apply (Hgen false s).
  - cbn. destruct (encrypt_v1_plain_spec now buf work opt Ke cf Hk HK Hon Hlf Hb (live_readable work Hw))
      as (work' & marks & opt1 & ok & s & Hrun & Hst & Hsent & Hr); [lia|].
    unfold openvpn_encrypt_v1. rewrite (proj2 (Z.ltb_lt 0 (b_len buf)) Hpos), Hx, Hrun. cbn. destruct ok.
    + destruct Hr as (start & out & hole & -> & L & Eo & C & Hh & Hmk). destruct Hsent as (c & Hc & ->).
      destruct (encrypt_v1_hmac_spec (set_encrypt (set_send opt s) c) Ke work' (buf_contents work) hole _ Hc L C Hh start out Hmk)
        as (buf' & opt' & -> & L' & C' & Eo' & c' & Hc' & ->). cbn.
      eexists _, _. split; [reflexivity|]. apply (Hgen true s); [done|by exists c'|]. split; [done|].
      split; [|congruence]. rewrite C'. unfold seal_packet, seal_tail. by rewrite Hk.
    + destruct Hr as [-> Hr]. cbn. eexists _, _. split; [reflexivity|]. by apply (Hgen false s).
Qed.

(** The bytes in front of a received packet. *)
Definition header_at (buf : buffer) (hdr : list Z) (ad_start : Z) : Prop :=
  ad_start = b_offset buf - zlen hdr /\ zlen hdr <= b_offset buf /\ buf_load buf ad_start (zlen hdr) = hdr.

Definition decrypt_room (K : keys) (f : frame) (buf work : buffer) : Prop :=
  buf_live buf /\ 0 < b_len buf /\ forall k, sk_cipher K = Some k -> work_room f work (b_len buf + ck_block k).

(** [openvpn_decrypt] for options that are there. *)
Definition decrypt (now : Z) (buf work : buffer) (opt : crypto_options) (f : frame) (ad_start : Z)
  : option (bool * buffer * crypto_options) :=
  '(ok, b, opt) ← openvpn_decrypt now buf work (Some opt) f (Some ad_start); opt ← opt; Some (ok, b, opt).

Lemma decrypt_core now buf work opt f Ke Kd cf hdr ad_start : options_ok Ke Kd cf opt -> keys_ok Kd cf ->
  decrypt_room Kd f buf work -> header_at buf hdr ad_start ->
  decrypt_result now Kd opt (open_packet Kd cf hdr (buf_contents buf)) (decrypt now buf work opt f ad_start).
Proof.
  intros [_ HK Hon Hlf Hig] Hok (Hb & Hpos & Hroom) (-> & Hho & Hhdr). unfold decrypt, openvpn_decrypt.
  rewrite (proj2 (Z.ltb_lt 0 (b_len buf)) Hpos).
  assert (Hgen : forall spec r, decrypt_result now Kd opt spec r ->
    decrypt_result now Kd opt spec ('(ok, b, opt) ← ('(ret, buf, opt) ← r; Some (ret, buf, Some opt)); opt ← opt; Some (ok, b, opt))).
  { intros spec r (opt1 & Hr & Hs). exists opt1. split; [done|]. destruct spec as [[[pin|] p]|].
    - destruct Hs as (b & d & Lb & Cb & Ld & ->). exists b, d. split_and!; try done.
      destruct (check_replay now opt1 pin) as [[[] ?]|]; done.
    - destruct Hs as (b & -> & ?). by exists b.
    - destruct Hs as (b & -> & ?). by exists b. }
  apply Hgen. assert (Hsc := kd_cipher _ _ _ HK). unfold same in Hsc.
  destruct (sk_cipher Kd) as [k|] eqn:Hk, (kc_cipher (o_decrypt opt)) as [x|] eqn:Hx; try done.
  - destruct (keyed_decrypts _ _ _ HK Hk) as (x' & Hx' & He & Hck & Hl & _). rewrite Hx in Hx'. injection Hx' as <-.
    cbn. rewrite Hck. fold (is_aead k). destruct (is_aead k) eqn:Ha.
    + assert (Hon' : pc_on cf = true) by (unfold keys_ok in Hok; rewrite Hk, Ha in Hok; apply Hok). rewrite Hon' in Hon.
      unfold open_packet. rewrite Hk, Ha. apply (decrypt_aead_spec now buf work opt f Kd cf k hdr); try done. by apply Hroom.
    + apply decrypt_v1_spec; try done; intros k' Hk'; [congruence|]. apply Hroom. congruence.
  - cbn. apply decrypt_v1_spec; try done; intros k' Hk'; congruence.
Qed.

(** *** The specification undoes itself *)

(** The packet id the receiver reads and whether it checks it. *)
Definition wire_pin (K : keys) (cf : pid_conf) (s : packet_id_send) : packet_id_net :=
  mknet (s_id s) (if id_long K cf then u32 (s_time s) else 0).
Definition pin_checked (K : keys) (cf : pid_conf) : bool :=
  pc_on cf && match sk_cipher K with Some _ => true | None => negb (pc_ignore cf) end.

Lemma take_app_zlen {A} (l k : list A) n : zlen l = n -> take (Z.to_nat n) (l ++ k) = l.
Proof. intros <-. unfold zlen. rewrite Nat2Z.id. apply take_app_length. Qed.
Lemma drop_app_zlen {A} (l k : list A) n : zlen l = n -> drop (Z.to_nat n) (l ++ k) = k.
Proof. intros <-. unfold zlen. rewrite Nat2Z.id. apply drop_app_length. Qed.

Lemma pid_parse_bytes lf s rest : is_u 32 (s_id s) ->
  pid_parse lf (pid_bytes lf s ++ rest) = Some (mknet (s_id s) (if lf then u32 (s_time s) else 0), rest).
Proof.
  intros Hid. unfold pid_parse. rewrite zlen_app, pid_bytes_len. pose proof (zlen_nonneg rest). unfold packet_id_size.
  destruct (Z.ltb_spec ((4 + if lf then 4 else 0) + zlen rest) (if lf then 8 else 4)); [destruct lf; lia|].
  rewrite drop_app_zlen by (rewrite pid_bytes_len; by destruct lf). unfold pid_bytes. rewrite <- !app_assoc.
  rewrite (take_app_length' (be32 (s_id s))), (drop_app_length' (be32 (s_id s))), be32_val_id by done.
  destruct lf; [|done]. rewrite take_app_length', be32_val_id by (done || by apply wrap_range). done.
Qed.

Lemma mac_verifies K body : mac_fails K (mac K body ++ body) = false.
Proof.
  destruct (mac_size K body) as (Hz & _ & Hn). unfold mac_fails. rewrite zlen_app, Hz, drop_app_zlen, take_app_zlen by done.
  pose proof (zlen_nonneg body). rewrite (proj2 (Z.ltb_ge _ _)) by lia. unfold bytes_eqb. by rewrite bool_decide_eq_true_2.
Qed.

Lemma seal_tail_body K cf hdr rnd s p k : sk_cipher K = Some k -> is_aead k = false ->
  seal_tail K cf hdr rnd s p = mac K (cipher_iv k rnd s ++ encipher k (cipher_iv k rnd s) (cipher_id k cf s ++ p))
    ++ cipher_iv k rnd s ++ encipher k (cipher_iv k rnd s) (cipher_id k cf s ++ p).
Proof. intros Hk Ha. unfold seal_tail. by rewrite Hk, Ha. Qed.

Lemma open_seal_aead K k hdr s p : is_u 32 (s_id s) -> Forall is_byte p -> 0 < zlen p ->
  let id := pid_bytes false s in let c := seal k (id ++ sk_implicit K) (hdr ++ id) p in
  open_aead K k hdr (id ++ snd c ++ fst c) = Some (Some (mknet (s_id s) 0), p).
Proof.
  intros Hid Hp Hpos id c. destruct (law_seal_size k (id ++ sk_implicit K) (hdr ++ id) p Hp) as (Hcl & Htl & _).
  fold c in Hcl, Htl. unfold open_aead. assert (Hidl : zlen id = 4) by (apply pid_bytes_len).
  unfold OPENVPN_AEAD_TAG_LENGTH in *. rewrite !zlen_app, Hidl, Htl. rewrite (proj2 (Z.ltb_ge _ _)) by lia.
  change 4%nat with (Z.to_nat 4). rewrite take_app_zlen, drop_app_zlen, take_app_zlen, drop_app_zlen by done.
  unfold c. rewrite law_unseal_seal by done. cbn. unfold id, pid_bytes. rewrite app_nil_r, be32_val_id by done. done.
Qed.

Lemma open_seal K cf hdr rnd s p : keys_ok K cf -> is_u 32 (s_id s) -> Forall is_byte p -> 0 < zlen p ->
  zlen rnd = keys_iv_len K ->
  open_packet K cf hdr (seal_tail K cf hdr rnd s p) = Some (if pin_checked K cf then Some (wire_pin K cf s) else None, p).
Proof.
  intros Hok Hid Hp Hpos Hrnd. unfold open_packet, pin_checked, wire_pin, id_long, keys_ok, keys_iv_len in *.
  destruct (sk_cipher K) as [k|] eqn:Hk.
  - destruct (is_aead k) eqn:Ha.
    { unfold seal_tail. rewrite Hk, Ha. destruct Hok as (-> & _). by apply open_seal_aead. }
    rewrite (seal_tail_body K cf hdr rnd s p k Hk Ha), mac_verifies, drop_app_zlen by apply mac_size.
    set (iv := cipher_iv k rnd s).
    assert (Hivz : zlen iv = iv_len k).
    { unfold iv, cipher_iv. destruct (is_cbc k); [done|]. rewrite zlen_app, pid_bytes_len. unfold packet_id_size, zlen.
      rewrite length_replicate. lia. }
    assert (Hin : Forall is_byte (cipher_id k cf s ++ p)).
    { apply Forall_app. split; [unfold cipher_id; destruct (is_cbc k && pc_on cf); auto with ovpn|done]. }
    destruct (law_encipher_size k iv _ Hin) as (Hsz & _). rewrite zlen_app in Hsz. pose proof (zlen_nonneg (cipher_id k cf s)).
    unfold open_body. rewrite zlen_app, Hivz, (proj2 (Z.ltb_ge _ _)), take_app_zlen, drop_app_zlen, law_decipher_encipher by (done || lia).
    cbn. unfold open_pin, cipher_id, iv, cipher_iv. destruct (is_cbc k).
    + destruct (pc_on cf); cbn; [|done]. by rewrite pid_parse_bytes.
    + destruct Hok as (_ & -> & _). cbn. by rewrite pid_parse_bytes.
  - unfold seal_tail. rewrite Hk, mac_verifies, drop_app_zlen by apply mac_size. unfold open_plain.
    destruct (pc_on cf); cbn; [|done]. rewrite pid_parse_bytes by done. cbn. by destruct (pc_ignore cf).
Qed.

Lemma seal_tail_nonempty K cf hdr rnd s p : Forall is_byte p -> 0 < zlen p -> 0 < zlen (seal_tail K cf hdr rnd s p).
Proof.
  intros Hp Hpos. unfold seal_tail. destruct (sk_cipher K) as [k|].
  - destruct (is_aead k).
    + destruct (law_seal_size k (pid_bytes false s ++ sk_implicit K) (hdr ++ pid_bytes false s) p Hp) as (? & ? & _).
      rewrite !zlen_app, pid_bytes_len. unfold OPENVPN_AEAD_TAG_LENGTH, packet_id_size in *. lia.
    + assert (Hin : Forall is_byte (cipher_id k cf s ++ p)).
      { apply Forall_app. split; [unfold cipher_id; destruct (is_cbc k && pc_on cf); auto with ovpn|done]. }
      destruct (law_encipher_size k (cipher_iv k rnd s) _ Hin) as (Hsz & _). rewrite !zlen_app in *.
      match goal with |- 0 < zlen ?a + _ => pose proof (zlen_nonneg a) end.
      pose proof (zlen_nonneg (cipher_iv k rnd s)). pose proof (zlen_nonneg (cipher_id k cf s)). lia.
  - rewrite !zlen_app. match goal with |- 0 < zlen ?a + (zlen ?b + _) => pose proof (zlen_nonneg a); pose proof (zlen_nonneg b) end. lia.
Qed.

Lemma overhead_nonneg K cf kt : keys_type K kt -> keys_ok K cf -> 0 <= crypto_overhead kt (pc_on cf) (pc_long cf).
Proof.
  intros Hkt Hok. destruct (sk_cipher K) as [k|] eqn:Hk.
  - pose proof (overhead_bounds K cf kt k Hkt Hok Hk) as Hb. pose proof (law_block k). pose proof (id_size_range cf).
    destruct (mac_size K []) as (_ & _ & Hm). pose proof (keys_iv_nonneg K cf Hok) as Hn. unfold keys_iv_len in Hn. rewrite Hk in Hn.
    unfold OPENVPN_AEAD_TAG_LENGTH in *. destruct (is_aead k); lia.
  - destruct Hkt as [Hc Hh]. unfold crypto_overhead. rewrite Hc, Hk, Hh. cbn. destruct (mac_size K []) as (_ & _ & Hm).
    unfold packet_id_size. destruct (pc_on cf), (pc_long cf); lia.
Qed.

End Refinement.
