(* ===== verification/CryptoToy.v ===== *)
(** A toy implementation of the cryptographic library: an additive cipher with a
    checksum for a tag.  It is not part of the program; it shows that the laws of
    [Crypto.EvpLaws] can be met, and the examples run on it. *)
From S2P Require Import Prelude Integer CircList Buffer PacketId Mtu Crypto.

(** Two ciphers, one with and one without a tag; a key is a cipher and a number. *)
Record toy_ctx := mktoy { ty_key : bool * Z; ty_enc : bool; ty_iv : list Z; ty_ad : list Z; ty_in : list Z; ty_tag : list Z }.

Definition toy_sum (l : list Z) : Z := foldr Z.add 0 l.
Definition toy_tag (k : Z) (iv ad ct : list Z) : list Z := replicate 16 (u8 (k + toy_sum iv + 3 * toy_sum ad + 5 * toy_sum ct)).
Definition toy_enc (k : Z) (l : list Z) : list Z := map (fun b => u8 (b + k)) l.
Definition toy_dec (k : Z) (l : list Z) : list Z := map (fun b => u8 (b - k)) l.
(** Three digests; a MAC key is a digest and a number. *)
Inductive toy_md := toy_md5 | toy_sha1 | toy_sha256.
Definition toy_md_size (md : toy_md) : Z := match md with toy_md5 => 16 | toy_sha1 => 20 | toy_sha256 => 32 end.
Definition toy_mac (k : toy_md * Z) (d : list Z) : list Z := replicate (Z.to_nat (toy_md_size (fst k))) (u8 (snd k + toy_sum d)).

#[export] Instance toy_lib : EvpLib := {|
  EVP_CIPHER := bool;
  EVP_MD := toy_md;
  EVP_CIPHER_CTX := toy_ctx;
  HMAC_CTX := (toy_md * Z) * list Z;
  EVP_CIPHER_nid := fun c => if c then NID_aes_256_gcm else 906;
  EVP_CIPHER_mode := fun c => if c then 6 else 5;
  EVP_CIPHER_flags := fun c => if c then EVP_CIPH_FLAG_AEAD_CIPHER else 0;
  EVP_CIPHER_iv_length := fun c => if c then 12 else 16;
  EVP_CIPHER_block_size := fun _ => 1;
  EVP_cbc_variant := fun _ => None;
  EVP_CIPHER_CTX_cipher := fun c => fst (ty_key c);
  EVP_CIPHER_CTX_iv_length := fun c => if fst (ty_key c) then 12 else 16;
  EVP_CIPHER_CTX_block_size := fun _ => 1;
  EVP_CipherInit_ex := fun c iv => (mktoy (ty_key c) (ty_enc c) iv [] [] [], true);
  EVP_CipherUpdate_ad := fun c ad => Some (mktoy (ty_key c) (ty_enc c) (ty_iv c) ad [] []);
  EVP_CipherUpdate := fun c src =>
    let out := if ty_enc c then toy_enc (snd (ty_key c)) src else toy_dec (snd (ty_key c)) src in
    Some (mktoy (ty_key c) (ty_enc c) (ty_iv c) (ty_ad c) (if ty_enc c then out else src) (ty_tag c), out);
  EVP_CipherFinal := fun c =>
    let tag := toy_tag (snd (ty_key c)) (ty_iv c) (ty_ad c) (ty_in c) in
    (mktoy (ty_key c) (ty_enc c) (ty_iv c) (ty_ad c) (ty_in c) tag,
     if ty_enc c || negb (fst (ty_key c)) || bytes_eqb (ty_tag c) tag then Some [] else None);
  EVP_CTRL_GCM_GET_TAG := fun c n => Some (take (Z.to_nat n) (ty_tag c));
  EVP_CTRL_GCM_SET_TAG := fun c tag => Some (mktoy (ty_key c) (ty_enc c) (ty_iv c) (ty_ad c) (ty_in c) tag);
  HMAC_size := fun c => toy_md_size (fst (fst c));
  HMAC_Init := fun c => (fst c, []);
  HMAC_Update := fun c d => (fst c, snd c ++ d);
  HMAC_Final := fun c => (c, toy_mac (fst c) (snd c))
|}.

Lemma toy_dec_enc k p : Forall is_byte p -> toy_dec k (toy_enc k p) = p.
Proof.
  induction 1 as [|b p Hb _ IH]; [done|]. cbn. f_equal; [|exact IH]. unfold is_byte, wrap in *.
  rewrite Zminus_mod_idemp_l. replace (b + k - k) with b by lia. apply Z.mod_small. lia.
Qed.

Lemma toy_bytes (f : Z -> Z) l : Forall is_byte (map (fun b => u8 (f b)) l).
Proof. apply Forall_map, Forall_forall. intros x _. apply wrap_byte. Qed.

Lemma toy_replicate n x : Forall is_byte (replicate n (u8 x)).
Proof. apply Forall_replicate, wrap_byte. Qed.
#[export] Hint Resolve toy_bytes toy_replicate : ovpn.

Lemma toy_map_len (f : Z -> Z) l : zlen (map f l) = zlen l.
Proof. unfold zlen. by rewrite length_map. Qed.

#[local] Arguments toy_tag : simpl never.
#[local] Arguments toy_mac : simpl never.
#[local] Arguments toy_enc : simpl never.
#[local] Arguments toy_dec : simpl never.

#[export] Instance toy_laws : EvpLaws.
Proof.
  refine {|
    ckey := bool * Z; hkey := toy_md * Z;
    ck_cipher := fst; ck_block := fun _ => 1;
    encrypts := fun k c => ty_key c = k /\ ty_enc c = true;
    decrypts := fun k c => ty_key c = k /\ ty_enc c = false;
    hmacs := fun h c => fst c = h;
    hmac_len := fun h => toy_md_size (fst h);
    seal := fun k iv ad p => (toy_enc (snd k) p, toy_tag (snd k) iv ad (toy_enc (snd k) p));
    unseal := fun k iv ad ct tag => if bytes_eqb tag (toy_tag (snd k) iv ad ct) then Some (toy_dec (snd k) ct) else None;
    encipher := fun k _ p => toy_enc (snd k) p;
    decipher := fun k _ ct => Some (toy_dec (snd k) ct);
    hmac := toy_mac |}; cbn.
  - intros k c [[<- _]|[<- _]]; done.
  - intros _. lia.
  - intros k [k' e iv0 ad0 in0 tag0] iv ad p [Hk He] _ _ _. cbn in Hk, He. subst k' e.
    do 6 eexists. split; [reflexivity|]. cbn. split; [reflexivity|]. cbn. split; [reflexivity|]. cbn. split; [reflexivity|].
    cbn. by rewrite app_nil_r.
  - intros k iv ad p _. unfold toy_enc, toy_tag. rewrite toy_map_len. split_and!; try lia; try done; auto with ovpn.
  - intros k [k' e iv0 ad0 in0 tag0] iv ad ct [Hk He] Ha _ _. cbn in Hk, He. subst k' e. destruct k as [[] k]; [|done].
    do 4 eexists. split; [reflexivity|]. cbn. split; [reflexivity|]. cbn. split; [reflexivity|]. cbn. split; [done|].
    unfold toy_dec. rewrite toy_map_len. split; [lia|]. split; [auto with ovpn|]. intros tag _.
    do 2 eexists. split; [reflexivity|]. cbn. unfold bytes_eqb. case_bool_decide.
    + split; [|exists []; split; [reflexivity|by rewrite app_nil_r]]. done.
    + split; [|reflexivity]. done.
  - intros k iv ad ct tag p _. case_match; [|done]. intros [= <-]. unfold toy_dec. rewrite toy_map_len. split; [lia|auto with ovpn].
  - intros k iv ad p Hp. unfold bytes_eqb. rewrite bool_decide_eq_true_2 by done. by rewrite toy_dec_enc.
  - intros k [k' e iv0 ad0 in0 tag0] iv p [Hk He] _ _ _. cbn in Hk, He. subst k' e.
    do 5 eexists. split; [reflexivity|]. cbn. split; [reflexivity|]. cbn. split; [reflexivity|]. cbn. rewrite app_nil_r.
    repeat (split; [done|]). by destruct k as [[] ?].
  - intros k _ p _. unfold toy_enc. rewrite toy_map_len. split; [lia|auto with ovpn].
  - intros k [k' e iv0 ad0 in0 tag0] iv ct [Hk He] Ha _ _. cbn in Hk, He. subst k' e. destruct k as [[] k]; [done|].
    do 4 eexists. split; [reflexivity|]. cbn. split; [reflexivity|]. cbn. split; [done|].
    unfold toy_dec. rewrite toy_map_len. refine (conj _ (conj _ (conj _ (ex_intro _ [] (conj eq_refl _))))); [done|lia|auto with ovpn|by rewrite app_nil_r].
  - intros k _ ct p _ [= <-]. unfold toy_dec. rewrite toy_map_len. split; [lia|auto with ovpn].
  - intros k _ p Hp. by rewrite toy_dec_enc.
  - intros h c d <-. split_and!; try done. by exists (fst c, d).
  - intros [[] h] d; unfold OPENVPN_MAX_HMAC_SIZE, toy_mac; cbn [fst snd toy_md_size];
      (split; [done|split; [done|auto with ovpn]]).
Defined.

(** ** Examples *)

(** A buffer with [bs] at [off], and [hdr] in front of it. *)
Definition toy_buf (cap off : Z) (hdr bs : list Z) : buffer :=
  mkbuffer cap off (zlen bs) (Some (mem_write (replicate (Z.to_nat cap) 0) (off - zlen hdr) (hdr ++ bs))).

Lemma toy_buf_live cap off hdr bs : zlen hdr <= off -> off + zlen bs <= cap -> cap < 2 ^ 21 -> Forall is_byte (hdr ++ bs) ->
  buf_live (toy_buf cap off hdr bs).
Proof.
  intros Ho Hf Hc Hb. pose proof (zlen_nonneg bs). pose proof (zlen_nonneg hdr).
  assert (Hr : zlen (replicate (Z.to_nat cap) 0) = cap) by (unfold zlen; rewrite length_replicate; lia).
  eapply buf_live_intro; [reflexivity|..]; cbn; rewrite ?BUF_SIZE_MAX_eq; try lia.
  - rewrite zlen_mem_write; rewrite ?zlen_app; lia.
  - assert (Forall is_byte (replicate (Z.to_nat cap) 0)) by (apply Forall_replicate; unfold is_byte; lia). auto with ovpn.
Qed.

Lemma toy_buf_header cap off hdr bs : zlen hdr <= off -> off + zlen bs <= cap ->
  buf_load (toy_buf cap off hdr bs) (off - zlen hdr) (zlen hdr) = hdr.
Proof.
  intros Ho Hf. pose proof (zlen_nonneg bs). pose proof (zlen_nonneg hdr). unfold buf_load, toy_buf. cbn [b_data].
  assert (Hr : zlen (replicate (Z.to_nat cap) 0) = cap) by (unfold zlen; rewrite length_replicate; lia).
  set (d := mem_write _ _ _). assert (Hd : mem_read d (off - zlen hdr) (zlen (hdr ++ bs)) = hdr ++ bs).
  { apply mem_read_write_eq; rewrite ?zlen_app; lia. }
  rewrite zlen_app, mem_read_app in Hd by lia. apply app_inj_zlen in Hd as [Hd _]; [done|].
  apply mem_read_length; [lia|lia|]. unfold d. rewrite zlen_mem_write; rewrite ?zlen_app; lia.
Qed.

(** The side conditions, decided. *)
Definition toy_fits (cap off : Z) (hdr bs : list Z) : bool :=
  (zlen hdr <=? off) && (off + zlen bs <=? cap) && (cap <? 2 ^ 21) && forallb (fun b => (0 <=? b) && (b <? 2 ^ 8)) (hdr ++ bs).

Lemma toy_fits_live cap off hdr bs : toy_fits cap off hdr bs = true -> buf_live (toy_buf cap off hdr bs).
Proof.
  unfold toy_fits. rewrite !andb_true_iff, !Z.leb_le, Z.ltb_lt, forallb_forall. intros [[[? ?] ?] Hb].
  apply toy_buf_live; try done. apply Forall_forall. intros x Hx%list_elem_of_In%Hb. unfold is_byte. lia.
Qed.

Definition toy_K : keys := mkkeys (Some (true, 7)) None [9; 9; 9; 9; 9; 9; 9; 9].
Definition toy_cf : pid_conf := mkconf true false false.
Definition toy_kt : key_type := mkkt 32 0 (Some true) None.
Definition toy_key (enc : bool) : key_ctx :=
  mkkctx (Some (mktoy (true, 7) enc [] [] [] [])) None [9; 9; 9; 9; 9; 9; 9; 9; 0; 0; 0; 0; 0; 0; 0; 0] 8.
Definition toy_pid : packet_id := default packet_id_zero (packet_id_init 4 15 [] 0).
Definition toy_opt : crypto_options := mkopt (mkbi (toy_key true) (toy_key false) true) toy_pid None 0.
Definition toy_frame : frame := mkframe 1500 1500 32 0 0 0 0 0.
Definition toy_prng (n : Z) : list Z := replicate (Z.to_nat n) 5.

Lemma toy_opt_ok : options_ok toy_K toy_K toy_cf toy_opt.
Proof. repeat constructor. Qed.
Lemma toy_keys_ok : keys_ok toy_K toy_cf.
Proof. vm_compute. repeat split; try congruence. repeat constructor; congruence. Qed.
Lemma toy_keys_type : keys_type toy_K toy_kt.
Proof. done. Qed.
Lemma toy_prng_ok : prng_ok toy_prng.
Proof.
  intros n Hn. unfold toy_prng. split; [unfold zlen; rewrite length_replicate; lia|].
  apply Forall_replicate. unfold is_byte. lia.
Qed.
