(* ===== verification/DataChannel.v ===== *)
(** The data channel of a TLS session: which key a packet is encrypted and decrypted
    with ([tls_pre_encrypt], [handle_data_channel_packet] and their neighbours in
    [src/openvpn/ssl.c]), the headers of data packets, and the way of a packet
    through [encrypt_sign] and [process_incoming_link_part1] of [forward.c], without
    compression.  The key states of the scan list are a list; a pointer to one of
    them is its index. *)
From S2P Require Import Prelude Integer CircList Buffer PacketId ReliableProto Mtu Fragment Crypto.

(** ** Addresses *)

(** The memory of [struct openvpn_sockaddr] a comparison looks at: the word behind
    the port is the address in [sockaddr_in] and the flow label in [sockaddr_in6]. *)
Record openvpn_sockaddr := mkosa { sa_family : Z; sa_port : Z; sa_word : Z; sa_in6 : list Z }.
Definition AF_INET : Z := 2.
Definition AF_INET6 : Z := 10.

Definition addr_port_match (a1 a2 : openvpn_sockaddr) : option bool :=
  if sa_family a1 =? AF_INET then Some ((sa_word a1 =? sa_word a2) && (sa_port a1 =? sa_port a2))
  else if sa_family a1 =? AF_INET6 then Some (bytes_eqb (sa_in6 a1) (sa_in6 a2) && (sa_port a1 =? sa_port a2))
  else None.

Definition link_socket_actual_match (a1 a2 : openvpn_sockaddr) : option bool := addr_port_match a1 a2.

(** ** State *)

Definition KEY_SCAN_SIZE : Z := 3.
Definition S_GOT_KEY : Z := 5.
Definition S_ACTIVE : Z := 6.
Definition MAX_PEER_ID : Z := 0xFFFFFF.

Inductive ks_auth_state := KS_AUTH_FALSE | KS_AUTH_DEFERRED | KS_AUTH_TRUE.
#[export] Instance ks_auth_state_eq_dec : EqDecision ks_auth_state.
Proof. solve_decision. Defined.

Inductive client_connect_status :=
  CAS_SUCCEEDED | CAS_PENDING | CAS_PENDING_DEFERRED | CAS_PENDING_DEFERRED_PARTIAL | CAS_FAILED.
#[export] Instance client_connect_status_eq_dec : EqDecision client_connect_status.
Proof. solve_decision. Defined.

Section DataChannel.
Context `{EvpLib}.

(** The part of [struct key_state] the data channel uses. *)
Record key_state := mkdks {
  ks_state : Z;
  ks_key_id : Z;
  ks_remote_addr : openvpn_sockaddr;
  ks_crypto_options : crypto_options;
  ks_n_bytes : Z;
  ks_n_packets : Z;
  ks_authenticated : ks_auth_state;
  ks_auth_deferred_expire : Z
}.
#[export] Instance eta_dks : EtaOf key_state := fun r =>
  mkdks (ks_state r) (ks_key_id r) (ks_remote_addr r) (ks_crypto_options r) (ks_n_bytes r) (ks_n_packets r)
    (ks_authenticated r) (ks_auth_deferred_expire r).

Record tls_multi := mktm {
  tm_server : bool;
  tm_key_scan : list key_state;
  tm_save_ks : option nat;
  tm_multi_state : client_connect_status;
  tm_n_soft_errors : Z;
  tm_peer_id : Z;
  tm_use_peer_id : bool
}.
#[export] Instance eta_tm : EtaOf tls_multi := fun r =>
  mktm (tm_server r) (tm_key_scan r) (tm_save_ks r) (tm_multi_state r) (tm_n_soft_errors r) (tm_peer_id r) (tm_use_peer_id r).

Definition set_ks (m : tls_multi) (i : nat) (ks : key_state) : tls_multi :=
  m <| tm_key_scan := <[i := ks]> (tm_key_scan m) |>.

(** A pointer to the options of a key state, read and written. *)
Definition get_opt (m : tls_multi) (i : option nat) : option crypto_options :=
  i ← i; ks_crypto_options <$> tm_key_scan m !! i.
Definition set_opt (m : tls_multi) (i : option nat) (o : option crypto_options) : tls_multi :=
  match i, o with
  | Some i, Some o => match tm_key_scan m !! i with
                      | Some ks => set_ks m i (ks <| ks_crypto_options := o |>)
                      | None => m
                      end
  | _, _ => m
  end.

(** ** Sending *)

Definition send_key_usable (ks : key_state) : bool :=
  (S_ACTIVE <=? ks_state ks) && bool_decide (ks_authenticated ks = KS_AUTH_TRUE)
  && kb_initialized (o_key_ctx_bi (ks_crypto_options ks)).

Fixpoint select_send_key (now : Z) (i : nat) (l : list key_state) (ks_select : option nat) : option nat :=
  match l with
  | [] => ks_select
  | ks :: l =>
      if send_key_usable ks then
        let ks_select := match ks_select with None => Some i | Some j => Some j end in
        if ks_auth_deferred_expire ks <=? now then Some i
        else select_send_key now (S i) l ks_select
      else select_send_key now (S i) l ks_select
  end.

(** Answers the packet and the key to use. *)
Definition tls_pre_encrypt (now : Z) (m : tls_multi) (buf : buffer) : tls_multi * buffer * option nat :=
  let m := m <| tm_save_ks := None |> in
  if b_len buf <=? 0 then (m, buf <| b_len := 0 |>, None)
  else
    match select_send_key now 0 (tm_key_scan m) None with
    | Some i => (m <| tm_save_ks := Some i |>, buf, Some i)
    | None => (m, buf <| b_len := 0 |>, None)
    end.

Definition saved_ks (m : tls_multi) : option key_state := i ← tm_save_ks m; tm_key_scan m !! i.

Definition tls_prepend_opcode_v1 (m : tls_multi) (buf : buffer) : option buffer :=
  ks ← saved_ks m;
  let op := Z.lor (Z.shiftl P_DATA_V1 P_OPCODE_SHIFT) (ks_key_id ks) in
  let '(ok, buf) := buf_write_prepend buf [u8 op] in
  ASSERT ok ;; Some buf.

Definition tls_prepend_opcode_v2 (m : tls_multi) (buf : buffer) : option buffer :=
  ks ← saved_ks m;
  let peer := Z.lor (Z.shiftl (Z.lor (Z.shiftl P_DATA_V2 P_OPCODE_SHIFT) (ks_key_id ks)) 24)
                    (Z.land (tm_peer_id m) 0xFFFFFF) in
  let '(ok, buf) := buf_write_prepend buf (be32 (u32 peer)) in
  ASSERT ok ;; Some buf.

Definition tls_post_encrypt (m : tls_multi) (buf : buffer) : option tls_multi :=
  let save := tm_save_ks m in
  let m := m <| tm_save_ks := None |> in
  if 0 <? b_len buf then
    i ← save;
    ks ← tm_key_scan m !! i;
    Some (set_ks m i (ks <| ks_n_packets := u64 (ks_n_packets ks + 1) |>
                         <| ks_n_bytes := u64 (ks_n_bytes ks + b_len buf) |>))
  else Some m.

(** ** Receiving *)

(** [DECRYPT_KEY_ENABLED]: [multi->opt.server] counts as 1 or 0. *)
Definition DECRYPT_KEY_ENABLED (m : tls_multi) (ks : key_state) : bool :=
  S_GOT_KEY - (if tm_server m then 1 else 0) <=? ks_state ks.

(** The scan for the key of a data packet; [None] is a failed assertion, [Some
    None] no match. *)
Fixpoint find_data_key (m : tls_multi) (key_id : Z) (from : openvpn_sockaddr) (floated : bool) (i : nat)
    (l : list key_state) : option (option nat) :=
  match l with
  | [] => Some None
  | ks :: l =>
      if DECRYPT_KEY_ENABLED m ks && (key_id =? ks_key_id ks)
         && bool_decide (ks_authenticated ks = KS_AUTH_TRUE) then
        if floated then Some (Some i)
        else
          same ← link_socket_actual_match from (ks_remote_addr ks);
          if same : bool then Some (Some i) else find_data_key m key_id from floated (S i) l
      else find_data_key m key_id from floated (S i) l
  end.

(** Answers the packet behind its header, the key, and where the authenticated
    data begins. *)
Definition handle_data_channel_packet (m : tls_multi) (from : openvpn_sockaddr) (buf : buffer) (floated : bool)
  : option (tls_multi * buffer * option nat * option Z) :=
  bptr ← buf_bptr buf;
  let c := buf_peek buf bptr in
  let op := Z.shiftr c P_OPCODE_SHIFT in
  let key_id := Z.land c P_KEY_ID_MASK in
  k ← find_data_key m key_id from floated 0 (tm_key_scan m);
  match k with
  | None => Some (m, buf <| b_len := 0 |>, None, None)
  | Some i =>
      ks ← tm_key_scan m !! i;
      if negb (kb_initialized (o_key_ctx_bi (ks_crypto_options ks)))
      then Some (m, buf <| b_len := 0 |>, None, None)
      else
        let ad_start := if op =? P_DATA_V2 then buf_bptr buf else None in
        let '(ok, buf) := buf_advance buf 1 in
        ASSERT ok ;;
        let ad_start := if op =? P_DATA_V1 then buf_bptr buf else ad_start in
        if (op =? P_DATA_V2) && (b_len buf <? 4)
        then Some (m <| tm_n_soft_errors := tm_n_soft_errors m + 1 |>, buf <| b_len := 0 |>, None, ad_start)
        else
          let '(ok, buf) := if op =? P_DATA_V2 then buf_advance buf 3 else (true, buf) in
          ASSERT ok ;;
          Some (set_ks m i (ks <| ks_n_packets := u64 (ks_n_packets ks + 1) |>
                               <| ks_n_bytes := u64 (ks_n_bytes ks + b_len buf) |>),
                buf, Some i, ad_start)
  end.

(** ** The way of a packet *)

(** The part of [struct context] the data path uses. *)
Record data_context := mkdc {
  dc_multi : tls_multi;
  dc_frame : frame;
  dc_frame_fragment : frame;
  dc_fragment : option fragment_master;
  dc_encrypt_buf : buffer;
  dc_decrypt_buf : buffer
}.
#[export] Instance eta_dc : EtaOf data_context := fun r =>
  mkdc (dc_multi r) (dc_frame r) (dc_frame_fragment r) (dc_fragment r) (dc_encrypt_buf r) (dc_decrypt_buf r).

(** [encrypt_sign] of a context in TLS mode; the packet of length 0 is dropped. *)
Definition encrypt_sign (now : Z) (prng_bytes : Z -> list Z) (c : data_context) (buf : buffer) (comp_frag : bool)
  : option (data_context * buffer) :=
  let buf := if bool_decide (tm_multi_state (dc_multi c) = CAS_SUCCEEDED) then buf else buf <| b_len := 0 |> in
  '(c, buf) ←
    match dc_fragment c with
    | Some fm =>
        if comp_frag then
          '(fm, buf) ← fragment_outgoing fm buf (dc_frame_fragment c);
          Some (c <| dc_fragment := Some fm |>, buf)
        else Some (c, buf)
    | None => Some (c, buf)
    end;
  let '(ok, encrypt_buf) := buf_init_dowork (dc_encrypt_buf c) (FRAME_HEADROOM (dc_frame c)) in
  ASSERT ok ;;
  let '(m, buf, co) := tls_pre_encrypt now (dc_multi c) buf in
  encrypt_buf ← (if (0 <? b_len buf) && tm_use_peer_id m then tls_prepend_opcode_v2 m encrypt_buf
                 else Some encrypt_buf);
  '(buf, opt) ← openvpn_encrypt now prng_bytes buf encrypt_buf (get_opt m co);
  let m := set_opt m co opt in
  buf ← (if (0 <? b_len buf) && negb (tm_use_peer_id m) then tls_prepend_opcode_v1 m buf else Some buf);
  m ← tls_post_encrypt m buf;
  Some (c <| dc_multi := m |> <| dc_encrypt_buf := encrypt_buf |>, buf).

(** The data packet's way through [process_incoming_link_part1]: the key, then
    decryption.  The flag is the status of the decryption. *)
Definition incoming_data_packet (now : Z) (c : data_context) (from : openvpn_sockaddr) (buf : buffer) (floated : bool)
  : option (bool * buffer * data_context) :=
  '(m, buf, co, ad_start) ← handle_data_channel_packet (dc_multi c) from buf floated;
  let buf := if bool_decide (tm_multi_state m = CAS_SUCCEEDED) then buf else buf <| b_len := 0 |> in
  '(status, buf, opt) ← openvpn_decrypt now buf (dc_decrypt_buf c) (get_opt m co) (dc_frame c) ad_start;
  Some (status, buf, c <| dc_multi := set_opt m co opt |>).

End DataChannel.

(** ** What the functions do *)

Section Transport.
Context `{EvpLaws}.
#[local] Arguments seal_step : simpl never.
#[local] Arguments openvpn_encrypt : simpl never.
#[local] Arguments openvpn_decrypt : simpl never.
#[local] Arguments buf_init_dowork : simpl never.
#[local] Arguments buf_write_prepend : simpl never.
#[local] Arguments buf_advance : simpl never.
#[local] Arguments tls_prepend_opcode_v1 : simpl never.
#[local] Arguments tls_post_encrypt : simpl never.

Definition key_id_ok (key_id : Z) : Prop := 0 <= key_id <= P_KEY_ID_MASK.

(** The header of a data packet, and the part of it that is authenticated. *)
Definition opcode_v1 (key_id : Z) : Z := u8 (Z.lor (Z.shiftl P_DATA_V1 P_OPCODE_SHIFT) key_id).
Definition header_v2 (m : tls_multi) (key_id : Z) : list Z :=
  be32 (u32 (Z.lor (Z.shiftl (Z.lor (Z.shiftl P_DATA_V2 P_OPCODE_SHIFT) key_id) 24) (Z.land (tm_peer_id m) 0xFFFFFF))).
Definition auth_header (m : tls_multi) (key_id : Z) : list Z := if tm_use_peer_id m then header_v2 m key_id else [].
Definition plain_header (m : tls_multi) (key_id : Z) : list Z := if tm_use_peer_id m then [] else [opcode_v1 key_id].

Lemma opcode_v1_parts key_id : key_id_ok key_id ->
  is_byte (opcode_v1 key_id) /\ Z.shiftr (opcode_v1 key_id) P_OPCODE_SHIFT = P_DATA_V1 /\
  Z.land (opcode_v1 key_id) P_KEY_ID_MASK = key_id.
Proof.
  unfold key_id_ok, P_KEY_ID_MASK. intros Hk.
  assert (key_id ∈ [0; 1; 2; 3; 4; 5; 6; 7]) as Hin by (rewrite !elem_of_cons; lia).
  repeat (apply elem_of_cons in Hin as [->|Hin]; [by vm_compute|]). by apply elem_of_nil in Hin.
Qed.

Lemma header_v2_parts m key_id : key_id_ok key_id ->
  exists c rest, header_v2 m key_id = c :: rest /\ zlen rest = 3 /\
    Z.shiftr c P_OPCODE_SHIFT = P_DATA_V2 /\ Z.land c P_KEY_ID_MASK = key_id.
Proof.
  intros Hk. unfold header_v2. set (w := u32 _). exists (u8 (w / 2 ^ 24)). eexists. split; [reflexivity|]. split; [reflexivity|].
  assert (E : u8 (w / 2 ^ 24) = Z.lor (Z.shiftl P_DATA_V2 P_OPCODE_SHIFT) key_id).
  { set (a := Z.lor (Z.shiftl P_DATA_V2 P_OPCODE_SHIFT) key_id) in *.
    assert (Ha : 0 <= a < 2 ^ 8).
    { unfold key_id_ok, P_KEY_ID_MASK in Hk. assert (key_id ∈ [0; 1; 2; 3; 4; 5; 6; 7]) as Hin by (rewrite !elem_of_cons; lia).
      unfold a. repeat (apply elem_of_cons in Hin as [->|Hin]; [by vm_compute|]). by apply elem_of_nil in Hin. }
    unfold w, wrap. rewrite <- !Z.land_ones, <- Z.shiftr_div_pow2 by lia. apply Z.bits_inj'. intros n Hn.
    rewrite Z.land_spec, Z.shiftr_spec, Z.land_spec, Z.lor_spec, Z.shiftl_spec, Z.land_spec by lia.
    change 0xFFFFFF with (Z.ones 24). rewrite !Z.testbit_ones by lia. replace (n + 24 - 24) with n by lia.
    destruct (Z.ltb_spec n 8), (Z.ltb_spec (n + 24) 32), (Z.ltb_spec (n + 24) 24), (Z.leb_spec 0 n), (Z.leb_spec 0 (n + 24)); try lia; cbn [andb].
    - by rewrite andb_false_r, orb_false_r, !andb_true_r.
    - rewrite !andb_false_r. symmetry. apply (testbit_high 8); [done|lia]. }
  rewrite E. unfold key_id_ok, P_KEY_ID_MASK in Hk. assert (key_id ∈ [0; 1; 2; 3; 4; 5; 6; 7]) as Hin by (rewrite !elem_of_cons; lia).
  repeat (apply elem_of_cons in Hin as [->|Hin]; [by vm_compute|]). by apply elem_of_nil in Hin.
Qed.

(** The sender: a key is selected, there is room in the buffers, and no rest of a
    fragmented datagram is in play. *)
Record sender_ready (now : Z) (c : data_context) (buf : buffer) (comp_frag : bool) (i : nat) (ks : key_state)
    (K Kd : keys) (cf : pid_conf) (kt : key_type) : Prop := mksr {
  sr_state : tm_multi_state (dc_multi c) = CAS_SUCCEEDED;
  sr_key : select_send_key now 0 (tm_key_scan (dc_multi c)) None = Some i;
  sr_ks : tm_key_scan (dc_multi c) !! i = Some ks;
  sr_id : key_id_ok (ks_key_id ks);
  sr_whole : comp_frag = false \/ dc_fragment c = None;
  sr_opt : options_ok K Kd cf (ks_crypto_options ks);
  sr_keys : keys_ok K cf;
  sr_type : keys_type K kt;
  sr_buf : buf_live buf;
  sr_len : 0 < b_len buf;
  sr_ebuf : buf_live (dc_encrypt_buf c);
  sr_headroom : 4 <= FRAME_HEADROOM (dc_frame c);
  sr_front : id_size cf + (if sk_cipher K is Some _ then 0 else mac_len K + 4) <= b_offset buf;
  sr_room : FRAME_HEADROOM (dc_frame c) + b_len buf + crypto_overhead kt (pc_on cf) (pc_long cf) <= b_capacity (dc_encrypt_buf c);
  sr_roll : no_rollover now K (ks_crypto_options ks) }.

Lemma seal_step_nonempty now K cf hdr rnd s p s' w : seal_step now K cf hdr rnd s p = (s', Some w) ->
  Forall is_byte p -> 0 < zlen p -> 0 < zlen w.
Proof.
  intros Hs Hp Hpos. assert (exists q, w = seal_packet K cf hdr rnd q p) as (q & ->).
  { revert Hs. unfold seal_step. destruct (pc_on cf).
    - destruct (packet_id_send_update now s (id_long K cf)) as [[] q]; [|done]. intros [= _ <-]. eauto.
    - intros [= _ <-]. eauto. }
  unfold seal_packet. rewrite zlen_app. pose proof (zlen_nonneg hdr). pose proof (seal_tail_nonempty K cf hdr rnd q p Hp Hpos). lia.
Qed.

Lemma prepend_header m i ks encrypt_buf : tm_key_scan m !! i = Some ks -> tm_save_ks m = Some i -> key_id_ok (ks_key_id ks) ->
  buf_live encrypt_buf -> 4 <= b_offset encrypt_buf -> buf_contents encrypt_buf = [] ->
  exists work, (if tm_use_peer_id m then tls_prepend_opcode_v2 m encrypt_buf else Some encrypt_buf) = Some work /\
    buf_live work /\ buf_contents work = auth_header m (ks_key_id ks) /\ b_capacity work = b_capacity encrypt_buf /\
    b_offset work = b_offset encrypt_buf - zlen (auth_header m (ks_key_id ks)).
Proof.
  intros Hks Hs Hid Hb Ho Hc. unfold auth_header. destruct (tm_use_peer_id m).
  - unfold tls_prepend_opcode_v2, saved_ks. rewrite Hs. cbn. rewrite Hks. cbn. fold (header_v2 m (ks_key_id ks)).
    destruct (buf_prepend_room encrypt_buf (header_v2 m (ks_key_id ks)) Hb) as (w & -> & L & Ec & Eo & _ & C);
      [unfold header_v2; rewrite be32_len; lia|unfold header_v2; auto with ovpn|].
    exists w. rewrite Hc, app_nil_r in C. done.
  - exists encrypt_buf. rewrite zlen_nil, Z.sub_0_r. done.
Qed.

Lemma encrypt_sign_spec now prng c buf comp_frag i ks K Kd cf kt : sender_ready now c buf comp_frag i ks K Kd cf kt -> prng_ok prng ->
  let m := dc_multi c in
  let '(s, r) := seal_step now K cf (auth_header m (ks_key_id ks)) (prng (keys_iv_len K)) (o_send (ks_crypto_options ks)) (buf_contents buf) in
  exists c' out opt', encrypt_sign now prng c buf comp_frag = Some (c', out) /\
    get_opt (dc_multi c') (Some i) = Some opt' /\ sent K s (ks_crypto_options ks) opt' /\
    match r with
    | Some w => buf_live out /\ buf_contents out = plain_header m (ks_key_id ks) ++ w
    | None => b_len out = 0
    end.
Proof.
  intros [Hst Hsel Hks Hid Hwhole Hopt Hkeys Hty Hb Hpos He Hhr Hfront Hroom Hroll] Hprng m. fold m in Hst, Hsel, Hks.
  pose proof (id_size_range cf) as Hids. destruct (mac_size K []) as (_ & _ & Hml).
  destruct (buf_init_live (dc_encrypt_buf c) (FRAME_HEADROOM (dc_frame c)) He) as (e & Hinit & Le & Ece & Eoe & Ele & Ce).
  { assert (Hw := overhead_nonneg K cf kt Hty Hkeys). lia. }
  set (m' := m <| tm_save_ks := None |> <| tm_save_ks := Some i |>).
  destruct (prepend_header m' i ks e Hks eq_refl Hid Le) as (work & Hpre & Lw & Cw & Ecw & Eow); [lia|done|].
  change (auth_header m' (ks_key_id ks)) with (auth_header m (ks_key_id ks)) in *.
  pose proof (buf_contents_length work Lw) as Hwl. rewrite Cw in Hwl.
  assert (Hhl : 0 <= zlen (auth_header m (ks_key_id ks)) <= 4).
  { unfold auth_header. by destruct (tm_use_peer_id m). }
  assert (Her : encrypt_room K cf kt buf work).
  { split_and!; try done; [destruct (sk_cipher K); lia|lia]. }
  destruct (encrypt_core now prng buf work (ks_crypto_options ks) K Kd cf kt Hopt Hkeys Hty Her Hprng Hroll) as (out & opt' & Henc & Hres).
  rewrite Cw in Hres. destruct (seal_step _ _ _ _ _ _ _) as [s r] eqn:Hseal. destruct Hres as [Hsent Hres].
  assert (Hpe : tls_pre_encrypt now m buf = (m', buf, Some i)).
  { unfold tls_pre_encrypt. destruct (Z.leb_spec (b_len buf) 0); [lia|]. cbn. by rewrite Hsel. }
  assert (Hrun : forall w, encrypt_sign now prng c buf comp_frag = w <->
    (let m := set_ks m' i (ks <| ks_crypto_options := opt' |>) in
     buf ← (if (0 <? b_len out) && negb (tm_use_peer_id m) then tls_prepend_opcode_v1 m out else Some out);
     m ← tls_post_encrypt m buf;
     Some (c <| dc_multi := m |> <| dc_encrypt_buf := work |>, buf)) = w).
  { intros w. unfold encrypt_sign. fold m. rewrite Hst. rewrite bool_decide_eq_true_2 by done.
    assert (match dc_fragment c with Some fm => if comp_frag then '(fm, buf) ← fragment_outgoing fm buf (dc_frame_fragment c);
        Some (c <| dc_fragment := Some fm |>, buf) else Some (c, buf) | None => Some (c, buf) end = Some (c, buf)) as ->.
    { destruct Hwhole as [->| ->]; [by destruct (dc_fragment c)|done]. }
    cbn. rewrite Hinit. fold m. rewrite Hpe, (proj2 (Z.ltb_lt 0 (b_len buf)) Hpos). cbn [andb]. cbn in Hpre |- *. rewrite Hpre. cbn.
    unfold get_opt. cbn. rewrite Hks. cbn. by rewrite Henc. }
  setoid_rewrite Hrun. cbn.
  assert (Hlook : <[i := ks <| ks_crypto_options := opt' |>]> (tm_key_scan m) !! i = Some (ks <| ks_crypto_options := opt' |>)).
  { apply list_lookup_insert_eq. by eapply lookup_lt_Some. }
  destruct r as [w|].
  - destruct Hres as (Lo & Co & Esp). assert (Hol : 0 < b_len out).
    { rewrite <- (buf_contents_length out Lo), Co. apply (seal_step_nonempty _ _ _ _ _ _ _ _ _ Hseal);
        [by apply buf_contents_bytes, Hb|by rewrite buf_contents_length]. }
    rewrite (proj2 (Z.ltb_lt 0 (b_len out)) Hol). cbn [andb].
    assert (exists out2, (if negb (tm_use_peer_id m) then tls_prepend_opcode_v1
        (set_ks m' i (ks <| ks_crypto_options := opt' |>)) out
        else Some out) = Some out2 /\ buf_live out2 /\ 0 < b_len out2 /\ buf_contents out2 = plain_header m (ks_key_id ks) ++ w)
      as (out2 & Hv1 & L2 & Hl2 & C2).
    { unfold plain_header. destruct (tm_use_peer_id m) eqn:Hv; cbn [negb]; [by exists out|].
      assert (Hnil : zlen (auth_header m (ks_key_id ks)) = 0) by (unfold auth_header; by rewrite Hv).
      unfold tls_prepend_opcode_v1, saved_ks. cbn. rewrite Hlook. cbn.
      destruct (buf_prepend_room out [opcode_v1 (ks_key_id ks)] Lo) as (o2 & E2 & L2 & _ & _ & El2 & C2).
      { rewrite <- Esp. unfold encrypt_spare, zlen. cbn [length]. destruct (sk_cipher K); lia. }
      { constructor; [apply wrap_byte|constructor]. }
      unfold opcode_v1 in E2. rewrite E2. exists o2. rewrite El2, C2, Co. split_and!; try done. unfold zlen. cbn [length]. lia. }
    cbn in Hv1 |- *. rewrite Hv1. cbn. unfold tls_post_encrypt.
    rewrite (proj2 (Z.ltb_lt 0 (b_len out2)) Hl2). cbn. rewrite Hlook. cbn.
    do 3 eexists. split; [reflexivity|]. unfold get_opt. cbn. rewrite list_insert_insert_eq, list_lookup_insert_eq by (by eapply lookup_lt_Some).
    cbn. split; [reflexivity|]. done.
  - rewrite Hres. cbn. unfold tls_post_encrypt. rewrite Hres. cbn. do 3 eexists. split; [reflexivity|].
    unfold get_opt. cbn. rewrite Hlook. done.
Qed.

(** The receiver knows the key of the packet. *)
Record receiver_ready (c : data_context) (from : openvpn_sockaddr) (floated : bool) (key_id : Z) (j : nat) (kr : key_state)
    (Ke K : keys) (cf : pid_conf) : Prop := mkrr {
  rr_state : tm_multi_state (dc_multi c) = CAS_SUCCEEDED;
  rr_key : find_data_key (dc_multi c) key_id from floated 0 (tm_key_scan (dc_multi c)) = Some (Some j);
  rr_ks : tm_key_scan (dc_multi c) !! j = Some kr;
  rr_init : kb_initialized (o_key_ctx_bi (ks_crypto_options kr)) = true;
  rr_opt : options_ok Ke K cf (ks_crypto_options kr);
  rr_keys : keys_ok K cf }.

Lemma peek_first b x rest : buf_live b -> buf_contents b = x :: rest -> buf_peek b (b_offset b) = x.
Proof.
  intros Hb Hc. pose proof (load_front b [x] rest Hb Hc) as Hl. destruct (buf_live_data b Hb) as (d & Hd & Hz & _).
  assert (Hw := Hb). destruct Hw as [[_ ? _ _ _ _] _]. unfold buf_load in Hl. unfold buf_peek. rewrite Hd in *.
  unfold mem_read in Hl. change (Z.to_nat (zlen [x])) with 1%nat in Hl. unfold zget.
  destruct (drop (Z.to_nat (b_offset b)) d) as [|y l] eqn:E; [done|]. cbn in Hl. injection Hl as ->.
  assert (d !! Z.to_nat (b_offset b) = Some x) as Hx.
  { rewrite <- (Nat.add_0_r (Z.to_nat (b_offset b))), <- lookup_drop, E. done. }
  apply (zget_of_lookup 0) in Hx. rewrite Z2Nat.id in Hx by lia. exact Hx.
Qed.

(** A data packet loses its header, and its key is found. *)
Lemma handle_spec c from floated kid j kr Ke K cf m rbuf w : receiver_ready c from floated kid j kr Ke K cf -> key_id_ok kid ->
  buf_live rbuf -> 0 < zlen w -> buf_contents rbuf = plain_header m kid ++ auth_header m kid ++ w ->
  exists buf ad ks', handle_data_channel_packet (dc_multi c) from rbuf floated = Some (set_ks (dc_multi c) j ks', buf, Some j, Some ad) /\
    ks_crypto_options ks' = ks_crypto_options kr /\
    buf_live buf /\ b_len buf = zlen w /\ buf_contents buf = w /\ header_at buf (auth_header m kid) ad.
Proof.
  intros [_ Hfind Hks Hinit _ _] Hid Hb Hw Hc. pose proof (buf_contents_length rbuf Hb) as Hlen. rewrite Hc, !zlen_app in Hlen.
  unfold handle_data_channel_packet. rewrite (buf_live_bptr rbuf Hb). cbn.
  assert (Hadv : forall b n pre rest, buf_live b -> zlen pre = n -> 0 <= n -> buf_contents b = pre ++ rest ->
    exists b', buf_advance b n = (true, b') /\ buf_live b' /\ buf_contents b' = rest /\ b_data b' = b_data b /\
      b_offset b' = b_offset b + n /\ b_len b' = b_len b - n).
  { intros b n pre rest Hl Hz Hn Hcb. pose proof (buf_contents_length b Hl) as Hbl. rewrite Hcb, zlen_app in Hbl.
    pose proof (zlen_nonneg rest). destruct (advance_room b n Hl) as (b' & -> & L & C & Hz' & Hd & _ & Ho & Hle); [lia|].
    rewrite Hcb in C. apply app_inj_zlen in C as [_ ->]; [|lia]. by exists b'. }
  unfold plain_header, auth_header in *. destruct (tm_use_peer_id m).
  - destruct (header_v2_parts m kid Hid) as (x & r3 & Hh & Hr3 & Hop & Hkid). rewrite Hh in Hc, Hlen |- *. cbn [app] in Hc.
    rewrite (peek_first rbuf x (r3 ++ w) Hb Hc), Hop, Hkid, Hfind. cbn. rewrite Hks. cbn. rewrite Hinit. cbn.
    destruct (Hadv rbuf 1 [x] (r3 ++ w)) as (b1 & -> & L1 & C1 & D1 & O1 & E1); try done.
    rewrite zlen_cons in Hlen. change (zlen []) with 0 in Hlen. destruct (Z.ltb_spec (b_len b1) 4); [lia|].
    destruct (Hadv b1 3 r3 w) as (b2 & -> & L2 & C2 & D2 & O2 & E2); try done.
    do 3 eexists. split; [reflexivity|]. split; [reflexivity|]. split_and!; try done; [lia|].
    assert (Hz4 : zlen (x :: r3) = 4) by (rewrite zlen_cons; lia).
    assert (Hwf := Hb). destruct Hwf as [[_ ? _ _ _ _] _]. split_and!; [lia|lia|].
    unfold buf_load. rewrite D2, D1. fold (buf_load rbuf (b_offset rbuf) (zlen (x :: r3))). by apply (load_front _ _ w).
  - destruct (opcode_v1_parts kid Hid) as (_ & Hop & Hkid). cbn [app] in Hc.
    rewrite (peek_first rbuf _ w Hb Hc), Hop, Hkid, Hfind. cbn. rewrite Hks. cbn. rewrite Hinit. cbn.
    destruct (Hadv rbuf 1 [opcode_v1 kid] w) as (b1 & -> & L1 & C1 & D1 & O1 & E1); try done.
    rewrite (buf_live_bptr b1 L1). do 3 eexists. split; [reflexivity|]. split; [reflexivity|].
    change (zlen [opcode_v1 kid]) with 1 in Hlen. change (zlen []) with 0 in Hlen. split_and!; try done; [lia|].
    assert (Hwf := Hb). destruct Hwf as [[_ ? _ _ _ _] _]. unfold header_at. rewrite zlen_nil. split_and!; [lia|lia|].
    unfold buf_load. by destruct (b_data b1).
Qed.

End Transport.
