(* ===== verification/KeyExchange.v ===== *)
(** Data channel keys ([src/openvpn/ssl.c], [crypto.c]): the random material of both
    ends, the pseudo-random function that turns it into key material, and the key
    contexts of both directions.  What OpenSSL does with key material is the class
    [EvpKeyLib]; its documented behaviour is [EvpKeyLaws]. *)
From Stdlib Require Import String Ascii.
From stdpp Require Import list.
From S2P Require Import Prelude Integer CircList Buffer PacketId Reliable Mtu Crypto DataChannel.

(** ** What the library does with key material *)

Class EvpKeyLib `{EvpLib} := {
  EVP_get_digestbyname : string -> option EVP_MD;
  EVP_MD_size : EVP_MD -> Z;
  HMAC_Init_key : EVP_MD -> list Z -> HMAC_CTX;
  EVP_CipherInit_key : EVP_CIPHER -> list Z -> bool -> option EVP_CIPHER_CTX;
  EVP_CIPHER_CTX_key_length : EVP_CIPHER_CTX -> Z;
  EVP_CIPHER_key_length : EVP_CIPHER -> Z;
  EVP_get_cipherbyname : string -> option EVP_CIPHER;
  OBJ_nid2sn : Z -> option string;
  DES_is_weak_key : list Z -> bool;
  DES_check_key_parity : list Z -> bool;
  DES_set_odd_parity : list Z -> list Z
}.

Definition MAX_CIPHER_KEY_LENGTH : Z := 64.
Definition MAX_HMAC_KEY_LENGTH : Z := 64.
Definition OPENVPN_OP_ENCRYPT : bool := true.
Definition OPENVPN_OP_DECRYPT : bool := false.
Definition KEY_DIRECTION_BIDIRECTIONAL : Z := 0.
Definition KEY_DIRECTION_NORMAL : Z := 1.
Definition KEY_DIRECTION_INVERSE : Z := 2.

(** A string of the program as bytes, without its terminator. *)
Definition bytes_of (s : string) : list Z := map (fun c => Z.of_N (N_of_ascii c)) (list_ascii_of_string s).

(** ** Data *)

Record key_source := mkksrc { src_pre_master : list Z; src_random1 : list Z; src_random2 : list Z }.
#[export] Instance eta_key_source : EtaOf key_source :=
  fun r => mkksrc (src_pre_master r) (src_random1 r) (src_random2 r).
Record key_source2 := mkksrc2 { k2_client : key_source; k2_server : key_source }.
#[export] Instance eta_key_source2 : EtaOf key_source2 := fun r => mkksrc2 (k2_client r) (k2_server r).

Definition PRE_MASTER_LEN : Z := 48.
Definition RANDOM_LEN : Z := 32.
Definition key_source_zero : key_source :=
  mkksrc (replicate (Z.to_nat PRE_MASTER_LEN) 0) (replicate (Z.to_nat RANDOM_LEN) 0) (replicate (Z.to_nat RANDOM_LEN) 0).
Definition key_source2_zero : key_source2 := mkksrc2 key_source_zero key_source_zero.

Record key := mkkey { key_cipher : list Z; key_hmac : list Z }.
#[export] Instance eta_key : EtaOf key := fun r => mkkey (key_cipher r) (key_hmac r).
Record key2 := mkkey2 { key2_n : Z; key2_keys : list key }.
Record key_direction_state := mkkds { kds_out_key : Z; kds_in_key : Z; kds_need_keys : Z }.

Section Model.
Context `{EvpKeyLib}.

(** ** [crypto_openssl.c]: keys *)

Definition md_kt_size (kt : EVP_MD) : Z := u8 (EVP_MD_size kt).

Definition md_kt_get (digest : string) : option EVP_MD :=
  md ← EVP_get_digestbyname digest;
  if MAX_HMAC_KEY_LENGTH <? EVP_MD_size md then None else Some md.

Definition hmac_ctx_init (key : list Z) (kt : EVP_MD) : option HMAC_CTX :=
  let ctx := HMAC_Init_key kt key in
  ASSERT HMAC_size ctx <=? zlen key ;;
  Some ctx.

Definition cipher_ctx_init (key : list Z) (kt : EVP_CIPHER) (enc : bool) : option EVP_CIPHER_CTX :=
  ctx ← EVP_CipherInit_key kt key enc;
  ASSERT EVP_CIPHER_CTX_key_length ctx <=? zlen key ;;
  Some ctx.

Definition key_des_num_cblocks (kt : EVP_CIPHER) : Z :=
  match OBJ_nid2sn (EVP_CIPHER_nid kt) with
  | Some name => if String.prefix "DES-" name then EVP_CIPHER_key_length kt / 8
                 else if String.prefix "DESX-" name then 1 else 0
  | None => 0
  end.

Fixpoint key_des_check (key : list Z) (ndc : nat) : bool :=
  match ndc with
  | O => true
  | S ndc =>
      if zlen key <? 8 then false
      else
        let dc := take 8 key in
        if DES_is_weak_key dc then false
        else if negb (DES_check_key_parity dc) then false
        else key_des_check (drop 8 key) ndc
  end.

Fixpoint key_des_fixup (key : list Z) (ndc : nat) : list Z :=
  match ndc with
  | O => key
  | S ndc => if zlen key <? 8 then key else DES_set_odd_parity (take 8 key) ++ key_des_fixup (drop 8 key) ndc
  end.

Definition cipher_kt_insecure (cipher : EVP_CIPHER) : bool :=
  negb ((128 / 8 <=? cipher_kt_block_size cipher) || (EVP_CIPHER_nid cipher =? NID_chacha20_poly1305)).

(** ** [crypto.c]: names and key types *)

Definition cipher_name_translation_table : list (string * string) :=
  [("AES-128-GCM", "id-aes128-GCM"); ("AES-192-GCM", "id-aes192-GCM"); ("AES-256-GCM", "id-aes256-GCM");
   ("CHACHA20-POLY1305", "ChaCha20-Poly1305")]%string.

Definition get_cipher_name_pair (cipher_name : string) : option (string * string) :=
  List.find (fun p => String.eqb cipher_name (fst p) || String.eqb cipher_name (snd p)) cipher_name_translation_table.

Definition translate_cipher_name_from_openvpn (cipher_name : string) : string :=
  match get_cipher_name_pair cipher_name with Some p => snd p | None => cipher_name end.

Definition cipher_kt_get (ciphername : string) : option EVP_CIPHER :=
  cipher ← EVP_get_cipherbyname (translate_cipher_name_from_openvpn ciphername);
  if MAX_CIPHER_KEY_LENGTH <? EVP_CIPHER_key_length cipher then None else Some cipher.

Definition cipher_kt_key_size (cipher_kt : EVP_CIPHER) : Z := EVP_CIPHER_key_length cipher_kt.

(** [None] is a fatal message. *)
Definition init_key_type (ciphername authname : string) (keysize : Z) (tls_mode : bool) : option key_type :=
  kt ←
    (if negb (String.eqb ciphername "none") then
       cipher ← cipher_kt_get ciphername;
       let n := if (0 <? keysize) && (keysize <=? MAX_CIPHER_KEY_LENGTH) then keysize else cipher_kt_key_size cipher in
       ASSERT cipher_kt_mode_cbc (Some cipher) || (tls_mode && cipher_kt_mode_aead (Some cipher))
              || (tls_mode && cipher_kt_mode_ofb_cfb (Some cipher)) ;;
       if OPENVPN_MAX_CIPHER_BLOCK_SIZE <? cipher_kt_block_size cipher then None
       else Some (mkkt (u8 n) 0 (Some cipher) None)
     else Some (mkkt 0 0 None None));
  if negb (String.eqb authname "none") && negb (cipher_kt_mode_aead (kt_cipher kt)) then
    digest ← md_kt_get authname;
    if OPENVPN_MAX_HMAC_SIZE <? md_kt_size digest then None
    else Some (mkkt (kt_cipher_length kt) (md_kt_size digest) (kt_cipher kt) (Some digest))
  else Some kt.

(** ** [crypto.c]: keys *)

Definition key_is_zero (k : key) (kt : key_type) : bool :=
  forallb (Z.eqb 0) (take (Z.to_nat (kt_cipher_length kt)) (key_cipher k)).

Definition check_key (k : key) (kt : key_type) : bool :=
  match kt_cipher kt with
  | Some cipher =>
      if key_is_zero k kt then false
      else
        let ndc := key_des_num_cblocks cipher in
        if negb (ndc =? 0) then key_des_check (take (Z.to_nat (kt_cipher_length kt)) (key_cipher k)) (Z.to_nat ndc) else true
  | None => true
  end.

Definition fixup_key (k : key) (kt : key_type) : key :=
  match kt_cipher kt with
  | Some cipher =>
      let ndc := key_des_num_cblocks cipher in
      if negb (ndc =? 0) then
        let n := Z.to_nat (kt_cipher_length kt) in
        k <| key_cipher := key_des_fixup (take n (key_cipher k)) (Z.to_nat ndc) ++ drop n (key_cipher k) |>
      else k
  | None => k
  end.

Definition init_key_ctx (k : key) (kt : key_type) (enc : bool) : option key_ctx :=
  cipher ←
    match kt_cipher kt with
    | Some c =>
        if 0 <? kt_cipher_length kt
        then ctx ← cipher_ctx_init (take (Z.to_nat (kt_cipher_length kt)) (key_cipher k)) c enc; Some (Some ctx)
        else Some None
    | None => Some None
    end;
  hmac ←
    match kt_digest kt with
    | Some d =>
        if 0 <? kt_hmac_length kt
        then ctx ← hmac_ctx_init (take (Z.to_nat (kt_hmac_length kt)) (key_hmac k)) d; Some (Some ctx)
        else Some None
    | None => Some None
    end;
  Some (mkkctx cipher hmac (replicate (Z.to_nat OPENVPN_MAX_IV_LENGTH) 0) 0).

Definition key_direction_state_init (key_direction : Z) : option key_direction_state :=
  if key_direction =? KEY_DIRECTION_NORMAL then Some (mkkds 0 1 2)
  else if key_direction =? KEY_DIRECTION_INVERSE then Some (mkkds 1 0 2)
  else if key_direction =? KEY_DIRECTION_BIDIRECTIONAL then Some (mkkds 0 0 1)
  else None.

Definition init_key_ctx_bi (k2 : key2) (key_direction : Z) (kt : key_type) : option key_ctx_bi :=
  kds ← key_direction_state_init key_direction;
  out_key ← key2_keys k2 !! Z.to_nat (kds_out_key kds);
  encrypt ← init_key_ctx out_key kt OPENVPN_OP_ENCRYPT;
  in_key ← key2_keys k2 !! Z.to_nat (kds_in_key kds);
  decrypt ← init_key_ctx in_key kt OPENVPN_OP_DECRYPT;
  Some (mkbi encrypt decrypt true).

(** ** [ssl.c]: the pseudo-random function *)

(** The loop of [tls1_P_hash]: the output still missing. *)
Fixpoint P_hash_loop (fuel : nat) (ctx ctx_tmp : HMAC_CTX) (A1 seed : list Z) (chunk olen : Z) : option (list Z) :=
  match fuel with
  | O => None
  | S fuel =>
      let ctx := hmac_ctx_reset ctx in
      let ctx_tmp := hmac_ctx_reset ctx_tmp in
      let ctx := hmac_ctx_update ctx A1 in
      let ctx_tmp := hmac_ctx_update ctx_tmp A1 in
      let ctx := hmac_ctx_update ctx seed in
      if chunk <? olen then
        let '(ctx, out) := hmac_ctx_final ctx in
        let '(ctx_tmp, A1) := hmac_ctx_final ctx_tmp in
        rest ← P_hash_loop fuel ctx ctx_tmp A1 seed chunk (olen - chunk);
        Some (out ++ rest)
      else
        let '(ctx, A1) := hmac_ctx_final ctx in
        Some (take (Z.to_nat olen) A1)
  end.

Definition tls1_P_hash (md_kt : EVP_MD) (sec seed : list Z) (olen : Z) : option (list Z) :=
  let chunk := md_kt_size md_kt in
  ctx ← hmac_ctx_init sec md_kt;
  ctx_tmp ← hmac_ctx_init sec md_kt;
  let ctx := hmac_ctx_update ctx seed in
  let '(ctx, A1) := hmac_ctx_final ctx in
  P_hash_loop (S (Z.to_nat olen)) ctx ctx_tmp A1 seed chunk olen.

Definition tls1_PRF (label sec : list Z) (olen : Z) : option (list Z) :=
  md5 ← md_kt_get "MD5";
  sha1 ← md_kt_get "SHA1";
  let slen := zlen sec in
  let len := slen / 2 in
  let S2 := drop (Z.to_nat len) sec in
  let len := len + Z.land slen 1 in
  out1 ← tls1_P_hash md5 (take (Z.to_nat len) sec) label olen;
  out2 ← tls1_P_hash sha1 (take (Z.to_nat len) S2) label olen;
  Some (zip_with Z.lxor out1 out2).

Definition openvpn_PRF (secret label client_seed server_seed : list Z) (client_sid server_sid : option (list Z))
    (output_len : Z) : option (list Z) :=
  seed ← alloc_buf (zlen label + zlen client_seed + zlen server_seed + SID_SIZE * 2);
  let '(ok, seed) := buf_write seed label in ASSERT ok ;;
  let '(ok, seed) := buf_write seed client_seed in ASSERT ok ;;
  let '(ok, seed) := buf_write seed server_seed in ASSERT ok ;;
  let '(ok, seed) := match client_sid with Some sid => buf_write seed sid | None => (true, seed) end in ASSERT ok ;;
  let '(ok, seed) := match server_sid with Some sid => buf_write seed sid | None => (true, seed) end in ASSERT ok ;;
  tls1_PRF (buf_contents seed) secret output_len.

Definition KEY_EXPANSION_ID : string := "OpenVPN".

(** The memory of [key2.keys]. *)
Definition key_of_bytes (bs : list Z) : key :=
  mkkey (take (Z.to_nat MAX_CIPHER_KEY_LENGTH) bs)
        (take (Z.to_nat MAX_HMAC_KEY_LENGTH) (drop (Z.to_nat MAX_CIPHER_KEY_LENGTH) bs)).
Definition KEY_SIZE : Z := MAX_CIPHER_KEY_LENGTH + MAX_HMAC_KEY_LENGTH.
Definition keys_of_bytes (bs : list Z) : list key := [key_of_bytes bs; key_of_bytes (drop (Z.to_nat KEY_SIZE) bs)].

(** The check of both keys; [None] is a weak key. *)
Fixpoint fix_keys (ks : list key) (kt : key_type) : option (list key) :=
  match ks with
  | [] => Some []
  | k :: ks => let k := fixup_key k kt in if check_key k kt then ks ← fix_keys ks kt; Some (k :: ks) else None
  end.

(** Answers whether the keys were generated, and the key contexts. *)
Definition generate_key_expansion (k : key_ctx_bi) (kt : key_type) (key_src : key_source2)
    (client_sid server_sid : list Z) (server : bool) : option (bool * key_ctx_bi) :=
  if kb_initialized k then Some (false, k)
  else
    master ← openvpn_PRF (src_pre_master (k2_client key_src)) (bytes_of (KEY_EXPANSION_ID ++ " master secret"))
               (src_random1 (k2_client key_src)) (src_random1 (k2_server key_src)) None None 48;
    keys ← openvpn_PRF master (bytes_of (KEY_EXPANSION_ID ++ " key expansion"))
               (src_random2 (k2_client key_src)) (src_random2 (k2_server key_src))
               (Some client_sid) (Some server_sid) (2 * KEY_SIZE);
    match fix_keys (keys_of_bytes keys) kt with
    | None => Some (false, k)
    | Some keys =>
        let key_direction := if server then KEY_DIRECTION_INVERSE else KEY_DIRECTION_NORMAL in
        k ← init_key_ctx_bi (mkkey2 2 keys) key_direction kt;
        let me := if server then 1%nat else 0%nat in
        out_key ← keys !! me;
        encrypt ← key_ctx_update_implicit_iv (kb_encrypt k) (key_hmac out_key) MAX_HMAC_KEY_LENGTH;
        in_key ← keys !! (1 - me)%nat;
        decrypt ← key_ctx_update_implicit_iv (kb_decrypt k) (key_hmac in_key) MAX_HMAC_KEY_LENGTH;
        Some (true, k <| kb_encrypt := encrypt |> <| kb_decrypt := decrypt |>)
    end.

End Model.

(** ** [ssl.c]: strings of the key exchange *)

Definition write_empty_string (buf : buffer) : bool * buffer := buf_write_u32 buf 0.

(** [str] without its terminator, which is written too; [maxlen] below 0 is no limit. *)
Definition write_string (buf : buffer) (str : list Z) (maxlen : Z) : bool * buffer :=
  let len := zlen str + 1 in
  if (len <? 1) || ((0 <=? maxlen) && (maxlen <? len)) then (false, buf)
  else
    let '(ok, buf) := buf_write_u32 buf len in
    if negb ok then (false, buf) else buf_write buf (str ++ [0]).

(** The bytes stored in the caller's array, the last one set to 0. *)
Definition read_string (buf : buffer) (capacity : Z) : option (list Z) * buffer :=
  let '(len, buf) := buf_read_u16 buf in
  if (len <? 1) || (capacity <? len) then (None, buf)
  else
    let '(r, buf) := buf_read buf len in
    (bs ← r; Some (take (Z.to_nat (len - 1)) bs ++ [0]), buf).

Definition read_string_alloc (buf : buffer) : option (list Z) * buffer :=
  let '(len, buf) := buf_read_u16 buf in
  if len <? 1 then (None, buf)
  else
    let '(r, buf) := buf_read buf len in
    (bs ← r; Some (take (Z.to_nat (len - 1)) bs ++ [0]), buf).

(** ** [ssl.c]: the random material *)

(** [rand n len] is what the [n]th call of [rand_bytes] delivers, [None] a failure,
    which is fatal. *)
Definition random_bytes_to_buf (rand : nat -> Z -> option (list Z)) (n : nat) (buf : buffer) (outlen : Z)
  : option (bool * list Z * buffer) :=
  out ← rand n outlen;
  let '(ok, buf) := buf_write buf out in
  Some (ok, out, buf).

Definition set_source (k2 : key_source2) (server : bool) (k : key_source) : key_source2 :=
  if server then k2 <| k2_server := k |> else k2 <| k2_client := k |>.

Definition key_source2_randomize_write (rand : nat -> Z -> option (list Z)) (k2 : key_source2) (buf : buffer) (server : bool)
  : option (bool * key_source2 * buffer) :=
  let k := key_source_zero in
  '(ok, k, buf) ←
    (if negb server then
       '(ok, out, buf) ← random_bytes_to_buf rand 0 buf PRE_MASTER_LEN;
       Some (ok : bool, k <| src_pre_master := out |>, buf)
     else Some (true, k, buf));
  if negb ok then Some (false, set_source k2 server k, buf)
  else
    '(ok, out, buf) ← random_bytes_to_buf rand 1 buf RANDOM_LEN;
    let k := k <| src_random1 := out |> in
    if negb ok then Some (false, set_source k2 server k, buf)
    else
      '(ok, out, buf) ← random_bytes_to_buf rand 2 buf RANDOM_LEN;
      let k := k <| src_random2 := out |> in
      Some (ok, set_source k2 server k, buf).

Definition key_source2_read (k2 : key_source2) (buf : buffer) (server : bool) : bool * key_source2 * buffer :=
  let k := key_source_zero in
  let peer := negb server in
  let '(ok, k, buf) :=
    if server then
      match buf_read buf PRE_MASTER_LEN with
      | (Some bs, buf) => (true, k <| src_pre_master := bs |>, buf)
      | (None, buf) => (false, k, buf)
      end
    else (true, k, buf) in
  if negb ok then (false, set_source k2 peer k, buf)
  else
    match buf_read buf RANDOM_LEN with
    | (None, buf) => (false, set_source k2 peer k, buf)
    | (Some bs, buf) =>
        let k := k <| src_random1 := bs |> in
        match buf_read buf RANDOM_LEN with
        | (None, buf) => (false, set_source k2 peer k, buf)
        | (Some bs, buf) => (true, set_source k2 peer (k <| src_random2 := bs |>), buf)
        end
    end.

Section Session.
Context `{EvpKeyLib}.

(** ** [ssl.c]: the session *)

(** The part of [struct tls_session], of its options and of its primary key state
    the key exchange uses. *)
Record kx_session := mkkx {
  kx_server : bool;
  kx_mode_server : bool;               (* opt->mode == MODE_SERVER *)
  kx_pull : bool;
  kx_key_id : Z;
  kx_session_id : list Z;
  kx_session_id_remote : list Z;
  kx_key_type : key_type;
  kx_crypto_flags : Z;
  kx_renegotiate_bytes : Z;
  kx_key_src : key_source2;
  kx_authenticated : ks_auth_state;
  kx_crypto_options : crypto_options;
  kx_local_options : list Z;
  kx_verified : bool;
  kx_peer_info : option (list Z)
}.
#[export] Instance eta_kx : EtaOf kx_session := fun r =>
  mkkx (kx_server r) (kx_mode_server r) (kx_pull r) (kx_key_id r) (kx_session_id r) (kx_session_id_remote r) (kx_key_type r)
    (kx_crypto_flags r) (kx_renegotiate_bytes r) (kx_key_src r) (kx_authenticated r) (kx_crypto_options r)
    (kx_local_options r) (kx_verified r) (kx_peer_info r).

Definition tls_limit_reneg_bytes (cipher : option EVP_CIPHER) (reneg_bytes : Z) : Z :=
  match cipher with
  | Some c => if cipher_kt_insecure c && (reneg_bytes =? -1) then 64 * 1024 * 1024 else reneg_bytes
  | None => reneg_bytes
  end.

Definition kx_client_sid (s : kx_session) : list Z := if kx_server s then kx_session_id_remote s else kx_session_id s.
Definition kx_server_sid (s : kx_session) : list Z := if negb (kx_server s) then kx_session_id_remote s else kx_session_id s.

Definition tls_session_generate_data_channel_keys (s : kx_session) : option (bool * kx_session) :=
  '(ret, s) ←
    (if bool_decide (kx_authenticated s = KS_AUTH_FALSE) then Some (false, s)
     else
       let s := s <| kx_crypto_options := (kx_crypto_options s) <| o_flags := kx_crypto_flags s |> |> in
       '(ok, bi) ← generate_key_expansion (o_key_ctx_bi (kx_crypto_options s)) (kx_key_type s) (kx_key_src s)
                     (kx_client_sid s) (kx_server_sid s) (kx_server s);
       let s := s <| kx_crypto_options := (kx_crypto_options s) <| o_key_ctx_bi := bi |> |> in
       if negb ok then Some (false, s)
       else Some (true, s <| kx_renegotiate_bytes :=
                            tls_limit_reneg_bytes (kt_cipher (kx_key_type s)) (kx_renegotiate_bytes s) |>));
  Some (ret : bool, s <| kx_key_src := key_source2_zero |>).

Definition TLS_CHANNEL_BUF_SIZE : Z := Z.shiftl 1 18.
Definition TLS_OPTIONS_LEN : Z := 512.
Definition USER_PASS_LEN : Z := Z.shiftl 1 17.     (* without ENABLE_PKCS11 *)
Definition KEY_METHOD_2 : Z := 2.
Definition KEY_METHOD_MASK : Z := 0x0F.

(** The user name and password to send, or empty strings. *)
Definition write_user_pass (buf : buffer) (up : option (list Z * list Z)) : bool * buffer :=
  match up with
  | Some (username, password) =>
      let '(ok, buf) := write_string buf username (-1) in
      if negb ok then (false, buf) else write_string buf password (-1)
  | None =>
      let '(ok, buf) := write_empty_string buf in
      if negb ok then (false, buf) else write_empty_string buf
  end.

(** [push_peer_info] for a text that was put together from the environment. *)
Definition push_peer_info (buf : buffer) (peer_info : option (list Z)) : bool * buffer :=
  match peer_info with Some out => write_string buf out (-1) | None => write_empty_string buf end.

(** A 32-bit integer in the byte order of the host, which is little-endian here. *)
Definition host32 (n : Z) : list Z := rev (be32 (u32 n)).

(** [up] and [peer_info] are the credentials and the peer information to send;
    [succeeded] is [multi_state == CAS_SUCCEEDED]. *)
Definition key_method_2_write (rand : nat -> Z -> option (list Z)) (buf : buffer) (succeeded : bool)
    (up : option (list Z * list Z)) (peer_info : option (list Z)) (s : kx_session) : option (bool * buffer * kx_session) :=
  let error (buf : buffer) (s : kx_session) := Some (false, buf, s <| kx_key_src := key_source2_zero |>) in
  let '(ok, buf) := buf_init_dowork buf 0 in
  ASSERT ok ;;
  let '(ok, buf) := buf_write_u32 buf 0 in
  if negb ok then error buf s else
  let '(ok, buf) := buf_write_u8 buf KEY_METHOD_2 in
  if negb ok then error buf s else
  '(ok, k2, buf) ← key_source2_randomize_write rand (kx_key_src s) buf (kx_server s);
  let s := s <| kx_key_src := k2 |> in
  if negb ok then error buf s else
  let '(ok, buf) := write_string buf (kx_local_options s) TLS_OPTIONS_LEN in
  if negb ok then error buf s else
  let '(ok, buf) := write_user_pass buf up in
  if negb ok then error buf s else
  let '(ok, buf) := push_peer_info buf peer_info in
  if negb ok then error buf s else
  '(ok, s) ←
    (if kx_server s && (negb (kx_mode_server s) || succeeded) && bool_decide (kx_authenticated s <> KS_AUTH_FALSE)
     then tls_session_generate_data_channel_keys s else Some (true, s));
  if negb ok then error buf s
  else Some (true, buf_store buf 0 (host32 (b_len buf)), s).

(** What scripts, plug-ins and the management interface answer: whether passwords
    are verified and with what outcome, the final checks, and the veto after them;
    [kv_options] is the outcome of the consistency check of the peer's options. *)
Record kx_verdicts := mkkv {
  kv_user_pass_enabled : bool;
  kv_user_pass_optional : bool;
  kv_verify_user_pass : list Z -> list Z -> ks_auth_state;
  kv_final : ks_auth_state -> ks_auth_state;
  kv_options : list Z -> ks_auth_state -> ks_auth_state;
  kv_plugin : ks_auth_state -> ks_auth_state
}.

Definition key_method_2_read (buf : buffer) (v : kx_verdicts) (s : kx_session) : option (bool * buffer * kx_session) :=
  let error (buf : buffer) (s : kx_session) :=
    Some (false, buf_clear buf, s <| kx_authenticated := KS_AUTH_FALSE |> <| kx_key_src := key_source2_zero |>) in
  let '(ok, buf) := buf_advance buf 4 in
  if negb ok then error buf s else
  let '(key_method_flags, buf) := buf_read_u8 buf in
  if negb (Z.land key_method_flags KEY_METHOD_MASK =? 2) then error buf s else
  let '(ok, k2, buf) := key_source2_read (kx_key_src s) buf (kx_server s) in
  let s := s <| kx_key_src := k2 |> in
  if negb ok then error buf s else
  let '(options, buf) := read_string buf TLS_OPTIONS_LEN in
  match options with
  | None => error buf s
  | Some options =>
      let s := s <| kx_authenticated := KS_AUTH_FALSE |> in
      let '(username, buf) := read_string buf USER_PASS_LEN in
      let '(password, buf) := read_string buf USER_PASS_LEN in
      let '(peer_info, buf) := read_string_alloc buf in
      let s := s <| kx_peer_info := peer_info |> in
      auth ←
        (if kv_user_pass_enabled v then
           match username, password with
           | Some username, Some password => Some (Some (kv_verify_user_pass v username password))
           | _, _ => if kv_user_pass_optional v then Some (Some (kv_verify_user_pass v [0] [0])) else Some None
           end
         else if kx_verified s then Some (Some KS_AUTH_TRUE) else Some None);
      match auth with
      | None => error buf s
      | Some auth =>
          let auth := if bool_decide (auth <> KS_AUTH_FALSE) then kv_final v auth else auth in
          let auth := kv_options v options auth in
          let buf := buf_clear buf in
          let auth := if bool_decide (auth <> KS_AUTH_FALSE) then kv_plugin v auth else auth in
          let s := s <| kx_authenticated := auth |> in
          '(ok, s) ←
            (if negb (kx_server s) && (negb (kx_pull s) || (0 <? kx_key_id s))
             then tls_session_generate_data_channel_keys s else Some (true, s));
          if negb ok then error buf s else Some (true, buf, s)
      end
  end.

End Session.
