(* ===== verification/KeyDerive.v ===== *)
(** What the key exchange computes: the pseudo-random function is that of RFC 2246,
    both ends come to the same keys, crossed, and what one end of this program
    writes the other end of it cannot read. *)
From Stdlib Require Import String Ascii.
From stdpp Require Import list.
From S2P Require Import Prelude Integer CircList Buffer PacketId Reliable Mtu Crypto CryptoToy DataChannel KeyExchange.

(** ** What the code relies on *)

Class EvpKeyLaws `{L : EvpLaws} `{K : !EvpKeyLib} := {
  key_of : EVP_CIPHER -> list Z -> ckey;
  hkey_of : EVP_MD -> list Z -> hkey;
  law_md5 : exists m, EVP_get_digestbyname "MD5" = Some m /\ EVP_MD_size m = 16;
  law_sha1 : exists m, EVP_get_digestbyname "SHA1" = Some m /\ EVP_MD_size m = 20;
  law_md_size md : 0 < EVP_MD_size md <= MAX_HMAC_KEY_LENGTH;
  law_hmac_len md k : hmac_len (hkey_of md k) = EVP_MD_size md;
  law_hmac_init md k : hmacs (hkey_of md k) (HMAC_Init_key md k);
  law_hmac_first md k d : exists c',
    HMAC_Final (HMAC_Update (HMAC_Init_key md k) d) = (c', hmac (hkey_of md k) d) /\ hmacs (hkey_of md k) c';
  law_hmac_two h c a b : hmacs h c -> exists c',
    HMAC_Final (HMAC_Update (HMAC_Update (HMAC_Init c) a) b) = (c', hmac h (a ++ b)) /\ hmacs h c';
  law_key_of c k : ck_cipher (key_of c k) = c;
  law_key_length c : 0 < EVP_CIPHER_key_length c;
  law_cipher_init c k enc : zlen k = EVP_CIPHER_key_length c -> exists x,
    EVP_CipherInit_key c k enc = Some x /\ EVP_CIPHER_CTX_key_length x <= zlen k /\
    if enc : bool then encrypts (key_of c k) x else decrypts (key_of c k) x;
  law_odd_parity dc : zlen dc = 8 -> zlen (DES_set_odd_parity dc) = 8
}.

Section Derive.
Context `{EvpKeyLaws}.
#[local] Arguments hmac_ctx_reset : simpl never.
#[local] Arguments hmac_ctx_update : simpl never.
#[local] Arguments hmac_ctx_final : simpl never.
#[local] Arguments cipher_kt_mode_aead : simpl never.
#[local] Arguments cipher_kt_mode_cbc : simpl never.
#[local] Arguments cipher_kt_mode_ofb_cfb : simpl never.

(** ** The pseudo-random function of RFC 2246, section 5 *)

(** A(0) = seed, A(i) = HMAC(secret, A(i-1)). *)
Fixpoint rfc_A (h : hkey) (seed : list Z) (i : nat) : list Z :=
  match i with O => seed | S i => hmac h (rfc_A h seed i) end.

(** HMAC(secret, A(1) + seed) + HMAC(secret, A(2) + seed) + ..., [n] of them from the
    [i]th on. *)
Definition rfc_blocks (h : hkey) (seed : list Z) (i n : nat) : list Z :=
  concat (map (fun j => hmac h (rfc_A h seed j ++ seed)) (seq i n)).

#[local] Arguments rfc_blocks : simpl never.

(** As much of it as is asked for. *)
Definition rfc_P_hash (h : hkey) (seed : list Z) (olen : Z) : list Z :=
  take (Z.to_nat olen) (rfc_blocks h seed 1 (Z.to_nat olen)).

(** PRF(secret, label, seed) = P_MD5(S1, label + seed) XOR P_SHA-1(S2, label + seed);
    an odd secret has its middle byte in both halves. *)
Definition rfc_PRF (md5 sha1 : EVP_MD) (secret seed : list Z) (olen : Z) : list Z :=
  let half := ((length secret + 1) / 2)%nat in
  zip_with Z.lxor (rfc_P_hash (hkey_of md5 (take half secret)) seed olen)
                  (rfc_P_hash (hkey_of sha1 (drop (length secret - half) secret)) seed olen).

Lemma rfc_blocks_cons h seed i n : rfc_blocks h seed i (S n) = hmac h (rfc_A h seed i ++ seed) ++ rfc_blocks h seed (S i) n.
Proof. done. Qed.

Lemma rfc_blocks_len h seed n : forall i, zlen (rfc_blocks h seed i n) = Z.of_nat n * hmac_len h.
Proof.
  induction n as [|n IH]; intros i; [done|]. rewrite rfc_blocks_cons, zlen_app, IH.
  destruct (law_hmac_size h (rfc_A h seed i ++ seed)) as (_ & -> & _). lia.
Qed.

(** How many blocks are drawn does not matter, once there are enough. *)
Lemma rfc_blocks_enough h seed i n m olen : 0 <= olen <= Z.of_nat n * hmac_len h -> (n <= m)%nat ->
  take (Z.to_nat olen) (rfc_blocks h seed i n) = take (Z.to_nat olen) (rfc_blocks h seed i m).
Proof.
  intros Ho Hm. replace m with (n + (m - n))%nat by lia. unfold rfc_blocks at 2.
  rewrite seq_app, map_app, concat_app. fold (rfc_blocks h seed i n).
  rewrite take_app_le; [done|]. pose proof (rfc_blocks_len h seed n i). unfold zlen in *. lia.
Qed.

Lemma P_hash_loop_spec h seed fuel : forall i ctx tmp olen, hmacs h ctx -> hmacs h tmp -> 0 < hmac_len h ->
  0 <= olen -> (Z.to_nat olen < fuel)%nat ->
  P_hash_loop fuel ctx tmp (rfc_A h seed i) seed (hmac_len h) olen
  = Some (take (Z.to_nat olen) (rfc_blocks h seed i (S (Z.to_nat olen)))).
Proof.
  induction fuel as [|fuel IH]; intros i ctx tmp olen Hc Ht Hpos Ho Hf; [lia|]. cbn [P_hash_loop].
  destruct (law_hmac_two h ctx (rfc_A h seed i) seed Hc) as (c' & E1 & Hc').
  unfold hmac_ctx_final, hmac_ctx_update, hmac_ctx_reset in *. rewrite E1.
  destruct (law_hmac h tmp (rfc_A h seed i) Ht) as (_ & _ & _ & t' & E2 & Ht'). rewrite E2.
  destruct (law_hmac_size h (rfc_A h seed i ++ seed)) as (_ & Hz & _). rewrite rfc_blocks_cons.
  destruct (Z.ltb_spec (hmac_len h) olen).
  - change (hmac h (rfc_A h seed i)) with (rfc_A h seed (S i)). rewrite (IH (S i)) by (done || lia). cbn. f_equal.
    rewrite (take_app_ge (hmac h (rfc_A h seed i ++ seed)) _ (Z.to_nat olen)) by (unfold zlen in Hz; lia). f_equal.
    replace (Z.to_nat olen - length _)%nat with (Z.to_nat (olen - hmac_len h)) by (unfold zlen in Hz; lia).
    apply rfc_blocks_enough; [nia|lia].
  - f_equal. rewrite take_app_le; [done|]. unfold zlen in Hz. lia.
Qed.

Lemma hmac_ctx_init_spec md sec : EVP_MD_size md <= zlen sec -> hmac_ctx_init sec md = Some (HMAC_Init_key md sec).
Proof.
  intros Hz. unfold hmac_ctx_init, hmac_ctx_size. destruct (law_hmac _ _ [] (law_hmac_init md sec)) as (-> & _). rewrite law_hmac_len.
  by rewrite (proj2 (Z.leb_le _ _)).
Qed.

Lemma md_kt_size_eq md : md_kt_size md = EVP_MD_size md.
Proof. pose proof (law_md_size md). unfold md_kt_size, MAX_HMAC_KEY_LENGTH in *. apply wrap_small. unfold is_u. lia. Qed.

Lemma P_hash_spec md sec seed olen : EVP_MD_size md <= zlen sec -> 0 <= olen ->
  tls1_P_hash md sec seed olen = Some (rfc_P_hash (hkey_of md sec) seed olen).
Proof.
  intros Hz Ho. unfold tls1_P_hash. rewrite hmac_ctx_init_spec by done. cbn [mbind option_bind].
  destruct (law_hmac_first md sec seed) as (c' & E & Hc). unfold hmac_ctx_final, hmac_ctx_update. rewrite E.
  rewrite md_kt_size_eq, <- (law_hmac_len md sec). pose proof (law_md_size md).
  change (hmac (hkey_of md sec) seed) with (rfc_A (hkey_of md sec) seed 1).
  rewrite P_hash_loop_spec; [|done|apply law_hmac_init|rewrite law_hmac_len; lia|done|lia].
  unfold rfc_P_hash. f_equal. symmetry. apply rfc_blocks_enough; [rewrite law_hmac_len; nia|lia].
Qed.

Lemma rfc_P_hash_len h seed olen : 0 < hmac_len h -> 0 <= olen ->
  length (rfc_P_hash h seed olen) = Z.to_nat olen /\ Forall is_byte (rfc_P_hash h seed olen).
Proof.
  intros Hh Ho. pose proof (rfc_blocks_len h seed (Z.to_nat olen) 1) as Hl. split.
  - unfold rfc_P_hash. rewrite length_take. unfold zlen in Hl. nia.
  - apply Forall_take. unfold rfc_blocks. apply Forall_concat, Forall_map, Forall_forall. intros j _. apply law_hmac_size.
Qed.

Lemma md_kt_get_spec name m : EVP_get_digestbyname name = Some m -> md_kt_get name = Some m.
Proof.
  intros E. unfold md_kt_get. rewrite E. cbn. destruct (law_md_size m) as [_ Hm]. by rewrite (proj2 (Z.ltb_ge _ _)).
Qed.

Lemma PRF_spec label sec olen : 39 <= zlen sec -> 0 <= olen ->
  exists md5 sha1, EVP_get_digestbyname "MD5" = Some md5 /\ EVP_get_digestbyname "SHA1" = Some sha1 /\
    tls1_PRF label sec olen = Some (rfc_PRF md5 sha1 sec label olen).
Proof.
  intros Hz Ho. destruct law_md5 as (m & Em & Hm), law_sha1 as (s & Es & Hs). exists m, s. split; [done|]. split; [done|].
  unfold tls1_PRF. rewrite (md_kt_get_spec _ _ Em), (md_kt_get_spec _ _ Es). cbn [mbind option_bind].
  change 1 with (Z.ones 1). rewrite Z.land_ones by lia. change (2 ^ 1) with 2.
  assert (Hhalf : Z.to_nat (zlen sec / 2 + zlen sec mod 2) = ((length sec + 1) / 2)%nat).
  { rewrite <- (Nat2Z.id ((length sec + 1) / 2)), Nat2Z.inj_div, Nat2Z.inj_add. f_equal. unfold zlen.
    Z.to_euclidean_division_equations. lia. }
  rewrite Hhalf. assert (Hd : Z.to_nat (zlen sec / 2) = (length sec - (length sec + 1) / 2)%nat).
  { rewrite <- Hhalf. unfold zlen. Z.to_euclidean_division_equations. lia. }
  rewrite Hd. assert (Hlen : (20 <= (length sec + 1) / 2 <= length sec)%nat).
  { rewrite <- Hhalf. unfold zlen in *. Z.to_euclidean_division_equations. lia. }
  rewrite (P_hash_spec m); [|unfold zlen; rewrite length_take; lia|done]. cbn [mbind option_bind].
  rewrite (take_ge (drop _ _)) by (rewrite length_drop; lia).
  rewrite (P_hash_spec s); [|unfold zlen; rewrite length_drop; lia|done]. done.
Qed.

(** Half of a shorter secret is too short a key for SHA-1: the assertion of
    [hmac_ctx_init] fails. *)
Lemma PRF_short label sec olen : zlen sec < 39 -> tls1_PRF label sec olen = None.
Proof.
  intros Hz. destruct law_md5 as (m & Em & Hm), law_sha1 as (s & Es & Hs).
  unfold tls1_PRF. rewrite (md_kt_get_spec _ _ Em), (md_kt_get_spec _ _ Es). cbn [mbind option_bind].
  destruct (tls1_P_hash m _ _ _); [cbn [mbind option_bind]|done]. unfold tls1_P_hash at 1, hmac_ctx_init, hmac_ctx_size.
  set (half := take _ (drop _ sec)). destruct (law_hmac _ _ [] (law_hmac_init s half)) as (-> & _). rewrite law_hmac_len, Hs.
  rewrite (proj2 (Z.leb_gt _ _)); [done|]. unfold half, zlen in *. rewrite length_take, length_drop.
  change 1 with (Z.ones 1). rewrite Z.land_ones by lia. change (2 ^ 1) with 2. Z.to_euclidean_division_equations. lia.
Qed.

(** ** The seed *)

Definition sid_bytes (sid : option (list Z)) : list Z := default [] sid.
Definition sid_ok (sid : option (list Z)) : Prop :=
  match sid with Some bs => zlen bs = SID_SIZE /\ Forall is_byte bs | None => True end.

Lemma write_sid b sid : buf_live b -> sid_ok sid -> zlen (sid_bytes sid) <= b_capacity b - b_offset b - b_len b ->
  exists b', (match sid with Some bs => buf_write b bs | None => (true, b) end) = (true, b') /\ buf_live b' /\
    b_capacity b' = b_capacity b /\ b_offset b' = b_offset b /\ b_len b' = b_len b + zlen (sid_bytes sid) /\
    buf_contents b' = buf_contents b ++ sid_bytes sid.
Proof.
  intros Hb Hs Hr. destruct sid as [bs|]; cbn in *.
  - destruct (buf_write_room b bs Hb Hr) as (b' & -> & ?); [apply Hs|]. by exists b'.
  - exists b. rewrite app_nil_r, zlen_nil. split_and!; try done. lia.
Qed.

Lemma openvpn_PRF_seed secret label cs ss csid ssid olen :
  Forall is_byte (label ++ cs ++ ss) -> zlen (label ++ cs ++ ss) < 2 ^ 20 -> sid_ok csid -> sid_ok ssid ->
  openvpn_PRF secret label cs ss csid ssid olen = tls1_PRF (label ++ cs ++ ss ++ sid_bytes csid ++ sid_bytes ssid) secret olen.
Proof.
  intros [Hl [Hc Hs]%Forall_app]%Forall_app Hz Hcs Hss. rewrite !zlen_app in Hz.
  pose proof (zlen_nonneg label). pose proof (zlen_nonneg cs). pose proof (zlen_nonneg ss).
  assert (Hsz : forall sid, sid_ok sid -> 0 <= zlen (sid_bytes sid) <= SID_SIZE).
  { intros [bs|] Hb; cbn in *; [rewrite (proj1 Hb)|]; unfold SID_SIZE; by split. }
  pose proof (Hsz _ Hcs). pose proof (Hsz _ Hss). unfold SID_SIZE in *. unfold openvpn_PRF, SID_SIZE.
  destruct (alloc_buf_total (zlen label + zlen cs + zlen ss + 8 * 2)) as [b0 E0]; [lia|]. rewrite E0. cbn [mbind option_bind].
  destruct (alloc_buf_live (zlen label + zlen cs + zlen ss + 8 * 2) b0) as (L0 & O0 & N0 & C0); [lia|done|].
  assert (B0 : buf_contents b0 = []) by (apply length_zero_iff_nil; pose proof (buf_contents_length b0 L0) as Hl0; unfold zlen in Hl0; lia).
  destruct (buf_write_room b0 label L0) as (b1 & -> & L1 & C1 & O1 & N1 & B1); [lia|done|].
  destruct (buf_write_room b1 cs L1) as (b2 & -> & L2 & C2 & O2 & N2 & B2); [lia|done|].
  destruct (buf_write_room b2 ss L2) as (b3 & -> & L3 & C3 & O3 & N3 & B3); [lia|done|].
  destruct (write_sid b3 csid L3 Hcs) as (b4 & -> & L4 & C4 & O4 & N4 & B4); [lia|].
  destruct (write_sid b4 ssid L4 Hss) as (b5 & -> & L5 & C5 & O5 & N5 & B5); [lia|].
  rewrite B5, B4, B3, B2, B1, B0. cbn [app]. by rewrite <- !app_assoc.
Qed.

Lemma openvpn_PRF_spec secret label cs ss csid ssid olen :
  39 <= zlen secret -> 0 <= olen -> Forall is_byte (label ++ cs ++ ss) -> zlen (label ++ cs ++ ss) < 2 ^ 20 ->
  sid_ok csid -> sid_ok ssid ->
  exists md5 sha1, EVP_get_digestbyname "MD5" = Some md5 /\ EVP_get_digestbyname "SHA1" = Some sha1 /\
    openvpn_PRF secret label cs ss csid ssid olen
    = Some (rfc_PRF md5 sha1 secret (label ++ cs ++ ss ++ sid_bytes csid ++ sid_bytes ssid) olen).
Proof. intros. rewrite openvpn_PRF_seed by done. by apply PRF_spec. Qed.

(** ** Key contexts *)

(** What [init_key_type] makes of names the library knows, with the default key size. *)
Record kt_ok (kt : key_type) : Prop := mkktok {
  ko_cipher : forall c, kt_cipher kt = Some c ->
    kt_cipher_length kt = EVP_CIPHER_key_length c /\ 0 < kt_cipher_length kt <= MAX_CIPHER_KEY_LENGTH;
  ko_digest : forall d, kt_digest kt = Some d -> kt_hmac_length kt = EVP_MD_size d;
  ko_none : kt_digest kt = None -> kt_hmac_length kt = 0 }.

Lemma init_key_type_ok cn an tls kt : init_key_type cn an 0 tls = Some kt -> kt_ok kt.
Proof.
  unfold init_key_type. intros Hi. apply bind_Some in Hi as (kt0 & Ht & Hi).
  assert (Hk0 : kt_ok kt0 /\ kt_digest kt0 = None).
  { destruct (negb (String.eqb cn "none")).
    - apply bind_Some in Ht as (c & Hc & Ht). unfold cipher_kt_get in Hc. apply bind_Some in Hc as (c' & _ & Hc).
      destruct (Z.ltb_spec MAX_CIPHER_KEY_LENGTH (EVP_CIPHER_key_length c')); [done|]. injection Hc as ->.
      cbn [Z.ltb Z.compare andb] in Ht. clear Hi.
      case_match; [|done]. case_match; [done|]. injection Ht as <-. split; [|done].
      pose proof (law_key_length c). unfold cipher_kt_key_size, MAX_CIPHER_KEY_LENGTH in *.
      constructor; cbn; [|done|done]. intros ? [= <-]. rewrite wrap_small by (unfold is_u; lia). unfold MAX_CIPHER_KEY_LENGTH. lia.
    - injection Ht as <-. split; [|done]. by constructor. }
  destruct Hk0 as [[Hc Hd Hn] Hdn]. case_match; [|by injection Hi as <-].
  apply bind_Some in Hi as (d & _ & Hi). case_match; [done|]. injection Hi as <-.
  constructor; cbn; [done| |done]. intros ? [= <-]. apply md_kt_size_eq.
Qed.

Definition aead_kt (c : EVP_CIPHER) : bool := cipher_kt_mode_aead (Some c).

(** The keys of one direction, from key material. *)
Definition dir_keys (kt : key_type) (k : key) : keys := mkkeys
  (c ← kt_cipher kt; Some (key_of c (take (Z.to_nat (kt_cipher_length kt)) (key_cipher k))))
  (d ← kt_digest kt; Some (hkey_of d (take (Z.to_nat (kt_hmac_length kt)) (key_hmac k))))
  (match kt_cipher kt with
   | Some c => if aead_kt c then take (Z.to_nat (EVP_CIPHER_iv_length c - 4)) (key_hmac k) else []
   | None => []
   end).

(** What the options must have for the mode of the cipher. *)
Definition kt_conf (kt : key_type) (cf : pid_conf) : Prop :=
  match kt_cipher kt with
  | Some c =>
      let n := EVP_CIPHER_iv_length c in
      if aead_kt c then pc_on cf = true /\ OPENVPN_AEAD_MIN_IV_LEN <= n <= OPENVPN_MAX_IV_LENGTH
      else if cipher_kt_mode_cbc (Some c) then 0 <= n <= OPENVPN_MAX_IV_LENGTH
      else cipher_kt_mode_ofb_cfb (Some c) = true /\ pc_on cf = true /\ 8 <= n <= OPENVPN_MAX_IV_LENGTH
  | None => True
  end.

Record key_ok (k : key) : Prop := mkkok {
  kk_cipher : zlen (key_cipher k) = MAX_CIPHER_KEY_LENGTH;
  kk_hmac : zlen (key_hmac k) = MAX_HMAC_KEY_LENGTH;
  kk_bytes : Forall is_byte (key_hmac k) }.

Lemma take_zlen {A} (l : list A) n : 0 <= n <= zlen l -> zlen (take (Z.to_nat n) l) = n.
Proof. unfold zlen. rewrite length_take. lia. Qed.

Lemma dir_keys_ok kt k cf : key_ok k -> kt_conf kt cf -> keys_ok (dir_keys kt k) cf.
Proof.
  intros [_ Hh Hb] Hc. unfold kt_conf, keys_ok, dir_keys, is_aead, is_cbc, is_stream, iv_len, aead_kt in *. cbn.
  destruct (kt_cipher kt) as [c|]; cbn; [|done]. rewrite law_key_of. destruct (cipher_kt_mode_aead (Some c)) eqn:Ha; [|done].
  unfold OPENVPN_AEAD_MIN_IV_LEN, OPENVPN_MAX_IV_LENGTH, MAX_HMAC_KEY_LENGTH in *. destruct Hc as [? ?].
  split_and!; try done; [lia|lia|apply take_zlen; lia|by apply Forall_take].
Qed.

Lemma dir_keys_type kt k : kt_ok kt -> keys_type (dir_keys kt k) kt.
Proof.
  intros [_ Hd Hn]. unfold keys_type, dir_keys, mac_len. cbn. split.
  - destruct (kt_cipher kt); cbn; [|done]. by rewrite law_key_of.
  - destruct (kt_digest kt) as [d|]; cbn; [|auto]. rewrite law_hmac_len. auto.
Qed.

Definition direction (enc : bool) : ckey -> EVP_CIPHER_CTX -> Prop := if enc then encrypts else decrypts.

(** A key context as [generate_key_expansion] makes it. *)
Lemma key_context kt k enc cf : kt_ok kt -> key_ok k -> kt_conf kt cf -> exists ctx ctx',
  init_key_ctx k kt enc = Some ctx /\ key_ctx_update_implicit_iv ctx (key_hmac k) MAX_HMAC_KEY_LENGTH = Some ctx' /\
  keyed (direction enc) (dir_keys kt k) ctx'.
Proof.
  intros [Hkc Hkd Hkn] [Hc Hh _] Hcf. unfold init_key_ctx.
  assert (exists ho, match kt_digest kt with
      | Some d => if 0 <? kt_hmac_length kt then ctx ← hmac_ctx_init (take (Z.to_nat (kt_hmac_length kt)) (key_hmac k)) d; Some (Some ctx)
                  else Some None
      | None => Some None end = Some ho /\ same hmacs (sk_hmac (dir_keys kt k)) ho) as (ho & -> & Hho).
  { unfold dir_keys. cbn. destruct (kt_digest kt) as [d|]; [|by exists None]. specialize (Hkd d eq_refl). pose proof (law_md_size d).
    rewrite (proj2 (Z.ltb_lt 0 _)) by lia. rewrite hmac_ctx_init_spec; [|rewrite take_zlen; lia]. cbn.
    eexists. split; [reflexivity|]. apply law_hmac_init. }
  destruct (kt_cipher kt) as [c|] eqn:Ec.
  - destruct (Hkc c eq_refl) as [Hl Hr]. rewrite (proj2 (Z.ltb_lt 0 _)) by lia. unfold cipher_ctx_init.
    destruct (law_cipher_init c (take (Z.to_nat (kt_cipher_length kt)) (key_cipher k)) enc) as (x & -> & Hlen & Hx).
    { rewrite take_zlen; lia. }
    cbn. rewrite (proj2 (Z.leb_le _ _)) by done. cbn.
    assert (Hx' : EVP_CIPHER_CTX_cipher x = c).
    { destruct (law_ctx (key_of c (take (Z.to_nat (kt_cipher_length kt)) (key_cipher k))) x) as (-> & _); [destruct enc; auto|].
      apply law_key_of. }
    assert (HR : direction enc (key_of c (take (Z.to_nat (kt_cipher_length kt)) (key_cipher k))) x) by (by destruct enc).
    exists (mkkctx (Some x) ho (replicate (Z.to_nat OPENVPN_MAX_IV_LENGTH) 0) 0). unfold key_ctx_update_implicit_iv, kt_conf in *. cbn. rewrite Hx'. rewrite Ec in Hcf. fold (aead_kt c). unfold cipher_kt_iv_size.
    destruct (aead_kt c) eqn:Ha.
    + unfold OPENVPN_AEAD_MIN_IV_LEN, OPENVPN_MAX_IV_LENGTH, MAX_HMAC_KEY_LENGTH in *. destruct Hcf as [_ Hiv].
      rewrite !(proj2 (Z.leb_le _ _)) by lia. cbn [andb]. eexists. split; [reflexivity|]. split; [reflexivity|].
      unfold dir_keys. rewrite Ec, Ha. cbn. constructor; cbn; try done.
      * set (n := EVP_CIPHER_iv_length c - 4) in *. assert (Hn : zlen (mem_read (key_hmac k) 0 n) = n) by (apply mem_read_length; lia).
        pose proof (mem_read_write_eq (replicate 16 0) 0 (mem_read (key_hmac k) 0 n)) as Hrw. rewrite Hn in Hrw.
        etransitivity; [apply Hrw; [done|change (zlen (replicate 16 0)) with 16; lia]|]. unfold mem_read. by rewrite drop_0.
      * rewrite take_zlen; lia.
    + eexists. split; [reflexivity|]. split; [reflexivity|]. unfold dir_keys. rewrite Ec, Ha. by constructor.
  - cbn. do 2 eexists. split; [reflexivity|]. split; [reflexivity|]. unfold dir_keys. rewrite Ec. by constructor.
Qed.

(** ** Key material *)

Lemma des_fixup_len ndc : forall k, zlen (key_des_fixup k ndc) = zlen k.
Proof.
  induction ndc as [|ndc IH]; intros k; [done|]. cbn [key_des_fixup]. destruct (Z.ltb_spec (zlen k) 8); [done|].
  assert (zlen (take 8 k) = 8) as H8 by (apply (take_zlen k 8); lia).
  rewrite zlen_app, law_odd_parity, IH by done. unfold zlen in *. rewrite length_drop. lia.
Qed.

Lemma fixup_ok k kt : key_ok k -> key_ok (fixup_key k kt).
Proof.
  intros [Hc Hh Hb]. unfold fixup_key. destruct (kt_cipher kt); [|done]. case_match; [|done]. constructor; cbn; try done.
  rewrite zlen_app, des_fixup_len, <- zlen_app, take_drop. done.
Qed.

Lemma key_of_bytes_ok bs : KEY_SIZE <= zlen bs -> Forall is_byte bs -> key_ok (key_of_bytes bs).
Proof.
  unfold KEY_SIZE, MAX_CIPHER_KEY_LENGTH, MAX_HMAC_KEY_LENGTH. intros Hz Hb. unfold key_of_bytes. constructor; cbn.
  - apply (take_zlen bs 64). lia.
  - change (Z.to_nat MAX_CIPHER_KEY_LENGTH) with 64%nat. apply (take_zlen _ 64). unfold zlen in *. rewrite length_drop. lia.
  - apply Forall_take, Forall_drop, Hb.
Qed.

(** The random material both ends hold, and what they make of it. *)
Record source_ok (src : key_source2) : Prop := mksok {
  so_pre : zlen (src_pre_master (k2_client src)) = PRE_MASTER_LEN;
  so_client1 : zlen (src_random1 (k2_client src)) = RANDOM_LEN;
  so_server1 : zlen (src_random1 (k2_server src)) = RANDOM_LEN;
  so_client2 : zlen (src_random2 (k2_client src)) = RANDOM_LEN;
  so_server2 : zlen (src_random2 (k2_server src)) = RANDOM_LEN;
  so_bytes1 : Forall is_byte (src_random1 (k2_client src) ++ src_random1 (k2_server src));
  so_bytes2 : Forall is_byte (src_random2 (k2_client src) ++ src_random2 (k2_server src)) }.

Lemma rfc_PRF_len md5 sha1 secret seed olen : 0 <= olen ->
  zlen (rfc_PRF md5 sha1 secret seed olen) = olen /\ Forall is_byte (rfc_PRF md5 sha1 secret seed olen).
Proof.
  intros Ho. unfold rfc_PRF. set (half := ((length secret + 1) / 2)%nat).
  set (h1 := hkey_of md5 (take half secret)). set (h2 := hkey_of sha1 (drop (length secret - half) secret)).
  assert (H1 : 0 < hmac_len h1) by (unfold h1; rewrite law_hmac_len; apply law_md_size).
  assert (H2 : 0 < hmac_len h2) by (unfold h2; rewrite law_hmac_len; apply law_md_size).
  destruct (rfc_P_hash_len h1 seed olen H1 Ho) as [L1 B1], (rfc_P_hash_len h2 seed olen H2 Ho) as [L2 B2]. split.
  - unfold zlen. rewrite length_zip_with, L1, L2. lia.
  - apply Forall_forall. intros x Hx. apply elem_of_lookup_zip_with in Hx as (i & a & b & -> & Ha & Hb).
    rewrite Forall_lookup in B1, B2. apply (lxor_range 8 a b); [done|apply (B1 i a Ha)|apply (B2 i b Hb)].
Qed.

Lemma label_bytes s : Forall is_byte (bytes_of s).
Proof.
  unfold bytes_of. apply Forall_map, Forall_forall. intros c _. unfold is_byte. pose proof (N_ascii_bounded c). lia.
Qed.

#[local] Arguments init_key_ctx : simpl never.
#[local] Arguments key_ctx_update_implicit_iv : simpl never.

(** The keys depend on the material and on the session ids alone; [None] is a weak key. *)
Lemma expansion_material kt src csid ssid : kt_ok kt -> source_ok src -> sid_ok (Some csid) -> sid_ok (Some ssid) ->
  exists ks : option (key * key), (forall k0 k1, ks = Some (k0, k1) -> key_ok k0 /\ key_ok k1) /\
    forall k server cf, kb_initialized k = false -> kt_conf kt cf ->
      match ks with
      | None => generate_key_expansion k kt src csid ssid server = Some (false, k)
      | Some (k0, k1) => exists enc dec,
          generate_key_expansion k kt src csid ssid server = Some (true, mkbi enc dec true) /\
          keyed encrypts (dir_keys kt (if server then k1 else k0)) enc /\
          keyed decrypts (dir_keys kt (if server then k0 else k1)) dec
      end.
Proof.
  intros Hkt [P C1 S1 C2 S2 B1 B2] Hcs Hss. unfold PRE_MASTER_LEN, RANDOM_LEN in *.
  destruct (openvpn_PRF_spec (src_pre_master (k2_client src)) (bytes_of (KEY_EXPANSION_ID ++ " master secret"))
    (src_random1 (k2_client src)) (src_random1 (k2_server src)) None None 48) as (md5 & sha1 & E5 & E1 & Em); try done; try lia.
  { apply Forall_app. split; [apply label_bytes|done]. }
  { rewrite !zlen_app, C1, S1. done. }
  set (master := rfc_PRF _ _ _ _ _) in Em. destruct (rfc_PRF_len md5 sha1 (src_pre_master (k2_client src))
    (bytes_of (KEY_EXPANSION_ID ++ " master secret") ++ src_random1 (k2_client src) ++ src_random1 (k2_server src) ++ sid_bytes None ++ sid_bytes None) 48)
    as [Lm _]; [lia|]. fold master in Lm.
  destruct (openvpn_PRF_spec master (bytes_of (KEY_EXPANSION_ID ++ " key expansion"))
    (src_random2 (k2_client src)) (src_random2 (k2_server src)) (Some csid) (Some ssid) (2 * KEY_SIZE))
    as (md5' & sha1' & _ & _ & Eb); try done; try lia.
  { apply Forall_app. split; [apply label_bytes|done]. }
  { rewrite !zlen_app, C2, S2. done. }
  match type of Eb with _ = Some (rfc_PRF ?a ?b ?c ?d ?e) => destruct (rfc_PRF_len a b c d e ltac:(done)) as [Lb Bb] end.
  set (block := rfc_PRF _ _ _ _ _) in Eb, Lb, Bb.
  set (k0 := fixup_key (key_of_bytes block) kt). set (k1 := fixup_key (key_of_bytes (drop (Z.to_nat KEY_SIZE) block)) kt).
  assert (K0 : key_ok k0) by (apply fixup_ok, key_of_bytes_ok; [rewrite Lb; done|done]).
  assert (K1 : key_ok k1).
  { apply fixup_ok, key_of_bytes_ok; [|by apply Forall_drop]. unfold zlen in *. rewrite length_drop. unfold KEY_SIZE, MAX_CIPHER_KEY_LENGTH, MAX_HMAC_KEY_LENGTH in *. lia. }
  exists (if check_key k0 kt && check_key k1 kt then Some (k0, k1) else None). split; [by intros ? ? ?; case_match; simplify_eq|].
  intros k server cf Hk Hcf. unfold generate_key_expansion. rewrite Hk, Em. cbn [mbind option_bind]. rewrite Eb. cbn [mbind option_bind].
  unfold keys_of_bytes. cbn [fix_keys]. fold k0 k1. destruct (check_key k0 kt); cbn [andb]; [|done].
  destruct (check_key k1 kt); cbn [mbind option_bind]; [|done].
  destruct (key_context kt k0 true cf Hkt K0 Hcf) as (a & a' & Ea & Ea' & Ka), (key_context kt k1 false cf Hkt K1 Hcf) as (b & b' & Eb1 & Eb' & Kb),
    (key_context kt k1 true cf Hkt K1 Hcf) as (d & d' & Ed & Ed' & Kd), (key_context kt k0 false cf Hkt K0 Hcf) as (e & e' & Ee & Ee' & Ke).
  change ([k0; k1] !! 0%nat) with (Some k0). change ([k0; k1] !! 1%nat) with (Some k1).
  assert (Hbi : forall dir, init_key_ctx_bi (mkkey2 2 [k0; k1]) (if dir : bool then KEY_DIRECTION_INVERSE else KEY_DIRECTION_NORMAL) kt
    = Some (if dir then mkbi d e true else mkbi a b true)).
  { intros []; unfold init_key_ctx_bi, OPENVPN_OP_ENCRYPT, OPENVPN_OP_DECRYPT; cbn -[lookup].
    - change ([k0; k1] !! Z.to_nat 1) with (Some k1). change ([k0; k1] !! Z.to_nat 0) with (Some k0). cbn. by rewrite Ed; cbn; rewrite Ee.
    - change ([k0; k1] !! Z.to_nat 1) with (Some k1). change ([k0; k1] !! Z.to_nat 0) with (Some k0). cbn. by rewrite Ea; cbn; rewrite Eb1. }
  rewrite Hbi. destruct server; cbn.
  - rewrite Ed'. cbn. rewrite Ee'. cbn. by eexists _, _.
  - rewrite Ea'. cbn. rewrite Eb'. cbn. by eexists _, _.
Qed.

End Derive.

(** ** The exchange of the random material *)

Section Exchange.

Definition rand_ok (rand : nat -> Z -> option (list Z)) : Prop :=
  forall n len, 0 <= len -> exists bs, rand n len = Some bs /\ zlen bs = len /\ Forall is_byte bs.

(** The bytes one end sends; the server has no pre-master secret. *)
Definition source_bytes (server : bool) (k : key_source) : list Z :=
  (if server then [] else src_pre_master k) ++ src_random1 k ++ src_random2 k.

Record half_ok (server : bool) (k : key_source) : Prop := mkhok {
  ho_pre : zlen (src_pre_master k) = PRE_MASTER_LEN;
  ho_random1 : zlen (src_random1 k) = RANDOM_LEN;
  ho_random2 : zlen (src_random2 k) = RANDOM_LEN;
  ho_bytes1 : Forall is_byte (src_random1 k);
  ho_bytes2 : Forall is_byte (src_random2 k);
  ho_server : server = true -> src_pre_master k = src_pre_master key_source_zero }.

Lemma source_bytes_len server k : half_ok server k -> zlen (source_bytes server k) = if server then 64 else 112.
Proof.
  intros [P R1 R2 _ _ _]. unfold source_bytes. rewrite !zlen_app, R1, R2. destruct server; [done|]. rewrite P. done.
Qed.

Lemma random_to_buf rand n buf len : rand_ok rand -> buf_live buf -> 0 <= len <= b_capacity buf - b_offset buf - b_len buf ->
  exists out buf', random_bytes_to_buf rand n buf len = Some (true, out, buf') /\ zlen out = len /\ Forall is_byte out /\
    buf_live buf' /\ buf_contents buf' = buf_contents buf ++ out /\
    b_capacity buf' = b_capacity buf /\ b_offset buf' = b_offset buf /\ b_len buf' = b_len buf + len.
Proof.
  intros Hr Hb Hroom. destruct (Hr n len) as (out & E & Hz & Hby); [lia|]. unfold random_bytes_to_buf. rewrite E. cbn.
  destruct (buf_write_room buf out Hb) as (b' & -> & L & C & O & N & B); [lia|done|]. exists out, b'. rewrite <- Hz. done.
Qed.

Lemma randomize_write_spec rand k2 buf (server : bool) : rand_ok rand -> buf_live buf ->
  (if server then 64 else 112) <= b_capacity buf - b_offset buf - b_len buf ->
  exists k buf', key_source2_randomize_write rand k2 buf server = Some (true, set_source k2 server k, buf') /\ half_ok server k /\
    buf_live buf' /\ buf_contents buf' = buf_contents buf ++ source_bytes server k /\
    b_capacity buf' = b_capacity buf /\ b_offset buf' = b_offset buf /\ b_len buf' = b_len buf + (if server then 64 else 112).
Proof.
  intros Hr Hb Hroom. unfold key_source2_randomize_write, PRE_MASTER_LEN, RANDOM_LEN.
  assert (exists (k : key_source) (b : buffer), (if negb server then '(ok, out, buf) ← random_bytes_to_buf rand 0 buf 48;
       Some (ok : bool, key_source_zero <| src_pre_master := out |>, buf) else Some (true, key_source_zero, buf)) = Some (true, k, b) /\
     zlen (src_pre_master k) = 48 /\ (server = true -> src_pre_master k = src_pre_master key_source_zero) /\ buf_live b /\
     buf_contents b = buf_contents buf ++ (if server then [] else src_pre_master k) /\
     b_capacity b = b_capacity buf /\ b_offset b = b_offset buf /\ b_len b = b_len buf + (if server then 0 else 48))
    as (k & b & -> & Hp & Hs & L & C & Ec & Eo & El).
  { destruct server; cbn [negb].
    - exists key_source_zero, buf. rewrite app_nil_r, Z.add_0_r. done.
    - destruct (random_to_buf rand 0 buf 48 Hr Hb) as (out & b & -> & Hz & _ & L & C & ? & ? & ?); [lia|]. cbn.
      eexists _, b. split; [reflexivity|]. done. }
  cbn [mbind option_bind negb].
  destruct (random_to_buf rand 1 b 32 Hr L) as (r1 & b1 & -> & Z1 & B1 & L1 & C1 & Ec1 & Eo1 & El1); [destruct server; lia|].
  cbn [mbind option_bind negb].
  destruct (random_to_buf rand 2 b1 32 Hr L1) as (r2 & b2 & -> & Z2 & B2 & L2 & C2 & Ec2 & Eo2 & El2); [destruct server; lia|].
  cbn [mbind option_bind]. eexists _, b2. split; [reflexivity|]. split; [by constructor|]. split; [done|]. split.
  - rewrite C2, C1, C. unfold source_bytes. cbn. by rewrite <- !app_assoc.
  - split_and!; try congruence. destruct server; lia.
Qed.

Lemma source_read_spec k2 buf server k rest : half_ok (negb server) k -> buf_live buf ->
  buf_contents buf = source_bytes (negb server) k ++ rest ->
  exists buf', key_source2_read k2 buf server = (true, set_source k2 (negb server) k, buf') /\ buf_live buf' /\
    buf_contents buf' = rest /\ b_capacity buf' = b_capacity buf.
Proof.
  intros [P R1 R2 _ _ Hs] Hb Hc. unfold key_source2_read. unfold source_bytes in Hc. rewrite <- !app_assoc in Hc.
  assert (exists b k0, (if server then match buf_read buf PRE_MASTER_LEN with
      | (Some bs, buf) => (true, key_source_zero <| src_pre_master := bs |>, buf) | (None, buf) => (false, key_source_zero, buf) end
      else (true, key_source_zero, buf)) = (true, k0, b) /\ src_pre_master k0 = src_pre_master k /\ buf_live b /\
      buf_contents b = src_random1 k ++ src_random2 k ++ rest /\ b_capacity b = b_capacity buf) as (b & k0 & -> & Hp & L & C & Ec).
  { destruct server; cbn [negb] in *.
    - rewrite <- P. destruct (buf_read_app buf (src_pre_master k) _ Hb Hc) as (b & -> & L & C & Ec & _). by eexists b, _.
    - exists buf, key_source_zero. rewrite Hs by done. done. }
  cbn [negb]. rewrite <- R1. destruct (buf_read_app b (src_random1 k) _ L C) as (b1 & -> & L1 & C1 & Ec1 & _).
  rewrite R1, <- R2. destruct (buf_read_app b1 (src_random2 k) _ L1 C1) as (b2 & -> & L2 & C2 & Ec2 & _).
  exists b2. split; [|split_and!; try done; congruence]. destruct k, k0. cbn in *. by subst.
Qed.

(** What the TLS engine makes of a message: the same bytes in the reader's buffer. *)
Definition deliver (bs : list Z) : option buffer :=
  b ← alloc_buf TLS_CHANNEL_BUF_SIZE;
  let '(ok, b) := buf_write b bs in ASSERT ok ;; Some b.

Lemma fresh_buffer : exists b, alloc_buf TLS_CHANNEL_BUF_SIZE = Some b /\ buf_live b /\ b_offset b = 0 /\ b_len b = 0 /\
  b_capacity b = 2 ^ 18 /\ buf_contents b = [].
Proof.
  change TLS_CHANNEL_BUF_SIZE with (2 ^ 18). destruct (alloc_buf_total (2 ^ 18)) as [b E]; [lia|]. exists b. split; [done|].
  destruct (alloc_buf_live (2 ^ 18) b) as (L & O & N & C); [lia|done|]. split_and!; try done.
  apply length_zero_iff_nil. pose proof (buf_contents_length b L) as Hl. unfold zlen in Hl. lia.
Qed.

Lemma deliver_spec bs : zlen bs <= 2 ^ 18 -> Forall is_byte bs ->
  exists b, deliver bs = Some b /\ buf_live b /\ buf_contents b = bs /\ b_capacity b = 2 ^ 18.
Proof.
  intros Hz Hb. unfold deliver. destruct fresh_buffer as (b & -> & L & O & N & C & B). cbn.
  destruct (buf_write_room b bs L) as (b' & -> & L' & C' & _ & _ & B'); [lia|done|]. exists b'. rewrite B in B'.
  split_and!; try done. congruence.
Qed.

Context `{EvpKeyLaws}.

(** The material goes both ways, the client first. *)
Definition exchange (randc rands : nat -> Z -> option (list Z)) (c s : kx_session) : option (kx_session * kx_session) :=
  bc ← alloc_buf TLS_CHANNEL_BUF_SIZE;
  '(ok, k2c, bc) ← key_source2_randomize_write randc (kx_key_src c) bc (kx_server c);
  ASSERT (ok : bool) ;;
  rs ← deliver (buf_contents bc);
  let '(ok, k2s, _) := key_source2_read (kx_key_src s) rs (kx_server s) in
  ASSERT (ok : bool) ;;
  bs ← alloc_buf TLS_CHANNEL_BUF_SIZE;
  '(ok, k2s, bs) ← key_source2_randomize_write rands k2s bs (kx_server s);
  ASSERT (ok : bool) ;;
  rc ← deliver (buf_contents bs);
  let '(ok, k2c, _) := key_source2_read k2c rc (kx_server c) in
  ASSERT (ok : bool) ;;
  Some (c <| kx_key_src := k2c |>, s <| kx_key_src := k2s |>).

Lemma source_bytes_byte server k : half_ok server k -> (server = false -> Forall is_byte (src_pre_master k)) -> Forall is_byte (source_bytes server k).
Proof. intros [_ _ _ B1 B2 _] Hp. unfold source_bytes. repeat (apply Forall_app; split); try done. destruct server; [done|auto]. Qed.

Lemma exchange_spec randc rands c s : kx_server c = false -> kx_server s = true -> rand_ok randc -> rand_ok rands ->
  exists src, source_ok src /\ exchange randc rands c s = Some (c <| kx_key_src := src |>, s <| kx_key_src := src |>).
Proof.
  intros Hc Hs Hrc Hrs. unfold exchange. rewrite Hc, Hs. destruct fresh_buffer as (b & Eb & Lb0 & O & N & C & B). rewrite Eb. cbn [mbind option_bind].
  destruct (randomize_write_spec randc (kx_key_src c) b false Hrc Lb0) as (kc & bc & -> & Hkc & Lc & Cc & _); [lia|]. cbn [mbind option_bind].
  rewrite B in Cc. cbn [app] in Cc. pose proof (source_bytes_len false kc Hkc) as Zc.
  assert (Bc : Forall is_byte (buf_contents bc)) by (by apply buf_contents_bytes, Lc). rewrite Cc in *.
  destruct (deliver_spec (source_bytes false kc)) as (rs & -> & Lr & Cr & _); [rewrite Zc; lia|done|]. cbn [mbind option_bind].
  destruct (source_read_spec (kx_key_src s) rs true kc [] Hkc Lr) as (rs' & -> & _); [by rewrite app_nil_r|]. cbn [negb set_source mbind option_bind].
  destruct (randomize_write_spec rands ((kx_key_src s) <| k2_client := kc |>) b true Hrs Lb0) as (ks & bs & -> & Hks & Ls & Cs & _); [lia|].
  cbn [mbind option_bind]. rewrite B in Cs. cbn [app] in Cs. pose proof (source_bytes_len true ks Hks) as Zs.
  assert (Bs : Forall is_byte (buf_contents bs)) by (by apply buf_contents_bytes, Ls). rewrite Cs in *.
  destruct (deliver_spec (source_bytes true ks)) as (rc & -> & Lrc & Crc & _); [rewrite Zs; lia|done|]. cbn [mbind option_bind].
  destruct (source_read_spec ((kx_key_src c) <| k2_client := kc |>) rc false ks [] Hks Lrc) as (rc' & -> & _); [by rewrite app_nil_r|].
  exists (mkksrc2 kc ks). split; [|by cbn]. destruct Hkc, Hks. constructor; cbn; try done; apply Forall_app; done.
Qed.

(** ** Both ends come to the same keys *)

(** Two ends of a session before the exchange. *)
Record session_pair (c s : kx_session) (kt : key_type) (cf : pid_conf) : Prop := mkpair {
  sp_client : kx_server c = false;
  sp_server : kx_server s = true;
  sp_sid_client : kx_session_id c = kx_session_id_remote s /\ sid_ok (Some (kx_session_id c));
  sp_sid_server : kx_session_id s = kx_session_id_remote c /\ sid_ok (Some (kx_session_id s));
  sp_type : kx_key_type c = kt /\ kx_key_type s = kt;
  sp_flags : forall x, x = c \/ x = s -> negb (Z.land (kx_crypto_flags x) CO_PACKET_ID_LONG_FORM =? 0) = pc_long cf /\
                                       negb (Z.land (kx_crypto_flags x) CO_IGNORE_PACKET_ID =? 0) = pc_ignore cf;
  sp_fresh : forall x, x = c \/ x = s -> kb_initialized (o_key_ctx_bi (kx_crypto_options x)) = false;
  sp_pid : forall x, x = c \/ x = s -> packet_id_initialized (o_packet_id (kx_crypto_options x)) = pc_on cf;
  sp_auth : forall x, x = c \/ x = s -> kx_authenticated x <> KS_AUTH_FALSE }.

(** One end generates its keys. *)
Lemma generate_spec x kt cf src (k0 k1 : key) enc dec : kx_key_type x = kt -> kx_key_src x = src -> kx_authenticated x <> KS_AUTH_FALSE ->
  generate_key_expansion (o_key_ctx_bi (kx_crypto_options x)) kt src (kx_client_sid x) (kx_server_sid x) (kx_server x)
    = Some (true, mkbi enc dec true) ->
  keyed encrypts (dir_keys kt k0) enc -> keyed decrypts (dir_keys kt k1) dec ->
  packet_id_initialized (o_packet_id (kx_crypto_options x)) = pc_on cf ->
  negb (Z.land (kx_crypto_flags x) CO_PACKET_ID_LONG_FORM =? 0) = pc_long cf ->
  negb (Z.land (kx_crypto_flags x) CO_IGNORE_PACKET_ID =? 0) = pc_ignore cf ->
  exists x', tls_session_generate_data_channel_keys x = Some (true, x') /\ kx_key_src x' = key_source2_zero /\
    options_ok (dir_keys kt k0) (dir_keys kt k1) cf (kx_crypto_options x').
Proof.
  intros Ht Hs Ha Hg He Hd Hp Hl Hi. unfold tls_session_generate_data_channel_keys. rewrite bool_decide_eq_false_2 by done.
  set (x1 := x <| kx_crypto_options := _ |>). change (kx_key_type x1) with (kx_key_type x). change (kx_key_src x1) with (kx_key_src x).
  change (kx_client_sid x1) with (kx_client_sid x). change (kx_server_sid x1) with (kx_server_sid x). change (kx_server x1) with (kx_server x).
  change (o_key_ctx_bi (kx_crypto_options x1)) with (o_key_ctx_bi (kx_crypto_options x)). rewrite Ht, Hs, Hg. cbn.
  eexists. split; [reflexivity|]. split; [done|]. by constructor.
Qed.

Lemma generate_weak x b : kx_authenticated x <> KS_AUTH_FALSE ->
  generate_key_expansion (o_key_ctx_bi (kx_crypto_options x)) (kx_key_type x) (kx_key_src x) (kx_client_sid x) (kx_server_sid x) (kx_server x)
    = Some (false, b) -> exists x', tls_session_generate_data_channel_keys x = Some (false, x').
Proof.
  intros Ha Hg. unfold tls_session_generate_data_channel_keys. rewrite bool_decide_eq_false_2 by done.
  set (x1 := x <| kx_crypto_options := _ |>).
  change (generate_key_expansion (o_key_ctx_bi (kx_crypto_options x1)) (kx_key_type x1) (kx_key_src x1) (kx_client_sid x1)
    (kx_server_sid x1) (kx_server x1)) with (generate_key_expansion (o_key_ctx_bi (kx_crypto_options x)) (kx_key_type x) (kx_key_src x)
    (kx_client_sid x) (kx_server_sid x) (kx_server x)). rewrite Hg. cbn. by eexists.
Qed.

End Exchange.

(** ** Properties *)

(** C9. Key agreement.  A client and a server that exchange their random material
    ([key_source2_randomize_write], [key_source2_read]) over an undisturbed TLS channel and then run
    [tls_session_generate_data_channel_keys] either both succeed or both find the
    keys weak.  If they succeed, what one end encrypts with the other decrypts with,
    in both directions, both have the options the data channel needs, and the random
    material is erased. *)
Theorem key_exchange_agrees `{EvpKeyLaws} c s kt cf randc rands : session_pair c s kt cf -> kt_ok kt -> kt_conf kt cf ->
  rand_ok randc -> rand_ok rands ->
  exists c1 s1, exchange randc rands c s = Some (c1, s1) /\
  ((exists c2 s2, tls_session_generate_data_channel_keys c1 = Some (false, c2) /\
                  tls_session_generate_data_channel_keys s1 = Some (false, s2)) \/
   (exists c2 s2 Kc Ks, tls_session_generate_data_channel_keys c1 = Some (true, c2) /\
                        tls_session_generate_data_channel_keys s1 = Some (true, s2) /\
     options_ok Kc Ks cf (kx_crypto_options c2) /\ options_ok Ks Kc cf (kx_crypto_options s2) /\
     keys_ok Kc cf /\ keys_ok Ks cf /\ keys_type Kc kt /\ keys_type Ks kt /\
     kx_key_src c2 = key_source2_zero /\ kx_key_src s2 = key_source2_zero)).
Proof.
  intros [Hc Hs [Sc Oc] [Ss Os] [Tc Ts] Hfl Hfr Hp Ha] Hkt Hcf Hrc Hrs.
  destruct (exchange_spec randc rands c s Hc Hs Hrc Hrs) as (src & Hsrc & ->). do 2 eexists. split; [reflexivity|].
  destruct (expansion_material kt src (kx_session_id c) (kx_session_id s) Hkt Hsrc Oc Os) as (ks & Hks & Hgen).
  assert (Hcc : kx_client_sid c = kx_session_id c /\ kx_server_sid c = kx_session_id s).
  { unfold kx_client_sid, kx_server_sid. rewrite Hc. by rewrite Ss. }
  assert (Hcs : kx_client_sid s = kx_session_id c /\ kx_server_sid s = kx_session_id s).
  { unfold kx_client_sid, kx_server_sid. rewrite Hs. by rewrite Sc. }
  pose proof (Hgen _ false cf (Hfr c (or_introl eq_refl)) Hcf) as Gc. pose proof (Hgen _ true cf (Hfr s (or_intror eq_refl)) Hcf) as Gs.
  destruct (Hfl c (or_introl eq_refl)) as [? ?], (Hfl s (or_intror eq_refl)) as [? ?].
  destruct ks as [[k0 k1]|].
  - right. destruct (Hks k0 k1 eq_refl) as [K0 K1]. destruct Gc as (ec & dc & Gc & Ec & Dc), Gs as (es & ds & Gs & Es & Ds).
    destruct (generate_spec (c <| kx_key_src := src |>) kt cf src k0 k1 ec dc) as (c2 & Ec2 & Zc & Occ); try done; [exact (Ha c (or_introl eq_refl))| |exact (Hp c (or_introl eq_refl))|].
    { change (generate_key_expansion (o_key_ctx_bi (kx_crypto_options c)) kt src (kx_client_sid c) (kx_server_sid c) (kx_server c) = Some (true, mkbi ec dc true)).
      destruct Hcc as [-> ->]. by rewrite Hc. }
    destruct (generate_spec (s <| kx_key_src := src |>) kt cf src k1 k0 es ds) as (s2 & Es2 & Zs & Occs); try done; [exact (Ha s (or_intror eq_refl))| |exact (Hp s (or_intror eq_refl))|].
    { change (generate_key_expansion (o_key_ctx_bi (kx_crypto_options s)) kt src (kx_client_sid s) (kx_server_sid s) (kx_server s) = Some (true, mkbi es ds true)).
      destruct Hcs as [-> ->]. by rewrite Hs. }
    exists c2, s2, (dir_keys kt k0), (dir_keys kt k1). split_and!; try done; by (apply dir_keys_ok || apply dir_keys_type).
  - left. destruct (generate_weak (c <| kx_key_src := src |>) (o_key_ctx_bi (kx_crypto_options c))) as [c2 E2]; [exact (Ha c (or_introl eq_refl))| |].
    { destruct Hcc as [Hcc1 Hcc2]. unfold kx_client_sid, kx_server_sid in *. cbn. by rewrite Hcc1, Hcc2, Hc, Tc. }
    destruct (generate_weak (s <| kx_key_src := src |>) (o_key_ctx_bi (kx_crypto_options s))) as [s2 Es2]; [exact (Ha s (or_intror eq_refl))| |].
    { destruct Hcs as [Hcs1 Hcs2]. unfold kx_client_sid, kx_server_sid in *. cbn. by rewrite Hcs1, Hcs2, Hs, Ts. }
    by exists c2, s2.
Qed.

(** C10. The pseudo-random function.  [openvpn_PRF] on a secret, a label, two seeds
    and up to two session ids is the PRF of RFC 2246 (P_MD5 on the first half of the
    secret XOR P_SHA-1 on the second, the middle byte of an odd secret in both) of the
    label followed by the seeds and the session ids, for every output length; the loop
    of [tls1_P_hash] ends.  For a secret of less than 39 bytes it fails its assertion. *)
Theorem openvpn_PRF_is_rfc2246 `{EvpKeyLaws} secret label cs ss csid ssid olen :
  0 <= olen -> Forall is_byte (label ++ cs ++ ss) -> zlen (label ++ cs ++ ss) < 2 ^ 20 -> sid_ok csid -> sid_ok ssid ->
  exists md5 sha1, EVP_get_digestbyname "MD5" = Some md5 /\ EVP_get_digestbyname "SHA1" = Some sha1 /\
    openvpn_PRF secret label cs ss csid ssid olen
    = if 39 <=? zlen secret then Some (rfc_PRF md5 sha1 secret (label ++ cs ++ ss ++ sid_bytes csid ++ sid_bytes ssid) olen)
      else None.
Proof.
  intros Ho Hb Hz Hc Hs. destruct (Z.leb_spec 39 (zlen secret)); [by apply openvpn_PRF_spec|].
  destruct law_md5 as (m & Em & _), law_sha1 as (s & Es & _). exists m, s. split; [done|]. split; [done|].
  rewrite openvpn_PRF_seed by done. by apply PRF_short.
Qed.

(** ** A toy library *)

#[export] Instance toy_key_lib : EvpKeyLib (H := toy_lib) := {|
  EVP_get_digestbyname := fun n => if String.eqb n "MD5" then Some toy_md5 else if String.eqb n "SHA1" then Some toy_sha1
    else if String.eqb n "SHA256" then Some toy_sha256 else None;
  EVP_MD_size := toy_md_size;
  HMAC_Init_key := fun md k => ((md, toy_sum k), []);
  EVP_CipherInit_key := fun c k enc => Some (mktoy (c, toy_sum k) enc [] [] [] []);
  EVP_CIPHER_CTX_key_length := fun _ => 32;
  EVP_CIPHER_key_length := fun _ => 32;
  EVP_get_cipherbyname := fun n => if String.eqb n "id-aes256-GCM" then Some true else if String.eqb n "AES-256-CTR" then Some false else None;
  OBJ_nid2sn := fun _ => None;
  DES_is_weak_key := fun _ => false;
  DES_check_key_parity := fun _ => true;
  DES_set_odd_parity := fun k => k
|}.

#[export] Instance toy_key_laws : EvpKeyLaws (L := toy_laws) (K := toy_key_lib).
Proof.
  refine {| key_of := fun c k => (c, toy_sum k) : ckey (EvpLaws := toy_laws);
            hkey_of := fun md k => (md, toy_sum k) : hkey (EvpLaws := toy_laws) |}; cbn.
  - by exists toy_md5.
  - by exists toy_sha1.
  - by intros [].
  - done.
  - done.
  - intros md k d. by eexists.
  - intros h c a b <-. by eexists.
  - by intros [].
  - done.
  - intros c k enc Hk. rewrite Hk. eexists. split; [reflexivity|]. by destruct enc.
  - done.
Defined.

Lemma openvpn_PRF_is_rfc2246_witness :
  openvpn_PRF (H := toy_lib) (replicate 48 3) [1; 2] [4] [] None (Some (replicate 8 7)) 45
  = Some (rfc_PRF (L := toy_laws) toy_md5 toy_sha1 (replicate 48 3) ([1; 2; 4] ++ replicate 8 7) 45) /\
  zlen (rfc_PRF (L := toy_laws) toy_md5 toy_sha1 (replicate 48 3) ([1; 2; 4] ++ replicate 8 7) 45) = 45.
Proof.
  split; [|by vm_compute].
  destruct (openvpn_PRF_is_rfc2246 (L := toy_laws) (replicate 48 3) [1; 2] [4] [] None (Some (replicate 8 7)) 45)
    as (md5 & sha1 & [= <-] & [= <-] & E); [done| |done|done| |exact E].
  - repeat (apply Forall_cons; split; [by vm_compute|]). constructor.
  - split; [done|]. by apply Forall_replicate.
Defined.

Definition toy_sid (x : Z) : list Z := replicate 8 x.
Definition toy_session (server : bool) : kx_session :=
  mkkx server server false 0 (toy_sid (if server then 2 else 1)) (toy_sid (if server then 1 else 2)) toy_kt 0 0 key_source2_zero
    KS_AUTH_TRUE (mkopt (mkbi (toy_key true) (toy_key false) false) toy_pid None 0) [] true None.
Definition toy_rand (seed : Z) (n : nat) (len : Z) : option (list Z) := Some (replicate (Z.to_nat len) (u8 (seed + Z.of_nat n))).

Lemma toy_rand_ok seed : rand_ok (toy_rand seed).
Proof.
  intros n len Hl. eexists. split; [reflexivity|]. split; [unfold zlen; rewrite length_replicate; lia|].
  apply Forall_replicate, wrap_byte.
Qed.

Lemma toy_pair : session_pair (toy_session false) (toy_session true) toy_kt toy_cf.
Proof.
  assert (forall x, Forall is_byte (replicate 8 x) <-> is_byte x) as Hb.
  { intros x. split; [by intros [? _]%Forall_cons|]. intros. by apply Forall_replicate. }
  constructor; try done.
  - split; [done|]. split; [done|]. by apply Hb.
  - split; [done|]. split; [done|]. by apply Hb.
  - by intros x [-> | ->].
  - by intros x [-> | ->].
  - by intros x [-> | ->].
  - by intros x [-> | ->].
Qed.

Lemma toy_kt_ok : kt_ok toy_kt.
Proof. constructor; [|done|done]. intros c [= <-]. done. Qed.

Lemma toy_kt_conf : kt_conf toy_kt toy_cf.
Proof. split; [done|]. vm_compute. split; congruence. Qed.

(** The keys of the example are not weak. *)
Lemma toy_strong :
  ('(c, s) ← exchange (toy_rand 10) (toy_rand 20) (toy_session false) (toy_session true);
   '(ok, _) ← tls_session_generate_data_channel_keys c; Some (ok : bool)) = Some true.
Proof. by vm_compute. Qed.

Lemma key_exchange_agrees_witness :
  exists c1 s1, exchange (toy_rand 10) (toy_rand 20) (toy_session false) (toy_session true) = Some (c1, s1) /\
    exists c2 s2, tls_session_generate_data_channel_keys c1 = Some (true, c2) /\
                  tls_session_generate_data_channel_keys s1 = Some (true, s2) /\
    exists Kc Ks, options_ok Kc Ks toy_cf (kx_crypto_options c2) /\ options_ok Ks Kc toy_cf (kx_crypto_options s2).
Proof.
  destruct (key_exchange_agrees (toy_session false) (toy_session true) toy_kt toy_cf (toy_rand 10) (toy_rand 20)
    toy_pair toy_kt_ok toy_kt_conf (toy_rand_ok 10) (toy_rand_ok 20)) as (c1 & s1 & E & Hr).
  exists c1, s1. split; [exact E|]. pose proof toy_strong as Hv. rewrite E in Hv. cbn [mbind option_bind] in Hv.
  destruct Hr as [(c2 & s2 & Hf & _)|(c2 & s2 & Kc & Ks & E1 & E2 & O1 & O2 & _)].
  - rewrite Hf in Hv. discriminate.
  - exists c2, s2. split; [exact E1|]. split; [exact E2|]. by exists Kc, Ks.
Defined.
