(* ===== verification/KeyMessage.v ===== *)
(** The key exchange message of [src/openvpn/ssl.c]: what [key_method_2_write] puts
    on the wire, and why [key_method_2_read] of the same program refuses it. *)
From Stdlib Require Import String Ascii.
From stdpp Require Import list.
From S2P Require Import Prelude Integer CircList Buffer PacketId Reliable Mtu Crypto CryptoToy DataChannel KeyExchange KeyDerive.

(** ** Writing the message *)

(** The bytes of a string of the message. *)
Definition string_bytes (str : list Z) : list Z := be32 (u32 (zlen str + 1)) ++ str ++ [0].

(** [b'] is [b] with [t] written to it. *)
Record extends (b : buffer) (t : list Z) (b' : buffer) : Prop := mkext {
  ex_live : buf_live b';
  ex_contents : buf_contents b' = buf_contents b ++ t;
  ex_offset : b_offset b' = b_offset b;
  ex_capacity : b_capacity b' = b_capacity b }.

Lemma extends_trans b t b' t' b'' : extends b t b' -> extends b' t' b'' -> extends b (t ++ t') b''.
Proof. intros [? C ? ?] [? C' ? ?]. constructor; [done| |congruence|congruence]. by rewrite C', C, app_assoc. Qed.

Lemma write_extends b src b' : buf_live b -> Forall is_byte src -> zlen src < 2 ^ 31 -> buf_write b src = (true, b') -> extends b src b'.
Proof. intros Hb Hs Hz Hw. destruct (buf_write_inv b src b' Hb Hs Hz Hw) as (? & ? & ? & ? & _). by constructor. Qed.

Lemma write_string_extends b str maxlen b' : buf_live b -> Forall is_byte str -> zlen str < 2 ^ 30 ->
  write_string b str maxlen = (true, b') -> extends b (string_bytes str) b' /\ (0 <= maxlen -> zlen str < maxlen).
Proof.
  intros Hb Hs Hz. unfold write_string. pose proof (zlen_nonneg str).
  destruct ((zlen str + 1 <? 1) || _) eqn:Hlen; [done|]. unfold buf_write_u32.
  destruct (buf_write b _) as [[] b1] eqn:E1; cbn [negb]; [|done]. intros E2.
  assert (X1 : extends b (be32 (u32 (zlen str + 1))) b1) by (apply write_extends; [done|auto with ovpn|done|done]).
  assert (X2 : extends b1 (str ++ [0]) b').
  { apply write_extends; [apply X1| |rewrite zlen_app; cbn; unfold zlen in *; cbn; lia|done].
    apply Forall_app. split; [done|]. by repeat constructor. }
  split; [exact (extends_trans _ _ _ _ _ X1 X2)|]. intros. apply orb_false_iff in Hlen as [_ Hl]. lia.
Qed.

(** The strings the caller provides. *)
Definition text_ok (t : list Z) : Prop := Forall is_byte t /\ zlen t < 2 ^ 30.

Lemma write_empty_extends b b' : buf_live b -> write_empty_string b = (true, b') -> extends b (be32 0) b'.
Proof. intros Hb E. by apply write_extends in E; [|done|auto with ovpn|]. Qed.

Lemma write_user_pass_extends b up b' : buf_live b -> (forall u p, up = Some (u, p) -> text_ok u /\ text_ok p) ->
  write_user_pass b up = (true, b') -> exists t, extends b t b'.
Proof.
  intros Hb Hup. unfold write_user_pass. destruct up as [[u p]|].
  - destruct (Hup u p eq_refl) as [[? ?] [? ?]]. destruct (write_string b u (-1)) as [[] b1] eqn:E1; cbn [negb]; [|done]. intros E2.
    apply write_string_extends in E1 as [X1 _]; try done. apply write_string_extends in E2 as [X2 _]; try done; [|apply X1].
    eexists. exact (extends_trans _ _ _ _ _ X1 X2).
  - destruct (write_empty_string b) as [[] b1] eqn:E1; cbn [negb]; [|done]. intros E2.
    apply write_empty_extends in E1; [|done]. apply write_empty_extends in E2; [|apply E1]. eexists. exact (extends_trans _ _ _ _ _ E1 E2).
Qed.

Lemma push_peer_info_extends b pi b' : buf_live b -> (forall t, pi = Some t -> text_ok t) ->
  push_peer_info b pi = (true, b') -> exists t, extends b t b'.
Proof.
  intros Hb Hpi. unfold push_peer_info. destruct pi as [t|]; intros E.
  - destruct (Hpi t eq_refl). apply write_string_extends in E as [X _]; try done. by eexists.
  - apply write_empty_extends in E; [|done]. by eexists.
Qed.

Lemma host32_ok n : zlen (host32 n) = 4 /\ Forall is_byte (host32 n).
Proof.
  unfold host32. split; [unfold zlen; rewrite length_rev; done|]. apply Forall_rev. auto with ovpn.
Qed.

Section Message.
Context `{EvpKeyLaws}.

(** What a message consists of, up to the options string. *)
Definition message (server : bool) (k : key_source) (options rest : list Z) (msg : list Z) : Prop :=
  exists len, zlen len = 4 /\ Forall is_byte len /\
    msg = len ++ [KEY_METHOD_2] ++ source_bytes server k ++ string_bytes options ++ rest.

#[local] Arguments key_source2_randomize_write : simpl never.
#[local] Arguments write_string : simpl never.
#[local] Arguments write_user_pass : simpl never.
#[local] Arguments push_peer_info : simpl never.
#[local] Arguments tls_session_generate_data_channel_keys : simpl never.

Lemma key_method_2_message rand b succeeded up pi s b' s' : rand_ok rand -> buf_live b -> 117 <= b_capacity b ->
  text_ok (kx_local_options s) -> (forall u p, up = Some (u, p) -> text_ok u /\ text_ok p) -> (forall t, pi = Some t -> text_ok t) ->
  key_method_2_write rand b succeeded up pi s = Some (true, b', s') ->
  buf_live b' /\ zlen (kx_local_options s) < TLS_OPTIONS_LEN /\
  exists k rest, half_ok (kx_server s) k /\ message (kx_server s) k (kx_local_options s) rest (buf_contents b').
Proof.
  intros Hr Hb Hcap [Ho1 Ho2] Hup Hpi. unfold key_method_2_write.
  destruct (buf_init_live b 0 Hb) as (b0 & -> & L0 & C0 & O0 & N0 & B0); [lia|].
  unfold buf_write_u32, buf_write_u8.
  destruct (buf_write_room b0 (be32 (u32 0)) L0) as (b1 & -> & L1 & C1 & O1 & N1 & B1); [change (zlen (be32 (u32 0))) with 4; lia|auto with ovpn|]. cbn [negb].
  change (zlen (be32 (u32 0))) with 4 in N1.
  destruct (buf_write_room b1 [u8 KEY_METHOD_2] L1) as (b2 & -> & L2 & C2 & O2 & N2 & B2); [rewrite zlen_cons, zlen_nil; lia|by repeat constructor|]. cbn [negb].
  change (zlen [u8 KEY_METHOD_2]) with 1 in N2.
  destruct (randomize_write_spec rand (kx_key_src s) b2 (kx_server s) Hr L2) as (k & b3 & -> & Hk & L3 & B3 & C3 & O3 & N3); [destruct (kx_server s); lia|].
  cbn -[buf_store host32 set_source]. destruct (write_string b3 (kx_local_options s) TLS_OPTIONS_LEN) as [[] b4] eqn:E4; cbn [negb]; [|done].
  apply write_string_extends in E4 as [X4 Hlen]; try done.
  destruct (write_user_pass b4 up) as [[] b5] eqn:E5; cbn [negb]; [|done]. apply write_user_pass_extends in E5 as [t5 X5]; [|apply X4|done].
  destruct (push_peer_info b5 pi) as [[] b6] eqn:E6; cbn [negb]; [|done]. apply push_peer_info_extends in E6 as [t6 X6]; [|apply X5|done].
  intros Hg. apply bind_Some in Hg as ([ok s2] & _ & Hg). destruct ok; cbn [negb] in Hg; [|done]. injection Hg as <- _.
  pose proof (extends_trans _ _ _ _ _ (extends_trans _ _ _ _ _ X4 X5) X6) as [L6 B6 O6 C6].
  assert (E0 : 0 = b_offset b6) by congruence. destruct (host32_ok (b_len b6)) as [Hz4 Hb4]. rewrite E0.
  destruct (buf_store_front b6 (host32 (b_len b6)) (be32 (u32 0)) ([u8 KEY_METHOD_2] ++ source_bytes (kx_server s) k ++
    string_bytes (kx_local_options s) ++ t5 ++ t6) L6 Hb4) as [L7 B7]; [|by rewrite Hz4|].
  { rewrite B6, B3, B2, B1, B0. cbn [app]. by rewrite <- !app_assoc. }
  split; [done|]. split; [by apply Hlen|]. exists k, (t5 ++ t6). split; [done|]. exists (host32 (b_len b6)). done.
Qed.

(** ** Reading it *)

#[local] Arguments key_source2_read : simpl never.

(** A length of 32 bits below 2^16 starts with 16 zero bits. *)
Lemma read_string_bytes b str rest capacity : buf_live b -> zlen str < 2 ^ 16 - 1 -> buf_contents b = string_bytes str ++ rest ->
  exists b', read_string b capacity = (None, b').
Proof.
  intros Hb Hz Hc. pose proof (zlen_nonneg str). unfold string_bytes in Hc. rewrite <- !app_assoc in Hc.
  assert (Hbe : exists lo, be32 (u32 (zlen str + 1)) = [0; 0] ++ lo).
  { rewrite wrap_small by (unfold is_u; lia). unfold be32.
    rewrite (Z.div_small (zlen str + 1) (2 ^ 24)), (Z.div_small (zlen str + 1) (2 ^ 16)) by lia. by eexists. }
  destruct Hbe as [lo Hbe]. rewrite Hbe, <- app_assoc in Hc. unfold read_string, buf_read_u16.
  destruct (buf_read_app b [0; 0] _ Hb Hc) as (b' & E & _). change (zlen [0; 0]) with 2 in E. rewrite E. by exists b'.
Qed.

Lemma key_method_2_refuses rb v r k options rest : buf_live rb -> half_ok (negb (kx_server r)) k -> zlen options < TLS_OPTIONS_LEN ->
  message (negb (kx_server r)) k options rest (buf_contents rb) ->
  exists rb' r', key_method_2_read rb v r = Some (false, rb', r') /\ b_len rb' = 0 /\
    kx_authenticated r' = KS_AUTH_FALSE /\ kx_key_src r' = key_source2_zero.
Proof.
  intros Hb Hk Hz (len & Hl & _ & Hc). unfold key_method_2_read, TLS_OPTIONS_LEN in *.
  pose proof (buf_contents_length rb Hb) as Hlen. rewrite Hc, !zlen_app, Hl in Hlen.
  pose proof (zlen_nonneg (source_bytes (negb (kx_server r)) k)). pose proof (zlen_nonneg (string_bytes options)). pose proof (zlen_nonneg rest).
  change (zlen [KEY_METHOD_2]) with 1 in Hlen. destruct (buf_take_front rb 4 Hb) as (L1 & C1 & Hz1 & _); [lia|].
  unfold buf_advance. rewrite buf_live_valid by done. cbn [negb orb Z.ltb Z.compare].
  rewrite (proj2 (Z.ltb_ge (b_len rb) 4)) by lia. cbn [negb]. set (b1 := _ <| b_len := _ |>) in *.
  rewrite Hc in C1. apply app_inj_zlen in C1 as [_ C1]; [|by rewrite Hl, Hz1].
  destruct (buf_read_u8_cons b1 KEY_METHOD_2 _ L1 ltac:(done) (eq_sym C1)) as (b2 & -> & L2 & C2 & _).
  change (negb (Z.land KEY_METHOD_2 KEY_METHOD_MASK =? 2)) with false. cbn iota.
  destruct (source_read_spec (kx_key_src r) b2 (kx_server r) k (string_bytes options ++ rest) Hk L2 C2) as (b3 & -> & L3 & C3 & _). cbn [negb].
  destruct (read_string_bytes b3 options rest 512 L3 ltac:(lia) C3) as [b4 ->]. do 2 eexists. split; [reflexivity|].
  unfold buf_clear. split; [by case_match|done].
Qed.

End Message.

(** ** Properties *)

(** C11. The message is refused.  Every key exchange message [key_method_2_write]
    completes, whatever the options string, credentials and peer information are, is
    refused by [key_method_2_read] at the other end: [write_string] puts a length of
    32 bits in front of the options string, and [read_string] takes 16, which are
    zero.  The reader clears its buffer, marks the session not authenticated and
    erases the random material. *)
Theorem key_method_2_refused `{EvpKeyLaws} rand b succeeded up pi s b' s' r rb v :
  rand_ok rand -> buf_live b -> 117 <= b_capacity b ->
  text_ok (kx_local_options s) -> (forall u p, up = Some (u, p) -> text_ok u /\ text_ok p) -> (forall t, pi = Some t -> text_ok t) ->
  key_method_2_write rand b succeeded up pi s = Some (true, b', s') ->
  kx_server r = negb (kx_server s) -> buf_live rb -> buf_contents rb = buf_contents b' ->
  exists rb' r', key_method_2_read rb v r = Some (false, rb', r') /\ b_len rb' = 0 /\
    kx_authenticated r' = KS_AUTH_FALSE /\ kx_key_src r' = key_source2_zero.
Proof.
  intros Hr Hb Hcap Ho Hup Hpi Hw Hrole Hrb Hc.
  destruct (key_method_2_message rand b succeeded up pi s b' s') as (_ & Hz & k & rest & Hk & Hm); try done.
  apply (key_method_2_refuses rb v r k (kx_local_options s) rest); rewrite ?Hrole, ?negb_involutive; try done. by rewrite Hc.
Qed.

(** A client's message of 134 bytes, and the server that is to read it. *)
Definition toy_message : list Z := Eval vm_compute in
  match (b ← alloc_buf 256; key_method_2_write (toy_rand 10) b false None None (toy_session false)) with
  | Some (true, b, _) => buf_contents b | _ => [] end.
Definition toy_verdicts : kx_verdicts :=
  mkkv false true (fun _ _ => KS_AUTH_TRUE) (fun a => a) (fun _ a => a) (fun a => a).

Lemma toy_message_written :
  (b ← alloc_buf 256; '(ok, b', _) ← key_method_2_write (toy_rand 10) b false None None (toy_session false);
   if ok : bool then Some (buf_contents b') else None) = Some toy_message.
Proof. by vm_compute. Qed.

Lemma key_method_2_refused_witness : exists rb' r',
  key_method_2_read (toy_buf 256 0 [] toy_message) toy_verdicts (toy_session true) = Some (false, rb', r') /\ b_len rb' = 0 /\
  zlen toy_message = 134.
Proof.
  destruct (alloc_buf_total 256) as [b Eb]; [lia|]. destruct (alloc_buf_live 256 b) as (L & _ & _ & C); [lia|done|].
  pose proof toy_message_written as Hm. rewrite Eb in Hm. cbn [mbind option_bind] in Hm.
  apply bind_Some in Hm as ([[[] b'] s'] & Hw & Hc); [|done]. injection Hc as Hc.
  destruct (key_method_2_refused (toy_rand 10) b false None None (toy_session false) b' s' (toy_session true)
    (toy_buf 256 0 [] toy_message) toy_verdicts) as (rb' & r' & E & Hl & _); try done.
  - apply toy_rand_ok.
  - lia.
  - by apply toy_fits_live.
  - exists rb', r'. split; [exact E|]. by split.
Defined.
