(* ===== verification/TlsCrypt.v ===== *)
(** Encryption of control packets ([src/openvpn/tls_crypt.c]): --tls-crypt wraps a
    control packet under a key both ends have, --tls-crypt-v2 hands the server a key
    of the client wrapped under the server's own. *)
From Stdlib Require Import String.
From stdpp Require Import list.
From S2P Require Import Prelude Integer CircList Buffer PacketId Reliable Mtu Crypto KeyExchange.

(** ** Sizes *)

Definition TLS_CRYPT_TAG_SIZE : Z := 256 / 8.
Definition TLS_CRYPT_PID_SIZE : Z := 4 + 4.
Definition TLS_CRYPT_BLOCK_SIZE : Z := 128 / 8.
Definition TLS_CRYPT_OFF_PID : Z := 1 + SID_SIZE.
Definition TLS_CRYPT_OFF_TAG : Z := TLS_CRYPT_OFF_PID + TLS_CRYPT_PID_SIZE.
Definition TLS_CRYPT_OFF_CT : Z := TLS_CRYPT_OFF_TAG + TLS_CRYPT_TAG_SIZE.
Definition TLS_CRYPT_V2_MAX_WKC_LEN : Z := 1024.
Definition TLS_CRYPT_V2_CLIENT_KEY_LEN : Z := 2048 / 8.
Definition TLS_CRYPT_V2_TAG_SIZE : Z := TLS_CRYPT_TAG_SIZE.
Definition TLS_CRYPT_V2_MAX_METADATA_LEN : Z :=
  TLS_CRYPT_V2_MAX_WKC_LEN - (TLS_CRYPT_V2_CLIENT_KEY_LEN + TLS_CRYPT_V2_TAG_SIZE + 2).

(** The memory of [key2.keys]. *)
Definition keys_bytes (k : key2) : list Z := concat (map (fun k => key_cipher k ++ key_hmac k) (key2_keys k)).
Definition key_zero : key :=
  mkkey (replicate (Z.to_nat MAX_CIPHER_KEY_LENGTH) 0) (replicate (Z.to_nat MAX_HMAC_KEY_LENGTH) 0).
Definition key2_zero : key2 := mkkey2 0 [key_zero; key_zero].

(** A pointer into a buffer, [off] bytes behind its start. *)
Definition buf_at (b : buffer) (off n : Z) : option (list Z) :=
  p ← buf_bptr b;
  ASSERT p + off + n <=? b_capacity b ;;
  Some (buf_load b (p + off) n).

Inductive tls_wrap_mode := TLS_WRAP_NONE | TLS_WRAP_AUTH | TLS_WRAP_CRYPT.
#[export] Instance tls_wrap_mode_eq : EqDecision tls_wrap_mode.
Proof. solve_decision. Defined.

Section Model.
Context `{EvpKeyLib}.

Record tls_wrap_ctx := mktwc {
  tw_mode : tls_wrap_mode;
  tw_opt : crypto_options;
  tw_work : buffer;
  tw_server_key : key_ctx;               (* tls_crypt_v2_server_key *)
  tw_wkc : option buffer;                (* tls_crypt_v2_wkc *)
  tw_metadata : buffer;                  (* tls_crypt_v2_metadata *)
  tw_cleanup_key_ctx : bool
}.
#[export] Instance eta_twc : EtaOf tls_wrap_ctx := fun r =>
  mktwc (tw_mode r) (tw_opt r) (tw_work r) (tw_server_key r) (tw_wkc r) (tw_metadata r) (tw_cleanup_key_ctx r).

Definition tls_crypt_kt : key_type :=
  match cipher_kt_get "AES-256-CTR", md_kt_get "SHA256" with
  | Some c, Some d => mkkt (u8 (cipher_kt_key_size c)) (md_kt_size d) (Some c) (Some d)
  | _, _ => mkkt 0 0 None None
  end.

Definition tls_crypt_buf_overhead : Z := packet_id_size true + TLS_CRYPT_TAG_SIZE + TLS_CRYPT_BLOCK_SIZE.

Definition tls_crypt_adjust_frame_parameters (f : frame) : frame := frame_add_to_extra_frame f tls_crypt_buf_overhead.

(** ** Control packets *)

(** [dst] holds opcode and session id; the flag is the function's result. *)
Definition tls_crypt_wrap (now : Z) (src dst : buffer) (opt : crypto_options)
  : option (bool * buffer * crypto_options) :=
  let ctx := o_encrypt opt in
  cipher ← kc_cipher ctx;
  hmac ← kc_hmac ctx;
  ASSERT packet_id_initialized (o_packet_id opt) ;;
  ASSERT hmac_ctx_size hmac =? 256 / 8 ;;
  let '(ok, send, dst) := packet_id_write now (o_send opt) dst true false in
  let opt := set_send opt send in
  if negb ok then Some (false, buf_drop dst, opt)
  else if negb (buf_safe dst (buf_len src + TLS_CRYPT_BLOCK_SIZE + TLS_CRYPT_TAG_SIZE)) then Some (false, buf_drop dst, opt)
  else
    let hmac := hmac_ctx_reset hmac in
    let hmac := hmac_ctx_update hmac (buf_contents dst) in
    let hmac := hmac_ctx_update hmac (buf_contents src) in
    let '(tag, dst) := buf_write_alloc dst TLS_CRYPT_TAG_SIZE in
    tag ← tag;
    let '(hmac, mac) := hmac_ctx_final hmac in
    dst ← out_write dst (Some tag) mac;
    let '(cipher, ok) := cipher_ctx_reset cipher (buf_load dst tag (cipher_ctx_iv_length cipher)) in
    ASSERT ok ;;
    '(cipher, out) ← cipher_ctx_update cipher (buf_contents src);
    dst ← out_write dst (buf_bend dst) out;
    let '(ok, dst) := buf_inc_len dst (zlen out) in
    ASSERT ok ;;
    let '(cipher, out) := cipher_ctx_final cipher in
    out ← out;
    dst ← out_write dst (buf_bptr dst) out;
    let '(ok, dst) := buf_inc_len dst (zlen out) in
    ASSERT ok ;;
    Some (true, dst, set_encrypt opt (ctx <| kc_cipher := Some cipher |> <| kc_hmac := Some hmac |>)).

(** The check of the packet id of [src]. *)
Definition tls_crypt_replay (now : Z) (src : buffer) (opt : crypto_options) : option (bool * crypto_options) :=
  if ignore_packet_id opt then Some (true, opt)
  else
    let '(ok, tmp) := buf_advance src TLS_CRYPT_OFF_PID in
    ASSERT ok ;;
    let '(ok, pin, _) := packet_id_read tmp true in
    ASSERT ok ;;
    check_replay now opt pin.

Definition tls_crypt_unwrap (now : Z) (src dst : buffer) (opt : crypto_options)
  : option (bool * buffer * crypto_options) :=
  let ctx := o_decrypt opt in
  ASSERT 0 <? b_len src ;;
  cipher ← kc_cipher ctx;
  ASSERT packet_id_initialized (o_packet_id opt) || ignore_packet_id opt ;;
  if buf_len src <? TLS_CRYPT_OFF_CT then Some (false, buf_drop dst, opt)
  else if negb (buf_safe dst (buf_len src - TLS_CRYPT_OFF_CT + TLS_CRYPT_BLOCK_SIZE)) then Some (false, buf_drop dst, opt)
  else
    iv ← buf_at src TLS_CRYPT_OFF_TAG (cipher_ctx_iv_length cipher);
    let '(cipher, ok) := cipher_ctx_reset cipher iv in
    let opt := set_decrypt opt (ctx <| kc_cipher := Some cipher |>) in
    if negb ok then Some (false, buf_drop dst, opt)
    else
      ct ← buf_at src TLS_CRYPT_OFF_CT (buf_len src - TLS_CRYPT_OFF_CT);
      '(cipher, out) ← cipher_ctx_update cipher ct;
      dst ← out_write dst (buf_bptr dst) out;
      let '(ok, dst) := buf_inc_len dst (zlen out) in
      ASSERT ok ;;
      let '(cipher, out) := cipher_ctx_final cipher in
      let opt := set_decrypt opt (ctx <| kc_cipher := Some cipher |>) in
      match out with
      | None => Some (false, buf_drop dst, opt)
      | Some out =>
          dst ← out_write dst (buf_bptr dst) out;
          let '(ok, dst) := buf_inc_len dst (zlen out) in
          ASSERT ok ;;
          tag ← buf_at src TLS_CRYPT_OFF_TAG TLS_CRYPT_TAG_SIZE;
          ad ← buf_at src 0 TLS_CRYPT_OFF_TAG;
          hmac ← kc_hmac ctx;
          let hmac := hmac_ctx_reset hmac in
          let hmac := hmac_ctx_update hmac ad in
          let hmac := hmac_ctx_update hmac (buf_contents dst) in
          let '(hmac, mac) := hmac_ctx_final hmac in
          ASSERT zlen mac <=? TLS_CRYPT_TAG_SIZE ;;
          let tag_check := mem_write (replicate (Z.to_nat TLS_CRYPT_TAG_SIZE) 0) 0 mac in
          let opt := set_decrypt opt (ctx <| kc_cipher := Some cipher |> <| kc_hmac := Some hmac |>) in
          if negb (bytes_eqb tag tag_check) then Some (false, buf_drop dst, opt)
          else
            '(ok, opt) ← tls_crypt_replay now src opt;
            if negb (ok : bool) then Some (false, buf_drop dst, opt) else Some (true, dst, opt)
      end.

(** ** Client keys wrapped by the server's *)

Definition tls_crypt_v2_load_client_key (k2 : key2) (tls_server : bool) : option key_ctx_bi :=
  let kt := tls_crypt_kt in
  _ ← kt_cipher kt;
  _ ← kt_digest kt;
  init_key_ctx_bi k2 (if tls_server then KEY_DIRECTION_NORMAL else KEY_DIRECTION_INVERSE) kt.

(** The wrapped key is appended to [wkc]. *)
Definition tls_crypt_v2_wrap_client_key (wkc : buffer) (src_key : key2) (src_metadata : buffer) (server_key : key_ctx)
  : option (bool * buffer * key_ctx) :=
  cipher ← kc_cipher server_key;
  work ← alloc_buf (TLS_CRYPT_V2_MAX_WKC_LEN + cipher_ctx_block_size cipher);
  let '(tag, work) := buf_write_alloc work TLS_CRYPT_TAG_SIZE in
  match tag with
  | None => Some (false, wkc, server_key)
  | Some tag =>
      let keys := keys_bytes src_key in
      let net_len := be16 (u16 (zlen keys + buf_len src_metadata + TLS_CRYPT_V2_TAG_SIZE + 2)) in
      hmac ← kc_hmac server_key;
      let hmac := hmac_ctx_reset hmac in
      let hmac := hmac_ctx_update hmac net_len in
      let hmac := hmac_ctx_update hmac keys in
      let hmac := hmac_ctx_update hmac (buf_contents src_metadata) in
      let '(hmac, mac) := hmac_ctx_final hmac in
      work ← out_write work (Some tag) mac;
      let '(cipher, ok) := cipher_ctx_reset cipher (buf_load work tag (cipher_ctx_iv_length cipher)) in
      ASSERT ok ;;
      let server_key := server_key <| kc_hmac := Some hmac |> <| kc_cipher := Some cipher |> in
      if buf_forward_capacity work <? zlen keys + buf_len src_metadata + zlen net_len + cipher_ctx_block_size cipher
      then Some (false, wkc, server_key)
      else
        '(cipher, out) ← cipher_ctx_update cipher keys;
        work ← out_write work (buf_bend work) out;
        let '(ok, work) := buf_inc_len work (zlen out) in
        ASSERT ok ;;
        '(cipher, out) ← cipher_ctx_update cipher (buf_contents src_metadata);
        work ← out_write work (buf_bend work) out;
        let '(ok, work) := buf_inc_len work (zlen out) in
        ASSERT ok ;;
        let '(cipher, out) := cipher_ctx_final cipher in
        out ← out;
        work ← out_write work (buf_bend work) out;
        let '(ok, work) := buf_inc_len work (zlen out) in
        ASSERT ok ;;
        let '(ok, work) := buf_write work net_len in
        ASSERT ok ;;
        let '(ok, wkc) := buf_copy wkc work in
        Some (ok, wkc, server_key <| kc_cipher := Some cipher |>)
  end.

(** [wrapped] by value; [metadata] receives what follows the key. *)
Definition tls_crypt_v2_unwrap_client_key (metadata wrapped : buffer) (server_key : key_ctx)
  : option (bool * key2 * buffer * key_ctx) :=
  let error (metadata : buffer) (server_key : key_ctx) := Some (false, key2_zero, metadata, server_key) in
  if TLS_CRYPT_V2_MAX_WKC_LEN <? buf_len wrapped then error metadata server_key
  else if buf_len wrapped <? 2 then error metadata server_key
  else
    net_len ← buf_at wrapped (buf_len wrapped - 2) 2;
    if negb (be_val net_len =? buf_len wrapped) then error metadata server_key
    else
      tag_ptr ← buf_bptr wrapped;
      let '(_, wrapped) := buf_inc_len wrapped (-2) in
      let '(ok, wrapped) := buf_advance wrapped TLS_CRYPT_TAG_SIZE in
      if negb ok then error metadata server_key
      else
        cipher ← kc_cipher server_key;
        let '(cipher, ok) := cipher_ctx_reset cipher (buf_load wrapped tag_ptr (cipher_ctx_iv_length cipher)) in
        let server_key := server_key <| kc_cipher := Some cipher |> in
        if negb ok then error metadata server_key
        else
          plaintext ← buf_set_write (replicate (Z.to_nat TLS_CRYPT_V2_MAX_WKC_LEN) 0) TLS_CRYPT_V2_MAX_WKC_LEN;
          '(cipher, out) ← cipher_ctx_update cipher (buf_contents wrapped);
          plaintext ← out_write plaintext (buf_bptr plaintext) out;
          let '(ok, plaintext) := buf_inc_len plaintext (zlen out) in
          ASSERT ok ;;
          let '(cipher, out) := cipher_ctx_final cipher in
          let server_key := server_key <| kc_cipher := Some cipher |> in
          match out with
          | None => error metadata server_key
          | Some out =>
              plaintext ← out_write plaintext (buf_bend plaintext) out;
              let '(ok, plaintext) := buf_inc_len plaintext (zlen out) in
              ASSERT ok ;;
              hmac ← kc_hmac server_key;
              let hmac := hmac_ctx_reset hmac in
              let hmac := hmac_ctx_update hmac net_len in
              let hmac := hmac_ctx_update hmac (buf_contents plaintext) in
              let '(hmac, mac) := hmac_ctx_final hmac in
              ASSERT zlen mac <=? TLS_CRYPT_TAG_SIZE ;;
              let tag_check := mem_write (replicate (Z.to_nat TLS_CRYPT_TAG_SIZE) 0) 0 mac in
              let server_key := server_key <| kc_hmac := Some hmac |> in
              if negb (bytes_eqb (buf_load wrapped tag_ptr TLS_CRYPT_TAG_SIZE) tag_check) then error metadata server_key
              else if buf_len plaintext <? TLS_CRYPT_V2_CLIENT_KEY_LEN then error metadata server_key
              else
                keys ← buf_at plaintext 0 TLS_CRYPT_V2_CLIENT_KEY_LEN;
                let '(ok, plaintext) := buf_advance plaintext TLS_CRYPT_V2_CLIENT_KEY_LEN in
                ASSERT ok ;;
                let '(ok, metadata) := buf_copy metadata plaintext in
                if negb ok then error metadata server_key
                else Some (true, mkkey2 0 (keys_of_bytes keys), metadata, server_key)
          end.

(** [script] is the outcome of the verification script for a type and metadata. *)
Definition tls_crypt_v2_verify_metadata (ctx : tls_wrap_ctx) (script : Z -> list Z -> bool) : bool :=
  let '(metadata_type, metadata) := buf_read_u8 (tw_metadata ctx) in
  if metadata_type <? 0 then false else script metadata_type (buf_contents metadata).

Definition tls_crypt_v2_extract_client_key (buf : buffer) (ctx : tls_wrap_ctx) (script : option (Z -> list Z -> bool))
  : option (bool * buffer * tls_wrap_ctx) :=
  match kc_cipher (tw_server_key ctx) with
  | None => Some (false, buf, ctx)
  | Some _ =>
      if buf_len buf <? 2 then Some (false, buf, ctx)
      else
        net_len ← buf_at buf (buf_len buf - 2) 2;
        let wkc_len := be_val net_len in
        let '(ok, wrapped) := buf_advance buf (buf_len buf - wkc_len) in
        if negb ok then Some (false, buf, ctx)
        else
          metadata ← alloc_buf TLS_CRYPT_V2_MAX_METADATA_LEN;
          '(ok, client_key, metadata, server_key) ← tls_crypt_v2_unwrap_client_key metadata wrapped (tw_server_key ctx);
          let ctx := ctx <| tw_metadata := metadata |> <| tw_server_key := server_key |> in
          if negb (ok : bool) then Some (false, buf, ctx)
          else
            bi ← tls_crypt_v2_load_client_key client_key true;
            let opt := tw_opt ctx in
            let opt := opt <| o_flags := Z.lor (o_flags opt) CO_PACKET_ID_LONG_FORM |> <| o_key_ctx_bi := bi |> in
            let ctx := ctx <| tw_mode := TLS_WRAP_CRYPT |> <| tw_cleanup_key_ctx := true |> <| tw_opt := opt |> in
            let '(ok, buf) := buf_inc_len buf (- buf_len wrapped) in
            ASSERT ok ;;
            Some (match script with Some s => tls_crypt_v2_verify_metadata ctx s | None => true end, buf, ctx)
  end.

End Model.
