(* ===== verification/ControlCrypt.v ===== *)
(** What the wrapping of control packets promises: a packet that is unwrapped was
    wrapped, up to collisions of the message authentication code, and comes out as it
    went in; a client key handed to the server is the one the server wrapped. *)
From Stdlib Require Import String.
From stdpp Require Import list.
From S2P Require Import Prelude Integer CircList Buffer PacketId Reliable Mtu Crypto CryptoToy KeyExchange KeyDerive TlsCrypt.

(** ** What the code relies on *)

(** Counter mode, chunk by chunk, and message authentication codes likewise. *)
Class StreamLaws `{EL : EvpLaws} := {
  fed : hkey -> list Z -> HMAC_CTX -> Prop;
  enc_at : ckey -> list Z -> list Z -> EVP_CIPHER_CTX -> Prop;
  ctr_key : ckey -> Prop;
  law_ctr_mode k : ctr_key k -> is_aead k = false /\ iv_len k = 16 /\ ck_block k <= 16;
  law_fed_init h c : hmacs h c -> fed h [] (HMAC_Init c);
  law_fed_update h d c x : fed h d c -> fed h (d ++ x) (HMAC_Update c x);
  law_fed_final h d c : fed h d c -> exists c', HMAC_Final c = (c', hmac h d) /\ hmacs h c';
  law_ctr_start k c iv : ctr_key k -> encrypts k c -> zlen iv = iv_len k ->
    exists c', EVP_CipherInit_ex c iv = (c', true) /\ enc_at k iv [] c';
  law_at_block k iv d c : enc_at k iv d c -> EVP_CIPHER_CTX_block_size c = ck_block k;
  law_ctr_update k iv d c x : enc_at k iv d c -> Forall is_byte x -> exists c' out,
    EVP_CipherUpdate c x = Some (c', out) /\ enc_at k iv (d ++ x) c' /\
    encipher k iv (d ++ x) = encipher k iv d ++ out /\ zlen out = zlen x;
  law_ctr_final k iv d c : enc_at k iv d c -> exists c', EVP_CipherFinal c = (c', Some []) /\ encrypts k c';
  law_ctr_nil k iv : ctr_key k -> encipher k iv [] = [];
  law_ctr_dec k c iv ct : ctr_key k -> decrypts k c -> zlen iv = iv_len k -> Forall is_byte ct ->
    exists c1 c2 c3 p, EVP_CipherInit_ex c iv = (c1, true) /\ EVP_CipherUpdate c1 ct = Some (c2, p) /\
      EVP_CipherFinal c2 = (c3, Some []) /\ decipher k iv ct = Some p /\ zlen p = zlen ct /\
      decrypts k c1 /\ decrypts k c3;
  law_ctr_dec_size k iv ct p : ctr_key k -> Forall is_byte ct -> decipher k iv ct = Some p -> zlen p = zlen ct
}.

(** ** Specification *)

Section Spec.
Context `{StreamLaws}.

(** A packet is opcode, session id and packet id, then the tag over these and the
    payload, then the payload enciphered under the tag. *)
Definition seal_control (k : ckey) (h : hkey) (ad p : list Z) : list Z :=
  let tag := hmac h (ad ++ p) in
  ad ++ tag ++ encipher k (take 16 tag) p.

Definition control_ad (w : list Z) : list Z := take 17 w.
Definition control_tag (w : list Z) : list Z := take 32 (drop 17 w).
Definition control_ct (w : list Z) : list Z := drop 49 w.

Definition open_control (k : ckey) (h : hkey) (w : list Z) : option (packet_id_net * list Z) :=
  if zlen w <? TLS_CRYPT_OFF_CT then None
  else
    p ← decipher k (take 16 (control_tag w)) (control_ct w);
    if bytes_eqb (control_tag w) (hmac h (control_ad w ++ p)) then
      '(pin, _) ← pid_parse true (drop 9 (control_ad w)); Some (pin, p)
    else None.

(** The keys of --tls-crypt. *)
Record crypt_keys (K : keys) (k : ckey) (h : hkey) : Prop := mkck {
  cry_cipher : sk_cipher K = Some k;
  cry_hmac : sk_hmac K = Some h;
  cry_ctr : ctr_key k;
  cry_len : hmac_len h = TLS_CRYPT_TAG_SIZE }.

Lemma open_seal_control K k h hdr s p : crypt_keys K k h -> zlen hdr = 9 -> is_u 32 (s_id s) -> Forall is_byte p ->
  open_control k h (seal_control k h (hdr ++ pid_bytes true s) p) = Some (mknet (s_id s) (u32 (s_time s)), p).
Proof.
  intros [_ _ Hctr Hl] Hh Hs Hp. change TLS_CRYPT_TAG_SIZE with 32 in Hl. unfold seal_control. set (ad := hdr ++ pid_bytes true s).
  assert (Had : zlen ad = 17) by (unfold ad; rewrite zlen_app, pid_bytes_len, Hh; done).
  set (tag := hmac h (ad ++ p)). destruct (law_hmac_size h (ad ++ p)) as (_ & Ht & _). fold tag in Ht. rewrite Hl in Ht.
  assert (E1 : control_ad (ad ++ tag ++ encipher k (take 16 tag) p) = ad) by (apply (take_app_zlen ad _ 17); done).
  assert (E2 : drop 17 (ad ++ tag ++ encipher k (take 16 tag) p) = tag ++ encipher k (take 16 tag) p) by (apply (drop_app_zlen ad _ 17); done).
  assert (E3 : control_tag (ad ++ tag ++ encipher k (take 16 tag) p) = tag).
  { unfold control_tag. rewrite E2. by apply (take_app_zlen tag _ 32). }
  assert (E4 : control_ct (ad ++ tag ++ encipher k (take 16 tag) p) = encipher k (take 16 tag) p).
  { unfold control_ct. rewrite app_assoc. apply (drop_app_zlen (ad ++ tag) _ 49). rewrite zlen_app. lia. }
  unfold open_control. rewrite E1, E3, E4, !zlen_app, Had, Ht.
  rewrite (proj2 (Z.ltb_ge _ _)) by (change TLS_CRYPT_OFF_CT with 49; pose proof (zlen_nonneg (encipher k (take 16 tag) p)); lia).
  rewrite law_decipher_encipher by done. cbn [mbind option_bind]. fold tag. unfold bytes_eqb. rewrite bool_decide_eq_true_2 by done.
  assert (E5 : drop 9 ad = pid_bytes true s ++ []) by (rewrite app_nil_r; by apply (drop_app_zlen hdr _ 9)).
  rewrite E5, pid_parse_bytes by done. done.
Qed.

(** A wrapped client key is the tag, keys and metadata enciphered, and the length. *)
Definition seal_key (k : ckey) (h : hkey) (keys meta : list Z) : list Z :=
  let net_len := be16 (zlen keys + zlen meta + 34) in
  let tag := hmac h (net_len ++ keys ++ meta) in
  tag ++ encipher k (take 16 tag) (keys ++ meta) ++ net_len.

Definition open_key (k : ckey) (h : hkey) (w : list Z) : option (list Z * list Z) :=
  let n := zlen w in
  if (TLS_CRYPT_V2_MAX_WKC_LEN <? n) || (n <? 34) then None
  else
    let net_len := drop (Z.to_nat (n - 2)) w in
    if negb (be_val net_len =? n) then None
    else
      let tag := take 32 w in
      p ← decipher k (take 16 tag) (take (Z.to_nat (n - 34)) (drop 32 w));
      if bytes_eqb tag (hmac h (net_len ++ p)) then
        if zlen p <? TLS_CRYPT_V2_CLIENT_KEY_LEN then None else Some (take 256 p, drop 256 p)
      else None.

Lemma be16_val_u16 n : is_u 16 n -> be_val (be16 n) = n.
Proof. intros. rewrite be16_val. by apply wrap_small. Qed.

Lemma seal_key_tail k h keys meta : exists body, seal_key k h keys meta = body ++ be16 (zlen keys + zlen meta + 34).
Proof. unfold seal_key. eexists (_ ++ _). by rewrite <- app_assoc. Qed.

(** The parts of a wrapped key. *)
Lemma seal_key_parts (tag ct net : list Z) : zlen tag = 32 -> zlen net = 2 ->
  let w := tag ++ ct ++ net in
  zlen w = zlen ct + 34 /\ drop (Z.to_nat (zlen w - 2)) w = net /\ take 32 w = tag /\
  take (Z.to_nat (zlen w - 34)) (drop 32 w) = ct.
Proof.
  intros Ht Hn w. assert (Hz : zlen w = zlen ct + 34) by (unfold w; rewrite !zlen_app; lia). split; [done|].
  pose proof (zlen_nonneg ct). rewrite Hz. split; [|split].
  - unfold w. rewrite app_assoc. apply drop_app_zlen. rewrite zlen_app. lia.
  - by apply (take_app_zlen tag _ 32).
  - unfold w. rewrite (drop_app_zlen tag _ 32) by done. apply take_app_zlen. lia.
Qed.

Lemma open_seal_key K k h keys meta : crypt_keys K k h -> zlen keys = 256 -> zlen meta <= TLS_CRYPT_V2_MAX_METADATA_LEN ->
  Forall is_byte (keys ++ meta) -> zlen (seal_key k h keys meta) = zlen keys + zlen meta + 34 ->
  open_key k h (seal_key k h keys meta) = Some (keys, meta).
Proof.
  intros [_ _ Hctr Hl] Hk Hm Hb Hz. change TLS_CRYPT_TAG_SIZE with 32 in Hl. change TLS_CRYPT_V2_MAX_METADATA_LEN with 734 in Hm.
  unfold seal_key in *. set (net := be16 _) in *. set (tag := hmac h (net ++ keys ++ meta)) in *. pose proof (zlen_nonneg meta).
  destruct (law_hmac_size h (net ++ keys ++ meta)) as (_ & Ht & _). fold tag in Ht. rewrite Hl in Ht.
  destruct (seal_key_parts tag (encipher k (take 16 tag) (keys ++ meta)) net Ht eq_refl) as (_ & E1 & E2 & E3).
  unfold open_key. change TLS_CRYPT_V2_MAX_WKC_LEN with 1024. change TLS_CRYPT_V2_CLIENT_KEY_LEN with 256.
  rewrite E1, E2, E3, Hz, (proj2 (Z.ltb_ge 1024 _)), (proj2 (Z.ltb_ge _ 34)) by lia. cbn [orb].
  unfold net at 1. rewrite be16_val_u16 by (unfold is_u; lia). rewrite Z.eqb_refl. cbn [negb].
  rewrite law_decipher_encipher by done. cbn [mbind option_bind]. fold tag. unfold bytes_eqb. rewrite bool_decide_eq_true_2 by done.
  rewrite zlen_app, (proj2 (Z.ltb_ge _ _)) by lia.
  assert (take 256 (keys ++ meta) = keys) as -> by (by apply (take_app_zlen keys meta 256)).
  by assert (drop 256 (keys ++ meta) = meta) as -> by (by apply (drop_app_zlen keys meta 256)).
Qed.

Lemma ctr_len k iv ct p : ctr_key k -> decipher k iv ct = Some p -> Forall is_byte ct -> zlen p = zlen ct.
Proof. intros Hk Hd Hb. exact (law_ctr_dec_size k iv ct p Hk Hb Hd). Qed.

End Spec.

(** ** The functions against the specification *)

Section Refinement.
Context `{StreamLaws}.
Context `{!EvpKeyLib}.
#[local] Arguments buf_write : simpl never.
#[local] Arguments out_write : simpl never.
#[local] Arguments pid_bytes : simpl never.
#[local] Arguments buf_load : simpl never.
#[local] Arguments check_replay : simpl never.

Lemma hmac_parts h c a b : hmacs h c -> exists c', HMAC_Final (HMAC_Update (HMAC_Update (HMAC_Init c) a) b) = (c', hmac h (a ++ b)) /\ hmacs h c'.
Proof.
  intros Hc. pose proof (law_fed_update _ _ _ b (law_fed_update _ _ _ a (law_fed_init h c Hc))) as Hf.
  destruct (law_fed_final _ _ _ Hf) as (c' & E & Hc'). by exists c'.
Qed.

Lemma hmac_parts3 h c x a b : hmacs h c -> exists c',
  HMAC_Final (HMAC_Update (HMAC_Update (HMAC_Update (HMAC_Init c) x) a) b) = (c', hmac h (x ++ a ++ b)) /\ hmacs h c'.
Proof.
  intros Hc. pose proof (law_fed_update _ _ _ b (law_fed_update _ _ _ a (law_fed_update _ _ _ x (law_fed_init h c Hc)))) as Hf.
  destruct (law_fed_final _ _ _ Hf) as (c' & E & Hc'). exists c'. by rewrite E, <- app_assoc.
Qed.

(** A packet id in long form behind what the buffer holds. *)
Lemma pid_write_append now p b : buf_live b -> 8 <= b_capacity b - b_offset b - b_len b ->
  exists ok q b', packet_id_send_update now p true = (ok, q) /\ packet_id_write now p b true false = (ok, q, b') /\
    if ok : bool then buf_live b' /\ buf_contents b' = buf_contents b ++ pid_bytes true q /\
      b_capacity b' = b_capacity b /\ b_offset b' = b_offset b /\ b_len b' = b_len b + 8
    else b' = b.
Proof.
  intros Hb Hr. unfold packet_id_write. destruct (packet_id_send_update now p true) as [[] q]; cbn [negb]; [|by exists false, q, b].
  destruct (buf_write_room b (be32 (s_id q)) Hb) as (b1 & -> & L1 & C1 & O1 & N1 & B1); [rewrite be32_len; lia|auto with ovpn|].
  cbn [negb]. rewrite be32_len in N1.
  destruct (buf_write_room b1 (be32 (u32 (s_time q))) L1) as (b2 & -> & L2 & C2 & O2 & N2 & B2); [rewrite be32_len; lia|auto with ovpn|].
  rewrite be32_len in N2. exists true, q, b2. split; [done|]. split; [done|]. split; [done|]. unfold pid_bytes.
  rewrite B2, B1, <- app_assoc. split; [done|]. lia.
Qed.

(** The library's output of no bytes. *)
Lemma append_nothing b p : buf_live b -> buf_bptr b = Some p -> exists b1, out_write b (Some p) [] = Some b1 /\
  buf_inc_len b1 0 = (true, b1) /\ buf_live b1 /\ buf_contents b1 = buf_contents b /\
  b_capacity b1 = b_capacity b /\ b_offset b1 = b_offset b /\ b_len b1 = b_len b.
Proof.
  intros Hb Hp. rewrite buf_live_bptr in Hp by done. injection Hp as <-.
  destruct (out_write_patch b [] [] (buf_contents b) [] Hb eq_refl eq_refl ltac:(done)) as (b1 & E & L & C & Ec & Eo & El).
  rewrite zlen_nil, Z.add_0_r in E. exists b1. split; [done|]. split; [|done].
  unfold buf_inc_len, buf_safe_bidir. rewrite buf_live_valid by done. change (buf_size_valid_signed 0) with true. cbn [andb].
  destruct L as [[] _]. rewrite Z.add_0_r, (proj2 (Z.leb_le _ _)), (proj2 (Z.leb_le _ _)) by lia. by destruct b1.
Qed.

Lemma tls_crypt_wrap_spec now src dst opt K k h : crypt_keys K k h -> keyed encrypts K (o_encrypt opt) ->
  packet_id_initialized (o_packet_id opt) = true -> buf_live src -> buf_live dst ->
  b_offset dst + b_len dst + tls_crypt_buf_overhead + b_len src <= b_capacity dst ->
  exists ok s dst' opt', packet_id_send_update now (o_send opt) true = (ok, s) /\
    tls_crypt_wrap now src dst opt = Some (ok, dst', opt') /\ sent K s opt opt' /\
    if ok : bool then buf_live dst' /\ b_offset dst' = b_offset dst /\ b_capacity dst' = b_capacity dst /\
      buf_contents dst' = seal_control k h (buf_contents dst ++ pid_bytes true s) (buf_contents src)
    else b_len dst' = 0.
Proof.
  intros [Hk Hh Hctr Hl] HK Hon Hs Hd Hroom. change TLS_CRYPT_TAG_SIZE with 32 in Hl. change tls_crypt_buf_overhead with (8 + 32 + 16) in Hroom.
  destruct (keyed_encrypts _ _ _ HK Hk) as (x & Hx & He & _ & Hivl & _). destruct (law_ctr_mode k Hctr) as (_ & Hiv & _).
  assert (Hhm : exists m, kc_hmac (o_encrypt opt) = Some m /\ hmacs h m).
  { pose proof (kd_hmac _ _ _ HK) as Hm. unfold same in Hm. rewrite Hh in Hm. destruct (kc_hmac (o_encrypt opt)) as [m|]; [by exists m|done]. }
  destruct Hhm as (m & Hm & Hmac). unfold tls_crypt_wrap. rewrite Hx, Hm, Hon. cbn [mbind option_bind].
  unfold hmac_ctx_size. destruct (law_hmac h m [] Hmac) as (-> & _). rewrite Hl. cbn [Z.eqb].
  assert (Hwf := Hs). destruct Hwf as [[_ _ Hslen _ _ _] _].
  destruct (pid_write_append now (o_send opt) dst Hd) as (ok & s & d1 & Hu & Hw & Hc); [lia|].
  exists ok, s. rewrite Hw, Hu. destruct ok; cbn [negb].
  2:{ do 2 eexists. split; [done|]. split; [reflexivity|]. split; [|done].
      exists (o_encrypt opt). split; [done|]. by destruct opt as [[]]. }
  destruct Hc as (L1 & B1 & C1 & O1 & N1). rewrite (buf_live_len src) by done.
  rewrite (safe_room d1) by (done || (unfold TLS_CRYPT_BLOCK_SIZE, TLS_CRYPT_TAG_SIZE; change (128/8) with 16; change (256/8) with 32; lia)).
  cbn [negb]. unfold hmac_ctx_final, hmac_ctx_update, hmac_ctx_reset. rewrite B1. set (ad := buf_contents dst ++ pid_bytes true s).
  change TLS_CRYPT_TAG_SIZE with 32 in *.
  destruct (write_alloc_room d1 32 L1) as (d2 & hole & -> & L2 & B2 & Hz & C2 & O2 & N2); [lia|]. cbn [mbind option_bind].
  destruct (hmac_parts h m ad (buf_contents src) Hmac) as (m' & -> & Hm').
  destruct (law_hmac_size h (ad ++ buf_contents src)) as (_ & Ht & Htb). rewrite Hl in Ht. set (tag := hmac h (ad ++ buf_contents src)) in *.
  assert (Hp : b_offset d1 + b_len d1 = b_offset d2 + zlen ad).
  { rewrite <- (buf_contents_length d1 L1), B1. unfold ad. lia. }
  rewrite B1 in B2. fold ad in B2. rewrite Hp.
  destruct (out_write_patch d2 ad hole [] tag L2) as (d3 & -> & L3 & B3 & C3 & O3 & N3); [by rewrite app_nil_r|lia|done|].
  rewrite app_nil_r in B3. cbn [mbind option_bind]. unfold cipher_ctx_iv_length. rewrite Hivl, Hiv.
  assert (Hload : buf_load d3 (b_offset d2 + zlen ad) 16 = take 16 tag).
  { rewrite <- O3. assert (H16 : zlen (take 16 tag) = 16) by (apply (take_zlen tag 16); lia).
    rewrite <- H16 at 1. apply (load_middle d3 ad (take 16 tag) (drop 16 tag) L3). by rewrite take_drop. }
  rewrite Hload. unfold cipher_ctx_reset.
  destruct (law_ctr_start k x (take 16 tag) Hctr He) as (c1 & -> & Hc1); [rewrite Hiv; apply (take_zlen tag 16); lia|].
  destruct (law_ctr_update _ _ _ _ (buf_contents src) Hc1) as (c2 & out & E2 & Hc2 & Hout & Hoz); [by apply buf_contents_bytes, Hs|].
  unfold cipher_ctx_update. rewrite E2. cbn [mbind option_bind]. cbn [app] in Hc2, Hout. rewrite law_ctr_nil in Hout by done. cbn [app] in Hout.
  rewrite (buf_contents_length src Hs) in Hoz.
  assert (Hob : Forall is_byte out) by (rewrite <- Hout; apply law_encipher_size, buf_contents_bytes, Hs).
  destruct (append_out d3 out L3) as (d4 & d5 & -> & E5 & L5 & B5 & C5 & O5 & N5); [lia|done|]. cbn [mbind option_bind]. rewrite E5.
  destruct (law_ctr_final _ _ _ _ Hc2) as (c3 & Hfin & Hc3). unfold cipher_ctx_final. rewrite Hfin. cbn [mbind option_bind].
  rewrite (buf_live_bptr d5 L5). destruct (append_nothing d5 (b_offset d5) L5) as (d6 & -> & E6 & L6 & B6 & C6 & O6 & N6); [by apply buf_live_bptr|].
  cbn [mbind option_bind]. change (zlen []) with 0. rewrite E6. do 2 eexists. split; [done|]. split; [reflexivity|]. split.
  - eexists. split; [|by destruct opt as [[]]]. eapply keyed_set_hmac; [|done|exact Hm']. by eapply keyed_set_cipher.
  - split; [done|]. split; [lia|]. split; [lia|]. rewrite B6, B5, B3, <- Hout. unfold seal_control. fold ad tag. by rewrite <- app_assoc.
Qed.

(** The bytes a pointer into the packet designates. *)
Lemma buf_at_parts b pre mid post : buf_live b -> buf_contents b = pre ++ mid ++ post -> buf_at b (zlen pre) (zlen mid) = Some mid.
Proof.
  intros Hb Hc. unfold buf_at. rewrite (buf_live_bptr b Hb). cbn. pose proof (buf_contents_length b Hb) as Hz. rewrite Hc, !zlen_app in Hz.
  assert (Hw := Hb). destruct Hw as [[] _]. pose proof (zlen_nonneg post).
  rewrite (proj2 (Z.leb_le _ _)) by lia. f_equal. by apply (load_middle b pre mid post).
Qed.

Lemma buf_at_contents b off n : buf_live b -> 0 <= off -> 0 <= n -> off + n <= b_len b ->
  buf_at b off n = Some (take (Z.to_nat n) (drop (Z.to_nat off) (buf_contents b))).
Proof.
  intros Hb Ho Hn Hr. pose proof (buf_contents_length b Hb) as Hz. set (w := buf_contents b) in *.
  assert (E : buf_contents b = take (Z.to_nat off) w ++ take (Z.to_nat n) (drop (Z.to_nat off) w) ++ drop (Z.to_nat n) (drop (Z.to_nat off) w)).
  { by rewrite !take_drop. }
  pose proof (buf_at_parts b _ _ _ Hb E) as Hp. rewrite !take_zlen in Hp; [done| |lia].
  unfold zlen in *. rewrite length_drop. lia.
Qed.

Lemma buf_at_packet w : TLS_CRYPT_OFF_CT <= zlen w -> w = control_ad w ++ control_tag w ++ control_ct w /\
  zlen (control_ad w) = 17 /\ zlen (control_tag w) = 32.
Proof.
  change TLS_CRYPT_OFF_CT with 49. intros Hw. unfold control_ad, control_tag, control_ct.
  replace (drop 49 w) with (drop 32 (drop 17 w)) by (rewrite drop_drop; done). rewrite !take_drop. split; [done|].
  unfold zlen in *. rewrite !length_take, length_drop. lia.
Qed.

(** The flag, packet and state of [tls_crypt_unwrap], from what the packet opens to. *)
Definition unwrap_result (now : Z) (K : keys) (opt : crypto_options) (off : Z) (spec : option (packet_id_net * list Z))
    (r : option (bool * buffer * crypto_options)) : Prop :=
  exists opt1, received K opt opt1 /\
  match spec with
  | None => exists d, r = Some (false, d, opt1) /\ b_len d = 0
  | Some (pin, p) => exists d, buf_live d /\ buf_contents d = p /\ b_offset d = off /\
      r = ('(ok, opt2) ← (if ignore_packet_id opt then Some (true, opt1) else check_replay now opt1 pin);
           if ok : bool then Some (true, d, opt2) else Some (false, buf_drop d, opt2))
  end.

Lemma unwrap_drop now K opt off opt1 d : received K opt opt1 -> unwrap_result now K opt off None (Some (false, buf_drop d, opt1)).
Proof. intros Hr. exists opt1. split; [done|]. by exists (buf_drop d). Qed.

Lemma pid_parse_8 bs : zlen bs = 8 -> pid_parse true bs = Some (mknet (be_val (take 4 bs)) (be_val (take 4 (drop 4 bs))), []).
Proof.
  intros Hz. unfold pid_parse. rewrite Hz. cbn [Z.ltb Z.compare]. change (Z.to_nat 8) with 8%nat.
  rewrite (drop_ge bs 8) by (unfold zlen in Hz; lia). done.
Qed.

Lemma tls_crypt_replay_spec now src opt : buf_live src -> TLS_CRYPT_OFF_CT <= b_len src ->
  exists pin, pid_parse true (drop 9 (control_ad (buf_contents src))) = Some (pin, []) /\
    tls_crypt_replay now src opt = if ignore_packet_id opt then Some (true, opt) else check_replay now opt pin.
Proof.
  intros Hs Hl. rewrite <- (buf_contents_length src Hs) in Hl. destruct (buf_at_packet _ Hl) as (E & Ha & _).
  change TLS_CRYPT_OFF_CT with 49 in Hl. set (ad := control_ad _) in *.
  assert (H8 : zlen (drop 9 ad) = 8) by (unfold zlen in *; rewrite length_drop; lia).
  rewrite pid_parse_8 by done. eexists. split; [reflexivity|]. unfold tls_crypt_replay. destruct (ignore_packet_id opt); [done|].
  rewrite (buf_contents_length src Hs) in Hl. change TLS_CRYPT_OFF_PID with 9.
  destruct (advance_room src 9 Hs) as (b & -> & L & C & Hz & _); [lia|]. cbn [mbind option_bind].
  assert (Hc : buf_contents b = drop 9 ad ++ control_tag (buf_contents src) ++ control_ct (buf_contents src)).
  { apply (f_equal (drop 9)) in C. rewrite (drop_app_zlen _ _ 9) in C by done. rewrite <- C, E at 1.
    rewrite drop_app_le by (unfold zlen in Ha; lia). done. }
  pose proof (pid_read_spec b true L) as Hp. rewrite Hc in Hp. unfold pid_parse in Hp.
  rewrite zlen_app, H8, (proj2 (Z.ltb_ge _ _)) in Hp by (pose proof (zlen_nonneg (control_tag (buf_contents src) ++ control_ct (buf_contents src))); lia).
  destruct Hp as (b' & -> & _). cbn [mbind option_bind]. rewrite take_app_le, drop_app_le, take_app_le by (rewrite ?length_drop; unfold zlen in H8; rewrite ?length_drop in H8; lia).
  done.
Qed.

Lemma tls_crypt_unwrap_spec now src dst opt K k h : crypt_keys K k h -> keyed decrypts K (o_decrypt opt) ->
  packet_id_initialized (o_packet_id opt) || ignore_packet_id opt = true -> buf_live src -> 0 < b_len src ->
  buf_live dst -> b_len dst = 0 -> b_offset dst + b_len src <= b_capacity dst ->
  unwrap_result now K opt (b_offset dst) (open_control k h (buf_contents src)) (tls_crypt_unwrap now src dst opt).
Proof.
  intros [Hk Hh Hctr Hl] HK Hon Hs Hpos Hd Hd0 Hroom. change TLS_CRYPT_TAG_SIZE with 32 in Hl.
  destruct (keyed_decrypts _ _ _ HK Hk) as (x & Hx & He & _ & Hivl & _). destruct (law_ctr_mode k Hctr) as (_ & Hiv & _).
  assert (Hhm : exists m, kc_hmac (o_decrypt opt) = Some m /\ hmacs h m).
  { pose proof (kd_hmac _ _ _ HK) as Hm. unfold same in Hm. rewrite Hh in Hm. destruct (kc_hmac (o_decrypt opt)) as [m|]; [by exists m|done]. }
  destruct Hhm as (m & Hm & Hmac). unfold tls_crypt_unwrap, open_control. rewrite Hx, Hon, (proj2 (Z.ltb_lt 0 _)) by done. cbn [mbind option_bind].
  rewrite (buf_live_len src Hs), (buf_contents_length src Hs). change TLS_CRYPT_OFF_CT with 49.
  destruct (Z.ltb_spec (b_len src) 49) as [Hshort|Hlong]; [by apply unwrap_drop, received_refl|].
  rewrite (safe_room dst) by (done || (change TLS_CRYPT_BLOCK_SIZE with 16; lia)). cbn [negb].
  pose proof (buf_contents_length src Hs) as Hsl. destruct (buf_at_packet (buf_contents src)) as (E & Ha & Ht); [change TLS_CRYPT_OFF_CT with 49; lia|].
  set (w := buf_contents src) in *. set (ad := control_ad w) in *. set (tag := control_tag w) in *. set (ct := control_ct w) in *.
  assert (Hby : Forall is_byte (ad ++ tag ++ ct)) by (rewrite <- E; apply buf_contents_bytes, Hs).
  apply Forall_app in Hby as [Hadb [Htagb Hctb]%Forall_app].
  assert (Hiv16 : buf_at src 17 16 = Some (take 16 tag)).
  { rewrite <- Ha. assert (zlen (take 16 tag) = 16) as <- by (apply (take_zlen tag 16); lia).
    apply (buf_at_parts src ad (take 16 tag) (drop 16 tag ++ ct) Hs). fold w. by rewrite (app_assoc (take 16 tag)), take_drop. }
  change TLS_CRYPT_OFF_TAG with 17. unfold cipher_ctx_iv_length. rewrite Hivl, Hiv, Hiv16. cbn [mbind option_bind]. unfold cipher_ctx_reset.
  destruct (law_ctr_dec k x (take 16 tag) ct Hctr He) as (c1 & c2 & c3 & p & -> & Hup & Hfin & Hdec & Hpz & Hc1 & Hc3); [rewrite Hiv; apply (take_zlen tag 16); lia|done|].
  cbn [negb]. rewrite Hdec. assert (Hctz : zlen ct = b_len src - 49) by (rewrite <- Hsl, E, !zlen_app; lia).
  assert (Hct : buf_at src 49 (b_len src - 49) = Some ct).
  { rewrite <- Hctz. replace 49 with (zlen (ad ++ tag)) by (rewrite zlen_app; lia).
    apply (buf_at_parts src (ad ++ tag) ct [] Hs). fold w. by rewrite app_nil_r, <- app_assoc. }
  rewrite Hct. cbn [mbind option_bind]. unfold cipher_ctx_update. rewrite Hup. cbn [mbind option_bind].
  destruct (law_decipher_size _ _ _ _ Hctb Hdec) as [_ Hpb].
  destruct (append_out dst p Hd) as (d1 & d2 & E1 & E2 & L2 & B2 & C2 & O2 & N2); [lia|done|].
  assert (Hbend : buf_bend dst = buf_bptr dst) by (unfold buf_bend; rewrite buf_live_bptr, buf_live_len by done; cbn; f_equal; lia).
  rewrite <- Hbend, E1. cbn [mbind option_bind]. rewrite E2. unfold cipher_ctx_final. rewrite Hfin.
  rewrite (buf_live_bptr d2 L2). destruct (append_nothing d2 (b_offset d2) L2) as (d3 & -> & E3 & L3 & B3 & C3 & O3 & N3); [by apply buf_live_bptr|].
  cbn [mbind option_bind]. change (zlen []) with 0. rewrite E3.
  assert (Htag : buf_at src 17 TLS_CRYPT_TAG_SIZE = Some tag).
  { rewrite <- Ha. change TLS_CRYPT_TAG_SIZE with 32. rewrite <- Ht. by apply (buf_at_parts src ad tag ct Hs). }
  assert (Had : buf_at src 0 17 = Some ad).
  { rewrite <- Ha. by apply (buf_at_parts src [] ad (tag ++ ct) Hs). }
  rewrite Htag, Had, Hm. cbn [mbind option_bind]. unfold hmac_ctx_final, hmac_ctx_update, hmac_ctx_reset.
  assert (buf_contents dst = []) as Hnil by (apply length_zero_iff_nil; pose proof (buf_contents_length dst Hd) as Hz0; unfold zlen in Hz0; lia).
  rewrite B3, B2, Hnil. cbn [app]. destruct (hmac_parts h m ad p Hmac) as (m' & -> & Hm').
  destruct (law_hmac_size h (ad ++ p)) as (_ & Hmz & _). rewrite Hl in Hmz. change TLS_CRYPT_TAG_SIZE with 32.
  rewrite (proj2 (Z.leb_le _ _)) by lia.
  assert (Hchk : mem_write (replicate (Z.to_nat 32) 0) 0 (hmac h (ad ++ p)) = hmac h (ad ++ p)).
  { unfold mem_write. cbn [Z.to_nat take app]. rewrite drop_ge; [by rewrite app_nil_r|]. rewrite length_replicate. unfold zlen in Hmz. lia. }
  rewrite Hchk. set (opt1 := set_decrypt _ _).
  assert (Hrecv : received K opt opt1).
  { eexists. split; [|by destruct opt as [[]]]. eapply keyed_set_hmac; [|done|exact Hm']. by eapply keyed_set_cipher. }
  destruct (bytes_eqb tag (hmac h (ad ++ p))) eqn:Heq; cbn [negb]; [|by apply unwrap_drop].
  destruct (tls_crypt_replay_spec now src opt1 Hs) as (pin & Hpin & ->); [change TLS_CRYPT_OFF_CT with 49; lia|].
  fold w ad in Hpin. rewrite Hpin. cbn [mbind option_bind]. exists opt1. split; [done|]. exists d3.
  split; [done|]. split; [by rewrite B3, B2, Hnil|]. split; [lia|].
  assert (ignore_packet_id opt1 = ignore_packet_id opt) as -> by done.
  destruct (if ignore_packet_id opt then _ else _) as [[[] ?]|]; done.
Qed.

(** ** Client keys *)

Lemma hmac_held K k h c : crypt_keys K k h -> same hmacs (sk_hmac K) (kc_hmac c) -> exists m, kc_hmac c = Some m /\ hmacs h m.
Proof. intros [_ Hh _ _] Hm. unfold same in Hm. rewrite Hh in Hm. destruct (kc_hmac c) as [m|]; [by exists m|done]. Qed.

Lemma wrap_client_key_spec wkc key meta sk K k h : crypt_keys K k h -> keyed encrypts K sk ->
  zlen (keys_bytes key) = 256 -> Forall is_byte (keys_bytes key) -> buf_live wkc -> buf_live meta ->
  b_len meta <= TLS_CRYPT_V2_MAX_METADATA_LEN -> b_offset wkc + b_len wkc + b_len meta + 290 <= b_capacity wkc ->
  exists wkc' sk', tls_crypt_v2_wrap_client_key wkc key meta sk = Some (true, wkc', sk') /\ keyed encrypts K sk' /\
    buf_live wkc' /\ buf_contents wkc' = buf_contents wkc ++ seal_key k h (keys_bytes key) (buf_contents meta) /\
    zlen (seal_key k h (keys_bytes key) (buf_contents meta)) = zlen (keys_bytes key) + b_len meta + 34.
Proof.
  intros HC HK Hkz Hkb Hw Hm Hml Hroom. destruct HC as [Hk Hh Hctr Hl]. change TLS_CRYPT_TAG_SIZE with 32 in Hl.
  change TLS_CRYPT_V2_MAX_METADATA_LEN with 734 in Hml.
  destruct (keyed_encrypts _ _ _ HK Hk) as (x & Hx & He & _ & Hivl & Hblk). destruct (law_ctr_mode k Hctr) as (_ & Hiv & Hb16).
  pose proof (law_block k) as Hb1.
  destruct (hmac_held K k h sk (mkck _ _ _ Hk Hh Hctr Hl) (kd_hmac _ _ _ HK)) as (m & Hmk & Hmac).
  assert (Hmw := Hm). destruct Hmw as [[_ _ Hm0 _ _ _] _].
  unfold tls_crypt_v2_wrap_client_key. rewrite Hx. cbn [mbind option_bind]. unfold cipher_ctx_block_size. rewrite Hblk.
  change TLS_CRYPT_V2_MAX_WKC_LEN with 1024. change TLS_CRYPT_TAG_SIZE with 32. change TLS_CRYPT_V2_TAG_SIZE with 32.
  destruct (alloc_buf_total (1024 + ck_block k)) as [b0 E0]; [lia|]. rewrite E0. cbn [mbind option_bind].
  destruct (alloc_buf_live (1024 + ck_block k) b0) as (L0 & O0 & N0 & C0); [lia|done|].
  assert (B0 : buf_contents b0 = []) by (apply length_zero_iff_nil; pose proof (buf_contents_length b0 L0) as Hz0; unfold zlen in Hz0; lia).
  destruct (write_alloc_room b0 32 L0) as (b1 & hole & -> & L1 & B1 & Hz1 & C1 & O1 & N1); [lia|].
  rewrite B0 in B1. cbn [app] in B1. rewrite Hmk, (buf_live_len meta) by done. cbn [mbind option_bind].
  set (keys := keys_bytes key) in *. set (md := buf_contents meta) in *. assert (Hmdz : zlen md = b_len meta) by (by apply buf_contents_length).
  rewrite (wrap_small 16) by (unfold is_u; lia). replace (zlen keys + b_len meta + 32 + 2) with (zlen keys + zlen md + 34) by lia.
  set (net := be16 _). unfold hmac_ctx_final, hmac_ctx_update, hmac_ctx_reset.
  destruct (hmac_parts3 h m net keys md Hmac) as (m' & -> & Hm'). destruct (law_hmac_size h (net ++ keys ++ md)) as (_ & Ht & Htb).
  rewrite Hl in Ht. set (tag := hmac h (net ++ keys ++ md)) in *.
  destruct (out_write_patch b1 [] hole [] tag L1) as (b2 & E2 & L2 & B2 & C2 & O2 & N2); [by rewrite app_nil_r|lia|done|].
  rewrite app_nil_r in B2. cbn [app] in B2. replace (b_offset b1 + zlen []) with (b_offset b0 + b_len b0) in E2 by (rewrite zlen_nil; lia).
  rewrite E2. cbn [mbind option_bind]. unfold cipher_ctx_iv_length. rewrite Hivl, Hiv.
  assert (Hload : buf_load b2 (b_offset b0 + b_len b0) 16 = take 16 tag).
  { replace (b_offset b0 + b_len b0) with (b_offset b2) by lia.
    assert (H16 : zlen (take 16 tag) = 16) by (apply (take_zlen tag 16); lia). rewrite <- H16 at 1.
    apply (load_front b2 (take 16 tag) (drop 16 tag) L2). by rewrite take_drop. }
  rewrite Hload. unfold cipher_ctx_reset.
  destruct (law_ctr_start k x (take 16 tag) Hctr He) as (c1 & -> & Hc1); [rewrite Hiv; apply (take_zlen tag 16); lia|].
  assert (Hkeyed1 : EVP_CIPHER_CTX_block_size c1 = ck_block k) by exact (law_at_block _ _ _ _ Hc1). rewrite Hkeyed1.
  assert (Hfc : buf_forward_capacity b2 = 992 + ck_block k).
  { unfold buf_forward_capacity. rewrite buf_live_valid by done. assert (b_capacity b2 - (b_offset b2 + b_len b2) = 992 + ck_block k) as -> by lia.
    rewrite (proj2 (Z.ltb_ge _ _)); lia. }
  rewrite Hfc. change (zlen net) with 2. rewrite (proj2 (Z.ltb_ge _ _)) by lia.
  destruct (law_ctr_update _ _ _ _ keys Hc1 Hkb) as (c2 & u & Eu & Hc2 & Hu & Huz).
  destruct (law_ctr_update _ _ _ _ md Hc2) as (c3 & v & Ev & Hc3 & Hv & Hvz); [by apply buf_contents_bytes, Hm|].
  unfold cipher_ctx_update. cbn [app] in *. rewrite law_ctr_nil in Hu by done. cbn [app] in Hu. rewrite Hu in Hv.
  assert (Hct : Forall is_byte (u ++ v)).
  { rewrite <- Hv. apply law_encipher_size. apply Forall_app. split; [done|]. by apply buf_contents_bytes, Hm. }
  assert (Hub := Hct). apply Forall_app in Hub as [Hub Hvb]. rewrite Eu. cbn [mbind option_bind].
  destruct (append_out b2 u L2) as (b3 & b4 & -> & E4 & L4 & B4 & C4 & O4 & N4); [lia|done|]. cbn [mbind option_bind]. rewrite E4, Ev. cbn [mbind option_bind].
  destruct (append_out b4 v L4) as (b5 & b6 & -> & E6 & L6 & B6 & C6 & O6 & N6); [lia|done|]. cbn [mbind option_bind]. rewrite E6.
  destruct (law_ctr_final _ _ _ _ Hc3) as (c4 & Hfin & Hc4). unfold cipher_ctx_final. rewrite Hfin. cbn [mbind option_bind].
  destruct (append_out b6 [] L6) as (b7 & b8 & -> & E8 & L8 & B8 & C8 & O8 & N8); [rewrite zlen_nil; lia|done|]. cbn [mbind option_bind]. rewrite E8.
  rewrite app_nil_r in B8. rewrite zlen_nil in N8.
  destruct (buf_write_room b8 net L8) as (b9 & -> & L9 & C9 & O9 & N9 & B9); [change (zlen net) with 2; lia|unfold net; auto with ovpn|]. cbn [mbind option_bind].
  assert (Hseal : buf_contents b9 = seal_key k h keys md).
  { rewrite B9, B8, B6, B4, B2. unfold seal_key. fold net tag. by rewrite Hv, <- !app_assoc. }
  assert (Hsz : zlen (seal_key k h keys md) = zlen keys + b_len meta + 34).
  { rewrite <- Hseal, B9, B8, B6, B4, B2, !zlen_app. change (zlen net) with 2. lia. }
  unfold buf_copy. rewrite Hseal.
  destruct (buf_write_room wkc (seal_key k h keys md) Hw) as (w' & -> & Lw & _ & _ & _ & Bw); [lia|rewrite <- Hseal; apply buf_contents_bytes, L9|].
  do 2 eexists. split; [reflexivity|]. split; [|done].
  exact (keyed_set_cipher _ _ _ _ _ (keyed_set_hmac _ _ _ _ _ HK Hh Hm') Hk Hc4).
Qed.

Lemma truncate_room b n : buf_live b -> 0 <= n <= b_len b ->
  exists b', buf_inc_len b (- n) = (true, b') /\ buf_live b' /\ buf_contents b' = take (Z.to_nat (b_len b - n)) (buf_contents b) /\
    b_data b' = b_data b /\ b_capacity b' = b_capacity b /\ b_offset b' = b_offset b /\ b_len b' = b_len b - n.
Proof.
  intros Hb Hn. assert (Hw := Hb). destruct Hw as [[] _]. rewrite inc_len_truncate by (done || lia).
  rewrite (proj2 (Z.leb_le _ _)) by lia. eexists. split; [reflexivity|]. rewrite <- buf_truncate by (done || lia). split; [|done].
  destruct (buf_live_data b Hb) as (d & ? & ? & ?). eapply buf_live_intro; cbn; eauto; lia.
Qed.

(** The same block read through another window of it. *)
Lemma buf_load_data b b' p n : b_data b' = b_data b -> buf_load b' p n = buf_load b p n.
Proof. unfold buf_load. by intros ->. Qed.

(** A wrapped key of the right length, taken apart as the code does. *)
Lemma wrapped_parts w : buf_live w -> 34 <= b_len w -> exists b1 b2,
  buf_inc_len w (-2) = (true, b1) /\ buf_advance b1 TLS_CRYPT_TAG_SIZE = (true, b2) /\ buf_live b2 /\
  buf_contents b2 = take (Z.to_nat (b_len w - 34)) (drop 32 (buf_contents w)) /\ b_data b2 = b_data w /\ b_len b2 = b_len w - 34.
Proof.
  intros Hw Hl. destruct (truncate_room w 2 Hw) as (b1 & E1 & L1 & B1 & D1 & C1 & O1 & N1); [lia|]. change (-(2)) with (-2) in E1. rewrite E1. exists b1.
  change TLS_CRYPT_TAG_SIZE with 32. destruct (advance_room b1 32 L1) as (b2 & -> & L2 & B2 & Hz & D2 & C2 & O2 & N2); [lia|].
  exists b2. split; [done|]. split; [done|]. split; [done|]. split; [|split; [congruence|lia]].
  apply (f_equal (drop 32)) in B2. rewrite (drop_app_zlen _ _ 32) in B2 by done. rewrite <- B2, B1.
  rewrite take_drop_commute. do 2 f_equal. lia.
Qed.

(** A buffer over a cleared array. *)
Lemma cleared_write n : 0 < n < 2 ^ 21 -> exists b, buf_set_write (replicate (Z.to_nat n) 0) n = Some b /\
  buf_live b /\ b_offset b = 0 /\ b_len b = 0 /\ b_capacity b = n /\ buf_contents b = [].
Proof.
  intros Hn. unfold buf_set_write. rewrite buf_size_valid_spec, (proj2 (Z.leb_le 0 n)), (proj2 (Z.ltb_lt n (2 ^ 21))) by lia. cbn [andb].
  rewrite (proj2 (Z.ltb_lt 0 n)) by lia. eexists. split; [reflexivity|]. set (b := mkbuffer _ _ _ _). assert (Hb : buf_live b).
  { eapply buf_live_intro; cbn; rewrite ?BUF_SIZE_MAX_eq; try reflexivity; try lia.
    - unfold zlen, zput. cbn. rewrite length_insert, length_replicate. lia.
    - unfold zput. cbn. apply Forall_insert; [|done]. by apply Forall_replicate. }
  split; [done|]. split; [done|]. split; [done|]. split; [done|].
  apply length_zero_iff_nil. pose proof (buf_contents_length b Hb) as Hz. unfold zlen in Hz. cbn [b_len b] in Hz. lia.
Qed.

Lemma unwrap_client_key_spec metadata w sk K k h : crypt_keys K k h -> keyed decrypts K sk -> buf_live metadata -> buf_live w ->
  b_offset metadata + b_len metadata + TLS_CRYPT_V2_MAX_METADATA_LEN <= b_capacity metadata ->
  exists ok key md sk', tls_crypt_v2_unwrap_client_key metadata w sk = Some (ok, key, md, sk') /\ keyed decrypts K sk' /\
    match open_key k h (buf_contents w) with
    | None => ok = false /\ key = key2_zero /\ md = metadata
    | Some (keys, meta) => ok = true /\ key = mkkey2 0 (keys_of_bytes keys) /\ buf_live md /\
        buf_contents md = buf_contents metadata ++ meta
    end.
Proof.
  intros HC HK Hmd Hw Hroom. assert (HC' := HC). destruct HC' as [Hk Hh Hctr Hl]. change TLS_CRYPT_TAG_SIZE with 32 in Hl.
  change TLS_CRYPT_V2_MAX_METADATA_LEN with 734 in Hroom.
  destruct (keyed_decrypts _ _ _ HK Hk) as (x & Hx & He & _ & Hivl & _). destruct (law_ctr_mode k Hctr) as (_ & Hiv & _).
  destruct (hmac_held K k h sk HC (kd_hmac _ _ _ HK)) as (m & Hmk & Hmac).
  assert (Hfail : forall sk', keyed decrypts K sk' -> exists ok key md sk2, Some (false, key2_zero, metadata, sk') = Some (ok, key, md, sk2) /\
    keyed decrypts K sk2 /\ ok = false /\ key = key2_zero /\ md = metadata) by (intros sk' Hsk'; by do 4 eexists).
  unfold tls_crypt_v2_unwrap_client_key, open_key. rewrite (buf_live_len w Hw), (buf_contents_length w Hw).
  change TLS_CRYPT_V2_MAX_WKC_LEN with 1024. change TLS_CRYPT_V2_CLIENT_KEY_LEN with 256.
  destruct (Z.ltb_spec 1024 (b_len w)) as [Hbig|Hbig]; [by apply Hfail|]. cbn [orb].
  destruct (Z.ltb_spec (b_len w) 2) as [H2|H2]; [rewrite (proj2 (Z.ltb_lt _ 34)) by lia; by apply Hfail|].
  rewrite buf_at_contents by (done || lia). cbn [mbind option_bind].
  set (net := take (Z.to_nat 2) (drop (Z.to_nat (b_len w - 2)) (buf_contents w))).
  assert (Hnet : net = drop (Z.to_nat (b_len w - 2)) (buf_contents w)).
  { apply take_ge. rewrite length_drop. pose proof (buf_contents_length w Hw) as Hz. unfold zlen in Hz. lia. }
  rewrite <- Hnet, (buf_live_bptr w Hw). cbn [mbind option_bind].
  destruct (Z.ltb_spec (b_len w) 34) as [H34|H34].
  { destruct (be_val net =? b_len w); cbn [negb]; [|by apply Hfail].
    destruct (truncate_room w 2 Hw) as (b1 & E1 & L1 & _ & _ & _ & _ & N1); [lia|]. change (-(2)) with (-2) in E1. rewrite E1.
    unfold buf_advance. rewrite (proj2 (Z.ltb_lt (b_len b1) _)) by (change TLS_CRYPT_TAG_SIZE with 32; lia). rewrite orb_true_r. by apply Hfail. }
  destruct (be_val net =? b_len w) eqn:Hlen; cbn [negb]; [|by apply Hfail].
  destruct (wrapped_parts w Hw H34) as (b1 & b2 & -> & -> & L2 & B2 & D2 & N2). cbn [negb]. rewrite Hx. cbn [mbind option_bind].
  pose proof (buf_contents_length w Hw) as Hwz. pose proof (buf_contents_bytes w (proj1 Hw)) as Hwb.
  set (wb := buf_contents w) in *. set (tag := take 32 wb) in *. set (ct := take _ (drop 32 wb)) in *.
  assert (Ht : zlen tag = 32) by (apply (take_zlen wb 32); lia).
  assert (Hctz : zlen ct = b_len w - 34) by (rewrite <- B2, (buf_contents_length b2 L2); lia).
  assert (Hctb : Forall is_byte ct) by (by apply Forall_take, Forall_drop).
  assert (Hload : forall n, 0 <= n <= 32 -> buf_load b2 (b_offset w) n = take (Z.to_nat n) tag).
  { intros n Hn. rewrite (buf_load_data w b2 _ _ D2). assert (Hnz : zlen (take (Z.to_nat n) tag) = n) by (apply take_zlen; lia).
    rewrite <- Hnz at 1. apply (load_front w _ (drop (Z.to_nat n) tag ++ drop 32 wb) Hw). rewrite (app_assoc (take _ tag)), take_drop. symmetry. apply (take_drop 32 wb). }
  unfold cipher_ctx_iv_length. rewrite Hivl, Hiv, Hload by lia. change (Z.to_nat 16) with 16%nat. unfold cipher_ctx_reset.
  destruct (law_ctr_dec k x (take 16 tag) ct Hctr He) as (c1 & c2 & c3 & p & -> & Hup & Hfin & Hdec & Hpz & Hc1 & Hc3); [rewrite Hiv; apply (take_zlen tag 16); lia|done|].
  rewrite Hdec. cbn [negb]. destruct (cleared_write 1024) as (d0 & -> & Ld & Od & Nd & Cd & Bd); [lia|]. cbn [mbind option_bind].
  rewrite B2. unfold cipher_ctx_update. rewrite Hup. cbn [mbind option_bind].
  destruct (law_decipher_size _ _ _ _ Hctb Hdec) as [_ Hpb].
  destruct (append_out d0 p Ld) as (d1 & d2 & E1 & E2 & L3 & B3 & C3 & O3 & N3); [lia|done|].
  assert (Hbend : buf_bend d0 = buf_bptr d0) by (unfold buf_bend; rewrite buf_live_bptr, buf_live_len by done; cbn; f_equal; lia).
  rewrite <- Hbend, E1. cbn [mbind option_bind]. rewrite E2. unfold cipher_ctx_final. rewrite Hfin.
  destruct (append_out d2 [] L3) as (d3 & d4 & -> & E4 & L4 & B4 & C4 & O4 & N4); [rewrite zlen_nil; lia|done|]. cbn [mbind option_bind].
  rewrite E4. cbn [kc_hmac upd]. rewrite Hmk. cbn [mbind option_bind]. unfold hmac_ctx_final, hmac_ctx_update, hmac_ctx_reset.
  rewrite app_nil_r, B3, Bd in B4. cbn [app] in B4. rewrite zlen_nil in N4. rewrite B4.
  destruct (hmac_parts h m net p Hmac) as (m' & -> & Hm').
  destruct (law_hmac_size h (net ++ p)) as (_ & Hmz & _). rewrite Hl in Hmz. change TLS_CRYPT_TAG_SIZE with 32.
  rewrite (proj2 (Z.leb_le (zlen (hmac h _)) _)) by lia.
  assert (Hchk : mem_write (replicate (Z.to_nat 32) 0) 0 (hmac h (net ++ p)) = hmac h (net ++ p)).
  { unfold mem_write. cbn [Z.to_nat take app]. rewrite drop_ge; [by rewrite app_nil_r|]. rewrite length_replicate. unfold zlen in Hmz. lia. }
  rewrite Hchk, Hload, (take_ge tag) by (lia || (unfold zlen in Ht; lia)). cbn [mbind option_bind].
  match goal with |- context [Some (false, key2_zero, metadata, ?c)] => set (sk' := c) end.
  assert (Hsk' : keyed decrypts K sk').
  { exact (keyed_set_hmac _ _ _ _ _ (keyed_set_cipher _ _ _ _ _ HK Hk Hc3) Hh Hm'). }
  destruct (bytes_eqb tag (hmac h (net ++ p))); cbn [negb]; [|by apply Hfail].
  assert (Hpl : buf_len d4 = zlen p) by (rewrite buf_live_len by done; lia). rewrite Hpl.
  destruct (Z.ltb_spec (zlen p) 256) as [Hps|Hps]; [by apply Hfail|].
  rewrite buf_at_contents by (done || lia). rewrite B4. cbn [mbind option_bind]. change (Z.to_nat 0) with 0%nat. rewrite drop_0.
  destruct (advance_room d4 256 L4) as (d5 & -> & L5 & B5 & Hz5 & _); [lia|]. cbn [mbind option_bind].
  assert (Hmeta : buf_contents d5 = drop 256 p).
  { rewrite B4 in B5. apply (f_equal (drop 256)) in B5. rewrite (drop_app_zlen _ _ 256) in B5 by done. done. }
  unfold buf_copy. rewrite Hmeta.
  destruct (buf_write_room metadata (drop 256 p) Hmd) as (md' & -> & Lm & _ & _ & _ & Bm);
    [unfold zlen in *; rewrite length_drop; lia|by apply Forall_drop|]. cbn [negb].
  do 4 eexists. split; [reflexivity|]. split; [done|]. split; [done|]. split; [done|]. done.
Qed.

#[local] Arguments tls_crypt_v2_load_client_key : simpl never.

(** The server's context after it took over a client's key. *)
Definition took_over (r : tls_wrap_ctx) (bi : key_ctx_bi) (md : buffer) (sk : key_ctx) : tls_wrap_ctx :=
  mktwc TLS_WRAP_CRYPT
    ((tw_opt r) <| o_flags := Z.lor (o_flags (tw_opt r)) CO_PACKET_ID_LONG_FORM |> <| o_key_ctx_bi := bi |>)
    (tw_work r) sk (tw_wkc r) md true.

(** The verdict on the metadata: a type, and what follows. *)
Definition metadata_verdict (script : option (Z -> list Z -> bool)) (meta : list Z) : bool :=
  match script, meta with None, _ => true | Some _, [] => false | Some f, t :: rest => f t rest end.

Lemma verify_metadata_spec r f : buf_live (tw_metadata r) ->
  tls_crypt_v2_verify_metadata r f = metadata_verdict (Some f) (buf_contents (tw_metadata r)).
Proof.
  intros Hb. unfold tls_crypt_v2_verify_metadata, metadata_verdict. pose proof (buf_contents_length _ Hb) as Hl.
  pose proof (buf_contents_bytes _ (proj1 Hb)) as Hby. destruct (buf_contents (tw_metadata r)) as [|x rest] eqn:E.
  - unfold buf_read_u8. rewrite buf_live_len by done. rewrite <- Hl. done.
  - apply Forall_cons in Hby as [Hx _]. destruct (buf_read_u8_cons _ x rest Hb Hx E) as (b' & -> & L' & -> & _).
    unfold is_byte in Hx. by rewrite (proj2 (Z.ltb_ge _ _)) by lia.
Qed.

Lemma extract_client_key_spec rb r K k h script : crypt_keys K k h -> keyed decrypts K (tw_server_key r) -> buf_live rb ->
  let w := buf_contents rb in let n := b_len rb in let m := be_val (drop (Z.to_nat (n - 2)) w) in
  if (n <? 2) || (n <? m) then tls_crypt_v2_extract_client_key rb r script = Some (false, rb, r)
  else match open_key k h (drop (Z.to_nat (n - m)) w) with
    | None => exists r', tls_crypt_v2_extract_client_key rb r script = Some (false, rb, r')
    | Some (keys, meta) => exists rb' md sk', buf_live rb' /\ buf_contents rb' = take (Z.to_nat (n - m)) w /\
        buf_live md /\ buf_contents md = meta /\ keyed decrypts K sk' /\
        tls_crypt_v2_extract_client_key rb r script
        = (bi ← tls_crypt_v2_load_client_key (mkkey2 0 (keys_of_bytes keys)) true;
           Some (metadata_verdict script meta, rb', took_over r bi md sk'))
    end.
Proof.
  intros HC HK Hb w n m. unfold tls_crypt_v2_extract_client_key. destruct (keyed_decrypts _ _ _ HK (cry_cipher _ _ _ HC)) as (x & Hx & _).
  rewrite Hx, (buf_live_len rb Hb). fold n. cbv zeta. destruct (Z.ltb_spec n 2) as [H2|H2]; cbn [orb]; [done|].
  rewrite buf_at_contents by (done || (fold n; lia)). fold w. pose proof (buf_contents_length rb Hb) as Hl. fold w n in Hl.
  rewrite (take_ge (drop _ w) (Z.to_nat 2)) by (rewrite length_drop; unfold zlen in Hl; lia). cbn [mbind option_bind]. cbv zeta. fold m.
  assert (Hm : 0 <= m).
  { unfold m. pose proof (buf_contents_bytes rb (proj1 Hb)) as Hby. fold w in Hby. apply (Forall_drop _ (Z.to_nat (n - 2))) in Hby.
    destruct (drop (Z.to_nat (n - 2)) w) as [|y [|z [|]]] eqn:Ed; apply (f_equal length) in Ed; rewrite length_drop in Ed; cbn in Ed; unfold zlen in Hl; try lia.
    apply Forall_cons in Hby as [Hy [Hz _]%Forall_cons]. unfold is_byte in *. unfold be_val. cbn. lia. }
  destruct (Z.ltb_spec n m) as [Hnm|Hnm].
  { unfold buf_advance. rewrite (proj2 (Z.ltb_lt (n - m) 0)), orb_true_r by lia. done. }
  destruct (advance_room rb (n - m) Hb) as (wr & -> & Lw & Cw & Hz & _ & _ & _ & Nw); [lia|]. cbn [negb].
  assert (Hwc : buf_contents wr = drop (Z.to_nat (n - m)) w).
  { fold w in Cw. rewrite Cw. symmetry. by apply drop_app_zlen. }
  change TLS_CRYPT_V2_MAX_METADATA_LEN with 734.
  destruct (alloc_buf_total 734) as [md0 E0]; [lia|]. rewrite E0. cbn [mbind option_bind].
  destruct (alloc_buf_live 734 md0) as (L0 & O0 & N0 & C0); [lia|done|].
  assert (B0 : buf_contents md0 = []) by (apply length_zero_iff_nil; pose proof (buf_contents_length md0 L0) as Hz0; unfold zlen in Hz0; lia).
  destruct (unwrap_client_key_spec md0 wr (tw_server_key r) K k h HC HK L0 Lw) as (ok & key & md & sk' & -> & Hsk' & Hspec); [change TLS_CRYPT_V2_MAX_METADATA_LEN with 734; lia|].
  cbn [mbind option_bind]. rewrite Hwc in Hspec. destruct (open_key k h (drop (Z.to_nat (n - m)) w)) as [[keys meta]|].
  2:{ destruct Hspec as (-> & _). cbn [negb]. by eexists. }
  destruct Hspec as (-> & -> & Lmd & Cmd). cbn [negb]. rewrite B0 in Cmd. cbn [app] in Cmd.
  destruct (truncate_room rb m Hb) as (rb' & Et & Lr & Cr & _); [unfold n in *; lia|].
  exists rb', md, sk'. fold n w in Cr. rewrite Cr. split; [done|]. split; [done|]. split; [done|]. split; [done|]. split; [done|].
  destruct (tls_crypt_v2_load_client_key _ true) as [bi|]; cbn [mbind option_bind]; [|done].
  rewrite (buf_live_len wr Lw), Nw. fold n. replace (- (n - (n - m))) with (- m) by lia. rewrite Et.
  destruct script as [f|]; [rewrite verify_metadata_spec by done; cbn [tw_metadata upd]; rewrite Cmd|]; by destruct r as [? [] ].
Qed.

(** A client key as memory, and back. *)
Lemma keys_of_keys_bytes k0 k1 : key_ok k0 -> key_ok k1 -> keys_of_bytes (keys_bytes (mkkey2 2 [k0; k1])) = [k0; k1].
Proof.
  intros [C0 H0' _] [C1 H1' _]. unfold keys_bytes, keys_of_bytes, key_of_bytes. cbn [map concat key2_keys]. rewrite app_nil_r, <- !app_assoc.
  change KEY_SIZE with 128. unfold MAX_CIPHER_KEY_LENGTH, MAX_HMAC_KEY_LENGTH in *.
  destruct k0 as [c0 h0], k1 as [c1 h1]. cbn [key_cipher key_hmac] in *.
  rewrite (take_app_zlen c0), (drop_app_zlen c0), (take_app_zlen h0) by done.
  assert (drop (Z.to_nat 128) (c0 ++ h0 ++ c1 ++ h1) = c1 ++ h1) as ->.
  { rewrite app_assoc. apply drop_app_zlen. rewrite zlen_app. lia. }
  rewrite (take_app_zlen c1), (drop_app_zlen c1) by done. rewrite take_ge by (unfold zlen in H1'; lia). done.
Qed.

End Refinement.

(** ** Properties *)

(** C16. Client keys travel safely.  A server wraps a client key with metadata
    ([tls_crypt_v2_wrap_client_key]); the client sends it behind its first packet; the
    server ([tls_crypt_v2_extract_client_key]) cuts it off the packet, holds the
    metadata, loads exactly the key that was wrapped, and answers what the script
    says of the metadata.  Metadata of up to 734 bytes fit. *)
Theorem client_key_handed_over `{StreamLaws} `{!EvpKeyLib} K k h n k0 k1 meta se wkc r bi packet rb script :
  crypt_keys K k h -> keyed encrypts K se -> keyed decrypts K (tw_server_key r) -> key_ok k0 -> key_ok k1 ->
  Forall is_byte (key_cipher k0 ++ key_cipher k1) -> buf_live meta -> b_len meta <= TLS_CRYPT_V2_MAX_METADATA_LEN ->
  buf_live wkc -> b_len wkc = 0 -> b_offset wkc + TLS_CRYPT_V2_MAX_WKC_LEN <= b_capacity wkc ->
  tls_crypt_v2_load_client_key (mkkey2 0 [k0; k1]) true = Some bi ->
  exists wkc' se', tls_crypt_v2_wrap_client_key wkc (mkkey2 n [k0; k1]) meta se = Some (true, wkc', se') /\ buf_live wkc' /\
    (buf_live rb -> buf_contents rb = packet ++ buf_contents wkc' ->
     exists rb' md sk', tls_crypt_v2_extract_client_key rb r script
         = Some (metadata_verdict script (buf_contents meta), rb', took_over r bi md sk') /\
       buf_contents rb' = packet /\ buf_contents md = buf_contents meta /\ keyed decrypts K sk').
Proof.
  intros HC HE HD K0 K1 Hcb Hm Hml Hw Hw0 Hwr Hload. change TLS_CRYPT_V2_MAX_METADATA_LEN with 734 in Hml. change TLS_CRYPT_V2_MAX_WKC_LEN with 1024 in Hwr.
  assert (Hk2 : keys_bytes (mkkey2 n [k0; k1]) = keys_bytes (mkkey2 2 [k0; k1])) by done.
  pose proof (keys_of_keys_bytes k0 k1 K0 K1) as Hback. rewrite <- Hk2 in Hback. clear Hk2.
  assert (Hkz : zlen (keys_bytes (mkkey2 n [k0; k1])) = 256 /\ Forall is_byte (keys_bytes (mkkey2 n [k0; k1]))).
  { destruct K0 as [Z0 Y0 B0], K1 as [Z1 Y1 B1]. unfold keys_bytes, MAX_CIPHER_KEY_LENGTH, MAX_HMAC_KEY_LENGTH in *. cbn [map concat key2_keys].
    apply Forall_app in Hcb as [Hc0 Hc1]. split; [rewrite app_nil_r, !zlen_app; lia|]. rewrite app_nil_r, !Forall_app. done. }
  destruct Hkz as [Hkz Hkb]. set (keys := keys_bytes _) in *.
  destruct (wrap_client_key_spec wkc (mkkey2 n [k0; k1]) meta se K k h HC HE Hkz Hkb Hw Hm Hml) as (wkc' & se' & -> & _ & Lw & Cw & Hsz); [lia|].
  fold keys in Cw, Hsz. exists wkc', se'. split; [done|]. split; [done|]. intros Hb Hc.
  assert (buf_contents wkc = []) as Hnil by (apply length_zero_iff_nil; pose proof (buf_contents_length wkc Hw) as Hz0; unfold zlen in Hz0; lia).
  rewrite Hnil in Cw. cbn [app] in Cw. rewrite Cw in Hc. pose proof (buf_contents_length rb Hb) as Hl. rewrite Hc, zlen_app in Hl.
  rewrite Hkz in Hsz. assert (Hmw := Hm). destruct Hmw as [[_ _ Hm0 _ _ _] _]. pose proof (zlen_nonneg packet).
  pose proof (extract_client_key_spec rb r K k h script HC HD Hb) as Hx. cbn zeta in Hx. rewrite Hc in Hx.
  set (sealed := seal_key k h keys (buf_contents meta)) in *.
  assert (Hlen : be_val (drop (Z.to_nat (b_len rb - 2)) (packet ++ sealed)) = zlen sealed).
  { destruct (seal_key_tail k h keys (buf_contents meta)) as [body E]. fold sealed in E. rewrite Hkz, (buf_contents_length meta Hm) in E.
    rewrite E in Hl, Hsz |- *. rewrite zlen_app in Hl, Hsz. change (zlen (be16 _)) with 2 in Hl, Hsz.
    rewrite zlen_app, app_assoc, drop_app_zlen by (rewrite zlen_app; lia). rewrite be16_val_u16 by (unfold is_u; lia).
    change (zlen (be16 _)) with 2. lia. }
  rewrite Hlen, (proj2 (Z.ltb_ge _ 2)), (proj2 (Z.ltb_ge _ (zlen sealed))) in Hx by lia. cbn [orb] in Hx.
  replace (b_len rb - zlen sealed) with (zlen packet) in Hx by lia. rewrite (drop_app_zlen packet), (take_app_zlen packet) in Hx by done.
  unfold sealed in Hx. rewrite (open_seal_key K) in Hx; [|done|done|by rewrite (buf_contents_length meta Hm)|
    by apply Forall_app; split; [done|apply buf_contents_bytes, Hm]|by rewrite (buf_contents_length meta Hm); fold sealed; lia].
  destruct Hx as (rb' & md & sk' & _ & Crb & _ & Cmd & Hsk & ->). rewrite Hback, Hload. cbn [mbind option_bind].
  by exists rb', md, sk'.
Qed.

(** ** The toy library *)

#[export] Instance toy_stream_laws : StreamLaws (EL := toy_laws).
Proof.
  refine {| fed := fun h d c => c = ((h, d) : HMAC_CTX (EvpLib := toy_lib));
            enc_at := fun k _ _ c => fst k = false /\ ty_key c = k /\ ty_enc c = true;
            ctr_key := fun k => fst k = false |}.
  - by intros [[] k].
  - by intros h c <-.
  - by intros h d c x ->.
  - intros h d c ->. by eexists.
  - intros k c iv Hk [He1 He2] _. eexists. split; [reflexivity|]. done.
  - by intros k iv d c _.
  - intros k iv d c x (Hk & Hc & He) _. destruct c as [k' e iv0 ad0 in0 tag0]. cbn in Hc, He. subst k' e.
    do 2 eexists. split; [reflexivity|]. split; [done|]. split; [apply map_app|apply toy_map_len].
  - intros k iv d c (Hk & Hc & He). destruct c as [k' e iv0 ad0 in0 tag0]. cbn in Hc, He. subst k' e. by eexists.
  - done.
  - intros k c iv ct Hk [Hc He] _ _. destruct c as [k' e iv0 ad0 in0 tag0]. cbn in Hc, He. subst k' e. destruct k as [[] k]; [done|].
    do 4 eexists. split; [reflexivity|]. split; [reflexivity|]. split; [reflexivity|]. split; [reflexivity|].
    split; [apply toy_map_len|done].
  - intros k iv ct p Hk _ [= <-]. apply toy_map_len.
Defined.

Definition toy_ctr_keys (n : Z) : keys := mkkeys (Some (false, n)) (Some (toy_sha256, n)) [].
Definition toy_ctr_ctx (n : Z) (enc : bool) : key_ctx :=
  mkkctx (Some (mktoy (false, n) enc [] [] [] [])) (Some ((toy_sha256, n), [])) (replicate 16 0) 0.

Lemma toy_crypt_keys n : crypt_keys (toy_ctr_keys n) (false, n) (toy_sha256, n).
Proof. done. Qed.
Lemma toy_ctr_enc n : keyed encrypts (toy_ctr_keys n) (toy_ctr_ctx n true).
Proof. done. Qed.
Lemma toy_ctr_dec n : keyed decrypts (toy_ctr_keys n) (toy_ctr_ctx n false).
Proof. done. Qed.

(** A client key of the bytes [x] and [x + 1], metadata of type 0, a server. *)
Definition toy_client_key (x : Z) : key := mkkey (replicate 64 x) (replicate 64 (x + 1)).
Definition toy_metadata : buffer := toy_buf 64 0 [] [0; 97; 98].
Definition toy_server : tls_wrap_ctx :=
  mktwc TLS_WRAP_NONE (mkopt (mkbi (toy_ctr_ctx 0 true) (toy_ctr_ctx 0 false) false) toy_pid None 0) clear_buf (toy_ctr_ctx 9 false) None clear_buf false.
Definition toy_loaded : key_ctx_bi := default (mkbi (toy_ctr_ctx 0 true) (toy_ctr_ctx 0 false) false)
  (tls_crypt_v2_load_client_key (mkkey2 0 [toy_client_key 3; toy_client_key 5]) true).
Definition toy_wkc_buf : buffer := toy_buf 1024 0 [] [].
Definition toy_wkc : list Z :=
  match tls_crypt_v2_wrap_client_key toy_wkc_buf (mkkey2 2 [toy_client_key 3; toy_client_key 5]) toy_metadata (toy_ctr_ctx 9 true) with
  | Some (true, b, _) => buf_contents b | _ => [] end.
Definition toy_first_packet : list Z := [80; 1; 1; 1; 1; 1; 1; 1; 1; 7; 7].

Lemma toy_client_key_ok x : is_byte x -> is_byte (x + 1) -> key_ok (toy_client_key x) /\ Forall is_byte (key_cipher (toy_client_key x)).
Proof. intros. split; [constructor; try done; by apply Forall_replicate|by apply Forall_replicate]. Qed.

Lemma toy_loads : tls_crypt_v2_load_client_key (mkkey2 0 [toy_client_key 3; toy_client_key 5]) true = Some toy_loaded.
Proof.
  unfold toy_loaded. assert (bool_decide (is_Some (tls_crypt_v2_load_client_key (mkkey2 0 [toy_client_key 3; toy_client_key 5]) true)) = true)
    as [b ->]%bool_decide_eq_true by (by vm_compute). done.
Qed.
Lemma toy_packet_live : buf_live (toy_buf 2048 0 [] (toy_first_packet ++ toy_wkc)).
Proof. apply toy_fits_live. by vm_compute. Qed.
Lemma toy_packet_contents : buf_contents (toy_buf 2048 0 [] (toy_first_packet ++ toy_wkc)) = toy_first_packet ++ toy_wkc.
Proof. by vm_compute. Qed.

Lemma client_key_handed_over_witness : exists rb' md sk',
  tls_crypt_v2_extract_client_key (toy_buf 2048 0 [] (toy_first_packet ++ toy_wkc)) toy_server (Some (fun t rest => (t =? 0) && (zlen rest =? 2)))
    = Some (true, rb', took_over toy_server toy_loaded md sk') /\ buf_contents rb' = toy_first_packet /\ buf_contents md = [0; 97; 98].
Proof.
  destruct (toy_client_key_ok 3) as [K3 B3]; [done..|]. destruct (toy_client_key_ok 5) as [K5 B5]; [done..|].
  destruct (client_key_handed_over (toy_ctr_keys 9) (false, 9) (toy_sha256, 9) 2 (toy_client_key 3) (toy_client_key 5) toy_metadata (toy_ctr_ctx 9 true)
    toy_wkc_buf toy_server toy_loaded toy_first_packet (toy_buf 2048 0 [] (toy_first_packet ++ toy_wkc)) (Some (fun t rest => (t =? 0) && (zlen rest =? 2)))
    (toy_crypt_keys 9) (toy_ctr_enc 9) (toy_ctr_dec 9) K3 K5) as (wkc' & se' & Hw & Lw & Hx).
  - by apply Forall_app.
  - by apply toy_fits_live.
  - done.
  - by apply toy_fits_live.
  - done.
  - done.
  - exact toy_loads.
  - assert (Htoy : toy_wkc = buf_contents wkc') by (unfold toy_wkc; by rewrite Hw).
    destruct Hx as (rb' & md & sk' & E & C1 & C2 & _).
    + exact toy_packet_live.
    + exact (eq_trans toy_packet_contents (f_equal (app toy_first_packet) Htoy)).
    + exists rb', md, sk'. split; [exact E|]. split; [exact C1|]. exact C2.
Defined.
