(* ===== verification/ControlWrap.v ===== *)
(** Control packets on their way out and in ([src/openvpn/ssl.c]): the header, the
    three ways of wrapping ([write_control_auth], [read_control_auth], [swap_hmac]),
    and the check of the first packet of an unknown peer ([tls_pre_decrypt_lite]). *)
From stdpp Require Import list.
From S2P Require Import Prelude Integer CircList Buffer PacketId Reliable ReliableProto Mtu Crypto KeyExchange TlsCrypt.

Definition SWAP_BUF_SIZE : Z := 256.

Section Model.
Context `{EvpKeyLib}.

(** Exchange of the first [e1] bytes of a packet with the [e2] bytes behind them. *)
Definition swap_bytes (buf : buffer) (e1 e2 : Z) : option (bool * buffer) :=
  ASSERT (e1 <=? SWAP_BUF_SIZE) && (e2 <=? SWAP_BUF_SIZE) ;;
  if e1 + e2 <=? b_len buf then
    b ← buf_bptr buf;
    let buf1 := buf_load buf b e1 in
    let buf2 := buf_load buf (b + e1) e2 in
    let buf := buf_store buf b buf2 in
    Some (true, buf_store buf (b + e2) buf1)
  else Some (false, buf).

Definition swap_hmac (buf : buffer) (co : crypto_options) (incoming : bool) : option (bool * buffer) :=
  let ctx := if incoming then o_decrypt co else o_encrypt co in
  hmac ← kc_hmac ctx;
  let hmac_size := hmac_ctx_size hmac + packet_id_size true in
  let osid_size := 1 + SID_SIZE in
  if incoming then swap_bytes buf osid_size hmac_size else swap_bytes buf hmac_size osid_size.

(** The wrapping of a packet whose acknowledgments are in place; the flag is whether
    there is something to send. *)
Definition wrap_control (now : Z) (prng_bytes : Z -> list Z) (header : Z) (sid : list Z) (opcode : Z) (twc : tls_wrap_ctx)
    (buf : buffer) : option (bool * tls_wrap_ctx * buffer) :=
  buf ←
    (if bool_decide (tw_mode twc = TLS_WRAP_AUTH \/ tw_mode twc = TLS_WRAP_NONE) then
       let '(ok, buf) := session_id_write_prepend sid buf in
       ASSERT ok ;;
       let '(ok, buf) := buf_write_prepend buf [header] in
       ASSERT ok ;;
       Some buf
     else Some buf);
  match tw_mode twc with
  | TLS_WRAP_AUTH =>
      '(buf, opt) ← openvpn_encrypt now prng_bytes buf clear_buf (Some (tw_opt twc));
      opt ← opt;
      '(ok, buf) ← swap_hmac buf opt false;
      ASSERT (ok : bool) ;;
      Some (true, twc <| tw_opt := opt |>, buf)
  | TLS_WRAP_CRYPT =>
      let '(ok, work) := buf_init_dowork (tw_work twc) (b_offset buf) in
      ASSERT ok ;;
      let '(ok, work) := buf_write work [header] in
      ASSERT ok ;;
      let '(ok, work) := session_id_write sid work in
      ASSERT ok ;;
      '(ok, work, opt) ← tls_crypt_wrap now buf work (tw_opt twc);
      let twc := twc <| tw_work := work |> <| tw_opt := opt |> in
      if negb (ok : bool) then Some (false, twc, buf_drop buf)
      else if opcode =? P_CONTROL_HARD_RESET_CLIENT_V3 then
        wkc ← tw_wkc twc;
        let '(ok, work) := buf_copy work wkc in
        let twc := twc <| tw_work := work |> in
        if negb ok then Some (false, twc, buf_drop buf) else Some (true, twc, work)
      else Some (true, twc, work)
  | TLS_WRAP_NONE => Some (true, twc, buf)
  end.

Definition write_control_auth (now : Z) (prng_bytes : Z -> list Z) (ks : key_state) (twc : tls_wrap_ctx) (buf : buffer)
    (opcode max_ack : Z) (prepend_ack : bool) : option (bool * key_state * tls_wrap_ctx * buffer) :=
  let header := Z.lor (ks_key_id ks) (u8 (Z.shiftl opcode P_OPCODE_SHIFT)) in
  '(ok, ack, buf) ← reliable_ack_write (rec_ack ks) buf (session_id_remote ks) max_ack prepend_ack;
  ASSERT (ok : bool) ;;
  '(sent, twc, buf) ← wrap_control now prng_bytes header (session_id ks) opcode twc buf;
  Some (sent : bool, ks <| rec_ack := ack |>, twc, buf).

(** No frame is passed to [openvpn_decrypt]; without a cipher it is not read. *)
Definition no_frame : frame := mkframe 0 0 0 0 0 0 0 0.

(** What [read_control_auth] does once a client key was taken over, or none was sent. *)
Definition unwrap_control (now : Z) (buf : buffer) (ctx : tls_wrap_ctx) : option (bool * buffer * tls_wrap_ctx) :=
  '(ok, buf, ctx) ←
    match tw_mode ctx with
    | TLS_WRAP_AUTH =>
        '(ok, buf) ← swap_hmac buf (tw_opt ctx) true;
        if negb (ok : bool) then Some (false, buf, ctx)
        else
          '(_, buf, opt) ← openvpn_decrypt now buf clear_buf (Some (tw_opt ctx)) no_frame (buf_bptr buf);
          opt ← opt;
          Some (negb (b_len buf =? 0), buf, ctx <| tw_opt := opt |>)
    | TLS_WRAP_CRYPT =>
        tmp ← alloc_buf (buf_forward_capacity_total buf);
        '(ok, tmp, opt) ← tls_crypt_unwrap now buf tmp (tw_opt ctx);
        let ctx := ctx <| tw_opt := opt |> in
        if negb (ok : bool) then Some (false, buf, ctx)
        else
          let '(ok, buf) := buf_init_dowork buf (b_offset buf) in
          ASSERT ok ;;
          let '(ok, buf) := buf_copy buf tmp in
          ASSERT ok ;;
          Some (true, buf, ctx)
    | TLS_WRAP_NONE =>
        match kc_cipher (tw_server_key ctx) with
        | Some _ => Some (false, buf, ctx)
        | None => Some (true, buf, ctx)
        end
    end;
  if negb (ok : bool) then Some (false, buf, ctx)
  else if bool_decide (tw_mode ctx = TLS_WRAP_NONE \/ tw_mode ctx = TLS_WRAP_AUTH)
  then Some (true, snd (buf_advance buf (SID_SIZE + 1)), ctx)
  else Some (true, buf, ctx).

(** [script] is the script that verifies the metadata of a client key. *)
Definition read_control_auth (now : Z) (buf : buffer) (ctx : tls_wrap_ctx) (script : option (Z -> list Z -> bool))
  : option (bool * buffer * tls_wrap_ctx) :=
  p ← buf_bptr buf;
  let opcode := Z.shiftr (buf_peek buf p) P_OPCODE_SHIFT in
  '(ok, buf, ctx) ←
    (if opcode =? P_CONTROL_HARD_RESET_CLIENT_V3 then tls_crypt_v2_extract_client_key buf ctx script
     else Some (true, buf, ctx));
  if negb (ok : bool) then Some (false, buf, ctx) else unwrap_control now buf ctx.

(** ** The first packet of a peer *)

Record tls_auth_standalone := mktas { tas_tls_wrap : tls_wrap_ctx; tas_frame : frame }.

(** The check does not touch the replay window. *)
Definition tls_auth_standalone_init (wrap : tls_wrap_ctx) (f : frame) : tls_auth_standalone :=
  mktas (wrap <| tw_opt := (tw_opt wrap) <| o_flags := Z.lor (o_flags (tw_opt wrap)) CO_IGNORE_PACKET_ID |> |>) f.

(** Works on a copy of the packet and of the wrapping context. *)
Definition tls_pre_decrypt_lite (now : Z) (tas : tls_auth_standalone) (buf : buffer) : option bool :=
  if b_len buf <=? 0 then Some false
  else
    p ← buf_bptr buf;
    let pkt_firstbyte := buf_peek buf p in
    let op := Z.shiftr pkt_firstbyte P_OPCODE_SHIFT in
    let key_id := Z.land pkt_firstbyte P_KEY_ID_MASK in
    if negb (op =? P_CONTROL_HARD_RESET_CLIENT_V2) && negb (op =? P_CONTROL_HARD_RESET_CLIENT_V3) then Some false
    else if negb (key_id =? 0) then Some false
    else if EXPANDED_SIZE_DYNAMIC (tas_frame tas) <? b_len buf then Some false
    else
      '(status, _, _) ← read_control_auth now (clone_buf buf) (tas_tls_wrap tas) None;
      Some (status : bool).

End Model.
