(* ===== verification/ControlSession.v ===== *)
(** Control packets between two ends: what [write_control_auth] sends in each way of
    wrapping, [read_control_auth] reads back, and what an unknown peer must show. *)
From stdpp Require Import list.
From S2P Require Import Prelude Integer CircList Buffer PacketId Reliable Mtu Crypto CryptoToy DataChannel ReliableProto KeyExchange KeyDerive TlsCrypt ControlCrypt ControlWrap.

(** ** Specification *)

Section Spec.
Context `{StreamLaws}.

(** Opcode and session id in front; under --tls-auth a code and the packet id go
    between them and the payload, and cover all of it. *)
Definition seal_wrap (mode : tls_wrap_mode) (K : keys) (hdr : list Z) (s : packet_id_send) (p : list Z) : list Z :=
  match mode with
  | TLS_WRAP_NONE => hdr ++ p
  | TLS_WRAP_AUTH => hdr ++ mac K (pid_bytes true s ++ hdr ++ p) ++ pid_bytes true s ++ p
  | TLS_WRAP_CRYPT =>
      match sk_cipher K, sk_hmac K with
      | Some k, Some h => seal_control k h (hdr ++ pid_bytes true s) p
      | _, _ => []
      end
  end.

(** The packet id, if there is one, and the payload. *)
Definition open_wrap (mode : tls_wrap_mode) (K : keys) (w : list Z) : option (option packet_id_net * list Z) :=
  match mode with
  | TLS_WRAP_NONE => Some (None, if zlen w <? 9 then w else drop 9 w)
  | TLS_WRAP_AUTH =>
      let n := mac_len K in
      if zlen w <? 9 + (n + 8) then None
      else
        let hdr := take 9 w in
        let code := take (Z.to_nat n) (drop 9 w) in
        let id := take 8 (drop (Z.to_nat n) (drop 9 w)) in
        let p := drop 8 (drop (Z.to_nat n) (drop 9 w)) in
        if bytes_eqb (mac K (id ++ hdr ++ p)) code then '(pin, _) ← pid_parse true id; Some (Some pin, p) else None
  | TLS_WRAP_CRYPT =>
      match sk_cipher K, sk_hmac K with
      | Some k, Some h => '(pin, p) ← open_control k h w; Some (Some pin, p)
      | _, _ => None
      end
  end.

(** The keys a way of wrapping needs. *)
Definition wrap_keys (mode : tls_wrap_mode) (K : keys) : Prop :=
  match mode with
  | TLS_WRAP_NONE => True
  | TLS_WRAP_AUTH => sk_cipher K = None /\ exists h, sk_hmac K = Some h
  | TLS_WRAP_CRYPT => exists k h, crypt_keys K k h
  end.

(** Packet ids in long form; the receiver may be told to ignore them. *)
Definition wrap_conf (ignore : bool) : pid_conf := mkconf true true ignore.

(** An end of the control channel. *)
Record wrap_end (mode : tls_wrap_mode) (Ke Kd : keys) (ignore : bool) (c : tls_wrap_ctx) : Prop := mkwend {
  we_mode : tw_mode c = mode;
  we_opt : mode <> TLS_WRAP_NONE -> options_ok Ke Kd (wrap_conf ignore) (tw_opt c);
  we_enc : wrap_keys mode Ke;
  we_dec : wrap_keys mode Kd }.

(** ** Exchange of the two blocks *)

Lemma swap_bytes_spec b x y rest e1 e2 : buf_live b -> buf_contents b = x ++ y ++ rest -> zlen x = e1 -> zlen y = e2 ->
  e1 <= SWAP_BUF_SIZE -> e2 <= SWAP_BUF_SIZE ->
  exists b', swap_bytes b e1 e2 = Some (true, b') /\ buf_live b' /\ buf_contents b' = y ++ x ++ rest /\
    b_offset b' = b_offset b /\ b_capacity b' = b_capacity b /\ b_len b' = b_len b.
Proof.
  intros Hb Hc Hx Hy H1 H2. unfold swap_bytes. rewrite !(proj2 (Z.leb_le _ SWAP_BUF_SIZE)) by done. cbn [andb].
  pose proof (buf_contents_length b Hb) as Hl. rewrite Hc, !zlen_app in Hl. pose proof (zlen_nonneg rest).
  rewrite (proj2 (Z.leb_le _ (b_len b))) by lia. rewrite (buf_live_bptr b Hb). cbn [mbind option_bind].
  assert (Hby := buf_contents_bytes b (proj1 Hb)). rewrite Hc in Hby. apply Forall_app in Hby as [Bx [By Br]%Forall_app].
  assert (Lx : buf_load b (b_offset b) e1 = x) by (rewrite <- Hx; exact (load_front b x _ Hb Hc)).
  assert (Ly : buf_load b (b_offset b + e1) e2 = y) by (rewrite <- Hx, <- Hy; exact (load_middle b x y rest Hb Hc)).
  rewrite Lx, Ly.
  set (z := take (length y) (x ++ y)). set (z' := drop (length y) (x ++ y)).
  assert (Hzz : x ++ y = z ++ z') by (unfold z, z'; by rewrite take_drop).
  assert (Hz : zlen z = zlen y) by (unfold z, zlen; rewrite length_take, length_app; lia).
  assert (Hz' : zlen z' = zlen x) by (unfold z', zlen; rewrite length_drop, length_app; lia).
  destruct (buf_store_front b y z (z' ++ rest) Hb By) as [L1 C1]; [by rewrite Hc, app_assoc, Hzz, <- app_assoc|done|].
  set (b1 := buf_store b (b_offset b) y) in *.
  destruct (out_write_patch b1 y z' rest x L1 C1) as (b2 & E2 & L2 & C2 & Ec & Eo & El); [done|done|].
  unfold out_write in E2. cbn [mbind option_bind] in E2. change (b_offset b1) with (b_offset b) in E2.
  destruct (b_offset b + zlen y + zlen x <=? b_capacity b1); [|done]. injection E2 as E2. rewrite Hy in E2.
  exists b2. fold b1. rewrite E2. split; [done|]. split; [done|]. split; [done|]. split; [by rewrite Eo|]. by rewrite Ec, El.
Qed.

Lemma swap_bytes_short b e1 e2 : b_len b < e1 + e2 -> e1 <= SWAP_BUF_SIZE -> e2 <= SWAP_BUF_SIZE -> swap_bytes b e1 e2 = Some (false, b).
Proof.
  intros Hl H1 H2. unfold swap_bytes. rewrite !(proj2 (Z.leb_le _ SWAP_BUF_SIZE)) by done. cbn [andb]. by rewrite (proj2 (Z.leb_gt _ (b_len b))).
Qed.

#[local] Arguments pid_bytes : simpl never.
#[local] Arguments openvpn_encrypt_v1 : simpl never.

(** ** Sending *)

(** [openvpn_encrypt] without a cipher and without a work buffer. *)
Lemma encrypt_auth now prng buf opt K cf : sk_cipher K = None -> keyed encrypts K (o_encrypt opt) ->
  packet_id_initialized (o_packet_id opt) = true -> long_form opt = true -> pc_on cf = true -> pc_long cf = true ->
  buf_live buf -> 0 < b_len buf -> 8 + mac_len K <= b_offset buf ->
  fst (packet_id_send_update now (o_send opt) true) = true ->
  exists s buf' opt', packet_id_send_update now (o_send opt) true = (true, s) /\
    openvpn_encrypt now prng buf clear_buf (Some opt) = Some (buf', Some opt') /\ sent K s opt opt' /\
    buf_live buf' /\ buf_contents buf' = mac K (pid_bytes true s ++ buf_contents buf) ++ pid_bytes true s ++ buf_contents buf.
Proof.
  intros Hk HK Hon Hlf Hpon Hplf Hb Hpos Hroom Hroll. unfold openvpn_encrypt. rewrite (proj2 (Z.ltb_lt 0 (b_len buf)) Hpos).
  assert (Hx : kc_cipher (o_encrypt opt) = None).
  { pose proof (kd_cipher _ _ _ HK) as Hc. unfold same in Hc. rewrite Hk in Hc. by destruct (kc_cipher (o_encrypt opt)). }
  rewrite Hx. cbn [cipher_ctx_get_cipher_kt mbind option_bind cipher_kt_mode_aead].
  destruct (encrypt_v1_plain_spec now buf clear_buf opt K cf Hk HK) as (work' & marks & opt1 & ok & s & Hrun & Hst & Hsent & Hr);
    [congruence|congruence|done|apply clear_readable|unfold id_size; rewrite Hpon, Hplf; change (b_len clear_buf) with 0; change (packet_id_size true) with 8; lia|].
  unfold stamped, id_long in Hst. rewrite Hpon, Hk, Hplf in Hst. rewrite Hst in Hroll. cbn in Hroll. subst ok.
  destruct Hr as (start & out & hole & -> & L1 & Eo & C & Hh & Hmk). destruct Hsent as (c & Hc & ->).
  destruct (encrypt_v1_hmac_spec (set_encrypt (set_send opt s) c) K work' (buf_contents clear_buf) hole _ Hc L1 C Hh start out Hmk)
    as (buf' & opt' & Hmac & L' & C' & Eo' & c' & Hc' & ->).
  unfold openvpn_encrypt_v1. rewrite (proj2 (Z.ltb_lt 0 (b_len buf)) Hpos), Hx, Hrun. cbn [mbind option_bind]. rewrite Hmac.
  cbn [mbind option_bind]. exists s. do 2 eexists. split; [exact Hst|]. split; [reflexivity|]. split; [by exists c'|]. split; [done|].
  rewrite C', Hpon, Hplf. done.
Qed.

(** The state of an end after it sent: only packet id and contexts changed. *)
Definition wrap_sent (Ke : keys) (s : packet_id_send) (c c' : tls_wrap_ctx) : Prop :=
  c' = c \/ exists opt' work', sent Ke s (tw_opt c) opt' /\ c' = c <| tw_opt := opt' |> <| tw_work := work' |>.

Lemma wrap_sent_end mode Ke Kd ig s c c' : wrap_end mode Ke Kd ig c -> wrap_sent Ke s c c' -> wrap_end mode Ke Kd ig c'.
Proof.
  intros [Hm Ho He Hd] [-> |(opt' & work' & Hs & ->)]; [done|]. constructor; cbn; try done. intros Hn. eapply sent_ok; [by apply Ho|done].
Qed.

(** What a packet needs: head room for the header and the code in front of it, or
    room in the work buffer behind the same offset. *)
Definition wrap_room (mode : tls_wrap_mode) (K : keys) (c : tls_wrap_ctx) (b : buffer) : Prop :=
  match mode with
  | TLS_WRAP_NONE => 9 <= b_offset b
  | TLS_WRAP_AUTH => 9 + 8 + mac_len K <= b_offset b
  | TLS_WRAP_CRYPT => buf_live (tw_work c) /\ b_offset b + 9 + tls_crypt_buf_overhead + b_len b <= b_capacity (tw_work c)
  end.

Lemma header_front b sid hdr : buf_live b -> zlen sid = 8 -> Forall is_byte sid -> is_byte hdr -> 9 <= b_offset b ->
  exists b1 b2, session_id_write_prepend sid b = (true, b1) /\ buf_write_prepend b1 [hdr] = (true, b2) /\ buf_live b2 /\
    buf_contents b2 = (hdr :: sid) ++ buf_contents b /\ b_offset b2 = b_offset b - 9 /\ b_len b2 = b_len b + 9.
Proof.
  intros Hb Hz Hs Hh Hr. unfold session_id_write_prepend.
  destruct (buf_prepend_room b sid Hb) as (b1 & -> & L1 & C1 & O1 & N1 & B1); [lia|done|]. exists b1.
  destruct (buf_prepend_room b1 [hdr] L1) as (b2 & -> & L2 & C2 & O2 & N2 & B2); [change (zlen [hdr]) with 1; lia|by constructor|].
  exists b2. change (zlen [hdr]) with 1 in *. split; [done|]. split; [done|]. split; [done|]. split; [by rewrite B2, B1|]. lia.
Qed.

Lemma wrap_control_spec now prng hdr sid op mode Ke Kd ig c b : wrap_end mode Ke Kd ig c -> buf_live b -> zlen sid = 8 -> Forall is_byte sid -> is_byte hdr ->
  op <> P_CONTROL_HARD_RESET_CLIENT_V3 -> wrap_room mode Ke c b ->
  (mode <> TLS_WRAP_NONE -> fst (packet_id_send_update now (o_send (tw_opt c)) true) = true) ->
  exists s c' b', (mode <> TLS_WRAP_NONE -> packet_id_send_update now (o_send (tw_opt c)) true = (true, s)) /\
    wrap_control now prng hdr sid op c b = Some (true, c', b') /\ wrap_sent Ke s c c' /\ buf_live b' /\
    buf_contents b' = seal_wrap mode Ke (hdr :: sid) s (buf_contents b).
Proof.
  intros HW Hb Hz Hs Hh Hop Hroom Hroll. assert (HW' := HW). destruct HW' as [Hm Ho He _]. unfold wrap_control. rewrite Hm.
  destruct mode.
  - cbn [wrap_room] in Hroom. rewrite bool_decide_eq_true_2 by auto. destruct (header_front b sid hdr Hb Hz Hs Hh Hroom) as (b1 & b2 & -> & E2 & L2 & C2 & _).
    cbn [mbind option_bind]. rewrite E2. cbn [mbind option_bind]. exists (mksend 0 0), c, b2. split; [done|]. split; [done|]. split; [by left|]. done.
  - specialize (Ho ltac:(done)). specialize (Hroll ltac:(done)). destruct He as (Hk & h & Hhm). cbn [wrap_room] in Hroom. destruct (mac_size Ke []) as (_ & _ & Hml).
    rewrite bool_decide_eq_true_2 by auto. destruct (header_front b sid hdr Hb Hz Hs Hh) as (b1 & b2 & -> & E2 & L2 & C2 & O2 & N2); [lia|].
    cbn [mbind option_bind]. rewrite E2. cbn [mbind option_bind]. assert (Hb' := Hb). destruct Hb' as [[_ _ Hbl _ _ _] _]. destruct Ho as [HK HKd Hon Hlf Hig].
    destruct (encrypt_auth now prng b2 (tw_opt c) Ke (wrap_conf ig) Hk HK Hon Hlf eq_refl eq_refl L2) as (s & b3 & opt' & Hup & -> & Hsent & L3 & C3); [lia|lia|done|].
    cbn [mbind option_bind]. unfold swap_hmac. destruct Hsent as (c' & Hc' & ->).
    assert (Hhm' := kd_hmac _ _ _ Hc'). unfold same in Hhm'. rewrite Hhm in Hhm'.
    change (o_encrypt (set_encrypt (set_send (tw_opt c) s) c')) with c'. destruct (kc_hmac c') as [x|]; [|done]. cbn [mbind option_bind].
    unfold hmac_ctx_size. destruct (law_hmac h x [] Hhm') as (-> & _). rewrite C2 in C3.
    destruct (mac_size Ke (pid_bytes true s ++ (hdr :: sid) ++ buf_contents b)) as (Hmz & _ & Hmr). set (code := mac Ke _) in *.
    assert (Hlen : mac_len Ke = hmac_len h) by (unfold mac_len; by rewrite Hhm). unfold OPENVPN_MAX_HMAC_SIZE in Hmr.
    destruct (swap_bytes_spec b3 (code ++ pid_bytes true s) (hdr :: sid) (buf_contents b) (hmac_len h + packet_id_size true) (1 + SID_SIZE) L3)
      as (b4 & -> & L4 & C4 & _); [by rewrite C3, <- app_assoc|rewrite zlen_app, pid_bytes_len; lia|rewrite zlen_cons, Hz; done|
        change (packet_id_size true) with 8; unfold SWAP_BUF_SIZE; lia|done|].
    cbn [mbind option_bind]. exists s. do 2 eexists. split; [done|]. split; [reflexivity|]. split.
    { right. exists (set_encrypt (set_send (tw_opt c) s) c'), (tw_work c). split; [by exists c'|]. by destruct c. }
    split; [done|]. rewrite C4. unfold seal_wrap. fold code. by rewrite <- !app_assoc.
  - specialize (Ho ltac:(done)). specialize (Hroll ltac:(done)). destruct He as (k & h & HC). destruct Hroom as [Lw Hroom].
    rewrite bool_decide_eq_false_2 by (intros [|]; done). cbn [mbind option_bind]. change tls_crypt_buf_overhead with 56 in Hroom.
    assert (Hb' := Hb). destruct Hb' as [[_ Hbo Hbl _ _ _] _].
    destruct (buf_init_live (tw_work c) (b_offset b) Lw) as (w0 & -> & L0 & C0 & O0 & N0 & B0); [lia|]. cbn [mbind option_bind].
    destruct (buf_write_room w0 [hdr] L0) as (w1 & -> & L1 & C1 & O1 & N1 & B1); [change (zlen [hdr]) with 1; lia|by constructor|]. cbn [mbind option_bind].
    change (zlen [hdr]) with 1 in N1. unfold session_id_write.
    destruct (buf_write_room w1 sid L1) as (w2 & -> & L2 & C2 & O2 & N2 & B2); [lia|done|]. cbn [mbind option_bind].
    destruct Ho as [HK HKd Hon Hlf Hig].
    destruct (tls_crypt_wrap_spec now b w2 (tw_opt c) Ke k h HC HK Hon Hb L2) as (ok & s & w3 & opt' & Hup & -> & Hsent & Hr); [change tls_crypt_buf_overhead with 56; lia|].
    rewrite Hup in Hroll. cbn in Hroll. subst ok. destruct Hr as (L3 & _ & _ & C3). cbn [mbind option_bind negb].
    rewrite (proj2 (Z.eqb_neq op _)) by done. exists s. do 2 eexists. split; [done|]. split; [reflexivity|]. split.
    { right. exists opt', w3. split; [done|]. by destruct c. }
    split; [done|]. rewrite C3, B2, B1, B0. unfold seal_wrap. destruct HC as [-> -> _ _]. done.
Qed.

(** ** Receiving *)

#[local] Arguments openvpn_decrypt_v1 : simpl never.
#[local] Arguments check_replay : simpl never.

(** The replay check of a packet that was opened. *)
Definition wrap_replay (now : Z) (ignore : bool) (opt : crypto_options) (pin : option packet_id_net) : option (bool * crypto_options) :=
  match pin with
  | Some pin => if ignore then Some (true, opt) else check_replay now opt pin
  | None => Some (true, opt)
  end.

(** The answer of [read_control_auth], from what the packet opens to. *)
Definition read_result (now : Z) (mode : tls_wrap_mode) (Kd : keys) (ignore : bool) (c : tls_wrap_ctx)
    (spec : option (option packet_id_net * list Z)) (r : option (bool * buffer * tls_wrap_ctx)) : Prop :=
  exists opt1, (mode <> TLS_WRAP_NONE -> received Kd (tw_opt c) opt1) /\
  match spec with
  | None => exists b, r = Some (false, b, c <| tw_opt := opt1 |>)
  | Some (pin, p) => exists b d, buf_live b /\ buf_contents b = p /\
      r = ('(ok, opt2) ← wrap_replay now ignore opt1 pin; Some (ok : bool, if ok then b else d, c <| tw_opt := opt2 |>))
  end.

Lemma open_auth_parts (w : list Z) n : 9 + (n + 8) <= zlen w -> 0 <= n ->
  let hdr := take 9 w in let code := take (Z.to_nat n) (drop 9 w) in
  let id := take 8 (drop (Z.to_nat n) (drop 9 w)) in let p := drop 8 (drop (Z.to_nat n) (drop 9 w)) in
  w = hdr ++ (code ++ id) ++ p /\ zlen hdr = 9 /\ zlen code = n /\ zlen id = 8.
Proof.
  intros Hz Hn hdr code id p. split.
  - unfold hdr, code, id, p. by rewrite <- app_assoc, !take_drop.
  - unfold hdr, code, id, zlen in *. rewrite !length_take, !length_drop. lia.
Qed.

(** [openvpn_decrypt] of what [swap_hmac] put in order. *)
Lemma decrypt_auth now b opt Ke Kd ig h code id rest : options_ok Ke Kd (wrap_conf ig) opt -> sk_cipher Kd = None -> sk_hmac Kd = Some h ->
  buf_live b -> buf_contents b = code ++ id ++ rest -> zlen code = hmac_len h -> zlen id = 8 ->
  exists opt1, received Kd opt opt1 /\
    match (if bytes_eqb (mac Kd (id ++ rest)) code then '(pin, _) ← pid_parse true id; Some pin else None) with
    | None => exists d, openvpn_decrypt now b clear_buf (Some opt) no_frame (buf_bptr b) = Some (false, d, Some opt1) /\ b_len d = 0
    | Some pin => exists w d, buf_live w /\ buf_contents w = rest /\ b_len d = 0 /\
        openvpn_decrypt now b clear_buf (Some opt) no_frame (buf_bptr b)
        = ('(ok, opt2) ← wrap_replay now ig opt1 (Some pin); Some (ok, if ok : bool then w else d, Some opt2))
    end.
Proof.
  intros [_ HK Hon Hlf Hig] Hk Hh Hb Hc Hcz Hiz. pose proof (buf_contents_length b Hb) as Hl. rewrite Hc, !zlen_app in Hl.
  pose proof (zlen_nonneg code). pose proof (zlen_nonneg rest).
  assert (Hx : kc_cipher (o_decrypt opt) = None).
  { pose proof (kd_cipher _ _ _ HK) as Hcc. unfold same in Hcc. rewrite Hk in Hcc. by destruct (kc_cipher (o_decrypt opt)). }
  assert (Hok : keys_ok Kd (wrap_conf ig)) by (unfold keys_ok; by rewrite Hk).
  pose proof (decrypt_v1_spec now b clear_buf opt no_frame Kd (wrap_conf ig) [] Hok) as Hd.
  destruct Hd as (opt1 & Hr & Hd); try done; try (by rewrite Hk); [lia|]. exists opt1. split; [done|].
  unfold openvpn_decrypt. rewrite (proj2 (Z.ltb_lt 0 (b_len b))) by lia. rewrite Hx. cbn [cipher_ctx_get_cipher_kt mbind option_bind cipher_kt_mode_aead].
  assert (Hml : mac_len Kd = hmac_len h) by (unfold mac_len; by rewrite Hh).
  unfold open_packet in Hd. rewrite Hk, Hc in Hd. unfold mac_fails in Hd. rewrite Hml, <- Hcz in Hd.
  rewrite (take_app_zlen code _ _ eq_refl), (drop_app_zlen code _ _ eq_refl), !zlen_app, (proj2 (Z.ltb_ge _ _)) in Hd by lia. cbn [orb] in Hd.
  destruct (bytes_eqb (mac Kd (id ++ rest)) code); cbn [negb] in Hd.
  - unfold open_plain in Hd. cbn [pc_on pc_long pc_ignore wrap_conf] in Hd. unfold pid_parse in Hd |- *.
    rewrite zlen_app, Hiz, (proj2 (Z.ltb_ge _ _)) in Hd by lia. rewrite Hiz. cbn [Z.ltb Z.compare mbind option_bind] in Hd |- *.
    change (Z.to_nat 8) with 8%nat in *. rewrite (take_app_le id rest 4), (drop_app_le id rest 4), (take_app_le (drop 4 id)) in Hd by (rewrite ?length_drop; unfold zlen in Hiz; lia).
    assert (Hdr : drop 8 (id ++ rest) = rest) by (by apply (drop_app_zlen id rest 8)). rewrite Hdr in Hd. unfold wrap_replay. destruct ig.
    + destruct Hd as (w & -> & Lw & Cw). exists w, (buf_drop w). done.
    + destruct Hd as (w & d & Lw & Cw & Nd & ->). exists w, d. split; [done|]. split; [done|]. split; [done|].
      destruct (check_replay now opt1 _) as [[[] ?]|]; done.
  - destruct Hd as (d & -> & Nd). by exists d.
Qed.

Context `{!EvpKeyLib}.

Lemma unwrap_control_crypt now rb c K k h : tw_mode c = TLS_WRAP_CRYPT -> crypt_keys K k h -> keyed decrypts K (o_decrypt (tw_opt c)) ->
  packet_id_initialized (o_packet_id (tw_opt c)) || ignore_packet_id (tw_opt c) = true -> buf_live rb -> 0 < b_len rb ->
  read_result now TLS_WRAP_CRYPT K (ignore_packet_id (tw_opt c)) c (open_wrap TLS_WRAP_CRYPT K (buf_contents rb)) (unwrap_control now rb c).
Proof.
  intros Hm HC HK Hon Hb Hpos. assert (HC' := HC). destruct HC' as [Hk Hh _ _]. pose proof (buf_contents_length rb Hb) as Hl.
  unfold unwrap_control. rewrite Hm.
  assert (Hwf := Hb). destruct Hwf as [[Hcap Hoff _ Hfit _ _] _]. rewrite BUF_SIZE_MAX_eq in Hcap.
  assert (Hfc : buf_forward_capacity_total rb = b_capacity rb - b_offset rb).
  { unfold buf_forward_capacity_total. rewrite buf_live_valid by done. rewrite (proj2 (Z.ltb_ge _ 0)); lia. }
  rewrite Hfc. destruct (alloc_buf_total (b_capacity rb - b_offset rb)) as [t Et]; [lia|]. rewrite Et. cbn [mbind option_bind].
  destruct (alloc_buf_live (b_capacity rb - b_offset rb) t) as (Lt & Ot & Nt & Ct); [lia|done|].
  pose proof (tls_crypt_unwrap_spec now rb t (tw_opt c) K k h HC HK Hon Hb Hpos Lt Nt) as Hu.
  destruct Hu as (opt1 & Hr & Hu); [lia|].
  exists opt1. split; [done|]. unfold open_wrap. rewrite Hk, Hh.
  destruct (open_control k h (buf_contents rb)) as [[pin p]|] eqn:Hopen; cbn [mbind option_bind].
  2:{ destruct Hu as (d & -> & _). cbn [mbind option_bind negb]. by exists rb. }
  destruct Hu as (d & Ld & Cd & Od & ->).
  assert (Hpz : zlen p <= b_len rb).
  { unfold open_control in Hopen. destruct (Z.ltb_spec (zlen (buf_contents rb)) TLS_CRYPT_OFF_CT); [done|].
    apply bind_Some in Hopen as (q & Hq & Hopen). case_match; [|done]. apply bind_Some in Hopen as ([? ?] & _ & Hopen). injection Hopen as -> ->.
    rewrite <- Hl. pose proof (ctr_len _ _ _ _ (cry_ctr _ _ _ HC) Hq) as Hqz. rewrite Hqz by (apply Forall_drop, buf_contents_bytes, Hb).
    unfold control_ct, zlen. rewrite length_drop. lia. }
  unfold wrap_replay. destruct (buf_init_live rb (b_offset rb) Hb) as (b1 & E1 & L1 & C1 & O1 & N1 & B1); [lia|].
  destruct (buf_write_room b1 p L1) as (b2 & E2 & L2 & _ & _ & _ & B2); [lia|rewrite <- Cd; apply buf_contents_bytes, Ld|].
  exists b2, rb. split; [done|]. split; [by rewrite B2, B1|].
  destruct (if ignore_packet_id (tw_opt c) then Some (true, opt1) else check_replay now opt1 pin) as [[[] opt2]|]; cbn [mbind option_bind negb]; [|done|done].
  rewrite E1. cbn [mbind option_bind]. unfold buf_copy. rewrite Cd, E2. cbn [mbind option_bind negb tw_mode upd]. rewrite Hm, bool_decide_eq_false_2 by (intros [|]; done).
  done.
Qed.

Lemma unwrap_control_spec now rb mode Ke Kd ig c : wrap_end mode Ke Kd ig c -> (mode = TLS_WRAP_NONE -> kc_cipher (tw_server_key c) = None) ->
  buf_live rb -> 0 < b_len rb ->
  read_result now mode Kd ig c (open_wrap mode Kd (buf_contents rb)) (unwrap_control now rb c).
Proof.
  intros HW Hsk Hb Hpos. assert (HW' := HW). destruct HW' as [Hm Ho _ Hd].
  assert (Hset : c <| tw_opt := tw_opt c |> = c) by (by destruct c). pose proof (buf_contents_length rb Hb) as Hl. destruct mode.
  - unfold unwrap_control. rewrite Hm, Hsk by done. cbn [mbind option_bind negb]. rewrite Hm, bool_decide_eq_true_2 by auto. exists (tw_opt c). split; [done|].
    unfold open_wrap. rewrite Hl. destruct (Z.ltb_spec (b_len rb) 9) as [Hs|Hs].
    + unfold buf_advance. change (SID_SIZE + 1) with 9. rewrite (proj2 (Z.ltb_lt _ 9)), orb_true_r by lia. cbn [snd].
      exists rb, rb. cbn [wrap_replay mbind option_bind]. by rewrite Hset.
    + change (SID_SIZE + 1) with 9. destruct (advance_room rb 9 Hb) as (b & -> & L' & C & Hz & _); [lia|]. cbn [snd].
      exists b, b. cbn [wrap_replay mbind option_bind]. rewrite Hset. split; [done|]. split; [|done].
      rewrite C. symmetry. by apply (drop_app_zlen _ _ 9).
  - specialize (Ho ltac:(done)). destruct Hd as (Hk & h & Hh). unfold unwrap_control. rewrite Hm. unfold swap_hmac.
    assert (Hself : received Kd (tw_opt c) (tw_opt c)) by (eapply received_refl, oo_dec, Ho).
    assert (Hx := kd_hmac _ _ _ (oo_dec _ _ _ _ Ho)). unfold same in Hx. rewrite Hh in Hx.
    destruct (kc_hmac (o_decrypt (tw_opt c))) as [x|]; [|done]. cbn [mbind option_bind]. unfold hmac_ctx_size.
    destruct (law_hmac h x [] Hx) as (-> & _). destruct (law_hmac_size h []) as (Hhl & _). unfold OPENVPN_MAX_HMAC_SIZE in Hhl.
    change (packet_id_size true) with 8. change (1 + SID_SIZE) with 9.
    assert (Hml : mac_len Kd = hmac_len h) by (unfold mac_len; by rewrite Hh). unfold open_wrap. rewrite Hml, Hl.
    destruct (Z.ltb_spec (b_len rb) (9 + (hmac_len h + 8))) as [Hs|Hs].
    { rewrite swap_bytes_short by (unfold SWAP_BUF_SIZE; lia). cbn [mbind option_bind negb]. exists (tw_opt c). split; [done|].
      exists rb. by rewrite Hset. }
    destruct (open_auth_parts (buf_contents rb) (hmac_len h)) as (Hw & Hz9 & Hzc & Hzi); [lia|lia|].
    set (hdr := take 9 _) in *. set (code := take (Z.to_nat (hmac_len h)) _) in *. set (id := take 8 _) in *. set (p := drop 8 _) in *.
    destruct (swap_bytes_spec rb hdr (code ++ id) p 9 (hmac_len h + 8) Hb Hw Hz9) as (b1 & -> & L1 & C1 & _);
      [rewrite zlen_app; lia|unfold SWAP_BUF_SIZE; lia|unfold SWAP_BUF_SIZE; lia|]. cbn [mbind option_bind negb].
    rewrite <- app_assoc in C1. destruct (decrypt_auth now b1 (tw_opt c) Ke Kd ig h code id (hdr ++ p) Ho Hk Hh L1 C1 Hzc Hzi) as (opt1 & Hr & Hdec).
    exists opt1. split; [done|]. destruct (bytes_eqb (mac Kd (id ++ hdr ++ p)) code).
    2:{ destruct Hdec as (d & -> & Nd). cbn [mbind option_bind]. rewrite Nd. cbn [Z.eqb negb]. by exists d. }
    destruct (pid_parse true id) as [[pin rest]|]; cbn [mbind option_bind] in Hdec |- *.
    2:{ destruct Hdec as (d & -> & Nd). cbn [mbind option_bind]. rewrite Nd. cbn [Z.eqb negb]. by exists d. }
    destruct Hdec as (w & d & Lw & Cw & Nd & ->).
    assert (Hwz : b_len w = 9 + zlen p) by (rewrite <- (buf_contents_length w Lw), Cw, zlen_app; lia). pose proof (zlen_nonneg p).
    change (SID_SIZE + 1) with 9. destruct (advance_room w 9 Lw) as (b2 & E2 & L2 & C2 & Hz2 & _); [lia|].
    exists b2, d. split; [done|]. split.
    { rewrite Cw in C2. apply app_inj_zlen in C2 as [_ C2]; [done|lia]. }
    destruct (wrap_replay now ig opt1 (Some pin)) as [[[] opt2]|]; cbn [mbind option_bind]; [| |done].
    + rewrite (proj2 (Z.eqb_neq (b_len w) 0)) by lia. cbn [negb tw_mode upd]. rewrite Hm, bool_decide_eq_true_2 by auto. by rewrite E2.
    + rewrite Nd. done.
  - specialize (Ho ltac:(done)). destruct Hd as (k & h & HC).
    pose proof (unwrap_control_crypt now rb c Kd k h Hm HC (oo_dec _ _ _ _ Ho)) as Hx. rewrite (oo_ignore _ _ _ _ Ho), (oo_on _ _ _ _ Ho) in Hx. by apply Hx.
Qed.

Lemma read_control_auth_spec now rb script mode Ke Kd ig c : wrap_end mode Ke Kd ig c -> kc_cipher (tw_server_key c) = None ->
  buf_live rb -> 0 < b_len rb ->
  read_result now mode Kd ig c
    (if Z.shiftr (buf_peek rb (b_offset rb)) P_OPCODE_SHIFT =? P_CONTROL_HARD_RESET_CLIENT_V3 then None
     else open_wrap mode Kd (buf_contents rb))
    (read_control_auth now rb c script).
Proof.
  intros HW Hsk Hb Hpos. unfold read_control_auth. rewrite (buf_live_bptr rb Hb). cbn [mbind option_bind]. destruct (_ =? P_CONTROL_HARD_RESET_CLIENT_V3).
  - unfold tls_crypt_v2_extract_client_key. rewrite Hsk. cbn [mbind option_bind negb]. exists (tw_opt c). split; [intros Hn; eapply received_refl, oo_dec, (we_opt _ _ _ _ _ HW Hn)|].
    exists rb. by destruct c.
  - cbn [mbind option_bind negb]. by eapply unwrap_control_spec.
Qed.

(** ** Both ends *)

Definition wire_id (mode : tls_wrap_mode) (s : packet_id_send) : option packet_id_net :=
  match mode with TLS_WRAP_NONE => None | _ => Some (mknet (s_id s) (u32 (s_time s))) end.

Lemma open_seal_wrap mode K hdr s p : wrap_keys mode K -> zlen hdr = 9 -> (mode <> TLS_WRAP_NONE -> is_u 32 (s_id s)) -> Forall is_byte p ->
  open_wrap mode K (seal_wrap mode K hdr s p) = Some (wire_id mode s, p).
Proof.
  intros HK Hz Hs Hp. pose proof (zlen_nonneg p). destruct mode; unfold open_wrap, seal_wrap, wire_id.
  - rewrite zlen_app, (proj2 (Z.ltb_ge _ _)) by lia. by assert (drop 9 (hdr ++ p) = p) as -> by (by apply (drop_app_zlen hdr p 9)).
  - destruct (mac_size K (pid_bytes true s ++ hdr ++ p)) as (Hmz & _ & Hm0). set (code := mac K _) in *.
    assert (E1 : take 9 (hdr ++ code ++ pid_bytes true s ++ p) = hdr) by (by apply (take_app_zlen hdr _ 9)).
    assert (E2 : drop 9 (hdr ++ code ++ pid_bytes true s ++ p) = code ++ pid_bytes true s ++ p) by (by apply (drop_app_zlen hdr _ 9)).
    rewrite E1, E2, (take_app_zlen code), (drop_app_zlen code) by done.
    assert (E3 : take 8 (pid_bytes true s ++ p) = pid_bytes true s) by (by apply (take_app_zlen (pid_bytes true s) p 8)).
    assert (E4 : drop 8 (pid_bytes true s ++ p) = p) by (by apply (drop_app_zlen (pid_bytes true s) p 8)).
    rewrite E3, E4, !zlen_app, Hz, Hmz, pid_bytes_len. change (packet_id_size true) with 8. rewrite (proj2 (Z.ltb_ge _ _)) by lia.
    fold code. unfold bytes_eqb. rewrite bool_decide_eq_true_2 by done.
    pose proof (pid_parse_bytes true s [] (Hs ltac:(done))) as Hpp. rewrite app_nil_r in Hpp. by rewrite Hpp.
  - destruct HK as (k & h & HC). assert (HC' := HC). destruct HC' as [-> -> _ _].
    rewrite (open_seal_control K k h hdr s p HC Hz (Hs ltac:(done)) Hp). done.
Qed.

Lemma seal_wrap_first mode K x sid s p : wrap_keys mode K -> exists rest, seal_wrap mode K (x :: sid) s p = x :: rest.
Proof.
  intros HK. destruct mode; [by eexists..|]. destruct HK as (k & h & [Hk Hh _ _]). unfold seal_wrap. rewrite Hk, Hh. by eexists.
Qed.

(** The room a packet needs, acknowledgments included. *)
Definition control_room (mode : tls_wrap_mode) (K : keys) (c : tls_wrap_ctx) (b : buffer) (acks : Z) (prepend : bool) : Prop :=
  (if prepend then acks else 0) + 17 + mac_len K <= b_offset b /\
  (if prepend then 0 else acks) <= b_capacity b - b_offset b - b_len b /\
  (mode = TLS_WRAP_CRYPT -> buf_live (tw_work c) /\ b_capacity b + 9 + tls_crypt_buf_overhead <= b_capacity (tw_work c)).

(** The packet id has not been used up, and the clock did not run backwards. *)
Definition id_left (now : Z) (p : packet_id_send) : Prop :=
  is_u 32 (s_id p) /\ 0 <= s_time p <= now /\ fst (packet_id_send_update now p true) = true.

(** What acknowledgments and contents make of a payload. *)
Definition payload (ks : key_state) (b : buffer) (max : Z) (prepend : bool) : list Z :=
  let acks := ack_bytes (take (Z.to_nat (Z.min (ack_len (rec_ack ks)) max)) (ack_packet_id (rec_ack ks))) (session_id_remote ks) in
  if prepend then acks ++ buf_contents b else buf_contents b ++ acks.

(** The key state of a sender. *)
Record sender_ok (ks : key_state) : Prop := mksend_ok {
  so_ack : ack_wf (rec_ack ks);
  so_sid : Reliable.sid_ok (session_id ks);
  so_remote : Reliable.sid_ok (session_id_remote ks);
  so_key_id : 0 <= ks_key_id ks < 8 }.

Lemma write_control_auth_sends now prng ks b op max prepend mode Ke Kd ig c : wrap_end mode Ke Kd ig c -> sender_ok ks -> buf_live b ->
  0 <= op < 32 -> op <> P_CONTROL_HARD_RESET_CLIENT_V3 -> 0 <= max < 256 ->
  control_room mode Ke c b (ACK_SIZE (Z.min (ack_len (rec_ack ks)) max)) prepend -> (mode <> TLS_WRAP_NONE -> id_left now (o_send (tw_opt c))) ->
  exists s ks' c' b', write_control_auth now prng ks c b op max prepend = Some (true, ks', c', b') /\
    wrap_end mode Ke Kd ig c' /\ buf_live b' /\ (mode <> TLS_WRAP_NONE -> is_u 32 (s_id s)) /\
    Forall is_byte (payload ks b max prepend) /\
    buf_contents b' = seal_wrap mode Ke (header (ks_key_id ks) op :: session_id ks) s (payload ks b max prepend).
Proof.
  intros HW [Ha Hsid Hrem Hkey] Hb Hop Hv3 Hmax (Hfront & Htail & Hcrypt) Hid. unfold write_control_auth. fold (header (ks_key_id ks) op).
  set (n := Z.min _ _) in *. destruct (mac_size Ke []) as (_ & _ & Hm0). pose proof (zlen_nonneg (ack_packet_id (rec_ack ks))).
  assert (Hack0 : 0 <= ACK_SIZE n).
  { unfold ACK_SIZE, SID_SIZE. destruct Ha as [Ha _]. unfold ack_len in *. destruct (n =? 0); unfold n; lia. }
  destruct (reliable_ack_write_spec (rec_ack ks) b (session_id_remote ks) max prepend Ha Hrem Hmax Hb) as (b1 & -> & L1 & C1 & O1 & B1);
    [fold n; destruct prepend; lia|]. fold n in O1, B1. cbn [mbind option_bind].
  change (buf_contents b1 = payload ks b max prepend) in B1. destruct (header_decode (ks_key_id ks) Hkey op Hop) as (Hhb & _).
  destruct Hsid as (Hsz & Hsb & _). unfold SID_SIZE in Hsz.
  assert (Hroom : wrap_room mode Ke c b1).
  { destruct mode; cbn [wrap_room]; [destruct prepend; lia|destruct prepend; lia|]. destruct (Hcrypt eq_refl) as [? ?]. split; [done|].
    assert (Hw1 := L1). destruct Hw1 as [[_ _ _ Hfit _ _] _]. lia. }
  destruct (wrap_control_spec now prng (header (ks_key_id ks) op) (session_id ks) op mode Ke Kd ig c b1 HW L1 Hsz Hsb Hhb Hv3 Hroom)
    as (s & c' & b' & Hup & -> & Hsent & L2 & B2); [intros Hn; apply (Hid Hn)|]. cbn [mbind option_bind].
  exists s. do 3 eexists. split; [reflexivity|]. split; [by eapply wrap_sent_end|]. split; [done|]. split.
  { intros Hn. destruct (Hid Hn) as (Hu & Ht & _). by destruct (send_update_spec _ _ _ _ Hu Ht (Hup Hn)). }
  split; [rewrite <- B1; apply buf_contents_bytes, L1|]. by rewrite B2, B1.
Qed.

(** ** Standalone check *)

Lemma clone_buf_live b : buf_live b -> buf_live (clone_buf b) /\ buf_contents (clone_buf b) = buf_contents b /\
  b_offset (clone_buf b) = b_offset b /\ b_len (clone_buf b) = b_len b.
Proof.
  intros Hb. unfold clone_buf. set (f := mkbuffer _ _ _ _). assert (Hw := Hb). destruct Hw as [[] _].
  assert (Lf : buf_live f).
  { eapply buf_live_intro; [reflexivity|..]; cbn; try lia; [unfold zlen; rewrite length_replicate; lia|]. by apply Forall_replicate. }
  rewrite (buf_live_bptr f Lf). change (b_offset f) with (b_offset b).
  destruct (buf_store_front f (buf_contents b) (buf_contents f) [] Lf) as [L1 C1]; [by apply buf_contents_bytes, Hb|by rewrite app_nil_r|
    by rewrite (buf_contents_length b Hb), (buf_contents_length f Lf)|].
  rewrite app_nil_r in C1. done.
Qed.

Lemma standalone_end mode Ke Kd ig c f : wrap_end mode Ke Kd ig c -> wrap_end mode Ke Kd true (tas_tls_wrap (tls_auth_standalone_init c f)).
Proof.
  intros [Hm Ho He Hd]. constructor; cbn; try done. intros Hn. destruct (Ho Hn) as [HE HD Hon Hlf Hig]. constructor; cbn; try done.
  - revert Hlf. unfold long_form, CO_PACKET_ID_LONG_FORM, CO_IGNORE_PACKET_ID. cbn. intros Hlf.
    apply negb_true_iff, Z.eqb_neq. apply negb_true_iff, Z.eqb_neq in Hlf. intros Hz1. apply Hlf. rewrite Z.land_lor_distr_l in Hz1. by apply Z.lor_eq_0_l in Hz1.
  - unfold ignore_packet_id, CO_IGNORE_PACKET_ID. cbn. apply negb_true_iff, Z.eqb_neq. rewrite Z.land_lor_distr_l. intros Hz1. apply Z.lor_eq_0_iff in Hz1 as [_ Hz1]. done.
Qed.

End Spec.

(** ** Properties *)

(** C12. Round trip of control packets.  In each way of wrapping (none, --tls-auth,
    --tls-crypt) [write_control_auth] succeeds, and whenever its packet arrives,
    [read_control_auth] of the other end puts it to the replay check under the packet
    id it was sent with; accepted, the buffer holds exactly the acknowledgments and
    payload that were sent. *)
Theorem control_wrap_roundtrip `{StreamLaws} `{!EvpKeyLib} mode Ke Kd igs igr c r ks b op max prepend now prng :
  wrap_end mode Ke Kd igs c -> wrap_end mode Kd Ke igr r -> kc_cipher (tw_server_key r) = None -> sender_ok ks -> buf_live b ->
  0 <= op < 32 -> op <> P_CONTROL_HARD_RESET_CLIENT_V3 -> 0 <= max < 256 ->
  control_room mode Ke c b (ACK_SIZE (Z.min (ack_len (rec_ack ks)) max)) prepend -> (mode <> TLS_WRAP_NONE -> id_left now (o_send (tw_opt c))) ->
  exists s ks' c' b', write_control_auth now prng ks c b op max prepend = Some (true, ks', c', b') /\ wrap_end mode Ke Kd igs c' /\ buf_live b' /\
    forall now' script rb, buf_live rb -> buf_contents rb = buf_contents b' ->
      exists opt1 w d, buf_live w /\ buf_contents w = payload ks b max prepend /\
        read_control_auth now' rb r script
        = ('(ok, opt2) ← wrap_replay now' igr opt1 (wire_id mode s); Some (ok, if ok : bool then w else d, r <| tw_opt := opt2 |>)).
Proof.
  intros HW HR Hsk Hks Hb Hop Hv3 Hmax Hroom Hid.
  destruct (write_control_auth_sends now prng ks b op max prepend mode Ke Kd igs c) as (s & ks' & c' & b' & Hw & HW' & L' & Hu & Hby & C'); try done.
  exists s, ks', c', b'. split; [done|]. split; [done|]. split; [done|]. intros now' script rb Lr Cr. rewrite C' in Cr.
  destruct (seal_wrap_first mode Ke (header (ks_key_id ks) op) (session_id ks) s (payload ks b max prepend)) as [rest E]; [apply HW|].
  pose proof (buf_contents_length rb Lr) as Hl. rewrite Cr, E, zlen_cons in Hl. pose proof (zlen_nonneg rest).
  destruct (read_control_auth_spec now' rb script mode Kd Ke igr r HR Hsk Lr) as (opt1 & _ & Hres); [lia|].
  rewrite (peek_first rb (header (ks_key_id ks) op) rest Lr) in Hres by (by rewrite Cr, E).
  destruct Hks as [_ (Hsz & _) _ Hkey]. destruct (header_decode (ks_key_id ks) Hkey op Hop) as (_ & Hsh & _).
  rewrite Hsh, (proj2 (Z.eqb_neq _ _)), Cr, open_seal_wrap in Hres; try done; [|apply HW|rewrite zlen_cons, Hsz; done].
  destruct Hres as (w & d & Lw & Cw & Hres). by exists opt1, w, d.
Qed.

(** The packet in front of a wrapped client key, and the keys in it; the length of the
    wrapped key is in the last two bytes. *)
Definition split_wkc `{StreamLaws} (K : keys) (w : list Z) : option (list Z * list Z) :=
  let n := zlen w in
  let m := be_val (drop (Z.to_nat (n - 2)) w) in
  if (n <? 2) || (n <? m) then None
  else match sk_cipher K, sk_hmac K with
    | Some k, Some h => '(keys, _) ← open_key k h (drop (Z.to_nat (n - m)) w); Some (take (Z.to_nat (n - m)) w, keys)
    | _, _ => None
    end.

(** The library has the ciphers of --tls-crypt and loads every client key, with which
    the server then opens packets. *)
Definition loads_keys `{StreamLaws} `{!EvpKeyLib} (Kof : list Z -> keys) : Prop := forall keys, zlen keys = 256 -> exists bi k h,
  tls_crypt_v2_load_client_key (mkkey2 0 (keys_of_bytes keys)) true = Some bi /\ crypt_keys (Kof keys) k h /\ keyed decrypts (Kof keys) (kb_decrypt bi).

(** A server with or without a key for --tls-crypt-v2. *)
Definition server_end `{StreamLaws} `{!EvpKeyLib} (v2 : option keys) (Kof : list Z -> keys) (c : tls_wrap_ctx) : Prop :=
  match v2 with
  | None => kc_cipher (tw_server_key c) = None
  | Some K => (exists k h, crypt_keys K k h) /\ keyed decrypts K (tw_server_key c) /\ loads_keys Kof
  end.

Lemma open_key_length `{StreamLaws} k h w keys meta : open_key k h w = Some (keys, meta) -> zlen keys = 256.
Proof.
  unfold open_key. case_match; [done|]. case_match; [done|]. intros Hx. apply bind_Some in Hx as (p & _ & Hx). case_match; [|done].
  destruct (Z.ltb_spec (zlen p) TLS_CRYPT_V2_CLIENT_KEY_LEN) as [|Hp]; [done|]. injection Hx as <- _. change TLS_CRYPT_V2_CLIENT_KEY_LEN with 256 in Hp.
  unfold zlen in *. rewrite length_take. lia.
Qed.

Lemma lor_ignore_packet_id flags extra : negb (Z.land (Z.lor (Z.lor flags CO_IGNORE_PACKET_ID) extra) CO_IGNORE_PACKET_ID =? 0) = true.
Proof.
  apply negb_true_iff, Z.eqb_neq. rewrite !Z.land_lor_distr_l. intros Hz. apply Z.lor_eq_0_iff in Hz as [Hz _]. by apply Z.lor_eq_0_iff in Hz as [_ Hz].
Qed.

(** The packet of a client with a wrapped key, at the server that ignores packet ids. *)
Lemma read_wrapped_first `{StreamLaws} `{!EvpKeyLib} now rb c f K Kof : server_end (Some K) Kof c -> buf_live rb -> 0 < b_len rb ->
  Z.shiftr (buf_peek rb (b_offset rb)) P_OPCODE_SHIFT = P_CONTROL_HARD_RESET_CLIENT_V3 ->
  let r := read_control_auth now rb (tas_tls_wrap (tls_auth_standalone_init c f)) None in
  match split_wkc K (buf_contents rb) with
  | None => exists b c', r = Some (false, b, c')
  | Some ([], _) => r = None
  | Some (packet, keys) => exists b c', r = Some (bool_decide (is_Some (open_wrap TLS_WRAP_CRYPT (Kof keys) packet)), b, c')
  end.
Proof.
  intros ((k & h & HC) & HK & Hload) Hb Hpos Hop r. unfold r, read_control_auth. rewrite (buf_live_bptr rb Hb). cbn [mbind option_bind]. rewrite Hop.
  change (P_CONTROL_HARD_RESET_CLIENT_V3 =? P_CONTROL_HARD_RESET_CLIENT_V3) with true. cbv iota. set (c0 := tas_tls_wrap _).
  pose proof (extract_client_key_spec rb c0 K k h None HC HK Hb) as Hx. cbv zeta in Hx. unfold split_wkc. rewrite (buf_contents_length rb Hb).
  set (m := be_val _) in *. destruct ((b_len rb <? 2) || (b_len rb <? m)).
  { rewrite Hx. by do 2 eexists. }
  assert (HC' := HC). destruct HC' as [-> -> _ _]. destruct (open_key k h _) as [[keys meta]|] eqn:Ho; cbn [mbind option_bind].
  2:{ destruct Hx as (r' & ->). by do 2 eexists. }
  destruct Hx as (rb' & md & sk' & Lr & Cr & _ & _ & _ & ->). destruct (Hload keys (open_key_length _ _ _ _ _ Ho)) as (bi & k' & h' & -> & HC' & HK').
  cbn [mbind option_bind metadata_verdict negb]. pose proof (buf_contents_length rb' Lr) as Hl. rewrite <- Cr. set (c1 := took_over _ _ _ _).
  destruct (buf_contents rb') as [|x rest] eqn:E.
  - unfold unwrap_control. change (tw_mode c1) with TLS_WRAP_CRYPT. cbv iota. assert (b_len rb' = 0) as E0 by (rewrite <- Hl; done).
    destruct (alloc_buf _) as [tmp|]; [|done]. cbn [mbind option_bind]. unfold tls_crypt_unwrap. by rewrite E0.
  - assert (ignore_packet_id (tw_opt c1) = true) as Hig by apply lor_ignore_packet_id. rewrite <- E.
    destruct (unwrap_control_crypt now rb' c1 (Kof keys) k' h') as (opt1 & _ & Hr); try done; [by rewrite Hig, orb_true_r|rewrite <- Hl, zlen_cons; pose proof (zlen_nonneg rest); lia|].
    rewrite Hig in Hr. destruct (open_wrap TLS_WRAP_CRYPT (Kof keys) (buf_contents rb')) as [[pin p]|].
    + destruct Hr as (b & d & _ & _ & ->). rewrite bool_decide_eq_true_2 by (by eexists). destruct pin; cbn; by do 2 eexists.
    + destruct Hr as (b & ->). rewrite bool_decide_eq_false_2 by (by intros []). by do 2 eexists.
Qed.

(** Without one: the way of wrapping decides, and a server with a key for --tls-crypt-v2
    takes nothing unwrapped. *)
Lemma read_plain_first `{StreamLaws} `{!EvpKeyLib} now rb mode Ke Kd c v2 Kof : wrap_end mode Ke Kd true c -> server_end v2 Kof c -> buf_live rb -> 0 < b_len rb ->
  Z.shiftr (buf_peek rb (b_offset rb)) P_OPCODE_SHIFT <> P_CONTROL_HARD_RESET_CLIENT_V3 ->
  exists b c', read_control_auth now rb c None
    = Some (bool_decide (v2 = None \/ mode <> TLS_WRAP_NONE) && bool_decide (is_Some (open_wrap mode Kd (buf_contents rb))), b, c').
Proof.
  intros HW Hv Hb Hpos Hop. unfold read_control_auth. rewrite (buf_live_bptr rb Hb). cbn [mbind option_bind]. rewrite (proj2 (Z.eqb_neq _ _)) by done.
  cbn [mbind option_bind negb]. destruct (decide (v2 = None \/ mode <> TLS_WRAP_NONE)) as [Hd|Hd].
  - rewrite (bool_decide_eq_true_2 _ Hd). destruct (unwrap_control_spec now rb mode Ke Kd true c HW) as (opt1 & _ & Hr); [|done|done|].
    { intros ->. by destruct Hd as [->|[]]. }
    destruct (open_wrap mode Kd (buf_contents rb)) as [[pin p]|].
    + destruct Hr as (b & d & _ & _ & ->). rewrite (bool_decide_eq_true_2 (is_Some _)) by (by eexists). destruct pin; cbn; by do 2 eexists.
    + destruct Hr as (b & ->). rewrite (bool_decide_eq_false_2 (is_Some _)) by (by intros []). by do 2 eexists.
  - rewrite (bool_decide_eq_false_2 _ Hd). destruct v2 as [K|]; [|by destruct Hd; left]. destruct (decide (mode = TLS_WRAP_NONE)) as [->|]; [|by destruct Hd; right].
    destruct Hv as ((k & h & HC) & HK & _). destruct (keyed_decrypts _ _ _ HK (cry_cipher _ _ _ HC)) as (x & Hx & _).
    unfold unwrap_control. rewrite (we_mode _ _ _ _ _ HW), Hx. cbn. by do 2 eexists.
Qed.

(** C13. The first packet.  [tls_pre_decrypt_lite] says yes exactly to a reset of a client of
    key id 0, no larger than the frame allows, that opens: without a wrapped key under the
    keys of the way of wrapping (without wrapping, every such packet, but none at a server
    with a key for --tls-crypt-v2); with a wrapped key, at a server that has the key it was
    wrapped with, under the keys in it.  To every other packet it says no, with one exception,
    in which an assertion of [tls_crypt_unwrap] stops the server: a packet that is a wrapped
    key of the server and nothing else, whose first byte is that of such a reset
    ([wrapped_key_alone_stops_server]).  The answer does not depend on the time or on packet
    ids seen before. *)
Theorem first_packet_check `{StreamLaws} `{!EvpKeyLib} mode Ke Kd ig c v2 Kof f now b :
  wrap_end mode Ke Kd ig c -> server_end v2 Kof c -> buf_live b ->
  let w := buf_contents b in
  let op := Z.shiftr (buf_peek b (b_offset b)) P_OPCODE_SHIFT in
  tls_pre_decrypt_lite now (tls_auth_standalone_init c f) b
  = if (0 <? b_len b) && (Z.land (buf_peek b (b_offset b)) P_KEY_ID_MASK =? 0) && (b_len b <=? EXPANDED_SIZE_DYNAMIC f) then
      if op =? P_CONTROL_HARD_RESET_CLIENT_V2 then
        Some (bool_decide (v2 = None \/ mode <> TLS_WRAP_NONE) && bool_decide (is_Some (open_wrap mode Kd w)))
      else if op =? P_CONTROL_HARD_RESET_CLIENT_V3 then
        match K ← v2; split_wkc K w with
        | None => Some false
        | Some ([], _) => None
        | Some (packet, keys) => Some (bool_decide (is_Some (open_wrap TLS_WRAP_CRYPT (Kof keys) packet)))
        end
      else Some false
    else Some false.
Proof.
  intros HW Hv Hb. cbv zeta. unfold tls_pre_decrypt_lite. destruct (Z.leb_spec (b_len b) 0); [by rewrite (proj2 (Z.ltb_ge _ _))|].
  rewrite (proj2 (Z.ltb_lt 0 _)), (buf_live_bptr b Hb) by done. cbn [mbind option_bind andb].
  destruct (clone_buf_live b Hb) as (Lc & Cc & Oc & Nc).
  assert (Hpeek : buf_peek (clone_buf b) (b_offset (clone_buf b)) = buf_peek b (b_offset b)).
  { pose proof (buf_contents_length b Hb) as Hl. destruct (buf_contents b) as [|x rest] eqn:E; [unfold zlen in Hl; cbn in Hl; lia|].
    rewrite (peek_first b x rest Hb E). by apply (peek_first (clone_buf b) x rest). }
  pose proof (standalone_end _ _ _ _ _ f HW) as HW'. change (tas_frame (tls_auth_standalone_init c f)) with f. rewrite Z.ltb_antisym.
  rewrite <- Hpeek, <- Cc. destruct (Z.land _ P_KEY_ID_MASK =? 0); cbn [negb andb]; [|by destruct (_ && _)].
  destruct (b_len b <=? EXPANDED_SIZE_DYNAMIC f); cbn [negb]; [|by destruct (_ && _)].
  destruct (Z.eqb_spec (Z.shiftr (buf_peek (clone_buf b) (b_offset (clone_buf b))) P_OPCODE_SHIFT) P_CONTROL_HARD_RESET_CLIENT_V2) as [Hv2|Hv2]; cbn [negb andb].
  - destruct (read_plain_first now (clone_buf b) mode Ke Kd _ v2 Kof HW' Hv Lc) as (b' & c' & ->); [lia|by rewrite Hv2|]. done.
  - destruct (Z.eqb_spec (Z.shiftr (buf_peek (clone_buf b) (b_offset (clone_buf b))) P_OPCODE_SHIFT) P_CONTROL_HARD_RESET_CLIENT_V3) as [Hv3|Hv3]; cbn [negb]; [|done].
    destruct v2 as [K|]; cbn [mbind option_bind].
    + pose proof (read_wrapped_first now (clone_buf b) c f K Kof Hv Lc ltac:(lia) Hv3) as Hr. cbv zeta in Hr.
      destruct (split_wkc K (buf_contents (clone_buf b))) as [[[|x packet] keys]|].
      * by rewrite Hr.
      * by destruct Hr as (b' & c' & ->).
      * by destruct Hr as (b' & c' & ->).
    + pose proof (read_control_auth_spec now (clone_buf b) None mode Ke Kd true _ HW' Hv Lc ltac:(lia)) as (opt1 & _ & Hr).
      rewrite Hv3 in Hr. by destruct Hr as (b' & ->).
Qed.

(** ** Examples *)

Definition toy_crypt_end (igs : bool) : tls_wrap_ctx :=
  mktwc TLS_WRAP_CRYPT (mkopt (mkbi (toy_ctr_ctx 4 true) (toy_ctr_ctx 4 false) true) toy_pid None (if igs then 3 else 1))
    (toy_buf 1024 0 [] []) (mkkctx None None [] 0) None clear_buf false.

Lemma toy_crypt_end_ok igs : wrap_end TLS_WRAP_CRYPT (toy_ctr_keys 4) (toy_ctr_keys 4) igs (toy_crypt_end igs).
Proof.
  constructor; [done| |by exists (false, 4), (toy_sha256, 4)..]. intros _. by destruct igs; constructor.
Qed.

Definition toy_sender : key_state :=
  mkks (mkreliable 0 0 0 0 false []) (mkreliable 0 0 0 0 false []) (mkack [5; 6]) clear_buf 0 (replicate 8 1) (replicate 8 2) false false 0.
Lemma toy_sender_ok : sender_ok toy_sender.
Proof.
  assert (Hrep : forall x, is_byte x -> Forall is_byte (replicate 8 x)) by (intros; by apply Forall_replicate).
  constructor; cbn; try done.
  - split; [done|]. by repeat (apply Forall_cons; split; [done|]).
  - split; [done|]. split; [by apply (Hrep 1)|done].
  - split; [done|]. split; [by apply (Hrep 2)|done].
Qed.

Definition toy_control_buf : buffer := toy_buf 256 128 [] [9; 8; 7].

Lemma control_wrap_roundtrip_witness : exists ks' c' b' w r',
  write_control_auth 1000 toy_prng toy_sender (toy_crypt_end false) toy_control_buf P_ACK_V1 8 true = Some (true, ks', c', b') /\
  read_control_auth 1000 b' (toy_crypt_end true) None = Some (true, w, r') /\
  buf_contents w = payload toy_sender toy_control_buf 8 true.
Proof.
  destruct (control_wrap_roundtrip TLS_WRAP_CRYPT (toy_ctr_keys 4) (toy_ctr_keys 4) false true (toy_crypt_end false) (toy_crypt_end true)
    toy_sender toy_control_buf P_ACK_V1 8 true 1000 toy_prng (toy_crypt_end_ok false) (toy_crypt_end_ok true) eq_refl toy_sender_ok)
    as (s & ks' & c' & b' & Hw & _ & Lb & Hr).
  - by apply toy_fits_live.
  - done.
  - done.
  - done.
  - split; [by vm_compute|]. split; [by vm_compute|]. intros _. split; [by apply toy_fits_live|by vm_compute].
  - intros _. split; [by vm_compute|]. split; [by vm_compute|by vm_compute].
  - destruct (Hr 1000 None b' Lb eq_refl) as (opt1 & w & d & _ & Cw & E). exists ks', c', b', w, ((toy_crypt_end true) <| tw_opt := opt1 |>).
    split; [exact Hw|]. split; [exact E|exact Cw].
Defined.

(** A first packet under --tls-crypt, and one with a byte changed. *)
Definition toy_reset : list Z :=
  match write_control_auth 1000 toy_prng toy_sender (toy_crypt_end false) toy_control_buf P_CONTROL_HARD_RESET_CLIENT_V2 8 true with
  | Some (true, _, _, b) => buf_contents b | _ => [] end.

(** A server with a key for --tls-crypt-v2: the toy library loads every client key. *)
Definition toy_keys_of (l : list Z) : keys :=
  match keys_of_bytes l with
  | [_; k] => mkkeys (Some (false, toy_sum (take 32 (key_cipher k)))) (Some (toy_sha256, toy_sum (take 32 (key_hmac k)))) []
  | _ => toy_ctr_keys 0
  end.
Lemma toy_init_key k enc : 32 <= zlen (key_cipher k) -> 32 <= zlen (key_hmac k) -> init_key_ctx k (mkkt 32 32 (Some false) (Some toy_sha256)) enc
  = Some (mkkctx (Some (mktoy (false, toy_sum (take 32 (key_cipher k))) enc [] [] [] [])) (Some ((toy_sha256, toy_sum (take 32 (key_hmac k))), [])) (replicate 16 0) 0).
Proof.
  intros Hk Hh. unfold init_key_ctx, cipher_ctx_init, hmac_ctx_init. cbn -[take toy_sum zlen replicate]. change (Z.to_nat 32) with 32%nat.
  assert (zlen (take 32 (key_cipher k)) = 32) as -> by (unfold zlen in *; rewrite length_take; lia).
  assert (zlen (take 32 (key_hmac k)) = 32) as -> by (unfold zlen in *; rewrite length_take; lia). done.
Qed.
Lemma toy_loads_keys : loads_keys toy_keys_of.
Proof.
  intros keys Hz. assert (Hkt : tls_crypt_kt = mkkt 32 32 (Some false) (Some toy_sha256)) by (vm_compute; reflexivity).
  unfold tls_crypt_v2_load_client_key, toy_keys_of, keys_of_bytes. rewrite Hkt. cbn [kt_cipher kt_digest mbind option_bind].
  assert (forall n, (n <= 128)%nat -> 32 <= zlen (key_cipher (key_of_bytes (drop n keys))) /\ 32 <= zlen (key_hmac (key_of_bytes (drop n keys)))) as Hlen.
  { intros n Hn. unfold key_of_bytes, zlen in *. cbn [key_cipher key_hmac]. rewrite !length_take, !length_drop. unfold MAX_CIPHER_KEY_LENGTH, MAX_HMAC_KEY_LENGTH. lia. }
  destruct (Hlen 0%nat ltac:(lia)) as [C0 H0], (Hlen (Z.to_nat KEY_SIZE) ltac:(unfold KEY_SIZE, MAX_CIPHER_KEY_LENGTH, MAX_HMAC_KEY_LENGTH; lia)) as [C1 H1]. change (drop 0 keys) with keys in *.
  generalize dependent (key_of_bytes (drop (Z.to_nat KEY_SIZE) keys)). generalize dependent (key_of_bytes keys). intros k0 C0 H0 k1 C1 H1.
  unfold init_key_ctx_bi. change (key_direction_state_init _) with (Some (mkkds 0 1 2)). cbn [mbind option_bind key2_keys kds_out_key kds_in_key].
  change ([k0; k1] !! Z.to_nat 0) with (Some k0). change ([k0; k1] !! Z.to_nat 1) with (Some k1). cbn [mbind option_bind].
  rewrite !toy_init_key by done. cbn [mbind option_bind]. do 3 eexists. split; [reflexivity|]. split; by constructor.
Qed.
Lemma toy_server_end : server_end (Some (toy_ctr_keys 9)) toy_keys_of toy_server.
Proof. split; [by exists (false, 9), (toy_sha256, 9); constructor|]. split; [done|exact toy_loads_keys]. Qed.
Lemma toy_server_wrap : wrap_end TLS_WRAP_NONE (toy_ctr_keys 4) (toy_ctr_keys 4) false toy_server.
Proof. by constructor. Qed.

(** A wrapped client key with two bytes of metadata, and a first packet under its keys. *)
Definition toy_client_keys : key2 := mkkey2 2 [toy_client_key 3; toy_client_key 5].
Definition toy_wrapped (x : Z) : list Z :=
  match tls_crypt_v2_wrap_client_key toy_wkc_buf toy_client_keys (toy_buf 64 0 [] [0; x]) (toy_ctr_ctx 9 true) with
  | Some (true, b, _) => buf_contents b | _ => [] end.
Definition toy_hello : list Z :=
  let K := toy_keys_of (keys_bytes toy_client_keys) in
  match sk_cipher K, sk_hmac K with
  | Some k, Some h => seal_control k h (80 :: replicate 8 1 ++ pid_bytes true (mksend 7 1000)) [9; 8; 7]
  | _, _ => []
  end.

Definition toy_ask (v2 : bool) (l : list Z) : option bool :=
  tls_pre_decrypt_lite 1000 (tls_auth_standalone_init (if v2 then toy_server else toy_crypt_end false) toy_frame) (toy_buf 2048 0 [] l).

Lemma first_packet_check_witness :
  (toy_ask false toy_reset = Some true /\ toy_ask false (<[20%nat := 0]> toy_reset) = Some false) /\
  (toy_ask true (toy_hello ++ toy_wrapped 97) = Some true /\ toy_ask true (toy_hello ++ <[5%nat := 0]> (toy_wrapped 97)) = Some false /\
   toy_ask true toy_reset = Some false).
Proof.
  assert (Hf : toy_fits 2048 0 [] toy_reset = true /\ toy_fits 2048 0 [] (<[20%nat := 0]> toy_reset) = true /\
    toy_fits 2048 0 [] (toy_hello ++ toy_wrapped 97) = true /\ toy_fits 2048 0 [] (toy_hello ++ <[5%nat := 0]> (toy_wrapped 97)) = true) by (by vm_compute).
  destruct Hf as (F1 & F2 & F3 & F4). pose proof (toy_crypt_end_ok false) as E1. pose proof toy_server_wrap as E2. pose proof toy_server_end as V2.
  unfold toy_ask. split; split; [| |..|split].
  - rewrite (first_packet_check TLS_WRAP_CRYPT (toy_ctr_keys 4) (toy_ctr_keys 4) false (toy_crypt_end false) None toy_keys_of toy_frame 1000 (toy_buf 2048 0 [] toy_reset) E1 eq_refl (toy_fits_live _ _ _ _ F1)). by vm_compute.
  - rewrite (first_packet_check TLS_WRAP_CRYPT (toy_ctr_keys 4) (toy_ctr_keys 4) false (toy_crypt_end false) None toy_keys_of toy_frame 1000 (toy_buf 2048 0 [] (<[20%nat := 0]> toy_reset)) E1 eq_refl (toy_fits_live _ _ _ _ F2)). by vm_compute.
  - rewrite (first_packet_check TLS_WRAP_NONE (toy_ctr_keys 4) (toy_ctr_keys 4) false toy_server (Some (toy_ctr_keys 9)) toy_keys_of toy_frame 1000 (toy_buf 2048 0 [] (toy_hello ++ toy_wrapped 97)) E2 V2 (toy_fits_live _ _ _ _ F3)). by vm_compute.
  - rewrite (first_packet_check TLS_WRAP_NONE (toy_ctr_keys 4) (toy_ctr_keys 4) false toy_server (Some (toy_ctr_keys 9)) toy_keys_of toy_frame 1000 (toy_buf 2048 0 [] (toy_hello ++ <[5%nat := 0]> (toy_wrapped 97))) E2 V2 (toy_fits_live _ _ _ _ F4)). by vm_compute.
  - rewrite (first_packet_check TLS_WRAP_NONE (toy_ctr_keys 4) (toy_ctr_keys 4) false toy_server (Some (toy_ctr_keys 9)) toy_keys_of toy_frame 1000 (toy_buf 2048 0 [] toy_reset) E2 V2 (toy_fits_live _ _ _ _ F1)). by vm_compute.
Defined.

(** The tag of a wrapped key can begin with the first byte of a reset (one in 256 does):
    the key alone is then a packet of which nothing is left when the key is cut off, and
    [tls_crypt_unwrap] asserts that something is. *)
Example wrapped_key_alone_stops_server : head (toy_wrapped 162) = Some 80 /\ toy_ask true (toy_wrapped 162) = None.
Proof. split; vm_compute; reflexivity. Qed.
