(* ===== verification/TlsState.v ===== *)
(** The objects of the TLS state machine ([src/openvpn/ssl.c], [ssl_common.h]): key
    states, sessions and the [tls_multi] that holds a peer's three sessions, with
    their creation, disposal and replacement.  The TLS library is a class: memory
    BIOs and the SSL object behind them, of which the code uses only how reads and
    writes end.  [session->key[KS_PRIMARY]] and [session->key[KS_LAME_DUCK]] are the
    fields [ses_primary] and [ses_lame]; a pointer to a session is its index. *)
From Stdlib Require Import String.
From stdpp Require Import list.
From S2P Require Import Prelude Integer Buffer PacketId Reliable ReliableProto Mtu Crypto DataChannel KeyExchange TlsCrypt ControlWrap.

(** ** The TLS library *)

Inductive bio_result := BioWrote (n : Z) | BioWriteRetry | BioWriteFatal.

(** [SSL] is [struct key_state_ssl]: the SSL object and its BIOs.  [SSL_verified] is
    what the certificate callback decided for it, once it has been called. *)
Class TlsLib := {
  SSL : Type;
  SSL_new : bool -> SSL;
  BIO_write_plain : SSL -> list Z -> bio_result * SSL;
  BIO_write_cipher : SSL -> list Z -> bio_result * SSL;
  BIO_read_plain : SSL -> Z -> bio_answer * SSL;
  BIO_read_cipher : SSL -> Z -> bio_answer * SSL;
  SSL_verified : SSL -> option bool
}.

Definition bio_write {L : TlsLib} (wr : SSL -> list Z -> bio_result * SSL) (ssl : SSL) (data : list Z) : Z * SSL :=
  if zlen data =? 0 then (0, ssl)
  else
    let '(r, ssl) := wr ssl data in
    match r with
    | BioWriteRetry => (0, ssl)
    | BioWriteFatal => (-1, ssl)
    | BioWrote i => (if negb (i =? zlen data) then -1 else 1, ssl)
    end.

Definition bio_write_post (status : Z) (buf : buffer) : option buffer :=
  if status =? 1 then
    p ← buf_bptr buf;
    Some ((buf_store buf p (replicate (Z.to_nat (b_len buf)) 0)) <| b_len := 0 |>)
  else Some buf.

Definition key_state_write_plaintext {L : TlsLib} (ssl : SSL) (buf : buffer) : option (Z * SSL * buffer) :=
  let '(ret, ssl) := bio_write BIO_write_plain ssl (buf_contents buf) in
  buf ← bio_write_post ret buf;
  Some (ret, ssl, buf).

Definition key_state_write_plaintext_const {L : TlsLib} (ssl : SSL) (data : list Z) : Z * SSL :=
  bio_write BIO_write_plain ssl data.

Definition key_state_write_ciphertext {L : TlsLib} (ssl : SSL) (buf : buffer) : option (Z * SSL * buffer) :=
  let '(ret, ssl) := bio_write BIO_write_cipher ssl (buf_contents buf) in
  buf ← bio_write_post ret buf;
  Some (ret, ssl, buf).

(** [bio_read] on a BIO of the object: a buffer that holds something is left alone. *)
Definition bio_read_ssl {L : TlsLib} (rd : SSL -> Z -> bio_answer * SSL) (ssl : SSL) (buf : buffer) (maxlen : Z)
  : option (Z * SSL * buffer) :=
  '(ret, buf') ← bio_read (fun len => fst (rd ssl len)) buf maxlen;
  let len := if maxlen <? buf_forward_capacity buf then maxlen else buf_forward_capacity buf in
  Some (ret, if b_len buf =? 0 then snd (rd ssl len) else ssl, buf').

Definition key_state_read_plaintext {L : TlsLib} (ssl : SSL) (buf : buffer) (maxlen : Z) : option (Z * SSL * buffer) :=
  bio_read_ssl BIO_read_plain ssl buf maxlen.
Definition key_state_read_ciphertext {L : TlsLib} (ssl : SSL) (buf : buffer) (maxlen : Z) : option (Z * SSL * buffer) :=
  bio_read_ssl BIO_read_cipher ssl buf maxlen.

(** ** Addresses *)

Definition osa_zero : openvpn_sockaddr := mkosa 0 0 0 (replicate 16 0).

Definition addr_defined (addr : openvpn_sockaddr) : bool :=
  if sa_family addr =? AF_INET then negb (sa_word addr =? 0)
  else if sa_family addr =? AF_INET6 then negb (forallb (Z.eqb 0) (sa_in6 addr))
  else false.
Definition link_socket_actual_defined (act : openvpn_sockaddr) : bool := addr_defined act.

Definition addr_match (a1 a2 : openvpn_sockaddr) : option bool :=
  if sa_family a1 =? AF_INET then Some (sa_word a1 =? sa_word a2)
  else if sa_family a1 =? AF_INET6 then Some (bytes_eqb (sa_in6 a1) (sa_in6 a2))
  else None.

Fixpoint addrlist_match (a1 : openvpn_sockaddr) (addrlist : list openvpn_sockaddr) : option bool :=
  match addrlist with
  | [] => Some false
  | c :: rest =>
      if sa_family a1 =? AF_INET then (if sa_word a1 =? sa_word c then Some true else addrlist_match a1 rest)
      else if sa_family a1 =? AF_INET6 then (if bytes_eqb (sa_in6 a1) (sa_in6 c) then Some true else addrlist_match a1 rest)
      else None
  end.

Fixpoint addrlist_port_match (a1 : openvpn_sockaddr) (a2 : list openvpn_sockaddr) : option bool :=
  match a2 with
  | [] => Some false
  | c :: rest =>
      if sa_family a1 =? AF_INET then
        if (sa_family c =? AF_INET) && (sa_word a1 =? sa_word c) && (sa_port a1 =? sa_port c) then Some true
        else addrlist_port_match a1 rest
      else if sa_family a1 =? AF_INET6 then
        if (sa_family c =? AF_INET6) && bytes_eqb (sa_in6 a1) (sa_in6 c) && (sa_port a1 =? sa_port c) then Some true
        else addrlist_port_match a1 rest
      else None
  end.

(** [struct link_socket_info] with its [lsa]; the protocol appears through whether
    it is connection oriented. *)
Record link_socket_info := mklsi {
  li_actual : openvpn_sockaddr;
  li_remote_list : option (list openvpn_sockaddr);
  li_connection_established : bool;
  li_remote_float : bool;
  li_connection_oriented : bool
}.
#[export] Instance eta_lsi : EtaOf link_socket_info := fun r =>
  mklsi (li_actual r) (li_remote_list r) (li_connection_established r) (li_remote_float r) (li_connection_oriented r).

Definition addr_match_proto (a1 a2 : openvpn_sockaddr) (oriented : bool) : option bool :=
  if oriented then addr_match a1 a2 else addr_port_match a1 a2.
Definition addrlist_match_proto (a1 : openvpn_sockaddr) (l : list openvpn_sockaddr) (oriented : bool) : option bool :=
  if oriented then addrlist_match a1 l else addrlist_port_match a1 l.

(** Scripts and messages of a new connection are left out. *)
Definition link_socket_connection_initiated (info : link_socket_info) (act : openvpn_sockaddr) : link_socket_info :=
  info <| li_actual := act |> <| li_connection_established := true |>.

Definition link_socket_set_outgoing_addr (info : link_socket_info) (act : openvpn_sockaddr) : option link_socket_info :=
  changed ← (if negb (li_connection_established info) then Some true
             else same ← addr_match_proto act (li_actual info) (li_connection_oriented info); Some (negb same));
  if negb (changed : bool) then Some info
  else
    allowed ← (if li_remote_float info then Some true
               else match li_remote_list info with
                    | None => Some true
                    | Some l => addrlist_match_proto act l (li_connection_oriented info)
                    end);
    Some (if allowed : bool then link_socket_connection_initiated info act else info).

(** ** Lists of buffers *)

(** [struct buffer_list] without a limit of its size. *)
Definition buffer_list_push_data (ol : list (list Z)) (data : list Z) : list (list Z) := ol ++ [data].
Definition buffer_list_peek (ol : list (list Z)) : option (list Z) := head ol.
Definition buffer_list_pop (ol : list (list Z)) : list (list Z) := tail ol.

(** ** Constants *)

Definition S_ERROR : Z := -1.
Definition S_UNDEF : Z := 0.
Definition S_INITIAL : Z := 1.
Definition S_PRE_START : Z := 2.
Definition S_START : Z := 3.
Definition S_SENT_KEY : Z := 4.

(** Indices into [multi->session]. *)
Inductive session_index := TM_ACTIVE | TM_UNTRUSTED | TM_LAME_DUCK.
#[export] Instance session_index_eq_dec : EqDecision session_index.
Proof. solve_decision. Defined.

(** ** Time and randomness *)

(** [now], the readings later calls of [update_time] will see, and how many draws of
    the random number generators were made. *)
Record world := mkworld { w_now : Z; w_clock : list Z; w_draws : nat }.
#[export] Instance eta_world : EtaOf world := fun r => mkworld (w_now r) (w_clock r) (w_draws r).

Definition tick (w : world) : world :=
  match w_clock w with
  | [] => w
  | t :: ts => w <| w_now := t |> <| w_clock := ts |>
  end.
Definition drawn (w : world) : world := w <| w_draws := S (w_draws w) |>.

Section State.
Context `{EvpKeyLib} `{TlsLib}.

(** ** State *)

Definition key_ctx_zero : key_ctx := mkkctx None None (replicate (Z.to_nat OPENVPN_MAX_IV_LENGTH) 0) 0.
Definition crypto_options_zero : crypto_options := mkopt (mkbi key_ctx_zero key_ctx_zero false) packet_id_zero None 0.
Definition reliable_zero : reliable := mkreliable 0 0 0 0 false (replicate (Z.to_nat RELIABLE_CAPACITY) entry_zero).

Record key_state := mkkst {
  k_state : Z;
  k_key_id : Z;
  k_ssl : option SSL;
  k_established : Z;
  k_must_negotiate : Z;
  k_must_die : Z;
  k_initial_opcode : Z;
  k_session_id_remote : list Z;
  k_remote_addr : openvpn_sockaddr;
  k_crypto_options : crypto_options;
  k_key_src : key_source2;
  k_plaintext_read_buf : buffer;
  k_plaintext_write_buf : buffer;
  k_ack_write_buf : buffer;
  k_send_reliable : reliable;
  k_rec_reliable : reliable;
  k_rec_ack : reliable_ack;
  k_paybuf : list (list Z);
  k_n_bytes : Z;
  k_n_packets : Z;
  k_authenticated : ks_auth_state;
  k_auth_deferred_expire : Z
}.
#[export] Instance eta_kst : EtaOf key_state := fun r =>
  mkkst (k_state r) (k_key_id r) (k_ssl r) (k_established r) (k_must_negotiate r) (k_must_die r) (k_initial_opcode r)
    (k_session_id_remote r) (k_remote_addr r) (k_crypto_options r) (k_key_src r) (k_plaintext_read_buf r)
    (k_plaintext_write_buf r) (k_ack_write_buf r) (k_send_reliable r) (k_rec_reliable r) (k_rec_ack r) (k_paybuf r)
    (k_n_bytes r) (k_n_packets r) (k_authenticated r) (k_auth_deferred_expire r).

(** All bytes zero. *)
Definition key_state_zero : key_state :=
  mkkst S_UNDEF 0 None 0 0 0 0 (replicate (Z.to_nat SID_SIZE) 0) osa_zero crypto_options_zero key_source2_zero
    clear_buf clear_buf clear_buf reliable_zero reliable_zero (mkack []) [] 0 0 KS_AUTH_FALSE 0.

Record tls_options := mktlsopt {
  op_server : bool;
  op_xmit_hold : bool;
  op_mode_server : bool;
  op_pull : bool;
  op_replay : bool;
  op_single_session : bool;
  op_transition_window : Z;
  op_handshake_window : Z;
  op_packet_timeout : Z;
  op_renegotiate_bytes : Z;
  op_renegotiate_packets : Z;
  op_renegotiate_seconds : Z;
  op_key_type : key_type;
  op_crypto_flags : Z;
  op_replay_window : Z;
  op_replay_time : Z;
  op_tls_crypt_v2 : bool;
  op_tls_wrap : tls_wrap_ctx;
  op_frame : frame;
  op_local_options : list Z
}.
#[export] Instance eta_tlsopt : EtaOf tls_options := fun r =>
  mktlsopt (op_server r) (op_xmit_hold r) (op_mode_server r) (op_pull r) (op_replay r) (op_single_session r)
    (op_transition_window r) (op_handshake_window r) (op_packet_timeout r) (op_renegotiate_bytes r)
    (op_renegotiate_packets r) (op_renegotiate_seconds r) (op_key_type r) (op_crypto_flags r) (op_replay_window r)
    (op_replay_time r) (op_tls_crypt_v2 r) (op_tls_wrap r) (op_frame r) (op_local_options r).

Record tls_session := mkses {
  ses_burst : bool;
  ses_tls_wrap : tls_wrap_ctx;
  ses_initial_opcode : Z;
  ses_session_id : list Z;
  ses_key_id : Z;
  ses_verified : bool;
  ses_untrusted_addr : openvpn_sockaddr;
  ses_primary : key_state;
  ses_lame : key_state
}.
#[export] Instance eta_ses : EtaOf tls_session := fun r =>
  mkses (ses_burst r) (ses_tls_wrap r) (ses_initial_opcode r) (ses_session_id r) (ses_key_id r) (ses_verified r)
    (ses_untrusted_addr r) (ses_primary r) (ses_lame r).

Definition tls_wrap_zero : tls_wrap_ctx := mktwc TLS_WRAP_NONE crypto_options_zero clear_buf key_ctx_zero None clear_buf false.
Definition tls_session_zero : tls_session :=
  mkses false tls_wrap_zero 0 (replicate (Z.to_nat SID_SIZE) 0) 0 false osa_zero key_state_zero key_state_zero.

Record tls_multi := mkmulti {
  m_opt : tls_options;
  m_save_ks : option nat;
  m_to_link_addr : openvpn_sockaddr;
  m_n_sessions : Z;
  m_multi_state : client_connect_status;
  m_n_hard_errors : Z;
  m_n_soft_errors : Z;
  m_tas_last : Z;
  m_peer_info : option (list Z);
  m_auth_token_initial : bool;
  m_peer_id : Z;
  m_use_peer_id : bool;
  m_session : session_index -> tls_session
}.
#[export] Instance eta_multi : EtaOf tls_multi := fun r =>
  mkmulti (m_opt r) (m_save_ks r) (m_to_link_addr r) (m_n_sessions r) (m_multi_state r) (m_n_hard_errors r)
    (m_n_soft_errors r) (m_tas_last r) (m_peer_info r) (m_auth_token_initial r) (m_peer_id r) (m_use_peer_id r)
    (m_session r).

Definition set_session (m : tls_multi) (i : session_index) (s : tls_session) : tls_multi :=
  m <| m_session := fun j => if decide (j = i) then s else m_session m j |>.

(** ** Views *)

(** The reliability layer of the primary key state, as [ReliableProto] has it. *)
Definition rel_view (o : tls_options) (s : tls_session) : ReliableProto.key_state :=
  let k := ses_primary s in
  ReliableProto.mkks (k_send_reliable k) (k_rec_reliable k) (k_rec_ack k) (k_ack_write_buf k) (k_key_id k)
    (ses_session_id s) (k_session_id_remote k) (ses_burst s) (op_server o) (FRAME_HEADROOM (op_frame o)).

(** What the data channel sees of a key state, and its changes to it. *)
Definition data_view (k : key_state) : DataChannel.key_state :=
  DataChannel.mkdks (k_state k) (k_key_id k) (k_remote_addr k) (k_crypto_options k) (k_n_bytes k) (k_n_packets k)
    (k_authenticated k) (k_auth_deferred_expire k).
Definition data_put (k : key_state) (d : DataChannel.key_state) : key_state :=
  k <| k_state := DataChannel.ks_state d |> <| k_key_id := DataChannel.ks_key_id d |>
    <| k_remote_addr := DataChannel.ks_remote_addr d |> <| k_crypto_options := DataChannel.ks_crypto_options d |>
    <| k_n_bytes := DataChannel.ks_n_bytes d |> <| k_n_packets := DataChannel.ks_n_packets d |>
    <| k_authenticated := DataChannel.ks_authenticated d |> <| k_auth_deferred_expire := DataChannel.ks_auth_deferred_expire d |>.

(** What the key exchange sees of the primary key state, and its changes to it, to
    the options and to [multi->peer_info]. *)
Definition kx_view (o : tls_options) (peer_info : option (list Z)) (s : tls_session) : kx_session :=
  let k := ses_primary s in
  mkkx (op_server o) (op_mode_server o) (op_pull o) (k_key_id k) (ses_session_id s) (k_session_id_remote k)
    (op_key_type o) (op_crypto_flags o) (op_renegotiate_bytes o) (k_key_src k) (k_authenticated k)
    (k_crypto_options k) (op_local_options o) (ses_verified s) peer_info.
Definition kx_put (s : tls_session) (x : kx_session) : tls_session :=
  s <| ses_primary := (ses_primary s) <| k_key_src := kx_key_src x |> <| k_authenticated := kx_authenticated x |>
                        <| k_crypto_options := kx_crypto_options x |> |>.
Definition kx_put_opt (o : tls_options) (x : kx_session) : tls_options :=
  o <| op_renegotiate_bytes := kx_renegotiate_bytes x |>.

(** [multi->key_scan]: the three key states that carry data. *)
Definition key_scan (m : tls_multi) : list key_state :=
  [ses_primary (m_session m TM_ACTIVE); ses_lame (m_session m TM_ACTIVE); ses_lame (m_session m TM_LAME_DUCK)].
Definition put_key_scan (m : tls_multi) (ks : list key_state) : tls_multi :=
  match ks with
  | [k0; k1; k2] =>
      let m := set_session m TM_ACTIVE ((m_session m TM_ACTIVE) <| ses_primary := k0 |> <| ses_lame := k1 |>) in
      set_session m TM_LAME_DUCK ((m_session m TM_LAME_DUCK) <| ses_lame := k2 |>)
  | _ => m
  end.

Definition data_multi (m : tls_multi) : DataChannel.tls_multi :=
  DataChannel.mktm (op_server (m_opt m)) (map data_view (key_scan m)) (m_save_ks m) (m_multi_state m) (m_n_soft_errors m)
    (m_peer_id m) (m_use_peer_id m).
Definition data_multi_put (m : tls_multi) (d : DataChannel.tls_multi) : tls_multi :=
  put_key_scan (m <| m_save_ks := tm_save_ks d |> <| m_n_soft_errors := tm_n_soft_errors d |>)
    (zip_with data_put (key_scan m) (tm_key_scan d)).

Definition DECRYPT_KEY_ENABLED (m : tls_multi) (k : key_state) : bool :=
  S_GOT_KEY - (if op_server (m_opt m) then 1 else 0) <=? k_state k.

(** ** Creation and disposal *)

Definition free_key_ctx (ctx : key_ctx) : key_ctx :=
  ctx <| kc_cipher := None |> <| kc_hmac := None |> <| kc_implicit_iv_len := 0 |>.
Definition free_key_ctx_bi (ctx : key_ctx_bi) : key_ctx_bi :=
  ctx <| kb_encrypt := free_key_ctx (kb_encrypt ctx) |> <| kb_decrypt := free_key_ctx (kb_decrypt ctx) |>.

(** Answers the session, whose [initial_opcode] and [key_id] move on, and the key
    state. *)
Definition key_state_init (w : world) (o : tls_options) (s : tls_session) : option (world * tls_session * key_state) :=
  let w := tick w in
  let key_id := ses_key_id s in
  let next := Z.land (key_id + 1) P_KEY_ID_MASK in
  let s' := s <| ses_initial_opcode := P_CONTROL_SOFT_RESET_V1 |> <| ses_key_id := if next =? 0 then 1 else next |> in
  rbuf ← alloc_buf TLS_CHANNEL_BUF_SIZE;
  wbuf ← alloc_buf TLS_CHANNEL_BUF_SIZE;
  abuf ← alloc_buf (BUF_SIZE (op_frame o));
  send ← reliable_init (BUF_SIZE (op_frame o)) (FRAME_HEADROOM (op_frame o)) TLS_RELIABLE_N_SEND_BUFFERS
           (if negb (key_id =? 0) then false else op_xmit_hold o);
  rec ← reliable_init (BUF_SIZE (op_frame o)) (FRAME_HEADROOM (op_frame o)) TLS_RELIABLE_N_REC_BUFFERS false;
  pid ← (if op_replay o then packet_id_init (op_replay_window o) (op_replay_time o) (bytes_of "SSL"%string) key_id
         else Some packet_id_zero);
  Some (w, s',
        key_state_zero <| k_ssl := Some (SSL_new (op_server o)) |> <| k_initial_opcode := ses_initial_opcode s |>
          <| k_state := S_INITIAL |> <| k_key_id := key_id |>
          <| k_plaintext_read_buf := rbuf |> <| k_plaintext_write_buf := wbuf |> <| k_ack_write_buf := abuf |>
          <| k_send_reliable := reliable_set_timeout send (op_packet_timeout o) |> <| k_rec_reliable := rec |>
          <| k_crypto_options := crypto_options_zero <| o_packet_id := pid |> |>).

Definition key_state_free (k : key_state) (clear : bool) : key_state :=
  if clear then key_state_zero
  else k <| k_state := S_UNDEF |>
         <| k_crypto_options := (k_crypto_options k)
              <| o_key_ctx_bi := free_key_ctx_bi (o_key_ctx_bi (k_crypto_options k)) |>
              <| o_packet_id := packet_id_free (o_packet_id (k_crypto_options k)) |> |>
         <| k_plaintext_read_buf := free_buf (k_plaintext_read_buf k) |>
         <| k_plaintext_write_buf := free_buf (k_plaintext_write_buf k) |>
         <| k_ack_write_buf := free_buf (k_ack_write_buf k) |>
         <| k_paybuf := [] |>
         <| k_send_reliable := reliable_free (k_send_reliable k) |>
         <| k_rec_reliable := reliable_free (k_rec_reliable k) |>.

(** [prng n len] is the [n]-th draw; a session id of zeros is drawn again, [tries]
    times at most here. *)
Fixpoint session_id_random (prng : nat -> Z -> list Z) (tries : nat) (w : world) : option (list Z * world) :=
  match tries with
  | O => None
  | S tries =>
      let sid := prng (w_draws w) SID_SIZE in
      let w := drawn w in
      if session_id_defined sid then Some (sid, w) else session_id_random prng tries w
  end.

Definition first_opcode (o : tls_options) : Z :=
  if op_server o then P_CONTROL_HARD_RESET_SERVER_V2
  else if op_tls_crypt_v2 o then P_CONTROL_HARD_RESET_CLIENT_V3 else P_CONTROL_HARD_RESET_CLIENT_V2.

Definition tls_session_init (prng : nat -> Z -> list Z) (tries : nat) (w : world) (o : tls_options)
  : option (world * tls_session) :=
  '(sid, w) ← session_id_random prng tries w;
  work ← alloc_buf (BUF_SIZE (op_frame o));
  let wrap := op_tls_wrap o in
  pid ← packet_id_init (op_replay_window o) (op_replay_time o) (bytes_of "TLS_WRAP"%string) 0;
  let pid := packet_id_persist_load_obj (o_pid_persist (tw_opt wrap)) pid in
  let s := tls_session_zero <| ses_session_id := sid |> <| ses_initial_opcode := first_opcode o |>
             <| ses_tls_wrap := wrap <| tw_work := work |> <| tw_opt := (tw_opt wrap) <| o_packet_id := pid |> |> |> in
  '(w, s, k) ← key_state_init w o s;
  Some (w, s <| ses_primary := k |>).

Definition tls_wrap_free (c : tls_wrap_ctx) : tls_wrap_ctx :=
  let opt := if packet_id_initialized (o_packet_id (tw_opt c))
             then (tw_opt c) <| o_packet_id := packet_id_free (o_packet_id (tw_opt c)) |> else tw_opt c in
  let opt := if tw_cleanup_key_ctx c then opt <| o_key_ctx_bi := free_key_ctx_bi (o_key_ctx_bi opt) |> else opt in
  c <| tw_opt := opt |> <| tw_metadata := free_buf (tw_metadata c) |> <| tw_work := free_buf (tw_work c) |>.

Definition tls_session_free (s : tls_session) (clear : bool) : tls_session :=
  if clear then tls_session_zero
  else s <| ses_tls_wrap := tls_wrap_free (ses_tls_wrap s) |>
         <| ses_primary := key_state_free (ses_primary s) false |> <| ses_lame := key_state_free (ses_lame s) false |>.

(** ** Replacement *)

Definition move_session (prng : nat -> Z -> list Z) (tries : nat) (w : world) (m : tls_multi) (dest src : session_index)
    (reinit_src : bool) : option (world * tls_multi) :=
  ASSERT negb (bool_decide (src = dest)) ;;
  let m := set_session m dest (tls_session_free (m_session m dest) false) in
  let m := set_session m dest (m_session m src) in
  if reinit_src then
    '(w, s) ← tls_session_init prng tries w (m_opt m);
    Some (w, set_session m src s)
  else Some (w, set_session m src tls_session_zero).

Definition reset_session (prng : nat -> Z -> list Z) (tries : nat) (w : world) (m : tls_multi) (i : session_index)
  : option (world * tls_multi) :=
  let m := set_session m i (tls_session_free (m_session m i) false) in
  '(w, s) ← tls_session_init prng tries w (m_opt m);
  Some (w, set_session m i s).

Definition compute_earliest_wakeup (earliest seconds_from_now : Z) : Z :=
  let earliest := if i32 seconds_from_now <? earliest then i32 seconds_from_now else earliest in
  if earliest <? 0 then 0 else earliest.

(** Whether the retiring key has expired, and the wake-up time. *)
Definition lame_duck_must_die (now : Z) (s : tls_session) (wakeup : Z) : option (bool * Z) :=
  let lame := ses_lame s in
  if S_INITIAL <=? k_state lame then
    ASSERT negb (k_must_die lame =? 0) ;;
    if now <? k_must_die lame then Some (false, compute_earliest_wakeup wakeup (k_must_die lame - now))
    else Some (true, wakeup)
  else if k_state lame =? S_ERROR then Some (true, wakeup)
  else Some (false, wakeup).

Definition key_state_soft_reset (w : world) (o : tls_options) (s : tls_session) : option (world * tls_session) :=
  let ks := (ses_primary s) <| k_must_die := w_now w + op_transition_window o |> in
  let s := s <| ses_lame := key_state_free (ses_lame s) false |> in
  let s := s <| ses_lame := ks |> in
  '(w, s, k) ← key_state_init w o s;
  Some (w, s <| ses_primary := k <| k_session_id_remote := k_session_id_remote ks |>
                               <| k_remote_addr := k_remote_addr ks |> |>).

Definition tls_multi_init (o : tls_options) : tls_multi :=
  mkmulti o None osa_zero 0 CAS_SUCCEEDED 0 0 0 None false 0 false (fun _ => tls_session_zero).

Definition tls_adjust_frame_parameters (f : frame) : frame := frame_add_to_extra_frame f 1.
Definition reliable_ack_adjust_frame_parameters (f : frame) (max : Z) : frame := frame_add_to_extra_frame f (ACK_SIZE max).

(** The dynamic MTU of the control channel is at most 1250. *)
Definition tls_init_control_channel_frame_parameters (data_channel_frame f : frame) : option frame :=
  let f := f <| link_mtu := link_mtu data_channel_frame |> <| extra_link := extra_link data_channel_frame |> in
  let f := tls_adjust_frame_parameters f in
  let f := reliable_ack_adjust_frame_parameters f CONTROL_SEND_ACK_MAX in
  let f := frame_add_to_extra_frame f (SID_SIZE + 4) in
  ASSERT TUN_LINK_DELTA f <? Z.min (link_mtu f) 1250 ;;
  Some (f <| link_mtu_dynamic := Z.min (link_mtu f) 1250 - TUN_LINK_DELTA f |>).

Definition tls_multi_init_finalize (prng : nat -> Z -> list Z) (tries : nat) (w : world) (m : tls_multi) (f : frame)
  : option (world * tls_multi) :=
  cf ← tls_init_control_channel_frame_parameters f (op_frame (m_opt m));
  let m := m <| m_opt := (m_opt m) <| op_frame := cf |> |> in
  '(w, s) ← tls_session_init prng tries w (m_opt m);
  let m := set_session m TM_ACTIVE s in
  if negb (op_single_session (m_opt m)) then
    '(w, s) ← tls_session_init prng tries w (m_opt m);
    Some (w, set_session m TM_UNTRUSTED s)
  else Some (w, m).

Definition tls_deauthenticate (m : tls_multi) : tls_multi :=
  m <| m_session := fun i => (m_session m i) <| ses_primary := (ses_primary (m_session m i)) <| k_authenticated := KS_AUTH_FALSE |> |>
                                             <| ses_lame := (ses_lame (m_session m i)) <| k_authenticated := KS_AUTH_FALSE |> |> |>.

(** Every key state with a remote address takes the new one. *)
Definition update_addr (addr : openvpn_sockaddr) (k : key_state) : option key_state :=
  if negb (link_socket_actual_defined (k_remote_addr k)) then Some k
  else same ← link_socket_actual_match addr (k_remote_addr k);
       Some (if same : bool then k else k <| k_remote_addr := addr |>).
Definition update_session_addr (m : tls_multi) (addr : openvpn_sockaddr) (i : session_index) : option tls_multi :=
  p ← update_addr addr (ses_primary (m_session m i));
  l ← update_addr addr (ses_lame (m_session m i));
  Some (set_session m i ((m_session m i) <| ses_primary := p |> <| ses_lame := l |>)).
Definition tls_update_remote_addr (m : tls_multi) (addr : openvpn_sockaddr) : option tls_multi :=
  m ← update_session_addr m addr TM_ACTIVE;
  m ← update_session_addr m addr TM_UNTRUSTED;
  update_session_addr m addr TM_LAME_DUCK.

End State.
