(* ===== verification/TlsProcess.v ===== *)
(** The TLS state machine at work ([src/openvpn/ssl.c]): [tls_process] drives the
    primary key state of a session from the first packet to [S_ACTIVE], with soft
    resets and retiring keys; [tls_multi_process] drives the three sessions of a
    peer; [tls_pre_decrypt] sorts the packets of the peer into them. *)
From stdpp Require Import list.
From S2P Require Import Prelude Integer Buffer PacketId Reliable ReliableProto Mtu Crypto DataChannel KeyExchange TlsCrypt ControlWrap TlsState.

(** ** Constants *)

Definition TLS_MULTI_AUTH_STATUS_INTERVAL : Z := 10.
Definition P_CONTROL_HARD_RESET_CLIENT_V1 : Z := 1.
Definition P_CONTROL_HARD_RESET_SERVER_V1 : Z := 2.
Inductive tls_authentication := TLS_AUTHENTICATION_SUCCEEDED | TLS_AUTHENTICATION_FAILED
  | TLS_AUTHENTICATION_DEFERRED | TLS_AUTHENTICATION_UNDEFINED.
#[export] Instance tls_authentication_eq_dec : EqDecision tls_authentication.
Proof. solve_decision. Defined.
Inductive tlsmp := TLSMP_INACTIVE | TLSMP_ACTIVE | TLSMP_KILL.

(** Results of a deferred authentication. *)
Inductive acf := ACF_UNDEFINED | ACF_SUCCEEDED | ACF_DISABLED | ACF_FAILED.

(** What random number generators, users, scripts, plug-ins and the management
    interface answer: generators and verdicts by the number of draws made before,
    deferred authentication by time and place in the scan list (control file and
    management interface), the token message of [send_push_reply_auth_token]. *)
Record outside := mkoutside {
  out_prng : nat -> Z -> list Z;
  out_rand : nat -> Z -> option (list Z);
  out_sid_tries : nat;
  out_user_pass : option (list Z * list Z);
  out_peer_info : option (list Z);
  out_verdicts : nat -> kx_verdicts;
  out_acf : Z -> nat -> acf * acf;
  out_token : list Z;
  out_script : option (Z -> list Z -> bool)
}.

Section Process.
Context `{EvpKeyLib} `{TlsLib}.
Context (env : outside).

(** ** One session *)

(** What [tls_process] works on: options and peer information of the [tls_multi],
    the session, clock and randomness, [state_change], [*to_link],
    [*to_link_addr], [active], [*wakeup], and the socket's addresses. *)
Record tp := mktp {
  p_opt : tls_options;
  p_peer_info : option (list Z);
  p_ses : tls_session;
  p_world : world;
  p_change : bool;
  p_link : buffer;
  p_addr : option openvpn_sockaddr;
  p_active : bool;
  p_wakeup : Z;
  p_info : link_socket_info
}.
#[export] Instance eta_tp : EtaOf tp := fun r =>
  mktp (p_opt r) (p_peer_info r) (p_ses r) (p_world r) (p_change r) (p_link r) (p_addr r) (p_active r) (p_wakeup r) (p_info r).

Definition prim (p : tp) : key_state := ses_primary (p_ses p).
Definition set_prim (p : tp) (k : key_state) : tp := p <| p_ses := (p_ses p) <| ses_primary := k |> |>.
Definition p_now (p : tp) : Z := w_now (p_world p).
Definition changed (p : tp) : tp := p <| p_change := true |>.
Definition clocked (p : tp) : tp := p <| p_world := tick (p_world p) |>.

(** How a part of the loop ends: it goes on, jumps to [error], or leaves the loop
    with a packet; [Spin] marks a loop that used up the turns it was given. *)
Inductive outcome := Go (p : tp) | Fail (p : tp) | Sent (p : tp) | Spin.
Definition andthen (x : option outcome) (f : tp -> option outcome) : option outcome :=
  match x with Some (Go p) => f p | _ => x end.

Definition full_sync (k : key_state) : bool := reliable_empty (k_send_reliable k) && reliable_ack_empty (k_rec_ack k).

Definition auth_deferred_expire_window (o : tls_options) : Z :=
  let r2 := Z.quot (op_renegotiate_seconds o) 2 in
  if negb (op_renegotiate_seconds o =? 0) && (r2 <? op_handshake_window o) then r2 else op_handshake_window o.

(** The certificate callback runs inside the library's calls. *)
Definition sync_verified (s : tls_session) : tls_session :=
  match k_ssl (ses_primary s) with
  | Some ssl => s <| ses_verified := default (ses_verified s) (SSL_verified ssl) |>
  | None => s
  end.

(** [write_control_auth] for the session; the block of [buf] holds what was written
    into its head room, while --tls-crypt sends the work buffer instead. *)
Definition session_write (p : tp) (buf : buffer) (opcode max_ack : Z) (prepend_ack : bool) : option (tp * buffer * buffer) :=
  let s := p_ses p in
  let k := prim p in
  '(sent, ks, twc, b) ← write_control_auth (p_now p) (out_prng env (w_draws (p_world p))) (rel_view (p_opt p) s)
                          (ses_tls_wrap s) buf opcode max_ack prepend_ack;
  '(_, _, acked) ← reliable_ack_write (k_rec_ack k) buf (k_session_id_remote k) max_ack prepend_ack;
  let block := if bool_decide (tw_mode (ses_tls_wrap s) = TLS_WRAP_CRYPT) then acked else b in
  let p := set_prim p (k <| k_rec_ack := ReliableProto.rec_ack ks |>) in
  let p := p <| p_ses := (p_ses p) <| ses_tls_wrap := twc |> |> <| p_world := drawn (p_world p) |> in
  Some (p <| p_addr := if sent : bool then Some (k_remote_addr k) else p_addr p |>, b, block).

Definition do_initial (p : tp) : option outcome :=
  let k := prim p in
  if k_state k =? S_INITIAL then
    '(got, send) ← reliable_get_buf_output_sequenced (k_send_reliable k);
    let k := k <| k_send_reliable := send |> in
    match got with
    | Some i =>
        send ← reliable_mark_active_outgoing send i (k_initial_opcode k);
        Some (Go (changed (set_prim p
          (k <| k_must_negotiate := p_now p + op_handshake_window (p_opt p) |>
             <| k_auth_deferred_expire := p_now p + auth_deferred_expire_window (p_opt p) |>
             <| k_send_reliable := send |> <| k_state := S_PRE_START |>))))
    | None => Some (Go (set_prim p k))
    end
  else Some (Go p).

Definition do_timeout (p : tp) : option outcome :=
  if (k_must_negotiate (prim p) <=? p_now p) && (k_state (prim p) <? S_ACTIVE) then Some (Fail p) else Some (Go p).

(** The reload of the revocation list and of the environment is left out. *)
Definition do_start (p : tp) : option outcome :=
  if (k_state (prim p) =? S_PRE_START) && full_sync (prim p)
  then Some (Go (changed (set_prim p ((prim p) <| k_state := S_START |>))))
  else Some (Go p).

Fixpoint flush_payload_buffer (ssl : SSL) (paybuf : list (list Z)) : SSL :=
  match paybuf with
  | [] => ssl
  | b :: rest => flush_payload_buffer (snd (key_state_write_plaintext_const ssl b)) rest
  end.

Definition do_active (p : tp) : option outcome :=
  let k := prim p in
  if ((k_state k =? S_GOT_KEY) && negb (op_server (p_opt p))) || ((k_state k =? S_SENT_KEY) && op_server (p_opt p)) then
    if full_sync k then
      info ← link_socket_set_outgoing_addr (p_info p) (k_remote_addr k);
      ssl ← (match k_paybuf k, k_ssl k with
             | [], ssl => Some ssl
             | l, Some ssl => Some (Some (flush_payload_buffer ssl l))
             | _, None => None
             end);
      Some (Go (changed ((set_prim p
        (k <| k_established := p_now p |> <| k_state := S_ACTIVE |> <| k_must_negotiate := 0 |>
           <| k_ssl := ssl |> <| k_paybuf := [] |>)) <| p_info := info |>)))
    else Some (Go p)
  else Some (Go p).

Definition do_transmit (p : tp) : option outcome :=
  let k := prim p in
  if (b_len (p_link p) =? 0) && reliable_can_send (p_now p) (k_send_reliable k) then
    let '(best, send) := reliable_send (p_now p) (k_send_reliable k) in
    '(i, opcode) ← best;
    e ← rel_array send !! i;
    let p := set_prim p (k <| k_send_reliable := send |>) in
    '(p, b, block) ← session_write p (e_buf e) opcode CONTROL_SEND_ACK_MAX true;
    let p := set_prim p ((prim p) <| k_send_reliable :=
               set_entry send i (fun e => e <| e_buf := share_block (e_buf e) block |>) |>) in
    Some (Sent (p <| p_link := b |> <| p_active := true |> <| p_change := true |>))
  else Some (Go p).

Definition do_feed (p : tp) : option outcome :=
  let k := prim p in
  match reliable_get_buf_sequenced (k_rec_reliable k) with
  | None => Some (Go p)
  | Some i =>
      e ← rel_array (k_rec_reliable k) !! i;
      '(status, p) ←
        (if negb (b_len (e_buf e) =? 0) then
           ssl ← k_ssl k;
           '(status, ssl, b) ← key_state_write_ciphertext ssl (e_buf e);
           let p := set_prim p (k <| k_ssl := Some ssl |>
                      <| k_rec_reliable := set_entry (k_rec_reliable k) i (fun e => e <| e_buf := b |>) |>) in
           Some (status, p <| p_ses := sync_verified (p_ses p) |>)
         else Some (1, p));
      if status =? -1 then Some (Fail p)
      else if status =? 1 then
        rec ← reliable_mark_deleted (k_rec_reliable (prim p)) i true;
        Some (Go (changed (set_prim p ((prim p) <| k_rec_reliable := rec |>))))
      else Some (Go p)
  end.

Definition do_read_plain (p : tp) : option outcome :=
  let k := prim p in
  if b_len (k_plaintext_read_buf k) =? 0 then
    let '(ok, buf) := buf_init_dowork (k_plaintext_read_buf k) 0 in
    ASSERT ok ;;
    ssl ← k_ssl k;
    '(status, ssl, buf) ← key_state_read_plaintext ssl buf TLS_CHANNEL_BUF_SIZE;
    let p := set_prim p (k <| k_ssl := Some ssl |> <| k_plaintext_read_buf := buf |>) in
    let p := clocked (p <| p_ses := sync_verified (p_ses p) |>) in
    if status =? -1 then Some (Fail p)
    else if status =? 1 then Some (Go ((changed p) <| p_wakeup := 0 |>))
    else Some (Go p)
  else Some (Go p).

Definition do_send_key (succeeded : bool) (p : tp) : option outcome :=
  let k := prim p in
  if (b_len (k_plaintext_write_buf k) =? 0)
     && (((k_state k =? S_START) && negb (op_server (p_opt p))) || ((k_state k =? S_GOT_KEY) && op_server (p_opt p))) then
    let n := w_draws (p_world p) in
    '(ok, buf, x) ← key_method_2_write (fun j => out_rand env (n + j)) (k_plaintext_write_buf k) succeeded
                      (out_user_pass env) (out_peer_info env) (kx_view (p_opt p) (p_peer_info p) (p_ses p));
    let p := p <| p_ses := kx_put (p_ses p) x |> <| p_opt := kx_put_opt (p_opt p) x |>
               <| p_world := (p_world p) <| w_draws := (n + 3)%nat |> |> in
    let p := set_prim p ((prim p) <| k_plaintext_write_buf := buf |>) in
    if negb (ok : bool) then Some (Fail p)
    else Some (Go (changed (set_prim p ((prim p) <| k_state := S_SENT_KEY |>))))
  else Some (Go p).

Definition do_receive_key (p : tp) : option outcome :=
  let k := prim p in
  if negb (b_len (k_plaintext_read_buf k) =? 0)
     && (((k_state k =? S_SENT_KEY) && negb (op_server (p_opt p))) || ((k_state k =? S_START) && op_server (p_opt p))) then
    '(ok, buf, x) ← key_method_2_read (k_plaintext_read_buf k) (out_verdicts env (w_draws (p_world p)))
                      (kx_view (p_opt p) (p_peer_info p) (p_ses p));
    let p := p <| p_ses := kx_put (p_ses p) x |> <| p_opt := kx_put_opt (p_opt p) x |> <| p_peer_info := kx_peer_info x |> in
    let p := set_prim p ((prim p) <| k_plaintext_read_buf := buf |>) in
    if negb (ok : bool) then Some (Fail p)
    else Some (Go (changed (set_prim p ((prim p) <| k_state := S_GOT_KEY |>))))
  else Some (Go p).

Definition do_write_plain (p : tp) : option outcome :=
  let k := prim p in
  if negb (b_len (k_plaintext_write_buf k) =? 0) then
    ssl ← k_ssl k;
    '(status, ssl, buf) ← key_state_write_plaintext ssl (k_plaintext_write_buf k);
    let p := set_prim p (k <| k_ssl := Some ssl |> <| k_plaintext_write_buf := buf |>) in
    let p := p <| p_ses := sync_verified (p_ses p) |> in
    if status =? -1 then Some (Fail p)
    else if status =? 1 then Some (Go (changed p)) else Some (Go p)
  else Some (Go p).

Definition do_submit (p : tp) : option outcome :=
  let k := prim p in
  if S_START <=? k_state k then
    '(got, send) ← reliable_get_buf_output_sequenced (k_send_reliable k);
    match got with
    | Some i =>
        e ← rel_array send !! i;
        ssl ← k_ssl k;
        '(status, ssl, b) ← key_state_read_ciphertext ssl (e_buf e) (PAYLOAD_SIZE_DYNAMIC (op_frame (p_opt p)));
        let send := set_entry send i (fun e => e <| e_buf := b |>) in
        let p := set_prim p (k <| k_ssl := Some ssl |> <| k_send_reliable := send |>) in
        if status =? -1 then Some (Fail p)
        else if status =? 1 then
          send ← reliable_mark_active_outgoing send i P_CONTROL_V1;
          Some (Go (changed (set_prim p ((prim p) <| k_send_reliable := send |>))))
        else Some (Go p)
    | None => Some (Go (set_prim p (k <| k_send_reliable := send |>)))
    end
  else Some (Go p).

(** The body of the loop. *)
Definition tls_turn (succeeded : bool) (p : tp) : option outcome :=
  let x := Some (Go ((clocked p) <| p_change := false |>)) in
  let x := andthen x do_initial in
  let x := andthen x do_timeout in
  let x := andthen x do_start in
  let x := andthen x do_active in
  let x := andthen x do_transmit in
  let x := andthen x do_feed in
  let x := andthen x do_read_plain in
  let x := andthen x (do_send_key succeeded) in
  let x := andthen x do_receive_key in
  let x := andthen x do_write_plain in
  andthen x do_submit.

Fixpoint tls_loop (turns : nat) (succeeded : bool) (p : tp) : option outcome :=
  match turns with
  | O => Some Spin
  | S turns => andthen (tls_turn succeeded p) (fun p => if p_change p then tls_loop turns succeeded p else Some (Go p))
  end.

Definition renegotiate (now : Z) (o : tls_options) (k : key_state) : bool :=
  (S_ACTIVE <=? k_state k)
  && ((negb (op_renegotiate_seconds o =? 0) && (k_established k + op_renegotiate_seconds o <=? now))
      || ((0 <? op_renegotiate_bytes o) && (op_renegotiate_bytes o <=? k_n_bytes k))
      || (negb (op_renegotiate_packets o =? 0) && (u64 (op_renegotiate_packets o) <=? k_n_packets k))
      || packet_id_close_to_wrapping (pid_send (o_packet_id (k_crypto_options k)))).

(** "Should we trigger a soft reset?" *)
Definition tls_renew (p : tp) : option tp :=
  if renegotiate (p_now p) (p_opt p) (prim p) then
    '(w, s) ← key_state_soft_reset (p_world p) (p_opt p) (p_ses p);
    Some (p <| p_ses := s |> <| p_world := w |>)
  else Some p.

(** "Kill lame duck key transition_window seconds after primary key negotiation". *)
Definition tls_expire (p : tp) : option tp :=
  '(die, wakeup) ← lame_duck_must_die (p_now p) (p_ses p) (p_wakeup p);
  let p := p <| p_wakeup := wakeup |> in
  Some (if die : bool then p <| p_ses := (p_ses p) <| ses_lame := key_state_free (ses_lame (p_ses p)) true |> |> else p).

(** Before the loop. *)
Definition tls_prepare (p : tp) : option tp :=
  ASSERT negb (k_state (prim p) =? S_UNDEF) ;;
  ASSERT negb (k_state (prim p) =? S_ERROR) ;;
  ASSERT session_id_defined (ses_session_id (p_ses p)) ;;
  p ← tls_renew p;
  tls_expire p.

(** "Send 1 or more ACKs". *)
Definition tls_send_ack (p : tp) : option tp :=
  let k := prim p in
  if (b_len (p_link p) =? 0) && negb (reliable_ack_empty (k_rec_ack k)) then
    let '(ok, buf) := buf_init_dowork (k_ack_write_buf k) (FRAME_HEADROOM (op_frame (p_opt p))) in
    ASSERT ok ;;
    '(p, b, block) ← session_write p buf P_ACK_V1 RELIABLE_ACK_SIZE false;
    let p := set_prim p ((prim p) <| k_ack_write_buf := share_block (k_ack_write_buf k) block |>) in
    Some (p <| p_link := b |> <| p_active := true |>)
  else Some p.

(** "When should we wake up again?" *)
Definition tls_wakeup (p : tp) : tp :=
  let k := prim p in
  let now := p_now p in
  let w := p_wakeup p in
  let w := if S_INITIAL <=? k_state k then
             let w := compute_earliest_wakeup w (reliable_send_timeout now (k_send_reliable k)) in
             if negb (k_must_negotiate k =? 0) then compute_earliest_wakeup w (k_must_negotiate k - now) else w
           else w in
  let w := if negb (k_established k =? 0) && negb (op_renegotiate_seconds (p_opt p) =? 0)
           then compute_earliest_wakeup w (k_established k + op_renegotiate_seconds (p_opt p) - now) else w in
  if w <=? 0 then p <| p_wakeup := 1 |> <| p_active := true |> else p <| p_wakeup := w |>.

Definition tls_finish (p : tp) : option tp :=
  p ← tls_send_ack (clocked p);
  Some (tls_wakeup p).

Definition cleared (p : tp) : tp := p <| p_change := false |> <| p_active := false |>.

(** The function with a bound on the turns of its loop; the flag is its result. *)
Definition tls_process_within (turns : nat) (succeeded : bool) (p : tp) : option (bool * tp) :=
  p ← tls_prepare (cleared p);
  x ← tls_loop turns succeeded p;
  match x with
  | Go p | Sent p => p ← tls_finish p; Some (p_active p, p)
  | Fail p => Some (false, set_prim p ((prim p) <| k_state := S_ERROR |>))
  | Spin => None
  end.

(** Enough turns for the loop to end. *)
Definition TLS_TURNS : nat := 30.
Definition tls_process (succeeded : bool) (p : tp) : option (bool * tp) := tls_process_within TLS_TURNS succeeded p.

End Process.
