(* ===== verification/TlsToy.v ===== *)
(** A toy TLS library (a pair of queues that copies plaintext to ciphertext) and a
    peer's environment.  It is not part of the program; the examples of the TLS state
    machine run on it. *)
From stdpp Require Import list.
From S2P Require Import Prelude Integer Buffer PacketId Reliable ReliableProto Mtu Crypto CryptoToy DataChannel KeyExchange KeyDerive TlsCrypt ControlWrap TlsState TlsProcess.

(** What was written and not yet read: incoming and outgoing. *)
Record toy_ssl := mktoyssl { ty_ct_in : list Z; ty_ct_out : list Z }.

Definition toy_take (l : list Z) (n : Z) : bio_answer * list Z :=
  if zlen l =? 0 then (BioRetry, l) else (BioBytes (take (Z.to_nat n) l), drop (Z.to_nat n) l).

#[export] Instance toy_tls : TlsLib := {|
  SSL := toy_ssl;
  SSL_new := fun _ => mktoyssl [] [];
  BIO_write_plain := fun s l => (BioWrote (zlen l), mktoyssl (ty_ct_in s) (ty_ct_out s ++ l));
  BIO_write_cipher := fun s l => (BioWrote (zlen l), mktoyssl (ty_ct_in s ++ l) (ty_ct_out s));
  BIO_read_plain := fun s n => let '(a, l) := toy_take (ty_ct_in s) n in (a, mktoyssl l (ty_ct_out s));
  BIO_read_cipher := fun s n => let '(a, l) := toy_take (ty_ct_out s) n in (a, mktoyssl (ty_ct_in s) l);
  SSL_verified := fun _ => Some true
|}.

Definition toy_verdict : kx_verdicts :=
  mkkv false false (fun _ _ => KS_AUTH_FALSE) (fun a => a) (fun _ a => a) (fun a => a).

Definition toy_env : outside :=
  mkoutside (fun n len => replicate (Z.to_nat len) (u8 (Z.of_nat n + 1))) (toy_rand 10) 5 None None (fun _ => toy_verdict)
    (fun _ _ => (ACF_DISABLED, ACF_DISABLED)) [] None.

Definition toy_addr : openvpn_sockaddr := mkosa AF_INET 1194 16909060 (replicate 16 0).
Definition toy_control_frame : frame := mkframe 1500 1200 60 0 0 0 0 0.
Definition toy_options (server : bool) : tls_options :=
  mktlsopt server false server false true false 3600 60 2 0 0 3600 toy_kt 0 64 15 false tls_wrap_zero toy_control_frame [].
Definition toy_world : world := mkworld 1000 [] 0.
Definition toy_info : link_socket_info := mklsi toy_addr None false false false.

(** A fresh session that knows its peer's address. *)
Definition toy_session_new (server : bool) : tls_session :=
  match tls_session_init (out_prng toy_env) (out_sid_tries toy_env) toy_world (toy_options server) with
  | Some (_, s) => s <| ses_primary := (ses_primary s) <| k_remote_addr := toy_addr |> |>
  | None => tls_session_zero
  end.
Definition toy_tp (server : bool) : tp :=
  mktp (toy_options server) None (toy_session_new server) toy_world false clear_buf None false 100 toy_info.

(** The first call sends the opening packet; a later one finds no answer. *)
Definition toy_first : option (bool * tp) := tls_process toy_env true (toy_tp false).
Definition toy_sent : tp := match toy_first with Some (_, p) => p | None => toy_tp false end.
Definition toy_late : tp := toy_sent <| p_world := mkworld 1060 [1061; 1062; 1063] 9 |>.
