(* ===== verification/TlsLoop.v ===== *)
(** The loop of [tls_process]: what a part of it may touch, in which order a key
    state moves, and why the loop ends. *)
From stdpp Require Import list relations.
From S2P Require Import Prelude Integer Buffer PacketId Reliable ReliableProto Mtu Crypto DataChannel KeyExchange TlsCrypt ControlWrap TlsState TlsProcess.

(** ** Counting entries *)

Fixpoint count {A} (t : A -> bool) (l : list A) : nat :=
  match l with [] => 0 | x :: l => (if t x then 1 else 0) + count t l end.

Lemma count_length {A} (t : A -> bool) l : (count t l <= length l)%nat.
Proof. induction l as [|x l IH]; cbn; [lia|]. destruct (t x); lia. Qed.

Lemma count_alter {A} (t : A -> bool) f i l x : l !! i = Some x ->
  (count t (alter f i l) + (if t x then 1 else 0) = count t l + (if t (f x) then 1 else 0))%nat.
Proof.
  revert i; induction l as [|y l IH]; intros [|i] Hi; try done; cbn in *.
  - injection Hi as ->. destruct (t x), (t (f x)); lia.
  - specialize (IH _ Hi). destruct (t y); lia.
Qed.

Lemma count_alter_same {A} (t : A -> bool) f i l : (forall x, t (f x) = t x) -> count t (alter f i l) = count t l.
Proof. intros Hf. revert i; induction l as [|y l IH]; intros [|i]; cbn; try done; [by rewrite Hf|by rewrite IH]. Qed.

Definition waiting (rel : reliable) : nat := count e_active (entries rel).
Definition free_entries (rel : reliable) : nat := count (fun e => negb (e_active e)) (entries rel).

Lemma waiting_same rel i f : (forall e, e_active (f e) = e_active e) -> waiting (set_entry rel i f) = waiting rel.
Proof. intros Hf. unfold waiting. rewrite entries_set. by apply count_alter_same. Qed.
Lemma free_same rel i f : (forall e, e_active (f e) = e_active e) -> free_entries (set_entry rel i f) = free_entries rel.
Proof. intros Hf. unfold free_entries. rewrite entries_set. apply count_alter_same. intros. by rewrite Hf. Qed.

Lemma get_buf_free rel i rel' : reliable_get_buf rel = Some (Some i, rel') ->
  free_entries rel' = free_entries rel /\ exists e, entries rel' !! i = Some e /\ e_active e = false.
Proof.
  unfold reliable_get_buf. destruct (findi _ _) as [j|] eqn:F; [|done]. intros Hb. apply bind_Some in Hb as (e & He & Hb).
  destruct (buf_init_dowork _ _) as [ok b]. destruct ok; cbn [negb] in Hb; [|done]. injection Hb as <- <-.
  apply findi_Some in F as (e0 & H0 & Ha). split; [by apply free_same|]. rewrite entries_set, list_lookup_alter, decide_True by done. rewrite H0. cbn.
  eexists. split; [reflexivity|]. cbn. by apply negb_true_iff.
Qed.

Lemma get_buf_none rel rel' : reliable_get_buf rel = Some (None, rel') -> rel' = rel.
Proof.
  unfold reliable_get_buf. destruct (findi _ _) as [j|] eqn:F; [|by intros [= <-]]. intros Hb. apply bind_Some in Hb as (e & He & Hb).
  destruct (buf_init_dowork _ _) as [ok b]. by destruct ok.
Qed.

Lemma output_free rel i rel' : reliable_get_buf_output_sequenced rel = Some (Some i, rel') ->
  free_entries rel' = free_entries rel /\ exists e, entries rel' !! i = Some e /\ e_active e = false.
Proof. unfold reliable_get_buf_output_sequenced. intros. case_match; [case_match; [|done]|]; by apply get_buf_free. Qed.

Lemma output_none rel rel' : reliable_get_buf_output_sequenced rel = Some (None, rel') -> rel' = rel.
Proof. unfold reliable_get_buf_output_sequenced. intros H. case_match; [case_match; [|by injection H]|]; by apply get_buf_none. Qed.

Lemma mark_outgoing_free rel i op rel' e : entries rel !! i = Some e -> e_active e = false ->
  reliable_mark_active_outgoing rel i op = Some rel' -> (S (free_entries rel') = free_entries rel)%nat.
Proof.
  intros He Ha. unfold reliable_mark_active_outgoing. case_match; [|done]. intros Hb. apply bind_Some in Hb as (e0 & H0 & Hb).
  destruct (buf_write_prepend _ _) as [ok b]. destruct ok; cbn [negb] in Hb; [|done]. injection Hb as <-.
  unfold free_entries. rewrite entries_set. change (entries (rel <| rel_packet_id := _ |>)) with (entries rel).
  match goal with |- context [alter ?f i _] => pose proof (count_alter (fun e => negb (e_active e)) f i (entries rel) e He) as Hc end.
  cbn in Hc. rewrite ?Ha in Hc. cbn in Hc |- *. lia.
Qed.

Lemma mark_deleted_waiting rel i rel' e : entries rel !! i = Some e -> e_active e = true ->
  reliable_mark_deleted rel i true = Some rel' -> (S (waiting rel') = waiting rel)%nat.
Proof.
  intros He Ha. unfold reliable_mark_deleted. case_match; [|done]. intros Hb. apply bind_Some in Hb as (e0 & H0 & Hb). injection Hb as <-.
  assert (Hent : forall r v, entries (r <| rel_packet_id := v |>) = entries r) by done.
  unfold waiting. rewrite Hent.
  rewrite entries_set.
  match goal with |- context [alter ?f i _] => pose proof (count_alter e_active f i (entries rel) e He) as Hc end.
  cbn in Hc. rewrite ?Ha in Hc. cbn in Hc |- *. lia.
Qed.

Lemma sequenced_active rel i : reliable_get_buf_sequenced rel = Some i -> exists e, entries rel !! i = Some e /\ e_active e = true.
Proof. intros H. apply findi_Some in H as (e & He & Ht). apply andb_true_iff in Ht as [Ht _]. by exists e. Qed.

(** ** The order of the states *)

(** The states a key state goes through; a server reads the other half first. *)
Inductive edge (server : bool) : Z -> Z -> Prop :=
| edge_initial : edge server S_INITIAL S_PRE_START
| edge_start : edge server S_PRE_START S_START
| edge_first : edge server S_START (if server then S_GOT_KEY else S_SENT_KEY)
| edge_second : edge server (if server then S_GOT_KEY else S_SENT_KEY) (if server then S_SENT_KEY else S_GOT_KEY)
| edge_active : edge server (if server then S_SENT_KEY else S_GOT_KEY) S_ACTIVE.

Definition rank (server : bool) (st : Z) : Z :=
  if st =? S_SENT_KEY then (if server then 5 else 4) else if st =? S_GOT_KEY then (if server then 4 else 5) else st.

Lemma edge_rank server s s' : edge server s s' -> rank server s' = rank server s + 1 /\ 1 <= rank server s <= 5.
Proof. destruct 1, server; vm_compute; repeat split; discriminate. Qed.

Lemma edges_rank server s s' : rtc (edge server) s s' -> s' = s \/ rank server s < rank server s' /\ 1 <= rank server s /\ rank server s' <= 6.
Proof.
  induction 1 as [|s s1 s' He _ IH]; [by left|]. right. apply edge_rank in He. destruct IH as [->|(? & ? & ?)]; lia.
Qed.

Lemma edges_initial server s : rtc (edge server) s S_INITIAL -> s = S_INITIAL.
Proof. intros H. apply edges_rank in H as [H|(H & ? & _)]; [done|]. change (rank server S_INITIAL) with 1 in H. lia. Qed.

Lemma edges_active server s : rtc (edge server) S_ACTIVE s -> s = S_ACTIVE.
Proof. intros H. apply edges_rank in H as [H|(H & ? & ?)]; [done|]. change (rank server S_ACTIVE) with 6 in H. lia. Qed.

Section Loop.
Context `{EvpKeyLib} `{TlsLib}.
Context (env : outside).
#[local] Arguments key_method_2_write : simpl never.
#[local] Arguments key_method_2_read : simpl never.
#[local] Arguments buf_init_dowork : simpl never.
#[local] Arguments write_control_auth : simpl never.

(** ** What the loop leaves alone *)

Definition same_opt (o o' : tls_options) : Prop := o' = o <| op_renegotiate_bytes := op_renegotiate_bytes o' |>.

Record same_ses (s s' : tls_session) : Prop := mksame {
  ss_lame : ses_lame s' = ses_lame s;
  ss_sid : ses_session_id s' = ses_session_id s;
  ss_key_id : ses_key_id s' = ses_key_id s;
  ss_burst : ses_burst s' = ses_burst s;
  ss_opcode : ses_initial_opcode s' = ses_initial_opcode s;
  ss_addr : ses_untrusted_addr s' = ses_untrusted_addr s;
  ss_kid : k_key_id (ses_primary s') = k_key_id (ses_primary s);
  ss_remote : k_session_id_remote (ses_primary s') = k_session_id_remote (ses_primary s);
  ss_remote_addr : k_remote_addr (ses_primary s') = k_remote_addr (ses_primary s);
  ss_die : k_must_die (ses_primary s') = k_must_die (ses_primary s)
}.

(** No clock reading before [t]. *)
Definition not_before (t : Z) (w : world) : Prop := t <= w_now w /\ Forall (Z.le t) (w_clock w).

Lemma tick_not_before t w : not_before t w -> not_before t (tick w).
Proof. unfold not_before, tick. intros [Hn Hc]. destruct (w_clock w) as [|x l] eqn:E; [by rewrite E|]. by apply Forall_cons in Hc. Qed.

Record framed (p p' : tp) : Prop := mkframed {
  fr_opt : same_opt (p_opt p) (p_opt p');
  fr_ses : same_ses (p_ses p) (p_ses p');
  fr_edges : rtc (edge (op_server (p_opt p))) (k_state (prim p)) (k_state (prim p'));
  fr_deadline : k_must_negotiate (prim p') = k_must_negotiate (prim p) \/ k_state (prim p) = S_INITIAL \/ k_state (prim p') = S_ACTIVE;
  fr_clock : forall t, not_before t (p_world p) -> not_before t (p_world p')
}.

Lemma same_opt_server o o' : same_opt o o' -> op_server o' = op_server o.
Proof. by intros ->. Qed.
Lemma same_opt_trans o1 o2 o3 : same_opt o1 o2 -> same_opt o2 o3 -> same_opt o1 o3.
Proof. unfold same_opt. intros -> ->. by destruct o1. Qed.
Lemma same_opt_refl o : same_opt o o.
Proof. by destruct o. Qed.
Lemma same_ses_trans s1 s2 s3 : same_ses s1 s2 -> same_ses s2 s3 -> same_ses s1 s3.
Proof. intros [] []. constructor; congruence. Qed.

Lemma framed_trans p1 p2 p3 : framed p1 p2 -> framed p2 p3 -> framed p1 p3.
Proof.
  intros [O1 S1 E1 D1 C1] [O2 S2 E2 D2 C2]. rewrite (same_opt_server _ _ O1) in E2.
  constructor; [by eapply same_opt_trans|by eapply same_ses_trans|by etrans| |by auto].
  destruct D2 as [D2|[D2|D2]]; [|rewrite D2 in E1; apply edges_initial in E1; by auto|by auto].
  destruct D1 as [D1|[D1|D1]]; [left; congruence|by auto|]. rewrite D1 in E2. apply edges_active in E2. by auto.
Qed.

(** ** Why it ends *)

Definition b2n (b : bool) : nat := if b then 1 else 0.

(** What a turn can still use up: states to go through, packets to feed or to fill,
    and the two plaintext buffers. *)
Definition work_left (p : tp) : nat :=
  (3 * Z.to_nat (6 - rank (op_server (p_opt p)) (k_state (prim p)))
   + waiting (k_rec_reliable (prim p)) + free_entries (k_send_reliable (prim p))
   + b2n (b_len (k_plaintext_read_buf (prim p)) =? 0)%Z
   + b2n (negb (b_len (k_plaintext_write_buf (prim p)) =? 0)%Z))%nat.

Definition progress (p p' : tp) : Prop :=
  (p_change p' = true /\ (work_left p' < work_left p)%nat) \/ (p_change p' = p_change p /\ (work_left p' <= work_left p)%nat).

Lemma progress_trans p1 p2 p3 : progress p1 p2 -> progress p2 p3 -> progress p1 p3.
Proof. unfold progress. intros [[C1 ?]|[C1 ?]] [[C2 ?]|[C2 ?]]; rewrite ?C1 in *; first [by (left; split; [congruence|lia])|by (right; split; [congruence|lia])]. Qed.

(** A part of the loop. *)
Definition good_block (f : tp -> option outcome) : Prop := forall p x, f p = Some x ->
  match x with
  | Go p' => framed p p' /\ progress p p'
  | Sent p' | Fail p' => framed p p'
  | Spin => False
  end.

Lemma good_andthen f g : good_block f -> good_block g -> good_block (fun p => andthen (f p) g).
Proof.
  intros Hf Hg p x. unfold andthen. destruct (f p) as [[p1|p1|p1|]|] eqn:E; try done; intros Hx.
  - apply Hf in E as [F1 P1]. apply Hg in Hx. destruct x; try done; [destruct Hx; split; [by eapply framed_trans|by eapply progress_trans]|by eapply framed_trans..].
  - injection Hx as <-. by apply Hf in E.
  - injection Hx as <-. by apply Hf in E.
  - by apply Hf in E.
Qed.

Lemma framed_refl p : framed p p.
Proof. constructor; [apply same_opt_refl|by constructor|done|by left|done]. Qed.
Lemma progress_refl p : progress p p.
Proof. right. split; [done|lia]. Qed.
#[local] Hint Resolve framed_refl progress_refl same_opt_refl : core.

(** A step that keeps the state of the key state. *)
Lemma framed_same p p' : same_opt (p_opt p) (p_opt p') -> same_ses (p_ses p) (p_ses p') -> k_state (prim p') = k_state (prim p) ->
  k_must_negotiate (prim p') = k_must_negotiate (prim p) -> (forall t, not_before t (p_world p) -> not_before t (p_world p')) -> framed p p'.
Proof. intros O S E D C. constructor; [done|done|by rewrite E|by left|done]. Qed.

(** A step along an edge. *)
Lemma work_edge p p' : op_server (p_opt p') = op_server (p_opt p) -> edge (op_server (p_opt p)) (k_state (prim p)) (k_state (prim p')) ->
  (waiting (k_rec_reliable (prim p')) <= waiting (k_rec_reliable (prim p)))%nat ->
  (free_entries (k_send_reliable (prim p')) <= free_entries (k_send_reliable (prim p)))%nat ->
  (b2n (b_len (k_plaintext_read_buf (prim p')) =? 0)%Z + b2n (negb (b_len (k_plaintext_write_buf (prim p')) =? 0)%Z)
   <= b2n (b_len (k_plaintext_read_buf (prim p)) =? 0)%Z + b2n (negb (b_len (k_plaintext_write_buf (prim p)) =? 0)%Z) + 2)%nat ->
  (work_left p' < work_left p)%nat.
Proof. intros Ho He Hw Hf Hb. apply edge_rank in He. unfold work_left. rewrite Ho. lia. Qed.

Lemma changed_edge p p' : op_server (p_opt p') = op_server (p_opt p) -> edge (op_server (p_opt p)) (k_state (prim p)) (k_state (prim p')) ->
  p_change p' = true -> k_rec_reliable (prim p') = k_rec_reliable (prim p) ->
  (free_entries (k_send_reliable (prim p')) <= free_entries (k_send_reliable (prim p)))%nat ->
  k_plaintext_read_buf (prim p') = k_plaintext_read_buf (prim p) \/ k_plaintext_write_buf (prim p') = k_plaintext_write_buf (prim p) ->
  progress p p'.
Proof.
  intros Ho He Hc Hr Hf Hb. left. split; [done|]. apply work_edge; try done; [by rewrite Hr|].
  assert (forall b, (b2n b <= 1)%nat) as Hx by (by intros []; cbn; lia).
  pose proof (Hx (b_len (k_plaintext_read_buf (prim p')) =? 0)). pose proof (Hx (negb (b_len (k_plaintext_write_buf (prim p')) =? 0))).
  destruct Hb as [-> | ->]; lia.
Qed.

#[local] Hint Resolve tick_not_before : core.

Lemma initial_block : good_block do_initial.
Proof.
  intros p x. unfold do_initial. destruct (Z.eqb_spec (k_state (prim p)) S_INITIAL) as [E|E]; [|by intros [= <-]].
  intros Hx. apply bind_Some in Hx as ([got send] & Hg & Hx). destruct got as [i|].
  - apply bind_Some in Hx as (send' & Hm & Hx). injection Hx as <-. apply output_free in Hg as (Hf & e & He & Ha).
    pose proof (mark_outgoing_free _ _ _ _ _ He Ha Hm) as Hf'.
    assert (edge (op_server (p_opt p)) (k_state (prim p)) S_PRE_START) by (rewrite E; constructor).
    split; [constructor; cbn; [done|by constructor|by apply rtc_once|by auto|done]|]. apply changed_edge; try done; [|by left]. cbn. unfold free_entries in *. cbn in *. lia.
  - injection Hx as <-. apply output_none in Hg as ->. split; [by apply framed_same|]. by right.
Qed.

Lemma timeout_block : good_block do_timeout.
Proof. intros p x. unfold do_timeout. by case_match; intros [= <-]. Qed.

Lemma start_block : good_block do_start.
Proof.
  intros p x. unfold do_start. destruct (_ && _) eqn:E; [|by intros [= <-]]. intros [= <-].
  apply andb_true_iff in E as [E _]. apply Z.eqb_eq in E.
  assert (edge (op_server (p_opt p)) (k_state (prim p)) S_START) by (rewrite E; constructor).
  split; [constructor; cbn; [done|by constructor|by apply rtc_once|by auto|done]|]. apply changed_edge; try done. by left.
Qed.

Lemma active_block : good_block do_active.
Proof.
  intros p x. unfold do_active. destruct (_ || _) eqn:E; [|by intros [= <-]]. case_match; [|by intros [= <-]].
  intros Hx. apply bind_Some in Hx as (info & _ & Hx). apply bind_Some in Hx as (ssl & _ & Hx). injection Hx as <-.
  assert (edge (op_server (p_opt p)) (k_state (prim p)) S_ACTIVE) as He.
  { pose proof (edge_active (op_server (p_opt p))). apply orb_true_iff in E as [E|E]; apply andb_true_iff in E as [E1 E2]; apply Z.eqb_eq in E1; rewrite E1;
    destruct (op_server (p_opt p)); try done. }
  split; [constructor; cbn; [done|by constructor|by apply rtc_once|by auto|done]|]. apply changed_edge; try done. by left.
Qed.

Lemma session_write_only p buf op max pre p' b block : session_write env p buf op max pre = Some (p', b, block) ->
  exists ack twc a, p' = (p <| p_ses := (p_ses p) <| ses_primary := (prim p) <| k_rec_ack := ack |> |> <| ses_tls_wrap := twc |> |>)
                        <| p_world := drawn (p_world p) |> <| p_addr := a |>.
Proof.
  unfold session_write. intros Hx. apply bind_Some in Hx as ([[[sent ks] twc] b1] & _ & Hx). apply bind_Some in Hx as ([[ok ack] acked] & _ & Hx).
  injection Hx as <- <- <-. do 3 eexists. reflexivity.
Qed.

Lemma transmit_block : good_block (do_transmit env).
Proof.
  intros p x. unfold do_transmit. case_match; [|by intros [= <-]]. destruct (reliable_send _ _) as [best send].
  intros Hx. apply bind_Some in Hx as ([i opcode] & -> & Hx). apply bind_Some in Hx as (e & _ & Hx).
  apply bind_Some in Hx as ([[p1 b] block] & Hw & Hx). injection Hx as <-. apply session_write_only in Hw as (ack & twc & a & ->).
  by apply framed_same.
Qed.

Lemma same_key_ses s k v : k_key_id k = k_key_id (ses_primary s) -> k_session_id_remote k = k_session_id_remote (ses_primary s) ->
  k_remote_addr k = k_remote_addr (ses_primary s) -> k_must_die k = k_must_die (ses_primary s) ->
  same_ses s (s <| ses_primary := k |> <| ses_verified := v |>).
Proof. by constructor. Qed.

Lemma sync_only s : sync_verified s = s <| ses_verified := ses_verified (sync_verified s) |>.
Proof. unfold sync_verified. case_match; by destruct s. Qed.

Lemma read_ssl_status rd ssl buf max st ssl' buf' : bio_read_ssl rd ssl buf max = Some (st, ssl', buf') -> st = 1 -> b_len buf' <> 0.
Proof.
  unfold bio_read_ssl. intros Hx ->. apply bind_Some in Hx as ([ret buf1] & Hr & Hx). injection Hx as -> _ <-.
  unfold bio_read in Hr. case_match; [done|]. case_match; [done|done|]. destruct (Z.eqb_spec (zlen bs) 0); [done|].
  apply bind_Some in Hr as (q & _ & Hr). injection Hr as <-. done.
Qed.

Lemma write_status ssl buf st ssl' buf' : key_state_write_plaintext ssl buf = Some (st, ssl', buf') ->
  (st = 1 -> b_len buf' = 0) /\ (st <> 1 -> buf' = buf).
Proof.
  unfold key_state_write_plaintext. destruct (bio_write _ _ _) as [ret ssl1]. intros Hx. apply bind_Some in Hx as (buf1 & Hp & Hx).
  injection Hx as -> _ <-. unfold bio_write_post in Hp. destruct (Z.eqb_spec st 1) as [->|Hn].
  - apply bind_Some in Hp as (q & _ & Hp). injection Hp as <-. split; [done|done].
  - injection Hp as <-. done.
Qed.

Lemma feed_block : good_block do_feed.
Proof.
  intros p x. unfold do_feed. destruct (reliable_get_buf_sequenced _) as [i|] eqn:Hs; [|by intros [= <-]].
  intros Hx. apply bind_Some in Hx as (e & He & Hx). apply bind_Some in Hx as ([status p1] & Hw & Hx).
  assert (exists ssl v rec, p1 = p <| p_ses := (p_ses p) <| ses_primary := (prim p) <| k_ssl := ssl |> <| k_rec_reliable := rec |> |> <| ses_verified := v |> |> /\
    waiting rec = waiting (k_rec_reliable (prim p)) /\ exists e', entries rec !! i = Some e' /\ e_active e' = true) as (ssl & v & rec & -> & Hwt & e' & He' & Ha').
  { apply sequenced_active in Hs as (e0 & He0 & Ha0). destruct (negb _).
    - apply bind_Some in Hw as (ssl & _ & Hw). apply bind_Some in Hw as ([[st ssl'] b] & _ & Hw). injection Hw as <- <-.
      cbn [p_ses set_prim upd]. rewrite sync_only. do 3 eexists. split; [reflexivity|]. split; [by apply waiting_same|].
      rewrite entries_set, list_lookup_alter, decide_True by done. rewrite He0. by eexists.
    - injection Hw as <- <-. exists (k_ssl (prim p)), (ses_verified (p_ses p)), (k_rec_reliable (prim p)). split; [by destruct p as [? ? []]; cbn; destruct ses_primary|].
      split; [done|]. by exists e0. }
  assert (framed p (p <| p_ses := (p_ses p) <| ses_primary := (prim p) <| k_ssl := ssl |> <| k_rec_reliable := rec |> |> <| ses_verified := v |> |>)) as HF
    by by apply framed_same.
  destruct (status =? -1); [by injection Hx as <-|]. destruct (status =? 1).
  - apply bind_Some in Hx as (rec' & Hd & Hx). injection Hx as <-. pose proof (mark_deleted_waiting _ _ _ _ He' Ha' Hd).
    split; [by apply framed_same|]. left. split; [done|]. unfold work_left. cbn in *. lia.
  - injection Hx as <-. split; [done|]. right. split; [done|]. unfold work_left. cbn. lia.
Qed.

Lemma read_plain_block : good_block do_read_plain.
Proof.
  intros p x. unfold do_read_plain. destruct (Z.eqb_spec (b_len (k_plaintext_read_buf (prim p))) 0) as [E|E]; [|by intros [= <-]].
  destruct (buf_init_dowork _ _) as [ok buf]. destruct ok; [|done]. intros Hx. apply bind_Some in Hx as (ssl & _ & Hx).
  apply bind_Some in Hx as ([[st ssl'] buf'] & Hr & Hx). cbn [p_ses set_prim upd] in Hx. rewrite sync_only in Hx.
  destruct (Z.eqb_spec st (-1)); [injection Hx as <-; by apply framed_same; cbn; auto|].
  destruct (Z.eqb_spec st 1) as [E1|E1]; injection Hx as <-; (split; [by apply framed_same; cbn; auto|]).
  - pose proof (read_ssl_status _ _ _ _ _ _ _ Hr E1) as Hn. left. split; [done|]. unfold work_left. cbn. rewrite E. apply Z.eqb_neq in Hn. rewrite Hn. cbn. lia.
  - right. split; [done|]. unfold work_left. cbn. rewrite E. cbn. destruct (b_len buf' =? 0); cbn; lia.
Qed.

Lemma write_plain_block : good_block do_write_plain.
Proof.
  intros p x. unfold do_write_plain. destruct (Z.eqb_spec (b_len (k_plaintext_write_buf (prim p))) 0) as [E|E]; [by intros [= <-]|]. cbn [negb].
  intros Hx. apply bind_Some in Hx as (ssl & _ & Hx). apply bind_Some in Hx as ([[st ssl'] buf'] & Hw & Hx).
  apply write_status in Hw as [W1 W2]. cbn [p_ses set_prim upd] in Hx. rewrite sync_only in Hx.
  destruct (Z.eqb_spec st (-1)); [injection Hx as <-; by apply framed_same|].
  destruct (Z.eqb_spec st 1) as [E1|E1]; injection Hx as <-; (split; [by apply framed_same|]).
  - left. split; [done|]. unfold work_left. cbn. rewrite (W1 E1). apply Z.eqb_neq in E. rewrite E. cbn. lia.
  - rewrite (W2 E1). right. split; [done|]. unfold work_left. cbn. lia.
Qed.

Lemma kx_same o s x : same_ses s (kx_put s x) /\ same_opt o (kx_put_opt o x).
Proof. split; [by constructor|done]. Qed.

Lemma send_key_block succeeded : good_block (do_send_key env succeeded).
Proof.
  intros p x. unfold do_send_key. destruct (_ && _) eqn:E; [|by intros [= <-]]. apply andb_true_iff in E as [Eb E].
  intros Hx. apply bind_Some in Hx as ([[ok buf] kx] & _ & Hx).
  destruct ok; cbn [negb] in Hx; injection Hx as <-; [|by apply framed_same].
  assert (edge (op_server (p_opt p)) (k_state (prim p)) S_SENT_KEY) as He.
  { pose proof (edge_first (op_server (p_opt p))). pose proof (edge_second (op_server (p_opt p))).
    apply orb_true_iff in E as [E|E]; apply andb_true_iff in E as [E1 E2]; apply Z.eqb_eq in E1; rewrite E1; by destruct (op_server (p_opt p)). }
  split; [constructor; cbn; [done|by constructor|by apply rtc_once|by auto|done]|]. apply changed_edge; try done. by left.
Qed.

Lemma receive_key_block : good_block (do_receive_key env).
Proof.
  intros p x. unfold do_receive_key. destruct (_ && _) eqn:E; [|by intros [= <-]]. apply andb_true_iff in E as [Eb E].
  intros Hx. apply bind_Some in Hx as ([[ok buf] kx] & _ & Hx).
  destruct ok; cbn [negb] in Hx; injection Hx as <-; [|by apply framed_same].
  assert (edge (op_server (p_opt p)) (k_state (prim p)) S_GOT_KEY) as He.
  { pose proof (edge_first (op_server (p_opt p))). pose proof (edge_second (op_server (p_opt p))).
    apply orb_true_iff in E as [E|E]; apply andb_true_iff in E as [E1 E2]; apply Z.eqb_eq in E1; rewrite E1; by destruct (op_server (p_opt p)). }
  split; [constructor; cbn; [done|by constructor|by apply rtc_once|by auto|done]|]. apply changed_edge; try done. by right.
Qed.

Lemma submit_block : good_block do_submit.
Proof.
  intros p x. unfold do_submit. case_match; [|by intros [= <-]]. intros Hx. apply bind_Some in Hx as ([got send] & Hg & Hx).
  destruct got as [i|].
  - apply output_free in Hg as (Hf & e & He & Ha). apply bind_Some in Hx as (e1 & _ & Hx). apply bind_Some in Hx as (ssl & _ & Hx).
    apply bind_Some in Hx as ([[st ssl'] b] & _ & Hx).
    set (send1 := set_entry send i (fun e => e <| e_buf := b |>)) in *.
    assert (free_entries send1 = free_entries (k_send_reliable (prim p))) as Hf1 by (unfold send1; by rewrite free_same).
    assert (entries send1 !! i = Some (e <| e_buf := b |>)) as He1 by (unfold send1; by apply set_entry_eq).
    destruct (st =? -1); [injection Hx as <-; by apply framed_same|]. destruct (st =? 1).
    + apply bind_Some in Hx as (send' & Hm & Hx). injection Hx as <-. pose proof (mark_outgoing_free _ _ _ _ _ He1 Ha Hm).
      split; [by apply framed_same|]. left. split; [done|]. unfold work_left. cbn in *. lia.
    + injection Hx as <-. split; [by apply framed_same|]. right. split; [done|]. unfold work_left. cbn in *. lia.
  - injection Hx as <-. apply output_none in Hg as ->. split; [by apply framed_same|]. right. split; [done|]. unfold work_left. cbn. lia.
Qed.

Lemma andthen_assoc x f g : andthen (andthen x f) g = andthen x (fun p => andthen (f p) g).
Proof. by destruct x as [[]|]. Qed.

Lemma turn_block succeeded p x : tls_turn env succeeded p = Some x ->
  match x with
  | Go p' => framed p p' /\ (p_change p' = true /\ (work_left p' < work_left p)%nat \/ p_change p' = false /\ (work_left p' <= work_left p)%nat)
  | Sent p' | Fail p' => framed p p'
  | Spin => False
  end.
Proof.
  unfold tls_turn. set (p0 := (clocked p) <| p_change := false |>). rewrite !andthen_assoc. cbn [andthen].
  assert (framed p p0) as F0 by by apply framed_same; cbn; auto.
  intros Hx.
  assert (match x with Go p' => framed p0 p' /\ progress p0 p' | Sent p' | Fail p' => framed p0 p' | Spin => False end) as Hg.
  { revert Hx. generalize p0, x. change (good_block (fun p => andthen (do_initial p) (fun p => andthen (do_timeout p) (fun p =>
      andthen (do_start p) (fun p => andthen (do_active p) (fun p => andthen (do_transmit env p) (fun p => andthen (do_feed p) (fun p =>
      andthen (do_read_plain p) (fun p => andthen (do_send_key env succeeded p) (fun p => andthen (do_receive_key env p) (fun p =>
      andthen (do_write_plain p) do_submit))))))))))).
    repeat apply good_andthen; auto using initial_block, timeout_block, start_block, active_block, transmit_block, feed_block,
      read_plain_block, send_key_block, receive_key_block, write_plain_block, submit_block. }
  destruct x; try done; try (by eapply framed_trans). destruct Hg as [F P]. split; [by eapply framed_trans|]. exact P.
Qed.

(** The loop ends within [S (work_left p)] turns. *)
Lemma loop_ends succeeded turns : forall p x, (work_left p < turns)%nat -> tls_loop env turns succeeded p = Some x ->
  match x with
  | Go p' => framed p p' /\ p_change p' = false
  | Sent p' | Fail p' => framed p p'
  | Spin => False
  end.
Proof.
  induction turns as [|turns IH]; intros p x Hw; [lia|]. cbn [tls_loop]. destruct (tls_turn env succeeded p) as [y|] eqn:E; [|done].
  apply turn_block in E. unfold andthen. destruct y as [p1|p1|p1|]; [|by intros [= <-]|by intros [= <-]|done].
  destruct E as [F [[Hc Hl]|[Hc Hl]]]; rewrite Hc; [|by intros [= <-]].
  intros Hx. apply IH in Hx; [|lia]. destruct x; [destruct Hx; split; [|done]|..|done]; by eapply framed_trans.
Qed.

Lemma loop_framed succeeded turns p x : tls_loop env turns succeeded p = Some x ->
  match x with Go p' | Sent p' | Fail p' => framed p p' | Spin => True end.
Proof.
  revert p x; induction turns as [|turns IH]; intros p x; [by intros [= <-]|]. cbn [tls_loop]. destruct (tls_turn env succeeded p) as [y|] eqn:E; [|done].
  apply turn_block in E. unfold andthen. destruct y as [p1|p1|p1|]; [|by intros [= <-]|by intros [= <-]|done].
  destruct E as [F _]. destruct (p_change p1); [|by intros [= <-]]. intros Hx. apply IH in Hx. destruct x; try done; by eapply framed_trans.
Qed.

End Loop.
