(* ===== verification/TlsHandshake.v ===== *)
(** What a call of [tls_process] does to a session: it ends, moves the key state
    forward in the order of the handshake or replaces it by a fresh one, gives up at
    the deadline, and asks to be called again in time. *)
From stdpp Require Import list relations.
From S2P Require Import Prelude Integer Buffer PacketId Reliable ReliableProto Mtu Crypto CryptoToy DataChannel KeyExchange KeyDerive TlsCrypt ControlWrap TlsState TlsProcess TlsToy TlsLoop.

Section Handshake.
Context `{EvpKeyLib} `{TlsLib}.
Context (env : outside).
#[local] Arguments tls_loop : simpl never.
#[local] Hint Resolve same_opt_refl framed_refl tick_not_before : core.

(** ** Fresh key states *)

Definition next_key_id (id : Z) : Z := if Z.land (id + 1) P_KEY_ID_MASK =? 0 then 1 else Z.land (id + 1) P_KEY_ID_MASK.

(** What [key_state_init] makes of a session. *)
Record fresh_key (o : tls_options) (s : tls_session) (k : key_state) : Prop := mkfresh {
  fk_state : k_state k = S_INITIAL;
  fk_id : k_key_id k = ses_key_id s;
  fk_opcode : k_initial_opcode k = ses_initial_opcode s;
  fk_send : rel_size (k_send_reliable k) = TLS_RELIABLE_N_SEND_BUFFERS;
  fk_rec : rel_size (k_rec_reliable k) = TLS_RELIABLE_N_REC_BUFFERS;
  fk_die : k_must_die k = 0;
  fk_unkeyed : kb_initialized (o_key_ctx_bi (k_crypto_options k)) = false;
  fk_auth : k_authenticated k = KS_AUTH_FALSE;
  fk_deadline : k_must_negotiate k = 0 }.

Lemma reliable_init_size bs off n hold rel : reliable_init bs off n hold = Some rel -> rel_size rel = n.
Proof. unfold reliable_init. case_match; [|done]. intros Hi. apply bind_Some in Hi as (es & _ & Hi). by injection Hi as <-. Qed.

Lemma key_state_init_fresh w o s w' s' k : key_state_init w o s = Some (w', s', k) ->
  fresh_key o s k /\ w' = tick w /\ s' = s <| ses_initial_opcode := P_CONTROL_SOFT_RESET_V1 |> <| ses_key_id := next_key_id (ses_key_id s) |>.
Proof.
  unfold key_state_init. intros Hi. repeat (apply bind_Some in Hi as (? & ? & Hi)). injection Hi as <- <- <-.
  split; [|done]. constructor; try done; cbn; by eapply reliable_init_size.
Qed.

(** ** Preparation *)

(** A soft reset: the old key retires, a fresh one takes its place and its peer. *)
Record soft_reset (now : Z) (o : tls_options) (s s' : tls_session) : Prop := mksoft {
  sr_fresh : fresh_key o s (ses_primary s');
  sr_lame : ses_lame s' = (ses_primary s) <| k_must_die := now + op_transition_window o |>;
  sr_remote : k_session_id_remote (ses_primary s') = k_session_id_remote (ses_primary s);
  sr_addr : k_remote_addr (ses_primary s') = k_remote_addr (ses_primary s);
  sr_key_id : ses_key_id s' = next_key_id (ses_key_id s);
  sr_sid : ses_session_id s' = ses_session_id s;
  sr_wrap : ses_tls_wrap s' = ses_tls_wrap s;
  sr_rest : ses_burst s' = ses_burst s /\ ses_verified s' = ses_verified s /\ ses_untrusted_addr s' = ses_untrusted_addr s }.

Lemma key_state_soft_reset_spec w o s w' s' : key_state_soft_reset w o s = Some (w', s') -> soft_reset (w_now w) o s s' /\ w' = tick w.
Proof.
  unfold key_state_soft_reset. set (s1 := _ <| ses_lame := _ |>). intros Hi. apply bind_Some in Hi as ([[w1 s2] k] & Hi & He).
  injection He as <- <-. apply key_state_init_fresh in Hi as (F & -> & ->). split; [|done].
  constructor; cbn; try reflexivity; [|done]. destruct F. by constructor.
Qed.

(** The session [tls_prepare] leaves: the same, or after a soft reset; its retiring
    key may be gone. *)
Definition prepared (p p1 : tp) : Prop :=
  exists s w lame, p_ses p1 = s <| ses_lame := lame |> /\ (lame = ses_lame s \/ lame = key_state_zero) /\ p_world p1 = w /\
    p_opt p1 = p_opt p /\ p_link p1 = p_link p /\ p_change p1 = p_change p /\
    (if renegotiate (p_now p) (p_opt p) (prim p) then soft_reset (p_now p) (p_opt p) (p_ses p) s /\ w = tick (p_world p)
     else s = p_ses p /\ w = p_world p).

Lemma tls_prepare_spec p p1 : tls_prepare p = Some p1 -> prepared p p1 /\ session_id_defined (ses_session_id (p_ses p)) = true.
Proof.
  unfold tls_prepare. case_match; [|done]. case_match; [|done]. destruct (session_id_defined _); [|done].
  intros Hx. apply bind_Some in Hx as (p0 & Hr & Hx). unfold tls_expire in Hx. apply bind_Some in Hx as ([die wakeup] & _ & Hx). injection Hx as <-. split; [|done].
  assert (exists s w, p0 = p <| p_ses := s |> <| p_world := w |> /\
    (if renegotiate (p_now p) (p_opt p) (prim p) then soft_reset (p_now p) (p_opt p) (p_ses p) s /\ w = tick (p_world p)
     else s = p_ses p /\ w = p_world p)) as (s & w & -> & Hs).
  { unfold tls_renew in Hr. destruct (renegotiate _ _ _).
    - apply bind_Some in Hr as ([w s] & Hk & Hr). injection Hr as <-. apply key_state_soft_reset_spec in Hk as [? ->]. by eexists _, _.
    - injection Hr as <-. exists (p_ses p), (p_world p). split; [by destruct p|done]. }
  destruct die.
  - exists s, w, key_state_zero. split; [done|]. split; [by right|]. done.
  - exists s, w, (ses_lame s). split; [by destruct s|]. split; [by left|]. done.
Qed.

(** ** Ending *)

(** The queues [key_state_init] makes. *)
Definition queues_ok (k : key_state) : Prop :=
  rel_size (k_send_reliable k) <= TLS_RELIABLE_N_SEND_BUFFERS /\ rel_size (k_rec_reliable k) <= TLS_RELIABLE_N_REC_BUFFERS.

Lemma entries_short rel n : rel_size rel <= n -> (length (entries rel) <= Z.to_nat n)%nat.
Proof. intros Hs. unfold entries. rewrite length_take. lia. Qed.

Lemma work_left_bound p : S_INITIAL <= k_state (prim p) -> queues_ok (prim p) -> (work_left p < TLS_TURNS)%nat.
Proof.
  intros Hst [Hs Hr]. unfold work_left, waiting, free_entries.
  pose proof (count_length e_active (entries (k_rec_reliable (prim p)))).
  pose proof (count_length (fun e => negb (e_active e)) (entries (k_send_reliable (prim p)))).
  pose proof (entries_short _ _ Hs) as Hn1. pose proof (entries_short _ _ Hr) as Hn2.
  change (Z.to_nat TLS_RELIABLE_N_SEND_BUFFERS) with 4%nat in Hn1. change (Z.to_nat TLS_RELIABLE_N_REC_BUFFERS) with 8%nat in Hn2.
  assert (1 <= rank (op_server (p_opt p)) (k_state (prim p))) as Hk.
  { unfold rank, S_SENT_KEY, S_GOT_KEY, S_INITIAL in *. repeat case_match; lia. }
  assert (forall b, (b2n b <= 1)%nat) as Hb by (by intros []; cbn; lia).
  pose proof (Hb (b_len (k_plaintext_read_buf (prim p)) =? 0)). pose proof (Hb (negb (b_len (k_plaintext_write_buf (prim p)) =? 0))).
  unfold TLS_TURNS. lia.
Qed.

Lemma prepared_queues p p1 : prepared p p1 -> S_INITIAL <= k_state (prim p) -> queues_ok (prim p) ->
  S_INITIAL <= k_state (prim p1) /\ queues_ok (prim p1).
Proof.
  intros (s & w & lame & Hs & _ & _ & _ & _ & _ & Hr) Hst Hq. unfold prim in *. rewrite Hs. cbn [ses_primary upd].
  change (ses_primary (s <| ses_lame := lame |>)) with (ses_primary s).
  destruct (renegotiate _ _ _).
  - destruct Hr as [[[] _ _ _ _ _ _ _] _]. unfold queues_ok. rewrite fk_send0, fk_rec0, fk_state0. done.
  - destruct Hr as [-> _]. done.
Qed.

Lemma loop_more succeeded turns : forall p, tls_loop env turns succeeded p <> Some Spin ->
  forall more, (turns <= more)%nat -> tls_loop env more succeeded p = tls_loop env turns succeeded p.
Proof.
  unfold tls_loop. induction turns as [|turns IH]; intros p Hs more Hm; [done|]. destruct more as [|more]; [lia|].
  cbn in Hs |- *. destruct (tls_turn env succeeded p) as [[p1|p1|p1|]|]; cbn in *; try done.
  destruct (p_change p1); [|done]. apply IH; [done|lia].
Qed.


Lemma process_more succeeded p n : (forall p1, tls_prepare (cleared p) = Some p1 -> tls_loop env n succeeded p1 <> Some Spin) ->
  forall turns, (n <= turns)%nat -> tls_process_within env turns succeeded p = tls_process_within env n succeeded p.
Proof.
  intros Hs turns Ht. unfold tls_process_within. destruct (tls_prepare (cleared p)) as [p1|]; [|done]. cbn [mbind option_bind].
  by rewrite (loop_more succeeded n p1 (Hs p1 eq_refl) turns Ht).
Qed.

(** A session whose key is not active is not renewed. *)
Lemma lame_duck_decides now s w : (S_INITIAL <= k_state (ses_lame s) -> k_must_die (ses_lame s) <> 0) ->
  exists r, lame_duck_must_die now s w = Some r.
Proof.
  intros Hlame. unfold lame_duck_must_die. destruct (Z.leb_spec S_INITIAL (k_state (ses_lame s))); [|by case_match; eexists].
  rewrite (proj2 (Z.eqb_neq _ _)) by auto. cbn [negb]. by case_match; eexists.
Qed.

Lemma not_renewed now o k : k_state k < S_ACTIVE -> renegotiate now o k = false.
Proof. intros Hst. unfold renegotiate. by rewrite (proj2 (Z.leb_gt _ _)) by done. Qed.

Lemma prepare_negotiating p : S_INITIAL < k_state (prim p) < S_ACTIVE -> session_id_defined (ses_session_id (p_ses p)) = true ->
  (S_INITIAL <= k_state (ses_lame (p_ses p)) -> k_must_die (ses_lame (p_ses p)) <> 0) ->
  exists p1, tls_prepare p = Some p1 /\ prim p1 = prim p /\ p_world p1 = p_world p.
Proof.
  intros Hst Hsid Hlame. unfold tls_prepare.
  assert (tls_renew p = Some p) as -> by (unfold tls_renew; by rewrite not_renewed by lia).
  rewrite (proj2 (Z.eqb_neq _ S_UNDEF)), (proj2 (Z.eqb_neq _ S_ERROR)) by (unfold S_UNDEF, S_ERROR, S_INITIAL in *; lia). rewrite Hsid.
  cbn [negb mbind option_bind]. unfold tls_expire. destruct (lame_duck_decides (p_now p) (p_ses p) (p_wakeup p) Hlame) as [[die w] ->].
  cbn [mbind option_bind]. eexists. split; [reflexivity|]. unfold prim. destruct die; split; reflexivity.
Qed.

Lemma turn_late succeeded p : S_INITIAL < k_state (prim p) < S_ACTIVE -> k_must_negotiate (prim p) <= w_now (tick (p_world p)) ->
  tls_turn env succeeded p = Some (Fail ((clocked p) <| p_change := false |>)).
Proof.
  unfold S_INITIAL, S_ACTIVE. intros Hst Hn. unfold tls_turn. rewrite !andthen_assoc. cbn [andthen]. set (p2 := (clocked p) <| p_change := false |>).
  unfold do_initial, S_INITIAL. change (prim p2) with (prim p). rewrite (proj2 (Z.eqb_neq _ 1)) by lia. cbn [andthen].
  unfold do_timeout. change (prim p2) with (prim p). change (p_now p2) with (w_now (tick (p_world p))). rewrite (proj2 (Z.leb_le _ _)) by done.
  unfold S_ACTIVE. by rewrite (proj2 (Z.ltb_lt _ 6)) by lia.
Qed.

Lemma loop_fails succeeded p p2 n : tls_turn env succeeded p = Some (Fail p2) -> tls_loop env (S n) succeeded p = Some (Fail p2).
Proof. intros Ht. unfold tls_loop. rewrite Ht. reflexivity. Qed.

Lemma process_fails succeeded p p1 p2 n : tls_prepare (cleared p) = Some p1 -> tls_turn env succeeded p1 = Some (Fail p2) ->
  tls_process_within env (S n) succeeded p = Some (false, set_prim p2 ((prim p2) <| k_state := S_ERROR |>)).
Proof.
  intros Hp Ht. apply bind_Some. exists p1. split; [exact Hp|]. apply bind_Some. exists (Fail p2).
  split; [by apply loop_fails|reflexivity].
Qed.

(** ** One call *)

Lemma send_ack_framed p p' : tls_send_ack env p = Some p' -> framed p p'.
Proof.
  unfold tls_send_ack. case_match; [|by intros [= <-]; apply framed_refl]. destruct (buf_init_dowork _ _) as [ok buf]. destruct ok; [|done].
  intros Hx. apply bind_Some in Hx as ([[p1 b] block] & Hw & Hx). injection Hx as <-. apply session_write_only in Hw as (ack & twc & a & ->).
  by apply framed_same.
Qed.

Lemma finish_framed p p' : tls_finish env p = Some p' -> framed p p'.
Proof.
  unfold tls_finish. intros Hx. apply bind_Some in Hx as (p1 & Ha & Hx). injection Hx as <-. apply send_ack_framed in Ha.
  eapply framed_trans; [|eapply framed_trans; [exact Ha|]].
  - apply framed_same; cbn; auto. by constructor.
  - unfold tls_wakeup. set (w := if negb (k_established _ =? 0) && _ then _ else _). destruct (w <=? 0); apply framed_same; try done; apply same_opt_refl.
Qed.

(** A call, behind its preparation: an error, or a way forward. *)
Lemma process_call succeeded p r p' : tls_process env succeeded p = Some (r, p') ->
  exists p1 p2, prepared (cleared p) p1 /\ framed p1 p2 /\
    (r = false /\ p' = set_prim p2 ((prim p2) <| k_state := S_ERROR |>) \/
     p' = p2 /\ exists p3, tls_finish env p3 = Some p2 /\ framed p1 p3).
Proof.
  unfold tls_process, tls_process_within. intros Hx. apply bind_Some in Hx as (p1 & Hp & Hx).
  apply tls_prepare_spec in Hp as [Hp _]. apply bind_Some in Hx as (x & Hl & Hx). apply loop_framed in Hl as F.
  exists p1. destruct x as [p2|p2|p2|]; [|..|done].
  - apply bind_Some in Hx as (p3 & Hf & Hx). injection Hx as <- <-. exists p3. split; [done|].
    pose proof (finish_framed _ _ Hf). split; [by eapply framed_trans|]. right. split; [done|]. by exists p2.
  - injection Hx as <- <-. exists p2. split; [done|]. split; [done|]. by left.
  - apply bind_Some in Hx as (p3 & Hf & Hx). injection Hx as <- <-. exists p3. split; [done|].
    pose proof (finish_framed _ _ Hf). split; [by eapply framed_trans|]. right. split; [done|]. by exists p2.
Qed.

(** *** The time of the next call *)

(** A delay asked for by a call with the result [r] is at most [d]; what is due at once
    makes it a second, and the result true. *)
Definition asks_by (r : bool) (wakeup d : Z) : Prop := wakeup <= d \/ wakeup = 1 /\ r = true.

Lemma earliest_before e d : compute_earliest_wakeup e d <= Z.max 0 e.
Proof.
  unfold compute_earliest_wakeup. destruct (Z.ltb_spec (i32 d) e); [destruct (Z.ltb_spec (i32 d) 0)|destruct (Z.ltb_spec e 0)]; lia.
Qed.
Lemma earliest_due e d : - 2 ^ 31 <= d < 2 ^ 31 -> compute_earliest_wakeup e d <= Z.max 0 d.
Proof.
  intros Hd. unfold compute_earliest_wakeup. rewrite i32_small by lia. destruct (Z.ltb_spec d e); [destruct (Z.ltb_spec d 0)|destruct (Z.ltb_spec e 0)]; lia.
Qed.

(** The delay to the retransmission of a packet, whatever the times of the others. *)
Lemma send_timeout_before now es : forall ret, 0 <= ret < 2 ^ 31 ->
  - 2 ^ 31 <= send_timeout_loop now ret es <= ret.
Proof.
  assert (forall ret, - 2 ^ 31 <= ret < 2 ^ 31 -> send_timeout_loop now ret es <= Z.max 0 ret /\ - 2 ^ 31 <= send_timeout_loop now ret es) as Hall.
  { induction es as [|e es IH]; intros ret Hr; cbn [send_timeout_loop]; [lia|]. destruct (e_active e); [|by apply IH]. destruct (e_next_try e <=? now); [lia|].
    rewrite min_int_min. assert (- 2 ^ 31 <= i32 (e_next_try e - now)) by (unfold i32; pose proof (Z.mod_pos_bound (e_next_try e - now + 2 ^ 31) (2 ^ 32)); lia). destruct (IH (Z.min ret (i32 (e_next_try e - now))) ltac:(lia)). lia. }
  intros ret Hr. destruct (Hall ret ltac:(lia)). lia.
Qed.
Lemma send_timeout_due now e es : forall ret, e ∈ es -> e_active e = true -> - 2 ^ 31 <= e_next_try e - now < 2 ^ 31 ->
  send_timeout_loop now ret es <= Z.max 0 (e_next_try e - now).
Proof.
  assert (forall es ret, send_timeout_loop now ret es <= Z.max 0 ret) as Hle.
  { clear. induction es as [|e es IH]; intros ret; cbn [send_timeout_loop]; [lia|]. destruct (e_active e); [|apply IH]. destruct (e_next_try e <=? now); [lia|].
    rewrite min_int_min. specialize (IH (Z.min ret (i32 (e_next_try e - now)))). lia. }
  induction es as [|a es IH]; intros ret Hin Ha Hn; [by apply not_elem_of_nil in Hin|]. cbn [send_timeout_loop].
  apply elem_of_cons in Hin as [<-|Hin].
  - rewrite Ha. destruct (Z.leb_spec (e_next_try e) now); [lia|]. rewrite min_int_min, i32_small by done. specialize (Hle es (Z.min ret (e_next_try e - now))). lia.
  - destruct (e_active a); [|by apply IH]. destruct (e_next_try a <=? now); [lia|]. by apply IH.
Qed.

(** What [tls_wakeup] answers: the least delay, at least a second. *)
Lemma wakeup_due p : let p' := tls_wakeup p in let k := prim p in let now := p_now p in
  let due d := asks_by (p_active p') (p_wakeup p') d in
  p_now p' = now /\ p_ses p' = p_ses p /\ p_opt p' = p_opt p /\ 1 <= p_wakeup p' /\
  (forall d, p_wakeup p <= Z.max 0 d -> due d) /\
  (S_INITIAL <= k_state k -> k_must_negotiate k <> 0 -> - 2 ^ 31 <= k_must_negotiate k - now < 2 ^ 31 -> due (k_must_negotiate k - now)) /\
  (S_INITIAL <= k_state k -> forall e, e ∈ entries (k_send_reliable k) -> e_active e = true ->
    - 2 ^ 31 <= e_next_try e - now < 2 ^ 31 -> due (e_next_try e - now)) /\
  (k_established k <> 0 -> op_renegotiate_seconds (p_opt p) <> 0 -> - 2 ^ 31 <= k_established k + op_renegotiate_seconds (p_opt p) - now < 2 ^ 31 ->
    due (k_established k + op_renegotiate_seconds (p_opt p) - now)).
Proof.
  cbv zeta. unfold tls_wakeup. set (now := p_now p). set (k := prim p). set (w0 := compute_earliest_wakeup (p_wakeup p) _).
  set (w1 := if S_INITIAL <=? k_state k then _ else _). set (w2 := if negb (k_established k =? 0) && _ then _ else _).
  assert (w2 <= Z.max 0 w1) as Hw2 by (unfold w2; case_match; [apply earliest_before|lia]).
  assert (S_INITIAL <= k_state k -> w1 <= Z.max 0 w0) as Hw1.
  { intros Hst. unfold w1. rewrite (proj2 (Z.leb_le _ _)) by done. case_match; [apply earliest_before|lia]. }
  assert (w1 <= Z.max 0 (p_wakeup p)) as Hw0.
  { destruct (Z_le_dec S_INITIAL (k_state k)) as [Hst|Hst].
    - specialize (Hw1 Hst). pose proof (earliest_before (p_wakeup p) (reliable_send_timeout now (k_send_reliable k))) as Hb. fold w0 in Hb. lia.
    - unfold w1. rewrite (proj2 (Z.leb_gt _ _)) by lia. lia. }
  set (q := if w2 <=? 0 then _ else _).
  assert (forall d, w2 <= Z.max 0 d -> asks_by (p_active q) (p_wakeup q) d) as Hq.
  { intros d Hd. unfold q, asks_by. destruct (Z.leb_spec w2 0); cbn; [by right|left; lia]. }
  split; [by unfold q; case_match|]. split; [by unfold q; case_match|]. split; [by unfold q; case_match|].
  split; [unfold q; destruct (Z.leb_spec w2 0); cbn; lia|]. split; [intros d Hd; apply Hq; lia|]. split; [|split].
  - intros Hst Hm Hf. apply Hq. assert (w1 <= Z.max 0 (k_must_negotiate k - now)); [|lia]. unfold w1. rewrite (proj2 (Z.leb_le _ _)), (proj2 (Z.eqb_neq _ _)) by done.
    by apply earliest_due.
  - intros Hst e He Ha Hf. apply Hq. specialize (Hw1 Hst). assert (w0 <= Z.max 0 (reliable_send_timeout now (k_send_reliable k))) as Hw.
    { apply earliest_due. pose proof (send_timeout_before now (entries (k_send_reliable k)) BIG_TIMEOUT ltac:(unfold BIG_TIMEOUT; lia)).
      unfold reliable_send_timeout, BIG_TIMEOUT in *. lia. }
    pose proof (send_timeout_due now e (entries (k_send_reliable k)) BIG_TIMEOUT He Ha Hf). unfold reliable_send_timeout in Hw. lia.
  - intros He Hr Hf. apply Hq. unfold w2. rewrite (proj2 (Z.eqb_neq _ _)), (proj2 (Z.eqb_neq (op_renegotiate_seconds _) _)) by done. by apply earliest_due.
Qed.

(** The loop keeps the time of the next call, or clears it. *)
Definition calm (f : tp -> option outcome) : Prop := forall p x, f p = Some x ->
  match x with Go p' | Sent p' | Fail p' => p_wakeup p' = p_wakeup p \/ p_wakeup p' = 0 | Spin => True end.

Lemma calm_andthen f g : calm f -> calm g -> calm (fun p => andthen (f p) g).
Proof.
  intros Hf Hg p x Hx. destruct (f p) as [y|] eqn:E; [|done]. specialize (Hf p y E). destruct y as [p1|p1|p1|]; cbn [andthen] in Hx; try (by injection Hx as <-).
  specialize (Hg p1 x Hx). destruct x as [p'|p'|p'|]; try done; destruct Hg as [->|]; auto.
Qed.

Lemma session_write_calm p buf opcode max_ack pre p' b block : session_write env p buf opcode max_ack pre = Some (p', b, block) -> p_wakeup p' = p_wakeup p.
Proof. intros Hx. by apply session_write_only in Hx as (ack & twc & a & ->). Qed.

(** Every part of the turn is a few binds and tests around record updates. *)
Ltac calm_block := intros p x Hx; repeat (first
  [ by injection Hx as <-; auto
  | match type of Hx with
    | mbind _ _ = Some _ => let E := fresh "E" in apply bind_Some in Hx as (? & E & Hx)
    | (let _ := _ in _) = Some _ => cbv zeta in Hx
    | match ?a with _ => _ end = Some _ => destruct a eqn:?
    end
  | done ]).

Lemma calm_initial : calm do_initial.
Proof. unfold do_initial. calm_block. Qed.
Lemma calm_timeout : calm do_timeout.
Proof. unfold do_timeout. calm_block. Qed.
Lemma calm_start : calm do_start.
Proof. unfold do_start. calm_block. Qed.
Lemma calm_active : calm do_active.
Proof. unfold do_active. calm_block. Qed.
Lemma calm_transmit : calm (do_transmit env).
Proof.
  unfold do_transmit. calm_block. injection Hx as <-. cbn. left.
  match goal with E : session_write _ _ _ _ _ _ = Some _ |- _ => by apply session_write_calm in E end.
Qed.
Lemma calm_feed : calm do_feed.
Proof.
  unfold do_feed. calm_block.
  all: match goal with E : (if _ then _ else _) = Some _ |- _ => revert E; case_match; intros E end.
  all: repeat match goal with E : mbind _ _ = Some _ |- _ => apply bind_Some in E as (? & ? & E) | E : (match ?a with _ => _ end) = Some _ |- _ => destruct a end.
  all: repeat match goal with E : Some _ = Some _ |- _ => injection E as ?; subst end; by left.
Qed.
Lemma calm_read_plain : calm do_read_plain.
Proof. unfold do_read_plain. calm_block. Qed.
Lemma calm_send_key succeeded : calm (do_send_key env succeeded).
Proof. unfold do_send_key. calm_block. Qed.
Lemma calm_receive_key : calm (do_receive_key env).
Proof. unfold do_receive_key. calm_block. Qed.
Lemma calm_write_plain : calm do_write_plain.
Proof. unfold do_write_plain. calm_block. Qed.
Lemma calm_submit : calm do_submit.
Proof. unfold do_submit. calm_block. Qed.

Lemma turn_calm succeeded p x : tls_turn env succeeded p = Some x ->
  match x with Go p' | Sent p' | Fail p' => p_wakeup p' = p_wakeup p \/ p_wakeup p' = 0 | Spin => True end.
Proof.
  unfold tls_turn. rewrite !andthen_assoc. cbn [andthen]. set (p0 := (clocked p) <| p_change := false |>). change (p_wakeup p) with (p_wakeup p0).
  generalize p0, x. change (calm (fun p => andthen (do_initial p) (fun p => andthen (do_timeout p) (fun p =>
      andthen (do_start p) (fun p => andthen (do_active p) (fun p => andthen (do_transmit env p) (fun p => andthen (do_feed p) (fun p =>
      andthen (do_read_plain p) (fun p => andthen (do_send_key env succeeded p) (fun p => andthen (do_receive_key env p) (fun p =>
      andthen (do_write_plain p) do_submit))))))))))).
  repeat apply calm_andthen; auto using calm_initial, calm_timeout, calm_start, calm_active, calm_transmit, calm_feed,
    calm_read_plain, calm_send_key, calm_receive_key, calm_write_plain, calm_submit.
Qed.
Lemma loop_calm succeeded turns : calm (tls_loop env turns succeeded).
Proof.
  unfold tls_loop. induction turns as [|turns IH]; intros p x; [by intros [= <-]|]. destruct (tls_turn env succeeded p) as [y|] eqn:E; [|done]. apply turn_calm in E.
  destruct y as [p1|p1|p1|]; cbn [andthen]; try (by intros [= <-]). destruct (p_change p1); [|by intros [= <-]].
  intros Hx. apply IH in Hx. destruct x; try done; destruct Hx as [->|]; auto.
Qed.

(** The preparation asks to be called when the retiring key expires. *)
Lemma prepare_wakeup p p1 : tls_prepare p = Some p1 ->
  p_now p1 = (if renegotiate (p_now p) (p_opt p) (prim p) then w_now (tick (p_world p)) else p_now p) /\
  p_wakeup p1 <= Z.max 0 (p_wakeup p) /\
  (S_INITIAL <= k_state (ses_lame (p_ses p1)) -> let d := k_must_die (ses_lame (p_ses p1)) - p_now p1 in
   - 2 ^ 31 <= d < 2 ^ 31 -> p_wakeup p1 <= Z.max 0 d).
Proof.
  intros Hp. pose proof (tls_prepare_spec _ _ Hp) as [(s & w & lame & _ & _ & Hw & _ & _ & _ & Hr) _]. split.
  { unfold p_now at 1. rewrite Hw. destruct (renegotiate _ _ _); by destruct Hr as [_ ->]. }
  clear Hr Hw. unfold tls_prepare in Hp. case_match; [|done]. case_match; [|done]. case_match; [|done]. apply bind_Some in Hp as (p0 & Hr0 & Hp).
  assert (p_wakeup p0 = p_wakeup p) as Hw0 by (unfold tls_renew in Hr0; case_match; [apply bind_Some in Hr0 as ([] & _ & Hr0)|]; by injection Hr0 as <-).
  unfold tls_expire in Hp. apply bind_Some in Hp as ([die wakeup] & Hl & Hp). injection Hp as <-. rewrite <- Hw0.
  unfold lame_duck_must_die in Hl. destruct (Z.leb_spec S_INITIAL (k_state (ses_lame (p_ses p0)))) as [Hst|Hst].
  - case_match; [|done]. destruct (Z.ltb_spec (p_now p0) (k_must_die (ses_lame (p_ses p0)))); injection Hl as <- <-; cbn [p_wakeup p_ses p_world upd].
    + split; [apply earliest_before|]. cbv zeta. intros _ Hd. by apply earliest_due.
    + split; [lia|]. cbn. intros Hx. by destruct Hx.
  - destruct (k_state (ses_lame (p_ses p0)) =? S_ERROR); injection Hl as <- <-; (split; [cbn; lia|]); cbn; intros Hx; [by destruct Hx|lia].
Qed.

Lemma edges_initial_le b s t : rtc (edge b) s t -> S_INITIAL <= s -> S_INITIAL <= t.
Proof.
  intros E Hs. apply edges_rank in E as [->|(? & ? & ?)]; [done|]. unfold rank, S_SENT_KEY, S_GOT_KEY, S_INITIAL in *. repeat case_match; lia.
Qed.

(** A call that does not end in error: the session after its preparation and before it
    computes the delay. *)
Lemma process_due succeeded p r p' : tls_process env succeeded p = Some (r, p') -> k_state (prim p') <> S_ERROR ->
  exists p1 p4, tls_prepare (cleared p) = Some p1 /\ rtc (edge (op_server (p_opt p1))) (k_state (prim p1)) (k_state (prim p4)) /\
    ses_lame (p_ses p1) = ses_lame (p_ses p4) /\ p_wakeup p4 <= Z.max 0 (p_wakeup p1) /\ p' = tls_wakeup p4 /\ r = p_active p'.
Proof.
  unfold tls_process, tls_process_within. intros Hx He. apply bind_Some in Hx as (p1 & Hp & Hx).
  apply bind_Some in Hx as (x & Hl & Hx). pose proof (loop_framed env succeeded _ _ _ Hl) as F. pose proof (loop_calm succeeded _ _ _ Hl) as Hc.
  assert (forall p2, framed p1 p2 -> (p_wakeup p2 = p_wakeup p1 \/ p_wakeup p2 = 0) -> (p3 ← tls_finish env p2; Some (p_active p3, p3)) = Some (r, p') ->
    exists p1' p4, Some p1 = Some p1' /\ rtc (edge (op_server (p_opt p1'))) (k_state (prim p1')) (k_state (prim p4)) /\
    ses_lame (p_ses p1') = ses_lame (p_ses p4) /\ p_wakeup p4 <= Z.max 0 (p_wakeup p1') /\ p' = tls_wakeup p4 /\ r = p_active p') as Hend.
  { intros p2 F2 Hw Hf. apply bind_Some in Hf as (p3 & Hf & Hr). injection Hr as <- <-. unfold tls_finish in Hf. apply bind_Some in Hf as (p4 & Ha & Hf). injection Hf as <-.
    exists p1, p4. split; [done|]. pose proof (send_ack_framed _ _ Ha) as F3. assert (framed p2 (clocked p2)) as F4 by (apply framed_same; cbn; auto; by constructor).
    pose proof (framed_trans _ _ _ F2 (framed_trans _ _ _ F4 F3)) as [_ S E _ _]. split; [done|]. split; [by destruct S|]. split; [|done].
    assert (p_wakeup p4 = p_wakeup p2); [|lia]. clear -Ha. unfold tls_send_ack in Ha. case_match; [|by injection Ha as <-]. destruct (buf_init_dowork _ _) as [ok buf]. destruct ok; [|done].
    apply bind_Some in Ha as ([[q b] block] & Hw & Ha). injection Ha as <-. by apply session_write_calm in Hw. }
  rewrite Hp. destruct x as [p2|p2|p2|]; [by apply (Hend p2)| |by apply (Hend p2)|done]. injection Hx as <- <-. by destruct He.
Qed.
End Handshake.

(** ** Properties *)

(** C6. The loop ends.  Whatever the TLS library, the random generators and the peer
    do, the loop of tls_process leaves a session that has its queues of four and
    eight packets after at most 30 turns: more turns change nothing, and it is never
    the bound that stops it. *)
Theorem tls_process_ends `{EvpKeyLib} `{TlsLib} env succeeded p :
  S_INITIAL <= k_state (prim p) -> queues_ok (prim p) ->
  (forall turns, (TLS_TURNS <= turns)%nat -> tls_process_within env turns succeeded p = tls_process env succeeded p) /\
  (forall p1, tls_prepare (cleared p) = Some p1 -> tls_loop env TLS_TURNS succeeded p1 <> Some Spin).
Proof.
  intros Hst Hq.
  assert (forall p1, tls_prepare (cleared p) = Some p1 -> tls_loop env TLS_TURNS succeeded p1 <> Some Spin) as Hs.
  { intros p1 Hp Hl. apply tls_prepare_spec in Hp as [Hp _]. destruct (prepared_queues _ _ Hp Hst Hq) as [Hst1 Hq1].
    by apply loop_ends in Hl; [|by apply work_left_bound]. }
  split; [|exact Hs]. exact (process_more env succeeded p TLS_TURNS Hs).
Qed.

(** C3. The order of the handshake.  A call of tls_process either leaves the key state
    in error and answers false, or moves it along the order initial, pre-start, start,
    the two halves of the key exchange (a server reads first, a client sends first),
    active.  When the key is due for renewal it retires with its contexts and a
    time of expiry, and the handshake of a fresh key under the next key id begins; the
    key that retired before is dropped.  Session id and peer stay what they were. *)
Theorem handshake_order `{EvpKeyLib} `{TlsLib} env succeeded p r p' :
  tls_process env succeeded p = Some (r, p') ->
  let renewed := renegotiate (p_now p) (p_opt p) (prim p) in
  (k_state (prim p') = S_ERROR /\ r = false \/
   rtc (edge (op_server (p_opt p))) (if renewed then S_INITIAL else k_state (prim p)) (k_state (prim p'))) /\
  (ses_lame (p_ses p') = key_state_zero \/
   ses_lame (p_ses p') = if renewed then (prim p) <| k_must_die := p_now p + op_transition_window (p_opt p) |> else ses_lame (p_ses p)) /\
  k_key_id (prim p') = (if renewed then ses_key_id (p_ses p) else k_key_id (prim p)) /\
  ses_key_id (p_ses p') = (if renewed then next_key_id (ses_key_id (p_ses p)) else ses_key_id (p_ses p)) /\
  ses_session_id (p_ses p') = ses_session_id (p_ses p) /\
  k_session_id_remote (prim p') = k_session_id_remote (prim p) /\ k_remote_addr (prim p') = k_remote_addr (prim p).
Proof.
  intros Hx renewed. destruct (process_call env succeeded p r p' Hx) as (p1 & p2 & Hp & F & Hend).
  destruct Hp as (s & w & lame & Hs & Hl & _ & Ho & _ & _ & Hr). change (renegotiate (p_now (cleared p)) (p_opt (cleared p)) (prim (cleared p))) with renewed in Hr.
  change (p_opt (cleared p)) with (p_opt p) in *. change (p_ses (cleared p)) with (p_ses p) in *.
  change (p_world (cleared p)) with (p_world p) in *. change (p_now (cleared p)) with (p_now p) in *.
  assert (prim p1 = ses_primary s) as Hk by (unfold prim; by rewrite Hs).
  assert (same_ses (p_ses p1) (p_ses p')) as S.
  { destruct F as [_ S _ _ _]. destruct Hend as [[_ ->]|[-> _]]; [|done]. destruct S. by constructor. }
  destruct S as [S1 S2 S3 _ _ _ S4 S5 S6 _]. rewrite Hs in S1, S2, S3. cbn in S1, S2, S3. fold (prim p1) in S4, S5, S6. rewrite Hk in S4, S5, S6.
  assert (k_state (prim p') = S_ERROR /\ r = false \/ rtc (edge (op_server (p_opt p))) (k_state (prim p1)) (k_state (prim p'))) as He.
  { destruct Hend as [[-> ->]|[-> _]]; [by left|right]. destruct F as [_ _ E _ _]. by rewrite Ho in E. }
  rewrite Hk in He. unfold prim. rewrite S1, S2, S3, S4, S5, S6. destruct renewed.
  - destruct Hr as [[[Hf1 Hf2] R1 R2 R3 R4 R5 _ _] _]. rewrite Hf1 in He. rewrite R2, R3, R4, R5, Hf2. split; [done|]. split; [|done].
    destruct Hl as [->| ->]; [right; by rewrite R1|by left].
  - destruct Hr as [-> _]. split; [done|]. split; [|done]. destruct Hl as [->| ->]; by auto.
Qed.

(** C7. The deadline.  A session whose handshake has begun and is not complete when its
    window has passed answers false with its key state in error at the next call,
    whatever arrived; and after every call that does not end in error the delay to the
    next call is at least a second and keeps what is due: the delay asked for before, the
    end of the window of the handshake, the retransmission of every packet that waits for
    its acknowledgement, the renegotiation of an established key, and the end of the
    retiring key.  What is due within the second makes the call answer true and ask for a
    second ([asks_by]).  The delays are those an [int] holds, as the code has it; the end of the
    retiring key is counted from the time at which the preparation looked at it. *)
Theorem handshake_deadline `{EvpKeyLib} `{TlsLib} env succeeded p :
  (S_INITIAL < k_state (prim p) < S_ACTIVE -> session_id_defined (ses_session_id (p_ses p)) = true ->
   (S_INITIAL <= k_state (ses_lame (p_ses p)) -> k_must_die (ses_lame (p_ses p)) <> 0) ->
   not_before (k_must_negotiate (prim p)) (p_world p) ->
   exists p', tls_process env succeeded p = Some (false, p') /\ k_state (prim p') = S_ERROR) /\
  (forall r p', S_INITIAL <= k_state (prim p) -> tls_process env succeeded p = Some (r, p') -> k_state (prim p') <> S_ERROR ->
   let k := prim p' in let lame := ses_lame (p_ses p') in
   let looked := if renegotiate (p_now p) (p_opt p) (prim p) then w_now (tick (p_world p)) else p_now p in
   let due d := - 2 ^ 31 <= d < 2 ^ 31 -> asks_by r (p_wakeup p') d in
   1 <= p_wakeup p' /\ due (p_wakeup p) /\
   (k_must_negotiate k <> 0 -> due (k_must_negotiate k - p_now p')) /\
   (forall e, e ∈ entries (k_send_reliable k) -> e_active e = true -> due (e_next_try e - p_now p')) /\
   (k_established k <> 0 -> op_renegotiate_seconds (p_opt p') <> 0 -> due (k_established k + op_renegotiate_seconds (p_opt p') - p_now p')) /\
   (S_INITIAL <= k_state lame -> due (k_must_die lame - looked))).
Proof.
  split.
  - intros Hst Hsid Hlame Hclock. destruct (prepare_negotiating (cleared p) Hst Hsid Hlame) as (p1 & Hp & Hk & Hw).
    assert (tls_turn env succeeded p1 = Some (Fail ((clocked p1) <| p_change := false |>))) as Ht.
    { apply turn_late; rewrite Hk; [exact Hst|]. rewrite Hw. by apply tick_not_before. }
    pose proof (process_fails env succeeded p p1 _ 29 Hp Ht) as Hx. change (tls_process_within env 30 succeeded p) with (tls_process env succeeded p) in Hx.
    eexists. split; [exact Hx|reflexivity].
  - intros r p' Hst Hx He. cbv zeta. destruct (process_due env succeeded p r p' Hx He) as (p1 & p4 & Hp & F & Hlame & Hw & -> & ->).
    destruct (wakeup_due p4) as (En & Es & Eo & W1 & W2 & W3 & W4 & W5). destruct (prepare_wakeup _ _ Hp) as (Hn & Hw1 & Hdie).
    unfold prim in *. rewrite En, Es, Eo in *. change (p_wakeup (cleared p)) with (p_wakeup p) in *.
    change (p_now (cleared p)) with (p_now p) in *. change (p_opt (cleared p)) with (p_opt p) in *. change (p_ses (cleared p)) with (p_ses p) in *. change (p_world (cleared p)) with (p_world p) in *.
    assert (S_INITIAL <= k_state (ses_primary (p_ses p4))) as Hs4.
    { apply edges_initial_le in F; [done|]. apply tls_prepare_spec in Hp as [(s & w & lame & Hs & _ & _ & _ & _ & _ & Hr) _]. rewrite Hs. cbn.
      destruct (renegotiate _ _ _); [destruct Hr as [[[-> _ _ _ _ _ _ _ _] _ _ _ _ _ _ _] _]; done|by destruct Hr as [-> _]]. }
    split; [done|]. split; [intros _; apply W2; lia|]. split; [by auto|]. split; [by auto|]. split; [by auto|].
    intros Hl Hd. apply W2. rewrite <- Hlame in *. rewrite <- Hn in *. specialize (Hdie Hl Hd). lia.
Qed.

(** ** Examples *)

Lemma toy_queues : queues_ok (prim (toy_tp false)) /\ queues_ok (prim toy_late).
Proof. split; (split; apply Z.leb_le; vm_compute; reflexivity). Qed.

Lemma tls_process_ends_witness : S_INITIAL <= k_state (prim (toy_tp false)) /\
  tls_process_within toy_env 100 true (toy_tp false) = tls_process toy_env true (toy_tp false).
Proof.
  assert (S_INITIAL <= k_state (prim (toy_tp false))) as Hs by (apply Z.leb_le; vm_compute; reflexivity).
  split; [exact Hs|]. destruct (tls_process_ends toy_env true (toy_tp false) Hs (proj1 toy_queues)) as [He _].
  apply He. unfold TLS_TURNS. lia.
Defined.

Lemma handshake_order_witness : exists r p', tls_process toy_env true (toy_tp false) = Some (r, p') /\
  k_state (prim p') = S_PRE_START /\ k_key_id (prim p') = k_key_id (prim (toy_tp false)) /\
  rtc (edge false) S_INITIAL (k_state (prim p')).
Proof.
  destruct (tls_process toy_env true (toy_tp false)) as [[r p']|] eqn:E.
  - exists r, p'. split; [reflexivity|]. assert (S_INITIAL <= k_state (prim (toy_tp false))) as Hs by (apply Z.leb_le; vm_compute; reflexivity).
    assert (k_state (prim p') = S_PRE_START) as Hst.
    { assert (match tls_process toy_env true (toy_tp false) with Some (_, p) => k_state (prim p) | None => 0 end = S_PRE_START) as Hv by (vm_compute; reflexivity).
      rewrite E in Hv. exact Hv. }
    destruct (handshake_order toy_env true (toy_tp false) r p' E) as (_ & _ & Hid & _).
    assert (renegotiate (p_now (toy_tp false)) (p_opt (toy_tp false)) (prim (toy_tp false)) = false) as Hr by (vm_compute; reflexivity).
    rewrite Hr in Hid. split; [exact Hst|]. split; [exact Hid|]. rewrite Hst. apply rtc_once. constructor.
  - exfalso. assert (bool_decide (is_Some (tls_process toy_env true (toy_tp false))) = true) as Hv by (vm_compute; reflexivity).
    rewrite E in Hv. discriminate Hv.
Defined.

Lemma handshake_deadline_witness : (exists p', tls_process toy_env true toy_late = Some (false, p') /\ k_state (prim p') = S_ERROR) /\
  exists r p', tls_process toy_env true (toy_tp false) = Some (r, p') /\ k_must_negotiate (prim p') <> 0 /\
    asks_by r (p_wakeup p') (k_must_negotiate (prim p') - p_now p').
Proof.
  split.
  - assert (S_INITIAL < k_state (prim toy_late) < S_ACTIVE) as Hs by (split; apply Z.ltb_lt; vm_compute; reflexivity).
    assert (session_id_defined (ses_session_id (p_ses toy_late)) = true) as Hsid by (vm_compute; reflexivity).
    assert (k_state (ses_lame (p_ses toy_late)) = 0) as Hl by (vm_compute; reflexivity).
    assert (k_must_negotiate (prim toy_late) = 1060) as Hm by (vm_compute; reflexivity).
    destruct (handshake_deadline toy_env true toy_late) as [Hd _]. apply (Hd Hs Hsid).
    + rewrite Hl. unfold S_INITIAL. lia.
    + rewrite Hm. split; cbn; [lia|]. repeat constructor; lia.
  - destruct (tls_process toy_env true (toy_tp false)) as [[r p']|] eqn:E.
    + exists r, p'. split; [reflexivity|]. assert (S_INITIAL <= k_state (prim (toy_tp false))) as Hs by (apply Z.leb_le; vm_compute; reflexivity).
      assert (match tls_process toy_env true (toy_tp false) with Some (_, p) => negb (k_must_negotiate (prim p) =? 0) && negb (k_state (prim p) =? S_ERROR)
        && (0 <=? k_must_negotiate (prim p) - p_now p) && (k_must_negotiate (prim p) - p_now p <=? 100) | None => false end = true) as Hv by (vm_compute; reflexivity).
      rewrite E in Hv. apply andb_prop in Hv as [[[H1 H2]%andb_prop H3]%andb_prop H4].
      assert (k_must_negotiate (prim p') <> 0) as Hm by (intros Hx; rewrite Hx in H1; discriminate H1).
      assert (k_state (prim p') <> S_ERROR) as He by (intros Hx; rewrite Hx in H2; discriminate H2).
      split; [exact Hm|]. destruct (handshake_deadline toy_env true (toy_tp false)) as [_ Hd]. destruct (Hd r p' Hs E He) as (_ & _ & Hn & _). apply (Hn Hm). lia.
    + exfalso. assert (bool_decide (is_Some (tls_process toy_env true (toy_tp false))) = true) as Hv by (vm_compute; reflexivity).
      rewrite E in Hv. discriminate Hv.
Defined.
