(* ===== verification/TlsMulti.v ===== *)
(** A peer's three sessions ([src/openvpn/ssl.c], [ssl_verify.c]): the active one, an
    untrusted one that may replace it, and a retiring one.  [tls_multi_process] runs
    them, [tls_authentication_status] sums up their authentication,
    [tls_pre_decrypt] sorts packets into them, [tls_send_payload] and
    [tls_rec_payload] use the control channel of the active one. *)
From stdpp Require Import list.
From S2P Require Import Prelude Integer Buffer PacketId Reliable ReliableProto Mtu Crypto DataChannel KeyExchange TlsCrypt ControlWrap TlsState TlsProcess.

Section Multi.
Context `{EvpKeyLib} `{TlsLib}.
Context (env : outside).

(** ** Payload on the control channel *)

Definition set_active_key (m : tls_multi) (k : key_state) : tls_multi :=
  set_session m TM_ACTIVE ((m_session m TM_ACTIVE) <| ses_primary := k |>).

Definition tls_send_payload (m : tls_multi) (data : list Z) : option (bool * tls_multi) :=
  let k := ses_primary (m_session m TM_ACTIVE) in
  if S_ACTIVE <=? k_state k then
    ssl ← k_ssl k;
    let '(st, ssl) := key_state_write_plaintext_const ssl data in
    Some (st =? 1, set_active_key m (k <| k_ssl := Some ssl |>))
  else Some (true, set_active_key m (k <| k_paybuf := buffer_list_push_data (k_paybuf k) data |>)).

Definition tls_rec_payload (m : tls_multi) (buf : buffer) : bool * tls_multi * buffer :=
  let k := ses_primary (m_session m TM_ACTIVE) in
  if (S_ACTIVE <=? k_state k) && (0 <? b_len (k_plaintext_read_buf k)) then
    let '(ok, buf) := buf_copy buf (k_plaintext_read_buf k) in
    (ok, set_active_key m (k <| k_plaintext_read_buf := (k_plaintext_read_buf k) <| b_len := 0 |> |>), buf)
  else (false, m, buf).

(** ** Authentication *)

Definition acf_merge (s1 s2 : acf) : acf :=
  match s1, s2 with
  | ACF_FAILED, _ | _, ACF_FAILED => ACF_FAILED
  | ACF_UNDEFINED, _ | _, ACF_UNDEFINED => ACF_UNDEFINED
  | ACF_DISABLED, ACF_DISABLED => ACF_DISABLED
  | _, _ => ACF_SUCCEEDED
  end.

(** The client gets a new token unless this is its first key. *)
Definition ssl_session_fully_authenticated (m : tls_multi) : option tls_multi :=
  if k_key_id (ses_primary (m_session m TM_ACTIVE)) =? 0 then Some m
  else if m_auth_token_initial m then '(_, m) ← tls_send_payload m (out_token env); Some m
  else Some m.

Definition set_scanned (m : tls_multi) (i : nat) (f : key_state -> key_state) : tls_multi :=
  put_key_scan m (alter f i (key_scan m)).

(** [active], [success], [deferred]. *)
Definition scan_auth (now : Z) (r : option (tls_multi * (bool * bool * bool))) (i : nat)
  : option (tls_multi * (bool * bool * bool)) :=
  '(m, (active, success, deferred)) ← r;
  k ← key_scan m !! i;
  if DECRYPT_KEY_ENABLED m k then
    if bool_decide (k_authenticated k <> KS_AUTH_FALSE) then
      let '(s1, s2) := out_acf env now i in
      match acf_merge s1 s2 with
      | ACF_SUCCEEDED | ACF_DISABLED =>
          m ← (if bool_decide (i = 0%nat) && bool_decide (k_authenticated k = KS_AUTH_DEFERRED)
               then ssl_session_fully_authenticated m else Some m);
          Some (set_scanned m i (fun k => k <| k_authenticated := KS_AUTH_TRUE |>), (true, true, deferred))
      | ACF_UNDEFINED => Some (m, (true, success, deferred || (now <? k_auth_deferred_expire k)))
      | ACF_FAILED => Some (set_scanned m i (fun k => k <| k_authenticated := KS_AUTH_FALSE |>), (true, success, deferred))
      end
    else Some (m, (true, success, deferred))
  else Some (m, (active, success, deferred)).

Definition tls_authentication_status (now : Z) (m : tls_multi) (latency : Z) : option (tls_authentication * tls_multi) :=
  if negb (latency =? 0) && negb (m_tas_last m =? 0) && (now <=? m_tas_last m + latency)
  then Some (TLS_AUTHENTICATION_UNDEFINED, m)
  else
    let m := m <| m_tas_last := now |> in
    '(m, (active, success, deferred)) ← fold_left (scan_auth now) (seq 0 3) (Some (m, (false, false, false)));
    Some (if success : bool then TLS_AUTHENTICATION_SUCCEEDED
          else if negb active || deferred then TLS_AUTHENTICATION_DEFERRED else TLS_AUTHENTICATION_FAILED, m).

(** ** Processing *)

(** What [tls_multi_process] works on. *)
Record mp := mkmp {
  mp_multi : tls_multi;
  mp_world : world;
  mp_link : buffer;
  mp_link_addr : option openvpn_sockaddr;
  mp_wakeup : Z;
  mp_info : link_socket_info;
  mp_active : bool;
  mp_error : bool
}.
#[export] Instance eta_mp : EtaOf mp := fun r =>
  mkmp (mp_multi r) (mp_world r) (mp_link r) (mp_link_addr r) (mp_wakeup r) (mp_info r) (mp_active r) (mp_error r).

Definition mp_ses (c : mp) (i : session_index) : tls_session := m_session (mp_multi c) i.

(** One call of [tls_process] on a session of the peer. *)
Definition process_session (c : mp) (i : session_index) : option (bool * option openvpn_sockaddr * mp) :=
  let m := mp_multi c in
  '(active, p) ← tls_process env (bool_decide (m_multi_state m = CAS_SUCCEEDED))
                   (mktp (m_opt m) (m_peer_info m) (mp_ses c i) (tick (mp_world c)) false (mp_link c) None false (mp_wakeup c) (mp_info c));
  Some (active : bool, p_addr p,
        c <| mp_multi := set_session (m <| m_opt := p_opt p |> <| m_peer_info := p_peer_info p |>) i (p_ses p) |>
          <| mp_world := p_world p |> <| mp_link := p_link p |> <| mp_wakeup := p_wakeup p |> <| mp_info := p_info p |>).

(** The body of the loop over the sessions. *)
Definition multi_step (c : mp) (i : session_index) : option mp :=
  let s := mp_ses c i in
  let s := if bool_decide (i = TM_ACTIVE) && (k_state (ses_primary s) =? S_INITIAL)
              && link_socket_actual_defined (li_actual (mp_info c))
           then s <| ses_primary := (ses_primary s) <| k_remote_addr := li_actual (mp_info c) |> |> else s in
  let c := c <| mp_multi := set_session (mp_multi c) i s |> in
  if (S_INITIAL <=? k_state (ses_primary s)) && link_socket_actual_defined (k_remote_addr (ses_primary s)) then
    '(active, tla, c) ← process_session c i;
    let c := if active : bool then c <| mp_active := true |> else c in
    let c := match tla with
             | Some a => c <| mp_multi := (mp_multi c) <| m_to_link_addr := a |> |> <| mp_link_addr := Some a |>
             | None => c
             end in
    if k_state (ses_primary (mp_ses c i)) =? S_ERROR then
      let m := (mp_multi c) <| m_n_soft_errors := m_n_soft_errors (mp_multi c) + 1 |> in
      let c := if bool_decide (i = TM_ACTIVE) then c <| mp_error := true |> else c in
      '(w, m) ←
        (if bool_decide (i = TM_ACTIVE) && (S_ACTIVE <=? k_state (ses_lame (m_session m i)))
            && negb (op_single_session (m_opt m))
         then move_session (out_prng env) (out_sid_tries env) (mp_world c) m TM_LAME_DUCK TM_ACTIVE true
         else reset_session (out_prng env) (out_sid_tries env) (mp_world c) m i);
      Some (c <| mp_multi := m |> <| mp_world := w |>)
    else Some c
  else Some c.

(** Whether some key state still carries data. *)
Definition any_active (m : tls_multi) : bool := existsb (fun k => S_ACTIVE <=? k_state k) (key_scan m).

(** Expiry of the retiring session and promotion of the untrusted one. *)
Definition multi_turnover (c : mp) : option mp :=
  '(die, wakeup) ← lame_duck_must_die (w_now (mp_world c)) (mp_ses c TM_LAME_DUCK) (mp_wakeup c);
  let c := c <| mp_wakeup := wakeup |> in
  let c := if die : bool
           then c <| mp_multi := set_session (mp_multi c) TM_LAME_DUCK (tls_session_free (mp_ses c TM_LAME_DUCK) true) |>
           else c in
  if DECRYPT_KEY_ENABLED (mp_multi c) (ses_primary (mp_ses c TM_UNTRUSTED)) then
    '(w, m) ← move_session (out_prng env) (out_sid_tries env) (mp_world c) (mp_multi c) TM_ACTIVE TM_UNTRUSTED true;
    Some (c <| mp_multi := m |> <| mp_world := w |>)
  else Some c.

Definition count_hard_error (c : mp) : mp :=
  if mp_error c && negb (any_active (mp_multi c))
  then c <| mp_multi := (mp_multi c) <| m_n_hard_errors := m_n_hard_errors (mp_multi c) + 1 |> |> else c.

Definition tls_multi_process (w : world) (m : tls_multi) (to_link : buffer) (info : link_socket_info) (wakeup : Z)
  : option (tlsmp * mp) :=
  let c := mkmp m w to_link None wakeup info false false in
  c ← multi_step c TM_ACTIVE;
  c ← multi_step c TM_UNTRUSTED;
  c ← multi_step c TM_LAME_DUCK;
  let c := c <| mp_world := tick (mp_world c) |> in
  '(tas, m) ← tls_authentication_status (w_now (mp_world c)) (mp_multi c) TLS_MULTI_AUTH_STATUS_INTERVAL;
  c ← multi_turnover (c <| mp_multi := m |>);
  Some (if bool_decide (tas = TLS_AUTHENTICATION_FAILED) then TLSMP_KILL
        else if mp_active c then TLSMP_ACTIVE else TLSMP_INACTIVE, count_hard_error c).

(** ** Packets of the peer *)

(** [read_control_auth] for a session; all sessions share the store of packet ids. *)
Definition session_read (now : Z) (m : tls_multi) (i : session_index) (buf : buffer) : option (bool * buffer * tls_multi) :=
  let shared := o_pid_persist (tw_opt (op_tls_wrap (m_opt m))) in
  let wrap := ses_tls_wrap (m_session m i) in
  '(ok, buf, c) ← read_control_auth now buf (wrap <| tw_opt := (tw_opt wrap) <| o_pid_persist := shared |> |>) (out_script env);
  let m := set_session m i ((m_session m i) <| ses_tls_wrap := c |>) in
  let g := op_tls_wrap (m_opt m) in
  Some (ok : bool, buf,
        m <| m_opt := (m_opt m) <| op_tls_wrap :=
          g <| tw_opt := (tw_opt g) <| o_pid_persist := o_pid_persist (tw_opt c) |> |> |> |>).

(** The session whose peer sent this session id. *)
Definition find_session (m : tls_multi) (sid : list Z) : option session_index :=
  let found i := session_id_equal (k_session_id_remote (ses_primary (m_session m i))) sid in
  if found TM_ACTIVE then Some TM_ACTIVE
  else if found TM_UNTRUSTED then Some TM_UNTRUSTED
  else if found TM_LAME_DUCK then Some TM_LAME_DUCK else None.

(** Where a control packet goes: an error, the session it opens or continues, with
    [new_link] and [do_burst], or a new untrusted session. *)
Inductive route := RouteError | RouteSession (i : session_index) (new_link do_burst : bool) | RouteNew.

Definition route_packet (m : tls_multi) (op : Z) (sid : list Z) : route :=
  match find_session m sid with
  | Some TM_LAME_DUCK => RouteError
  | Some i => RouteSession i false false
  | None =>
      if is_hard_reset_method2 op then
        if negb (session_id_defined (k_session_id_remote (ses_primary (m_session m TM_ACTIVE)))) then
          if op_single_session (m_opt m) && negb (m_n_sessions m =? 0) then RouteError
          else RouteSession TM_ACTIVE true true
        else if op_single_session (m_opt m) then RouteError else RouteNew
      else RouteError
  end.

(** Whether the packet was taken in, or was too big. *)
Definition recv_data (op : Z) (buf : buffer) (k : key_state) : option (bool * key_state) :=
  if negb (op =? P_ACK_V1) && reliable_can_get (k_rec_reliable k) then
    match reliable_ack_read_packet_id buf with
    | (Some id, buf) =>
        if reliable_wont_break_sequentiality (k_rec_reliable k) id then
          '(ok, k) ←
            (if reliable_not_replay (k_rec_reliable k) id then
               '(got, rec) ← reliable_get_buf (k_rec_reliable k);
               i ← got;
               e ← rel_array rec !! i;
               let '(ok, b) := buf_copy (e_buf e) buf in
               let rec := set_entry rec i (fun e => e <| e_buf := b |>) in
               if negb ok then Some (false, k <| k_rec_reliable := rec |>)
               else rec ← reliable_mark_active_incoming rec i id op; Some (true, k <| k_rec_reliable := rec |>)
             else Some (true, k));
          if ok : bool
          then Some (true, k <| k_rec_ack := (reliable_ack_acknowledge_packet_id (k_rec_ack k) id).2 |>)
          else Some (false, k)
        else Some (true, k)
    | (None, _) => Some (true, k)
    end
  else Some (true, k).

Definition soft_error (m : tls_multi) : tls_multi := m <| m_n_soft_errors := m_n_soft_errors m + 1 |>.

(** An authenticated packet, from the session checks on. *)
Definition accept_packet (now : Z) (m : tls_multi) (i : session_index) (from : openvpn_sockaddr) (sid : list Z)
    (op key_id : Z) (new_link do_burst : bool) (buf : buffer) : option (bool * tls_multi) :=
  let s := m_session m i in
  let k := ses_primary s in
  ASSERT negb (k_state k =? S_UNDEF) ;;
  ASSERT negb (k_state k =? S_ERROR) ;;
  ASSERT session_id_defined (ses_session_id s) ;;
  same ← (if new_link then Some true else link_socket_actual_match (k_remote_addr k) from);
  if negb (same : bool) then Some (true, soft_error m)
  else
    let k := if new_link then k <| k_session_id_remote := sid |> <| k_remote_addr := from |> else k in
    let m := if new_link then m <| m_n_sessions := m_n_sessions m + 1 |> else m in
    let burst := do_burst && negb (ses_burst s) in
    let k := if burst then k <| k_send_reliable := reliable_schedule_now now (k_send_reliable k) |> else k in
    let s := if burst then s <| ses_burst := true |> else s in
    let m := set_session m i (s <| ses_primary := k |>) in
    if negb (k_key_id k =? key_id) then Some (true, soft_error m)
    else
      let '(ok, send_ack, buf) := reliable_ack_read (mkack []) buf (ses_session_id s) in
      if negb ok then Some (true, soft_error m)
      else
        let k := k <| k_send_reliable := reliable_send_purge (k_send_reliable k) send_ack |> in
        '(ok, k) ← recv_data op buf k;
        let m := set_session m i (s <| ses_primary := k |>) in
        Some (true, if ok : bool then m else soft_error m).

(** A control packet; the flag is whether it was authenticated. *)
Definition control_packet (w : world) (m : tls_multi) (from : openvpn_sockaddr) (buf : buffer) (op key_id : Z)
  : option (bool * world * tls_multi) :=
  if (op <? P_FIRST_OPCODE) || (P_LAST_OPCODE <? op) then Some (false, w, soft_error m)
  else if is_hard_reset_method2 op &&
          ((((op =? P_CONTROL_HARD_RESET_CLIENT_V2) || (op =? P_CONTROL_HARD_RESET_CLIENT_V3)) && negb (op_server (m_opt m)))
           || ((op =? P_CONTROL_HARD_RESET_SERVER_V2) && op_server (m_opt m))) then Some (false, w, soft_error m)
  else
    match session_id_read (buf_advance buf 1).2 with
    | (None, _) => Some (false, w, soft_error m)
    | (Some sid, _) =>
        if negb (session_id_defined sid) then Some (false, w, soft_error m)
        else
          match route_packet m op sid with
          | RouteError => Some (false, w, soft_error m)
          | RouteNew =>
              '(ok, buf, m) ← session_read (w_now w) m TM_UNTRUSTED buf;
              if negb (ok : bool) then Some (false, w, soft_error m)
              else
                let m := set_session m TM_UNTRUSTED ((m_session m TM_UNTRUSTED) <| ses_untrusted_addr := from |>) in
                '(ret, m) ← accept_packet (w_now w) m TM_UNTRUSTED from sid op key_id true false buf;
                Some (ret, w, m)
          | RouteSession i new_link do_burst =>
              let m := if new_link then set_session m i ((m_session m i) <| ses_untrusted_addr := from |>) else m in
              same ← (if new_link then Some true
                      else link_socket_actual_match (k_remote_addr (ses_primary (m_session m i))) from);
              if negb (same : bool) then Some (false, w, soft_error m)
              else
                let soft := op =? P_CONTROL_SOFT_RESET_V1 in
                let renew := soft && DECRYPT_KEY_ENABLED m (ses_primary (m_session m i)) in
                '(ok, buf, m) ← session_read (w_now w) m i buf;
                if negb (ok : bool) then Some (false, w, soft_error m)
                else
                  '(w, m) ← (if renew then '(w, s) ← key_state_soft_reset w (m_opt m) (m_session m i); Some (w, set_session m i s)
                             else Some (w, m));
                  '(ret, m) ← accept_packet (w_now w) m i from sid op key_id new_link (do_burst || (soft && negb renew)) buf;
                  Some (ret, w, m)
          end
    end.

(** Answers the result, the packet behind its header when it carries data (and a
    packet of length 0 otherwise), the key to decrypt it with, and the start of the
    authenticated data. *)
Definition tls_pre_decrypt (w : world) (m : tls_multi) (from : openvpn_sockaddr) (buf : buffer) (floated : bool)
  : option (bool * world * tls_multi * buffer * option nat * option Z) :=
  if b_len buf <=? 0 then Some (false, w, m, buf <| b_len := 0 |>, None, None)
  else
    p ← buf_bptr buf;
    let pkt_firstbyte := buf_peek buf p in
    let op := Z.shiftr pkt_firstbyte P_OPCODE_SHIFT in
    if (op =? P_DATA_V1) || (op =? P_DATA_V2) then
      '(d, buf, opt, ad_start) ← handle_data_channel_packet (data_multi m) from buf floated;
      Some (false, w, data_multi_put m d, buf, opt, ad_start)
    else
      '(ret, w, m) ← control_packet w m from buf op (Z.land pkt_firstbyte P_KEY_ID_MASK);
      Some (ret : bool, w, m, buf <| b_len := 0 |>, None, None).

End Multi.
