(* ===== verification/TlsTurnover.v ===== *)
(** Which session of a peer is the active one: what replaces it, and which packets
    reach it. *)
From stdpp Require Import list relations.
From S2P Require Import Prelude Integer Buffer PacketId Reliable ReliableProto Mtu Crypto CryptoToy DataChannel KeyExchange KeyDerive TlsCrypt ControlWrap TlsState TlsProcess TlsToy TlsLoop TlsHandshake TlsMulti.

Section Turnover.
Context `{EvpKeyLib} `{TlsLib}.
Context (env : outside).
#[local] Arguments tls_process : simpl never.
#[local] Arguments tls_session_init : simpl never.
#[local] Arguments key_state_init : simpl never.

(** ** Fresh sessions *)

(** What [tls_session_init] makes. *)
Record fresh_session (o : tls_options) (s : tls_session) : Prop := mkfs {
  fs_sid : session_id_defined (ses_session_id s) = true;
  fs_state : k_state (ses_primary s) = S_INITIAL;
  fs_key_id : k_key_id (ses_primary s) = 0;
  fs_opcode : k_initial_opcode (ses_primary s) = first_opcode o;
  fs_next : ses_key_id s = 1;
  fs_remote : session_id_defined (k_session_id_remote (ses_primary s)) = false;
  fs_unkeyed : kb_initialized (o_key_ctx_bi (k_crypto_options (ses_primary s))) = false;
  fs_auth : k_authenticated (ses_primary s) = KS_AUTH_FALSE;
  fs_lame : ses_lame s = key_state_zero }.

Lemma random_sid_defined prng tries w sid w' : session_id_random prng tries w = Some (sid, w') -> session_id_defined sid = true.
Proof.
  revert w; induction tries as [|tries IH]; intros w; [done|]. cbn [session_id_random]. destruct (session_id_defined (prng _ _)) eqn:E; [|apply IH].
  by intros [= <- <-].
Qed.

Lemma key_state_init_remote w o s w' s' k : key_state_init w o s = Some (w', s', k) -> k_session_id_remote k = replicate (Z.to_nat SID_SIZE) 0.
Proof. unfold key_state_init. intros Hi. repeat (apply bind_Some in Hi as (? & ? & Hi)). by injection Hi as <- <- <-. Qed.

Lemma tls_session_init_fresh prng tries w o w' s : tls_session_init prng tries w o = Some (w', s) -> fresh_session o s.
Proof.
  unfold tls_session_init. intros Hi. apply bind_Some in Hi as ([sid w1] & Hs & Hi). apply bind_Some in Hi as (work & _ & Hi).
  apply bind_Some in Hi as (pid & _ & Hi). apply bind_Some in Hi as ([[w2 s2] k] & Hk & Hi). injection Hi as <- <-.
  apply random_sid_defined in Hs. pose proof (key_state_init_remote _ _ _ _ _ _ Hk) as Hrem. apply key_state_init_fresh in Hk as ([] & _ & ->).
  constructor; try done; cbn. by rewrite Hrem.
Qed.

(** ** One session *)

(** The same session with the same peer. *)
Definition same_session (s s' : tls_session) : Prop :=
  ses_session_id s' = ses_session_id s /\ k_session_id_remote (ses_primary s') = k_session_id_remote (ses_primary s).

Lemma same_session_trans s1 s2 s3 : same_session s1 s2 -> same_session s2 s3 -> same_session s1 s3.
Proof. unfold same_session. intros [] []. split; congruence. Qed.

Lemma process_same succeeded p r p' : tls_process env succeeded p = Some (r, p') ->
  same_session (p_ses p) (p_ses p') /\ same_opt (p_opt p) (p_opt p').
Proof.
  intros Hx. destruct (process_call env succeeded p r p' Hx) as (p1 & p2 & (s & w & lame & Hs & _ & _ & Ho & _ & _ & Hr) & F & Hend).
  assert (same_session (p_ses p) (p_ses p1)) as S1.
  { rewrite Hs. destruct (renegotiate _ _ _); [destruct Hr as [[] _]; by split|destruct Hr as [-> _]; by split]. }
  assert (same_session (p_ses p1) (p_ses p2)) as S2 by (destruct F as [_ [] _ _ _]; by split).
  assert (same_opt (p_opt p) (p_opt p2)) as O by (destruct F as [O _ _ _ _]; by rewrite Ho in O).
  destruct Hend as [[_ ->]|[-> _]]; (split; [by eapply same_session_trans|exact O]).
Qed.

Lemma set_session_eq m i s : m_session (set_session m i s) i = s.
Proof. cbn. by rewrite decide_True by done. Qed.
Lemma set_session_ne m i j s : i <> j -> m_session (set_session m i s) j = m_session m j.
Proof. intros. cbn. by rewrite decide_False by done. Qed.

(** What a step of the loop leaves of session [i]: itself, or, when it failed, a new
    one. *)
Record stepped (c c' : mp) (i : session_index) : Prop := mkstepped {
  st_opt : same_opt (m_opt (mp_multi c)) (m_opt (mp_multi c'));
  st_others : forall j, j <> i -> mp_ses c' j = mp_ses c j \/ i = TM_ACTIVE /\ j = TM_LAME_DUCK /\ mp_error c' = true;
  st_self : mp_error c' = mp_error c /\ same_session (mp_ses c i) (mp_ses c' i) \/
            (i = TM_ACTIVE -> mp_error c' = true) /\ (i <> TM_ACTIVE -> mp_error c' = mp_error c) /\
            exists o, same_opt (m_opt (mp_multi c)) o /\ fresh_session o (mp_ses c' i) }.

Lemma move_session_spec prng tries w m dest src w' m' : move_session prng tries w m dest src true = Some (w', m') ->
  m_session m' dest = m_session m src /\ fresh_session (m_opt m) (m_session m' src) /\ m_opt m' = m_opt m /\ dest <> src /\
  (forall j, j <> dest -> j <> src -> m_session m' j = m_session m j).
Proof.
  unfold move_session. destruct (bool_decide_reflect (src = dest)); cbn [negb]; [done|]. intros Hi. apply bind_Some in Hi as ([w1 s] & Hs & Hi).
  injection Hi as <- <-. apply tls_session_init_fresh in Hs.
  split; [rewrite set_session_ne, set_session_eq by done; by apply set_session_ne|]. split; [by rewrite set_session_eq|]. split; [done|].
  split; [done|]. intros j Hd Hs'. by rewrite !set_session_ne by done.
Qed.

Lemma reset_session_spec prng tries w m i w' m' : reset_session prng tries w m i = Some (w', m') ->
  fresh_session (m_opt m) (m_session m' i) /\ m_opt m' = m_opt m /\ (forall j, j <> i -> m_session m' j = m_session m j).
Proof.
  unfold reset_session. intros Hi. apply bind_Some in Hi as ([w1 s] & Hs & Hi). injection Hi as <- <-. apply tls_session_init_fresh in Hs.
  split; [by rewrite set_session_eq|]. split; [done|]. intros j Hj. by rewrite !set_session_ne by done.
Qed.

Lemma multi_step_spec c i c' : multi_step env c i = Some c' -> stepped c c' i.
Proof.
  unfold multi_step. set (s := if bool_decide (i = TM_ACTIVE) && _ && _ then _ else _). intros Hx.
  assert (same_session (mp_ses c i) s) as Hs by (unfold s; destruct (_ && _ && _); by split).
  set (c1 := c <| mp_multi := set_session (mp_multi c) i s |>) in *.
  assert (forall j, j <> i -> mp_ses c1 j = mp_ses c j) as Hc1 by (intros j Hj; by apply set_session_ne).
  assert (mp_ses c1 i = s) as Hci by apply set_session_eq.
  destruct (_ && _) in Hx; cycle 1.
  { injection Hx as <-. constructor.
    - apply same_opt_refl.
    - intros j Hj. left. by apply Hc1.
    - left. by rewrite Hci. }
  apply bind_Some in Hx as ([[active tla] c2] & Hp & Hx). unfold process_session in Hp. apply bind_Some in Hp as ([r p] & Hp & Ht).
  injection Ht as _ _ <-. apply process_same in Hp as [Hss Hoo].
  change (same_session (mp_ses c1 i) (p_ses p)) in Hss. change (same_opt (m_opt (mp_multi c)) (p_opt p)) in Hoo.
  set (c3 := match tla with Some _ => _ | None => _ end) in Hx.
  assert (m_opt (mp_multi c3) = p_opt p /\ mp_error c3 = mp_error c /\ mp_ses c3 i = p_ses p /\ forall j, j <> i -> mp_ses c3 j = mp_ses c j)
    as (E1 & E2 & E3 & E4).
  { unfold c3. destruct tla, active; (split; [done|]); (split; [done|]); (split; [apply set_session_eq|]); intros j Hj; rewrite <- Hc1 by done;
      exact (set_session_ne _ _ _ _ (not_eq_sym Hj)). }
  rewrite Hci in Hss.
  assert (same_session (mp_ses c i) (p_ses p)) as Hsame by by eapply same_session_trans.
  destruct (k_state (ses_primary (mp_ses c3 i)) =? S_ERROR).
  - apply bind_Some in Hx as ([w m] & Hm & Hx). injection Hx as <-.
    clearbody c3. clear Hc1 Hci Hss. clear c1. clear Hs. clear s. destruct (bool_decide_reflect (i = TM_ACTIVE)) as [->|Hi]; cbn [andb] in Hm.
    + destruct (_ && _) in Hm.
      * apply move_session_spec in Hm as (M1 & M2 & M3 & _ & M4). constructor; cbn; [by rewrite M3; cbn; rewrite E1|..].
        -- intros j Hj. destruct (decide (j = TM_LAME_DUCK)) as [->|Hl]; [by right|left]. unfold mp_ses at 1. cbn. rewrite M4 by done. by apply E4.
        -- right. split; [done|]. split; [done|]. eexists. split; [|exact M2]. cbn. by rewrite E1.
      * apply reset_session_spec in Hm as (M1 & M2 & M3). constructor; cbn; [by rewrite M2; cbn; rewrite E1|..].
        -- intros j Hj. left. unfold mp_ses at 1. cbn. rewrite M3 by done. by apply E4.
        -- right. split; [done|]. split; [done|]. eexists. split; [|exact M1]. cbn. by rewrite E1.
    + apply reset_session_spec in Hm as (M1 & M2 & M3). constructor; cbn; [by rewrite M2; cbn; rewrite E1|..].
      * intros j Hj. left. unfold mp_ses at 1. cbn. rewrite M3 by done. by apply E4.
      * right. split; [done|]. split; [by rewrite E2|]. eexists. split; [|exact M1]. cbn. by rewrite E1.
  - injection Hx as <-. constructor; [by rewrite E1|intros j Hj; left; by apply E4|]. left. rewrite E2, E3. done.
Qed.

(** ** Authentication *)

(** What [tls_authentication_status] leaves alone in a session. *)
Record auth_same (s s' : tls_session) : Prop := mkauth {
  au_same : same_session s s';
  au_state : k_state (ses_primary s') = k_state (ses_primary s);
  au_key_id : k_key_id (ses_primary s') = k_key_id (ses_primary s);
  au_lame : k_state (ses_lame s') = k_state (ses_lame s);
  au_die : k_must_die (ses_lame s') = k_must_die (ses_lame s) }.

Definition auth_only (m m' : tls_multi) : Prop := m_opt m' = m_opt m /\ forall i, auth_same (m_session m i) (m_session m' i).

Lemma auth_same_refl s : auth_same s s.
Proof. by constructor. Qed.
Lemma auth_only_refl m : auth_only m m.
Proof. split; [done|]. intros. apply auth_same_refl. Qed.
Lemma auth_only_trans m1 m2 m3 : auth_only m1 m2 -> auth_only m2 m3 -> auth_only m1 m3.
Proof.
  intros [O1 S1] [O2 S2]. split; [congruence|]. intros i. destruct (S1 i), (S2 i). constructor; [by eapply same_session_trans|congruence..].
Qed.

Lemma auth_only_set m i s : auth_same (m_session m i) s -> auth_only m (set_session m i s).
Proof.
  intros Hs. split; [done|]. intros j. destruct (decide (i = j)) as [->|Hj]; [by rewrite set_session_eq|].
  rewrite set_session_ne by done. apply auth_same_refl.
Qed.

Lemma set_scanned_auth m i f : (forall k, exists a, f k = k <| k_authenticated := a |>) -> auth_only m (set_scanned m i f).
Proof.
  intros Hf. unfold set_scanned, key_scan, put_key_scan.
  assert (forall k, k_state (f k) = k_state k /\ k_key_id (f k) = k_key_id k /\ k_session_id_remote (f k) = k_session_id_remote k /\ k_must_die (f k) = k_must_die k) as Hk
    by (intros k; by destruct (Hf k) as [a ->]).
  destruct i as [|[|[|i]]]; cbn [alter list_alter]; (eapply auth_only_trans; [apply auth_only_set|apply auth_only_set; rewrite set_session_ne by done]);
    constructor; cbn; try done; try split; try done; by apply Hk.
Qed.

Lemma send_payload_auth m data b m' : tls_send_payload m data = Some (b, m') -> auth_only m m'.
Proof.
  unfold tls_send_payload. case_match.
  - intros Hx. apply bind_Some in Hx as (ssl & _ & Hx). destruct (key_state_write_plaintext_const _ _) as [st ssl']. injection Hx as _ <-.
    apply auth_only_set. by constructor.
  - intros [= _ <-]. apply auth_only_set. by constructor.
Qed.

Lemma scan_auth_only now m f i m' f' : scan_auth env now (Some (m, f)) i = Some (m', f') -> auth_only m m'.
Proof.
  unfold scan_auth. destruct f as [[active success] deferred]. cbn [mbind option_bind]. intros Hx. apply bind_Some in Hx as (k & _ & Hx).
  destruct (DECRYPT_KEY_ENABLED m k); [|injection Hx as <- _; apply auth_only_refl].
  destruct (bool_decide _); [|injection Hx as <- _; apply auth_only_refl]. destruct (out_acf env now i) as [s1 s2].
  assert (forall m1, (if bool_decide (i = 0%nat) && bool_decide (k_authenticated k = KS_AUTH_DEFERRED)
      then ssl_session_fully_authenticated env m else Some m) = Some m1 -> auth_only m m1) as Hfull.
  { intros m1. destruct (bool_decide (i = 0%nat) && _); [|intros [= <-]; apply auth_only_refl]. unfold ssl_session_fully_authenticated.
    destruct (k_key_id _ =? 0); [intros [= <-]; apply auth_only_refl|]. destruct (m_auth_token_initial m); [|intros [= <-]; apply auth_only_refl].
    intros Hs. apply bind_Some in Hs as ([b m2] & Hs & He). injection He as <-. by eapply send_payload_auth. }
  assert (forall m1 a, auth_only m1 (set_scanned m1 i (fun k => k <| k_authenticated := a |>))) as Hset by (intros; apply set_scanned_auth; by eexists).
  destruct (acf_merge s1 s2).
  - injection Hx as <- _. apply auth_only_refl.
  - apply bind_Some in Hx as (m1 & Hm & Hx). injection Hx as <- _. eapply auth_only_trans; [by apply Hfull|apply Hset].
  - apply bind_Some in Hx as (m1 & Hm & Hx). injection Hx as <- _. eapply auth_only_trans; [by apply Hfull|apply Hset].
  - injection Hx as <- _. apply Hset.
Qed.

Lemma authentication_only now m latency tas m' : tls_authentication_status env now m latency = Some (tas, m') -> auth_only m m'.
Proof.
  unfold tls_authentication_status. case_match; [intros [= _ <-]; apply auth_only_refl|]. intros Hx. apply bind_Some in Hx as ([m1 [[a b] d]] & Hf & Hx).
  injection Hx as _ <-. cbn [seq fold_left] in Hf.
  assert (forall r i m2 f2, scan_auth env now r i = Some (m2, f2) -> exists m1 f1, r = Some (m1, f1) /\ auth_only m1 m2) as Hs.
  { intros [[m1' f1]|] i m2 f2 Hr; [|done]. exists m1', f1. split; [done|]. by eapply scan_auth_only. }
  apply Hs in Hf as (m2 & f2 & Hf & A2). apply Hs in Hf as (m3 & f3 & Hf & A3). apply Hs in Hf as (m4 & f4 & [= <- _] & A4).
  eapply auth_only_trans; [|exact A2]. eapply auth_only_trans; [|exact A3]. eapply auth_only_trans; [|exact A4]. split; [done|]. intros. apply auth_same_refl.
Qed.

(** ** Turnover *)

(** A session that waits for a peer. *)
Record awaits_peer (s : tls_session) : Prop := mkawaits {
  ap_sid : session_id_defined (ses_session_id s) = true;
  ap_state : k_state (ses_primary s) = S_INITIAL;
  ap_key_id : k_key_id (ses_primary s) = 0;
  ap_remote : session_id_defined (k_session_id_remote (ses_primary s)) = false }.

Lemma fresh_awaits o s : fresh_session o s -> awaits_peer s.
Proof. intros []. by constructor. Qed.
Lemma auth_awaits s s' : auth_same s s' -> awaits_peer s -> awaits_peer s'.
Proof. intros [[E1 E2] E3 E4 _ _] []. constructor; congruence. Qed.

Lemma multi_turnover_spec c c' : multi_turnover env c = Some c' ->
  mp_error c' = mp_error c /\
  (mp_ses c' TM_ACTIVE = mp_ses c TM_ACTIVE /\ mp_ses c' TM_UNTRUSTED = mp_ses c TM_UNTRUSTED \/
   mp_ses c' TM_ACTIVE = mp_ses c TM_UNTRUSTED /\ awaits_peer (mp_ses c' TM_UNTRUSTED) /\
   DECRYPT_KEY_ENABLED (mp_multi c) (ses_primary (mp_ses c TM_UNTRUSTED)) = true).
Proof.
  unfold multi_turnover. intros Hx. apply bind_Some in Hx as ([die wakeup] & _ & Hx).
  set (c1 := if die then _ else _) in Hx.
  assert (mp_error c1 = mp_error c /\ mp_ses c1 TM_ACTIVE = mp_ses c TM_ACTIVE /\ mp_ses c1 TM_UNTRUSTED = mp_ses c TM_UNTRUSTED /\
    m_opt (mp_multi c1) = m_opt (mp_multi c)) as (E1 & E2 & E3 & E4).
  { unfold c1. destruct die; [|done]. split; [done|]. split; [exact (set_session_ne _ TM_LAME_DUCK TM_ACTIVE _ ltac:(done))|].
    split; [exact (set_session_ne _ TM_LAME_DUCK TM_UNTRUSTED _ ltac:(done))|done]. }
  clearbody c1. destruct (DECRYPT_KEY_ENABLED (mp_multi c1) _) eqn:Hd.
  - apply bind_Some in Hx as ([w m] & Hm & Hx). injection Hx as <-. apply move_session_spec in Hm as (M1 & M2 & _). split; [done|]. right.
    cbn. unfold mp_ses at 1 3. cbn. rewrite M1. split; [exact E3|]. split; [by eapply fresh_awaits|].
    unfold DECRYPT_KEY_ENABLED in *. by rewrite E3, E4 in Hd.
  - injection Hx as <-. rewrite E1, E2, E3. split; [done|]. by left.
Qed.

End Turnover.

(** ** Properties *)

(** C5. Who becomes the active session.  After a call of tls_multi_process the active
    session is the one it was, with the same peer; or its key state failed during the
    call and a new session waits in its place; or the untrusted session of before took
    its place, with its own peer, having both halves of the key exchange (a server has
    sent its half, a client received the other), and a new session waits for untrusted
    peers. *)
Theorem active_session_replaced `{EvpKeyLib} `{TlsLib} env w m link info wakeup r c :
  tls_multi_process env w m link info wakeup = Some (r, c) ->
  let a' := m_session (mp_multi c) TM_ACTIVE in
  mp_error c = false /\ same_session (m_session m TM_ACTIVE) a' \/
  mp_error c = true /\ awaits_peer a' \/
  same_session (m_session m TM_UNTRUSTED) a' /\ S_GOT_KEY - (if op_server (m_opt m) then 1 else 0) <= k_state (ses_primary a') /\
    awaits_peer (m_session (mp_multi c) TM_UNTRUSTED).
Proof.
  intros Hx a'. unfold tls_multi_process in Hx. set (c0 := mkmp _ _ _ _ _ _ _ _) in Hx.
  apply bind_Some in Hx as (c1 & Hc1 & Hx). apply multi_step_spec in Hc1 as [O1 T1 F1].
  apply bind_Some in Hx as (c2 & Hc2 & Hx). apply multi_step_spec in Hc2 as [O2 T2 F2].
  apply bind_Some in Hx as (c3 & Hc3 & Hx). apply multi_step_spec in Hc3 as [O3 T3 F3].
  apply bind_Some in Hx as ([tas m4] & Ha & Hx). apply authentication_only in Ha as [O4 T4]. apply bind_Some in Hx as (c5 & Hc5 & Hx).
  injection Hx as _ <-. apply multi_turnover_spec in Hc5 as [E5 T5]. cbn in E5.
  change (m_session m4 TM_ACTIVE) with (m_session m4 TM_ACTIVE) in *.
  assert (op_server (m_opt m4) = op_server (m_opt m)) as Hsrv.
  { rewrite O4. cbn. rewrite (same_opt_server _ _ O3), (same_opt_server _ _ O2), (same_opt_server _ _ O1). done. }
  assert (mp_error c3 = mp_error c1) as Herr.
  { transitivity (mp_error c2); [destruct F3 as [[E _]|(_ & E & _)]; auto|destruct F2 as [[E _]|(_ & E & _)]; auto]. }
  assert (mp_error c1 = false /\ same_session (m_session m TM_ACTIVE) (mp_ses c1 TM_ACTIVE) \/ mp_error c1 = true /\ awaits_peer (mp_ses c1 TM_ACTIVE)) as Hact.
  { destruct F1 as [[E S]|(E & _ & o & _ & Hf)]; [by left|right]. split; [by apply E|by eapply fresh_awaits]. }
  assert (mp_ses c3 TM_ACTIVE = mp_ses c1 TM_ACTIVE) as E31.
  { transitivity (mp_ses c2 TM_ACTIVE); [by destruct (T3 TM_ACTIVE) as [?|[? _]]|by destruct (T2 TM_ACTIVE) as [?|[? _]]]. }
  assert (same_session (m_session m TM_UNTRUSTED) (mp_ses c3 TM_UNTRUSTED) \/ k_state (ses_primary (mp_ses c3 TM_UNTRUSTED)) = S_INITIAL) as Hunt.
  { destruct (T3 TM_UNTRUSTED) as [->|[? _]]; [done| |done]. destruct F2 as [[_ S]|(_ & _ & o & _ & [])]; [left|by right].
    destruct (T1 TM_UNTRUSTED) as [E|[_ [E _]]]; [done| |done]. by rewrite E in S. }
  assert (a' = mp_ses c5 TM_ACTIVE /\ m_session (mp_multi (count_hard_error c5)) TM_UNTRUSTED = mp_ses c5 TM_UNTRUSTED /\ mp_error (count_hard_error c5) = mp_error c5)
    as (-> & -> & ->) by (unfold a', count_hard_error; by case_match).
  rewrite E5, Herr. destruct T5 as [[-> _]|(-> & Hu & Hd)].
  - destruct Hact as [[E S]|[E A]]; [left|right; left]; (split; [done|]).
    + destruct (T4 TM_ACTIVE) as [S4 _ _ _ _]. change (m_session _ TM_ACTIVE) with (mp_ses c3 TM_ACTIVE) in S4 at 1. rewrite E31 in S4. by eapply same_session_trans.
    + eapply auth_awaits; [apply (T4 TM_ACTIVE)|]. change (awaits_peer (mp_ses c3 TM_ACTIVE)). by rewrite E31.
  - right; right. unfold DECRYPT_KEY_ENABLED in Hd. cbn in Hd. rewrite Hsrv in Hd. apply Z.leb_le in Hd.
    destruct (T4 TM_UNTRUSTED) as [S4 E4 _ _ _]. destruct Hunt as [Hunt|Hi].
    + split; [|by split]. eapply same_session_trans; [exact Hunt|exact S4].
    + exfalso. change (m_session (mp_multi (c3 <| mp_world := tick (mp_world c3) |>)) TM_UNTRUSTED) with (mp_ses c3 TM_UNTRUSTED) in E4. rewrite Hi in E4.
      change (mp_ses _ TM_UNTRUSTED) with (m_session m4 TM_UNTRUSTED) in Hd. rewrite E4 in Hd. unfold S_GOT_KEY, S_INITIAL in Hd. destruct (op_server _); lia.
Qed.

(** A server whose first peer never answered and whose second one has its keys. *)
Definition toy_second : tls_session :=
  let s := toy_session_new true in
  s <| ses_session_id := replicate 8 7 |> <| ses_primary := (ses_primary s) <| k_state := S_ACTIVE |> <| k_remote_addr := osa_zero |> |>.
Definition toy_peer : tls_multi :=
  set_session (set_session (tls_multi_init (toy_options true)) TM_ACTIVE (toy_session_new true)) TM_UNTRUSTED toy_second.
#[local] Notation toy_multi_run := (tls_multi_process toy_env toy_world toy_peer clear_buf toy_info 100).

Lemma active_session_replaced_witness : exists r c, toy_multi_run = Some (r, c) /\
  same_session toy_second (m_session (mp_multi c) TM_ACTIVE) /\ awaits_peer (m_session (mp_multi c) TM_UNTRUSTED).
Proof.
  destruct toy_multi_run as [[r c]|] eqn:E.
  - exists r, c. split; [reflexivity|].
    assert (match toy_multi_run with Some (_, c) => ses_session_id (m_session (mp_multi c) TM_ACTIVE) | None => [] end = replicate 8 7) as Hv
      by (vm_compute; reflexivity).
    assert (match toy_multi_run with Some (_, c) => k_state (ses_primary (m_session (mp_multi c) TM_ACTIVE)) | None => 0 end = S_ACTIVE) as Hw
      by (vm_compute; reflexivity).
    rewrite E in Hv, Hw.  destruct (active_session_replaced toy_env toy_world toy_peer clear_buf toy_info 100 r c E) as [[_ [Hs _]]|[[_ Ha]|(Hs & _ & Hu)]].
    + exfalso. rewrite Hv in Hs. assert (bool_decide (ses_session_id (m_session toy_peer TM_ACTIVE) = replicate 8 7) = false) as Hf by (vm_compute; reflexivity).
      apply bool_decide_eq_false in Hf. apply Hf. symmetry. exact Hs.
    + exfalso. destruct Ha as [_ Hst _ _]. rewrite Hw in Hst. discriminate Hst.
    + split; [exact Hs|exact Hu].
  - exfalso. assert (bool_decide (is_Some toy_multi_run) = true) as Hv by (vm_compute; reflexivity). rewrite E in Hv. discriminate Hv.
Defined.
