(* ===== verification/TlsPackets.v ===== *)
(** Which session of a peer a control packet reaches, and what of it the packet can
    change. *)
From stdpp Require Import list.
From S2P Require Import Prelude Integer Buffer PacketId Reliable ReliableProto Mtu Crypto CryptoToy DataChannel KeyExchange KeyDerive TlsCrypt ControlWrap TlsState TlsProcess TlsToy TlsLoop TlsHandshake TlsMulti TlsTurnover.

Section Packets.
Context `{EvpKeyLib} `{TlsLib}.
Context (env : outside).

(** ** What an accepted packet changes *)

(** A packet changes the queues of a key state and, when it opens a session, its
    peer. *)
Definition queued (peer : option (list Z * openvpn_sockaddr)) (k k' : key_state) : Prop :=
  exists snd rec ack,
    k' = (if peer is Some (sid, from) then k <| k_session_id_remote := sid |> <| k_remote_addr := from |> else k)
           <| k_send_reliable := snd |> <| k_rec_reliable := rec |> <| k_rec_ack := ack |>.

Definition received (peer : option (list Z * openvpn_sockaddr)) (s s' : tls_session) : Prop :=
  exists k burst, queued peer (ses_primary s) k /\ s' = s <| ses_burst := burst |> <| ses_primary := k |>.

Lemma recv_data_queued op buf k r k' : recv_data op buf k = Some (r, k') ->
  exists rec ack, k' = k <| k_rec_reliable := rec |> <| k_rec_ack := ack |>.
Proof.
  assert (exists rec ack, k = k <| k_rec_reliable := rec |> <| k_rec_ack := ack |>) as Hsame
    by (exists (k_rec_reliable k), (k_rec_ack k); by destruct k).
  unfold recv_data. destruct (_ && _); [|by intros [= _ <-]]. destruct (reliable_ack_read_packet_id buf) as [[id|] buf2]; [|by intros [= _ <-]].
  destruct (reliable_wont_break_sequentiality _ _); [|by intros [= _ <-]]. intros Hx. apply bind_Some in Hx as ([ok k1] & Hk & Hx).
  assert (exists rec, k1 = k <| k_rec_reliable := rec |>) as [rec ->].
  { destruct (reliable_not_replay _ _); [|injection Hk as _ <-; exists (k_rec_reliable k); by destruct k].
    apply bind_Some in Hk as ([got rec] & _ & Hk). apply bind_Some in Hk as (i & _ & Hk). apply bind_Some in Hk as (e & _ & Hk).
    destruct (buf_copy _ _) as [ok1 b]. destruct (negb ok1); [injection Hk as _ <-; by eexists|].
    apply bind_Some in Hk as (rec2 & _ & Hk). injection Hk as _ <-. by eexists. }
  destruct ok; injection Hx as _ <-; eexists rec, _; [reflexivity|by destruct k].
Qed.

Lemma received_set peer m i s' : received peer (m_session m i) s' -> received peer (m_session m i) (m_session (set_session m i s') i).
Proof. by rewrite set_session_eq. Qed.

Lemma accept_packet_spec now m i from sid op kid new_link do_burst buf ret m' :
  accept_packet now m i from sid op kid new_link do_burst buf = Some (ret, m') ->
  ret = true /\ (forall j, j <> i -> m_session m' j = m_session m j) /\
  (m_session m' i = m_session m i \/ received (if new_link then Some (sid, from) else None) (m_session m i) (m_session m' i)).
Proof.
  unfold accept_packet. destruct (negb (_ =? S_UNDEF)); [|done]. destruct (negb (_ =? S_ERROR)); [|done]. destruct (session_id_defined _); [|done].
  set (s := m_session m i). set (k := ses_primary s). intros Hx. apply bind_Some in Hx as (same & _ & Hx).
  destruct same; cbn [negb] in Hx; [|injection Hx as <- <-; by auto].
  set (k1 := if new_link then _ else k) in Hx. set (m1 := if new_link then _ else m) in Hx. set (b := do_burst && _) in Hx.
  set (k2 := if b then _ else k1) in Hx. set (s2 := if b then s <| ses_burst := true |> else s) in Hx. set (m2 := set_session m1 i (s2 <| ses_primary := k2 |>)) in Hx.
  assert (m_session m1 = m_session m) as Em by by destruct new_link.
  assert (exists burst, s2 = s <| ses_burst := burst |>) as [burst Hs2] by (unfold s2; destruct b; [by eexists|exists (ses_burst s); by destruct s]).
  assert (exists snd, k2 = k1 <| k_send_reliable := snd |>) as [snd Hk2] by (unfold k2; destruct b; [by eexists|exists (k_send_reliable k1); by destruct k1]).
  assert (forall k', queued (if new_link then Some (sid, from) else None) k k' -> 
     (forall j, j <> i -> m_session (set_session m2 i (s2 <| ses_primary := k' |>)) j = m_session m j) /\
     received (if new_link then Some (sid, from) else None) s (m_session (set_session m2 i (s2 <| ses_primary := k' |>)) i)) as Hput.
  { intros k' Hk'. split.
    - intros j Hj. unfold m2. rewrite !set_session_ne by done. by rewrite Em.
    - rewrite set_session_eq. exists k', burst. split; [exact Hk'|]. by rewrite Hs2. }
  assert (queued (if new_link then Some (sid, from) else None) k k2) as Hq2.
  { exists snd, (k_rec_reliable k1), (k_rec_ack k1). rewrite Hk2. unfold k1. by destruct new_link, k. }
  assert ((forall j, j <> i -> m_session m2 j = m_session m j) /\ received (if new_link then Some (sid, from) else None) s (m_session m2 i)) as Hm2.
  { destruct (Hput k2 Hq2) as [H2a H2b]. split; [|by rewrite set_session_eq in H2b; unfold m2; rewrite set_session_eq].
    intros j Hj. rewrite <- (H2a j Hj). by rewrite (set_session_ne m2 i j) by done. }
  clearbody m2. destruct (negb (k_key_id k2 =? kid)); [injection Hx as <- <-; by destruct Hm2; auto|].
  destruct (reliable_ack_read _ _ _) as [[ok send_ack] buf2]. destruct (negb ok); [injection Hx as <- <-; by destruct Hm2; auto|].
  apply bind_Some in Hx as ([ok2 k3] & Hk3 & Hx). apply recv_data_queued in Hk3 as (rec & ack & Hk3).
  assert (queued (if new_link then Some (sid, from) else None) k k3) as Hq3.
  { eexists _, rec, ack. rewrite Hk3, Hk2. unfold k1. by destruct new_link. }
  destruct (Hput k3 Hq3) as [H3a H3b]. injection Hx as <- <-. split; [done|]. destruct ok2; auto.
Qed.

(** ** Where a packet goes *)

(** The session a packet with this session id reaches: the one of its peer, from the
    peer's address, or, by a hard reset of the other side's role, one that has no peer
    yet ([opens]). *)
Definition addressed (m : tls_multi) (sid : list Z) (from : openvpn_sockaddr) (i : session_index) : Prop :=
  let k := ses_primary (m_session m i) in
  i <> TM_LAME_DUCK /\ k_session_id_remote k = sid /\ link_socket_actual_match (k_remote_addr k) from = Some true.

Definition opens (m : tls_multi) (op : Z) (sid : list Z) (i : session_index) : Prop :=
  op ∈ (if op_server (m_opt m) then [P_CONTROL_HARD_RESET_CLIENT_V2; P_CONTROL_HARD_RESET_CLIENT_V3] else [P_CONTROL_HARD_RESET_SERVER_V2]) /\
  (forall j, k_session_id_remote (ses_primary (m_session m j)) <> sid) /\
  let active := session_id_defined (k_session_id_remote (ses_primary (m_session m TM_ACTIVE))) in
  (i = TM_ACTIVE /\ active = false \/ i = TM_UNTRUSTED /\ active = true /\ op_single_session (m_opt m) = false).

(** A failed authentication touches the wrapping and the record of the address. *)
Definition refused (s s' : tls_session) : Prop := exists wrap addr, s' = s <| ses_tls_wrap := wrap |> <| ses_untrusted_addr := addr |>.

Lemma session_id_equal_iff s1 s2 : session_id_equal s1 s2 = true <-> s1 = s2.
Proof. unfold session_id_equal, bytes_eqb. apply bool_decide_eq_true. Qed.

Lemma find_session_spec m sid :
  match find_session m sid with
  | Some i => k_session_id_remote (ses_primary (m_session m i)) = sid
  | None => forall j, k_session_id_remote (ses_primary (m_session m j)) <> sid
  end.
Proof.
  unfold find_session. destruct (session_id_equal _ sid) eqn:E1; [by apply session_id_equal_iff|].
  destruct (session_id_equal _ sid) eqn:E2 in |- *; [by apply session_id_equal_iff|].
  destruct (session_id_equal _ sid) eqn:E3 in |- *; [by apply session_id_equal_iff|].
  intros j Hj. apply session_id_equal_iff in Hj. destruct j; congruence.
Qed.

Lemma route_packet_spec m op sid :
  match route_packet m op sid with
  | RouteSession i false _ => i <> TM_LAME_DUCK /\ k_session_id_remote (ses_primary (m_session m i)) = sid
  | RouteSession i true _ => i = TM_ACTIVE /\ session_id_defined (k_session_id_remote (ses_primary (m_session m TM_ACTIVE))) = false
  | RouteNew => session_id_defined (k_session_id_remote (ses_primary (m_session m TM_ACTIVE))) = true /\ op_single_session (m_opt m) = false
  | RouteError => True
  end /\
  match route_packet m op sid with
  | RouteSession _ true _ | RouteNew => is_hard_reset_method2 op = true /\ forall j, k_session_id_remote (ses_primary (m_session m j)) <> sid
  | _ => True
  end.
Proof.
  unfold route_packet. pose proof (find_session_spec m sid) as Hf. destruct (find_session m sid) as [[]|]; [done..|].
  destruct (is_hard_reset_method2 op); [|done]. destruct (session_id_defined _) eqn:E; cbn [negb].
  - destruct (op_single_session _) eqn:Eo; done.
  - destruct (_ && _); done.
Qed.

(** The wrapping of session [i] with the store of packet ids the sessions share. *)
Definition shared_wrap (m : tls_multi) (i : session_index) : tls_wrap_ctx :=
  let wrap := ses_tls_wrap (m_session m i) in
  wrap <| tw_opt := (tw_opt wrap) <| o_pid_persist := o_pid_persist (tw_opt (op_tls_wrap (m_opt m))) |> |>.

Definition authentic (now : Z) (m : tls_multi) (i : session_index) (buf : buffer) : Prop :=
  exists buf' ctx, read_control_auth now buf (shared_wrap m i) (out_script env) = Some (true, buf', ctx).

Lemma session_read_refused now m i buf ok buf' m' : session_read env now m i buf = Some (ok, buf', m') ->
  (forall j, j <> i -> m_session m' j = m_session m j) /\ refused (m_session m i) (m_session m' i) /\
  op_server (m_opt m') = op_server (m_opt m) /\ op_transition_window (m_opt m') = op_transition_window (m_opt m) /\
  (ok = true -> authentic now m i buf).
Proof.
  unfold session_read, authentic, shared_wrap. set (c0 := _ <| tw_opt := _ |>). intros Hx. apply bind_Some in Hx as ([[ok1 buf1] c] & Hr & Hx). injection Hx as <- <- <-.
  split; [|split; [|split; [done|split; [done|intros ->; by eexists _, _]]]].
  - intros j Hj. exact (set_session_ne _ i j _ (not_eq_sym Hj)).
  - exists c, (ses_untrusted_addr (m_session m i)).
    etransitivity; [exact (set_session_eq _ i _)|]. by destruct (m_session m i).
Qed.

Lemma hard_reset_role server op : is_hard_reset_method2 op = true ->
  (((op =? P_CONTROL_HARD_RESET_CLIENT_V2) || (op =? P_CONTROL_HARD_RESET_CLIENT_V3)) && negb server)
    || ((op =? P_CONTROL_HARD_RESET_SERVER_V2) && server) = false ->
  op ∈ (if server : bool then [P_CONTROL_HARD_RESET_CLIENT_V2; P_CONTROL_HARD_RESET_CLIENT_V3] else [P_CONTROL_HARD_RESET_SERVER_V2]).
Proof.
  unfold is_hard_reset_method2. rewrite !orb_true_iff, !Z.eqb_eq. intros [[->| ->]| ->]; destruct server; try done; intros _;
    rewrite ?elem_of_cons, ?elem_of_nil; auto.
Qed.

(** What is left of session [i] once the packet is authentic. *)
Definition readied (w : world) (m : tls_multi) (op : Z) (i : session_index) (s : tls_session) : Prop :=
  refused (m_session m i) s \/
  op = P_CONTROL_SOFT_RESET_V1 /\ DECRYPT_KEY_ENABLED m (ses_primary (m_session m i)) = true /\
  exists s1 o, refused (m_session m i) s1 /\ op_transition_window o = op_transition_window (m_opt m) /\ soft_reset (w_now w) o s1 s.

Lemma refused_refl s : refused s s.
Proof. exists (ses_tls_wrap s), (ses_untrusted_addr s). by destruct s. Qed.
Lemma refused_addr s addr s' : refused (s <| ses_untrusted_addr := addr |>) s' -> refused s s'.
Proof. intros (w & a & ->). by exists w, a. Qed.

(** The end of [control_packet]: authentication, a renewal, acceptance. *)
Lemma control_tail w m0 m from buf op kid i sid (renew new_link b : bool) ret w' m' :
  (forall j, j <> i -> m_session m j = m_session m0 j) -> m_opt m = m_opt m0 ->
  (m_session m i = m_session m0 i \/ exists a, m_session m i = (m_session m0 i) <| ses_untrusted_addr := a |>) ->
  (renew = true -> op = P_CONTROL_SOFT_RESET_V1 /\ DECRYPT_KEY_ENABLED m0 (ses_primary (m_session m0 i)) = true) ->
  ('(ok, buf, m) ← session_read env (w_now w) m i buf;
   if negb (ok : bool) then Some (false, w, soft_error m)
   else '(w, m) ← (if renew then '(w, s) ← key_state_soft_reset w (m_opt m) (m_session m i); Some (w, set_session m i s) else Some (w, m));
        '(ret, m) ← accept_packet (w_now w) m i from sid op kid new_link b buf;
        Some (ret : bool, w, m)) = Some (ret, w', m') ->
  (forall j, j <> i -> m_session m' j = m_session m0 j) /\
  (ret = false /\ refused (m_session m0 i) (m_session m' i) \/
   ret = true /\ authentic (w_now w) m0 i buf /\ exists s, readied w m0 op i s /\
     (m_session m' i = s \/ received (if new_link then Some (sid, from) else None) s (m_session m' i))).
Proof.
  intros Hoth Hopt Hself Hren Hx. apply bind_Some in Hx as ([[ok buf1] m1] & Hr & Hx).
  apply session_read_refused in Hr as (R1 & R2 & R3 & R4 & R5).
  assert (refused (m_session m0 i) (m_session m1 i)) as Hrf.
  { destruct Hself as [E|[a E]]; rewrite E in R2; [exact R2|by eapply refused_addr]. }
  assert (ok = true -> authentic (w_now w) m0 i buf) as Hau.
  { intros Hok. destruct (R5 Hok) as (b1 & c1 & Hc). exists b1, c1. rewrite <- Hc. unfold shared_wrap. rewrite Hopt.
    destruct Hself as [->|[a ->]]; done. }
  destruct ok; cbn [negb] in Hx; cycle 1.
  { injection Hx as <- _ <-. split; [|by left]. intros j Hj. etransitivity; [by apply R1|by apply Hoth]. }
  apply bind_Some in Hx as ([w2 m2] & H2 & Hx). apply bind_Some in Hx as ([ret2 m3] & H3 & Hx). injection Hx as <- <- <-.
  apply accept_packet_spec in H3 as (-> & A1 & A2).
  assert ((forall j, j <> i -> m_session m2 j = m_session m1 j) /\ readied w m0 op i (m_session m2 i)) as [B1 B2].
  { destruct renew.
    - apply bind_Some in H2 as ([w3 s] & Hs & He). injection He as <- <-. apply key_state_soft_reset_spec in Hs as [Hs _].
      split; [intros j Hj; by apply set_session_ne|]. rewrite set_session_eq. right. destruct (Hren eq_refl) as [E1 E2]. split; [exact E1|].
      split; [exact E2|]. exists (m_session m1 i), (m_opt m1). split; [exact Hrf|]. split; [by rewrite R4, Hopt|exact Hs].
    - injection H2 as <- <-. split; [done|]. left. exact Hrf. }
  split.
  - intros j Hj. rewrite A1, B1, R1 by done. by apply Hoth.
  - right. split; [done|]. split; [by apply Hau|]. exists (m_session m2 i). split; [exact B2|exact A2].
Qed.

End Packets.

(** ** Properties *)

(** C4. Which session a control packet reaches.  A packet changes at most one session of
    the peer: the active or untrusted one whose peer sent its session id and which it
    comes to from that peer's address, or, for the hard reset of the other role, the
    active one while it has no peer, and otherwise a new untrusted one.  A packet whose
    authentication fails leaves the keys, queues and peer of that session alone; an
    authentic one fills its queues and sets the peer of a session it opens, after the
    renewal a soft reset asks for. *)
Theorem control_packet_reaches `{EvpKeyLib} `{TlsLib} env w m from buf op kid ret w' m' :
  control_packet env w m from buf op kid = Some (ret, w', m') ->
  ret = false /\ (forall i, m_session m' i = m_session m i) \/
  exists i sid peer, (session_id_read (buf_advance buf 1).2).1 = Some sid /\ session_id_defined sid = true /\
    (peer = None /\ addressed m sid from i \/ peer = Some (sid, from) /\ opens m op sid i) /\
    (forall j, j <> i -> m_session m' j = m_session m j) /\
    (ret = false /\ refused (m_session m i) (m_session m' i) \/
     ret = true /\ authentic env (w_now w) m i buf /\ exists s, readied w m op i s /\
       (m_session m' i = s \/ received peer s (m_session m' i))).
Proof.
  unfold control_packet. intros Hx. destruct (_ || _); [injection Hx as <- _ <-; by left|].
  destruct (is_hard_reset_method2 op && _) eqn:Hrole; [injection Hx as <- _ <-; by left|].
  destruct (session_id_read _) as [[sid|] buf0]; [|injection Hx as <- _ <-; by left].
  destruct (session_id_defined sid) eqn:Hsid; cbn [negb] in Hx; [|injection Hx as <- _ <-; by left].
  destruct (route_packet_spec m op sid) as [P1 P2].
  assert (is_hard_reset_method2 op = true -> (forall j, k_session_id_remote (ses_primary (m_session m j)) <> sid) ->
    forall i, let a := session_id_defined (k_session_id_remote (ses_primary (m_session m TM_ACTIVE))) in
      (i = TM_ACTIVE /\ a = false \/ i = TM_UNTRUSTED /\ a = true /\ op_single_session (m_opt m) = false) -> opens m op sid i) as Hopen.
  { intros Hhr Hno i a Ha. rewrite Hhr in Hrole. split; [by apply hard_reset_role|]. by split. }
  destruct (route_packet m op sid) as [|i new_link do_burst|].
  - injection Hx as <- _ <-. by left.
  - apply bind_Some in Hx as (same & Hs & Hx). destruct new_link.
    + injection Hs as <-. destruct P1 as [-> P1], P2 as [P2 P3]. apply (control_tail env w m) in Hx as [T1 T2].
      * right. exists TM_ACTIVE, sid, (Some (sid, from)). split; [done|]. split; [done|]. split; [right; split; [done|]; apply Hopen; auto|]. by split.
      * intros j Hj. by apply set_session_ne.
      * done.
      * right. eexists. by apply set_session_eq.
      * intros [Hs Hd]%andb_true_iff. apply Z.eqb_eq in Hs. subst op. done.
    + destruct same; cbn [negb] in Hx; [|injection Hx as <- _ <-; by left]. apply (control_tail env w m) in Hx as [T1 T2].
      * right. exists i, sid, None. split; [done|]. split; [done|]. split; [left; split; [done|]; by destruct P1|]. by split.
      * done.
      * done.
      * by left.
      * intros [Hs' Hd]%andb_true_iff. apply Z.eqb_eq in Hs'. done.
  - destruct P1 as [P0 P1], P2 as [P2 P3]. apply bind_Some in Hx as ([[ok buf1] m1] & Hr & Hx). cbn in Hx.
    apply session_read_refused in Hr as (R1 & R2 & R3 & R4 & R5). right.
    exists TM_UNTRUSTED, sid, (Some (sid, from)). split; [done|]. split; [done|]. split; [right; split; [done|]; apply Hopen; auto|].
    destruct ok; cbn [negb] in Hx; [|injection Hx as <- _ <-; split; [exact R1|by left]].
    apply bind_Some in Hx as ([ret2 m3] & H3 & Hx). injection Hx as <- _ <-. apply accept_packet_spec in H3 as (-> & A1 & A2). split.
    + intros j Hj. rewrite A1, set_session_ne by done. by apply R1.
    + right. split; [done|]. split; [by apply R5|]. rewrite set_session_eq in A2. eexists. split; [|exact A2].
      left. destruct R2 as (wr & a & ->). by eexists _, _.
Qed.

(** The second peer sends a control packet. *)
Definition toy_two : tls_multi :=
  let s := toy_second in
  set_session toy_peer TM_UNTRUSTED
    (s <| ses_primary := (ses_primary s) <| k_session_id_remote := replicate 8 9 |> <| k_remote_addr := toy_addr |> |>).
Definition toy_packet : buffer := mkbuffer 18 0 18 (Some ([32] ++ replicate 8 9 ++ [0; 0; 0; 0; 0; 1; 2; 3; 4])).
#[local] Notation toy_received := (control_packet toy_env toy_world toy_two toy_addr toy_packet P_CONTROL_V1 0).

Lemma control_packet_reaches_witness : exists w' m', toy_received = Some (true, w', m') /\
  m_session m' TM_ACTIVE = m_session toy_two TM_ACTIVE /\ m_session m' TM_LAME_DUCK = m_session toy_two TM_LAME_DUCK.
Proof.
  destruct toy_received as [[[ret w'] m']|] eqn:E.
  - assert (match toy_received with Some (r, _, _) => r | None => false end = true) as Hv by (vm_compute; reflexivity).
    rewrite E in Hv. rewrite Hv in E. exists w', m'. rewrite Hv. split; [reflexivity|].
    destruct (control_packet_reaches toy_env toy_world toy_two toy_addr toy_packet P_CONTROL_V1 0 true w' m' E)
      as [[Hf _]|(i & sid & peer & Hs & _ & Ht & Ho & _)]; [discriminate Hf|].
    assert (sid = replicate 8 9) as -> by (vm_compute in Hs; injection Hs as <-; reflexivity).
    assert (bool_decide (k_session_id_remote (ses_primary (m_session toy_two TM_ACTIVE)) = replicate 8 9) = false) as Ha by (vm_compute; reflexivity).
    apply bool_decide_eq_false in Ha.
    assert (bool_decide (P_CONTROL_V1 ∈ [P_CONTROL_HARD_RESET_CLIENT_V2; P_CONTROL_HARD_RESET_CLIENT_V3]) = false) as Hr by (vm_compute; reflexivity).
    apply bool_decide_eq_false in Hr.
    destruct Ht as [[_ (Hl & Hi & _)]|[_ [Hi _]]]; [|destruct (Hr Hi)].
    destruct i; [destruct (Ha Hi)| |destruct (Hl eq_refl)]. split; apply Ho; discriminate.
  - exfalso. assert (bool_decide (is_Some toy_received) = true) as Hv by (vm_compute; reflexivity). rewrite E in Hv. discriminate Hv.
Defined.
