(* ===== verification/DataSession.v ===== *)
(** Runs of the data channel: a sender that encrypts packet after packet with
    [openvpn_encrypt], a network that loses, repeats, reorders and forges, and a
    receiver that decrypts with [openvpn_decrypt]. *)
From S2P Require Import Prelude Integer CircList Buffer PacketId ReliableProto Mtu Fragment Crypto CryptoToy DataChannel.

Section Runs.
Context `{EvpLaws}.
#[local] Arguments openvpn_encrypt : simpl never.
#[local] Arguments decrypt : simpl never.
#[local] Arguments seal_step : simpl never.
#[local] Arguments seal_tail : simpl never.
#[local] Arguments open_packet : simpl never.
#[local] Arguments crypto_check_replay : simpl never.
#[local] Arguments accepted : simpl never.

(** ** The receiver's options over a packet *)

Definition replay_of (opt : crypto_options) : replay_state := mkreplay (o_packet_id opt) (o_pid_persist opt) (long_form opt).

Lemma received_replay K opt opt' : received K opt opt' -> replay_of opt' = replay_of opt.
Proof. by intros (c & _ & ->). Qed.

Lemma received_ok Ke K cf opt opt' : options_ok Ke K cf opt -> received K opt opt' -> options_ok Ke K cf opt'.
Proof. intros [? ? ? ? ?] (c & Hc & ->). by constructor. Qed.

Lemma check_replay_spec now opt pin ok rs : crypto_check_replay now (replay_of opt) pin = Some (ok, rs) ->
  exists opt', check_replay now opt pin = Some (ok, opt') /\ replay_of opt' = rs /\ long_form opt' = long_form opt /\
    ignore_packet_id opt' = ignore_packet_id opt /\ o_encrypt opt' = o_encrypt opt /\ o_decrypt opt' = o_decrypt opt /\
    packet_id_initialized (o_packet_id opt') = packet_id_initialized (o_packet_id opt).
Proof.
  intros Hr. destruct (check_replay_frame _ _ _ _ _ Hr) as (Hl & _ & Hi). unfold check_replay. fold (replay_of opt). rewrite Hr. cbn.
  eexists. split; [reflexivity|]. split_and!; try done. unfold replay_of. cbn. destruct rs. cbn in *. by rewrite Hl.
Qed.

(** A packet decrypted: the specification and the replay window decide. *)
Lemma decrypt_step now buf work opt f Ke Kd cf hdr ad_start : options_ok Ke Kd cf opt -> keys_ok Kd cf ->
  decrypt_room Kd f buf work -> header_at buf hdr ad_start ->
  match open_packet Kd cf hdr (buf_contents buf) with
  | None => exists b opt', decrypt now buf work opt f ad_start = Some (false, b, opt') /\ b_len b = 0 /\
      options_ok Ke Kd cf opt' /\ replay_of opt' = replay_of opt
  | Some (None, p) => exists b opt', decrypt now buf work opt f ad_start = Some (true, b, opt') /\ buf_live b /\ buf_contents b = p /\
      options_ok Ke Kd cf opt' /\ replay_of opt' = replay_of opt
  | Some (Some pin, p) => forall acc rs, crypto_check_replay now (replay_of opt) pin = Some (acc, rs) ->
      exists b opt', decrypt now buf work opt f ad_start = Some (acc, b, opt') /\
        (if acc then buf_live b /\ buf_contents b = p else b_len b = 0) /\
        options_ok Ke Kd cf opt' /\ replay_of opt' = rs
  end.
Proof.
  intros Ho Hk Hroom Hh. destruct (decrypt_core now buf work opt f Ke Kd cf hdr ad_start Ho Hk Hroom Hh) as (opt1 & Hrec & Hres).
  pose proof (received_ok Ke Kd cf opt opt1 Ho Hrec) as Ho1. pose proof (received_replay Kd opt opt1 Hrec) as Hr1.
  destruct (open_packet Kd cf hdr (buf_contents buf)) as [[[pin|] p]|].
  - intros acc rs Hchk. destruct Hres as (b & d & Lb & Cb & Ld & ->). rewrite <- Hr1 in Hchk.
    destruct (check_replay_spec now opt1 pin acc rs Hchk) as (opt2 & -> & Hrs & Hlf & Hig & He & Hd & Hi). cbn.
    assert (options_ok Ke Kd cf opt2).
    { destruct Ho1. constructor; [by rewrite He|by rewrite Hd|by rewrite Hi|by rewrite Hlf|by rewrite Hig]. }
    destruct acc; eauto 10.
  - destruct Hres as (b & -> & Lb & Cb). eauto 10.
  - destruct Hres as (b & -> & Lb). eauto 10.
Qed.

(** ** A run of the sender *)

Record tx_event := mktx { tx_now : Z; tx_prng : Z -> list Z; tx_buf : buffer; tx_work : buffer }.

(** The packets of a run; a dropped packet is empty. *)
Fixpoint tx_run (opt : crypto_options) (evs : list tx_event) : option (list buffer * crypto_options) :=
  match evs with
  | [] => Some ([], opt)
  | e :: evs =>
      '(b, opt) ← openvpn_encrypt (tx_now e) (tx_prng e) (tx_buf e) (tx_work e) (Some opt);
      opt ← opt;
      '(bs, opt) ← tx_run opt evs;
      Some (b :: bs, opt)
  end.

Definition tx_ok (K : keys) (cf : pid_conf) (kt : key_type) (e : tx_event) : Prop :=
  encrypt_room K cf kt (tx_buf e) (tx_work e) /\ prng_ok (tx_prng e).

(** The packet of an event under the packet id [s]. *)
Definition tx_tail (K : keys) (cf : pid_conf) (e : tx_event) (s : packet_id_send) : list Z :=
  seal_tail K cf (buf_contents (tx_work e)) (tx_prng e (keys_iv_len K)) s (buf_contents (tx_buf e)).

(** Later packet ids are larger, in the form the mode puts on the wire. *)
Definition pid_above (long : bool) (p s : packet_id_send) : Prop :=
  is_u 32 (s_id s) /\ (if long then stamp_lt (s_time p, s_id p) (s_time s, s_id s) else s_id p < s_id s).

Lemma pid_above_trans long p q r : pid_above long p q -> pid_above long q r -> pid_above long p r.
Proof. unfold pid_above, stamp_lt. intros [? Ha] [? Hb]. split; [done|]. destruct long; cbn in *; lia. Qed.

Lemma pid_above_pin K cf p s : pid_above (id_long K cf) p s -> is_u 32 (s_time p) -> is_u 32 (s_time s) ->
  wire_pin K cf p <> wire_pin K cf s.
Proof.
  unfold pid_above, wire_pin, stamp_lt. intros [_ Ha] Hp Hs [= E1 E2]. destruct (id_long K cf); [|lia].
  rewrite !wrap_small in E2 by done. cbn in Ha. lia.
Qed.

(** In OFB and CFB mode the packet ids of one key must last for the run. *)
Definition stream_lasts (K : keys) (opt : crypto_options) (n : Z) : Prop :=
  forall k, sk_cipher K = Some k -> is_aead k = false -> is_cbc k = false -> s_id (o_send opt) + n < PACKET_ID_MAX.

(** A mark per event: the packet id used, if the packet was sent. *)
Definition tx_mark (K : keys) (cf : pid_conf) (e : tx_event) (b : buffer) (m : option packet_id_send) : Prop :=
  match m with
  | Some s => is_u 32 (s_time s) /\ buf_contents b = buf_contents (tx_work e) ++ tx_tail K cf e s
  | None => b_len b = 0
  end.

Lemma seal_step_marks now K cf hdr rnd s p s' r lo : pc_on cf = true -> is_u 32 (s_id s) -> 0 <= s_time s <= lo -> lo <= now ->
  seal_step now K cf hdr rnd s p = (s', r) ->
  is_u 32 (s_id s') /\ 0 <= s_time s' <= now /\
  (pid_above (id_long K cf) s s' \/ r = None /\ s_id s' = s_id s /\ s_time s <= s_time s' ) /\
  (r = None \/ r = Some (seal_packet K cf hdr rnd s' p) /\ pid_above (id_long K cf) s s').
Proof.
  intros Hon Hid Ht Hlo. unfold seal_step. rewrite Hon.
  destruct (packet_id_send_update now s (id_long K cf)) as [[] q] eqn:E; intros [= <- <-].
  - destruct (send_update_spec now s _ q Hid ltac:(lia) E) as (Hu & _ & Hb & Hlt & _ & Hsh).
    assert (pid_above (id_long K cf) s q) by (unfold pid_above; split; [done|]; destruct (id_long K cf) eqn:El; [done|]; rewrite Hsh by done; lia).
    split_and!; [done|lia|lia|by left|by right].
  - assert (s_id q = s_id s /\ s_time s <= s_time q <= now) as [Ei Et].
    { revert E. unfold packet_id_send_update. set (p1 := if s_time s =? 0 then _ else _).
      assert (H1 : s_id p1 = s_id s /\ s_time s <= s_time p1 <= now) by (unfold p1; destruct (Z.eqb_spec (s_time s) 0); cbn; lia).
      clearbody p1. repeat case_match; intros [= <-]; cbn; lia. }
    split_and!; [by rewrite Ei|lia|lia|right; split_and!; [done|done|lia]|by left].
Qed.

Lemma seal_step_small now K cf hdr rnd s p s' r : is_u 32 (s_id s) -> seal_step now K cf hdr rnd s p = (s', r) -> s_id s' <= s_id s + 1.
Proof.
  unfold is_u, seal_step, packet_id_send_update, PACKET_ID_MAX. intros Hid.
  set (p1 := if s_time s =? 0 then _ else _). assert (E1 : s_id p1 = s_id s) by (unfold p1; by destruct (s_time s =? 0)).
  rewrite E1. destruct (Z.eqb_spec (s_id s) (2 ^ 32 - 1)) as [E|].
  - destruct (pc_on cf), (negb (id_long K cf) || (now <=? s_time p1)); intros [= <- <-]; cbn -[Z.pow];
      change (u32 (0 + 1)) with 1; lia.
  - destruct (pc_on cf); intros [= <- <-]; cbn -[Z.pow]; [|lia]. rewrite wrap_small by (unfold is_u; lia). lia.
Qed.

Lemma stream_no_rollover now K opt n : stream_lasts K opt n -> 0 <= n -> no_rollover now K opt.
Proof.
  intros Hl Hn k H1 H2 H3. specialize (Hl k H1 H2 H3). unfold packet_id_send_update.
  set (p1 := if s_time _ =? 0 then _ else _). assert (E1 : s_id p1 = s_id (o_send opt)) by (unfold p1; by destruct (s_time _ =? 0)).
  rewrite E1. destruct (Z.eqb_spec (s_id (o_send opt)) PACKET_ID_MAX); [lia|done].
Qed.

Lemma tx_step now prng buf work opt K Kd cf kt lo : options_ok K Kd cf opt -> keys_ok K cf -> keys_type K kt -> pc_on cf = true ->
  encrypt_room K cf kt buf work -> prng_ok prng -> no_rollover now K opt ->
  is_u 32 (s_id (o_send opt)) -> 0 <= s_time (o_send opt) <= lo -> lo <= now -> is_u 32 now ->
  exists b opt' m, openvpn_encrypt now prng buf work (Some opt) = Some (b, Some opt') /\ options_ok K Kd cf opt' /\
    tx_mark K cf (mktx now prng buf work) b m /\
    is_u 32 (s_id (o_send opt')) /\ 0 <= s_time (o_send opt') <= now /\ s_id (o_send opt') <= s_id (o_send opt) + 1 /\
    (forall s, pid_above (id_long K cf) (o_send opt') s -> pid_above (id_long K cf) (o_send opt) s) /\
    match m with Some s => s = o_send opt' /\ pid_above (id_long K cf) (o_send opt) s | None => True end.
Proof.
  intros Hopt Hk Hkt Hon Hroom Hprng Hroll Hid Ht Hlo Hnow.
  destruct (encrypt_core now prng buf work opt K Kd cf kt Hopt Hk Hkt Hroom Hprng Hroll) as (b & opt' & -> & Hres).
  destruct (seal_step now K cf (buf_contents work) (prng (keys_iv_len K)) (o_send opt) (buf_contents buf)) as [s r] eqn:E.
  destruct Hres as [Hsent Hr]. assert (Hs : o_send opt' = s) by (by destruct Hsent as (c & _ & ->)).
  destruct (seal_step_marks _ _ _ _ _ _ _ _ _ lo Hon Hid Ht Hlo E) as (Hid' & Ht' & Hab & Hout).
  assert (Hle : s_id s <= s_id (o_send opt) + 1) by (by eapply seal_step_small).
  exists b, opt', (if r is Some _ then Some s else None). rewrite Hs. split; [done|]. split; [by eapply sent_ok|].
  split; [|split_and!; try done; try lia].
  - destruct r as [w|]; [|exact Hr]. destruct Hr as (_ & Hc & _). destruct Hout as [|[[= ->] _]]; [done|]. cbn. rewrite Hc. split; [unfold is_u in *; lia|done].
  - intros q Hq. destruct Hab as [Hab|(_ & E1 & E2)]; [by eapply pid_above_trans|].
    unfold pid_above, stamp_lt in *. cbn in *. destruct Hq as [? Hq]. split; [done|]. destruct (id_long K cf); lia.
  - destruct r; [|done]. destruct Hout as [|[_ ?]]; [done|]. done.
Qed.

(** The marks of a run: every packet sent carries a packet id of its own. *)
Record tx_marked (K : keys) (cf : pid_conf) (p : packet_id_send) (evs : list tx_event) (bs : list buffer)
    (ms : list (option packet_id_send)) : Prop := mktxm {
  txm_bufs : Forall2 (fun e bm => tx_mark K cf e (fst bm) (snd bm)) evs (zip bs ms);
  txm_above : Forall (fun m => if m is Some s then pid_above (id_long K cf) p s else True) ms;
  txm_pins : forall i j s t, ms !! i = Some (Some s) -> ms !! j = Some (Some t) -> wire_pin K cf s = wire_pin K cf t -> i = j;
  txm_length : length bs = length ms }.

Lemma tx_run_spec K Kd cf kt evs : keys_ok K cf -> keys_type K kt -> pc_on cf = true -> forall opt lo,
  options_ok K Kd cf opt -> Forall (tx_ok K cf kt) evs ->
  is_u 32 (s_id (o_send opt)) -> 0 <= s_time (o_send opt) <= lo -> monotone lo (map tx_now evs) ->
  Forall (fun e => is_u 32 (tx_now e)) evs -> stream_lasts K opt (zlen evs) ->
  exists bs opt' ms, tx_run opt evs = Some (bs, opt') /\ tx_marked K cf (o_send opt) evs bs ms.
Proof.
  intros Hk Hkt Hon. induction evs as [|e evs IH]; intros opt lo Hopt Hev Hid Ht Hm Hu Hl.
  { exists [], opt, []. split; [done|]. by constructor. }
  cbn in Hm. destruct Hm as [Hlo Hm]. apply Forall_cons in Hev as [[Hroom Hp] Hev]. apply Forall_cons in Hu as [Hn Hu].
  rewrite zlen_cons in Hl. destruct e as [now prng buf work]. cbn in Hlo, Hm, Hroom, Hp, Hn.
  assert (Hroll : no_rollover now K opt) by (eapply stream_no_rollover; [exact Hl|pose proof (zlen_nonneg evs); lia]).
  destruct (tx_step now prng buf work opt K Kd cf kt lo Hopt Hk Hkt Hon Hroom Hp Hroll Hid Ht Hlo Hn)
    as (b & opt1 & m & E & Hopt1 & Hmark & Hid1 & Ht1 & Hs1 & Habove & Hfresh).
  destruct (IH opt1 now Hopt1 Hev Hid1 Ht1 Hm Hu) as (bs & opt2 & ms & Er & [Hb Ha Hpin Hlen]).
  { intros k H1 H2 H3. specialize (Hl k H1 H2 H3). lia. }
  exists (b :: bs), opt2, (m :: ms). cbn. rewrite E. cbn. rewrite Er. cbn. split; [done|].
  assert (Hhead : forall j s t, m = Some s -> ms !! j = Some (Some t) -> wire_pin K cf s <> wire_pin K cf t).
  { intros j s t -> Hj. destruct Hfresh as [-> _]. rewrite Forall_lookup in Ha. specialize (Ha j _ Hj). cbn in Ha.
    apply pid_above_pin; [done|unfold is_u in *; lia|].
    assert (exists e' bm, evs !! j = Some e' /\ zip bs ms !! j = Some bm /\ snd bm = Some t) as (e' & [b' m'] & He' & Hbm & Ht').
    { pose proof (lookup_lt_Some _ _ _ Hj) as Hjl. destruct (lookup_lt_is_Some_2 bs j) as [b' Hb']; [by rewrite Hlen|].
      assert (Hz : zip bs ms !! j = Some (b', Some t)) by (apply lookup_zip_Some; done).
      destruct (Forall2_lookup_r _ _ _ _ _ Hb Hz) as (e' & He' & _). by exists e', (b', Some t). }
    pose proof (Forall2_lookup_lr _ _ _ _ _ _ Hb He' Hbm) as Hmk. cbn in Hmk, Ht'. rewrite Ht' in Hmk. apply Hmk. }
  constructor.
  - by constructor.
  - constructor; [destruct m; [by apply Hfresh|done]|]. eapply Forall_impl; [exact Ha|]. intros [s|]; [apply Habove|done].
  - intros [|i] [|j] s t; cbn; intros Hi Hj Hw; try done.
    + injection Hi as ->. by destruct (Hhead j s t eq_refl Hj).
    + injection Hj as ->. by destruct (Hhead i t s eq_refl Hi).
    + f_equal. by eapply Hpin.
  - cbn. by rewrite Hlen.
Qed.

(** ** A run of the receiver *)

(** A packet as it arrives: [rx_hdr] are the authenticated bytes in front of it,
    from [rx_ad] on. *)
Record rx_event := mkrx { rx_now : Z; rx_buf : buffer; rx_work : buffer; rx_ad : Z; rx_hdr : list Z }.

Fixpoint rx_run (f : frame) (opt : crypto_options) (evs : list rx_event) : option (list (bool * buffer) * crypto_options) :=
  match evs with
  | [] => Some ([], opt)
  | e :: evs =>
      '(ok, b, opt) ← decrypt (rx_now e) (rx_buf e) (rx_work e) opt f (rx_ad e);
      '(rs, opt) ← rx_run f opt evs;
      Some ((ok, b) :: rs, opt)
  end.

(** The payloads of a run that were accepted. *)
Definition delivered (rs : list (bool * buffer)) : list (list Z) :=
  map (fun r => buf_contents (snd r)) (filter (fun r => fst r = true) rs).

Definition rx_ok (K : keys) (f : frame) (e : rx_event) : Prop :=
  SEQ_EXPIRED < rx_now e /\ decrypt_room K f (rx_buf e) (rx_work e) /\ header_at (rx_buf e) (rx_hdr e) (rx_ad e).

Definition rx_open (K : keys) (cf : pid_conf) (e : rx_event) : option (option packet_id_net * list Z) :=
  open_packet K cf (rx_hdr e) (buf_contents (rx_buf e)).

(** The packet ids a run submits to the replay check, with the payloads behind them. *)
Definition rx_check (K : keys) (cf : pid_conf) (e : rx_event) : option (replay_event * list Z) :=
  match rx_open K cf e with Some (Some pin, p) => Some ((rx_now e, pin), p) | _ => None end.

Definition rx_picks (checks : list (replay_event * list Z)) (oks : list bool) : list (replay_event * list Z) :=
  map fst (filter (fun x => snd x = true) (zip checks oks)).

Lemma rx_picks_cons c checks ok oks :
  rx_picks (c :: checks) (ok :: oks) = if ok : bool then c :: rx_picks checks oks else rx_picks checks oks.
Proof. unfold rx_picks. cbn. by destruct ok. Qed.

Lemma delivered_cons ok b rs : delivered ((ok, b) :: rs) = if ok : bool then buf_contents b :: delivered rs else delivered rs.
Proof. unfold delivered. cbn. by destruct ok. Qed.

Lemma accepted_picks checks : forall oks, accepted (map fst checks) oks = map (fun c => snd (fst c)) (rx_picks checks oks).
Proof.
  induction checks as [|[[now pin] p] checks IH]; intros [|ok oks]; try done. rewrite rx_picks_cons. cbn [map fst].
  rewrite accepted_cons, IH. by destruct ok.
Qed.

Lemma rx_picks_sub checks : forall oks c, c ∈ rx_picks checks oks -> c ∈ checks.
Proof.
  induction checks as [|d checks IH]; intros [|ok oks] c; try (intros Hc; by apply not_elem_of_nil in Hc).
  rewrite rx_picks_cons, elem_of_cons. intros Hc. destruct ok; [apply elem_of_cons in Hc as [->|Hc]; [by left|]|]; right; by eapply IH.
Qed.

#[local] Arguments rx_picks : simpl never.
#[local] Arguments delivered : simpl never.

(** The run delivers the payloads whose packet ids the replay check accepts. *)
Lemma rx_run_spec Ke K cf f evs : keys_ok K cf -> forall opt oks rs, options_ok Ke K cf opt -> Forall (rx_ok K f) evs ->
  Forall (fun e => forall p, rx_open K cf e <> Some (None, p)) evs ->
  replay_run (replay_of opt) (map fst (omap (rx_check K cf) evs)) = Some (oks, rs) ->
  exists res opt', rx_run f opt evs = Some (res, opt') /\
    delivered res = map snd (rx_picks (omap (rx_check K cf) evs) oks).
Proof.
  intros Hk. induction evs as [|e evs IH]; intros opt oks rs Ho Hev Hchk Hrun.
  { injection Hrun as <- <-. by exists [], opt. }
  apply Forall_cons in Hev as [(Hn & Hroom & Hh) Hev]. apply Forall_cons in Hchk as [Hc Hchk].
  pose proof (decrypt_step (rx_now e) (rx_buf e) (rx_work e) opt f Ke K cf (rx_hdr e) (rx_ad e) Ho Hk Hroom Hh) as Hstep.
  cbn [omap list_omap] in Hrun |- *. unfold rx_check, rx_open in *. cbn [rx_run].
  destruct (open_packet K cf (rx_hdr e) (buf_contents (rx_buf e))) as [[[pin|] p]|]; [|by destruct (Hc p)|].
  - cbn [map fst replay_run] in Hrun. destruct (crypto_check_replay (rx_now e) (replay_of opt) pin) as [[acc rs1]|] eqn:Er; [|done].
    cbn in Hrun. destruct (Hstep acc rs1 eq_refl) as (b & opt1 & -> & Hb & Ho1 & Hrs). cbn.
    destruct (replay_run rs1 _) as [[oks1 rs2]|] eqn:Er2; [|done]. cbn in Hrun. injection Hrun as <- <-. rewrite <- Hrs in Er2.
    destruct (IH opt1 oks1 rs2 Ho1 Hev Hchk Er2) as (res & opt2 & -> & Hd). cbn.
    eexists _, _. split; [reflexivity|]. rewrite delivered_cons, rx_picks_cons, Hd. destruct acc; [|done]. cbn. f_equal. apply Hb.
  - destruct Hstep as (b & opt1 & -> & Hb & Ho1 & Hrs). cbn. rewrite <- Hrs in Hrun.
    destruct (IH opt1 oks rs Ho1 Hev Hchk Hrun) as (res & opt2 & -> & Hd). cbn. eexists _, _. split; [reflexivity|].
    by rewrite delivered_cons.
Qed.

(** ** Both *)

(** A packet that arrives is one of those sent, bytes and header, or the
    cryptography rejects it. *)
Definition arrival (K : keys) (cf : pid_conf) (tx : list tx_event) (bs : list buffer) (e : rx_event) : Prop :=
  rx_open K cf e = None \/
  exists i t b, tx !! i = Some t /\ bs !! i = Some b /\ 0 < b_len b /\
    rx_hdr e = buf_contents (tx_work t) /\ rx_hdr e ++ buf_contents (rx_buf e) = buf_contents b.

(** It is then the packet of a mark. *)
Lemma arrival_open K cf kt p tx bs ms e : keys_ok K cf -> pin_checked K cf = true -> tx_marked K cf p tx bs ms ->
  Forall (tx_ok K cf kt) tx -> arrival K cf tx bs e ->
  rx_open K cf e = None \/ exists i t s, tx !! i = Some t /\ ms !! i = Some (Some s) /\ is_u 32 (s_id s) /\
    rx_open K cf e = Some (Some (wire_pin K cf s), buf_contents (tx_buf t)).
Proof.
  intros Hk Hpc [Hb Ha _ Hlen] Htx [?|(i & t & b & Ht & Hbi & Hpos & Hh & Hw)]; [by left|]. right.
  pose proof (lookup_lt_Some _ _ _ Hbi) as Hi. destruct (lookup_lt_is_Some_2 ms i) as [m Hm]; [by rewrite <- Hlen|].
  assert (Hz : zip bs ms !! i = Some (b, m)) by (apply lookup_zip_Some; done).
  pose proof (Forall2_lookup_lr _ _ _ _ _ _ Hb Ht Hz) as Hmark. cbn in Hmark. destruct m as [s|]; cbn in Hmark; [|lia].
  destruct Hmark as [_ Hc]. rewrite Forall_lookup in Ha. destruct (Ha i _ Hm) as [Hs _].
  exists i, t, s. split_and!; try done. rewrite Forall_lookup in Htx. destruct (Htx i t Ht) as [(Lb & Hlb & _) Hp].
  rewrite Hh, Hc in Hw. apply app_inv_head in Hw. unfold rx_open. rewrite Hw, Hh. unfold tx_tail.
  rewrite open_seal, Hpc; try done; [by apply buf_contents_bytes, Lb|by rewrite buf_contents_length|].
  apply Hp. by eapply keys_iv_nonneg.
Qed.

(** A sender and what it is to send; a receiver at the start of a session. *)
Record sender_run (K Kd : keys) (cf : pid_conf) (kt : key_type) (opt : crypto_options) (tx : list tx_event) (lo : Z) : Prop := mksrun {
  sn_opt : options_ok K Kd cf opt;
  sn_type : keys_type K kt;
  sn_events : Forall (tx_ok K cf kt) tx;
  sn_id : is_u 32 (s_id (o_send opt));
  sn_time : 0 <= s_time (o_send opt) <= lo;
  sn_clock : monotone lo (map tx_now tx);
  sn_clock32 : Forall (fun e => is_u 32 (tx_now e)) tx;
  sn_lasts : stream_lasts K opt (zlen tx) }.

Record receiver_fresh (Ke K : keys) (cf : pid_conf) (opt : crypto_options) (sb tb : Z) : Prop := mkrfresh {
  rf_opt : options_ok Ke K cf opt;
  rf_window : exists name unit_, packet_id_init sb tb name unit_ = Some (o_packet_id opt) }.

(** The accepted packet ids belong to different packets of the sender. *)
Lemma picks_distinct K cf p tx bs ms picks : keys_ok K cf -> tx_marked K cf p tx bs ms ->
  NoDup (map (fun c : replay_event * list Z => snd (fst c)) picks) ->
  Forall (fun c => exists i t s, tx !! i = Some t /\ ms !! i = Some (Some s) /\
    snd (fst c) = wire_pin K cf s /\ snd c = buf_contents (tx_buf t)) picks ->
  exists idxs, NoDup idxs /\
    Forall2 (fun q i => exists t, tx !! i = Some t /\ q = buf_contents (tx_buf t)) (map snd picks) idxs /\
    Forall (fun i => exists s, ms !! i = Some (Some s) /\ wire_pin K cf s ∈ map (fun c : replay_event * list Z => snd (fst c)) picks) idxs.
Proof.
  intros Hk Hm. induction picks as [|c picks IH]; cbn; intros Hnd Hall; [exists []; split_and!; constructor|].
  apply NoDup_cons in Hnd as [Hnot Hnd]. apply Forall_cons in Hall as [(i & t & s & Ht & Hs & Hpin & Hq) Hall].
  destruct (IH Hnd Hall) as (idxs & Hd & H2 & Hin). exists (i :: idxs). split_and!.
  - constructor; [|done]. intros Hi. rewrite Forall_forall in Hin. destruct (Hin i Hi) as (s' & Hs' & Hmem).
    rewrite Hs in Hs'. injection Hs' as <-. exact (Hnot (eq_ind_r (fun x => x ∈ _) Hmem Hpin)).
  - constructor; [by exists t|done].
  - constructor; [exists s; split; [done|apply elem_of_cons; left; exact (eq_sym Hpin)]|]. eapply Forall_impl; [exact Hin|].
    intros j (s' & Hs' & Hmem). exists s'. split; [done|apply elem_of_cons; by right].
Qed.

End Runs.

(** ** A packet from end to end *)

Section EndToEnd.
Context `{EvpLaws}.
#[local] Arguments encrypt_sign : simpl never.
#[local] Arguments incoming_data_packet : simpl never.
#[local] Arguments openvpn_decrypt : simpl never.
#[local] Arguments open_packet : simpl never.
#[local] Arguments crypto_check_replay : simpl never.

(** What the replay check decides about a packet id under the options [opt];
    a packet id that is not checked is accepted. *)
Definition replay_verdict (now : Z) (opt : crypto_options) (pin : option packet_id_net) : option bool :=
  match pin with Some pin => fst <$> crypto_check_replay now (replay_of opt) pin | None => Some true end.

Lemma decrypt_verdict now buf work opt f Ke Kd cf hdr ad_start pin p acc : options_ok Ke Kd cf opt -> keys_ok Kd cf ->
  decrypt_room Kd f buf work -> header_at buf hdr ad_start ->
  open_packet Kd cf hdr (buf_contents buf) = Some (pin, p) -> replay_verdict now opt pin = Some acc ->
  exists b opt', openvpn_decrypt now buf work (Some opt) f (Some ad_start) = Some (acc, b, Some opt') /\
    (if acc then buf_live b /\ buf_contents b = p else b_len b = 0) /\ options_ok Ke Kd cf opt'.
Proof.
  intros Ho Hk Hroom Hh E Hv. pose proof (decrypt_step now buf work opt f Ke Kd cf hdr ad_start Ho Hk Hroom Hh) as Hs.
  rewrite E in Hs. assert (exists b opt', decrypt now buf work opt f ad_start = Some (acc, b, opt') /\
    (if acc then buf_live b /\ buf_contents b = p else b_len b = 0) /\ options_ok Ke Kd cf opt') as (b & opt' & Hd & Hb & Ho').
  { destruct pin as [pin|]; cbn in Hv.
    - destruct (crypto_check_replay now (replay_of opt) pin) as [[acc' rs]|]; [|done]. injection Hv as ->.
      destruct (Hs acc rs eq_refl) as (b & opt' & ? & ? & ? & _). eauto.
    - injection Hv as <-. destruct Hs as (b & opt' & ? & ? & ? & ? & _). eauto 10. }
  exists b, opt'. split; [|done]. revert Hd. unfold decrypt.
  destruct (openvpn_decrypt _ _ _ _ _ _) as [[[? ?] [?|]]|]; cbn; congruence.
Qed.

(** A data packet of a known key goes through its header and its decryption. *)
Lemma incoming_spec now c from floated kid j kr Ke K cf m rbuf w pin p acc : receiver_ready c from floated kid j kr Ke K cf ->
  key_id_ok kid -> buf_live rbuf -> 0 < zlen w -> buf_contents rbuf = plain_header m kid ++ auth_header m kid ++ w ->
  (forall k, sk_cipher K = Some k -> work_room (dc_frame c) (dc_decrypt_buf c) (zlen w + ck_block k)) ->
  open_packet K cf (auth_header m kid) w = Some (pin, p) -> replay_verdict now (ks_crypto_options kr) pin = Some acc ->
  exists b c' opt', incoming_data_packet now c from rbuf floated = Some (acc, b, c') /\
    (if acc then buf_live b /\ buf_contents b = p else b_len b = 0) /\
    get_opt (dc_multi c') (Some j) = Some opt' /\ options_ok Ke K cf opt'.
Proof.
  intros Hrr Hid Hb Hw Hc Hroom Hop Hv.
  destruct (handle_spec c from floated kid j kr Ke K cf m rbuf w Hrr Hid Hb Hw Hc) as (buf & ad & ks' & Hh & Hks' & Lb & El & Cb & Hat).
  destruct Hrr as [Hst _ Hks _ Ho Hk]. rewrite <- Cb in Hop.
  destruct (decrypt_verdict now buf (dc_decrypt_buf c) (ks_crypto_options kr) (dc_frame c) Ke K cf (auth_header m kid) ad pin p acc)
    as (b & opt' & Hd & Hres & Ho'); try done.
  { split; [done|]. split; [lia|]. rewrite El. exact Hroom. }
  exists b. unfold incoming_data_packet. rewrite Hh. cbn. rewrite Hst. rewrite bool_decide_eq_true_2 by done.
  pose proof (lookup_lt_Some _ _ _ Hks) as Hlt. rewrite list_lookup_insert_eq by done. cbn. rewrite Hks', Hd. cbn.
  eexists _, opt'. split; [reflexivity|]. split; [done|]. split; [|done]. cbn.
  rewrite list_insert_insert_eq, list_lookup_insert_eq by done. done.
Qed.

(** A packet of the sender, header included, opens at the receiver. *)
Lemma encrypt_sign_sends now prng c buf comp_frag i ks K Kd cf kt : sender_ready now c buf comp_frag i ks K Kd cf kt -> prng_ok prng ->
  is_u 32 (s_id (o_send (ks_crypto_options ks))) ->
  pc_on cf = false \/ fst (packet_id_send_update now (o_send (ks_crypto_options ks)) (id_long K cf)) = true ->
  exists c' out opt' w, encrypt_sign now prng c buf comp_frag = Some (c', out) /\
    get_opt (dc_multi c') (Some i) = Some opt' /\ options_ok K Kd cf opt' /\ buf_live out /\ 0 < zlen w /\
    buf_contents out = plain_header (dc_multi c) (ks_key_id ks) ++ auth_header (dc_multi c) (ks_key_id ks) ++ w /\
    open_packet K cf (auth_header (dc_multi c) (ks_key_id ks)) w
    = Some (if pin_checked K cf then Some (wire_pin K cf (o_send opt')) else None, buf_contents buf).
Proof.
  intros Hsr Hprng Hid Hsend. pose proof (encrypt_sign_spec now prng c buf comp_frag i ks K Kd cf kt Hsr Hprng) as Hs. cbn in Hs.
  destruct Hsr as [_ _ _ _ _ Ho Hk _ Hb Hpos _ _ _ _ _].
  set (hdr := auth_header (dc_multi c) (ks_key_id ks)) in *. set (rnd := prng (keys_iv_len K)) in *.
  destruct (seal_step now K cf hdr rnd _ _) as [s r] eqn:E.
  destruct Hs as (c' & out & opt' & Hrun & Hget & Hsent & Hr).
  assert (Hs : r = Some (seal_packet K cf hdr rnd s (buf_contents buf)) /\ is_u 32 (s_id s)).
  { revert E. unfold seal_step. destruct (pc_on cf).
    - destruct Hsend as [|Hsend]; [done|]. destruct (packet_id_send_update now _ _) as [ok q] eqn:Eu. cbn in Hsend. subst ok.
      intros [= <- <-]. split; [done|]. revert Eu. unfold packet_id_send_update. repeat case_match; intros [= <-]; apply wrap_range; lia.
    - intros [= <- <-]. done. }
  destruct Hs as [-> Hu]. destruct Hr as [Lo Co]. exists c', out, opt', (seal_tail K cf hdr rnd s (buf_contents buf)).
  assert (o_send opt' = s) as -> by (by destruct Hsent as (x & _ & ->)).
  assert (Forall is_byte (buf_contents buf)) by (by apply buf_contents_bytes, Hb).
  assert (0 < zlen (buf_contents buf)) by (by rewrite buf_contents_length).
  split_and!; try done; [by eapply sent_ok|by apply seal_tail_nonempty|].
  apply open_seal; try done. apply Hprng. by eapply keys_iv_nonneg.
Qed.

End EndToEnd.

(** ** Properties *)

(** C8. A packet survives the tunnel.  [encrypt_sign] selects a key, puts the header
    of a data packet (version 1 or 2, by the peer id) before or after encryption and
    encrypts with whatever mode the key has; whoever receives the same bytes,
    knows the key under its id and gives them to the code of
    [process_incoming_link_part1], gets exactly the payload back, if the replay
    check accepts the packet id, and an empty packet, if not; no assertion fails
    on either side. *)
Theorem data_packet_roundtrip `{EvpLaws} now prng c buf comp_frag i ks K Kd cf kt : sender_ready now c buf comp_frag i ks K Kd cf kt ->
  prng_ok prng -> is_u 32 (s_id (o_send (ks_crypto_options ks))) ->
  pc_on cf = false \/ fst (packet_id_send_update now (o_send (ks_crypto_options ks)) (id_long K cf)) = true ->
  exists c' out opt', encrypt_sign now prng c buf comp_frag = Some (c', out) /\ get_opt (dc_multi c') (Some i) = Some opt' /\
  forall now' cr from floated j kr Ke rbuf acc, receiver_ready cr from floated (ks_key_id ks) j kr Ke K cf ->
    buf_live rbuf -> buf_contents rbuf = buf_contents out ->
    (forall k, sk_cipher K = Some k -> work_room (dc_frame cr) (dc_decrypt_buf cr) (b_len out + ck_block k)) ->
    replay_verdict now' (ks_crypto_options kr) (if pin_checked K cf then Some (wire_pin K cf (o_send opt')) else None) = Some acc ->
    exists b cr', incoming_data_packet now' cr from rbuf floated = Some (acc, b, cr') /\
      if acc then buf_contents b = buf_contents buf else b_len b = 0.
Proof.
  intros Hsr Hprng Hid Hsend.
  destruct (encrypt_sign_sends now prng c buf comp_frag i ks K Kd cf kt Hsr Hprng Hid Hsend)
    as (c' & out & opt' & w & Hrun & Hget & _ & Lo & Hw & Co & Hop).
  exists c', out, opt'. split_and!; try done. intros now' cr from floated j kr Ke rbuf acc Hrr Hb Hc Hroom Hv.
  rewrite Co in Hc.
  assert (Hroom' : forall k, sk_cipher K = Some k -> work_room (dc_frame cr) (dc_decrypt_buf cr) (zlen w + ck_block k)).
  { intros k Hk. destruct (Hroom k Hk) as (? & ? & ?). split_and!; try done.
    pose proof (buf_contents_length out Lo) as Hl. rewrite Co, !zlen_app in Hl.
    pose proof (zlen_nonneg (plain_header (dc_multi c) (ks_key_id ks))).
    pose proof (zlen_nonneg (auth_header (dc_multi c) (ks_key_id ks))). lia. }
  pose proof (sr_id _ _ _ _ _ _ _ _ _ _ Hsr) as Hkid.
  destruct (incoming_spec _ _ _ _ _ _ _ _ _ _ _ _ _ _ _ _ Hrr Hkid Hb Hw Hc Hroom' Hop Hv)
    as (b & cr' & opt2 & Hin & Hb' & _).
  exists b, cr'. split; [done|]. destruct acc; [apply Hb'|done].
Qed.

(** C1. Nothing is delivered twice and nothing else is delivered.  A sender
    encrypts any packets under one key ([openvpn_encrypt], whichever mode); the
    network drops, repeats, reorders them and adds forgeries the cryptography
    rejects.  The receiver's [openvpn_decrypt], with a new replay window of any size
    or in stream mode, never faults, and the payloads it delivers are payloads of
    the sender, each packet at most once. *)
Theorem data_channel_at_most_once `{EvpLaws} K Kd Ke cf kt f opt_s tx lo opt_r sb tb : keys_ok K cf -> pin_checked K cf = true ->
  sender_run K Kd cf kt opt_s tx lo -> receiver_fresh Ke K cf opt_r sb tb ->
  exists bs opt_s', tx_run opt_s tx = Some (bs, opt_s') /\
  forall rx, Forall (rx_ok K f) rx -> Forall (arrival K cf tx bs) rx ->
    exists res opt_r' idxs, rx_run f opt_r rx = Some (res, opt_r') /\ NoDup idxs /\
      Forall2 (fun p i => exists t, tx !! i = Some t /\ p = buf_contents (tx_buf t)) (delivered res) idxs.
Proof.
  intros Hk Hpc [Ho Hkt Hev Hid Ht Hm Hu Hl] [Hr (name & unit_ & Hi)].
  assert (Hon : pc_on cf = true) by (unfold pin_checked in Hpc; by apply andb_prop in Hpc as [? _]).
  destruct (tx_run_spec K Kd cf kt tx Hk Hkt Hon opt_s lo Ho Hev Hid Ht Hm Hu Hl) as (bs & opt_s' & ms & Htx & Hmk).
  exists bs, opt_s'. split; [done|]. intros rx Hrx Harr.
  assert (Hopen : Forall (fun e => rx_open K cf e = None \/ exists i t s, tx !! i = Some t /\ ms !! i = Some (Some s) /\
      is_u 32 (s_id s) /\ rx_open K cf e = Some (Some (wire_pin K cf s), buf_contents (tx_buf t))) rx).
  { eapply Forall_impl; [exact Harr|]. intros e He. by eapply arrival_open. }
  assert (Hchecks : Forall (fun c => event_ok (fst c) /\ exists i t s, tx !! i = Some t /\ ms !! i = Some (Some s) /\
      snd (fst c) = wire_pin K cf s /\ snd c = buf_contents (tx_buf t)) (omap (rx_check K cf) rx)).
  { apply Forall_forall. intros c (e & He & Hc)%list_elem_of_omap. rewrite !Forall_forall in *.
    destruct (Hrx e He) as (Hn & _ & _). unfold rx_check in Hc.
    destruct (Hopen e He) as [E|(i & t & s & Hti & Hms & Hs & E)]; rewrite E in Hc; [done|]. injection Hc as <-.
    split; [|by exists i, t, s]. split; [done|]. split; [done|]. cbn. destruct (id_long K cf); [apply wrap_range|]; lia. }
  destruct (replay_run_safe sb tb name unit_ (o_packet_id opt_r) (o_pid_persist opt_r) (long_form opt_r)
    (map fst (omap (rx_check K cf) rx)) Hi) as (oks & rs & Hrun & Hnd).
  { apply Forall_map. eapply Forall_impl; [exact Hchecks|]. by intros c [? _]. }
  destruct (rx_run_spec Ke K cf f rx Hk opt_r oks rs Hr Hrx) as (res & opt_r' & Hres & Hd); [|done|].
  { eapply Forall_impl; [exact Hopen|]. intros e [->|(i & t & s & _ & _ & _ & ->)] p; done. }
  rewrite accepted_picks in Hnd.
  destruct (picks_distinct K cf (o_send opt_s) tx bs ms _ Hk Hmk Hnd) as (idxs & Hnd' & H2 & _).
  { apply Forall_forall. intros c Hc%rx_picks_sub. rewrite Forall_forall in Hchecks. by apply Hchecks. }
  exists res, opt_r', idxs. by rewrite Hd.
Qed.

(** Two packets sent, behind the header of a version 2 packet for peer 1. *)
Definition toy_hdr : list Z := [72; 0; 0; 1].
Definition toy_tx : list tx_event :=
  [mktx 100 toy_prng (toy_buf 64 16 [] [1; 2; 3]) (toy_buf 128 32 [] toy_hdr);
   mktx 101 toy_prng (toy_buf 64 16 [] [4; 5]) (toy_buf 128 32 [] toy_hdr)].
Definition toy_wire : list (list Z) := Eval vm_compute in
  match tx_run toy_opt toy_tx with Some (bs, _) => map (fun b => drop 4 (buf_contents b)) bs | None => [] end.
Definition toy_wire1 : list Z := Eval vm_compute in default [] (toy_wire !! 0%nat).
Definition toy_wire2 : list Z := Eval vm_compute in default [] (toy_wire !! 1%nat).
Definition toy_forged : list Z := Eval vm_compute in <[21%nat := 0]> toy_wire1.

(** The second packet arrives first, then the first, the second again, and one that
    was changed on the way. *)
Definition toy_arrival (now : Z) (w : list Z) : rx_event := mkrx now (toy_buf 128 20 toy_hdr w) (toy_buf 128 0 [] []) 16 toy_hdr.
Definition toy_rx : list rx_event :=
  [toy_arrival 200 toy_wire2; toy_arrival 200 toy_wire1; toy_arrival 201 toy_wire2;
   toy_arrival 202 toy_forged].

Lemma toy_arrival_ok now w : SEQ_EXPIRED < now -> buf_live (toy_buf 128 20 toy_hdr w) -> 0 < zlen w < 64 ->
  rx_ok toy_K toy_frame (toy_arrival now w).
Proof.
  intros Hn Hb Hw. split; [exact Hn|]. split; [split; [exact Hb|split; [cbn; lia|]]|].
  - intros k _. split; [apply toy_fits_live; reflexivity|]. change (FRAME_HEADROOM_ADJ toy_frame FRAME_HEADROOM_MARKER_DECRYPT) with 32. cbn. lia.
  - split; [done|]. split; [done|]. apply (toy_buf_header 128 20 toy_hdr w); [done|lia].
Qed.

Lemma toy_rx_ok : Forall (rx_ok toy_K toy_frame) toy_rx.
Proof.
  repeat (apply Forall_cons; split; [apply toy_arrival_ok; [by vm_compute|apply toy_fits_live; reflexivity|by vm_compute]|]).
  constructor.
Qed.

Lemma toy_tx_ok now p : toy_fits 64 16 [] p = true -> 0 < zlen p ->
  tx_ok toy_K toy_cf toy_kt (mktx now toy_prng (toy_buf 64 16 [] p) (toy_buf 128 32 [] toy_hdr)).
Proof.
  intros Hp Hl. pose proof (toy_fits_live _ _ _ _ Hp) as Hb. assert (zlen p <= 48).
  { destruct Hb as [[] _]. cbn in *. lia. }
  split; [|apply toy_prng_ok]. split; [exact Hb|]. split; [exact Hl|].
  split; [exact (toy_fits_live 128 32 [] toy_hdr eq_refl)|]. cbn [tx_buf tx_work].
  split; [by vm_compute|]. change (crypto_overhead toy_kt (pc_on toy_cf) (pc_long toy_cf)) with 33. cbn [b_offset b_len b_capacity toy_buf]. change (zlen toy_hdr) with 4. lia.
Qed.

Lemma toy_sender : sender_run toy_K toy_K toy_cf toy_kt toy_opt toy_tx 100.
Proof.
  constructor; [apply toy_opt_ok|apply toy_keys_type| |by vm_compute|by vm_compute|by vm_compute| |].
  - repeat (apply Forall_cons; split; [by apply toy_tx_ok|]). constructor.
  - repeat constructor; vm_compute; congruence.
  - intros k [= <-] Ha. by vm_compute in Ha.
Qed.

Lemma toy_receiver : receiver_fresh toy_K toy_K toy_cf toy_opt 4 15.
Proof. constructor; [apply toy_opt_ok|]. by exists [], 0. Qed.

Lemma toy_rx_arrives bs opt : tx_run toy_opt toy_tx = Some (bs, opt) -> Forall (arrival toy_K toy_cf toy_tx bs) toy_rx.
Proof.
  intros Htx. assert (exists b1 b2, bs = [b1; b2] /\ buf_contents b1 = toy_hdr ++ toy_wire1 /\
    buf_contents b2 = toy_hdr ++ toy_wire2 /\ 0 < b_len b1 /\ 0 < b_len b2) as (b1 & b2 & -> & E1 & E2 & L1 & L2).
  { assert (Some bs = fst <$> tx_run toy_opt toy_tx) as Hb by (by rewrite Htx).
    set (r := fst <$> tx_run toy_opt toy_tx) in Hb. vm_compute in r. unfold r in Hb. injection Hb as ->. clear.
    do 2 eexists. split; [reflexivity|]. by vm_compute. }
  clear Htx. repeat (apply Forall_cons; split); [..|constructor].
  - right. exists 1%nat. do 2 eexists. split; [reflexivity|]. split; [reflexivity|]. split; [exact L2|]. split; [reflexivity|]. by rewrite E2.
  - right. exists 0%nat. do 2 eexists. split; [reflexivity|]. split; [reflexivity|]. split; [exact L1|]. split; [reflexivity|]. by rewrite E1.
  - right. exists 1%nat. do 2 eexists. split; [reflexivity|]. split; [reflexivity|]. split; [exact L2|]. split; [reflexivity|]. by rewrite E2.
  - left. by vm_compute.
Qed.

Lemma data_channel_at_most_once_witness :
  exists res opt_r' idxs, rx_run toy_frame toy_opt toy_rx = Some (res, opt_r') /\ NoDup idxs /\
    delivered res = [[4; 5]; [1; 2; 3]] /\
    Forall2 (fun p i => exists t, toy_tx !! i = Some t /\ p = buf_contents (tx_buf t)) (delivered res) idxs.
Proof.
  destruct (data_channel_at_most_once toy_K toy_K toy_K toy_cf toy_kt toy_frame toy_opt toy_tx 100 toy_opt 4 15
    toy_keys_ok eq_refl toy_sender toy_receiver) as (bs & opt' & Htx & Hrx).
  destruct (Hrx toy_rx toy_rx_ok (toy_rx_arrives bs opt' Htx)) as (res & opt_r' & idxs & Hrun & Hnd & H2).
  clear Hrx Htx. exists res, opt_r', idxs. split; [exact Hrun|]. split; [exact Hnd|]. split; [|exact H2].
  clear H2. assert (Some (delivered res) = delivered ∘ fst <$> rx_run toy_frame toy_opt toy_rx) as Hd by (by rewrite Hrun).
  set (r := delivered ∘ fst <$> rx_run toy_frame toy_opt toy_rx) in Hd. vm_compute in r. unfold r in Hd. by injection Hd.
Defined.

(** Both ends of a tunnel, with key 2 at the second place of the scan list. *)
Definition toy_addr : openvpn_sockaddr := mkosa AF_INET 1194 7 [].
Definition toy_ks (id state : Z) : key_state := mkdks state id toy_addr toy_opt 0 0 KS_AUTH_TRUE 0.
Definition toy_multi (peer : bool) : tls_multi :=
  mktm false [toy_ks 1 1; toy_ks 2 6; toy_ks 0 0] None CAS_SUCCEEDED 0 5 peer.
Definition toy_context (peer : bool) : data_context :=
  mkdc (toy_multi peer) toy_frame toy_frame None (toy_buf 128 0 [] []) (toy_buf 128 0 [] []).
Definition toy_sign (peer : bool) : option (data_context * buffer) :=
  encrypt_sign 100 toy_prng (toy_context peer) (toy_buf 64 16 [] [1; 2; 3]) true.
Definition toy_link_v1 : list Z := Eval vm_compute in default [] (buf_contents ∘ snd <$> toy_sign false).
Definition toy_link_v2 : list Z := Eval vm_compute in default [] (buf_contents ∘ snd <$> toy_sign true).
Definition toy_link (peer : bool) : list Z := if peer then toy_link_v2 else toy_link_v1.

(** What the examples need to know of a packet sent. *)
Lemma toy_signed peer c out opt : toy_sign peer = Some (c, out) -> get_opt (dc_multi c) (Some 1%nat) = Some opt ->
  buf_contents out = toy_link peer /\ b_len out <= 64 /\ o_send opt = mksend 1 100.
Proof.
  intros Hs Hg. assert (Hr : Some (buf_contents out, b_len out, Some (o_send opt)) =
    (fun r => (buf_contents (snd r), b_len (snd r), o_send <$> get_opt (dc_multi (fst r)) (Some 1%nat))) <$> toy_sign peer).
  { rewrite Hs. cbn [fmap option_fmap option_map fst snd]. by rewrite Hg. }
  clear Hs Hg. revert Hr. destruct peer; (match goal with |- _ = ?r -> _ => let v := eval vm_compute in r in change r with v end);
    intros [= -> -> ->]; (split; [reflexivity|]; split; [by vm_compute|reflexivity]).
Qed.

Lemma toy_ready peer : sender_ready 100 (toy_context peer) (toy_buf 64 16 [] [1; 2; 3]) true 1 (toy_ks 2 6) toy_K toy_K toy_cf toy_kt.
Proof.
  constructor; try reflexivity; try (by apply toy_fits_live); [..|intros k [= <-] Ha; by vm_compute in Ha].
  1-4: first [apply toy_opt_ok | apply toy_keys_ok | by right | by split; vm_compute].
  all: by vm_compute.
Qed.

Lemma toy_receiver_ready peer : receiver_ready (toy_context peer) toy_addr false 2 1 (toy_ks 2 6) toy_K toy_K toy_cf.
Proof. constructor; try reflexivity; [apply toy_opt_ok|apply toy_keys_ok]. Qed.

Lemma toy_work_room n : n <= 64 -> work_room toy_frame (toy_buf 128 0 [] []) (n + 1).
Proof.
  intros Hn. split; [by apply toy_fits_live|].
  change (FRAME_HEADROOM_ADJ toy_frame FRAME_HEADROOM_MARKER_DECRYPT) with 32. cbn [b_capacity toy_buf]. lia.
Qed.

Lemma data_packet_roundtrip_witness :
  let received peer := exists b cr,
    incoming_data_packet 200 (toy_context peer) toy_addr (toy_buf 64 8 [] (toy_link peer)) false = Some (true, b, cr) /\
    buf_contents b = [1; 2; 3] in
  received true /\ received false.
Proof.
  intros received. enough (Hall : forall peer, received peer) by (split; apply Hall).
  intros peer. destruct (data_packet_roundtrip 100 toy_prng (toy_context peer) (toy_buf 64 16 [] [1; 2; 3]) true 1 (toy_ks 2 6)
      toy_K toy_K toy_cf toy_kt (toy_ready peer) toy_prng_ok) as (c' & out & opt' & Hrun & Hget & Hrecv); [by vm_compute|by right|].
  destruct (toy_signed peer c' out opt' Hrun Hget) as (Hout & Hlen & Hpid). clear Hrun Hget.
  assert (Hlive : buf_live (toy_buf 64 8 [] (toy_link peer))) by (destruct peer; by apply toy_fits_live).
  assert (Hc : buf_contents (toy_buf 64 8 [] (toy_link peer)) = buf_contents out) by (rewrite Hout; destruct peer; by vm_compute).
  refine (Hrecv 200 (toy_context peer) toy_addr false 1%nat (toy_ks 2 6) toy_K _ true (toy_receiver_ready peer) Hlive Hc _ _).
  - intros k _. by apply toy_work_room.
  - unfold wire_pin. rewrite Hpid. by vm_compute.
Defined.
