(* ===== verification/AuthToken.v ===== *)
(** Authentication tokens ([src/openvpn/auth_token.c]): a server hands a client that gave
    a password a token, which the client shows instead from then on; with the check of
    names and passwords that uses them ([verify_user_pass] of [ssl_verify.c]) and the
    functions that send tokens ([push.c]). *)
From Stdlib Require Import String.
From stdpp Require Import list.
From S2P Require Import Prelude CString Base64 Integer CircList Buffer PacketId Mtu Crypto CryptoToy DataChannel ControlCrypt.

(** ** The code *)

Definition AUTH_TOKEN_SESSION_ID_LEN : Z := 12.
Definition TOKEN_DATA_LEN : Z := 2 * 8 + AUTH_TOKEN_SESSION_ID_LEN + 32.
Definition SESSION_ID_PREFIX : list Z := lit "SESS_ID_AT_".
(** Without PKCS#11; with it a password is shorter, and its decoding as well. *)
Definition USER_PASS_LEN : Z := Z.shiftl 1 17.
Definition TLS_USERNAME_LEN : Z := 64.
Definition AUTH_TOKEN_HMAC_OK : Z := Z.shiftl 1 0.
Definition AUTH_TOKEN_EXPIRED : Z := Z.shiftl 1 1.
Definition AUTH_TOKEN_VALID_EMPTYUSER : Z := Z.shiftl 1 2.

(** [htonll], in memory. *)
Definition be64 (z : Z) : list Z := be32 (z / 2 ^ 32) ++ be32 z.

Record user_pass := mkup { up_username : list Z; up_password : list Z }.
#[export] Instance eta_up : EtaOf user_pass := fun r => mkup (up_username r) (up_password r).

(** The options of [struct tls_options] that matter here. *)
Record token_options := mkto {
  to_auth_token_generate : bool; to_auth_token_call_auth : bool; to_auth_token_lifetime : Z; to_renegotiate_seconds : Z;
  to_user_pass_optional : bool; to_username_as_common_name : bool }.

Inductive plugin_result := OPENVPN_PLUGIN_FUNC_SUCCESS | OPENVPN_PLUGIN_FUNC_ERROR | OPENVPN_PLUGIN_FUNC_DEFERRED.
Inductive kmda := KMDA_ERROR | KMDA_SUCCESS | KMDA_UNDEF | KMDA_DEF.
#[export] Instance plugin_result_eq : EqDecision plugin_result.
Proof. solve_decision. Defined.
#[export] Instance kmda_eq : EqDecision kmda.
Proof. solve_decision. Defined.

(** What the environment of the server has and answers: a management interface that
    decides on clients, a plugin and a script. *)
Record auth_outside := mkao { ao_management : bool; ao_plugin : option plugin_result; ao_script : option bool }.

(** The key state and the session that authenticate. *)
Record token_ks := mktks { tk_authenticated : ks_auth_state; tk_flags : Z; tk_mda_disabled : bool; tk_key_id : Z; tk_common_name : option (list Z) }.
#[export] Instance eta_token_ks : EtaOf token_ks := fun r => mktks (tk_authenticated r) (tk_flags r) (tk_mda_disabled r) (tk_key_id r) (tk_common_name r).

(** The checks of the time stamps: the flags of a token with a good HMAC. *)
Definition token_flags (now : Z) (opt : token_options) (timestamp timestamp_initial : Z) (initialtoken : bool) (ret : Z) : Z :=
  let in_renog_time := (timestamp <=? u64 now) && (u64 now <? u64 (timestamp + i32 (2 * to_renegotiate_seconds opt))) in
  let ret := if negb in_renog_time && negb initialtoken then Z.lor ret AUTH_TOKEN_EXPIRED else ret in
  let ret := if timestamp <? timestamp_initial then Z.lor ret AUTH_TOKEN_EXPIRED else ret in
  if negb (to_auth_token_lifetime opt =? 0) && (u64 (timestamp_initial + to_auth_token_lifetime opt) <? u64 now)
  then Z.lor ret AUTH_TOKEN_EXPIRED else ret.

Section Model.
Context `{EvpLib}.

(** [tm_active_flags] are the flags of the primary key of the active session; [tm_is_active]
    tells whether that is the key state at hand.  [tm_others] are the verdicts of all other
    key states, [tm_sent] the tokens sent to the client. *)
Record token_multi := mktm {
  tm_auth_token : option (list Z); tm_auth_token_initial : option (list Z); tm_locked_username : option (list Z);
  tm_ctx : HMAC_CTX; tm_active_flags : Z; tm_is_active : bool; tm_others : list ks_auth_state; tm_expired_reason : bool; tm_sent : list (list Z) }.
#[export] Instance eta_token_multi : EtaOf token_multi := fun r =>
  mktm (tm_auth_token r) (tm_auth_token_initial r) (tm_locked_username r) (tm_ctx r) (tm_active_flags r) (tm_is_active r) (tm_others r) (tm_expired_reason r) (tm_sent r).

Definition is_auth_token (password : list Z) : bool := bytes_eqb SESSION_ID_PREFIX (take (length SESSION_ID_PREFIX) password).

Definition wipe_auth_token (m : token_multi) : token_multi := m <| tm_auth_token := None |> <| tm_auth_token_initial := None |>.

(** The session id and the initial time stamp of a token, the memory of a 64-bit integer. *)
Definition old_session (tok : list Z) : option (list Z * list Z) :=
  let old_sessid := drop (length SESSION_ID_PREFIX) tok in
  let old_tstamp := drop 16 old_sessid in
  _ ← guard (zlen SESSION_ID_PREFIX + AUTH_TOKEN_SESSION_ID_LEN * 8 / 6 + 12 <= zlen tok);
  '(n, tstamp) ← openvpn_base64_decode (take 12 old_tstamp) 9;
  _ ← guard (n = 9);
  '(n, sessid) ← openvpn_base64_decode (take 16 old_sessid) AUTH_TOKEN_SESSION_ID_LEN;
  _ ← guard (n = AUTH_TOKEN_SESSION_ID_LEN);
  Some (sessid, take 8 tstamp).

(** [rand]: what [rand_bytes] gives, if it does. *)
Definition generate_auth_token (now : Z) (rand : option (list Z)) (up : user_pass) (m : token_multi) : option token_multi :=
  let timestamp := be64 now in
  _ ← guard (hmac_ctx_size (tm_ctx m) = 256 / 8);
  '(sessid, initial_timestamp) ←
    match tm_auth_token m with
    | Some tok => old_session tok
    | None => sessid ← rand; Some (sessid, timestamp)
    end;
  let ctx := hmac_ctx_reset (tm_ctx m) in
  let ctx := hmac_ctx_update ctx (if flag (tm_active_flags m) AUTH_TOKEN_VALID_EMPTYUSER then [] else up_username up) in
  let ctx := hmac_ctx_update ctx sessid in
  let ctx := hmac_ctx_update ctx initial_timestamp in
  let ctx := hmac_ctx_update ctx timestamp in
  let '(ctx, hmac_output) := hmac_ctx_final ctx in
  let token := sessid ++ initial_timestamp ++ timestamp ++ hmac_output in
  _ ← guard (zlen token <= 2 * 8 + AUTH_TOKEN_SESSION_ID_LEN + 256 / 8);
  b64output ← openvpn_base64_encode token;
  Some (m <| tm_ctx := ctx |> <| tm_auth_token := Some (SESSION_ID_PREFIX ++ b64output) |>).

Definition check_hmac_token (ctx : HMAC_CTX) (b64decoded username : list Z) : option (HMAC_CTX * bool) :=
  _ ← guard (hmac_ctx_size ctx = 256 / 8);
  let ctx := hmac_ctx_reset ctx in
  let ctx := hmac_ctx_update ctx username in
  let ctx := hmac_ctx_update ctx (mem_read b64decoded 0 (TOKEN_DATA_LEN - 256 / 8)) in
  let '(ctx, hmac_output) := hmac_ctx_final ctx in
  Some (ctx, bytes_eqb hmac_output (mem_read b64decoded (TOKEN_DATA_LEN - 256 / 8) 32)).

(** The password starts with the initial token. *)
Definition is_initial_token (password : list Z) (m : token_multi) : bool :=
  match tm_auth_token_initial m with
  | Some initial => bytes_eqb (take (length initial) password) initial
  | None => false
  end.

Definition verify_auth_token (now : Z) (opt : token_options) (up : user_pass) (m : token_multi) : option (Z * user_pass * token_multi) :=
  '(decoded_len, b64decoded) ← openvpn_base64_decode (drop (length SESSION_ID_PREFIX) (up_password up)) USER_PASS_LEN;
  if negb (decoded_len =? TOKEN_DATA_LEN) then Some (0, up, m)
  else
    let timestamp := be_val (mem_read b64decoded (AUTH_TOKEN_SESSION_ID_LEN + 8) 8) in
    let timestamp_initial := be_val (mem_read b64decoded AUTH_TOKEN_SESSION_ID_LEN 8) in
    '(ctx, ok) ← check_hmac_token (tm_ctx m) b64decoded (up_username up);
    '(ctx, ret, up) ←
      (if (ok : bool) then Some (ctx, AUTH_TOKEN_HMAC_OK, up)
       else
         '(ctx, ok) ← check_hmac_token ctx b64decoded [];
         Some (ctx, if (ok : bool) then Z.lor AUTH_TOKEN_HMAC_OK AUTH_TOKEN_VALID_EMPTYUSER else 0, if ok then up <| up_username := [] |> else up));
    let m := m <| tm_ctx := ctx |> in
    if ret =? 0 then Some (0, up, m)
    else
      let ret := token_flags now opt timestamp timestamp_initial (is_initial_token (up_password up) m) ret in
      Some (ret, up, if flag ret AUTH_TOKEN_EXPIRED then m <| tm_expired_reason := true |> else m).

(** The variables [session_state] and [session_id], where they are set. *)
Definition session_state (flags : Z) (up : user_pass) : string :=
  if negb (is_auth_token (up_password up)) then "Initial"
  else if flag flags AUTH_TOKEN_HMAC_OK then
    let f := Z.land flags (Z.lor AUTH_TOKEN_VALID_EMPTYUSER AUTH_TOKEN_EXPIRED) in
    if f =? 0 then "Authenticated"
    else if f =? AUTH_TOKEN_EXPIRED then "Expired"
    else if f =? AUTH_TOKEN_VALID_EMPTYUSER then "AuthenticatedEmptyUser"
    else "ExpiredEmptyUser"
  else "Invalid".

Definition add_session_token_env (now : Z) (rand : option (list Z)) (opt : token_options) (flags : Z) (up : user_pass) (m : token_multi)
    : option (token_multi * option (string * list Z)) :=
  if negb (to_auth_token_generate opt) then Some (m, None)
  else
    '(source, m) ←
      (if flag flags AUTH_TOKEN_HMAC_OK && negb (flag flags AUTH_TOKEN_EXPIRED) then Some (up_password up, m)
       else
         m ← (if bool_decide (is_Some (tm_auth_token m)) then Some m else generate_auth_token now rand up m);
         tok ← tm_auth_token m;
         _ ← guard (zlen SESSION_ID_PREFIX + AUTH_TOKEN_SESSION_ID_LEN * 8 / 6 <= zlen tok + 1);
         Some (tok, m));
    Some (m, Some (session_state flags up, take 16 (drop (length SESSION_ID_PREFIX) source))).

Definition set_verify_user_pass_env (now : Z) (rand : option (list Z)) (opt : token_options) (flags : Z) (up : user_pass) (m : token_multi)
    : option (bool * token_multi) :=
  if to_user_pass_optional opt || negb (zlen (up_username up) =? 0)
  then '(m, _) ← add_session_token_env now rand opt flags up m; Some (true, m)
  else Some (false, m).

Definition tls_deauthenticate (ks : token_ks) (m : token_multi) : token_ks * token_multi :=
  (ks <| tk_authenticated := KS_AUTH_FALSE |>, wipe_auth_token m <| tm_others := map (fun _ => KS_AUTH_FALSE) (tm_others m) |>).

Definition tls_lock_username (username : list Z) (ks : token_ks) (m : token_multi) : bool * token_ks * token_multi :=
  match tm_locked_username m with
  | Some locked => if bytes_eqb username locked then (true, ks, m) else let '(ks, m) := tls_deauthenticate ks m in (false, ks, m)
  | None => (true, ks, m <| tm_locked_username := Some username |>)
  end.

(** The token of a push message; the first one is remembered. *)
Definition prepare_auth_token_push_reply (m : token_multi) : option (list Z) * token_multi :=
  match tm_auth_token m with
  | Some tok => (Some tok, if bool_decide (is_Some (tm_auth_token_initial m)) then m else m <| tm_auth_token_initial := Some tok |>)
  | None => (None, m)
  end.
Definition send_push_reply_auth_token (m : token_multi) : option token_multi :=
  let '(tok, m) := prepare_auth_token_push_reply m in tok ← tok; Some (m <| tm_sent := tm_sent m ++ [tok] |>).
Definition ssl_session_fully_authenticated (ks : token_ks) (m : token_multi) : option token_multi :=
  if tk_key_id ks =? 0 then Some m
  else if bool_decide (is_Some (tm_auth_token_initial m)) then send_push_reply_auth_token m else Some m.

Definition string_mod_remap_name (str : list Z) : list Z := (string_mod str CC_PRINT CC_CRLF 95).2.

Definition set_flags (flags : Z) (ks : token_ks) (m : token_multi) : token_ks * token_multi :=
  (ks <| tk_flags := flags |>, if tm_is_active m then m <| tm_active_flags := flags |> else m).

(** The second half of [verify_user_pass]: from the sizing of the name on. *)
Definition finish_user_pass (now : Z) (rand : option (list Z)) (opt : token_options) (up : user_pass) (skip_auth : bool)
    (s1 : plugin_result) (s2 : bool) (man_def_auth : kmda) (ks : token_ks) (m : token_multi) : option (token_ks * token_multi) :=
  let s1 := if to_username_as_common_name opt && (TLS_USERNAME_LEN <? zlen (up_username up)) then OPENVPN_PLUGIN_FUNC_ERROR else s1 in
  let '(ok, ks, m) :=
    if negb (bool_decide (s1 = OPENVPN_PLUGIN_FUNC_ERROR)) && s2 && negb (bool_decide (man_def_auth = KMDA_ERROR))
    then tls_lock_username (up_username up) ks m else (false, ks, m) in
  if (ok : bool) then
    let ks := ks <| tk_authenticated := if bool_decide (s1 = OPENVPN_PLUGIN_FUNC_DEFERRED) then KS_AUTH_DEFERRED else KS_AUTH_TRUE |> in
    let ks := if bool_decide (man_def_auth = KMDA_UNDEF) then ks
              else if skip_auth then ks <| tk_mda_disabled := true |> else ks <| tk_authenticated := KS_AUTH_DEFERRED |> in
    let ks := if to_username_as_common_name opt then ks <| tk_common_name := Some (up_username up) |> else ks in
    m ← (if to_auth_token_generate opt then
           let m := if negb (bool_decide (is_Some (tm_auth_token m))) && flag (tk_flags ks) AUTH_TOKEN_HMAC_OK && negb (flag (tk_flags ks) AUTH_TOKEN_EXPIRED)
                    then m <| tm_auth_token := Some (up_password up) |> else m in
           generate_auth_token now rand up m
         else Some m);
    m ← (if bool_decide (tk_authenticated ks = KS_AUTH_TRUE) then ssl_session_fully_authenticated ks m else Some m);
    Some (ks, m)
  else Some (ks <| tk_authenticated := KS_AUTH_FALSE |>, m).

Definition verify_user_pass (now : Z) (rand : option (list Z)) (opt : token_options) (out : auth_outside) (up : user_pass) (ks : token_ks) (m : token_multi)
    : option (token_ks * token_multi) :=
  let man_def_auth := if ao_management out then KMDA_DEF else KMDA_UNDEF in
  let up := mkup (string_mod_remap_name (up_username up)) (string_mod (up_password up) CC_PRINT CC_CRLF 95).2 in
  '(skip_auth, failed, up, ks, m) ←
    (if to_auth_token_generate opt && is_auth_token (up_password up) then
       '(flags, up, m) ← verify_auth_token now opt up m;
       let '(ks, m) := set_flags flags ks m in
       if to_auth_token_call_auth opt then Some (false, false, up, ks, m)
       else if flags =? AUTH_TOKEN_HMAC_OK then Some (true, false, up, ks, m)
       else Some (false, true, up, ks <| tk_authenticated := KS_AUTH_FALSE |>, wipe_auth_token m)
     else Some (false, false, up, ks, m));
  if (failed : bool) then Some (ks, m)
  else
    '(env_ok, m) ← set_verify_user_pass_env now rand opt (tk_flags ks) up m;
    let '(skip_auth, s1) := if (env_ok : bool) then (skip_auth, OPENVPN_PLUGIN_FUNC_SUCCESS) else (true, OPENVPN_PLUGIN_FUNC_ERROR) in
    let '(man_def_auth, s1, s2) :=
      if (skip_auth : bool) then (man_def_auth, s1, true)
      else (if bool_decide (man_def_auth = KMDA_DEF) then KMDA_SUCCESS else man_def_auth, default s1 (ao_plugin out), default true (ao_script out)) in
    finish_user_pass now rand opt up skip_auth s1 s2 man_def_auth ks m.

End Model.

(** ** Tokens *)

Lemma be64_bytes z : Forall is_byte (be64 z).
Proof. apply Forall_app. split; apply be32_bytes. Qed.
Lemma be64_val z : is_u 64 z -> be_val (be64 z) = z.
Proof.
  intros Hz. unfold be64. rewrite be_val_app, !be32_val. change (zlen (be32 z)) with 4. unfold wrap, is_u in *.
  change (256 ^ 4) with 4294967296. change (2 ^ 32) with 4294967296. change (2 ^ 64) with 18446744073709551616 in *. zdiv.
Qed.
Lemma be64_of_val l : Forall is_byte l -> zlen l = 8 -> be64 (be_val l) = l.
Proof.
  intros Hb Hl. pose proof (be_val_nonneg l Hb). pose proof (be_val_lt l Hb) as Hlt. rewrite Hl in Hlt. change (256 ^ 8) with (2 ^ 64) in Hlt.
  apply be_val_inj; [unfold zlen in Hl; change (length (be64 (be_val l))) with 8%nat; lia|apply be64_bytes|done|]. by apply be64_val.
Qed.

Lemma mem_read_here {A} (a b c : list A) n m : zlen a = n -> zlen b = m -> mem_read (a ++ b ++ c) n m = b.
Proof.
  unfold mem_read, zlen. intros <- <-. rewrite !Nat2Z.id, drop_app_length. by rewrite take_app_length.
Qed.

Section Laws.
Context `{StreamLaws} (k : hkey) (Hlen : hmac_len k = 32).

(** What a token says: the name it is for, the session, when it was begun and renewed. *)
Definition token_body (sid : list Z) (t0 t : Z) : list Z := sid ++ be64 t0 ++ be64 t.
Definition token_data (u sid : list Z) (t0 t : Z) : list Z := token_body sid t0 t ++ hmac k (u ++ token_body sid t0 t).

Definition is_sid (sid : list Z) : Prop := zlen sid = 12 /\ Forall is_byte sid.
Definition is_time (t : Z) : Prop := is_u 64 t.


Lemma size_of c : hmacs k c -> hmac_ctx_size c = 256 / 8.
Proof. intros Hc. unfold hmac_ctx_size. destruct (law_hmac k c [] Hc) as (-> & _). by rewrite Hlen. Qed.




(** ** Verdicts *)

Lemma check_spec c d u : hmacs k c -> exists c', hmacs k c' /\
  check_hmac_token c d u = Some (c', bytes_eqb (hmac k (u ++ mem_read d 0 28)) (mem_read d 28 32)).
Proof.
  intros Hc. unfold check_hmac_token. rewrite option_guard_True by by apply size_of. cbv zeta. unfold hmac_ctx_final, hmac_ctx_update, hmac_ctx_reset.
  pose proof (law_fed_init k c Hc) as Hf. apply (law_fed_update _ _ _ u) in Hf. apply (law_fed_update _ _ _ (mem_read d 0 28)) in Hf.
  apply law_fed_final in Hf as (c' & Ef & Hc'). change (TOKEN_DATA_LEN - 256 / 8) with 28. rewrite Ef, app_nil_l. by exists c'.
Qed.

(** The parts of sixty bytes. *)
Lemma data_parts d : Forall is_byte d -> zlen d = 60 -> exists sid t0 t mac, is_sid sid /\ is_time t0 /\ is_time t /\ d = token_body sid t0 t ++ mac /\
  mem_read d 0 28 = token_body sid t0 t /\ mem_read d 28 32 = mac /\ be_val (mem_read d 12 8) = t0 /\ be_val (mem_read d 20 8) = t.
Proof.
  intros Hb Hl. assert (forall o n, 0 <= o -> 0 <= n -> o + n <= 60 -> zlen (mem_read d o n) = n /\ Forall is_byte (mem_read d o n)) as Hr.
  { intros o n Ho Hn Hle. split; [apply mem_read_length; lia|by apply mem_read_Forall]. }
  destruct (Hr 0 12) as [L0 B0]; [lia..|]. destruct (Hr 12 8) as [L1 B1]; [lia..|]. destruct (Hr 20 8) as [L2 B2]; [lia..|].
  assert (forall l, Forall is_byte l -> zlen l = 8 -> is_time (be_val l)) as Ht.
  { intros l Hbl Hll. pose proof (be_val_nonneg l Hbl). pose proof (be_val_lt l Hbl) as Hlt. rewrite Hll in Hlt. by split. }
  exists (mem_read d 0 12), (be_val (mem_read d 12 8)), (be_val (mem_read d 20 8)), (mem_read d 28 32).
  assert (mem_read d 0 28 = token_body (mem_read d 0 12) (be_val (mem_read d 12 8)) (be_val (mem_read d 20 8))) as Hbody.
  { unfold token_body. rewrite !be64_of_val by done. pose proof (mem_read_app d 12 8 8) as M1. pose proof (mem_read_app d 0 12 16) as M2. change (12 + 8) with 20 in M1.
    change (8 + 8) with 16 in M1. change (0 + 12) with 12 in M2. change (12 + 16) with 28 in M2. rewrite <- M1, <- M2 by lia. done. }
  split; [done|]. split; [by apply Ht|]. split; [by apply Ht|]. split; [|done].
  pose proof (mem_read_app d 0 28 32) as M. change (0 + 28) with 28 in M. rewrite <- Hbody, <- M by lia. change (28 + 32) with 60. rewrite <- Hl. by rewrite mem_read_all.
Qed.

Lemma body_inj sid t0 t mac sid' t0' t' mac' : is_sid sid -> is_sid sid' -> is_time t0 -> is_time t -> is_time t0' -> is_time t' ->
  token_body sid t0 t ++ mac = token_body sid' t0' t' ++ mac' -> sid = sid' /\ t0 = t0' /\ t = t' /\ mac = mac'.
Proof.
  intros [L B] [L' B'] T0 T T0' T' E. unfold token_body in E. rewrite <- !app_assoc in E.
  apply app_inj_1 in E as [-> E]; [|unfold zlen in *; lia]. apply app_inj_1 in E as [E0 E]; [|done]. apply app_inj_1 in E as [E1 ->]; [|done].
  split; [done|]. rewrite <- (be64_val t0), <- (be64_val t0'), <- (be64_val t), <- (be64_val t') by done. by rewrite E0, E1.
Qed.

(** When a token is too old. *)
Definition token_expired (now : Z) (opt : token_options) (password : list Z) (m : token_multi) (t0 t : Z) : bool :=
  (negb ((t <=? now) && (now <? u64 (t + i32 (2 * to_renegotiate_seconds opt)))) && negb (is_initial_token password m))
  || (t <? t0) || (negb (to_auth_token_lifetime opt =? 0) && (u64 (t0 + to_auth_token_lifetime opt) <? now)).

(** The password is a token for the name [u]. *)
Definition is_token_for (password u sid : list Z) (t0 t : Z) : Prop :=
  is_sid sid /\ is_time t0 /\ is_time t /\
  openvpn_base64_decode (drop (length SESSION_ID_PREFIX) password) USER_PASS_LEN = Some (TOKEN_DATA_LEN, token_data u sid t0 t).

Definition verdict (name_ok expired : bool) : Z :=
  Z.lor (if name_ok then AUTH_TOKEN_HMAC_OK else Z.lor AUTH_TOKEN_HMAC_OK AUTH_TOKEN_VALID_EMPTYUSER) (if expired then AUTH_TOKEN_EXPIRED else 0).

Lemma token_flags_spec now opt password m t0 t (name_ok : bool) : is_time now ->
  let ret := token_flags now opt t t0 (is_initial_token password m) (if name_ok then AUTH_TOKEN_HMAC_OK else Z.lor AUTH_TOKEN_HMAC_OK AUTH_TOKEN_VALID_EMPTYUSER) in
  ret = verdict name_ok (token_expired now opt password m t0 t) /\ flag ret AUTH_TOKEN_EXPIRED = token_expired now opt password m t0 t.
Proof.
  intros Hnow. assert (u64 now = now) as Hn by by apply wrap_small. unfold verdict, token_expired, token_flags. rewrite Hn. cbv zeta.
  destruct (negb (_ && _) && negb _), (t <? t0), (negb (_ =? 0) && _), name_ok; split; reflexivity.
Qed.

Lemma verify_spec now opt up m : hmacs k (tm_ctx m) -> is_time now -> exists ctx, hmacs k ctx /\
  ( (forall u sid t0 t, u = up_username up \/ u = [] -> ~ is_token_for (up_password up) u sid t0 t) /\
      verify_auth_token now opt up m = Some (0, up, m <| tm_ctx := ctx |>)
  \/ exists (name_ok : bool) sid t0 t, let e := token_expired now opt (up_password up) m t0 t in
      (if name_ok then is_token_for (up_password up) (up_username up) sid t0 t
       else is_token_for (up_password up) [] sid t0 t /\ forall sid t0 t, ~ is_token_for (up_password up) (up_username up) sid t0 t) /\
      verify_auth_token now opt up m = Some (verdict name_ok e, if name_ok then up else up <| up_username := [] |>,
        m <| tm_ctx := ctx |> <| tm_expired_reason := if e then true else tm_expired_reason m |>) ).
Proof.
  intros Hc Hnow. unfold verify_auth_token, is_token_for.
  destruct (decode_total USER_PASS_LEN (drop (length SESSION_ID_PREFIX) (up_password up))) as (r & d & Ed & Hr & _). rewrite Ed. cbn [mbind option_bind].
  destruct (Z.eqb_spec r TOKEN_DATA_LEN) as [->|Hne]; cbn [negb]; cycle 1.
  { exists (tm_ctx m). split; [done|]. left. split; [intros u sid t0 t _ (_ & _ & _ & [= ? _]); done|]. by destruct m. }
  assert (zlen d = 60) as Hdl by (destruct Hr as [?|<-]; done).
  assert (Forall is_byte d) as Hdb by (eapply decode_bytes; [exact Ed|constructor]).
  destruct (data_parts d Hdb Hdl) as (sid & t0 & t & mac & Hs & T0 & T & Hd & E28 & Emac & E0 & E1).
  change (AUTH_TOKEN_SESSION_ID_LEN + 8) with 20. change AUTH_TOKEN_SESSION_ID_LEN with 12. rewrite E0, E1. cbv zeta.
  destruct (check_spec (tm_ctx m) d (up_username up) Hc) as (c1 & Hc1 & ->). rewrite E28, Emac. cbn [mbind option_bind].
  assert (forall u, bytes_eqb (hmac k (u ++ token_body sid t0 t)) mac = true <-> d = token_data u sid t0 t) as Hmac.
  { intros u. unfold bytes_eqb. rewrite bool_decide_eq_true, Hd. unfold token_data. split; [by intros <-|by intros ->%app_inv_head]. }
  assert (forall u sid' t0' t', is_sid sid' -> is_time t0' -> is_time t' -> d = token_data u sid' t0' t' -> sid' = sid /\ t0' = t0 /\ t' = t) as Hinj.
  { intros u sid' t0' t' Hs' Ht0' Ht' E. rewrite Hd in E. unfold token_data in E. by apply body_inj in E as (-> & -> & -> & _). }
  destruct (bytes_eqb (hmac k (up_username up ++ token_body sid t0 t)) mac) eqn:Eu.
  - exists c1. split; [done|]. right. exists true, sid, t0, t. cbn [mbind option_bind]. change (AUTH_TOKEN_HMAC_OK =? 0) with false. cbv iota.
    apply Hmac in Eu as Ed'. split; [by rewrite <- Ed'|]. cbv zeta. change (is_initial_token ?p ?x) with (is_initial_token (up_password up) m). destruct (token_flags_spec now opt (up_password up) m t0 t true Hnow) as [-> ->]. destruct (token_expired _ _ _ _ _ _); by destruct m.
  - destruct (check_spec c1 d [] Hc1) as (c2 & Hc2 & ->). rewrite E28, Emac. cbn [mbind option_bind]. exists c2. split; [done|].
    assert (forall sid' t0' t', ~ (is_sid sid' /\ is_time t0' /\ is_time t' /\ Some (TOKEN_DATA_LEN, d) = Some (TOKEN_DATA_LEN, token_data (up_username up) sid' t0' t'))) as Hno.
    { intros sid' t0' t' (Hs' & Ht0' & Ht' & [= E]). destruct (Hinj _ _ _ _ Hs' Ht0' Ht' E) as (-> & -> & ->). apply Hmac in E. congruence. }
    destruct (bytes_eqb (hmac k ([] ++ token_body sid t0 t)) mac) eqn:Ee.
    + right. exists false, sid, t0, t. change (Z.lor AUTH_TOKEN_HMAC_OK AUTH_TOKEN_VALID_EMPTYUSER =? 0) with false. cbv iota.
      apply Hmac in Ee as Ed'. split; [split; [by rewrite <- Ed'|exact Hno]|].
      cbv zeta. change (is_initial_token ?p ?x) with (is_initial_token (up_password up) m). destruct (token_flags_spec now opt (up_password up) m t0 t false Hnow) as [-> ->]. destruct (token_expired _ _ _ _ _ _); by destruct m.
    + left. change (0 =? 0) with true. cbv iota. split; [|done]. intros u sid' t0' t' [->| ->]; [apply Hno|].
      intros (Hs' & Ht0' & Ht' & [= E]). destruct (Hinj _ _ _ _ Hs' Ht0' Ht' E) as (-> & -> & ->). apply Hmac in E. congruence.
Qed.

(** ** A session *)






Lemma token_for_unique password u sid t0 t u' sid' t0' t' : is_token_for password u sid t0 t -> is_token_for password u' sid' t0' t' -> sid = sid' /\ t0 = t0' /\ t = t'.
Proof. intros (S & T0 & T & E) (S' & T0' & T' & E'). rewrite E in E'. injection E' as E'. unfold token_data in E'. by apply body_inj in E' as (? & ? & ? & _). Qed.



(** Whether a token of the session is accepted: the initial one (or the last one, while it
    is the same) or one that is not older than twice the renegotiation interval, within
    the lifetime of the session. *)
Definition reneg_ok (opt : token_options) (now t0 t : Z) (initial : bool) : bool :=
  (initial || (t =? t0) || (now <? t + 2 * to_renegotiate_seconds opt)) &&
  ((to_auth_token_lifetime opt =? 0) || (now <=? t0 + to_auth_token_lifetime opt)).





(** *** Acceptance *)

(** A password that looks like a token is judged by the token alone: no plugin, script or
    management interface is asked. *)
Lemma token_password now rand opt out up ks m :
  let u := string_mod_remap_name (up_username up) in let pw := (string_mod (up_password up) CC_PRINT CC_CRLF 95).2 in
  to_auth_token_generate opt = true -> to_auth_token_call_auth opt = false -> is_auth_token pw = true -> hmacs k (tm_ctx m) -> is_time now ->
  exists ctx, hmacs k ctx /\
  ( (forall sid t0 t, is_token_for pw u sid t0 t -> token_expired now opt pw m t0 t = true) /\
    (exists ks' m', verify_user_pass now rand opt out up ks m = Some (ks', m') /\ tk_authenticated ks' = KS_AUTH_FALSE /\
      tm_auth_token m' = None /\ tm_auth_token_initial m' = None /\ tm_ctx m' = ctx /\ tm_sent m' = tm_sent m)
  \/ exists sid t0 t, is_token_for pw u sid t0 t /\ token_expired now opt pw m t0 t = false /\
    let '(ks1, m1) := set_flags AUTH_TOKEN_HMAC_OK ks (m <| tm_ctx := ctx |>) in
    verify_user_pass now rand opt out up ks m =
      '(env_ok, m) ← set_verify_user_pass_env now rand opt AUTH_TOKEN_HMAC_OK (mkup u pw) m1;
      finish_user_pass now rand opt (mkup u pw) true (if (env_ok : bool) then OPENVPN_PLUGIN_FUNC_SUCCESS else OPENVPN_PLUGIN_FUNC_ERROR) true
        (if ao_management out then KMDA_DEF else KMDA_UNDEF) ks1 m).
Proof.
  cbv zeta. intros Hg Hca Hpw Hc Hnow. unfold verify_user_pass. cbv zeta. set (u := string_mod_remap_name (up_username up)). set (pw := (string_mod (up_password up) CC_PRINT CC_CRLF 95).2) in *.
  cbn [up_password]. rewrite Hg, Hpw, Hca. cbn [andb].
  destruct (verify_spec now opt (mkup u pw) m Hc Hnow) as (ctx & Hctx & [(Hno & ->)|(name_ok & sid & t0 & t & Htok & ->)]); exists ctx; (split; [done|]); cbn [up_username up_password] in *.
  - left. split; [intros sid t0 t Htok; exfalso; eapply (Hno u); [by left|exact Htok]|]. cbn [mbind option_bind]. unfold set_flags. cbv beta iota.
    destruct (tm_is_active m) eqn:Ea; cbn; rewrite ?Ea; cbn; eexists _, _; (split; [done|]); by cbn.
  - destruct name_ok; [destruct (token_expired now opt pw m t0 t) eqn:He|].
    + left. split; [intros sid' t0' t' Htok'; by destruct (token_for_unique _ _ _ _ _ _ _ _ _ Htok Htok') as (-> & -> & ->)|].
      cbn. destruct (tm_is_active m); cbn; eexists _, _; (split; [done|]); by cbn.
    + right. exists sid, t0, t. split; [done|]. split; [done|]. unfold set_flags. destruct m as [a b c d e f g h i]. cbn. destruct f; change (verdict true false =? AUTH_TOKEN_HMAC_OK) with true; change (verdict true false) with AUTH_TOKEN_HMAC_OK;
        cbv iota; cbn [mbind option_bind]; (destruct (set_verify_user_pass_env _ _ _ _ _ _) as [[[] ?]|]; reflexivity).
    + left. destruct Htok as [_ Hno]. split; [intros sid' t0' t' Htok'; by destruct (Hno sid' t0' t')|].
      cbn. destruct (token_expired now opt pw m t0 t); cbn; destruct (tm_is_active m); cbn; eexists _, _; (split; [done|]); by cbn.
Qed.


(** A key state of a negotiation with the key id [kid]. *)
Definition fresh_ks (kid : Z) : token_ks := mktks KS_AUTH_FALSE 0 false kid None.





(** All renegotiations of the list are in time. *)
Fixpoint chain (opt : token_options) (t0 t : Z) (l : list (Z * Z * bool)) : bool :=
  match l with [] => true | (now, _, initial) :: l => reneg_ok opt now t0 t initial && chain opt t0 now l end.


(** C14. Nobody gets in with a made-up token.  When a client shows a password that looks like a
    token, to a server that makes tokens, the verdict depends on the token alone, and no
    plugin or script is asked.  If it is not the base64 of a session, two time stamps and their
    authentication code, under the server's key, for the name the client gives, or if it is
    too old, the client is rejected and its tokens are forgotten. *)
Theorem auth_token_judged now rand opt out up ks m :
  let u := string_mod_remap_name (up_username up) in let pw := (string_mod (up_password up) CC_PRINT CC_CRLF 95).2 in
  to_auth_token_generate opt = true -> to_auth_token_call_auth opt = false -> is_auth_token pw = true -> hmacs k (tm_ctx m) -> is_time now ->
  (forall plugin script, verify_user_pass now rand opt (mkao (ao_management out) plugin script) up ks m = verify_user_pass now rand opt out up ks m) /\
  ( (exists sid t0 t, is_token_for pw u sid t0 t /\ token_expired now opt pw m t0 t = false)
  \/ exists ks' m', verify_user_pass now rand opt out up ks m = Some (ks', m') /\ tk_authenticated ks' = KS_AUTH_FALSE /\
      tm_auth_token m' = None /\ tm_auth_token_initial m' = None /\ tm_sent m' = tm_sent m /\ hmacs k (tm_ctx m') ).
Proof.
  cbv zeta. intros Hg Hca Hpw Hc Hnow. split.
  - intros plugin script. unfold verify_user_pass. cbv zeta. cbn [up_password]. rewrite Hg, Hpw, Hca. cbn [andb ao_management].
    destruct (verify_auth_token _ _ _ _) as [[[flags up'] m']|]; [|done]. cbn [mbind option_bind]. destruct (set_flags flags ks m') as [ks1 m1].
    destruct (flags =? AUTH_TOKEN_HMAC_OK); [|done]. cbn [mbind option_bind]. destruct (set_verify_user_pass_env _ _ _ _ _ _) as [[[] ?]|]; done.
  - destruct (token_password now rand opt out up ks m Hg Hca Hpw Hc Hnow) as (ctx & Hctx & [(_ & ks' & m' & E & ? & ? & ? & ? & ?)|(sid & t0 & t & Htok & He & _)]).
    + right. exists ks', m'. split; [done|]. by subst ctx.
    + left. by exists sid, t0, t.
Qed.

End Laws.

(** ** Examples *)

Definition toy_key : hkey (EvpLaws := toy_laws) := (toy_sha256, 5).
Definition toy_server_ctx : HMAC_CTX (EvpLib := toy_lib) := ((toy_sha256, 5), []).
Definition toy_token_multi : token_multi (H := toy_lib) := mktm None None None toy_server_ctx 0 true [] false [].
Definition toy_token_options : token_options := mkto true false 36000 3600 false false.
Definition toy_out : auth_outside := mkao false None (Some true).

Lemma auth_token_judged_witness : exists ks' m',
  verify_user_pass (H := toy_lib) 100 None toy_token_options toy_out (mkup (lit "alice") (lit "SESS_ID_AT_forged")) (fresh_ks 1) toy_token_multi = Some (ks', m') /\ tk_authenticated ks' = KS_AUTH_FALSE.
Proof.
  destruct (auth_token_judged toy_key eq_refl 100 None toy_token_options toy_out (mkup (lit "alice") (lit "SESS_ID_AT_forged")) (fresh_ks 1) toy_token_multi) as [_ [(sid & t0 & t & (_ & _ & _ & E) & _)|(ks' & m' & E & Ha & _)]];
    [reflexivity|reflexivity|vm_compute; reflexivity|reflexivity|split; vm_compute; done|exfalso; clear -E; apply (f_equal (option_map fst)) in E; vm_compute in E; discriminate|].
  exists ks', m'. split; [exact E|exact Ha].
Defined.

Definition toy_sid : list Z := replicate 12 7.


(** A lifetime ends a session however often its token was renewed. *)
Example lifetime_ends_session : chain (mkto true false 600 3600 false false) 100 100 [(300, 1, false); (700, 2, false); (701, 3, false)] = false.
Proof. reflexivity. Qed.

(** *** A valid token, written differently, stops the server

    [verify_auth_token] looks at the bytes that the decoder gives, so that a client may
    send its token with padding after every byte.  A server that does not know the client yet
    keeps that text, and [generate_auth_token] expects to find the time stamp at its place. *)
Definition toy_token (text : list Z -> list Z) : list Z := SESSION_ID_PREFIX ++ text (token_data toy_key (lit "alice") toy_sid 100 100).
Definition toy_reconnect (tok : list Z) : option ks_auth_state :=
  tk_authenticated ∘ fst <$> verify_user_pass (H := toy_lib) 200 None toy_token_options toy_out (mkup (lit "alice") tok) (fresh_ks 0) toy_token_multi.

Example canonical_token_accepted : toy_reconnect (toy_token b64) = Some KS_AUTH_TRUE.
Proof. vm_compute. reflexivity. Qed.
Example padded_token_stops_server : toy_reconnect (toy_token (fun d => concat (map (fun x => b64 [x]) d))) = None.
Proof. vm_compute. reflexivity. Qed.
