(* ===== verification/Ncp.v ===== *)
(** Negotiation of the data channel cipher ([src/openvpn/ssl_ncp.c], with the parts of
    [multi.c], [push.c], [ssl.c], [options.c] and [init.c] that use it): the list of ciphers a
    peer allows, what it tells the other end, the server's choice and the client's check. *)
From Stdlib Require Import String Ascii.
From stdpp Require Import list.
From S2P Require Import Prelude CString Integer CircList Buffer PacketId Mtu Crypto CryptoToy KeyExchange KeyDerive.

(** ** The code *)

Definition MAX_NCP_CIPHERS_LENGTH : Z := 127.
Definition IV_PROTO_DATA_V2 : Z := Z.shiftl 1 1.
Definition IV_PROTO_REQUEST_PUSH : Z := Z.shiftl 1 2.

(** Functions of the C library on strings. *)
Fixpoint starts_with (n h : list Z) : bool :=
  match n, h with [], _ => true | x :: n, y :: h => (x =? y) && starts_with n h | _, [] => false end.
Fixpoint strstr (h n : list Z) : option (list Z) :=
  if starts_with n h then Some h else match h with [] => None | _ :: h => strstr h n end.
(** The tokens of repeated calls of [strsep] and of [strtok]. *)
Fixpoint strsep_tokens (d : Z) (s : list Z) : list (list Z) :=
  match s with
  | [] => [[]]
  | c :: s => if c =? d then [] :: strsep_tokens d s else match strsep_tokens d s with t :: ts => (c :: t) :: ts | [] => [[c]] end
  end.
Definition nonempty (t : list Z) : bool := match t with [] => false | _ => true end.
Definition strtok_tokens (d : Z) (s : list Z) : list (list Z) := List.filter nonempty (strsep_tokens d s).
(** [sscanf] with ["%d"], for numbers that fit. *)
Fixpoint scan_digits (s : list Z) (acc : Z) : Z := match s with c :: s => if isdigit c then scan_digits s (acc * 10 + (c - 48)) else acc | [] => acc end.
Definition scan_unsigned (s : list Z) : option Z := match s with c :: _ => if isdigit c then Some (scan_digits s 0) else None | [] => None end.
Fixpoint scan_int (s : list Z) : option Z :=
  match s with
  | [] => None
  | c :: rest =>
      if isspace c then scan_int rest
      else if c =? 45 then Z.opp <$> scan_unsigned rest else if c =? 43 then scan_unsigned rest else scan_unsigned s
  end.

Definition strstr_peer (peer_info : option (list Z)) (n : string) : option (list Z) := s ← peer_info; strstr s (lit n).

Definition tls_peer_info_ncp_ver (peer_info : option (list Z)) : Z :=
  match strstr_peer peer_info "IV_NCP=" with
  | Some ncpstr => default 0 (scan_int (drop 7 ncpstr))
  | None => 0
  end.

Definition tls_peer_supports_ncp (peer_info : option (list Z)) : bool :=
  match peer_info with
  | None => false
  | Some _ => (2 <=? tls_peer_info_ncp_ver peer_info) || bool_decide (is_Some (strstr_peer peer_info "IV_CIPHERS="))
  end.

Definition tls_item_in_cipher_list (item lst : list Z) : bool := existsb (fun token => bytes_eqb token item) (strtok_tokens 58 lst).

(** Up to a character. *)
Fixpoint upto (d : Z) (s : list Z) : list Z := match s with [] => [] | c :: s => if c =? d then [] else c :: upto d s end.

Definition tls_peer_ncp_list (peer_info : option (list Z)) : list Z :=
  match strstr_peer peer_info "IV_CIPHERS=" with
  | Some s => upto 10 (drop 11 s)
  | None => if 2 <=? tls_peer_info_ncp_ver peer_info then lit "AES-256-GCM:AES-128-GCM" else []
  end.

Definition ncp_get_best_cipher (server_list : list Z) (peer_info remote_cipher : option (list Z)) : option (list Z) :=
  let peer_ncp_list := tls_peer_ncp_list peer_info in
  let remote_cipher :=
    match remote_cipher with
    | None => []
    | Some r => if bool_decide (is_Some (strstr_peer peer_info "IV_CIPHERS=")) then [] else r
    end in
  List.find (fun token => tls_item_in_cipher_list token peer_ncp_list || bytes_eqb token remote_cipher) (strsep_tokens 58 server_list).

(** The options and the session state that matter. *)
Record ncp_options := mkno {
  no_pull : bool; no_server : bool; no_ncp_enabled : bool; no_enable_ncp_fallback : bool;
  no_ncp_ciphers : list Z; no_ciphername : option (list Z) }.
#[export] Instance eta_no : EtaOf ncp_options := fun r =>
  mkno (no_pull r) (no_server r) (no_ncp_enabled r) (no_enable_ncp_fallback r) (no_ncp_ciphers r) (no_ciphername r).

(** The outcome of a failed negotiation is told to the client. *)
Definition extract_iv_proto (peer_info : option (list Z)) : Z :=
  match strstr_peer peer_info "IV_PROTO=" with
  | Some optstr => match scan_int (drop 9 optstr) with Some proto => if 0 <? proto then proto else 0 | None => 0 end
  | None => 0
  end.

(** [keys]: whether the active session has its data channel keys.  The results are
    [use_peer_id] and [push_request_received] when set, the verdict and the options. *)
Definition multi_client_set_protocol_options (peer_info remote_ciphername : option (list Z)) (keys : bool) (o : ncp_options)
    : bool * bool * bool * ncp_options :=
  let proto := extract_iv_proto peer_info in
  let use_peer_id := flag proto IV_PROTO_DATA_V2 in
  let push_request_received := flag proto IV_PROTO_REQUEST_PUSH in
  let '(ret, o) :=
    if negb (no_ncp_enabled o) then (true, o)
    else if keys then (true, o)
    else
      match ncp_get_best_cipher (no_ncp_ciphers o) peer_info remote_ciphername with
      | Some push_cipher => (true, o <| no_ciphername := Some push_cipher |>)
      | None =>
          let peer_ciphers := tls_peer_ncp_list peer_info in
          if 0 <? zlen peer_ciphers then (false, o)
          else if bool_decide (is_Some remote_ciphername) then (false, o)
          else (no_enable_ncp_fallback o, o)
      end in
  (use_peer_id, push_request_received, ret, o).

(** The option ["cipher"] of the push reply. *)
Definition pushed_cipher (peer_info : option (list Z)) (o : ncp_options) : option (list Z) :=
  if tls_peer_supports_ncp peer_info then no_ciphername o else None.

(** The client reads it; the flag is [OPT_P_NCP] of the options found. *)
Definition import_cipher (pushed : option (list Z)) (o : ncp_options) : bool * ncp_options :=
  match pushed with Some c => (true, o <| no_ciphername := Some c |>) | None => (false, o) end.

Definition tls_poor_mans_ncp (o : ncp_options) (remote_ciphername : option (list Z)) : bool * ncp_options :=
  match remote_ciphername with
  | Some r => if tls_item_in_cipher_list r (no_ncp_ciphers o) then (true, o <| no_ciphername := Some r |>) else (false, o)
  | None => (false, o)
  end.

Definition check_pull_client_ncp (remote_ciphername : option (list Z)) (found : bool) (o : ncp_options) : bool * ncp_options :=
  if found then (true, o)
  else if negb (no_ncp_enabled o) then (true, o)
  else
    let '(ok, o) := tls_poor_mans_ncp o remote_ciphername in
    if (ok : bool) then (true, o)
    else if negb (bool_decide (is_Some remote_ciphername)) && no_enable_ncp_fallback o then (true, o)
    else (false, o).

(** The check of [tls_session_update_crypto_params]: [config] is the configured cipher, the result
    whether the cipher of the options will be used. *)
Definition tls_session_update_check (server keys : bool) (config : list Z) (o : ncp_options) : option (bool * ncp_options) :=
  if keys then Some (true, o)
  else
    c ← no_ciphername o;
    let cipher_allowed_as_fallback := no_enable_ncp_fallback o && bytes_eqb c config in
    if negb server && negb cipher_allowed_as_fallback && negb (tls_item_in_cipher_list c (no_ncp_ciphers o))
    then Some (false, o <| no_ciphername := Some config |>)
    else Some (true, o).

(** The end of [do_deferred_options]: what a pulling client does with the reply. *)
Definition client_takes_cipher (pushed remote_ciphername : option (list Z)) (config : list Z) (o : ncp_options) : option (bool * ncp_options) :=
  let '(found, o) := import_cipher pushed o in
  let '(ok, o) := check_pull_client_ncp remote_ciphername found o in
  if negb ok then Some (false, o) else tls_session_update_check false false config o.

(** The lines of [push_peer_info]; [config_ncp_ciphers] are the client's. *)
Definition peer_info_ncp (mode_server pull ncp_enabled : bool) (config_ncp_ciphers : list Z) : list Z :=
  if ncp_enabled && (mode_server || pull) then
    (if tls_item_in_cipher_list (lit "AES-128-GCM") config_ncp_ciphers && tls_item_in_cipher_list (lit "AES-256-GCM") config_ncp_ciphers
     then lit "IV_NCP=2" ++ [10] else []) ++ lit "IV_CIPHERS=" ++ config_ncp_ciphers ++ [10]
  else [].

(** [options_postprocess_cipher]; [None] is a usage error. *)
Definition options_postprocess_cipher (o : ncp_options) : option ncp_options :=
  if negb (no_pull o) && negb (no_server o) then
    Some (o <| no_ncp_enabled := false |> <| no_ciphername := Some (default (lit "BF-CBC") (no_ciphername o)) |>)
  else
    match no_ciphername o with
    | None => _ ← guard (no_ncp_enabled o = true); Some (o <| no_ciphername := Some (lit "BF-CBC") |>)
    | Some c =>
        if negb (no_enable_ncp_fallback o) && negb (tls_item_in_cipher_list c (no_ncp_ciphers o))
        then Some (o <| no_enable_ncp_fallback := true |> <| no_ncp_ciphers := no_ncp_ciphers o ++ [58] ++ c |>)
        else Some o
    end.

Section Model.
Context `{EvpKeyLib} (EVP_CIPHER_name : EVP_CIPHER -> string).

Definition translate_cipher_name_to_openvpn (cipher_name : string) : string :=
  match get_cipher_name_pair cipher_name with Some p => fst p | None => cipher_name end.
Definition cipher_kt_name (cipher_kt : option EVP_CIPHER) : string :=
  match cipher_kt with None => "[null-cipher]" | Some c => translate_cipher_name_to_openvpn (EVP_CIPHER_name c) end.

(** [buf_puts] on a buffer of [MAX_NCP_CIPHERS_LENGTH] bytes. *)
Definition list_puts (new_list s : list Z) : list Z :=
  let cap := MAX_NCP_CIPHERS_LENGTH - zlen new_list in
  if 0 <? cap then new_list ++ take (Z.to_nat (cap - 1)) s else new_list.

(** One token: whether there was an error and the new list. *)
Definition mutate_token (token : list Z) (error_found : bool) (new_list : list Z) : bool * list Z :=
  let '(optional, token) := if char_at token 0 =? 63 then (true, drop 1 token) else (false, token) in
  let ktc := cipher_kt_get (str token) in
  if negb (bool_decide (is_Some ktc)) && negb (bytes_eqb token (lit "none")) then (error_found || negb optional, new_list)
  else
    let ovpn_cipher_name := match ktc with None => lit "none" | Some _ => lit (cipher_kt_name ktc) end in
    let new_list := if 0 <? zlen new_list then list_puts new_list [58] else new_list in
    if negb (zlen ovpn_cipher_name + 2 <? MAX_NCP_CIPHERS_LENGTH - zlen new_list) then (true, new_list)
    else (error_found, list_puts new_list ovpn_cipher_name).
Fixpoint mutate_loop (tokens : list (list Z)) (error_found : bool) (new_list : list Z) : bool * list Z :=
  match tokens with
  | [] => (error_found, new_list)
  | token :: tokens => let '(error_found, new_list) := mutate_token token error_found new_list in mutate_loop tokens error_found new_list
  end.
Definition mutate_ncp_cipher_list (lst : list Z) : option (list Z) :=
  let '(error_found, new_list) := mutate_loop (strtok_tokens 58 lst) false [] in
  if negb error_found && (0 <? zlen new_list) then Some new_list else None.

(** The part of [options_postprocess_mutate]. *)
Definition options_postprocess_ncp (o : ncp_options) : option ncp_options :=
  o ← options_postprocess_cipher o;
  if no_ncp_enabled o then l ← mutate_ncp_cipher_list (no_ncp_ciphers o); Some (o <| no_ncp_ciphers := l |>) else Some o.

End Model.

(** ** Tokens *)

Definition good_token (t : list Z) : Prop := t <> [] /\ Forall (fun c => 0 < c < 256 /\ c <> 58 /\ c <> 10) t.
#[export] Instance good_token_dec t : Decision (good_token t).
Proof. unfold good_token. apply _. Defined.

(** The list of tokens as a string. *)
Fixpoint join (ts : list (list Z)) : list Z :=
  match ts with [] => [] | [t] => t | t :: ts => t ++ 58 :: join ts end.

Lemma join_cons t ts : ts <> [] -> join (t :: ts) = t ++ 58 :: join ts.
Proof. by destruct ts. Qed.
Lemma join_snoc ts t : ts <> [] -> join (ts ++ [t]) = join ts ++ 58 :: t.
Proof.
  induction ts as [|u ts IH]; [done|]. intros _. destruct ts as [|v ts]; [done|]. rewrite <- app_comm_cons, !join_cons by done. rewrite IH by done. by rewrite <- app_assoc.
Qed.
Lemma join_nonempty ts : Forall good_token ts -> ts <> [] -> 0 < zlen (join ts).
Proof.
  intros Hts Hne. destruct ts as [|[|c t] ts]; [done|apply Forall_cons in Hts as [[? _] _]; done|].
  destruct ts; [cbn [join]|rewrite join_cons by done; rewrite <- app_comm_cons]; rewrite zlen_cons; [pose proof (zlen_nonneg t)|pose proof (zlen_nonneg (t ++ 58 :: join (l :: ts)))]; lia.
Qed.

Lemma strsep_token t s : Forall (fun c => c <> 58) t -> strsep_tokens 58 (t ++ 58 :: s) = t :: strsep_tokens 58 s.
Proof.
  induction 1 as [|c t Hc _ IH]; [done|]. cbn [app strsep_tokens]. destruct (Z.eqb_spec c 58); [done|]. by rewrite IH.
Qed.
Lemma strsep_last t : Forall (fun c => c <> 58) t -> strsep_tokens 58 t = [t].
Proof. induction 1 as [|c t Hc _ IH]; [done|]. cbn [strsep_tokens]. destruct (Z.eqb_spec c 58); [done|]. by rewrite IH. Qed.

Lemma good_no_colon t : good_token t -> Forall (fun c => c <> 58) t.
Proof. intros [_ H]. eapply Forall_impl; [exact H|]. by cbn; intros ? (? & ? & ?). Qed.

Lemma tokens_join ts : Forall good_token ts -> ts <> [] -> strsep_tokens 58 (join ts) = ts /\ strtok_tokens 58 (join ts) = ts.
Proof.
  intros Hts Hne. assert (strsep_tokens 58 (join ts) = ts) as E.
  { induction Hts as [|t ts Ht Hts IH]; [done|]. destruct ts as [|u ts]; [by apply strsep_last, good_no_colon|].
    rewrite join_cons, strsep_token, IH by (done || by apply good_no_colon). done. }
  split; [done|]. unfold strtok_tokens. rewrite E. clear E Hne. induction Hts as [|t ts [Ht _] _ IH]; [done|]. cbn. destruct t; [done|]. cbn. by rewrite IH.
Qed.

Lemma item_in_list item lst : tls_item_in_cipher_list item lst = true <-> item ∈ strtok_tokens 58 lst.
Proof.
  unfold tls_item_in_cipher_list. rewrite existsb_exists. setoid_rewrite <- list_elem_of_In. unfold bytes_eqb. setoid_rewrite bool_decide_eq_true. split; [by intros (? & ? & <-)|by exists item].
Qed.

(** ** Searching *)

Lemma strstr_prefix n h : starts_with n (n ++ h) = true.
Proof. induction n as [|c n IH]; [done|]. cbn. by rewrite Z.eqb_refl. Qed.
Lemma strstr_here n h : strstr (n ++ h) n = Some (n ++ h).
Proof. pose proof (strstr_prefix n h) as H. destruct (n ++ h); cbn [strstr]; by rewrite H. Qed.

Lemma starts_with_line n : Forall (fun c => c <> 10) n -> n <> [] -> forall a b, starts_with n (a ++ 10 :: b) = starts_with n a.
Proof.
  intros Hn Hne a. revert n Hn Hne. induction a as [|x a IH]; intros n Hn Hne b.
  - destruct n as [|c n]; [done|]. cbn. apply Forall_cons in Hn as [Hc _]. by destruct (Z.eqb_spec c 10).
  - destruct n as [|c n]; [done|]. cbn. apply Forall_cons in Hn as [_ Hn]. destruct (c =? x); [|done]. cbn. destruct (decide (n = [])) as [->|]; [by destruct a|]. by apply IH.
Qed.

(** What is not in a line is searched behind it. *)
Lemma strstr_line n a b : Forall (fun c => c <> 10) n -> n <> [] -> strstr a n = None -> strstr (a ++ 10 :: b) n = strstr b n.
Proof.
  intros Hn Hne. induction a as [|x a IH]; intros H.
  - cbn [app strstr]. pose proof (starts_with_line n Hn Hne [] b) as E. cbn [app] in E. rewrite E. by destruct n.
  - cbn [app strstr] in *. pose proof (starts_with_line n Hn Hne (x :: a) b) as E. cbn [app] in E. rewrite E. destruct (starts_with n (x :: a)); [done|]. by apply IH.
Qed.

Lemma upto_line t b : Forall (fun c => c <> 10) t -> upto 10 (t ++ 10 :: b) = t.
Proof. induction 1 as [|c t Hc _ IH]; [done|]. cbn. destruct (Z.eqb_spec c 10); [done|]. by rewrite IH. Qed.

Lemma join_no_newline ts : Forall good_token ts -> Forall (fun c => c <> 10) (join ts).
Proof.
  induction 1 as [|t ts [_ Ht] _ IH]; [constructor|]. assert (Forall (fun c => c <> 10) t) by (eapply Forall_impl; [exact Ht|]; by cbn; intros ? (? & ? & ?)).
  destruct ts; [done|]. rewrite join_cons by done. apply Forall_app. by split; [|constructor].
Qed.

(** ** The list of a peer *)

Section Lists.
Context `{EvpKeyLib} (EVP_CIPHER_name : EVP_CIPHER -> string).
(** Names of ciphers are made of printable characters. *)
Context (Hnames : forall c, good_token (lit (EVP_CIPHER_name c))).

(** The entry a token of the option stands for. *)
Definition plain_token (token : list Z) : list Z := if char_at token 0 =? 63 then drop 1 token else token.
Definition canonical (token : list Z) : option (list Z) :=
  match cipher_kt_get (str (plain_token token)) with
  | Some c => Some (lit (cipher_kt_name EVP_CIPHER_name (Some c)))
  | None => if bytes_eqb (plain_token token) (lit "none") then Some (lit "none") else None
  end.
Definition token_optional (token : list Z) : bool := char_at token 0 =? 63.

Lemma canonical_good token n : canonical token = Some n -> good_token n.
Proof.
  unfold canonical. destruct (cipher_kt_get _) as [c|]; [|case_match; [intros [= <-]; by apply (bool_decide_unpack _)|done]]. intros [= <-]. cbn [cipher_kt_name].
  unfold translate_cipher_name_to_openvpn, get_cipher_name_pair. destruct (List.find _ _) as [p|] eqn:E; [|apply Hnames].
  apply find_some in E as [Hin _]. cbn in Hin. repeat (destruct Hin as [<-|Hin]; [by apply (bool_decide_unpack _)|]). done.
Qed.

Lemma list_puts_all nl s : zlen nl + zlen s < MAX_NCP_CIPHERS_LENGTH -> list_puts nl s = nl ++ s.
Proof.
  intros Hl. unfold list_puts. pose proof (zlen_nonneg s). destruct (Z.ltb_spec 0 (MAX_NCP_CIPHERS_LENGTH - zlen nl)); [|lia]. f_equal. apply firstn_all2. unfold zlen in *. lia.
Qed.

(** One token extends the list by its entry, or is an error, or is left out. *)
Lemma mutate_token_spec token ns : Forall good_token ns ->
  let '(err, nl) := mutate_token EVP_CIPHER_name token false (join ns) in
  match canonical token with
  | Some n => err = true \/ (err = false /\ nl = join (ns ++ [n]))
  | None => err = negb (token_optional token) /\ nl = join ns
  end.
Proof.
  intros Hns. unfold mutate_token, canonical, token_optional, plain_token.
  destruct (if char_at token 0 =? 63 then (true, drop 1 token) else (false, token)) as [optional tok] eqn:Et.
  assert (optional = (char_at token 0 =? 63) /\ (if char_at token 0 =? 63 then drop 1 token else token) = tok) as [Eo Ep] by (destruct (char_at token 0 =? 63); by injection Et as <- <-).
  rewrite Ep. subst optional. clear Et.
  assert (forall n, good_token n -> let '(err, nl) :=
    let new_list := if 0 <? zlen (join ns) then list_puts (join ns) [58] else join ns in
    if negb (zlen n + 2 <? MAX_NCP_CIPHERS_LENGTH - zlen new_list) then (true, new_list) else (false, list_puts new_list n) in
    err = true \/ (err = false /\ nl = join (ns ++ [n]))) as Hput.
  { intros n Hn. cbv zeta. set (nl := if 0 <? zlen (join ns) then _ else _). pose proof (zlen_nonneg n). destruct (Z.ltb_spec (zlen n + 2) (MAX_NCP_CIPHERS_LENGTH - zlen nl)) as [Hlt|]; cbn [negb]; [|by left]. right. split; [done|].
    rewrite list_puts_all by lia. destruct (decide (ns = [])) as [->|Hne]; [done|]. subst nl. pose proof (join_nonempty ns Hns Hne) as Hp. destruct (Z.ltb_spec 0 (zlen (join ns))); [|lia].
    destruct (Z.ltb_spec (zlen (join ns) + 1) MAX_NCP_CIPHERS_LENGTH) as [Hfit|Hno].
    - rewrite list_puts_all by (rewrite zlen_cons, zlen_nil; lia). rewrite join_snoc by done. by rewrite <- app_assoc.
    - exfalso. assert (zlen (list_puts (join ns) [58]) >= zlen (join ns)); [|lia]. unfold list_puts. destruct (0 <? _); [|lia]. rewrite zlen_app. pose proof (zlen_nonneg (take (Z.to_nat (MAX_NCP_CIPHERS_LENGTH - zlen (join ns) - 1)) [58])). lia. }
  destruct (cipher_kt_get (str tok)) as [c|] eqn:Ec.
  - rewrite (bool_decide_eq_true_2 (is_Some (Some c))) by by eexists. cbn [negb andb orb]. apply Hput. apply (canonical_good token). unfold canonical, plain_token. by rewrite Ep, Ec.
  - rewrite (bool_decide_eq_false_2 (is_Some None)) by by apply is_Some_None. cbn [negb andb]. destruct (bytes_eqb tok (lit "none")); cbn [negb]; [|done]. apply Hput. by apply (bool_decide_unpack _).
Qed.

Lemma mutate_token_error token nl : (mutate_token EVP_CIPHER_name token true nl).1 = true.
Proof. unfold mutate_token. destruct (if char_at token 0 =? 63 then _ else _). cbv zeta. destruct (negb _ && _); [done|]. by destruct (negb (_ <? _)). Qed.
Lemma mutate_error tokens : forall nl, (mutate_loop EVP_CIPHER_name tokens true nl).1 = true.
Proof.
  induction tokens as [|t tokens IH]; intros nl; [done|]. cbn [mutate_loop]. pose proof (mutate_token_error t nl) as E. destruct (mutate_token EVP_CIPHER_name t true nl) as [e nl']. cbn in E. subst e. apply IH.
Qed.

Lemma mutate_loop_spec tokens : forall ns, Forall good_token ns ->
  let '(err, nl) := mutate_loop EVP_CIPHER_name tokens false (join ns) in
  err = true \/ nl = join (ns ++ omap canonical tokens) /\ Forall (fun t => canonical t = None -> token_optional t = true) tokens.
Proof.
  induction tokens as [|t tokens IH]; intros ns Hns; cbn [mutate_loop omap list_omap].
  { right. by rewrite app_nil_r. }
  pose proof (mutate_token_spec t ns Hns) as Ht. destruct (mutate_token EVP_CIPHER_name t false (join ns)) as [err nl].
  assert (err = true -> let '(err, nl) := mutate_loop EVP_CIPHER_name tokens err nl in err = true) as Herr.
  { intros ->. pose proof (mutate_error tokens nl). by destruct (mutate_loop _ _ _ _). }
  destruct (canonical t) as [n|] eqn:Hc; cbn.
  - destruct Ht as [Ht|[-> ->]]; [specialize (Herr Ht); destruct (mutate_loop _ _ _ _); by left|].
    specialize (IH (ns ++ [n])). destruct (mutate_loop _ _ _ _). destruct IH as [->|[-> Hall]]; [apply Forall_app; split; [done|constructor; [by eapply canonical_good|constructor]]|by left|right].
    split; [by rewrite <- app_assoc|]. constructor; [congruence|done].
  - destruct Ht as [-> ->]. destruct (token_optional t) eqn:Ho; cbn [negb] in *.
    + specialize (IH ns Hns). destruct (mutate_loop _ _ _ _). destruct IH as [->|[-> Hall]]; [by left|right]. split; [done|]. by constructor.
    + specialize (Herr eq_refl). destruct (mutate_loop _ _ _ _); by left.
Qed.

(** What an accepted list is: the entries of the tokens, in their order. *)
Lemma mutate_spec lst l : mutate_ncp_cipher_list EVP_CIPHER_name lst = Some l ->
  let ns := omap canonical (strtok_tokens 58 lst) in
  l = join ns /\ Forall good_token ns /\ ns <> [] /\ strsep_tokens 58 l = ns /\ strtok_tokens 58 l = ns /\
  Forall (fun t => canonical t = None -> token_optional t = true) (strtok_tokens 58 lst).
Proof.
  unfold mutate_ncp_cipher_list. pose proof (mutate_loop_spec (strtok_tokens 58 lst) [] ltac:(constructor)) as Hl. cbn [join app] in Hl.
  destruct (mutate_loop _ _ _ _) as [err nl]. destruct (negb err && (0 <? zlen nl)) eqn:E; [|done]. intros [= <-]. apply andb_true_iff in E as [E1%negb_true_iff E2%Z.ltb_lt].
  destruct Hl as [?|[-> Hall]]; [congruence|]. cbv zeta. set (ns := omap canonical (strtok_tokens 58 lst)) in *.
  assert (Forall good_token ns) as Hg.
  { apply Forall_forall. intros n Hn%list_elem_of_In. subst ns. apply list_elem_of_In, list_elem_of_omap in Hn as (t & _ & Ht). by eapply canonical_good. }
  assert (ns <> []) as Hne by (intros ->; by cbn in E2). destruct (tokens_join ns Hg Hne). done.
Qed.
End Lists.

(** ** The two ends *)

Lemma strstr_lines n ls b : Forall (fun c => c <> 10) n -> n <> [] -> Forall (fun l => strstr l n = None) ls ->
  strstr (concat (map (fun l => l ++ [10]) ls) ++ b) n = strstr b n.
Proof.
  intros Hn Hne. induction 1 as [|l ls Hl _ IH]; [done|]. cbn [map concat]. rewrite <- !app_assoc. cbn [app]. by rewrite strstr_line.
Qed.

(** The information a negotiating client sends about itself: other lines, its ciphers, more lines. *)
Definition client_info (ls : list (list Z)) (ciphers post : list Z) : list Z :=
  concat (map (fun l => l ++ [10]) ls) ++ peer_info_ncp false true true ciphers ++ post.

Lemma client_info_search ls ts post : Forall (fun l => strstr l (lit "IV_CIPHERS=") = None) ls ->
  strstr_peer (Some (client_info ls (join ts) post)) "IV_CIPHERS=" = Some (lit "IV_CIPHERS=" ++ join ts ++ 10 :: post).
Proof.
  intros Hls. unfold strstr_peer, client_info. cbn [mbind option_bind].
  assert (Forall (fun c => c <> 10) (lit "IV_CIPHERS=") /\ lit "IV_CIPHERS=" <> []) as [Hn Hne] by by apply (bool_decide_unpack _).
  rewrite strstr_lines by done. unfold peer_info_ncp. cbn [andb orb].
  assert (forall x : list Z, strstr ((lit "IV_CIPHERS=" ++ join ts ++ [10]) ++ x) (lit "IV_CIPHERS=") = Some (lit "IV_CIPHERS=" ++ join ts ++ 10 :: x)) as Hx.
  { intros x. rewrite <- !app_assoc. apply strstr_here. }
  destruct (tls_item_in_cipher_list _ _ && _); [|apply Hx]. rewrite <- !app_assoc. cbn [app].
  rewrite (strstr_line _ (lit "IV_NCP=2")) by (done || by vm_compute). rewrite <- (Hx post). by rewrite <- !app_assoc.
Qed.

Lemma client_info_list ls ts post : Forall good_token ts -> Forall (fun l => strstr l (lit "IV_CIPHERS=") = None) ls ->
  tls_peer_ncp_list (Some (client_info ls (join ts) post)) = join ts.
Proof.
  intros Hts Hls. unfold tls_peer_ncp_list. rewrite client_info_search by done. cbn [app].
  change 11%nat with (length (lit "IV_CIPHERS=")). rewrite skipn_app, Nat.sub_diag, skipn_all. cbn [app drop]. by apply upto_line, join_no_newline.
Qed.

Lemma find_ext {A} (f g : A -> bool) l : (forall x, f x = g x) -> List.find f l = List.find g l.
Proof. intros E. induction l as [|x l IH]; [done|]. cbn. by rewrite E, IH. Qed.

(** The server takes the first of its ciphers that the client lists or, when the client lists
    none, that the client uses already. *)
Lemma best_cipher_spec ns pi remote : Forall good_token ns -> ns <> [] ->
  ncp_get_best_cipher (join ns) pi remote =
  List.find (fun t => bool_decide (t ∈ strtok_tokens 58 (tls_peer_ncp_list pi)) ||
                      bool_decide (strstr_peer pi "IV_CIPHERS=" = None /\ remote = Some t)) ns.
Proof.
  intros Hg Hne. unfold ncp_get_best_cipher. destruct (tokens_join ns Hg Hne) as [-> _]. clear Hne.
  induction Hg as [|t ts [Ht _] _ IH]; [done|]. cbn [List.find].
  assert (tls_item_in_cipher_list t (tls_peer_ncp_list pi) = bool_decide (t ∈ strtok_tokens 58 (tls_peer_ncp_list pi))) as ->
    by (apply eq_bool_prop_intro; rewrite bool_decide_spec, Is_true_true; apply item_in_list).
  assert (bytes_eqb t match remote with
                    | None => []
                    | Some r => if bool_decide (is_Some (strstr_peer pi "IV_CIPHERS=")) then [] else r
                    end = bool_decide (strstr_peer pi "IV_CIPHERS=" = None /\ remote = Some t)) as ->.
  { unfold bytes_eqb. apply bool_decide_ext. destruct remote as [r|]; [|naive_solver]. destruct (strstr_peer _ _) as [s|].
    - rewrite bool_decide_eq_true_2 by by eexists. naive_solver.
    - rewrite bool_decide_eq_false_2 by by apply is_Some_None. naive_solver. }
  by rewrite IH.
Qed.

(** Whatever is pushed, the client keeps to its list and its configured fallback. *)
Lemma client_cipher_spec pushed remote config (o o' : ncp_options) ts :
  no_ncp_enabled o = true -> no_ncp_ciphers o = join ts -> Forall good_token ts -> ts <> [] ->
  client_takes_cipher pushed remote config o = Some (true, o') ->
  exists c, o' = o <| no_ciphername := Some c |> /\ (c ∈ ts \/ no_enable_ncp_fallback o = true /\ c = config).
Proof.
  intros He Hl Hg Hne. unfold client_takes_cipher.
  assert (exists found o1, import_cipher pushed o = (found, o1) /\ no_ncp_ciphers o1 = join ts /\ no_enable_ncp_fallback o1 = no_enable_ncp_fallback o /\ no_ncp_enabled o1 = true /\
    forall c, (o1 <| no_ciphername := Some c |>) = (o <| no_ciphername := Some c |>)) as (found & o1 & -> & Hl1 & Hf1 & He1 & Hs1).
  { destruct o; destruct pushed; eexists _, _; split; [done| |done|]; done. }
  assert (exists ok o2, check_pull_client_ncp remote found o1 = (ok, o2) /\ no_ncp_ciphers o2 = join ts /\ no_enable_ncp_fallback o2 = no_enable_ncp_fallback o /\
    forall c, (o2 <| no_ciphername := Some c |>) = (o <| no_ciphername := Some c |>)) as (ok & o2 & -> & Hl2 & Hf2 & Hs2).
  { unfold check_pull_client_ncp, tls_poor_mans_ncp. rewrite He1. destruct found; [by eexists _, _|]. cbn [negb]. destruct remote as [r|]; [destruct (tls_item_in_cipher_list _ _)|].
    - eexists _, _. split; [done|]. split; [done|]. split; [done|]. intros c. rewrite <- Hs1. by destruct o1.
    - eexists _, _. split; [done|]. done.
    - destruct (_ && _); eexists _, _; (split; [done|]); done. }
  destruct ok; cbn [negb]; [|done]. unfold tls_session_update_check. destruct (no_ciphername o2) as [c|] eqn:Ec; [|done]. cbn [mbind option_bind negb andb].
  assert (o2 = o <| no_ciphername := Some c |>) as Eo by (rewrite <- Hs2, <- Ec; by destruct o2).
  destruct (no_enable_ncp_fallback o2 && bytes_eqb c config) eqn:E; cbn [negb andb].
  { intros [= <-]. apply andb_true_iff in E as [E1 E2]. exists c. split; [done|right]. split; [congruence|by apply (bool_decide_unpack _), Is_true_true]. }
  rewrite Hl2. destruct (tls_item_in_cipher_list c (join ts)) eqn:Ein; cbn [negb]; [|done]. intros [= <-]. exists c. split; [done|left].
  apply item_in_list in Ein. by destruct (tokens_join ts Hg Hne) as [_ <-].
Qed.

Lemma client_takes_pushed c remote config (o : ncp_options) ts : no_ncp_ciphers o = join ts -> Forall good_token ts -> ts <> [] -> c ∈ ts ->
  client_takes_cipher (Some c) remote config o = Some (true, o <| no_ciphername := Some c |>).
Proof.
  intros Hl Hg Hne Hin. unfold client_takes_cipher, import_cipher, check_pull_client_ncp, tls_session_update_check. cbn [negb].
  assert (no_ciphername (o <| no_ciphername := Some c |>) = Some c /\ no_ncp_ciphers (o <| no_ciphername := Some c |>) = join ts) as [-> ->] by by destruct o.
  cbn [mbind option_bind negb andb].
  assert (tls_item_in_cipher_list c (join ts) = true) as -> by (apply item_in_list; by destruct (tokens_join ts Hg Hne) as [_ ->]).
  by rewrite andb_false_r.
Qed.

(** ** The agreement *)

Section Agreement.
Context `{EvpKeyLib} (EVP_CIPHER_name : EVP_CIPHER -> string) (Hnames : forall c, good_token (lit (EVP_CIPHER_name c))).

(** The first cipher of the server's option that the client's option has too. *)
Definition first_common (server_option client_option : list Z) : option (list Z) :=
  List.find (fun t => bool_decide (t ∈ omap (canonical EVP_CIPHER_name) (strtok_tokens 58 client_option)))
    (omap (canonical EVP_CIPHER_name) (strtok_tokens 58 server_option)).

Lemma agreement_spec so_opt co_opt Ls Lc (so co : ncp_options) ls post remote rc config :
  mutate_ncp_cipher_list EVP_CIPHER_name so_opt = Some Ls -> mutate_ncp_cipher_list EVP_CIPHER_name co_opt = Some Lc ->
  no_ncp_enabled so = true -> no_ncp_ciphers so = Ls -> no_ncp_ciphers co = Lc ->
  Forall (fun l => strstr l (lit "IV_CIPHERS=") = None) ls ->
  let pi := Some (client_info ls Lc post) in
  let '(_, _, ok, so') := multi_client_set_protocol_options pi remote false so in
  match first_common so_opt co_opt with
  | Some t => ok = true /\ pushed_cipher pi so' = Some t /\
              client_takes_cipher (Some t) rc config co = Some (true, co <| no_ciphername := Some t |>)
  | None => ok = false /\ so' = so
  end.
Proof.
  intros Hs Hc He Els Elc Hls. cbv zeta. unfold first_common.
  destruct (mutate_spec EVP_CIPHER_name Hnames _ _ Hs) as (Es & Hgs & Hnes & _). destruct (mutate_spec EVP_CIPHER_name Hnames _ _ Hc) as (Ec & Hgc & Hnec & _).
  revert Es Ec Hgs Hgc Hnes Hnec. generalize (omap (canonical EVP_CIPHER_name) (strtok_tokens 58 so_opt)) as ns, (omap (canonical EVP_CIPHER_name) (strtok_tokens 58 co_opt)) as nc.
  intros ns nc -> -> Hgs Hgc Hnes Hnec. pose proof (client_info_list ls nc post Hgc Hls) as Hi. pose proof (client_info_search ls nc post Hls) as Hf.
  unfold multi_client_set_protocol_options. rewrite He. cbn [negb]. rewrite Els, best_cipher_spec, Hi, Hf by done.
  destruct (tokens_join nc Hgc Hnec) as [_ Et]. rewrite Et.
  rewrite (find_ext _ (fun t => bool_decide (t ∈ nc))) by (intros t; rewrite (bool_decide_eq_false_2 (_ /\ _)) by (by intros [? _]); apply orb_false_r).
  destruct (List.find _ ns) as [t|] eqn:E.
  - apply find_some in E as [_ Hin%bool_decide_eq_true]. split; [done|]. split; [|by eapply client_takes_pushed].
    unfold pushed_cipher, tls_peer_supports_ncp. rewrite Hf, (bool_decide_eq_true_2 (is_Some _)), orb_true_r by by eexists. by destruct so.
  - pose proof (join_nonempty nc Hgc Hnec). destruct (Z.ltb_spec 0 (zlen (join nc))); [done|lia].
Qed.

(** Negotiation of the cipher, for options [so_opt] and [co_opt] of a server and a client that
    were accepted at start: the server pushes the first of its ciphers that the client has too and
    the client takes exactly that one; with none in common the server turns the client away and
    keeps its own cipher.  And whatever a server pushes, the client ends with a cipher of its list
    or with the one it configured and allowed as a fallback. *)
Theorem ncp_agreement so_opt co_opt Ls Lc (so co : ncp_options) ls post remote rc config :
  mutate_ncp_cipher_list EVP_CIPHER_name so_opt = Some Ls -> mutate_ncp_cipher_list EVP_CIPHER_name co_opt = Some Lc ->
  no_ncp_enabled so = true -> no_ncp_ciphers so = Ls ->
  no_ncp_enabled co = true -> no_ncp_ciphers co = Lc ->
  Forall (fun l => strstr l (lit "IV_CIPHERS=") = None) ls ->
  (let pi := Some (client_info ls Lc post) in
   let '(_, _, ok, so') := multi_client_set_protocol_options pi remote false so in
   match first_common so_opt co_opt with
   | Some t => ok = true /\ pushed_cipher pi so' = Some t /\
               client_takes_cipher (Some t) rc config co = Some (true, co <| no_ciphername := Some t |>)
   | None => ok = false /\ so' = so
   end) /\
  (forall pushed co', client_takes_cipher pushed rc config co = Some (true, co') ->
     exists c, co' = co <| no_ciphername := Some c |> /\
       (c ∈ omap (canonical EVP_CIPHER_name) (strtok_tokens 58 co_opt) \/ no_enable_ncp_fallback co = true /\ c = config)).
Proof.
  intros Hs Hc Hes Els Hec Elc Hls. split; [by eapply agreement_spec|]. intros pushed co'.
  destruct (mutate_spec EVP_CIPHER_name Hnames _ _ Hc) as (Ec & Hgc & Hnec & _). apply client_cipher_spec; [done|by rewrite Elc|done|done].
Qed.
End Agreement.

(** ** Examples *)

Definition toy_cipher_name (c : bool) : string := if c then "id-aes256-GCM" else "AES-256-CTR".
Definition toy_server : ncp_options := mkno false true true false (lit "AES-256-CTR:AES-256-GCM") (Some (lit "AES-256-CTR")).
Definition toy_client : ncp_options := mkno true false true false (lit "AES-256-GCM") (Some (lit "BF-CBC")).

Lemma ncp_agreement_witness :
  let pi := Some (client_info [lit "IV_VER=2.5.11"; lit "IV_PROTO=6"] (lit "AES-256-GCM") (lit "IV_LZO=1")) in
  multi_client_set_protocol_options pi None false toy_server = (true, true, true, toy_server <| no_ciphername := Some (lit "AES-256-GCM") |>) /\
  client_takes_cipher (Some (lit "AES-256-GCM")) None (lit "BF-CBC") toy_client = Some (true, toy_client <| no_ciphername := Some (lit "AES-256-GCM") |>).
Proof.
  cbv zeta. assert (forall c, good_token (lit (toy_cipher_name c))) as Hn by (intros []; by apply (bool_decide_unpack _)).
  destruct (ncp_agreement (H0 := toy_key_lib) toy_cipher_name Hn (lit "AES-256-CTR:AES-256-GCM") (lit "?CHACHA20-POLY1305:AES-256-GCM")
    (lit "AES-256-CTR:AES-256-GCM") (lit "AES-256-GCM") toy_server toy_client [lit "IV_VER=2.5.11"; lit "IV_PROTO=6"] (lit "IV_LZO=1") None None (lit "BF-CBC"))
    as [Ha _]; [by vm_compute|by vm_compute|done|done|done|done|by repeat constructor|].
  split; [by vm_compute|]. vm_compute in Ha. by apply Ha.
Defined.

(** A peer that lists no ciphers but speaks of the one it uses gets that one; one that tells
    nothing is refused unless a fallback is configured. *)
Example old_peer : ncp_get_best_cipher (lit "AES-256-GCM:BF-CBC") (Some (lit "IV_VER=2.3")) (Some (lit "BF-CBC")) = Some (lit "BF-CBC") /\
  (multi_client_set_protocol_options None None false toy_server).1.2 = false /\
  (multi_client_set_protocol_options None None false (toy_server <| no_enable_ncp_fallback := true |>)).1.2 = true.
Proof. by vm_compute. Qed.
