(* ===== verification/ParseLine.v ===== *)
(** Lines of options ([parse_line] of [src/openvpn/options.c]): how a line of a configuration
    file or a pushed option is cut into parameters. *)
From Stdlib Require Import String.
From stdpp Require Import list.
From S2P Require Import Prelude CString AuthToken.

(** ** The code *)

Definition OPTION_PARM_SIZE : Z := USER_PASS_LEN.
Definition MAX_PARMS : Z := 16.

Inductive line_state := STATE_INITIAL | STATE_READING_QUOTED_PARM | STATE_READING_UNQUOTED_PARM | STATE_DONE | STATE_READING_SQUOTED_PARM.
Definition is_initial (s : line_state) : bool := match s with STATE_INITIAL => true | _ => false end.
Definition is_done (s : line_state) : bool := match s with STATE_DONE => true | _ => false end.
Definition is_squoted (s : line_state) : bool := match s with STATE_READING_SQUOTED_PARM => true | _ => false end.

Definition space (c : Z) : bool := (c =? 0) || isspace c.

(** [li_p] are the parameters found, [li_parm] the one being read. *)
Record line_parser := mkli { li_state : line_state; li_backslash : bool; li_parm : list Z; li_p : list (list Z) }.
#[export] Instance eta_li : EtaOf line_parser := fun r => mkli (li_state r) (li_backslash r) (li_parm r) (li_p r).

(** How a turn of the loop ends. *)
Inductive line_turn := NextChar (s : line_parser) | LeaveLoop (s : line_parser) | BadLine.

(** The new state and the character to store; [None] for a comment. *)
Definition next_state (state : line_state) (backslash : bool) (c : Z) : option (line_state * Z) :=
  match state with
  | STATE_INITIAL =>
      if space c then Some (STATE_INITIAL, 0)
      else if (c =? 59) || (c =? 35) then None
      else if negb backslash && (c =? 34) then Some (STATE_READING_QUOTED_PARM, 0)
      else if negb backslash && (c =? 39) then Some (STATE_READING_SQUOTED_PARM, 0)
      else Some (STATE_READING_UNQUOTED_PARM, c)
  | STATE_READING_UNQUOTED_PARM => if negb backslash && space c then Some (STATE_DONE, 0) else Some (state, c)
  | STATE_READING_QUOTED_PARM => if negb backslash && (c =? 34) then Some (STATE_DONE, 0) else Some (state, c)
  | STATE_READING_SQUOTED_PARM => if c =? 39 then Some (STATE_DONE, 0) else Some (state, c)
  | STATE_DONE => Some (state, 0)
  end.

(** The end of a turn: at most [n] parameters are read. *)
Definition end_turn (n : Z) (s : line_parser) : line_turn := if n <=? zlen (li_p s) then LeaveLoop s else NextChar s.

Definition parse_char (n c : Z) (s : line_parser) : line_turn :=
  if negb (li_backslash s) && (c =? 92) && negb (is_squoted (li_state s))
  then end_turn n (s <| li_backslash := true |>)
  else
    match next_state (li_state s) (li_backslash s) c with
    | None => LeaveLoop s
    | Some (state, out) =>
        let '(state, parm, p) :=
          if is_done state then (STATE_INITIAL, [], li_p s ++ [li_parm s]) else (state, li_parm s, li_p s) in
        if li_backslash s && negb (out =? 0) && negb ((out =? 92) || (out =? 34) || space out) then BadLine
        else if negb (out =? 0) then
          if OPTION_PARM_SIZE <=? zlen parm then BadLine
          else end_turn n (mkli state false (parm ++ [out]) p)
        else end_turn n (mkli state false parm p)
    end.

Fixpoint parse_loop (n : Z) (cs : list Z) (s : line_parser) : option line_parser :=
  match cs with
  | [] => Some s
  | c :: cs => match parse_char n c s with NextChar s => parse_loop n cs s | LeaveLoop s => Some s | BadLine => None end
  end.

(** The parameters; none when the line is wrong. *)
Definition parse_line (line : list Z) (n : Z) : list (list Z) :=
  match parse_loop n (line ++ [0]) (mkli STATE_INITIAL false [] []) with
  | Some s => if is_initial (li_state s) then li_p s else []
  | None => []
  end.

(** ** Writing parameters *)

(** The ways to write a parameter. *)
Inductive writing := Bare | Quoted | SingleQuoted.
Definition escape (p : list Z) : list Z := concat (map (fun c => if (c =? 92) || (c =? 34) then [92; c] else [c]) p).
Definition write_parm (w : writing) (p : list Z) : list Z :=
  match w with Bare => p | Quoted => 34 :: escape p ++ [34] | SingleQuoted => 39 :: p ++ [39] end.

Definition plain (c : Z) : bool := negb (space c) && negb (c =? 92).
Definition starts_plain (p : list Z) : bool := match p with [] => false | c :: _ => negb (existsb (Z.eqb c) [34; 39; 59; 35]) end.
(** The parameters that can be written in a way. *)
Definition writable (w : writing) (p : list Z) : Prop :=
  is_str p /\ zlen p <= OPTION_PARM_SIZE /\
  match w with Bare => Forall (fun c => plain c = true) p /\ starts_plain p = true | Quoted => True | SingleQuoted => Forall (fun c => c <> 39) p end.
#[export] Instance writable_dec w p : Decision (writable w p).
Proof. unfold writable, is_str. destruct w; apply _. Defined.

Definition is_space_run (ws : list Z) : Prop := Forall (fun c => isspace c = true) ws.

(** A line: every parameter with the space behind it. *)
Fixpoint write_line (items : list (writing * list Z * list Z)) : list Z :=
  match items with [] => [] | (w, p, ws) :: items => write_parm w p ++ ws ++ write_line items end.
Definition good_item (i : writing * list Z * list Z) : Prop := writable i.1.1 i.1.2 /\ is_space_run i.2 /\ i.2 <> [].
Definition parms (items : list (writing * list Z * list Z)) : list (list Z) := map (fun i => i.1.2) items.

(** What may follow: nothing, a comment, or a last parameter. *)
Inductive line_end := NoMore | Comment (r : list Z) | LastParm (w : writing) (p : list Z).
Definition write_end (e : line_end) : list Z := match e with NoMore => [] | Comment r => 35 :: r | LastParm w p => write_parm w p end.
Definition good_end (e : line_end) : Prop := match e with LastParm w p => writable w p | _ => True end.
Definition end_parms (e : line_end) : list (list Z) := match e with LastParm _ p => [p] | _ => [] end.

(** ** Reading them back *)

Section Reading.
Context (n : Z).

Lemma skip_space ws cs p : is_space_run ws -> zlen p < n -> parse_loop n (ws ++ cs) (mkli STATE_INITIAL false [] p) = parse_loop n cs (mkli STATE_INITIAL false [] p).
Proof.
  intros Hw Hn. induction Hw as [|c ws Hc _ IH]; [done|]. cbn [app parse_loop]. unfold parse_char. cbn [li_backslash li_state negb andb li_p li_parm].
  destruct (Z.eqb_spec c 92) as [->|_]; [done|]. cbn [andb next_state]. unfold space. rewrite Hc, orb_true_r. cbn.
  unfold end_turn. cbn. destruct (Z.leb_spec n (zlen p)); [lia|apply IH].
Qed.

(** What a parameter leaves behind: the loop goes on unless it was the last one wanted. *)
Definition go_on (cs : list Z) (p : list (list Z)) : option line_parser :=
  if n <=? zlen p then Some (mkli STATE_INITIAL false [] p) else parse_loop n cs (mkli STATE_INITIAL false [] p).

Lemma read_quoted parm : forall pre cs p, is_str parm -> zlen pre + zlen parm <= OPTION_PARM_SIZE -> zlen p < n ->
  parse_loop n (escape parm ++ 34 :: cs) (mkli STATE_READING_QUOTED_PARM false pre p) = go_on cs (p ++ [pre ++ parm]).
Proof.
  induction parm as [|c parm IH]; intros pre cs p Hs Hl Hn.
  - cbn. unfold parse_char. cbn. unfold end_turn, go_on. cbn. rewrite app_nil_r. by destruct (n <=? _).
  - apply Forall_cons in Hs as [Hc Hs]. rewrite zlen_cons in Hl. pose proof (zlen_nonneg parm).
    assert (forall b, (b = true -> (c =? 92) || (c =? 34) = true) -> (b = false -> (c =? 92) || (c =? 34) = false) -> parse_loop n (c :: escape parm ++ 34 :: cs) (mkli STATE_READING_QUOTED_PARM b pre p) = go_on cs (p ++ [pre ++ c :: parm])) as Hput.
    { intros b Hb1 Hb2. cbn [parse_loop]. unfold parse_char. cbn [li_backslash li_state li_parm li_p].
      assert (negb b && (c =? 92) = false) as -> by (destruct b; [done|]; by destruct (orb_false_elim _ _ (Hb2 eq_refl)) as [-> _]). cbn [andb next_state].
      assert (negb b && (c =? 34) = false) as -> by (destruct b; [done|]; by destruct (orb_false_elim _ _ (Hb2 eq_refl)) as [_ ->]). cbv iota beta.
      cbn [is_done]. cbv iota beta.
      assert (b && negb (c =? 0) && negb ((c =? 92) || (c =? 34) || space c) = false) as -> by (destruct b; [rewrite (Hb1 eq_refl); by destruct (c =? 0)|done]).
      destruct (Z.eqb_spec c 0); [lia|]. cbn [negb]. destruct (Z.leb_spec OPTION_PARM_SIZE (zlen pre)); [lia|]. unfold end_turn. cbn [li_p].
      destruct (Z.leb_spec n (zlen p)); [lia|]. rewrite IH; [by rewrite <- app_assoc|done|rewrite zlen_app, zlen_cons, zlen_nil; lia|done]. }
    cbn [escape map concat]. change (concat (map (fun c => if (c =? 92) || (c =? 34) then [92; c] else [c]) parm)) with (escape parm).
    destruct ((c =? 92) || (c =? 34)) eqn:Ec; [|by apply Hput].
    cbn [app]. cbn [parse_loop]. unfold parse_char at 1. cbn [li_backslash li_state li_parm li_p negb andb].
    cbn. unfold end_turn. cbn.
    destruct (Z.leb_spec n (zlen p)); [lia|]. by apply Hput.
Qed.

Lemma read_single parm : forall pre cs p, is_str parm -> Forall (fun c => c <> 39) parm -> zlen pre + zlen parm <= OPTION_PARM_SIZE -> zlen p < n ->
  parse_loop n (parm ++ 39 :: cs) (mkli STATE_READING_SQUOTED_PARM false pre p) = go_on cs (p ++ [pre ++ parm]).
Proof.
  induction parm as [|c parm IH]; intros pre cs p Hs Hq Hl Hn.
  - cbn. unfold parse_char. cbn. unfold end_turn, go_on. cbn. rewrite app_nil_r. by destruct (n <=? _).
  - apply Forall_cons in Hs as [Hc Hs], Hq as [Hc' Hq]. rewrite zlen_cons in Hl. pose proof (zlen_nonneg parm).
    cbn [app parse_loop]. unfold parse_char. cbn [li_backslash li_state li_parm li_p negb]. cbn [is_squoted negb]. rewrite andb_false_r. cbn [next_state].
    destruct (Z.eqb_spec c 39); [done|]. cbv iota beta. cbn [is_done]. cbv iota beta. destruct (Z.eqb_spec c 0); [lia|]. cbn [negb andb].
    destruct (Z.leb_spec OPTION_PARM_SIZE (zlen pre)); [lia|]. unfold end_turn. cbn [li_p]. destruct (Z.leb_spec n (zlen p)); [lia|].
    rewrite IH; [by rewrite <- app_assoc|done|done|rewrite zlen_app, zlen_cons, zlen_nil; lia|done].
Qed.

Lemma read_bare parm : forall pre d cs p, is_str parm -> Forall (fun c => plain c = true) parm -> space d = true -> zlen pre + zlen parm <= OPTION_PARM_SIZE -> zlen p < n ->
  parse_loop n (parm ++ d :: cs) (mkli STATE_READING_UNQUOTED_PARM false pre p) = go_on cs (p ++ [pre ++ parm]).
Proof.
  induction parm as [|c parm IH]; intros pre d cs p Hs Hp Hd Hl Hn.
  - cbn [app parse_loop]. unfold parse_char. cbn [li_backslash li_state li_parm li_p negb andb]. destruct (Z.eqb_spec d 92) as [->|_]; [done|]. cbn [andb next_state negb]. rewrite Hd. cbn.
    unfold end_turn, go_on. cbn. rewrite app_nil_r. by destruct (n <=? _).
  - apply Forall_cons in Hs as [Hc Hs], Hp as [Hc' Hp]. rewrite zlen_cons in Hl. pose proof (zlen_nonneg parm). apply andb_true_iff in Hc' as [H1%negb_true_iff H2%negb_true_iff].
    cbn [app parse_loop]. unfold parse_char. cbn [li_backslash li_state li_parm li_p negb andb]. rewrite H2. cbn [andb next_state negb]. rewrite H1. cbv iota beta.
    cbn [is_done]. cbv iota beta. destruct (Z.eqb_spec c 0); [lia|]. cbn [negb andb].
    destruct (Z.leb_spec OPTION_PARM_SIZE (zlen pre)); [lia|]. unfold end_turn. cbn [li_p]. destruct (Z.leb_spec n (zlen p)); [lia|].
    rewrite IH; [by rewrite <- app_assoc|done|done|done|rewrite zlen_app, zlen_cons, zlen_nil; lia|done].
Qed.

(** A written parameter with space behind it is read as that parameter. *)
Lemma read_parm w parm d cs p : writable w parm -> space d = true -> zlen p < n ->
  parse_loop n (write_parm w parm ++ d :: cs) (mkli STATE_INITIAL false [] p) = go_on (match w with Bare => cs | _ => d :: cs end) (p ++ [parm]).
Proof.
  intros (Hs & Hl & Hw) Hd Hn. destruct w; cbn [write_parm].
  - destruct Hw as [Hp Hst]. destruct parm as [|c parm]; [done|]. apply Forall_cons in Hs as [Hc Hs], Hp as [Hc' Hp]. apply andb_true_iff in Hc' as [H1%negb_true_iff H2%negb_true_iff].
    cbn [starts_plain existsb] in Hst. apply negb_true_iff in Hst. rewrite orb_false_r in Hst. apply orb_false_iff in Hst as [E1 [E2 [E3 E4]%orb_false_iff]%orb_false_iff].
    cbn [app parse_loop]. unfold parse_char. cbn [li_backslash li_state li_parm li_p negb andb]. rewrite H2. cbn [andb next_state negb]. rewrite H1, E1, E2, E3, E4. cbn [orb]. cbv iota beta.
    cbn [is_done]. cbv iota beta. destruct (Z.eqb_spec c 0); [lia|]. cbn [negb andb]. change (zlen (@nil Z)) with 0. change (OPTION_PARM_SIZE <=? 0) with false. cbv iota.
    unfold end_turn. cbn [li_p]. destruct (Z.leb_spec n (zlen p)); [lia|]. rewrite zlen_cons in Hl.
    rewrite read_bare; [done|done|done|done|cbn [app]; rewrite zlen_cons, zlen_nil; lia|done].
  - cbn [app parse_loop]. unfold parse_char. cbn. unfold end_turn. cbn. destruct (Z.leb_spec n (zlen p)); [lia|]. rewrite <- app_assoc. cbn [app]. by rewrite read_quoted.
  - cbn [app parse_loop]. unfold parse_char. cbn. unfold end_turn. cbn. destruct (Z.leb_spec n (zlen p)); [lia|]. rewrite <- app_assoc. cbn [app]. by rewrite read_single.
Qed.

Lemma take_full {A} (x : A) (p q : list A) : n <= zlen (p ++ [x]) -> zlen p < n -> take (Z.to_nat n) (p ++ x :: q) = p ++ [x].
Proof.
  rewrite zlen_app, zlen_cons, zlen_nil. intros H1 H2. rewrite (cons_middle x p q), app_assoc.
  rewrite take_app_le, take_ge by (rewrite length_app; cbn; unfold zlen in *; lia). done.
Qed.

Lemma read_end e p : good_end e -> zlen p < n ->
  parse_loop n (write_end e ++ [0]) (mkli STATE_INITIAL false [] p) = Some (mkli STATE_INITIAL false [] (take (Z.to_nat n) (p ++ end_parms e))).
Proof.
  assert (forall p, zlen p <= n -> parse_loop n [0] (mkli STATE_INITIAL false [] p) = Some (mkli STATE_INITIAL false [] p)) as H0.
  { intros q Hq. cbn. unfold parse_char. cbn. unfold end_turn. cbn. by destruct (n <=? zlen q). }
  intros He Hn. assert (take (Z.to_nat n) p = p) as Hp by (apply take_ge; unfold zlen in Hn; lia). destruct e as [|r|w parm]; cbn [write_end end_parms].
  - rewrite app_nil_r, Hp. by apply H0; lia.
  - rewrite app_nil_r, Hp. done.
  - rewrite read_parm by done. unfold go_on. destruct (Z.leb_spec n (zlen (p ++ [parm]))); [by rewrite take_full|]. rewrite take_ge by (unfold zlen in *; lia).
    destruct w; [done|apply H0; lia|apply H0; lia].
Qed.

Lemma read_line items e : forall p, Forall good_item items -> good_end e -> zlen p < n ->
  parse_loop n (write_line items ++ write_end e ++ [0]) (mkli STATE_INITIAL false [] p) = Some (mkli STATE_INITIAL false [] (take (Z.to_nat n) (p ++ parms items ++ end_parms e))).
Proof.
  induction items as [|[[w parm] ws] items IH]; intros p Hi He Hn; cbn [write_line parms map app].
  - by apply read_end.
  - apply Forall_cons in Hi as [(Hw & Hws & Hne) Hi]. cbn [fst snd] in *. destruct ws as [|d ws]; [done|]. rewrite <- app_assoc. cbn [app]. rewrite <- app_assoc.
    assert (isspace d = true /\ is_space_run ws) as [Hd Hws'] by by apply Forall_cons in Hws. rewrite read_parm by (done || (unfold space; by rewrite Hd, orb_true_r)). unfold go_on.
    destruct (Z.leb_spec n (zlen (p ++ [parm]))) as [Hfull|Hmore].
    + by rewrite take_full.
    + destruct w; [rewrite (skip_space ws) by done|rewrite (app_comm_cons ws _ d), (skip_space (d :: ws)) by done|rewrite (app_comm_cons ws _ d), (skip_space (d :: ws)) by done]; rewrite IH by done; cbn [map]; by rewrite <- app_assoc.
Qed.
End Reading.

(** ** Any line *)

Definition parser_ok (n : Z) (s : line_parser) : Prop :=
  zlen (li_p s) <= n /\ zlen (li_parm s) <= OPTION_PARM_SIZE /\ Forall (fun p => zlen p <= OPTION_PARM_SIZE) (li_p s).

Lemma parse_char_ok n c s : parser_ok n s -> zlen (li_p s) < n ->
  match parse_char n c s with NextChar s' => parser_ok n s' /\ zlen (li_p s') < n | LeaveLoop s' => parser_ok n s' | BadLine => True end.
Proof.
  intros (Hp & Hm & Hf) Hn.
  assert (forall s', parser_ok n s' -> match end_turn n s' with NextChar s' => parser_ok n s' /\ zlen (li_p s') < n | LeaveLoop s' => parser_ok n s' | BadLine => True end) as Hend.
  { intros s' Hs'. unfold end_turn. by destruct (Z.leb_spec n (zlen (li_p s'))). }
  unfold parse_char. destruct (negb _ && _ && _); [by apply Hend|]. destruct (next_state _ _ _) as [[st out]|]; [|by split].
  assert (let '(state, parm, p) := if is_done st then (STATE_INITIAL, [], li_p s ++ [li_parm s]) else (st, li_parm s, li_p s) in parser_ok n (mkli state false parm p)) as Hs.
  { destruct (is_done st); [|by split]. split; cbn; [rewrite zlen_app, zlen_cons, zlen_nil; lia|]. split; [by vm_compute|]. apply Forall_app. by split; [|constructor]. }
  destruct (if is_done st then _ else _) as [[state parm] p]. destruct (_ && _); [done|]. destruct (negb (out =? 0)); [|by apply Hend].
  destruct (Z.leb_spec OPTION_PARM_SIZE (zlen parm)); [done|]. apply Hend. destruct Hs as (H1 & H2 & H3). split; [done|]. split; [cbn; rewrite zlen_app, zlen_cons, zlen_nil; lia|done].
Qed.

Lemma parse_line_ok line n : 0 < n -> zlen (parse_line line n) <= n /\ Forall (fun p => zlen p <= OPTION_PARM_SIZE) (parse_line line n).
Proof.
  intros Hn. unfold parse_line.
  assert (forall cs s, parser_ok n s -> zlen (li_p s) < n -> match parse_loop n cs s with Some s' => parser_ok n s' | None => True end) as H.
  { induction cs as [|c cs IH]; intros s Hs Hl; [done|]. cbn [parse_loop]. pose proof (parse_char_ok n c s Hs Hl). destruct (parse_char n c s); [by apply IH; apply H|done|done]. }
  specialize (H (line ++ [0]) (mkli STATE_INITIAL false [] [])). destruct (parse_loop _ _ _) as [s|]; [|split; [unfold zlen; cbn; lia|constructor]].
  destruct H as (H1 & _ & H3); [|done|by destruct (is_initial _); [split|split; [unfold zlen; cbn; lia|constructor]]]. split; [unfold zlen; cbn; lia|]. by split; [vm_compute|constructor].
Qed.

(** Parameters written with space between them, each bare, in double quotes with the
    backslashes and quotes escaped, or in single quotes, are read back, the first [n] of them,
    and a comment ends the line; no line gives more than [n] parameters or one that is
    longer than its buffer. *)
Theorem parse_line_reads_back line n lead items e : 0 < n ->
  is_space_run lead -> Forall good_item items -> good_end e ->
  parse_line (lead ++ write_line items ++ write_end e) n = take (Z.to_nat n) (parms items ++ end_parms e) /\
  zlen (parse_line line n) <= n /\ Forall (fun p => zlen p <= OPTION_PARM_SIZE) (parse_line line n).
Proof.
  intros Hn Hlead Hi He. split; [|by apply parse_line_ok]. unfold parse_line. rewrite <- !app_assoc, skip_space, read_line by done. done.
Qed.

(** A pushed route with a quoted name and a comment. *)
Lemma parse_line_reads_back_witness :
  parse_line (lit "route 'my net' 10.0.0.0 # x") 16 = [lit "route"; lit "my net"; lit "10.0.0.0"].
Proof.
  destruct (parse_line_reads_back [] 16 [] [(Bare, lit "route", [32]); (SingleQuoted, lit "my net", [32]); (Bare, lit "10.0.0.0", [32])] (Comment (lit " x"))) as [E _];
    [done|constructor| |done|exact E].
  repeat (apply Forall_cons; split; [split; [by apply (bool_decide_unpack _)|split; [by repeat constructor|done]]|]). constructor.
Defined.
